(* ===== verification/_CoqProject ===== *)
-Q . S2P
Prelude.v
JsString.v
JsNumber.v
Json.v
JsonLimits.v
JsonParse.v
JsonGraph.v
JsonClaims.v
Hash.v
Sha256Impl.v
Zod.v
Clock.v
JsonObject.v
Event.v
EventFacts.v
EventChain.v
EventClaims.v
EventLog.v
EventLogFacts.v
EventLogClaims.v
EventLimits.v
Codec.v
Records.v
Run.v
Processing.v
Commit.v
ProcessingStore.v
Processor.v
CommitFacts.v
StoreFacts.v
StoreInvariant.v
Fixture.v
StoreClaims.v
RunLog.v
ProcessorFacts.v
ProcessorRuns.v
ProcessorClaims.v
Evidence.v
SecContracts.v
EvidenceFacts.v
EvidenceClaims.v
EventPlan.v
EventPlanFacts.v
EventCalendar.v
CivilTime.v
CalendarPreparation.v
CalendarFacts.v
CalendarPlans.v
CalendarClaims.v
EventClusterBeta.v
EventClusterFacts.v
EventClusterRecovery.v
EventClusterLog.v
EventClusterClaims.v
Steps.v
Retention.v
RetentionJournal.v
RetentionController.v
RetentionErasure.v
RetentionFacts.v
RetentionErased.v
RetentionUse.v
RetentionClaims.v
EarningsCluster.v
EarningsSchemas.v
EarningsReducer.v
EarningsFacts.v
EarningsValues.v
EarningsSpec.v
EarningsLife.v
EarningsClaims.v
Acquisition.v
AcquisitionClaims.v
Journal.v
JournalFacts.v
MemoryJournal.v
JournalClaims.v
StateMachine.v
StateMachineFacts.v
StateMachineClaims.v
