(* ===== verification/Prelude.v ===== *)
(** * Verification of the PEAS engine

    PEAS is an event-sourced engine for market evidence written in TypeScript.
    Providers' records are captured as events in a hash-chained log
    ([src/core/event.ts], [src/adapters/memory]); a deterministic processor folds a
    reducer over the log and commits, event by event, a cursor, a checkpoint and
    outputs to a store ([src/core/processor.ts]); market acquisition
    ([src/adapters/market-acquisition]) fetches pages of data under quotas, retries
    and budgets, with a journal and a state machine of its own.  Everything that is
    hashed or stored is first written as canonical JSON ([src/core/json.ts]).

    ** Conventions.  A throw is a value of [exn] in the type [res]; a method of a
    stateful class is a function in the monad [sm], which keeps the state a throwing
    call leaves behind.  Error messages are kept up to their constant part.  Strings
    are lists of UTF-16 code units; a number that a caller controls is a [jsnum]
    (an integer, negative zero, or anything else), a number that has passed a
    validator is a [Z].  Deep copies through JSON, prototypes and freezing matter only
    in [JsonGraph], which models object graphs over a heap; it shows that validation
    accepts exactly the graphs that denote JSON trees, and the other files start from
    such trees.  Records with a JSON form are instances of [Codec].

    ** Foreign code.  SHA-256 is the class [Sha256]: a function from bytes to 64
    lower-case hexadecimal digits.  Where a theorem needs that hashes do not collide it
    says so for the finitely many messages it hashes ([distinguishes]).  The zod
    library is the class [Zod], its laws the documented meaning of the schemas, which
    are written as data.  [String.localeCompare] is the class [Locale], a consistent
    comparison.  [Sha256Impl] and [accepts_ref] are executable instances, and
    [Fixture] has a cheap checksum for examples.  Reducers, clocks and persistence
    callbacks are arguments.  A [BigInt] is a [Z].

    ** Files, in order.
    - [Prelude]: exceptions, the two monads, sorting, automation.
    - [JsString], [JsNumber]: code units, UTF-8, [JSON.stringify] of strings;
      numbers, [BigInt(string)], rounding of decimal literals to doubles.
    - [Json], [JsonLimits], [JsonParse], [JsonGraph], [JsonClaims] ([core/json.ts]):
      the encoder, the limits, the parser, validation of object graphs with an explicit
      stack.  Validation terminates on every graph, cyclic ones included, and is exact;
      canonical text is faithful and parses back; the byte count is the text's length.
    - [Hash], [Sha256Impl] ([core/hash.ts]): length-prefixed domain-tagged hashing and
      its injectivity.  [Zod], [Clock] ([core/clock.ts]), [JsonObject], [Codec], [Records]:
      schemas, the manual clock, fields of objects, records at JSON boundaries and the
      literals, lists and nullable fields they are made of, the comparison of texts.
    - [Event], [EventFacts], [EventChain], [EventClaims] ([core/event.ts]): envelopes,
      validation, identities and hashes.  Page verification is exact, the head hash
      commits to the whole chain, events survive serialisation.
    - [EventLog], [EventLogFacts], [EventLogClaims], [EventLimits]
      ([adapters/memory/event-log.ts], [captured-event-log.ts]): the log's invariant,
      idempotent redelivery, complete paging, replay of captured streams, and the margin
      below the size limits that an appended event needs to be readable.
    - [Run], [Processing], [Commit] ([core/processor.ts], the data and their checks):
      manifests, registrations, outputs, cursors, checkpoints, [verifyProcessingCommit],
      [verifyProcessingTransition].  [CommitFacts]: the conditions under which they
      return.
    - [ProcessingStore] ([adapters/memory/processing-store.ts]); [StoreFacts],
      [StoreInvariant], [StoreClaims]: the store refines, for every run, the list of
      its accepted commits; commits are atomic and exclude each other.
    - [Processor] ([core/processor.ts], [DeterministicProcessor]); [RunLog],
      [ProcessorFacts], [ProcessorRuns], [ProcessorClaims]: a call of [process] throws
      without committing, or confirms an old event, or commits exactly the next event of
      the log; [processAvailable] ends and equals one-by-one processing for every page
      size; under any interleaving of appends, commits and processors every run has
      committed exactly the first events of the log.
    - [Fixture]: a counter reducer, a log of two events and their commits.
    - [Evidence], [SecContracts], [EvidenceFacts], [EvidenceClaims]
      ([providers/evidence-bundle.ts], [providers/sec/contracts.ts]): bundles of
      artifacts under roles, identified by the hash of their canonical content; the
      closed policy on SEC filings.
    - [EventPlan], [EventPlanFacts], [EventCalendar] ([domain/event-cluster-beta.ts],
      first half): event plans, their compilation from calendars, specifications and
      capability registries, and their amendments.  [EventClusterBeta] (second half): the
      cluster of evidence for a plan and its operations.  [EventClusterFacts]: the
      invariant of every sequence of operations, accepted or refused, and progress.
      [EventClusterRecovery] ([application/event-cluster-runtime-recovery.ts]),
      [EventClusterLog]: checkpoints in the event log, among other events, and what
      recovery reads back.  [EventClusterClaims]: a plan and a cluster from observation to settlement; the
      properties.
    - [CivilTime] ([providers/sec/normalizer.ts], lines 672 to 816): acceptance times;
      dates counted with integer arithmetic are dates counted day by day, and the clock of
      New York is read the way its rules say.  [CalendarPreparation]
      ([domain/calendar-event-preparation.ts]): the preparation of an event known from
      calendars, [prepareCalendarEvent] whole, with its plan, checklist and texts.
      [CalendarFacts]: the registry of capabilities, which gates it keeps, which lanes are
      ready.  [CalendarPlans]: the compiled and amended plan, its windows and dates, the
      indented JSON and the table.  [CalendarClaims]: an event two months ahead; the
      properties.  Over SHA-256 the definitions give the repository's recorded preparation,
      both files, to the byte.
    - [Steps]: [try], [finally], loops, and the judgement that a method takes related
      states to related states, with the tactic that walks through a method.
      [Retention], [RetentionJournal] ([market-acquisition/retention]:
      [contracts.ts], [identity.ts], [memory-journal.ts]; [private-artifact-policy.ts]):
      the evidence of ownership and erasure and the journal that keeps it.
      [RetentionController], [RetentionErasure] ([controller.ts]): use, leases and commits;
      the enforcement of stops.  [RetentionFacts]: the journal only
      grows; what the journal's operations, the vault and other callers keep, every method
      keeps.  [RetentionErased], [RetentionUse]: what a verified plan
      says, what is recorded before an erasure, how commits end, and the interleavings of
      operations and stops.  [RetentionClaims]: two artifacts and
      their stop; the properties.
    - [EarningsCluster], [EarningsSchemas], [EarningsReducer]
      ([domain/earnings-cluster/reducer.ts]): the reducer the engine runs on earnings
      events, its state, schemas and handlers.  [EarningsFacts], [EarningsValues]: it
      returns JavaScript values, so it is a reducer to which the theorems about the
      processor apply.  [EarningsSpec]: an abstract step relation on clusters, which
      [apply] refines.  [EarningsLife], [EarningsClaims]: along every sequence of events
      a cluster keeps its bounds, nothing recorded is lost, a result needs the current
      lease, changes are routed; a cluster from its first source to its end.
    - [Acquisition], [AcquisitionClaims] ([contracts.ts],
      [quota.ts], [retry.ts]): the rolling quota admits at most its bound in every
      window, waiting times are exact, the retry decision and the Retry-After parser are
      characterised on every input.
    - [Journal], [JournalFacts], [MemoryJournal], [JournalClaims] ([journal.ts],
      [memory-journal.ts]): accepted journals are well-formed histories, the last hash
      commits to all of them, the memory journal only appends, a claim succeeds once.
    - [StateMachine], [StateMachineFacts], [StateMachineClaims] ([state-machine.ts]):
      reachable snapshots are valid and within budgets, counters only grow, every
      acquisition ends, terminal states are final, the machine is the fold of the events
      it persisted; and three behaviours the contract rules out.

    ** Fuel and bounds.  Loops that are not structural take fuel: object graphs are
    traversed with twice the node limit and one ([json_validator_terminates]); the JSON
    parser with the length of its text ([parse_fuel]); [verifyProcessedSuffix] with the
    distance to the cursor, since a page advances or the loop throws; [processAvailable]
    needs one turn more than the log has events ([process_available_complete]), and so
    does the recovery of a cluster from the log ([checkpoint_recovers]).  The enforcement
    of a stop needs one round when nothing is registered meanwhile
    ([enforcement_one_round]).  The clock of New York is compared from 2007 on, for every
    later year.
    Integers are checked against [MAX_SAFE_INTEGER] where the source does; the one sum
    the source rounds to a double is rounded ([to_double]).

    ** Asynchrony.  What a method does between two awaits is one step.  In the
    store's [commit] everything after the read of the event is such a step, so a run of
    many processors is a sequence of registrations and commits; [runs_follow_log] and
    the theorems of [StoreClaims] quantify over all of them.  The calls of one processor
    are modelled on a log that does not grow during the call.  The state machine's
    [#apply] awaits its callback between reading and writing its snapshot; the
    interleaving of two calls is modelled and loses an update.  In the retention
    controller every await gives the other callers a turn before and after the awaited
    call; the theorems hold for whatever they do there within the relation [evolves],
    which the controller's own methods respect, so that it covers any interleaving of
    them.  How operations and stops exclude each other is shown on the event loop itself
    ([RetentionUse.system_step]): its steps are whole synchronous calls and the parts of a
    stop between its awaits, which are the functions [enforceStop] is composed of, and a
    call of [enforceStop] is a run of it ([enforceStop_runs]).

    ** Findings.  [JsonClaims.unicode_check_exact]: a final unpaired high surrogate passes the text
    check.  [append_within_headroom]: stored envelopes are not checked against the limits
    they are read back with.  [retry_delay_skipped], [page_admitted_twice]: the state
    machine accepts [begin-preflight] wherever the table allows its target.
    [overlapping_calls_lose_update].  [journal_rejects_continuation_retry].
    [long_identity_blocks]: runs are accepted with identifiers too long for any cluster
    to open.  [completed_without_inventory]: a plain transition completes an event
    cluster before its settlement, for good.  [timed_out_stop_forgets]: a stop is recorded
    only after the active operations ended.  [clock_set_back_blocks]: a revalidation is
    recorded before it is checked.  [unconfigured_lane_ready]: a lane without any configured
    source is planned with one of them, whose gates are dropped.  [preparation_readable]:
    line breaks in a configured identity split the rows of the checklist.

    ** Not modelled.  SQLite adapters, artifact stores and vaults (their behaviour is
    SQL and file-system calls); HTTP adapters, credentials and process composition; the
    observation ledger, configuration and market-reference subsystems and the provider
    normalisers but for their civil times; floating-point research and study code.
    Of the retention controller, the checks of object identity at its construction.  Of [journal.ts] and
    [state-machine.ts] the receipts exchanged with the credential workflow are left out;
    of [memory-journal.ts] the ledger methods. *)
From Stdlib Require Export ZArith Lia Sorted.
From stdpp Require Export base numbers list gmap strings.

#[global] Open Scope Z_scope.

(** ** Exceptions

    A JavaScript [throw] is a value of [exn]: the error class the source
    constructs and the constant part of its message.  [ZodError] is what a zod
    [parse] throws; [CodedError] is an error class of the program's own, with its
    name and the code it carries. *)

Inductive exn : Type :=
  | TypeError (message : string)
  | RangeError (message : string)
  | Error (message : string)
  | SyntaxError (message : string)
  | ZodError
  | CodedError (class code message : string).

#[export] Instance exn_eq_dec : EqDecision exn.
Proof. solve_decision. Defined.

(** The result of a computation that may throw. *)
Inductive res (A : Type) : Type :=
  | Ok (a : A)
  | Throw (e : exn).
Arguments Ok {A} a.
Arguments Throw {A} e.

Declare Scope peas_scope.
Delimit Scope peas_scope with peas.
#[global] Open Scope peas_scope.

#[export] Instance res_ret : MRet res := @Ok.
#[export] Instance res_bind : MBind res := λ A B f m,
  match m with Ok a => f a | Throw e => Throw e end.
#[export] Instance res_fmap : FMap res := λ A B f m,
  match m with Ok a => Ok (f a) | Throw e => Throw e end.
#[export] Instance res_eq_dec `{EqDecision A} : EqDecision (res A).
Proof. solve_decision. Defined.

Notation "'let*' x ':=' c1 'in' c2" := (mbind (M := res) (λ x, c2) c1)
  (at level 10, x pattern, c1 at level 99, c2 at level 200) : peas_scope.

(** [if (cond) throw e; rest]. *)
Definition throw_if (cond : bool) (e : exn) : res unit :=
  if cond then Throw e else Ok tt.

Notation "'guard!' c 'throws' e ';;' k" := (mbind (M := res) (λ _, k) (throw_if c e))
  (at level 10, c at level 99, e at level 99, k at level 200) : peas_scope.
Notation "'do!' c ';;' k" := (mbind (M := res) (λ _, k) c)
  (at level 10, c at level 99, k at level 200) : peas_scope.

Definition is_ok {A} (r : res A) : bool :=
  match r with Ok _ => true | Throw _ => false end.

(** An option that the source dereferences under a thrown error. *)
Definition or_throw {A} (o : option A) (e : exn) : res A :=
  match o with Some a => Ok a | None => Throw e end.

Section res_lemmas.
Context {A B : Type}.

Lemma res_bind_Ok (f : A → res B) (m : res A) (b : B) :
  mbind (M := res) f m = Ok b ↔ ∃ a, m = Ok a ∧ f a = Ok b.
Proof. destruct m; cbn; naive_solver. Qed.

Lemma res_fmap_Ok (f : A → B) (m : res A) (b : B) :
  f <$> m = Ok b ↔ ∃ a, m = Ok a ∧ b = f a.
Proof. destruct m; cbn; naive_solver. Qed.

Lemma throw_if_Ok (c : bool) (e : exn) (u : unit) :
  throw_if c e = Ok u ↔ c = false.
Proof. destruct c, u; cbn; naive_solver. Qed.

Lemma or_throw_Ok (o : option A) (e : exn) (a : A) :
  or_throw o e = Ok a ↔ o = Some a.
Proof. destruct o; cbn; naive_solver. Qed.

Lemma Ok_inj (a b : A) : Ok a = Ok b → a = b.
Proof. congruence. Qed.

Lemma is_ok_true (m : res A) : is_ok m = true ↔ ∃ a, m = Ok a.
Proof. destruct m; cbn; naive_solver. Qed.
End res_lemmas.

(** [mapM] over a list, leftmost exception first. *)
Fixpoint res_map {A B} (f : A → res B) (l : list A) : res (list B) :=
  match l with
  | [] => Ok []
  | x :: l' => let* y := f x in let* ys := res_map f l' in Ok (y :: ys)
  end.

(** A [for ... of] loop threading a state. *)
Fixpoint res_fold {A S} (f : S → A → res S) (s : S) (l : list A) : res S :=
  match l with
  | [] => Ok s
  | x :: l' => let* s' := f s x in res_fold f s' l'
  end.

Lemma res_map_Ok {A B} (f : A → res B) (l : list A) (k : list B) :
  res_map f l = Ok k ↔ Forall2 (λ x y, f x = Ok y) l k.
Proof.
  revert k; induction l as [|x l IH]; intros k; cbn.
  - split; [by intros [= <-]|by inversion 1].
  - rewrite res_bind_Ok; split.
    + intros (y & Hy & H). apply res_bind_Ok in H as (ys & Hys & [= <-]).
      constructor; [done|by apply IH].
    + inversion 1; subst. eexists; split; [done|].
      apply res_bind_Ok. eexists; split; [by apply IH|done].
Qed.

Lemma res_map_total {A B} (f : A → res B) (g : A → B) (l : list A) :
  Forall (λ x, f x = Ok (g x)) l → res_map f l = Ok (g <$> l).
Proof.
  intros H. apply res_map_Ok. induction H; cbn; constructor; auto.
Qed.

(** A mapped callback that succeeds exactly on [ok] and then returns [g]. *)
Lemma res_map_spec {A B} (f : A → res B) (ok : A → bool) (g : A → B) (l : list A) (r : list B) :
  (∀ x, x ∈ l → ∀ y, f x = Ok y ↔ ok x = true ∧ y = g x) →
  res_map f l = Ok r ↔ forallb ok l = true ∧ r = map g l.
Proof.
  revert r; induction l as [|x l IH]; intros r H; cbn [res_map forallb map].
  - split; [by intros [= <-]|by intros [_ ->]].
  - rewrite res_bind_Ok, andb_true_iff. setoid_rewrite (H x ltac:(left)).
    setoid_rewrite res_bind_Ok. setoid_rewrite IH; [|intros; apply H; by right].
    split.
    + intros (y & [Hx ->] & ys & [Hl ->] & [= <-]). done.
    + intros [[Hx Hl] ->]. eauto 10.
Qed.

Lemma res_fold_app {A S} (f : S → A → res S) (s : S) (l k : list A) :
  res_fold f s (l ++ k) = let* s' := res_fold f s l in res_fold f s' k.
Proof.
  revert s; induction l as [|x l IH]; intros s; cbn; [done|].
  destruct (f s x); cbn; auto.
Qed.

(** An invariant of the loop body is an invariant of the loop. *)
Lemma res_fold_invariant {A S} (P : S → Prop) (f : S → A → res S) (l : list A) (s s' : S) :
  (∀ s x s', P s → x ∈ l → f s x = Ok s' → P s') →
  P s → res_fold f s l = Ok s' → P s'.
Proof.
  revert s; induction l as [|x l IH]; intros s Hstep Hs; cbn.
  - by intros [= <-].
  - rewrite res_bind_Ok. intros (s1 & H1 & H2).
    eapply IH, H2; [intros; eapply Hstep; eauto; by right|].
    eapply Hstep; eauto. by left.
Qed.

(** [list.some(test)], left to right until the first success. *)
Fixpoint res_some {A} (test : A → res bool) (l : list A) : res bool :=
  match l with
  | [] => Ok false
  | x :: l' => let* b := test x in if b : bool then Ok true else res_some test l'
  end.

(** ** Updates in place

    [list.find(p)], the element found being replaced by its image under [f]. *)
Fixpoint update_first {A} (p : A → bool) (f : A → A) (l : list A) : list A :=
  match l with
  | [] => []
  | x :: l' => if p x then f x :: l' else x :: update_first p f l'
  end.

Section update_first.
Context {A : Type} (p : A → bool) (f : A → A).

Lemma update_first_length l : length (update_first p f l) = length l.
Proof. induction l as [|x l IH]; cbn; [done|]. destruct (p x); cbn; auto. Qed.

(** Every element is kept or is the image of one that satisfies the test. *)
Lemma update_first_Forall2 (R : A → A → Prop) l :
  (∀ x, x ∈ l → R x x) → (∀ x, find p l = Some x → R x (f x)) → Forall2 R l (update_first p f l).
Proof.
  induction l as [|x l IH]; intros Hrefl Hf; cbn; [constructor|]. cbn in Hf.
  destruct (p x).
  - constructor; [by apply Hf|]. assert (Hr : ∀ y, y ∈ l → R y y) by (intros; apply Hrefl; by right).
    clear -Hr. induction l; constructor; [apply Hr; by left|]. apply IHl. intros; apply Hr. by right.
  - constructor; [apply Hrefl; by left|]. apply IH; [|done]. intros; apply Hrefl; by right.
Qed.

(** A projection the update does not touch. *)
Lemma update_first_map {B} (g : A → B) l :
  (∀ x, g (f x) = g x) → map g (update_first p f l) = map g l.
Proof. intros Hg. induction l as [|x l IH]; cbn; [done|]. destruct (p x); cbn; congruence. Qed.
End update_first.

Lemma find_elem {A} (p : A → bool) l x : find p l = Some x → x ∈ l ∧ p x = true.
Proof.
  induction l as [|y l IH]; cbn; [done|]. destruct (p y) eqn:E.
  - intros [= ->]. split; [by left|done].
  - intros H%IH. split; [right|]; apply H.
Qed.

(** ** State with exceptions

    A method of a stateful class: the state survives a [throw], so that what a
    throwing call leaves behind is part of the result. *)
Definition sm (S A : Type) : Type := S → S * res A.

Definition sm_ret {S A} (a : A) : sm S A := λ s, (s, Ok a).
Definition sm_bind {S A B} (m : sm S A) (f : A → sm S B) : sm S B := λ s,
  match m s with
  | (s', Ok a) => f a s'
  | (s', Throw e) => (s', Throw e)
  end.
Definition sm_lift {S A} (r : res A) : sm S A := λ s, (s, r).
Definition sm_get {S} : sm S S := λ s, (s, Ok s).
Definition sm_modify {S} (f : S → S) : sm S unit := λ s, (f s, Ok tt).

Notation "'sm!' x ':=' c1 'in' c2" := (sm_bind c1 (λ x, c2))
  (at level 10, x pattern, c1 at level 99, c2 at level 200) : peas_scope.

Section sm_lemmas.
Context {S A B : Type}.

Lemma sm_bind_ok (m : sm S A) (f : A → sm S B) (s s'' : S) (b : B) :
  sm_bind m f s = (s'', Ok b) ↔ ∃ s' a, m s = (s', Ok a) ∧ f a s' = (s'', Ok b).
Proof. unfold sm_bind. destruct (m s) as [s' [a|e]]; naive_solver. Qed.

Lemma sm_bind_throw (m : sm S A) (f : A → sm S B) (s s'' : S) (e : exn) :
  sm_bind m f s = (s'', Throw e) ↔
    m s = (s'', Throw e) ∨ ∃ s' a, m s = (s', Ok a) ∧ f a s' = (s'', Throw e).
Proof. unfold sm_bind. destruct (m s) as [s' [a|e']]; naive_solver. Qed.

Lemma sm_lift_eq (r r' : res A) (s s' : S) :
  sm_lift r s = (s', r') ↔ s' = s ∧ r = r'.
Proof. unfold sm_lift. naive_solver. Qed.
End sm_lemmas.

(** ** Inversion of monadic hypotheses *)

Ltac inv_res_step :=
  match goal with
  | H : Ok _ = Ok _ |- _ => injection H as H; subst
  | H : Ok _ = Throw _ |- _ => discriminate H
  | H : Throw _ = Ok _ |- _ => discriminate H
  | H : mret _ = Ok _ |- _ => change (mret (M := res) ?a) with (Ok a) in H
  | H : mbind _ _ = Ok _ |- _ =>
      apply res_bind_Ok in H;
      let x := fresh "x" in let H1 := fresh H in destruct H as (x & H1 & H)
  | H : fmap _ _ = Ok _ |- _ => apply res_fmap_Ok in H;
      let x := fresh "x" in let H1 := fresh H in destruct H as (x & H1 & H); subst
  | H : throw_if _ _ = Ok _ |- _ => apply throw_if_Ok in H
  | H : or_throw _ _ = Ok _ |- _ => apply or_throw_Ok in H
  | x : unit |- _ => destruct x
  end.
Ltac inv_res := repeat inv_res_step.

(** Membership in a list that is written out. *)
Ltac solve_elem := repeat first [apply list_elem_of_here | apply list_elem_of_further].

(** Boolean guards as propositions. *)
Ltac bool_prop :=
  repeat match goal with
  | H : andb _ _ = true |- _ => apply andb_true_iff in H; destruct H
  | H : orb _ _ = false |- _ => apply orb_false_iff in H; destruct H
  | H : negb _ = true |- _ => apply negb_true_iff in H
  | H : negb _ = false |- _ => apply negb_false_iff in H
  | H : bool_decide _ = true |- _ => apply bool_decide_eq_true in H
  | H : bool_decide _ = false |- _ => apply bool_decide_eq_false in H
  | H : (_ <? _)%Z = true |- _ => apply Z.ltb_lt in H
  | H : (_ <? _)%Z = false |- _ => apply Z.ltb_ge in H
  | H : (_ <=? _)%Z = true |- _ => apply Z.leb_le in H
  | H : (_ <=? _)%Z = false |- _ => apply Z.leb_gt in H
  | H : (_ =? _)%Z = true |- _ => apply Z.eqb_eq in H
  | H : (_ =? _)%Z = false |- _ => apply Z.eqb_neq in H
  end.

(** ** Stable sorting ([Array.prototype.sort] with a comparator)

    [le x y] stands for [compare(x, y) <= 0]. *)
Fixpoint insert_by {A} (le : A → A → bool) (x : A) (l : list A) : list A :=
  match l with
  | [] => [x]
  | y :: l' => if le x y then x :: y :: l' else y :: insert_by le x l'
  end.

Definition sort_by {A} (le : A → A → bool) (l : list A) : list A :=
  foldr (insert_by le) [] l.

Section sort_by.
Context {A : Type} (le : A → A → bool).
Let leP (x y : A) : Prop := le x y = true.

Lemma insert_by_perm x l : insert_by le x l ≡ₚ x :: l.
Proof.
  induction l as [|y l IH]; cbn; [done|].
  destruct (le x y); [done|]. rewrite IH. apply Permutation_swap.
Qed.

Lemma sort_by_perm l : sort_by le l ≡ₚ l.
Proof.
  unfold sort_by. induction l as [|x l IH]; cbn; [done|].
  by rewrite insert_by_perm, IH.
Qed.

Lemma sort_by_length l : length (sort_by le l) = length l.
Proof. apply Permutation_length, sort_by_perm. Qed.

Lemma elem_of_sort_by x l : x ∈ sort_by le l ↔ x ∈ l.
Proof. by rewrite (sort_by_perm l). Qed.

Context (le_total : ∀ x y, le x y = true ∨ le y x = true).
Context (le_trans : ∀ x y z, le x y = true → le y z = true → le x z = true).

Lemma insert_by_sorted x l : StronglySorted leP l → StronglySorted leP (insert_by le x l).
Proof.
  induction 1 as [|y l Hl IH Hy]; cbn; [repeat constructor|].
  destruct (le x y) eqn:E.
  - constructor; [by constructor|]. constructor; [done|].
    eapply Forall_impl; [done|]. intros z Hz. by eapply le_trans.
  - constructor; [done|]. rewrite insert_by_perm. constructor; [|done].
    unfold leP. destruct (le_total x y); congruence.
Qed.

Lemma sort_by_sorted l : StronglySorted leP (sort_by le l).
Proof. unfold sort_by. induction l; cbn; [constructor|by apply insert_by_sorted]. Qed.

(** A strongly sorted list is already sorted. *)
Lemma sort_by_id l : StronglySorted leP l → sort_by le l = l.
Proof.
  unfold sort_by. induction 1 as [|x l Hl IH Hx]; cbn; [done|]. rewrite IH.
  destruct Hx as [|y l Hy Hx]; cbn; [done|]. by rewrite Hy.
Qed.

Lemma sort_by_idemp l : sort_by le (sort_by le l) = sort_by le l.
Proof. apply sort_by_id, sort_by_sorted. Qed.

(** With an antisymmetric order on the elements, sorting only depends on the
    multiset. *)
Lemma sort_by_perm_eq l k :
  (∀ x y, x ∈ l → y ∈ l → le x y = true → le y x = true → x = y) →
  l ≡ₚ k → sort_by le l = sort_by le k.
Proof.
  intros Hanti Hlk.
  assert (Hp : sort_by le l ≡ₚ sort_by le k) by (by rewrite !sort_by_perm).
  assert (Ha : ∀ x y, x ∈ sort_by le l → y ∈ sort_by le l →
    le x y = true → le y x = true → x = y).
  { intros x y; rewrite !elem_of_sort_by; auto. }
  pose proof (sort_by_sorted l) as Hs1. pose proof (sort_by_sorted k) as Hs2.
  revert Hp Ha Hs1 Hs2. generalize (sort_by le l) as l1, (sort_by le k) as l2.
  clear. intros l1; induction l1 as [|x l1 IH]; intros l2 Hp Ha Hs1 Hs2.
  - by apply Permutation_nil_l in Hp as ->.
  - destruct l2 as [|y l2]; [by apply Permutation_nil_r in Hp|].
    apply StronglySorted_inv in Hs1 as [Hs1 Hx]. apply StronglySorted_inv in Hs2 as [Hs2 Hy].
    assert (x = y) as ->.
    { assert (x ∈ y :: l2) as [->|Hin]%elem_of_cons; [rewrite <-Hp; by left|done|].
      assert (y ∈ x :: l1) as [->|Hin']%elem_of_cons; [rewrite Hp; by left|done|].
      apply Ha; [by left|by right| |].
      - by eapply (proj1 (Forall_forall _ _) Hx).
      - by eapply (proj1 (Forall_forall _ _) Hy). }
    f_equal. apply IH; auto.
    + by apply Permutation.Permutation_cons_inv in Hp.
    + intros; apply Ha; auto; by right.
Qed.
End sort_by.

(** ** Integers *)

(** [Number.MAX_SAFE_INTEGER]. *)
Definition MAX_SAFE_INTEGER : Z := 9007199254740991.

(** [Number.isSafeInteger] on an integral number. *)
Definition is_safe_integer (z : Z) : bool :=
  (- MAX_SAFE_INTEGER <=? z) && (z <=? MAX_SAFE_INTEGER).

Lemma is_safe_integer_spec z :
  is_safe_integer z = true ↔ - MAX_SAFE_INTEGER <= z <= MAX_SAFE_INTEGER.
Proof. unfold is_safe_integer. rewrite andb_true_iff, !Z.leb_le. done. Qed.

(** ** Automation *)

Create HintDb peas discriminated.
#[export] Hint Resolve sort_by_perm : peas.

(** Sums over lists. *)
Definition zsum {A} (f : A → Z) (l : list A) : Z := foldr (λ x n, f x + n) 0 l.

Lemma zsum_app {A} (f : A → Z) l k : zsum f (l ++ k) = zsum f l + zsum f k.
Proof. unfold zsum. induction l as [|x l IH]; cbn; [done|]. rewrite IH. lia. Qed.

Lemma zsum_map {A B} (f : B → A) (g : A → Z) l : zsum g (map f l) = zsum (λ x, g (f x)) l.
Proof. unfold zsum. induction l as [|x l IH]; cbn; [done|]. by rewrite IH. Qed.

Lemma zsum_ext {A} (f g : A → Z) l : (∀ x, x ∈ l → f x = g x) → zsum f l = zsum g l.
Proof.
  unfold zsum. induction l as [|x l IH]; intros H; cbn; [done|].
  rewrite (H x) by by left. f_equal. apply IH. intros; apply H; by right.
Qed.

Lemma zsum_perm {A} (f : A → Z) l k : l ≡ₚ k → zsum f l = zsum f k.
Proof. unfold zsum. induction 1; cbn in *; lia. Qed.

Lemma zsum_nonneg {A} (f : A → Z) l : (∀ x, x ∈ l → 0 <= f x) → 0 <= zsum f l.
Proof.
  induction l as [|x l IH]; intros H; [done|]. change (0 <= f x + zsum f l).
  assert (0 <= f x) by (apply H; by left).
  assert (0 <= zsum f l) by (apply IH; intros; apply H; by right). lia.
Qed.

Lemma zsum_elem_le {A} (f : A → Z) l x :
  (∀ y, y ∈ l → 0 <= f y) → x ∈ l → f x <= zsum f l.
Proof.
  induction l as [|y l IH]; intros H Hx; [by apply not_elem_of_nil in Hx|].
  assert (0 <= zsum f l) by (apply zsum_nonneg; intros; apply H; by right).
  assert (0 <= f y) by (apply H; by left).
  change (f x <= f y + zsum f l).
  apply elem_of_cons in Hx as [->|Hx]; [lia|].
  assert (f x <= zsum f l); [apply IH; auto; intros; apply H; by right|lia].
Qed.

(** ** Lexicographic orders *)

Section lexicographic.
Context {A B C : Type} (le1 : A → A → bool) (le2 : B → B → bool) (f : C → A) (g : C → B).

Definition lex_le (x y : C) : bool := le1 (f x) (f y) && (negb (le1 (f y) (f x)) || le2 (g x) (g y)).

Context (le1_total : ∀ x y, le1 x y = true ∨ le1 y x = true).
Context (le1_trans : ∀ x y z, le1 x y = true → le1 y z = true → le1 x z = true).
Context (le2_total : ∀ x y, le2 x y = true ∨ le2 y x = true).
Context (le2_trans : ∀ x y z, le2 x y = true → le2 y z = true → le2 x z = true).

Lemma lex_le_total x y : lex_le x y = true ∨ lex_le y x = true.
Proof using le1_total le2_total.
  unfold lex_le. destruct (le1_total (f x) (f y)) as [E|E], (le2_total (g x) (g y)) as [E'|E'];
    rewrite E, E'; destruct (le1 (f x) (f y)), (le1 (f y) (f x)), (le2 (g x) (g y)); auto.
Qed.

Lemma lex_le_trans x y z : lex_le x y = true → lex_le y z = true → lex_le x z = true.
Proof using le1_trans le2_trans.
  unfold lex_le. rewrite !andb_true_iff, !orb_true_iff, !negb_true_iff.
  intros [H1 H2] [H3 H4]. split; [by eapply le1_trans|].
  destruct (le1 (f z) (f x)) eqn:E; [right|by left].
  assert (E1 : le1 (f y) (f x) = true) by by eapply le1_trans.
  assert (E2 : le1 (f z) (f y) = true) by by eapply le1_trans.
  destruct H2, H4; try congruence. by eapply le2_trans.
Qed.

Lemma lex_le_antisym x y :
  lex_le x y = true → lex_le y x = true →
  le1 (f x) (f y) = true ∧ le1 (f y) (f x) = true ∧ le2 (g x) (g y) = true ∧ le2 (g y) (g x) = true.
Proof using.
  unfold lex_le. rewrite !andb_true_iff, !orb_true_iff, !negb_true_iff.
  intros [H1 H2] [H3 H4]. split_and!; try done; destruct H2, H4; congruence.
Qed.
End lexicographic.
