(* ===== verification/JsString.v ===== *)
(** * JavaScript strings

    A JavaScript string is its sequence of UTF-16 code units.  This file models
    what the sources use of the language: literals, code-unit order, UTF-8
    encoding ([Buffer.from(s, "utf8")]), decimal printing and [BigInt]
    conversion, [JSON.stringify] of a string, and the regular expressions the
    schemas use, with the two lemmas everything else needs of them: quoting
    yields well-formed text, and UTF-8 is injective on well-formed text. *)
From S2P Require Import Prelude.

Abbreviation jsstring := (list Z).

(** An ASCII literal. *)
Definition js (s : string) : jsstring :=
  (λ a, Z.of_N (Ascii.N_of_ascii a)) <$> String.list_ascii_of_string s.

(** Every code unit is a 16-bit word. *)
Definition units_ok (s : jsstring) : Prop := Forall (λ u, 0 <= u < 65536) s.

#[export] Instance units_ok_dec s : Decision (units_ok s).
Proof. unfold units_ok. apply _. Defined.

(** ** Code-unit order ([<] on strings) *)

Fixpoint js_compare (s t : jsstring) : comparison :=
  match s, t with
  | [], [] => Eq
  | [], _ :: _ => Lt
  | _ :: _, [] => Gt
  | x :: s', y :: t' => match x ?= y with Eq => js_compare s' t' | c => c end
  end.

Definition js_ltb (s t : jsstring) : bool :=
  match js_compare s t with Lt => true | _ => false end.
Definition js_leb (s t : jsstring) : bool :=
  match js_compare s t with Gt => false | _ => true end.

Lemma js_compare_refl s : js_compare s s = Eq.
Proof. induction s as [|x s IH]; cbn; [done|]. by rewrite Z.compare_refl. Qed.

Lemma js_compare_eq s t : js_compare s t = Eq → s = t.
Proof.
  revert t; induction s as [|x s IH]; intros [|y t]; cbn; try done.
  destruct (Z.compare_spec x y) as [->| |]; try done. intros H. f_equal; auto.
Qed.

Lemma js_compare_antisym s t : js_compare t s = CompOpp (js_compare s t).
Proof.
  revert t; induction s as [|x s IH]; intros [|y t]; cbn; try done.
  rewrite (Z.compare_antisym x y). destruct (x ?= y); cbn; auto.
Qed.

Lemma js_leb_total s t : js_leb s t = true ∨ js_leb t s = true.
Proof.
  unfold js_leb. rewrite (js_compare_antisym s t).
  destruct (js_compare s t); cbn; auto.
Qed.

Lemma js_leb_trans s t u : js_leb s t = true → js_leb t u = true → js_leb s u = true.
Proof.
  unfold js_leb. revert t u; induction s as [|x s IH]; intros [|y t] [|z u]; cbn; try done.
  destruct (Z.compare_spec x y) as [Hxy|Hxy|]; try done;
    destruct (Z.compare_spec y z) as [Hyz|Hyz|]; try done.
  - subst. rewrite Z.compare_refl. apply IH.
  - subst. intros _ _. by rewrite (proj2 (Z.compare_lt_iff y z) Hyz).
  - subst. intros _ _. by rewrite (proj2 (Z.compare_lt_iff x z) Hxy).
  - intros _ _. rewrite (proj2 (Z.compare_lt_iff x z)); [done|lia].
Qed.

Lemma js_leb_antisym s t : js_leb s t = true → js_leb t s = true → s = t.
Proof.
  unfold js_leb. rewrite (js_compare_antisym s t).
  destruct (js_compare s t) eqn:E; cbn; try done. intros _ _. by apply js_compare_eq.
Qed.

(** ** Surrogates and well-formed text *)

Definition is_high_surrogate (u : Z) : bool := (55296 <=? u) && (u <=? 56319).
Definition is_low_surrogate (u : Z) : bool := (56320 <=? u) && (u <=? 57343).

(** Every surrogate is half of a pair. *)
Fixpoint scalar_string (s : jsstring) : bool :=
  match s with
  | [] => true
  | u :: s1 =>
      if is_high_surrogate u then
        match s1 with
        | v :: s2 => is_low_surrogate v && scalar_string s2
        | [] => false
        end
      else negb (is_low_surrogate u) && scalar_string s1
  end.

(** ** UTF-8 *)

Definition utf8_unit (u : Z) : list Z :=
  if u <? 128 then [u]
  else if u <? 2048 then [192 + u / 64; 128 + u mod 64]
  else [224 + u / 4096; 128 + (u / 64) mod 64; 128 + u mod 64].

Definition code_point (h l : Z) : Z := 65536 + (h - 55296) * 1024 + (l - 56320).

Definition utf8_pair (h l : Z) : list Z :=
  let cp := code_point h l in
  [240 + cp / 262144; 128 + (cp / 4096) mod 64; 128 + (cp / 64) mod 64; 128 + cp mod 64].

(** [Buffer.from(s, "utf8")]: a lone surrogate becomes U+FFFD. *)
Fixpoint utf8 (s : jsstring) : list Z :=
  match s with
  | [] => []
  | u :: s1 =>
      if is_high_surrogate u then
        match s1 with
        | v :: s2 =>
            if is_low_surrogate v then utf8_pair u v ++ utf8 s2
            else utf8_unit 65533 ++ utf8 s1
        | [] => utf8_unit 65533
        end
      else if is_low_surrogate u then utf8_unit 65533 ++ utf8 s1
      else utf8_unit u ++ utf8 s1
  end.

(** [Buffer.byteLength(s, "utf8")]. *)
Definition byte_length (s : jsstring) : Z := Z.of_nat (length (utf8 s)).

(** [s.length]. *)
Definition js_length (s : jsstring) : Z := Z.of_nat (length s).

(** Induction along the surrogate pairs. *)
Lemma units_ind (P : jsstring → Prop) :
  P [] →
  (∀ h l s, is_high_surrogate h = true → is_low_surrogate l = true → P s → P (h :: l :: s)) →
  (∀ h s, is_high_surrogate h = true →
     match s with l :: _ => is_low_surrogate l = false | [] => True end → P s → P (h :: s)) →
  (∀ u s, is_high_surrogate u = false → P s → P (u :: s)) →
  ∀ s, P s.
Proof.
  intros Hnil Hpair Hhigh Hunit s.
  assert (H : ∀ n s, (length s <= n)%nat → P s); [|by eapply H].
  clear s. intros n; induction n as [|n IH]; intros [|u s] Hn; cbn in Hn; auto; [lia|].
  destruct (is_high_surrogate u) eqn:Eu; [|apply Hunit; auto; apply IH; lia].
  destruct s as [|v s]; [apply Hhigh; auto|].
  destruct (is_low_surrogate v) eqn:Ev.
  - apply Hpair; auto. apply IH. cbn in Hn. lia.
  - apply Hhigh; auto. apply IH. lia.
Qed.

Ltac surrogates :=
  unfold is_high_surrogate, is_low_surrogate in *; bool_prop;
  repeat match goal with
  | H : andb _ _ = false |- _ => apply andb_false_iff in H as [H|H]
  end; bool_prop.

Lemma scalar_string_app s t :
  scalar_string s = true → scalar_string (s ++ t) = scalar_string t.
Proof.
  induction s as [|h l s Hh Hl IH|h s Hh Hs IH|u s Hu IH] using units_ind; cbn.
  - done.
  - rewrite Hh, Hl. done.
  - rewrite Hh. destruct s; [done|]. by rewrite Hs.
  - rewrite Hu. rewrite !andb_true_iff. intros [Hu' Hs]. rewrite Hu'. cbn. auto.
Qed.

Lemma utf8_app s t : scalar_string s = true → utf8 (s ++ t) = utf8 s ++ utf8 t.
Proof.
  induction s as [|h l s Hh Hl IH|h s Hh Hs IH|u s Hu IH] using units_ind; cbn [scalar_string].
  - done.
  - rewrite Hh, Hl. cbn -[utf8_pair]. rewrite Hh, Hl. cbn -[utf8_pair]. intros H.
    by rewrite IH, app_assoc.
  - rewrite Hh. destruct s; [done|]. by rewrite Hs.
  - rewrite Hu. intros [Hu' H]%andb_true_iff. apply negb_true_iff in Hu'.
    cbn -[utf8_unit]. rewrite Hu, Hu'. by rewrite IH, app_assoc.
Qed.

Lemma byte_length_app s t :
  scalar_string s = true → byte_length (s ++ t) = byte_length s + byte_length t.
Proof. intros H. unfold byte_length. rewrite utf8_app, length_app by done. lia. Qed.

Lemma byte_length_nonneg s : 0 <= byte_length s.
Proof. unfold byte_length. lia. Qed.

(** Decoding of well-formed UTF-8, used to show that the encoding loses nothing. *)
Fixpoint utf8_decode (bs : list Z) : jsstring :=
  match bs with
  | [] => []
  | b :: r =>
      if b <? 128 then b :: utf8_decode r
      else if b <? 224 then
        match r with c :: r => (b - 192) * 64 + (c - 128) :: utf8_decode r | _ => [] end
      else if b <? 240 then
        match r with
        | c :: d :: r => (b - 224) * 4096 + (c - 128) * 64 + (d - 128) :: utf8_decode r
        | _ => []
        end
      else
        match r with
        | c :: d :: e :: r =>
            let cp := (b - 240) * 262144 + (c - 128) * 4096 + (d - 128) * 64 + (e - 128) in
            55296 + (cp - 65536) / 1024 :: 56320 + (cp - 65536) mod 1024 :: utf8_decode r
        | _ => []
        end
  end.

Lemma utf8_decode_unit u r :
  0 <= u < 65536 → utf8_decode (utf8_unit u ++ r) = u :: utf8_decode r.
Proof.
  intros Hu. unfold utf8_unit.
  destruct (Z.ltb_spec u 128) as [H|H]; cbn [app utf8_decode].
  { by rewrite (proj2 (Z.ltb_lt _ _) H). }
  destruct (Z.ltb_spec u 2048) as [H'|H']; cbn [app utf8_decode].
  - rewrite (proj2 (Z.ltb_ge _ _)), (proj2 (Z.ltb_lt _ _)) by (Z.to_euclidean_division_equations; lia).
    f_equal. Z.to_euclidean_division_equations; lia.
  - rewrite (proj2 (Z.ltb_ge _ 128)), (proj2 (Z.ltb_ge _ 224)), (proj2 (Z.ltb_lt _ 240))
      by (Z.to_euclidean_division_equations; lia).
    f_equal. Z.to_euclidean_division_equations; lia.
Qed.

Lemma utf8_decode_pair h l r :
  is_high_surrogate h = true → is_low_surrogate l = true →
  utf8_decode (utf8_pair h l ++ r) = h :: l :: utf8_decode r.
Proof.
  intros Hh Hl. surrogates. unfold utf8_pair.
  set (cp := code_point h l).
  assert (Hcp : 65536 <= cp < 1114112) by (unfold cp, code_point; lia).
  cbn [app utf8_decode].
  rewrite (proj2 (Z.ltb_ge _ 128)), (proj2 (Z.ltb_ge _ 224)), (proj2 (Z.ltb_ge _ 240))
    by (Z.to_euclidean_division_equations; lia).
  assert (Hc : (240 + cp / 262144 - 240) * 262144 + (128 + (cp / 4096) mod 64 - 128) * 4096 +
    (128 + (cp / 64) mod 64 - 128) * 64 + (128 + cp mod 64 - 128) = cp).
  { clearbody cp. Z.to_euclidean_division_equations; lia. }
  rewrite Hc.
  assert (Eh : 55296 + (cp - 65536) / 1024 = h)
    by (unfold cp, code_point; Z.to_euclidean_division_equations; lia).
  assert (El : 56320 + (cp - 65536) mod 1024 = l)
    by (unfold cp, code_point; Z.to_euclidean_division_equations; lia).
  by rewrite Eh, El.
Qed.

Lemma utf8_decode_encode s :
  units_ok s → scalar_string s = true → utf8_decode (utf8 s) = s.
Proof.
  induction s as [|h l s Hh Hl IH|h s Hh Hs IH|u s Hu IH] using units_ind; intros Hok.
  - done.
  - apply Forall_cons in Hok as [_ Hok]. apply Forall_cons in Hok as [_ Hok].
    cbn -[utf8_pair utf8_decode]. rewrite Hh, Hl. cbn [andb]. intros H.
    by rewrite utf8_decode_pair, IH.
  - cbn. rewrite Hh. destruct s; [done|]. by rewrite Hs.
  - apply Forall_cons in Hok as [Hok1 Hok].
    cbn -[utf8_unit utf8_decode]. rewrite Hu. intros [Hu' H]%andb_true_iff.
    apply negb_true_iff in Hu'. rewrite Hu'. by rewrite utf8_decode_unit, IH.
Qed.

(** UTF-8 loses nothing on well-formed text. *)
Lemma utf8_inj s t :
  units_ok s → units_ok t → scalar_string s = true → scalar_string t = true →
  utf8 s = utf8 t → s = t.
Proof.
  intros. rewrite <-(utf8_decode_encode s), <-(utf8_decode_encode t) by done. by f_equal.
Qed.

(** Bytes are bytes. *)
Lemma utf8_bytes s : units_ok s → Forall (λ b, 0 <= b < 256) (utf8 s).
Proof.
  assert (Hun : ∀ u, 0 <= u < 65536 → Forall (λ b, 0 <= b < 256) (utf8_unit u)).
  { intros u Hu. unfold utf8_unit. repeat case_match; bool_prop;
      repeat constructor; Z.to_euclidean_division_equations; lia. }
  induction s as [|h l s Hh Hl IH|h s Hh Hs IH|u s Hu IH] using units_ind; intros Hok.
  - constructor.
  - apply Forall_cons in Hok as [_ Hok]. apply Forall_cons in Hok as [_ Hok].
    cbn -[utf8_pair]. rewrite Hh, Hl. apply Forall_app; split; [|auto].
    surrogates. unfold utf8_pair.
    assert (Hcp : 65536 <= code_point h l < 1114112) by (unfold code_point; lia).
    revert Hcp. generalize (code_point h l) as cp. intros.
    repeat constructor; Z.to_euclidean_division_equations; lia.
  - apply Forall_cons in Hok as [_ Hok]. cbn -[utf8_unit]. rewrite Hh.
    destruct s; [|rewrite Hs]; rewrite ?Forall_app; repeat split; auto; apply Hun; lia.
  - apply Forall_cons in Hok as [Hu' Hok]. cbn -[utf8_unit]. rewrite Hu.
    destruct (is_low_surrogate u); apply Forall_app; split; auto; apply Hun; lia.
Qed.

(** ** [JSON.stringify] and [JSON.parse] of a string *)

Definition QUOTE : Z := 34.
Definition BACKSLASH : Z := 92.

Definition hex_digit (n : Z) : Z := if n <? 10 then 48 + n else 87 + n.
Definition hex_value (c : Z) : option Z :=
  if (48 <=? c) && (c <=? 57) then Some (c - 48)
  else if (97 <=? c) && (c <=? 102) then Some (c - 87)
  else if (65 <=? c) && (c <=? 70) then Some (c - 55)
  else None.

Definition u_escape (u : Z) : jsstring :=
  [BACKSLASH; 117; hex_digit (u / 4096); hex_digit ((u / 256) mod 16);
   hex_digit ((u / 16) mod 16); hex_digit (u mod 16)].

(** One unit that is not part of a surrogate pair. *)
Definition quote_unit (u : Z) : jsstring :=
  if u =? 8 then [BACKSLASH; 98]
  else if u =? 9 then [BACKSLASH; 116]
  else if u =? 10 then [BACKSLASH; 110]
  else if u =? 12 then [BACKSLASH; 102]
  else if u =? 13 then [BACKSLASH; 114]
  else if u =? QUOTE then [BACKSLASH; QUOTE]
  else if u =? BACKSLASH then [BACKSLASH; BACKSLASH]
  else if (u <? 32) || is_high_surrogate u || is_low_surrogate u then u_escape u
  else [u].

Fixpoint quote_units (s : jsstring) : jsstring :=
  match s with
  | [] => []
  | u :: s1 =>
      if is_high_surrogate u then
        match s1 with
        | v :: s2 =>
            if is_low_surrogate v then u :: v :: quote_units s2
            else quote_unit u ++ quote_units s1
        | [] => quote_unit u
        end
      else quote_unit u ++ quote_units s1
  end.

(** [JSON.stringify(s)] (well-formed: a lone surrogate is escaped). *)
Definition json_quote (s : jsstring) : jsstring := QUOTE :: quote_units s ++ [QUOTE].

(** The body of a JSON string literal after its opening quote; returns the
    string and the text after the closing quote. *)
Fixpoint parse_quoted (s : jsstring) : option (jsstring * jsstring) :=
  match s with
  | [] => None
  | c :: s1 =>
      if c =? QUOTE then Some ([], s1)
      else if c =? BACKSLASH then
        match s1 with
        | [] => None
        | e :: s2 =>
            if e =? QUOTE then '(t, r) ← parse_quoted s2; Some (QUOTE :: t, r)
            else if e =? BACKSLASH then '(t, r) ← parse_quoted s2; Some (BACKSLASH :: t, r)
            else if e =? 47 then '(t, r) ← parse_quoted s2; Some (47 :: t, r)
            else if e =? 98 then '(t, r) ← parse_quoted s2; Some (8 :: t, r)
            else if e =? 102 then '(t, r) ← parse_quoted s2; Some (12 :: t, r)
            else if e =? 110 then '(t, r) ← parse_quoted s2; Some (10 :: t, r)
            else if e =? 114 then '(t, r) ← parse_quoted s2; Some (13 :: t, r)
            else if e =? 116 then '(t, r) ← parse_quoted s2; Some (9 :: t, r)
            else if e =? 117 then
              match s2 with
              | a :: b :: d :: f :: s3 =>
                  a' ← hex_value a; b' ← hex_value b; d' ← hex_value d; f' ← hex_value f;
                  '(t, r) ← parse_quoted s3;
                  Some (a' * 4096 + b' * 256 + d' * 16 + f' :: t, r)
              | _ => None
              end
            else None
        end
      else if c <? 32 then None
      else '(t, r) ← parse_quoted s1; Some (c :: t, r)
  end.

Lemma hex_value_digit n : 0 <= n < 16 → hex_value (hex_digit n) = Some n.
Proof.
  intros Hn. unfold hex_value, hex_digit.
  repeat case_match; bool_prop; rewrite ?andb_false_iff in *; bool_prop; try (f_equal; lia);
    exfalso; lia.
Qed.

Lemma hex_digit_range n : 0 <= n < 16 → 48 <= hex_digit n < 128.
Proof. unfold hex_digit. case_match; bool_prop; lia. Qed.

Lemma parse_quoted_escape u rest :
  0 <= u < 65536 →
  parse_quoted (u_escape u ++ rest) = ('(t, r) ← parse_quoted rest; Some (u :: t, r)).
Proof.
  intros Hu. unfold u_escape. cbn -[hex_digit hex_value].
  rewrite !hex_value_digit by (Z.to_euclidean_division_equations; lia). cbn.
  destruct (parse_quoted rest) as [[t r]|]; cbn; [|done].
  do 3 f_equal. Z.to_euclidean_division_equations; lia.
Qed.

Lemma parse_quoted_plain u rest :
  32 <= u → u ≠ QUOTE → u ≠ BACKSLASH →
  parse_quoted (u :: rest) = ('(t, r) ← parse_quoted rest; Some (u :: t, r)).
Proof.
  intros H1 H2 H3. cbn.
  rewrite (proj2 (Z.eqb_neq u QUOTE)), (proj2 (Z.eqb_neq u BACKSLASH)) by done.
  by rewrite (proj2 (Z.ltb_ge u 32)).
Qed.

Lemma parse_quoted_unit u rest :
  0 <= u < 65536 →
  parse_quoted (quote_unit u ++ rest) = ('(t, r) ← parse_quoted rest; Some (u :: t, r)).
Proof.
  intros Hu. unfold quote_unit.
  repeat match goal with
  | |- context [if ?u =? ?k then _ else _] => destruct (Z.eqb_spec u k) as [->|?]; [reflexivity|]
  end.
  destruct (_ || _) eqn:E; [by apply parse_quoted_escape|].
  bool_prop. apply parse_quoted_plain; auto.
Qed.

(** Parsing what [JSON.stringify] printed gives the string back, for every
    string, well-formed or not. *)
Lemma parse_quoted_units s rest :
  units_ok s → parse_quoted (quote_units s ++ QUOTE :: rest) = Some (s, rest).
Proof.
  induction s as [|h l s Hh Hl IH|h s Hh Hs IH|u s Hu IH] using units_ind; intros Hok.
  - done.
  - apply Forall_cons in Hok as [_ Hok]. apply Forall_cons in Hok as [_ Hok].
    cbn -[parse_quoted]. rewrite Hh, Hl. cbn [app].
    surrogates. rewrite !parse_quoted_plain by (unfold QUOTE, BACKSLASH; lia).
    by rewrite IH.
  - apply Forall_cons in Hok as [Hok1 Hok]. cbn -[parse_quoted]. rewrite Hh.
    destruct s as [|l s].
    + rewrite parse_quoted_unit by done. done.
    + rewrite Hs, <-app_assoc, parse_quoted_unit, IH by done. done.
  - apply Forall_cons in Hok as [Hok1 Hok]. cbn -[parse_quoted].
    by rewrite Hu, <-app_assoc, parse_quoted_unit, IH.
Qed.

Lemma scalar_string_cons u s :
  is_high_surrogate u = false → is_low_surrogate u = false →
  scalar_string (u :: s) = scalar_string s.
Proof. intros H1 H2. cbn. by rewrite H1, H2. Qed.

Lemma ascii_not_surrogate u :
  u < 55296 → is_high_surrogate u = false ∧ is_low_surrogate u = false.
Proof. intros H. unfold is_high_surrogate, is_low_surrogate. split; apply andb_false_iff; left; lia. Qed.

(** Text below the surrogate range is well formed. *)
Lemma scalar_string_low s t :
  Forall (λ u, u < 55296) s → scalar_string (s ++ t) = scalar_string t.
Proof.
  induction 1 as [|u s Hu Hs IH]; cbn [app]; [done|].
  destruct (ascii_not_surrogate u Hu). by rewrite scalar_string_cons.
Qed.

Lemma quote_unit_scalar u t :
  0 <= u < 65536 → scalar_string (quote_unit u ++ t) = scalar_string t.
Proof.
  intros Hu. unfold quote_unit.
  repeat match goal with
  | |- context [if ?u =? ?k then _ else _] => destruct (Z.eqb_spec u k) as [->|?]; [reflexivity|]
  end.
  destruct (_ || _) eqn:E.
  - apply scalar_string_low. unfold u_escape, BACKSLASH.
    repeat constructor; try lia;
      match goal with |- hex_digit ?n < _ => pose proof (hex_digit_range n) end;
      Z.to_euclidean_division_equations; lia.
  - bool_prop. cbn [app]. by apply scalar_string_cons.
Qed.

(** Quoting produces well-formed text even from an ill-formed string. *)
Lemma quote_units_scalar s t :
  units_ok s → scalar_string (quote_units s ++ t) = scalar_string t.
Proof.
  induction s as [|h l s Hh Hl IH|h s Hh Hs IH|u s Hu IH] using units_ind; intros Hok.
  - done.
  - apply Forall_cons in Hok as [_ Hok]. apply Forall_cons in Hok as [_ Hok].
    cbn -[scalar_string]. rewrite Hh, Hl. cbn. rewrite Hh, Hl. cbn. auto.
  - apply Forall_cons in Hok as [Hok1 Hok]. cbn -[scalar_string]. rewrite Hh.
    destruct s as [|l s]; [by apply quote_unit_scalar|].
    rewrite Hs, <-app_assoc, quote_unit_scalar by done. auto.
  - apply Forall_cons in Hok as [Hok1 Hok]. cbn -[scalar_string].
    rewrite Hu, <-app_assoc, quote_unit_scalar by done. auto.
Qed.

Lemma json_quote_scalar s t :
  units_ok s → scalar_string (json_quote s ++ t) = scalar_string t.
Proof.
  intros H. unfold json_quote. rewrite <-app_comm_cons, scalar_string_cons by done.
  rewrite <-app_assoc, quote_units_scalar by done. cbn [app]. by apply scalar_string_cons.
Qed.

Lemma u_escape_units u : 0 <= u < 65536 → units_ok (u_escape u).
Proof.
  intros Hu. unfold u_escape, BACKSLASH, units_ok.
  repeat constructor; try lia;
    match goal with |- context [hex_digit ?n] => pose proof (hex_digit_range n) end;
    Z.to_euclidean_division_equations; lia.
Qed.

Lemma quote_unit_units u : 0 <= u < 65536 → units_ok (quote_unit u).
Proof.
  intros Hu. unfold quote_unit, QUOTE, BACKSLASH.
  repeat match goal with
  | |- context [if ?u =? ?k then _ else _] =>
      destruct (Z.eqb_spec u k) as [->|?]; [repeat constructor; lia|]
  end.
  destruct (_ || _); [by apply u_escape_units|]. repeat constructor; lia.
Qed.

Lemma quote_units_units s : units_ok s → units_ok (quote_units s).
Proof.
  induction s as [|h l s Hh Hl IH|h s Hh Hs IH|u s Hu IH] using units_ind; intros Hok; unfold units_ok.
  - done.
  - apply Forall_cons in Hok as [H1 Hok]. apply Forall_cons in Hok as [H2 Hok].
    cbn. rewrite Hh, Hl. constructor; [done|]. constructor; [done|]. by apply IH.
  - apply Forall_cons in Hok as [Hok1 Hok]. cbn. rewrite Hh.
    destruct s as [|l s]; [by apply quote_unit_units|].
    rewrite Hs. apply Forall_app; split; [by apply quote_unit_units|by apply IH].
  - apply Forall_cons in Hok as [Hok1 Hok]. cbn. rewrite Hu.
    apply Forall_app; split; [by apply quote_unit_units|by apply IH].
Qed.

Lemma json_quote_units s : units_ok s → units_ok (json_quote s).
Proof.
  intros H. unfold json_quote, QUOTE, units_ok. constructor; [lia|].
  apply Forall_app; split; [by apply quote_units_units|]. repeat constructor; lia.
Qed.

Lemma js_units s : units_ok (js s).
Proof.
  unfold js, units_ok. rewrite Forall_fmap. apply Forall_true. intros a. cbn.
  destruct a as [[] [] [] [] [] [] [] []]; cbn; lia.
Qed.

#[export] Hint Resolve js_units json_quote_units : peas.
