(* ===== verification/JsNumber.v ===== *)
(** * Numbers

    The JavaScript numbers the program meets: a double is an integer, negative
    zero, or something else (a fraction, an infinity, a NaN).  The file has
    decimal printing ([String(n)], [JSON.stringify(n)], [BigInt.toString]),
    decimal reading ([JSON.parse] of a number literal with the rounding of a
    decimal to the nearest double, [BigInt(text)]), and the facts that make
    printing and reading inverse on safe integers. *)
From S2P Require Import Prelude JsString.

Inductive jsnum : Type :=
  | NInt (z : Z)
  | NNegZero
  | NOther.

#[export] Instance jsnum_eq_dec : EqDecision jsnum.
Proof. solve_decision. Defined.

(** [Number.isSafeInteger(n) && !Object.is(n, -0)]. *)
Definition is_safe_number (n : jsnum) : bool :=
  match n with NInt z => is_safe_integer z | _ => false end.

(** ** Printing *)

Fixpoint digits_fuel (n : nat) (z : Z) (acc : jsstring) : jsstring :=
  match n with
  | O => acc
  | S n => let acc := 48 + z mod 10 :: acc in
      if z <? 10 then acc else digits_fuel n (z / 10) acc
  end.

Definition dec_nat (z : Z) : jsstring := digits_fuel (S (Z.to_nat (Z.log2 z))) z [].

(** [String(z)] of an integer. *)
Definition dec (z : Z) : jsstring := if z <? 0 then 45 :: dec_nat (- z) else dec_nat z.

(** ** Reading digits *)

Definition is_digit (c : Z) : bool := (48 <=? c) && (c <=? 57).

Definition digits_value (a : Z) (s : jsstring) : Z :=
  foldl (λ n c, n * 10 + (c - 48)) a s.

(** The longest prefix of digits, and the rest. *)
Fixpoint span_digits (s : jsstring) : jsstring * jsstring :=
  match s with
  | [] => ([], [])
  | c :: s' => if is_digit c then let '(d, r) := span_digits s' in (c :: d, r) else ([], s)
  end.

Definition all_digits (s : jsstring) : bool := forallb is_digit s.

(** ** The nearest double of a decimal *)

Definition round_half_even (n d : Z) : Z :=
  let q := n / d in let r := n mod d in
  if 2 * r <? d then q else if d <? 2 * r then q + 1 else if Z.even q then q else q + 1.

(** [floor (log2 (n / d))] for positive [n], [d]. *)
Definition log2_ratio (n d : Z) : Z :=
  let k := Z.log2 n - Z.log2 d in
  if n * 2 ^ Z.max 0 (- k) <? d * 2 ^ Z.max 0 k then k - 1 else k.

Definition signed_integer (neg : bool) (q : Z) : jsnum :=
  if q =? 0 then (if neg then NNegZero else NInt 0) else NInt (if neg then - q else q).

(** The double nearest to [n / d] (ties to even), [n] and [d] positive. *)
Definition double_of_ratio (neg : bool) (n d : Z) : jsnum :=
  let s := Z.max (log2_ratio n d - 52) (-1074) in
  let q := round_half_even (n * 2 ^ Z.max 0 (- s)) (d * 2 ^ Z.max 0 s) in
  if 0 <=? s then
    (if 2 ^ 1024 <=? q * 2 ^ s then NOther else signed_integer neg (q * 2 ^ s))
  else if q mod 2 ^ (- s) =? 0 then signed_integer neg (q / 2 ^ (- s))
  else NOther.

(** The double denoted by [(-1)^neg * m * 10^e]. *)
Definition double_of_decimal (neg : bool) (m e : Z) : jsnum :=
  if m =? 0 then signed_integer neg 0
  else double_of_ratio neg (m * 10 ^ Z.max 0 e) (10 ^ Z.max 0 (- e)).

(** ** JSON number literals *)

Definition parse_fraction (s : jsstring) : option (jsstring * jsstring) :=
  match s with
  | c :: s' =>
      if c =? 46 then
        match span_digits s' with ([], _) => None | (ds, r) => Some (ds, r) end
      else Some ([], s)
  | [] => Some ([], s)
  end.

Definition parse_exponent (s : jsstring) : option (Z * jsstring) :=
  match s with
  | c :: s1 =>
      if (c =? 101) || (c =? 69) then
        let '(neg, s2) := match s1 with
          | d :: s2 => if d =? 45 then (true, s2) else if d =? 43 then (false, s2) else (false, s1)
          | [] => (false, s1)
          end in
        match span_digits s2 with
        | ([], _) => None
        | (ds, r) =>
            let v := digits_value 0 ds in
            Some (if neg : bool then - v else v, r)
        end
      else Some (0, s)
  | [] => Some (0, s)
  end.

Definition parse_number (s : jsstring) : option (jsnum * jsstring) :=
  let '(neg, s1) := match s with
    | c :: s1 => if c =? 45 then (true, s1) else (false, s)
    | [] => (false, s)
    end in
  '(int, s2) ← match s1 with
    | c :: r => if c =? 48 then Some ([48], r)
        else match span_digits s1 with ([], _) => None | p => Some p end
    | [] => None
    end;
  '(frac, s3) ← parse_fraction s2;
  '(e, s4) ← parse_exponent s3;
  Some (double_of_decimal neg (digits_value 0 (int ++ frac)) (e - Z.of_nat (length frac)), s4).

(** ** [BigInt(text)] *)

Definition is_space (c : Z) : bool :=
  bool_decide (c ∈ [9; 10; 11; 12; 13; 32; 160; 5760; 8232; 8233; 8239; 8287; 12288; 65279])
  || ((8192 <=? c) && (c <=? 8202)).

Fixpoint drop_space (s : jsstring) : jsstring :=
  match s with c :: s' => if is_space c then drop_space s' else s | [] => [] end.

Definition trim (s : jsstring) : jsstring := reverse (drop_space (reverse (drop_space s))).

Definition radix_digit (radix c : Z) : option Z :=
  v ← hex_value c; if v <? radix then Some v else None.

Fixpoint radix_value (radix a : Z) (s : jsstring) : option Z :=
  match s with
  | [] => Some a
  | c :: s' => d ← radix_digit radix c; radix_value radix (a * radix + d) s'
  end.

Definition nonempty_radix (radix : Z) (s : jsstring) : option Z :=
  match s with [] => None | _ => radix_value radix 0 s end.

(** StringToBigInt: surrounding white space, an optional sign on decimals, and
    the prefixes [0x], [0o] and [0b]; the empty text is [0n]. *)
Definition string_to_bigint (s : jsstring) : option Z :=
  match trim s with
  | [] => Some 0
  | c :: r =>
      if c =? 45 then Z.opp <$> nonempty_radix 10 r
      else if c =? 43 then nonempty_radix 10 r
      else match r with
        | p :: r' =>
            if (c =? 48) && ((p =? 120) || (p =? 88)) then nonempty_radix 16 r'
            else if (c =? 48) && ((p =? 111) || (p =? 79)) then nonempty_radix 8 r'
            else if (c =? 48) && ((p =? 98) || (p =? 66)) then nonempty_radix 2 r'
            else nonempty_radix 10 (c :: r)
        | [] => nonempty_radix 10 (c :: r)
        end
  end.

(** [BigInt(text)] throws a [SyntaxError] on any other text. *)
Definition BigInt (s : jsstring) : res Z :=
  or_throw (string_to_bigint s) (SyntaxError "Cannot convert to a BigInt").

(** ** The regular expressions on digits *)

(** A digit from 1 to 9, then digits. *)
Definition positive_decimal (s : jsstring) : bool :=
  match s with c :: r => (49 <=? c) && (c <=? 57) && all_digits r | [] => false end.

(** [0], or a positive decimal. *)
Definition nonnegative_decimal (s : jsstring) : bool :=
  bool_decide (s = [48]) || positive_decimal s.

(** 64 lower-case hexadecimal digits. *)
Definition is_lower_hex (c : Z) : bool :=
  ((48 <=? c) && (c <=? 57)) || ((97 <=? c) && (c <=? 102)).
Definition is_hash (s : jsstring) : bool :=
  (js_length s =? 64) && forallb is_lower_hex s.

(** ** Lemmas *)

Lemma digits_value_fuel n z acc a :
  0 <= z < 2 ^ Z.of_nat n → (0 < n)%nat →
  digits_value 0 (digits_fuel n z acc) = digits_value z acc ∧
  (all_digits (digits_fuel n z acc) = all_digits acc) ∧
  (z < 10 → digits_fuel n z a = 48 + z :: a) ∧
  (0 < z → positive_decimal (digits_fuel n z acc) = all_digits acc) .
Proof.
  assert (Hdig : ∀ z, 0 <= z < 10 → is_digit (48 + z) = true).
  { intros. unfold is_digit. apply andb_true_iff. lia. }
  revert z acc a. induction n as [|n IH]; intros z acc a Hz Hn; [lia|].
  cbn [digits_fuel]. destruct (Z.ltb_spec z 10) as [Hlt|Hge].
  - rewrite (Z.mod_small z 10) by lia. repeat split.
    + unfold digits_value. cbn. f_equal. lia.
    + unfold all_digits. cbn [forallb]. rewrite Hdig; [done|lia].
    + intros. unfold positive_decimal. rewrite (proj2 (Z.leb_le _ _)) by lia.
      rewrite (proj2 (Z.leb_le (48 + z) 57)) by lia. done.
  - assert (Hlt : z / 10 < 2 ^ Z.of_nat n).
    { rewrite Nat2Z.inj_succ, Z.pow_succ_r in Hz by lia.
      apply Z.div_lt_upper_bound; lia. }
    assert (0 < z / 10) by (apply Z.div_str_pos; lia).
    destruct n as [|n]; [cbn in Hlt; lia|].
    pose proof (Z.mod_pos_bound z 10).
    destruct (IH (z / 10) (48 + z mod 10 :: acc) a) as (H1 & H2 & _ & H4); [lia|lia|].
    repeat split.
    + rewrite H1. unfold digits_value at 1. cbn [foldl].
      unfold digits_value. f_equal. pose proof (Z.div_mod z 10). lia.
    + rewrite H2. unfold all_digits. cbn [forallb]. rewrite Hdig; [done|lia].
    + lia.
    + intros _. rewrite H4 by lia. unfold all_digits. cbn [forallb]. rewrite Hdig; [done|lia].
Qed.

Lemma dec_nat_spec z :
  0 <= z → digits_value 0 (dec_nat z) = z ∧ all_digits (dec_nat z) = true ∧
    (z = 0 → dec_nat z = [48]) ∧ (0 < z → positive_decimal (dec_nat z) = true).
Proof.
  intros Hz. unfold dec_nat.
  assert (z < 2 ^ Z.of_nat (S (Z.to_nat (Z.log2 z)))).
  { rewrite Nat2Z.inj_succ, Z2Nat.id by apply Z.log2_nonneg.
    destruct (Z.eq_dec z 0) as [->|]; [done|]. apply Z.log2_spec. lia. }
  destruct (digits_value_fuel (S (Z.to_nat (Z.log2 z))) z [] []) as (H1 & H2 & H3 & H4); [lia|lia|].
  repeat split; auto. intros ->. by apply H3.
Qed.

Lemma dec_nat_value z : 0 <= z → digits_value 0 (dec_nat z) = z.
Proof. apply dec_nat_spec. Qed.

Lemma dec_nat_inj z w : 0 <= z → 0 <= w → dec_nat z = dec_nat w → z = w.
Proof. intros Hz Hw H. rewrite <-(dec_nat_value z), <-(dec_nat_value w) by done. by f_equal. Qed.

Lemma dec_nonneg z : 0 <= z → dec z = dec_nat z.
Proof. intros. unfold dec. by rewrite (proj2 (Z.ltb_ge z 0)). Qed.

Lemma dec_positive z : 0 < z → positive_decimal (dec z) = true.
Proof. intros. rewrite dec_nonneg by lia. apply dec_nat_spec; lia. Qed.

Lemma dec_nonnegative z : 0 <= z → nonnegative_decimal (dec z) = true.
Proof.
  intros. unfold nonnegative_decimal. destruct (Z.eq_dec z 0) as [->|]; [done|].
  rewrite dec_positive by lia. apply orb_true_r.
Qed.

Lemma span_digits_app d r :
  all_digits d = true → match r with c :: _ => is_digit c = false | [] => True end →
  span_digits (d ++ r) = (d, r).
Proof.
  unfold all_digits. intros Hd Hr. induction d as [|c d IH]; cbn in *.
  - destruct r as [|c r]; cbn; [done|]. by rewrite Hr.
  - apply andb_true_iff in Hd as [-> Hd]. by rewrite IH.
Qed.

Lemma digit_not_space c : is_digit c = true → is_space c = false.
Proof.
  unfold is_digit, is_space. intros H. bool_prop. apply orb_false_iff. split.
  - apply bool_decide_eq_false. rewrite !elem_of_cons, elem_of_nil. lia.
  - apply andb_false_iff. lia.
Qed.

Lemma trim_digits s : all_digits s = true → trim s = s.
Proof.
  intros H.
  assert (Hd : ∀ s, all_digits s = true → drop_space s = s).
  { intros [|c t]; [done|]. unfold all_digits. cbn. intros [Hc _]%andb_true_iff.
    by rewrite digit_not_space. }
  unfold trim. rewrite (Hd s), (Hd (reverse s)); [by rewrite reverse_involutive| |done].
  unfold all_digits in *. rewrite forallb_forall in *. intros c Hc.
  apply H. apply list_elem_of_In, elem_of_reverse, list_elem_of_In. done.
Qed.

Lemma radix_value_digits a s :
  all_digits s = true → radix_value 10 a s = Some (digits_value a s).
Proof.
  revert a; induction s as [|c s IH]; intros a; [done|].
  unfold all_digits. cbn [forallb]. intros [Hc Hs]%andb_true_iff.
  cbn. unfold radix_digit, hex_value. unfold is_digit in Hc. rewrite Hc.
  bool_prop. cbn. rewrite (proj2 (Z.ltb_lt _ _)) by lia. cbn. by apply IH.
Qed.

(** [BigInt] of a decimal is its value. *)
Lemma string_to_bigint_digits s :
  all_digits s = true → s ≠ [] → string_to_bigint s = Some (digits_value 0 s).
Proof.
  intros Hs Hne. unfold string_to_bigint. rewrite trim_digits by done.
  destruct s as [|c r]; [done|].
  assert (Hr : nonempty_radix 10 (c :: r) = Some (digits_value 0 (c :: r)))
    by (apply (radix_value_digits 0); done).
  unfold all_digits in Hs. cbn [forallb] in Hs. apply andb_true_iff in Hs as [Hc Hs'].
  unfold is_digit in Hc. bool_prop.
  rewrite (proj2 (Z.eqb_neq c 45)), (proj2 (Z.eqb_neq c 43)) by lia.
  destruct r as [|p r]; [done|]. cbn [forallb] in Hs'. apply andb_true_iff in Hs' as [Hp _].
  unfold is_digit in Hp. bool_prop.
  by rewrite (proj2 (Z.eqb_neq p 120)), (proj2 (Z.eqb_neq p 88)), (proj2 (Z.eqb_neq p 111)),
    (proj2 (Z.eqb_neq p 79)), (proj2 (Z.eqb_neq p 98)), (proj2 (Z.eqb_neq p 66)), !andb_false_r by lia.
Qed.

Lemma positive_decimal_digits s : positive_decimal s = true → all_digits s = true ∧ s ≠ [].
Proof.
  destruct s as [|c r]; cbn; [done|]. intros H. bool_prop. split; [|done].
  unfold all_digits in *. cbn. unfold is_digit at 1. apply andb_true_iff; split; [|done].
  apply andb_true_iff. lia.
Qed.

Lemma nonnegative_decimal_digits s : nonnegative_decimal s = true → all_digits s = true ∧ s ≠ [].
Proof.
  unfold nonnegative_decimal. intros [H|H]%orb_true_iff; [|by apply positive_decimal_digits].
  bool_prop. by subst.
Qed.

Lemma BigInt_decimal s : nonnegative_decimal s = true → BigInt s = Ok (digits_value 0 s).
Proof.
  intros [H1 H2]%nonnegative_decimal_digits. unfold BigInt. by rewrite string_to_bigint_digits.
Qed.

Lemma BigInt_dec z : 0 <= z → BigInt (dec z) = Ok z.
Proof.
  intros Hz. rewrite BigInt_decimal by by apply dec_nonnegative.
  rewrite dec_nonneg, dec_nat_value; done.
Qed.

Lemma digits_value_mono s a b : a < b → digits_value a s < digits_value b s.
Proof.
  unfold digits_value. revert a b; induction s as [|c s IH]; intros a b H; cbn; [done|].
  apply IH. lia.
Qed.

Lemma digits_value_lower s a :
  all_digits s = true → 0 <= a → a <= digits_value a s.
Proof.
  unfold digits_value, all_digits. revert a; induction s as [|c s IH]; intros a; cbn; [lia|].
  intros [Hc Hs]%andb_true_iff Ha. unfold is_digit in Hc. bool_prop.
  specialize (IH (a * 10 + (c - 48)) Hs ltac:(lia)). lia.
Qed.

Lemma positive_decimal_value s : positive_decimal s = true → 0 < digits_value 0 s.
Proof.
  destruct s as [|c r]; [done|]; unfold positive_decimal. intros H. bool_prop.
  pose proof (digits_value_lower r (0 * 10 + (c - 48)) ltac:(done) ltac:(lia)).
  change (digits_value 0 (c :: r)) with (digits_value (0 * 10 + (c - 48)) r). lia.
Qed.

(** A printed integer without its sign contains no character JSON gives a
    meaning to after a number. *)
Definition ends_number (r : jsstring) : Prop :=
  match r with
  | c :: _ => is_digit c = false ∧ c ≠ 46 ∧ c ≠ 101 ∧ c ≠ 69
  | [] => True
  end.

Lemma log2_ratio_1 n : 0 < n → log2_ratio n 1 = Z.log2 n.
Proof.
  intros Hn. unfold log2_ratio. change (Z.log2 1) with 0. rewrite Z.sub_0_r.
  pose proof (Z.log2_nonneg n). rewrite (Z.max_l 0 (- _)), (Z.max_r 0) by lia.
  rewrite Z.pow_0_r, Z.mul_1_r, Z.mul_1_l.
  rewrite (proj2 (Z.ltb_ge _ _)); [done|]. by apply Z.log2_spec.
Qed.

Lemma round_half_even_exact q d : 0 < d → round_half_even (q * d) d = q.
Proof.
  intros Hd. unfold round_half_even. rewrite Z.mod_mul, Z.div_mul by lia.
  by rewrite (proj2 (Z.ltb_lt (2 * 0) d)) by lia.
Qed.

(** Integers up to [Number.MAX_SAFE_INTEGER] are read exactly. *)
Lemma double_of_safe neg m :
  0 <= m <= MAX_SAFE_INTEGER → double_of_decimal neg m 0 = signed_integer neg m.
Proof.
  intros Hm. unfold double_of_decimal. destruct (Z.eqb_spec m 0) as [->|Hne]; [done|].
  change (Z.max 0 0) with 0. change (Z.max 0 (- 0)) with 0. rewrite Z.pow_0_r, Z.mul_1_r.
  unfold double_of_ratio. rewrite log2_ratio_1 by lia.
  assert (Hl : Z.log2 m < 53).
  { apply Z.log2_lt_pow2; [lia|]. unfold MAX_SAFE_INTEGER in Hm. lia. }
  pose proof (Z.log2_nonneg m). rewrite Z.max_l by lia.
  set (s := Z.log2 m - 52). assert (-52 <= s <= 0) by lia.
  rewrite (Z.max_r 0 (- s)), (Z.max_l 0 s) by lia. rewrite Z.pow_0_r, Z.mul_1_r.
  assert (Hr : round_half_even (m * 2 ^ (- s)) 1 = m * 2 ^ (- s)).
  { pose proof (round_half_even_exact (m * 2 ^ (- s)) 1) as Hr. rewrite Z.mul_1_r in Hr. by apply Hr. }
  rewrite Hr. destruct (Z.leb_spec 0 s) as [Hs|Hs].
  - assert (Es : s = 0) by lia. rewrite Es, Z.pow_0_r, !Z.mul_1_r.
    rewrite (proj2 (Z.leb_gt _ _)); [done|].
    assert (2 ^ 53 < 2 ^ 1024) by (apply Z.pow_lt_mono_r; lia). unfold MAX_SAFE_INTEGER in Hm. lia.
  - assert (0 < 2 ^ (- s)) by (apply Z.pow_pos_nonneg; lia).
    rewrite Z.mod_mul, Z.div_mul by lia. done.
Qed.

(** Reading back a printed safe integer. *)
Lemma parse_number_dec z r :
  is_safe_integer z = true → ends_number r → parse_number (dec z ++ r) = Some (NInt z, r).
Proof.
  intros Hz Hr. apply is_safe_integer_spec in Hz.
  assert (Hfrac : parse_fraction r = Some ([], r)).
  { destruct r as [|c r]; [done|]. destruct Hr as (_ & Hc & _). cbn.
    by rewrite (proj2 (Z.eqb_neq c 46)). }
  assert (Hexp : parse_exponent r = Some (0, r)).
  { destruct r as [|c r]; [done|]. destruct Hr as (_ & _ & H1 & H2). unfold parse_exponent.
    by rewrite (proj2 (Z.eqb_neq c 101)), (proj2 (Z.eqb_neq c 69)). }
  assert (Hr' : match r with c :: _ => is_digit c = false | [] => True end).
  { destruct r; [done|apply Hr]. }
  assert (Hbody : ∀ m, 0 <= m → ∀ c t, dec_nat m = c :: t →
    is_digit c = true ∧ (if c =? 48 then Some ([48], t ++ r)
      else match span_digits ((c :: t) ++ r) with ([], _) => None | p => Some p end)
    = Some (dec_nat m, r)).
  { intros m Hm c t E. destruct (dec_nat_spec m Hm) as (_ & Hd & H0 & H1).
    rewrite <-E, span_digits_app by done. rewrite E in *.
    assert (is_digit c = true) as Hc.
    { unfold all_digits in Hd. cbn in Hd. by apply andb_true_iff in Hd as [? _]. }
    split; [done|]. destruct (Z.eqb_spec c 48) as [->|]; [|done].
    destruct (Z.eq_dec m 0) as [->|]; [by injection (H0 eq_refl) as ->|].
    specialize (H1 ltac:(lia)). cbn in H1. bool_prop. lia. }
  assert (Hne : ∀ m, 0 <= m → dec_nat m ≠ []).
  { intros m Hm E. pose proof (dec_nat_spec m Hm) as (_ & _ & H0 & H1). rewrite E in *.
    destruct (Z.eq_dec m 0); [by specialize (H0 ltac:(done))|by specialize (H1 ltac:(lia))]. }
  assert (Hfin : ∀ neg m, 0 <= m <= MAX_SAFE_INTEGER →
    double_of_decimal neg (digits_value 0 (dec_nat m ++ [])) (0 - Z.of_nat (length (@nil Z)))
      = signed_integer neg m).
  { intros. rewrite app_nil_r, dec_nat_value by lia. by apply double_of_safe. }
  unfold parse_number, dec. destruct (Z.ltb_spec z 0) as [Hneg|Hpos].
  - cbn [app]. rewrite Z.eqb_refl.
    destruct (dec_nat (- z)) as [|c t] eqn:E; [by apply Hne in E; [|lia]|].
    destruct (Hbody (- z) ltac:(lia) c t E) as [_ Hb]. cbn [app] in *. rewrite Hb. cbn.
    rewrite Hfrac. cbn. rewrite Hexp. cbn. specialize (Hfin true (- z) ltac:(lia)).
    cbn in Hfin. rewrite Hfin. unfold signed_integer.
    rewrite (proj2 (Z.eqb_neq (- z) 0)) by lia. do 3 f_equal. lia.
  - destruct (dec_nat z) as [|c t] eqn:E; [by apply Hne in E; [|lia]|].
    destruct (Hbody z ltac:(lia) c t E) as [Hc Hb]. cbn [app] in *.
    rewrite (proj2 (Z.eqb_neq c 45)) by (unfold is_digit in Hc; bool_prop; lia).
    rewrite Hb. cbn. rewrite Hfrac. cbn. rewrite Hexp. cbn.
    specialize (Hfin false z ltac:(lia)). cbn in Hfin. rewrite Hfin. unfold signed_integer.
    by destruct (Z.eqb_spec z 0) as [->|].
Qed.

Lemma dec_low z : Forall (λ u, 0 <= u < 128) (dec z).
Proof.
  assert (H : ∀ z, 0 <= z → Forall (λ u, 0 <= u < 128) (dec_nat z)).
  { intros w Hw. apply Forall_forall. intros c Hc.
    destruct (dec_nat_spec w Hw) as (_ & Hd & _). unfold all_digits in Hd.
    rewrite forallb_forall in Hd. specialize (Hd c (proj1 (list_elem_of_In _ _) Hc)).
    unfold is_digit in Hd. bool_prop. lia. }
  unfold dec. destruct (Z.ltb_spec z 0); [constructor; [lia|]|]; apply H; lia.
Qed.

Lemma dec_units z : units_ok (dec z).
Proof. eapply Forall_impl; [apply dec_low|]. cbn. lia. Qed.

Lemma dec_scalar z t : scalar_string (dec z ++ t) = scalar_string t.
Proof. apply scalar_string_low. eapply Forall_impl; [apply dec_low|]. cbn. lia. Qed.

Lemma dec_inj z w : 0 <= z → 0 <= w → dec z = dec w → z = w.
Proof. intros. apply dec_nat_inj; auto. by rewrite <-!dec_nonneg. Qed.

Lemma digits_fuel_acc n z acc : digits_fuel n z acc = digits_fuel n z [] ++ acc.
Proof.
  revert z acc. induction n as [|n IH]; intros z acc; cbn; [done|].
  destruct (z <? 10); [done|]. rewrite IH, (IH _ [_]). by rewrite <-app_assoc.
Qed.

Lemma div10_fuel n z : 10 <= z < 2 ^ Z.of_nat (S n) → 0 < z / 10 < 2 ^ Z.of_nat n.
Proof.
  rewrite Nat2Z.inj_succ, Z.pow_succ_r by lia. intros Hz. split.
  - apply Z.div_str_pos; lia.
  - apply Z.div_lt_upper_bound; lia.
Qed.

Lemma digits_fuel_indep n m z :
  0 <= z < 2 ^ Z.of_nat n → 0 <= z < 2 ^ Z.of_nat m → (0 < n)%nat → (0 < m)%nat →
  digits_fuel n z [] = digits_fuel m z [].
Proof.
  revert m z. induction n as [|n IH]; intros [|m] z Hn Hm Hn0 Hm0; try lia. cbn.
  destruct (Z.ltb_spec z 10); [done|].
  rewrite digits_fuel_acc, (digits_fuel_acc m). f_equal.
  pose proof (div10_fuel n z ltac:(lia)). pose proof (div10_fuel m z ltac:(lia)).
  destruct n; [cbn in *; lia|]. destruct m; [cbn in *; lia|]. apply IH; lia.
Qed.

Lemma dec_nat_fuel_ok z : 0 <= z → z < 2 ^ Z.of_nat (S (Z.to_nat (Z.log2 z))).
Proof.
  intros Hz. rewrite Nat2Z.inj_succ, Z2Nat.id by apply Z.log2_nonneg.
  destruct (Z.eq_dec z 0) as [->|]; [done|]. apply Z.log2_spec. lia.
Qed.

Lemma dec_nat_step z : 10 <= z → dec_nat z = dec_nat (z / 10) ++ [48 + z mod 10].
Proof.
  intros Hz. unfold dec_nat at 1. cbn [digits_fuel]. rewrite (proj2 (Z.ltb_ge z 10)) by lia.
  rewrite digits_fuel_acc. f_equal. unfold dec_nat.
  pose proof (dec_nat_fuel_ok z ltac:(lia)).
  pose proof (div10_fuel _ z ltac:(split; [exact Hz|eassumption])).
  pose proof (dec_nat_fuel_ok (z / 10) ltac:(lia)).
  destruct (Z.to_nat (Z.log2 z)) as [|k] eqn:E; [cbn in *; lia|].
  apply digits_fuel_indep; lia.
Qed.

Lemma dec_nat_digits r a :
  0 < a → all_digits r = true → dec_nat (digits_value a r) = dec_nat a ++ r.
Proof.
  intros Ha. induction r as [|c r IH] using rev_ind; [by rewrite app_nil_r|].
  unfold all_digits. rewrite forallb_app. intros [Hr Hc]%andb_true_iff.
  cbn in Hc. rewrite andb_true_r in Hc. unfold is_digit in Hc. bool_prop.
  unfold digits_value. rewrite foldl_app. cbn [foldl]. fold (digits_value a r).
  pose proof (digits_value_lower r a Hr ltac:(lia)).
  rewrite dec_nat_step by lia. rewrite app_assoc, <-IH by done.
  f_equal; [f_equal|f_equal]; Z.to_euclidean_division_equations; lia.
Qed.

(** Canonical decimals are determined by their value. *)
Lemma positive_decimal_dec s : positive_decimal s = true → dec (digits_value 0 s) = s.
Proof.
  intros Hs. pose proof (positive_decimal_value s Hs).
  rewrite dec_nonneg by lia. destruct s as [|c r]; [done|].
  unfold positive_decimal in Hs. bool_prop.
  change (digits_value 0 (c :: r)) with (digits_value (0 * 10 + (c - 48)) r). rewrite dec_nat_digits by (done || lia).
  unfold dec_nat. cbn [digits_fuel]. rewrite (proj2 (Z.ltb_lt _ 10)) by lia.
  cbn [app]. f_equal. rewrite Z.mod_small; lia.
Qed.

Lemma nonnegative_decimal_dec s : nonnegative_decimal s = true → dec (digits_value 0 s) = s.
Proof.
  unfold nonnegative_decimal. intros [H|H]%orb_true_iff; [|by apply positive_decimal_dec].
  bool_prop. by subst.
Qed.

#[export] Hint Resolve dec_units : peas.
