(* ===== verification/Json.v ===== *)
(** * JSON values and canonical JSON ([src/core/json.ts])

    An inert JSON value is a tree.  An object is the list of its own entries;
    the property order of a JavaScript object is not part of its value, and
    [norm] picks the representative whose keys are in code-unit order.  The file
    has the canonical encoder [canonicalJson], the resource checker
    [assertJsonWithinLimits] on trees (the iterative traversal of the object
    graph is in [JsonGraph], with the theorem that both agree), and their
    specifications. *)
From S2P Require Import Prelude JsString JsNumber.

Inductive json : Type :=
  | JNull
  | JBool (b : bool)
  | JNum (n : jsnum)
  | JStr (s : jsstring)
  | JArr (l : list json)
  | JObj (kvs : list (jsstring * json)).

Abbreviation jobject := (list (jsstring * json)).

Definition jint (z : Z) : json := JNum (NInt z).

Section json_ind.
Context (P : json → Prop).
Context (Hnull : P JNull) (Hbool : ∀ b, P (JBool b)) (Hnum : ∀ n, P (JNum n)).
Context (Hstr : ∀ s, P (JStr s)).
Context (Harr : ∀ l, Forall P l → P (JArr l)).
Context (Hobj : ∀ kvs, Forall (λ kv, P kv.2) kvs → P (JObj kvs)).

Fixpoint json_ind' (v : json) : P v :=
  match v with
  | JNull => Hnull
  | JBool b => Hbool b
  | JNum n => Hnum n
  | JStr s => Hstr s
  | JArr l => Harr l ((fix go l := match l return Forall P l with
      | [] => Forall_nil_2 _
      | v :: l => Forall_cons_2 _ _ _ (json_ind' v) (go l) end) l)
  | JObj kvs => Hobj kvs ((fix go kvs := match kvs return Forall (λ kv, P kv.2) kvs with
      | [] => Forall_nil_2 _
      | kv :: kvs => Forall_cons_2 (λ kv, P kv.2) _ _ (json_ind' kv.2) (go kvs) end) kvs)
  end.
End json_ind.

#[export] Instance json_eq_dec : EqDecision json.
Proof.
  refine (fix go (v w : json) : Decision (v = w) :=
    match v, w with
    | JNull, JNull => left _
    | JBool a, JBool b => cast_if (decide (a = b))
    | JNum a, JNum b => cast_if (decide (a = b))
    | JStr a, JStr b => cast_if (decide (a = b))
    | JArr l, JArr k => cast_if (@list_eq_dec _ go l k)
    | JObj l, JObj k =>
        cast_if (@list_eq_dec _ (@prod_eq_dec _ _ _ go) l k)
    | _, _ => right _
    end); clear go; abstract congruence.
Defined.

(** Own-property lookup in an object's entries. *)
Definition lookup_key {A} (k : jsstring) (kvs : list (jsstring * A)) : option A :=
  snd <$> find (λ kv, bool_decide (kv.1 = k)) kvs.

(** What every JavaScript object satisfies: 16-bit code units and distinct keys. *)
Fixpoint json_wf (v : json) : Prop :=
  match v with
  | JNull | JBool _ | JNum _ => True
  | JStr s => units_ok s
  | JArr l => foldr (λ x P, json_wf x ∧ P) True l
  | JObj kvs =>
      NoDup (fst <$> kvs) ∧ foldr (λ kv P, (units_ok kv.1 ∧ json_wf kv.2) ∧ P) True kvs
  end.

(** ** Text checks *)

(** [assertUnicodeScalarString].  [charCodeAt] past the end is [NaN], and both
    comparisons with [NaN] are false, so a high surrogate in last position is
    let through. *)
Fixpoint assertUnicodeScalarString (s : jsstring) : res unit :=
  match s with
  | [] => Ok tt
  | u :: s1 =>
      if (55296 <=? u) && (u <=? 56319) then
        match s1 with
        | [] => Ok tt
        | next :: s2 =>
            if (next <? 56320) || (57343 <? next)
            then Throw (TypeError "contains an unpaired high surrogate")
            else assertUnicodeScalarString s2
        end
      else if (56320 <=? u) && (u <=? 57343)
      then Throw (TypeError "contains an unpaired low surrogate")
      else assertUnicodeScalarString s1
  end.

Definition PROTO_KEY : jsstring := js "__proto__".

Definition assertSupportedJsonKey (key : jsstring) : res unit :=
  do! assertUnicodeScalarString key ;;
  throw_if (bool_decide (key = PROTO_KEY))
    (TypeError "cannot contain the forbidden JSON key __proto__").

Definition key_le {A} (x y : jsstring * A) : bool := js_leb x.1 y.1.

(** The entries of a plain object, checked and in key order. *)
Definition objectDataEntries {A} (entries : list (jsstring * A))
    (maxObjectKeys maxStringBytes : option Z) : res (list (jsstring * A)) :=
  guard! (match maxObjectKeys with Some n => n <? Z.of_nat (length entries) | None => false end)
    throws RangeError "exceeds the object limit" ;;
  do! res_map (λ kv,
    do! assertSupportedJsonKey kv.1 ;;
    throw_if (match maxStringBytes with Some n => n <? byte_length kv.1 | None => false end)
      (RangeError "key exceeds the string limit")) entries ;;
  Ok (sort_by key_le entries).

(** ** The canonical encoder *)

Definition join (sep : jsstring) (l : list jsstring) : jsstring :=
  match l with
  | [] => []
  | x :: l => x ++ concat (map (λ y, sep ++ y) l)
  end.

(** The results of a mapped callback, the first exception winning. *)
Definition res_seq {A} (l : list (res A)) : res (list A) := res_map id l.

(** [encode] on an inert value.  The children's results are formed before the
    keys are checked but forced after, in key order, as the code does. *)
Fixpoint encode (value : json) : res jsstring :=
  match value with
  | JNull => Ok (js "null")
  | JStr s => do! assertUnicodeScalarString s ;; Ok (json_quote s)
  | JBool b => Ok (if b then js "true" else js "false")
  | JNum n =>
      match n with
      | NInt z =>
          guard! negb (is_safe_integer z)
            throws TypeError "must be a safe integer and cannot be negative zero" ;;
          Ok (dec z)
      | _ => Throw (TypeError "must be a safe integer and cannot be negative zero")
      end
  | JArr l =>
      let* entries := res_seq (encode <$> l) in
      Ok ([91] ++ join [44] entries ++ [93])
  | JObj kvs =>
      let* entries := objectDataEntries (map (λ kv, (kv.1, encode kv.2)) kvs) None None in
      let* texts := res_map (λ kv, let* t := kv.2 in Ok (json_quote kv.1 ++ [58] ++ t)) entries in
      Ok ([123] ++ join [44] texts ++ [125])
  end.

Definition canonicalJson (value : json) : res jsstring := encode value.

Definition assertJson (value : json) : res unit := do! encode value ;; Ok tt.

(** ** Specification of the encoder *)

(** The value with every object's entries in key order. *)
Fixpoint norm (v : json) : json :=
  match v with
  | JArr l => JArr (norm <$> l)
  | JObj kvs => JObj (sort_by key_le (map (λ kv, (kv.1, norm kv.2)) kvs))
  | v => v
  end.

(** The plain printer, entries in the order they have. *)
Fixpoint print (v : json) : jsstring :=
  match v with
  | JNull => js "null"
  | JStr s => json_quote s
  | JBool b => if b then js "true" else js "false"
  | JNum n => match n with NInt z => dec z | _ => [] end
  | JArr l => [91] ++ join [44] (print <$> l) ++ [93]
  | JObj kvs =>
      [123] ++ join [44] (map (λ kv, json_quote kv.1 ++ [58] ++ print kv.2) kvs) ++ [125]
  end.

(** The values the encoder accepts. *)
Fixpoint encodable (v : json) : bool :=
  match v with
  | JNull | JBool _ => true
  | JStr s => is_ok (assertUnicodeScalarString s)
  | JNum n => is_safe_number n
  | JArr l => forallb encodable l
  | JObj kvs => forallb (λ kv, is_ok (assertSupportedJsonKey kv.1) && encodable kv.2) kvs
  end.

Definition json_equiv (v w : json) : Prop := norm v = norm w.

#[export] Instance json_equiv_equivalence : Equivalence json_equiv.
Proof. unfold json_equiv. split; red; congruence. Qed.

(** *** Key order *)

Section key_order.
Context {A B : Type}.

Lemma key_le_total (x y : jsstring * A) : key_le x y = true ∨ key_le y x = true.
Proof. apply js_leb_total. Qed.

Lemma key_le_trans (x y z : jsstring * A) :
  key_le x y = true → key_le y z = true → key_le x z = true.
Proof. apply js_leb_trans. Qed.

Lemma key_le_antisym (kvs : list (jsstring * A)) x y :
  NoDup (fst <$> kvs) → x ∈ kvs → y ∈ kvs →
  key_le x y = true → key_le y x = true → x = y.
Proof.
  intros Hnd Hx Hy H1 H2. assert (Hk : x.1 = y.1) by by apply js_leb_antisym.
  clear H1 H2. induction kvs as [|z kvs IH]; [by apply not_elem_of_nil in Hx|].
  cbn in Hnd. apply NoDup_cons in Hnd as [Hz Hnd].
  assert (Hin : ∀ w, w ∈ kvs → w.1 ∈ fst <$> kvs).
  { intros w Hw. apply list_elem_of_fmap. eauto. }
  apply elem_of_cons in Hx as [->|Hx], Hy as [->|Hy]; auto.
  - exfalso. apply Hz. rewrite Hk. auto.
  - exfalso. apply Hz. rewrite <-Hk. auto.
Qed.

(** Mapping the values commutes with sorting by key. *)
Lemma sort_by_map (f : jsstring * A → jsstring * B) (l : list (jsstring * A)) :
  (∀ x, (f x).1 = x.1) → sort_by key_le (map f l) = map f (sort_by key_le l).
Proof.
  intros Hf. unfold sort_by. induction l as [|x l IH]; cbn; [done|]. rewrite IH.
  generalize (foldr (insert_by key_le) [] l) as k. clear IH.
  induction k as [|y k IH]; cbn; [done|].
  assert (E : key_le (f x) (f y) = key_le x y) by (unfold key_le; by rewrite !Hf).
  rewrite E. destruct (key_le x y); cbn; [done|]. by rewrite IH.
Qed.
End key_order.

Lemma forallb_perm {A} (f : A → bool) l k : l ≡ₚ k → forallb f l = forallb f k.
Proof.
  induction 1 as [|x l k Hp IH|x y l|l k m H1 IH1 H2 IH2]; cbn; [done| | |congruence].
  - by rewrite IH.
  - by destruct (f x), (f y).
Qed.

Lemma res_map_ok_forall {A B} (f : A → res B) (l : list A) :
  is_ok (res_map f l) = forallb (λ x, is_ok (f x)) l.
Proof.
  induction l as [|x l IH]; cbn; [done|]. rewrite <-IH.
  destruct (f x); cbn; [|done]. by destruct (res_map f l).
Qed.

(** The checks do not depend on the order of the entries. *)
Definition key_supported (maxStringBytes : option Z) (k : jsstring) : bool :=
  is_ok (assertSupportedJsonKey k) &&
  match maxStringBytes with Some n => byte_length k <=? n | None => true end.

Definition entries_supported {A} (maxObjectKeys maxStringBytes : option Z)
    (entries : list (jsstring * A)) : bool :=
  match maxObjectKeys with Some n => Z.of_nat (length entries) <=? n | None => true end &&
  forallb (λ kv, key_supported maxStringBytes kv.1) entries.

Lemma objectDataEntries_Ok {A} (entries r : list (jsstring * A)) mk ms :
  objectDataEntries entries mk ms = Ok r ↔
    entries_supported mk ms entries = true ∧ r = sort_by key_le entries.
Proof.
  unfold objectDataEntries, entries_supported. rewrite andb_true_iff.
  assert (Hmk : (match mk with Some n => n <? Z.of_nat (length entries) | None => false end) =
    negb (match mk with Some n => Z.of_nat (length entries) <=? n | None => true end)).
  { destruct mk; [|done]. by rewrite Z.ltb_antisym. }
  rewrite Hmk. clear Hmk. set (f := λ kv : jsstring * A, _).
  assert (Hf : forallb (λ kv, is_ok (f kv)) entries =
    forallb (λ kv, key_supported ms kv.1) entries).
  { clear. induction entries as [|kv l IH]; [done|]. cbn [forallb]. rewrite IH. f_equal.
    unfold f, key_supported. destruct (assertSupportedJsonKey kv.1); cbn; [|done].
    destruct ms; [|done]. rewrite Z.ltb_antisym. by destruct (_ <=? _). }
  rewrite <-Hf, <-res_map_ok_forall.
  destruct (match mk with Some _ => _ | None => _ end); cbn; [|by split; [|intros [[? _] _]]].
  destruct (res_map f entries); cbn; [|by split; [|intros [[_ ?] _]]].
  split; [by intros [= <-]|by intros [_ ->]].
Qed.

Lemma objectDataEntries_throw {A B} (l : list (jsstring * A)) (k : list (jsstring * B)) mk ms e :
  fst <$> l = fst <$> k →
  objectDataEntries l mk ms = Throw e ↔ objectDataEntries k mk ms = Throw e.
Proof.
  intros Hlk. unfold objectDataEntries.
  assert (Hlen : length l = length k) by (rewrite <-(length_fmap fst l), Hlk; apply length_fmap).
  rewrite Hlen. destruct (throw_if _ _); cbn; [|by split; intros [= ->]].
  set (f := λ kv : jsstring * A, _). set (g := λ kv : jsstring * B, _).
  assert (H : res_map f l = res_map g k).
  { clear Hlen. revert k Hlk. induction l as [|x l IH]; intros [|y k] Hlk; try done.
    cbn in Hlk. injection Hlk as Hxy Hlk. cbn. rewrite (IH k Hlk).
    unfold f, g. by rewrite Hxy. }
  rewrite H. destruct (res_map g k); cbn; [done|]. by split; intros [= ->].
Qed.

(** *** The encoder prints the normal form *)

Lemma forallb_elem {A} (f : A → bool) l x : forallb f l = true → x ∈ l → f x = true.
Proof. rewrite forallb_forall. intros H Hx. apply H. by apply list_elem_of_In. Qed.

Lemma forallb_andb {A} (f g : A → bool) l :
  forallb (λ x, f x && g x) l = forallb f l && forallb g l.
Proof. induction l as [|x l IH]; cbn; [done|]. rewrite IH. by destruct (f x), (g x), (forallb f l). Qed.

Lemma encode_spec v t : encode v = Ok t ↔ encodable v = true ∧ t = print (norm v).
Proof.
  revert t. induction v as [|b|n|s|l IH|kvs IH] using json_ind'; intros t; cbn [encode encodable norm print].
  - split; [by intros [= <-]|by intros [_ ->]].
  - split; [by intros [= <-]|by intros [_ ->]].
  - destruct n as [z| |]; cbn; [|by split; [|intros [? _]]..].
    destruct (is_safe_integer z); cbn; [|by split; [|intros [? _]]].
    split; [by intros [= <-]|by intros [_ ->]].
  - destruct (assertUnicodeScalarString s) as [[]|e]; cbn; [|by split; [|intros [? _]]].
    split; [by intros [= <-]|by intros [_ ->]].
  - rewrite Forall_forall in IH. rewrite res_bind_Ok. unfold res_seq.
    assert (Hm : ∀ es, res_map id (encode <$> l) = Ok es ↔
      forallb encodable l = true ∧ es = map (print ∘ norm) l).
    { intros es. assert (E : res_map id (encode <$> l) = res_map encode l).
      { clear. induction l as [|x l IHl]; cbn; [done|]. by rewrite IHl. }
      rewrite E. apply res_map_spec. intros x Hx y. by apply IH. }
    setoid_rewrite Hm. rewrite <-list_fmap_compose. change (map ?f l) with (f <$> l). split.
    + by intros (es & [Hl ->] & [= <-]).
    + intros [Hl ->]. eauto.
  - rewrite Forall_forall in IH. rewrite res_bind_Ok.
    setoid_rewrite objectDataEntries_Ok. unfold entries_supported.
    rewrite !sort_by_map by done. cbn [andb].
    assert (Hm : ∀ es, res_map (λ kv, let* t := kv.2 in Ok (json_quote kv.1 ++ [58] ++ t))
        (map (λ kv, (kv.1, encode kv.2)) (sort_by key_le kvs)) = Ok es ↔
      forallb (λ kv, encodable kv.2) (sort_by key_le kvs) = true ∧
      es = map (λ kv, json_quote kv.1 ++ [58] ++ print (norm kv.2)) (sort_by key_le kvs)).
    { intros es.
      assert (E : ∀ l, res_map (λ kv, let* t := kv.2 in Ok (json_quote kv.1 ++ [58] ++ t))
        (map (λ kv, (kv.1, encode kv.2)) l) =
        res_map (λ kv : jsstring * json,
          let* t := encode kv.2 in Ok (json_quote kv.1 ++ [58] ++ t)) l).
      { clear. induction l as [|x l IHl]; cbn [map res_map fst snd]; [done|]. by rewrite IHl. }
      rewrite E. apply res_map_spec. intros x Hx y. apply elem_of_sort_by in Hx.
      rewrite res_bind_Ok. setoid_rewrite IH; [|done]. naive_solver. }
    rewrite map_map. cbn [fst snd].
    assert (Hk : forallb (λ kv : jsstring * res jsstring, key_supported None kv.1)
        (map (λ kv : jsstring * json, (kv.1, encode kv.2)) kvs) =
      forallb (λ kv : jsstring * json, is_ok (assertSupportedJsonKey kv.1)) kvs).
    { clear. induction kvs as [|kv kvs IHk]; cbn; [done|]. rewrite IHk.
      unfold key_supported. by rewrite andb_true_r. }
    rewrite Hk.
    rewrite forallb_andb, andb_true_iff.
    rewrite (forallb_perm _ _ _ (sort_by_perm key_le kvs)) in Hm.
    split.
    + intros (es & [Hl ->] & H). apply res_bind_Ok in H as (ts & H & [= <-]).
      apply Hm in H as [H ->]. done.
    + intros [[Hl Hv] ->]. eexists; split; [done|]. apply res_bind_Ok.
      eexists; split; [by apply Hm|done].
Qed.

Lemma encode_encodable v : is_ok (encode v) = encodable v.
Proof.
  destruct (encodable v) eqn:E.
  - destruct (encode v) as [t|e] eqn:Ev; [done|].
    assert (encode v = Ok (print (norm v))) by by apply encode_spec. congruence.
  - destruct (encode v) as [t|e] eqn:Ev; [|done]. apply encode_spec in Ev as [? _]. congruence.
Qed.

(** *** Normal forms *)

Lemma map_fst_norm (kvs : jobject) : fst <$> map (λ kv, (kv.1, norm kv.2)) kvs = fst <$> kvs.
Proof. induction kvs as [|kv kvs IH]; cbn; [done|]. f_equal. apply IH. Qed.

Lemma json_wf_arr l : json_wf (JArr l) ↔ ∀ x, x ∈ l → json_wf x.
Proof.
  cbn. rewrite <-Forall_forall. induction l as [|x l IH]; cbn; [by split|].
  by rewrite Forall_cons, IH.
Qed.

Lemma json_wf_obj kvs :
  json_wf (JObj kvs) ↔
    NoDup (fst <$> kvs) ∧ ∀ kv, kv ∈ kvs → units_ok kv.1 ∧ json_wf kv.2.
Proof.
  cbn. apply and_iff_compat_l. rewrite <-Forall_forall.
  induction kvs as [|x l IH]; cbn; [by split|]. by rewrite Forall_cons, IH.
Qed.

Lemma norm_wf v : json_wf v → json_wf (norm v).
Proof.
  induction v as [|b|n|s|l IH|kvs IH] using json_ind'; try done.
  - rewrite Forall_forall in IH. cbn [norm]. rewrite !json_wf_arr. intros H x.
    intros (y & -> & Hy)%list_elem_of_fmap. auto.
  - rewrite Forall_forall in IH. cbn [norm]. rewrite !json_wf_obj. intros [Hnd H]. split.
    + rewrite (sort_by_perm key_le). by rewrite map_fst_norm.
    + intros kv. rewrite elem_of_sort_by. intros (y & -> & Hy)%list_elem_of_fmap. cbn.
      destruct (H y Hy). auto.
Qed.

Lemma norm_wf_inv v : json_wf (norm v) → json_wf v.
Proof.
  induction v as [|b|n|s|l IH|kvs IH] using json_ind'; try done.
  - rewrite Forall_forall in IH. cbn [norm]. rewrite !json_wf_arr. intros H x Hx.
    apply IH; [done|]. apply H. apply list_elem_of_fmap. eauto.
  - rewrite Forall_forall in IH. cbn [norm]. rewrite !json_wf_obj. intros [Hnd H]. split.
    + rewrite (sort_by_perm key_le), map_fst_norm in Hnd. done.
    + intros kv Hkv. specialize (H (kv.1, norm kv.2)). rewrite elem_of_sort_by in H.
      destruct H as [H1 H2]; [apply list_elem_of_fmap; eauto|]. split; [done|]. by apply IH.
Qed.

Lemma norm_encodable v : encodable (norm v) = encodable v.
Proof.
  induction v as [|b|n|s|l IH|kvs IH] using json_ind'; cbn [norm encodable]; try done.
  - induction IH as [|x l Hx _ IHl]; cbn; [done|]. by rewrite Hx, IHl.
  - rewrite (forallb_perm _ _ _ (sort_by_perm key_le _)).
    induction IH as [|x l Hx _ IHl]; cbn [map forallb fst snd]; [done|]. by rewrite Hx, IHl.
Qed.

Lemma norm_idemp v : norm (norm v) = norm v.
Proof.
  induction v as [|b|n|s|l IH|kvs IH] using json_ind'; cbn [norm]; try done.
  - f_equal. rewrite <-list_fmap_compose. induction IH as [|x l Hx _ IHl]; cbn; [done|].
    by rewrite Hx, IHl.
  - f_equal. rewrite <-sort_by_map, map_map by done.
    rewrite (sort_by_idemp key_le key_le_total key_le_trans). f_equal.
    apply map_ext_in. intros x Hx%list_elem_of_In. cbn. f_equal.
    rewrite Forall_forall in IH. auto.
Qed.

(** Well-formedness is decided by evaluation. *)
Fixpoint json_wfb (v : json) : bool :=
  match v with
  | JNull | JBool _ | JNum _ => true
  | JStr s => bool_decide (units_ok s)
  | JArr l => forallb json_wfb l
  | JObj kvs =>
      bool_decide (NoDup (fst <$> kvs)) &&
      forallb (λ kv, bool_decide (units_ok kv.1) && json_wfb kv.2) kvs
  end.

Lemma json_wfb_wf v : json_wfb v = true → json_wf v.
Proof.
  induction v as [|b|n|s|l IH|kvs IH] using json_ind'; cbn [json_wfb]; try done.
  - apply bool_decide_eq_true_1.
  - rewrite json_wf_arr. rewrite Forall_forall in IH. intros H x Hx.
    apply IH; [done|]. by eapply forallb_elem in H.
  - rewrite json_wf_obj, andb_true_iff. rewrite Forall_forall in IH.
    intros [H1%bool_decide_eq_true_1 H]. split; [done|]. intros kv Hkv.
    eapply forallb_elem in H; [|done]. apply andb_true_iff in H as [H2%bool_decide_eq_true_1 H3].
    split; [done|]. by apply IH.
Qed.

(** Two values that differ only in the order of their objects' entries. *)
Inductive json_perm : json → json → Prop :=
  | JP_refl v : json_perm v v
  | JP_arr l k : Forall2 json_perm l k → json_perm (JArr l) (JArr k)
  | JP_obj kvs kvs' kvs'' :
      Forall2 (λ a b, a.1 = b.1 ∧ json_perm a.2 b.2) kvs kvs' → kvs' ≡ₚ kvs'' →
      json_perm (JObj kvs) (JObj kvs'').

Lemma norm_perm v w : json_wf v → json_perm v w → norm v = norm w.
Proof.
  revert w. induction v as [|b|n|s|l IH|kvs IH] using json_ind'; intros w Hwf Hp;
    inversion Hp as [|l' k Hlk|kvs1 kvs2 kvs3 H2 H3]; subst; try done.
  - cbn [norm]. f_equal. rewrite json_wf_arr in Hwf. rewrite Forall_forall in IH. clear Hp.
    induction Hlk as [|x y l k Hxy _ IHl]; cbn; [done|]. f_equal.
    + apply IH; auto; [by left|apply Hwf; by left].
    + apply IHl; intros; [apply IH; auto; by right|apply Hwf; by right].
  - cbn [norm]. f_equal. rewrite json_wf_obj in Hwf. destruct Hwf as [Hnd Hwf].
    rewrite Forall_forall in IH.
    assert (E : map (λ kv : jsstring * json, (kv.1, norm kv.2)) kvs =
      map (λ kv : jsstring * json, (kv.1, norm kv.2)) kvs2).
    { clear - IH H2 Hwf. induction H2 as [|x y l k [Hk Hxy] _ IHl]; cbn; [done|]. f_equal.
      - rewrite Hk. f_equal. apply IH; auto; [by left|apply Hwf; by left].
      - apply IHl; intros; [apply IH; auto; by right|apply Hwf; by right]. }
    rewrite E. apply sort_by_perm_eq.
    + apply key_le_total.
    + apply key_le_trans.
    + intros x y Hx Hy. rewrite <-E in Hx, Hy.
      eapply key_le_antisym; [|apply Hx|apply Hy]. by rewrite map_fst_norm.
    + by rewrite H3.
Qed.

(** The normal form only reorders entries. *)
Lemma norm_json_perm v : json_perm v (norm v).
Proof.
  induction v as [|b|n|s|l IH|kvs IH] using json_ind'; cbn [norm]; try constructor.
  - induction IH; cbn; constructor; auto.
  - eapply (JP_obj _ (map (λ kv, (kv.1, norm kv.2)) kvs)).
    + induction IH; cbn; constructor; auto.
    + by rewrite sort_by_perm.
Qed.

(** *** The printed text *)

(** A piece of text that can be prepended without affecting well-formedness. *)
Definition transparent (s : jsstring) : Prop :=
  units_ok s ∧ ∀ t, scalar_string (s ++ t) = scalar_string t.

Lemma transparent_nil : transparent [].
Proof. split; [constructor|done]. Qed.

Lemma transparent_app s t : transparent s → transparent t → transparent (s ++ t).
Proof.
  intros [H1 H2] [H3 H4]. split; [by apply Forall_app|]. intros u.
  by rewrite <-app_assoc, H2, H4.
Qed.

Lemma transparent_low s : Forall (λ u, 0 <= u < 128) s → transparent s.
Proof.
  intros H. split; [eapply Forall_impl; [apply H|cbn; lia]|]. intros t.
  apply scalar_string_low. eapply Forall_impl; [apply H|cbn; lia].
Qed.

Lemma transparent_quote s : units_ok s → transparent (json_quote s).
Proof.
  intros H. split; [by apply json_quote_units|]. intros t. by apply json_quote_scalar.
Qed.

Lemma transparent_scalar s : transparent s → scalar_string s = true.
Proof. intros [_ H]. specialize (H []). by rewrite app_nil_r in H. Qed.

Lemma transparent_bytes s t : transparent s → byte_length (s ++ t) = byte_length s + byte_length t.
Proof. intros H. apply byte_length_app. by apply transparent_scalar. Qed.

Lemma transparent_join sep l :
  transparent sep → Forall transparent l → transparent (join sep l).
Proof.
  intros Hsep. destruct 1 as [|x l Hx Hl]; [apply transparent_nil|]. cbn.
  apply transparent_app; [done|]. induction Hl as [|y l Hy Hl IH]; cbn; [apply transparent_nil|].
  repeat apply transparent_app; done.
Qed.

Ltac low_text := apply transparent_low; repeat constructor; lia.

Lemma print_transparent v : json_wf v → transparent (print v).
Proof.
  induction v as [|b|n|s|l IH|kvs IH] using json_ind'; intros Hwf; cbn [print].
  - low_text.
  - destruct b; low_text.
  - destruct n; [|apply transparent_nil..]. apply transparent_low, dec_low.
  - by apply transparent_quote.
  - rewrite json_wf_arr in Hwf. rewrite Forall_forall in IH.
    apply transparent_app; [low_text|]. apply transparent_app; [|low_text].
    apply transparent_join; [low_text|]. apply Forall_forall.
    intros t (x & -> & Hx)%list_elem_of_fmap. auto.
  - rewrite json_wf_obj in Hwf. destruct Hwf as [_ Hwf]. rewrite Forall_forall in IH.
    apply transparent_app; [low_text|]. apply transparent_app; [|low_text].
    apply transparent_join; [low_text|]. apply Forall_forall.
    intros t (x & -> & Hx)%list_elem_of_fmap. destruct (Hwf x Hx).
    apply transparent_app; [by apply transparent_quote|].
    apply transparent_app; [low_text|auto].
Qed.

(** *** Its length in bytes *)

Fixpoint json_nodes (v : json) : Z :=
  match v with
  | JArr l => 1 + zsum json_nodes l
  | JObj kvs => 1 + zsum (λ kv, json_nodes kv.2) kvs
  | _ => 1
  end.

(** The depth, a leaf counting one. *)
Fixpoint json_depth (v : json) : Z :=
  match v with
  | JArr l => 1 + foldr (λ x n, Z.max (json_depth x) n) 0 l
  | JObj kvs => 1 + foldr (λ kv n, Z.max (json_depth kv.2) n) 0 kvs
  | _ => 1
  end.

Fixpoint json_bytes (v : json) : Z :=
  match v with
  | JNull => 4
  | JBool b => if b then 4 else 5
  | JNum n => match n with NInt z => byte_length (dec z) | _ => 0 end
  | JStr s => byte_length (json_quote s)
  | JArr l => 2 + Z.max 0 (Z.of_nat (length l) - 1) + zsum json_bytes l
  | JObj kvs =>
      2 + Z.max 0 (Z.of_nat (length kvs) - 1) +
      zsum (λ kv, byte_length (json_quote kv.1) + 1 + json_bytes kv.2) kvs
  end.

Lemma byte_length_join l :
  Forall transparent l →
  byte_length (join [44] l) = Z.max 0 (Z.of_nat (length l) - 1) + zsum byte_length l.
Proof.
  destruct 1 as [|x l Hx Hl]; [done|]. cbn [join].
  rewrite transparent_bytes by done.
  assert (H : byte_length (concat (map (λ y, [44] ++ y) l)) =
    Z.of_nat (length l) + zsum byte_length l).
  { clear Hx. induction Hl as [|y l Hy Hl IH]; [done|].
    cbn [map concat]. rewrite transparent_bytes by (apply transparent_app; [low_text|done]).
    rewrite transparent_bytes by low_text. rewrite IH.
    change (byte_length [44]) with 1. change (zsum byte_length (y :: l)) with
      (byte_length y + zsum byte_length l). cbn [length]. lia. }
  rewrite H. change (zsum byte_length (x :: l)) with (byte_length x + zsum byte_length l).
  cbn [length]. lia.
Qed.

Lemma byte_length_print v : json_wf v → encodable v = true → byte_length (print v) = json_bytes v.
Proof.
  induction v as [|b|n|s|l IH|kvs IH] using json_ind'; intros Hwf Henc; cbn [print json_bytes].
  - done.
  - by destruct b.
  - destruct n; done.
  - done.
  - pose proof (print_transparent _ Hwf) as Ht. rewrite json_wf_arr in Hwf.
    rewrite Forall_forall in IH. cbn [encodable] in Henc.
    assert (Hall : Forall transparent (print <$> l)).
    { apply Forall_forall. intros t (x & -> & Hx)%list_elem_of_fmap.
      apply print_transparent; auto. }
    rewrite transparent_bytes by low_text.
    rewrite transparent_bytes by (apply transparent_join; [low_text|done]).
    rewrite byte_length_join, length_fmap by done.
    change (print <$> l) with (map print l). rewrite zsum_map.
    rewrite (zsum_ext _ json_bytes); [change (byte_length [91]) with 1; change (byte_length [93]) with 1; lia|].
    intros x Hx. apply IH; auto. by eapply forallb_elem in Henc.
  - rewrite json_wf_obj in Hwf. destruct Hwf as [_ Hwf]. rewrite Forall_forall in IH.
    cbn [encodable] in Henc.
    assert (Hone : ∀ x, x ∈ kvs → transparent (json_quote x.1 ++ [58] ++ print x.2)).
    { intros x Hx. destruct (Hwf x Hx). apply transparent_app; [by apply transparent_quote|].
      apply transparent_app; [low_text|by apply print_transparent]. }
    assert (Hall : Forall transparent (map (λ kv, json_quote kv.1 ++ [58] ++ print kv.2) kvs)).
    { apply Forall_forall. intros t (x & -> & Hx)%list_elem_of_fmap. auto. }
    rewrite transparent_bytes by low_text.
    rewrite transparent_bytes by (apply transparent_join; [low_text|done]).
    rewrite byte_length_join, length_map by done. rewrite zsum_map.
    rewrite (zsum_ext _ (λ kv, byte_length (json_quote kv.1) + 1 + json_bytes kv.2));
      [change (byte_length [123]) with 1; change (byte_length [125]) with 1; lia|].
    intros x Hx. destruct (Hwf x Hx). rewrite transparent_bytes by by apply transparent_quote.
    rewrite transparent_bytes by low_text. rewrite IH; auto.
    + change (byte_length [58]) with 1. lia.
    + eapply forallb_elem in Henc; [|done]. by apply andb_true_iff in Henc as [_ ?].
Qed.

Lemma json_bytes_norm v : json_bytes (norm v) = json_bytes v.
Proof.
  induction v as [|b|n|s|l IH|kvs IH] using json_ind'; cbn [norm json_bytes]; try done.
  - rewrite Forall_forall in IH. rewrite length_fmap. f_equal.
    change (norm <$> l) with (map norm l). rewrite zsum_map. by apply zsum_ext.
  - rewrite Forall_forall in IH. rewrite sort_by_length, length_map. f_equal.
    rewrite (zsum_perm _ _ _ (sort_by_perm key_le _)), zsum_map.
    apply zsum_ext. intros x Hx. cbn. by rewrite IH.
Qed.

Lemma byte_length_cons u s : 0 < byte_length (u :: s).
Proof.
  unfold byte_length. cbn [utf8]. repeat case_match; rewrite ?length_app;
    unfold utf8_unit, utf8_pair; repeat case_match; cbn; lia.
Qed.

Lemma json_bytes_nonneg v : 0 <= json_bytes v.
Proof.
  induction v as [|b|n|s|l IH|kvs IH] using json_ind'; cbn [json_bytes]; try lia.
  - destruct b; lia.
  - destruct n; try lia. apply byte_length_nonneg.
  - apply byte_length_nonneg.
  - rewrite Forall_forall in IH. pose proof (zsum_nonneg json_bytes l IH). lia.
  - rewrite Forall_forall in IH.
    assert (0 <= zsum (λ kv, byte_length (json_quote kv.1) + 1 + json_bytes kv.2) kvs); [|lia].
    apply zsum_nonneg. intros x Hx.
    pose proof (byte_length_nonneg (json_quote x.1)). specialize (IH x Hx). cbn in IH. lia.
Qed.

Lemma json_nodes_pos v : 0 < json_nodes v.
Proof.
  induction v as [|b|n|s|l IH|kvs IH] using json_ind'; cbn [json_nodes]; try lia;
    rewrite Forall_forall in IH.
  - assert (0 <= zsum json_nodes l); [|lia].
    apply zsum_nonneg. intros x Hx. specialize (IH x Hx). lia.
  - assert (0 <= zsum (λ kv : jsstring * json, json_nodes kv.2) kvs); [|lia].
    apply zsum_nonneg. intros x Hx. specialize (IH x Hx). cbn in IH. lia.
Qed.
