(* ===== verification/JsonLimits.v ===== *)
(** * Resource limits on JSON ([src/core/json.ts])

    [assertJsonWithinLimits] on an inert tree: the checks, counters and throws
    of the code's traversal in the same order, written as a recursion.  (The
    code's own loop, an explicit stack over the object graph, is in [JsonGraph]
    and is proved to compute this.)  [visit_spec] reduces the running counters
    to one static condition on the value. *)
From S2P Require Import Prelude JsString JsNumber Json.

Record JsonLimits : Type := {
  maxDepth : Z;
  maxNodes : Z;
  maxArrayLength : Z;
  maxObjectKeys : Z;
  maxStringBytes : Z;
  maxCanonicalBytes : Z
}.

Record JsonMetrics : Type := {
  m_nodes : Z;
  m_maxDepth : Z;
  m_canonicalBytes : Z
}.

#[export] Instance JsonMetrics_eq_dec : EqDecision JsonMetrics.
Proof. solve_decision. Defined.

(** [Object.entries(limits)]. *)
Definition limit_values (L : JsonLimits) : list Z :=
  [maxDepth L; maxNodes L; maxArrayLength L; maxObjectKeys L; maxStringBytes L;
   maxCanonicalBytes L].

Definition assertJsonLimits (limits : JsonLimits) : res unit :=
  res_fold (λ _ value,
    throw_if (negb (is_safe_integer value) || (value <? 1))
      (RangeError "JSON limit must be a positive safe integer")) tt (limit_values limits).

(** The closure [addCanonicalBytes]. *)
Definition addCanonicalBytes (L : JsonLimits) (m : JsonMetrics) (bytes : Z) : res JsonMetrics :=
  let canonicalBytes := m_canonicalBytes m + bytes in
  guard! maxCanonicalBytes L <? canonicalBytes throws RangeError "exceeds the canonical JSON limit" ;;
  Ok {| m_nodes := m_nodes m; m_maxDepth := m_maxDepth m; m_canonicalBytes := canonicalBytes |}.

(** The node and depth accounting at the start of a visit. *)
Definition enter_node (L : JsonLimits) (m : JsonMetrics) (depth : Z) : res JsonMetrics :=
  let nodes := m_nodes m + 1 in
  guard! maxNodes L <? nodes throws RangeError "exceeds the node JSON limit" ;;
  guard! maxDepth L <? depth throws RangeError "exceeds the JSON depth limit" ;;
  Ok {| m_nodes := nodes; m_maxDepth := Z.max (m_maxDepth m) depth;
        m_canonicalBytes := m_canonicalBytes m |}.

(** Bytes of the brackets and commas of a container with [n] members. *)
Definition frame_bytes (n : nat) : Z := 2 + Z.max 0 (Z.of_nat n - 1).

(** Bytes of a key and its colon. *)
Definition key_bytes (key : jsstring) : Z := byte_length (json_quote key) + 1.

(** A leaf: a string, a boolean, null or a number. *)
Definition visit_leaf (L : JsonLimits) (v : json) (m : JsonMetrics) : res JsonMetrics :=
  match v with
  | JNull => addCanonicalBytes L m 4
  | JBool b => addCanonicalBytes L m (if b then 4 else 5)
  | JStr s =>
      do! assertUnicodeScalarString s ;;
      guard! maxStringBytes L <? byte_length s throws RangeError "exceeds the string limit" ;;
      addCanonicalBytes L m (byte_length (json_quote s))
  | JNum (NInt z) =>
      guard! negb (is_safe_integer z)
        throws TypeError "must be a safe integer and cannot be negative zero" ;;
      addCanonicalBytes L m (byte_length (dec z))
  | _ => Throw (TypeError "must be a safe integer and cannot be negative zero")
  end.

(** The bytes of a container's keys, last key first as the code pushes them. *)
Definition add_keys {A} (L : JsonLimits) (m : JsonMetrics) (entries : list (jsstring * A)) :
    res JsonMetrics :=
  res_fold (λ m kv, addCanonicalBytes L m (key_bytes kv.1)) m (reverse entries).

Fixpoint visit (L : JsonLimits) (v : json) (depth : Z) (m : JsonMetrics) : res JsonMetrics :=
  let* m := enter_node L m depth in
  match v with
  | JArr l =>
      guard! maxArrayLength L <? Z.of_nat (length l) throws RangeError "exceeds the array limit" ;;
      let* m := addCanonicalBytes L m (frame_bytes (length l)) in
      res_fold (λ m f, f m) m (map (λ x, visit L x (depth + 1)) l)
  | JObj kvs =>
      let* entries := objectDataEntries (map (λ kv, (kv.1, visit L kv.2 (depth + 1))) kvs)
        (Some (maxObjectKeys L)) (Some (maxStringBytes L)) in
      let* m := addCanonicalBytes L m (frame_bytes (length entries)) in
      let* m := add_keys L m entries in
      res_fold (λ m kv, kv.2 m) m entries
  | leaf => visit_leaf L leaf m
  end.

Definition zero_metrics : JsonMetrics :=
  {| m_nodes := 0; m_maxDepth := 0; m_canonicalBytes := 0 |}.

Definition assertJsonWithinLimits (value : json) (limits : JsonLimits) : res JsonMetrics :=
  do! assertJsonLimits limits ;;
  visit limits value 1 zero_metrics.

(** ** Specification *)

Definition limits_valid (L : JsonLimits) : bool :=
  forallb (λ z, is_safe_integer z && (1 <=? z)) (limit_values L).

(** What every node of the value at depth [d] must satisfy on its own. *)
Fixpoint within (L : JsonLimits) (d : Z) (v : json) : bool :=
  (d <=? maxDepth L) &&
  match v with
  | JNull | JBool _ => true
  | JNum n => is_safe_number n
  | JStr s => is_ok (assertUnicodeScalarString s) && (byte_length s <=? maxStringBytes L)
  | JArr l => (Z.of_nat (length l) <=? maxArrayLength L) && forallb (within L (d + 1)) l
  | JObj kvs =>
      entries_supported (Some (maxObjectKeys L)) (Some (maxStringBytes L)) kvs &&
      forallb (λ kv, within L (d + 1) kv.2) kvs
  end.

(** The metrics the checker reports. *)
Definition metrics_of (v : json) : JsonMetrics :=
  {| m_nodes := json_nodes v; m_maxDepth := json_depth v; m_canonicalBytes := json_bytes v |}.

(** Everything together: the value is accepted. *)
Definition json_within (L : JsonLimits) (v : json) : bool :=
  within L 1 v && (json_nodes v <=? maxNodes L) && (json_bytes v <=? maxCanonicalBytes L).

Definition grow (m : JsonMetrics) (n d b : Z) : JsonMetrics :=
  {| m_nodes := m_nodes m + n; m_maxDepth := Z.max (m_maxDepth m) d;
     m_canonicalBytes := m_canonicalBytes m + b |}.

Lemma assertJsonLimits_Ok L : assertJsonLimits L = Ok tt ↔ limits_valid L = true.
Proof.
  unfold assertJsonLimits, limits_valid. generalize (limit_values L) as l.
  induction l as [|z l IH]; cbn [res_fold forallb]; [done|].
  rewrite res_bind_Ok, !andb_true_iff, <-IH. rewrite Z.ltb_antisym.
  split.
  - intros ([] & H & ?). inv_res. bool_prop. rewrite Z.leb_le. auto.
  - intros [[-> ->] ?]. by exists tt.
Qed.

Section visit_list.
Context {A : Type} (L : JsonLimits) (f : JsonMetrics → A → res JsonMetrics).
Context (ok : A → bool) (an ad ab : A → Z) (l : list A).
Context (Han : ∀ x, x ∈ l → 0 <= an x) (Hab : ∀ x, x ∈ l → 0 <= ab x).
Context (Hf : ∀ x m m', x ∈ l → f m x = Ok m' ↔
  ok x = true ∧ m_nodes m + an x <= maxNodes L ∧
  m_canonicalBytes m + ab x <= maxCanonicalBytes L ∧ m' = grow m (an x) (ad x) (ab x)).

(** Running counters below their limits throughout is the totals below them. *)
Lemma res_fold_visit m m' :
  m_nodes m <= maxNodes L → m_canonicalBytes m <= maxCanonicalBytes L →
  res_fold f m l = Ok m' ↔
    forallb ok l = true ∧ m_nodes m + zsum an l <= maxNodes L ∧
    m_canonicalBytes m + zsum ab l <= maxCanonicalBytes L ∧
    m' = {| m_nodes := m_nodes m + zsum an l;
            m_maxDepth := foldr (λ x n, Z.max (ad x) n) (m_maxDepth m) l;
            m_canonicalBytes := m_canonicalBytes m + zsum ab l |}.
Proof.
  revert m. induction l as [|x k IH]; intros m Hn Hb.
  - cbn. rewrite !Z.add_0_r. split; [intros [= <-]; by destruct m|intros (_ & _ & _ & ->); by destruct m].
  - cbn [res_fold forallb]. rewrite res_bind_Ok, andb_true_iff.
    change (zsum an (x :: k)) with (an x + zsum an k).
    change (zsum ab (x :: k)) with (ab x + zsum ab k).
    assert (0 <= zsum an k) by (apply zsum_nonneg; intros; apply Han; by right).
    assert (0 <= zsum ab k) by (apply zsum_nonneg; intros; apply Hab; by right).
    assert (Hmax : ∀ m d, foldr (λ x n, Z.max (ad x) n) (Z.max m d) k =
      Z.max d (foldr (λ x n, Z.max (ad x) n) m k)).
    { clear. intros m d. induction k as [|y k IHk]; cbn; lia. }
    setoid_rewrite Hf; [|by left]. split.
    + intros (m1 & (Hok & H1 & H2 & ->) & H3). apply IH in H3 as (H3 & H4 & H5 & ->);
        try (intros; first [apply Han|apply Hab|apply Hf]; by right); try done.
      unfold grow in *; cbn in *. repeat split; auto; try lia.
      f_equal; [lia|by rewrite Hmax|lia].
    + intros ([Hok Hk] & H1 & H2 & ->). eexists; split; [repeat split; [done|lia|lia]|].
      apply IH; try (intros; first [apply Han|apply Hab|apply Hf]; by right); unfold grow; cbn; try lia.
      repeat split; auto; try lia. f_equal; [lia|by rewrite Hmax|lia].
Qed.
End visit_list.

Lemma addCanonicalBytes_Ok L m b m' :
  addCanonicalBytes L m b = Ok m' ↔
    m_canonicalBytes m + b <= maxCanonicalBytes L ∧
    m' = {| m_nodes := m_nodes m; m_maxDepth := m_maxDepth m;
            m_canonicalBytes := m_canonicalBytes m + b |}.
Proof.
  unfold addCanonicalBytes. rewrite res_bind_Ok. setoid_rewrite throw_if_Ok.
  setoid_rewrite Z.ltb_ge. split; [intros ([] & ? & [= <-]); done|intros [? ->]; by exists tt].
Qed.

Lemma enter_node_Ok L m d m' :
  enter_node L m d = Ok m' ↔
    m_nodes m + 1 <= maxNodes L ∧ d <= maxDepth L ∧ m' = grow m 1 d 0.
Proof.
  unfold enter_node, grow. rewrite Z.add_0_r. split.
  - intros H. inv_res. bool_prop. done.
  - intros (H1 & H2 & ->). rewrite (proj2 (Z.ltb_ge _ _) H1), (proj2 (Z.ltb_ge _ _) H2). done.
Qed.

Lemma add_keys_Ok {A} L m (entries : list (jsstring * A)) m' :
  m_canonicalBytes m <= maxCanonicalBytes L →
  add_keys L m entries = Ok m' ↔
    m_canonicalBytes m + zsum (λ kv, key_bytes kv.1) entries <= maxCanonicalBytes L ∧
    m' = {| m_nodes := m_nodes m; m_maxDepth := m_maxDepth m;
            m_canonicalBytes := m_canonicalBytes m + zsum (λ kv, key_bytes kv.1) entries |}.
Proof.
  unfold add_keys. rewrite <-(zsum_perm _ _ _ (reverse_Permutation entries)).
  generalize (reverse entries) as l. clear entries. intros l; revert m.
  induction l as [|x l IH]; intros m Hm.
  - cbn. rewrite !Z.add_0_r. destruct m; cbn. naive_solver.
  - cbn [res_fold]. rewrite res_bind_Ok. setoid_rewrite addCanonicalBytes_Ok.
    change (zsum ?f (x :: l)) with (f x + zsum f l). cbn beta.
    assert (0 <= zsum (λ kv : jsstring * A, key_bytes kv.1) l).
    { apply zsum_nonneg. intros y _. unfold key_bytes. pose proof (byte_length_nonneg (json_quote y.1)). lia. }
    split.
    + intros (m1 & [H1 ->] & H2). apply IH in H2 as [H2 ->]; cbn in *; [|lia].
      split; [lia|]. f_equal. lia.
    + intros [H1 ->]. eexists; split; [split; [lia|done]|]. apply IH; cbn; [lia|].
      split; [lia|]. f_equal. lia.
Qed.

Lemma visit_leaf_Ok L v m m' :
  match v with JArr _ | JObj _ => False | _ => True end →
  visit_leaf L v m = Ok m' ↔
    match v with
    | JNum n => is_safe_number n
    | JStr s => is_ok (assertUnicodeScalarString s) && (byte_length s <=? maxStringBytes L)
    | _ => true
    end = true ∧
    m_canonicalBytes m + json_bytes v <= maxCanonicalBytes L ∧
    m' = {| m_nodes := m_nodes m; m_maxDepth := m_maxDepth m;
            m_canonicalBytes := m_canonicalBytes m + json_bytes v |}.
Proof.
  destruct v as [|b|n|s|l|kvs]; cbn [visit_leaf json_bytes]; intros H; try done.
  - rewrite addCanonicalBytes_Ok. naive_solver.
  - rewrite addCanonicalBytes_Ok. naive_solver.
  - destruct n as [z| |]; cbn [is_safe_number]; [|by split; [|intros [? _]]..].
    rewrite res_bind_Ok. setoid_rewrite throw_if_Ok. setoid_rewrite addCanonicalBytes_Ok.
    setoid_rewrite negb_false_iff. split; [by intros ([] & ?)|intros ?; by exists tt].
  - rewrite !res_bind_Ok, andb_true_iff, is_ok_true. setoid_rewrite res_bind_Ok.
    setoid_rewrite throw_if_Ok. setoid_rewrite addCanonicalBytes_Ok.
    rewrite Z.leb_le. setoid_rewrite Z.ltb_ge.
    split; [naive_solver|intros [[[u ?] ?] ?]; exists u; split; [done|by exists tt]].
Qed.

(** The checker's counters, reduced to a static condition: [visit_spec] below. *)
Definition visit_meets (L : JsonLimits) (v : json) : Prop := ∀ d m m',
  visit L v d m = Ok m' ↔
    within L d v = true ∧ m_nodes m + json_nodes v <= maxNodes L ∧
    m_canonicalBytes m + json_bytes v <= maxCanonicalBytes L ∧
    m' = grow m (json_nodes v) (d + json_depth v - 1) (json_bytes v).

Lemma visit_leaf_meets L v :
  match v with JArr _ | JObj _ => False | _ => True end → visit_meets L v.
Proof.
  intros Hv d m m'.
  assert (E : visit L v d m = let* m := enter_node L m d in visit_leaf L v m) by by destruct v.
  rewrite E, res_bind_Ok. setoid_rewrite enter_node_Ok. setoid_rewrite visit_leaf_Ok; [|done].
  assert (Hw : within L d v = (d <=? maxDepth L) && match v with
    | JNum n => is_safe_number n
    | JStr s => is_ok (assertUnicodeScalarString s) && (byte_length s <=? maxStringBytes L)
    | _ => true end) by by destruct v.
  assert (Hn : json_nodes v = 1) by by destruct v.
  assert (Hd : json_depth v = 1) by by destruct v.
  rewrite Hw, Hn, Hd, andb_true_iff, Z.leb_le. unfold grow.
  replace (d + 1 - 1) with d by lia. split.
  - intros (m1 & (Hm1 & Hm2 & ->) & Hm). cbn in Hm. rewrite Z.add_0_r in Hm. naive_solver.
  - intros ([? ?] & ? & ? & ->). eexists; split; [done|]. cbn. by rewrite Z.add_0_r.
Qed.

(** The depth of a container's children, from below its own depth. *)
Lemma fold_depth {A} (f : A → Z) M d (l : list A) :
  foldr (λ x n, Z.max (d + 1 + f x - 1) n) (Z.max M d) l =
  Z.max M (d + (1 + foldr (λ x n, Z.max (f x) n) 0 l) - 1).
Proof.
  induction l as [|x l IH]; cbn; [lia|]. rewrite IH.
  assert (0 <= foldr (λ x n, Z.max (f x) n) 0 l); [|lia].
  clear. induction l; cbn; lia.
Qed.

Lemma visit_arr_meets L l : Forall (visit_meets L) l → visit_meets L (JArr l).
Proof.
  rewrite Forall_forall. intros IH d m m'. cbn [visit within json_nodes json_bytes json_depth].
  rewrite res_bind_Ok. setoid_rewrite enter_node_Ok. setoid_rewrite res_bind_Ok.
  setoid_rewrite throw_if_Ok. setoid_rewrite Z.ltb_ge.
  setoid_rewrite res_bind_Ok. setoid_rewrite addCanonicalBytes_Ok.
  assert (E : ∀ m, res_fold (λ m f, f m) m (map (λ x, visit L x (d + 1)) l) =
    res_fold (λ m x, visit L x (d + 1) m) m l).
  { clear. induction l as [|x l IHl]; intros m; cbn; [done|]. destruct (visit L x (d + 1) m); cbn; auto. }
  setoid_rewrite E. clear E.
  pose proof (λ m m' H1 H2, res_fold_visit L (λ m x, visit L x (d + 1) m) (within L (d + 1))
    json_nodes (λ x, d + 1 + json_depth x - 1) json_bytes l
    (λ x _, Z.lt_le_incl _ _ (json_nodes_pos x)) (λ x _, json_bytes_nonneg x)
    (λ x m m' Hx, IH x Hx (d + 1) m m') m m' H1 H2) as Hfold.
  unfold frame_bytes. rewrite !andb_true_iff, !Z.leb_le.
  assert (0 <= zsum json_bytes l) by (apply zsum_nonneg; intros; apply json_bytes_nonneg).
  assert (0 <= zsum json_nodes l)
    by (apply zsum_nonneg; intros; apply Z.lt_le_incl, json_nodes_pos).
  split.
  - intros (m1 & (? & ? & ->) & [] & ? & m2 & (? & ->) & Hm). cbn in *.
    apply Hfold in Hm as (? & ? & ? & ->); cbn in *; [|lia..].
    repeat split; auto; try lia. unfold grow. f_equal; [lia| |lia].
    by rewrite fold_depth.
  - intros ([? [? ?]] & ? & ? & ->). eexists; split; [split_and!; [lia|lia|done]|]. exists tt; split; [done|].
    unfold grow; cbn. eexists; split; [split; [|done]; cbn; lia|].
    apply Hfold; cbn; [lia|lia|]. repeat split; auto; try lia.
    f_equal; [lia| |lia]. by rewrite fold_depth.
Qed.

Lemma visit_obj_meets L kvs :
  Forall (λ kv, visit_meets L kv.2) kvs → visit_meets L (JObj kvs).
Proof.
  rewrite Forall_forall. intros IH d m m'. cbn [visit within json_nodes json_bytes json_depth].
  rewrite res_bind_Ok. setoid_rewrite enter_node_Ok. setoid_rewrite res_bind_Ok.
  setoid_rewrite objectDataEntries_Ok. setoid_rewrite res_bind_Ok.
  setoid_rewrite addCanonicalBytes_Ok.
  rewrite sort_by_map by done.
  assert (Hs : entries_supported (Some (maxObjectKeys L)) (Some (maxStringBytes L))
    (map (λ kv, (kv.1, visit L kv.2 (d + 1))) kvs) =
    entries_supported (Some (maxObjectKeys L)) (Some (maxStringBytes L)) kvs).
  { unfold entries_supported. rewrite length_map. f_equal.
    clear. induction kvs as [|x l IHl]; cbn; [done|]. by rewrite IHl. }
  rewrite Hs. clear Hs.
  set (S := sort_by key_le kvs).
  assert (HS : S ≡ₚ kvs) by apply sort_by_perm.
  assert (E : ∀ m, res_fold (λ m kv, kv.2 m) m
      (map (λ kv : jsstring * json, (kv.1, visit L kv.2 (d + 1))) S) =
    res_fold (λ m kv, visit L kv.2 (d + 1) m) m S).
  { clear. generalize S. clear. induction S as [|x l IHl]; intros m; cbn [map res_fold fst snd]; [done|].
    destruct (visit L x.2 (d + 1) m); cbn; auto. }
  assert (Hk : zsum (λ kv, key_bytes kv.1)
      (map (λ kv : jsstring * json, (kv.1, visit L kv.2 (d + 1))) S) =
    zsum (λ kv, key_bytes kv.1) kvs).
  { rewrite zsum_map. cbn. by apply zsum_perm. }
  assert (IH' : ∀ x m m', x ∈ S → visit L x.2 (d + 1) m = Ok m' ↔ _)
    by (intros x m0 m0' Hx; rewrite HS in Hx; exact (IH x Hx (d + 1) m0 m0')).
  pose proof (λ m m' H1 H2, res_fold_visit L (λ m kv, visit L kv.2 (d + 1) m)
    (λ kv, within L (d + 1) kv.2) (λ kv, json_nodes kv.2) (λ x, d + 1 + json_depth x.2 - 1)
    (λ kv, json_bytes kv.2) S
    (λ x _, Z.lt_le_incl _ _ (json_nodes_pos x.2)) (λ x _, json_bytes_nonneg x.2)
    IH' m m' H1 H2) as Hfold.
  assert (Hn : zsum (λ kv : jsstring * json, json_nodes kv.2) S =
    zsum (λ kv : jsstring * json, json_nodes kv.2) kvs) by by apply zsum_perm.
  assert (Hb : zsum (λ kv : jsstring * json, json_bytes kv.2) S =
    zsum (λ kv : jsstring * json, json_bytes kv.2) kvs) by by apply zsum_perm.
  assert (Hkb : zsum (λ kv, byte_length (json_quote kv.1) + 1 + json_bytes kv.2) kvs =
    zsum (λ kv, key_bytes kv.1) kvs + zsum (λ kv, json_bytes kv.2) kvs).
  { clear. unfold zsum, key_bytes. induction kvs as [|x l IHl]; cbn; lia. }
  assert (Hdep : ∀ M, foldr (λ x n, Z.max (d + 1 + json_depth x.2 - 1) n) (Z.max M d) S =
    Z.max M (d + (1 + foldr (λ kv n, Z.max (json_depth kv.2) n) 0 kvs) - 1)).
  { intros M. rewrite (fold_depth (λ kv : jsstring * json, json_depth kv.2)).
    do 4 f_equal. clear - HS. induction HS; cbn in *; lia. }
  rewrite (forallb_perm _ _ _ HS), Hn, Hb in Hfold.
  assert (0 <= zsum (λ kv, json_bytes kv.2) kvs)
    by (apply zsum_nonneg; intros; apply json_bytes_nonneg).
  assert (0 <= zsum (λ kv : jsstring * json, json_nodes kv.2) kvs)
    by (apply zsum_nonneg; intros; apply Z.lt_le_incl, json_nodes_pos).
  assert (0 <= zsum (λ kv, key_bytes kv.1) kvs).
  { apply zsum_nonneg. intros x _. unfold key_bytes.
    pose proof (byte_length_nonneg (json_quote x.1)). lia. }
  assert (Hlen : length (map (λ kv : jsstring * json, (kv.1, visit L kv.2 (d + 1))) S) = length kvs)
    by (rewrite length_map; by apply Permutation_length).
  rewrite !andb_true_iff, !Z.leb_le. unfold frame_bytes in *. split.
  - intros (m1 & (? & ? & ->) & es & [? ->] & m2 & (? & ->) & Hm).
    apply res_bind_Ok in Hm as (m3 & Hm3 & Hm). rewrite Hlen in *. cbn in *.
    apply add_keys_Ok in Hm3 as [Hm3 ->]; cbn in *; [|lia]. rewrite Hk in *.
    rewrite E in Hm. apply Hfold in Hm as (? & ? & ? & ->); cbn in *; [|lia..].
    repeat split; auto; try lia. unfold grow. f_equal; [lia|apply Hdep|lia].
  - intros ([? [? ?]] & ? & ? & ->). eexists; split; [split_and!; [lia|lia|done]|].
    eexists; split; [done|].
    rewrite Hlen. unfold grow; cbn. eexists; split; [split; [|done]; cbn; lia|].
    apply res_bind_Ok. eexists; split; [apply add_keys_Ok; cbn; [lia|split; [|done]]; rewrite Hk; lia|].
    rewrite E, Hk. apply Hfold; cbn; [lia|lia|]. repeat split; auto; try lia.
    f_equal; [lia|symmetry; apply Hdep|lia].
Qed.

Lemma visit_spec L v : visit_meets L v.
Proof.
  induction v as [|b|n|s|l IH|kvs IH] using json_ind'; try by apply visit_leaf_meets.
  - by apply visit_arr_meets.
  - by apply visit_obj_meets.
Qed.

(** The checker accepts exactly the values within the limits and reports their
    metrics. *)
Lemma assertJsonWithinLimits_spec v L m :
  assertJsonWithinLimits v L = Ok m ↔
    limits_valid L = true ∧ json_within L v = true ∧ m = metrics_of v.
Proof.
  unfold assertJsonWithinLimits, json_within, metrics_of.
  rewrite res_bind_Ok, <-assertJsonLimits_Ok.
  setoid_rewrite (visit_spec L v 1 zero_metrics m). unfold grow, zero_metrics; cbn.
  rewrite !andb_true_iff, !Z.leb_le.
  assert (Hd : Z.max 0 (1 + json_depth v - 1) = json_depth v).
  { assert (0 <= json_depth v); [|lia]. destruct v as [| | | |l|kvs]; cbn; try lia.
    - induction l; cbn in *; lia.
    - induction kvs; cbn in *; lia. }
  rewrite Hd. split.
  - intros ([] & ? & ? & ? & ? & ->). done.
  - intros (? & [[? ?] ?] & ->). by exists tt.
Qed.
