(* ===== verification/JsonParse.v ===== *)
(** * [JSON.parse] and the round trip

    The JSON grammar of the language's [JSON.parse], the functions of
    [src/core/json.ts] that parse ([cloneJson], [inertJsonSnapshot],
    [parseJsonWithinLimits]), and the theorem that parsing the canonical text of
    a value gives its normal form.  The recursive descent runs on fuel; twice
    the length of the text and one is always enough ([parse_fuel]). *)
From S2P Require Import Prelude JsString JsNumber Json JsonLimits.

(** ** The parser *)

Fixpoint skip_ws (s : jsstring) : jsstring :=
  match s with
  | c :: s' => if (c =? 32) || (c =? 9) || (c =? 10) || (c =? 13) then skip_ws s' else s
  | [] => []
  end.

Fixpoint strip_prefix (p s : jsstring) : option jsstring :=
  match p, s with
  | [], _ => Some s
  | c :: p', d :: s' => if c =? d then strip_prefix p' s' else None
  | _ :: _, [] => None
  end.

(** Defining an own property: a repeated key keeps its place and takes the new
    value. *)
Fixpoint set_key (kvs : jobject) (k : jsstring) (v : json) : jobject :=
  match kvs with
  | [] => [(k, v)]
  | (k', v') :: kvs' => if bool_decide (k' = k) then (k, v) :: kvs' else (k', v') :: set_key kvs' k v
  end.

Definition object_of (pairs : jobject) : jobject := foldl (λ kvs kv, set_key kvs kv.1 kv.2) [] pairs.

Definition parse_literal (s : jsstring) : option (json * jsstring) :=
  match strip_prefix (js "null") s with
  | Some r => Some (JNull, r)
  | None =>
      match strip_prefix (js "true") s with
      | Some r => Some (JBool true, r)
      | None =>
          match strip_prefix (js "false") s with
          | Some r => Some (JBool false, r)
          | None => '(n, r) ← parse_number s; Some (JNum n, r)
          end
      end
  end.

Fixpoint parse_value (fuel : nat) (s : jsstring) : option (json * jsstring) :=
  match fuel with
  | O => None
  | S fuel =>
      match skip_ws s with
      | [] => None
      | c :: r =>
          if c =? 34 then '(t, r') ← parse_quoted r; Some (JStr t, r')
          else if c =? 91 then
            match skip_ws r with
            | d :: r' => if d =? 93 then Some (JArr [], r')
                else '(l, r'') ← parse_elements fuel r; Some (JArr l, r'')
            | [] => None
            end
          else if c =? 123 then
            match skip_ws r with
            | d :: r' => if d =? 125 then Some (JObj [], r')
                else '(l, r'') ← parse_members fuel r; Some (JObj (object_of l), r'')
            | [] => None
            end
          else parse_literal (c :: r)
      end
  end
with parse_elements (fuel : nat) (s : jsstring) : option (list json * jsstring) :=
  match fuel with
  | O => None
  | S fuel =>
      '(v, r) ← parse_value fuel s;
      match skip_ws r with
      | d :: r' =>
          if d =? 44 then '(l, r'') ← parse_elements fuel r'; Some (v :: l, r'')
          else if d =? 93 then Some ([v], r')
          else None
      | [] => None
      end
  end
with parse_members (fuel : nat) (s : jsstring) : option (jobject * jsstring) :=
  match fuel with
  | O => None
  | S fuel =>
      match skip_ws s with
      | q :: s1 =>
          if q =? 34 then
            '(k, s2) ← parse_quoted s1;
            match skip_ws s2 with
            | c :: s3 =>
                if c =? 58 then
                  '(v, r) ← parse_value fuel s3;
                  match skip_ws r with
                  | d :: r' =>
                      if d =? 44 then '(l, r'') ← parse_members fuel r'; Some ((k, v) :: l, r'')
                      else if d =? 125 then Some ([(k, v)], r')
                      else None
                  | [] => None
                  end
                else None
            | [] => None
            end
          else None
      | [] => None
      end
  end.

Definition parse_fuel (s : jsstring) : nat := (2 * length s + 1)%nat.

Definition JSON_parse (s : jsstring) : res json :=
  match parse_value (parse_fuel s) s with
  | Some (v, r) =>
      match skip_ws r with
      | [] => Ok v
      | _ => Throw (SyntaxError "Unexpected non-whitespace character after JSON")
      end
  | None => Throw (SyntaxError "Unexpected token in JSON")
  end.

(** ** The functions that parse *)

(** A deep copy; own prototypes are not part of a tree. *)
Definition cloneJson (value : json) : res json :=
  let* text := canonicalJson value in JSON_parse text.

(** The same copy, whose object containers have null prototypes. *)
Definition inertJsonSnapshot (value : json) : res json :=
  let* text := canonicalJson value in JSON_parse text.

Definition assertSerializedJsonWithinLimit (serialized : jsstring) (maxBytes : Z) : res unit :=
  guard! negb (is_safe_integer maxBytes) || (maxBytes <? 1)
    throws RangeError "Serialized JSON byte limit must be a positive safe integer" ;;
  throw_if (maxBytes <? byte_length serialized)
    (RangeError "exceeds the serialized JSON limit").

Definition parseJsonWithinLimits (serialized : jsstring) (limits : JsonLimits) : res json :=
  do! assertJsonLimits limits ;;
  do! assertSerializedJsonWithinLimit serialized (maxCanonicalBytes limits) ;;
  let* value := JSON_parse serialized in
  do! assertJsonWithinLimits value limits ;;
  Ok value.

(** ** Enough fuel *)

Lemma skip_ws_length s : (length (skip_ws s) <= length s)%nat.
Proof. induction s as [|c s IH]; cbn; [lia|]. destruct (_ || _); cbn; lia. Qed.

Lemma parse_quoted_length s t r : parse_quoted s = Some (t, r) → (length r < length s)%nat.
Proof.
  assert (H : ∀ n s t r, (length s <= n)%nat → parse_quoted s = Some (t, r) →
    (length r < length s)%nat); [|by eapply H].
  clear. intros n; induction n as [|n IH]; intros s t r Hn; destruct s as [|c s]; cbn in *; try done; [lia|].
  assert (Hrec : ∀ s' u, (length s' <= length s)%nat →
    ('(t, r) ← parse_quoted s'; Some (u :: t, r)) = Some (t, r) → (length r < S (length s))%nat).
  { intros s' u Hs' H. destruct (parse_quoted s') as [[t' r']|] eqn:E; cbn in H; [|done].
    injection H as _ <-. apply IH in E; lia. }
  destruct (c =? QUOTE); [intros [= _ <-]; lia|].
  destruct (c =? BACKSLASH).
  - destruct s as [|e s2]; [done|].
    repeat (match goal with
      | |- (if e =? ?k then _ else _) = _ → _ => destruct (e =? k); [|]
      end; [by eapply Hrec; cbn; lia|]).
    destruct (e =? 117); [|done].
    destruct s2 as [|a [|b [|d [|f s3]]]]; try done.
    destruct (hex_value a), (hex_value b), (hex_value d), (hex_value f); try done.
    apply Hrec. cbn. lia.
  - destruct (c <? 32); [done|]. by apply Hrec.
Qed.

Lemma span_digits_length s d r :
  span_digits s = (d, r) → length s = (length d + length r)%nat.
Proof.
  revert d r; induction s as [|c s IH]; intros d r; cbn; [by intros [= <- <-]|].
  destruct (is_digit c); [|by intros [= <- <-]].
  destruct (span_digits s) as [d' r'] eqn:E. intros [= <- <-]. cbn. by rewrite (IH _ _ eq_refl).
Qed.

Lemma parse_number_length s n r : parse_number s = Some (n, r) → (length r < length s)%nat.
Proof.
  unfold parse_number. destruct s as [|c s]; [done|]. set (p := if c =? 45 then _ else _).
  assert (Hp : (length p.2 <= length (c :: s))%nat) by (unfold p; destruct (c =? 45); cbn; lia).
  destruct p as [neg s1]. cbn in Hp. intros H.
  match type of H with (?x ≫= _) = _ => destruct x as [[i s2]|] eqn:Ei; [cbn in H|done] end.
  assert (Hi : (length s2 < length s1)%nat).
  { destruct s1 as [|e s1]; [done|]. destruct (e =? 48); [injection Ei as _ <-; cbn; lia|].
    destruct (span_digits (e :: s1)) as [[|d ds] r'] eqn:Ed; [done|]. injection Ei as _ <-.
    apply span_digits_length in Ed. cbn [length] in Ed. cbn. lia. }
  destruct (parse_fraction s2) as [[f s3]|] eqn:Ef; [cbn in H|done].
  assert (Hf : (length s3 <= length s2)%nat).
  { unfold parse_fraction in Ef. destruct s2 as [|e s2]; [by injection Ef as _ <-|].
    destruct (e =? 46); [|by injection Ef as _ <-].
    destruct (span_digits s2) as [[|d ds] r'] eqn:Ed; [done|]. injection Ef as _ <-.
    apply span_digits_length in Ed. cbn. lia. }
  destruct (parse_exponent s3) as [[e s4]|] eqn:Ee; [cbn in H|done].
  injection H as _ <-.
  assert (He : (length s4 <= length s3)%nat); [|cbn in *; lia].
  unfold parse_exponent in Ee. destruct s3 as [|x s3]; [by injection Ee as _ <-|].
  destruct (_ || _); [|by injection Ee as _ <-].
  match type of Ee with (let '(_, _) := ?q in _) = _ =>
    assert (Hq : (length q.2 <= length s3)%nat); [|destruct q as [ng s5]] end.
  { destruct s3 as [|y s3]; cbn; [lia|]. destruct (y =? 45), (y =? 43); cbn; lia. }
  cbn in Hq. destruct (span_digits s5) as [[|d ds] r'] eqn:Ed; [done|]. injection Ee as _ <-.
  apply span_digits_length in Ed. cbn. lia.
Qed.

Lemma strip_prefix_length p s r : strip_prefix p s = Some r → length s = (length p + length r)%nat.
Proof.
  revert s; induction p as [|c p IH]; intros [|d s]; cbn; try (by intros [= <-] || done).
  destruct (c =? d); [|done]. intros H. by rewrite (IH _ H).
Qed.

Lemma parse_literal_length s v r : parse_literal s = Some (v, r) → (length r < length s)%nat.
Proof.
  unfold parse_literal.
  destruct (strip_prefix (js "null") s) eqn:E1.
  { intros [= _ <-]. apply strip_prefix_length in E1. cbn in E1. lia. }
  destruct (strip_prefix (js "true") s) eqn:E2.
  { intros [= _ <-]. apply strip_prefix_length in E2. cbn in E2. lia. }
  destruct (strip_prefix (js "false") s) eqn:E3.
  { intros [= _ <-]. apply strip_prefix_length in E3. cbn in E3. lia. }
  destruct (parse_number s) as [[n r']|] eqn:En; [|done]. intros [= _ <-].
  by eapply parse_number_length.
Qed.

(** Each parser consumes at least one unit. *)
Lemma parse_consumes n :
  (∀ s v r, parse_value n s = Some (v, r) → (length r < length s)%nat) ∧
  (∀ s v r, parse_elements n s = Some (v, r) → (length r < length s)%nat) ∧
  (∀ s v r, parse_members n s = Some (v, r) → (length r < length s)%nat).
Proof.
  induction n as [|n (IHv & IHe & IHm)]; [done|]. split_and!; intros s v r; cbn.
  - pose proof (skip_ws_length s) as Hs. destruct (skip_ws s) as [|c s1]; [done|]. cbn in Hs.
    destruct (c =? 34).
    { destruct (parse_quoted s1) as [[t r']|] eqn:E; [|done]. intros [= _ <-].
      apply parse_quoted_length in E. lia. }
    pose proof (skip_ws_length s1) as Hs1.
    destruct (c =? 91).
    { destruct (skip_ws s1) as [|d r1]; [done|]. cbn in Hs1.
      destruct (d =? 93); [intros [= _ <-]; lia|].
      destruct (parse_elements n s1) as [[l r2]|] eqn:E; [|done]. intros [= _ <-].
      apply IHe in E. lia. }
    destruct (c =? 123).
    { destruct (skip_ws s1) as [|d r1]; [done|]. cbn in Hs1.
      destruct (d =? 125); [intros [= _ <-]; lia|].
      destruct (parse_members n s1) as [[l r2]|] eqn:E; [|done]. intros [= _ <-].
      apply IHm in E. lia. }
    intros H. apply parse_literal_length in H. cbn in H. lia.
  - destruct (parse_value n s) as [[w r1]|] eqn:E; [|done]. apply IHv in E. cbn.
    pose proof (skip_ws_length r1). destruct (skip_ws r1) as [|d r2]; [done|]. cbn in *.
    destruct (d =? 44); [|destruct (d =? 93); [intros [= _ <-]; lia|done]].
    destruct (parse_elements n r2) as [[l r3]|] eqn:E2; [|done]. intros [= _ <-].
    apply IHe in E2. lia.
  - pose proof (skip_ws_length s) as Hs. destruct (skip_ws s) as [|q s1]; [done|]. cbn in Hs.
    destruct (q =? 34); [|done].
    destruct (parse_quoted s1) as [[k s2]|] eqn:E; [|done]. apply parse_quoted_length in E. cbn.
    pose proof (skip_ws_length s2). destruct (skip_ws s2) as [|c s3]; [done|]. cbn in *.
    destruct (c =? 58); [|done].
    destruct (parse_value n s3) as [[w r1]|] eqn:E1; [|done]. apply IHv in E1. cbn.
    pose proof (skip_ws_length r1). destruct (skip_ws r1) as [|d r2]; [done|]. cbn in *.
    destruct (d =? 44); [|destruct (d =? 125); [intros [= _ <-]; lia|done]].
    destruct (parse_members n r2) as [[l r3]|] eqn:E2; [|done]. intros [= _ <-].
    apply IHm in E2. lia.
Qed.

(** With enough fuel, more fuel changes nothing. *)
Lemma parse_fuel_irrelevant n :
  (∀ m s, (2 * length s + 1 <= n)%nat → (2 * length s + 1 <= m)%nat →
     parse_value n s = parse_value m s) ∧
  (∀ m s, (2 * length s + 2 <= n)%nat → (2 * length s + 2 <= m)%nat →
     parse_elements n s = parse_elements m s) ∧
  (∀ m s, (2 * length s + 2 <= n)%nat → (2 * length s + 2 <= m)%nat →
     parse_members n s = parse_members m s).
Proof.
  induction n as [|n (IHv & IHe & IHm)]; [split_and!; lia|].
  split_and!; intros [|m] s Hn Hm; try lia; cbn.
  - pose proof (skip_ws_length s) as Hs. destruct (skip_ws s) as [|c s1]; [done|]. cbn in Hs.
    by rewrite (IHe m s1), (IHm m s1) by lia.
  - rewrite (IHv m s) by lia. destruct (parse_value m s) as [[w r1]|] eqn:E; [|done]. cbn.
    apply parse_consumes in E.
    pose proof (skip_ws_length r1). destruct (skip_ws r1) as [|d r2]; [done|]. cbn in *.
    by rewrite (IHe m r2) by lia.
  - pose proof (skip_ws_length s) as Hs. destruct (skip_ws s) as [|q s1]; [done|]. cbn in Hs.
    destruct (q =? 34); [|done].
    destruct (parse_quoted s1) as [[k s2]|] eqn:E; [|done]. apply parse_quoted_length in E. cbn.
    pose proof (skip_ws_length s2). destruct (skip_ws s2) as [|c s3]; [done|]. cbn in *.
    destruct (c =? 58); [|done]. rewrite (IHv m s3) by lia.
    destruct (parse_value m s3) as [[w r1]|] eqn:E1; [|done]. apply parse_consumes in E1. cbn.
    pose proof (skip_ws_length r1). destruct (skip_ws r1) as [|d r2]; [done|]. cbn in *.
    by rewrite (IHm m r2) by lia.
Qed.

(** ** Parsing printed text *)

Lemma skip_ws_none c s :
  c ≠ 32 → c ≠ 9 → c ≠ 10 → c ≠ 13 → skip_ws (c :: s) = c :: s.
Proof.
  intros. cbn. by rewrite (proj2 (Z.eqb_neq c 32)), (proj2 (Z.eqb_neq c 9)),
    (proj2 (Z.eqb_neq c 10)), (proj2 (Z.eqb_neq c 13)).
Qed.

(** The first unit of a printed value. *)
Definition starts_value (c : Z) : Prop :=
  c ∈ [110; 116; 102; 34; 91; 123; 45] ∨ 48 <= c <= 57.

Lemma dec_head z : ∃ c t, dec z = c :: t ∧ (c = 45 ∨ 48 <= c <= 57).
Proof.
  assert (H : ∀ w, 0 <= w → ∃ c t, dec_nat w = c :: t ∧ 48 <= c <= 57).
  { intros w Hw. destruct (dec_nat_spec w Hw) as (_ & Hd & H0 & H1).
    destruct (dec_nat w) as [|c t].
    - destruct (Z.eq_dec w 0); [by specialize (H0 ltac:(done))|by specialize (H1 ltac:(lia))].
    - exists c, t. split; [done|]. unfold all_digits in Hd. cbn in Hd.
      apply andb_true_iff in Hd as [Hc _]. unfold is_digit in Hc. bool_prop. lia. }
  unfold dec. destruct (Z.ltb_spec z 0); [by exists 45, (dec_nat (- z)); auto|].
  destruct (H z) as (c & t & -> & Hc); [done|]. exists c, t. auto.
Qed.

Lemma print_head v :
  encodable v = true → ∃ c t, print v = c :: t ∧ starts_value c.
Proof.
  unfold starts_value.
  destruct v as [|b|n|s|l|kvs]; cbn [print encodable]; intros H.
  - eexists _, _; split; [done|]. left. by repeat constructor.
  - destruct b; eexists _, _; (split; [done|]); left; set_solver.
  - destruct n as [z| |]; try done. destruct (dec_head z) as (c & t & -> & Hc).
    exists c, t; split; [done|]. destruct Hc as [->|Hc]; [left; set_solver|by right].
  - eexists _, _; split; [done|]. left; set_solver.
  - eexists _, _; split; [done|]. left; set_solver.
  - eexists _, _; split; [done|]. left; set_solver.
Qed.

Lemma starts_value_facts c :
  starts_value c → c ≠ 32 ∧ c ≠ 9 ∧ c ≠ 10 ∧ c ≠ 13 ∧ c ≠ 93 ∧ c ≠ 125 ∧ c ≠ 44.
Proof.
  unfold starts_value. rewrite !elem_of_cons, elem_of_nil. lia.
Qed.

Lemma object_of_nodup (pairs : jobject) : NoDup (fst <$> pairs) → object_of pairs = pairs.
Proof.
  unfold object_of. intros H.
  assert (Hacc : ∀ acc, NoDup (fst <$> acc ++ pairs) →
    foldl (λ kvs kv, set_key kvs kv.1 kv.2) acc pairs = acc ++ pairs); [|by apply (Hacc [])].
  clear H. induction pairs as [|[k v] pairs IH]; intros acc Hnd; cbn; [by rewrite app_nil_r|].
  assert (Hset : set_key acc k v = acc ++ [(k, v)]).
  { rewrite fmap_app in Hnd. apply NoDup_app in Hnd as (_ & Hk & _).
    assert (Hk' : k ∉ fst <$> acc).
    { intros Hin. apply (Hk k Hin). cbn. by left. }
    clear - Hk'. induction acc as [|[k' v'] acc IH]; cbn in *; [done|].
    apply not_elem_of_cons in Hk' as [H1 H2]. rewrite bool_decide_eq_false_2 by done.
    f_equal. auto. }
  rewrite Hset, IH; rewrite <-app_assoc; done.
Qed.

(** What the parser does on the text of one value. *)
Definition parses (v : json) : Prop := ∀ n r,
  (2 * length (print v ++ r) + 1 <= n)%nat → ends_number r →
  parse_value n (print v ++ r) = Some (v, r).

Ltac eqb_false k c :=
  rewrite (proj2 (Z.eqb_neq c k)) by (unfold BACKSLASH, QUOTE in *; lia).

Lemma parses_num z : is_safe_integer z = true → parses (JNum (NInt z)).
Proof.
  intros Hz n r Hn Hr. cbn [print] in *. destruct n as [|n]; [lia|].
  destruct (dec_head z) as (c & t & E & Hc). cbn [parse_value].
  pose proof (parse_number_dec z r Hz Hr) as Hp. rewrite E in *. cbn [app] in *.
  rewrite skip_ws_none by lia. eqb_false 34 c. eqb_false 91 c. eqb_false 123 c.
  unfold parse_literal. change (js "null") with [110; 117; 108; 108].
  change (js "true") with [116; 114; 117; 101]. change (js "false") with [102; 97; 108; 115; 101].
  cbn [strip_prefix]. rewrite !(proj2 (Z.eqb_neq _ c)) by lia. by rewrite Hp.
Qed.

Lemma parses_str s : units_ok s → parses (JStr s).
Proof.
  intros Hs n r Hn _. destruct n as [|n]; [lia|]. cbn [print].
  unfold json_quote. rewrite <-app_comm_cons, <-app_assoc. cbn [app parse_value skip_ws].
  change (QUOTE =? 32) with false. cbn. by rewrite parse_quoted_units.
Qed.

(** Further members, each after its comma. *)
Definition commas (l : list jsstring) : jsstring := concat (map (λ y, [44] ++ y) l).

Lemma commas_cons y l : commas (y :: l) = 44 :: y ++ commas l.
Proof. done. Qed.

Lemma join_cons x l : join [44] (x :: l) = x ++ commas l.
Proof. done. Qed.

(** The elements of an array, after its bracket. *)
Lemma parse_elements_print l x n r :
  parses x → Forall parses l → encodable x = true → forallb encodable l = true →
  (2 * length (print x ++ commas (print <$> l) ++ 93%Z :: r) + 2 <= n)%nat →
  parse_elements n (print x ++ commas (print <$> l) ++ 93 :: r)
    = Some (x :: l, r).
Proof.
  revert x n. induction l as [|y l IH]; intros x n Hx Hl Hex Hel Hn; (destruct n as [|n]; [lia|]);
    cbn [parse_elements].
  - cbn [fmap list_fmap app] in *. change (commas []) with (@nil Z) in *. cbn [app] in *.
    rewrite Hx; [done|lia|done].
  - rewrite fmap_cons, commas_cons in *. rewrite <-app_comm_cons, <-app_assoc in *.
    rewrite Hx; [|lia|done]. cbn [mbind option_bind].
    rewrite skip_ws_none by done. change (44 =? 44) with true. cbv iota.
    apply Forall_cons in Hl as [Hy Hl]. apply andb_true_iff in Hel as [Hey Hel].
    rewrite IH; auto. rewrite !length_app in *. cbn [length] in Hn. rewrite !length_app in *.
    cbn [length] in *. lia.
Qed.

Lemma parses_arr l : Forall parses l → forallb encodable l = true → parses (JArr l).
Proof.
  intros Hl Hel n r Hn _. destruct n as [|n]; [lia|]. cbn [print] in *. cbn [app] in *.
  cbn [parse_value]. rewrite skip_ws_none by done.
  change (91 =? 34) with false. change (91 =? 91) with true. cbv iota.
  destruct l as [|x l]; [done|].
  apply Forall_cons in Hl as [Hx Hl]. apply andb_true_iff in Hel as [Hex Hel].
  rewrite fmap_cons, join_cons in *. rewrite <-!app_assoc in *. cbn [app] in *.
  destruct (print_head x Hex) as (c & t & E & Hc). apply starts_value_facts in Hc.
  assert (Hs : skip_ws (print x ++ commas (print <$> l) ++ 93 :: r) =
    print x ++ commas (print <$> l) ++ 93 :: r).
  { rewrite E. cbn [app]. apply skip_ws_none; lia. }
  pose proof (parse_elements_print l x n r Hx Hl Hex Hel ltac:(cbn [length] in Hn; lia)) as Hp.
  rewrite Hs, Hp. rewrite E. cbn [app]. eqb_false 93 c. done.
Qed.

(** The members of an object, after its brace. *)
Definition print_member (kv : jsstring * json) : jsstring := json_quote kv.1 ++ [58] ++ print kv.2.

Lemma parse_members_print l x n r :
  parses x.2 → units_ok x.1 → encodable x.2 = true →
  Forall (λ kv, parses kv.2 ∧ units_ok kv.1 ∧ encodable kv.2 = true) l →
  (2 * length (print_member x ++ commas (map print_member l) ++
     125%Z :: r) + 2 <= n)%nat →
  parse_members n (print_member x ++ commas (map print_member l) ++ 125 :: r)
    = Some (x :: l, r).
Proof.
  assert (Hone : ∀ n (x : jsstring * json) tail, parses x.2 → units_ok x.1 → ends_number tail →
    (2 * length (print_member x ++ tail) + 2 <= S n)%nat →
    parse_members (S n) (print_member x ++ tail) =
    match skip_ws tail with
    | d :: r' =>
        if d =? 44 then '(l, r'') ← parse_members n r'; Some ((x.1, x.2) :: l, r'')
        else if d =? 125 then Some ([(x.1, x.2)], r')
        else None
    | [] => None
    end).
  { clear. intros n x tail Hx Hk Ht Hn. unfold print_member, json_quote in *.
    rewrite <-!app_assoc, <-!app_comm_cons, <-!app_assoc in *. cbn [parse_members].
    rewrite skip_ws_none by done. rewrite Z.eqb_refl. cbn [app] in *.
    rewrite parse_quoted_units by done. cbn [mbind option_bind].
    rewrite skip_ws_none by done. change (58 =? 58) with true. cbv iota.
    cbn [length] in Hn. rewrite length_app in Hn. cbn [length] in Hn.
    rewrite Hx; [done|lia|done]. }
  revert x n. induction l as [|y l IH]; intros x n Hx Hk Hex Hl Hn; (destruct n as [|n]; [lia|]).
  - cbn [map] in *. change (commas []) with (@nil Z) in *. cbn [app] in *.
    rewrite Hone by done. cbn. by destruct x.
  - cbn [map] in *. rewrite commas_cons in *. rewrite <-app_comm_cons, <-app_assoc in *.
    rewrite Hone by done. rewrite skip_ws_none by done. change (44 =? 44) with true. cbv iota.
    apply Forall_cons in Hl as [(Hy & Hky & Hey) Hl].
    rewrite IH; auto; [by destruct x|].
    rewrite !length_app in *. cbn [length] in Hn. rewrite !length_app in *. cbn [length] in *. lia.
Qed.

Lemma parses_obj kvs :
  Forall (λ kv, parses kv.2 ∧ units_ok kv.1 ∧ encodable kv.2 = true) kvs →
  NoDup (fst <$> kvs) → parses (JObj kvs).
Proof.
  intros Hl Hnd n r Hn _. destruct n as [|n]; [lia|]. cbn [print] in *. cbn [app] in *.
  cbn [parse_value]. rewrite skip_ws_none by done.
  change (123 =? 34) with false. change (123 =? 91) with false. change (123 =? 123) with true.
  cbv iota. destruct kvs as [|x kvs]; [done|].
  pose proof Hl as Hl'. apply Forall_cons in Hl' as [(Hx & Hk & Hex) Hl'].
  change (join [44] (map _ (x :: kvs))) with
    (print_member x ++ commas (map print_member kvs)) in *.
  rewrite <-!app_assoc in *. cbn [app] in *.
  assert (Hs : ∀ t, ∃ u, print_member x ++ t = 34 :: u) by (intros t; by eexists).
  pose proof (parse_members_print kvs x n r Hx Hk Hex Hl' ltac:(cbn [length] in Hn; lia)) as Hp.
  destruct (Hs (commas (map print_member kvs) ++ 125 :: r)) as [u Hu].
  rewrite Hu in *. rewrite skip_ws_none by done. change (34 =? 125) with false. cbv iota.
  rewrite Hp. cbn [mbind option_bind]. by rewrite object_of_nodup.
Qed.

(** Parsing a printed value gives the value. *)
Lemma parses_print v : json_wf v → encodable v = true → parses v.
Proof.
  induction v as [|b|n|s|l IH|kvs IH] using json_ind'; intros Hwf Henc.
  - intros [|n] r Hn _; [lia|]. done.
  - intros [|n] r Hn _; [lia|]. by destruct b.
  - destruct n; [|done..]. by apply parses_num.
  - by apply parses_str.
  - rewrite json_wf_arr in Hwf. rewrite Forall_forall in IH. apply parses_arr; [|done].
    apply Forall_forall. intros x Hx. apply IH; auto. cbn in Henc. by eapply forallb_elem in Henc.
  - rewrite json_wf_obj in Hwf. destruct Hwf as [Hnd Hwf]. rewrite Forall_forall in IH.
    apply parses_obj; [|done]. apply Forall_forall. intros x Hx. destruct (Hwf x Hx).
    cbn in Henc. eapply forallb_elem in Henc; [|done]. apply andb_true_iff in Henc as [_ He].
    split_and!; auto.
Qed.

Lemma JSON_parse_print v : json_wf v → encodable v = true → JSON_parse (print v) = Ok v.
Proof.
  intros Hwf Henc. unfold JSON_parse, parse_fuel.
  pose proof (parses_print v Hwf Henc (2 * length (print v) + 1)%nat []) as H.
  rewrite app_nil_r in H. rewrite H; done.
Qed.

(** The round trip through canonical JSON. *)
Lemma parse_canonical v t :
  json_wf v → canonicalJson v = Ok t → JSON_parse t = Ok (norm v).
Proof.
  intros Hwf Ht. apply encode_spec in Ht as [He ->].
  apply JSON_parse_print; [by apply norm_wf|by rewrite norm_encodable].
Qed.

Lemma cloneJson_spec v w :
  json_wf v → cloneJson v = Ok w ↔ encodable v = true ∧ w = norm v.
Proof.
  intros Hwf. unfold cloneJson. rewrite res_bind_Ok. split.
  - intros (t & Ht & Hw). pose proof (parse_canonical v t Hwf Ht) as H.
    rewrite H in Hw. injection Hw as <-. split; [|done]. by apply encode_spec in Ht as [? _].
  - intros [He ->]. exists (print (norm v)).
    assert (Ht : canonicalJson v = Ok (print (norm v))) by by apply encode_spec.
    split; [done|]. by apply parse_canonical.
Qed.

Lemma inertJsonSnapshot_spec v w :
  json_wf v → inertJsonSnapshot v = Ok w ↔ encodable v = true ∧ w = norm v.
Proof. apply cloneJson_spec. Qed.

(** Equal canonical texts come from equal values, up to entry order. *)
Lemma canonicalJson_inj v w t :
  json_wf v → json_wf w → canonicalJson v = Ok t → canonicalJson w = Ok t → json_equiv v w.
Proof.
  intros Hv Hw H1 H2. apply parse_canonical in H1, H2; auto. unfold json_equiv. congruence.
Qed.

Lemma canonicalJson_equiv v w t :
  json_equiv v w → canonicalJson v = Ok t → canonicalJson w = Ok t.
Proof.
  unfold json_equiv, canonicalJson. rewrite !encode_spec.
  rewrite <-(norm_encodable v), <-(norm_encodable w). by intros ->.
Qed.

#[export] Instance canonicalJson_ok_proper : Proper (json_equiv ==> eq) encodable.
Proof.
  intros v w H. rewrite <-(norm_encodable v), <-(norm_encodable w). by f_equal.
Qed.

(** ** Parsed values are JavaScript values *)

Lemma hex_value_range c n : hex_value c = Some n → 0 <= n < 16.
Proof.
  unfold hex_value. repeat case_match; intros [= <-]; bool_prop; lia.
Qed.

Lemma suffix_units (s r : jsstring) : units_ok s → (∃ p, s = p ++ r) → units_ok r.
Proof. intros H [p ->]. by apply Forall_app in H as [_ ?]. Qed.

Lemma skip_ws_units s : units_ok s → units_ok (skip_ws s).
Proof.
  unfold units_ok. induction 1 as [|c s Hc Hs IH]; cbn; [done|].
  destruct (_ || _); [done|by constructor].
Qed.

Lemma parse_quoted_units_ok s t r :
  units_ok s → parse_quoted s = Some (t, r) → units_ok t ∧ units_ok r.
Proof.
  assert (H : ∀ n s t r, (length s <= n)%nat → units_ok s → parse_quoted s = Some (t, r) →
    units_ok t ∧ units_ok r); [|by eapply H].
  clear. unfold units_ok. intros n; induction n as [|n IH]; intros s t r Hn Hs;
    destruct s as [|c s]; cbn in *; try done; [lia|].
  apply Forall_cons in Hs as [Hc Hs].
  assert (Hrec : ∀ s' u, (length s' <= length s)%nat → 0 <= u < 65536 →
    Forall (λ u, 0 <= u < 65536) s' →
    ('(t, r) ← parse_quoted s'; Some (u :: t, r)) = Some (t, r) →
    Forall (λ u, 0 <= u < 65536) t ∧ Forall (λ u, 0 <= u < 65536) r).
  { intros s' u Hs' Hu Hok H. destruct (parse_quoted s') as [[t' r']|] eqn:E; cbn in H; [|done].
    injection H as <- <-. apply IH in E as [? ?]; [|lia|done]. split; [by constructor|done]. }
  destruct (c =? QUOTE); [intros [= <- <-]; split; [constructor|done]|].
  destruct (c =? BACKSLASH); [|destruct (c <? 32); [done|by apply Hrec]].
  destruct s as [|e s2]; [done|]. apply Forall_cons in Hs as [He Hs].
  repeat (match goal with
    | |- (if e =? ?k then _ else _) = _ → _ => destruct (e =? k); [|]
    end; [by apply Hrec; cbn; unfold QUOTE, BACKSLASH; try lia|]).
  destruct (e =? 117); [|done].
  destruct s2 as [|a [|b [|d [|f s3]]]]; try done.
  destruct (hex_value a) eqn:Ha, (hex_value b) eqn:Hb, (hex_value d) eqn:Hd, (hex_value f) eqn:Hf;
    try done.
  apply hex_value_range in Ha, Hb, Hd, Hf.
  apply Hrec; [cbn; lia|lia|]. by do 4 apply Forall_cons in Hs as [_ Hs].
Qed.

Lemma span_digits_units s d r : units_ok s → span_digits s = (d, r) → units_ok r.
Proof.
  unfold units_ok. revert d r; induction s as [|c s IH]; intros d r Hs; cbn.
  - by intros [= <- <-].
  - apply Forall_cons in Hs as [Hc Hs]. destruct (is_digit c); [|intros [= <- <-]; by constructor].
    destruct (span_digits s) as [d' r'] eqn:E. intros [= <- <-]. by eapply IH.
Qed.

Lemma parse_number_units s n r : units_ok s → parse_number s = Some (n, r) → units_ok r.
Proof.
  intros Hs. unfold parse_number. set (p := match s with [] => _ | _ => _ end).
  assert (Hp : units_ok p.2).
  { unfold p. destruct s as [|c s]; [done|]. destruct (c =? 45); [|done].
    by apply Forall_cons in Hs as [_ ?]. }
  destruct p as [neg s1]. cbn in Hp. intros H.
  match type of H with (?x ≫= _) = _ => destruct x as [[i s2]|] eqn:Ei; [cbn in H|done] end.
  assert (Hi : units_ok s2).
  { destruct s1 as [|e s1]; [done|]. destruct (e =? 48).
    { injection Ei as _ <-. by apply Forall_cons in Hp as [_ ?]. }
    destruct (span_digits (e :: s1)) as [[|d ds] r'] eqn:Ed; [done|]. injection Ei as _ <-.
    by eapply span_digits_units. }
  destruct (parse_fraction s2) as [[f s3]|] eqn:Ef; [cbn in H|done].
  assert (Hf : units_ok s3).
  { unfold parse_fraction in Ef. destruct s2 as [|e s2]; [by injection Ef as _ <-|].
    destruct (e =? 46); [|by injection Ef as _ <-]. apply Forall_cons in Hi as [_ Hi].
    destruct (span_digits s2) as [[|d ds] r'] eqn:Ed; [done|]. injection Ef as _ <-.
    by eapply span_digits_units. }
  destruct (parse_exponent s3) as [[e s4]|] eqn:Ee; [cbn in H|done].
  injection H as _ <-. unfold parse_exponent in Ee. destruct s3 as [|x s3]; [by injection Ee as _ <-|].
  destruct (_ || _); [|by injection Ee as _ <-]. apply Forall_cons in Hf as [_ Hf].
  match type of Ee with (let '(_, _) := ?q in _) = _ =>
    assert (Hq : units_ok q.2); [|destruct q as [ng s5]] end.
  { destruct s3 as [|y s3]; [done|]. destruct (y =? 45), (y =? 43); cbn; try done;
      by apply Forall_cons in Hf as [_ ?]. }
  cbn in Hq. destruct (span_digits s5) as [[|d ds] r'] eqn:Ed; [done|]. injection Ee as _ <-.
  by eapply span_digits_units.
Qed.

Lemma strip_prefix_suffix p s r : strip_prefix p s = Some r → ∃ q, s = q ++ r.
Proof.
  revert s; induction p as [|c p IH]; intros [|d s]; cbn; try (by intros [= <-]; by exists []); try done.
  destruct (c =? d); [|done]. intros [q ->]%IH. by exists (d :: q).
Qed.

Lemma parse_literal_wf s v r :
  units_ok s → parse_literal s = Some (v, r) → json_wf v ∧ units_ok r.
Proof.
  intros Hs. unfold parse_literal.
  destruct (strip_prefix (js "null") s) eqn:E1.
  { intros [= <- <-]. apply strip_prefix_suffix in E1. split; [done|by eapply suffix_units]. }
  destruct (strip_prefix (js "true") s) eqn:E2.
  { intros [= <- <-]. apply strip_prefix_suffix in E2. split; [done|by eapply suffix_units]. }
  destruct (strip_prefix (js "false") s) eqn:E3.
  { intros [= <- <-]. apply strip_prefix_suffix in E3. split; [done|by eapply suffix_units]. }
  destruct (parse_number s) as [[n r']|] eqn:En; [|done]. intros [= <- <-].
  split; [done|]. by eapply parse_number_units.
Qed.

Lemma set_key_spec kvs k v :
  NoDup (fst <$> kvs) →
  NoDup (fst <$> set_key kvs k v) ∧
  (∀ kv, kv ∈ set_key kvs k v → kv = (k, v) ∨ kv ∈ kvs) ∧
  (∀ k', k' ∈ fst <$> set_key kvs k v → k' = k ∨ k' ∈ fst <$> kvs).
Proof.
  induction kvs as [|[k' v'] kvs IH]; intros Hnd; cbn.
  - split_and!; [repeat constructor; set_solver| |]; set_solver.
  - cbn in Hnd. apply NoDup_cons in Hnd as [Hk Hnd]. destruct (IH Hnd) as (H1 & H2 & H3).
    case_bool_decide as E; cbn.
    + subst. split_and!; [by constructor| |]; set_solver.
    + split_and!.
      * constructor; [|done]. intros Hin. apply H3 in Hin as [|]; done.
      * set_solver.
      * set_solver.
Qed.

Lemma object_of_wf pairs :
  Forall (λ kv, units_ok kv.1 ∧ json_wf kv.2) pairs → json_wf (JObj (object_of pairs)).
Proof.
  intros H. rewrite json_wf_obj. unfold object_of.
  assert (Hacc : ∀ acc, NoDup (fst <$> acc) → (∀ kv, kv ∈ acc → units_ok kv.1 ∧ json_wf kv.2) →
    NoDup (fst <$> foldl (λ kvs kv, set_key kvs kv.1 kv.2) acc pairs) ∧
    ∀ kv, kv ∈ foldl (λ kvs kv, set_key kvs kv.1 kv.2) acc pairs → units_ok kv.1 ∧ json_wf kv.2).
  { induction H as [|x pairs Hx _ IH]; intros acc Hnd Hacc; cbn; [done|].
    destruct (set_key_spec acc x.1 x.2 Hnd) as (H1 & H2 & _).
    apply IH; [done|]. intros kv [->|?]%H2; auto. }
  apply Hacc; [constructor|]. intros kv Hkv. by apply not_elem_of_nil in Hkv.
Qed.

Lemma parse_wf n :
  (∀ s v r, units_ok s → parse_value n s = Some (v, r) → json_wf v ∧ units_ok r) ∧
  (∀ s l r, units_ok s → parse_elements n s = Some (l, r) → Forall json_wf l ∧ units_ok r) ∧
  (∀ s l r, units_ok s → parse_members n s = Some (l, r) →
     Forall (λ kv, units_ok kv.1 ∧ json_wf kv.2) l ∧ units_ok r).
Proof.
  induction n as [|n (IHv & IHe & IHm)]; [done|].
  split_and!; intros s v r Hok; cbn.
  - apply skip_ws_units in Hok. destruct (skip_ws s) as [|c s1]; [done|].
    pose proof Hok as Hc. apply Forall_cons in Hc as [_ Hs1].
    pose proof (skip_ws_units s1 Hs1) as Hws.
    destruct (c =? 34).
    { destruct (parse_quoted s1) as [[t r']|] eqn:E; [|done]. intros [= <- <-].
      by apply parse_quoted_units_ok in E. }
    destruct (c =? 91).
    { destruct (skip_ws s1) as [|d r1]; [done|]. apply Forall_cons in Hws as [_ Hws].
      destruct (d =? 93); [by intros [= <- <-]|].
      destruct (parse_elements n s1) as [[l r2]|] eqn:E; [|done]. intros [= <- <-].
      apply IHe in E as [Hl ?]; [|done]. split; [|done]. apply json_wf_arr. by apply Forall_forall. }
    destruct (c =? 123).
    { destruct (skip_ws s1) as [|d r1]; [done|]. apply Forall_cons in Hws as [_ Hws].
      destruct (d =? 125); [intros [= <- <-]; split; [split; [constructor|done]|done]|].
      destruct (parse_members n s1) as [[l r2]|] eqn:E; [|done]. intros [= <- <-].
      apply IHm in E as [Hl ?]; [|done]. split; [|done]. by apply object_of_wf. }
    by apply parse_literal_wf.
  - destruct (parse_value n s) as [[w r1]|] eqn:E; [|done]. apply IHv in E as [Hw Hr1]; [|done]. cbn.
    apply skip_ws_units in Hr1. destruct (skip_ws r1) as [|d r2]; [done|].
    apply Forall_cons in Hr1 as [_ Hr2].
    destruct (d =? 44); [|destruct (d =? 93); [intros [= <- <-]; split; [by repeat constructor|done]|done]].
    destruct (parse_elements n r2) as [[l r3]|] eqn:E2; [|done]. intros [= <- <-].
    apply IHe in E2 as [? ?]; [|done]. split; [by constructor|done].
  - apply skip_ws_units in Hok. destruct (skip_ws s) as [|q s1]; [done|].
    apply Forall_cons in Hok as [_ Hs1]. destruct (q =? 34); [|done].
    destruct (parse_quoted s1) as [[k s2]|] eqn:E; [|done].
    apply parse_quoted_units_ok in E as [Hk Hs2]; [|done]. cbn.
    apply skip_ws_units in Hs2. destruct (skip_ws s2) as [|c s3]; [done|].
    apply Forall_cons in Hs2 as [_ Hs3]. destruct (c =? 58); [|done].
    destruct (parse_value n s3) as [[w r1]|] eqn:E1; [|done].
    apply IHv in E1 as [Hw Hr1]; [|done]. cbn.
    apply skip_ws_units in Hr1. destruct (skip_ws r1) as [|d r2]; [done|].
    apply Forall_cons in Hr1 as [_ Hr2].
    destruct (d =? 44); [|destruct (d =? 125); [intros [= <- <-]; split; [by repeat constructor|done]|done]].
    destruct (parse_members n r2) as [[l r3]|] eqn:E2; [|done]. intros [= <- <-].
    apply IHm in E2 as [? ?]; [|done]. split; [by constructor|done].
Qed.

Lemma JSON_parse_wf s v : units_ok s → JSON_parse s = Ok v → json_wf v.
Proof.
  intros Hs. unfold JSON_parse. destruct (parse_value (parse_fuel s) s) as [[w r]|] eqn:E; [|done].
  destruct (skip_ws r); [|done]. intros [= <-]. by apply parse_wf in E as [? _].
Qed.
