(* ===== verification/JsonGraph.v ===== *)
(** * The JSON validator on the object graph ([src/core/json.ts])

    [assertJsonWithinLimits] receives an arbitrary JavaScript value: a graph of
    objects with accessors, symbol keys, foreign prototypes, proxies, sparse
    arrays, shared and cyclic references.  The file models that graph as a heap,
    the code's explicit-stack loop over it, and shows that the loop always
    terminates, that it accepts exactly the graphs that denote a JSON tree within
    the limits, and that on those it computes what [JsonLimits] computes. *)
From S2P Require Import Prelude JsString JsNumber Json JsonLimits.

(** ** JavaScript values and the heap *)

Abbreviation loc := positive.

Inductive value : Type :=
  | VUndefined
  | VNull
  | VBool (b : bool)
  | VNum (n : jsnum)
  | VStr (s : jsstring)
  | VBigInt (z : Z)
  | VSymbol (id : positive)
  | VRef (l : loc).

Inductive property_key : Type :=
  | KStr (s : jsstring)
  | KSym (id : positive).

#[export] Instance property_key_eq_dec : EqDecision property_key.
Proof. solve_decision. Defined.

(** A property descriptor: a data property or an accessor. *)
Inductive descriptor : Type :=
  | PData (enumerable : bool) (v : value)
  | PAccessor (enumerable : bool).

(** [Object.getPrototypeOf]: [Object.prototype], [null], or another object. *)
Inductive prototype : Type := ObjectPrototype | NullPrototype | OtherPrototype.

Record object : Type := {
  o_proxy : bool;      (* [util.types.isProxy] *)
  o_callable : bool;   (* [typeof] is "function" *)
  o_array : bool;      (* [Array.isArray] *)
  o_proto : prototype;
  o_props : list (property_key * descriptor)   (* own properties, in [Reflect.ownKeys] order *)
}.

(** Every reference refers to an object. *)
Definition heap : Type := loc → object.

Definition ownKeys (o : object) : list property_key := fst <$> o_props o.

Definition getOwnPropertyDescriptor (o : object) (k : property_key) : option descriptor :=
  snd <$> find (λ kd, bool_decide (kd.1 = k)) (o_props o).

(** ** Inspecting one container *)

Definition assertPlainDataContainer (o : object) : res unit :=
  throw_if (o_proxy o) (TypeError "cannot be a Proxy").

Definition ownDataDescriptor (o : object) (k : property_key) : res (bool * value) :=
  match getOwnPropertyDescriptor o k with
  | None => Throw (TypeError "must be an own JSON value")
  | Some (PAccessor _) => Throw (TypeError "cannot be an accessor property")
  | Some (PData enumerable v) => Ok (enumerable, v)
  end.

Definition is_symbol (k : property_key) : bool := match k with KSym _ => true | _ => false end.

Definition assertNoSymbolProperties (keys : list property_key) : res unit :=
  throw_if (existsb is_symbol keys) (TypeError "cannot contain symbol properties").

(** [ownKeys as string[]], once no key is a symbol. *)
Definition string_keys (keys : list property_key) : list jsstring :=
  omap (λ k, match k with KStr s => Some s | KSym _ => None end) keys.

Definition data_entry (o : object) (maxStringBytes : option Z) (key : jsstring) :
    res (jsstring * value) :=
  do! assertSupportedJsonKey key ;;
  guard! (match maxStringBytes with Some n => n <? byte_length key | None => false end)
    throws RangeError "key exceeds the string limit" ;;
  let* (enumerable, v) := ownDataDescriptor o (KStr key) in
  guard! negb enumerable throws TypeError "cannot be a non-enumerable property" ;;
  Ok (key, v).

Definition objectDataEntries (o : object) (maxObjectKeys maxStringBytes : option Z) :
    res (list (jsstring * value)) :=
  do! assertPlainDataContainer o ;;
  guard! (match o_proto o with OtherPrototype => true | _ => false end)
    throws TypeError "must be a plain JSON object" ;;
  do! assertNoSymbolProperties (ownKeys o) ;;
  let keys := string_keys (ownKeys o) in
  guard! (match maxObjectKeys with Some n => n <? Z.of_nat (length keys) | None => false end)
    throws RangeError "exceeds the object limit" ;;
  let* entries := res_map (data_entry o maxStringBytes) keys in
  Ok (sort_by key_le entries).

(** [Number(key)] of a decimal is the nearest double. *)
Definition arrayIndex (key : jsstring) (length : Z) : option Z :=
  if negb (nonnegative_decimal key) then None
  else match double_of_decimal false (digits_value 0 key) 0 with
    | NInt index =>
        if is_safe_integer index && (0 <=? index) && (index <? length) then Some index else None
    | _ => None
    end.

(** One own key of an array; the state is the collected values and their count. *)
Definition array_entry (o : object) (length : Z) (st : list value * Z) (ownKey : property_key) :
    res (list value * Z) :=
  match ownKey with
  | KSym _ => Ok st
  | KStr key =>
      if bool_decide (key = js "length") then Ok st
      else
        do! assertSupportedJsonKey key ;;
        let* index := or_throw (arrayIndex key length)
          (TypeError "cannot contain the unsupported array property") in
        let* (enumerable, v) := ownDataDescriptor o (KStr key) in
        guard! negb enumerable throws TypeError "cannot be a non-enumerable property" ;;
        Ok (<[Z.to_nat index := v]> st.1, st.2 + 1)
  end.

Definition arrayDataValues (o : object) (maxArrayLength : option Z) : res (list value) :=
  do! assertPlainDataContainer o ;;
  let* (_, lengthValue) := ownDataDescriptor o (KStr (js "length")) in
  let* length :=
    match lengthValue with
    | VNum (NInt n) =>
        if is_safe_integer n && (0 <=? n) then Ok n
        else Throw (TypeError "must be a non-negative safe integer")
    | VNum NNegZero => Ok 0
    | _ => Throw (TypeError "must be a non-negative safe integer")
    end in
  guard! (match maxArrayLength with Some n => n <? length | None => false end)
    throws RangeError "exceeds the array limit" ;;
  do! assertNoSymbolProperties (ownKeys o) ;;
  let* (values, observedIndexes) :=
    res_fold (array_entry o length) (replicate (Z.to_nat length) VUndefined, 0) (ownKeys o) in
  guard! negb (observedIndexes =? length)
    throws TypeError "cannot contain sparse array entries" ;;
  Ok values.

(** ** The traversal *)

Inductive JsonTraversalFrame : Type :=
  | FVisit (v : value) (depth : Z)
  | FLeave (l : loc).

(** One iteration of the loop, on the popped frame.  The top of the stack is the
    head of the list. *)
Definition traverse_step (L : JsonLimits) (h : heap) (frame : JsonTraversalFrame)
    (frames : list JsonTraversalFrame) (active : gset loc) (m : JsonMetrics) :
    res (list JsonTraversalFrame * gset loc * JsonMetrics) :=
  match frame with
  | FLeave l => Ok (frames, active ∖ {[l]}, m)
  | FVisit v depth =>
      let* m := enter_node L m depth in
      match v with
      | VNull => let* m := visit_leaf L JNull m in Ok (frames, active, m)
      | VStr s => let* m := visit_leaf L (JStr s) m in Ok (frames, active, m)
      | VBool b => let* m := visit_leaf L (JBool b) m in Ok (frames, active, m)
      | VNum n => let* m := visit_leaf L (JNum n) m in Ok (frames, active, m)
      | VRef l =>
          let o := h l in
          if o_callable o then Throw (TypeError "contains a non-JSON value")
          else
            do! assertPlainDataContainer o ;;
            guard! bool_decide (l ∈ active) throws TypeError "contains a cyclic JSON reference" ;;
            let active := active ∪ {[l]} in
            let frames := FLeave l :: frames in
            if o_array o then
              let* values := arrayDataValues o (Some (maxArrayLength L)) in
              let* m := addCanonicalBytes L m (frame_bytes (length values)) in
              Ok (map (λ v, FVisit v (depth + 1)) values ++ frames, active, m)
            else
              let* entries := objectDataEntries o (Some (maxObjectKeys L)) (Some (maxStringBytes L)) in
              let* m := addCanonicalBytes L m (frame_bytes (length entries)) in
              let* m := add_keys L m entries in
              Ok (map (λ kv, FVisit kv.2 (depth + 1)) entries ++ frames, active, m)
      | VUndefined | VBigInt _ | VSymbol _ => Throw (TypeError "contains a non-JSON value")
      end
  end.

(** [while (frames.length > 0)]; [None] is "out of fuel". *)
Fixpoint traverse (L : JsonLimits) (h : heap) (fuel : nat) (frames : list JsonTraversalFrame)
    (active : gset loc) (m : JsonMetrics) : option (res JsonMetrics) :=
  match frames with
  | [] => Some (Ok m)
  | frame :: frames =>
      match fuel with
      | O => None
      | S fuel =>
          match traverse_step L h frame frames active m with
          | Ok (frames, active, m) => traverse L h fuel frames active m
          | Throw e => Some (Throw e)
          end
      end
  end.

(** Each node is visited at most once per count and left at most once. *)
Definition traverse_fuel (L : JsonLimits) : nat := (2 * Z.to_nat (maxNodes L) + 1)%nat.

Definition assertJsonWithinLimits (h : heap) (v : value) (limits : JsonLimits) :
    option (res JsonMetrics) :=
  match assertJsonLimits limits with
  | Throw e => Some (Throw e)
  | Ok _ => traverse limits h (traverse_fuel limits) [FVisit v 1] ∅ zero_metrics
  end.

(** ** Termination *)

Definition is_leave (f : JsonTraversalFrame) : bool :=
  match f with FLeave _ => true | _ => false end.
Definition leaves (frames : list JsonTraversalFrame) : Z :=
  zsum (λ f, if is_leave f then 1 else 0) frames.

Lemma leaves_nonneg frames : 0 <= leaves frames.
Proof. apply zsum_nonneg. intros f _. destruct (is_leave f); lia. Qed.

Lemma leaves_visits {A} (f : A → value) d (l : list A) frames :
  leaves (map (λ x, FVisit (f x) d) l ++ frames) = leaves frames.
Proof. unfold leaves. induction l as [|x l IH]; cbn in *; auto. Qed.

Lemma addCanonicalBytes_nodes L m b m' : addCanonicalBytes L m b = Ok m' → m_nodes m' = m_nodes m.
Proof. by intros [_ ->]%addCanonicalBytes_Ok. Qed.

Lemma visit_leaf_nodes L v m m' : visit_leaf L v m = Ok m' → m_nodes m' = m_nodes m.
Proof.
  destruct v as [|b|n|s|l|kvs]; try done; intros H.
  all: by apply visit_leaf_Ok in H as (_ & _ & ->).
Qed.

Lemma add_keys_nodes {A} L m (entries : list (jsstring * A)) m' :
  add_keys L m entries = Ok m' → m_nodes m' = m_nodes m.
Proof.
  unfold add_keys. generalize (reverse entries) as l. intros l; revert m.
  induction l as [|x l IH]; intros m; cbn [res_fold]; [by intros [= <-]|].
  intros H. inv_res. rewrite (IH _ H). by eapply addCanonicalBytes_nodes.
Qed.

Lemma step_visit_measure L h v d frames active m frames' active' m' :
  traverse_step L h (FVisit v d) frames active m = Ok (frames', active', m') →
  m_nodes m' = m_nodes m + 1 ∧ m_nodes m + 1 <= maxNodes L ∧ leaves frames' <= leaves frames + 1.
Proof.
  cbn [traverse_step]. intros H. apply res_bind_Ok in H as (m1 & H1 & H).
  apply enter_node_Ok in H1 as (Hn & _ & ->).
  destruct v as [| |b|n|s|z|id|l]; try done.
  1-4: apply res_bind_Ok in H as (m2 & H2 & H); apply visit_leaf_nodes in H2;
    injection H as <- <- <-; cbn in *; lia.
  destruct (o_callable (h l)); [done|]. apply res_bind_Ok in H as ([] & _ & H).
  apply res_bind_Ok in H as ([] & _ & H).
  assert (Hl : leaves (FLeave l :: frames) = leaves frames + 1) by (change (leaves (FLeave l :: frames)) with (1 + leaves frames); lia).
  destruct (o_array (h l)); apply res_bind_Ok in H as (vs & _ & H);
    apply res_bind_Ok in H as (m2 & H2 & H); apply addCanonicalBytes_nodes in H2.
  - injection H as <- <- <-. rewrite (leaves_visits id). cbn in *. lia.
  - apply res_bind_Ok in H as (m3 & H3 & H). apply add_keys_nodes in H3. injection H as <- <- <-.
    rewrite (leaves_visits snd). cbn in *. lia.
Qed.

Lemma traverse_terminates L h n frames active m :
  m_nodes m <= maxNodes L →
  2 * (maxNodes L - m_nodes m) + leaves frames + 1 <= Z.of_nat n →
  is_Some (traverse L h n frames active m).
Proof.
  revert frames active m. induction n as [|n IH]; intros frames active m Hm Hn.
  { pose proof (leaves_nonneg frames). lia. }
  destruct frames as [|[v d|l] frames]; cbn [traverse]; [done| |].
  - destruct (traverse_step L h (FVisit v d) frames active m) as [[[frames' active'] m']|e] eqn:E;
      [|done]. apply step_visit_measure in E as (H1 & H2 & H3).
    apply IH; [lia|].
    change (leaves (FVisit v d :: frames)) with (0 + leaves frames) in Hn. lia.
  - cbn [traverse_step]. apply IH; [done|].
    change (leaves (FLeave l :: frames)) with (1 + leaves frames) in Hn. lia.
Qed.

Lemma traverse_more L h n k frames active m r :
  traverse L h n frames active m = Some r → traverse L h (n + k) frames active m = Some r.
Proof.
  revert frames active m. induction n as [|n IH]; intros [|f frames] active m; cbn; try done.
  - by destruct k.
  - destruct (traverse_step L h f frames active m) as [[[? ?] ?]|]; auto.
Qed.

Lemma maxNodes_valid L : limits_valid L = true → 1 <= maxNodes L.
Proof.
  unfold limits_valid, limit_values. cbn. intros H. bool_prop. lia.
Qed.

Lemma assertJsonWithinLimits_terminates h v L : is_Some (assertJsonWithinLimits h v L).
Proof.
  unfold assertJsonWithinLimits. destruct (assertJsonLimits L) as [[]|e] eqn:E; [|done].
  apply assertJsonLimits_Ok, maxNodes_valid in E.
  apply traverse_terminates; cbn; unfold traverse_fuel; lia.
Qed.

(** ** The tree a graph denotes *)

Inductive denotes (h : heap) : value → json → Prop :=
  | D_null : denotes h VNull JNull
  | D_bool b : denotes h (VBool b) (JBool b)
  | D_num n : denotes h (VNum n) (JNum n)
  | D_str s : denotes h (VStr s) (JStr s)
  | D_arr l vs ts :
      o_callable (h l) = false → o_array (h l) = true →
      arrayDataValues (h l) None = Ok vs → Forall2 (denotes h) vs ts →
      denotes h (VRef l) (JArr ts)
  | D_obj l es ts :
      o_callable (h l) = false → o_array (h l) = false →
      objectDataEntries (h l) None None = Ok es →
      Forall2 (λ e t, e.1 = t.1 ∧ denotes h e.2 t.2) es ts →
      denotes h (VRef l) (JObj ts).

Lemma denotes_det h v t u : denotes h v t → denotes h v u → t = u.
Proof.
  revert v u. induction t as [|b|n|s|l IH|kvs IH] using json_ind'; intros v u H1 H2.
  1-4: inversion H1; subst; inversion H2; subst; done.
  - inversion H1 as [| | | |l' vs ts Hc Ha Hd Hf|]; subst.
    inversion H2 as [| | | |l1 vs1 ts1 Hc1 Ha1 Hd1 Hf1|]; subst; [|congruence].
    rewrite Hd in Hd1. injection Hd1 as <-. f_equal. clear - IH Hf Hf1.
    revert ts1 Hf1. induction Hf as [|x y vs l Hxy Hf IHf]; intros ts1 Hf1;
      inversion Hf1; subst; [done|]. apply Forall_cons in IH as [Hx IH]. f_equal; eauto.
  - inversion H1 as [| | | | |l' vs ts Hc Ha Hd Hf]; subst.
    inversion H2 as [| | | | |l1 vs1 ts1 Hc1 Ha1 Hd1 Hf1]; subst; [congruence|].
    rewrite Hd in Hd1. injection Hd1 as <-. f_equal. clear - IH Hf Hf1.
    revert ts1 Hf1. induction Hf as [|x y vs l [Hk Hxy] Hf IHf]; intros ts1 Hf1;
      inversion Hf1 as [|? z ? ? [Hk' Hxz]]; subst; [done|]. apply Forall_cons in IH as [Hx IH].
    f_equal; eauto. destruct y, z; cbn in *. f_equal; [congruence|eauto].
Qed.

(** *** The limits only add range errors *)

Lemma res_map_uniform {A B} (f : A → res B) (bad : A → bool) (e : exn) (g : A → B) l :
  (∀ x, x ∈ l → f x = if bad x then Throw e else Ok (g x)) →
  res_map f l = if existsb bad l then Throw e else Ok (map g l).
Proof.
  induction l as [|x l IH]; intros H; cbn; [done|].
  rewrite (H x) by by left. destruct (bad x); cbn; [done|].
  rewrite IH by (intros; apply H; by right). by destruct (existsb bad l).
Qed.

Lemma existsb_perm {A} (f : A → bool) l k : l ≡ₚ k → existsb f l = existsb f k.
Proof.
  induction 1 as [|x l k Hp IH|x y l|l k m H1 IH1 H2 IH2]; cbn; [done| | |congruence].
  - by rewrite IH.
  - by destruct (f x), (f y).
Qed.

(** With every key supported, the tree-level check of the entries can only fail
    on the limits. *)
Lemma tree_entries_limits {A} (es : list (jsstring * A)) nk ns :
  Forall (λ kv, assertSupportedJsonKey kv.1 = Ok tt) es →
  Json.objectDataEntries es (Some nk) (Some ns) =
    (if nk <? Z.of_nat (length es) then Throw (RangeError "exceeds the object limit")
     else if existsb (λ kv, ns <? byte_length kv.1) es
     then Throw (RangeError "key exceeds the string limit")
     else Ok (sort_by key_le es)).
Proof.
  intros Hsup. unfold Json.objectDataEntries. destruct (nk <? _); cbn; [done|].
  rewrite (res_map_uniform _ (λ kv, ns <? byte_length kv.1)
    (RangeError "key exceeds the string limit") (λ _, tt)).
  - by destruct (existsb _ es).
  - intros x Hx. rewrite Forall_forall in Hsup. rewrite (Hsup x Hx). cbn.
    by destruct (ns <? byte_length x.1).
Qed.

Lemma graph_entries_limits o es nk ns :
  objectDataEntries o None None = Ok es →
  Forall (λ kv, assertSupportedJsonKey kv.1 = Ok tt) es ∧
  sort_by key_le es = es ∧
  objectDataEntries o (Some nk) (Some ns) = Json.objectDataEntries es (Some nk) (Some ns).
Proof.
  unfold objectDataEntries. intros H. inv_res. rewrite H0, H1, H2. cbn [mbind res_bind throw_if].
  set (keys := string_keys (ownKeys o)) in *. clearbody keys.
  rename H4 into Hes. set (es := sort_by key_le x3).
  pose proof (sort_by_perm key_le x3 : es ≡ₚ x3) as Hperm.
  pose proof (proj1 (res_map_Ok _ _ _) Hes) as Hf.
  assert (Hok : Forall (λ kv, assertSupportedJsonKey kv.1 = Ok tt) x3 ∧
    keys = map fst x3 ∧
    ∀ ns, Forall2 (λ k kv, data_entry o (Some ns) k =
      if ns <? byte_length k then Throw (RangeError "key exceeds the string limit") else Ok kv)
      keys x3).
  { clear - Hf. induction Hf as [|k kv keys x3 Hk Hf (IH1 & IH2 & IH3)]; [done|].
    unfold data_entry in Hk. inv_res. destruct x1 as [en v]. inv_res.
    cbn. split_and!.
    - by constructor.
    - by f_equal.
    - intros ns. constructor; [|done]. unfold data_entry. rewrite Hk0. cbn.
      destruct (ns <? byte_length k); cbn; [done|]. rewrite Hk2. cbn. by rewrite Hk3. }
  destruct Hok as (Hsup & Hkeys & Hent). split_and!.
  - rewrite Hperm. done.
  - apply sort_by_idemp; [apply key_le_total|apply key_le_trans].
  - rewrite tree_entries_limits by by rewrite Hperm.
    assert (Hlen : length keys = length es).
    { rewrite Hkeys, length_map. symmetry. by apply Permutation_length. }
    rewrite Hlen. destruct (nk <? Z.of_nat (length es)); cbn; [done|].
    rewrite (existsb_perm _ _ _ Hperm).
    assert (Hmap : res_map (data_entry o (Some ns)) keys =
      if existsb (λ kv : jsstring * value, ns <? byte_length kv.1) x3
      then Throw (RangeError "key exceeds the string limit") else Ok x3).
    { specialize (Hent ns). clear - Hent Hkeys. revert keys Hent Hkeys.
      induction x3 as [|kv x3 IH]; intros keys Hent ->; [done|]. cbn [map] in *.
      inversion Hent as [|? ? ? ? Hk Hent']; subst. cbn [res_map existsb]. rewrite Hk.
      destruct (ns <? byte_length kv.1); cbn; [done|].
      rewrite (IH _ Hent' eq_refl). by destruct (existsb _ x3). }
    rewrite Hmap. destruct (existsb _ x3); cbn; [done|].
    unfold es. by rewrite (sort_by_idemp key_le key_le_total key_le_trans).
Qed.

Lemma arrayDataValues_limit o vs n :
  arrayDataValues o None = Ok vs →
  arrayDataValues o (Some n) =
    if n <? Z.of_nat (length vs) then Throw (RangeError "exceeds the array limit") else Ok vs.
Proof.
  assert (Hlen : ∀ len keys st st', res_fold (array_entry o len) st keys = Ok st' →
    length st'.1 = length st.1).
  { intros len keys. induction keys as [|k keys IH]; intros st st'; cbn [res_fold].
    - by intros [= <-].
    - intros H. apply res_bind_Ok in H as (st1 & Hs & H). rewrite (IH _ _ H). clear IH H.
      unfold array_entry in Hs. destruct k as [key|id]; [|by injection Hs as <-].
      case_bool_decide; [by injection Hs as <-|].
      apply res_bind_Ok in Hs as (u & _ & Hs). apply res_bind_Ok in Hs as (i & _ & Hs).
      apply res_bind_Ok in Hs as ([en w] & _ & Hs). apply res_bind_Ok in Hs as (u' & _ & Hs).
      injection Hs as <-. cbn. by rewrite length_insert. }
  unfold arrayDataValues. intros H.
  apply res_bind_Ok in H as ([] & H1 & H). apply res_bind_Ok in H as ([en lv] & H2 & H).
  apply res_bind_Ok in H as (len & H3 & H). apply res_bind_Ok in H as ([] & _ & H).
  apply res_bind_Ok in H as ([] & H4 & H). apply res_bind_Ok in H as ([values observed] & H5 & H).
  apply res_bind_Ok in H as ([] & H6 & H). injection H as <-.
  pose proof (Hlen _ _ _ _ H5) as Hl. cbn in Hl. rewrite length_replicate in Hl.
  assert (Hx : 0 <= len).
  { clear - H3. destruct lv as [| | |[z| |]| | | |]; try done; [|by injection H3 as <-].
    destruct (is_safe_integer z && (0 <=? z)) eqn:E; [|done]. injection H3 as <-. bool_prop. lia. }
  rewrite H1. cbn [mbind res_bind]. rewrite H2. cbn [mbind res_bind]. rewrite H3.
  cbn [mbind res_bind]. rewrite Hl, Z2Nat.id by done. destruct (n <? len); cbn [throw_if mbind res_bind]; [done|].
  rewrite H4. cbn [mbind res_bind]. rewrite H5. cbn [mbind res_bind]. by rewrite H6.
Qed.

(** *** The loop follows the recursion *)

(** The ancestors on the stack denote larger trees than the value at hand. *)
Definition ancestors_larger (h : heap) (active : gset loc) (t : json) : Prop :=
  ∀ a, a ∈ active → ∃ T, denotes h (VRef a) T ∧ json_nodes t < json_nodes T.

(** After some iterations the loop has done exactly one visit. *)
Definition simulates (L : JsonLimits) (h : heap) (v : value) (t : json) : Prop :=
  ∀ d frames active m, ancestors_larger h active t →
  ∃ k, ∀ n, traverse L h (k + n) (FVisit v d :: frames) active m =
    match visit L t d m with
    | Ok m' => traverse L h n frames active m'
    | Throw e => Some (Throw e)
    end.

(** The visits of a list of children. *)
Lemma simulates_list {A} L h (f : A → value) (g : A → json) (l : list A) d frames active :
  (∀ x, x ∈ l → simulates L h (f x) (g x)) →
  (∀ x, x ∈ l → ancestors_larger h active (g x)) →
  ∀ m, ∃ k, ∀ n, traverse L h (k + n) (map (λ x, FVisit (f x) d) l ++ frames) active m =
    match res_fold (λ m x, visit L (g x) d m) m l with
    | Ok m' => traverse L h n frames active m'
    | Throw e => Some (Throw e)
    end.
Proof.
  induction l as [|x l IH]; intros Hs Ha m.
  { exists O. done. }
  destruct (Hs x ltac:(left) d (map (λ x, FVisit (f x) d) l ++ frames) active m) as [k1 H1];
    [apply Ha; by left|].
  cbn [map app res_fold]. destruct (visit L (g x) d m) as [m1|e] eqn:E.
  - destruct (IH ltac:(intros; apply Hs; by right) ltac:(intros; apply Ha; by right) m1) as [k2 H2].
    exists (k1 + k2)%nat. intros n. rewrite <-Nat.add_assoc, H1. cbn [mbind res_bind]. apply H2.
  - exists k1. intros n. by rewrite H1.
Qed.

Lemma json_nodes_elem l x : x ∈ l → json_nodes x < json_nodes (JArr l).
Proof.
  intros Hx. cbn. pose proof (zsum_elem_le json_nodes l x) as H.
  specialize (H (λ y _, Z.lt_le_incl _ _ (json_nodes_pos y)) Hx). lia.
Qed.

Lemma json_nodes_entry kvs kv : kv ∈ kvs → json_nodes kv.2 < json_nodes (JObj kvs).
Proof.
  intros Hx. cbn. pose proof (zsum_elem_le (λ kv : jsstring * json, json_nodes kv.2) kvs kv) as H.
  specialize (H (λ y _, Z.lt_le_incl _ _ (json_nodes_pos y.2)) Hx). cbn in H. lia.
Qed.

Lemma simulates_leaf L h v t :
  match t with JArr _ | JObj _ => False | _ => True end → denotes h v t → simulates L h v t.
Proof.
  intros Ht Hd d frames active m Ha. exists 1%nat. intros n.
  assert (E : visit L t d m = let* m := enter_node L m d in visit_leaf L t m) by by destruct t.
  cbn [Nat.add traverse]. rewrite E.
  destruct Hd; try done; cbn [traverse_step]; destruct (enter_node L m d); cbn [mbind res_bind];
    try done; destruct (visit_leaf L _ _); done.
Qed.

(** An ancestor is never met again below a value that denotes a tree. *)
Lemma not_ancestor h active l t :
  denotes h (VRef l) t → ancestors_larger h active t → l ∉ active.
Proof.
  intros Hd Ha Hin. destruct (Ha l Hin) as (T & HT & Hlt).
  rewrite (denotes_det h (VRef l) t T Hd HT) in Hlt. lia.
Qed.

Lemma ancestors_child h active l t c :
  denotes h (VRef l) t → ancestors_larger h active t → json_nodes c < json_nodes t →
  ancestors_larger h (active ∪ {[l]}) c.
Proof.
  intros Hd Ha Hc a [Hin| ->%elem_of_singleton]%elem_of_union; [|by exists t].
  destruct (Ha a Hin) as (T & HT & ?). exists T. split; [done|lia].
Qed.

Lemma leave_restores (active : gset loc) l : l ∉ active → (active ∪ {[l]}) ∖ {[l]} = active.
Proof. set_solver. Qed.

Lemma array_not_proxy o vs mx : arrayDataValues o mx = Ok vs → assertPlainDataContainer o = Ok tt.
Proof. unfold arrayDataValues. intros H. by apply res_bind_Ok in H as ([] & H & _). Qed.

Lemma object_not_proxy o es mk ms :
  objectDataEntries o mk ms = Ok es → assertPlainDataContainer o = Ok tt.
Proof. unfold objectDataEntries. intros H. by apply res_bind_Ok in H as ([] & H & _). Qed.

Lemma Forall2_zip_map {A B C} (P : A → B → Prop) (f : C → A) (g : C → B) (l : list C) :
  Forall2 P (map f l) (map g l) ↔ ∀ x, x ∈ l → P (f x) (g x).
Proof.
  rewrite <-Forall_forall. induction l as [|x l IH]; cbn; [done|].
  by rewrite Forall2_cons, Forall_cons, IH.
Qed.

(** A [Forall2] as one list of pairs. *)
Lemma Forall2_pairs {A B} (P : A → B → Prop) l k :
  Forall2 P l k → ∃ ps : list (A * B), l = map fst ps ∧ k = map snd ps ∧ ∀ p, p ∈ ps → P p.1 p.2.
Proof.
  induction 1 as [|x y l k Hxy _ (ps & -> & -> & Hps)].
  - exists []. split_and!; try done. intros p Hp. by apply not_elem_of_nil in Hp.
  - exists ((x, y) :: ps). split_and!; try done. intros p [->|Hp]%elem_of_cons; auto.
Qed.

Lemma res_fold_map {A B S} (f : S → B → res S) (g : A → B) (l : list A) s :
  res_fold f s (map g l) = res_fold (λ s x, f s (g x)) s l.
Proof.
  revert s; induction l as [|x l IH]; intros s; cbn; [done|]. destruct (f s (g x)); cbn; auto.
Qed.

Lemma res_fold_ext {A S} (f g : S → A → res S) (l : list A) s :
  (∀ s x, x ∈ l → f s x = g s x) → res_fold f s l = res_fold g s l.
Proof.
  revert s; induction l as [|x l IH]; intros s H; cbn; [done|].
  rewrite H by by left. destruct (g s x); cbn; [|done]. apply IH. intros; apply H; by right.
Qed.

Section containers.
Context (L : JsonLimits) (h : heap) (l : loc) (Hcall : o_callable (h l) = false).

Lemma simulates_arr vs ts :
  o_array (h l) = true → arrayDataValues (h l) None = Ok vs →
  Forall2 (denotes h) vs ts → Forall (λ t, ∀ v, denotes h v t → simulates L h v t) ts →
  simulates L h (VRef l) (JArr ts).
Proof.
  intros Harr Hvs Hf IH d frames active m Ha.
  assert (Hden : denotes h (VRef l) (JArr ts)) by by econstructor.
  pose proof (not_ancestor h active l _ Hden Ha) as Hnin.
  apply Forall2_pairs in Hf as (ps & -> & -> & Hps). rewrite Forall_forall in IH.
  set (m0 := {| m_nodes := 0; m_maxDepth := 0; m_canonicalBytes := 0 |}).
  assert (Hch : ∀ p, p ∈ ps → json_nodes p.2 < json_nodes (JArr (map snd ps))).
  { intros p Hp. apply json_nodes_elem. apply list_elem_of_fmap. eauto. }
  pose proof (λ m, simulates_list L h fst snd ps (d + 1) (FLeave l :: frames) (active ∪ {[l]})
    (λ p Hp, IH p.2 (proj2 (list_elem_of_fmap snd ps p.2) (ex_intro _ p (conj eq_refl Hp)))
       p.1 (Hps p Hp))
    (λ p Hp, ancestors_child h active l _ p.2 Hden Ha (Hch p Hp)) m) as Hloop.
  cbn [visit]. set (enter := enter_node L m d).
  set (bytes := λ m, addCanonicalBytes L m (frame_bytes (length ps))).
  destruct (match enter with Ok m1 => bytes m1 | Throw e => Throw e end) as [m2|e0] eqn:Em.
  - destruct (Hloop m2) as [k Hk]. exists (1 + (k + 1))%nat. intros n.
    rewrite <-!Nat.add_assoc. cbn [Nat.add traverse traverse_step]. fold enter.
    destruct enter as [m1|e]; cbn [mbind res_bind] in *; [|done]. rewrite Hcall.
    rewrite (array_not_proxy _ _ _ Hvs). cbn [mbind res_bind].
    rewrite bool_decide_eq_false_2 by done. cbn [throw_if mbind res_bind]. rewrite Harr.
    rewrite (arrayDataValues_limit _ _ (maxArrayLength L) Hvs). rewrite !length_map.
    destruct (maxArrayLength L <? Z.of_nat (length ps)); cbn [mbind res_bind throw_if]; [done|].
    rewrite ?length_map.
    change (addCanonicalBytes L m1 (frame_bytes (length ps))) with (bytes m1).
    rewrite Em. cbn [mbind res_bind].
    rewrite !map_map.
    rewrite Hk.
    rewrite !res_fold_map.
    destruct (res_fold _ m2 ps); [|done].
    cbn [traverse Nat.add traverse_step]. by rewrite leave_restores.
  - exists 1%nat. intros n. cbn [Nat.add traverse traverse_step]. fold enter.
    destruct enter as [m1|e]; cbn [mbind res_bind] in *; [|by injection Em as ->]. rewrite Hcall.
    rewrite (array_not_proxy _ _ _ Hvs). cbn [mbind res_bind].
    rewrite bool_decide_eq_false_2 by done. cbn [throw_if mbind res_bind]. rewrite Harr.
    rewrite (arrayDataValues_limit _ _ (maxArrayLength L) Hvs). rewrite !length_map.
    destruct (maxArrayLength L <? Z.of_nat (length ps)); cbn [mbind res_bind throw_if]; [done|].
    rewrite ?length_map.
    change (addCanonicalBytes L m1 (frame_bytes (length ps))) with (bytes m1). by rewrite Em.
Qed.

Lemma simulates_obj es ts :
  o_array (h l) = false → objectDataEntries (h l) None None = Ok es →
  Forall2 (λ e t, e.1 = t.1 ∧ denotes h e.2 t.2) es ts →
  Forall (λ t, ∀ v, denotes h v t.2 → simulates L h v t.2) ts →
  simulates L h (VRef l) (JObj ts).
Proof.
  intros Harr Hes Hf IH d frames active m Ha.
  assert (Hden : denotes h (VRef l) (JObj ts)) by by econstructor.
  pose proof (not_ancestor h active l _ Hden Ha) as Hnin.
  destruct (graph_entries_limits _ _ (maxObjectKeys L) (maxStringBytes L) Hes)
    as (Hsup & Hsort & Hlim).
  apply Forall2_pairs in Hf as (ps & -> & -> & Hps). rewrite Forall_forall in IH.
  assert (Hch : ∀ p, p ∈ ps → json_nodes p.2.2 < json_nodes (JObj (map snd ps))).
  { intros p Hp. apply json_nodes_entry. apply list_elem_of_fmap. eauto. }
  pose proof (λ m, simulates_list L h (λ p, p.1.2) (λ p, p.2.2) ps (d + 1) (FLeave l :: frames)
    (active ∪ {[l]})
    (λ p Hp, IH p.2 (proj2 (list_elem_of_fmap snd ps p.2) (ex_intro _ p (conj eq_refl Hp)))
       p.1.2 (proj2 (Hps p Hp)))
    (λ p Hp, ancestors_child h active l _ p.2.2 Hden Ha (Hch p Hp)) m) as Hloop.
  (* the recursion's entries, in terms of the same pairs *)
  set (kids := map (λ kv, (kv.1, visit L kv.2 (d + 1))) (map snd ps)).
  assert (Hkids : Json.objectDataEntries kids (Some (maxObjectKeys L)) (Some (maxStringBytes L)) =
    match objectDataEntries (h l) (Some (maxObjectKeys L)) (Some (maxStringBytes L)) with
    | Ok _ => Ok kids | Throw e => Throw e end).
  { rewrite Hlim.
    assert (Hk : map fst kids = map fst (map fst ps)).
    { unfold kids. rewrite !map_map. apply map_ext_in. intros p Hp%list_elem_of_In. cbn.
      symmetry. apply (Hps p Hp). }
    assert (Hsupk : Forall (λ kv, assertSupportedJsonKey kv.1 = Ok tt) kids).
    { apply Forall_forall. unfold kids. rewrite map_map.
      intros kv (p & -> & Hp)%list_elem_of_fmap. cbn. rewrite <-(proj1 (Hps p Hp)).
      rewrite Forall_forall in Hsup. apply (Hsup p.1). apply list_elem_of_fmap. eauto. }
    rewrite (tree_entries_limits kids), (tree_entries_limits (map fst ps)) by done.
    assert (Hlen : length kids = length (map fst ps))
      by (rewrite <-(length_map fst kids), Hk; apply length_map).
    assert (Hex : existsb (λ kv, maxStringBytes L <? byte_length kv.1) kids =
      existsb (λ kv, maxStringBytes L <? byte_length kv.1) (map fst ps)).
    { clear - Hk. revert Hk. generalize kids, (map fst ps). intros a b. revert b.
      induction a as [|x a IHa]; intros [|y b] Hk; try done. cbn in *. injection Hk as Hxy Hk.
      by rewrite Hxy, (IHa _ Hk). }
    rewrite Hlen, Hex. clear Hex. destruct (_ <? _); [done|].
    destruct (existsb _ _); [done|]. f_equal.
    assert (Hsrt : StronglySorted (λ x y, key_le x y = true) kids).
    { assert (Hs1 : StronglySorted (λ x y, key_le x y = true) (map fst ps)).
      { rewrite <-Hsort. apply sort_by_sorted; [apply key_le_total|apply key_le_trans]. }
      clear - Hk Hs1. revert Hk Hs1. generalize kids, (map fst ps). intros a b. revert a.
      induction b as [|y b IHb]; intros [|x a] Hk Hs; try done; [constructor|].
      cbn in Hk. injection Hk as Hxy Hk. apply StronglySorted_inv in Hs as [Hs Hy].
      constructor; [by apply IHb|].
      rewrite Forall_forall in Hy. rewrite Forall_forall. intros z Hz.
      assert (Hz' : z.1 ∈ fst <$> a) by (apply list_elem_of_fmap; eauto).
      change (fst <$> a) with (map fst a) in Hz'. rewrite Hk in Hz'.
      apply list_elem_of_fmap in Hz' as (w & Hw & Hwb). specialize (Hy w Hwb).
      unfold key_le in *. by rewrite Hxy, Hw. }
    by apply sort_by_id. }
  assert (Hobj : objectDataEntries (h l) (Some (maxObjectKeys L)) (Some (maxStringBytes L)) =
      Ok (map fst ps) ∨
    ∃ e, objectDataEntries (h l) (Some (maxObjectKeys L)) (Some (maxStringBytes L)) = Throw e).
  { rewrite Hlim, tree_entries_limits by done.
    destruct (_ <? _); [eauto|]. destruct (existsb _ _); [eauto|]. left. by f_equal. }
  assert (Hkeys : ∀ m, add_keys L m kids = add_keys L m (map fst ps)).
  { intros m'. unfold add_keys, kids. rewrite !map_map.
    rewrite <-!(fmap_reverse), !res_fold_map. apply res_fold_ext.
    intros s p Hp. cbn. rewrite !elem_of_reverse in Hp. f_equal. f_equal. symmetry. apply (Hps p Hp). }
  assert (Hlen : length kids = length (map fst ps)) by (unfold kids; by rewrite !length_map).
  cbn [visit]. fold kids. set (enter := enter_node L m d).
  assert (Hstep : ∀ n, traverse L h (1 + n) (FVisit (VRef l) d :: frames) active m =
    match (let* m1 := enter in
           do! objectDataEntries (h l) (Some (maxObjectKeys L)) (Some (maxStringBytes L)) ;;
           let* m2 := addCanonicalBytes L m1 (frame_bytes (length kids)) in
           add_keys L m2 kids) with
    | Ok m3 => traverse L h n (map (λ p, FVisit p.1.2 (d + 1)) ps ++ FLeave l :: frames)
                 (active ∪ {[l]}) m3
    | Throw e => Some (Throw e)
    end).
  { intros n. cbn [Nat.add traverse traverse_step]. fold enter.
    destruct enter as [m1|e]; cbn [mbind res_bind]; [|done]. rewrite Hcall.
    rewrite (object_not_proxy _ _ _ _ Hes). cbn [mbind res_bind].
    rewrite bool_decide_eq_false_2 by done. cbn [throw_if mbind res_bind]. rewrite Harr.
    destruct Hobj as [Ho|[e Ho]]; rewrite Ho; cbn [mbind res_bind]; [|done].
    rewrite Hlen. destruct (addCanonicalBytes _ _ _) as [m2|]; cbn [mbind res_bind]; [|done].
    rewrite Hkeys. destruct (add_keys _ _ _); cbn [mbind res_bind]; [|done].
    by rewrite map_map. }
  rewrite Hkids in *.
  destruct (let* m1 := enter in _) as [m3|e] eqn:Em in Hstep.
  - destruct (Hloop m3) as [k Hk]. exists (1 + (k + 1))%nat. intros n.
    rewrite <-!Nat.add_assoc, Hstep, Hk.
    apply res_bind_Ok in Em as (m1 & -> & Em). apply res_bind_Ok in Em as (es' & Hes' & Em).
    rewrite Hes'. apply res_bind_Ok in Em as (m2 & Hm2 & Em).
    cbn [mbind res_bind]. rewrite Hm2. cbn [mbind res_bind]. rewrite Em. cbn [mbind res_bind].
    unfold kids. rewrite map_map, res_fold_map. cbn [fst snd].
    destruct (res_fold _ m3 ps); [|done].
    cbn [traverse Nat.add traverse_step]. by rewrite leave_restores.
  - exists 1%nat. intros n. rewrite Hstep. clear Hstep Hloop.
    destruct enter as [m1|]; cbn [mbind res_bind] in *; [|congruence].
    destruct (objectDataEntries (h l) (Some _) _); cbn [mbind res_bind] in *; [|congruence].
    destruct (addCanonicalBytes _ _ _); cbn [mbind res_bind] in *; [|congruence].
    by rewrite Em.
Qed.
End containers.

Lemma simulates_denotes L h v t : denotes h v t → simulates L h v t.
Proof.
  revert v. induction t as [|b|n|s|ts IH|ts IH] using json_ind'; intros v Hd.
  1-4: by apply simulates_leaf.
  - inversion Hd as [| | | |l vs ts' Hc Ha Hvs Hf|]; subst. by eapply simulates_arr.
  - inversion Hd as [| | | | |l es ts' Hc Ha Hes Hf]; subst. by eapply simulates_obj.
Qed.

(** ** The validator accepts exactly the graphs that denote a tree within the limits *)

(** On a graph that denotes a tree the loop and the recursion agree, exceptions
    included. *)
Lemma graph_tree_agree h v t L :
  denotes h v t → assertJsonWithinLimits h v L = Some (JsonLimits.assertJsonWithinLimits t L).
Proof.
  intros Hd. unfold assertJsonWithinLimits, JsonLimits.assertJsonWithinLimits.
  destruct (assertJsonLimits L) as [[]|e] eqn:E; cbn [mbind res_bind]; [|done].
  destruct (simulates_denotes L h v t Hd 1 [] ∅ zero_metrics) as [k Hk].
  { intros a Ha. set_solver. }
  apply assertJsonLimits_Ok, maxNodes_valid in E.
  destruct (traverse_terminates L h (traverse_fuel L) [FVisit v 1] ∅ zero_metrics) as [r Hr].
  { cbn. lia. }
  { unfold traverse_fuel. cbn. lia. }
  pose proof (traverse_more _ _ _ k _ _ _ _ Hr) as Hr'.
  rewrite Nat.add_comm, Hk in Hr'. rewrite Hr, <-Hr'.
  destruct (visit L t 1 zero_metrics); [|done]. by destruct (traverse_fuel L).
Qed.

(** Whatever the loop accepts denotes a tree. *)
Lemma traverse_denotes L h n frames active m m' :
  traverse L h n frames active m = Some (Ok m') →
  ∀ v d, FVisit v d ∈ frames → ∃ t, denotes h v t.
Proof.
  revert frames active m. induction n as [|n IH]; intros [|f frames] active m; cbn [traverse]; try done.
  { intros _ v d Hin. by apply not_elem_of_nil in Hin. }
  { intros _ v d Hin. by apply not_elem_of_nil in Hin. }
  destruct (traverse_step L h f frames active m) as [[[frames' active'] m1]|e] eqn:E; [|done].
  intros H v d Hin. specialize (IH _ _ _ H).
  destruct f as [w dw|l]; cbn [traverse_step] in E.
  2: { injection E as <- <- <-. apply elem_of_cons in Hin as [|Hin]; [done|]. by eapply IH. }
  apply res_bind_Ok in E as (m2 & _ & E).
  assert (Hrest : frames' = frames ∨ (∃ l, w = VRef l) → (∀ u e, FVisit u e ∈ frames → FVisit u e ∈ frames') →
    (∃ t, denotes h w t) → ∃ t, denotes h v t).
  { intros _ Hsub Hw. apply elem_of_cons in Hin as [[= -> ->]|Hin]; [done|]. eapply IH; eauto. }
  destruct w as [| |b|k|s|z|id|l]; try done.
  1-4: apply res_bind_Ok in E as (m3 & _ & E); injection E as <- <- <-;
    apply Hrest; [by left|done|eexists; constructor].
  destruct (o_callable (h l)) eqn:Ec; [done|].
  apply res_bind_Ok in E as ([] & Hproxy & E). apply res_bind_Ok in E as ([] & _ & E).
  destruct (o_array (h l)) eqn:Ea.
  - apply res_bind_Ok in E as (vs & Hvs & E). apply res_bind_Ok in E as (m3 & _ & E).
    injection E as <- <- <-. apply Hrest; [by right; eauto| |].
    { intros u e Hu. apply elem_of_app. right. by right. }
    assert (Hall : Forall (λ x, ∃ t, denotes h x t) vs).
    { apply Forall_forall. intros x Hx. apply (IH x (dw + 1)). apply elem_of_app. left.
      apply list_elem_of_fmap. eauto. }
    assert (∃ ts, Forall2 (denotes h) vs ts) as [ts Hts].
    { clear - Hall. induction Hall as [|x vs [t Ht] _ [ts Hts]]; [by exists []|].
      exists (t :: ts). by constructor. }
    exists (JArr ts). econstructor; try done. clear - Hvs.
    unfold arrayDataValues in *.
    apply res_bind_Ok in Hvs as ([] & -> & H). apply res_bind_Ok in H as ([en lv] & -> & H).
    apply res_bind_Ok in H as (len & H3 & H). cbn [mbind res_bind]. rewrite H3. cbn [mbind res_bind].
    by apply res_bind_Ok in H as ([] & _ & H).
  - apply res_bind_Ok in E as (es & Hes & E). apply res_bind_Ok in E as (m3 & _ & E).
    apply res_bind_Ok in E as (m4 & _ & E).
    injection E as <- <- <-. apply Hrest; [by right; eauto| |].
    { intros u e Hu. apply elem_of_app. right. by right. }
    assert (Hall : Forall (λ x : jsstring * value, ∃ t, denotes h x.2 t) es).
    { apply Forall_forall. intros x Hx. apply (IH x.2 (dw + 1)). apply elem_of_app. left.
      apply list_elem_of_fmap. eauto. }
    assert (∃ ts, Forall2 (λ (e : jsstring * value) (t : jsstring * json),
      e.1 = t.1 ∧ denotes h e.2 t.2) es ts) as [ts Hts].
    { clear - Hall. induction Hall as [|x vs [t Ht] _ [ts Hts]]; [by exists []|].
      exists ((x.1, t) :: ts). by constructor. }
    exists (JObj ts). econstructor; try done. clear - Hes.
    unfold objectDataEntries in *.
    apply res_bind_Ok in Hes as ([] & -> & H). apply res_bind_Ok in H as ([] & H1 & H).
    apply res_bind_Ok in H as ([] & H2 & H). apply res_bind_Ok in H as ([] & _ & H).
    apply res_bind_Ok in H as (es0 & Hes & [= <-]). cbn [mbind res_bind]. rewrite H1.
    cbn [mbind res_bind]. rewrite H2. cbn [mbind res_bind throw_if].
    assert (Hm : res_map (data_entry (h l) None) (string_keys (ownKeys (h l))) = Ok es0).
    { apply res_map_Ok. apply res_map_Ok in Hes. eapply Forall2_impl; [exact Hes|].
      intros k kv Hk. unfold data_entry in *. apply res_bind_Ok in Hk as ([] & -> & Hk).
      by apply res_bind_Ok in Hk as ([] & _ & Hk). }
    by rewrite Hm.
Qed.
