(* ===== verification/JsonClaims.v ===== *)
(** * What the JSON layer guarantees

    The properties of [src/core/json.ts], stated on the definitions of [Json],
    [JsonLimits], [JsonParse] and [JsonGraph]. *)
From S2P Require Import Prelude JsString JsNumber Json JsonLimits JsonParse JsonGraph.

(** A checked value can be encoded. *)
Lemma within_encodable L d v : within L d v = true → encodable v = true.
Proof.
  revert d. induction v as [|b|n|s|l IH|kvs IH] using json_ind'; intros d; cbn [within encodable];
    rewrite ?andb_true_iff; try tauto; rewrite Forall_forall in IH.
  - intros (_ & _ & H). apply forallb_forall. intros x Hx%list_elem_of_In.
    eapply IH; [done|]. by eapply forallb_elem in H.
  - intros (_ & Hs & H). unfold entries_supported in Hs. apply andb_true_iff in Hs as [_ Hs].
    apply forallb_forall. intros x Hx%list_elem_of_In.
    eapply forallb_elem in H; [|done]. eapply forallb_elem in Hs; [|done].
    unfold key_supported in Hs. apply andb_true_iff in Hs as [Hs _].
    rewrite Hs. cbn. eapply IH; [done|exact H].
Qed.

Lemma json_within_encodable L v : json_within L v = true → encodable v = true.
Proof. unfold json_within. intros H. bool_prop. by eapply within_encodable. Qed.

Lemma encode_encodable_Ok v : encodable v = true → canonicalJson v = Ok (print (norm v)).
Proof. intros H. by apply encode_spec. Qed.

(** ** The validator *)

(** validating a value terminates on every object graph, cyclic ones
    included: the loop's fuel, twice the node limit and one, is never exhausted. *)
Theorem json_validator_terminates (h : heap) (v : value) (L : JsonLimits) :
  ∃ r, JsonGraph.assertJsonWithinLimits h v L = Some r.
Proof. apply assertJsonWithinLimits_terminates. Qed.

(** C36: the validator accepts exactly the values that denote a JSON tree all of
    whose nodes respect the limits (no cycle, accessor, symbol key, foreign
    prototype, proxy or hole), and the metrics it returns are that tree's node
    count, depth and canonical length. *)
Theorem json_validator_exact (h : heap) (v : value) (L : JsonLimits) (m : JsonMetrics) :
  JsonGraph.assertJsonWithinLimits h v L = Some (Ok m) ↔
    limits_valid L = true ∧ ∃ t, denotes h v t ∧ json_within L t = true ∧ m = metrics_of t.
Proof.
  split.
  - intros H.
    assert (Ht : ∃ t, denotes h v t).
    { unfold JsonGraph.assertJsonWithinLimits in H. destruct (assertJsonLimits L); [|done].
      eapply traverse_denotes; [exact H|]. by apply list_elem_of_singleton. }
    destruct Ht as [t Ht]. rewrite (graph_tree_agree h v t L Ht) in H. injection H as H.
    apply assertJsonWithinLimits_spec in H as (? & ? & ?). eauto.
  - intros (HL & t & Ht & Hw & ->). rewrite (graph_tree_agree h v t L Ht). f_equal.
    by apply assertJsonWithinLimits_spec.
Qed.

(** on a value that denotes a tree the explicit-stack loop over the object
    graph and the recursion over the tree give the same result, exceptions
    included. *)
Theorem json_validator_refines (h : heap) (v : value) (t : json) (L : JsonLimits)
    (Hd : denotes h v t) :
  JsonGraph.assertJsonWithinLimits h v L = Some (JsonLimits.assertJsonWithinLimits t L).
Proof. by apply graph_tree_agree. Qed.

Definition example_limits : JsonLimits :=
  {| maxDepth := 3; maxNodes := 8; maxArrayLength := 4; maxObjectKeys := 4; maxStringBytes := 16;
     maxCanonicalBytes := 64 |}.

(** [{a: [1, "x"]}] with the array at location 2. *)
Definition example_heap : heap := λ l,
  if bool_decide (l = 1%positive) then
    {| o_proxy := false; o_callable := false; o_array := false; o_proto := ObjectPrototype;
       o_props := [(KStr (js "a"), PData true (VRef 2))] |}
  else
    {| o_proxy := false; o_callable := false; o_array := true; o_proto := ObjectPrototype;
       o_props := [(KStr (js "0"), PData true (VNum (NInt 1)));
                   (KStr (js "1"), PData true (VStr (js "x")));
                   (KStr (js "length"), PData false (VNum (NInt 2)))] |}.

Definition example_tree : json := JObj [(js "a", JArr [jint 1; JStr (js "x")])].

Lemma json_validator_refines_witness :
  denotes example_heap (VRef 1) example_tree ∧
  JsonGraph.assertJsonWithinLimits example_heap (VRef 1) example_limits =
    Some (JsonLimits.assertJsonWithinLimits example_tree example_limits).
Proof.
  assert (Hd : denotes example_heap (VRef 1) example_tree).
  { eapply (D_obj _ _ [(js "a", VRef 2)]); [reflexivity..|].
    constructor; [split; [reflexivity|]|constructor].
    eapply (D_arr _ _ [VNum (NInt 1); VStr (js "x")]); [reflexivity..|].
    repeat constructor. }
  split; [exact Hd|]. exact (json_validator_refines _ _ _ _ Hd).
Defined.

(** ** Canonical text *)

(** The text of an object whose members' values are given as text. *)
Definition json_text (members : list (string * string)) : jsstring :=
  [123] ++ join [44] (map (λ kv, json_quote (js kv.1) ++ [58] ++ js kv.2) members) ++ [125].

(** the canonical byte count the validator reports is exactly the length of
    the canonical text in UTF-8. *)
Theorem canonical_bytes_exact (v : json) (L : JsonLimits) (m : JsonMetrics)
    (Hwf : json_wf v) (Hok : JsonLimits.assertJsonWithinLimits v L = Ok m) :
  ∃ t, canonicalJson v = Ok t ∧ byte_length t = m_canonicalBytes m ∧
    byte_length t <= maxCanonicalBytes L.
Proof.
  apply assertJsonWithinLimits_spec in Hok as (_ & Hw & ->).
  pose proof (json_within_encodable _ _ Hw) as He.
  assert (Hb : byte_length (print (norm v)) = json_bytes v).
  { rewrite byte_length_print, json_bytes_norm; [done|by apply norm_wf|by rewrite norm_encodable]. }
  exists (print (norm v)). split_and!; [by apply encode_encodable_Ok|done|].
  unfold json_within in Hw. bool_prop. lia.
Qed.

Lemma example_tree_wf : json_wf example_tree.
Proof. apply json_wfb_wf. vm_compute. reflexivity. Qed.

Lemma canonical_bytes_exact_witness :
  ∃ t, canonicalJson example_tree = Ok t ∧ byte_length t = 13 ∧ byte_length t <= 64.
Proof.
  exact (canonical_bytes_exact example_tree example_limits
    {| m_nodes := 4; m_maxDepth := 3; m_canonicalBytes := 13 |} example_tree_wf eq_refl).
Defined.

(** C37: parsing the canonical text of a value gives the value back, its entries
    in key order, and that value has the same canonical text. *)
Theorem canonical_roundtrip (v : json) (t : jsstring)
    (Hwf : json_wf v) (Ht : canonicalJson v = Ok t) :
  JSON_parse t = Ok (norm v) ∧ canonicalJson (norm v) = Ok t ∧ json_perm v (norm v).
Proof.
  split_and!; [by apply parse_canonical| |apply norm_json_perm].
  apply encode_spec in Ht as [He ->]. rewrite encode_encodable_Ok by by rewrite norm_encodable.
  by rewrite norm_idemp.
Qed.

Definition unsorted_tree : json := JObj [(js "b", JNull); (js "a", JBool true)].

Lemma unsorted_tree_wf : json_wf unsorted_tree.
Proof. apply json_wfb_wf. vm_compute. reflexivity. Qed.

Lemma canonical_roundtrip_witness :
  canonicalJson unsorted_tree = Ok (json_text [("a", "true"); ("b", "null")]) ∧
  JSON_parse (json_text [("a", "true"); ("b", "null")]) = Ok (norm unsorted_tree).
Proof.
  assert (E : canonicalJson unsorted_tree = Ok (json_text [("a", "true"); ("b", "null")]))
    by reflexivity.
  split; [exact E|]. exact (proj1 (canonical_roundtrip _ _ unsorted_tree_wf E)).
Defined.

(** C38: two values have the same canonical text exactly when they are equal up
    to the order of their objects' entries. *)
Theorem canonical_text_faithful (v w : json) (t u : jsstring)
    (Hv : json_wf v) (Hw : json_wf w)
    (Ht : canonicalJson v = Ok t) (Hu : canonicalJson w = Ok u) :
  t = u ↔ json_equiv v w.
Proof.
  split.
  - intros ->. by eapply canonicalJson_inj.
  - intros H. apply (canonicalJson_equiv _ _ _ H) in Ht. congruence.
Qed.

Definition sorted_tree : json := JObj [(js "a", JBool true); (js "b", JNull)].

Lemma sorted_tree_wf : json_wf sorted_tree.
Proof. exact (norm_wf _ unsorted_tree_wf). Qed.

Lemma canonical_text_faithful_witness :
  json_text [("a", "true"); ("b", "null")] = json_text [("a", "true"); ("b", "null")] ↔
    json_equiv unsorted_tree sorted_tree.
Proof.
  exact (canonical_text_faithful _ _ _ _ unsorted_tree_wf sorted_tree_wf eq_refl eq_refl).
Defined.

(** reordering the entries of objects, at any depth, changes neither
    whether a value can be encoded nor its canonical text. *)
Theorem canonical_order_independent (v w : json) (Hwf : json_wf v) (Hp : json_perm v w)
    (t : jsstring) :
  canonicalJson v = Ok t ↔ canonicalJson w = Ok t.
Proof.
  pose proof (norm_perm v w Hwf Hp) as E.
  split; apply canonicalJson_equiv; [exact E|by symmetry].
Qed.

Lemma canonical_order_independent_witness :
  canonicalJson unsorted_tree = Ok (json_text [("a", "true"); ("b", "null")]) ↔
  canonicalJson sorted_tree = Ok (json_text [("a", "true"); ("b", "null")]).
Proof.
  exact (canonical_order_independent unsorted_tree sorted_tree unsorted_tree_wf
    (norm_json_perm unsorted_tree) _).
Defined.

(** ** Surrogates *)

(** the text check accepts well-formed text, and also text whose only
    defect is a high surrogate in last position, which the message of the check
    says is rejected. *)
Theorem unicode_check_exact (s : jsstring) :
  is_ok (assertUnicodeScalarString s) = true ↔
    scalar_string s = true ∨
    ∃ p u, s = p ++ [u] ∧ scalar_string p = true ∧ is_high_surrogate u = true.
Proof.
  induction s as [|h l s Hh Hl IH|h s Hh Hs IH|u s Hu IH] using units_ind.
  - cbn. split; [by left|done].
  - assert (56320 <= l <= 57343) by (unfold is_low_surrogate in Hl; lia).
    cbn [assertUnicodeScalarString scalar_string].
    unfold is_high_surrogate in *. rewrite Hh, Hl. cbn [andb].
    rewrite (proj2 (Z.ltb_ge l 56320)), (proj2 (Z.ltb_ge 57343 l)) by lia. cbn [orb].
    rewrite IH. apply or_iff_compat_l. split.
    + intros (p & u & -> & Hp & Hu). exists (h :: l :: p), u. split_and!; [done| |done].
      cbn. unfold is_high_surrogate. by rewrite Hh, Hl.
    + intros ([|x [|y p]] & u & E & Hp & Hu); [done| |].
      * injection E as -> ->. lia.
      * injection E as -> -> ->. exists p, u. split_and!; [done| |done].
        cbn [scalar_string app] in Hp. unfold is_high_surrogate in Hp. by rewrite Hh, Hl in Hp.
  - cbn [assertUnicodeScalarString scalar_string]. rewrite Hh. unfold is_high_surrogate in Hh.
    rewrite Hh. destruct s as [|l s].
    + split; [|done]. intros _. right. by exists [], h.
    + rewrite Hs. cbn [andb]. assert (Hl := Hs). unfold is_low_surrogate in Hl.
      assert (E : (l <? 56320) || (57343 <? l) = true).
      { apply orb_true_iff. apply andb_false_iff in Hl as [Hl|Hl]; bool_prop; lia. }
      rewrite E. cbn. split; [done|]. intros [|([|x [|y p]] & u & E' & Hp & Hu)]; [done|done| |].
      * injection E' as -> -> E'. cbn [scalar_string app] in Hp. unfold is_high_surrogate in Hp. by rewrite Hh in Hp.
      * injection E' as -> -> ->. cbn [scalar_string app] in Hp. unfold is_high_surrogate in Hp. by rewrite Hh, Hs in Hp.
  - cbn [assertUnicodeScalarString scalar_string]. rewrite Hu.
    assert (Hu' := Hu). unfold is_high_surrogate in Hu'. rewrite Hu'. clear Hu'.
    unfold is_low_surrogate. destruct ((56320 <=? u) && _) eqn:E; cbn [negb andb is_ok].
    + split; [done|]. intros [|([|x p] & w & E' & Hp & Hw)]; [done| |].
      * injection E' as -> ->. congruence.
      * injection E' as -> ->. cbn [scalar_string app] in Hp. unfold is_low_surrogate in Hp. by rewrite Hu, E in Hp.
    + rewrite IH. apply or_iff_compat_l. split.
      * intros (p & w & -> & Hp & Hw). exists (u :: p), w. split_and!; [done| |done].
        cbn. unfold is_low_surrogate. by rewrite Hu, E.
      * intros ([|x p] & w & E' & Hp & Hw); [injection E' as -> ->; congruence|].
        injection E' as -> ->. exists p, w. split_and!; [done| |done].
        cbn [scalar_string app] in Hp. unfold is_low_surrogate in Hp. by rewrite Hu, E in Hp.
Qed.
