(* ===== verification/Hash.v ===== *)
(** * Domain-separated hashing ([src/core/hash.ts])

    SHA-256 comes from the platform; it is the class [Sha256], of which the
    development uses that a digest is 64 lower-case hexadecimal digits.  The file
    models the framing of the hashed parts and shows that it loses nothing, so
    that under [distinguishes], SHA-256 separating the messages at hand, a
    canonical hash determines its domain and its value. *)
From S2P Require Import Prelude JsString JsNumber Json JsonParse.

(** [createHash("sha256").update(bytes).digest("hex")]; consecutive [update]s
    hash the concatenation. *)
Class Sha256 : Type := {
  sha256 : list Z → jsstring;
  sha256_hex : ∀ bs, is_hash (sha256 bs) = true
}.

(** A part is a string or a byte array. *)
Inductive part : Type :=
  | Text (s : jsstring)
  | Bytes (bs : list Z).

Definition bytes (p : part) : list Z :=
  match p with Text s => utf8 s | Bytes bs => bs end.

Definition big_endian8 (n : Z) : list Z :=
  [n / 2 ^ 56 mod 256; n / 2 ^ 48 mod 256; n / 2 ^ 40 mod 256; n / 2 ^ 32 mod 256;
   n / 2 ^ 24 mod 256; n / 2 ^ 16 mod 256; n / 2 ^ 8 mod 256; n mod 256].

Definition lengthPrefix (length : Z) : list Z := big_endian8 length.

Definition frame (encoded : list Z) : list Z :=
  lengthPrefix (Z.of_nat (length encoded)) ++ encoded.

(** What reaches the hash function. *)
Definition preimage (domain : jsstring) (parts : list part) : list Z :=
  concat (map (λ p, frame (bytes p)) (Text domain :: parts)).

Definition hashParts `{Sha256} (domain : jsstring) (parts : list part) : jsstring :=
  sha256 (preimage domain parts).

Definition canonicalHash `{Sha256} (domain : jsstring) (value : json) : res jsstring :=
  let* text := canonicalJson value in Ok (hashParts domain [Text text]).

(** ** Framing *)

Lemma big_endian8_inj n m :
  0 <= n < 2 ^ 64 → 0 <= m < 2 ^ 64 → big_endian8 n = big_endian8 m → n = m.
Proof.
  intros Hn Hm H. unfold big_endian8 in H. injection H as H1 H2 H3 H4 H5 H6 H7 H8.
  assert (Hval : ∀ n, 0 <= n < 2 ^ 64 →
    n = (n / 2 ^ 56 mod 256) * 2 ^ 56 + (n / 2 ^ 48 mod 256) * 2 ^ 48 +
        (n / 2 ^ 40 mod 256) * 2 ^ 40 + (n / 2 ^ 32 mod 256) * 2 ^ 32 +
        (n / 2 ^ 24 mod 256) * 2 ^ 24 + (n / 2 ^ 16 mod 256) * 2 ^ 16 +
        (n / 2 ^ 8 mod 256) * 2 ^ 8 + n mod 256).
  { clear. intros n Hn. change (2 ^ 56) with 72057594037927936. change (2 ^ 48) with 281474976710656.
    change (2 ^ 40) with 1099511627776. change (2 ^ 32) with 4294967296.
    change (2 ^ 24) with 16777216. change (2 ^ 16) with 65536. change (2 ^ 8) with 256.
    change (2 ^ 64) with 18446744073709551616 in Hn.
    Z.to_euclidean_division_equations. lia. }
  rewrite (Hval n Hn), (Hval m Hm), H1, H2, H3, H4, H5, H6, H7, H8. done.
Qed.

(** A byte string a 64-bit length can describe. *)
Definition short (bs : list Z) : Prop := Z.of_nat (length bs) < 2 ^ 64.

Lemma frame_inj a b r s :
  short a → short b → frame a ++ r = frame b ++ s → a = b ∧ r = s.
Proof.
  intros Ha Hb H. unfold frame in H. rewrite <-!app_assoc in H.
  assert (Hl : ∀ n m x y, lengthPrefix n ++ x = lengthPrefix m ++ y →
    lengthPrefix n = lengthPrefix m ∧ x = y) by (intros; by apply app_inj_1).
  apply Hl in H as [Hn H]. unfold short in *. apply big_endian8_inj in Hn; [|lia..].
  apply Nat2Z.inj in Hn. by apply app_inj_1 in H.
Qed.

Lemma frames_inj (l k : list (list Z)) :
  Forall short l → Forall short k → concat (map frame l) = concat (map frame k) → l = k.
Proof.
  intros Hl. revert k. induction Hl as [|a l Ha Hl IH]; intros k Hk H;
    destruct Hk as [|b k Hb Hk]; cbn in H; try done.
  apply frame_inj in H as [-> H]; [|done..]. f_equal. auto.
Qed.

Lemma preimage_inj d1 d2 ps1 ps2 :
  Forall (λ p, short (bytes p)) (Text d1 :: ps1) → Forall (λ p, short (bytes p)) (Text d2 :: ps2) →
  preimage d1 ps1 = preimage d2 ps2 → map bytes (Text d1 :: ps1) = map bytes (Text d2 :: ps2).
Proof.
  intros H1 H2. unfold preimage. rewrite <-!(map_map bytes frame). apply frames_inj.
  - by apply (Forall_fmap bytes).
  - by apply (Forall_fmap bytes).
Qed.

(** ** Hashes of canonical values *)

(** SHA-256 separates these messages. *)
Definition distinguishes `{Sha256} (ms : list (list Z)) : Prop :=
  ∀ a b, a ∈ ms → b ∈ ms → sha256 a = sha256 b → a = b.

#[export] Instance distinguishes_dec `{Sha256} ms : Decision (distinguishes ms).
Proof.
  refine (cast_if (decide (Forall (λ a, Forall (λ b, sha256 a = sha256 b → a = b) ms) ms))).
  - abstract (intros a b Ha Hb; rewrite Forall_forall in f; specialize (f a Ha);
      rewrite Forall_forall in f; auto).
  - abstract (intros H1; apply n, Forall_forall; intros a Ha; apply Forall_forall; intros b Hb;
      by apply H1).
Defined.

Lemma distinguishes_sub `{Sha256} ms ms' :
  (∀ m, m ∈ ms → m ∈ ms') → distinguishes ms' → distinguishes ms.
Proof. unfold distinguishes. eauto. Qed.

(** The message hashed for a value. *)
Definition canonical_preimage (domain : jsstring) (v : json) : list Z :=
  preimage domain [Text (print (norm v))].

Lemma canonicalHash_Ok `{Sha256} d v h :
  canonicalHash d v = Ok h ↔ encodable v = true ∧ h = sha256 (canonical_preimage d v).
Proof.
  unfold canonicalHash, hashParts, canonical_preimage. rewrite res_bind_Ok. split.
  - intros (t & Ht & [= <-]). apply encode_spec in Ht as [? ->]. done.
  - intros [He ->]. eexists. split; [by apply encode_spec|done].
Qed.

Lemma canonicalHash_hash `{Sha256} d v h : canonicalHash d v = Ok h → is_hash h = true.
Proof. intros [_ ->]%canonicalHash_Ok. apply sha256_hex. Qed.

Lemma canonicalHash_equiv `{Sha256} d v w :
  json_equiv v w → encodable v = encodable w ∧ canonical_preimage d v = canonical_preimage d w.
Proof.
  unfold json_equiv, canonical_preimage. intros Hvw. split; [|by rewrite Hvw].
  rewrite <-norm_encodable, Hvw. apply norm_encodable.
Qed.

(** Domains and values whose encodings fit a 64-bit length. *)
Definition hashable (d : jsstring) (v : json) : Prop :=
  units_ok d ∧ scalar_string d = true ∧ short (utf8 d) ∧ json_wf v ∧ short (utf8 (print (norm v))).

Lemma canonical_preimage_inj d1 d2 v w :
  hashable d1 v → hashable d2 w → encodable v = true → encodable w = true →
  canonical_preimage d1 v = canonical_preimage d2 w → d1 = d2 ∧ json_equiv v w.
Proof.
  intros (Hu1 & Hs1 & Hd1 & Hv & Hl1) (Hu2 & Hs2 & Hd2 & Hw & Hl2) He1 He2 H.
  apply preimage_inj in H; [|by repeat constructor..]. cbn in H. injection H as H1 H2.
  split; [by apply utf8_inj|].
  pose proof (norm_wf v Hv) as Hnv. pose proof (norm_wf w Hw) as Hnw.
  apply utf8_inj in H2.
  - unfold json_equiv. rewrite <-(norm_encodable v) in He1. rewrite <-(norm_encodable w) in He2.
    apply JSON_parse_print in He1; [|done]. apply JSON_parse_print in He2; [|done].
    rewrite H2 in He1. congruence.
  - by apply print_transparent.
  - by apply print_transparent.
  - by apply transparent_scalar, print_transparent.
  - by apply transparent_scalar, print_transparent.
Qed.

(** ** The constants *)

(** ["0".repeat(64)]. *)
Definition ZERO_HASH : jsstring := replicate 64 48.

Lemma ZERO_HASH_hash : is_hash ZERO_HASH = true.
Proof. done. Qed.

Lemma is_hash_units h : is_hash h = true → Forall (λ u, 0 <= u < 128) h.
Proof.
  unfold is_hash. intros [_ H]%andb_true_iff. rewrite forallb_forall in H.
  apply Forall_forall. intros c Hc. specialize (H c (proj1 (list_elem_of_In _ _) Hc)).
  unfold is_lower_hex in H. apply orb_true_iff in H as [H|H]; bool_prop; lia.
Qed.

Lemma is_hash_length h : is_hash h = true → js_length h = 64.
Proof. unfold is_hash. intros [H _]%andb_true_iff. by apply Z.eqb_eq in H. Qed.
