(* ===== verification/Sha256Impl.v ===== *)
(** * A concrete SHA-256

    The functions are proved for any [Sha256]; examples and witnesses run them
    with the function the platform documents, SHA-256 of FIPS 180-4, given here.
    The test vectors at the end are those of the standard. *)
From S2P Require Import Prelude JsString JsNumber Hash.

Definition word (z : Z) : Z := z mod 2 ^ 32.
Definition rotr (x n : Z) : Z := Z.lor (Z.shiftr x n) (word (Z.shiftl x (32 - n))).
Definition ch (x y z : Z) : Z := Z.lxor (Z.land x y) (Z.land (Z.lxor x (2 ^ 32 - 1)) z).
Definition maj (x y z : Z) : Z := Z.lxor (Z.lxor (Z.land x y) (Z.land x z)) (Z.land y z).
Definition big0 (x : Z) : Z := Z.lxor (Z.lxor (rotr x 2) (rotr x 13)) (rotr x 22).
Definition big1 (x : Z) : Z := Z.lxor (Z.lxor (rotr x 6) (rotr x 11)) (rotr x 25).
Definition small0 (x : Z) : Z := Z.lxor (Z.lxor (rotr x 7) (rotr x 18)) (Z.shiftr x 3).
Definition small1 (x : Z) : Z := Z.lxor (Z.lxor (rotr x 17) (rotr x 19)) (Z.shiftr x 10).

Definition round_constants : list Z :=
  [1116352408; 1899447441; 3049323471; 3921009573; 961987163; 1508970993;
   2453635748; 2870763221; 3624381080; 310598401; 607225278; 1426881987;
   1925078388; 2162078206; 2614888103; 3248222580; 3835390401; 4022224774;
   264347078; 604807628; 770255983; 1249150122; 1555081692; 1996064986;
   2554220882; 2821834349; 2952996808; 3210313671; 3336571891; 3584528711;
   113926993; 338241895; 666307205; 773529912; 1294757372; 1396182291;
   1695183700; 1986661051; 2177026350; 2456956037; 2730485921; 2820302411;
   3259730800; 3345764771; 3516065817; 3600352804; 4094571909; 275423344;
   430227734; 506948616; 659060556; 883997877; 958139571; 1322822218;
   1537002063; 1747873779; 1955562222; 2024104815; 2227730452; 2361852424;
   2428436474; 2756734187; 3204031479; 3329325298].

Record hash_state : Type := HS { ha : Z; hb : Z; hc : Z; hd : Z; he : Z; hf : Z; hg : Z; hh : Z }.

Definition initial_state : hash_state :=
  HS 1779033703 3144134277 1013904242 2773480762 1359893119 2600822924 528734635 1541459225.

Definition sha_round (s : hash_state) (k w : Z) : hash_state :=
  let t1 := hh s + big1 (he s) + ch (he s) (hf s) (hg s) + k + w in
  let t2 := big0 (ha s) + maj (ha s) (hb s) (hc s) in
  HS (word (t1 + t2)) (ha s) (hb s) (hc s) (word (hd s + t1)) (he s) (hf s) (hg s).

(** The message schedule as a sliding window of sixteen words. *)
Definition next_word (w : list Z) : Z :=
  match w with
  | [w0; w1; _; _; _; _; _; _; _; w9; _; _; _; _; w14; _] => word (small1 w14 + w9 + small0 w1 + w0)
  | _ => 0
  end.

Fixpoint sha_rounds (ks : list Z) (w : list Z) (s : hash_state) : hash_state :=
  match ks, w with
  | k :: ks, w0 :: rest => sha_rounds ks (rest ++ [next_word w]) (sha_round s k w0)
  | _, _ => s
  end.

Definition add_state (s t : hash_state) : hash_state :=
  HS (word (ha s + ha t)) (word (hb s + hb t)) (word (hc s + hc t)) (word (hd s + hd t))
     (word (he s + he t)) (word (hf s + hf t)) (word (hg s + hg t)) (word (hh s + hh t)).

Definition compress (s : hash_state) (w : list Z) : hash_state :=
  add_state s (sha_rounds round_constants w s).

Fixpoint words (bs : list Z) : list Z :=
  match bs with
  | a :: b :: c :: d :: r => a * 2 ^ 24 + b * 2 ^ 16 + c * 2 ^ 8 + d :: words r
  | _ => []
  end.

Definition pad (bs : list Z) : list Z :=
  let n := Z.of_nat (length bs) in
  bs ++ [128] ++ replicate (Z.to_nat ((55 - n) mod 64)) 0 ++ big_endian8 (8 * n).

Fixpoint blocks (n : nat) (ws : list Z) (s : hash_state) : hash_state :=
  match n with
  | O => s
  | S n => blocks n (drop 16 ws) (compress s (take 16 ws))
  end.

Definition word_hex (w : Z) : jsstring :=
  map (λ i, hex_digit (w / 16 ^ i mod 16)) [7; 6; 5; 4; 3; 2; 1; 0].

Definition digest_hex (s : hash_state) : jsstring :=
  word_hex (ha s) ++ word_hex (hb s) ++ word_hex (hc s) ++ word_hex (hd s) ++
  word_hex (he s) ++ word_hex (hf s) ++ word_hex (hg s) ++ word_hex (hh s).

Definition sha256_hex_digest (bs : list Z) : jsstring :=
  let ws := words (pad bs) in
  digest_hex (blocks (length ws / 16) ws initial_state).

Lemma is_lower_hex_digit n : 0 <= n < 16 → is_lower_hex (hex_digit n) = true.
Proof.
  intros Hn. unfold is_lower_hex, hex_digit. destruct (Z.ltb_spec n 10); apply orb_true_iff;
    [left|right]; apply andb_true_iff; lia.
Qed.

Lemma word_hex_lower w : forallb is_lower_hex (word_hex w) = true.
Proof.
  unfold word_hex. apply forallb_forall. intros c Hc%in_map_iff. destruct Hc as (i & <- & _).
  apply is_lower_hex_digit. apply Z.mod_pos_bound. lia.
Qed.

Lemma digest_hex_is_hash s : is_hash (digest_hex s) = true.
Proof.
  unfold is_hash, digest_hex. apply andb_true_iff. split; [done|].
  by rewrite !forallb_app, !word_hex_lower.
Qed.

#[export] Instance Sha256_FIPS : Sha256 := {|
  sha256 := sha256_hex_digest;
  sha256_hex := λ bs, digest_hex_is_hash _
|}.

(** FIPS 180-4 test vectors. *)
Example sha256_abc :
  sha256 (js "abc") = js "ba7816bf8f01cfea414140de5dae2223b00361a396177a9cb410ff61f20015ad".
Proof. vm_compute. reflexivity. Qed.

Example sha256_two_blocks :
  sha256 (js "abcdbcdecdefdefgefghfghighijhijkijkljklmklmnlmnomnopnopq") =
    js "248d6a61d20638b8e5c026930c3e6039a33ce45964ff2167f6ecedd419db06c1".
Proof. vm_compute. reflexivity. Qed.
