(* ===== verification/Zod.v ===== *)
(** * Schemas

    The program describes the values it accepts with zod schemas.  A schema is
    data here, built with the combinators the sources use, in the sources' order;
    what a combinator accepts is zod's, so [accepts] is a parameter: the class
    [Zod] with one law per combinator, stating its documented behaviour.
    [accepts_ref] is the function the laws determine; it is an instance, and
    [accepts_unique] shows it is the only one.  Values reach a schema as inert
    snapshots, so [parse] returns the value it accepts; the sources read no field of it
    that the schema does not name. *)
From S2P Require Import Prelude JsString JsNumber Json JsonLimits.

Inductive string_check : Type :=
  | CMin (n : Z)
  | CMax (n : Z)
  | CRegex (matches : jsstring → bool).

Inductive number_check : Type :=
  | CInt
  | CSafe
  | CNonnegative
  | CPositive
  | CNumberMax (n : Z).

Inductive schema : Type :=
  | SString (checks : list string_check)
  | SNumber (checks : list number_check)
  | SBoolean
  | SNull
  | SUnknown
  | SLiteral (v : json)
  | SEnum (options : list jsstring)
  | SNullable (s : schema)
  | SOptional (s : schema)
  | SCustom (check : json → bool)
  | SArray (s : schema) (max : option Z)
  | SObject (fields : list (jsstring * schema))      (* [z.object(...).strict()] *)
  | SLoose (fields : list (jsstring * schema))       (* [z.object(...)] *)
  | SUnion (options : list schema)                   (* discriminated or not *)
  | SRefine (s : schema) (check : json → bool).

Definition run_string_check (s : jsstring) (c : string_check) : bool :=
  match c with
  | CMin n => n <=? js_length s
  | CMax n => js_length s <=? n
  | CRegex matches => matches s
  end.

Definition run_number_check (n : jsnum) (c : number_check) : bool :=
  match n, c with
  | NInt z, (CInt | CSafe) => is_safe_integer z
  | NInt z, CNonnegative => 0 <=? z
  | NInt z, CPositive => 0 <? z
  | NInt z, CNumberMax m => z <=? m
  | NNegZero, (CInt | CSafe | CNonnegative) => true
  | NNegZero, CPositive => false
  | NNegZero, CNumberMax m => 0 <=? m
  | NOther, _ => false
  end.

(** A field may be absent. *)
Definition absent_ok (s : schema) : bool :=
  match s with SOptional _ | SUnknown => true | _ => false end.

(** [z.object(shape)]: every field accepted. *)
Definition fields_accept (accepts : schema → json → bool) (fields : list (jsstring * schema))
    (kvs : jobject) : bool :=
  forallb (λ f, match lookup_key f.1 kvs with
    | Some w => accepts f.2 w
    | None => absent_ok f.2
    end) fields.

(** [z.object(shape).strict()]: no other key either. *)
Definition object_accepts (accepts : schema → json → bool) (fields : list (jsstring * schema))
    (v : json) : bool :=
  match v with
  | JObj kvs =>
      forallb (λ kv, bool_decide (kv.1 ∈ fst <$> fields)) kvs && fields_accept accepts fields kvs
  | _ => false
  end.

Class Zod : Type := {
  accepts : schema → json → bool;
  accepts_string : ∀ cs v, accepts (SString cs) v =
    match v with JStr s => forallb (run_string_check s) cs | _ => false end;
  accepts_number : ∀ cs v, accepts (SNumber cs) v =
    match v with
    | JNum NOther => false
    | JNum n => forallb (run_number_check n) cs
    | _ => false
    end;
  accepts_boolean : ∀ v, accepts SBoolean v = match v with JBool _ => true | _ => false end;
  accepts_null : ∀ v, accepts SNull v = match v with JNull => true | _ => false end;
  accepts_unknown : ∀ v, accepts SUnknown v = true;
  accepts_literal : ∀ w v, accepts (SLiteral w) v = bool_decide (v = w);
  accepts_enum : ∀ os v, accepts (SEnum os) v =
    match v with JStr s => bool_decide (s ∈ os) | _ => false end;
  accepts_nullable : ∀ s v, accepts (SNullable s) v =
    match v with JNull => true | _ => accepts s v end;
  accepts_optional : ∀ s v, accepts (SOptional s) v = accepts s v;
  accepts_custom : ∀ p v, accepts (SCustom p) v = p v;
  accepts_array : ∀ s mx v, accepts (SArray s mx) v =
    match v with
    | JArr l =>
        match mx with Some n => Z.of_nat (length l) <=? n | None => true end &&
        forallb (accepts s) l
    | _ => false
    end;
  accepts_object : ∀ fs v, accepts (SObject fs) v = object_accepts accepts fs v;
  accepts_loose : ∀ fs v, accepts (SLoose fs) v =
    match v with JObj kvs => fields_accept accepts fs kvs | _ => false end;
  accepts_union : ∀ os v, accepts (SUnion os) v = existsb (λ s, accepts s v) os;
  accepts_refine : ∀ s p v, accepts (SRefine s p) v = accepts s v && p v
}.

Section schema_ind.
Context (P : schema → Prop).
Context (Hstring : ∀ cs, P (SString cs)) (Hnumber : ∀ cs, P (SNumber cs)).
Context (Hboolean : P SBoolean) (Hnull : P SNull) (Hunknown : P SUnknown).
Context (Hliteral : ∀ v, P (SLiteral v)) (Henum : ∀ os, P (SEnum os)).
Context (Hnullable : ∀ s, P s → P (SNullable s)) (Hoptional : ∀ s, P s → P (SOptional s)).
Context (Hcustom : ∀ p, P (SCustom p)) (Harray : ∀ s mx, P s → P (SArray s mx)).
Context (Hobject : ∀ fs, Forall (λ f, P f.2) fs → P (SObject fs)).
Context (Hloose : ∀ fs, Forall (λ f, P f.2) fs → P (SLoose fs)).
Context (Hunion : ∀ os, Forall P os → P (SUnion os)).
Context (Hrefine : ∀ s p, P s → P (SRefine s p)).

Fixpoint schema_ind' (s : schema) : P s :=
  match s with
  | SString cs => Hstring cs
  | SNumber cs => Hnumber cs
  | SBoolean => Hboolean
  | SNull => Hnull
  | SUnknown => Hunknown
  | SLiteral v => Hliteral v
  | SEnum os => Henum os
  | SNullable s => Hnullable s (schema_ind' s)
  | SOptional s => Hoptional s (schema_ind' s)
  | SCustom p => Hcustom p
  | SArray s mx => Harray s mx (schema_ind' s)
  | SObject fs => Hobject fs ((fix go fs := match fs return Forall (λ f, P f.2) fs with
      | [] => Forall_nil_2 _
      | f :: fs => Forall_cons_2 (λ f, P f.2) _ _ (schema_ind' f.2) (go fs) end) fs)
  | SLoose fs => Hloose fs ((fix go fs := match fs return Forall (λ f, P f.2) fs with
      | [] => Forall_nil_2 _
      | f :: fs => Forall_cons_2 (λ f, P f.2) _ _ (schema_ind' f.2) (go fs) end) fs)
  | SUnion os => Hunion os ((fix go os := match os return Forall P os with
      | [] => Forall_nil_2 _
      | s :: os => Forall_cons_2 _ _ _ (schema_ind' s) (go os) end) os)
  | SRefine s p => Hrefine s p (schema_ind' s)
  end.
End schema_ind.

(** ** The function the laws determine *)

Fixpoint accepts_ref (s : schema) : json → bool := λ v,
  match s with
  | SString cs => match v with JStr t => forallb (run_string_check t) cs | _ => false end
  | SNumber cs =>
      match v with
      | JNum NOther => false
      | JNum n => forallb (run_number_check n) cs
      | _ => false
      end
  | SBoolean => match v with JBool _ => true | _ => false end
  | SNull => match v with JNull => true | _ => false end
  | SUnknown => true
  | SLiteral w => bool_decide (v = w)
  | SEnum os => match v with JStr t => bool_decide (t ∈ os) | _ => false end
  | SNullable s => match v with JNull => true | _ => accepts_ref s v end
  | SOptional s => accepts_ref s v
  | SCustom p => p v
  | SArray s mx =>
      match v with
      | JArr l =>
          match mx with Some n => Z.of_nat (length l) <=? n | None => true end &&
          forallb (accepts_ref s) l
      | _ => false
      end
  | SObject fs =>
      match v with
      | JObj kvs =>
          forallb (λ kv, bool_decide (kv.1 ∈ fst <$> fs)) kvs &&
          forallb (λ f, match lookup_key f.1 kvs with
            | Some w => accepts_ref f.2 w
            | None => absent_ok f.2
            end) fs
      | _ => false
      end
  | SLoose fs =>
      match v with
      | JObj kvs =>
          forallb (λ f, match lookup_key f.1 kvs with
            | Some w => accepts_ref f.2 w
            | None => absent_ok f.2
            end) fs
      | _ => false
      end
  | SUnion os => existsb (λ s, accepts_ref s v) os
  | SRefine s p => accepts_ref s v && p v
  end.

#[export] Instance Zod_ref : Zod.
Proof. refine {| accepts := accepts_ref |}; reflexivity. Defined.

Lemma forallb_ext_in {A} (f g : A → bool) l :
  (∀ x, x ∈ l → f x = g x) → forallb f l = forallb g l.
Proof.
  induction l as [|x l IH]; intros H; cbn; [done|].
  rewrite (H x) by by left. f_equal. apply IH. intros; apply H; by right.
Qed.

Lemma existsb_ext_in {A} (f g : A → bool) l :
  (∀ x, x ∈ l → f x = g x) → existsb f l = existsb g l.
Proof.
  induction l as [|x l IH]; intros H; cbn; [done|].
  rewrite (H x) by by left. f_equal. apply IH. intros; apply H; by right.
Qed.

Lemma accepts_unique (Z : Zod) s v : @accepts Z s v = accepts_ref s v.
Proof.
  revert v. induction s as [cs|cs| | | |lit|opts|s IH|s IH|p|s mx IH|fs IH|fs IH|os IH|s p IH] using schema_ind';
    intros v; cbn [accepts_ref].
  - apply accepts_string.
  - apply accepts_number.
  - apply accepts_boolean.
  - apply accepts_null.
  - apply accepts_unknown.
  - apply accepts_literal.
  - apply accepts_enum.
  - rewrite accepts_nullable. by destruct v.
  - by rewrite accepts_optional.
  - apply accepts_custom.
  - rewrite accepts_array. destruct v; try done. f_equal. by apply forallb_ext_in.
  - rewrite accepts_object. unfold object_accepts, fields_accept. destruct v; try done. f_equal.
    rewrite Forall_forall in IH. apply forallb_ext_in. intros f Hf.
    destruct (lookup_key f.1 kvs); [|done]. by apply IH.
  - rewrite accepts_loose. unfold fields_accept. destruct v; try done.
    rewrite Forall_forall in IH. apply forallb_ext_in. intros f Hf.
    destruct (lookup_key f.1 kvs); [|done]. by apply IH.
  - rewrite accepts_union. rewrite Forall_forall in IH. apply existsb_ext_in. intros; by apply IH.
  - by rewrite accepts_refine, IH.
Qed.

(** [schema.parse(value)] on an inert snapshot. *)
Definition parse `{Zod} (s : schema) (v : json) : res json :=
  if accepts s v then Ok v else Throw ZodError.

Lemma parse_Ok `{Z : Zod} s v w : parse s v = Ok w ↔ accepts_ref s v = true ∧ w = v.
Proof.
  unfold parse. rewrite accepts_unique. destruct (accepts_ref s v); naive_solver.
Qed.

(** ** Acceptance does not depend on the order of entries *)

Section lookup_key.
Context {A : Type}.

Lemma lookup_key_nil k : lookup_key (A := A) k [] = None.
Proof. done. Qed.

Lemma lookup_key_cons k (kv : jsstring * A) kvs :
  lookup_key k (kv :: kvs) = if decide (kv.1 = k) then Some kv.2 else lookup_key k kvs.
Proof. unfold lookup_key. cbn. case_bool_decide; by case_decide. Qed.

Lemma lookup_key_Some k (v : A) kvs :
  NoDup (fst <$> kvs) → lookup_key k kvs = Some v ↔ (k, v) ∈ kvs.
Proof.
  induction kvs as [|[k' v'] kvs IH]; intros Hnd.
  - rewrite lookup_key_nil, elem_of_nil. done.
  - cbn in Hnd. apply NoDup_cons in Hnd as [Hk Hnd].
    rewrite lookup_key_cons, elem_of_cons. cbn. case_decide as E.
    + subst. split; [intros [= ->]; by left|]. intros [[= ->]|Hin]; [done|].
      destruct Hk. apply list_elem_of_fmap. by exists (k, v).
    + rewrite IH by done. split; [by right|]. intros [[= -> ->]|]; done.
Qed.

Lemma lookup_key_perm k (l l' : list (jsstring * A)) :
  NoDup (fst <$> l) → l ≡ₚ l' → lookup_key k l = lookup_key k l'.
Proof.
  intros Hnd Hp. assert (Hnd' : NoDup (fst <$> l')) by by rewrite <-Hp.
  destruct (lookup_key k l) as [v|] eqn:E.
  - symmetry. apply lookup_key_Some; [done|]. rewrite <-Hp. by apply lookup_key_Some.
  - destruct (lookup_key k l') as [v|] eqn:E'; [|done].
    apply lookup_key_Some in E'; [|done]. rewrite <-Hp in E'.
    apply lookup_key_Some in E'; [congruence|done].
Qed.

Lemma lookup_key_elem k (kvs : list (jsstring * A)) v :
  lookup_key k kvs = Some v → (k, v) ∈ kvs.
Proof.
  induction kvs as [|[k' v'] kvs IH]; [done|]. rewrite lookup_key_cons. cbn.
  case_decide as E; [intros [= ->]; subst; by left|]. intros H. right. auto.
Qed.
End lookup_key.

Lemma lookup_key_map {A B} (f : A → B) k (kvs : list (jsstring * A)) :
  lookup_key k (map (λ kv, (kv.1, f kv.2)) kvs) = f <$> lookup_key k kvs.
Proof.
  induction kvs as [|kv kvs IH]; [done|]. cbn [map]. rewrite !lookup_key_cons. cbn.
  case_decide; [done|]. apply IH.
Qed.

(** The entries of a normal form, looked up. *)
Definition norm_entries (kvs : jobject) : jobject :=
  sort_by key_le (map (λ kv, (kv.1, norm kv.2)) kvs).

Lemma lookup_key_norm k (kvs : jobject) :
  NoDup (fst <$> kvs) → lookup_key k (norm_entries kvs) = norm <$> lookup_key k kvs.
Proof.
  intros Hnd. unfold norm_entries.
  rewrite (lookup_key_perm _ _ (map (λ kv, (kv.1, norm kv.2)) kvs)).
  - apply lookup_key_map.
  - rewrite (sort_by_perm key_le). by rewrite map_fst_norm.
  - apply sort_by_perm.
Qed.

(** The schema's own predicates ignore entry order. *)
Fixpoint schema_proper (s : schema) : Prop :=
  match s with
  | SLiteral v => match v with JArr _ | JObj _ => False | _ => True end
  | SNullable s | SOptional s | SArray s _ => schema_proper s
  | SCustom p => ∀ v, json_wf v → p (norm v) = p v
  | SObject fs | SLoose fs => foldr (λ f P, schema_proper f.2 ∧ P) True fs
  | SUnion os => foldr (λ s P, schema_proper s ∧ P) True os
  | SRefine s p => schema_proper s ∧ ∀ v, json_wf v → p (norm v) = p v
  | _ => True
  end.

Lemma schema_proper_object fs : schema_proper (SObject fs) ↔ ∀ f, f ∈ fs → schema_proper f.2.
Proof.
  cbn. rewrite <-Forall_forall. induction fs as [|f fs IH]; cbn; [by split|].
  by rewrite Forall_cons, IH.
Qed.

Lemma schema_proper_loose fs : schema_proper (SLoose fs) ↔ ∀ f, f ∈ fs → schema_proper f.2.
Proof. exact (schema_proper_object fs). Qed.

Lemma schema_proper_union os : schema_proper (SUnion os) ↔ ∀ s, s ∈ os → schema_proper s.
Proof.
  cbn. rewrite <-Forall_forall. induction os as [|f fs IH]; cbn; [by split|].
  by rewrite Forall_cons, IH.
Qed.

Lemma forallb_fmap {A B} (f : B → bool) (g : A → B) l : forallb f (g <$> l) = forallb (f ∘ g) l.
Proof. induction l as [|x l IH]; cbn; [done|]. by rewrite IH. Qed.

Lemma accepts_norm s v : schema_proper s → json_wf v → accepts_ref s (norm v) = accepts_ref s v.
Proof.
  revert v. induction s as [cs|cs| | | |lit|opts|s IH|s IH|p|s mx IH|fs IH|fs IH|os IH|s p IH] using schema_ind';
    intros v Hs Hv; try by destruct v.
  - cbn [accepts_ref]. destruct v as [|b|n|t|l|kvs], lit; try done; apply bool_decide_ext;
      split; intros H; by inversion H.
  - cbn [accepts_ref]. rewrite <-(IH v Hs Hv). by destruct v.
  - cbn. by apply IH.
  - cbn. by apply Hs.
  - destruct v as [|b|n|t|l|kvs]; try done. cbn [norm accepts_ref]. rewrite length_fmap. f_equal.
    rewrite forallb_fmap. apply forallb_ext_in. intros x Hx. cbn. apply IH; [done|].
    rewrite json_wf_arr in Hv. auto.
  - destruct v as [|b|n|t|l|kvs]; try done.
    pose proof Hv as Hv'. rewrite json_wf_obj in Hv'. destruct Hv' as [Hnd Hwf].
    rewrite schema_proper_object in Hs. rewrite Forall_forall in IH.
    cbn [norm accepts_ref]. fold (norm_entries kvs). f_equal.
    + unfold norm_entries. rewrite (forallb_perm _ _ _ (sort_by_perm key_le _)).
      change (map ?f kvs) with (f <$> kvs). by rewrite forallb_fmap.
    + apply forallb_ext_in. intros f Hf. rewrite lookup_key_norm by done.
      destruct (lookup_key f.1 kvs) as [w|] eqn:E; [|done]. cbn.
      apply IH; [done|by apply Hs|]. apply lookup_key_elem in E. by apply Hwf in E as [_ ?].
  - destruct v as [|b|n|t|l|kvs]; try done.
    pose proof Hv as Hv'. rewrite json_wf_obj in Hv'. destruct Hv' as [Hnd Hwf].
    rewrite schema_proper_loose in Hs. rewrite Forall_forall in IH.
    cbn [norm accepts_ref]. fold (norm_entries kvs).
    apply forallb_ext_in. intros f Hf. rewrite lookup_key_norm by done.
    destruct (lookup_key f.1 kvs) as [w|] eqn:E; [|done]. cbn.
    apply IH; [done|by apply Hs|]. apply lookup_key_elem in E. by apply Hwf in E as [_ ?].
  - cbn [accepts_ref]. rewrite schema_proper_union in Hs. rewrite Forall_forall in IH.
    apply existsb_ext_in. intros s Hs'. apply IH; auto.
  - cbn [accepts_ref]. destruct Hs as [Hs Hp]. by rewrite IH, Hp.
Qed.

(** ** The schemas the contracts share *)

(** [z.string().min(1).max(512)] *)
Definition identifier : schema := SString [CMin 1; CMax 512].
Definition hash : schema := SString [CRegex is_hash].
Definition epochMs : schema := SNumber [CInt; CNonnegative; CSafe].
Definition positiveDecimal : schema := SString [CRegex positive_decimal].
Definition nonnegativeDecimal : schema := SString [CRegex nonnegative_decimal].
Definition jsonObjectSchema : schema :=
  SCustom (λ v, match v with JObj _ => true | _ => false end).
