(* ===== verification/Clock.v ===== *)
(** * Clocks ([src/core/clock.ts])

    [ManualClock], the clock of tests and replays, and the check on epoch
    milliseconds.  An epoch value is a JavaScript number, so the checks take
    [jsnum]; negative zero passes them and counts as zero. *)
From S2P Require Import Prelude JsString JsNumber.

(** A non-negative safe integer, or nothing. *)
Definition epoch_value (n : jsnum) : option Z :=
  match n with
  | NInt z => if is_safe_integer z && (0 <=? z) then Some z else None
  | NNegZero => Some 0
  | NOther => None
  end.

Definition assertEpochMs (value : jsnum) : res Z :=
  or_throw (epoch_value value)
    (RangeError "Clock values must be non-negative safe integer milliseconds").

Record ManualClock : Type := { initialMs : Z; currentMs : Z }.

Definition new_ManualClock (initial : jsnum) : res ManualClock :=
  let* ms := assertEpochMs initial in Ok {| initialMs := ms; currentMs := ms |}.

Definition nowMs : sm ManualClock Z := λ c, (c, Ok (currentMs c)).

Definition advanceTo (nextMs : jsnum) : sm ManualClock unit :=
  sm! next := sm_lift (assertEpochMs nextMs) in
  sm! c := sm_get in
  sm! _ := sm_lift (throw_if (next <? currentMs c)
    (RangeError "A manual clock cannot move backwards")) in
  sm_modify (λ c, {| initialMs := initialMs c; currentMs := next |}).

Definition advanceBy (deltaMs : jsnum) : sm ManualClock unit :=
  sm! delta := sm_lift (or_throw (epoch_value deltaMs)
    (RangeError "Clock deltas must be non-negative safe integers")) in
  sm! c := sm_get in
  advanceTo (NInt (currentMs c + delta)).

Definition reset : sm ManualClock unit :=
  sm_modify (λ c, {| initialMs := initialMs c; currentMs := initialMs c |}).

(** The operations a caller can make; [reset] starts a new run of the clock. *)
Inductive clock_op : Type :=
  | OpAdvanceTo (n : jsnum)
  | OpAdvanceBy (n : jsnum)
  | OpReset.

Definition run_clock_op (op : clock_op) : sm ManualClock unit :=
  match op with
  | OpAdvanceTo n => advanceTo n
  | OpAdvanceBy n => advanceBy n
  | OpReset => reset
  end.

(** Callers that catch the exceptions and go on. *)
Definition run_clock (ops : list clock_op) (c : ManualClock) : ManualClock :=
  foldl (λ c op, (run_clock_op op c).1) c ops.

Definition clock_wf (c : ManualClock) : Prop :=
  0 <= initialMs c <= currentMs c ∧ currentMs c <= MAX_SAFE_INTEGER.

Lemma epoch_value_Some n z :
  epoch_value n = Some z → 0 <= z <= MAX_SAFE_INTEGER.
Proof.
  destruct n as [w| |]; cbn; [|intros [= <-]; unfold MAX_SAFE_INTEGER; lia|done].
  destruct (is_safe_integer w) eqn:E; [|done]. cbn.
  destruct (Z.leb_spec 0 w); [|done]. intros [= <-]. apply is_safe_integer_spec in E. lia.
Qed.

Lemma advanceTo_step n c c' r :
  clock_wf c → advanceTo n c = (c', r) →
  clock_wf c' ∧ initialMs c' = initialMs c ∧ currentMs c <= currentMs c' ∧
  (is_ok r = false → c' = c) ∧
  (is_ok r = true → epoch_value n = Some (currentMs c')).
Proof.
  intros Hwf. unfold advanceTo, assertEpochMs. unfold sm_bind at 1, sm_lift at 1.
  destruct (epoch_value n) as [z|] eqn:E; cbn; [|intros [= <- <-]; split_and!; done || lia].
  apply epoch_value_Some in E as Hz. unfold clock_wf in *.
  destruct (Z.ltb_spec z (currentMs c)) as [Hlt|Hge]; cbn; intros [= <- <-]; cbn;
    split_and!; intros; done || lia.
Qed.

Lemma advanceBy_step n c c' r :
  clock_wf c → advanceBy n c = (c', r) →
  clock_wf c' ∧ initialMs c' = initialMs c ∧ currentMs c <= currentMs c' ∧
  (is_ok r = false → c' = c) ∧
  (is_ok r = true → ∃ d, epoch_value n = Some d ∧ currentMs c' = currentMs c + d).
Proof.
  intros Hwf.
  assert (Hby : advanceBy n c = match epoch_value n with
    | Some d => advanceTo (NInt (currentMs c + d)) c
    | None => (c, Throw (RangeError "Clock deltas must be non-negative safe integers"))
    end) by (unfold advanceBy, sm_bind at 1; by destruct (epoch_value n)).
  rewrite Hby. clear Hby.
  destruct (epoch_value n) as [d|] eqn:E; [|intros [= <- <-]; split_and!; done || lia].
  intros H. apply advanceTo_step in H as (H1 & H2 & H3 & H4 & H5); [|done].
  split_and!; auto. intros Hr. exists d. split; [done|]. specialize (H5 Hr). cbn in H5.
  destruct (is_safe_integer _); [|done]. cbn in H5. destruct (0 <=? _); [|done]. by injection H5.
Qed.

(** a manual clock never goes back: through any sequence of operations
    without [reset], whether they throw or not, its time only grows, stays a safe
    integer and never falls below its initial time; a call that throws changes
    nothing. *)
Theorem manual_clock_monotone (ops : list clock_op) (c : ManualClock)
    (Hwf : clock_wf c) (Hops : Forall (λ op, op ≠ OpReset) ops) :
  currentMs c <= currentMs (run_clock ops c) ∧ clock_wf (run_clock ops c) ∧
  initialMs (run_clock ops c) = initialMs c ∧
  ∀ op c' e, run_clock_op op (run_clock ops c) = (c', Throw e) → c' = run_clock ops c.
Proof.
  assert (Hthrow : ∀ d, clock_wf d → ∀ op c' e, run_clock_op op d = (c', Throw e) → c' = d).
  { intros d Hd op c' e H. destruct op; cbn in H.
    - apply advanceTo_step in H as (_ & _ & _ & H & _); auto.
    - apply advanceBy_step in H as (_ & _ & _ & H & _); auto.
    - by injection H. }
  unfold run_clock. revert c Hwf. induction Hops as [|op ops Hop _ IH]; intros c Hwf; cbn.
  - split_and!; [lia|done|done|by apply Hthrow].
  - assert (Hs : clock_wf (run_clock_op op c).1 ∧ initialMs (run_clock_op op c).1 = initialMs c ∧
      currentMs c <= currentMs (run_clock_op op c).1).
    { destruct (run_clock_op op c) as [c' r] eqn:E. cbn. destruct op; cbn in E; [| |done].
      - apply advanceTo_step in E; tauto.
      - apply advanceBy_step in E; tauto. }
    destruct Hs as (H1 & H2 & H3). destruct (IH _ H1) as (H4 & H5 & H6 & H7).
    split_and!; auto; [lia|congruence].
Qed.

Definition clock_example_ops : list clock_op :=
  [OpAdvanceBy (NInt 5); OpAdvanceTo (NInt 3); OpAdvanceTo (NInt 20); OpAdvanceBy NOther].

Lemma manual_clock_monotone_witness :
  run_clock clock_example_ops {| initialMs := 10; currentMs := 10 |} =
    {| initialMs := 10; currentMs := 20 |} ∧
  10 <= currentMs (run_clock clock_example_ops {| initialMs := 10; currentMs := 10 |}).
Proof.
  split; [reflexivity|].
  refine (proj1 (manual_clock_monotone clock_example_ops {| initialMs := 10; currentMs := 10 |} _ _)).
  - unfold clock_wf, MAX_SAFE_INTEGER. cbn. lia.
  - repeat constructor; discriminate.
Defined.
