(* ===== verification/JsonObject.v ===== *)
(** * Objects as records

    The typed values of the program cross its boundaries as JSON objects.  The
    file has the accessors that read a field of an object, and their laws under
    normalisation, so that a record's reader commutes with [norm]. *)
From S2P Require Import Prelude JsString JsNumber Json JsonLimits JsonParse JsonClaims Zod.

(** ** Reading fields *)

Definition get_str (k : jsstring) (kvs : jobject) : option jsstring :=
  match lookup_key k kvs with Some (JStr s) => Some s | _ => None end.

Definition get_int (k : jsstring) (kvs : jobject) : option Z :=
  match lookup_key k kvs with Some (JNum (NInt z)) => Some z | _ => None end.

Definition get_bool (k : jsstring) (kvs : jobject) : option bool :=
  match lookup_key k kvs with Some (JBool b) => Some b | _ => None end.

Definition get_obj (k : jsstring) (kvs : jobject) : option jobject :=
  match lookup_key k kvs with Some (JObj o) => Some o | _ => None end.

Definition get_arr (k : jsstring) (kvs : jobject) : option (list json) :=
  match lookup_key k kvs with Some (JArr l) => Some l | _ => None end.

(** A nullable field. *)
Definition get_null {A} (get : jsstring → jobject → option A) (k : jsstring) (kvs : jobject) :
    option (option A) :=
  match lookup_key k kvs with
  | Some JNull => Some None
  | _ => Some <$> get k kvs
  end.

(** An optional field. *)
Definition get_opt {A} (get : jsstring → jobject → option A) (k : jsstring) (kvs : jobject) :
    option (option A) :=
  match lookup_key k kvs with
  | None => Some None
  | _ => Some <$> get k kvs
  end.

(** A value read as an object. *)
Definition as_obj (v : json) : option jobject := match v with JObj kvs => Some kvs | _ => None end.

(** ** Writing fields *)

Definition jnull {A} (f : A → json) (o : option A) : json :=
  match o with Some a => f a | None => JNull end.

(** A field that is only written when present. *)
Definition opt_field (k : jsstring) (o : option jsstring) : jobject :=
  match o with Some s => [(k, JStr s)] | None => [] end.

Section norm_fields.
Context (kvs : jobject) (Hnd : NoDup (fst <$> kvs)).

Lemma get_str_norm k : get_str k (norm_entries kvs) = get_str k kvs.
Proof using Hnd. unfold get_str. rewrite lookup_key_norm by done. by destruct (lookup_key k kvs) as [[]|]. Qed.

Lemma get_int_norm k : get_int k (norm_entries kvs) = get_int k kvs.
Proof using Hnd. unfold get_int. rewrite lookup_key_norm by done. by destruct (lookup_key k kvs) as [[]|]. Qed.

Lemma get_bool_norm k : get_bool k (norm_entries kvs) = get_bool k kvs.
Proof using Hnd. unfold get_bool. rewrite lookup_key_norm by done. by destruct (lookup_key k kvs) as [[]|]. Qed.

Lemma get_obj_norm k : get_obj k (norm_entries kvs) = norm_entries <$> get_obj k kvs.
Proof using Hnd. unfold get_obj. rewrite lookup_key_norm by done. by destruct (lookup_key k kvs) as [[]|]. Qed.

Lemma get_arr_norm k : get_arr k (norm_entries kvs) = map norm <$> get_arr k kvs.
Proof using Hnd. unfold get_arr. rewrite lookup_key_norm by done. by destruct (lookup_key k kvs) as [[]|]. Qed.

Lemma get_null_str_norm k : get_null get_str k (norm_entries kvs) = get_null get_str k kvs.
Proof using Hnd.
  unfold get_null. rewrite get_str_norm, lookup_key_norm by done.
  by destruct (lookup_key k kvs) as [[]|].
Qed.

Lemma get_null_int_norm k : get_null get_int k (norm_entries kvs) = get_null get_int k kvs.
Proof using Hnd.
  unfold get_null. rewrite get_int_norm, lookup_key_norm by done.
  by destruct (lookup_key k kvs) as [[]|].
Qed.

Lemma get_opt_str_norm k : get_opt get_str k (norm_entries kvs) = get_opt get_str k kvs.
Proof using Hnd.
  unfold get_opt. rewrite get_str_norm, lookup_key_norm by done.
  by destruct (lookup_key k kvs).
Qed.
End norm_fields.

(** ** Well-formed objects *)

Lemma json_wf_get_obj kvs k o :
  json_wf (JObj kvs) → get_obj k kvs = Some o → json_wf (JObj o).
Proof.
  unfold get_obj. intros Hwf. rewrite json_wf_obj in Hwf. destruct Hwf as [_ Hwf].
  destruct (lookup_key k kvs) as [[]|] eqn:E; try done. intros [= ->].
  apply lookup_key_elem in E. by apply Hwf in E as [_ ?].
Qed.

Lemma json_wf_nodup kvs : json_wf (JObj kvs) → NoDup (fst <$> kvs).
Proof. rewrite json_wf_obj. by intros [? _]. Qed.

Lemma norm_obj kvs : norm (JObj kvs) = JObj (norm_entries kvs).
Proof. done. Qed.

Lemma norm_entries_idemp kvs : norm_entries (norm_entries kvs) = norm_entries kvs.
Proof. pose proof (norm_idemp (JObj kvs)) as H. rewrite !norm_obj in H. by injection H. Qed.

Lemma norm_entries_wf kvs : json_wf (JObj kvs) → json_wf (JObj (norm_entries kvs)).
Proof. apply (norm_wf (JObj kvs)). Qed.

(** Reading what an accepted object holds. *)
Lemma object_field fs kvs k s w :
  accepts_ref (SObject fs) (JObj kvs) = true → (k, s) ∈ fs → lookup_key k kvs = Some w →
  accepts_ref s w = true.
Proof.
  cbn [accepts_ref]. intros [_ H]%andb_true_iff Hin Hk.
  eapply forallb_elem in H; [|exact Hin]. cbn in H. by rewrite Hk in H.
Qed.

(** A required field of an accepted object is present. *)
Lemma object_field_present fs kvs k s :
  accepts_ref (SObject fs) (JObj kvs) = true → (k, s) ∈ fs → absent_ok s = false →
  ∃ w, lookup_key k kvs = Some w ∧ accepts_ref s w = true.
Proof.
  cbn [accepts_ref]. intros [_ H]%andb_true_iff Hin Habs.
  eapply forallb_elem in H; [|exact Hin]. cbn in H.
  destruct (lookup_key k kvs); [eauto|congruence].
Qed.

(** ** Limits under normalisation *)

Lemma json_nodes_norm v : json_nodes (norm v) = json_nodes v.
Proof.
  induction v as [|b|n|s|l IH|kvs IH] using json_ind'; cbn [norm json_nodes]; try done.
  - rewrite Forall_forall in IH. f_equal.
    change (norm <$> l) with (map norm l). rewrite zsum_map. by apply zsum_ext.
  - rewrite Forall_forall in IH. f_equal.
    rewrite (zsum_perm _ _ _ (sort_by_perm key_le _)), zsum_map.
    apply zsum_ext. intros x Hx. cbn. by rewrite IH.
Qed.

Lemma within_norm L d v : within L d (norm v) = within L d v.
Proof.
  revert d. induction v as [|b|n|s|l IH|kvs IH] using json_ind'; intros d; cbn [norm within]; try done.
  - rewrite Forall_forall in IH. rewrite length_fmap. do 2 f_equal. rewrite forallb_fmap.
    apply forallb_ext_in. intros; by apply IH.
  - rewrite Forall_forall in IH. f_equal.
    rewrite (forallb_perm _ _ _ (sort_by_perm key_le _)).
    unfold entries_supported. rewrite sort_by_length, length_map.
    rewrite (forallb_perm _ _ _ (sort_by_perm key_le _)).
    change (map ?f kvs) with (f <$> kvs). rewrite !forallb_fmap. f_equal.
    apply forallb_ext_in. intros x Hx. cbn. by apply IH.
Qed.

Lemma json_within_norm L v : json_within L (norm v) = json_within L v.
Proof. unfold json_within. by rewrite within_norm, json_nodes_norm, json_bytes_norm. Qed.

(** The checker's verdict, as a boolean. *)
Lemma limits_Ok v L m :
  JsonLimits.assertJsonWithinLimits v L = Ok m → json_within L v = true ∧ limits_valid L = true.
Proof. intros H. apply assertJsonWithinLimits_spec in H. tauto. Qed.

Lemma limits_within v L :
  limits_valid L = true → json_within L v = true →
  JsonLimits.assertJsonWithinLimits v L = Ok (metrics_of v).
Proof. intros. by apply assertJsonWithinLimits_spec. Qed.

(** Part of an object is no longer than the object. *)
Lemma json_bytes_app kvs kvs' : json_bytes (JObj kvs) <= json_bytes (JObj (kvs ++ kvs')).
Proof.
  cbn [json_bytes]. rewrite zsum_app, length_app.
  assert (0 <= zsum (λ kv, byte_length (json_quote kv.1) + 1 + json_bytes kv.2) kvs'); [|lia].
  apply zsum_nonneg. intros x _. pose proof (byte_length_nonneg (json_quote x.1)).
  pose proof (json_bytes_nonneg x.2). lia.
Qed.

(** ** Reading an accepted object

    A strict schema admits no other entries, so an accepted object is, up to
    order, the list of its schema's fields that are present. *)

Definition present_fields (fs : list (jsstring * schema)) (kvs : jobject) : jobject :=
  omap (λ f, (λ w, (f.1, w)) <$> lookup_key f.1 kvs) fs.

Lemma present_fields_cons f fs kvs :
  present_fields (f :: fs) kvs =
    match lookup_key f.1 kvs with
    | Some w => (f.1, w) :: present_fields fs kvs
    | None => present_fields fs kvs
    end.
Proof. unfold present_fields. cbn. by destruct (lookup_key f.1 kvs). Qed.

Lemma elem_of_present_fields fs kvs k w :
  (k, w) ∈ present_fields fs kvs ↔ k ∈ fst <$> fs ∧ lookup_key k kvs = Some w.
Proof.
  unfold present_fields. rewrite list_elem_of_omap. split.
  - intros (f & Hf & H). destruct (lookup_key f.1 kvs) as [w'|] eqn:E; [|done].
    cbn in H. injection H as <- <-. split; [|done]. apply list_elem_of_fmap. eauto.
  - intros [(f & -> & Hf)%list_elem_of_fmap H]. exists f. split; [done|]. by rewrite H.
Qed.

Lemma present_fields_nodup fs kvs : NoDup (fst <$> fs) → NoDup (present_fields fs kvs).
Proof.
  induction fs as [|f fs IH]; cbn [fmap list_fmap]; intros Hnd; [constructor|].
  apply NoDup_cons in Hnd as [Hf Hnd]. rewrite present_fields_cons.
  destruct (lookup_key f.1 kvs) as [w|]; [|auto]. constructor; [|auto].
  rewrite elem_of_present_fields. by intros [? _].
Qed.

Lemma strict_object_entries fs kvs :
  NoDup (fst <$> fs) → NoDup (fst <$> kvs) → accepts_ref (SObject fs) (JObj kvs) = true →
  kvs ≡ₚ present_fields fs kvs.
Proof.
  intros Hfs Hkvs Ha. cbn [accepts_ref] in Ha. apply andb_true_iff in Ha as [Hkeys _].
  apply NoDup_Permutation; [by eapply NoDup_fmap_1|by apply present_fields_nodup|].
  intros [k w]. rewrite elem_of_present_fields, lookup_key_Some by done.
  split; [|by intros [_ ?]]. intros Hin. split; [|done].
  eapply forallb_elem in Hkeys; [|exact Hin]. by apply bool_decide_eq_true in Hkeys.
Qed.

Lemma strict_entries fs kvs :
  accepts_ref (SObject fs) (JObj kvs) = true → NoDup (fst <$> kvs) →
  bool_decide (NoDup (fst <$> fs)) = true → kvs ≡ₚ present_fields fs kvs.
Proof. intros Ha Hkvs Hfs%bool_decide_eq_true. by apply strict_object_entries. Qed.

(** The shape of accepted leaves. *)

Lemma accepts_string_inv cs w :
  accepts_ref (SString cs) w = true → ∃ s, w = JStr s ∧ forallb (run_string_check s) cs = true.
Proof. cbn. destruct w; try done. eauto. Qed.

Lemma accepts_number_inv cs w :
  encodable w = true → accepts_ref (SNumber cs) w = true →
  ∃ z, w = jint z ∧ forallb (run_number_check (NInt z)) cs = true ∧ is_safe_integer z = true.
Proof. cbn. destruct w as [| |[z| |]| | |]; try done. eauto. Qed.

Lemma accepts_nullable_inv s w :
  accepts_ref (SNullable s) w = true → w = JNull ∨ accepts_ref s w = true.
Proof. cbn. destruct w; auto. Qed.

Lemma accepts_literal_inv v w : accepts_ref (SLiteral v) w = true → w = v.
Proof. cbn. by intros H%bool_decide_eq_true. Qed.

Lemma accepts_object_inv fs w :
  accepts_ref (SObject fs) w = true → ∃ kvs, w = JObj kvs.
Proof. cbn. destruct w; try done. eauto. Qed.

Lemma accepts_inert_inv w : accepts_ref jsonObjectSchema w = true → ∃ kvs, w = JObj kvs.
Proof. cbn. destruct w; try done. eauto. Qed.

Lemma accepts_boolean_inv w : accepts_ref SBoolean w = true → ∃ b, w = JBool b.
Proof. cbn. destruct w; try done. eauto. Qed.

(** A required field, with what its schema says of it. *)
Lemma required_field fs kvs k s :
  accepts_ref (SObject fs) (JObj kvs) = true → lookup_key k fs = Some s → absent_ok s = false →
  encodable (JObj kvs) = true →
  ∃ w, lookup_key k kvs = Some w ∧ accepts_ref s w = true ∧ encodable w = true.
Proof.
  intros Ha Hk Hab He. apply lookup_key_elem in Hk.
  destruct (object_field_present _ _ _ _ Ha Hk Hab) as (w & Hw & Hs).
  exists w. split_and!; [done..|]. apply lookup_key_elem in Hw.
  cbn [encodable] in He. eapply forallb_elem in He; [|exact Hw]. by apply andb_true_iff in He as [_ ?].
Qed.

Lemma optional_field fs kvs k s w :
  accepts_ref (SObject fs) (JObj kvs) = true → lookup_key k fs = Some s →
  encodable (JObj kvs) = true → lookup_key k kvs = Some w →
  accepts_ref s w = true ∧ encodable w = true.
Proof.
  intros Ha Hk He Hw. apply lookup_key_elem in Hk. split; [by eapply object_field|].
  apply lookup_key_elem in Hw. cbn [encodable] in He.
  eapply forallb_elem in He; [|exact Hw]. by apply andb_true_iff in He as [_ ?].
Qed.

(** Two objects whose entries agree key by key up to entry order. *)
Lemma norm_entries_agree (k1 k2 k3 : jobject) :
  json_wf (JObj k1) → k1 ≡ₚ k2 →
  Forall2 (λ a b, a.1 = b.1 ∧ norm a.2 = norm b.2) k2 k3 →
  norm (JObj k1) = norm (JObj k3).
Proof.
  intros Hwf Hp Hf. transitivity (norm (JObj k2)).
  { apply norm_perm; [done|]. apply (JP_obj k1 k1); [|done].
    apply Forall2_same_length_lookup_2; [done|]. intros i x y Hx Hy.
    rewrite Hx in Hy. injection Hy as <-. split; [done|constructor]. }
  rewrite !norm_obj. f_equal. unfold norm_entries. f_equal.
  clear - Hf. induction Hf as [|a b l l' [Hk Hn] _ IH]; cbn [map]; [done|]. by rewrite Hk, Hn, IH.
Qed.

Lemma norm_permuted (k1 k2 : jobject) :
  json_wf (JObj k1) → k1 ≡ₚ k2 → norm (JObj k1) = norm (JObj k2).
Proof.
  intros Hwf Hp. eapply norm_entries_agree; [done|exact Hp|].
  apply Forall2_same_length_lookup_2; [done|]. intros i x y Hx Hy.
  rewrite Hx in Hy. by injection Hy as <-.
Qed.

(** Take a required field out of an accepted object. *)
Ltac take_field Ha He k w E Hw Hew :=
  destruct (required_field _ _ (js k) _ Ha ltac:(vm_compute; reflexivity)
    ltac:(reflexivity) He) as (w & E & Hw & Hew).

(** Extending a strict schema and its object with fresh fields. *)
Lemma lookup_key_app {A} k (l1 l2 : list (jsstring * A)) :
  lookup_key k (l1 ++ l2) =
    match lookup_key k l1 with Some v => Some v | None => lookup_key k l2 end.
Proof.
  induction l1 as [|kv l1 IH]; [done|]. cbn [app]. rewrite !lookup_key_cons. by case_decide.
Qed.

Lemma lookup_key_None {A} k (l : list (jsstring * A)) :
  k ∉ fst <$> l → lookup_key k l = None.
Proof.
  intros Hk. destruct (lookup_key k l) as [v|] eqn:E; [|done].
  apply lookup_key_elem in E. destruct Hk. apply list_elem_of_fmap. by exists (k, v).
Qed.

Lemma accepts_extend fs1 fs2 k1 k2 :
  accepts_ref (SObject fs1) (JObj k1) = true → accepts_ref (SObject fs2) (JObj k2) = true →
  bool_decide (Forall (λ k, k ∉ fst <$> fs1) (fst <$> k2)) = true →
  bool_decide (Forall (λ k, k ∉ fst <$> fs2) (fst <$> k1)) = true →
  accepts_ref (SObject (fs1 ++ fs2)) (JObj (k1 ++ k2)) = true.
Proof.
  cbn [accepts_ref]. rewrite !andb_true_iff, !forallb_app, !andb_true_iff.
  intros [Hk1 Hf1] [Hk2 Hf2] D1%bool_decide_eq_true D2%bool_decide_eq_true.
  rewrite Forall_forall in D1. rewrite Forall_forall in D2. split_and!.
  - apply forallb_forall. intros kv Hkv%list_elem_of_In. eapply forallb_elem in Hk1; [|exact Hkv].
    apply bool_decide_eq_true in Hk1. apply bool_decide_eq_true. rewrite fmap_app, elem_of_app. by left.
  - apply forallb_forall. intros kv Hkv%list_elem_of_In. eapply forallb_elem in Hk2; [|exact Hkv].
    apply bool_decide_eq_true in Hk2. apply bool_decide_eq_true. rewrite fmap_app, elem_of_app. by right.
  - apply forallb_forall. intros f Hf%list_elem_of_In. pose proof Hf as Hin.
    eapply forallb_elem in Hf1; [|exact Hf]. rewrite lookup_key_app.
    destruct (lookup_key f.1 k1); [done|]. rewrite (lookup_key_None f.1 k2); [done|].
    intros Hk. apply (D1 _ Hk). apply list_elem_of_fmap. eauto.
  - apply forallb_forall. intros f Hf%list_elem_of_In. pose proof Hf as Hin.
    eapply forallb_elem in Hf2; [|exact Hf]. rewrite lookup_key_app.
    rewrite (lookup_key_None f.1 k1); [done|].
    intros Hk. apply (D2 _ Hk). apply list_elem_of_fmap. eauto.
Qed.
