(* ===== verification/Event.v ===== *)
(** * Events ([src/core/event.ts])

    The event envelope: drafts, captured and stored events as records with their
    JSON form, the strict schemas, the capture-boundary validators, and the hash
    chain with its verification.  [assertSchemaPrototypeSafety] guards the global
    [Object.prototype], which a tree does not have, and is not modelled. *)
From S2P Require Import Prelude JsString JsNumber Json JsonLimits JsonParse JsonClaims Hash Zod.
From S2P Require Import JsonObject.

(** ** Types *)

Record ProviderIdentity : Type := {
  p_provider : jsstring;
  p_recordId : jsstring;
  p_revisionId : jsstring;
  p_artifactHash : jsstring
}.

(** [envelopeVersion] is always the literal 2. *)
Record EventDraft : Type := {
  d_type : jsstring;
  d_schemaVersion : Z;
  d_source : jsstring;
  d_subject : jsstring;
  d_occurredAtMs : option Z;
  d_correlationId : jsstring;
  d_causationId : option jsstring;
  d_provider : ProviderIdentity;
  d_payload : jobject
}.

Record CapturedEvent : Type := {
  c_draft :> EventDraft;
  c_eventId : jsstring;
  c_streamVersion : jsstring;
  c_receivedAtMs : Z;
  c_logicalAtMs : Z
}.

Record StoredEvent : Type := {
  s_captured :> CapturedEvent;
  s_position : jsstring;
  s_contentHash : jsstring;
  s_previousEventHash : jsstring;
  s_eventHash : jsstring
}.

Inductive disposition : Type := Appended | Redelivery.

Record AppendResult : Type := { ar_event : StoredEvent; ar_disposition : disposition }.

Record EventPage : Type := {
  pg_events : list StoredEvent;
  pg_nextPosition : jsstring;
  pg_hasMore : bool
}.

#[export] Instance ProviderIdentity_eq_dec : EqDecision ProviderIdentity.
Proof. solve_decision. Defined.
#[export] Instance EventDraft_eq_dec : EqDecision EventDraft.
Proof. solve_decision. Defined.
#[export] Instance CapturedEvent_eq_dec : EqDecision CapturedEvent.
Proof. solve_decision. Defined.
#[export] Instance StoredEvent_eq_dec : EqDecision StoredEvent.
Proof. solve_decision. Defined.

(** ** Limits *)

Definition EVENT_PAYLOAD_LIMITS : JsonLimits := {|
  maxDepth := 32;
  maxNodes := 50000;
  maxArrayLength := 10000;
  maxObjectKeys := 10000;
  maxStringBytes := 256 * 1024;
  maxCanonicalBytes := 1024 * 1024
|}.

Definition EVENT_ENVELOPE_LIMITS : JsonLimits := {|
  maxDepth := maxDepth EVENT_PAYLOAD_LIMITS + 1;
  maxNodes := maxNodes EVENT_PAYLOAD_LIMITS + 32;
  maxArrayLength := maxArrayLength EVENT_PAYLOAD_LIMITS;
  maxObjectKeys := maxObjectKeys EVENT_PAYLOAD_LIMITS;
  maxStringBytes := maxStringBytes EVENT_PAYLOAD_LIMITS;
  maxCanonicalBytes := maxCanonicalBytes EVENT_PAYLOAD_LIMITS + 16384
|}.

(** ** Schemas *)

Definition providerIdentitySchema : schema := SObject
  [(js "provider", identifier); (js "recordId", identifier); (js "revisionId", identifier);
   (js "artifactHash", hash)].

Definition eventDraftShape : list (jsstring * schema) :=
  [(js "envelopeVersion", SLiteral (jint 2));
   (js "type", identifier);
   (js "schemaVersion", SNumber [CInt; CPositive; CSafe]);
   (js "source", identifier);
   (js "subject", identifier);
   (js "occurredAtMs", SNullable epochMs);
   (js "correlationId", identifier);
   (js "causationId", SOptional identifier);
   (js "provider", providerIdentitySchema);
   (js "payload", jsonObjectSchema)].

Definition eventDraftSchema : schema := SObject eventDraftShape.

Definition capturedEventShape : list (jsstring * schema) :=
  eventDraftShape ++
  [(js "eventId", hash); (js "streamVersion", positiveDecimal); (js "receivedAtMs", epochMs);
   (js "logicalAtMs", epochMs)].

Definition storedEventSchema : schema := SObject
  (capturedEventShape ++
  [(js "position", positiveDecimal); (js "contentHash", hash); (js "previousEventHash", hash);
   (js "eventHash", hash)]).

(** ** The JSON form of the records *)

Definition provider_json (p : ProviderIdentity) : json := JObj
  [(js "provider", JStr (p_provider p)); (js "recordId", JStr (p_recordId p));
   (js "revisionId", JStr (p_revisionId p)); (js "artifactHash", JStr (p_artifactHash p))].

(** [draftFromStored] as an object: [causationId] is set only when defined. *)
Definition draft_fields (d : EventDraft) : jobject :=
  [(js "envelopeVersion", jint 2);
   (js "type", JStr (d_type d));
   (js "schemaVersion", jint (d_schemaVersion d));
   (js "source", JStr (d_source d));
   (js "subject", JStr (d_subject d));
   (js "occurredAtMs", jnull jint (d_occurredAtMs d));
   (js "correlationId", JStr (d_correlationId d));
   (js "provider", provider_json (d_provider d));
   (js "payload", JObj (d_payload d))]
  ++ opt_field (js "causationId") (d_causationId d).

Definition captured_fields (c : CapturedEvent) : jobject :=
  draft_fields c ++
  [(js "eventId", JStr (c_eventId c));
   (js "streamVersion", JStr (c_streamVersion c));
   (js "receivedAtMs", jint (c_receivedAtMs c));
   (js "logicalAtMs", jint (c_logicalAtMs c))].

Definition stored_fields (e : StoredEvent) : jobject :=
  captured_fields e ++
  [(js "position", JStr (s_position e));
   (js "contentHash", JStr (s_contentHash e));
   (js "previousEventHash", JStr (s_previousEventHash e));
   (js "eventHash", JStr (s_eventHash e))].

Definition draft_json (d : EventDraft) : json := JObj (draft_fields d).
Definition stored_json (e : StoredEvent) : json := JObj (stored_fields e).

Definition provider_of (kvs : jobject) : option ProviderIdentity :=
  p ← get_str (js "provider") kvs;
  r ← get_str (js "recordId") kvs;
  v ← get_str (js "revisionId") kvs;
  a ← get_str (js "artifactHash") kvs;
  Some {| p_provider := p; p_recordId := r; p_revisionId := v; p_artifactHash := a |}.

Definition draft_of (kvs : jobject) : option EventDraft :=
  t ← get_str (js "type") kvs;
  sv ← get_int (js "schemaVersion") kvs;
  src ← get_str (js "source") kvs;
  sub ← get_str (js "subject") kvs;
  occ ← get_null get_int (js "occurredAtMs") kvs;
  cor ← get_str (js "correlationId") kvs;
  cau ← get_opt get_str (js "causationId") kvs;
  prov ← (get_obj (js "provider") kvs ≫= provider_of);
  pay ← get_obj (js "payload") kvs;
  Some {| d_type := t; d_schemaVersion := sv; d_source := src; d_subject := sub;
          d_occurredAtMs := occ; d_correlationId := cor; d_causationId := cau;
          d_provider := prov; d_payload := pay |}.

Definition captured_of (kvs : jobject) : option CapturedEvent :=
  d ← draft_of kvs;
  i ← get_str (js "eventId") kvs;
  v ← get_str (js "streamVersion") kvs;
  r ← get_int (js "receivedAtMs") kvs;
  l ← get_int (js "logicalAtMs") kvs;
  Some {| c_draft := d; c_eventId := i; c_streamVersion := v; c_receivedAtMs := r;
          c_logicalAtMs := l |}.

Definition stored_of (kvs : jobject) : option StoredEvent :=
  c ← captured_of kvs;
  p ← get_str (js "position") kvs;
  h ← get_str (js "contentHash") kvs;
  q ← get_str (js "previousEventHash") kvs;
  e ← get_str (js "eventHash") kvs;
  Some {| s_captured := c; s_position := p; s_contentHash := h; s_previousEventHash := q;
          s_eventHash := e |}.

(** [parsed.payload] of an object that passed the schema. *)
Definition payload_of (v : json) : res json :=
  or_throw (as_obj v ≫= lookup_key (js "payload")) (TypeError "payload").

(** ** Validators *)

Section validators.
Context `{Zod}.

Definition parseEventDraft (value : json) : res EventDraft :=
  let* snapshot := inertJsonSnapshot value in
  let* parsed := parse eventDraftSchema snapshot in
  let* payload := payload_of parsed in
  do! assertJsonWithinLimits payload EVENT_PAYLOAD_LIMITS ;;
  let* copy := cloneJson parsed in
  or_throw (as_obj copy ≫= draft_of) ZodError.

Definition parseStoredEvent (value : json) : res StoredEvent :=
  let* snapshot := inertJsonSnapshot value in
  let* parsed := parse storedEventSchema snapshot in
  let* payload := payload_of parsed in
  do! assertJsonWithinLimits payload EVENT_PAYLOAD_LIMITS ;;
  do! canonicalJson parsed ;;
  let* copy := cloneJson parsed in
  or_throw (as_obj copy ≫= stored_of) ZodError.

Definition validateEventDraft (value : json) : res EventDraft :=
  do! assertJsonWithinLimits value EVENT_ENVELOPE_LIMITS ;;
  parseEventDraft value.

Definition validateEventDraftJson (serialized : jsstring) : res EventDraft :=
  let* value := parseJsonWithinLimits serialized EVENT_ENVELOPE_LIMITS in
  parseEventDraft value.

Definition validateStoredEvent (value : json) : res StoredEvent :=
  do! assertJsonWithinLimits value EVENT_ENVELOPE_LIMITS ;;
  parseStoredEvent value.

Definition validateStoredEventJson (serialized : jsstring) : res StoredEvent :=
  let* value := parseJsonWithinLimits serialized EVENT_ENVELOPE_LIMITS in
  parseStoredEvent value.
End validators.

(** ** Identities and hashes *)

Section hashes.
Context `{Sha256}.

Definition providerKey (identity : ProviderIdentity) : res jsstring :=
  canonicalHash (js "peas/provider-identity/v1") (JObj
    [(js "provider", JStr (p_provider identity)); (js "recordId", JStr (p_recordId identity));
     (js "revisionId", JStr (p_revisionId identity))]).

Definition deriveEventId (identity : ProviderIdentity) : res jsstring :=
  canonicalHash (js "peas/local-event-id/v2") (JObj
    [(js "provider", JStr (p_provider identity)); (js "recordId", JStr (p_recordId identity));
     (js "revisionId", JStr (p_revisionId identity));
     (js "artifactHash", JStr (p_artifactHash identity))]).

Definition draftFromStored (event : StoredEvent) : EventDraft := c_draft (s_captured event).

Definition capturedContent (event : CapturedEvent) : json := JObj (captured_fields event).

Definition computeContentHash (event : CapturedEvent) : res jsstring :=
  canonicalHash (js "peas/event-content/v2") (capturedContent event).

(** The fields of [Omit<StoredEvent, "eventHash">] the chain hash covers. *)
Definition chain_json (position contentHash previousEventHash : jsstring) : json := JObj
  [(js "position", JStr position); (js "contentHash", JStr contentHash);
   (js "previousEventHash", JStr previousEventHash)].

Definition computeEventHash (position contentHash previousEventHash : jsstring) : res jsstring :=
  canonicalHash (js "peas/event-chain/v2") (chain_json position contentHash previousEventHash).

Context `{Zod}.

Definition verifyStoredEvent (event : StoredEvent) (expectedPreviousHash : option jsstring) :
    res unit :=
  let* validated := validateStoredEvent (stored_json event) in
  guard! (match expectedPreviousHash with
          | Some expected => negb (bool_decide (s_previousEventHash validated = expected))
          | None => false
          end) throws Error "Event chain mismatch" ;;
  let* eventId := deriveEventId (d_provider validated) in
  guard! negb (bool_decide (c_eventId validated = eventId)) throws Error "Event ID mismatch" ;;
  let* contentHash := computeContentHash validated in
  guard! negb (bool_decide (s_contentHash validated = contentHash))
    throws Error "Content hash mismatch" ;;
  let* eventHash := computeEventHash (s_position validated) (s_contentHash validated)
    (s_previousEventHash validated) in
  throw_if (negb (bool_decide (s_eventHash validated = eventHash))) (Error "Event hash mismatch").

Definition verifyEventPage (events : list StoredEvent) (previousHash : jsstring) : res jsstring :=
  res_fold (λ expectedPreviousHash event,
    do! verifyStoredEvent event (Some expectedPreviousHash) ;;
    Ok (s_eventHash event)) previousHash events.
End hashes.

(** A page limit is an integer between 1 and 10,000. *)
Definition assertPageLimit (limit : jsnum) : res Z :=
  match limit with
  | NInt n =>
      if negb (is_safe_integer n) || (n <? 1) || (10000 <? n)
      then Throw (RangeError "Page limit must be an integer between 1 and 10,000")
      else Ok n
  | _ => Throw (RangeError "Page limit must be an integer between 1 and 10,000")
  end.
