(* ===== verification/EventFacts.v ===== *)
(** * Facts about events

    What the validators of [Event] accept and return, in terms of the records:
    [draft_ok] and [stored_ok] are the accepted records, and a validator returns
    its argument with the payload in normal form. *)
From S2P Require Import Prelude JsString JsNumber Json JsonLimits JsonParse JsonClaims Hash Zod.
From S2P Require Import JsonObject Event.

(** The record with its payload's entries in key order. *)
Definition norm_draft (d : EventDraft) : EventDraft := {|
  d_type := d_type d; d_schemaVersion := d_schemaVersion d; d_source := d_source d;
  d_subject := d_subject d; d_occurredAtMs := d_occurredAtMs d;
  d_correlationId := d_correlationId d; d_causationId := d_causationId d;
  d_provider := d_provider d; d_payload := norm_entries (d_payload d) |}.

Definition norm_captured (c : CapturedEvent) : CapturedEvent := {|
  c_draft := norm_draft c; c_eventId := c_eventId c; c_streamVersion := c_streamVersion c;
  c_receivedAtMs := c_receivedAtMs c; c_logicalAtMs := c_logicalAtMs c |}.

Definition norm_stored (e : StoredEvent) : StoredEvent := {|
  s_captured := norm_captured e; s_position := s_position e; s_contentHash := s_contentHash e;
  s_previousEventHash := s_previousEventHash e; s_eventHash := s_eventHash e |}.

Lemma norm_draft_idemp d : norm_draft (norm_draft d) = norm_draft d.
Proof. unfold norm_draft. f_equal. apply norm_entries_idemp. Qed.

Lemma norm_stored_idemp e : norm_stored (norm_stored e) = norm_stored e.
Proof. unfold norm_stored, norm_captured. f_equal. f_equal. apply norm_draft_idemp. Qed.

(** What a JavaScript record of this type satisfies by itself. *)
Definition draft_wf (d : EventDraft) : Prop := json_wf (draft_json d).
Definition stored_wf (e : StoredEvent) : Prop := json_wf (stored_json e).

(** ** Reading back what was written *)

Lemma provider_of_json p : as_obj (provider_json p) ≫= provider_of = Some p.
Proof. by destruct p. Qed.

Ltac read_fields := vm_compute; reflexivity.

Lemma draft_of_fields d : draft_of (draft_fields d) = Some d.
Proof. destruct d as [? ? ? ? [] ? [] [] ?]; read_fields. Qed.

Lemma captured_of_fields c : captured_of (captured_fields c) = Some c.
Proof. destruct c as [[? ? ? ? [] ? [] [] ?] ? ? ? ?]; read_fields. Qed.

Lemma stored_of_fields e : stored_of (stored_fields e) = Some e.
Proof. destruct e as [[[? ? ? ? [] ? [] [] ?] ? ? ? ?] ? ? ? ?]; read_fields. Qed.

(** Reading commutes with normalisation. *)

Lemma provider_of_norm kvs : NoDup (fst <$> kvs) → provider_of (norm_entries kvs) = provider_of kvs.
Proof. intros H. unfold provider_of. by rewrite !get_str_norm. Qed.

Lemma draft_of_norm kvs :
  json_wf (JObj kvs) → draft_of (norm_entries kvs) = norm_draft <$> draft_of kvs.
Proof.
  intros Hwf. pose proof (json_wf_nodup _ Hwf) as Hnd. unfold draft_of.
  rewrite !get_str_norm, get_int_norm, get_null_int_norm, get_opt_str_norm, !get_obj_norm by done.
  assert (Hp : (norm_entries <$> get_obj (js "provider") kvs) ≫= provider_of =
    get_obj (js "provider") kvs ≫= provider_of).
  { destruct (get_obj (js "provider") kvs) as [o|] eqn:E; [|done]. cbn.
    apply provider_of_norm. eapply json_wf_nodup, json_wf_get_obj; done. }
  rewrite Hp.
  repeat match goal with
  | |- context [?x ≫= _] => destruct x; cbn [mbind option_bind fmap option_fmap option_map]; [|done]
  end.
  by destruct (get_obj (js "payload") kvs).
Qed.

Lemma captured_of_norm kvs :
  json_wf (JObj kvs) → captured_of (norm_entries kvs) = norm_captured <$> captured_of kvs.
Proof.
  intros Hwf. pose proof (json_wf_nodup _ Hwf) as Hnd. unfold captured_of.
  rewrite draft_of_norm, !get_str_norm, !get_int_norm by done.
  destruct (draft_of kvs); cbn; [|done].
  by repeat match goal with |- context [?x ≫= _] => destruct x; cbn; [|done] end.
Qed.

Lemma stored_of_norm kvs :
  json_wf (JObj kvs) → stored_of (norm_entries kvs) = norm_stored <$> stored_of kvs.
Proof.
  intros Hwf. pose proof (json_wf_nodup _ Hwf) as Hnd. unfold stored_of.
  rewrite captured_of_norm, !get_str_norm by done.
  destruct (captured_of kvs); cbn; [|done].
  by repeat match goal with |- context [?x ≫= _] => destruct x; cbn; [|done] end.
Qed.

(** Writing commutes with normalisation. *)
Lemma norm_stored_json e : norm (stored_json (norm_stored e)) = norm (stored_json e).
Proof.
  assert (E : norm (JObj (norm_entries (d_payload e))) = norm (JObj (d_payload e)))
    by by rewrite !norm_obj, norm_entries_idemp.
  unfold stored_json. rewrite !norm_obj. f_equal. unfold norm_entries at 1 2. f_equal.
  unfold stored_fields, captured_fields, draft_fields. rewrite !map_app. cbn [map fst snd].
  cbn [norm_stored norm_captured norm_draft s_captured c_draft d_payload d_type d_schemaVersion
    d_source d_subject d_occurredAtMs d_correlationId d_causationId d_provider c_eventId
    c_streamVersion c_receivedAtMs c_logicalAtMs s_position s_contentHash s_previousEventHash
    s_eventHash].
  by rewrite E.
Qed.

(** ** The schemas *)

Lemma eventDraftSchema_proper : schema_proper eventDraftSchema.
Proof. cbn. repeat split; try done. by intros []. Qed.

Lemma storedEventSchema_proper : schema_proper storedEventSchema.
Proof. cbn. repeat split; try done. by intros []. Qed.

(** Records the validators accept. *)
Definition draft_ok (d : EventDraft) : bool :=
  json_within EVENT_ENVELOPE_LIMITS (draft_json d) &&
  accepts_ref eventDraftSchema (draft_json d) &&
  json_within EVENT_PAYLOAD_LIMITS (JObj (d_payload d)).

Definition stored_ok (e : StoredEvent) : bool :=
  json_within EVENT_ENVELOPE_LIMITS (stored_json e) &&
  accepts_ref storedEventSchema (stored_json e) &&
  json_within EVENT_PAYLOAD_LIMITS (JObj (d_payload e)).

Lemma payload_limits_valid : limits_valid EVENT_PAYLOAD_LIMITS = true.
Proof. done. Qed.
Lemma envelope_limits_valid : limits_valid EVENT_ENVELOPE_LIMITS = true.
Proof. done. Qed.

(** The payload the checker sees. *)
Lemma payload_of_draft kvs d :
  json_wf (JObj kvs) → draft_of kvs = Some d →
  payload_of (norm (JObj kvs)) = Ok (norm (JObj (d_payload d))).
Proof.
  intros Hwf Hd. pose proof (json_wf_nodup _ Hwf) as Hnd. unfold payload_of. rewrite norm_obj.
  cbn [as_obj mbind option_bind]. rewrite lookup_key_norm by done.
  assert (Hp : get_obj (js "payload") kvs = Some (d_payload d)).
  { unfold draft_of in Hd.
    repeat match type of Hd with (?x ≫= _) = _ => destruct x eqn:?; cbn [mbind option_bind] in Hd; [|done] end.
    by injection Hd as <-. }
  unfold get_obj in Hp. destruct (lookup_key (js "payload") kvs) as [[]|]; try done.
  by injection Hp as ->.
Qed.

Lemma draft_of_stored kvs e : stored_of kvs = Some e → draft_of kvs = Some (c_draft e).
Proof.
  unfold stored_of, captured_of. intros H.
  repeat match type of H with ((?x ≫= _) ≫= _) = _ => destruct x eqn:?; cbn [mbind option_bind] in H; [|done] end.
  cbn [mbind option_bind] in H.
  repeat match type of H with (?x ≫= _) = _ => destruct x eqn:?; cbn [mbind option_bind] in H; [|done] end.
  by injection H as <-.
Qed.

Section validators.
Context `{Zod}.

Lemma validateEventDraft_spec d d' :
  draft_wf d →
  validateEventDraft (draft_json d) = Ok d' ↔ draft_ok d = true ∧ d' = norm_draft d.
Proof.
  intros Hwf. unfold validateEventDraft, parseEventDraft, draft_ok.
  rewrite !andb_true_iff. unfold draft_wf, draft_json in *.
  pose proof (payload_of_draft _ _ Hwf (draft_of_fields d)) as Hpay.
  pose proof (draft_of_norm _ Hwf) as Hof. rewrite draft_of_fields in Hof.
  cbn [fmap option_fmap option_map] in Hof.
  split.
  - intros Hv. inv_res. destruct (limits_Ok _ _ _ Hv0) as [Hlim _].
    apply inertJsonSnapshot_spec in Hv1 as [He ->]; [|done].
    apply parse_Ok in Hv2 as [Hacc ->]. rewrite accepts_norm in Hacc; [|apply eventDraftSchema_proper|done].
    rewrite Hpay in Hv3. apply Ok_inj in Hv3 as <-.
    destruct (limits_Ok _ _ _ Hv4) as [Hpl _]. rewrite json_within_norm in Hpl.
    apply cloneJson_spec in Hv5 as [_ ->]; [|by apply norm_wf].
    rewrite norm_idemp, norm_obj in Hv. cbn [as_obj mbind option_bind] in Hv.
    rewrite Hof in Hv. injection Hv as <-. done.
  - intros [[[Hlim Hacc] Hpl] ->].
    rewrite (limits_within _ _ envelope_limits_valid Hlim). cbn [mbind res_bind].
    pose proof (json_within_encodable _ _ Hlim) as He.
    rewrite (proj2 (inertJsonSnapshot_spec _ _ Hwf) (conj He eq_refl)). cbn [mbind res_bind].
    rewrite (proj2 (parse_Ok _ _ _)) by
      (split; [by rewrite accepts_norm; [|apply eventDraftSchema_proper|]|reflexivity]).
    cbn [mbind res_bind]. rewrite Hpay. cbn [mbind res_bind].
    rewrite <-json_within_norm in Hpl.
    rewrite (limits_within _ _ payload_limits_valid Hpl). cbn [mbind res_bind].
    rewrite (proj2 (cloneJson_spec _ _ (norm_wf _ Hwf)) (conj (eq_trans (norm_encodable _) He) eq_refl)).
    cbn [mbind res_bind]. rewrite norm_idemp, norm_obj. cbn [as_obj mbind option_bind].
    by rewrite Hof.
Qed.

Lemma validateStoredEvent_spec e e' :
  stored_wf e →
  validateStoredEvent (stored_json e) = Ok e' ↔ stored_ok e = true ∧ e' = norm_stored e.
Proof.
  intros Hwf. unfold validateStoredEvent, parseStoredEvent, stored_ok.
  rewrite !andb_true_iff. unfold stored_wf, stored_json in *.
  pose proof (payload_of_draft _ _ Hwf (draft_of_stored _ _ (stored_of_fields e))) as Hpay.
  pose proof (stored_of_norm _ Hwf) as Hof. rewrite stored_of_fields in Hof.
  cbn [fmap option_fmap option_map] in Hof.
  split.
  - intros Hv. inv_res. destruct (limits_Ok _ _ _ Hv0) as [Hlim _].
    apply inertJsonSnapshot_spec in Hv1 as [He ->]; [|done].
    apply parse_Ok in Hv2 as [Hacc ->]. rewrite accepts_norm in Hacc; [|apply storedEventSchema_proper|done].
    rewrite Hpay in Hv3. apply Ok_inj in Hv3 as <-.
    destruct (limits_Ok _ _ _ Hv4) as [Hpl _]. rewrite json_within_norm in Hpl.
    apply cloneJson_spec in Hv6 as [_ ->]; [|by apply norm_wf].
    rewrite norm_idemp, norm_obj in Hv. cbn [as_obj mbind option_bind] in Hv.
    rewrite Hof in Hv. injection Hv as <-. done.
  - intros [[[Hlim Hacc] Hpl] ->].
    rewrite (limits_within _ _ envelope_limits_valid Hlim). cbn [mbind res_bind].
    pose proof (json_within_encodable _ _ Hlim) as He.
    rewrite (proj2 (inertJsonSnapshot_spec _ _ Hwf) (conj He eq_refl)). cbn [mbind res_bind].
    rewrite (proj2 (parse_Ok _ _ _)) by
      (split; [by rewrite accepts_norm; [|apply storedEventSchema_proper|]|reflexivity]).
    cbn [mbind res_bind]. rewrite Hpay. cbn [mbind res_bind].
    rewrite <-json_within_norm in Hpl.
    rewrite (limits_within _ _ payload_limits_valid Hpl). cbn [mbind res_bind].
    rewrite encode_encodable_Ok by by rewrite norm_encodable. cbn [mbind res_bind].
    rewrite (proj2 (cloneJson_spec _ _ (norm_wf _ Hwf)) (conj (eq_trans (norm_encodable _) He) eq_refl)).
    cbn [mbind res_bind]. rewrite norm_idemp, norm_obj. cbn [as_obj mbind option_bind].
    by rewrite Hof.
Qed.
End validators.

(** ** Reading untrusted input

    An object the draft schema accepts is the JSON form of the draft read from
    it, up to key order. *)

Lemma read_provider v :
  json_wf v → encodable v = true → accepts_ref providerIdentitySchema v = true →
  ∃ kvs p, v = JObj kvs ∧ provider_of kvs = Some p ∧ norm v = norm (provider_json p).
Proof.
  intros Hwf He Ha. destruct (accepts_object_inv _ _ Ha) as [kvs ->]. exists kvs.
  unfold providerIdentitySchema in Ha.
  pose proof (strict_entries _ _ Ha (json_wf_nodup _ Hwf) ltac:(vm_compute; reflexivity)) as Hp.
  take_field Ha He "provider" w1 E1 Hw1 He1. take_field Ha He "recordId" w2 E2 Hw2 He2.
  take_field Ha He "revisionId" w3 E3 Hw3 He3. take_field Ha He "artifactHash" w4 E4 Hw4 He4.
  apply accepts_string_inv in Hw1 as (s1 & -> & _). apply accepts_string_inv in Hw2 as (s2 & -> & _).
  apply accepts_string_inv in Hw3 as (s3 & -> & _). apply accepts_string_inv in Hw4 as (s4 & -> & _).
  exists {| p_provider := s1; p_recordId := s2; p_revisionId := s3; p_artifactHash := s4 |}.
  split; [done|]. split.
  - unfold provider_of, get_str. by rewrite E1, E2, E3, E4.
  - apply norm_permuted; [done|]. rewrite Hp. unfold present_fields. cbn [omap list_omap fst].
    rewrite E1, E2, E3, E4. done.
Qed.

Lemma read_draft v :
  json_wf v → encodable v = true → accepts_ref eventDraftSchema v = true →
  ∃ d, norm v = norm (draft_json d).
Proof.
  intros Hwf He Ha. destruct (accepts_object_inv _ _ Ha) as [kvs ->].
  unfold eventDraftSchema, eventDraftShape in Ha.
  pose proof (strict_entries _ _ Ha (json_wf_nodup _ Hwf) ltac:(vm_compute; reflexivity)) as Hp.
  take_field Ha He "envelopeVersion" w0 E0 Hw0 He0. take_field Ha He "type" w1 E1 Hw1 He1.
  take_field Ha He "schemaVersion" w2 E2 Hw2 He2. take_field Ha He "source" w3 E3 Hw3 He3.
  take_field Ha He "subject" w4 E4 Hw4 He4. take_field Ha He "occurredAtMs" w5 E5 Hw5 He5.
  take_field Ha He "correlationId" w6 E6 Hw6 He6. take_field Ha He "provider" w7 E7 Hw7 He7.
  take_field Ha He "payload" w8 E8 Hw8 He8.
  apply accepts_literal_inv in Hw0 as ->.
  apply accepts_string_inv in Hw1 as (s1 & -> & _).
  apply accepts_number_inv in Hw2 as (z2 & -> & _); [|done].
  apply accepts_string_inv in Hw3 as (s3 & -> & _).
  apply accepts_string_inv in Hw4 as (s4 & -> & _).
  assert (∃ o, w5 = jnull jint o) as [o5 ->].
  { apply accepts_nullable_inv in Hw5 as [->|Hw5]; [by exists None|].
    apply accepts_number_inv in Hw5 as (z & -> & _); [by exists (Some z)|done]. }
  apply accepts_string_inv in Hw6 as (s6 & -> & _).
  assert (Hwf7 : json_wf w7).
  { apply lookup_key_elem in E7. rewrite json_wf_obj in Hwf. by apply Hwf in E7 as [_ ?]. }
  destruct (read_provider w7 Hwf7 He7 Hw7) as (k7 & p & -> & _ & Hn7).
  apply accepts_inert_inv in Hw8 as [k8 ->].
  assert (∃ o, lookup_key (js "causationId") kvs = JStr <$> o) as [o9 E9].
  { destruct (lookup_key (js "causationId") kvs) as [w9|] eqn:E9; [|by exists None].
    destruct (optional_field _ _ (js "causationId") _ _ Ha ltac:(vm_compute; reflexivity) He E9) as [Hw9 _].
    change (accepts_ref identifier w9 = true) in Hw9.
    apply accepts_string_inv in Hw9 as (s & -> & _). by exists (Some s). }
  exists {| d_type := s1; d_schemaVersion := z2; d_source := s3; d_subject := s4;
            d_occurredAtMs := o5; d_correlationId := s6; d_causationId := o9; d_provider := p;
            d_payload := k8 |}.
  unfold draft_json, draft_fields.
  cbn [d_type d_schemaVersion d_source d_subject d_occurredAtMs d_correlationId d_causationId
    d_provider d_payload].
  eapply norm_entries_agree; [done| |].
  - rewrite Hp at 1. unfold present_fields. cbn [omap list_omap fst].
    rewrite E0, E1, E2, E3, E4, E5, E6, E7, E8, E9. cbn [fmap option_fmap option_map].
    instantiate (1 := [(js "envelopeVersion", jint 2); (js "type", JStr s1);
      (js "schemaVersion", jint z2); (js "source", JStr s3); (js "subject", JStr s4);
      (js "occurredAtMs", jnull jint o5); (js "correlationId", JStr s6);
      (js "provider", JObj k7); (js "payload", JObj k8)] ++ opt_field (js "causationId") o9).
    destruct o9 as [s9|]; [|by rewrite app_nil_r].
    cbn [option_map opt_field app]. do 7 constructor.
    change [(js "provider", JObj k7); (js "payload", JObj k8); (js "causationId", JStr s9)]
      with ([(js "provider", JObj k7); (js "payload", JObj k8)] ++ [(js "causationId", JStr s9)]).
    by rewrite Permutation_app_comm.
  - apply Forall2_app.
    + repeat (constructor; [split; [reflexivity|try reflexivity]|]); [exact Hn7|constructor].
    + destruct o9; cbn; repeat constructor.
Qed.

Section untrusted.
Context `{Zod}.

Lemma validateEventDraft_norm v w d :
  json_wf v → json_wf w → norm v = norm w →
  validateEventDraft v = Ok d → validateEventDraft w = Ok d.
Proof.
  intros Hv Hw E. unfold validateEventDraft. intros Hd.
  apply res_bind_Ok in Hd as (m & Hm & Hd). apply limits_Ok in Hm as [Hm _].
  rewrite <-json_within_norm, E, json_within_norm in Hm.
  rewrite (limits_within _ _ envelope_limits_valid Hm). cbn [mbind res_bind].
  unfold parseEventDraft in *. apply res_bind_Ok in Hd as (snap & Hs & Hd).
  apply inertJsonSnapshot_spec in Hs as [He ->]; [|done].
  rewrite (proj2 (inertJsonSnapshot_spec w (norm v) Hw)); [exact Hd|].
  split; [|done]. by rewrite <-norm_encodable, <-E, norm_encodable.
Qed.

(** What the validator returns for any input. *)
Lemma validateEventDraft_untrusted v d :
  json_wf v → validateEventDraft v = Ok d →
  draft_wf d ∧ draft_ok d = true ∧ norm_draft d = d ∧ norm v = norm (draft_json d).
Proof.
  intros Hwf Hv.
  assert (∃ d0, norm v = norm (draft_json d0)) as [d0 E].
  { unfold validateEventDraft, parseEventDraft in Hv.
    apply res_bind_Ok in Hv as (m & _ & Hv). apply res_bind_Ok in Hv as (snap & Hs & Hv).
    apply inertJsonSnapshot_spec in Hs as [He ->]; [|done].
    apply res_bind_Ok in Hv as (p & Hp & _). apply parse_Ok in Hp as [Ha _].
    rewrite accepts_norm in Ha; [|apply eventDraftSchema_proper|done]. by apply read_draft. }
  assert (Hwf0 : draft_wf d0) by (apply norm_wf_inv; rewrite <-E; by apply norm_wf).
  pose proof (validateEventDraft_norm v (draft_json d0) d Hwf Hwf0 E Hv) as Hd.
  apply validateEventDraft_spec in Hd as [Hok ->]; [|done].
  assert (E' : norm (draft_json (norm_draft d0)) = norm (draft_json d0)).
  { assert (Ep : norm (JObj (norm_entries (d_payload d0))) = norm (JObj (d_payload d0)))
      by by rewrite !norm_obj, norm_entries_idemp.
    unfold draft_json, draft_fields. rewrite !norm_obj. f_equal. unfold norm_entries at 1 2. f_equal.
    rewrite !map_app. cbn [map fst snd]. cbn [norm_draft d_payload d_type d_schemaVersion
      d_source d_subject d_occurredAtMs d_correlationId d_causationId d_provider].
    by rewrite Ep. }
  assert (Hwf1 : draft_wf (norm_draft d0)).
  { apply norm_wf_inv. unfold draft_wf in *. rewrite E'. by apply norm_wf. }
  split_and!; [done| |apply norm_draft_idemp|by rewrite E, E'].
  unfold draft_ok in *. rewrite !andb_true_iff in *. destruct Hok as [[H1 H2] H3]. split_and!.
  - by rewrite <-json_within_norm, E', json_within_norm.
  - rewrite <-(accepts_norm _ _ eventDraftSchema_proper Hwf1), E'.
    rewrite (accepts_norm _ _ eventDraftSchema_proper Hwf0). exact H2.
  - cbn [norm_draft d_payload]. rewrite <-json_within_norm.
    rewrite (norm_obj (norm_entries _)), norm_entries_idemp, <-norm_obj, json_within_norm. done.
Qed.
End untrusted.
