(* ===== verification/EventChain.v ===== *)
(** * The event hash chain

    [verifyStoredEvent] and [verifyEventPage] of [src/core/event.ts], reduced to
    the relation [chained], and what the head of a verified chain commits to. *)
From S2P Require Import Prelude JsString JsNumber Json JsonLimits JsonParse JsonClaims Hash Zod.
From S2P Require Import JsonObject Event EventFacts.

(** ** Parts of an object *)

Section sub_object.
Context (ks kvs : jobject) (Hsub : ks ⊆+ kvs).

Lemma sub_object_wf : json_wf (JObj kvs) → json_wf (JObj ks).
Proof using Hsub.
  apply submseteq_Permutation in Hsub as [r Hr]. rewrite !json_wf_obj. intros [Hnd H]. split.
  - rewrite Hr, fmap_app in Hnd. by apply NoDup_app in Hnd as [? _].
  - intros kv Hkv. apply H. rewrite Hr. apply elem_of_app. by left.
Qed.

Lemma sub_object_encodable : encodable (JObj kvs) = true → encodable (JObj ks) = true.
Proof using Hsub.
  apply submseteq_Permutation in Hsub as [r Hr]. cbn [encodable].
  rewrite (forallb_perm _ _ _ Hr), forallb_app. by intros [? _]%andb_true_iff.
Qed.

Lemma sub_object_bytes : json_bytes (JObj ks) <= json_bytes (JObj kvs).
Proof using Hsub.
  apply submseteq_Permutation in Hsub as [r Hr].
  assert (E : json_bytes (JObj kvs) = json_bytes (JObj (ks ++ r))).
  { cbn [json_bytes]. by rewrite (zsum_perm _ _ _ Hr), (Permutation_length Hr). }
  rewrite E. apply json_bytes_app.
Qed.
End sub_object.

Lemma encodable_field kvs k v :
  encodable (JObj kvs) = true → (k, v) ∈ kvs → encodable v = true.
Proof.
  cbn [encodable]. intros H Hin. eapply forallb_elem in H; [|exact Hin].
  by apply andb_true_iff in H as [_ ?].
Qed.

Lemma json_bytes_field kvs k v : (k, v) ∈ kvs → json_bytes v <= json_bytes (JObj kvs).
Proof.
  intros Hin. cbn [json_bytes].
  pose proof (zsum_elem_le (λ kv, byte_length (json_quote kv.1) + 1 + json_bytes kv.2) kvs (k, v)) as H.
  assert (Hn : ∀ y : jsstring * json, y ∈ kvs →
    0 <= byte_length (json_quote y.1) + 1 + json_bytes y.2).
  { intros y _. pose proof (byte_length_nonneg (json_quote y.1)). pose proof (json_bytes_nonneg y.2). lia. }
  specialize (H Hn Hin). cbn [fst snd] in H. pose proof (byte_length_nonneg (json_quote k)). lia.
Qed.

(** A canonical text within the byte limits is short. *)
Lemma print_short v :
  json_wf v → encodable v = true → json_bytes v < 2 ^ 64 → short (utf8 (print (norm v))).
Proof.
  intros Hwf He Hb. unfold short. fold (byte_length (print (norm v))).
  rewrite byte_length_print, json_bytes_norm; [done|by apply norm_wf|by rewrite norm_encodable].
Qed.

Lemma hashable_intro d v :
  units_ok d → scalar_string d = true → short (utf8 d) →
  json_wf v → encodable v = true → json_bytes v < 2 ^ 64 → hashable d v.
Proof. intros. split_and!; try done. by apply print_short. Qed.

(** Equal values have equal fields. *)
Lemma json_equiv_get_str k1 k2 k :
  NoDup (fst <$> k1) → NoDup (fst <$> k2) → json_equiv (JObj k1) (JObj k2) →
  get_str k k1 = get_str k k2.
Proof.
  unfold json_equiv. rewrite !norm_obj. intros H1 H2 [= E].
  rewrite <-(get_str_norm k1), <-(get_str_norm k2) by done. by f_equal.
Qed.

(** Appending the same entries to equal objects. *)
Lemma json_equiv_app k1 k2 r :
  NoDup (fst <$> (k2 ++ r)) → json_equiv (JObj k1) (JObj k2) →
  json_equiv (JObj (k1 ++ r)) (JObj (k2 ++ r)).
Proof.
  unfold json_equiv. rewrite !norm_obj. intros Hnd [= E]. f_equal. unfold norm_entries in *.
  set (f := λ kv : jsstring * json, (kv.1, norm kv.2)) in *.
  assert (Hp : map f (k1 ++ r) ≡ₚ map f (k2 ++ r)).
  { rewrite !map_app. apply Permutation_app_tail.
    by rewrite <-(sort_by_perm key_le (map f k1)), E, sort_by_perm. }
  apply sort_by_perm_eq; [apply key_le_total|apply key_le_trans| |done].
  intros x y Hx Hy. rewrite Hp in Hx, Hy.
  eapply key_le_antisym; [|exact Hx|exact Hy]. by rewrite map_fst_norm.
Qed.

(** ** Verified events *)

Definition id_preimage (p : ProviderIdentity) : list Z :=
  canonical_preimage (js "peas/local-event-id/v2") (provider_json p).
Definition content_preimage (c : CapturedEvent) : list Z :=
  canonical_preimage (js "peas/event-content/v2") (capturedContent c).
Definition chain_preimage (e : StoredEvent) : list Z :=
  canonical_preimage (js "peas/event-chain/v2")
    (chain_json (s_position e) (s_contentHash e) (s_previousEventHash e)).

Lemma captured_sub (e : StoredEvent) : captured_fields e ⊆+ stored_fields e.
Proof. unfold stored_fields. apply submseteq_inserts_r. done. Qed.

Lemma chain_sub (e : StoredEvent) :
  [(js "position", JStr (s_position e)); (js "contentHash", JStr (s_contentHash e));
   (js "previousEventHash", JStr (s_previousEventHash e))] ⊆+ stored_fields e.
Proof.
  unfold stored_fields. apply submseteq_inserts_l.
  do 3 apply submseteq_skip. apply submseteq_nil_l.
Qed.

Lemma provider_field (e : StoredEvent) : (js "provider", provider_json (d_provider e)) ∈ stored_fields e.
Proof.
  unfold stored_fields, captured_fields, draft_fields. rewrite !elem_of_app. left. left. left.
  rewrite !elem_of_cons. tauto.
Qed.

Lemma payload_field (e : StoredEvent) : (js "payload", JObj (d_payload e)) ∈ stored_fields e.
Proof.
  unfold stored_fields, captured_fields, draft_fields. rewrite !elem_of_app. left. left. left.
  rewrite !elem_of_cons. tauto.
Qed.

Section stored_parts.
Context (e : StoredEvent) (Hwf : stored_wf e) (Hok : stored_ok e = true).

Lemma stored_within : json_within EVENT_ENVELOPE_LIMITS (stored_json e) = true.
Proof using Hok. unfold stored_ok in Hok. rewrite !andb_true_iff in Hok. tauto. Qed.

Lemma stored_accepts : accepts_ref storedEventSchema (stored_json e) = true.
Proof using Hok. unfold stored_ok in Hok. rewrite !andb_true_iff in Hok. tauto. Qed.

Lemma stored_payload_within : json_within EVENT_PAYLOAD_LIMITS (JObj (d_payload e)) = true.
Proof using Hok. unfold stored_ok in Hok. rewrite !andb_true_iff in Hok. tauto. Qed.

Lemma stored_encodable : encodable (stored_json e) = true.
Proof using Hok. eapply json_within_encodable, stored_within. Qed.

Lemma stored_bytes : json_bytes (stored_json e) <= 1064960.
Proof using Hok.
  pose proof stored_within as H. unfold json_within in H. bool_prop. done.
Qed.

Lemma content_hashable : hashable (js "peas/event-content/v2") (capturedContent e).
Proof using Hwf Hok.
  pose proof stored_bytes. pose proof (sub_object_bytes _ _ (captured_sub e)) as Hb.
  unfold stored_json in *. apply hashable_intro; [apply js_units|done|by vm_compute| | |].
  - by eapply sub_object_wf; [apply captured_sub|].
  - eapply sub_object_encodable; [apply captured_sub|apply stored_encodable].
  - unfold capturedContent. lia.
Qed.

Lemma chain_hashable :
  hashable (js "peas/event-chain/v2")
    (chain_json (s_position e) (s_contentHash e) (s_previousEventHash e)) ∧
  encodable (chain_json (s_position e) (s_contentHash e) (s_previousEventHash e)) = true.
Proof using Hwf Hok.
  pose proof stored_bytes. pose proof (sub_object_bytes _ _ (chain_sub e)) as Hb.
  pose proof (sub_object_encodable _ _ (chain_sub e) stored_encodable) as He.
  unfold stored_json in *. split; [|exact He].
  apply hashable_intro; [apply js_units|done|by vm_compute| |exact He|unfold chain_json; lia].
  by eapply (sub_object_wf _ _ (chain_sub e)).
Qed.

Lemma content_encodable : encodable (capturedContent e) = true.
Proof using Hok. eapply sub_object_encodable; [apply captured_sub|apply stored_encodable]. Qed.

Lemma provider_encodable : encodable (provider_json (d_provider e)) = true.
Proof using Hok. eapply encodable_field; [apply stored_encodable|apply provider_field]. Qed.

(** The fields' own conditions. *)
Lemma stored_eventHash : is_hash (s_eventHash e) = true.
Proof using Hok.
  pose proof stored_accepts as H.
  eapply (object_field _ _ (js "eventHash") hash (JStr (s_eventHash e))) in H.
  - cbn in H. by rewrite andb_true_r in H.
  - rewrite !elem_of_app. right. rewrite !elem_of_cons. tauto.
  - clear. destruct e as [[[? ? ? ? [] ? [] [] ?] ? ? ? ?] ? ? ? ?]; vm_compute; reflexivity.
Qed.

Lemma stored_position : positive_decimal (s_position e) = true.
Proof using Hok.
  pose proof stored_accepts as H.
  eapply (object_field _ _ (js "position") positiveDecimal (JStr (s_position e))) in H.
  - cbn in H. by rewrite andb_true_r in H.
  - rewrite !elem_of_app. right. rewrite !elem_of_cons. tauto.
  - clear. destruct e as [[[? ? ? ? [] ? [] [] ?] ? ? ? ?] ? ? ? ?]; vm_compute; reflexivity.
Qed.

Lemma stored_logicalAtMs : 0 <= c_logicalAtMs e <= MAX_SAFE_INTEGER.
Proof using Hok.
  pose proof stored_accepts as H.
  eapply (object_field _ _ (js "logicalAtMs") epochMs (jint (c_logicalAtMs e))) in H.
  - cbn [accepts_ref epochMs jint forallb run_number_check] in H. bool_prop.
    match goal with H : is_safe_integer _ = true |- _ => apply is_safe_integer_spec in H end. lia.
  - unfold capturedEventShape. rewrite !elem_of_app. left. right. rewrite !elem_of_cons. tauto.
  - clear. destruct e as [[[? ? ? ? [] ? [] [] ?] ? ? ? ?] ? ? ? ?]; vm_compute; reflexivity.
Qed.
End stored_parts.

(** An event that verifies after the hash [prev]. *)
Definition event_linked `{Sha256} (prev : jsstring) (e : StoredEvent) : Prop :=
  stored_ok e = true ∧ s_previousEventHash e = prev ∧
  c_eventId e = sha256 (id_preimage (d_provider e)) ∧
  s_contentHash e = sha256 (content_preimage e) ∧
  s_eventHash e = sha256 (chain_preimage e).

Lemma norm_capturedContent (e : StoredEvent) :
  norm (capturedContent (norm_stored e)) = norm (capturedContent e).
Proof.
  assert (E : norm (JObj (norm_entries (d_payload e))) = norm (JObj (d_payload e)))
    by by rewrite !norm_obj, norm_entries_idemp.
  unfold capturedContent. rewrite !norm_obj. f_equal. unfold norm_entries at 1 2. f_equal.
  unfold captured_fields, draft_fields. rewrite !map_app. cbn [map fst snd].
  cbn [norm_stored norm_captured norm_draft s_captured c_draft d_payload d_type d_schemaVersion
    d_source d_subject d_occurredAtMs d_correlationId d_causationId d_provider c_eventId
    c_streamVersion c_receivedAtMs c_logicalAtMs].
  by rewrite E.
Qed.

Lemma content_preimage_norm (e : StoredEvent) : content_preimage (norm_stored e) = content_preimage e.
Proof. unfold content_preimage, canonical_preimage. by rewrite norm_capturedContent. Qed.

(** Messages are compared, not computed, from here on. *)
#[global] Opaque canonical_preimage.

Lemma negb_bool_decide_false (P : Prop) `{Decision P} : negb (bool_decide P) = false ↔ P.
Proof. rewrite negb_false_iff. apply bool_decide_eq_true. Qed.

Section verify.
Context `{Sha256} `{Zod}.

Lemma verifyStoredEvent_spec e prev :
  stored_wf e → verifyStoredEvent e (Some prev) = Ok tt ↔ event_linked prev e.
Proof.
  intros Hwf. unfold verifyStoredEvent, event_linked. rewrite res_bind_Ok.
  setoid_rewrite validateStoredEvent_spec; [|done].
  assert (Hid : ∀ p h, deriveEventId p = Ok h ↔
    encodable (provider_json p) = true ∧ h = sha256 (id_preimage p))
    by (intros; apply canonicalHash_Ok).
  assert (Hco : ∀ c h, computeContentHash c = Ok h ↔
    encodable (capturedContent c) = true ∧ h = sha256 (content_preimage c))
    by (intros; apply canonicalHash_Ok).
  assert (Hch : ∀ h, computeEventHash (s_position e) (s_contentHash e) (s_previousEventHash e) = Ok h ↔
    encodable (chain_json (s_position e) (s_contentHash e) (s_previousEventHash e)) = true ∧
    h = sha256 (chain_preimage e)) by (intros; apply canonicalHash_Ok).
  split.
  - intros (v & [Hok ->] & Hv). inv_res. apply Hid in Hv1 as [_ ->].
    apply Hco in Hv3 as [_ ->]. apply Hch in Hv5 as [_ ->].
    apply negb_bool_decide_false in Hv0, Hv2, Hv4, Hv.
    rewrite content_preimage_norm in Hv4.
    split_and!; [exact Hok|exact Hv0|exact Hv2|exact Hv4|exact Hv].
  - intros (Hok & Hprev & H1 & H2 & H3). exists (norm_stored e). split; [done|].
    cbn [norm_stored norm_captured norm_draft s_previousEventHash d_provider c_draft s_captured
      c_eventId s_contentHash s_position s_eventHash].
    rewrite (bool_decide_eq_true_2 _ Hprev). cbn [negb throw_if mbind res_bind].
    rewrite (proj2 (Hid _ _) (conj (provider_encodable e Hok) eq_refl)). cbn [mbind res_bind].
    rewrite (bool_decide_eq_true_2 _ H1). cbn [negb throw_if mbind res_bind].
    assert (Hce : computeContentHash (norm_stored e) = Ok (s_contentHash e)).
    { apply Hco. rewrite content_preimage_norm. split; [|exact H2].
      rewrite <-norm_encodable, norm_capturedContent, norm_encodable. by apply content_encodable. }
    change (s_captured (norm_stored e)) with (norm_captured e) in Hce.
    rewrite Hce. cbn [mbind res_bind].
    rewrite (bool_decide_eq_true_2 _ eq_refl). cbn [negb throw_if mbind res_bind].
    rewrite (proj2 (Hch _) (conj (proj2 (chain_hashable e Hwf Hok)) eq_refl)).
    cbn [mbind res_bind]. by rewrite (bool_decide_eq_true_2 _ H3).
Qed.
End verify.

(** ** Chains *)

Fixpoint chained `{Sha256} (prev : jsstring) (es : list StoredEvent) (head : jsstring) : Prop :=
  match es with
  | [] => head = prev
  | e :: es => event_linked prev e ∧ chained (s_eventHash e) es head
  end.

Lemma verifyEventPage_spec `{Sha256} `{Zod} es prev head :
  Forall stored_wf es → verifyEventPage es prev = Ok head ↔ chained prev es head.
Proof.
  intros Hes. unfold verifyEventPage. revert prev.
  induction Hes as [|e es He Hes IH]; intros prev; cbn [res_fold chained].
  - split; [by intros [= <-]|by intros ->].
  - rewrite res_bind_Ok, <-verifyStoredEvent_spec by done. split.
    + intros (h & Hv & Hr). apply res_bind_Ok in Hv as ([] & Hv & Hh). apply Ok_inj in Hh as <-.
      split; [exact Hv|by apply IH].
    + intros [Hv Hr]. exists (s_eventHash e). split; [|by apply IH]. by rewrite Hv.
Qed.

Lemma chained_snoc `{Sha256} prev es e head :
  chained prev (es ++ [e]) head ↔
    ∃ mid, chained prev es mid ∧ event_linked mid e ∧ head = s_eventHash e.
Proof.
  revert prev; induction es as [|x es IH]; intros prev; cbn [app chained].
  - split.
    + intros [Hl ->]. by exists prev.
    + intros (mid & -> & Hl & ->). done.
  - rewrite IH. split.
    + intros (Hx & mid & H1 & H2). exists mid. done.
    + intros (mid & (Hx & H1) & H2). split; [done|]. by exists mid.
Qed.

Lemma chained_app `{Sha256} prev es es' head :
  chained prev (es ++ es') head ↔ ∃ mid, chained prev es mid ∧ chained mid es' head.
Proof.
  revert prev; induction es as [|x es IH]; intros prev; cbn [app chained].
  - split; [by exists prev|by intros (mid & -> & ?)].
  - rewrite IH. split.
    + intros (Hx & mid & H1 & H2). by exists mid.
    + intros (mid & (Hx & H1) & H2). split; [done|]. by exists mid.
Qed.

(** The messages a chain's verification hashes. *)
Definition chain_messages (es : list StoredEvent) : list (list Z) :=
  concat (map (λ e : StoredEvent, [content_preimage e; chain_preimage e]) es).

Lemma chain_messages_elem (e : StoredEvent) es :
  e ∈ es → content_preimage e ∈ chain_messages es ∧ chain_preimage e ∈ chain_messages es.
Proof.
  unfold chain_messages. induction es as [|x es IH]; intros He; [by apply not_elem_of_nil in He|].
  cbn [map concat]. apply elem_of_cons in He as [->|He].
  - split; apply elem_of_app; left; [left|right; left].
  - destruct (IH He). split; apply elem_of_app; by right.
Qed.

Lemma chain_messages_sub es es' :
  (∀ e, e ∈ es → e ∈ es') → ∀ m, m ∈ chain_messages es → m ∈ chain_messages es'.
Proof.
  intros Hsub m. unfold chain_messages at 1. rewrite list_elem_of_In, in_concat.
  intros (l & Hl & Hm). apply in_map_iff in Hl as (e & <- & He). apply list_elem_of_In in He.
  destruct (chain_messages_elem e es' (Hsub e He)) as [H1 H2].
  destruct Hm as [<-|[<-|[]]]; assumption.
Qed.

Definition same_event (a b : StoredEvent) : Prop := json_equiv (stored_json a) (stored_json b).

Lemma chain_preimage_inj a b :
  stored_wf a → stored_wf b → stored_ok a = true → stored_ok b = true →
  chain_preimage a = chain_preimage b →
  s_position a = s_position b ∧ s_contentHash a = s_contentHash b ∧
  s_previousEventHash a = s_previousEventHash b.
Proof.
  intros Ha Hb Hoka Hokb E. destruct (chain_hashable a Ha Hoka) as [Hha Hea].
  destruct (chain_hashable b Hb Hokb) as [Hhb Heb].
  apply (canonical_preimage_inj _ _ _ _ Hha Hhb Hea Heb) in E as [_ E].
  unfold chain_json in E. split_and!.
  - pose proof (json_equiv_get_str _ _ (js "position")
      ltac:(eapply json_wf_nodup, Hha) ltac:(eapply json_wf_nodup, Hhb) E) as H.
    by injection H.
  - pose proof (json_equiv_get_str _ _ (js "contentHash")
      ltac:(eapply json_wf_nodup, Hha) ltac:(eapply json_wf_nodup, Hhb) E) as H.
    by injection H.
  - pose proof (json_equiv_get_str _ _ (js "previousEventHash")
      ltac:(eapply json_wf_nodup, Hha) ltac:(eapply json_wf_nodup, Hhb) E) as H.
    by injection H.
Qed.

(** Two verified events with the same hash are the same event. *)
Lemma same_hash_same_event `{Sha256} p1 p2 a b :
  stored_wf a → stored_wf b → event_linked p1 a → event_linked p2 b →
  distinguishes (chain_messages [a] ++ chain_messages [b]) →
  s_eventHash a = s_eventHash b → p1 = p2 ∧ same_event a b.
Proof.
  intros Ha Hb (Hoka & Hpa & _ & Hca & Hea) (Hokb & Hpb & _ & Hcb & Heb) Hd E.
  destruct (chain_messages_elem a [a] ltac:(left)) as [Hma1 Hma2].
  destruct (chain_messages_elem b [b] ltac:(left)) as [Hmb1 Hmb2].
  assert (Ech : chain_preimage a = chain_preimage b).
  { apply Hd; [apply elem_of_app; left; exact Hma2|apply elem_of_app; right; exact Hmb2|].
    rewrite <-Hea, <-Heb. exact E. }
  apply (chain_preimage_inj a b Ha Hb Hoka Hokb) in Ech as (E1 & E2 & E3).
  assert (Eco : content_preimage a = content_preimage b).
  { apply Hd; [apply elem_of_app; left; exact Hma1|apply elem_of_app; right; exact Hmb1|].
    rewrite <-Hca, <-Hcb. exact E2. }
  apply (canonical_preimage_inj _ _ _ _ (content_hashable a Ha Hoka) (content_hashable b Hb Hokb)
    (content_encodable a Hoka) (content_encodable b Hokb)) in Eco as [_ Eco].
  split; [by rewrite <-Hpa, <-Hpb|]. unfold same_event, stored_json, stored_fields.
  rewrite E1, E2, E3, E. apply json_equiv_app; [|exact Eco].
  eapply json_wf_nodup, Hb.
Qed.

(** The head of a chain commits to the chain. *)
Lemma chained_commits `{Sha256} es1 es2 p1 p2 head :
  Forall stored_wf es1 → Forall stored_wf es2 → length es1 = length es2 →
  chained p1 es1 head → chained p2 es2 head →
  distinguishes (chain_messages es1 ++ chain_messages es2) →
  p1 = p2 ∧ Forall2 same_event es1 es2.
Proof.
  intros Hwf1 Hwf2 Hlen Hv1 Hv2 Hsha.
  revert es2 head Hwf2 Hlen Hv1 Hv2 Hsha.
  induction es1 as [|a es1 IH] using rev_ind; intros es2 head Hwf2 Hlen Hv1 Hv2 Hsha.
  - destruct es2; [|done]. cbn in *. split; [congruence|constructor].
  - destruct es2 as [|b es2 _] using rev_ind; [by rewrite length_app in Hlen; cbn in Hlen; lia|].
    rewrite !length_app in Hlen. cbn in Hlen.
    apply chained_snoc in Hv1 as (m1 & Hc1 & Hl1 & ->).
    apply chained_snoc in Hv2 as (m2 & Hc2 & Hl2 & Eh).
    apply Forall_app in Hwf1 as [Hwf1 Ha]. apply Forall_app in Hwf2 as [Hwf2 Hb].
    rewrite Forall_singleton in Ha. rewrite Forall_singleton in Hb.
    assert (Hsub : ∀ (f g : list StoredEvent),
      (∀ e, e ∈ f → e ∈ es1 ++ [a]) → (∀ e, e ∈ g → e ∈ es2 ++ [b]) →
      distinguishes (chain_messages f ++ chain_messages g)).
    { intros f g Hf Hg. eapply distinguishes_sub; [|exact Hsha]. intros m.
      rewrite !elem_of_app. intros [Hm|Hm];
        [left; by eapply chain_messages_sub|right; by eapply chain_messages_sub]. }
    destruct (same_hash_same_event m1 m2 a b Ha Hb Hl1 Hl2) as [-> Hab]; [|exact Eh|].
    { apply Hsub; intros e ->%list_elem_of_singleton; apply elem_of_app; right;
        by apply list_elem_of_singleton. }
    destruct (IH Hwf1 es2 m2 Hwf2 ltac:(lia) Hc1 Hc2) as [-> Hes].
    { apply Hsub; intros e He; apply elem_of_app; by left. }
    split; [done|]. apply Forall2_app; [done|]. by constructor.
Qed.
