(* ===== verification/EventClaims.v ===== *)
(** * What the event layer guarantees

    Serialisation, validation and the commitment of the hash chain, with the
    first event of [src/fixtures/earnings-cluster.v2.captured.ndjson] as the
    running example: the model recomputes its identifier, content hash and chain
    hash as the repository stores them. *)
From S2P Require Import Prelude JsString JsNumber Json JsonLimits JsonParse JsonClaims Hash.
From S2P Require Import Sha256Impl Zod JsonObject Event EventFacts EventChain.

(** ** The fixture *)

Definition fixture_provider : ProviderIdentity := {|
  p_provider := js "issuer-ir";
  p_recordId := js "acme-q2-release";
  p_revisionId := js "1";
  p_artifactHash := js "aee67d1113ff953630be050bebd450e46959f83fd23bb6042dc33fc03e37bbf7" |}.

Definition fixture_draft : EventDraft := {|
  d_type := js "earnings.source.observed";
  d_schemaVersion := 1;
  d_source := js "fixture:issuer-ir";
  d_subject := js "earnings:0000123456:2026-Q2";
  d_occurredAtMs := Some 1799999995000;
  d_correlationId := js "correlation-acme-q2";
  d_causationId := None;
  d_provider := fixture_provider;
  d_payload :=
    [(js "artifactHash", JStr (js "aee67d1113ff953630be050bebd450e46959f83fd23bb6042dc33fc03e37bbf7"));
     (js "fiscalPeriod", JStr (js "2026-Q2"));
     (js "issuerCik", JStr (js "0000123456"));
     (js "originalTimestamp", JStr (js "2027-01-15T16:00:00-05:00"));
     (js "publishedAtMs", jint 1799999995000);
     (js "sourceKind", JStr (js "issuer_release"));
     (js "timestampConfidence", JStr (js "provider"))] |}.

Definition fixture_event : StoredEvent := {|
  s_captured := {|
    c_draft := fixture_draft;
    c_eventId := js "7574a80f986b20685b2601181f24ed793189ce9aea57a085a7abad46d50fb608";
    c_streamVersion := js "1";
    c_receivedAtMs := 1800000000000;
    c_logicalAtMs := 1800000000000 |};
  s_position := js "1";
  s_contentHash := js "0692c656b3d01f8330f89bfc95099b19430b24f4be02d487f4e72c5be9d8feac";
  s_previousEventHash := ZERO_HASH;
  s_eventHash := js "3d1d8567f4a3c3e13760e309feec44a478f3ee84475bdd57b2cfb1ea01c0e928" |}.

(** The same event with its payload written in another order. *)
Definition fixture_event_reordered : StoredEvent := {|
  s_captured := {|
    c_draft := {|
      d_type := d_type fixture_draft; d_schemaVersion := 1; d_source := d_source fixture_draft;
      d_subject := d_subject fixture_draft; d_occurredAtMs := Some 1799999995000;
      d_correlationId := d_correlationId fixture_draft; d_causationId := None;
      d_provider := fixture_provider; d_payload := reverse (d_payload fixture_draft) |};
    c_eventId := c_eventId fixture_event; c_streamVersion := js "1";
    c_receivedAtMs := 1800000000000; c_logicalAtMs := 1800000000000 |};
  s_position := js "1"; s_contentHash := s_contentHash fixture_event;
  s_previousEventHash := ZERO_HASH; s_eventHash := s_eventHash fixture_event |}.

Lemma fixture_wf : stored_wf fixture_event.
Proof. apply json_wfb_wf. vm_compute. reflexivity. Qed.

Lemma fixture_reordered_wf : stored_wf fixture_event_reordered.
Proof. apply json_wfb_wf. vm_compute. reflexivity. Qed.

Lemma fixture_ok : stored_ok fixture_event = true.
Proof. vm_compute. reflexivity. Qed.

(** The stored hashes of the fixture are the ones the model computes. *)
Lemma fixture_page : verifyEventPage [fixture_event] ZERO_HASH = Ok (s_eventHash fixture_event).
Proof. vm_compute. reflexivity. Qed.

Lemma fixture_reordered_page :
  verifyEventPage [fixture_event_reordered] ZERO_HASH = Ok (s_eventHash fixture_event).
Proof. vm_compute. reflexivity. Qed.

(** ** Verification *)

(** verifying a page succeeds exactly when every event is an accepted
    envelope whose identifier, content hash and chain hash are the SHA-256 of its
    own fields and whose previous hash is the hash before it; the result is the
    hash of the last event. *)
Theorem verify_page_exact `{Sha256} `{Zod} (events : list StoredEvent) (previous head : jsstring)
    (Hwf : Forall stored_wf events) :
  verifyEventPage events previous = Ok head ↔ chained previous events head.
Proof. by apply verifyEventPage_spec. Qed.

Lemma verify_page_exact_witness :
  chained ZERO_HASH [fixture_event] (s_eventHash fixture_event).
Proof.
  exact (proj1 (verify_page_exact [fixture_event] ZERO_HASH (s_eventHash fixture_event)
    (proj2 (Forall_singleton _ _) fixture_wf)) fixture_page).
Defined.

(** C34: the head hash commits to the whole chain: two verified pages of the
    same length with the same head start from the same hash and hold the same
    events, up to the key order inside payloads, when SHA-256 separates the
    messages the two verifications hash. *)
Theorem event_chain_commits `{Sha256} `{Zod} (es1 es2 : list StoredEvent) (p1 p2 head : jsstring)
    (Hwf1 : Forall stored_wf es1) (Hwf2 : Forall stored_wf es2)
    (Hlen : length es1 = length es2)
    (Hv1 : verifyEventPage es1 p1 = Ok head) (Hv2 : verifyEventPage es2 p2 = Ok head)
    (Hsha : distinguishes (chain_messages es1 ++ chain_messages es2)) :
  p1 = p2 ∧ Forall2 same_event es1 es2.
Proof.
  rewrite verifyEventPage_spec in Hv1 by done. rewrite verifyEventPage_spec in Hv2 by done.
  by eapply chained_commits.
Qed.

Lemma fixture_messages_distinct :
  distinguishes (chain_messages [fixture_event] ++ chain_messages [fixture_event_reordered]).
Proof.
  assert (E1 : content_preimage fixture_event_reordered = content_preimage fixture_event)
    by (vm_compute; reflexivity).
  assert (E2 : chain_preimage fixture_event_reordered = chain_preimage fixture_event)
    by (vm_compute; reflexivity).
  assert (E : bool_decide (sha256 (content_preimage fixture_event) =
    sha256 (chain_preimage fixture_event)) = false) by (vm_compute; reflexivity).
  apply bool_decide_eq_false in E.
  unfold chain_messages. cbn [map concat app]. rewrite E1, E2. clear E1 E2.
  revert E. generalize (content_preimage fixture_event), (chain_preimage fixture_event).
  intros c h E a b Ha Hb Hab. rewrite !elem_of_cons, elem_of_nil in Ha, Hb.
  destruct Ha as [->|[->|[->|[->|[]]]]], Hb as [->|[->|[->|[->|[]]]]]; congruence.
Qed.

Lemma event_chain_commits_witness :
  same_event fixture_event fixture_event_reordered.
Proof.
  pose proof (event_chain_commits [fixture_event] [fixture_event_reordered] ZERO_HASH ZERO_HASH
    (s_eventHash fixture_event)
    (proj2 (Forall_singleton _ _) fixture_wf)
    (proj2 (Forall_singleton _ _) fixture_reordered_wf)
    eq_refl fixture_page fixture_reordered_page fixture_messages_distinct) as [_ H].
  inversion H; assumption.
Defined.

(** ** Serialisation *)

Lemma inertJsonSnapshot_norm v :
  json_wf v → encodable v = true → inertJsonSnapshot (norm v) = inertJsonSnapshot v.
Proof.
  intros Hwf He. rewrite (proj2 (inertJsonSnapshot_spec v _ Hwf) (conj He eq_refl)).
  apply inertJsonSnapshot_spec; [by apply norm_wf|].
  by rewrite norm_encodable, norm_idemp.
Qed.

(** an accepted stored event survives serialisation: its canonical text is
    parsed and validated back to the event, with the payload's keys in order, and
    that event has the same canonical text. *)
Theorem stored_event_roundtrip `{Zod} (event : StoredEvent)
    (Hwf : stored_wf event) (Hok : stored_ok event = true) :
  ∃ text, canonicalJson (stored_json event) = Ok text ∧
    validateStoredEventJson text = Ok (norm_stored event) ∧
    canonicalJson (stored_json (norm_stored event)) = Ok text.
Proof.
  pose proof (stored_encodable event Hok) as He. unfold stored_wf in Hwf.
  exists (print (norm (stored_json event))). split_and!.
  - by apply encode_encodable_Ok.
  - unfold validateStoredEventJson, parseJsonWithinLimits.
    rewrite (proj2 (assertJsonLimits_Ok _) envelope_limits_valid). cbn [mbind res_bind].
    unfold assertSerializedJsonWithinLimit.
    assert (Hb : byte_length (print (norm (stored_json event))) = json_bytes (stored_json event)).
    { rewrite byte_length_print, json_bytes_norm; [done|by apply norm_wf|by rewrite norm_encodable]. }
    pose proof (stored_bytes event Hok) as Hbytes.
    change (negb (is_safe_integer (maxCanonicalBytes EVENT_ENVELOPE_LIMITS)) ||
      (maxCanonicalBytes EVENT_ENVELOPE_LIMITS <? 1)) with false.
    rewrite Hb, (proj2 (Z.ltb_ge _ _)) by exact Hbytes. cbn [throw_if mbind res_bind].
    rewrite JSON_parse_print by (try apply norm_wf; by rewrite ?norm_encodable).
    cbn [mbind res_bind].
    pose proof (stored_within event Hok) as Hlim. rewrite <-json_within_norm in Hlim.
    rewrite (limits_within _ _ envelope_limits_valid Hlim). cbn [mbind res_bind].
    assert (Hv : validateStoredEvent (stored_json event) = Ok (norm_stored event))
      by by apply validateStoredEvent_spec.
    unfold validateStoredEvent in Hv. apply res_bind_Ok in Hv as (m & _ & Hv).
    unfold parseStoredEvent in *. rewrite inertJsonSnapshot_norm by done. exact Hv.
  - rewrite (encode_encodable_Ok (stored_json (norm_stored event))).
    + by rewrite norm_stored_json.
    + by rewrite <-norm_encodable, norm_stored_json, norm_encodable.
Qed.

Lemma stored_event_roundtrip_witness :
  ∃ text, canonicalJson (stored_json fixture_event) = Ok text ∧
    validateStoredEventJson text = Ok (norm_stored fixture_event) ∧
    canonicalJson (stored_json (norm_stored fixture_event)) = Ok text.
Proof. exact (stored_event_roundtrip fixture_event fixture_wf fixture_ok). Defined.

(** ** Hashing *)

(** a canonical hash commits to its domain tag and its value: two equal
    hashes come from the same domain and from values equal up to key order, when
    SHA-256 separates the two messages. *)
Theorem canonical_hash_commits `{Sha256} (d1 d2 : jsstring) (v w : json) (h : jsstring)
    (H1 : hashable d1 v) (H2 : hashable d2 w)
    (Hv : canonicalHash d1 v = Ok h) (Hw : canonicalHash d2 w = Ok h)
    (Hsha : distinguishes [canonical_preimage d1 v; canonical_preimage d2 w]) :
  d1 = d2 ∧ json_equiv v w.
Proof.
  apply canonicalHash_Ok in Hv as [Hev ->]. apply canonicalHash_Ok in Hw as [Hew Hh].
  apply (canonical_preimage_inj d1 d2 v w H1 H2 Hev Hew).
  apply Hsha; [by left|by right; left|exact Hh].
Qed.

Definition example_domain : jsstring := js "peas/example".

Lemma example_hashable v :
  json_wf v → encodable v = true → json_bytes v < 2 ^ 64 → hashable example_domain v.
Proof. intros. apply hashable_intro; try done. apply js_units. Qed.

Lemma example_hash :
  canonicalHash example_domain unsorted_tree = Ok (sha256 (canonical_preimage example_domain unsorted_tree)) ∧
  canonicalHash example_domain sorted_tree = Ok (sha256 (canonical_preimage example_domain unsorted_tree)) ∧
  distinguishes [canonical_preimage example_domain unsorted_tree; canonical_preimage example_domain sorted_tree].
Proof.
  assert (E : canonical_preimage example_domain sorted_tree =
    canonical_preimage example_domain unsorted_tree) by (vm_compute; reflexivity).
  split_and!; [by apply canonicalHash_Ok|rewrite <-E; by apply canonicalHash_Ok|].
  rewrite E. intros a b. rewrite !elem_of_cons, !elem_of_nil.
  intros [->|[->|[]]] [->|[->|[]]] _; reflexivity.
Qed.

Lemma canonical_hash_commits_witness :
  json_equiv unsorted_tree sorted_tree.
Proof.
  exact (proj2 (canonical_hash_commits example_domain example_domain unsorted_tree sorted_tree _
    (example_hashable _ unsorted_tree_wf eq_refl eq_refl)
    (example_hashable _ sorted_tree_wf eq_refl eq_refl)
    (proj1 example_hash) (proj1 (proj2 example_hash)) (proj2 (proj2 example_hash)))).
Defined.
