(* ===== verification/EventLog.v ===== *)
(** * Event logs ([src/adapters/memory/event-log.ts] and [captured-event-log.ts])

    The class [EventLog] is the interface [EventLog] of [src/core/event.ts]; the
    in-memory log assigns identity, position, stream version, logical time and the
    hash chain to validated drafts; the captured log replays a verified stream.
    Methods run in the state-and-exception monad, so that what a throwing call
    leaves behind is visible.  [BigInt] positions are integers. *)
From S2P Require Import Prelude JsString JsNumber Json JsonLimits JsonParse JsonClaims Hash Zod.
From S2P Require Import JsonObject Clock Event EventFacts EventChain.

(** ** Shared pieces *)

(** A deep copy through canonical JSON. *)
Definition copyEvent (event : StoredEvent) : res StoredEvent :=
  let* copy := cloneJson (stored_json event) in
  or_throw (as_obj copy ≫= stored_of) (TypeError "event").

(** The last position of a page, or the position it was read from. *)
Definition page_end (position : jsstring) (selected : list StoredEvent) : jsstring :=
  match last selected with Some e => s_position e | None => position end.

(** [get] and [readAfter] are the same code in both logs. *)
Definition get_event (events : list StoredEvent) (position : jsstring) : res (option StoredEvent) :=
  let* numeric := BigInt position in
  if (numeric <? 1) || (Z.of_nat (length events) <? numeric) then Ok None
  else match events !! Z.to_nat (numeric - 1) with
    | Some event => let* copy := copyEvent event in Ok (Some copy)
    | None => Ok None
    end.

Definition read_after (events : list StoredEvent) (position : jsstring) (limit : jsnum) :
    res EventPage :=
  let* limit := assertPageLimit limit in
  let* cursor := BigInt position in
  guard! cursor <? 0 throws RangeError "Event cursor cannot be negative" ;;
  let start := Z.to_nat (Z.min cursor (Z.of_nat (length events))) in
  let* selected := res_map copyEvent (take (Z.to_nat limit) (drop start events)) in
  let nextPosition := page_end position selected in
  let* next := BigInt nextPosition in
  Ok {| pg_events := selected; pg_nextPosition := nextPosition;
        pg_hasMore := next <? Z.of_nat (length events) |}.

(** ** The interface *)

(** What the processor relies on: an append-only sequence of events read by
    position. *)
Class EventLog (S : Type) : Type := {
  log_append : json → jsnum → sm S AppendResult;
  log_get : S → jsstring → res (option StoredEvent);
  log_readAfter : S → jsstring → jsnum → res EventPage
}.

(** ** The in-memory log *)

Record InMemoryEventLog : Type := {
  l_events : list StoredEvent;
  l_providerEvents : gmap jsstring StoredEvent;
  l_streamVersions : gmap jsstring Z
}.

Definition empty_log : InMemoryEventLog :=
  {| l_events := []; l_providerEvents := ∅; l_streamVersions := ∅ |}.

(** The trusted receipt time.  Negative zero passes the check of the code and is
    then refused by the canonical encoder of the content hash. *)
Definition assertTrustedTime (value : jsnum) : res Z :=
  match value with
  | NNegZero => Throw (TypeError "must be a safe integer and cannot be negative zero")
  | _ => or_throw (epoch_value value)
           (RangeError "Trusted receipt time must be a non-negative safe integer")
  end.

Section in_memory.
Context `{Sha256} `{Zod}.

(** The branch for a provider record that was already captured. *)
Definition redeliver (existing : StoredEvent) (input : EventDraft) : res AppendResult :=
  guard! negb (bool_decide (p_artifactHash (d_provider existing) = p_artifactHash (d_provider input)))
    throws Error "Provider record changed content without a new revision" ;;
  let* stored := canonicalJson (draft_json (draftFromStored existing)) in
  let* offered := canonicalJson (draft_json input) in
  guard! negb (bool_decide (stored = offered))
    throws Error "Provider redelivery metadata conflicts" ;;
  let* copy := copyEvent existing in
  Ok {| ar_event := copy; ar_disposition := Redelivery |}.

(** The event a new draft becomes, from the log's state and the receipt time. *)
Definition capture (log : InMemoryEventLog) (input : EventDraft) (receivedAtMs : Z) :
    res StoredEvent :=
  let previous := last (l_events log) in
  let streamVersion := default 0 (l_streamVersions log !! d_subject input) + 1 in
  let* eventId := deriveEventId (d_provider input) in
  let captured := {|
    c_draft := input;
    c_eventId := eventId;
    c_streamVersion := dec streamVersion;
    c_receivedAtMs := receivedAtMs;
    c_logicalAtMs :=
      Z.max (match previous with Some p => c_logicalAtMs p | None => 0 end) receivedAtMs |} in
  let* contentHash := computeContentHash captured in
  let position := dec (Z.of_nat (length (l_events log)) + 1) in
  let previousEventHash :=
    match previous with Some p => s_eventHash p | None => ZERO_HASH end in
  let* eventHash := computeEventHash position contentHash previousEventHash in
  copyEvent {| s_captured := captured; s_position := position; s_contentHash := contentHash;
               s_previousEventHash := previousEventHash; s_eventHash := eventHash |}.

(** [append(value)] with [nowMs], what the injected clock returns. *)
Definition append (value : json) (nowMs : jsnum) : sm InMemoryEventLog AppendResult :=
  sm! input := sm_lift (validateEventDraft value) in
  sm! identityKey := sm_lift (providerKey (d_provider input)) in
  sm! log := sm_get in
  match l_providerEvents log !! identityKey with
  | Some existing => sm_lift (redeliver existing input)
  | None =>
      sm! receivedAtMs := sm_lift (assertTrustedTime nowMs) in
      sm! immutable := sm_lift (capture log input receivedAtMs) in
      sm! _ := sm_modify (λ log, {|
        l_events := l_events log ++ [immutable];
        l_providerEvents := <[identityKey := immutable]> (l_providerEvents log);
        l_streamVersions :=
          <[d_subject input := default 0 (l_streamVersions log !! d_subject input) + 1]>
            (l_streamVersions log) |}) in
      sm! copy := sm_lift (copyEvent immutable) in
      sm_ret {| ar_event := copy; ar_disposition := Appended |}
  end.

Definition get (log : InMemoryEventLog) (position : jsstring) : res (option StoredEvent) :=
  get_event (l_events log) position.

Definition readAfter (log : InMemoryEventLog) (position : jsstring) (limit : jsnum) :
    res EventPage :=
  read_after (l_events log) position limit.

#[export] Instance InMemoryEventLog_EventLog : EventLog InMemoryEventLog := {|
  log_append := append; log_get := get; log_readAfter := readAfter |}.

(** ** The captured log *)

Record CapturedEventLog : Type := { cl_events : list StoredEvent }.

(** The loop of the constructor, with the expected position and hash. *)
Definition captured_step (st : jsstring * Z) (event : StoredEvent) : res (jsstring * Z) :=
  let (previousHash, expectedPosition) := st in
  guard! negb (bool_decide (s_position event = dec expectedPosition))
    throws Error "Captured stream position gap" ;;
  do! verifyStoredEvent event (Some previousHash) ;;
  Ok (s_eventHash event, expectedPosition + 1).

Definition new_CapturedEventLog (events : list StoredEvent) : res CapturedEventLog :=
  do! res_fold captured_step (ZERO_HASH, 1) events ;;
  let* copies := res_map copyEvent events in
  Ok {| cl_events := copies |}.

Definition captured_append (_ : json) (_ : jsnum) : sm CapturedEventLog AppendResult :=
  sm_lift (Throw (Error "A captured replay log is read-only")).

#[export] Instance CapturedEventLog_EventLog : EventLog CapturedEventLog := {|
  log_append := captured_append;
  log_get := λ log, get_event (cl_events log);
  log_readAfter := λ log, read_after (cl_events log) |}.
End in_memory.

(** ** Copies *)

Lemma copyEvent_spec e e' :
  stored_wf e → copyEvent e = Ok e' ↔ encodable (stored_json e) = true ∧ e' = norm_stored e.
Proof.
  intros Hwf. unfold copyEvent. rewrite res_bind_Ok. unfold stored_wf, stored_json in *.
  setoid_rewrite (cloneJson_spec _ _ Hwf). setoid_rewrite or_throw_Ok.
  pose proof (stored_of_norm _ Hwf) as Hof. rewrite stored_of_fields in Hof.
  cbn [fmap option_fmap option_map] in Hof. split.
  - intros (w & [He ->] & Hr). split; [exact He|]. rewrite norm_obj in Hr.
    cbn [as_obj mbind option_bind] in Hr. rewrite Hof in Hr. by injection Hr.
  - intros [He ->]. eexists. split; [split; [exact He|reflexivity]|].
    rewrite norm_obj. cbn [as_obj mbind option_bind]. exact Hof.
Qed.

(** A canonical event: what a log holds. *)
Definition canonical_event (e : StoredEvent) : Prop :=
  stored_wf e ∧ encodable (stored_json e) = true ∧ norm_stored e = e.

Lemma copyEvent_canonical e : canonical_event e → copyEvent e = Ok e.
Proof. intros (Hwf & He & Hn). apply copyEvent_spec; [done|]. by rewrite Hn. Qed.

Lemma copy_all es : Forall canonical_event es → res_map copyEvent es = Ok es.
Proof.
  intros H. apply res_map_Ok. induction H; constructor; [by apply copyEvent_canonical|done].
Qed.
