(* ===== verification/EventLogFacts.v ===== *)
(** * The invariant of the in-memory event log

    [log_inv] says what the state of [InMemoryEventLog] always satisfies:
    positions count from one, each event carries the SHA-256 of its content and of
    its chain link, logical time never decreases, stream versions count the events
    of a subject, and the two indexes agree with the list. *)
From S2P Require Import Prelude JsString JsNumber Json JsonLimits JsonParse JsonClaims Hash Zod.
From S2P Require Import JsonObject Clock Event EventFacts EventChain EventLog.

Definition key_json (p : ProviderIdentity) : json := JObj
  [(js "provider", JStr (p_provider p)); (js "recordId", JStr (p_recordId p));
   (js "revisionId", JStr (p_revisionId p))].
Definition key_preimage (p : ProviderIdentity) : list Z :=
  canonical_preimage (js "peas/provider-identity/v1") (key_json p).

Definition head_hash (es : list StoredEvent) : jsstring :=
  match last es with Some e => s_eventHash e | None => ZERO_HASH end.
Definition head_logical (es : list StoredEvent) : Z :=
  match last es with Some e => c_logicalAtMs e | None => 0 end.
Definition subject_count (subject : jsstring) (es : list StoredEvent) : Z :=
  zsum (λ e : StoredEvent, if bool_decide (d_subject e = subject) then 1 else 0) es.

Section invariant.
Context `{Sha256}.

Definition provider_key (p : ProviderIdentity) : jsstring := sha256 (key_preimage p).

(** [e] extends the log [pre]. *)
Record next_event (pre : list StoredEvent) (e : StoredEvent) : Prop := {
  ne_canonical : canonical_event e;
  ne_draft : draft_ok e = true;
  ne_position : s_position e = dec (Z.of_nat (length pre) + 1);
  ne_previous : s_previousEventHash e = head_hash pre;
  ne_id : c_eventId e = sha256 (id_preimage (d_provider e));
  ne_content : s_contentHash e = sha256 (content_preimage e);
  ne_hash : s_eventHash e = sha256 (chain_preimage e);
  ne_received : 0 <= c_receivedAtMs e <= MAX_SAFE_INTEGER;
  ne_logical : c_logicalAtMs e = Z.max (head_logical pre) (c_receivedAtMs e);
  ne_stream : c_streamVersion e = dec (subject_count (d_subject e) pre + 1);
  ne_fresh : Forall (λ x : StoredEvent, provider_key (d_provider x) ≠ provider_key (d_provider e)) pre
}.

Inductive log_events : list StoredEvent → Prop :=
  | LE_nil : log_events []
  | LE_snoc pre e : log_events pre → next_event pre e → log_events (pre ++ [e]).

Record log_inv (log : InMemoryEventLog) : Prop := {
  li_events : log_events (l_events log);
  li_provider : ∀ k (e : StoredEvent), l_providerEvents log !! k = Some e ↔
    e ∈ l_events log ∧ provider_key (d_provider e) = k;
  li_streams : ∀ s, default 0 (l_streamVersions log !! s) = subject_count s (l_events log)
}.

Lemma empty_log_inv : log_inv empty_log.
Proof.
  split; cbn.
  - constructor.
  - intros k e. rewrite lookup_empty. split; [done|]. intros [Hin _]. by apply not_elem_of_nil in Hin.
  - intros s. by rewrite lookup_empty.
Qed.

Lemma log_events_forall (P : StoredEvent → Prop) es :
  (∀ pre e, next_event pre e → P e) → log_events es → Forall P es.
Proof.
  intros HP. induction 1 as [|pre e Hpre IH Hn]; [constructor|].
  apply Forall_app. split; [done|]. apply Forall_singleton. eauto.
Qed.

Lemma log_canonical es : log_events es → Forall canonical_event es.
Proof. apply log_events_forall. intros pre e Hn. apply Hn. Qed.

Lemma log_prefix es i e :
  log_events es → es !! i = Some e → log_events (take i es) ∧ next_event (take i es) e.
Proof.
  intros Hes. revert i e. induction Hes as [|pre x Hpre IH Hn]; intros i e Hi; [done|].
  apply lookup_app_Some in Hi as [Hi|[Hge Hi]].
  - apply lookup_lt_Some in Hi as Hlt. rewrite take_app_le by lia. by apply IH.
  - apply list_lookup_singleton_Some in Hi as [Hi ->].
    assert (i = length pre) as -> by lia. by rewrite take_app_length.
Qed.

Lemma log_position es i e :
  log_events es → es !! i = Some e → s_position e = dec (Z.of_nat i + 1).
Proof.
  intros Hes Hi. destruct (log_prefix es i e Hes Hi) as [_ Hn].
  rewrite (ne_position _ _ Hn). apply lookup_lt_Some in Hi. rewrite length_take. do 2 f_equal. lia.
Qed.

Lemma subject_count_nonneg s es : 0 <= subject_count s es.
Proof. apply zsum_nonneg. intros e _. case_bool_decide; lia. Qed.

Lemma head_logical_bounds es : log_events es → 0 <= head_logical es <= MAX_SAFE_INTEGER.
Proof.
  intros Hes. unfold head_logical. destruct Hes as [|pre e Hpre Hn]; [cbn; unfold MAX_SAFE_INTEGER; lia|].
  rewrite last_snoc. revert e Hn.
  assert (0 <= head_logical pre <= MAX_SAFE_INTEGER) as Hb.
  { clear -Hpre. unfold head_logical. induction Hpre as [|pre e Hpre IH Hn];
      [cbn; unfold MAX_SAFE_INTEGER; lia|]. rewrite last_snoc.
    rewrite (ne_logical _ _ Hn). pose proof (ne_received _ _ Hn). unfold head_logical. lia. }
  intros e Hn. rewrite (ne_logical _ _ Hn). pose proof (ne_received _ _ Hn). lia.
Qed.

(** Logical time never decreases along the log. *)
Lemma log_logical_monotone es i j (a b : StoredEvent) :
  log_events es → es !! i = Some a → es !! j = Some b → (i <= j)%nat →
  c_logicalAtMs a <= c_logicalAtMs b.
Proof.
  intros Hes. revert i j a b. induction Hes as [|pre e Hpre IH Hn]; intros i j a b Hi Hj Hij; [done|].
  apply lookup_app_Some in Hj as [Hj|[Hge Hj]].
  - rewrite lookup_app_l in Hi by (apply lookup_lt_Some in Hj; lia). by eapply IH.
  - apply list_lookup_singleton_Some in Hj as [Hj ->].
    apply lookup_app_Some in Hi as [Hi|[Hge' Hi]].
    + rewrite (ne_logical _ _ Hn). unfold head_logical.
      destruct (last pre) as [z|] eqn:El; [|by apply last_None in El as ->].
      assert (c_logicalAtMs a <= c_logicalAtMs z); [|lia].
      rewrite last_lookup in El. eapply IH; [exact Hi|exact El|].
      apply lookup_lt_Some in Hi. lia.
    + apply list_lookup_singleton_Some in Hi as [_ ->]. lia.
Qed.
End invariant.

(** ** The captured record *)

Lemma is_ok_low s : Forall (λ u, 0 <= u < 128) s → is_ok (assertUnicodeScalarString s) = true.
Proof.
  induction 1 as [|u s Hu Hs IH]; cbn [assertUnicodeScalarString]; [done|].
  rewrite (proj2 (Z.leb_gt 55296 u)), (proj2 (Z.leb_gt 56320 u)) by lia. exact IH.
Qed.

Lemma units_low s : Forall (λ u, 0 <= u < 128) s → units_ok s.
Proof. intros Hs. eapply Forall_impl; [exact Hs|]. cbn. lia. Qed.

(** The fields a log adds to a draft: hashes, decimals and safe integers. *)
Record log_fields (e : StoredEvent) : Prop := {
  lf_id : is_hash (c_eventId e) = true;
  lf_stream : ∃ z, c_streamVersion e = dec z;
  lf_received : is_safe_integer (c_receivedAtMs e) = true;
  lf_logical : is_safe_integer (c_logicalAtMs e) = true;
  lf_position : ∃ z, s_position e = dec z;
  lf_content : is_hash (s_contentHash e) = true;
  lf_previous : is_hash (s_previousEventHash e) = true;
  lf_hash : is_hash (s_eventHash e) = true
}.

Lemma stored_keys_nodup (e : StoredEvent) : NoDup (fst <$> stored_fields e).
Proof.
  apply (bool_decide_eq_true_1 _).
  destruct e as [[[? ? ? ? ? ? [] ? ?] ? ? ? ?] ? ? ? ?]; vm_compute; reflexivity.
Qed.

Lemma log_fields_canonical (e : StoredEvent) :
  log_fields e → draft_wf e → draft_ok e = true → norm_draft e = c_draft e → canonical_event e.
Proof.
  intros [H1 [z2 H2] H3 H4 [z5 H5] H6 H7 H8] Hwf Hok Hn.
  apply is_hash_units in H1, H6, H7, H8.
  assert (L2 : Forall (λ u, 0 <= u < 128) (c_streamVersion e)) by (rewrite H2; apply dec_low).
  assert (L5 : Forall (λ u, 0 <= u < 128) (s_position e)) by (rewrite H5; apply dec_low).
  unfold draft_wf, draft_json in Hwf. unfold draft_ok in Hok. rewrite !andb_true_iff in Hok.
  destruct Hok as [[Hw _] _]. apply json_within_encodable in Hw. unfold draft_json in Hw.
  unfold canonical_event. split_and!.
  - unfold stored_wf, stored_json. rewrite json_wf_obj. split; [apply stored_keys_nodup|].
    rewrite json_wf_obj in Hwf. destruct Hwf as [_ Hwf].
    unfold stored_fields, captured_fields. intros kv. rewrite !elem_of_app.
    intros [[Hkv|Hkv]|Hkv]; [by apply Hwf| |]; rewrite !elem_of_cons, elem_of_nil in Hkv;
      destruct Hkv as [->|[->|[->|[->|[]]]]]; cbn [fst snd]; (split; [apply js_units|]);
      cbn [json_wf]; done || by apply units_low.
  - unfold stored_json, stored_fields, captured_fields. cbn [encodable] in *.
    rewrite !forallb_app, Hw. cbn [andb]. cbn [forallb fst snd encodable is_safe_number jint].
    rewrite !is_ok_low by done. rewrite H3, H4. reflexivity.
  - destruct e as [[d i v r l] p c q h]. unfold norm_stored, norm_captured. cbn in *. by rewrite Hn.
Qed.

(** A log's draft part of a canonical event. *)
Lemma canonical_draft (e : StoredEvent) :
  canonical_event e → draft_wf e ∧ norm_draft e = c_draft e.
Proof.
  intros (Hwf & _ & Hn). split.
  - unfold draft_wf, draft_json. unfold stored_wf, stored_json in Hwf.
    eapply sub_object_wf; [|exact Hwf]. unfold stored_fields, captured_fields.
    rewrite <-app_assoc. by apply submseteq_inserts_r.
  - destruct e as [[d i v r l] p c q h]. unfold norm_stored, norm_captured in Hn. cbn in *.
    by injection Hn.
Qed.

(** ** [append] *)

(** A validated draft. *)
Definition valid_draft (d : EventDraft) : Prop :=
  draft_wf d ∧ draft_ok d = true ∧ norm_draft d = d.

Section append.
Context `{Sha256}.

(** The event a draft becomes at the end of the log [es]. *)
Definition new_captured (es : list StoredEvent) (d : EventDraft) (t : Z) : CapturedEvent := {|
  c_draft := d;
  c_eventId := sha256 (id_preimage (d_provider d));
  c_streamVersion := dec (subject_count (d_subject d) es + 1);
  c_receivedAtMs := t;
  c_logicalAtMs := Z.max (head_logical es) t |}.

Definition new_event (es : list StoredEvent) (d : EventDraft) (t : Z) : StoredEvent :=
  let c := new_captured es d t in
  let position := dec (Z.of_nat (length es) + 1) in
  let contentHash := sha256 (content_preimage c) in
  {| s_captured := c; s_position := position; s_contentHash := contentHash;
     s_previousEventHash := head_hash es;
     s_eventHash := sha256 (canonical_preimage (js "peas/event-chain/v2")
       (chain_json position contentHash (head_hash es))) |}.

Lemma head_hash_hash es : log_events es → is_hash (head_hash es) = true.
Proof.
  unfold head_hash. destruct 1 as [|pre e Hpre Hn]; [done|]. rewrite last_snoc.
  rewrite (ne_hash _ _ Hn). apply sha256_hex.
Qed.

Lemma new_event_fields es d t :
  log_events es → 0 <= t <= MAX_SAFE_INTEGER → log_fields (new_event es d t).
Proof.
  intros Hes Ht. pose proof (head_logical_bounds es Hes).
  split; cbn; try apply sha256_hex.
  - by eexists.
  - apply is_safe_integer_spec. lia.
  - apply is_safe_integer_spec. lia.
  - by eexists.
  - by apply head_hash_hash.
Qed.

Lemma new_event_canonical es d t :
  log_events es → valid_draft d → 0 <= t <= MAX_SAFE_INTEGER → canonical_event (new_event es d t).
Proof.
  intros Hes (Hwf & Hok & Hn) Ht.
  apply log_fields_canonical; [by apply new_event_fields|exact Hwf|exact Hok|exact Hn].
Qed.

Lemma draft_provider_encodable d : draft_ok d = true → encodable (provider_json (d_provider d)) = true.
Proof.
  unfold draft_ok. rewrite !andb_true_iff. intros [[Hw _] _]. apply json_within_encodable in Hw.
  eapply encodable_field; [exact Hw|]. unfold draft_json, draft_fields.
  apply elem_of_app. left. rewrite !elem_of_cons. tauto.
Qed.

Lemma key_sub p :
  [(js "provider", JStr (p_provider p)); (js "recordId", JStr (p_recordId p));
   (js "revisionId", JStr (p_revisionId p))] ⊆+
  [(js "provider", JStr (p_provider p)); (js "recordId", JStr (p_recordId p));
   (js "revisionId", JStr (p_revisionId p)); (js "artifactHash", JStr (p_artifactHash p))].
Proof. do 3 apply submseteq_skip. apply submseteq_nil_l. Qed.

Lemma providerKey_Ok d :
  draft_ok d = true → providerKey (d_provider d) = Ok (provider_key (d_provider d)).
Proof.
  intros Hok. apply canonicalHash_Ok. split; [|reflexivity].
  eapply sub_object_encodable; [apply key_sub|]. exact (draft_provider_encodable d Hok).
Qed.

Lemma deriveEventId_Ok d :
  draft_ok d = true → deriveEventId (d_provider d) = Ok (sha256 (id_preimage (d_provider d))).
Proof.
  intros Hok. apply canonicalHash_Ok. split; [|reflexivity]. exact (draft_provider_encodable d Hok).
Qed.

(** Capturing a valid draft never throws. *)
Lemma capture_Ok log d t :
  log_inv log → valid_draft d → 0 <= t <= MAX_SAFE_INTEGER →
  capture log d t = Ok (new_event (l_events log) d t).
Proof.
  intros Hinv Hd Ht. pose proof (li_events _ Hinv) as Hes.
  pose proof (new_event_canonical _ d t Hes Hd Ht) as Hcan.
  destruct Hd as (Hwf & Hok & Hn). unfold capture.
  rewrite deriveEventId_Ok by exact Hok. cbn [mbind res_bind].
  rewrite (li_streams _ Hinv).
  change {| c_draft := d; c_eventId := _; c_streamVersion := _; c_receivedAtMs := t;
            c_logicalAtMs := _ |} with (new_captured (l_events log) d t).
  destruct Hcan as (Hwe & Hee & Hne).
  assert (Hc : computeContentHash (new_captured (l_events log) d t) =
    Ok (sha256 (content_preimage (new_captured (l_events log) d t)))).
  { apply canonicalHash_Ok. split; [|reflexivity].
    exact (sub_object_encodable _ _ (captured_sub (new_event (l_events log) d t)) Hee). }
  rewrite Hc. cbn [mbind res_bind].
  assert (Hch : computeEventHash (dec (Z.of_nat (length (l_events log)) + 1))
      (sha256 (content_preimage (new_captured (l_events log) d t))) (head_hash (l_events log)) =
    Ok (s_eventHash (new_event (l_events log) d t))).
  { apply canonicalHash_Ok. split; [|reflexivity].
    exact (sub_object_encodable _ _ (chain_sub (new_event (l_events log) d t)) Hee). }
  unfold head_hash in Hch. rewrite Hch. cbn [mbind res_bind].
  apply copyEvent_spec; [exact Hwe|]. split; [exact Hee|]. symmetry. exact Hne.
Qed.

Lemma new_event_next es d t :
  log_events es → valid_draft d → 0 <= t <= MAX_SAFE_INTEGER →
  Forall (λ x : StoredEvent, provider_key (d_provider x) ≠ provider_key (d_provider d)) es →
  next_event es (new_event es d t).
Proof.
  intros Hes Hd Ht Hfresh. pose proof (new_event_canonical es d t Hes Hd Ht).
  destruct Hd as (_ & Hok & _).
  split; [assumption|exact Hok|reflexivity..|exact Ht|reflexivity|reflexivity|exact Hfresh].
Qed.

Lemma log_distinct_keys es (a b : StoredEvent) :
  log_events es → a ∈ es → b ∈ es →
  provider_key (d_provider a) = provider_key (d_provider b) → a = b.
Proof.
  intros Hes. induction Hes as [|pre e Hpre IH Hn].
  { intros Ha. destruct (not_elem_of_nil _ Ha). }
  pose proof (ne_fresh _ _ Hn) as Hf. rewrite Forall_forall in Hf.
  rewrite !elem_of_app, !list_elem_of_singleton. intros [Ha| ->] [Hb| ->] E.
  - exact (IH Ha Hb E).
  - destruct (Hf a Ha E).
  - destruct (Hf b Hb (eq_sym E)).
  - reflexivity.
Qed.

(** The state after an append of a new event. *)
Definition pushed (log : InMemoryEventLog) (d : EventDraft) (e : StoredEvent) : InMemoryEventLog := {|
  l_events := l_events log ++ [e];
  l_providerEvents := <[provider_key (d_provider d) := e]> (l_providerEvents log);
  l_streamVersions :=
    <[d_subject d := default 0 (l_streamVersions log !! d_subject d) + 1]> (l_streamVersions log) |}.

Lemma pushed_inv log d t :
  log_inv log → valid_draft d → 0 <= t <= MAX_SAFE_INTEGER →
  l_providerEvents log !! provider_key (d_provider d) = None →
  log_inv (pushed log d (new_event (l_events log) d t)).
Proof.
  intros Hinv Hd Ht Hnone.
  assert (Hfresh : Forall (λ x : StoredEvent,
    provider_key (d_provider x) ≠ provider_key (d_provider d)) (l_events log)).
  { apply Forall_forall. intros x Hx E.
    pose proof (proj2 (li_provider _ Hinv _ x) (conj Hx E)) as Hs. congruence. }
  split; cbn [pushed l_events l_providerEvents l_streamVersions].
  - constructor; [apply Hinv|]. apply new_event_next; auto. apply Hinv.
  - intros k e. rewrite elem_of_app, list_elem_of_singleton.
    destruct (decide (provider_key (d_provider d) = k)) as [<-|Hne].
    + rewrite lookup_insert_eq. split.
      * intros [= <-]. split; [by right|reflexivity].
      * intros [[Hin| ->] E]; [|reflexivity]. rewrite Forall_forall in Hfresh.
        destruct (Hfresh e Hin E).
    + rewrite lookup_insert_ne by exact Hne. rewrite (li_provider _ Hinv). split.
      * intros [? ?]. split; [by left|assumption].
      * intros [[Hin| ->] E]; [split; [exact Hin|exact E]|]. destruct (Hne E).
  - intros s. unfold subject_count. rewrite zsum_app.
    change (zsum ?f [?x]) with (f x + 0). cbn [new_event new_captured s_captured c_draft].
    destruct (decide (d_subject d = s)) as [<-|Hne].
    + rewrite lookup_insert_eq. cbn [default]. rewrite (li_streams _ Hinv).
      rewrite bool_decide_eq_true_2 by reflexivity. unfold subject_count. cbn. lia.
    + rewrite lookup_insert_ne by exact Hne. rewrite (li_streams _ Hinv).
      rewrite bool_decide_eq_false_2 by exact Hne. unfold subject_count. lia.
Qed.

Context `{Zod}.

(** What [append] does, branch by branch. *)
Lemma append_eq log v now d :
  json_wf v → log_inv log → validateEventDraft v = Ok d →
  append v now log =
    match l_providerEvents log !! provider_key (d_provider d) with
    | Some e => (log, redeliver e d)
    | None =>
        match assertTrustedTime now with
        | Ok t => let e := new_event (l_events log) d t in
            (pushed log d e, Ok {| ar_event := e; ar_disposition := Appended |})
        | Throw x => (log, Throw x)
        end
    end.
Proof.
  intros Hwf Hinv Hv.
  destruct (validateEventDraft_untrusted v d Hwf Hv) as (Hdwf & Hok & Hn & _).
  assert (Hd : valid_draft d) by done.
  unfold append, sm_bind, sm_lift, sm_get. rewrite Hv, (providerKey_Ok d Hok).
  destruct (l_providerEvents log !! provider_key (d_provider d)) as [e|] eqn:Ek; [reflexivity|].
  destruct (assertTrustedTime now) as [t|x] eqn:Et; [|reflexivity].
  assert (Ht : 0 <= t <= MAX_SAFE_INTEGER).
  { unfold assertTrustedTime in Et. destruct now as [z| |]; [| |]; try discriminate Et.
    - apply or_throw_Ok in Et. by eapply epoch_value_Some. }
  rewrite (capture_Ok log d t Hinv Hd Ht). unfold sm_modify, sm_ret.
  rewrite copyEvent_canonical by (apply new_event_canonical; [apply Hinv|done|done]).
  reflexivity.
Qed.

Lemma redeliver_spec e d r :
  canonical_event e → redeliver e d = Ok r ↔
    p_artifactHash (d_provider e) = p_artifactHash (d_provider d) ∧
    (∃ t, canonicalJson (draft_json e) = Ok t ∧ canonicalJson (draft_json d) = Ok t) ∧
    r = {| ar_event := e; ar_disposition := Redelivery |}.
Proof.
  intros He. unfold redeliver, draftFromStored. rewrite copyEvent_canonical by done. split.
  - intros Hr. apply res_bind_Ok in Hr as ([] & H1 & Hr). apply throw_if_Ok in H1.
    apply negb_bool_decide_false in H1.
    apply res_bind_Ok in Hr as (t & Ht & Hr). apply res_bind_Ok in Hr as (t' & Ht' & Hr).
    apply res_bind_Ok in Hr as ([] & H2 & Hr). apply throw_if_Ok in H2.
    apply negb_bool_decide_false in H2. subst t'. cbn [mbind res_bind] in Hr.
    apply Ok_inj in Hr as <-. split; [exact H1|]. split; [by exists t|reflexivity].
  - intros (H1 & (t & Ht & Ht') & ->). rewrite (bool_decide_eq_true_2 _ H1).
    cbn [negb throw_if mbind res_bind]. rewrite Ht. cbn [mbind res_bind]. rewrite Ht'.
    cbn [mbind res_bind]. by rewrite (bool_decide_eq_true_2 _ eq_refl).
Qed.
End append.

(** ** Reading pages *)

Lemma page_limit_pos limit n : assertPageLimit limit = Ok n → 1 <= n <= 10000.
Proof.
  unfold assertPageLimit. destruct limit as [z| |]; try done.
  destruct (_ || _) eqn:E; [done|]. intros [= <-]. bool_prop. lia.
Qed.

Lemma nonneg_position n : nonnegative_decimal (dec (Z.of_nat n)) = true.
Proof. apply dec_nonnegative. lia. Qed.

Section reading.
Context `{Sha256}.

(** A page read from the log [es] after position [k]. *)
Definition page_after (es : list StoredEvent) (k n : nat) : EventPage := {|
  pg_events := take n (drop k es);
  pg_nextPosition := dec (Z.of_nat (k + length (take n (drop k es))));
  pg_hasMore := bool_decide (k + length (take n (drop k es)) < length es)%nat |}.

Lemma page_end_eq es k n :
  log_events es → page_end (dec (Z.of_nat k)) (take n (drop k es)) =
    dec (Z.of_nat (k + length (take n (drop k es)))).
Proof.
  intros Hes. unfold page_end. set (l := take n (drop k es)).
  destruct (last l) as [e|] eqn:El.
  - rewrite last_lookup in El. set (i := pred (length l)) in *.
    pose proof (lookup_lt_Some _ _ _ El) as Hlt.
    unfold l in El. rewrite lookup_take_Some in El. destruct El as [El Hin].
    rewrite lookup_drop in El. rewrite (log_position es (k + i) e Hes El). f_equal. lia.
  - apply last_None in El. rewrite El. cbn. by rewrite Nat.add_0_r.
Qed.

Lemma read_after_eq es k limit n :
  log_events es → assertPageLimit limit = Ok n →
  read_after es (dec (Z.of_nat k)) limit = Ok (page_after es k (Z.to_nat n)).
Proof.
  intros Hes Hl. unfold read_after. rewrite Hl. cbn [mbind res_bind].
  rewrite BigInt_dec by lia. cbn [mbind res_bind].
  rewrite (proj2 (Z.ltb_ge _ _)) by lia. cbn [throw_if mbind res_bind].
  assert (Hd : drop (Z.to_nat (Z.min (Z.of_nat k) (Z.of_nat (length es)))) es = drop k es).
  { destruct (decide (k <= length es)%nat).
    - f_equal. lia.
    - rewrite !drop_ge by lia. done. }
  rewrite Hd. rewrite copy_all by (apply Forall_take, Forall_drop; by apply log_canonical).
  cbn [mbind res_bind]. rewrite page_end_eq by done. rewrite BigInt_dec by lia.
  cbn [mbind res_bind]. f_equal. unfold page_after. f_equal.
  set (l := length (take (Z.to_nat n) (drop k es))).
  destruct (Z.ltb_spec (Z.of_nat (k + l)) (Z.of_nat (length es))).
  - symmetry. apply bool_decide_eq_true_2. lia.
  - symmetry. apply bool_decide_eq_false_2. lia.
Qed.
End reading.

(** ** The outcome of an append *)

Section append.
Context `{Sha256} `{Zod}.

Lemma validated_or_unchanged v now log :
  (∃ d, validateEventDraft v = Ok d) ∨ ∃ e, append v now log = (log, Throw e).
Proof.
  unfold append, sm_bind, sm_lift. destruct (validateEventDraft v) as [d|e]; [left; by exists d|].
  right. by exists e.
Qed.

Lemma trusted_bounds now t : assertTrustedTime now = Ok t → 0 <= t <= MAX_SAFE_INTEGER.
Proof.
  unfold assertTrustedTime. destruct now; try done; intros Ht%or_throw_Ok; by eapply epoch_value_Some.
Qed.

(** The outcome of one call. *)
Definition append_outcome (log log' : InMemoryEventLog) (r : res AppendResult) : Prop :=
  match r with
  | Throw _ => log' = log
  | Ok {| ar_event := e; ar_disposition := Redelivery |} => log' = log ∧ e ∈ l_events log
  | Ok {| ar_event := e; ar_disposition := Appended |} => l_events log' = l_events log ++ [e]
  end.

Lemma append_step v now log log' r :
  json_wf v → log_inv log → append v now log = (log', r) →
  log_inv log' ∧ append_outcome log log' r.
Proof.
  intros Hwf Hinv Ha. destruct (validated_or_unchanged v now log) as [[d Hd]|[e He]].
  2: { rewrite He in Ha. injection Ha as <- <-. done. }
  rewrite (append_eq log v now d Hwf Hinv Hd) in Ha.
  destruct (validateEventDraft_untrusted v d Hwf Hd) as (Hdwf & Hok & Hn & _).
  destruct (l_providerEvents log !! provider_key (d_provider d)) as [e|] eqn:Ek.
  - injection Ha as <- <-. split; [exact Hinv|].
    apply (li_provider _ Hinv) in Ek as [Hin _].
    pose proof (log_canonical _ (li_events _ Hinv)) as Hcan. rewrite Forall_forall in Hcan.
    destruct (redeliver e d) as [a|x] eqn:Er; [|reflexivity].
    apply redeliver_spec in Er as (_ & _ & ->); [|exact (Hcan e Hin)].
    cbn. split; [reflexivity|exact Hin].
  - destruct (assertTrustedTime now) as [t|x] eqn:Et; injection Ha as <- <-.
    + split; [|reflexivity]. apply pushed_inv; [exact Hinv|split_and!; assumption| |exact Ek].
      by eapply trusted_bounds.
    + split; [exact Hinv|reflexivity].
Qed.
End append.
