(* ===== verification/EventLogClaims.v ===== *)
(** * What the event logs guarantee *)
From S2P Require Import Prelude JsString JsNumber Json JsonLimits JsonParse JsonClaims Hash.
From S2P Require Import Sha256Impl Zod JsonObject Clock Event EventFacts EventChain EventClaims.
From S2P Require Import EventLog EventLogFacts.

(** ** The in-memory log *)

(** A sequence of calls, each with the clock's reading; callers catch
    exceptions and go on. *)
Definition run_appends `{Sha256} `{Zod} (inputs : list (json * jsnum)) (log : InMemoryEventLog) :
    InMemoryEventLog :=
  foldl (λ log input, (append input.1 input.2 log).1) log inputs.

(** C5: whatever sequence of drafts callers append to an empty log, accepted or
    refused, the log keeps its invariant: positions 1, 2, ..., correct
    identifiers, content and chain hashes, non-decreasing logical time, stream
    versions counting each subject's events, one event per provider record, and
    indexes that agree with the list; and events already stored never change. *)
Theorem event_log_invariant `{Sha256} `{Zod} (inputs : list (json * jsnum)) (k : nat)
    (Hwf : Forall (λ i, json_wf i.1) inputs) :
  log_inv (run_appends inputs empty_log) ∧
  l_events (run_appends (take k inputs) empty_log) `prefix_of` l_events (run_appends inputs empty_log).
Proof.
  assert (Hrun : ∀ l log, Forall (λ i : json * jsnum, json_wf i.1) l → log_inv log →
    log_inv (run_appends l log) ∧ l_events log `prefix_of` l_events (run_appends l log)).
  { clear. induction l as [|[v now] l IH]; intros log Hl Hinv; [done|].
    apply Forall_cons in Hl as [Hv Hl]. unfold run_appends. cbn [foldl fst snd].
    destruct (append v now log) as [log' r] eqn:Ea. cbn [fst].
    destruct (append_step v now log log' r Hv Hinv Ea) as [Hinv' Hout].
    destruct (IH log' Hl Hinv') as [H1 H2]. split; [exact H1|].
    etrans; [|exact H2]. unfold append_outcome in Hout.
    destruct r as [[e []]|x]; [rewrite Hout; by eexists|by destruct Hout as [-> _]|by subst]. }
  split; [by apply Hrun, empty_log_inv|].
  rewrite <-(take_drop k inputs) at 2. unfold run_appends. rewrite foldl_app.
  apply Hrun; [by apply Forall_drop|]. apply Hrun; [by apply Forall_take|apply empty_log_inv].
Qed.

Definition example_inputs : list (json * jsnum) :=
  [(draft_json fixture_draft, NInt 1800000000000); (JNull, NInt 0);
   (draft_json fixture_draft, NInt 1800000000001)].

Lemma example_inputs_wf : Forall (λ i, json_wf i.1) example_inputs.
Proof.
  repeat (apply Forall_cons_2; [apply json_wfb_wf; vm_compute; reflexivity|]). apply Forall_nil_2.
Qed.

(** The first call stores the fixture's event, the others change nothing. *)
Lemma example_log : l_events (run_appends example_inputs empty_log) = [fixture_event].
Proof. vm_compute. reflexivity. Qed.

Lemma event_log_invariant_witness :
  log_inv (run_appends example_inputs empty_log).
Proof. exact (proj1 (event_log_invariant example_inputs 0 example_inputs_wf)). Defined.

(** redelivery is idempotent: once an append returned an event, appending
    any rendering of the same draft again, at any later time and after any other
    appends, returns that event as a redelivery and leaves the log unchanged. *)
Theorem redelivery_idempotent `{Sha256} `{Zod} (log : InMemoryEventLog) (v w : json)
    (now now' : jsnum) (e : StoredEvent) (disp : disposition) (log1 : InMemoryEventLog)
    (others : list (json * jsnum))
    (Hinv : log_inv log) (Hv : json_wf v) (Hw : json_wf w) (Hvw : json_equiv v w)
    (Ho : Forall (λ i, json_wf i.1) others)
    (Ha : append v now log = (log1, Ok {| ar_event := e; ar_disposition := disp |})) :
  append w now' (run_appends others log1) =
    (run_appends others log1, Ok {| ar_event := e; ar_disposition := Redelivery |}).
Proof.
  destruct (append_step v now log log1 _ Hv Hinv Ha) as [Hinv1 Hout].
  assert (He1 : e ∈ l_events log1).
  { cbn in Hout. destruct disp; [rewrite Hout; apply elem_of_app; right; by left|].
    by destruct Hout as [-> ?]. }
  assert (Hrun : ∀ l log, Forall (λ i : json * jsnum, json_wf i.1) l → log_inv log →
    e ∈ l_events log → log_inv (run_appends l log) ∧ e ∈ l_events (run_appends l log)).
  { clear. induction l as [|[v now] l IH]; intros log Hl Hinv He; [done|].
    apply Forall_cons in Hl as [Hv Hl]. unfold run_appends. cbn [foldl fst snd].
    destruct (append v now log) as [log' r] eqn:Ea. cbn [fst].
    destruct (append_step v now log log' r Hv Hinv Ea) as [Hinv' Hout].
    apply IH; [exact Hl|exact Hinv'|]. unfold append_outcome in Hout.
    destruct r as [[x []]|x]; [rewrite Hout; apply elem_of_app; by left|
      by destruct Hout as [-> _]|by subst]. }
  destruct (Hrun others log1 Ho Hinv1 He1) as [Hinv2 He2]. clear Hrun.
  (* the draft that was stored *)
  destruct (validated_or_unchanged v now log) as [[d Hd]|[x Hx]]; [|rewrite Hx in Ha; done].
  destruct (validateEventDraft_untrusted v d Hv Hd) as (Hdwf & Hok & Hn & Hvd).
  assert (Hdraft : p_artifactHash (d_provider e) = p_artifactHash (d_provider d) ∧
    provider_key (d_provider e) = provider_key (d_provider d) ∧
    ∃ t, canonicalJson (draft_json e) = Ok t ∧ canonicalJson (draft_json d) = Ok t).
  { rewrite (append_eq log v now d Hv Hinv Hd) in Ha.
    destruct (l_providerEvents log !! provider_key (d_provider d)) as [e0|] eqn:Ek.
    - injection Ha as _ Hr. apply (li_provider _ Hinv) in Ek as [Hin0 Hk0].
      pose proof (log_canonical _ (li_events _ Hinv)) as Hcan. rewrite Forall_forall in Hcan.
      apply redeliver_spec in Hr as (H1 & H2 & H3); [|exact (Hcan e0 Hin0)].
      injection H3 as -> ->. split_and!; [exact H1|exact Hk0|exact H2].
    - destruct (assertTrustedTime now) as [t|x]; [|discriminate Ha].
      injection Ha as _ <- _. cbn [new_event new_captured s_captured c_draft].
      split_and!; [reflexivity|reflexivity|].
      exists (print (norm (draft_json d))). split; apply encode_encodable_Ok;
        unfold draft_ok in Hok; rewrite !andb_true_iff in Hok; destruct Hok as [[Hw' _] _];
        by eapply json_within_encodable. }
  destruct Hdraft as (H1 & H2 & H3).
  pose proof (validateEventDraft_norm v w d Hv Hw Hvw Hd) as Hdw.
  rewrite (append_eq _ w now' d Hw Hinv2 Hdw).
  rewrite (proj2 (li_provider _ Hinv2 (provider_key (d_provider d)) e) (conj He2 H2)).
  pose proof (log_canonical _ (li_events _ Hinv2)) as Hcan. rewrite Forall_forall in Hcan.
  rewrite (proj2 (redeliver_spec e d _ (Hcan e He2)) (conj H1 (conj H3 eq_refl))). reflexivity.
Qed.

Lemma fixture_draft_json_wf : json_wf (draft_json fixture_draft).
Proof. apply json_wfb_wf. vm_compute. reflexivity. Qed.

Definition fixture_log : InMemoryEventLog :=
  (append (draft_json fixture_draft) (NInt 1800000000000) empty_log).1.

Lemma fixture_append :
  append (draft_json fixture_draft) (NInt 1800000000000) empty_log =
    (fixture_log, Ok {| ar_event := fixture_event; ar_disposition := Appended |}).
Proof. vm_compute. reflexivity. Qed.

Lemma redelivery_idempotent_witness :
  append (norm (draft_json fixture_draft)) (NInt 7) fixture_log =
    (fixture_log, Ok {| ar_event := fixture_event; ar_disposition := Redelivery |}).
Proof.
  exact (redelivery_idempotent empty_log (draft_json fixture_draft)
    (norm (draft_json fixture_draft)) (NInt 1800000000000) (NInt 7) fixture_event Appended
    fixture_log [] empty_log_inv fixture_draft_json_wf (norm_wf _ fixture_draft_json_wf)
    (eq_sym (norm_idemp _)) (Forall_nil_2 _) fixture_append).
Defined.

(** ** Reading pages *)

Section reading.
Context `{Sha256}.

(** Reading on until a page says there is no more. *)
Fixpoint read_all (es : list StoredEvent) (fuel : nat) (position : jsstring) (limit : jsnum) :
    option (res (list StoredEvent)) :=
  match fuel with
  | O => None
  | S fuel =>
      match read_after es position limit with
      | Throw e => Some (Throw e)
      | Ok page =>
          if pg_hasMore page then
            match read_all es fuel (pg_nextPosition page) limit with
            | Some (Ok rest) => Some (Ok (pg_events page ++ rest))
            | r => r
            end
          else Some (Ok (pg_events page))
      end
  end.
End reading.

(** paging through the in-memory log with any valid page limit ends, after
    at most one page per event and one, and returns every event once, in order;
    each page's cursor is the position of its last event. *)
Theorem paging_complete `{Sha256} `{Zod} (log : InMemoryEventLog) (limit : jsnum) (n : Z)
    (Hinv : log_inv log) (Hlimit : assertPageLimit limit = Ok n) :
  read_all (l_events log) (S (length (l_events log))) (js "0") limit = Some (Ok (l_events log)) ∧
  ∀ k, readAfter log (dec (Z.of_nat k)) limit = Ok (page_after (l_events log) k (Z.to_nat n)).
Proof.
  pose proof (li_events _ Hinv) as Hes. apply page_limit_pos in Hlimit as Hn.
  split; [|intros k; by apply read_after_eq].
  assert (Hall : ∀ fuel k, (length (l_events log) - k < fuel)%nat →
    read_all (l_events log) fuel (dec (Z.of_nat k)) limit = Some (Ok (drop k (l_events log)))).
  { induction fuel as [|fuel IH]; intros k Hk; [lia|]. cbn [read_all].
    rewrite (read_after_eq _ k limit n Hes Hlimit).
    unfold page_after at 1. cbn [pg_hasMore]. case_bool_decide as Hmore.
    - cbn [page_after pg_nextPosition pg_events].
      rewrite length_take, length_drop in *. rewrite IH by lia. f_equal. f_equal.
      rewrite <-(take_drop (Z.to_nat n) (drop k (l_events log))) at 2. f_equal.
      rewrite drop_drop. f_equal. lia.
    - cbn [page_after pg_events]. rewrite length_take, length_drop in Hmore.
      rewrite take_ge; [done|]. rewrite length_drop. lia. }
  exact (Hall (S (length (l_events log))) O ltac:(lia)).
Qed.

Lemma fixture_log_inv : log_inv fixture_log.
Proof.
  pose proof (append_step _ _ _ _ _ fixture_draft_json_wf empty_log_inv fixture_append) as [H _].
  exact H.
Qed.

Lemma paging_complete_witness :
  read_all (l_events fixture_log) (S (length (l_events fixture_log))) (js "0") (NInt 1) =
    Some (Ok (l_events fixture_log)).
Proof. exact (proj1 (paging_complete fixture_log (NInt 1) 1 fixture_log_inv eq_refl)). Defined.

(** ** Replay *)

Section replay.
Context `{Sha256} `{Zod}.

Lemma captured_fold es prev k r :
  Forall stored_wf es →
  res_fold captured_step (prev, k) es = Ok r ↔
    (∀ i e, es !! i = Some e → s_position e = dec (k + Z.of_nat i)) ∧
    chained prev es r.1 ∧ r.2 = k + Z.of_nat (length es).
Proof.
  intros Hes. revert prev k. induction Hes as [|e es He Hes IH]; intros prev k; cbn [res_fold chained].
  - split.
    + intros [= <-]. split_and!; [done|done|cbn; lia].
    + intros (_ & H1 & H2). destruct r. cbn in *. subst. do 2 f_equal. lia.
  - rewrite res_bind_Ok. split.
    + intros (st & Hs & Hr). unfold captured_step in Hs.
      apply res_bind_Ok in Hs as ([] & Hp & Hs). apply throw_if_Ok, negb_bool_decide_false in Hp.
      apply res_bind_Ok in Hs as ([] & Hv & Hs). apply Ok_inj in Hs as <-.
      apply verifyStoredEvent_spec in Hv; [|exact He]. apply IH in Hr as (H1 & H2 & H3).
      split_and!; [|exact Hv|exact H2|cbn [length]; lia].
      intros [|i] x Hx; [injection Hx as <-; rewrite Hp; f_equal; lia|].
      rewrite (H1 i x Hx). f_equal. lia.
    + intros (Hp & [Hl Hc] & Hr). exists (s_eventHash e, k + 1). split.
      * unfold captured_step. rewrite (bool_decide_eq_true_2 (s_position e = dec k)).
        2: { rewrite (Hp O e eq_refl). f_equal. lia. }
        cbn [negb throw_if mbind res_bind].
        by rewrite (proj2 (verifyStoredEvent_spec e prev He) Hl).
      * apply IH. split_and!; [|exact Hc|cbn [length] in Hr; lia].
        intros i x Hx. rewrite (Hp (S i) x Hx). f_equal. lia.
Qed.

Lemma stored_ok_encodable e : stored_ok e = true → encodable (stored_json e) = true.
Proof. apply stored_encodable. Qed.

(** The constructor accepts exactly the verified streams. *)
Lemma new_CapturedEventLog_spec es l :
  Forall stored_wf es →
  new_CapturedEventLog es = Ok l ↔
    (∀ i e, es !! i = Some e → s_position e = dec (Z.of_nat i + 1)) ∧
    (∃ head, chained ZERO_HASH es head) ∧ l = {| cl_events := map norm_stored es |}.
Proof.
  intros Hes. unfold new_CapturedEventLog. rewrite res_bind_Ok.
  setoid_rewrite (captured_fold es ZERO_HASH 1); [|done].
  assert (Hcopy : (∃ head, chained ZERO_HASH es head) → res_map copyEvent es = Ok (map norm_stored es)).
  { intros [head Hc]. apply res_map_total. clear l. revert Hc. generalize ZERO_HASH as p.
    induction Hes as [|e es He Hes IH]; intros p Hc; [constructor|]. destruct Hc as [Hl Hc].
    constructor; [|by eapply IH]. apply copyEvent_spec; [exact He|]. split; [|reflexivity].
    apply stored_ok_encodable. exact (proj1 Hl). }
  split.
  - intros (r & (Hp & Hc & _) & Hr). rewrite Hcopy in Hr by (by exists r.1).
    cbn [mbind res_bind] in Hr. apply Ok_inj in Hr as <-. split_and!; [|by exists r.1|done].
    intros i e Hi. rewrite (Hp i e Hi). f_equal. lia.
  - intros (Hp & [head Hc] & ->). exists (head, 1 + Z.of_nat (length es)). split.
    + split_and!; [|exact Hc|done]. intros i e Hi. rewrite (Hp i e Hi). f_equal. lia.
    + rewrite Hcopy by (by exists head). done.
Qed.

Lemma log_chained es :
  log_events es → Forall (λ e, stored_ok e = true) es → chained ZERO_HASH es (head_hash es).
Proof.
  induction 1 as [|pre e Hpre IH Hn]; intros Hok; [done|].
  apply Forall_app in Hok as [Hok He]. rewrite Forall_singleton in He.
  apply chained_snoc. exists (head_hash pre). split; [by apply IH|]. split.
  - unfold event_linked. destruct Hn. split_and!; assumption.
  - unfold head_hash. by rewrite last_snoc.
Qed.
End replay.

(** a stream captured by the in-memory log, with every stored envelope
    within the envelope limits, is accepted by the replay log, which then holds
    exactly the same events and returns the same pages. *)
Theorem captured_log_replays `{Sha256} `{Zod} (log : InMemoryEventLog)
    (Hinv : log_inv log) (Hok : Forall (λ e, stored_ok e = true) (l_events log)) :
  ∃ captured, new_CapturedEventLog (l_events log) = Ok captured ∧
    cl_events captured = l_events log ∧
    ∀ position limit, log_readAfter captured position limit = log_readAfter log position limit.
Proof.
  pose proof (li_events _ Hinv) as Hes. pose proof (log_canonical _ Hes) as Hcan.
  assert (Hwf : Forall stored_wf (l_events log)) by (eapply Forall_impl; [exact Hcan|]; by intros e [? _]).
  assert (Hmap : map norm_stored (l_events log) = l_events log).
  { rewrite <-(map_id (l_events log)) at 2. apply map_ext_in. intros e He%list_elem_of_In.
    rewrite Forall_forall in Hcan. by destruct (Hcan e He) as (_ & _ & ->). }
  exists {| cl_events := l_events log |}. split_and!; [|done|done].
  apply new_CapturedEventLog_spec; [exact Hwf|]. split_and!.
  - intros i e Hi. by eapply log_position.
  - exists (head_hash (l_events log)). by apply log_chained.
  - by rewrite Hmap.
Qed.

Lemma fixture_log_ok : Forall (λ e, stored_ok e = true) (l_events fixture_log).
Proof.
  assert (E : l_events fixture_log = [fixture_event]) by (vm_compute; reflexivity).
  rewrite E. apply Forall_cons_2; [exact fixture_ok|apply Forall_nil_2].
Qed.

Lemma captured_log_replays_witness :
  ∃ captured, new_CapturedEventLog (l_events fixture_log) = Ok captured ∧
    cl_events captured = l_events fixture_log.
Proof.
  destruct (captured_log_replays fixture_log fixture_log_inv fixture_log_ok) as (c & H1 & H2 & _).
  exists c. split; assumption.
Defined.

(** the replay log's head hash determines its contents: two non-empty
    streams the constructor accepts that end in the same event hash have the same
    length and hold the same events, up to key order inside payloads, when SHA-256
    separates the messages hashed. *)
Theorem captured_log_determined `{Sha256} `{Zod} (es1 es2 : list StoredEvent)
    (e1 e2 : StoredEvent) (l1 l2 : CapturedEventLog)
    (Hwf1 : Forall stored_wf (es1 ++ [e1])) (Hwf2 : Forall stored_wf (es2 ++ [e2]))
    (H1 : new_CapturedEventLog (es1 ++ [e1]) = Ok l1)
    (H2 : new_CapturedEventLog (es2 ++ [e2]) = Ok l2)
    (Hhead : s_eventHash e1 = s_eventHash e2)
    (Hsha : distinguishes (chain_messages (es1 ++ [e1]) ++ chain_messages (es2 ++ [e2]))) :
  length es1 = length es2 ∧ Forall2 same_event (es1 ++ [e1]) (es2 ++ [e2]).
Proof.
  apply new_CapturedEventLog_spec in H1 as (Hp1 & [h1 Hc1] & _); [|exact Hwf1].
  apply new_CapturedEventLog_spec in H2 as (Hp2 & [h2 Hc2] & _); [|exact Hwf2].
  pose proof Hc1 as Hs1. pose proof Hc2 as Hs2.
  apply chained_snoc in Hs1 as (m1 & _ & Hl1 & E1). apply chained_snoc in Hs2 as (m2 & _ & Hl2 & E2).
  assert (Hsub : distinguishes (chain_messages [e1] ++ chain_messages [e2])).
  { eapply distinguishes_sub; [|exact Hsha]. intros m. rewrite !elem_of_app.
    intros [Hm|Hm]; [left|right]; (eapply chain_messages_sub; [|exact Hm]);
      intros e ->%list_elem_of_singleton; apply elem_of_app; right; by left. }
  pose proof (proj1 (Forall_app _ _ _) Hwf1) as [_ Hw1]. rewrite Forall_singleton in Hw1.
  pose proof (proj1 (Forall_app _ _ _) Hwf2) as [_ Hw2]. rewrite Forall_singleton in Hw2.
  assert (Hpos : s_position e1 = s_position e2).
  { pose proof (Hp1 (length es1) e1 (list_lookup_middle _ _ _ _ eq_refl)) as P1.
    assert (Ech : chain_preimage e1 = chain_preimage e2).
    { destruct (chain_messages_elem e1 [e1] ltac:(left)) as [_ M1].
      destruct (chain_messages_elem e2 [e2] ltac:(left)) as [_ M2].
      apply Hsub; [apply elem_of_app; left; exact M1|apply elem_of_app; right; exact M2|].
      destruct Hl1 as (_ & _ & _ & _ & <-), Hl2 as (_ & _ & _ & _ & <-). exact Hhead. }
    apply (chain_preimage_inj e1 e2 Hw1 Hw2 (proj1 Hl1) (proj1 Hl2)) in Ech. tauto. }
  assert (Hlen : length es1 = length es2).
  { rewrite (Hp1 (length es1) e1 (list_lookup_middle _ _ _ _ eq_refl)),
      (Hp2 (length es2) e2 (list_lookup_middle _ _ _ _ eq_refl)) in Hpos.
    apply dec_inj in Hpos; lia. }
  split; [exact Hlen|]. subst h1 h2. rewrite <-Hhead in Hc2.
  refine (proj2 (chained_commits _ _ _ _ _ Hwf1 Hwf2 _ Hc1 Hc2 Hsha)).
  rewrite !length_app, Hlen. reflexivity.
Qed.

Lemma captured_log_determined_witness :
  Forall2 same_event [fixture_event] [fixture_event_reordered].
Proof.
  assert (H1 : ∃ l, new_CapturedEventLog [fixture_event] = Ok l)
    by (eexists; vm_compute; reflexivity).
  assert (H2 : ∃ l, new_CapturedEventLog [fixture_event_reordered] = Ok l)
    by (eexists; vm_compute; reflexivity).
  destruct H1 as [l1 H1], H2 as [l2 H2].
  exact (proj2 (captured_log_determined [] [] fixture_event fixture_event_reordered l1 l2
    (proj2 (Forall_singleton _ _) fixture_wf) (proj2 (Forall_singleton _ _) fixture_reordered_wf)
    H1 H2 eq_refl fixture_messages_distinct)).
Defined.
