(* ===== verification/EventLimits.v ===== *)
(** * Envelope limits of appended events

    [append] validates the draft against the envelope limits, but stores an
    envelope with eight more fields and does not validate that one.  An appended
    event is acceptable to [validateStoredEvent] exactly when its own canonical
    length is within the limit ([stored_ok_bytes]); 512 bytes of headroom in the
    draft are enough, and without headroom the log can store an event that every
    reader refuses. *)
From S2P Require Import Prelude JsString JsNumber Json JsonLimits JsonParse JsonClaims Hash.
From S2P Require Import Sha256Impl Zod JsonObject Clock Event EventFacts EventChain EventLog.
From S2P Require Import EventLogFacts EventClaims EventLogClaims.

(** The eight fields the log adds. *)
Definition added_fields (e : StoredEvent) : jobject :=
  [(js "eventId", JStr (c_eventId e)); (js "streamVersion", JStr (c_streamVersion e));
   (js "receivedAtMs", jint (c_receivedAtMs e)); (js "logicalAtMs", jint (c_logicalAtMs e));
   (js "position", JStr (s_position e)); (js "contentHash", JStr (s_contentHash e));
   (js "previousEventHash", JStr (s_previousEventHash e)); (js "eventHash", JStr (s_eventHash e))].

Definition added_shape : list (jsstring * schema) :=
  [(js "eventId", hash); (js "streamVersion", positiveDecimal); (js "receivedAtMs", epochMs);
   (js "logicalAtMs", epochMs); (js "position", positiveDecimal); (js "contentHash", hash);
   (js "previousEventHash", hash); (js "eventHash", hash)].

Lemma stored_fields_split (e : StoredEvent) : stored_fields e = draft_fields e ++ added_fields e.
Proof. unfold stored_fields, captured_fields, added_fields. by rewrite <-app_assoc. Qed.

Lemma storedEventSchema_split : storedEventSchema = SObject (eventDraftShape ++ added_shape).
Proof. reflexivity. Qed.

(** Text a log adds: short and ASCII. *)
Definition short_ascii (n : Z) (s : jsstring) : Prop :=
  Forall (λ u, 0 <= u < 128 ∧ 32 <= u ∧ u ≠ 34 ∧ u ≠ 92) s ∧ js_length s <= n.

Lemma quote_ascii s :
  Forall (λ u, 0 <= u < 128 ∧ 32 <= u ∧ u ≠ 34 ∧ u ≠ 92) s → quote_units s = s.
Proof.
  induction 1 as [|u s (Hu & H1 & H2 & H3) Hs IH]; [done|]. cbn [quote_units].
  destruct (ascii_not_surrogate u ltac:(lia)) as [Eh El]. rewrite Eh, IH.
  unfold quote_unit, QUOTE, BACKSLASH. rewrite Eh, El.
  rewrite !(proj2 (Z.eqb_neq u _)) by lia. rewrite (proj2 (Z.ltb_ge u 32)) by lia. done.
Qed.

Lemma utf8_ascii s : Forall (λ u, 0 <= u < 128) s → utf8 s = s.
Proof.
  induction 1 as [|u s Hu Hs IH]; [done|]. cbn [utf8].
  destruct (ascii_not_surrogate u ltac:(lia)) as [-> ->]. rewrite IH. unfold utf8_unit.
  by rewrite (proj2 (Z.ltb_lt u 128)) by lia.
Qed.

Lemma short_ascii_bytes n s :
  short_ascii n s → byte_length s <= n ∧ byte_length (json_quote s) <= n + 2.
Proof.
  intros [Hs Hn].
  assert (Ha : Forall (λ u, 0 <= u < 128) s) by (eapply Forall_impl; [exact Hs|by intros u [? _]]).
  split.
  - unfold byte_length. rewrite utf8_ascii by done. exact Hn.
  - unfold json_quote. rewrite quote_ascii by done. unfold byte_length.
    rewrite utf8_ascii.
    + cbn [length]. rewrite length_app. cbn [length]. unfold js_length in Hn. lia.
    + constructor; [unfold QUOTE; lia|]. apply Forall_app; split; [done|].
      constructor; [unfold QUOTE; lia|constructor].
Qed.

Lemma hash_short s : is_hash s = true → short_ascii 64 s.
Proof.
  intros Hs. split; [|rewrite (is_hash_length s Hs); lia].
  unfold is_hash in Hs. apply andb_true_iff in Hs as [_ Hs]. rewrite forallb_forall in Hs.
  apply Forall_forall. intros u Hu%list_elem_of_In. specialize (Hs u Hu).
  unfold is_lower_hex in Hs. apply orb_true_iff in Hs as [Hs|Hs]; bool_prop; lia.
Qed.

Lemma dec_nat_length z n : 0 <= z < 10 ^ Z.of_nat (S n) → (length (dec_nat z) <= S n)%nat.
Proof.
  revert z. induction n as [|n IH]; intros z Hz.
  - unfold dec_nat. cbn [digits_fuel]. change (10 ^ Z.of_nat 1) with 10 in Hz.
    rewrite (proj2 (Z.ltb_lt z 10)) by lia. cbn. lia.
  - destruct (Z.ltb_spec z 10) as [Hlt|Hge].
    + unfold dec_nat. cbn [digits_fuel]. rewrite (proj2 (Z.ltb_lt z 10)) by lia. cbn. lia.
    + rewrite dec_nat_step by lia. rewrite length_app. cbn [length].
      assert (z / 10 < 10 ^ Z.of_nat (S n)).
      { apply Z.div_lt_upper_bound; [lia|]. rewrite Nat2Z.inj_succ, Z.pow_succ_r in Hz by lia. lia. }
      specialize (IH (z / 10) ltac:(split; [apply Z.div_pos; lia|lia])). lia.
Qed.

Lemma dec_short z : 0 <= z < 10 ^ 16 → short_ascii 16 (dec z).
Proof.
  intros Hz. rewrite dec_nonneg by lia. split.
  - apply Forall_forall. intros u Hu. destruct (dec_nat_spec z ltac:(lia)) as (_ & Hd & _).
    unfold all_digits in Hd. rewrite forallb_forall in Hd.
    specialize (Hd u (proj1 (list_elem_of_In _ _) Hu)). unfold is_digit in Hd. bool_prop. lia.
  - unfold js_length. pose proof (dec_nat_length z 15 ltac:(change (Z.of_nat 16) with 16; lia)). lia.
Qed.

(** What the invariant says of the added fields, in a log of physical size. *)
Section added.
Context `{Sha256} (pre : list StoredEvent) (e : StoredEvent).
Context (Hpre : log_events pre) (Hn : next_event pre e).
Context (Hlen : Z.of_nat (length pre) < 10 ^ 15).

Lemma added_texts :
  is_hash (c_eventId e) = true ∧ is_hash (s_contentHash e) = true ∧
  is_hash (s_previousEventHash e) = true ∧ is_hash (s_eventHash e) = true ∧
  short_ascii 16 (c_streamVersion e) ∧ short_ascii 16 (s_position e) ∧
  positive_decimal (c_streamVersion e) = true ∧ positive_decimal (s_position e) = true ∧
  0 <= c_receivedAtMs e <= MAX_SAFE_INTEGER ∧ 0 <= c_logicalAtMs e <= MAX_SAFE_INTEGER.
Proof using Hpre Hn Hlen.
  pose proof (head_logical_bounds pre Hpre). pose proof (ne_received _ _ Hn).
  pose proof (subject_count_nonneg (d_subject e) pre).
  assert (subject_count (d_subject e) pre <= Z.of_nat (length pre)).
  { clear. unfold subject_count, zsum. induction pre as [|x l IH]; cbn [foldr length]; [lia|].
    case_bool_decide; lia. }
  split_and!.
  - rewrite (ne_id _ _ Hn). apply sha256_hex.
  - rewrite (ne_content _ _ Hn). apply sha256_hex.
  - rewrite (ne_previous _ _ Hn). by apply head_hash_hash.
  - rewrite (ne_hash _ _ Hn). apply sha256_hex.
  - rewrite (ne_stream _ _ Hn). apply dec_short. lia.
  - rewrite (ne_position _ _ Hn). apply dec_short. lia.
  - rewrite (ne_stream _ _ Hn). apply dec_positive. lia.
  - rewrite (ne_position _ _ Hn). apply dec_positive. lia.
  - lia.
  - lia.
  - rewrite (ne_logical _ _ Hn). lia.
  - rewrite (ne_logical _ _ Hn). lia.
Qed.

Lemma added_accepts : accepts_ref (SObject added_shape) (JObj (added_fields e)) = true.
Proof using Hpre Hn Hlen.
  destruct added_texts as (H1 & H2 & H3 & H4 & _ & _ & H5 & H6 & H7 & H8).
  assert (Hs7 : is_safe_integer (c_receivedAtMs e) = true) by (apply is_safe_integer_spec; lia).
  assert (Hs8 : is_safe_integer (c_logicalAtMs e) = true) by (apply is_safe_integer_spec; lia).
  assert (Hp7 : (0 <=? c_receivedAtMs e) = true) by lia.
  assert (Hp8 : (0 <=? c_logicalAtMs e) = true) by lia.
  cbn [accepts_ref added_fields added_shape]. apply andb_true_iff. split; [vm_compute; reflexivity|].
  unfold added_shape, added_fields. cbn [forallb fst snd].
  repeat match goal with
  | |- context [lookup_key ?k (?x :: ?l)] =>
      let v := eval vm_compute in (lookup_key k [(js "eventId", 1); (js "streamVersion", 2);
        (js "receivedAtMs", 3); (js "logicalAtMs", 4); (js "position", 5); (js "contentHash", 6);
        (js "previousEventHash", 7); (js "eventHash", 8)]) in
      match v with
      | Some 1 => change (lookup_key k (x :: l)) with (Some (JStr (c_eventId e)))
      | Some 2 => change (lookup_key k (x :: l)) with (Some (JStr (c_streamVersion e)))
      | Some 3 => change (lookup_key k (x :: l)) with (Some (jint (c_receivedAtMs e)))
      | Some 4 => change (lookup_key k (x :: l)) with (Some (jint (c_logicalAtMs e)))
      | Some 5 => change (lookup_key k (x :: l)) with (Some (JStr (s_position e)))
      | Some 6 => change (lookup_key k (x :: l)) with (Some (JStr (s_contentHash e)))
      | Some 7 => change (lookup_key k (x :: l)) with (Some (JStr (s_previousEventHash e)))
      | Some 8 => change (lookup_key k (x :: l)) with (Some (JStr (s_eventHash e)))
      end
  end.
  cbn [accepts_ref hash positiveDecimal epochMs jint forallb run_string_check run_number_check].
  by rewrite H1, H2, H3, H4, H5, H6, Hs7, Hs8, Hp7, Hp8.
Qed.
End added.

Lemma json_bytes_split k1 k2 :
  k1 ≠ [] → json_bytes (JObj (k1 ++ k2)) =
    json_bytes (JObj k1) + Z.of_nat (length k2) +
    zsum (λ kv, byte_length (json_quote kv.1) + 1 + json_bytes kv.2) k2.
Proof.
  intros Hk1. cbn [json_bytes]. rewrite zsum_app, length_app. destruct k1; [done|]. cbn [length]. lia.
Qed.

Section acceptance.
Context `{Sha256} (pre : list StoredEvent) (e : StoredEvent).
Context (Hpre : log_events pre) (Hn : next_event pre e).
Context (Hlen : Z.of_nat (length pre) < 10 ^ 15).

Lemma added_bytes : json_bytes (stored_json e) <= json_bytes (draft_json e) + 512.
Proof using Hpre Hn Hlen.
  destruct (added_texts pre e Hpre Hn Hlen) as (H1 & H2 & H3 & H4 & H5 & H6 & _ & _ & H7 & H8).
  apply hash_short in H1, H2, H3, H4.
  apply short_ascii_bytes in H1, H2, H3, H4, H5, H6.
  assert (H7' : byte_length (dec (c_receivedAtMs e)) <= 16)
    by (apply short_ascii_bytes, dec_short; unfold MAX_SAFE_INTEGER in *; lia).
  assert (H8' : byte_length (dec (c_logicalAtMs e)) <= 16)
    by (apply short_ascii_bytes, dec_short; unfold MAX_SAFE_INTEGER in *; lia).
  unfold stored_json, draft_json. rewrite stored_fields_split.
  rewrite json_bytes_split by discriminate.
  unfold added_fields, zsum. cbn [foldr length fst snd json_bytes jint].
  repeat match goal with
  | |- context [byte_length (json_quote (js ?k))] =>
      let v := eval vm_compute in (byte_length (json_quote (js k))) in
      change (byte_length (json_quote (js k))) with v
  end.
  lia.
Qed.

(** An appended event is acceptable exactly when its own length is. *)
Lemma stored_ok_bytes : stored_ok e = true ↔ json_bytes (stored_json e) <= 1064960.
Proof using Hpre Hn Hlen.
  split; [apply stored_bytes|]. intros Hb.
  pose proof (ne_draft _ _ Hn) as Hok. pose proof (ne_canonical _ _ Hn) as (_ & Henc & _).
  destruct (added_texts pre e Hpre Hn Hlen) as (H1 & H2 & H3 & H4 & H5 & H6 & _ & _ & H7 & H8).
  unfold draft_ok in Hok. rewrite !andb_true_iff in Hok. destruct Hok as [[Hw Ha] Hp].
  unfold stored_ok. rewrite Hp, andb_true_r. apply andb_true_iff. split.
  - unfold json_within in *. rewrite !andb_true_iff in *. destruct Hw as [[Hw _] _].
    destruct Hp as [[_ Hpn] _].
    split_and!; [| |apply Z.leb_le; exact Hb].
    + unfold stored_json, draft_json in *. rewrite stored_fields_split.
      cbn [within] in *. rewrite !andb_true_iff in *. destruct Hw as (Hd & Hs & Hc).
      unfold entries_supported in *. rewrite !andb_true_iff in *. destruct Hs as [Hs1 Hs2].
      split_and!; [exact Hd| | |].
      * rewrite length_app. unfold draft_fields, added_fields. rewrite length_app.
        destruct (d_causationId e); reflexivity.
      * rewrite forallb_app, Hs2. vm_compute. reflexivity.
      * rewrite forallb_app, Hc. cbn [andb].
        assert (Hstr : ∀ s, (∃ n, short_ascii n s ∧ n <= 262144) →
          within EVENT_ENVELOPE_LIMITS (1 + 1) (JStr s) = true).
        { intros s (n & Hs & Hle). pose proof (short_ascii_bytes _ _ Hs) as [Hsb _].
          cbn [within]. rewrite is_ok_low.
          - change (1 + 1 <=? maxDepth EVENT_ENVELOPE_LIMITS) with true. cbn [andb].
            apply Z.leb_le. change (maxStringBytes EVENT_ENVELOPE_LIMITS) with 262144. lia.
          - destruct Hs as [Hs _]. eapply Forall_impl; [exact Hs|]. by intros u [? _]. }
        assert (Hint : ∀ z, 0 <= z <= MAX_SAFE_INTEGER →
          within EVENT_ENVELOPE_LIMITS (1 + 1) (jint z) = true).
        { intros z Hz. cbn [within jint is_safe_number]. apply andb_true_iff.
          split; [reflexivity|]. apply is_safe_integer_spec. lia. }
        unfold added_fields. cbn [forallb snd].
        rewrite !Hstr by (first [exists 16; split; [assumption|lia]
          |exists 64; split; [by apply hash_short|lia]]).
        by rewrite !Hint by assumption.
    + apply Z.leb_le. apply Z.leb_le in Hpn. unfold stored_json. rewrite stored_fields_split.
      cbn [json_nodes]. rewrite zsum_app. unfold draft_fields. rewrite zsum_app.
      assert (Hca : zsum (λ kv : jsstring * json, json_nodes kv.2)
        (opt_field (js "causationId") (d_causationId e)) <= 1)
        by (destruct (d_causationId e); cbn; lia).
      assert (Hoc : json_nodes (jnull jint (d_occurredAtMs e)) = 1)
        by (by destruct (d_occurredAtMs e)).
      unfold added_fields. unfold zsum in *. cbn [foldr snd].
      change (json_nodes (provider_json (d_provider e))) with 5.
      rewrite Hoc. cbn [json_nodes jint] in *. unfold zsum in *.
      change (maxNodes EVENT_ENVELOPE_LIMITS) with 50032.
      change (maxNodes EVENT_PAYLOAD_LIMITS) with 50000 in Hpn. lia.
  - rewrite storedEventSchema_split. unfold stored_json. rewrite stored_fields_split.
    apply accepts_extend; [exact Ha|by eapply added_accepts|vm_compute; reflexivity|].
    unfold draft_fields. destruct (d_causationId e); vm_compute; reflexivity.
Qed.
End acceptance.

(** with 512 bytes of headroom an appended event can be read back: if the
    canonical draft leaves 512 bytes of the envelope limit, the event the log
    stores is accepted by the validator of stored events. *)
Theorem append_within_headroom `{Sha256} `{Zod} (log log' : InMemoryEventLog) (v : json)
    (now : jsnum) (e : StoredEvent)
    (Hinv : log_inv log) (Hlen : Z.of_nat (length (l_events log)) < 10 ^ 15) (Hv : json_wf v)
    (Ha : append v now log = (log', Ok {| ar_event := e; ar_disposition := Appended |}))
    (Hroom : json_bytes v + 512 <= maxCanonicalBytes EVENT_ENVELOPE_LIMITS) :
  validateStoredEvent (stored_json e) = Ok e.
Proof.
  destruct (validated_or_unchanged v now log) as [[d Hd]|[x Hx]]; [|rewrite Hx in Ha; done].
  destruct (append_step v now log log' _ Hv Hinv Ha) as [Hinv' Hout]. cbn in Hout.
  pose proof (li_events _ Hinv') as Hes. rewrite Hout in Hes.
  assert (Hlast : (l_events log ++ [e]) !! length (l_events log) = Some e)
    by (apply list_lookup_middle; reflexivity).
  destruct (log_prefix _ _ _ Hes Hlast) as [Hpre Hnext]. rewrite take_app_length in Hpre, Hnext.
  pose proof (ne_canonical _ _ Hnext) as (Hwf & _ & Hnorm).
  apply validateStoredEvent_spec; [exact Hwf|]. split; [|by symmetry].
  apply (stored_ok_bytes _ _ Hpre Hnext Hlen).
  pose proof (added_bytes _ _ Hpre Hnext Hlen) as Hb.
  assert (Hdraft : json_bytes (draft_json e) = json_bytes v); [|change (maxCanonicalBytes
    EVENT_ENVELOPE_LIMITS) with 1064960 in Hroom; lia].
  destruct (validateEventDraft_untrusted v d Hv Hd) as (_ & _ & _ & Hvd).
  rewrite (append_eq log v now d Hv Hinv Hd) in Ha.
  destruct (l_providerEvents log !! provider_key (d_provider d)) as [e0|] eqn:Ek.
  { injection Ha as _ Hr. unfold redeliver in Hr. exfalso.
    apply res_bind_Ok in Hr as (? & _ & Hr). apply res_bind_Ok in Hr as (? & _ & Hr).
    apply res_bind_Ok in Hr as (? & _ & Hr). apply res_bind_Ok in Hr as (? & _ & Hr).
    apply res_bind_Ok in Hr as (? & _ & Hr). discriminate Hr. }
  destruct (assertTrustedTime now) as [t|x]; [|discriminate Ha].
  injection Ha as _ He. rewrite <-He. cbn [new_event new_captured s_captured c_draft].
  rewrite <-(json_bytes_norm (draft_json d)), <-Hvd. apply json_bytes_norm.
Qed.

Lemma append_within_headroom_witness :
  validateStoredEvent (stored_json fixture_event) = Ok fixture_event.
Proof.
  exact (append_within_headroom empty_log fixture_log (draft_json fixture_draft)
    (NInt 1800000000000) fixture_event empty_log_inv eq_refl fixture_draft_json_wf
    fixture_append ltac:(vm_compute; discriminate)).
Defined.
