(* ===== verification/Codec.v ===== *)
(** * Records at JSON boundaries

    The class [Codec] of record types with a JSON form, the validator that the
    program builds from a limit, a schema and a deep copy, and the one theorem
    about it that every such validator instantiates. *)
From S2P Require Import Prelude JsString JsNumber Json JsonLimits JsonParse JsonClaims Zod.
From S2P Require Import JsonObject Hash Event EventFacts.

(** A record type [A] written as an object; [nrm] puts the free-form objects
    inside a record into key order. *)
Class Codec (A : Type) : Type := {
  to_fields : A → jobject;
  of_fields : jobject → option A;
  nrm : A → A;
  of_to : ∀ a, of_fields (to_fields a) = Some a;
  of_norm : ∀ kvs, json_wf (JObj kvs) → of_fields (norm_entries kvs) = nrm <$> of_fields kvs;
  norm_to : ∀ a, norm (JObj (to_fields (nrm a))) = norm (JObj (to_fields a))
}.

Definition to_json `{Codec A} (a : A) : json := JObj (to_fields a).

(** A record read from a value that is an object. *)
Definition of_json `{Codec A} (v : json) : option A := as_obj v ≫= of_fields.

Definition record_wf `{Codec A} (a : A) : Prop := json_wf (to_json a).

(** A record as the program stores it: encodable, its objects in key order. *)
Definition canonical_record `{Codec A} (a : A) : Prop :=
  record_wf a ∧ encodable (to_json a) = true ∧ nrm a = a.

(** [cloneJson(value as unknown as JsonValue) as T] *)
Definition copy `{Codec A} (value : A) : res A :=
  let* c := cloneJson (to_json value) in or_throw (of_json c) (TypeError "copy").

(** [assertJsonWithinLimits]; [schema.parse(inertJsonSnapshot(value))]; [cloneJson]. *)
Definition validate_record `{Zod} `{Codec A} (L : JsonLimits) (s : schema) (value : json) : res A :=
  do! assertJsonWithinLimits value L ;;
  let* snapshot := inertJsonSnapshot value in
  let* parsed := parse s snapshot in
  let* c := cloneJson parsed in
  or_throw (of_json c) ZodError.

(** What such a validator accepts. *)
Definition record_ok `{Codec A} (L : JsonLimits) (s : schema) (a : A) : bool :=
  json_within L (to_json a) && accepts_ref s (to_json a).

Section codec.
Context `{Codec A}.

Lemma of_json_to_json a : of_json (to_json a) = Some a.
Proof. apply of_to. Qed.

Lemma of_json_norm v : json_wf v → of_json (norm v) = nrm <$> of_json v.
Proof. intros Hv. destruct v; try done. rewrite norm_obj. by apply of_norm. Qed.

Lemma norm_to_json a : norm (to_json (nrm a)) = norm (to_json a).
Proof. apply norm_to. Qed.

Lemma nrm_wf a : record_wf a → record_wf (nrm a).
Proof. unfold record_wf. intros Hw. apply norm_wf_inv. rewrite norm_to_json. by apply norm_wf. Qed.

Lemma nrm_encodable a : encodable (to_json (nrm a)) = encodable (to_json a).
Proof. by rewrite <-norm_encodable, norm_to_json, norm_encodable. Qed.

Lemma nrm_idemp a : record_wf a → nrm (nrm a) = nrm a.
Proof.
  intros Hw. pose proof (of_json_norm _ (norm_wf _ Hw)) as E. rewrite norm_idemp in E.
  rewrite (of_json_norm _ Hw), of_json_to_json in E. cbn [fmap option_fmap option_map] in E.
  by injection E.
Qed.

Lemma nrm_canonical a : record_wf a → encodable (to_json a) = true → canonical_record (nrm a).
Proof.
  intros Hw He. split; [by apply nrm_wf|]. split; [by rewrite nrm_encodable|by apply nrm_idemp].
Qed.

Lemma copy_spec a a' :
  record_wf a → copy a = Ok a' ↔ encodable (to_json a) = true ∧ a' = nrm a.
Proof.
  intros Hw. unfold copy. rewrite res_bind_Ok. setoid_rewrite (cloneJson_spec _ _ Hw).
  setoid_rewrite or_throw_Ok. split.
  - intros (w & [He ->] & Hr). rewrite of_json_norm, of_json_to_json in Hr by done.
    split; [done|]. cbn [fmap option_fmap option_map] in Hr. by injection Hr.
  - intros [He ->]. eexists. split; [split; [exact He|reflexivity]|].
    by rewrite of_json_norm, of_json_to_json.
Qed.

Lemma copy_canonical a : canonical_record a → copy a = Ok a.
Proof. intros (Hw & He & Hn). apply copy_spec; [done|]. by rewrite Hn. Qed.

Lemma copies_canonical l : Forall canonical_record l → res_map copy l = Ok l.
Proof.
  intros Hl. apply res_map_Ok. induction Hl; constructor; [by apply copy_canonical|done].
Qed.

(** Equality of canonical encodings. *)
Lemma canonical_text a t : canonicalJson (to_json a) = Ok t ↔
  encodable (to_json a) = true ∧ t = print (norm (to_json a)).
Proof. apply encode_spec. Qed.

Lemma same_text_same_record a b :
  canonical_record a → canonical_record b →
  print (norm (to_json a)) = print (norm (to_json b)) → a = b.
Proof.
  intros (Hwa & Hea & Hna) (Hwb & Heb & Hnb) E.
  rewrite <-(norm_encodable (to_json a)) in Hea. rewrite <-(norm_encodable (to_json b)) in Heb.
  apply JSON_parse_print in Hea; [|by apply norm_wf]. apply JSON_parse_print in Heb; [|by apply norm_wf].
  rewrite E, Heb in Hea. apply Ok_inj in Hea.
  assert (E' : of_json (norm (to_json b)) = of_json (norm (to_json a))) by by rewrite Hea.
  rewrite !of_json_norm, !of_json_to_json in E' by done.
  cbn [fmap option_fmap option_map] in E'. injection E' as E'. by rewrite <-Hna, <-Hnb.
Qed.

Context `{Zod}.
Context (L : JsonLimits) (s : schema).
Context (HL : limits_valid L = true) (Hs : schema_proper s).

Lemma validate_record_Ok v a :
  json_wf v → validate_record L s v = Ok a ↔
    json_within L v = true ∧ accepts_ref s v = true ∧ nrm <$> of_json v = Some a.
Proof using HL Hs.
  intros Hw. unfold validate_record. split.
  - intros Hv. inv_res. destruct (limits_Ok _ _ _ Hv0) as [Hlim _].
    apply inertJsonSnapshot_spec in Hv1 as [He ->]; [|done].
    apply parse_Ok in Hv2 as [Ha ->]. rewrite accepts_norm in Ha by done.
    apply cloneJson_spec in Hv3 as [_ ->]; [|by apply norm_wf].
    rewrite norm_idemp, of_json_norm in Hv by done. done.
  - intros (Hlim & Ha & Hof). rewrite (limits_within _ _ HL Hlim). cbn [mbind res_bind].
    pose proof (json_within_encodable _ _ Hlim) as He.
    rewrite (proj2 (inertJsonSnapshot_spec _ _ Hw) (conj He eq_refl)). cbn [mbind res_bind].
    rewrite (proj2 (parse_Ok _ _ _)) by (split; [by rewrite accepts_norm|reflexivity]).
    cbn [mbind res_bind].
    rewrite (proj2 (cloneJson_spec _ _ (norm_wf _ Hw)) (conj (eq_trans (norm_encodable _) He) eq_refl)).
    cbn [mbind res_bind]. rewrite norm_idemp, of_json_norm by done. by rewrite Hof.
Qed.

Lemma validate_record_spec a a' :
  record_wf a → validate_record L s (to_json a) = Ok a' ↔ record_ok L s a = true ∧ a' = nrm a.
Proof using HL Hs.
  intros Hw. rewrite validate_record_Ok by done. rewrite of_json_to_json.
  unfold record_ok. rewrite andb_true_iff. cbn [fmap option_fmap option_map].
  naive_solver.
Qed.

Lemma record_ok_nrm a : record_wf a → record_ok L s (nrm a) = record_ok L s a.
Proof using Hs.
  intros Hw. unfold record_ok. rewrite <-json_within_norm, norm_to_json, json_within_norm.
  by rewrite <-(accepts_norm s _ Hs (nrm_wf _ Hw)), norm_to_json, (accepts_norm s _ Hs Hw).
Qed.

Lemma record_ok_canonical a :
  record_wf a → record_ok L s a = true → canonical_record (nrm a).
Proof using.
  intros Hw [Hl _]%andb_true_iff. apply nrm_canonical; [done|by eapply json_within_encodable].
Qed.
End codec.

(** Two values that differ in entry order are accepted alike. *)
Lemma validate_record_equiv `{Zod} `{Codec A} L s v w (a : A) :
  limits_valid L = true → schema_proper s → json_wf v → json_wf w → norm v = norm w →
  validate_record L s v = Ok a → validate_record L s w = Ok a.
Proof.
  intros HL Hs Hv Hw E. rewrite !validate_record_Ok by done. rewrite <-!of_json_norm by done.
  rewrite <-(json_within_norm _ v), <-(json_within_norm _ w).
  rewrite <-(accepts_norm s v), <-(accepts_norm s w) by done. by rewrite E.
Qed.

(** Solve the laws of a codec from the getters'. *)
Ltac codec_binds :=
  repeat match goal with
  | |- context [?x ≫= _] => destruct x; cbn [mbind option_bind fmap option_fmap option_map]; [|done]
  end.
Ltac codec_of_norm :=
  let Hwf := fresh in let Hnd := fresh in
  intros ? Hwf; pose proof (json_wf_nodup _ Hwf) as Hnd;
  rewrite ?get_str_norm, ?get_int_norm, ?get_bool_norm, ?get_null_int_norm, ?get_null_str_norm,
    ?get_opt_str_norm, ?get_obj_norm, ?get_arr_norm by exact Hnd;
  codec_binds; try reflexivity.

(** ** Objects with literal keys *)

Lemma is_hash_units_ok h : is_hash h = true → units_ok h.
Proof. intros Hh. eapply Forall_impl; [exact (is_hash_units _ Hh)|]. cbn. lia. Qed.

Lemma jnull_str_wf (o : option jsstring) : default True (units_ok <$> o) → json_wf (jnull JStr o).
Proof. by destruct o. Qed.

(** An object with these fields, its keys being literals. *)
Lemma fields_wf kvs :
  bool_decide (NoDup (fst <$> kvs)) = true →
  Forall (λ kv : jsstring * json, units_ok kv.1 ∧ json_wf kv.2) kvs → json_wf (JObj kvs).
Proof.
  intros Hn Hf. apply json_wf_obj. split; [by apply bool_decide_eq_true in Hn|].
  by apply Forall_forall.
Qed.

Create HintDb values discriminated.
#[export] Hint Resolve js_units is_hash_units_ok dec_units ZERO_HASH_hash jnull_str_wf I : values.
#[export] Hint Resolve canonicalHash_hash : values.
#[export] Hint Extern 1 (json_wf (jint _)) => exact I : values.
#[export] Hint Extern 1 (json_wf (jnull jint ?o)) => destruct o; exact I : values.

(** Field by field. *)
Ltac solve_fields :=
  apply fields_wf; [vm_compute; reflexivity|];
  repeat (apply Forall_cons_2; [split; [apply js_units|cbn [snd json_wf]]|]); try apply Forall_nil_2;
  eauto with values.

(** Stored events. *)
#[export] Instance StoredEvent_codec : Codec StoredEvent := {|
  to_fields := stored_fields; of_fields := stored_of; nrm := norm_stored;
  of_to := stored_of_fields; of_norm := stored_of_norm; norm_to := norm_stored_json |}.
