(* ===== verification/Records.v ===== *)
(** * Parts of records

    Unions of string literals, lists, nullable and nested records as fields, the
    schemas of such fields and the comparison of texts: what the records of the domain
    are made of. *)
From S2P Require Import Prelude JsString JsNumber Json JsonLimits JsonParse JsonClaims.
From S2P Require Import Hash Zod JsonObject Event EventFacts Codec.

(** ** Enumerations *)

(** A union of string literals. *)
Class Enumerated (A : Type) : Type := {
  enum_name : A → jsstring;
  enum_all : list A;
  enum_found : ∀ a, find (λ b, bool_decide (enum_name b = enum_name a)) enum_all = Some a;
  enum_units : ∀ a, units_ok (enum_name a)
}.

Definition enum_of `{Enumerated A} (s : jsstring) : option A :=
  find (λ a, bool_decide (enum_name a = s)) enum_all.

Definition get_enum A `{Enumerated A} (k : jsstring) (kvs : jobject) : option A :=
  get_str k kvs ≫= enum_of.

Definition jenum `{Enumerated A} (a : A) : json := JStr (enum_name a).

(** [z.enum([...])] *)
Definition enumSchema A `{Enumerated A} : schema := SEnum (map enum_name (enum_all (A := A))).

Lemma get_enum_norm `{Enumerated A} kvs k :
  NoDup (fst <$> kvs) → get_enum A k (norm_entries kvs) = get_enum A k kvs.
Proof. intros Hnd. unfold get_enum. by rewrite get_str_norm. Qed.

Lemma get_null_enum_norm `{Enumerated A} kvs k :
  NoDup (fst <$> kvs) →
  get_null (get_enum A) k (norm_entries kvs) = get_null (get_enum A) k kvs.
Proof.
  intros Hnd. unfold get_null. rewrite get_enum_norm, lookup_key_norm by done.
  by destruct (lookup_key k kvs) as [[]|].
Qed.

(** ** Lists in objects *)

Definition jlist `{Codec A} (l : list A) : json := JArr (map to_json l).
Definition jstrs (l : list jsstring) : json := JArr (map JStr l).

Definition get_list A `{Codec A} (k : jsstring) (kvs : jobject) : option (list A) :=
  get_arr k kvs ≫= mapM of_json.

Definition as_str (v : json) : option jsstring := match v with JStr s => Some s | _ => None end.

Definition get_strs (k : jsstring) (kvs : jobject) : option (list jsstring) :=
  get_arr k kvs ≫= mapM as_str.

Lemma field_value_wf kvs k w : json_wf (JObj kvs) → lookup_key k kvs = Some w → json_wf w.
Proof. rewrite json_wf_obj. intros [_ H] Hk%lookup_key_elem. by apply H in Hk as [_ ?]. Qed.

Lemma get_list_norm `{Codec A} kvs k :
  json_wf (JObj kvs) → get_list A k (norm_entries kvs) = map nrm <$> get_list A k kvs.
Proof.
  intros Hw. unfold get_list. rewrite get_arr_norm by by apply json_wf_nodup.
  unfold get_arr. destruct (lookup_key k kvs) as [v|] eqn:E; [|done]. destruct v as [| | | |l|]; try done.
  pose proof (field_value_wf _ _ _ Hw E) as Hl. rewrite json_wf_arr in Hl. clear E.
  cbn [mbind option_bind fmap option_fmap option_map]. induction l as [|x l IH]; [done|].
  cbn [map mapM]. rewrite of_json_norm by (apply Hl; by left).
  specialize (IH ltac:(intros; apply Hl; by right)). revert IH. change (@fmap list ?f) with (@map).
  unfold fmap at 1. intros IH.
  destruct (of_json x) as [a|]; [|done]. cbn [fmap option_fmap option_map mbind option_bind].
  rewrite IH. by destruct (mapM of_json l).
Qed.

Lemma get_strs_norm kvs k :
  NoDup (fst <$> kvs) → get_strs k (norm_entries kvs) = get_strs k kvs.
Proof.
  intros Hnd. unfold get_strs. rewrite get_arr_norm by done.
  destruct (get_arr k kvs) as [l|]; [|done]. cbn [mbind option_bind fmap option_fmap option_map].
  induction l as [|x l IH]; [done|]. cbn [map mapM].
  replace (as_str (norm x)) with (as_str x) by by destruct x. by rewrite IH.
Qed.

Lemma mapM_of_to `{Codec A} (l : list A) : mapM of_json (map to_json l) = Some l.
Proof. induction l as [|a l IH]; [done|]. cbn [map mapM]. by rewrite of_json_to_json, IH. Qed.

Lemma mapM_as_str (l : list jsstring) : mapM as_str (map JStr l) = Some l.
Proof. induction l as [|a l IH]; [done|]. cbn [map mapM as_str mbind option_bind]. by rewrite IH. Qed.

(** Lists of literals. *)
Definition jenums `{Enumerated A} (l : list A) : json := jstrs (map enum_name l).

Definition get_enums A `{Enumerated A} (k : jsstring) (kvs : jobject) : option (list A) :=
  get_strs k kvs ≫= mapM enum_of.

Lemma get_enums_norm `{Enumerated A} kvs k :
  NoDup (fst <$> kvs) → get_enums A k (norm_entries kvs) = get_enums A k kvs.
Proof. intros Hnd. unfold get_enums. by rewrite get_strs_norm. Qed.

Lemma enum_of_name `{Enumerated A} (a : A) : enum_of (enum_name a) = Some a.
Proof. apply enum_found. Qed.

Lemma mapM_enum_of `{Enumerated A} (l : list A) : mapM enum_of (map enum_name l) = Some l.
Proof.
  induction l as [|a l IH]; [done|]. cbn [map mapM]. rewrite enum_of_name.
  cbn [mbind option_bind]. by rewrite IH.
Qed.

Lemma enum_name_inj `{Enumerated A} (a b : A) : enum_name a = enum_name b → a = b.
Proof.
  intros E. pose proof (enum_found a) as Ha. pose proof (enum_found b) as Hb. rewrite E in Ha.
  congruence.
Qed.

Lemma map_id_eq {A} (f : A → A) (l : list A) : (∀ a, f a = a) → map f l = l.
Proof. intros Hf. induction l as [|a l IH]; [done|]. cbn. by rewrite Hf, IH. Qed.

Definition get_record A `{Codec A} (k : jsstring) (kvs : jobject) : option A :=
  lookup_key k kvs ≫= of_json.

Definition get_nullable A `{Codec A} (k : jsstring) (kvs : jobject) : option (option A) :=
  match lookup_key k kvs with
  | Some JNull => Some None
  | _ => Some <$> get_record A k kvs
  end.

Lemma get_record_norm `{Codec A} kvs k :
  json_wf (JObj kvs) → get_record A k (norm_entries kvs) = nrm <$> get_record A k kvs.
Proof.
  intros Hw. unfold get_record. rewrite lookup_key_norm by by apply json_wf_nodup.
  destruct (lookup_key k kvs) as [v|] eqn:E; [|done]. cbn [fmap option_fmap option_map mbind option_bind].
  apply of_json_norm. by eapply field_value_wf.
Qed.

Lemma get_nullable_norm `{Codec A} kvs k :
  json_wf (JObj kvs) →
  get_nullable A k (norm_entries kvs) = option_map (option_map nrm) (get_nullable A k kvs).
Proof.
  intros Hw. unfold get_nullable. rewrite get_record_norm, lookup_key_norm by (done || by apply json_wf_nodup).
  unfold get_record. destruct (lookup_key k kvs) as [v|]; [|done].
  destruct v; cbn [fmap option_fmap option_map norm mbind option_bind]; try done.
  by destruct (of_json (JObj kvs0)).
Qed.

(** Solve the laws of a closed record: one without free-form objects inside. *)
Ltac record_of_norm :=
  let Hwf := fresh in let Hnd := fresh in
  intros ? Hwf; pose proof (json_wf_nodup _ Hwf) as Hnd;
  rewrite ?get_str_norm, ?get_int_norm, ?get_enum_norm, ?get_null_int_norm, ?get_null_str_norm,
    ?get_strs_norm, ?get_enums_norm, ?get_bool_norm, ?get_null_enum_norm by exact Hnd;
  rewrite ?get_list_norm, ?get_record_norm, ?get_nullable_norm by exact Hwf;
  codec_binds; rewrite ?map_id_eq by done; reflexivity.

(** ** Reading back what was written *)

Section read.
Context (k : jsstring) (kvs : jobject).

Lemma read_str s : lookup_key k kvs = Some (JStr s) → get_str k kvs = Some s.
Proof. unfold get_str. by intros ->. Qed.
Lemma read_int z : lookup_key k kvs = Some (jint z) → get_int k kvs = Some z.
Proof. unfold get_int. by intros ->. Qed.
Lemma read_enum `{Enumerated A} (a : A) : lookup_key k kvs = Some (jenum a) → get_enum A k kvs = Some a.
Proof. unfold get_enum, get_str. intros ->. apply enum_of_name. Qed.
Lemma read_strs l : lookup_key k kvs = Some (jstrs l) → get_strs k kvs = Some l.
Proof. unfold get_strs, get_arr. intros ->. apply mapM_as_str. Qed.
Lemma read_enums `{Enumerated A} (l : list A) :
  lookup_key k kvs = Some (jenums l) → get_enums A k kvs = Some l.
Proof. intros Hk. unfold get_enums. rewrite (read_strs _ Hk). apply mapM_enum_of. Qed.
Lemma read_list `{Codec A} (l : list A) : lookup_key k kvs = Some (jlist l) → get_list A k kvs = Some l.
Proof. unfold get_list, get_arr. intros ->. apply mapM_of_to. Qed.
Lemma read_record `{Codec A} (a : A) : lookup_key k kvs = Some (to_json a) → get_record A k kvs = Some a.
Proof. unfold get_record. intros ->. apply of_json_to_json. Qed.
Lemma read_nullable `{Codec A} (o : option A) :
  lookup_key k kvs = Some (jnull to_json o) → get_nullable A k kvs = Some o.
Proof.
  intros Hk. unfold get_nullable. rewrite Hk. destruct o as [a|]; [|done].
  by rewrite (read_record a Hk).
Qed.
Lemma read_null_str o : lookup_key k kvs = Some (jnull JStr o) → get_null get_str k kvs = Some o.
Proof. unfold get_null, get_str. intros ->. by destruct o. Qed.
Lemma read_null_int o : lookup_key k kvs = Some (jnull jint o) → get_null get_int k kvs = Some o.
Proof. unfold get_null, get_int. intros ->. by destruct o. Qed.
Lemma read_null_enum `{Enumerated A} (o : option A) :
  lookup_key k kvs = Some (jnull jenum o) → get_null (get_enum A) k kvs = Some o.
Proof.
  intros Hk. unfold get_null, get_enum, get_str. rewrite Hk. destruct o as [a|]; [|done].
  cbn [jnull jenum mbind option_bind]. by rewrite enum_of_name.
Qed.
End read.

(** Read a record back, field by field. *)
Ltac read_back :=
  repeat (first
    [ erewrite read_str by reflexivity | erewrite read_int by reflexivity
    | erewrite read_enum by reflexivity | erewrite read_strs by reflexivity
    | erewrite read_enums by reflexivity | erewrite read_list by reflexivity
    | erewrite read_record by reflexivity | erewrite read_nullable by reflexivity
    | erewrite read_null_str by reflexivity | erewrite read_null_int by reflexivity
    | erewrite read_null_enum by reflexivity ]; cbn [mbind option_bind]).

(** A record without free-form objects is its own normal form. *)
Lemma of_norm_closed {A} (f : jobject → option A) kvs :
  f (norm_entries kvs) = f kvs → f (norm_entries kvs) = id <$> f kvs.
Proof. intros ->. by destruct (f kvs). Qed.

(** ** Schemas of fields *)

(** [z.string().min(1).max(n)] *)
Definition nonempty_upto (n : Z) : schema := SString [CMin 1; CMax n].

(** [z.array(s).min(1).max(n)] *)
Definition nonempty_array (s : schema) (n : Z) : schema :=
  SRefine (SArray s (Some n)) (λ v, match v with JArr [] => false | _ => true end).

(** A refinement sees the value as its type. *)
Definition check_with {A} (read : jobject → option A) (check : A → bool) (v : json) : bool :=
  match as_obj v ≫= read with Some a => check a | None => false end.

Definition check_as A `{Codec A} (check : A → bool) : json → bool := check_with of_fields check.

Lemma check_with_norm {A} (read : jobject → option A) check v :
  (∀ kvs, json_wf (JObj kvs) → read (norm_entries kvs) = read kvs) → json_wf v →
  check_with read check (norm v) = check_with read check v.
Proof.
  intros Hread Hv. unfold check_with. destruct v; try done. rewrite norm_obj. cbn [as_obj mbind option_bind].
  by rewrite Hread.
Qed.

Lemma check_as_norm `{Codec A} (check : A → bool) :
  (∀ kvs, json_wf (JObj kvs) → of_fields (norm_entries kvs) = of_fields kvs) →
  ∀ v, json_wf v → check_as A check (norm v) = check_as A check v.
Proof. intros Hr v Hv. by apply check_with_norm. Qed.

(** ** Equal encodings *)

(** [a === b] on texts. *)
Definition same_string (a b : jsstring) : bool := bool_decide (a = b).

(** [canonicalJson(left) === canonicalJson(right)] *)
Definition same_text (left right : json) : res bool :=
  let* left := canonicalJson left in
  let* right := canonicalJson right in
  Ok (bool_decide (left = right)).

#[local] Arguments js : simpl never.
#[local] Arguments jint : simpl never.
#[local] Arguments jnull : simpl never.
#[local] Arguments jenum : simpl never.
#[local] Arguments to_json : simpl never.

(** ** Well-formed records *)

Lemma get_str_wf k kvs s : json_wf (JObj kvs) → get_str k kvs = Some s → units_ok s.
Proof.
  intros Hw Hs. unfold get_str in Hs. destruct (lookup_key k kvs) as [v|] eqn:E; [|done].
  pose proof (field_value_wf _ _ _ Hw E) as Hv. destruct v; try done. by injection Hs as <-.
Qed.

Lemma get_null_str_wf k kvs o :
  json_wf (JObj kvs) → get_null get_str k kvs = Some o → default True (units_ok <$> o).
Proof.
  intros Hw Ho. unfold get_null in Ho.
  assert (Hs : ∀ s, get_str k kvs = Some s → units_ok s) by (intros s; by apply get_str_wf).
  destruct (lookup_key k kvs) as [[]|]; try (by injection Ho as <-);
    destruct (get_str k kvs); try done; injection Ho as <-; by apply Hs.
Qed.

Lemma get_strs_wf k kvs l : json_wf (JObj kvs) → get_strs k kvs = Some l → Forall units_ok l.
Proof.
  intros Hw Hl. unfold get_strs, get_arr in Hl. destruct (lookup_key k kvs) as [v|] eqn:E; [|done].
  pose proof (field_value_wf _ _ _ Hw E) as Hv. destruct v as [| | | |vs|]; try done.
  rewrite json_wf_arr in Hv. cbn [mbind option_bind] in Hl. clear E.
  apply mapM_Some in Hl. rewrite <-Forall_forall in Hv. revert Hv.
  induction Hl as [|v s vs l Hs Hl IH]; intros Hv; [constructor|].
  apply Forall_cons in Hv as [Hv Hvs]. constructor; [|by apply IH]. destruct v; try done. by injection Hs as <-.
Qed.

(** Records that are read from well-formed objects are well formed. *)
Class ReadWf (A : Type) `{Codec A} : Prop :=
  read_wf : ∀ kvs a, json_wf (JObj kvs) → of_fields kvs = Some a → record_wf (A := A) a.

Lemma of_json_wf `{ReadWf A} v (a : A) : json_wf v → of_json v = Some a → record_wf a.
Proof. intros Hv Ha. destruct v; try done. by eapply read_wf. Qed.

Lemma get_list_wf `{ReadWf A} k kvs (l : list A) :
  json_wf (JObj kvs) → get_list A k kvs = Some l → Forall record_wf l.
Proof.
  intros Hw Hl. unfold get_list, get_arr in Hl. destruct (lookup_key k kvs) as [v|] eqn:E; [|done].
  pose proof (field_value_wf _ _ _ Hw E) as Hv. destruct v as [| | | |vs|]; try done.
  rewrite json_wf_arr in Hv. cbn [mbind option_bind] in Hl. clear E.
  apply mapM_Some in Hl. rewrite <-Forall_forall in Hv. revert Hv.
  induction Hl as [|v a vs l Ha Hl IH]; intros Hv; [constructor|].
  apply Forall_cons in Hv as [Hv Hvs]. constructor; [by eapply of_json_wf|by apply IH].
Qed.

Lemma get_record_wf `{ReadWf A} k kvs (a : A) :
  json_wf (JObj kvs) → get_record A k kvs = Some a → record_wf a.
Proof.
  intros Hw Ha. unfold get_record in Ha. destruct (lookup_key k kvs) as [v|] eqn:E; [|done].
  eapply of_json_wf, Ha. by eapply field_value_wf.
Qed.

Lemma jlist_wf `{Codec A} (l : list A) : Forall record_wf l → json_wf (jlist l).
Proof.
  intros Hl. apply json_wf_arr. intros x (a & -> & Ha)%list_elem_of_fmap.
  by apply (proj1 (Forall_forall _ _) Hl).
Qed.

Lemma jstrs_wf (l : list jsstring) : Forall units_ok l → json_wf (jstrs l).
Proof.
  intros Hl. apply json_wf_arr. intros x (s & -> & Hs)%list_elem_of_fmap.
  by apply (proj1 (Forall_forall _ _) Hl).
Qed.

Lemma jenums_wf `{Enumerated A} (l : list A) : json_wf (jenums l).
Proof.
  apply jstrs_wf, Forall_forall. intros s (a & -> & _)%list_elem_of_fmap. apply enum_units.
Qed.

Lemma jnull_jenum_wf `{Enumerated A} (o : option A) : json_wf (jnull jenum o).
Proof. destruct o; [apply enum_units|exact I]. Qed.

Lemma jenum_wf `{Enumerated A} (a : A) : json_wf (jenum a).
Proof. apply enum_units. Qed.

#[export] Hint Resolve jlist_wf jstrs_wf jenum_wf jenums_wf jnull_jenum_wf enum_units : values.

(** Take the reads of a record one by one. *)
Ltac read_fields H :=
  repeat match type of H with
  | (_ ≫= _) = Some _ =>
      let x := fresh "x" in let E := fresh "E" in
      apply bind_Some in H as (x & E & H)
  end.

Ltac read_wf_fields :=
  repeat match goal with
  | H : get_str _ _ = Some ?s |- units_ok ?s => by eapply get_str_wf
  | H : get_null get_str _ _ = Some ?o |- json_wf (jnull JStr ?o) =>
      apply jnull_str_wf; by eapply get_null_str_wf
  | H : get_list _ _ _ = Some ?l |- json_wf (jlist ?l) =>
      apply jlist_wf; by eapply get_list_wf
  | H : get_strs _ _ = Some ?l |- json_wf (jstrs ?l) =>
      apply jstrs_wf; by eapply get_strs_wf
  | H : get_record _ _ _ = Some ?a |- json_wf (to_json ?a) => by eapply get_record_wf
  end.

(** A record read field by field. *)
Ltac read_wf_record Hw Ha :=
  read_fields Ha; injection Ha as <-; unfold record_wf, to_json;
  cbn -[json_wf js jint jnull jenum to_json jlist jstrs]; solve_fields; read_wf_fields.

Lemma fields_wf_app (l k : jobject) :
  bool_decide (NoDup (fst <$> l ++ k)) = true → json_wf (JObj l) → json_wf (JObj k) →
  json_wf (JObj (l ++ k)).
Proof.
  rewrite !json_wf_obj. intros Hn%bool_decide_eq_true [_ Hl] [_ Hk]. split; [done|].
  intros kv [?|?]%elem_of_app; auto.
Qed.

Lemma jnull_int_wf o : json_wf (jnull jint o).
Proof. by destruct o. Qed.

#[export] Hint Resolve jnull_int_wf : values.

(** The parts of a well-formed record are. *)
Lemma part_wf kvs k w : json_wf (JObj kvs) → lookup_key (js k) kvs = Some w → json_wf w.
Proof. apply field_value_wf. Qed.

Lemma jlist_wf_iff `{Codec A} (l : list A) : json_wf (jlist l) ↔ Forall record_wf l.
Proof.
  split; [|apply jlist_wf]. unfold jlist. rewrite json_wf_arr. intros Hl. apply Forall_forall.
  intros a Ha. apply Hl. apply list_elem_of_fmap. by exists a.
Qed.

Lemma jnull_str_wf_iff o : json_wf (jnull JStr o) ↔ default True (units_ok <$> o).
Proof. by destruct o. Qed.

Lemma wf_app_l (l k : jobject) : json_wf (JObj (l ++ k)) → json_wf (JObj l).
Proof.
  rewrite !json_wf_obj, fmap_app, NoDup_app. intros [(Hn & _) Hw]. split; [done|].
  intros kv Hkv. apply Hw. apply elem_of_app. by left.
Qed.

(** ** Comparison of texts in a locale

    What the source relies on of [String.prototype.localeCompare], and the comparison of
    code units as one such comparison. *)

(** [String.prototype.localeCompare]: what the standard guarantees of it is that it
    is a consistent comparison, a total order up to equivalent strings. *)
Class Locale : Type := {
  localeCompare : jsstring → jsstring → comparison;
  locale_refl : ∀ s, localeCompare s s = Eq;
  locale_antisym : ∀ s t, localeCompare t s = CompOpp (localeCompare s t);
  locale_trans : ∀ s t u, localeCompare s t ≠ Gt → localeCompare t u ≠ Gt → localeCompare s u ≠ Gt
}.

(** [left.localeCompare(right) <= 0] *)
Definition locale_leb `{Locale} (left right : jsstring) : bool :=
  match localeCompare left right with Gt => false | _ => true end.

(** ** Facts *)

Section locale.
Context `{Locale}.

Lemma locale_leb_total s t : locale_leb s t = true ∨ locale_leb t s = true.
Proof. unfold locale_leb. rewrite (locale_antisym s t). destruct (localeCompare s t); cbn; auto. Qed.

Lemma locale_leb_trans s t u : locale_leb s t = true → locale_leb t u = true → locale_leb s u = true.
Proof.
  unfold locale_leb. intros Hst Htu. pose proof (locale_trans s t u) as Ht.
  destruct (localeCompare s t), (localeCompare t u), (localeCompare s u);
    try done; exfalso; by apply Ht.
Qed.

(** The comparison tells these texts apart. *)
Definition locale_separates (s t : jsstring) : Prop := localeCompare s t = Eq → s = t.

Lemma locale_leb_antisym s t :
  locale_separates s t → locale_leb s t = true → locale_leb t s = true → s = t.
Proof.
  unfold locale_leb, locale_separates. rewrite (locale_antisym s t).
  destruct (localeCompare s t); cbn; auto; done.
Qed.
End locale.

(** The comparison of code units is one. *)
#[export] Instance Code_units : Locale.
Proof.
  refine {| localeCompare := js_compare |}.
  - intros s. apply js_compare_refl.
  - intros s t. apply js_compare_antisym.
  - intros s t u Hst Htu. assert (Hl : ∀ a b, js_leb a b = true ↔ js_compare a b ≠ Gt).
    { intros a b. unfold js_leb. by destruct (js_compare a b). }
    apply Hl. apply (js_leb_trans s t u); by apply Hl.
Defined.
