(* ===== verification/Run.v ===== *)
(** * Run manifests and registrations ([src/core/processor.ts])

    The immutable description of a run, its strict schema and its two identity
    hashes, and the policy that only a live run may dispatch effects. *)
From S2P Require Import Prelude JsString JsNumber Json JsonLimits JsonParse JsonClaims Hash Zod.
From S2P Require Import JsonObject Event EventFacts Codec.

(** ** Types *)

Inductive RunKind : Type := Live | Replay | Shadow | Research | Paper.

Record RunIdentities : Type := {
  ri_extractorVersion : jsstring;
  ri_featureSetId : option jsstring;
  ri_modelId : option jsstring;
  ri_promptId : option jsstring;
  ri_datasetId : option jsstring
}.

Record RunBehavior : Type := {
  rb_reducerName : jsstring;
  rb_reducerVersion : jsstring;
  rb_buildDigest : jsstring;
  rb_schemaRegistryDigest : jsstring;
  rb_configuration : jobject;
  rb_identities : RunIdentities
}.

(** [manifestVersion] is the literal 2 and [canonicalizationVersion] the literal
    "peas-json-v1". *)
Record RunManifest : Type := {
  rm_runId : jsstring;
  rm_kind : RunKind;
  rm_effectsAllowed : bool;
  rm_behavior : RunBehavior
}.

Record RunRegistration : Type := {
  rr_manifest : RunManifest;
  rr_manifestHash : jsstring;
  rr_behaviorHash : jsstring
}.

#[export] Instance RunKind_eq_dec : EqDecision RunKind.
Proof. solve_decision. Defined.
#[export] Instance RunIdentities_eq_dec : EqDecision RunIdentities.
Proof. solve_decision. Defined.
#[export] Instance RunBehavior_eq_dec : EqDecision RunBehavior.
Proof. solve_decision. Defined.
#[export] Instance RunManifest_eq_dec : EqDecision RunManifest.
Proof. solve_decision. Defined.
#[export] Instance RunRegistration_eq_dec : EqDecision RunRegistration.
Proof. solve_decision. Defined.

Definition runKinds : list RunKind := [Live; Replay; Shadow; Research; Paper].

Definition kind_name (k : RunKind) : jsstring :=
  match k with
  | Live => js "live"
  | Replay => js "replay"
  | Shadow => js "shadow"
  | Research => js "research"
  | Paper => js "paper"
  end.

Definition kind_of (s : jsstring) : option RunKind :=
  find (λ k, bool_decide (kind_name k = s)) runKinds.

(** ** Schemas *)

Definition nonEmptyStringSchema : schema := SString [CMin 1; CMax 512].

Definition runIdentitiesSchema : schema := SObject
  [(js "extractorVersion", SString [CMin 1; CMax 512]);
   (js "featureSetId", SNullable nonEmptyStringSchema);
   (js "modelId", SNullable nonEmptyStringSchema);
   (js "promptId", SNullable nonEmptyStringSchema);
   (js "datasetId", SNullable nonEmptyStringSchema)].

Definition runBehaviorSchema : schema := SObject
  [(js "reducerName", nonEmptyStringSchema);
   (js "reducerVersion", nonEmptyStringSchema);
   (js "buildDigest", hash);
   (js "schemaRegistryDigest", hash);
   (js "configuration", jsonObjectSchema);
   (js "identities", runIdentitiesSchema)].

Definition runManifestV2Schema : schema := SObject
  [(js "manifestVersion", SLiteral (jint 2));
   (js "runId", nonEmptyStringSchema);
   (js "kind", SEnum [js "live"; js "replay"; js "shadow"; js "research"; js "paper"]);
   (js "effectsAllowed", SBoolean);
   (js "canonicalizationVersion", SLiteral (JStr (js "peas-json-v1")));
   (js "behavior", runBehaviorSchema)].

Definition runRegistrationSchema : schema := SObject
  [(js "manifest", SUnknown);
   (js "manifestHash", hash);
   (js "behaviorHash", hash)].

(** ** Limits *)

Definition RUN_CONFIGURATION_LIMITS : JsonLimits := {|
  maxDepth := 32;
  maxNodes := 50000;
  maxArrayLength := 10000;
  maxObjectKeys := 10000;
  maxStringBytes := 1048576;
  maxCanonicalBytes := 1048576
|}.

Definition RUN_MANIFEST_LIMITS : JsonLimits := {|
  maxDepth := maxDepth RUN_CONFIGURATION_LIMITS + 2;
  maxNodes := maxNodes RUN_CONFIGURATION_LIMITS + 64;
  maxArrayLength := maxArrayLength RUN_CONFIGURATION_LIMITS;
  maxObjectKeys := maxObjectKeys RUN_CONFIGURATION_LIMITS;
  maxStringBytes := maxStringBytes RUN_CONFIGURATION_LIMITS;
  maxCanonicalBytes := maxCanonicalBytes RUN_CONFIGURATION_LIMITS + 16384
|}.

Definition RUN_REGISTRATION_LIMITS : JsonLimits := {|
  maxDepth := maxDepth RUN_CONFIGURATION_LIMITS + 3;
  maxNodes := maxNodes RUN_CONFIGURATION_LIMITS + 72;
  maxArrayLength := maxArrayLength RUN_MANIFEST_LIMITS;
  maxObjectKeys := maxObjectKeys RUN_MANIFEST_LIMITS;
  maxStringBytes := maxStringBytes RUN_MANIFEST_LIMITS;
  maxCanonicalBytes := maxCanonicalBytes RUN_CONFIGURATION_LIMITS + 17408
|}.

(** ** JSON forms *)

Definition identities_fields (i : RunIdentities) : jobject :=
  [(js "extractorVersion", JStr (ri_extractorVersion i));
   (js "featureSetId", jnull JStr (ri_featureSetId i));
   (js "modelId", jnull JStr (ri_modelId i));
   (js "promptId", jnull JStr (ri_promptId i));
   (js "datasetId", jnull JStr (ri_datasetId i))].

Definition behavior_fields (b : RunBehavior) : jobject :=
  [(js "reducerName", JStr (rb_reducerName b));
   (js "reducerVersion", JStr (rb_reducerVersion b));
   (js "buildDigest", JStr (rb_buildDigest b));
   (js "schemaRegistryDigest", JStr (rb_schemaRegistryDigest b));
   (js "configuration", JObj (rb_configuration b));
   (js "identities", JObj (identities_fields (rb_identities b)))].

Definition manifest_fields (m : RunManifest) : jobject :=
  [(js "manifestVersion", jint 2);
   (js "runId", JStr (rm_runId m));
   (js "kind", JStr (kind_name (rm_kind m)));
   (js "effectsAllowed", JBool (rm_effectsAllowed m));
   (js "canonicalizationVersion", JStr (js "peas-json-v1"));
   (js "behavior", JObj (behavior_fields (rm_behavior m)))].

Definition registration_fields (r : RunRegistration) : jobject :=
  [(js "manifest", JObj (manifest_fields (rr_manifest r)));
   (js "manifestHash", JStr (rr_manifestHash r));
   (js "behaviorHash", JStr (rr_behaviorHash r))].

Definition identities_of (kvs : jobject) : option RunIdentities :=
  e ← get_str (js "extractorVersion") kvs;
  f ← get_null get_str (js "featureSetId") kvs;
  m ← get_null get_str (js "modelId") kvs;
  p ← get_null get_str (js "promptId") kvs;
  d ← get_null get_str (js "datasetId") kvs;
  Some {| ri_extractorVersion := e; ri_featureSetId := f; ri_modelId := m; ri_promptId := p;
          ri_datasetId := d |}.

Definition behavior_of (kvs : jobject) : option RunBehavior :=
  n ← get_str (js "reducerName") kvs;
  v ← get_str (js "reducerVersion") kvs;
  b ← get_str (js "buildDigest") kvs;
  s ← get_str (js "schemaRegistryDigest") kvs;
  c ← get_obj (js "configuration") kvs;
  i ← (get_obj (js "identities") kvs ≫= identities_of);
  Some {| rb_reducerName := n; rb_reducerVersion := v; rb_buildDigest := b;
          rb_schemaRegistryDigest := s; rb_configuration := c; rb_identities := i |}.

Definition manifest_of (kvs : jobject) : option RunManifest :=
  r ← get_str (js "runId") kvs;
  k ← (get_str (js "kind") kvs ≫= kind_of);
  e ← get_bool (js "effectsAllowed") kvs;
  b ← (get_obj (js "behavior") kvs ≫= behavior_of);
  Some {| rm_runId := r; rm_kind := k; rm_effectsAllowed := e; rm_behavior := b |}.

Definition registration_of (kvs : jobject) : option RunRegistration :=
  m ← (get_obj (js "manifest") kvs ≫= manifest_of);
  h ← get_str (js "manifestHash") kvs;
  b ← get_str (js "behaviorHash") kvs;
  Some {| rr_manifest := m; rr_manifestHash := h; rr_behaviorHash := b |}.

Definition norm_behavior (b : RunBehavior) : RunBehavior := {|
  rb_reducerName := rb_reducerName b; rb_reducerVersion := rb_reducerVersion b;
  rb_buildDigest := rb_buildDigest b; rb_schemaRegistryDigest := rb_schemaRegistryDigest b;
  rb_configuration := norm_entries (rb_configuration b); rb_identities := rb_identities b |}.

Definition norm_manifest (m : RunManifest) : RunManifest := {|
  rm_runId := rm_runId m; rm_kind := rm_kind m; rm_effectsAllowed := rm_effectsAllowed m;
  rm_behavior := norm_behavior (rm_behavior m) |}.

Definition norm_registration (r : RunRegistration) : RunRegistration := {|
  rr_manifest := norm_manifest (rr_manifest r); rr_manifestHash := rr_manifestHash r;
  rr_behaviorHash := rr_behaviorHash r |}.

(** Getters of nested records, under normalisation. *)
Lemma get_sub_norm {A} kvs k (read : jobject → option A) (f : A → A) :
  json_wf (JObj kvs) →
  (∀ o, json_wf (JObj o) → read (norm_entries o) = f <$> read o) →
  (get_obj k (norm_entries kvs) ≫= read) = f <$> (get_obj k kvs ≫= read).
Proof.
  intros Hwf Hof. rewrite get_obj_norm by by apply json_wf_nodup.
  destruct (get_obj k kvs) as [o|] eqn:E; [|done]. cbn [mbind option_bind fmap option_fmap option_map].
  apply Hof. by eapply json_wf_get_obj.
Qed.

(** Objects whose entries agree after normalisation. *)
Lemma norm_obj_ext (a b : jobject) :
  map (λ kv, (kv.1, norm kv.2)) a = map (λ kv, (kv.1, norm kv.2)) b → norm (JObj a) = norm (JObj b).
Proof. intros E. rewrite !norm_obj. unfold norm_entries. by rewrite E. Qed.

Lemma norm_entries_norm kvs : norm (JObj (norm_entries kvs)) = norm (JObj kvs).
Proof. by rewrite !norm_obj, norm_entries_idemp. Qed.

Lemma identities_of_norm kvs :
  json_wf (JObj kvs) → identities_of (norm_entries kvs) = id <$> identities_of kvs.
Proof. revert kvs. unfold identities_of. codec_of_norm. Qed.

Lemma behavior_of_norm kvs :
  json_wf (JObj kvs) → behavior_of (norm_entries kvs) = norm_behavior <$> behavior_of kvs.
Proof.
  intros Hwf. unfold behavior_of. rewrite (get_sub_norm _ _ _ _ Hwf identities_of_norm).
  revert kvs Hwf. codec_of_norm.
Qed.

Lemma manifest_of_norm kvs :
  json_wf (JObj kvs) → manifest_of (norm_entries kvs) = norm_manifest <$> manifest_of kvs.
Proof.
  intros Hwf. unfold manifest_of. rewrite (get_sub_norm _ _ _ _ Hwf behavior_of_norm).
  revert kvs Hwf. codec_of_norm.
Qed.

Lemma registration_of_norm kvs :
  json_wf (JObj kvs) → registration_of (norm_entries kvs) = norm_registration <$> registration_of kvs.
Proof.
  intros Hwf. unfold registration_of. rewrite (get_sub_norm _ _ _ _ Hwf manifest_of_norm).
  revert kvs Hwf. codec_of_norm.
Qed.

Lemma behavior_of_fields b : behavior_of (behavior_fields b) = Some b.
Proof. destruct b as [? ? ? ? ? [? [] [] [] []]]; read_fields. Qed.

Lemma manifest_of_fields m : manifest_of (manifest_fields m) = Some m.
Proof. destruct m as [? [] ? [? ? ? ? ? [? [] [] [] []]]]; read_fields. Qed.

Lemma registration_of_fields r : registration_of (registration_fields r) = Some r.
Proof. destruct r as [[? [] ? [? ? ? ? ? [? [] [] [] []]]] ? ?]; read_fields. Qed.

Lemma norm_behavior_fields b :
  norm (JObj (behavior_fields (norm_behavior b))) = norm (JObj (behavior_fields b)).
Proof.
  apply norm_obj_ext. unfold behavior_fields. cbn [map fst snd norm_behavior rb_reducerName
    rb_reducerVersion rb_buildDigest rb_schemaRegistryDigest rb_configuration rb_identities].
  by rewrite norm_entries_norm.
Qed.

Lemma norm_manifest_fields m :
  norm (JObj (manifest_fields (norm_manifest m))) = norm (JObj (manifest_fields m)).
Proof.
  apply norm_obj_ext. unfold manifest_fields. cbn [map fst snd norm_manifest rm_runId rm_kind
    rm_effectsAllowed rm_behavior]. by rewrite norm_behavior_fields.
Qed.

Lemma norm_registration_fields r :
  norm (JObj (registration_fields (norm_registration r))) = norm (JObj (registration_fields r)).
Proof.
  apply norm_obj_ext. unfold registration_fields. cbn [map fst snd norm_registration rr_manifest
    rr_manifestHash rr_behaviorHash]. by rewrite norm_manifest_fields.
Qed.

#[export] Instance RunBehavior_codec : Codec RunBehavior := {|
  to_fields := behavior_fields; of_fields := behavior_of; nrm := norm_behavior;
  of_to := behavior_of_fields; of_norm := behavior_of_norm; norm_to := norm_behavior_fields |}.
#[export] Instance RunManifest_codec : Codec RunManifest := {|
  to_fields := manifest_fields; of_fields := manifest_of; nrm := norm_manifest;
  of_to := manifest_of_fields; of_norm := manifest_of_norm; norm_to := norm_manifest_fields |}.
#[export] Instance RunRegistration_codec : Codec RunRegistration := {|
  to_fields := registration_fields; of_fields := registration_of; nrm := norm_registration;
  of_to := registration_of_fields; of_norm := registration_of_norm;
  norm_to := norm_registration_fields |}.

(** ** Validation *)

Section validation.
Context `{Zod}.

(** [snapshotRunManifestWithinLimits]: a configuration that is present is held
    to its own limits before the schema runs. *)
Definition snapshotRunManifestWithinLimits (value : json) : res json :=
  do! assertJsonWithinLimits value RUN_MANIFEST_LIMITS ;;
  let* snapshot := inertJsonSnapshot value in
  match snapshot with
  | JObj kvs =>
      match lookup_key (js "behavior") kvs with
      | Some (JObj behavior) =>
          match lookup_key (js "configuration") behavior with
          | Some configuration =>
              do! assertJsonWithinLimits configuration RUN_CONFIGURATION_LIMITS ;; Ok snapshot
          | None => Ok snapshot
          end
      | _ => Ok snapshot
      end
  | _ => Ok snapshot
  end.

(** [parsed.behavior.configuration] *)
Definition configuration_of (parsed : json) : res json :=
  or_throw ((as_obj parsed ≫= get_obj (js "behavior")) ≫= lookup_key (js "configuration"))
    (TypeError "behavior.configuration").

Definition validateRunManifest (value : json) : res RunManifest :=
  let* snapshot := snapshotRunManifestWithinLimits value in
  let* parsed := parse runManifestV2Schema snapshot in
  let* configuration := configuration_of parsed in
  do! assertJsonWithinLimits configuration RUN_CONFIGURATION_LIMITS ;;
  do! canonicalJson parsed ;;
  let* c := cloneJson parsed in
  or_throw (of_json c) ZodError.

Definition validateRunManifestJson (serialized : jsstring) : res RunManifest :=
  let* value := parseJsonWithinLimits serialized RUN_MANIFEST_LIMITS in
  validateRunManifest value.
End validation.

(** [typeof manifest.effectsAllowed] is a boolean by the record's type. *)
Definition assertRunEffectPolicy (manifest : RunManifest) : res unit :=
  guard! negb (bool_decide (rm_kind manifest ∈ runKinds)) throws TypeError "Unsupported run kind" ;;
  throw_if (rm_effectsAllowed manifest && negb (bool_decide (rm_kind manifest = Live)))
    (Error "Run kind cannot dispatch external effects").

Section registration.
Context `{Sha256} `{Zod}.

Definition register (manifest : RunManifest) : res RunRegistration :=
  do! assertRunEffectPolicy manifest ;;
  let* manifestHash := canonicalHash (js "peas/run-manifest/v2") (to_json manifest) in
  let* behaviorHash := canonicalHash (js "peas/run-behavior/v2") (to_json (rm_behavior manifest)) in
  Ok {| rr_manifest := manifest; rr_manifestHash := manifestHash; rr_behaviorHash := behaviorHash |}.

Definition deriveRunRegistration (value : json) : res RunRegistration :=
  let* manifest := validateRunManifest value in
  register manifest.

Definition validateRunRegistration (value : json) : res RunRegistration :=
  do! assertJsonWithinLimits value RUN_REGISTRATION_LIMITS ;;
  let* snapshot := inertJsonSnapshot value in
  let* parsed := parse runRegistrationSchema snapshot in
  let* manifest := or_throw (as_obj parsed ≫= lookup_key (js "manifest"))
    (TypeError "manifest is undefined") in
  let* derived := deriveRunRegistration manifest in
  let* manifestHash := or_throw (as_obj parsed ≫= get_str (js "manifestHash")) ZodError in
  let* behaviorHash := or_throw (as_obj parsed ≫= get_str (js "behaviorHash")) ZodError in
  guard! negb (bool_decide (manifestHash = rr_manifestHash derived))
    throws Error "Run manifest hash mismatch" ;;
  guard! negb (bool_decide (behaviorHash = rr_behaviorHash derived))
    throws Error "Run behavior hash mismatch" ;;
  Ok derived.
End registration.
