(* ===== verification/Processing.v ===== *)
(** * Processing records ([src/core/processor.ts])

    Outputs, run cursors, aggregate checkpoints and commits: types, JSON forms,
    strict schemas, validators, derived identities and hashes. *)
From S2P Require Import Prelude JsString JsNumber Json JsonLimits JsonParse JsonClaims Hash Zod.
From S2P Require Import JsonObject Event EventFacts Codec Run.

(** ** Types *)

Inductive OutputCategory : Type := Cat_decision | Cat_job | Cat_outbox.

Definition category_name (c : OutputCategory) : jsstring :=
  match c with
  | Cat_decision => js "decision"
  | Cat_job => js "job"
  | Cat_outbox => js "outbox"
  end.

Definition category_of (s : jsstring) : option OutputCategory :=
  find (λ c, bool_decide (category_name c = s)) [Cat_decision; Cat_job; Cat_outbox].

Record ImmutableOutput : Type := {
  o_outputId : jsstring;
  o_runId : jsstring;
  o_inputEventId : jsstring;
  o_inputPosition : jsstring;
  o_aggregateId : jsstring;
  o_category : OutputCategory;
  o_ordinal : Z;
  o_dedupeKey : option jsstring;
  o_notBeforeLogicalMs : option Z;
  o_body : jobject;
  o_bodyHash : jsstring
}.

Record StoredOutput : Type := { so_output :> ImmutableOutput; so_sequence : jsstring }.

Record RunCursor : Type := {
  rc_runId : jsstring;
  rc_manifestHash : jsstring;
  rc_behaviorHash : jsstring;
  rc_processedPosition : jsstring;
  rc_logicalAtMs : Z;
  rc_lastEventHash : jsstring;
  rc_stateHead : jsstring;
  rc_decisionHead : jsstring;
  rc_cursorHash : jsstring
}.

Record AggregateCheckpoint : Type := {
  ac_runId : jsstring;
  ac_aggregateId : jsstring;
  ac_version : jsstring;
  ac_lastInputPosition : jsstring;
  ac_state : jobject;
  ac_stateHash : jsstring;
  ac_checkpointHash : jsstring
}.

Record ProcessingCommit : Type := {
  pc_expectedPosition : jsstring;
  pc_event : StoredEvent;
  pc_cursor : RunCursor;
  pc_aggregate : AggregateCheckpoint;
  pc_outputs : list ImmutableOutput
}.

Record OutputPage : Type := {
  op_outputs : list StoredOutput;
  op_nextSequence : jsstring;
  op_hasMore : bool
}.

Record AggregatePage : Type := {
  ap_aggregates : list AggregateCheckpoint;
  ap_nextAggregateId : jsstring;
  ap_hasMore : bool
}.

Record StoredOutputBodyMetadata : Type := {
  md_runId : jsstring;
  md_dedupeKey : option jsstring;
  md_notBeforeLogicalMs : option Z
}.

#[export] Instance OutputCategory_eq_dec : EqDecision OutputCategory.
Proof. solve_decision. Defined.
#[export] Instance ImmutableOutput_eq_dec : EqDecision ImmutableOutput.
Proof. solve_decision. Defined.
#[export] Instance StoredOutput_eq_dec : EqDecision StoredOutput.
Proof. solve_decision. Defined.
#[export] Instance RunCursor_eq_dec : EqDecision RunCursor.
Proof. solve_decision. Defined.
#[export] Instance AggregateCheckpoint_eq_dec : EqDecision AggregateCheckpoint.
Proof. solve_decision. Defined.
#[export] Instance ProcessingCommit_eq_dec : EqDecision ProcessingCommit.
Proof. solve_decision. Defined.

(** ** Schemas *)

(** The portable alphabet of aggregate identifiers: ASCII letters, digits and
    dot, underscore, colon, hyphen; not empty. *)
Definition is_portable_unit (u : Z) : bool :=
  ((65 <=? u) && (u <=? 90)) || ((97 <=? u) && (u <=? 122)) || ((48 <=? u) && (u <=? 57)) ||
  (u =? 46) || (u =? 95) || (u =? 58) || (u =? 45).

Definition is_portable (s : jsstring) : bool :=
  negb (bool_decide (s = [])) && forallb is_portable_unit s.

Definition aggregateIdSchema : schema := SString [CMin 1; CMax 512; CRegex is_portable].

Definition safeNonnegativeIntegerSchema : schema := SNumber [CInt; CNonnegative; CSafe].

Definition decisionBodySchema : schema := SObject
  [(js "type", nonEmptyStringSchema); (js "payload", jsonObjectSchema)].

Definition jobBodySchema : schema := SObject
  [(js "jobId", hash);
   (js "type", nonEmptyStringSchema);
   (js "dedupeKey", nonEmptyStringSchema);
   (js "notBeforeLogicalMs", safeNonnegativeIntegerSchema);
   (js "inputBundleHash", hash);
   (js "payload", jsonObjectSchema)].

Definition outboxBodySchema : schema := SObject
  [(js "messageId", hash);
   (js "topic", nonEmptyStringSchema);
   (js "dedupeKey", nonEmptyStringSchema);
   (js "payload", jsonObjectSchema)].

Definition outputCommonShape : list (jsstring * schema) :=
  [(js "outputId", hash);
   (js "runId", nonEmptyStringSchema);
   (js "inputEventId", hash);
   (js "inputPosition", positiveDecimal);
   (js "aggregateId", aggregateIdSchema);
   (js "ordinal", safeNonnegativeIntegerSchema);
   (js "bodyHash", hash)].

Definition decisionOutputShape : list (jsstring * schema) := outputCommonShape ++
  [(js "category", SLiteral (JStr (js "decision")));
   (js "dedupeKey", SNull);
   (js "notBeforeLogicalMs", SNull);
   (js "body", decisionBodySchema)].

Definition jobOutputShape : list (jsstring * schema) := outputCommonShape ++
  [(js "category", SLiteral (JStr (js "job")));
   (js "dedupeKey", nonEmptyStringSchema);
   (js "notBeforeLogicalMs", safeNonnegativeIntegerSchema);
   (js "body", jobBodySchema)].

Definition outboxOutputShape : list (jsstring * schema) := outputCommonShape ++
  [(js "category", SLiteral (JStr (js "outbox")));
   (js "dedupeKey", nonEmptyStringSchema);
   (js "notBeforeLogicalMs", SNull);
   (js "body", outboxBodySchema)].

Definition immutableOutputSchema : schema := SUnion
  [SObject decisionOutputShape; SObject jobOutputShape; SObject outboxOutputShape].

Definition storedOutputSchema : schema := SUnion
  [SObject (decisionOutputShape ++ [(js "sequence", positiveDecimal)]);
   SObject (jobOutputShape ++ [(js "sequence", positiveDecimal)]);
   SObject (outboxOutputShape ++ [(js "sequence", positiveDecimal)])].

Definition runCursorSchema : schema := SObject
  [(js "runId", nonEmptyStringSchema);
   (js "manifestHash", hash);
   (js "behaviorHash", hash);
   (js "processedPosition", nonnegativeDecimal);
   (js "logicalAtMs", safeNonnegativeIntegerSchema);
   (js "lastEventHash", hash);
   (js "stateHead", hash);
   (js "decisionHead", hash);
   (js "cursorHash", hash)].

(** The refinement of a checkpoint: genesis is exactly 0/0. *)
Definition exact_genesis (v : json) : bool :=
  match as_obj v with
  | Some kvs =>
      eqb (bool_decide (get_str (js "version") kvs = Some (js "0")))
          (bool_decide (get_str (js "lastInputPosition") kvs = Some (js "0")))
  | None => false
  end.

Definition checkpointShape (counter : schema) : list (jsstring * schema) :=
  [(js "runId", nonEmptyStringSchema);
   (js "aggregateId", aggregateIdSchema);
   (js "version", counter);
   (js "lastInputPosition", counter);
   (js "state", jsonObjectSchema);
   (js "stateHash", hash);
   (js "checkpointHash", hash)].

Definition aggregateCheckpointSchema : schema :=
  SRefine (SObject (checkpointShape nonnegativeDecimal)) exact_genesis.

Definition committedAggregateCheckpointSchema : schema :=
  SRefine (SObject (checkpointShape positiveDecimal)) exact_genesis.

Definition processingCommitSchema : schema := SObject
  [(js "expectedPosition", nonnegativeDecimal);
   (js "event", SUnknown);
   (js "cursor", runCursorSchema);
   (js "aggregate", committedAggregateCheckpointSchema);
   (js "outputs", SArray immutableOutputSchema (Some 100000))].

(** ** Limits *)

Definition PERSISTED_PROCESSING_JSON_LIMITS : JsonLimits := {|
  maxDepth := 64;
  maxNodes := 500000;
  maxArrayLength := 100000;
  maxObjectKeys := 100000;
  maxStringBytes := 4 * 1048576;
  maxCanonicalBytes := 16 * 1048576
|}.

Definition PERSISTED_PROCESSING_COMMIT_LIMITS : JsonLimits := {|
  maxDepth := maxDepth PERSISTED_PROCESSING_JSON_LIMITS + 3;
  maxNodes := 1000000;
  maxArrayLength := maxArrayLength PERSISTED_PROCESSING_JSON_LIMITS;
  maxObjectKeys := maxObjectKeys PERSISTED_PROCESSING_JSON_LIMITS;
  maxStringBytes := maxStringBytes PERSISTED_PROCESSING_JSON_LIMITS;
  maxCanonicalBytes := 64 * 1048576
|}.

(** ** JSON forms *)

Definition output_fields (o : ImmutableOutput) : jobject :=
  [(js "outputId", JStr (o_outputId o));
   (js "runId", JStr (o_runId o));
   (js "inputEventId", JStr (o_inputEventId o));
   (js "inputPosition", JStr (o_inputPosition o));
   (js "aggregateId", JStr (o_aggregateId o));
   (js "category", JStr (category_name (o_category o)));
   (js "ordinal", jint (o_ordinal o));
   (js "dedupeKey", jnull JStr (o_dedupeKey o));
   (js "notBeforeLogicalMs", jnull jint (o_notBeforeLogicalMs o));
   (js "body", JObj (o_body o));
   (js "bodyHash", JStr (o_bodyHash o))].

Definition output_of (kvs : jobject) : option ImmutableOutput :=
  i ← get_str (js "outputId") kvs;
  r ← get_str (js "runId") kvs;
  e ← get_str (js "inputEventId") kvs;
  p ← get_str (js "inputPosition") kvs;
  a ← get_str (js "aggregateId") kvs;
  c ← (get_str (js "category") kvs ≫= category_of);
  n ← get_int (js "ordinal") kvs;
  d ← get_null get_str (js "dedupeKey") kvs;
  t ← get_null get_int (js "notBeforeLogicalMs") kvs;
  b ← get_obj (js "body") kvs;
  h ← get_str (js "bodyHash") kvs;
  Some {| o_outputId := i; o_runId := r; o_inputEventId := e; o_inputPosition := p;
          o_aggregateId := a; o_category := c; o_ordinal := n; o_dedupeKey := d;
          o_notBeforeLogicalMs := t; o_body := b; o_bodyHash := h |}.

Definition with_body (o : ImmutableOutput) (body : jobject) : ImmutableOutput := {|
  o_outputId := o_outputId o; o_runId := o_runId o; o_inputEventId := o_inputEventId o;
  o_inputPosition := o_inputPosition o; o_aggregateId := o_aggregateId o;
  o_category := o_category o; o_ordinal := o_ordinal o; o_dedupeKey := o_dedupeKey o;
  o_notBeforeLogicalMs := o_notBeforeLogicalMs o; o_body := body; o_bodyHash := o_bodyHash o |}.

Definition norm_output (o : ImmutableOutput) : ImmutableOutput :=
  with_body o (norm_entries (o_body o)).

Definition stored_output_fields (o : StoredOutput) : jobject :=
  output_fields o ++ [(js "sequence", JStr (so_sequence o))].

Definition stored_output_of (kvs : jobject) : option StoredOutput :=
  o ← output_of kvs;
  s ← get_str (js "sequence") kvs;
  Some {| so_output := o; so_sequence := s |}.

Definition norm_stored_output (o : StoredOutput) : StoredOutput :=
  {| so_output := norm_output o; so_sequence := so_sequence o |}.

(** A cursor without its hash, as it is hashed. *)
Definition cursor_content (c : RunCursor) : jobject :=
  [(js "runId", JStr (rc_runId c));
   (js "manifestHash", JStr (rc_manifestHash c));
   (js "behaviorHash", JStr (rc_behaviorHash c));
   (js "processedPosition", JStr (rc_processedPosition c));
   (js "logicalAtMs", jint (rc_logicalAtMs c));
   (js "lastEventHash", JStr (rc_lastEventHash c));
   (js "stateHead", JStr (rc_stateHead c));
   (js "decisionHead", JStr (rc_decisionHead c))].

Definition cursor_fields (c : RunCursor) : jobject :=
  cursor_content c ++ [(js "cursorHash", JStr (rc_cursorHash c))].

Definition cursor_of (kvs : jobject) : option RunCursor :=
  r ← get_str (js "runId") kvs;
  m ← get_str (js "manifestHash") kvs;
  b ← get_str (js "behaviorHash") kvs;
  p ← get_str (js "processedPosition") kvs;
  l ← get_int (js "logicalAtMs") kvs;
  e ← get_str (js "lastEventHash") kvs;
  s ← get_str (js "stateHead") kvs;
  d ← get_str (js "decisionHead") kvs;
  h ← get_str (js "cursorHash") kvs;
  Some {| rc_runId := r; rc_manifestHash := m; rc_behaviorHash := b; rc_processedPosition := p;
          rc_logicalAtMs := l; rc_lastEventHash := e; rc_stateHead := s; rc_decisionHead := d;
          rc_cursorHash := h |}.

Definition checkpoint_fields (a : AggregateCheckpoint) : jobject :=
  [(js "runId", JStr (ac_runId a));
   (js "aggregateId", JStr (ac_aggregateId a));
   (js "version", JStr (ac_version a));
   (js "lastInputPosition", JStr (ac_lastInputPosition a));
   (js "state", JObj (ac_state a));
   (js "stateHash", JStr (ac_stateHash a));
   (js "checkpointHash", JStr (ac_checkpointHash a))].

Definition checkpoint_of (kvs : jobject) : option AggregateCheckpoint :=
  r ← get_str (js "runId") kvs;
  a ← get_str (js "aggregateId") kvs;
  v ← get_str (js "version") kvs;
  l ← get_str (js "lastInputPosition") kvs;
  s ← get_obj (js "state") kvs;
  h ← get_str (js "stateHash") kvs;
  c ← get_str (js "checkpointHash") kvs;
  Some {| ac_runId := r; ac_aggregateId := a; ac_version := v; ac_lastInputPosition := l;
          ac_state := s; ac_stateHash := h; ac_checkpointHash := c |}.

Definition norm_checkpoint (a : AggregateCheckpoint) : AggregateCheckpoint := {|
  ac_runId := ac_runId a; ac_aggregateId := ac_aggregateId a; ac_version := ac_version a;
  ac_lastInputPosition := ac_lastInputPosition a; ac_state := norm_entries (ac_state a);
  ac_stateHash := ac_stateHash a; ac_checkpointHash := ac_checkpointHash a |}.

Definition commit_fields (c : ProcessingCommit) : jobject :=
  [(js "expectedPosition", JStr (pc_expectedPosition c));
   (js "event", JObj (stored_fields (pc_event c)));
   (js "cursor", JObj (cursor_fields (pc_cursor c)));
   (js "aggregate", JObj (checkpoint_fields (pc_aggregate c)));
   (js "outputs", JArr (map (λ o, JObj (output_fields o)) (pc_outputs c)))].

Definition commit_of (kvs : jobject) : option ProcessingCommit :=
  p ← get_str (js "expectedPosition") kvs;
  e ← (get_obj (js "event") kvs ≫= stored_of);
  c ← (get_obj (js "cursor") kvs ≫= cursor_of);
  a ← (get_obj (js "aggregate") kvs ≫= checkpoint_of);
  os ← (get_arr (js "outputs") kvs ≫= mapM (λ v, as_obj v ≫= output_of));
  Some {| pc_expectedPosition := p; pc_event := e; pc_cursor := c; pc_aggregate := a;
          pc_outputs := os |}.

Definition norm_commit (c : ProcessingCommit) : ProcessingCommit := {|
  pc_expectedPosition := pc_expectedPosition c; pc_event := norm_stored (pc_event c);
  pc_cursor := pc_cursor c; pc_aggregate := norm_checkpoint (pc_aggregate c);
  pc_outputs := map norm_output (pc_outputs c) |}.

(** *** The codecs' laws *)

Lemma output_of_fields o : output_of (output_fields o) = Some o.
Proof. destruct o as [? ? ? ? ? [] ? [] [] ? ?]; read_fields. Qed.

Lemma output_of_norm kvs :
  json_wf (JObj kvs) → output_of (norm_entries kvs) = norm_output <$> output_of kvs.
Proof. revert kvs. unfold output_of. codec_of_norm. Qed.

Lemma norm_output_fields o :
  norm (JObj (output_fields (norm_output o))) = norm (JObj (output_fields o)).
Proof.
  apply norm_obj_ext. unfold output_fields. cbn [map fst snd norm_output with_body o_outputId o_runId
    o_inputEventId o_inputPosition o_aggregateId o_category o_ordinal o_dedupeKey
    o_notBeforeLogicalMs o_body o_bodyHash]. by rewrite norm_entries_norm.
Qed.

Lemma stored_output_of_fields o : stored_output_of (stored_output_fields o) = Some o.
Proof. destruct o as [[? ? ? ? ? [] ? [] [] ? ?] ?]; read_fields. Qed.

Lemma stored_output_of_norm kvs :
  json_wf (JObj kvs) →
  stored_output_of (norm_entries kvs) = norm_stored_output <$> stored_output_of kvs.
Proof.
  intros Hwf. unfold stored_output_of. rewrite output_of_norm by done.
  rewrite get_str_norm by by apply json_wf_nodup.
  destruct (output_of kvs); cbn [mbind option_bind fmap option_fmap option_map]; [|done]. codec_binds.
  reflexivity.
Qed.

Lemma norm_stored_output_fields o :
  norm (JObj (stored_output_fields (norm_stored_output o))) = norm (JObj (stored_output_fields o)).
Proof.
  apply norm_obj_ext. unfold stored_output_fields, output_fields.
  cbn [map fst snd app norm_stored_output norm_output with_body so_output so_sequence o_outputId
    o_runId o_inputEventId o_inputPosition o_aggregateId o_category o_ordinal o_dedupeKey
    o_notBeforeLogicalMs o_body o_bodyHash]. by rewrite norm_entries_norm.
Qed.

Lemma cursor_of_fields c : cursor_of (cursor_fields c) = Some c.
Proof. destruct c; read_fields. Qed.

Lemma cursor_of_norm kvs :
  json_wf (JObj kvs) → cursor_of (norm_entries kvs) = id <$> cursor_of kvs.
Proof. revert kvs. unfold cursor_of. codec_of_norm. Qed.

Lemma checkpoint_of_fields a : checkpoint_of (checkpoint_fields a) = Some a.
Proof. destruct a; read_fields. Qed.

Lemma checkpoint_of_norm kvs :
  json_wf (JObj kvs) → checkpoint_of (norm_entries kvs) = norm_checkpoint <$> checkpoint_of kvs.
Proof. revert kvs. unfold checkpoint_of. codec_of_norm. Qed.

Lemma norm_checkpoint_fields a :
  norm (JObj (checkpoint_fields (norm_checkpoint a))) = norm (JObj (checkpoint_fields a)).
Proof.
  apply norm_obj_ext. unfold checkpoint_fields. cbn [map fst snd norm_checkpoint ac_runId
    ac_aggregateId ac_version ac_lastInputPosition ac_state ac_stateHash ac_checkpointHash].
  by rewrite norm_entries_norm.
Qed.

#[export] Instance ImmutableOutput_codec : Codec ImmutableOutput := {|
  to_fields := output_fields; of_fields := output_of; nrm := norm_output;
  of_to := output_of_fields; of_norm := output_of_norm; norm_to := norm_output_fields |}.
#[export] Instance StoredOutput_codec : Codec StoredOutput := {|
  to_fields := stored_output_fields; of_fields := stored_output_of; nrm := norm_stored_output;
  of_to := stored_output_of_fields; of_norm := stored_output_of_norm;
  norm_to := norm_stored_output_fields |}.
#[export] Instance RunCursor_codec : Codec RunCursor := {|
  to_fields := cursor_fields; of_fields := cursor_of; nrm := id;
  of_to := cursor_of_fields; of_norm := cursor_of_norm; norm_to := λ _, eq_refl |}.
#[export] Instance AggregateCheckpoint_codec : Codec AggregateCheckpoint := {|
  to_fields := checkpoint_fields; of_fields := checkpoint_of; nrm := norm_checkpoint;
  of_to := checkpoint_of_fields; of_norm := checkpoint_of_norm; norm_to := norm_checkpoint_fields |}.

Lemma commit_of_fields c : commit_of (commit_fields c) = Some c.
Proof.
  destruct c as [p e cu a os]. unfold commit_of.
  change (get_str (js "expectedPosition") (commit_fields _)) with (Some p).
  change (get_obj (js "event") (commit_fields _)) with (Some (stored_fields e)).
  change (get_obj (js "cursor") (commit_fields _)) with (Some (cursor_fields cu)).
  change (get_obj (js "aggregate") (commit_fields _)) with (Some (checkpoint_fields a)).
  change (get_arr (js "outputs") (commit_fields _)) with (Some (map (λ o, JObj (output_fields o)) os)).
  cbn [mbind option_bind]. rewrite stored_of_fields, cursor_of_fields, checkpoint_of_fields.
  cbn [mbind option_bind].
  assert (E : mapM (λ v, as_obj v ≫= output_of) (map (λ o, JObj (output_fields o)) os) = Some os).
  { apply mapM_Some. induction os; constructor; [apply output_of_fields|done]. }
  by rewrite E.
Qed.

Lemma commit_of_norm kvs :
  json_wf (JObj kvs) → commit_of (norm_entries kvs) = norm_commit <$> commit_of kvs.
Proof.
  intros Hwf. unfold commit_of.
  rewrite (get_sub_norm _ _ _ _ Hwf stored_of_norm), (get_sub_norm _ _ _ _ Hwf cursor_of_norm),
    (get_sub_norm _ _ _ _ Hwf checkpoint_of_norm).
  rewrite get_str_norm, get_arr_norm by by apply json_wf_nodup.
  assert (E : (map norm <$> get_arr (js "outputs") kvs) ≫= mapM (λ v, as_obj v ≫= output_of) =
    map norm_output <$> (get_arr (js "outputs") kvs ≫= mapM (λ v, as_obj v ≫= output_of))).
  { unfold get_arr. destruct (lookup_key (js "outputs") kvs) as [[]|] eqn:El; try reflexivity.
    cbn [mbind option_bind fmap option_fmap option_map].
    apply lookup_key_elem in El. rewrite json_wf_obj in Hwf. destruct Hwf as [_ Hwf].
    apply Hwf in El as [_ Hl]. cbn [snd] in Hl. rewrite json_wf_arr in Hl.
    induction l as [|v l IH]; [reflexivity|]. cbn [map mapM].
    assert (Ev : (as_obj (norm v) ≫= output_of) = norm_output <$> (as_obj v ≫= output_of)).
    { exact (of_json_norm (A := ImmutableOutput) v (Hl v ltac:(left))). }
    rewrite Ev. destruct (as_obj v ≫= output_of); cbn [mbind option_bind fmap option_fmap option_map];
      [|reflexivity].
    rewrite IH by (intros; apply Hl; by right). by destruct (mapM _ l). }
  rewrite E. codec_binds. reflexivity.
Qed.

Lemma norm_commit_fields c :
  norm (JObj (commit_fields (norm_commit c))) = norm (JObj (commit_fields c)).
Proof.
  assert (E : ∀ os, norm (JArr (map (λ o, JObj (output_fields o)) (map norm_output os))) =
    norm (JArr (map (λ o, JObj (output_fields o)) os))).
  { intros os. cbn [norm]. f_equal. induction os as [|o os IH]; [done|].
    cbn [map fmap list_fmap]. f_equal; [apply norm_output_fields|exact IH]. }
  apply norm_obj_ext. unfold commit_fields. cbn [map fst snd norm_commit pc_expectedPosition
    pc_event pc_cursor pc_aggregate pc_outputs].
  rewrite norm_checkpoint_fields, E. change (JObj (stored_fields ?e)) with (stored_json e).
  by rewrite norm_stored_json.
Qed.

#[export] Instance ProcessingCommit_codec : Codec ProcessingCommit := {|
  to_fields := commit_fields; of_fields := commit_of; nrm := norm_commit;
  of_to := commit_of_fields; of_norm := commit_of_norm; norm_to := norm_commit_fields |}.
