(* ===== verification/Commit.v ===== *)
(** * Processing commits ([src/core/processor.ts])

    The validators of outputs, cursors, checkpoints and commits, the derived
    identities and hashes, and the two verifications a commit must pass before a
    store may persist it. *)
From S2P Require Import Prelude JsString JsNumber Json JsonLimits JsonParse JsonClaims Hash Zod.
From S2P Require Import JsonObject Event EventFacts EventChain Codec Run Processing.

Section hashes.
Context `{Sha256}.

Definition computeOutputDedupeIdentity (runId : jsstring) (category : OutputCategory)
    (dedupeKey : jsstring) : res jsstring :=
  canonicalHash (js "peas/output-dedupe-identity/v2") (JObj
    [(js "runId", JStr runId); (js "category", JStr (category_name category));
     (js "dedupeKey", JStr dedupeKey)]).

Definition deriveJobId (runId dedupeKey : jsstring) (payload : jobject) : res jsstring :=
  let* payloadHash := canonicalHash (js "peas/job-payload/v2") (JObj payload) in
  canonicalHash (js "peas/job-id/v2") (JObj
    [(js "runId", JStr runId); (js "dedupeKey", JStr dedupeKey);
     (js "payloadHash", JStr payloadHash)]).

Definition deriveMessageId (runId dedupeKey : jsstring) (payload : jobject) : res jsstring :=
  let* payloadHash := canonicalHash (js "peas/outbox-payload/v2") (JObj payload) in
  canonicalHash (js "peas/message-id/v2") (JObj
    [(js "runId", JStr runId); (js "dedupeKey", JStr dedupeKey);
     (js "payloadHash", JStr payloadHash)]).

Definition computeRunCursorHash (cursor : RunCursor) : res jsstring :=
  canonicalHash (js "peas/run-cursor/v2") (JObj (cursor_content cursor)).

Definition computeAggregateCheckpointHash (checkpoint : AggregateCheckpoint) : res jsstring :=
  canonicalHash (js "peas/aggregate-checkpoint/v2") (JObj
    [(js "runId", JStr (ac_runId checkpoint));
     (js "aggregateId", JStr (ac_aggregateId checkpoint));
     (js "version", JStr (ac_version checkpoint));
     (js "lastInputPosition", JStr (ac_lastInputPosition checkpoint));
     (js "stateHash", JStr (ac_stateHash checkpoint))]).

(** [{ ...withoutHash, cursorHash }] *)
Definition with_cursorHash (c : RunCursor) (h : jsstring) : RunCursor := {|
  rc_runId := rc_runId c; rc_manifestHash := rc_manifestHash c;
  rc_behaviorHash := rc_behaviorHash c; rc_processedPosition := rc_processedPosition c;
  rc_logicalAtMs := rc_logicalAtMs c; rc_lastEventHash := rc_lastEventHash c;
  rc_stateHead := rc_stateHead c; rc_decisionHead := rc_decisionHead c; rc_cursorHash := h |}.

Definition hash_cursor (withoutHash : RunCursor) : res RunCursor :=
  let* cursorHash := computeRunCursorHash withoutHash in
  Ok (with_cursorHash withoutHash cursorHash).

Definition with_checkpointHash (a : AggregateCheckpoint) (h : jsstring) : AggregateCheckpoint := {|
  ac_runId := ac_runId a; ac_aggregateId := ac_aggregateId a; ac_version := ac_version a;
  ac_lastInputPosition := ac_lastInputPosition a; ac_state := ac_state a;
  ac_stateHash := ac_stateHash a; ac_checkpointHash := h |}.

Definition hash_checkpoint (withoutHash : AggregateCheckpoint) : res AggregateCheckpoint :=
  let* checkpointHash := computeAggregateCheckpointHash withoutHash in
  Ok (with_checkpointHash withoutHash checkpointHash).

Definition createGenesisRunCursor (registration : RunRegistration) : res RunCursor :=
  hash_cursor {|
    rc_runId := rm_runId (rr_manifest registration);
    rc_manifestHash := rr_manifestHash registration;
    rc_behaviorHash := rr_behaviorHash registration;
    rc_processedPosition := js "0";
    rc_logicalAtMs := 0;
    rc_lastEventHash := ZERO_HASH;
    rc_stateHead := hashParts (js "peas/state-head/genesis/v2")
      [Text (rr_behaviorHash registration)];
    rc_decisionHead := hashParts (js "peas/decision-head/genesis/v2")
      [Text (rr_behaviorHash registration)];
    rc_cursorHash := [] |}.

(** The template literals that name a hash domain. *)
Definition state_domain (reducerName reducerVersion : jsstring) : jsstring :=
  js "peas/state/" ++ reducerName ++ js "/" ++ reducerVersion.

Definition body_domain (category : OutputCategory) : jsstring :=
  js "peas/output-body/" ++ category_name category ++ js "/v2".

Definition output_id (runId manifestHash inputEventHash aggregateId : jsstring)
    (category : OutputCategory) (ordinal : Z) (bodyHash : jsstring) : res jsstring :=
  canonicalHash (js "peas/output-id/v2") (JObj
    [(js "runId", JStr runId); (js "manifestHash", JStr manifestHash);
     (js "inputEventHash", JStr inputEventHash); (js "aggregateId", JStr aggregateId);
     (js "category", JStr (category_name category)); (js "ordinal", jint ordinal);
     (js "bodyHash", JStr bodyHash)]).

(** The part of an output the decision head covers. *)
Definition semantic_output (o : ImmutableOutput) : json := JObj
  [(js "category", JStr (category_name (o_category o))); (js "ordinal", jint (o_ordinal o));
   (js "body", JObj (o_body o)); (js "bodyHash", JStr (o_bodyHash o))].

Definition next_stateHead (previous eventHash aggregateId stateHash : jsstring) : jsstring :=
  hashParts (js "peas/state-head/step/v2")
    [Text previous; Text eventHash; Text aggregateId; Text stateHash].

Definition next_decisionHead (previous eventHash : jsstring) (outputs : list ImmutableOutput) :
    res jsstring :=
  let* semanticOutputs := canonicalJson (JArr (map semantic_output outputs)) in
  Ok (hashParts (js "peas/decision-head/step/v2")
        [Text previous; Text eventHash; Text semanticOutputs]).
End hashes.

(** ** Validators *)

Definition assertProcessingCommitEnvelope (value : json) : res JsonMetrics :=
  assertJsonWithinLimits value PERSISTED_PROCESSING_COMMIT_LIMITS.

Definition requiredObject (value : option json) : res jobject :=
  match value with
  | Some (JObj kvs) => Ok kvs
  | _ => Throw (TypeError "must be a JSON object")
  end.

Definition requiredString (value : option json) : res jsstring :=
  match value with
  | Some (JStr (u :: s)) => Ok (u :: s)
  | _ => Throw (TypeError "must be a non-empty string")
  end.

Section validators.
Context `{Sha256} `{Zod}.

Definition validateAggregateId (value : jsstring) : res jsstring :=
  do! parse aggregateIdSchema (JStr value) ;; Ok value.

Definition validateRunCursor (value : json) : res RunCursor :=
  validate_record PERSISTED_PROCESSING_JSON_LIMITS runCursorSchema value.

Definition validateAggregateCheckpoint (value : json) : res AggregateCheckpoint :=
  validate_record PERSISTED_PROCESSING_JSON_LIMITS aggregateCheckpointSchema value.

Definition validateCommittedAggregateCheckpoint (value : json) : res AggregateCheckpoint :=
  validate_record PERSISTED_PROCESSING_JSON_LIMITS committedAggregateCheckpointSchema value.

(** A string field of an object the schema accepted. *)
Definition body_str (k : jsstring) (body : json) : res jsstring :=
  or_throw (as_obj body ≫= get_str k) ZodError.

Definition body_obj (k : jsstring) (body : json) : res jobject :=
  or_throw (as_obj body ≫= get_obj k) ZodError.

Definition clone_body (body : json) : res jobject :=
  let* c := cloneJson body in or_throw (as_obj c) ZodError.

Definition validateStoredOutputBody (category : OutputCategory) (value : json)
    (metadata : StoredOutputBodyMetadata) : res jobject :=
  do! assertJsonWithinLimits value PERSISTED_PROCESSING_JSON_LIMITS ;;
  do! parse nonEmptyStringSchema (JStr (md_runId metadata)) ;;
  match category with
  | Cat_decision =>
      guard! match md_dedupeKey metadata, md_notBeforeLogicalMs metadata with
             | None, None => false
             | _, _ => true
             end throws Error "Decision output has operational delivery metadata" ;;
      let* snapshot := inertJsonSnapshot value in
      let* body := parse decisionBodySchema snapshot in
      clone_body body
  | Cat_job =>
      match md_dedupeKey metadata, md_notBeforeLogicalMs metadata with
      | Some key, Some notBefore =>
          let* snapshot := inertJsonSnapshot value in
          let* body := parse jobBodySchema snapshot in
          let* dedupeKey := body_str (js "dedupeKey") body in
          guard! negb (bool_decide (dedupeKey = key)) throws Error "Output dedupe metadata mismatch" ;;
          let* time := or_throw (as_obj body ≫= get_int (js "notBeforeLogicalMs")) ZodError in
          guard! negb (time =? notBefore) throws Error "Job not-before metadata mismatch" ;;
          let* jobId := body_str (js "jobId") body in
          let* payload := body_obj (js "payload") body in
          let* expected := deriveJobId (md_runId metadata) dedupeKey payload in
          guard! negb (bool_decide (jobId = expected)) throws Error "Job ID integrity mismatch" ;;
          clone_body body
      | _, _ => Throw (Error "Job output requires dedupe and scheduling metadata")
      end
  | Cat_outbox =>
      match md_dedupeKey metadata, md_notBeforeLogicalMs metadata with
      | Some key, None =>
          let* snapshot := inertJsonSnapshot value in
          let* body := parse outboxBodySchema snapshot in
          let* dedupeKey := body_str (js "dedupeKey") body in
          guard! negb (bool_decide (dedupeKey = key)) throws Error "Output dedupe metadata mismatch" ;;
          let* messageId := body_str (js "messageId") body in
          let* payload := body_obj (js "payload") body in
          let* expected := deriveMessageId (md_runId metadata) dedupeKey payload in
          guard! negb (bool_decide (messageId = expected))
            throws Error "Message ID integrity mismatch" ;;
          clone_body body
      | _, _ => Throw (Error "Outbox output delivery metadata mismatch")
      end
  end.

(** The metadata an output carries for its body. *)
Definition output_metadata (o : ImmutableOutput) : StoredOutputBodyMetadata := {|
  md_runId := o_runId o; md_dedupeKey := o_dedupeKey o;
  md_notBeforeLogicalMs := o_notBeforeLogicalMs o |}.

Definition validateImmutableOutput (value : json) : res ImmutableOutput :=
  do! assertJsonWithinLimits value PERSISTED_PROCESSING_JSON_LIMITS ;;
  let* snapshot := inertJsonSnapshot value in
  let* accepted := parse immutableOutputSchema snapshot in
  let* parsed := or_throw (of_json accepted) ZodError in
  let* body := validateStoredOutputBody (o_category parsed) (JObj (o_body parsed))
    (output_metadata parsed) in
  copy (with_body parsed body).

Definition validateStoredOutput (value : json) : res StoredOutput :=
  do! assertJsonWithinLimits value PERSISTED_PROCESSING_JSON_LIMITS ;;
  let* snapshot := inertJsonSnapshot value in
  let* accepted := parse storedOutputSchema snapshot in
  let* parsed := or_throw (of_json accepted) ZodError in
  let* body := validateStoredOutputBody (o_category (so_output parsed))
    (JObj (o_body (so_output parsed))) (output_metadata (so_output parsed)) in
  copy {| so_output := with_body (so_output parsed) body; so_sequence := so_sequence parsed |}.

(** Candidate outputs with an unknown category are refused by name, before the
    schema. *)
Definition supported_category (candidate : json) : bool :=
  match candidate with
  | JObj kvs =>
      match lookup_key (js "category") kvs with
      | Some (JStr s) => bool_decide (s ∈ [js "decision"; js "job"; js "outbox"])
      | _ => false
      end
  | _ => true
  end.

Definition assert_candidates (schemaValue : json) : res unit :=
  match as_obj schemaValue ≫= get_arr (js "outputs") with
  | Some candidates =>
      throw_if (negb (forallb supported_category candidates))
        (TypeError "Unsupported output category")
  | None => Ok tt
  end.

Definition validateProcessingCommit (value : json) : res ProcessingCommit :=
  do! assertProcessingCommitEnvelope value ;;
  let* schemaValue := inertJsonSnapshot value in
  do! assert_candidates schemaValue ;;
  let* accepted := parse processingCommitSchema schemaValue in
  let* parsed := or_throw (as_obj accepted) ZodError in
  let* expectedPosition := or_throw (get_str (js "expectedPosition") parsed) ZodError in
  let* event := or_throw (lookup_key (js "event") parsed) (TypeError "event is undefined") in
  let* event := validateStoredEvent event in
  let* cursor := or_throw (lookup_key (js "cursor") parsed) ZodError in
  let* cursor := validateRunCursor cursor in
  let* aggregate := or_throw (lookup_key (js "aggregate") parsed) ZodError in
  let* aggregate := validateAggregateCheckpoint aggregate in
  let* outputs := or_throw (get_arr (js "outputs") parsed) ZodError in
  let* outputs := res_map validateImmutableOutput outputs in
  copy {| pc_expectedPosition := expectedPosition; pc_event := event; pc_cursor := cursor;
          pc_aggregate := aggregate; pc_outputs := outputs |}.
End validators.

(** ** Verification of a commit *)

Definition categoryRank (c : OutputCategory) : Z :=
  match c with Cat_decision => 0 | Cat_job => 1 | Cat_outbox => 2 end.

(** The loop's variables. *)
Record CommitScan : Type := {
  cs_nextOrdinals : list Z;
  cs_outputIds : gset jsstring;
  cs_dedupeIdentities : gset jsstring;
  cs_previousCategoryRank : Z
}.

Definition initial_scan : CommitScan := {|
  cs_nextOrdinals := [0; 0; 0]; cs_outputIds := ∅; cs_dedupeIdentities := ∅;
  cs_previousCategoryRank := -1 |}.

Section verify.
Context `{Sha256} `{Zod}.

(** The identity and content of one output. *)
Definition verify_output_content (value : ProcessingCommit) (registration : RunRegistration)
    (output : ImmutableOutput) : res unit :=
  guard! negb (bool_decide (o_runId output = rc_runId (pc_cursor value)) &&
               bool_decide (o_inputEventId output = c_eventId (pc_event value)) &&
               bool_decide (o_inputPosition output = s_position (pc_event value)) &&
               bool_decide (o_aggregateId output = ac_aggregateId (pc_aggregate value)))
    throws Error "Output metadata does not match its input event, aggregate, or run" ;;
  do! assertJsonWithinLimits (JObj (o_body output)) PERSISTED_PROCESSING_JSON_LIMITS ;;
  let* expectedBodyHash := canonicalHash (body_domain (o_category output)) (JObj (o_body output)) in
  guard! negb (bool_decide (o_bodyHash output = expectedBodyHash))
    throws Error "Output body hash mismatch" ;;
  let* expectedOutputId := output_id (o_runId output) (rr_manifestHash registration)
    (s_eventHash (pc_event value)) (o_aggregateId output) (o_category output) (o_ordinal output)
    (o_bodyHash output) in
  throw_if (negb (bool_decide (o_outputId output = expectedOutputId)))
    (Error "Output ID integrity mismatch").

(** The dedupe identity of a job or outbox body, checked against the ones seen. *)
Definition verify_output_body (output : ImmutableOutput) (seen : gset jsstring) :
    res (gset jsstring) :=
  let* body := validateStoredOutputBody (o_category output) (JObj (o_body output))
    (output_metadata output) in
  match o_category output with
  | Cat_decision => Ok seen
  | category =>
      let* bodyDedupeKey := requiredString (lookup_key (js "dedupeKey") body) in
      let* dedupeIdentity := computeOutputDedupeIdentity (o_runId output) category bodyDedupeKey in
      guard! bool_decide (dedupeIdentity ∈ seen) throws Error "Duplicate dedupe key in commit" ;;
      let seen := {[dedupeIdentity]} ∪ seen in
      match category with
      | Cat_job =>
          do! requiredString (lookup_key (js "jobId") body) ;;
          do! requiredString (lookup_key (js "type") body) ;;
          do! requiredString (lookup_key (js "inputBundleHash") body) ;;
          Ok seen
      | _ =>
          do! requiredString (lookup_key (js "topic") body) ;;
          do! requiredString (lookup_key (js "messageId") body) ;;
          Ok seen
      end
  end.

(** One iteration of the loop over [value.outputs]. *)
Definition verify_output (value : ProcessingCommit) (registration : RunRegistration)
    (scan : CommitScan) (output : ImmutableOutput) : res CommitScan :=
  let rank := categoryRank (o_category output) in
  guard! negb (is_safe_integer (o_ordinal output)) || (o_ordinal output <? 0)
    throws RangeError "Output ordinal must be a non-negative safe integer" ;;
  guard! rank <? cs_previousCategoryRank scan
    throws Error "Outputs are not in canonical decision, job, outbox category order" ;;
  guard! bool_decide (o_outputId output ∈ cs_outputIds scan)
    throws Error "Duplicate output ID in commit" ;;
  let* expectedOrdinal := or_throw (cs_nextOrdinals scan !! Z.to_nat rank)
    (Error "Non-contiguous output ordinal") in
  guard! negb (o_ordinal output =? expectedOrdinal) throws Error "Non-contiguous output ordinal" ;;
  do! verify_output_content value registration output ;;
  let* seen := verify_output_body output (cs_dedupeIdentities scan) in
  Ok {| cs_nextOrdinals := <[Z.to_nat rank := expectedOrdinal + 1]> (cs_nextOrdinals scan);
        cs_outputIds := {[o_outputId output]} ∪ cs_outputIds scan;
        cs_dedupeIdentities := seen;
        cs_previousCategoryRank := rank |}.

Definition verify_cursor (value : ProcessingCommit) (registration : RunRegistration) : res unit :=
  let cursor := pc_cursor value in
  let event := pc_event value in
  let* cursorHash := computeRunCursorHash cursor in
  guard! negb (bool_decide (rc_cursorHash cursor = cursorHash))
    throws Error "Run cursor hash mismatch in commit" ;;
  guard! negb (bool_decide (rc_runId cursor = rm_runId (rr_manifest registration)) &&
               bool_decide (rc_manifestHash cursor = rr_manifestHash registration) &&
               bool_decide (rc_behaviorHash cursor = rr_behaviorHash registration))
    throws Error "Commit cursor does not match its immutable run manifest" ;;
  throw_if (negb (bool_decide (rc_processedPosition cursor = s_position event) &&
                  (rc_logicalAtMs cursor =? c_logicalAtMs event) &&
                  bool_decide (rc_lastEventHash cursor = s_eventHash event)))
    (Error "Commit cursor does not match its input event").

Definition verify_aggregate (value : ProcessingCommit) (registration : RunRegistration) : res unit :=
  let aggregate := pc_aggregate value in
  let* checkpointHash := computeAggregateCheckpointHash aggregate in
  guard! negb (bool_decide (ac_checkpointHash aggregate = checkpointHash))
    throws Error "Aggregate checkpoint hash mismatch in commit" ;;
  guard! negb (bool_decide (ac_runId aggregate = rc_runId (pc_cursor value)) &&
               bool_decide (ac_lastInputPosition aggregate = s_position (pc_event value)))
    throws Error "Aggregate checkpoint does not match its input event or run" ;;
  do! requiredString (Some (JStr (ac_aggregateId aggregate))) ;;
  guard! negb (positive_decimal (ac_version aggregate))
    throws TypeError "Aggregate version must be a canonical positive decimal integer" ;;
  do! assertJsonWithinLimits (JObj (ac_state aggregate)) PERSISTED_PROCESSING_JSON_LIMITS ;;
  let* expectedStateHash := canonicalHash
    (state_domain (rb_reducerName (rm_behavior (rr_manifest registration)))
      (rb_reducerVersion (rm_behavior (rr_manifest registration))))
    (JObj (ac_state aggregate)) in
  throw_if (negb (bool_decide (ac_stateHash aggregate = expectedStateHash)))
    (Error "Aggregate state hash mismatch in commit").

Definition verifyProcessingCommit (value : ProcessingCommit) (registration : RunRegistration) :
    res ProcessingCommit :=
  let* value := validateProcessingCommit (to_json value) in
  do! verifyStoredEvent (pc_event value) None ;;
  do! verify_cursor value registration ;;
  do! verify_aggregate value registration ;;
  do! res_fold (verify_output value registration) initial_scan (pc_outputs value) ;;
  Ok value.

(** The prior cursor belongs to the run and is its genesis at position 0. *)
Definition verify_previous (previous : RunCursor) (registration : RunRegistration) : res unit :=
  let* previousHash := computeRunCursorHash previous in
  guard! negb (bool_decide (rc_cursorHash previous = previousHash))
    throws Error "Prior run cursor hash mismatch in commit" ;;
  guard! negb (bool_decide (rc_runId previous = rm_runId (rr_manifest registration)) &&
               bool_decide (rc_manifestHash previous = rr_manifestHash registration) &&
               bool_decide (rc_behaviorHash previous = rr_behaviorHash registration))
    throws Error "Prior cursor does not match its immutable run manifest" ;;
  if bool_decide (rc_processedPosition previous = js "0") then
    let* genesis := createGenesisRunCursor registration in
    let* a := canonicalJson (to_json previous) in
    let* b := canonicalJson (to_json genesis) in
    throw_if (negb (bool_decide (a = b))) (Error "Prior cursor is not the canonical run genesis")
  else Ok tt.

Definition verifyProcessingTransition (value : ProcessingCommit) (registration : RunRegistration)
    (previous : RunCursor) : res ProcessingCommit :=
  let* value := verifyProcessingCommit value registration in
  let* previous := validateRunCursor (to_json previous) in
  do! verify_previous previous registration ;;
  guard! negb (bool_decide (pc_expectedPosition value = rc_processedPosition previous))
    throws Error "Commit expected position does not match the prior cursor" ;;
  let* previousPosition := BigInt (rc_processedPosition previous) in
  let* eventPosition := BigInt (s_position (pc_event value)) in
  guard! negb (eventPosition =? previousPosition + 1)
    throws Error "Non-contiguous processing position" ;;
  guard! negb (bool_decide (s_previousEventHash (pc_event value) = rc_lastEventHash previous))
    throws Error "Event chain mismatch" ;;
  guard! c_logicalAtMs (pc_event value) <? rc_logicalAtMs previous
    throws Error "Logical clock regression" ;;
  guard! negb (bool_decide (rc_stateHead (pc_cursor value) =
      next_stateHead (rc_stateHead previous) (s_eventHash (pc_event value))
        (ac_aggregateId (pc_aggregate value)) (ac_stateHash (pc_aggregate value))))
    throws Error "Run state head is not derived from the prior cursor" ;;
  let* expectedDecisionHead := next_decisionHead (rc_decisionHead previous)
    (s_eventHash (pc_event value)) (pc_outputs value) in
  guard! negb (bool_decide (rc_decisionHead (pc_cursor value) = expectedDecisionHead))
    throws Error "Run decision head is not derived from the prior cursor" ;;
  Ok value.
End verify.
