(* ===== verification/ProcessingStore.v ===== *)
(** * Processing stores ([src/adapters/memory/processing-store.ts])

    The class [ProcessingStore] is the interface of [src/core/processor.ts]; the
    in-memory store keeps registrations, cursors, checkpoints and outputs, and
    admits a commit only after verifying it against the persisted event and the
    run's current cursor.  The synchronous part of [commit] runs without
    interruption, so a commit is one step whatever else is in flight. *)
From S2P Require Import Prelude JsString JsNumber Json JsonLimits JsonParse JsonClaims Hash Zod.
From S2P Require Import JsonObject Clock Event EventFacts EventChain EventLog Codec Run Processing.
From S2P Require Import Commit.

(** The operations a processor uses. *)
Class ProcessingStore (S : Type) : Type := {
  store_ensureRun : RunRegistration → sm S unit;
  store_loadCursor : S → jsstring → res (option RunCursor);
  store_loadAggregate : S → jsstring → jsstring → res (option AggregateCheckpoint);
  store_commit : ProcessingCommit → sm S unit;
  store_readOutputsAfter : S → jsstring → jsstring → jsnum → res OutputPage;
  store_readAggregatesAfter : S → jsstring → jsstring → jsnum → res AggregatePage
}.

Record InMemoryProcessingStore : Type := {
  m_runs : gmap jsstring RunRegistration;
  m_cursors : gmap jsstring RunCursor;
  m_aggregates : gmap jsstring (gmap jsstring AggregateCheckpoint);
  m_outputs : list StoredOutput;
  m_dedupeKeys : gmap jsstring jsstring;
  m_dispatchableJobs : gset jsstring;
  m_dispatchableOutbox : gset jsstring
}.

Definition empty_store : InMemoryProcessingStore := {|
  m_runs := ∅; m_cursors := ∅; m_aggregates := ∅; m_outputs := []; m_dedupeKeys := ∅;
  m_dispatchableJobs := ∅; m_dispatchableOutbox := ∅ |}.

(** [filter] with a predicate that may throw. *)
Definition res_filter {A} (f : A → res bool) (l : list A) : res (list A) :=
  let* verdicts := res_map f l in
  Ok (map fst (filter (λ p : A * bool, p.2 = true) (zip l verdicts))).

(** The limit of an output or aggregate page. *)
Definition store_page_limit (message : string) (limit : jsnum) : res Z :=
  match limit with
  | NInt n =>
      if negb (is_safe_integer n) || (n <? 1) || (10000 <? n) then Throw (RangeError message) else Ok n
  | _ => Throw (RangeError message)
  end.

(** The aggregates of a run. *)
Definition run_aggregates (s : InMemoryProcessingStore) (runId : jsstring) :
    gmap jsstring AggregateCheckpoint :=
  default ∅ (m_aggregates s !! runId).

Section in_memory.
Context `{Sha256} `{Zod}.

Definition ensureRun (registration : RunRegistration) : sm InMemoryProcessingStore unit :=
  sm! verified := sm_lift (validateRunRegistration (to_json registration)) in
  sm! s := sm_get in
  match m_runs s !! rm_runId (rr_manifest verified) with
  | Some existing =>
      sm_lift (
        let* a := canonicalJson (to_json existing) in
        let* b := canonicalJson (to_json verified) in
        throw_if (negb (bool_decide (a = b))) (Error "Run is already registered differently"))
  | None =>
      sm! verified := sm_lift (copy verified) in
      sm_modify (λ s, {|
        m_runs := <[rm_runId (rr_manifest verified) := verified]> (m_runs s);
        m_cursors := m_cursors s; m_aggregates := m_aggregates s; m_outputs := m_outputs s;
        m_dedupeKeys := m_dedupeKeys s; m_dispatchableJobs := m_dispatchableJobs s;
        m_dispatchableOutbox := m_dispatchableOutbox s |})
  end.

Definition loadCursor (s : InMemoryProcessingStore) (runId : jsstring) : res (option RunCursor) :=
  match m_cursors s !! runId with
  | None => Ok None
  | Some stored =>
      let* cursor := validateRunCursor (to_json stored) in
      let* cursorHash := computeRunCursorHash cursor in
      guard! negb (bool_decide (rc_cursorHash cursor = cursorHash))
        throws Error "Run cursor hash mismatch on audit read" ;;
      let* c := copy cursor in
      Ok (Some c)
  end.

(** [#verifyAggregate] *)
Definition verifyAggregate (s : InMemoryProcessingStore) (aggregate : AggregateCheckpoint) :
    res unit :=
  let* aggregate := validateCommittedAggregateCheckpoint (to_json aggregate) in
  let* registration := or_throw (m_runs s !! ac_runId aggregate) (Error "Run is not registered") in
  let* expectedStateHash := canonicalHash
    (state_domain (rb_reducerName (rm_behavior (rr_manifest registration)))
      (rb_reducerVersion (rm_behavior (rr_manifest registration))))
    (JObj (ac_state aggregate)) in
  guard! negb (bool_decide (ac_stateHash aggregate = expectedStateHash))
    throws Error "Aggregate state hash mismatch" ;;
  let* checkpointHash := computeAggregateCheckpointHash aggregate in
  throw_if (negb (bool_decide (ac_checkpointHash aggregate = checkpointHash)))
    (Error "Aggregate checkpoint hash mismatch").

Definition loadAggregate (s : InMemoryProcessingStore) (runId aggregateId : jsstring) :
    res (option AggregateCheckpoint) :=
  do! validateAggregateId aggregateId ;;
  match run_aggregates s runId !! aggregateId with
  | None => Ok None
  | Some stored =>
      let* aggregate := validateCommittedAggregateCheckpoint (to_json stored) in
      do! verifyAggregate s aggregate ;;
      let* c := copy aggregate in
      Ok (Some c)
  end.

(** The persisted event a commit names, compared with the one it carries. *)
Definition assert_persisted `{EventLog L} (log : L) (event : StoredEvent) : res unit :=
  let* storedEvent := log_get log (s_position event) in
  let* storedEvent := or_throw storedEvent (Error "Event is not the exact persisted event") in
  let* persistedEvent := validateStoredEvent (stored_json storedEvent) in
  do! verifyStoredEvent persistedEvent None ;;
  guard! negb (bool_decide (c_eventId persistedEvent = c_eventId event)) ||
         negb (bool_decide (s_eventHash persistedEvent = s_eventHash event))
    throws Error "Event is not the exact persisted event" ;;
  let* a := canonicalJson (stored_json persistedEvent) in
  let* b := canonicalJson (stored_json event) in
  throw_if (negb (bool_decide (a = b))) (Error "Event is not the exact persisted event").

(** One iteration over the outputs of a commit: the pending outputs and dedupe
    entries so far. *)
Definition stage_output (s : InMemoryProcessingStore) (runId : jsstring)
    (pending : list StoredOutput * list (jsstring * jsstring)) (output : ImmutableOutput) :
    res (list StoredOutput * list (jsstring * jsstring)) :=
  let (pendingOutputs, pendingDedupe) := pending in
  guard! negb (bool_decide (o_runId output = runId)) throws Error "Output run ID mismatch" ;;
  let* expectedBodyHash := canonicalHash (body_domain (o_category output)) (JObj (o_body output)) in
  guard! negb (bool_decide (o_bodyHash output = expectedBodyHash))
    throws Error "Output body hash mismatch" ;;
  let* pendingDedupe := match o_dedupeKey output with
    | None => Ok pendingDedupe
    | Some dedupeKey =>
        guard! bool_decide (o_category output = Cat_decision)
          throws Error "Decision output cannot have a dedupe key" ;;
        let* key := computeOutputDedupeIdentity (o_runId output) (o_category output) dedupeKey in
        let existing := match m_dedupeKeys s !! key with
          | Some id => Some id
          | None => snd <$> find (λ entry, bool_decide (entry.1 = key)) pendingDedupe
          end in
        guard! match existing with
               | Some id => negb (bool_decide (id = o_outputId output))
               | None => false
               end throws Error "Run-scoped output dedupe conflict" ;;
        Ok (pendingDedupe ++ [(key, o_outputId output)])
    end in
  let* copied := copy output in
  let stored := {|
    so_output := copied;
    so_sequence := dec (Z.of_nat (length (m_outputs s)) + Z.of_nat (length pendingOutputs) + 1) |} in
  Ok (pendingOutputs ++ [stored], pendingDedupe).

(** Every check of a commit, with the values it persists. *)
Definition check_commit `{EventLog L} (log : L) (s : InMemoryProcessingStore)
    (value : ProcessingCommit) :
    res (ProcessingCommit * RunRegistration * list StoredOutput * list (jsstring * jsstring)) :=
  let* value := validateProcessingCommit (to_json value) in
  do! assert_persisted log (pc_event value) ;;
  let* registration := or_throw (m_runs s !! rc_runId (pc_cursor value))
    (Error "Run is not registered") in
  let* previous := match m_cursors s !! rc_runId (pc_cursor value) with
    | Some cursor => Ok cursor
    | None => createGenesisRunCursor registration
    end in
  guard! negb (bool_decide (rc_processedPosition previous = pc_expectedPosition value))
    throws Error "Cursor concurrency conflict" ;;
  let* value := verifyProcessingTransition value registration previous in
  let priorAggregate :=
    run_aggregates s (rc_runId (pc_cursor value)) !! ac_aggregateId (pc_aggregate value) in
  let* priorVersion := BigInt (match priorAggregate with
    | Some a => ac_version a | None => js "0" end) in
  guard! negb (bool_decide (ac_version (pc_aggregate value) = dec (priorVersion + 1)))
    throws Error "Aggregate version concurrency conflict" ;;
  let* (pendingOutputs, pendingDedupe) :=
    res_fold (stage_output s (rc_runId (pc_cursor value))) ([], []) (pc_outputs value) in
  Ok (value, registration, pendingOutputs, pendingDedupe).

Definition output_ids_of (c : OutputCategory) (outputs : list ImmutableOutput) : gset jsstring :=
  list_to_set (o_outputId <$> filter (λ o, o_category o = c) outputs).

(** The writes of a commit before the cursor's, once every check has passed. *)
Definition write_results (value : ProcessingCommit) (registration : RunRegistration)
    (aggregate : AggregateCheckpoint) (pendingOutputs : list StoredOutput)
    (pendingDedupe : list (jsstring * jsstring)) (s : InMemoryProcessingStore) :
    InMemoryProcessingStore :=
  let runId := rc_runId (pc_cursor value) in
  let dispatch := rm_effectsAllowed (rr_manifest registration) in {|
    m_runs := m_runs s;
    m_cursors := m_cursors s;
    m_aggregates := <[runId := <[ac_aggregateId (pc_aggregate value) := aggregate]>
      (run_aggregates s runId)]> (m_aggregates s);
    m_outputs := m_outputs s ++ pendingOutputs;
    m_dedupeKeys := foldl (λ m entry, <[entry.1 := entry.2]> m) (m_dedupeKeys s) pendingDedupe;
    m_dispatchableJobs := if dispatch
      then output_ids_of Cat_job (pc_outputs value) ∪ m_dispatchableJobs s
      else m_dispatchableJobs s;
    m_dispatchableOutbox := if dispatch
      then output_ids_of Cat_outbox (pc_outputs value) ∪ m_dispatchableOutbox s
      else m_dispatchableOutbox s |}.

Definition write_cursor (runId : jsstring) (cursor : RunCursor) (s : InMemoryProcessingStore) :
    InMemoryProcessingStore := {|
  m_runs := m_runs s; m_cursors := <[runId := cursor]> (m_cursors s);
  m_aggregates := m_aggregates s; m_outputs := m_outputs s; m_dedupeKeys := m_dedupeKeys s;
  m_dispatchableJobs := m_dispatchableJobs s; m_dispatchableOutbox := m_dispatchableOutbox s |}.

Definition commit `{EventLog L} (log : L) (value : ProcessingCommit) :
    sm InMemoryProcessingStore unit :=
  sm! s := sm_get in
  sm! (value, registration, pendingOutputs, pendingDedupe) := sm_lift (check_commit log s value) in
  sm! aggregate := sm_lift (copy (pc_aggregate value)) in
  sm! _ := sm_modify (write_results value registration aggregate pendingOutputs pendingDedupe) in
  sm! cursor := sm_lift (copy (pc_cursor value)) in
  sm_modify (write_cursor (rc_runId (pc_cursor value)) cursor).

Definition sequence_after (runId : jsstring) (cursor : Z) (output : StoredOutput) : res bool :=
  if bool_decide (o_runId (so_output output) = runId) then
    let* n := BigInt (so_sequence output) in Ok (cursor <? n)
  else Ok false.

Definition audit_output (output : StoredOutput) : res StoredOutput :=
  let* validated := validateStoredOutput (to_json output) in
  let* expected := canonicalHash (body_domain (o_category (so_output validated)))
    (JObj (o_body (so_output validated))) in
  guard! negb (bool_decide (o_bodyHash (so_output validated) = expected))
    throws Error "Output body hash mismatch on audit read" ;;
  copy validated.

Definition readOutputsAfter (s : InMemoryProcessingStore) (runId sequence : jsstring)
    (limit : jsnum) : res OutputPage :=
  let* limit := store_page_limit "Output page limit is invalid" limit in
  let* cursor := BigInt sequence in
  let* filtered := res_filter (sequence_after runId cursor) (m_outputs s) in
  let* selected := res_map audit_output (take (Z.to_nat limit) filtered) in
  let nextSequence := match last selected with Some o => so_sequence o | None => sequence end in
  let* next := BigInt nextSequence in
  let* rest := res_filter (sequence_after runId next) (m_outputs s) in
  Ok {| op_outputs := selected; op_nextSequence := nextSequence;
        op_hasMore := negb (bool_decide (rest = [])) |}.

Definition readAggregatesAfter (s : InMemoryProcessingStore) (runId aggregateId : jsstring)
    (limit : jsnum) : res AggregatePage :=
  let* limit := store_page_limit "Aggregate page limit is invalid" limit in
  do! (if bool_decide (aggregateId = []) then Ok [] else validateAggregateId aggregateId) ;;
  let values := sort_by (λ a b, js_leb (ac_aggregateId a) (ac_aggregateId b))
    (filter (λ a, negb (js_leb (ac_aggregateId a) aggregateId) = true)
      (map snd (map_to_list (run_aggregates s runId)))) in
  let* selected := res_map (λ aggregate, do! verifyAggregate s aggregate ;; copy aggregate)
    (take (Z.to_nat limit) values) in
  Ok {| ap_aggregates := selected;
        ap_nextAggregateId :=
          match last selected with Some a => ac_aggregateId a | None => aggregateId end;
        ap_hasMore := Z.of_nat (length selected) <? Z.of_nat (length values) |}.

(** The numbers of dispatchable jobs and outbox messages of a run. *)
Definition dispatchableCounts (s : InMemoryProcessingStore) (runId : jsstring) : Z * Z :=
  let outputsForRun : gset jsstring := list_to_set
    ((λ o, o_outputId (so_output o)) <$> filter (λ o, o_runId (so_output o) = runId) (m_outputs s)) in
  (Z.of_nat (size (m_dispatchableJobs s ∩ outputsForRun)),
   Z.of_nat (size (m_dispatchableOutbox s ∩ outputsForRun))).

#[export] Instance InMemoryProcessingStore_ProcessingStore `{EventLog L} (log : L) :
    ProcessingStore InMemoryProcessingStore := {|
  store_ensureRun := ensureRun; store_loadCursor := loadCursor;
  store_loadAggregate := loadAggregate; store_commit := commit log;
  store_readOutputsAfter := readOutputsAfter;
  store_readAggregatesAfter := readAggregatesAfter |}.
End in_memory.
