(* ===== verification/Processor.v ===== *)
(** * The deterministic processor ([src/core/processor.ts])

    [DeterministicProcessor] folds a reducer over the event log: it verifies the
    event, the cursor and the checkpoint it starts from, runs the reducer, and
    hands one commit to the store.  Reducer, event log and store are arguments:
    a reducer is a record of functions that may throw and whose results are raw
    JSON until they have been checked. *)
From S2P Require Import Prelude JsString JsNumber Json JsonLimits JsonParse JsonClaims Hash Zod.
From S2P Require Import JsonObject Clock Event EventFacts EventChain EventLog Codec Run Processing.
From S2P Require Import Commit ProcessingStore.

(** ** Drafts and reducers *)

Record DecisionDraft : Type := { dd_type : jsstring; dd_payload : jobject }.

Record JobDraft : Type := {
  jd_jobId : jsstring;
  jd_type : jsstring;
  jd_dedupeKey : jsstring;
  jd_notBeforeLogicalMs : jsnum;
  jd_inputBundleHash : jsstring;
  jd_payload : jobject
}.

Record OutboxDraft : Type := {
  od_messageId : jsstring;
  od_topic : jsstring;
  od_dedupeKey : jsstring;
  od_payload : jobject
}.

Record Transition : Type := {
  t_state : json;
  t_decisions : list DecisionDraft;
  t_jobs : list JobDraft;
  t_outbox : list OutboxDraft
}.

Record ReducerContext : Type := {
  rx_nowMs : Z;
  rx_runId : jsstring;
  rx_behaviorHash : jsstring;
  rx_identities : RunIdentities;
  rx_config : jobject;
  rx_configHash : jsstring
}.

(** [parseState] and [initialState] answer whatever the reducer's author wrote:
    their results are checked before use. *)
Record Reducer : Type := {
  r_name : jsstring;
  r_version : jsstring;
  r_route : StoredEvent → res jsstring;
  r_parseState : json → res json;
  r_initialState : jsstring → jobject → res json;
  r_apply : jobject → StoredEvent → ReducerContext → res Transition
}.

(** A draft of any category. *)
Inductive Draft : Type :=
  | Draft_decision (d : DecisionDraft)
  | Draft_job (j : JobDraft)
  | Draft_outbox (o : OutboxDraft).

Definition draft_category (d : Draft) : OutputCategory :=
  match d with
  | Draft_decision _ => Cat_decision
  | Draft_job _ => Cat_job
  | Draft_outbox _ => Cat_outbox
  end.

(** ** Materialisation *)

Definition assertNonEmpty (value : jsstring) : res unit :=
  throw_if (bool_decide (value = [])) (TypeError "cannot be empty").

Definition assertHash (value : jsstring) : res unit :=
  throw_if (negb (is_hash value)) (TypeError "must be a SHA-256 hex digest").

Definition assertLogicalMs (value : jsnum) : res unit :=
  throw_if (match epoch_value value with Some _ => false | None => true end)
    (RangeError "must be a non-negative safe integer").

Record Materialized : Type := {
  mt_body : jobject;
  mt_dedupeKey : option jsstring;
  mt_notBeforeLogicalMs : option jsnum
}.

Section materialize.
Context `{Sha256}.

Definition outputBody (draft : Draft) (runId : jsstring) : res Materialized :=
  match draft with
  | Draft_decision decision =>
      do! assertNonEmpty (dd_type decision) ;;
      do! assertJsonWithinLimits (JObj (dd_payload decision)) PERSISTED_PROCESSING_JSON_LIMITS ;;
      Ok {| mt_body := [(js "type", JStr (dd_type decision));
                        (js "payload", JObj (dd_payload decision))];
            mt_dedupeKey := None; mt_notBeforeLogicalMs := None |}
  | Draft_job job =>
      do! assertNonEmpty (jd_type job) ;;
      do! assertNonEmpty (jd_dedupeKey job) ;;
      do! assertHash (jd_inputBundleHash job) ;;
      do! assertLogicalMs (jd_notBeforeLogicalMs job) ;;
      do! assertJsonWithinLimits (JObj (jd_payload job)) PERSISTED_PROCESSING_JSON_LIMITS ;;
      let* expectedJobId := deriveJobId runId (jd_dedupeKey job) (jd_payload job) in
      guard! negb (bool_decide (jd_jobId job = expectedJobId))
        throws Error "Invalid deterministic job ID" ;;
      Ok {| mt_body := [(js "jobId", JStr (jd_jobId job)); (js "type", JStr (jd_type job));
              (js "dedupeKey", JStr (jd_dedupeKey job));
              (js "notBeforeLogicalMs", JNum (jd_notBeforeLogicalMs job));
              (js "inputBundleHash", JStr (jd_inputBundleHash job));
              (js "payload", JObj (jd_payload job))];
            mt_dedupeKey := Some (jd_dedupeKey job);
            mt_notBeforeLogicalMs := Some (jd_notBeforeLogicalMs job) |}
  | Draft_outbox outbox =>
      do! assertNonEmpty (od_topic outbox) ;;
      do! assertNonEmpty (od_dedupeKey outbox) ;;
      do! assertJsonWithinLimits (JObj (od_payload outbox)) PERSISTED_PROCESSING_JSON_LIMITS ;;
      let* expectedMessageId := deriveMessageId runId (od_dedupeKey outbox) (od_payload outbox) in
      guard! negb (bool_decide (od_messageId outbox = expectedMessageId))
        throws Error "Invalid deterministic message ID" ;;
      Ok {| mt_body := [(js "messageId", JStr (od_messageId outbox));
              (js "topic", JStr (od_topic outbox)); (js "dedupeKey", JStr (od_dedupeKey outbox));
              (js "payload", JObj (od_payload outbox))];
            mt_dedupeKey := Some (od_dedupeKey outbox); mt_notBeforeLogicalMs := None |}
  end.

(** A checked body holds no fraction, no NaN and no negative zero. *)
Definition materialized_time (m : Materialized) : res (option Z) :=
  match mt_notBeforeLogicalMs m with
  | None => Ok None
  | Some (NInt z) => Ok (Some z)
  | Some _ => Throw (TypeError "must be a safe integer and cannot be negative zero")
  end.

(** One output, with the dedupe identities of the transition so far. *)
Definition materialize_one (registration : RunRegistration) (event : StoredEvent)
    (aggregateId : jsstring) (dedupe : gset jsstring) (ordinal : Z) (draft : Draft) :
    res (ImmutableOutput * gset jsstring) :=
  let category := draft_category draft in
  let runId := rm_runId (rr_manifest registration) in
  let* materialized := outputBody draft runId in
  let body := mt_body materialized in
  do! assertJsonWithinLimits (JObj body) PERSISTED_PROCESSING_JSON_LIMITS ;;
  do! canonicalJson (JObj body) ;;
  let* dedupe := match mt_dedupeKey materialized with
    | None => Ok dedupe
    | Some dedupeKey =>
        guard! bool_decide (category = Cat_decision)
          throws Error "Decision output cannot have a dedupe key" ;;
        let* identity := computeOutputDedupeIdentity runId category dedupeKey in
        guard! bool_decide (identity ∈ dedupe) throws Error "Duplicate dedupe key in transition" ;;
        Ok ({[identity]} ∪ dedupe)
    end in
  let* bodyHash := canonicalHash (body_domain category) (JObj body) in
  let* outputId := output_id runId (rr_manifestHash registration) (s_eventHash event) aggregateId
    category ordinal bodyHash in
  let* time := materialized_time materialized in
  let* cloned := cloneJson (JObj body) in
  let* cloned := or_throw (as_obj cloned) (TypeError "body") in
  Ok ({| o_outputId := outputId; o_runId := runId; o_inputEventId := c_eventId event;
         o_inputPosition := s_position event; o_aggregateId := aggregateId;
         o_category := category; o_ordinal := ordinal;
         o_dedupeKey := mt_dedupeKey materialized; o_notBeforeLogicalMs := time;
         o_body := cloned; o_bodyHash := bodyHash |}, dedupe).

(** The inner loop: one category's drafts, numbered from [ordinal]. *)
Fixpoint materialize_group (registration : RunRegistration) (event : StoredEvent)
    (aggregateId : jsstring) (dedupe : gset jsstring) (ordinal : Z) (drafts : list Draft) :
    res (list ImmutableOutput * gset jsstring) :=
  match drafts with
  | [] => Ok ([], dedupe)
  | draft :: drafts =>
      let* (output, dedupe) := materialize_one registration event aggregateId dedupe ordinal draft in
      let* (outputs, dedupe) :=
        materialize_group registration event aggregateId dedupe (ordinal + 1) drafts in
      Ok (output :: outputs, dedupe)
  end.

(** [#materialize] *)
Definition materialize (registration : RunRegistration) (event : StoredEvent)
    (aggregateId : jsstring) (transition : Transition) : res (list ImmutableOutput) :=
  let* (decisions, dedupe) := materialize_group registration event aggregateId ∅ 0
    (map Draft_decision (t_decisions transition)) in
  let* (jobs, dedupe) := materialize_group registration event aggregateId dedupe 0
    (map Draft_job (t_jobs transition)) in
  let* (outbox, _) := materialize_group registration event aggregateId dedupe 0
    (map Draft_outbox (t_outbox transition)) in
  Ok (decisions ++ jobs ++ outbox).
End materialize.

(** ** The processor *)

(** The readonly fields of the class, and the reducer. *)
Record DeterministicProcessor : Type := {
  dp_reducer : Reducer;
  dp_registration : RunRegistration;
  dp_configHash : jsstring
}.

(** What a processor's methods change: its [#initialized] flag and its store. *)
Record ProcessorState (S : Type) : Type := { st_initialized : bool; st_store : S }.
Arguments st_initialized {S}.
Arguments st_store {S}.
Arguments Build_ProcessorState {S}.

Definition in_store {S A} (m : sm S A) : sm (ProcessorState S) A := λ st,
  let (s, r) := m (st_store st) in
  ({| st_initialized := st_initialized st; st_store := s |}, r).

Section processor.
Context `{Sha256} `{Zod}.

(** The constructor. *)
Definition new_DeterministicProcessor (reducer : Reducer) (manifest : json) :
    res DeterministicProcessor :=
  let* registration := deriveRunRegistration manifest in
  let behavior := rm_behavior (rr_manifest registration) in
  let identities := rb_identities behavior in
  guard! negb (bool_decide (rb_reducerName behavior = r_name reducer))
    throws Error "Manifest reducer name does not match the reducer" ;;
  guard! negb (bool_decide (rb_reducerVersion behavior = r_version reducer))
    throws Error "Manifest reducer version does not match the reducer" ;;
  do! assertNonEmpty (rm_runId (rr_manifest registration)) ;;
  do! assertNonEmpty (ri_extractorVersion identities) ;;
  do! res_map (λ identity, match identity with Some s => assertNonEmpty s | None => Ok tt end)
    [Some (ri_extractorVersion identities); ri_featureSetId identities; ri_modelId identities;
     ri_promptId identities; ri_datasetId identities] ;;
  do! assertHash (rb_buildDigest behavior) ;;
  do! assertHash (rb_schemaRegistryDigest behavior) ;;
  let* configHash := canonicalHash (js "peas/reducer-config/v2") (JObj (rb_configuration behavior)) in
  Ok {| dp_reducer := reducer; dp_registration := registration; dp_configHash := configHash |}.

Context (P : DeterministicProcessor).
Local Abbreviation registration := (dp_registration P).
Local Abbreviation reducer := (dp_reducer P).
Local Abbreviation runId := (rm_runId (rr_manifest (dp_registration P))).

Definition registration_copy : res RunRegistration := copy registration.

(** [#genesis] *)
Definition genesis : res RunCursor := createGenesisRunCursor registration.

(** A state the reducer produced, checked and parsed. *)
Definition parse_checked (state : json) : res jobject :=
  let* parsed := r_parseState reducer state in
  let* kvs := requiredObject (Some parsed) in
  do! assertJsonWithinLimits parsed PERSISTED_PROCESSING_JSON_LIMITS ;;
  Ok kvs.

Definition stateHash_of (state : jobject) : res jsstring :=
  canonicalHash (state_domain (r_name reducer) (r_version reducer)) (JObj state).

(** [#aggregateGenesis] *)
Definition aggregateGenesis (aggregateId : jsstring) : res AggregateCheckpoint :=
  let* initialState := r_initialState reducer aggregateId
    (rb_configuration (rm_behavior (rr_manifest registration))) in
  do! assertJsonWithinLimits initialState PERSISTED_PROCESSING_JSON_LIMITS ;;
  let* state := parse_checked initialState in
  let* stateHash := stateHash_of state in
  hash_checkpoint {|
    ac_runId := runId; ac_aggregateId := aggregateId; ac_version := js "0";
    ac_lastInputPosition := js "0"; ac_state := state; ac_stateHash := stateHash;
    ac_checkpointHash := [] |}.

(** [#verifyCursor] *)
Definition verifyCursor (cursor : RunCursor) : res RunCursor :=
  let* cursor := validateRunCursor (to_json cursor) in
  guard! negb (bool_decide (rc_runId cursor = runId)) throws Error "Run cursor ID mismatch" ;;
  guard! negb (bool_decide (rc_manifestHash cursor = rr_manifestHash registration))
    throws Error "Run manifest does not match the stored cursor" ;;
  guard! negb (bool_decide (rc_behaviorHash cursor = rr_behaviorHash registration))
    throws Error "Run behavior does not match the stored cursor" ;;
  let* cursorHash := computeRunCursorHash cursor in
  guard! negb (bool_decide (rc_cursorHash cursor = cursorHash)) throws Error "Run cursor hash mismatch" ;;
  Ok cursor.

(** [#verifyAggregate] *)
Definition verify_prior_aggregate (checkpoint : AggregateCheckpoint) : res jobject :=
  let* checkpoint := validateAggregateCheckpoint (to_json checkpoint) in
  do! assertJsonWithinLimits (JObj (ac_state checkpoint)) PERSISTED_PROCESSING_JSON_LIMITS ;;
  let* state := parse_checked (JObj (ac_state checkpoint)) in
  let* expectedStateHash := stateHash_of state in
  guard! negb (bool_decide (ac_stateHash checkpoint = expectedStateHash))
    throws Error "Aggregate state hash mismatch" ;;
  let* checkpointHash := computeAggregateCheckpointHash checkpoint in
  guard! negb (bool_decide (ac_checkpointHash checkpoint = checkpointHash))
    throws Error "Aggregate checkpoint hash mismatch" ;;
  Ok state.

(** The reducer's context for an event. *)
Definition reducer_context (event : StoredEvent) : res ReducerContext :=
  let behavior := rm_behavior (rr_manifest registration) in
  let* config := cloneJson (JObj (rb_configuration behavior)) in
  let* config := or_throw (as_obj config) (TypeError "configuration") in
  Ok {| rx_nowMs := c_logicalAtMs event; rx_runId := runId;
        rx_behaviorHash := rr_behaviorHash registration; rx_identities := rb_identities behavior;
        rx_config := config; rx_configHash := dp_configHash P |}.

(** The commit [process] builds for the next event, from the cursor and the
    checkpoint it found. *)
Definition build_commit (previous : RunCursor) (event : StoredEvent) (aggregateId : jsstring)
    (priorAggregate : AggregateCheckpoint) : res ProcessingCommit :=
  let* parsedPriorState := verify_prior_aggregate priorAggregate in
  let* cloned := cloneJson (JObj parsedPriorState) in
  let* cloned := or_throw (as_obj cloned) (TypeError "state") in
  let* context := reducer_context event in
  let* transition := r_apply reducer cloned event context in
  do! assertJsonWithinLimits (t_state transition) PERSISTED_PROCESSING_JSON_LIMITS ;;
  let* nextState := parse_checked (t_state transition) in
  do! canonicalJson (JObj nextState) ;;
  let* canonicalState := cloneJson (JObj nextState) in
  let* canonicalState := or_throw (as_obj canonicalState) (TypeError "state") in
  let* stateHash := stateHash_of canonicalState in
  let* priorVersion := BigInt (ac_version priorAggregate) in
  let* aggregate := hash_checkpoint {|
    ac_runId := runId; ac_aggregateId := aggregateId; ac_version := dec (priorVersion + 1);
    ac_lastInputPosition := s_position event; ac_state := canonicalState;
    ac_stateHash := stateHash; ac_checkpointHash := [] |} in
  let* outputs := materialize registration event aggregateId transition in
  let* decisionHead := next_decisionHead (rc_decisionHead previous) (s_eventHash event) outputs in
  let* cursor := hash_cursor {|
    rc_runId := runId; rc_manifestHash := rr_manifestHash registration;
    rc_behaviorHash := rr_behaviorHash registration; rc_processedPosition := s_position event;
    rc_logicalAtMs := c_logicalAtMs event; rc_lastEventHash := s_eventHash event;
    rc_stateHead := next_stateHead (rc_stateHead previous) (s_eventHash event) aggregateId
      (ac_stateHash aggregate);
    rc_decisionHead := decisionHead; rc_cursorHash := [] |} in
  Ok {| pc_expectedPosition := rc_processedPosition previous; pc_event := event;
        pc_cursor := cursor; pc_aggregate := aggregate; pc_outputs := outputs |}.

Section with_log.
Context `{EventLog L} (log : L).

(** [#persistedPredecessorHash] *)
Definition persistedPredecessorHash (position : Z) : res jsstring :=
  if position =? 1 then Ok ZERO_HASH
  else
    let predecessorPosition := dec (position - 1) in
    let* predecessor := log_get log predecessorPosition in
    let* predecessor := or_throw predecessor
      (Error "Persisted event predecessor does not exist") in
    guard! negb (bool_decide (s_position predecessor = predecessorPosition))
      throws Error "Event log returned the wrong predecessor" ;;
    do! verifyStoredEvent predecessor None ;;
    Ok (s_eventHash predecessor).

(** [#verifyExactPersistedEvent] *)
Definition verifyExactPersistedEvent (event : StoredEvent) (expectedPreviousHash : jsstring) :
    res unit :=
  do! verifyStoredEvent event (Some expectedPreviousHash) ;;
  let* persisted := log_get log (s_position event) in
  let* persisted := or_throw persisted (Error "Event is not persisted") in
  do! verifyStoredEvent persisted (Some expectedPreviousHash) ;;
  let* a := canonicalJson (stored_json persisted) in
  let* b := canonicalJson (stored_json event) in
  throw_if (negb (bool_decide (a = b))) (Error "Event is not the exact persisted event").

(** The inner loop of [#verifyProcessedSuffix]. *)
Definition suffix_step (st : Z * jsstring) (event : StoredEvent) : res (Z * jsstring) :=
  let (position, eventHash) := st in
  let expectedPosition := position + 1 in
  guard! negb (bool_decide (s_position event = dec expectedPosition))
    throws Error "Persisted event chain position mismatch" ;;
  do! verifyStoredEvent event (Some eventHash) ;;
  Ok (expectedPosition, s_eventHash event).

(** The [while] loop of [#verifyProcessedSuffix]; a page advances the position
    or the loop throws, so [Z.to_nat (cursorPosition - position)] turns suffice. *)
Fixpoint suffix_loop (fuel : nat) (cursorPosition : Z) (st : Z * jsstring) : res (Z * jsstring) :=
  let (position, eventHash) := st in
  if position <? cursorPosition then
    match fuel with
    | O => Throw (RangeError "fuel")
    | S fuel =>
        let remaining := cursorPosition - position in
        let limit := if remaining <? 1000 then remaining else 1000 in
        let* page := log_readAfter log (dec position) (NInt limit) in
        guard! bool_decide (pg_events page = [])
          throws Error "Persisted event chain ends before cursor position" ;;
        let* (position, eventHash) := res_fold suffix_step (position, eventHash) (pg_events page) in
        guard! negb (bool_decide (pg_nextPosition page = dec position))
          throws Error "Persisted event page cursor mismatch" ;;
        suffix_loop fuel cursorPosition (position, eventHash)
    end
  else Ok (position, eventHash).

(** [#verifyProcessedSuffix] *)
Definition verifyProcessedSuffix (startPosition : Z) (startEventHash : jsstring)
    (cursor : RunCursor) : res unit :=
  let* cursorPosition := BigInt (rc_processedPosition cursor) in
  let* (position, eventHash) := suffix_loop (Z.to_nat (cursorPosition - startPosition))
    cursorPosition (startPosition, startEventHash) in
  throw_if (negb (position =? cursorPosition) ||
            negb (bool_decide (eventHash = rc_lastEventHash cursor)))
    (Error "Persisted event chain does not match cursor head").

Context `{ProcessingStore St}.

(** [#initialize] *)
Definition initialize : sm (ProcessorState St) unit :=
  sm! st := sm_get in
  if st_initialized st then sm_ret tt
  else
    sm! _ := in_store (store_ensureRun registration) in
    sm_modify (λ st, {| st_initialized := true; st_store := st_store st |}).

(** The run's cursor in the store, or its genesis. *)
Definition current_cursor (s : St) : res RunCursor :=
  let* stored := store_loadCursor s runId in
  match stored with Some cursor => Ok cursor | None => genesis end.

(** An event at or before the cursor: it must be the persisted one, and the
    log must still lead to the cursor. *)
Definition verify_processed (event : StoredEvent) (currentPosition : Z) (previous : RunCursor) :
    res unit :=
  let* expectedPreviousHash := persistedPredecessorHash currentPosition in
  do! verifyExactPersistedEvent event expectedPreviousHash ;;
  verifyProcessedSuffix currentPosition (s_eventHash event) previous.

(** The next event: everything up to the commit. *)
Definition prepare (s : St) (event : StoredEvent) (currentPosition previousPosition : Z)
    (previous : RunCursor) : res ProcessingCommit :=
  guard! negb (currentPosition =? previousPosition + 1)
    throws Error "Non-contiguous processing position" ;;
  do! verifyExactPersistedEvent event (rc_lastEventHash previous) ;;
  guard! c_logicalAtMs event <? rc_logicalAtMs previous throws Error "Logical clock regression" ;;
  let* route := r_route reducer event in
  let* aggregateId := validateAggregateId route in
  let* stored := store_loadAggregate s runId aggregateId in
  let* priorAggregate := match stored with
    | Some aggregate => Ok aggregate
    | None => aggregateGenesis aggregateId
    end in
  build_commit previous event aggregateId priorAggregate.

Definition process (event : StoredEvent) : sm (ProcessorState St) RunCursor :=
  sm! _ := initialize in
  sm! event := sm_lift (validateStoredEvent (stored_json event)) in
  sm! _ := sm_lift (verifyStoredEvent event None) in
  sm! st := sm_get in
  sm! previous := sm_lift (current_cursor (st_store st)) in
  sm! previous := sm_lift (verifyCursor previous) in
  sm! currentPosition := sm_lift (BigInt (s_position event)) in
  sm! previousPosition := sm_lift (BigInt (rc_processedPosition previous)) in
  if currentPosition <=? previousPosition then
    sm! _ := sm_lift (verify_processed event currentPosition previous) in
    sm_ret previous
  else
    sm! c := sm_lift (prepare (st_store st) event currentPosition previousPosition previous) in
    sm! _ := in_store (store_commit c) in
    sm_ret (pc_cursor c).

(** [for (const event of page.events) cursor = await this.process(event)] *)
Fixpoint process_all (cursor : RunCursor) (events : list StoredEvent) :
    sm (ProcessorState St) RunCursor :=
  match events with
  | [] => sm_ret cursor
  | event :: events => sm! cursor := process event in process_all cursor events
  end.

(** The [while (true)] of [processAvailable]. *)
Fixpoint available_loop (fuel : nat) (pageSize : jsnum) (cursor : RunCursor) :
    sm (ProcessorState St) RunCursor :=
  match fuel with
  | O => sm_lift (Throw (RangeError "fuel"))
  | S fuel =>
      sm! page := sm_lift (log_readAfter log (rc_processedPosition cursor) pageSize) in
      sm! cursor := process_all cursor (pg_events page) in
      if pg_hasMore page then available_loop fuel pageSize cursor else sm_ret cursor
  end.

Definition processAvailable (fuel : nat) (pageSize : jsnum) : sm (ProcessorState St) RunCursor :=
  sm! _ := sm_lift (assertPageLimit pageSize) in
  sm! _ := initialize in
  sm! st := sm_get in
  sm! cursor := sm_lift (current_cursor (st_store st)) in
  available_loop fuel pageSize cursor.

(** The two paging loops of [snapshot]. *)
Fixpoint outputs_loop (fuel : nat) (pageSize : jsnum) (s : St) (outputCursor : jsstring) :
    res (list StoredOutput) :=
  match fuel with
  | O => Throw (RangeError "fuel")
  | S fuel =>
      let* page := store_readOutputsAfter s runId outputCursor pageSize in
      if op_hasMore page then
        let* rest := outputs_loop fuel pageSize s (op_nextSequence page) in
        Ok (op_outputs page ++ rest)
      else Ok (op_outputs page)
  end.

Fixpoint aggregates_loop (fuel : nat) (pageSize : jsnum) (s : St) (aggregateCursor : jsstring) :
    res (list AggregateCheckpoint) :=
  match fuel with
  | O => Throw (RangeError "fuel")
  | S fuel =>
      let* page := store_readAggregatesAfter s runId aggregateCursor pageSize in
      if ap_hasMore page then
        let* rest := aggregates_loop fuel pageSize s (ap_nextAggregateId page) in
        Ok (ap_aggregates page ++ rest)
      else Ok (ap_aggregates page)
  end.

Definition snapshot (fuel : nat) (pageSize : jsnum) :
    sm (ProcessorState St) (RunCursor * list StoredOutput * list AggregateCheckpoint) :=
  sm! _ := sm_lift (assertPageLimit pageSize) in
  sm! _ := initialize in
  sm! st := sm_get in
  sm! cursor := sm_lift (current_cursor (st_store st)) in
  sm! outputs := sm_lift (outputs_loop fuel pageSize (st_store st) (js "0")) in
  sm! aggregates := sm_lift (aggregates_loop fuel pageSize (st_store st) []) in
  sm_ret (cursor, outputs, aggregates).
End with_log.
End processor.
