(* ===== verification/CommitFacts.v ===== *)
(** * Facts about processing commits

    What the validators of [Commit] return on records, and what the two
    verifications establish: [commit_checked] and [transition_checked] are the
    conditions a commit has met when a store accepts it. *)
From S2P Require Import Prelude JsString JsNumber Json JsonLimits JsonParse JsonClaims.
From S2P Require Import Hash Zod JsonObject Event EventFacts EventChain Codec Run.
From S2P Require Import Processing Commit.

(** ** Snapshots forget the order of entries *)

Lemma snapshot_first {A} (k : json → res A) L v w a :
  limits_valid L = true → json_wf v → json_wf w → norm v = norm w →
  (do! assertJsonWithinLimits v L ;; let* s := inertJsonSnapshot v in k s) = Ok a →
  (do! assertJsonWithinLimits w L ;; let* s := inertJsonSnapshot w in k s) = Ok a.
Proof.
  intros HL Hv Hw E Ha. apply res_bind_Ok in Ha as (m & Hm & Ha). apply limits_Ok in Hm as [Hm _].
  rewrite <-json_within_norm, E, json_within_norm in Hm.
  rewrite (limits_within _ _ HL Hm). cbn [mbind res_bind].
  apply res_bind_Ok in Ha as (snap & Hs & Ha).
  apply inertJsonSnapshot_spec in Hs as [He ->]; [|done].
  rewrite (proj2 (inertJsonSnapshot_spec w (norm v) Hw)); [exact Ha|].
  split; [|done]. by rewrite <-norm_encodable, <-E, norm_encodable.
Qed.

Lemma processing_limits_valid : limits_valid PERSISTED_PROCESSING_JSON_LIMITS = true.
Proof. done. Qed.
Lemma commit_limits_valid : limits_valid PERSISTED_PROCESSING_COMMIT_LIMITS = true.
Proof. done. Qed.

Lemma exact_genesis_norm v : json_wf v → exact_genesis (norm v) = exact_genesis v.
Proof.
  intros Hv. destruct v as [| | | | |kvs]; try done. rewrite norm_obj. unfold exact_genesis.
  cbn [as_obj]. by rewrite !get_str_norm by by apply json_wf_nodup.
Qed.

Ltac proper :=
  cbn; repeat match goal with
  | |- _ ∧ _ => split
  | |- True => exact I
  | |- ∀ v, json_wf v → exact_genesis _ = _ => exact exact_genesis_norm
  | |- ∀ v, _ => by intros []
  end.

Lemma runCursorSchema_proper : schema_proper runCursorSchema.
Proof. proper. Qed.
Lemma aggregateCheckpointSchema_proper : schema_proper aggregateCheckpointSchema.
Proof. proper. Qed.
Lemma committedSchema_proper : schema_proper committedAggregateCheckpointSchema.
Proof. proper. Qed.
Lemma immutableOutputSchema_proper : schema_proper immutableOutputSchema.
Proof. proper. Qed.
Lemma storedOutputSchema_proper : schema_proper storedOutputSchema.
Proof. proper. Qed.
Lemma processingCommitSchema_proper : schema_proper processingCommitSchema.
Proof. proper. Qed.
Lemma jobBodySchema_proper : schema_proper jobBodySchema.
Proof. proper. Qed.
Lemma outboxBodySchema_proper : schema_proper outboxBodySchema.
Proof. proper. Qed.
Lemma decisionBodySchema_proper : schema_proper decisionBodySchema.
Proof. proper. Qed.

Section validators.
Context `{Sha256} `{Zod}.

(** *** Bodies *)

Lemma clone_body_spec b b' :
  json_wf (JObj b) → clone_body (JObj b) = Ok b' → b' = norm_entries b.
Proof.
  intros Hw. unfold clone_body. intros Hb. apply res_bind_Ok in Hb as (c & Hc & Hb).
  apply cloneJson_spec in Hc as [_ ->]; [|done]. apply or_throw_Ok in Hb.
  rewrite norm_obj in Hb. cbn [as_obj] in Hb. by injection Hb.
Qed.

(** The delivery metadata an accepted body agrees with. *)
Definition body_checked (c : OutputCategory) (b : jobject) (md : StoredOutputBodyMetadata) : Prop :=
  match c with
  | Cat_decision => md_dedupeKey md = None ∧ md_notBeforeLogicalMs md = None
  | Cat_job => ∃ key time id payload,
      md_dedupeKey md = Some key ∧ md_notBeforeLogicalMs md = Some time ∧
      get_str (js "dedupeKey") b = Some key ∧ get_int (js "notBeforeLogicalMs") b = Some time ∧
      get_str (js "jobId") b = Some id ∧ get_obj (js "payload") b = Some payload ∧
      deriveJobId (md_runId md) key payload = Ok id
  | Cat_outbox => ∃ key id payload,
      md_dedupeKey md = Some key ∧ md_notBeforeLogicalMs md = None ∧
      get_str (js "dedupeKey") b = Some key ∧
      get_str (js "messageId") b = Some id ∧ get_obj (js "payload") b = Some payload ∧
      deriveMessageId (md_runId md) key payload = Ok id
  end.

Lemma validateStoredOutputBody_inv c b md b' :
  json_wf (JObj b) → validateStoredOutputBody c (JObj b) md = Ok b' →
  b' = norm_entries b ∧ body_checked c (norm_entries b) md.
Proof.
  intros Hw Hv. unfold validateStoredOutputBody in Hv.
  apply res_bind_Ok in Hv as (m & _ & Hv). apply res_bind_Ok in Hv as (r & _ & Hv).
  assert (Hsnap : ∀ s, inertJsonSnapshot (JObj b) = Ok s → s = JObj (norm_entries b)).
  { intros s [_ ->]%inertJsonSnapshot_spec; [by rewrite norm_obj|done]. }
  pose proof (norm_entries_wf _ Hw) as Hnw.
  assert (Hclone : ∀ r, clone_body (JObj (norm_entries b)) = Ok r → r = norm_entries b).
  { intros r' Hr. apply clone_body_spec in Hr; [|done]. by rewrite norm_entries_idemp in Hr. }
  destruct c; cbn [body_checked].
  - apply res_bind_Ok in Hv as (u & Hg & Hv). apply throw_if_Ok in Hg.
    destruct (md_dedupeKey md), (md_notBeforeLogicalMs md); try discriminate Hg.
    apply res_bind_Ok in Hv as (s & ->%Hsnap & Hv).
    apply res_bind_Ok in Hv as (p & Hp & Hv). apply parse_Ok in Hp as [_ ->].
    split; [by apply Hclone|done].
  - destruct (md_dedupeKey md) as [key|]; [|discriminate Hv].
    destruct (md_notBeforeLogicalMs md) as [time|]; [|discriminate Hv].
    apply res_bind_Ok in Hv as (s & ->%Hsnap & Hv).
    apply res_bind_Ok in Hv as (p & Hp & Hv). apply parse_Ok in Hp as [_ ->].
    unfold body_str, body_obj in Hv. cbn [as_obj mbind option_bind] in Hv.
    inv_res. bool_prop. subst. split; [by apply Hclone|]. do 4 eexists. split_and!; eauto.
  - destruct (md_dedupeKey md) as [key|]; [|discriminate Hv].
    destruct (md_notBeforeLogicalMs md) as [time|]; [discriminate Hv|].
    apply res_bind_Ok in Hv as (s & ->%Hsnap & Hv).
    apply res_bind_Ok in Hv as (p & Hp & Hv). apply parse_Ok in Hp as [_ ->].
    unfold body_str, body_obj in Hv. cbn [as_obj mbind option_bind] in Hv.
    inv_res. bool_prop. subst. split; [by apply Hclone|]. do 3 eexists. split_and!; eauto.
Qed.

(** *** Outputs *)

Definition output_checked (o : ImmutableOutput) : Prop :=
  record_ok PERSISTED_PROCESSING_JSON_LIMITS immutableOutputSchema o = true ∧
  body_checked (o_category o) (o_body o) (output_metadata o).

Lemma output_body_wf (o : ImmutableOutput) : record_wf o → json_wf (JObj (o_body o)).
Proof.
  unfold record_wf, to_json. intros Hw. eapply (json_wf_get_obj _ (js "body")); [exact Hw|].
  reflexivity.
Qed.

Lemma validateImmutableOutput_inv v (o o' : ImmutableOutput) :
  json_wf v → record_wf o → norm v = norm (to_json o) → validateImmutableOutput v = Ok o' →
  o' = norm_output o ∧ output_checked (norm_output o).
Proof.
  intros Hv Hw E Ho. unfold validateImmutableOutput in Ho.
  apply (snapshot_first _ _ v (to_json o) _ processing_limits_valid Hv Hw E) in Ho.
  apply res_bind_Ok in Ho as (m & Hm & Ho). apply limits_Ok in Hm as [Hm _].
  apply res_bind_Ok in Ho as (s & Hs & Ho). apply inertJsonSnapshot_spec in Hs as [_ ->]; [|done].
  apply res_bind_Ok in Ho as (a & Ha & Ho). apply parse_Ok in Ha as [Ha ->].
  apply res_bind_Ok in Ho as (p & Hp & Ho). apply or_throw_Ok in Hp.
  rewrite of_json_norm, of_json_to_json in Hp by done.
  cbn [fmap option_fmap option_map] in Hp. apply Some_inj in Hp. subst p.
  apply res_bind_Ok in Ho as (b & Hb & Ho).
  pose proof (output_body_wf _ (nrm_wf _ Hw)) as Hbw.
  apply validateStoredOutputBody_inv in Hb as [-> Hb]; [|exact Hbw].
  cbn [nrm ImmutableOutput_codec norm_output with_body o_category o_body output_metadata o_runId
    o_dedupeKey o_notBeforeLogicalMs] in *.
  rewrite norm_entries_idemp in Ho, Hb.
  change (with_body _ _) with (norm_output o) in Ho.
  apply copy_spec in Ho as [_ ->]; [|exact (nrm_wf _ Hw)].
  split; [exact (nrm_idemp _ Hw)|]. split; [|exact Hb].
  rewrite accepts_norm in Ha by (exact immutableOutputSchema_proper || exact Hw).
  change (record_ok PERSISTED_PROCESSING_JSON_LIMITS immutableOutputSchema (nrm o) = true).
  rewrite record_ok_nrm by (exact immutableOutputSchema_proper || exact Hw).
  unfold record_ok. by rewrite Hm, Ha.
Qed.

(** *** Events inside a commit *)

Lemma stored_ok_norm (e : StoredEvent) : stored_wf e → stored_ok (norm_stored e) = stored_ok e.
Proof.
  intros Hw. assert (Hwn : stored_wf (norm_stored e)) by exact (nrm_wf (A := StoredEvent) e Hw).
  assert (E1 : json_within EVENT_ENVELOPE_LIMITS (stored_json (norm_stored e)) =
    json_within EVENT_ENVELOPE_LIMITS (stored_json e))
    by by rewrite <-json_within_norm, norm_stored_json, json_within_norm.
  assert (E2 : accepts_ref storedEventSchema (stored_json (norm_stored e)) =
    accepts_ref storedEventSchema (stored_json e)).
  { rewrite <-(accepts_norm _ _ storedEventSchema_proper Hwn), norm_stored_json.
    by rewrite (accepts_norm _ _ storedEventSchema_proper Hw). }
  assert (E3 : json_within EVENT_PAYLOAD_LIMITS (JObj (d_payload (norm_stored e))) =
    json_within EVENT_PAYLOAD_LIMITS (JObj (d_payload e))).
  { change (d_payload (norm_stored e)) with (norm_entries (d_payload e)).
    by rewrite <-json_within_norm, norm_entries_norm, json_within_norm. }
  unfold stored_ok. by rewrite E1, E2, E3.
Qed.

Lemma validateStoredEvent_norm v (e e' : StoredEvent) :
  json_wf v → stored_wf e → norm v = norm (stored_json e) → validateStoredEvent v = Ok e' →
  e' = norm_stored e ∧ stored_ok e = true.
Proof.
  intros Hv Hw E He. unfold validateStoredEvent, parseStoredEvent in He.
  apply (snapshot_first _ _ v (stored_json e) _ envelope_limits_valid Hv Hw E) in He.
  apply (validateStoredEvent_spec e e' Hw) in He. tauto.
Qed.

Lemma validate_record_from `{Codec A} L s v (a a' : A) :
  limits_valid L = true → schema_proper s → json_wf v → record_wf a → norm v = norm (to_json a) →
  validate_record L s v = Ok a' → a' = nrm a ∧ record_ok L s a = true.
Proof.
  intros HL Hs Hv Hw E Ha. apply (validate_record_equiv _ _ _ _ _ HL Hs Hv Hw E) in Ha.
  apply validate_record_spec in Ha; [tauto|done..].
Qed.

(** *** Commits *)

Record commit_valid (c : ProcessingCommit) : Prop := {
  cv_canonical : canonical_record c;
  cv_within : json_within PERSISTED_PROCESSING_COMMIT_LIMITS (to_json c) = true;
  cv_event : stored_ok (pc_event c) = true;
  cv_cursor : record_ok PERSISTED_PROCESSING_JSON_LIMITS runCursorSchema (pc_cursor c) = true;
  cv_aggregate :
    record_ok PERSISTED_PROCESSING_JSON_LIMITS aggregateCheckpointSchema (pc_aggregate c) = true;
  cv_committed :
    accepts_ref committedAggregateCheckpointSchema (to_json (pc_aggregate c)) = true;
  cv_outputs : Forall output_checked (pc_outputs c)
}.

Lemma commit_parts_wf (c : ProcessingCommit) :
  record_wf c → stored_wf (pc_event c) ∧ record_wf (pc_cursor c) ∧ record_wf (pc_aggregate c) ∧
    Forall record_wf (pc_outputs c).
Proof.
  unfold record_wf, stored_wf, to_json. intros Hw.
  split; [|split; [|split]].
  - eapply (json_wf_get_obj _ (js "event")); [exact Hw|reflexivity].
  - eapply (json_wf_get_obj _ (js "cursor")); [exact Hw|reflexivity].
  - eapply (json_wf_get_obj _ (js "aggregate")); [exact Hw|reflexivity].
  - rewrite json_wf_obj in Hw. destruct Hw as [_ Hw].
    destruct (Hw (js "outputs", JArr (map (λ o, JObj (output_fields o)) (pc_outputs c)))) as [_ Ho].
    { unfold to_fields, ProcessingCommit_codec, commit_fields. rewrite !elem_of_cons. tauto. }
    cbn [snd] in Ho. rewrite json_wf_arr in Ho. apply Forall_forall. intros o Hin.
    apply Ho. apply (list_elem_of_fmap (λ o, JObj (output_fields o))). by exists o.
Qed.

Lemma validate_outputs_inv os os' :
  Forall record_wf os →
  res_map validateImmutableOutput (map norm (map (λ o, JObj (output_fields o)) os)) = Ok os' →
  os' = map norm_output os ∧ Forall output_checked os'.
Proof.
  intros Hos. revert os'. induction Hos as [|o os Ho Hos IH]; intros os' Hr; cbn [map res_map] in Hr.
  - apply Ok_inj in Hr as <-. done.
  - apply res_bind_Ok in Hr as (o' & Ho' & Hr). apply res_bind_Ok in Hr as (r & Hr' & Hr).
    apply Ok_inj in Hr as <-. apply IH in Hr' as [-> Hc].
    apply (validateImmutableOutput_inv _ o) in Ho' as [-> Hch];
      [|by apply norm_wf|done|apply norm_idemp].
    split; [done|by constructor].
Qed.

Lemma norm_commit_fields_get (c : ProcessingCommit) :
  record_wf c →
  let kvs := norm_entries (commit_fields c) in
  get_str (js "expectedPosition") kvs = Some (pc_expectedPosition c) ∧
  lookup_key (js "event") kvs = Some (norm (stored_json (pc_event c))) ∧
  lookup_key (js "cursor") kvs = Some (norm (to_json (pc_cursor c))) ∧
  lookup_key (js "aggregate") kvs = Some (norm (to_json (pc_aggregate c))) ∧
  get_arr (js "outputs") kvs =
    Some (map norm (map (λ o, JObj (output_fields o)) (pc_outputs c))).
Proof.
  intros Hw. pose proof (json_wf_nodup _ Hw) as Hnd. cbn zeta.
  rewrite get_str_norm, get_arr_norm, !lookup_key_norm by exact Hnd. split_and!; reflexivity.
Qed.

Lemma validateProcessingCommit_inv (c c' : ProcessingCommit) :
  record_wf c → validateProcessingCommit (to_json c) = Ok c' →
  c' = norm_commit c ∧ commit_valid c'.
Proof.
  intros Hw Hv. destruct (commit_parts_wf c Hw) as (Hwe & Hwc & Hwa & Hwo).
  destruct (norm_commit_fields_get c Hw) as (G1 & G2 & G3 & G4 & G5). cbn zeta in *.
  unfold validateProcessingCommit, assertProcessingCommitEnvelope in Hv.
  apply res_bind_Ok in Hv as (m & Hm & Hv). apply limits_Ok in Hm as [Hm _].
  apply res_bind_Ok in Hv as (s & Hs & Hv). apply inertJsonSnapshot_spec in Hs as [He ->]; [|done].
  apply res_bind_Ok in Hv as ([] & _ & Hv).
  apply res_bind_Ok in Hv as (a & Ha & Hv). apply parse_Ok in Ha as [Ha ->].
  unfold to_json in Hv. rewrite norm_obj in Hv. cbn [as_obj or_throw mbind res_bind] in Hv.
  change (to_fields c) with (commit_fields c) in Hv.
  rewrite G1, G2, G3, G4, G5 in Hv. clear G1 G2 G3 G4 G5. cbn [or_throw mbind res_bind] in Hv.
  apply res_bind_Ok in Hv as (e & Hev & Hv).
  apply res_bind_Ok in Hv as (cu & Hcu & Hv).
  apply res_bind_Ok in Hv as (ag & Hag & Hv).
  apply res_bind_Ok in Hv as (os & Hos & Hv).
  apply (validateStoredEvent_norm _ (pc_event c)) in Hev as [-> Hev];
    [|by apply norm_wf|done|apply norm_idemp].
  apply (validate_record_from _ _ _ (pc_cursor c)) in Hcu as [-> Hcu];
    [|done|exact runCursorSchema_proper|by apply norm_wf|done|apply norm_idemp].
  apply (validate_record_from _ _ _ (pc_aggregate c)) in Hag as [-> Hag];
    [|done|exact aggregateCheckpointSchema_proper|by apply norm_wf|done|apply norm_idemp].
  apply validate_outputs_inv in Hos as [-> Hos]; [|done].
  change {| pc_expectedPosition := _; pc_event := _; pc_cursor := _; pc_aggregate := _;
    pc_outputs := _ |} with (nrm c) in Hv.
  apply copy_spec in Hv as [_ ->]; [|by apply nrm_wf]. rewrite nrm_idemp by done.
  split; [reflexivity|]. split.
  - by apply nrm_canonical.
  - rewrite <-json_within_norm, norm_to_json, json_within_norm. exact Hm.
  - cbn [nrm ProcessingCommit_codec norm_commit pc_event]. by rewrite stored_ok_norm.
  - exact Hcu.
  - cbn [nrm ProcessingCommit_codec norm_commit pc_aggregate].
    change (norm_checkpoint (pc_aggregate c)) with (nrm (pc_aggregate c)).
    by rewrite record_ok_nrm by (exact aggregateCheckpointSchema_proper || exact Hwa).
  - cbn [nrm ProcessingCommit_codec norm_commit pc_aggregate].
    change (norm_checkpoint (pc_aggregate c)) with (nrm (pc_aggregate c)).
    rewrite <-(accepts_norm _ _ committedSchema_proper (nrm_wf _ Hwa)), norm_to_json.
    rewrite (accepts_norm _ _ committedSchema_proper Hwa).
    rewrite (accepts_norm _ _ processingCommitSchema_proper Hw) in Ha.
    eapply (object_field _ _ (js "aggregate")); [exact Ha| |reflexivity].
    rewrite !elem_of_cons. tauto.
  - exact Hos.
Qed.
End validators.

(** ** The outputs of an accepted commit

    What the loop of [verifyProcessingCommit] establishes about a commit's
    outputs, and the conditions [commit_checked] and [transition_checked] that an
    accepted commit meets. *)

(** A loop's invariant may speak of the elements already seen. *)
Lemma res_fold_history {A S} (P : list A → S → Prop) (f : S → A → res S) (s0 s : S) (l : list A) :
  P [] s0 → (∀ pre x s s', P pre s → f s x = Ok s' → P (pre ++ [x]) s') →
  res_fold f s0 l = Ok s → P l s.
Proof.
  intros H0 Hstep. revert s. induction l as [|x l IH] using rev_ind; intros s Hs.
  - by apply Ok_inj in Hs as <-.
  - rewrite res_fold_app in Hs. apply res_bind_Ok in Hs as (s1 & H1 & Hs). cbn in Hs.
    apply res_bind_Ok in Hs as (s2 & H2 & Hs). apply Ok_inj in Hs as <-. eauto.
Qed.

(** One category's outputs, numbered from zero. *)
Definition numbered (c : OutputCategory) (os : list ImmutableOutput) : Prop :=
  ∀ i o, os !! i = Some o → o_category o = c ∧ o_ordinal o = Z.of_nat i.

Lemma numbered_snoc c os o :
  numbered c os → o_category o = c → o_ordinal o = Z.of_nat (length os) → numbered c (os ++ [o]).
Proof.
  intros Hn Hc Ho i x Hi. apply lookup_app_Some in Hi as [Hi|[Hge Hi]]; [by apply Hn|].
  apply list_lookup_singleton_Some in Hi as [Hi <-]. split; [done|].
  rewrite Ho. f_equal. lia.
Qed.

(** The canonical order: decisions, jobs, outbox messages, each numbered. *)
Definition canonical_order (os : list ImmutableOutput) : Prop :=
  ∃ ds js ms, os = ds ++ js ++ ms ∧ numbered Cat_decision ds ∧ numbered Cat_job js ∧
    numbered Cat_outbox ms.

(** The keys under which a job or an outbox message is delivered. *)
Definition dedupe_key (o : ImmutableOutput) : option (OutputCategory * jsstring) :=
  match o_category o with
  | Cat_decision => None
  | c => k ← o_dedupeKey o; Some (c, k)
  end.

(** The preimage of a dedupe identity. *)
Definition dedupe_preimage (runId : jsstring) (ck : OutputCategory * jsstring) : list Z :=
  canonical_preimage (js "peas/output-dedupe-identity/v2") (JObj
    [(js "runId", JStr runId); (js "category", JStr (category_name ck.1));
     (js "dedupeKey", JStr ck.2)]).

Section scan.
Context `{Sha256} `{Zod}.

Definition dedupe_identity (runId : jsstring) (ck : OutputCategory * jsstring) : jsstring :=
  sha256 (dedupe_preimage runId ck).

Lemma computeOutputDedupeIdentity_Ok r c k h :
  computeOutputDedupeIdentity r c k = Ok h → h = dedupe_identity r (c, k).
Proof. intros [_ ->]%canonicalHash_Ok. done. Qed.

(** The identity and content of an output of the commit [c]. *)
Record output_linked (c : ProcessingCommit) (reg : RunRegistration) (o : ImmutableOutput) : Prop := {
  ol_run : o_runId o = rc_runId (pc_cursor c);
  ol_event : o_inputEventId o = c_eventId (pc_event c);
  ol_position : o_inputPosition o = s_position (pc_event c);
  ol_aggregate : o_aggregateId o = ac_aggregateId (pc_aggregate c);
  ol_body : canonicalHash (body_domain (o_category o)) (JObj (o_body o)) = Ok (o_bodyHash o);
  ol_id : output_id (o_runId o) (rr_manifestHash reg) (s_eventHash (pc_event c)) (o_aggregateId o)
    (o_category o) (o_ordinal o) (o_bodyHash o) = Ok (o_outputId o)
}.

Lemma verify_output_content_spec c reg o :
  verify_output_content c reg o = Ok tt → output_linked c reg o.
Proof.
  unfold verify_output_content. intros Hv.
  apply res_bind_Ok in Hv as (u1 & Hg & Hv). apply throw_if_Ok in Hg. apply negb_false_iff in Hg.
  rewrite !andb_true_iff, !bool_decide_eq_true in Hg. destruct Hg as [[[H1 H2] H3] H4].
  apply res_bind_Ok in Hv as (m & _ & Hv).
  apply res_bind_Ok in Hv as (bh & Hbh & Hv). apply res_bind_Ok in Hv as (u2 & Hg & Hv).
  apply throw_if_Ok in Hg. apply negb_bool_decide_false in Hg.
  apply res_bind_Ok in Hv as (id & Hid & Hv). apply throw_if_Ok in Hv.
  apply negb_bool_decide_false in Hv. split; [exact H1|exact H2|exact H3|exact H4| |].
  - by rewrite Hg.
  - by rewrite Hv.
Qed.

Lemma verify_output_body_spec o seen seen' :
  json_wf (JObj (o_body o)) → verify_output_body o seen = Ok seen' →
  match dedupe_key o with
  | None => o_dedupeKey o = None ∧ seen' = seen
  | Some ck => is_Some (o_dedupeKey o) ∧ dedupe_identity (o_runId o) ck ∉ seen ∧
      seen' = {[dedupe_identity (o_runId o) ck]} ∪ seen
  end.
Proof.
  intros Hw Hv. unfold verify_output_body in Hv. apply res_bind_Ok in Hv as (b & Hb & Hv).
  apply validateStoredOutputBody_inv in Hb as [-> Hb]; [|done].
  assert (Hstep : ∀ (c : OutputCategory) (k : jsstring) (rest : gset jsstring → res (gset jsstring)),
    (∀ s s', rest s = Ok s' → s' = s) →
    get_str (js "dedupeKey") (norm_entries (o_body o)) = Some k →
    (let* bodyDedupeKey := requiredString (lookup_key (js "dedupeKey") (norm_entries (o_body o))) in
     let* dedupeIdentity := computeOutputDedupeIdentity (o_runId o) c bodyDedupeKey in
     guard! bool_decide (dedupeIdentity ∈ seen) throws Error "Duplicate dedupe key in commit" ;;
     rest ({[dedupeIdentity]} ∪ seen)) = Ok seen' →
    dedupe_identity (o_runId o) (c, k) ∉ seen ∧
    seen' = {[dedupe_identity (o_runId o) (c, k)]} ∪ seen).
  { clear Hv. intros c k rest Hrest Hk Hr. unfold get_str in Hk.
    apply res_bind_Ok in Hr as (k' & Hk' & Hr). apply res_bind_Ok in Hr as (i & Hi & Hr).
    apply res_bind_Ok in Hr as (u & Hg & Hr). apply throw_if_Ok in Hg.
    apply bool_decide_eq_false in Hg. apply Hrest in Hr.
    destruct (lookup_key (js "dedupeKey") _) as [[| | |s| |]|]; try discriminate Hk. injection Hk as ->.
    assert (k' = k) as -> by (destruct k; [discriminate Hk'|by apply Ok_inj in Hk']).
    apply computeOutputDedupeIdentity_Ok in Hi as ->. split; [exact Hg|exact Hr]. }
  unfold dedupe_key. destruct (o_category o); cbn [body_checked output_metadata md_dedupeKey] in Hb.
  - apply Ok_inj in Hv. split; [apply Hb|done].
  - destruct Hb as (key & time & id & payload & Hk & _ & Hg & _). rewrite Hk.
    cbn [mbind option_bind]. split; [by eexists|].
    refine (Hstep Cat_job key (λ s,
      do! requiredString (lookup_key (js "jobId") (norm_entries (o_body o))) ;;
      do! requiredString (lookup_key (js "type") (norm_entries (o_body o))) ;;
      do! requiredString (lookup_key (js "inputBundleHash") (norm_entries (o_body o))) ;;
      Ok s) _ Hg Hv).
    intros s s' Hs. by inv_res.
  - destruct Hb as (key & id & payload & Hk & _ & Hg & _). rewrite Hk.
    cbn [mbind option_bind]. split; [by eexists|].
    refine (Hstep Cat_outbox key (λ s,
      do! requiredString (lookup_key (js "topic") (norm_entries (o_body o))) ;;
      do! requiredString (lookup_key (js "messageId") (norm_entries (o_body o))) ;;
      Ok s) _ Hg Hv).
    intros s s' Hs. by inv_res.
Qed.

(** *** The loop's invariant *)

Definition identities (os : list ImmutableOutput) : list jsstring :=
  omap (λ o, dedupe_identity (o_runId o) <$> dedupe_key o) os.

(** A job or outbox output carries its key, a decision none. *)
Definition delivery_ok (o : ImmutableOutput) : Prop :=
  dedupe_key o = (k ← o_dedupeKey o; Some (o_category o, k)).

Record order_inv (pre ds js ms : list ImmutableOutput) (s : CommitScan) : Prop := {
  oi_split : pre = ds ++ js ++ ms;
  oi_decisions : numbered Cat_decision ds;
  oi_jobs : numbered Cat_job js;
  oi_outbox : numbered Cat_outbox ms;
  oi_ordinals : cs_nextOrdinals s =
    [Z.of_nat (length ds); Z.of_nat (length js); Z.of_nat (length ms)];
  oi_no_jobs : cs_previousCategoryRank s < 1 → js = [];
  oi_no_outbox : cs_previousCategoryRank s < 2 → ms = []
}.

Record scan_inv (c : ProcessingCommit) (reg : RunRegistration) (pre : list ImmutableOutput)
    (s : CommitScan) : Prop := {
  si_order : ∃ ds js ms, order_inv pre ds js ms s;
  si_ids : NoDup (o_outputId <$> pre);
  si_ids_seen : ∀ id, id ∈ cs_outputIds s ↔ id ∈ o_outputId <$> pre;
  si_dedupe : NoDup (identities pre);
  si_dedupe_seen : ∀ h, h ∈ cs_dedupeIdentities s ↔ h ∈ identities pre;
  si_linked : Forall (output_linked c reg) pre;
  si_delivery : Forall delivery_ok pre
}.

Lemma order_step pre ds js ms s s' o n :
  order_inv pre ds js ms s →
  ¬ categoryRank (o_category o) < cs_previousCategoryRank s →
  cs_nextOrdinals s !! Z.to_nat (categoryRank (o_category o)) = Some n → o_ordinal o = n →
  cs_nextOrdinals s' = <[Z.to_nat (categoryRank (o_category o)) := n + 1]> (cs_nextOrdinals s) →
  cs_previousCategoryRank s' = categoryRank (o_category o) →
  ∃ ds' js' ms', order_inv (pre ++ [o]) ds' js' ms' s'.
Proof.
  intros [-> Hd Hj Hm Ho H1 H2] Hr Hn Hord Hnext Hrank. rewrite Ho in Hn, Hnext.
  destruct (o_category o) eqn:E; cbn [categoryRank] in *; cbn in Hn, Hnext;
    apply (inj Some) in Hn; subst n.
  - assert (js = []) as -> by (apply H1; lia). assert (ms = []) as -> by (apply H2; lia).
    exists (ds ++ [o]), [], [].
    split; rewrite ?Hrank; try done; try lia; [by rewrite !app_nil_r|by apply numbered_snoc|].
    rewrite Hnext, length_app, Nat2Z.inj_add. reflexivity.
  - assert (ms = []) as -> by (apply H2; lia). exists ds, (js ++ [o]), [].
    split; rewrite ?Hrank; try done; try lia; [by rewrite !app_nil_r, <-app_assoc|by apply numbered_snoc|].
    rewrite Hnext, length_app, Nat2Z.inj_add. reflexivity.
  - exists ds, js, (ms ++ [o]).
    split; rewrite ?Hrank; try done; try lia; [by rewrite <-!app_assoc|by apply numbered_snoc|].
    rewrite Hnext, length_app, Nat2Z.inj_add. reflexivity.
Qed.

Lemma identities_snoc pre o :
  identities (pre ++ [o]) = identities pre ++
    match dedupe_key o with Some ck => [dedupe_identity (o_runId o) ck] | None => [] end.
Proof. unfold identities. rewrite omap_app. cbn. by destruct (dedupe_key o). Qed.

Lemma scan_step c reg pre s s' o :
  json_wf (JObj (o_body o)) → scan_inv c reg pre s → verify_output c reg s o = Ok s' →
  scan_inv c reg (pre ++ [o]) s'.
Proof.
  intros Hw [(ds & js & ms & Hord) Hids Hseen Hdd Hddseen Hlk Hdel] Hv. unfold verify_output in Hv.
  apply res_bind_Ok in Hv as (u1 & _ & Hv). apply res_bind_Ok in Hv as (u2 & G2 & Hv).
  apply throw_if_Ok in G2. apply Z.ltb_ge in G2.
  apply res_bind_Ok in Hv as (u3 & G3 & Hv). apply throw_if_Ok in G3. apply bool_decide_eq_false in G3.
  apply res_bind_Ok in Hv as (n & Hn & Hv). apply or_throw_Ok in Hn.
  apply res_bind_Ok in Hv as (u4 & G4 & Hv). apply throw_if_Ok in G4. apply negb_false_iff, Z.eqb_eq in G4.
  apply res_bind_Ok in Hv as ([] & Hl & Hv). apply verify_output_content_spec in Hl.
  apply res_bind_Ok in Hv as (seen & Hb & Hv). apply verify_output_body_spec in Hb; [|done].
  apply Ok_inj in Hv. subst s'.
  split; cbn [cs_outputIds cs_dedupeIdentities].
  - eapply order_step; [exact Hord| |exact Hn|exact G4|reflexivity|reflexivity]. lia.
  - rewrite fmap_app. apply NoDup_app. split; [done|]. split; [|apply NoDup_singleton].
    intros id Hid Hid'. apply list_elem_of_singleton in Hid'. subst id. apply G3. by apply Hseen.
  - intros id. rewrite elem_of_union, elem_of_singleton, fmap_app, elem_of_app, Hseen.
    cbn [fmap list_fmap]. rewrite list_elem_of_singleton. tauto.
  - rewrite identities_snoc. destruct (dedupe_key o) as [ck|]; [|by rewrite app_nil_r].
    destruct Hb as (_ & Hnew & _). apply NoDup_app. split; [done|]. split; [|apply NoDup_singleton].
    intros h Hh Hh'. apply list_elem_of_singleton in Hh'. subst h. apply Hnew. by apply Hddseen.
  - intros h. rewrite identities_snoc, elem_of_app. destruct (dedupe_key o) as [ck|].
    + destruct Hb as (_ & _ & ->).
      rewrite elem_of_union, elem_of_singleton, Hddseen, list_elem_of_singleton. tauto.
    + destruct Hb as [_ ->]. rewrite Hddseen, elem_of_nil. tauto.
  - apply Forall_app. split; [done|]. by apply Forall_singleton.
  - apply Forall_app. split; [done|]. apply Forall_singleton. unfold delivery_ok. revert Hb.
    unfold dedupe_key. destruct (o_category o), (o_dedupeKey o); cbn [mbind option_bind];
      try done; by intros [??].
Qed.

Lemma initial_scan_inv c reg : scan_inv c reg [] initial_scan.
Proof.
  split; cbn [cs_outputIds cs_dedupeIdentities initial_scan fmap list_fmap].
  - exists [], [], []. split; done.
  - constructor.
  - intros h. rewrite elem_of_empty, elem_of_nil. done.
  - constructor.
  - intros h. rewrite elem_of_empty. unfold identities. cbn. by rewrite elem_of_nil.
  - constructor.
  - constructor.
Qed.

Lemma scan_outputs c reg os s :
  Forall (λ o, json_wf (JObj (o_body o))) os →
  res_fold (verify_output c reg) initial_scan os = Ok s → scan_inv c reg os s.
Proof.
  intros Hw Hs.
  assert (Hboth : Forall (λ o, json_wf (JObj (o_body o))) os → scan_inv c reg os s); [|by apply Hboth].
  revert Hs. apply (res_fold_history (λ pre s,
    Forall (λ o, json_wf (JObj (o_body o))) pre → scan_inv c reg pre s)).
  - intros _. apply initial_scan_inv.
  - intros pre x s1 s2 IH Hstep [Hpre Hx]%Forall_app. rewrite Forall_singleton in Hx.
    eapply scan_step; [exact Hx|by apply IH|exact Hstep].
Qed.
End scan.

(** ** Accepted commits

    [commit_checked] and [transition_checked]: the conditions under which
    [verifyProcessingCommit] and [verifyProcessingTransition] return. *)

(** The outputs of an accepted commit. *)
Record outputs_checked `{Sha256} (c : ProcessingCommit) (reg : RunRegistration) : Prop := {
  oc_order : canonical_order (pc_outputs c);
  oc_ids : NoDup (o_outputId <$> pc_outputs c);
  oc_identities : NoDup (identities (pc_outputs c));
  oc_linked : Forall (output_linked c reg) (pc_outputs c);
  oc_delivery : Forall delivery_ok (pc_outputs c)
}.

Record cursor_checked `{Sha256} (c : ProcessingCommit) (reg : RunRegistration) : Prop := {
  cc_hash : computeRunCursorHash (pc_cursor c) = Ok (rc_cursorHash (pc_cursor c));
  cc_run : rc_runId (pc_cursor c) = rm_runId (rr_manifest reg);
  cc_manifest : rc_manifestHash (pc_cursor c) = rr_manifestHash reg;
  cc_behavior : rc_behaviorHash (pc_cursor c) = rr_behaviorHash reg;
  cc_position : rc_processedPosition (pc_cursor c) = s_position (pc_event c);
  cc_logical : rc_logicalAtMs (pc_cursor c) = c_logicalAtMs (pc_event c);
  cc_event : rc_lastEventHash (pc_cursor c) = s_eventHash (pc_event c)
}.

Definition reg_state_domain (reg : RunRegistration) : jsstring :=
  state_domain (rb_reducerName (rm_behavior (rr_manifest reg)))
    (rb_reducerVersion (rm_behavior (rr_manifest reg))).

Record aggregate_checked `{Sha256} (c : ProcessingCommit) (reg : RunRegistration) : Prop := {
  ca_hash : computeAggregateCheckpointHash (pc_aggregate c) = Ok (ac_checkpointHash (pc_aggregate c));
  ca_run : ac_runId (pc_aggregate c) = rc_runId (pc_cursor c);
  ca_position : ac_lastInputPosition (pc_aggregate c) = s_position (pc_event c);
  ca_version : positive_decimal (ac_version (pc_aggregate c)) = true;
  ca_state : canonicalHash (reg_state_domain reg) (JObj (ac_state (pc_aggregate c))) =
    Ok (ac_stateHash (pc_aggregate c))
}.

Record commit_checked `{Sha256} (c : ProcessingCommit) (reg : RunRegistration) : Prop := {
  ck_valid : commit_valid c;
  ck_event : event_linked (s_previousEventHash (pc_event c)) (pc_event c);
  ck_cursor : cursor_checked c reg;
  ck_aggregate : aggregate_checked c reg;
  ck_outputs : outputs_checked c reg
}.

(** A cursor that belongs to a run; at position 0 it is the genesis. *)
Record cursor_of_run `{Sha256} (prev : RunCursor) (reg : RunRegistration) : Prop := {
  cr_valid : record_ok PERSISTED_PROCESSING_JSON_LIMITS runCursorSchema prev = true;
  cr_hash : computeRunCursorHash prev = Ok (rc_cursorHash prev);
  cr_run : rc_runId prev = rm_runId (rr_manifest reg);
  cr_manifest : rc_manifestHash prev = rr_manifestHash reg;
  cr_behavior : rc_behaviorHash prev = rr_behaviorHash reg;
  cr_genesis : rc_processedPosition prev = js "0" →
    ∃ genesis t, createGenesisRunCursor reg = Ok genesis ∧
      canonicalJson (to_json prev) = Ok t ∧ canonicalJson (to_json genesis) = Ok t
}.

Record transition_checked `{Sha256} (c : ProcessingCommit) (reg : RunRegistration)
    (prev : RunCursor) : Prop := {
  tc_commit : commit_checked c reg;
  tc_previous : cursor_of_run prev reg;
  tc_expected : pc_expectedPosition c = rc_processedPosition prev;
  tc_next : ∃ n, BigInt (rc_processedPosition prev) = Ok n ∧
    BigInt (s_position (pc_event c)) = Ok (n + 1);
  tc_chain : s_previousEventHash (pc_event c) = rc_lastEventHash prev;
  tc_clock : rc_logicalAtMs prev <= c_logicalAtMs (pc_event c);
  tc_stateHead : rc_stateHead (pc_cursor c) = next_stateHead (rc_stateHead prev)
    (s_eventHash (pc_event c)) (ac_aggregateId (pc_aggregate c)) (ac_stateHash (pc_aggregate c));
  tc_decisionHead : next_decisionHead (rc_decisionHead prev) (s_eventHash (pc_event c))
    (pc_outputs c) = Ok (rc_decisionHead (pc_cursor c))
}.

Section checked.
Context `{Sha256} `{Zod}.

(** Without an expected predecessor the event only has to be consistent. *)
Lemma verifyStoredEvent_any e :
  stored_wf e → verifyStoredEvent e None = Ok tt ↔ event_linked (s_previousEventHash e) e.
Proof.
  intros Hw. rewrite <-verifyStoredEvent_spec by done. unfold verifyStoredEvent.
  destruct (validateStoredEvent (stored_json e)) as [v|x] eqn:E; cbn [mbind res_bind]; [|done].
  apply validateStoredEvent_spec in E as [_ ->]; [|done].
  change (s_previousEventHash (norm_stored e)) with (s_previousEventHash e).
  by rewrite (bool_decide_eq_true_2 _ eq_refl).
Qed.

Lemma verify_cursor_inv c reg : verify_cursor c reg = Ok tt → cursor_checked c reg.
Proof.
  unfold verify_cursor. intros Hv. apply res_bind_Ok in Hv as (h & Hh & Hv).
  apply res_bind_Ok in Hv as (u & G & Hv). apply throw_if_Ok, negb_bool_decide_false in G.
  apply res_bind_Ok in Hv as (u' & G' & Hv). apply throw_if_Ok, negb_false_iff in G'.
  apply throw_if_Ok, negb_false_iff in Hv.
  rewrite !andb_true_iff, !bool_decide_eq_true in G'.
  rewrite !andb_true_iff, !bool_decide_eq_true, Z.eqb_eq in Hv.
  destruct G' as [[R1 R2] R3], Hv as [[R4 R5] R6]. split; try assumption. by rewrite G.
Qed.

Lemma verify_aggregate_inv c reg : verify_aggregate c reg = Ok tt → aggregate_checked c reg.
Proof.
  unfold verify_aggregate. intros Hv. apply res_bind_Ok in Hv as (h & Hh & Hv).
  apply res_bind_Ok in Hv as (u & G & Hv). apply throw_if_Ok, negb_bool_decide_false in G.
  apply res_bind_Ok in Hv as (u' & G' & Hv). apply throw_if_Ok, negb_false_iff in G'.
  rewrite andb_true_iff, !bool_decide_eq_true in G'. destruct G' as [R1 R2].
  apply res_bind_Ok in Hv as (s & _ & Hv).
  apply res_bind_Ok in Hv as (u2 & G2 & Hv). apply throw_if_Ok, negb_false_iff in G2.
  apply res_bind_Ok in Hv as (m & _ & Hv). apply res_bind_Ok in Hv as (sh & Hsh & Hv).
  apply throw_if_Ok, negb_bool_decide_false in Hv. split; try assumption.
  - by rewrite G.
  - unfold reg_state_domain. by rewrite Hv.
Qed.

Lemma scan_outputs_checked c reg s :
  Forall record_wf (pc_outputs c) →
  res_fold (verify_output c reg) initial_scan (pc_outputs c) = Ok s → outputs_checked c reg.
Proof.
  intros Hw Hs. apply scan_outputs in Hs.
  - destruct Hs as [(ds & js & ms & [E Hd Hj Hm _ _ _]) Hids _ Hdd _ Hl Hdel].
    split; try assumption. exists ds, js, ms. done.
  - eapply Forall_impl; [exact Hw|]. intros o Ho. by apply output_body_wf.
Qed.

Lemma verifyProcessingCommit_inv c reg c' :
  record_wf c → verifyProcessingCommit c reg = Ok c' → c' = norm_commit c ∧ commit_checked c' reg.
Proof.
  intros Hw Hv. unfold verifyProcessingCommit in Hv.
  apply res_bind_Ok in Hv as (v & Hval & Hv). apply validateProcessingCommit_inv in Hval as [-> Hval];
    [|done].
  destruct (commit_parts_wf _ (proj1 (cv_canonical _ Hval))) as (Hwe & _ & _ & Hwo).
  apply res_bind_Ok in Hv as ([] & He & Hv). apply verifyStoredEvent_any in He; [|done].
  apply res_bind_Ok in Hv as ([] & Hc & Hv). apply verify_cursor_inv in Hc.
  apply res_bind_Ok in Hv as ([] & Ha & Hv). apply verify_aggregate_inv in Ha.
  apply res_bind_Ok in Hv as (s & Hs & Hv). apply scan_outputs_checked in Hs; [|done].
  apply Ok_inj in Hv. subst c'. split; [reflexivity|]. by split.
Qed.

Lemma verify_previous_inv prev reg :
  record_ok PERSISTED_PROCESSING_JSON_LIMITS runCursorSchema prev = true →
  verify_previous prev reg = Ok tt → cursor_of_run prev reg.
Proof.
  intros Hok Hv. unfold verify_previous in Hv. apply res_bind_Ok in Hv as (h & Hh & Hv).
  apply res_bind_Ok in Hv as (u & G & Hv). apply throw_if_Ok, negb_bool_decide_false in G.
  apply res_bind_Ok in Hv as (u' & G' & Hv). apply throw_if_Ok, negb_false_iff in G'.
  rewrite !andb_true_iff, !bool_decide_eq_true in G'. destruct G' as [[R1 R2] R3].
  split; try assumption; [by rewrite G|].
  intros E. rewrite (bool_decide_eq_true_2 _ E) in Hv.
  apply res_bind_Ok in Hv as (g & Hg & Hv). apply res_bind_Ok in Hv as (a & Ha & Hv).
  apply res_bind_Ok in Hv as (b & Hb & Hv). apply throw_if_Ok, negb_bool_decide_false in Hv.
  subst b. eauto.
Qed.

Lemma verifyProcessingTransition_inv c reg prev c' :
  record_wf c → record_wf prev → verifyProcessingTransition c reg prev = Ok c' →
  c' = norm_commit c ∧ transition_checked c' reg prev.
Proof.
  intros Hw Hwp Hv. unfold verifyProcessingTransition in Hv.
  apply res_bind_Ok in Hv as (v & Hval & Hv). apply verifyProcessingCommit_inv in Hval as [-> Hval];
    [|done].
  apply res_bind_Ok in Hv as (p & Hp & Hv).
  apply (validate_record_spec _ _ processing_limits_valid runCursorSchema_proper) in Hp as [Hp ->];
    [|done]. change (nrm prev) with prev in Hv.
  apply res_bind_Ok in Hv as ([] & Hprev & Hv). apply verify_previous_inv in Hprev; [|done].
  apply res_bind_Ok in Hv as (u1 & G1 & Hv). apply throw_if_Ok, negb_bool_decide_false in G1.
  apply res_bind_Ok in Hv as (n & Hn & Hv). apply res_bind_Ok in Hv as (m & Hm & Hv).
  apply res_bind_Ok in Hv as (u2 & G2 & Hv). apply throw_if_Ok, negb_false_iff, Z.eqb_eq in G2.
  subst m. apply res_bind_Ok in Hv as (u3 & G3 & Hv). apply throw_if_Ok, negb_bool_decide_false in G3.
  apply res_bind_Ok in Hv as (u4 & G4 & Hv). apply throw_if_Ok, Z.ltb_ge in G4.
  apply res_bind_Ok in Hv as (u5 & G5 & Hv). apply throw_if_Ok, negb_bool_decide_false in G5.
  apply res_bind_Ok in Hv as (d & Hd & Hv).
  apply res_bind_Ok in Hv as (u6 & G6 & Hv). apply throw_if_Ok, negb_bool_decide_false in G6.
  apply Ok_inj in Hv. subst c'. split; [reflexivity|].
  split; try assumption; [by exists n|]. by rewrite G6.
Qed.
End checked.
