(* ===== verification/StoreFacts.v ===== *)
(** * The store as histories of commits

    An abstract run is the list of the commits accepted for it ([history]);
    [store_inv] says that the in-memory store holds, for every registered run,
    exactly what its history determines.  Every operation preserves it. *)
From S2P Require Import Prelude JsString JsNumber Json JsonLimits JsonParse JsonClaims.
From S2P Require Import Hash Zod JsonObject Event EventFacts EventChain EventLog Codec.
From S2P Require Import Run Processing Commit ProcessingStore CommitFacts.

(** ** Histories *)

(** The latest checkpoint of every aggregate. *)
Definition aggregates_of (cs : list ProcessingCommit) : gmap jsstring AggregateCheckpoint :=
  foldl (λ m c, <[ac_aggregateId (pc_aggregate c) := pc_aggregate c]> m) ∅ cs.

(** How many commits an aggregate has. *)
Definition commit_count (a : jsstring) (cs : list ProcessingCommit) : Z :=
  zsum (λ c, if bool_decide (ac_aggregateId (pc_aggregate c) = a) then 1 else 0) cs.

Definition history_outputs (cs : list ProcessingCommit) : list ImmutableOutput :=
  concat (map pc_outputs cs).

(** The commits accepted for a run, oldest first, and the cursor they lead to. *)
Inductive history `{Sha256} (reg : RunRegistration) : list ProcessingCommit → RunCursor → Prop :=
  | history_genesis g : createGenesisRunCursor reg = Ok g → history reg [] g
  | history_step cs prev c :
      history reg cs prev →
      transition_checked c reg prev →
      ac_version (pc_aggregate c) = dec (commit_count (ac_aggregateId (pc_aggregate c)) cs + 1) →
      history reg (cs ++ [c]) (pc_cursor c).

Lemma commit_count_nonneg a cs : 0 <= commit_count a cs.
Proof. apply zsum_nonneg. intros c _. case_bool_decide; lia. Qed.

Lemma commit_count_snoc a cs c :
  commit_count a (cs ++ [c]) =
    commit_count a cs + if bool_decide (ac_aggregateId (pc_aggregate c) = a) then 1 else 0.
Proof. unfold commit_count. rewrite zsum_app. cbn. lia. Qed.

Lemma aggregates_of_snoc cs c :
  aggregates_of (cs ++ [c]) = <[ac_aggregateId (pc_aggregate c) := pc_aggregate c]> (aggregates_of cs).
Proof. unfold aggregates_of. by rewrite foldl_app. Qed.

Section history.
Context `{Sha256} (reg : RunRegistration).

(** The version of an aggregate is the number of its commits. *)
Lemma history_versions cs cur a :
  history reg cs cur →
  match aggregates_of cs !! a with
  | Some ck => ac_aggregateId ck = a ∧ ac_version ck = dec (commit_count a cs)
  | None => commit_count a cs = 0
  end.
Proof.
  induction 1 as [g Hg|cs prev c Hh IH Ht Hv]; [done|].
  rewrite aggregates_of_snoc, commit_count_snoc.
  destruct (decide (ac_aggregateId (pc_aggregate c) = a)) as [<-|Hne].
  - rewrite lookup_insert_eq, bool_decide_eq_true_2 by done. done.
  - rewrite lookup_insert_ne, bool_decide_eq_false_2 by done.
    destruct (aggregates_of cs !! a); [|lia]. by rewrite Z.add_0_r.
Qed.

Lemma history_cursor cs cur :
  history reg cs cur → rc_processedPosition cur = dec (Z.of_nat (length cs)) ∧
    rc_runId cur = rm_runId (rr_manifest reg) ∧ rc_manifestHash cur = rr_manifestHash reg ∧
    rc_behaviorHash cur = rr_behaviorHash reg ∧
    computeRunCursorHash cur = Ok (rc_cursorHash cur).
Proof.
  induction 1 as [g Hg|cs prev c Hh IH Ht Hv].
  - unfold createGenesisRunCursor, hash_cursor in Hg. apply res_bind_Ok in Hg as (h & Hh & Hg).
    apply Ok_inj in Hg. subst g. split_and!; try reflexivity. exact Hh.
  - destruct Ht as [Hc _ _ (n & Hn & Hn1) _ _ _ _]. destruct Hc as [Hval _ Hcur _ _].
    destruct Hcur as [R1 R2 R3 R4 R5 _ _]. split_and!; try assumption.
    destruct IH as [IH _]. rewrite IH, BigInt_dec in Hn by lia. apply Ok_inj in Hn. subst n.
    rewrite R5, length_app. cbn [length].
    pose proof (stored_position _ (cv_event _ Hval)) as Hp.
    rewrite <-(positive_decimal_dec _ Hp). f_equal.
    rewrite BigInt_decimal in Hn1 by (unfold nonnegative_decimal; rewrite Hp; apply orb_true_r).
    apply Ok_inj in Hn1. lia.
Qed.

(** A history is determined by its prefix commits. *)
Lemma history_last cs cur :
  history reg cs cur →
  match last cs with Some c => cur = pc_cursor c | None => createGenesisRunCursor reg = Ok cur end.
Proof. destruct 1; [done|]. by rewrite last_snoc. Qed.

Lemma history_checked cs cur :
  history reg cs cur → Forall (λ c, commit_checked c reg) cs.
Proof.
  induction 1 as [g Hg|cs prev c Hh IH Ht Hv]; [constructor|].
  apply Forall_app. split; [done|]. apply Forall_singleton. apply Ht.
Qed.

Lemma history_prefix cs c cs' cur :
  history reg (cs ++ c :: cs') cur → ∃ prev, history reg cs prev ∧ transition_checked c reg prev.
Proof.
  revert cur. induction cs' as [|x cs' IH] using rev_ind; intros cur Hh.
  - inversion Hh as [|cs0 prev c0 H1 H2 H3 E]; subst; [by destruct cs|].
    apply app_inj_tail in E as [-> ->]. eauto.
  - change (cs ++ c :: cs' ++ [x]) with (cs ++ (c :: cs') ++ [x]) in Hh. rewrite app_assoc in Hh.
    inversion Hh as [|cs0 prev c0 H1 H2 H3 E]; subst; [by destruct cs|].
    apply app_inj_tail in E as [-> ->]. eauto.
Qed.
End history.

(** ** The invariant *)

(** The outputs of one run, without their sequence numbers. *)
Definition run_outputs (s : InMemoryProcessingStore) (runId : jsstring) : list ImmutableOutput :=
  so_output <$> filter (λ o : StoredOutput, o_runId o = runId) (m_outputs s).

(** The entry of the dedupe map an output stands for. *)
Definition dedupe_entry `{Sha256} (o : ImmutableOutput) : option (jsstring * jsstring) :=
  ck ← dedupe_key o; Some (dedupe_identity (o_runId o) ck, o_outputId o).

(** A registration the store admitted. *)
Record registered `{Sha256} (reg : RunRegistration) : Prop := {
  rg_canonical : canonical_record reg;
  rg_policy : assertRunEffectPolicy (rr_manifest reg) = Ok tt;
  rg_manifest : canonicalHash (js "peas/run-manifest/v2") (to_json (rr_manifest reg)) =
    Ok (rr_manifestHash reg);
  rg_behavior : canonicalHash (js "peas/run-behavior/v2") (to_json (rm_behavior (rr_manifest reg))) =
    Ok (rr_behaviorHash reg)
}.

(** What a run's history determines of the store. *)
Record run_stored `{Sha256} (s : InMemoryProcessingStore) (runId : jsstring)
    (reg : RunRegistration) (cs : list ProcessingCommit) (cur : RunCursor) : Prop := {
  rs_history : history reg cs cur;
  rs_cursor : m_cursors s !! runId = match cs with [] => None | _ => Some cur end;
  rs_aggregates : run_aggregates s runId = aggregates_of cs;
  rs_outputs : run_outputs s runId = history_outputs cs
}.

(** The outputs of a category that an effector may be given: those of runs with effects. *)
Definition dispatchable (s : InMemoryProcessingStore) (category : OutputCategory) (id : jsstring) : Prop :=
  ∃ (o : StoredOutput) reg, o ∈ m_outputs s ∧ o_outputId o = id ∧ o_category o = category ∧
    m_runs s !! o_runId o = Some reg ∧ rm_effectsAllowed (rr_manifest reg) = true.

Record store_inv `{Sha256} (s : InMemoryProcessingStore) : Prop := {
  sv_runs : ∀ r reg, m_runs s !! r = Some reg → registered reg ∧ rm_runId (rr_manifest reg) = r;
  sv_histories : ∀ r reg, m_runs s !! r = Some reg → ∃ cs cur, run_stored s r reg cs cur;
  sv_unregistered : ∀ r, m_runs s !! r = None →
    m_cursors s !! r = None ∧ run_aggregates s r = ∅ ∧ run_outputs s r = [];
  sv_sequences : ∀ i o, m_outputs s !! i = Some o → so_sequence o = dec (Z.of_nat i + 1);
  sv_outputs : Forall (λ o : StoredOutput, canonical_record (so_output o)) (m_outputs s);
  sv_dedupe : ∀ k id, m_dedupeKeys s !! k = Some id ↔
    ∃ o : StoredOutput, o ∈ m_outputs s ∧ dedupe_entry o = Some (k, id);
  sv_jobs : ∀ id, id ∈ m_dispatchableJobs s ↔ dispatchable s Cat_job id;
  sv_outbox : ∀ id, id ∈ m_dispatchableOutbox s ↔ dispatchable s Cat_outbox id
}.

Lemma empty_store_inv `{Sha256} : store_inv empty_store.
Proof.
  split; cbn [m_runs m_cursors m_aggregates m_outputs m_dedupeKeys m_dispatchableJobs
    m_dispatchableOutbox empty_store].
  - intros r reg E. by rewrite lookup_empty in E.
  - intros r reg E. by rewrite lookup_empty in E.
  - intros r _. rewrite lookup_empty. done.
  - intros i o E. by rewrite lookup_nil in E.
  - constructor.
  - intros k id. rewrite lookup_empty. split; [done|]. intros (o & Ho & _). by apply elem_of_nil in Ho.
  - intros id. split; [by intros ?%elem_of_empty|]. by intros (o & _ & ?%elem_of_nil & _).
  - intros id. split; [by intros ?%elem_of_empty|]. by intros (o & _ & ?%elem_of_nil & _).
Qed.

(** ** Commits to the in-memory store

    A commit either throws and leaves the store untouched, or extends the history
    of its run by the commit; registration only ever adds a run. *)

(** The outputs of a commit with their sequence numbers, after [n] stored ones. *)
Definition number_outputs (n : nat) (os : list ImmutableOutput) : list StoredOutput :=
  imap (λ i o, {| so_output := o; so_sequence := dec (Z.of_nat n + Z.of_nat i + 1) |}) os.

Lemma number_outputs_length n os : length (number_outputs n os) = length os.
Proof. apply length_imap. Qed.

Lemma number_outputs_fst n os : so_output <$> number_outputs n os = os.
Proof.
  unfold number_outputs. revert n. induction os as [|o os IH]; intros n; [done|].
  cbn [imap fmap list_fmap]. f_equal. rewrite <-(IH (S n)) at 2. f_equal. apply imap_ext.
  intros i x _. cbn. do 2 f_equal. lia.
Qed.

Lemma number_outputs_lookup n os i o :
  number_outputs n os !! i = Some o → so_sequence o = dec (Z.of_nat n + Z.of_nat i + 1).
Proof.
  unfold number_outputs. rewrite list_lookup_imap. destruct (os !! i); [|done]. cbn. by intros [= <-].
Qed.

Lemma number_outputs_elem n os (o : StoredOutput) : o ∈ number_outputs n os → so_output o ∈ os.
Proof.
  intros Ho. rewrite <-(number_outputs_fst n os). apply list_elem_of_fmap. eauto.
Qed.

Lemma number_outputs_snoc n os o :
  number_outputs n (os ++ [o]) = number_outputs n os ++
    [{| so_output := o; so_sequence := dec (Z.of_nat n + Z.of_nat (length os) + 1) |}].
Proof.
  unfold number_outputs. rewrite imap_app. f_equal. cbn [imap]. by rewrite Nat.add_0_r.
Qed.

Section staging.
Context `{Sha256} (s : InMemoryProcessingStore).

(** The state of the staging loop after the outputs [pre]. *)
Definition staged (pre : list ImmutableOutput)
    (st : list StoredOutput * list (jsstring * jsstring)) : Prop :=
  Forall (λ o, canonical_record o ∧ delivery_ok o) pre →
  st.1 = number_outputs (length (m_outputs s)) pre ∧ st.2 = omap dedupe_entry pre ∧
  Forall (λ e : jsstring * jsstring,
    m_dedupeKeys s !! e.1 = None ∨ m_dedupeKeys s !! e.1 = Some e.2) st.2.

Lemma stage_step r pre o st st' :
  staged pre st → stage_output s r st o = Ok st' → staged (pre ++ [o]) st'.
Proof.
  intros Hst Hs Hpre. apply Forall_app in Hpre as [Hpre Ho]. rewrite Forall_singleton in Ho.
  destruct Ho as [Hcan Hdel]. destruct (Hst Hpre) as (E1 & E2 & Hdd). clear Hst.
  destruct st as [pend dd]. cbn [fst snd] in *. unfold stage_output in Hs.
  apply res_bind_Ok in Hs as (u1 & _ & Hs). apply res_bind_Ok in Hs as (bh & _ & Hs).
  apply res_bind_Ok in Hs as (u2 & _ & Hs). apply res_bind_Ok in Hs as (dd' & Hd & Hs).
  rewrite (copy_canonical o Hcan) in Hs. cbn [mbind res_bind] in Hs. apply Ok_inj in Hs. subst st'.
  cbn [fst snd]. split; [|].
  - rewrite E1, number_outputs_snoc, number_outputs_length. reflexivity.
  - rewrite omap_app. cbn [omap list_omap]. unfold delivery_ok in Hdel. unfold dedupe_entry at 2.
    rewrite Hdel. destruct (o_dedupeKey o) as [k|]; cbn [mbind option_bind].
    + apply res_bind_Ok in Hd as (u3 & _ & Hd). apply res_bind_Ok in Hd as (key & Hk & Hd).
      apply computeOutputDedupeIdentity_Ok in Hk. subst key.
      apply res_bind_Ok in Hd as (u4 & G & Hd). apply throw_if_Ok in G.
      apply Ok_inj in Hd. subst dd'. rewrite E2. split; [done|]. rewrite <-E2.
      apply Forall_app. split; [done|]. apply Forall_singleton. cbn [fst snd].
      destruct (m_dedupeKeys s !! _) as [id|]; [|by left]. right.
      apply negb_bool_decide_false in G. by rewrite G.
    + apply Ok_inj in Hd. subst dd'. rewrite E2, app_nil_r. split; [done|]. by rewrite <-E2.
Qed.

Lemma stage_all r os st :
  Forall (λ o, canonical_record o ∧ delivery_ok o) os →
  res_fold (stage_output s r) ([], []) os = Ok st →
  st.1 = number_outputs (length (m_outputs s)) os ∧ st.2 = omap dedupe_entry os ∧
  Forall (λ e : jsstring * jsstring,
    m_dedupeKeys s !! e.1 = None ∨ m_dedupeKeys s !! e.1 = Some e.2) st.2.
Proof.
  intros Hos Hs. revert Hos. revert Hs. apply (res_fold_history staged).
  - intros _. split_and!; [done|done|constructor].
  - intros pre x st1 st2. apply stage_step.
Qed.
End staging.

(** The cursor a commit of this run starts from. *)
Definition run_cursor `{Sha256} (s : InMemoryProcessingStore) (reg : RunRegistration) : res RunCursor :=
  match m_cursors s !! rm_runId (rr_manifest reg) with
  | Some cursor => Ok cursor
  | None => createGenesisRunCursor reg
  end.

(** The store after an accepted commit. *)
Definition committed (s : InMemoryProcessingStore) `{Sha256} (reg : RunRegistration)
    (c : ProcessingCommit) : InMemoryProcessingStore :=
  write_cursor (rc_runId (pc_cursor c)) (pc_cursor c)
    (write_results c reg (pc_aggregate c) (number_outputs (length (m_outputs s)) (pc_outputs c))
      (omap dedupe_entry (pc_outputs c)) s).

(** What an accepted commit was checked against. *)
Record commit_accepted `{Sha256} (s : InMemoryProcessingStore) (reg : RunRegistration)
    (c : ProcessingCommit) : Prop := {
  ac_registered : m_runs s !! rc_runId (pc_cursor c) = Some reg;
  ac_transition : ∃ prev, run_cursor s reg = Ok prev ∧ transition_checked c reg prev;
  ac_nextVersion : ∃ n, BigInt (match run_aggregates s (rc_runId (pc_cursor c)) !!
      ac_aggregateId (pc_aggregate c) with Some a => ac_version a | None => js "0" end) = Ok n ∧
    ac_version (pc_aggregate c) = dec (n + 1);
  ac_dedupe : Forall (λ e : jsstring * jsstring,
    m_dedupeKeys s !! e.1 = None ∨ m_dedupeKeys s !! e.1 = Some e.2)
    (omap dedupe_entry (pc_outputs c))
}.

Lemma res_pair_Ok {A B C} (m : res (A * B)) (f : A → B → res C) (r : C) :
  (let* (a, b) := m in f a b) = Ok r → ∃ p, m = Ok p ∧ f p.1 p.2 = Ok r.
Proof. intros Hm. apply res_bind_Ok in Hm as ([a b] & Ha & Hb). by exists (a, b). Qed.

Lemma genesis_wf `{Sha256} reg g :
  canonical_record reg → createGenesisRunCursor reg = Ok g → record_wf g.
Proof.
  intros (Hw & _ & _) Hg. unfold createGenesisRunCursor, hash_cursor in Hg.
  apply res_bind_Ok in Hg as (h & Hh & Hg). apply Ok_inj in Hg. subst g.
  apply canonicalHash_hash in Hh.
  assert (Hreg : units_ok (rr_manifestHash reg) ∧ units_ok (rr_behaviorHash reg) ∧
    units_ok (rm_runId (rr_manifest reg))).
  { unfold record_wf, to_json in Hw. pose proof (json_wf_get_obj _ (js "manifest") _ Hw eq_refl) as Hm.
    rewrite json_wf_obj in Hw, Hm. destruct Hw as [_ Hw], Hm as [_ Hm].
    split_and!.
    - apply (Hw (js "manifestHash", JStr (rr_manifestHash reg))). right. left.
    - apply (Hw (js "behaviorHash", JStr (rr_behaviorHash reg))). right. right. left.
    - apply (Hm (js "runId", JStr (rm_runId (rr_manifest reg)))). right. left. }
  destruct Hreg as (R1 & R2 & R3).
  assert (Hhash : ∀ x, is_hash x = true → units_ok x).
  { intros x Hx. eapply Forall_impl; [exact (is_hash_units _ Hx)|]. cbn. lia. }
  pose proof (Hhash _ Hh) as R4. pose proof (Hhash _ ZERO_HASH_hash) as R5.
  unfold record_wf, to_json. apply json_wf_obj. split.
  - apply (bool_decide_eq_true_1 _). vm_compute. reflexivity.
  - cbn [to_fields RunCursor_codec cursor_fields cursor_content with_cursorHash app rc_runId
      rc_manifestHash rc_behaviorHash rc_processedPosition rc_logicalAtMs rc_lastEventHash
      rc_stateHead rc_decisionHead rc_cursorHash].
    apply Forall_forall.
    repeat (apply Forall_cons_2; [split; [apply js_units|cbn [snd json_wf]]|]); try apply Forall_nil_2;
      try assumption; try exact I; try apply js_units; unfold hashParts; apply Hhash, sha256_hex.
Qed.

Section commits.
Context `{Sha256} `{Zod}.

Lemma commit_parts_canonical (c : ProcessingCommit) :
  canonical_record c →
  canonical_record (pc_event c) ∧ canonical_record (pc_cursor c) ∧
  canonical_record (pc_aggregate c) ∧ Forall canonical_record (pc_outputs c).
Proof.
  intros (Hw & He & Hn). destruct (commit_parts_wf c Hw) as (Hwe & Hwc & Hwa & Hwo).
  unfold to_json in He.
  pose proof (f_equal pc_event Hn) as N1. pose proof (f_equal pc_aggregate Hn) as N3.
  pose proof (f_equal pc_outputs Hn) as N4. cbn in N1, N3, N4.
  split; [|split; [|split]].
  - split; [exact Hwe|]. split; [|exact N1].
    eapply (encodable_field (commit_fields c) (js "event")); [exact He|].
    unfold commit_fields. rewrite !elem_of_cons. tauto.
  - split; [exact Hwc|]. split; [|reflexivity].
    eapply (encodable_field (commit_fields c) (js "cursor")); [exact He|].
    unfold commit_fields. rewrite !elem_of_cons. tauto.
  - split; [exact Hwa|]. split; [|exact N3].
    eapply (encodable_field (commit_fields c) (js "aggregate")); [exact He|].
    unfold commit_fields. rewrite !elem_of_cons. tauto.
  - assert (Ho : encodable (JArr (map (λ o, JObj (output_fields o)) (pc_outputs c))) = true).
    { eapply (encodable_field (commit_fields c) (js "outputs")); [exact He|].
      unfold commit_fields. rewrite !elem_of_cons. tauto. }
    cbn [encodable] in Ho. apply Forall_forall. intros o Hin.
    rewrite Forall_forall in Hwo. split; [by apply Hwo|]. split.
    + eapply forallb_elem in Ho; [exact Ho|].
      apply (list_elem_of_fmap (λ o, JObj (output_fields o))). eauto.
    + apply list_elem_of_lookup in Hin as [i Hi].
      assert (E : map norm_output (pc_outputs c) !! i = Some (norm_output o))
        by (exact (list_lookup_fmap_Some_2 norm_output _ _ _ Hi)).
      rewrite N4, Hi in E. by apply Some_inj in E.
Qed.

Lemma registered_lookup s r reg :
  store_inv s → m_runs s !! r = Some reg → canonical_record reg ∧ rm_runId (rr_manifest reg) = r.
Proof. intros Hs Hr. destruct (sv_runs _ Hs _ _ Hr) as [Hg E]. by destruct Hg. Qed.

(** The cursor a commit is checked against is a record the store holds. *)
Lemma run_cursor_wf s reg prev :
  store_inv s → m_runs s !! rm_runId (rr_manifest reg) = Some reg → run_cursor s reg = Ok prev →
  record_wf prev.
Proof.
  intros Hs Hr Hc. destruct (registered_lookup _ _ _ Hs Hr) as [Hcan _].
  destruct (sv_histories _ Hs _ _ Hr) as (cs & cur & [Hh Hcur _ _]).
  unfold run_cursor in Hc. rewrite Hcur in Hc.
  destruct Hh as [g Hg|cs prev' c Hh Ht Hv].
  - eapply genesis_wf; [exact Hcan|]. exact Hc.
  - assert (prev = pc_cursor c) as -> by (destruct cs; cbn in Hc; by apply Ok_inj in Hc).
    apply (commit_parts_canonical c). apply Ht.
Qed.

Context `{EventLog L} (log : L).

Lemma check_commit_inv s c c' reg pend dd :
  store_inv s → record_wf c → check_commit log s c = Ok (c', reg, pend, dd) →
  c' = norm_commit c ∧ assert_persisted log (pc_event c') = Ok tt ∧ commit_accepted s reg c' ∧
  pend = number_outputs (length (m_outputs s)) (pc_outputs c') ∧
  dd = omap dedupe_entry (pc_outputs c').
Proof.
  intros Hs Hw Hc. unfold check_commit in Hc.
  apply res_bind_Ok in Hc as (v & Hv & Hc). apply validateProcessingCommit_inv in Hv as [-> Hv]; [|done].
  apply res_bind_Ok in Hc as ([] & Hp & Hc).
  apply res_bind_Ok in Hc as (reg' & Hr & Hc). apply or_throw_Ok in Hr.
  destruct (registered_lookup _ _ _ Hs Hr) as [Hcan Hid].
  apply res_bind_Ok in Hc as (prev & Hprev & Hc).
  assert (Hrun : run_cursor s reg' = Ok prev) by (unfold run_cursor; by rewrite Hid).
  apply res_bind_Ok in Hc as (u1 & G1 & Hc).
  apply res_bind_Ok in Hc as (c2 & Ht & Hc).
  assert (Hwn : record_wf (norm_commit c)) by apply (cv_canonical _ Hv).
  apply verifyProcessingTransition_inv in Ht as [-> Ht];
    [|exact Hwn|eapply run_cursor_wf; [exact Hs|by rewrite Hid|exact Hrun]].
  assert (En : norm_commit (norm_commit c) = norm_commit c) by exact (nrm_idemp (A := ProcessingCommit) c Hw).
  rewrite En in *. apply res_bind_Ok in Hc as (n & Hn & Hc).
  apply res_bind_Ok in Hc as (u2 & G2 & Hc). apply throw_if_Ok, negb_bool_decide_false in G2.
  apply res_pair_Ok in Hc as ([p d] & Hst & Hc). cbn [fst snd] in Hc. apply Ok_inj in Hc.
  injection Hc as <- <- <- <-.
  destruct (commit_parts_canonical _ (cv_canonical _ Hv)) as (_ & _ & _ & Ho).
  pose proof (oc_delivery _ _ (ck_outputs _ _ (tc_commit _ _ _ Ht))) as Hdel.
  apply stage_all in Hst; [|apply Forall_and; split; [exact Ho|exact Hdel]].
  cbn [fst snd] in Hst. destruct Hst as (E1 & E2 & Hdd).
  split; [done|]. split; [exact Hp|]. split; [|done].
  split; [exact Hr|by exists prev|by exists n|by rewrite <-E2].
Qed.

(** A commit throws and changes nothing, or is accepted and written whole. *)
Lemma commit_cases s c s' r :
  store_inv s → record_wf c → commit log c s = (s', r) →
  ((∃ x, r = Throw x) ∧ s' = s) ∨
  (r = Ok tt ∧ ∃ reg, assert_persisted log (pc_event (norm_commit c)) = Ok tt ∧
    commit_accepted s reg (norm_commit c) ∧ s' = committed s reg (norm_commit c)).
Proof.
  intros Hs Hw Hc. unfold commit, sm_bind, sm_get, sm_lift in Hc.
  destruct (check_commit log s c) as [[[[c' reg] pend] dd]|x] eqn:Hk.
  - apply check_commit_inv in Hk as (-> & Hp & Ha & -> & ->); [|done..].
    destruct (ac_transition _ _ _ Ha) as (prev & _ & Ht).
    destruct (commit_parts_canonical _ (cv_canonical _ (ck_valid _ _ (tc_commit _ _ _ Ht))))
      as (_ & Hcc & Hca & _).
    rewrite (copy_canonical _ Hca) in Hc. unfold sm_modify in Hc.
    rewrite (copy_canonical _ Hcc) in Hc. injection Hc as <- <-. right. split; [done|].
    exists reg. done.
  - injection Hc as <- <-. left. split; [by eexists|done].
Qed.
End commits.
