(* ===== verification/StoreInvariant.v ===== *)
(** * The store's invariant is preserved

    Registration and commits, whatever values they are called with, lead from a
    store that holds the histories of its runs to another such store; so does every
    sequence of them. *)
From S2P Require Import Prelude JsString JsNumber Json JsonLimits JsonParse JsonClaims.
From S2P Require Import Hash Zod JsonObject Event EventFacts EventChain EventLog.
From S2P Require Import EventLogFacts Codec Run Processing Commit ProcessingStore.
From S2P Require Import CommitFacts StoreFacts.

(** A batch of insertions that agrees with the map. *)
Lemma foldl_insert_lookup (m : gmap jsstring jsstring) (dd : list (jsstring * jsstring)) k id :
  NoDup (fst <$> dd) →
  Forall (λ e : jsstring * jsstring, m !! e.1 = None ∨ m !! e.1 = Some e.2) dd →
  foldl (λ m entry, <[entry.1 := entry.2]> m) m dd !! k = Some id ↔ m !! k = Some id ∨ (k, id) ∈ dd.
Proof.
  revert m. induction dd as [|[k' id'] dd IH]; intros m Hnd Hdd; cbn [foldl].
  - rewrite elem_of_nil. tauto.
  - cbn [fmap list_fmap fst] in Hnd. apply NoDup_cons in Hnd as [Hk Hnd].
    apply Forall_cons in Hdd as [Hm Hdd]. cbn [fst snd] in *. rewrite IH; [|done|].
    + rewrite elem_of_cons. destruct (decide (k' = k)) as [->|Hne].
      * rewrite lookup_insert_eq. split.
        -- intros [E|E]; [right; left; by injection E as ->|tauto].
        -- intros [E|[E|E]]; [destruct Hm as [Hm|Hm]; rewrite Hm in E; [done|by left]| |tauto].
           left. by injection E as ->.
      * rewrite lookup_insert_ne by done. naive_solver.
    + apply Forall_forall. intros [k2 id2] Hin. cbn [fst snd].
      assert (k2 ≠ k') by (intros ->; apply Hk, list_elem_of_fmap; by exists (k', id2)).
      rewrite lookup_insert_ne by done.
      rewrite Forall_forall in Hdd. by apply (Hdd (k2, id2)).
Qed.

Lemma elem_of_output_ids c os id :
  id ∈ output_ids_of c os ↔ ∃ o, o ∈ os ∧ o_category o = c ∧ o_outputId o = id.
Proof.
  unfold output_ids_of. rewrite elem_of_list_to_set, list_elem_of_fmap. split.
  - intros (o & -> & Ho). apply list_elem_of_filter in Ho as [Hc Ho]. eauto.
  - intros (o & Ho & Hc & <-). exists o. split; [done|]. by apply list_elem_of_filter.
Qed.

Section invariant.
Context `{Sha256}.

Lemma dedupe_entries_keys os : fst <$> omap dedupe_entry os = identities os.
Proof.
  unfold identities. induction os as [|o os IH]; [done|]. cbn [omap list_omap].
  unfold dedupe_entry at 1. destruct (dedupe_key o); cbn [mbind option_bind fmap option_fmap option_map];
    [|exact IH]. exact (f_equal (cons _) IH).
Qed.

Lemma elem_of_dedupe_entries (os : list ImmutableOutput) e : e ∈ omap dedupe_entry os ↔ ∃ o, o ∈ os ∧ dedupe_entry o = Some e.
Proof. rewrite list_elem_of_omap. naive_solver. Qed.

Lemma history_outputs_snoc cs c : history_outputs (cs ++ [c]) = history_outputs cs ++ pc_outputs c.
Proof. unfold history_outputs. rewrite map_app, concat_app. cbn. by rewrite app_nil_r. Qed.

Section step.
Context (s : InMemoryProcessingStore) (reg : RunRegistration) (c : ProcessingCommit).
Context (Hs : store_inv s) (Ha : commit_accepted s reg c).
Let r : jsstring := rc_runId (pc_cursor c).

Lemma accepted_checked : commit_checked c reg.
Proof using Ha. destruct (ac_transition _ _ _ Ha) as (prev & _ & Ht). apply Ht. Qed.

Lemma accepted_outputs_run o : o ∈ pc_outputs c → o_runId o = r.
Proof using Ha.
  intros Ho. pose proof (oc_linked _ _ (ck_outputs _ _ accepted_checked)) as Hl.
  rewrite Forall_forall in Hl. apply (Hl o Ho).
Qed.

Lemma committed_run_outputs r' :
  run_outputs (committed s reg c) r' =
    run_outputs s r' ++ if bool_decide (r = r') then pc_outputs c else [].
Proof using Ha.
  unfold run_outputs, committed, write_cursor, write_results. cbn [m_outputs].
  rewrite filter_app, fmap_app. f_equal.
  assert (Hall : ∀ o : StoredOutput,
    o ∈ number_outputs (length (m_outputs s)) (pc_outputs c) → o_runId o = r).
  { intros o Ho. by apply accepted_outputs_run, (number_outputs_elem (length (m_outputs s))). }
  rewrite <-(number_outputs_fst (length (m_outputs s)) (pc_outputs c)) at 2.
  case_bool_decide as E.
  - f_equal. clear - Hall E. subst r'. induction (number_outputs _ _) as [|o os IH]; [done|].
    rewrite filter_cons_True by by apply Hall; left. f_equal. apply IH. intros; apply Hall; by right.
  - clear - Hall E. induction (number_outputs _ _) as [|o os IH]; [done|].
    rewrite filter_cons_False by (rewrite (Hall o) by left; done).
    apply IH. intros; apply Hall; by right.
Qed.

Lemma committed_history cs cur :
  run_stored s r reg cs cur → history reg (cs ++ [c]) (pc_cursor c).
Proof using Hs Ha.
  intros [Hh Hcur Hagg _]. destruct (ac_transition _ _ _ Ha) as (prev & Hp & Ht).
  assert (prev = cur) as ->.
  { destruct (sv_runs _ Hs _ _ (ac_registered _ _ _ Ha)) as [_ Hid].
    unfold run_cursor in Hp. rewrite Hid in Hp. fold r in Hp. rewrite Hcur in Hp.
    destruct cs; [|by apply Ok_inj in Hp]. pose proof (history_last _ _ _ Hh) as Hl.
    change (createGenesisRunCursor reg = Ok cur) in Hl. rewrite Hl in Hp. by apply Ok_inj in Hp. }
  econstructor; [exact Hh|exact Ht|].
  destruct (ac_nextVersion _ _ _ Ha) as (n & Hn & ->). do 2 f_equal. fold r in Hn. rewrite Hagg in Hn.
  pose proof (history_versions reg cs cur (ac_aggregateId (pc_aggregate c)) Hh) as Hv.
  pose proof (commit_count_nonneg (ac_aggregateId (pc_aggregate c)) cs) as Hpos.
  destruct (aggregates_of cs !! _) as [ck|].
  - destruct Hv as [_ Hv]. rewrite Hv, BigInt_dec in Hn by done. by apply Ok_inj in Hn.
  - rewrite Hv. change (js "0") with (dec 0) in Hn. rewrite BigInt_dec in Hn by lia.
    by apply Ok_inj in Hn.
Qed.

Lemma committed_dedupe k id :
  m_dedupeKeys (committed s reg c) !! k = Some id ↔
    ∃ o : StoredOutput, o ∈ m_outputs (committed s reg c) ∧ dedupe_entry o = Some (k, id).
Proof using Hs Ha.
  unfold committed, write_cursor, write_results. cbn [m_dedupeKeys m_outputs].
  rewrite foldl_insert_lookup.
  - rewrite (sv_dedupe _ Hs), elem_of_dedupe_entries. split.
    + intros [(o & Ho & E)|(o & Ho & E)].
      * exists o. split; [apply elem_of_app; by left|done].
      * rewrite <-(number_outputs_fst (length (m_outputs s)) (pc_outputs c)) in Ho.
        apply list_elem_of_fmap in Ho as (so & -> & Ho).
        exists so. split; [apply elem_of_app; by right|done].
    + intros (o & [Ho|Ho]%elem_of_app & E); [left; eauto|right].
      apply number_outputs_elem in Ho. eauto.
  - rewrite dedupe_entries_keys. apply (oc_identities _ _ (ck_outputs _ _ accepted_checked)).
  - apply (ac_dedupe _ _ _ Ha).
Qed.

(** The outputs of the commit are dispatchable exactly when its run has effects; what was
    dispatchable stays so. *)
Lemma committed_dispatch (cat : OutputCategory) (old : gset jsstring) (id : jsstring) :
  (id ∈ old ↔ dispatchable s cat id) →
  id ∈ (if rm_effectsAllowed (rr_manifest reg) then output_ids_of cat (pc_outputs c) ∪ old else old) ↔
  dispatchable (committed s reg c) cat id.
Proof using Ha.
  intros Hold.
  assert (Hsplit : dispatchable (committed s reg c) cat id ↔ dispatchable s cat id ∨
    rm_effectsAllowed (rr_manifest reg) = true ∧
    ∃ o, o ∈ pc_outputs c ∧ o_category o = cat ∧ o_outputId o = id).
  { pose proof (ac_registered _ _ _ Ha) as Hreg. unfold dispatchable, committed, write_cursor, write_results.
    cbn [m_outputs m_runs]. split.
    - intros (o & reg' & [Ho|Ho]%elem_of_app & Hid & Hc & Hr & He); [left; by exists o, reg'|right].
      apply number_outputs_elem in Ho. rewrite (accepted_outputs_run _ Ho) in Hr. fold r in Hreg.
      rewrite Hreg in Hr. injection Hr as ->. split; [done|]. by exists o.
    - intros [(o & reg' & Ho & R)|(He & o & Ho & Hc & Hid)].
      + exists o, reg'. split; [apply elem_of_app; by left|exact R].
      + pose proof (accepted_outputs_run o Ho) as Hrun.
        rewrite <-(number_outputs_fst (length (m_outputs s)) (pc_outputs c)) in Ho.
        apply list_elem_of_fmap in Ho as (so & -> & Ho). exists so, reg.
        split; [apply elem_of_app; by right|]. rewrite Hrun. by split_and!. }
  rewrite Hsplit, <-Hold. destruct (rm_effectsAllowed _); [|naive_solver].
  rewrite elem_of_union, elem_of_output_ids. naive_solver.
Qed.

Lemma committed_inv : store_inv (committed s reg c).
Proof using Hs Ha.
  pose proof (ac_registered _ _ _ Ha) as Hreg. fold r in Hreg.
  pose proof accepted_checked as Hck.
  assert (Hself : ∀ r' reg', m_runs s !! r' = Some reg' →
    ∃ cs cur, run_stored (committed s reg c) r' reg' cs cur).
  { intros r' reg' Hr'. destruct (decide (r = r')) as [<-|Hne].
    - rewrite Hreg in Hr'. injection Hr' as <-.
      destruct (sv_histories _ Hs _ _ Hreg) as (cs & cur & Hst). exists (cs ++ [c]), (pc_cursor c).
      split; [by eapply committed_history| | |].
      + unfold committed, write_cursor. cbn [m_cursors]. fold r. rewrite lookup_insert_eq. by destruct cs.
      + unfold run_aggregates, committed, write_cursor, write_results. cbn [m_aggregates]. fold r.
        rewrite lookup_insert_eq. cbn [default]. rewrite (rs_aggregates _ _ _ _ _ Hst).
        by rewrite aggregates_of_snoc.
      + rewrite committed_run_outputs, bool_decide_eq_true_2, history_outputs_snoc by done.
        by rewrite (rs_outputs _ _ _ _ _ Hst).
    - destruct (sv_histories _ Hs _ _ Hr') as (cs & cur & [Hh Hcur Hagg Hout]). exists cs, cur.
      split; [done| | |].
      + unfold committed, write_cursor. cbn [m_cursors]. fold r. by rewrite lookup_insert_ne.
      + unfold run_aggregates, committed, write_cursor, write_results in *. cbn [m_aggregates]. fold r.
        by rewrite lookup_insert_ne.
      + rewrite committed_run_outputs, bool_decide_eq_false_2, app_nil_r by done. done. }
  split.
  - apply (sv_runs _ Hs).
  - exact Hself.
  - intros r' Hr'. change (m_runs (committed s reg c)) with (m_runs s) in Hr'.
    assert (r ≠ r') by (intros <-; congruence). destruct (sv_unregistered _ Hs _ Hr') as (U1 & U2 & U3).
    split_and!.
    + unfold committed, write_cursor. cbn [m_cursors]. fold r. by rewrite lookup_insert_ne.
    + unfold run_aggregates, committed, write_cursor, write_results in *. cbn [m_aggregates]. fold r.
      by rewrite lookup_insert_ne.
    + rewrite committed_run_outputs, bool_decide_eq_false_2, app_nil_r by done. done.
  - intros i o Ho. change (m_outputs (committed s reg c)) with
      (m_outputs s ++ number_outputs (length (m_outputs s)) (pc_outputs c)) in Ho.
    apply lookup_app_Some in Ho as [Ho|[Hge Ho]]; [by apply (sv_sequences _ Hs)|].
    apply number_outputs_lookup in Ho. rewrite Ho. f_equal. lia.
  - change (m_outputs (committed s reg c)) with
      (m_outputs s ++ number_outputs (length (m_outputs s)) (pc_outputs c)).
    apply Forall_app. split; [apply (sv_outputs _ Hs)|]. apply Forall_forall. intros o Ho.
    apply number_outputs_elem in Ho.
    destruct (commit_parts_canonical c (cv_canonical _ (ck_valid _ _ Hck))) as (_ & _ & _ & Hall).
    rewrite Forall_forall in Hall. by apply Hall.
  - apply committed_dedupe.
  - intros id. by apply committed_dispatch, (sv_jobs _ Hs).
  - intros id. by apply committed_dispatch, (sv_outbox _ Hs).
Qed.
End step.
End invariant.

(** ** Registering runs

    [validateRunRegistration] returns a registration whose hashes are the ones of
    its manifest; [ensureRun] adds a run with an empty history. *)

Lemma runManifestSchema_proper : schema_proper runManifestV2Schema.
Proof. proper. Qed.
Lemma runRegistrationSchema_proper : schema_proper runRegistrationSchema.
Proof. proper. Qed.

Lemma encodable_object kvs :
  Forall (λ kv : jsstring * json, is_ok (assertSupportedJsonKey kv.1) = true ∧ encodable kv.2 = true) kvs →
  encodable (JObj kvs) = true.
Proof. cbn [encodable]. induction 1 as [|kv kvs [Hk He] _ IH]; [done|]. cbn [forallb]. by rewrite Hk, He, IH. Qed.

Section runs.
Context `{Sha256} `{Zod}.

Lemma validateRunManifest_inv v m m' :
  json_wf v → norm v = norm (to_json m) → record_wf m → validateRunManifest v = Ok m' →
  m' = norm_manifest m ∧ encodable v = true ∧
  accepts_ref runManifestV2Schema (to_json m) = true.
Proof.
  intros Hv E Hw Hm. unfold validateRunManifest in Hm. apply res_bind_Ok in Hm as (s & Hs & Hm).
  assert (Hsnap : encodable v = true ∧ s = norm v).
  { unfold snapshotRunManifestWithinLimits in Hs. apply res_bind_Ok in Hs as (mt & _ & Hs).
    apply res_bind_Ok in Hs as (s' & Hs' & Hs). apply inertJsonSnapshot_spec in Hs' as [He ->]; [|done].
    split; [done|].
    assert (Hb : ∀ (x : json) (y : json), (do! assertJsonWithinLimits x RUN_CONFIGURATION_LIMITS ;; Ok y)
      = Ok s → s = y) by (intros x y Hx; by apply res_bind_Ok in Hx as (? & _ & [= ->])).
    destruct (norm v) as [| | | | |kvs]; try (by apply Ok_inj in Hs).
    destruct (lookup_key (js "behavior") kvs) as [[| | | | |b]|]; try (by apply Ok_inj in Hs).
    destruct (lookup_key (js "configuration") b); [by apply Hb in Hs|by apply Ok_inj in Hs]. }
  destruct Hsnap as [He ->].
  apply res_bind_Ok in Hm as (p & Hp & Hm). apply parse_Ok in Hp as [Ha ->].
  apply res_bind_Ok in Hm as (cf & _ & Hm). apply res_bind_Ok in Hm as (mt & _ & Hm).
  apply res_bind_Ok in Hm as (t & _ & Hm). apply res_bind_Ok in Hm as (c & Hc & Hm).
  apply cloneJson_spec in Hc as [_ ->]; [|by apply norm_wf]. apply or_throw_Ok in Hm.
  rewrite norm_idemp, E, of_json_norm, of_json_to_json in Hm by done.
  cbn [fmap option_fmap option_map] in Hm. apply Some_inj in Hm. split; [by symmetry|].
  split; [done|]. rewrite E in Ha.
  by rewrite (accepts_norm _ _ runManifestSchema_proper Hw) in Ha.
Qed.

Lemma register_inv m reg :
  register m = Ok reg → rr_manifest reg = m ∧ assertRunEffectPolicy m = Ok tt ∧
    canonicalHash (js "peas/run-manifest/v2") (to_json m) = Ok (rr_manifestHash reg) ∧
    canonicalHash (js "peas/run-behavior/v2") (to_json (rm_behavior m)) = Ok (rr_behaviorHash reg).
Proof.
  unfold register. intros Hr. apply res_bind_Ok in Hr as ([] & Hp & Hr).
  apply res_bind_Ok in Hr as (h & Hh & Hr). apply res_bind_Ok in Hr as (b & Hb & Hr).
  apply Ok_inj in Hr. subst reg. done.
Qed.

Lemma validateRunRegistration_inv reg v :
  record_wf reg → validateRunRegistration (to_json reg) = Ok v →
  v = norm_registration reg ∧ registered v.
Proof.
  intros Hw Hv. unfold validateRunRegistration in Hv.
  apply res_bind_Ok in Hv as (mt & _ & Hv). apply res_bind_Ok in Hv as (s & Hs & Hv).
  apply inertJsonSnapshot_spec in Hs as [He ->]; [|done].
  apply res_bind_Ok in Hv as (p & Hp & Hv). apply parse_Ok in Hp as [_ ->].
  unfold to_json in Hv. rewrite norm_obj in Hv.
  change (to_fields reg) with (registration_fields reg) in Hv. cbn [as_obj mbind option_bind] in Hv.
  assert (Hnd : NoDup (fst <$> registration_fields reg)) by exact (json_wf_nodup _ Hw).
  rewrite lookup_key_norm, !get_str_norm in Hv by exact Hnd.
  change (lookup_key (js "manifest") (registration_fields reg)) with
    (Some (to_json (rr_manifest reg))) in Hv.
  change (get_str (js "manifestHash") (registration_fields reg)) with
    (Some (rr_manifestHash reg)) in Hv.
  change (get_str (js "behaviorHash") (registration_fields reg)) with
    (Some (rr_behaviorHash reg)) in Hv.
  cbn [fmap option_fmap option_map or_throw mbind res_bind] in Hv.
  assert (Hwm : record_wf (rr_manifest reg)).
  { eapply (json_wf_get_obj _ (js "manifest")); [exact Hw|reflexivity]. }
  apply res_bind_Ok in Hv as (d & Hd & Hv).
  apply res_bind_Ok in Hv as (u1 & G1 & Hv). apply throw_if_Ok, negb_bool_decide_false in G1.
  apply res_bind_Ok in Hv as (u2 & G2 & Hv). apply throw_if_Ok, negb_bool_decide_false in G2.
  apply Ok_inj in Hv. subst v. unfold deriveRunRegistration in Hd.
  apply res_bind_Ok in Hd as (m & Hm & Hd).
  apply (validateRunManifest_inv _ (rr_manifest reg)) in Hm as (-> & _ & _);
    [|by apply norm_wf|apply norm_idemp|done].
  apply register_inv in Hd as (Em & Hpol & Hh1 & Hh2).
  assert (Ed : d = nrm reg).
  { destruct d as [dm d1 d2]. cbn [rr_manifest rr_manifestHash rr_behaviorHash] in *.
    cbn [nrm RunRegistration_codec]. unfold norm_registration. by rewrite G1, G2, Em. }
  split; [exact Ed|]. split.
  - rewrite Ed. by apply nrm_canonical.
  - by rewrite Em.
  - by rewrite Em.
  - by rewrite Em.
Qed.

(** A registered run has a genesis cursor. *)
Lemma genesis_exists reg : registered reg → ∃ g, createGenesisRunCursor reg = Ok g.
Proof.
  intros [(Hw & He & _) _ Hm Hb].
  assert (Hid : encodable (JStr (rm_runId (rr_manifest reg))) = true).
  { unfold to_json in He. apply (encodable_field _ (js "manifest") (to_json (rr_manifest reg))) in He.
    - eapply (encodable_field (manifest_fields (rr_manifest reg)) (js "runId")); [exact He|].
      right. left.
    - left. }
  assert (Hhash : ∀ h, is_hash h = true → encodable (JStr h) = true).
  { intros h Hh. apply is_ok_low. by apply is_hash_units. }
  apply canonicalHash_hash in Hm, Hb.
  unfold createGenesisRunCursor, hash_cursor, computeRunCursorHash.
  set (c := JObj (cursor_content _)).
  assert (Hc : encodable c = true).
  { subst c. apply encodable_object. unfold cursor_content.
    cbn [rc_runId rc_manifestHash rc_behaviorHash rc_processedPosition rc_logicalAtMs
      rc_lastEventHash rc_stateHead rc_decisionHead].
    repeat (apply Forall_cons_2; [split; [vm_compute; reflexivity|cbn [snd]]|]);
      try apply Forall_nil_2; try exact Hid; try (apply Hhash; first [assumption|apply ZERO_HASH_hash|apply sha256_hex]);
      try reflexivity. }
  rewrite (proj2 (canonicalHash_Ok _ _ _) (conj Hc eq_refl)). cbn [mbind res_bind]. by eexists.
Qed.

(** *** [ensureRun] *)

(** The store with one more run. *)
Definition with_run (s : InMemoryProcessingStore) (reg : RunRegistration) :
    InMemoryProcessingStore := {|
  m_runs := <[rm_runId (rr_manifest reg) := reg]> (m_runs s);
  m_cursors := m_cursors s; m_aggregates := m_aggregates s; m_outputs := m_outputs s;
  m_dedupeKeys := m_dedupeKeys s; m_dispatchableJobs := m_dispatchableJobs s;
  m_dispatchableOutbox := m_dispatchableOutbox s |}.

(** A new run has no outputs yet. *)
Lemma with_run_dispatch s reg cat id :
  store_inv s → m_runs s !! rm_runId (rr_manifest reg) = None →
  dispatchable (with_run s reg) cat id ↔ dispatchable s cat id.
Proof.
  intros Hs Hnew. destruct (sv_unregistered _ Hs _ Hnew) as (_ & _ & Hnone).
  unfold dispatchable, with_run. cbn [m_outputs m_runs].
  split; intros (o & reg' & Ho & Hid & Hc & Hr & He); exists o, reg'; (split_and!; try done).
  - apply lookup_insert_Some in Hr as [[E _]|[_ Hr]]; [|done]. exfalso.
    assert (Hin : so_output o ∈ run_outputs s (rm_runId (rr_manifest reg))).
    { unfold run_outputs. apply list_elem_of_fmap_2, list_elem_of_filter. by split. }
    rewrite Hnone in Hin. by apply elem_of_nil in Hin.
  - rewrite lookup_insert_ne; [done|]. congruence.
Qed.

Lemma with_run_inv s reg :
  store_inv s → registered reg → m_runs s !! rm_runId (rr_manifest reg) = None →
  store_inv (with_run s reg).
Proof.
  intros Hs Hreg Hnew. pose proof Hs as [S1 S2 S3 S4 S5 S6 S7 S8]. split.
  - intros r reg' Hr. unfold with_run in Hr. cbn [m_runs] in Hr.
    apply lookup_insert_Some in Hr as [[<- <-]|[_ Hr]]; [done|by apply S1].
  - intros r reg' Hr. unfold with_run in Hr. cbn [m_runs] in Hr.
    apply lookup_insert_Some in Hr as [[<- <-]|[_ Hr]].
    + destruct (genesis_exists reg Hreg) as [g Hg]. destruct (S3 _ Hnew) as (U1 & U2 & U3).
      exists [], g. split; [by constructor|exact U1|exact U2|exact U3].
    + destruct (S2 _ _ Hr) as (cs & cur & [R1 R2 R3 R4]). exists cs, cur. by split.
  - intros r Hr. unfold with_run in Hr. cbn [m_runs] in Hr.
    apply lookup_insert_None in Hr as [Hr _]. by apply S3.
  - exact S4.
  - exact S5.
  - exact S6.
  - intros id. by rewrite S7, with_run_dispatch.
  - intros id. by rewrite S8, with_run_dispatch.
Qed.

Lemma ensureRun_cases s reg s' r :
  store_inv s → record_wf reg → ensureRun reg s = (s', r) →
  ((∃ x, r = Throw x) ∧ s' = s) ∨
  (r = Ok tt ∧ registered (norm_registration reg) ∧
    ((s' = s ∧ m_runs s !! rm_runId (rr_manifest reg) = Some (norm_registration reg)) ∨
     (s' = with_run s (norm_registration reg) ∧ m_runs s !! rm_runId (rr_manifest reg) = None))).
Proof.
  intros Hs Hw He. unfold ensureRun, sm_bind, sm_lift, sm_get in He.
  destruct (validateRunRegistration (to_json reg)) as [v|x] eqn:Hv;
    [|injection He as <- <-; left; split; [by eexists|done]].
  apply validateRunRegistration_inv in Hv as [-> Hreg]; [|done].
  change (rm_runId (rr_manifest (norm_registration reg))) with (rm_runId (rr_manifest reg)) in He.
  destruct (m_runs s !! rm_runId (rr_manifest reg)) as [existing|] eqn:Hl.
  - pose proof (f_equal fst He) as Es. pose proof (f_equal snd He) as Er. clear He.
    cbn [fst snd] in Es, Er. subst s' r.
    match goal with |- (∃ x, ?m = Throw x) ∧ _ ∨ _ => destruct m as [[]|x] eqn:Ec end;
      [right|left; split; [by eexists|done]].
    split; [done|]. split; [done|]. left. split; [done|].
    apply res_bind_Ok in Ec as (a & Ha & Ec). apply res_bind_Ok in Ec as (b & Hb & Ec).
    apply throw_if_Ok, negb_bool_decide_false in Ec. subst b.
    apply canonical_text in Ha as [_ ->]. apply canonical_text in Hb as [_ E].
    destruct (sv_runs _ Hs _ _ Hl) as [Hex _].
    by rewrite (same_text_same_record _ _ (rg_canonical _ Hex) (rg_canonical _ Hreg) E).
  - rewrite (copy_canonical _ (rg_canonical _ Hreg)) in He. unfold sm_modify in He.
    injection He as <- <-. right. split; [done|]. split; [done|]. right. done.
Qed.

Lemma ensureRun_inv s reg s' r :
  store_inv s → record_wf reg → ensureRun reg s = (s', r) → store_inv s'.
Proof.
  intros Hs Hw He.
  destruct (ensureRun_cases s reg s' r Hs Hw He) as [[_ ->]|(_ & Hreg & [[-> _]|[-> Hn]])]; try done.
  by apply with_run_inv.
Qed.

Lemma commit_inv `{EventLog L} (log : L) s c s' r :
  store_inv s → record_wf c → commit log c s = (s', r) → store_inv s'.
Proof.
  intros Hs Hw Hc.
  destruct (commit_cases log s c s' r Hs Hw Hc) as [[_ ->]|(_ & reg & _ & Ha & ->)]; [done|].
  by apply committed_inv.
Qed.

(** ** Accepted commits and the histories *)

Lemma committed_stored s reg c cs cur :
  store_inv s → commit_accepted s reg c → run_stored s (rc_runId (pc_cursor c)) reg cs cur →
  run_stored (committed s reg c) (rc_runId (pc_cursor c)) reg (cs ++ [c]) (pc_cursor c).
Proof.
  intros Hs Ha Hst. split; [exact (committed_history s reg c Hs Ha cs cur Hst)| | |].
  - unfold committed, write_cursor. cbn [m_cursors]. rewrite lookup_insert_eq. by destruct cs.
  - unfold run_aggregates, committed, write_cursor, write_results. cbn [m_aggregates].
    rewrite lookup_insert_eq. cbn [default]. rewrite (rs_aggregates _ _ _ _ _ Hst).
    by rewrite aggregates_of_snoc.
  - rewrite (committed_run_outputs s reg c Ha), bool_decide_eq_true_2, history_outputs_snoc by done.
    by rewrite (rs_outputs _ _ _ _ _ Hst).
Qed.

Lemma committed_other s reg c r reg' cs cur :
  commit_accepted s reg c → rc_runId (pc_cursor c) ≠ r → run_stored s r reg' cs cur →
  run_stored (committed s reg c) r reg' cs cur.
Proof.
  intros Ha Hne [R1 R2 R3 R4]. split; [done| | |].
  - unfold committed, write_cursor. cbn [m_cursors]. by rewrite lookup_insert_ne.
  - unfold run_aggregates, committed, write_cursor, write_results in *. cbn [m_aggregates].
    by rewrite lookup_insert_ne.
  - by rewrite (committed_run_outputs s reg c Ha), bool_decide_eq_false_2, app_nil_r by done.
Qed.

(** The position of a run's stored cursor is the length of its history. *)
Lemma accepted_position s reg c cs cur :
  store_inv s → commit_accepted s reg c → run_stored s (rc_runId (pc_cursor c)) reg cs cur →
  pc_expectedPosition c = dec (Z.of_nat (length cs)).
Proof.
  intros Hs Ha Hst. destruct (ac_transition _ _ _ Ha) as (prev & Hp & Ht).
  destruct (sv_runs _ Hs _ _ (ac_registered _ _ _ Ha)) as [_ Hid].
  destruct Hst as [Hh Hcur _ _]. unfold run_cursor in Hp. rewrite Hid, Hcur in Hp.
  assert (prev = cur) as ->.
  { destruct cs; [|by apply Ok_inj in Hp]. pose proof (history_last _ _ _ Hh) as Hl.
    change (createGenesisRunCursor reg = Ok cur) in Hl. rewrite Hl in Hp. by apply Ok_inj in Hp. }
  rewrite (tc_expected _ _ _ Ht). apply (history_cursor reg cs cur Hh).
Qed.
End runs.
