(* ===== verification/Fixture.v ===== *)
(** * A small concrete system

    A counter reducer, a run, a log and the commit it leads to, over a cheap
    checksum in place of SHA-256: concrete instances for the hypotheses of
    the theorems about processing. *)
From S2P Require Import Prelude JsString JsNumber Json JsonLimits JsonParse JsonClaims Hash Zod.
From S2P Require Import JsonObject Clock Event EventFacts EventChain EventLog EventLogFacts Codec.
From S2P Require Import Run Processing Commit ProcessingStore Processor.

(** ** The checksum *)

Definition checksum (bs : list Z) : Z :=
  foldl (λ acc b, Z.land (Z.shiftl acc 5 - acc + b + 1) (Z.ones 32)) 7 bs.

Definition hex_digit_of (n : Z) : Z := if n <? 10 then 48 + n else 87 + n.

Fixpoint hex_digits (n : nat) (z : Z) : jsstring :=
  match n with
  | O => []
  | S n => hex_digits n (Z.shiftr z 4) ++ [hex_digit_of (Z.land z 15)]
  end.

Definition checksum_hex (bs : list Z) : jsstring :=
  replicate 56 48 ++ hex_digits 8 (checksum bs).

Lemma hex_digits_spec n z :
  length (hex_digits n z) = n ∧ forallb is_lower_hex (hex_digits n z) = true.
Proof.
  revert z. induction n as [|n IH]; intros z; [done|]. cbn [hex_digits].
  destruct (IH (Z.shiftr z 4)) as [Hl Hf]. rewrite length_app, forallb_app, Hf, Hl. cbn [length].
  split; [lia|]. cbn [forallb andb]. rewrite andb_true_r. unfold is_lower_hex, hex_digit_of.
  change 15 with (Z.ones 4). rewrite Z.land_ones by lia.
  pose proof (Z.mod_pos_bound z (2 ^ 4) ltac:(lia)). change (2 ^ 4) with 16 in *.
  destruct (z mod 16 <? 10) eqn:E; bool_prop; repeat case_match; lia.
Qed.

#[export] Instance Checksum : Sha256.
Proof.
  refine {| sha256 := checksum_hex |}. intros bs. unfold is_hash, js_length, checksum_hex.
  destruct (hex_digits_spec 8 (checksum bs)) as [Hl Hf].
  rewrite length_app, forallb_app, length_replicate, Hl, Hf. reflexivity.
Defined.

(** ** Events *)

Definition demo_draft (record : jsstring) : EventDraft := {|
  d_type := js "tick"; d_schemaVersion := 1; d_source := js "demo"; d_subject := js "s";
  d_occurredAtMs := None; d_correlationId := js "c"; d_causationId := None;
  d_provider := {| p_provider := js "p"; p_recordId := record; p_revisionId := js "1";
                   p_artifactHash := ZERO_HASH |};
  d_payload := [] |}.

(** A log of two events. *)
Definition demo_log : InMemoryEventLog :=
  (append (draft_json (demo_draft (js "b"))) (NInt 7)
    (append (draft_json (demo_draft (js "a"))) (NInt 5) empty_log).1).1.

Definition demo_event (i : nat) : StoredEvent :=
  match l_events demo_log !! i with
  | Some e => e
  | None => {| s_captured := {| c_draft := demo_draft []; c_eventId := []; c_streamVersion := [];
      c_receivedAtMs := 0; c_logicalAtMs := 0 |}; s_position := []; s_contentHash := [];
      s_previousEventHash := []; s_eventHash := [] |}
  end.

(** ** A counter *)

(** Counts the events; each count is a decision and a job. *)
Definition counter_transition (n : Z) (runId : jsstring) : res Transition :=
  let payload := [(js "n", jint n)] in
  let* id := deriveJobId runId (dec n) payload in
  Ok {| t_state := JObj payload;
        t_decisions := [{| dd_type := js "count"; dd_payload := payload |}];
        t_jobs := [{| jd_jobId := id; jd_type := js "report"; jd_dedupeKey := dec n;
          jd_notBeforeLogicalMs := NInt n; jd_inputBundleHash := ZERO_HASH; jd_payload := payload |}];
        t_outbox := [] |}.

Definition counter : Reducer := {|
  r_name := js "counter"; r_version := js "1";
  r_route := λ _, Ok (js "all");
  r_parseState := λ v, Ok v;
  r_initialState := λ _ _, Ok (JObj [(js "n", jint 0)]);
  r_apply := λ st e cx, counter_transition (default 0 (get_int (js "n") st) + 1) (rx_runId cx) |}.

Definition demo_manifest (runId : jsstring) : RunManifest := {|
  rm_runId := runId; rm_kind := Live; rm_effectsAllowed := true;
  rm_behavior := {| rb_reducerName := js "counter"; rb_reducerVersion := js "1";
    rb_buildDigest := ZERO_HASH; rb_schemaRegistryDigest := ZERO_HASH; rb_configuration := [];
    rb_identities := {| ri_extractorVersion := js "x"; ri_featureSetId := None;
      ri_modelId := None; ri_promptId := None; ri_datasetId := None |} |} |}.

Definition demo_registration : RunRegistration :=
  match register (demo_manifest (js "run")) with
  | Ok reg => reg
  | Throw _ => {| rr_manifest := demo_manifest []; rr_manifestHash := []; rr_behaviorHash := [] |}
  end.

Definition demo_processor : DeterministicProcessor := {|
  dp_reducer := counter; dp_registration := demo_registration; dp_configHash := ZERO_HASH |}.

(** The store with the run registered, and the commits of the two events. *)
Definition demo_store0 : InMemoryProcessingStore := (ensureRun demo_registration empty_store).1.

#[export] Instance demo_store : ProcessingStore InMemoryProcessingStore :=
  InMemoryProcessingStore_ProcessingStore demo_log.

Definition no_commit : ProcessingCommit := {|
  pc_expectedPosition := []; pc_event := demo_event 2;
  pc_cursor := {| rc_runId := []; rc_manifestHash := []; rc_behaviorHash := [];
    rc_processedPosition := []; rc_logicalAtMs := 0; rc_lastEventHash := []; rc_stateHead := [];
    rc_decisionHead := []; rc_cursorHash := [] |};
  pc_aggregate := {| ac_runId := []; ac_aggregateId := []; ac_version := [];
    ac_lastInputPosition := []; ac_state := []; ac_stateHash := []; ac_checkpointHash := [] |};
  pc_outputs := [] |}.

(** The commit the processor prepares for the event [i] on the store [s]. *)
Definition demo_prepare (s : InMemoryProcessingStore) (i : nat) : ProcessingCommit :=
  match current_cursor demo_processor s with
  | Ok previous =>
      match prepare demo_processor demo_log s (demo_event i) (Z.of_nat i + 1) (Z.of_nat i) previous with
      | Ok c => c
      | Throw _ => no_commit
      end
  | Throw _ => no_commit
  end.

Definition demo_commit1 : ProcessingCommit := Eval vm_compute in demo_prepare demo_store0 0.
Definition demo_store1 : InMemoryProcessingStore := (commit demo_log demo_commit1 demo_store0).1.
Definition demo_commit2 : ProcessingCommit := Eval vm_compute in demo_prepare demo_store1 1.
Definition demo_store2 : InMemoryProcessingStore := (commit demo_log demo_commit2 demo_store1).1.

Lemma demo_commit1_ok : (commit demo_log demo_commit1 demo_store0).2 = Ok tt.
Proof. vm_compute. reflexivity. Qed.

Lemma demo_commit2_ok : (commit demo_log demo_commit2 demo_store1).2 = Ok tt.
Proof. vm_compute. reflexivity. Qed.
