(* ===== verification/StoreClaims.v ===== *)
(** * What the processing store guarantees

    Stated for every sequence of registrations and commits, whatever values they
    carry and whichever of them throw: this is the interleaving of any number of
    processors on one store, because a commit's synchronous part is one step. *)
From S2P Require Import Prelude JsString JsNumber Json JsonLimits JsonParse JsonClaims Hash Zod.
From S2P Require Import JsonObject Event EventFacts EventChain EventLog EventLogFacts Codec Run.
From S2P Require Import Processing Commit ProcessingStore Processor CommitFacts.
From S2P Require Import StoreFacts StoreInvariant Fixture.

(** ** Sequences of operations *)

Inductive store_op : Type :=
  | Op_ensureRun (reg : RunRegistration)
  | Op_commit (c : ProcessingCommit).

(** The arguments are values a JavaScript caller can pass. *)
Definition op_wf (op : store_op) : Prop :=
  match op with
  | Op_ensureRun reg => record_wf reg
  | Op_commit c => record_wf c
  end.

Section runs.
Context `{Sha256} `{Zod} `{EventLog L} (log : L).

Definition run_op (s : InMemoryProcessingStore) (op : store_op) : InMemoryProcessingStore :=
  match op with
  | Op_ensureRun reg => (ensureRun reg s).1
  | Op_commit c => (commit log c s).1
  end.

Definition run_ops (s : InMemoryProcessingStore) (ops : list store_op) : InMemoryProcessingStore :=
  foldl run_op s ops.

Lemma run_op_inv s op : store_inv s → op_wf op → store_inv (run_op s op).
Proof.
  intros Hs Hop. destruct op as [reg|c]; cbn [run_op op_wf] in *.
  - destruct (ensureRun reg s) as [s' r] eqn:E. by eapply ensureRun_inv.
  - destruct (commit log c s) as [s' r] eqn:E. by eapply commit_inv.
Qed.

Lemma run_ops_inv s ops : store_inv s → Forall op_wf ops → store_inv (run_ops s ops).
Proof.
  intros Hs Hops. revert s Hs. induction Hops as [|op ops Hop Hops IH]; intros s Hs; [done|].
  apply IH. by apply run_op_inv.
Qed.

(** A registered run keeps its registration, and its history only grows. *)
Definition extends (s s' : InMemoryProcessingStore) : Prop :=
  ∀ r reg cs cur, m_runs s !! r = Some reg → run_stored s r reg cs cur →
    m_runs s' !! r = Some reg ∧ ∃ more cur', run_stored s' r reg (cs ++ more) cur'.

Lemma extends_refl s : extends s s.
Proof. intros r reg cs cur Hr Hst. split; [done|]. exists [], cur. by rewrite app_nil_r. Qed.

Lemma extends_trans s1 s2 s3 : extends s1 s2 → extends s2 s3 → extends s1 s3.
Proof.
  intros E1 E2 r reg cs cur Hr Hst. destruct (E1 _ _ _ _ Hr Hst) as (Hr2 & m1 & c1 & Hst2).
  destruct (E2 _ _ _ _ Hr2 Hst2) as (Hr3 & m2 & c2 & Hst3). split; [done|].
  exists (m1 ++ m2), c2. by rewrite app_assoc.
Qed.

Lemma committed_extends s reg c : store_inv s → commit_accepted s reg c → extends s (committed s reg c).
Proof.
  intros Hs Ha r reg' cs cur Hr Hst. split; [done|].
  destruct (decide (rc_runId (pc_cursor c) = r)) as [E|Hne].
  - exists [c], (pc_cursor c). subst r.
    assert (reg' = reg) as -> by (pose proof (ac_registered _ _ _ Ha); congruence).
    by eapply committed_stored.
  - exists [], cur. rewrite app_nil_r. by eapply committed_other.
Qed.

Lemma run_op_extends s op : store_inv s → op_wf op → extends s (run_op s op).
Proof.
  intros Hs Hop. destruct op as [reg|c]; cbn [run_op op_wf] in *.
  - destruct (ensureRun reg s) as [s' x] eqn:E. cbn [fst].
    destruct (ensureRun_cases s reg s' x Hs Hop E) as [[_ ->]|(_ & _ & [[-> _]|[-> Hn]])];
      [apply extends_refl..|].
    intros r reg' cs cur Hr [R1 R2 R3 R4]. split.
    + unfold with_run. cbn [m_runs]. rewrite lookup_insert_ne; [done|].
      change (rm_runId (rr_manifest (norm_registration reg))) with (rm_runId (rr_manifest reg)).
      congruence.
    + exists [], cur. rewrite app_nil_r. by split.
  - destruct (commit log c s) as [s' x] eqn:E. cbn [fst].
    destruct (commit_cases log s c s' x Hs Hop E) as [[_ ->]|(_ & reg & _ & Ha & ->)];
      [apply extends_refl|by apply committed_extends].
Qed.

Lemma run_ops_extends s ops : store_inv s → Forall op_wf ops → extends s (run_ops s ops).
Proof.
  intros Hs Hops. revert s Hs. induction Hops as [|op ops Hop Hops IH]; intros s Hs.
  - apply extends_refl.
  - eapply extends_trans; [by apply run_op_extends|]. apply IH. by apply run_op_inv.
Qed.

End runs.

(** ** The claims *)

(** C4: the store refines its histories.  After any sequence of registrations and
    commits, with any arguments, the store holds for every registered run exactly
    what the list of its accepted commits determines: the cursor is the last
    commit's, the aggregates are the latest checkpoints, the outputs are the
    commits' outputs in order; sequence numbers are 1, 2, 3, ...; the dedupe map
    holds the keys of the stored outputs and no others; dispatchable are exactly the
    jobs and outbox messages of the runs that may have effects.  Whatever operations
    follow, every run keeps its registration and its history is continued. *)
Theorem store_refines_histories `{Sha256} `{Zod} `{EventLog L} (log : L) (ops more : list store_op)
    (Hops : Forall op_wf ops) (Hmore : Forall op_wf more) :
  let s := run_ops log empty_store ops in
  store_inv s ∧ extends s (run_ops log empty_store (ops ++ more)).
Proof.
  intros s. assert (Hs : store_inv s) by (apply run_ops_inv; [apply empty_store_inv|done]).
  split; [exact Hs|]. unfold run_ops. rewrite foldl_app. by apply run_ops_extends.
Qed.

(** a commit is atomic.  It throws and the store is the one before the call,
    or it succeeds and the run's cursor is the commit's, one position further. *)
Theorem commit_atomic `{Sha256} `{Zod} `{EventLog L} (log : L) (s s' : InMemoryProcessingStore)
    (c : ProcessingCommit) (r : res unit)
    (Hs : store_inv s) (Hc : record_wf c) (Hr : commit log c s = (s', r)) :
  match r with
  | Throw _ => s' = s
  | Ok _ => ∃ reg cs cur n, let runId := rc_runId (pc_cursor c) in
      m_runs s !! runId = Some reg ∧ run_stored s runId reg cs cur ∧
      run_stored s' runId reg (cs ++ [norm_commit c]) (pc_cursor c) ∧
      m_cursors s' !! runId = Some (pc_cursor c) ∧
      BigInt (pc_expectedPosition c) = Ok n ∧ rc_processedPosition (pc_cursor c) = dec (n + 1)
  end.
Proof.
  destruct (commit_cases log s c s' r Hs Hc Hr) as [[[x ->] ->]|(-> & reg & _ & Ha & ->)]; [done|].
  pose proof (ac_registered _ _ _ Ha) as Hreg.
  destruct (sv_histories _ Hs _ _ Hreg) as (cs & cur & Hst).
  exists reg, cs, cur, (Z.of_nat (length cs)). cbn zeta.
  pose proof (committed_stored s reg _ cs cur Hs Ha Hst) as Hst'.
  destruct (history_cursor _ _ _ (rs_history _ _ _ _ _ Hst')) as [Hpos _].
  rewrite length_app in Hpos. cbn [length norm_commit pc_cursor] in Hpos.
  split_and!; [exact Hreg|exact Hst|exact Hst'| | |].
  - unfold committed, write_cursor. cbn [m_cursors norm_commit pc_cursor]. apply lookup_insert_eq.
  - pose proof (accepted_position s reg _ cs cur Hs Ha Hst) as E. cbn [norm_commit pc_expectedPosition] in E.
    rewrite E. apply BigInt_dec. lia.
  - rewrite Hpos. f_equal. lia.
Qed.

(** commits of one run exclude each other.  Once a commit expecting a
    position has been accepted, every later commit of that run expecting the same
    position throws, whatever other operations run in between: of concurrent
    processors exactly one wins. *)
Theorem commit_exclusive `{Sha256} `{Zod} `{EventLog L} (log : L) (s s1 : InMemoryProcessingStore)
    (c c' : ProcessingCommit) (ops : list store_op)
    (Hs : store_inv s) (Hc : record_wf c) (Hc' : record_wf c') (Hops : Forall op_wf ops)
    (Hok : commit log c s = (s1, Ok tt))
    (Hrun : rc_runId (pc_cursor c') = rc_runId (pc_cursor c))
    (Hpos : pc_expectedPosition c' = pc_expectedPosition c) :
  ∃ x, commit log c' (run_ops log s1 ops) = (run_ops log s1 ops, Throw x).
Proof.
  destruct (commit_cases log s c s1 _ Hs Hc Hok) as [[[x E] _]|(_ & reg & _ & Ha & ->)]; [done|].
  pose proof (ac_registered _ _ _ Ha) as Hreg. pose proof (committed_inv s reg _ Hs Ha) as Hs1.
  destruct (sv_histories _ Hs _ _ Hreg) as (cs & cur & Hst).
  pose proof (committed_stored s reg _ cs cur Hs Ha Hst) as Hst1.
  assert (Hreg1 : m_runs (committed s reg (norm_commit c)) !! rc_runId (pc_cursor c) = Some reg)
    by exact Hreg.
  set (s1 := committed s reg (norm_commit c)) in *.
  pose proof (run_ops_inv log s1 ops Hs1 Hops) as Hs2.
  destruct (run_ops_extends log s1 ops Hs1 Hops _ _ _ _ Hreg1 Hst1) as (Hreg2 & more2 & cur2 & Hst2).
  set (s2 := run_ops log s1 ops) in *.
  destruct (commit log c' s2) as [s3 r] eqn:E.
  destruct (commit_cases log s2 c' s3 r Hs2 Hc' E) as [[[x ->] ->]|(_ & reg' & _ & Ha' & _)].
  { by exists x. }
  exfalso. cbn [norm_commit pc_cursor] in Hst2, Hreg2, Hst1, Hreg1, Hst.
  pose proof (ac_registered _ _ _ Ha') as Hreg'. cbn [norm_commit pc_cursor] in Hreg'. rewrite Hrun in Hreg'.
  assert (reg' = reg) as -> by congruence.
  pose proof (accepted_position s reg _ cs cur Hs Ha Hst) as P1.
  rewrite <-Hrun in Hst2. pose proof (accepted_position s2 reg (norm_commit c') _ cur2 Hs2 Ha' Hst2) as P2.
  cbn [norm_commit pc_expectedPosition] in P1, P2. rewrite Hpos, P1 in P2.
  rewrite !length_app in P2. cbn [length] in P2. apply dec_inj in P2; lia.
Qed.

(** ** Witnesses: the run and the two commits of the fixture *)

Definition demo_ops : list store_op :=
  [Op_ensureRun demo_registration; Op_commit demo_commit1; Op_commit demo_commit1;
   Op_commit demo_commit2].

Lemma demo_ops_wf : Forall op_wf demo_ops.
Proof.
  unfold demo_ops. repeat (apply Forall_cons_2; [apply json_wfb_wf; vm_compute; reflexivity|]).
  apply Forall_nil_2.
Qed.

Lemma demo_registration_wf : record_wf demo_registration.
Proof. exact (Forall_inv demo_ops_wf). Qed.

Lemma demo_commit1_wf : record_wf demo_commit1.
Proof. exact (Forall_inv (Forall_inv_tail demo_ops_wf)). Qed.

Lemma demo_commit2_wf : record_wf demo_commit2.
Proof. exact (Forall_inv (Forall_inv_tail (Forall_inv_tail (Forall_inv_tail demo_ops_wf)))). Qed.

Lemma demo_store0_inv : store_inv demo_store0.
Proof.
  unfold demo_store0.
  pose proof (run_op_inv demo_log empty_store (Op_ensureRun demo_registration) empty_store_inv
    demo_registration_wf) as H.
  cbn [run_op] in H. exact H.
Qed.

Lemma demo_commit1_run : commit demo_log demo_commit1 demo_store0 = (demo_store1, Ok tt).
Proof. rewrite <-demo_commit1_ok. apply surjective_pairing. Qed.

Lemma store_refines_histories_witness :
  store_inv (run_ops demo_log empty_store demo_ops) ∧
  extends (run_ops demo_log empty_store demo_ops) (run_ops demo_log empty_store (demo_ops ++ demo_ops)).
Proof. apply store_refines_histories; exact demo_ops_wf. Defined.

Lemma commit_atomic_witness :
  ∃ reg cs cur n, let runId := rc_runId (pc_cursor demo_commit1) in
    m_runs demo_store0 !! runId = Some reg ∧ run_stored demo_store0 runId reg cs cur ∧
    run_stored demo_store1 runId reg (cs ++ [norm_commit demo_commit1]) (pc_cursor demo_commit1) ∧
    m_cursors demo_store1 !! runId = Some (pc_cursor demo_commit1) ∧
    BigInt (pc_expectedPosition demo_commit1) = Ok n ∧
    rc_processedPosition (pc_cursor demo_commit1) = dec (n + 1).
Proof.
  apply (commit_atomic demo_log demo_store0 demo_store1 demo_commit1 (Ok tt)).
  - exact demo_store0_inv.
  - exact demo_commit1_wf.
  - exact demo_commit1_run.
Defined.

Lemma commit_exclusive_witness :
  ∃ x, let s := run_ops demo_log demo_store1 [Op_commit demo_commit2] in
    commit demo_log demo_commit1 s = (s, Throw x).
Proof.
  apply (commit_exclusive demo_log demo_store0 demo_store1 demo_commit1 demo_commit1).
  - exact demo_store0_inv.
  - exact demo_commit1_wf.
  - exact demo_commit1_wf.
  - exact (Forall_cons_2 op_wf (Op_commit demo_commit2) [] demo_commit2_wf (Forall_nil_2 _)).
  - exact demo_commit1_run.
  - reflexivity.
  - reflexivity.
Defined.
