(* ===== verification/RunLog.v ===== *)
(** * The runs of a store and the log they process

    An event a commit was checked against is the event of the log at its
    position; the events of a run's accepted commits are therefore the first
    events of the log, in order, and stay so while the log grows. *)
From S2P Require Import Prelude JsString JsNumber Json JsonLimits JsonParse JsonClaims Hash Zod.
From S2P Require Import JsonObject Clock Event EventFacts EventChain EventLog EventLogFacts Codec Run.
From S2P Require Import Processing Commit ProcessingStore CommitFacts.
From S2P Require Import StoreFacts StoreInvariant.

(** ** The event at a position *)

Section reading.
Context `{Sha256} `{Zod}.

Lemma canonical_event_record (e : StoredEvent) : canonical_event e ↔ canonical_record e.
Proof. reflexivity. Qed.

Lemma log_elem_canonical es i e : log_events es → es !! i = Some e → canonical_event e.
Proof.
  intros Hes Hi. pose proof (log_canonical es Hes) as Hc. rewrite Forall_forall in Hc.
  apply Hc. by eapply list_elem_of_lookup_2.
Qed.

(** [get] answers the event of the list, if there is one. *)
Lemma get_event_eq es p n :
  log_events es → BigInt p = Ok n →
  get_event es p = Ok (if n <? 1 then None else es !! Z.to_nat (n - 1)).
Proof.
  intros Hes Hp. unfold get_event. rewrite Hp. cbn [mbind res_bind].
  destruct (n <? 1) eqn:E1; [done|]. cbn [orb]. bool_prop.
  destruct (Z.of_nat (length es) <? n) eqn:E2; bool_prop.
  - by rewrite lookup_ge_None_2 by lia.
  - destruct (es !! Z.to_nat (n - 1)) as [e|] eqn:E; [|done].
    by rewrite copyEvent_canonical by by eapply log_elem_canonical.
Qed.

(** Two canonical events with the same text are the same event. *)
Lemma same_text_event (a b : StoredEvent) t :
  canonical_event a → canonical_event b →
  canonicalJson (stored_json a) = Ok t → canonicalJson (stored_json b) = Ok t → a = b.
Proof.
  intros Ha Hb Hta Htb. apply (@same_text_same_record _ StoredEvent_codec a b Ha Hb).
  apply encode_spec in Hta as [_ ->]. apply encode_spec in Htb as [_ E]. exact E.
Qed.

(** What [commit] checks of its event: it is the log's. *)
Lemma assert_persisted_log (log : InMemoryEventLog) (e : StoredEvent) :
  log_inv log → canonical_event e → assert_persisted log e = Ok tt →
  ∃ n, BigInt (s_position e) = Ok n ∧ 1 <= n ∧ l_events log !! Z.to_nat (n - 1) = Some e.
Proof.
  intros Hlog He Ha. pose proof (li_events _ Hlog) as Hes. unfold assert_persisted in Ha.
  apply res_bind_Ok in Ha as (o & Ho & Ha). apply res_bind_Ok in Ha as (p & Hp & Ha).
  apply or_throw_Ok in Hp. subst o.
  change (get_event (l_events log) (s_position e) = Ok (Some p)) in Ho.
  destruct (BigInt (s_position e)) as [n|x] eqn:Hn;
    [|unfold get_event in Ho; rewrite Hn in Ho; discriminate Ho].
  rewrite (get_event_eq _ _ n Hes Hn) in Ho. apply Ok_inj in Ho.
  destruct (n <? 1) eqn:E1; [discriminate Ho|]. bool_prop.
  pose proof (log_elem_canonical _ _ _ Hes Ho) as Hcp.
  apply res_bind_Ok in Ha as (v & Hv & Ha). apply validateStoredEvent_spec in Hv as [_ ->]; [|apply Hcp].
  destruct Hcp as (Hw & Hen & Hnp). rewrite Hnp in Ha.
  apply res_bind_Ok in Ha as (u & _ & Ha). apply res_bind_Ok in Ha as (u' & _ & Ha).
  apply res_bind_Ok in Ha as (a & Hta & Ha). apply res_bind_Ok in Ha as (b & Htb & Ha).
  apply throw_if_Ok, negb_bool_decide_false in Ha. subst b.
  exists n. split; [done|]. split; [lia|]. rewrite Ho. f_equal.
  by apply (same_text_event p e a).
Qed.

(** ** Runs that follow the log *)

(** Every registered run has a history whose events are the first events of the log. *)
Definition follows (es : list StoredEvent) (s : InMemoryProcessingStore) : Prop :=
  ∀ r reg, m_runs s !! r = Some reg →
    ∃ cs cur, run_stored s r reg cs cur ∧ map pc_event cs = take (length cs) es.

Lemma empty_follows es : follows es empty_store.
Proof. intros r reg Hr. cbn in Hr. by rewrite lookup_empty in Hr. Qed.

Lemma follows_app es es' s : follows es s → follows (es ++ es') s.
Proof.
  intros Hf r reg Hr. destruct (Hf r reg Hr) as (cs & cur & Hst & He). exists cs, cur.
  split; [done|]. rewrite He, take_app_le; [done|].
  apply (f_equal length) in He. rewrite length_map, length_take in He. lia.
Qed.

Lemma follows_with_run es s reg :
  store_inv s → registered reg → m_runs s !! rm_runId (rr_manifest reg) = None →
  follows es s → follows es (with_run s reg).
Proof.
  intros Hs Hreg Hnew Hf r reg' Hr.
  destruct (sv_histories _ (with_run_inv s reg Hs Hreg Hnew) _ _ Hr) as (cs' & cur' & Hst').
  unfold with_run in Hr. cbn [m_runs] in Hr.
  apply lookup_insert_Some in Hr as [[<- <-]|[Hne Hr]].
  - exists [], cur'. split; [|done].
    destruct cs' as [|c cs']; [done|]. exfalso.
    pose proof (rs_cursor _ _ _ _ _ Hst') as Hc. unfold with_run in Hc. cbn [m_cursors] in Hc.
    destruct (sv_unregistered _ Hs _ Hnew) as (Hn & _). congruence.
  - destruct (Hf r reg' Hr) as (cs & cur & [R1 R2 R3 R4] & He). exists cs, cur.
    split; [by split|done].
Qed.

(** The next event of a run is the next event of the log. *)
Lemma accepted_event (log : InMemoryEventLog) s reg c cs cur :
  log_inv log → store_inv s → assert_persisted log (pc_event c) = Ok tt →
  commit_accepted s reg c → run_stored s (rc_runId (pc_cursor c)) reg cs cur →
  l_events log !! length cs = Some (pc_event c).
Proof.
  intros Hlog Hs Hp Ha Hst. destruct (ac_transition _ _ _ Ha) as (prev & Hprev & Ht).
  pose proof (accepted_position s reg c cs cur Hs Ha Hst) as Hpos.
  pose proof (cv_canonical _ (ck_valid _ _ (tc_commit _ _ _ Ht))) as Hcan.
  destruct (commit_parts_canonical c Hcan) as (He & _).
  destruct (assert_persisted_log log _ Hlog (proj2 (canonical_event_record _) He) Hp) as (n & Hn & Hn1 & Hl).
  destruct (tc_next _ _ _ Ht) as (m & Hm & Hm1). rewrite Hn in Hm1. apply Ok_inj in Hm1. subst n.
  rewrite <-(tc_expected _ _ _ Ht), Hpos, BigInt_dec in Hm by lia. apply Ok_inj in Hm. subst m.
  rewrite <-Hl. f_equal. lia.
Qed.

Lemma follows_committed (log : InMemoryEventLog) s reg c :
  log_inv log → store_inv s → assert_persisted log (pc_event c) = Ok tt →
  commit_accepted s reg c → follows (l_events log) s → follows (l_events log) (committed s reg c).
Proof.
  intros Hlog Hs Hp Ha Hf r reg' Hr.
  change (m_runs s !! r = Some reg') in Hr. destruct (Hf r reg' Hr) as (cs & cur & Hst & He).
  destruct (decide (rc_runId (pc_cursor c) = r)) as [<-|Hne].
  - assert (reg' = reg) as -> by (pose proof (ac_registered _ _ _ Ha); congruence).
    exists (cs ++ [c]), (pc_cursor c). split; [by eapply committed_stored|].
    pose proof (accepted_event log s reg c cs cur Hlog Hs Hp Ha Hst) as Hl.
    rewrite map_app, length_app, He. cbn [map length]. rewrite Nat.add_1_r.
    symmetry. by apply take_S_r.
  - exists cs, cur. split; [by apply committed_other|done].
Qed.
End reading.
