(* ===== verification/ProcessorFacts.v ===== *)
(** * What the processor builds

    A reducer is foreign code: [reducer_wf] says that on JavaScript values it returns
    JavaScript values, and nothing else.  The commits a processor builds from
    such values are values too, whatever they contain. *)
From S2P Require Import Prelude JsString JsNumber Json JsonLimits JsonParse JsonClaims Hash Zod.
From S2P Require Import JsonObject Clock Event EventFacts EventChain EventLog Codec Run Processing.
From S2P Require Import Commit ProcessingStore Processor CommitFacts.
From S2P Require Import StoreFacts.

(** ** Values *)

Definition output_draft_wf (d : Draft) : Prop :=
  match d with
  | Draft_decision d => units_ok (dd_type d) ∧ json_wf (JObj (dd_payload d))
  | Draft_job j =>
      units_ok (jd_jobId j) ∧ units_ok (jd_type j) ∧ units_ok (jd_dedupeKey j) ∧
      json_wf (JObj (jd_payload j))
  | Draft_outbox o =>
      units_ok (od_messageId o) ∧ units_ok (od_topic o) ∧ units_ok (od_dedupeKey o) ∧
      json_wf (JObj (od_payload o))
  end.

Definition drafts_of (t : Transition) : list Draft :=
  map Draft_decision (t_decisions t) ++ map Draft_job (t_jobs t) ++ map Draft_outbox (t_outbox t).

(** The values in a context. *)
Record context_wf (cx : ReducerContext) : Prop := {
  cw_runId : units_ok (rx_runId cx);
  cw_identities : json_wf (JObj (identities_fields (rx_identities cx)));
  cw_config : json_wf (JObj (rx_config cx))
}.

Record reducer_wf (r : Reducer) : Prop := {
  rw_route : ∀ e a, stored_wf e → r_route r e = Ok a → units_ok a;
  rw_parse : ∀ v w, json_wf v → r_parseState r v = Ok w → json_wf w;
  rw_initial : ∀ a cfg v, units_ok a → json_wf (JObj cfg) → r_initialState r a cfg = Ok v → json_wf v;
  rw_apply : ∀ st e cx t, json_wf (JObj st) → stored_wf e → context_wf cx → r_apply r st e cx = Ok t →
    json_wf (t_state t) ∧ Forall output_draft_wf (drafts_of t)
}.

(** A processor as its constructor leaves it. *)
Record processor_ok `{Sha256} (P : DeterministicProcessor) : Prop := {
  po_reducer : reducer_wf (dp_reducer P);
  po_registered : registered (dp_registration P)
}.

Section built.
Context `{Sha256}.

Lemma outputBody_wf d runId m :
  output_draft_wf d → outputBody d runId = Ok m →
  json_wf (JObj (mt_body m)) ∧ default True (units_ok <$> mt_dedupeKey m).
Proof.
  intros Hd Hm. destruct d as [d|j|o]; cbn [outputBody output_draft_wf] in *; inv_res.
  - destruct Hd as [H1 H2]. split; [|done]. cbn [mt_body]. solve_fields; assumption.
  - destruct Hd as (H1 & H2 & H3 & H4). cbn [mt_body mt_dedupeKey]. split; [|exact H3].
    unfold assertHash in *. inv_res. bool_prop. solve_fields; assumption.
  - destruct Hd as (H1 & H2 & H3 & H4). cbn [mt_body mt_dedupeKey]. split; [|exact H3].
    solve_fields; assumption.
Qed.

Lemma registered_strings reg :
  registered reg → units_ok (rm_runId (rr_manifest reg)) ∧
    is_hash (rr_manifestHash reg) = true ∧ is_hash (rr_behaviorHash reg) = true.
Proof.
  intros [(Hw & _) _ Hm Hb]. unfold record_wf, to_json in Hw.
  pose proof (json_wf_get_obj _ (js "manifest") _ Hw eq_refl) as Hmw.
  rewrite json_wf_obj in Hmw. destruct Hmw as [_ Hmw]. split_and!.
  - apply (Hmw (js "runId", JStr (rm_runId (rr_manifest reg)))). right. left.
  - by eapply canonicalHash_hash.
  - by eapply canonicalHash_hash.
Qed.

Lemma registered_behavior reg :
  registered reg → json_wf (JObj (identities_fields (rb_identities (rm_behavior (rr_manifest reg))))) ∧
    json_wf (JObj (rb_configuration (rm_behavior (rr_manifest reg)))).
Proof.
  intros [(Hw & _) _ _ _]. unfold record_wf, to_json in Hw.
  pose proof (json_wf_get_obj _ (js "manifest") _ Hw eq_refl) as Hm.
  pose proof (json_wf_get_obj _ (js "behavior") _ Hm eq_refl) as Hb.
  split; [exact (json_wf_get_obj _ (js "identities") _ Hb eq_refl)|].
  exact (json_wf_get_obj _ (js "configuration") _ Hb eq_refl).
Qed.

Lemma stored_strings (e : StoredEvent) :
  stored_wf e → units_ok (c_eventId e) ∧ units_ok (s_position e) ∧ units_ok (s_eventHash e).
Proof.
  unfold stored_wf, stored_json. rewrite json_wf_obj. intros [_ Hw].
  assert (Hf : ∀ k v, (js k, JStr v) ∈ stored_fields e → units_ok v)
    by (intros k v Hin; exact (proj2 (Hw _ Hin))).
  unfold stored_fields, captured_fields in Hf. split_and!.
  - apply (Hf "eventId"%string). rewrite !elem_of_app, !elem_of_cons. tauto.
  - apply (Hf "position"%string). rewrite !elem_of_app, !elem_of_cons. tauto.
  - apply (Hf "eventHash"%string). rewrite !elem_of_app, !elem_of_cons. tauto.
Qed.

Lemma cursor_strings (c : RunCursor) :
  record_wf c → units_ok (rc_processedPosition c) ∧ units_ok (rc_stateHead c) ∧
    units_ok (rc_decisionHead c).
Proof.
  unfold record_wf, to_json. rewrite json_wf_obj. intros [_ Hw].
  assert (Hf : ∀ k v, (js k, JStr v) ∈ cursor_fields c → units_ok v)
    by (intros k v Hin; exact (proj2 (Hw _ Hin))).
  unfold cursor_fields, cursor_content in Hf. split_and!.
  - apply (Hf "processedPosition"%string). rewrite !elem_of_app, !elem_of_cons. tauto.
  - apply (Hf "stateHead"%string). rewrite !elem_of_app, !elem_of_cons. tauto.
  - apply (Hf "decisionHead"%string). rewrite !elem_of_app, !elem_of_cons. tauto.
Qed.

Context (reg : RunRegistration) (Hreg : registered reg).
Context (event : StoredEvent) (Hevent : stored_wf event).
Context (aggregateId : jsstring) (Haggregate : units_ok aggregateId).

Lemma materialize_one_wf dd n d o dd' :
  output_draft_wf d → materialize_one reg event aggregateId dd n d = Ok (o, dd') → record_wf o.
Proof using Hreg Hevent Haggregate.
  intros Hd Hm. unfold materialize_one in Hm.
  apply res_bind_Ok in Hm as (m & Hb & Hm). destruct (outputBody_wf _ _ _ Hd Hb) as [Hbw Hk].
  apply res_bind_Ok in Hm as (mt & _ & Hm). apply res_bind_Ok in Hm as (t & _ & Hm).
  apply res_bind_Ok in Hm as (dd1 & _ & Hm). apply res_bind_Ok in Hm as (bh & Hbh & Hm).
  apply res_bind_Ok in Hm as (oid & Hoid & Hm). apply res_bind_Ok in Hm as (tm & _ & Hm).
  apply res_bind_Ok in Hm as (cl & Hcl & Hm). apply cloneJson_spec in Hcl as [_ ->]; [|done].
  apply res_bind_Ok in Hm as (cb & Hcb & Hm). apply or_throw_Ok in Hcb. rewrite norm_obj in Hcb.
  apply Some_inj in Hcb. subst cb. apply Ok_inj in Hm. injection Hm as <- <-.
  apply canonicalHash_hash in Hbh, Hoid.
  destruct (registered_strings _ Hreg) as (R1 & R2 & R3).
  destruct (stored_strings _ Hevent) as (E1 & E2 & E3).
  unfold record_wf, to_json. cbn [to_fields ImmutableOutput_codec output_fields o_outputId o_runId
    o_inputEventId o_inputPosition o_aggregateId o_category o_ordinal o_dedupeKey
    o_notBeforeLogicalMs o_body o_bodyHash].
  solve_fields; try assumption.
  - destruct d; apply js_units.
  - exact (norm_entries_wf _ Hbw).
Qed.

Lemma materialize_group_wf dd n ds r :
  Forall output_draft_wf ds → materialize_group reg event aggregateId dd n ds = Ok r →
  Forall record_wf r.1.
Proof using Hreg Hevent Haggregate.
  intros Hds. revert dd n r. induction Hds as [|d ds Hd Hds IH]; intros dd n r Hr; cbn [materialize_group] in Hr.
  - apply Ok_inj in Hr. subst r. constructor.
  - apply res_pair_Ok in Hr as ([o dd1] & Ho & Hr). apply res_pair_Ok in Hr as (r1 & Hr1 & Hr).
    apply Ok_inj in Hr. subst r. cbn [fst snd] in *. constructor.
    + by eapply materialize_one_wf.
    + by eapply IH.
Qed.

Lemma materialize_wf t os :
  Forall output_draft_wf (drafts_of t) → materialize reg event aggregateId t = Ok os →
  Forall record_wf os.
Proof using Hreg Hevent Haggregate.
  unfold drafts_of. rewrite !Forall_app. intros (Hd & Hj & Ho) Hm. unfold materialize in Hm.
  apply res_pair_Ok in Hm as (r1 & H1 & Hm). apply res_pair_Ok in Hm as (r2 & H2 & Hm).
  apply res_pair_Ok in Hm as (r3 & H3 & Hm). apply Ok_inj in Hm. subst os.
  rewrite !Forall_app. split_and!.
  - exact (materialize_group_wf _ _ _ _ Hd H1).
  - exact (materialize_group_wf _ _ _ _ Hj H2).
  - exact (materialize_group_wf _ _ _ _ Ho H3).
Qed.
End built.

(** ** The commit *)

Section commits.
Context `{Sha256} `{Zod} (P : DeterministicProcessor) (HP : processor_ok P).

Lemma cloned_object kvs w o :
  json_wf (JObj kvs) → cloneJson (JObj kvs) = Ok w → or_throw (as_obj w) o = Ok (norm_entries kvs).
Proof. intros Hw Hc. apply cloneJson_spec in Hc as [_ ->]; [|done]. by rewrite norm_obj. Qed.

Lemma parse_checked_wf v kvs :
  json_wf v → parse_checked P v = Ok kvs → json_wf (JObj kvs).
Proof using HP.
  intros Hv Hp. unfold parse_checked in Hp. apply res_bind_Ok in Hp as (w & Hw & Hp).
  apply (rw_parse _ (po_reducer _ HP)) in Hw; [|done].
  apply res_bind_Ok in Hp as (k & Hk & Hp). apply res_bind_Ok in Hp as (m & _ & Hp).
  apply Ok_inj in Hp. subst k. destruct w; try discriminate Hk. cbn in Hk. by apply Ok_inj in Hk as ->.
Qed.

(** What [process] hands to the store. *)
Record built (previous : RunCursor) (event : StoredEvent) (c : ProcessingCommit) : Prop := {
  bt_wf : record_wf c;
  bt_event : pc_event c = event;
  bt_expected : pc_expectedPosition c = rc_processedPosition previous;
  bt_run : rc_runId (pc_cursor c) = rm_runId (rr_manifest (dp_registration P))
}.

Lemma hash_cursor_eq c c' : hash_cursor c = Ok c' → ∃ h, is_hash h = true ∧ c' = with_cursorHash c h.
Proof.
  unfold hash_cursor. intros Hc. apply res_bind_Ok in Hc as (h & Hh & Hc). apply Ok_inj in Hc.
  exists h. split; [by eapply canonicalHash_hash|done].
Qed.

Lemma hash_checkpoint_eq a a' :
  hash_checkpoint a = Ok a' → ∃ h, is_hash h = true ∧ a' = with_checkpointHash a h.
Proof.
  unfold hash_checkpoint. intros Ha. apply res_bind_Ok in Ha as (h & Hh & Ha). apply Ok_inj in Ha.
  exists h. split; [by eapply canonicalHash_hash|done].
Qed.

(** The checkpoint a commit starts from gives the reducer a value. *)
Lemma verify_prior_wf prior st :
  record_wf prior → verify_prior_aggregate P prior = Ok st → json_wf (JObj st).
Proof using HP.
  intros Hw Hv. unfold verify_prior_aggregate in Hv. apply res_bind_Ok in Hv as (k & Hk & Hv).
  apply (validate_record_spec _ _ processing_limits_valid aggregateCheckpointSchema_proper) in Hk
    as [_ ->]; [|done]. apply nrm_wf in Hw.
  apply res_bind_Ok in Hv as (m & _ & Hv). apply res_bind_Ok in Hv as (s & Hs & Hv).
  apply parse_checked_wf in Hs; [|exact (json_wf_get_obj _ (js "state") _ Hw eq_refl)].
  apply res_bind_Ok in Hv as (h & _ & Hv). apply res_bind_Ok in Hv as (u & _ & Hv).
  apply res_bind_Ok in Hv as (h' & _ & Hv). apply res_bind_Ok in Hv as (u' & _ & Hv).
  by apply Ok_inj in Hv as <-.
Qed.

Lemma aggregateGenesis_wf a prior :
  units_ok a → aggregateGenesis P a = Ok prior → record_wf prior.
Proof using HP.
  intros Ha Hp. unfold aggregateGenesis in Hp. apply res_bind_Ok in Hp as (v & Hv & Hp).
  destruct (registered_strings _ (po_registered _ HP)) as (R1 & _).
  apply (rw_initial _ (po_reducer _ HP)) in Hv;
    [|done|exact (proj2 (registered_behavior _ (po_registered _ HP)))].
  apply res_bind_Ok in Hp as (m & _ & Hp). apply res_bind_Ok in Hp as (s & Hs & Hp).
  apply parse_checked_wf in Hs; [|done]. apply res_bind_Ok in Hp as (h & Hh & Hp).
  apply canonicalHash_hash in Hh. apply hash_checkpoint_eq in Hp as (h1 & Hh1 & ->).
  unfold record_wf, to_json. cbn [to_fields AggregateCheckpoint_codec].
  unfold checkpoint_fields, with_checkpointHash. cbn [app ac_runId ac_aggregateId
    ac_version ac_lastInputPosition ac_state ac_stateHash ac_checkpointHash].
  solve_fields; first [assumption|exact (js_units _)].
Qed.

Lemma reducer_context_wf event cx : reducer_context P event = Ok cx → context_wf cx.
Proof using HP.
  intros Hc. unfold reducer_context in Hc. apply res_bind_Ok in Hc as (v & Hv & Hc).
  destruct (registered_behavior _ (po_registered _ HP)) as [Hi Hcfg].
  destruct (registered_strings _ (po_registered _ HP)) as (R1 & _).
  rewrite (cloned_object _ _ _ Hcfg Hv) in Hc. cbn [mbind res_bind] in Hc. apply Ok_inj in Hc as <-.
  split; [exact R1|exact Hi|]. exact (norm_entries_wf _ Hcfg).
Qed.

Lemma build_commit_built previous event a prior c :
  record_wf previous → stored_wf event → units_ok a → record_wf prior →
  build_commit P previous event a prior = Ok c → built previous event c.
Proof using HP.
  intros Hprev He Ha Hprior Hc. unfold build_commit in Hc.
  apply res_bind_Ok in Hc as (s0 & Hs0 & Hc). apply verify_prior_wf in Hs0; [|done].
  apply res_bind_Ok in Hc as (v0 & Hv0 & Hc). rewrite (cloned_object _ _ _ Hs0 Hv0) in Hc.
  cbn [mbind res_bind] in Hc.
  apply res_bind_Ok in Hc as (cx & Hcx & Hc). apply reducer_context_wf in Hcx.
  apply res_bind_Ok in Hc as (t & Ht & Hc).
  apply (rw_apply _ (po_reducer _ HP)) in Ht as [Hst Hds]; [|by apply norm_entries_wf|done..].
  apply res_bind_Ok in Hc as (m0 & _ & Hc). apply res_bind_Ok in Hc as (ns & Hns & Hc).
  apply parse_checked_wf in Hns; [|done]. apply res_bind_Ok in Hc as (t0 & _ & Hc).
  apply res_bind_Ok in Hc as (v2 & Hv2 & Hc).
  rewrite (cloned_object _ _ _ Hns Hv2) in Hc. cbn [mbind res_bind] in Hc.
  apply res_bind_Ok in Hc as (sh & Hsh & Hc). apply canonicalHash_hash in Hsh.
  apply res_bind_Ok in Hc as (n & _ & Hc).
  apply res_bind_Ok in Hc as (ag & Hag & Hc). apply hash_checkpoint_eq in Hag as (h1 & Hh1 & ->).
  apply res_bind_Ok in Hc as (os & Hos & Hc).
  apply (materialize_wf _ (po_registered _ HP) _ He _ Ha _ _ Hds) in Hos.
  apply res_bind_Ok in Hc as (dh & Hdh & Hc). apply res_bind_Ok in Hc as (cu & Hcu & Hc).
  apply hash_cursor_eq in Hcu as (h2 & Hh2 & ->). apply Ok_inj in Hc. subst c.
  destruct (registered_strings _ (po_registered _ HP)) as (R1 & R2 & R3).
  destruct (stored_strings _ He) as (E1 & E2 & E3). destruct (cursor_strings _ Hprev) as (C1 & C2 & C3).
  split; try reflexivity.
  unfold record_wf, to_json. cbn [to_fields ProcessingCommit_codec commit_fields pc_expectedPosition
    pc_event pc_cursor pc_aggregate pc_outputs].
  apply fields_wf; [vm_compute; reflexivity|].
  repeat (apply Forall_cons_2; [split; [apply js_units|cbn [snd]]|]); [exact C1|exact He| | | |apply Forall_nil_2].
  - unfold cursor_fields, cursor_content, with_cursorHash. cbn [app rc_runId rc_manifestHash
      rc_behaviorHash rc_processedPosition rc_logicalAtMs rc_lastEventHash rc_stateHead
      rc_decisionHead rc_cursorHash].
    solve_fields; try assumption.
    + apply is_hash_units_ok, sha256_hex.
    + unfold next_decisionHead, hashParts in Hdh. apply res_bind_Ok in Hdh as (x & _ & Hdh).
      apply Ok_inj in Hdh. subst dh.
      apply is_hash_units_ok, sha256_hex.
  - unfold checkpoint_fields, with_checkpointHash. cbn [ac_runId ac_aggregateId ac_version
      ac_lastInputPosition ac_state ac_stateHash ac_checkpointHash].
    solve_fields; try assumption; [apply dec_units|exact (norm_entries_wf _ Hns)].
  - apply json_wf_arr. intros x Hx. apply list_elem_of_fmap in Hx as (o & -> & Ho).
    rewrite Forall_forall in Hos. by apply Hos.
Qed.
End commits.
