(* ===== verification/ProcessorRuns.v ===== *)
(** * What a call of [process] does

    On the in-memory store and log, [process] throws and changes nothing, or
    confirms an event the run has already processed, or commits exactly the next
    event of the log. *)
From S2P Require Import Prelude JsString JsNumber Json JsonLimits JsonParse JsonClaims Hash Zod.
From S2P Require Import JsonObject Clock Event EventFacts EventChain EventLog EventLogFacts Codec Run.
From S2P Require Import Processing Commit ProcessingStore Processor CommitFacts.
From S2P Require Import StoreFacts StoreInvariant RunLog ProcessorFacts.

Section runs.
Context `{Sha256} `{Zod} (P : DeterministicProcessor) (HP : processor_ok P).
Context (log : InMemoryEventLog) (Hlog : log_inv log).
Local Abbreviation reg := (dp_registration P).
Local Abbreviation run := (rm_runId (rr_manifest (dp_registration P))).
Local Abbreviation state := (ProcessorState InMemoryProcessingStore).

#[local] Instance memory_store : ProcessingStore InMemoryProcessingStore :=
  InMemoryProcessingStore_ProcessingStore log.

(** The store, and the log it follows. *)
Record processor_inv (st : state) : Prop := {
  pi_store : store_inv (st_store st);
  pi_follows : follows (l_events log) (st_store st);
  pi_registered : st_initialized st = true → m_runs (st_store st) !! run = Some reg
}.

(** Nothing but the registration of the run. *)
Definition quiet (s s' : InMemoryProcessingStore) : Prop :=
  s' = s ∨ (s' = with_run s reg ∧ m_runs s !! run = None).

(** The run has committed [cs], the first events of the log. *)
Definition run_at (s : InMemoryProcessingStore) (cs : list ProcessingCommit) (cur : RunCursor) : Prop :=
  m_runs s !! run = Some reg ∧ run_stored s run reg cs cur ∧
  map pc_event cs = take (length cs) (l_events log).

Lemma state_eta (st : state) : {| st_initialized := st_initialized st; st_store := st_store st |} = st.
Proof. by destruct st. Qed.

Lemma registration_norm : norm_registration reg = reg.
Proof using HP. apply (rg_canonical _ (po_registered _ HP)). Qed.

Lemma initialize_cases st st' r :
  processor_inv st → initialize P st = (st', r) →
  processor_inv st' ∧ quiet (st_store st) (st_store st') ∧
  match r with
  | Throw _ => st' = st
  | Ok _ => st_initialized st' = true ∧ m_runs (st_store st') !! run = Some reg
  end.
Proof using HP.
  intros Hst Hi. pose proof Hst as [Hs Hf Hr]. unfold initialize, sm_bind, sm_get in Hi.
  destruct (st_initialized st) eqn:Einit.
  { injection Hi as <- <-. split; [done|]. split; [by left|]. split; [exact Einit|by apply Hr]. }
  unfold in_store in Hi. change (store_ensureRun reg) with (ensureRun reg) in Hi.
  pose proof (rg_canonical _ (po_registered _ HP)) as (Hw & _).
  destruct (ensureRun reg (st_store st)) as [s x] eqn:E.
  destruct (ensureRun_cases _ reg s x Hs Hw E) as [[[e ->] ->]|(-> & Hreg & Hcase)];
    unfold sm_modify in Hi; injection Hi as <- <-; cbn [st_initialized st_store].
  - rewrite Einit, <-Einit, state_eta. split; [done|]. split; [by left|done].
  - rewrite registration_norm in *.
    assert (Hruns : m_runs s !! run = Some reg).
    { destruct Hcase as [[-> Hl]|[-> _]]; [exact Hl|]. apply lookup_insert_eq. }
    split; [|split; [|done]].
    + destruct Hcase as [[-> _]|[-> Hn]]; split; try done.
      * by apply with_run_inv.
      * by apply follows_with_run.
    + destruct Hcase as [[-> _]|[-> Hn]]; [by left|by right].
Qed.

Lemma follows_run s :
  follows (l_events log) s → m_runs s !! run = Some reg → ∃ cs cur, run_at s cs cur.
Proof. intros Hf Hr. destruct (Hf _ _ Hr) as (cs & cur & Hst & He). exists cs, cur. done. Qed.

(** The cursor read from the store is the run's. *)
Lemma current_cursor_run s cs cur c :
  store_inv s → run_at s cs cur → current_cursor P s = Ok c → c = cur ∧ record_wf cur.
Proof.
  intros Hs (Hr & Hst & _) Hc. destruct (sv_runs _ Hs _ _ Hr) as [Hreg _].
  assert (Hrun : ∀ prev, run_cursor s reg = Ok prev → record_wf prev).
  { intros prev Hp. by eapply run_cursor_wf. }
  unfold run_cursor in Hrun. unfold current_cursor in Hc.
  change (store_loadCursor s run) with (loadCursor s run) in Hc. unfold loadCursor in Hc.
  rewrite (rs_cursor _ _ _ _ _ Hst) in *. pose proof (history_last _ _ _ (rs_history _ _ _ _ _ Hst)) as Hl.
  destruct cs as [|c0 cs].
  - cbn [mbind res_bind] in Hc. unfold genesis in Hc. change (createGenesisRunCursor reg = Ok cur) in Hl.
    rewrite Hl in *. apply Ok_inj in Hc as <-. split; [done|by apply Hrun].
  - apply res_bind_Ok in Hc as (o & Ho & Hc). apply res_bind_Ok in Ho as (v & Hv & Ho).
    pose proof (Hrun _ eq_refl) as Hw.
    apply (validate_record_spec _ _ processing_limits_valid runCursorSchema_proper) in Hv as [_ ->]; [|done].
    change (nrm cur) with cur in Ho. apply res_bind_Ok in Ho as (h & _ & Ho).
    apply res_bind_Ok in Ho as (u & _ & Ho). apply res_bind_Ok in Ho as (cp & Hcp & Ho).
    apply copy_spec in Hcp as [_ ->]; [|done]. apply Ok_inj in Ho as <-. by apply Ok_inj in Hc as <-.
Qed.

Lemma verifyCursor_same c c' : record_wf c → verifyCursor P c = Ok c' → c' = c.
Proof.
  intros Hw Hv. unfold verifyCursor in Hv. apply res_bind_Ok in Hv as (v & Hv1 & Hv).
  apply (validate_record_spec _ _ processing_limits_valid runCursorSchema_proper) in Hv1 as [_ ->]; [|done].
  change (nrm c) with c in Hv. apply res_bind_Ok in Hv as (u1 & _ & Hv).
  apply res_bind_Ok in Hv as (u2 & _ & Hv). apply res_bind_Ok in Hv as (u3 & _ & Hv).
  apply res_bind_Ok in Hv as (h & _ & Hv). apply res_bind_Ok in Hv as (u4 & _ & Hv).
  by apply Ok_inj in Hv.
Qed.

(** An event that is exactly the persisted one. *)
Lemma exact_persisted e h :
  canonical_event e → verifyExactPersistedEvent log e h = Ok tt →
  ∃ n, BigInt (s_position e) = Ok n ∧ 1 <= n ∧ l_events log !! Z.to_nat (n - 1) = Some e.
Proof using Hlog.
  intros He Hv. pose proof (li_events _ Hlog) as Hes. unfold verifyExactPersistedEvent in Hv.
  apply res_bind_Ok in Hv as (u & _ & Hv). apply res_bind_Ok in Hv as (o & Ho & Hv).
  apply res_bind_Ok in Hv as (p & Hp & Hv). apply or_throw_Ok in Hp. subst o.
  change (get_event (l_events log) (s_position e) = Ok (Some p)) in Ho.
  destruct (BigInt (s_position e)) as [n|x] eqn:Hn;
    [|unfold get_event in Ho; rewrite Hn in Ho; discriminate Ho].
  rewrite (get_event_eq _ _ n Hes Hn) in Ho. apply Ok_inj in Ho.
  destruct (n <? 1) eqn:E1; [discriminate Ho|]. bool_prop.
  apply res_bind_Ok in Hv as (u' & _ & Hv). apply res_bind_Ok in Hv as (a & Ha & Hv).
  apply res_bind_Ok in Hv as (b & Hb & Hv). apply throw_if_Ok, negb_bool_decide_false in Hv. subst b.
  exists n. split; [done|]. split; [lia|]. rewrite Ho. f_equal.
  exact (same_text_event p e a (log_elem_canonical _ _ _ Hes Ho) He Ha Hb).
Qed.

(** ** One call *)

Lemma aggregates_of_elem cs a ck : aggregates_of cs !! a = Some ck → ∃ c, c ∈ cs ∧ ck = pc_aggregate c.
Proof.
  induction cs as [|c cs IH] using rev_ind; [done|]. rewrite aggregates_of_snoc. setoid_rewrite elem_of_app.
  intros [[_ <-]|[_ Hk]]%lookup_insert_Some; [exists c; split; [right; by left|done]|].
  destruct (IH Hk) as (c' & Hc' & ->). eauto.
Qed.

Lemma loaded_aggregate_wf s a o :
  store_inv s → loadAggregate s run a = Ok (Some o) → m_runs s !! run = Some reg → record_wf o.
Proof.
  intros Hs Ho Hr. destruct (sv_histories _ Hs _ _ Hr) as (cs & cur & Hst).
  unfold loadAggregate in Ho. apply res_bind_Ok in Ho as (u & _ & Ho).
  rewrite (rs_aggregates _ _ _ _ _ Hst) in Ho.
  destruct (aggregates_of cs !! a) as [ck|] eqn:Hck; [|discriminate Ho].
  apply aggregates_of_elem in Hck as (c & Hc & ->).
  pose proof (proj1 (Forall_forall _ _) (history_checked _ _ _ (rs_history _ _ _ _ _ Hst)) _ Hc) as Hck.
  destruct (commit_parts_canonical _ (cv_canonical _ (ck_valid _ _ Hck))) as (_ & _ & (Hw & _) & _).
  apply res_bind_Ok in Ho as (v & Hv & Ho).
  apply (validate_record_spec _ _ processing_limits_valid committedSchema_proper) in Hv
    as [_ ->]; [|done]. apply nrm_wf in Hw.
  apply res_bind_Ok in Ho as (u' & _ & Ho). apply res_bind_Ok in Ho as (w & Hcp & Ho).
  apply copy_spec in Hcp as [_ ->]; [|done]. apply Ok_inj in Ho. injection Ho as <-.
  exact (nrm_wf _ Hw).
Qed.

Lemma prepare_built s e k n previous c :
  store_inv s → m_runs s !! run = Some reg →
  record_wf previous → stored_wf e → prepare P log s e k n previous = Ok c → built P previous e c.
Proof using HP.
  intros Hs Hr Hp He Hc. unfold prepare in Hc. apply res_bind_Ok in Hc as (u1 & _ & Hc).
  apply res_bind_Ok in Hc as (u2 & _ & Hc). apply res_bind_Ok in Hc as (u3 & _ & Hc).
  apply res_bind_Ok in Hc as (a & Ha & Hc). apply (rw_route _ (po_reducer _ HP)) in Ha; [|done].
  apply res_bind_Ok in Hc as (a' & Ha' & Hc). unfold validateAggregateId in Ha'.
  apply res_bind_Ok in Ha' as (j & _ & Ha'). apply Ok_inj in Ha'. subst a'.
  apply res_bind_Ok in Hc as (o & Ho & Hc). apply res_bind_Ok in Hc as (prior & Hprior & Hc).
  assert (Hpw : record_wf prior).
  { destruct o as [o|]; [|by eapply aggregateGenesis_wf]. apply Ok_inj in Hprior as <-.
    change (loadAggregate s run a = Ok (Some o)) in Ho.
    exact (loaded_aggregate_wf _ _ _ Hs Ho Hr). }
  by eapply build_commit_built.
Qed.

(** A successful call found the event at index [k] of the log: before the end of the
    run's history, where it changed nothing, or at its end, where it committed it. *)
Definition processed (s s' : InMemoryProcessingStore) (e : StoredEvent) (cur' : RunCursor) : Prop :=
  ∃ cs cur k, run_at s cs cur ∧ l_events log !! k = Some e ∧
    ((k < length cs)%nat ∧ s' = s ∧ cur' = cur ∨
     k = length cs ∧ ∃ c, run_at s' (cs ++ [c]) cur' ∧ pc_event c = e ∧ pc_cursor c = cur').

Lemma commit_processed s cs cur c s' r :
  store_inv s → follows (l_events log) s → run_at s cs cur → record_wf c →
  canonical_event (pc_event c) → rc_runId (pc_cursor c) = run → commit log c s = (s', r) →
  store_inv s' ∧ follows (l_events log) s' ∧ m_runs s' !! run = Some reg ∧
  match r with
  | Throw _ => s' = s
  | Ok _ => processed s s' (pc_event c) (pc_cursor c)
  end.
Proof using HP Hlog.
  intros Hs Hf Hat Hw (_ & _ & He) Hrun Hc. pose proof Hat as (Hr & Hst & Hev).
  destruct (commit_cases log s c s' r Hs Hw Hc) as [[[x ->] ->]|(-> & reg' & Hp & Ha & ->)].
  { exact (conj Hs (conj Hf (conj Hr eq_refl))). }
  pose proof (ac_registered _ _ _ Ha) as Hreg'.
  change (rc_runId (pc_cursor (norm_commit c))) with (rc_runId (pc_cursor c)) in Hreg'.
  rewrite Hrun, Hr in Hreg'. injection Hreg' as <-.
  assert (Hst' : run_stored s (rc_runId (pc_cursor (norm_commit c))) reg cs cur).
  { change (rc_runId (pc_cursor (norm_commit c))) with (rc_runId (pc_cursor c)). by rewrite Hrun. }
  pose proof (accepted_event log s _ _ _ _ Hlog Hs Hp Ha Hst') as Hl.
  change (pc_event (norm_commit c)) with (norm_stored (pc_event c)) in Hl. rewrite He in Hl.
  pose proof (committed_stored s _ _ _ _ Hs Ha Hst') as Hst2.
  change (rc_runId (pc_cursor (norm_commit c))) with (rc_runId (pc_cursor c)) in Hst2. rewrite Hrun in Hst2.
  split_and!; [by apply committed_inv|by apply follows_committed|exact Hr|].
  exists cs, cur, (length cs). split; [exact Hat|]. split; [exact Hl|]. right. split; [reflexivity|].
  exists (norm_commit c). split; [|split; [exact He|reflexivity]]. split; [exact Hr|]. split; [exact Hst2|].
  rewrite map_app, length_app, Hev. cbn [map length]. rewrite Nat.add_1_r. symmetry.
  apply take_S_r. change (pc_event (norm_commit c)) with (norm_stored (pc_event c)). by rewrite He.
Qed.

Lemma process_registered st event st' r :
  processor_inv st → st_initialized st = true → stored_wf event → process P log event st = (st', r) →
  processor_inv st' ∧ st_initialized st' = true ∧
  match r with
  | Throw _ => st' = st
  | Ok cur' => processed (st_store st) (st_store st') (norm_stored event) cur'
  end.
Proof using HP Hlog.
  intros Hst Hinit Hwf Hp. pose proof Hst as [Hs Hf Hr]. specialize (Hr Hinit).
  destruct (follows_run _ Hf Hr) as (cs & cur & Hat).
  unfold process, sm_bind at 1, initialize, sm_bind at 1, sm_get in Hp. rewrite Hinit in Hp.
  unfold sm_ret at 1, sm_bind, sm_lift, sm_get in Hp.
  destruct (validateStoredEvent (stored_json event)) as [e|x] eqn:Hv; [|injection Hp as <- <-; exact (conj Hst (conj Hinit eq_refl))].
  apply validateStoredEvent_spec in Hv as [Hok ->]; [|done].
  assert (Hcan : canonical_event (norm_stored event)).
  { exact (@nrm_canonical _ StoredEvent_codec event Hwf (stored_encodable event Hok)). }
  set (e := norm_stored event) in *.
  destruct (verifyStoredEvent e None) as [[]|x]; [|injection Hp as <- <-; exact (conj Hst (conj Hinit eq_refl))].
  destruct (current_cursor P (st_store st)) as [c0|x] eqn:Hc; [|injection Hp as <- <-; exact (conj Hst (conj Hinit eq_refl))].
  destruct (current_cursor_run _ _ _ _ Hs Hat Hc) as [-> Hcw].
  destruct (verifyCursor P cur) as [c1|x] eqn:Hvc; [|injection Hp as <- <-; exact (conj Hst (conj Hinit eq_refl))].
  apply verifyCursor_same in Hvc; [|done]. subst c1.
  destruct (BigInt (s_position e)) as [k|x] eqn:Hk; [|injection Hp as <- <-; exact (conj Hst (conj Hinit eq_refl))].
  destruct (BigInt (rc_processedPosition cur)) as [n|x] eqn:Hn; [|injection Hp as <- <-; exact (conj Hst (conj Hinit eq_refl))].
  pose proof (history_cursor _ _ _ (rs_history _ _ _ _ _ (proj1 (proj2 Hat)))) as (Hpos & _).
  rewrite Hpos, BigInt_dec in Hn by lia. apply Ok_inj in Hn. subst n.
  destruct (k <=? Z.of_nat (length cs)) eqn:Hle; bool_prop.
  - destruct (verify_processed log e k cur) as [[]|x] eqn:Hvp; injection Hp as <- <-;
      [|exact (conj Hst (conj Hinit eq_refl))].
    split; [exact Hst|]. split; [exact Hinit|]. unfold verify_processed in Hvp.
    apply res_bind_Ok in Hvp as (h & _ & Hvp). apply res_bind_Ok in Hvp as ([] & Hex & _).
    destruct (exact_persisted _ _ Hcan Hex) as (n & Hn & Hn1 & Hl).
    rewrite Hk in Hn. apply Ok_inj in Hn. subst n.
    exists cs, cur, (Z.to_nat (k - 1)). split; [exact Hat|]. split; [exact Hl|]. left.
    split; [lia|]. split; reflexivity.
  - destruct (prepare P log (st_store st) e k (Z.of_nat (length cs)) cur) as [c|x] eqn:Hpr;
      [|injection Hp as <- <-; exact (conj Hst (conj Hinit eq_refl))].
    destruct (prepare_built _ _ _ _ _ _ Hs Hr Hcw (proj1 Hcan) Hpr) as [Hbw Hbe _ Hbr].
    unfold in_store in Hp. change (store_commit c) with (commit log c) in Hp.
    destruct (commit log c (st_store st)) as [s' x] eqn:Hcm. rewrite <-Hbe in Hcan.
    destruct (commit_processed _ _ _ _ _ _ Hs Hf Hat Hbw Hcan Hbr Hcm) as (I1 & I2 & I3 & I4).
    rewrite Hinit, Hbe in *. destruct x as [[]|x]; injection Hp as <- <-; cbn [st_store st_initialized].
    + split; [by split|]. split; [reflexivity|exact I4].
    + split; [by split|]. split; [reflexivity|]. rewrite I4, <-Hinit. apply state_eta.
Qed.

(** Once initialised, a processor does not register again. *)
Lemma initialize_idle st st1 :
  initialize P st = (st1, Ok tt) → st_initialized st1 = true → initialize P st1 = (st1, Ok tt).
Proof. intros _ H1. unfold initialize, sm_bind, sm_get. by rewrite H1. Qed.

Lemma process_after_initialize st st1 event :
  initialize P st = (st1, Ok tt) → st_initialized st1 = true →
  process P log event st = process P log event st1.
Proof.
  intros H1 H2. pose proof (initialize_idle _ _ H1 H2) as H3.
  unfold process. unfold sm_bind at 1. rewrite H1.
  symmetry. unfold sm_bind at 1. rewrite H3. reflexivity.
Qed.

(** ** Sequences of calls *)

Lemma process_all_app cur es es' st :
  process_all P log cur (es ++ es') st =
    sm_bind (process_all P log cur es) (λ c, process_all P log c es') st.
Proof.
  revert cur st. induction es as [|e es IH]; intros cur st; [done|]. cbn [app process_all].
  unfold sm_bind. destruct (process P log e st) as [st1 [c|x]]; [|done].
  change (process_all P log c (es ++ es') st1) with (process_all P log c (es ++ es') st1).
  rewrite IH. unfold sm_bind. done.
Qed.

Lemma run_at_unique s cs cur cs' cur' :
  run_at s cs cur → run_at s cs' cur' → cur = cur' ∧ length cs = length cs'.
Proof.
  intros (_ & [H1 C1 _ _] & _) (_ & [H2 C2 _ _] & _).
  pose proof (history_last _ _ _ H1) as L1. pose proof (history_last _ _ _ H2) as L2.
  destruct (history_cursor _ _ _ H1) as (P1 & _). destruct (history_cursor _ _ _ H2) as (P2 & _).
  assert (cur = cur') as ->.
  { rewrite C1 in C2. destruct cs as [|c cs], cs' as [|c' cs']; try discriminate C2; [|by injection C2].
    change (createGenesisRunCursor reg = Ok cur) in L1.
    change (createGenesisRunCursor reg = Ok cur') in L2. rewrite L1 in L2. by apply Ok_inj in L2. }
  split; [done|]. rewrite P1 in P2. apply dec_inj in P2; lia.
Qed.

Lemma log_index_unique es i j e :
  log_events es → es !! i = Some e → es !! j = Some e → i = j.
Proof.
  intros Hes Hi Hj. pose proof (log_position _ _ _ Hes Hi) as H1.
  pose proof (log_position _ _ _ Hes Hj) as H2. rewrite H1 in H2. apply dec_inj in H2; lia.
Qed.

(** The next event of the log commits, or the call throws. *)
Lemma process_next st cs cur e st' r :
  processor_inv st → st_initialized st = true → run_at (st_store st) cs cur →
  l_events log !! length cs = Some e → process P log e st = (st', r) →
  processor_inv st' ∧ st_initialized st' = true ∧
  match r with
  | Throw _ => True
  | Ok cur' => ∃ cs', run_at (st_store st') cs' cur' ∧ length cs' = S (length cs)
  end.
Proof using HP Hlog.
  intros Hst Hinit Hat Hl Hp. pose proof (li_events _ Hlog) as Hes.
  pose proof (log_elem_canonical _ _ _ Hes Hl) as (Hw & _ & He).
  destruct (process_registered st e st' r Hst Hinit Hw Hp) as (H1 & H2 & H3).
  split; [exact H1|]. split; [exact H2|]. destruct r as [cur'|x]; [|exact I].
  destruct H3 as (cs0 & cur0 & k & Hat0 & Hk & Hcase). rewrite He in Hk.
  destruct (run_at_unique _ _ _ _ _ Hat Hat0) as [_ Hlen].
  pose proof (log_index_unique _ _ _ _ Hes Hl Hk) as E.
  destruct Hcase as [(Hlt & _)|(_ & c & Hat' & _)]; [lia|].
  exists (cs0 ++ [c]). split; [exact Hat'|]. rewrite length_app. cbn [length]. lia.
Qed.

Lemma process_many m st cs cur st' r :
  processor_inv st → st_initialized st = true → run_at (st_store st) cs cur →
  process_all P log cur (take m (drop (length cs) (l_events log))) st = (st', r) →
  processor_inv st' ∧ st_initialized st' = true ∧
  match r with
  | Throw _ => True
  | Ok cur' => ∃ cs', run_at (st_store st') cs' cur' ∧
      length cs' = (length cs + length (take m (drop (length cs) (l_events log))))%nat
  end.
Proof using HP Hlog.
  revert st cs cur. induction m as [|m IH]; intros st cs cur Hst Hinit Hat Hp.
  { rewrite take_0 in *. cbn [process_all] in Hp. injection Hp as <- <-. split; [exact Hst|].
    split; [exact Hinit|]. exists cs. split; [exact Hat|]. cbn [length]. lia. }
  destruct (drop (length cs) (l_events log)) as [|e rest] eqn:Hd.
  { cbn [take process_all] in Hp. injection Hp as <- <-. split; [exact Hst|].
    split; [exact Hinit|]. exists cs. split; [exact Hat|]. cbn [length take]. lia. }
  assert (Hl : l_events log !! length cs = Some e)
    by (rewrite <-(Nat.add_0_r (length cs)), <-lookup_drop, Hd; reflexivity).
  assert (Hrest : rest = drop (S (length cs)) (l_events log))
    by (rewrite <-Nat.add_1_r, <-drop_drop, Hd; reflexivity).
  cbn [take process_all] in Hp. unfold sm_bind in Hp.
  destruct (process P log e st) as [st1 [c|x]] eqn:Hp1.
  - destruct (process_next st cs cur e st1 _ Hst Hinit Hat Hl Hp1) as (I1 & I2 & cs1 & Hat1 & Hlen).
    rewrite Hrest, <-Hlen in Hp. destruct (IH st1 cs1 c I1 I2 Hat1 Hp) as (J1 & J2 & J3).
    split; [exact J1|]. split; [exact J2|]. destruct r as [c'|x]; [|exact I].
    destruct J3 as (cs2 & Hat2 & Hlen2). exists cs2. split; [exact Hat2|].
    rewrite Hlen2, Hlen, Hrest. cbn [take length]. lia.
  - injection Hp as <- <-. destruct (process_next st cs cur e st1 _ Hst Hinit Hat Hl Hp1) as (I1 & I2 & _).
    done.
Qed.

(** ** [processAvailable] *)

Lemma run_at_bound s cs cur : run_at s cs cur → (length cs <= length (l_events log))%nat.
Proof.
  intros (_ & _ & He). apply (f_equal length) in He. rewrite length_map, length_take in He. lia.
Qed.

Lemma available_loop_fold pageSize n fuel st cs cur :
  assertPageLimit pageSize = Ok n → processor_inv st → st_initialized st = true →
  run_at (st_store st) cs cur → (length (l_events log) - length cs < fuel)%nat →
  available_loop P log fuel pageSize cur st =
    process_all P log cur (drop (length cs) (l_events log)) st.
Proof using HP Hlog.
  intros Hlimit. pose proof (page_limit_pos _ _ Hlimit) as Hn.
  revert st cs cur. induction fuel as [|fuel IH]; intros st cs cur Hst Hinit Hat Hfuel; [lia|].
  cbn [available_loop]. unfold sm_bind at 1, sm_lift.
  destruct (history_cursor _ _ _ (rs_history _ _ _ _ _ (proj1 (proj2 Hat)))) as (Hpos & _).
  change (log_readAfter log ?p pageSize) with (read_after (l_events log) p pageSize).
  rewrite Hpos, (read_after_eq _ _ _ _ (li_events _ Hlog) Hlimit).
  set (m := Z.to_nat n). set (k := length cs) in *.
  assert (Hsplit : drop k (l_events log) = take m (drop k (l_events log)) ++ drop (k + m) (l_events log)).
  { rewrite <-drop_drop. symmetry. apply take_drop. }
  rewrite Hsplit, process_all_app. unfold page_after at 1. cbn [pg_events].
  unfold sm_bind. destruct (process_all P log cur (take m (drop k (l_events log))) st) as [st1 [c|x]] eqn:Hp;
    [|reflexivity].
  destruct (process_many m st cs cur st1 _ Hst Hinit Hat Hp) as (I1 & I2 & cs1 & Hat1 & Hlen).
  fold k in Hlen. unfold page_after. cbn [pg_hasMore]. rewrite <-Hlen.
  rewrite length_take, length_drop in Hlen. case_bool_decide as Hmore.
  - rewrite (IH st1 cs1 c I1 I2 Hat1) by lia. do 2 f_equal. lia.
  - rewrite drop_ge by lia. reflexivity.
Qed.
End runs.
