(* ===== verification/ProcessorClaims.v ===== *)
(** * What the processor guarantees

    Stated for the in-memory log and store and for every reducer whose results
    are JavaScript values, whether or not it throws. *)
From S2P Require Import Prelude JsString JsNumber Json JsonLimits JsonParse JsonClaims Hash Zod.
From S2P Require Import JsonObject Clock Event EventFacts EventChain EventLog EventLogFacts Codec Run.
From S2P Require Import Processing Commit ProcessingStore Processor CommitFacts.
From S2P Require Import StoreFacts StoreInvariant RunLog ProcessorFacts ProcessorRuns.
From S2P Require Import Fixture StoreClaims.

(** ** One call *)

Section processor.
Context `{Sha256} `{Zod}.

(** The methods over the in-memory store that reads the log. *)
Definition process_in (P : DeterministicProcessor) (log : InMemoryEventLog) (event : StoredEvent) :
    sm (ProcessorState InMemoryProcessingStore) RunCursor :=
  let _ := InMemoryProcessingStore_ProcessingStore log in process P log event.

Definition processAvailable_in (P : DeterministicProcessor) (log : InMemoryEventLog) (fuel : nat)
    (pageSize : jsnum) : sm (ProcessorState InMemoryProcessingStore) RunCursor :=
  let _ := InMemoryProcessingStore_ProcessingStore log in processAvailable P log fuel pageSize.

(** The specification of [processAvailable]: every event after the cursor, one by one. *)
Definition process_remaining (P : DeterministicProcessor) (log : InMemoryEventLog) :
    sm (ProcessorState InMemoryProcessingStore) RunCursor :=
  let _ := InMemoryProcessingStore_ProcessingStore log in
  sm! _ := initialize P in
  sm! st := sm_get in
  sm! cursor := sm_lift (current_cursor P (st_store st)) in
  sm! n := sm_lift (BigInt (rc_processedPosition cursor)) in
  process_all P log cursor (drop (Z.to_nat n) (l_events log)).

Lemma process_in_cases P log st event st' r :
  processor_ok P → log_inv log → processor_inv P log st → stored_wf event →
  process_in P log event st = (st', r) →
  processor_inv P log st' ∧ ∃ s1, quiet P (st_store st) s1 ∧
  match r with
  | Throw _ => st_store st' = s1
  | Ok cur => processed P log s1 (st_store st') (norm_stored event) cur
  end.
Proof.
  intros HP Hlog Hst Hw Hp. unfold process_in in Hp.
  destruct (@initialize P _ (InMemoryProcessingStore_ProcessingStore log) st) as [st1 [[]|x]] eqn:Hi.
  - destruct (initialize_cases P HP log st st1 _ Hst Hi) as (H1 & H2 & H3 & H4).
    assert (E : process_in P log event st = process_in P log event st1)
      by (by apply (process_after_initialize P log)).
    unfold process_in in E. rewrite E in Hp.
    destruct (process_registered P HP log Hlog st1 event st' r H1 H3 Hw Hp) as (I1 & I2 & I3).
    split; [exact I1|]. exists (st_store st1). split; [exact H2|].
    destruct r as [cur|x]; [exact I3|by rewrite I3].
  - destruct (initialize_cases P HP log st st1 _ Hst Hi) as (H1 & H2 & ->).
    assert (E : process_in P log event st = (st, Throw x)).
    { unfold process_in, process. unfold sm_bind at 1. by rewrite Hi. }
    unfold process_in in E. rewrite E in Hp. injection Hp as <- <-. split; [exact Hst|].
    exists (st_store st). split; [by left|reflexivity].
Qed.

(** After [initialize] the run's cursor is the position after its history. *)
Lemma remaining_registered P log st cs cur :
  processor_inv P log st → st_initialized st = true → run_at P log (st_store st) cs cur →
  process_remaining P log st =
    match current_cursor (H2 := InMemoryProcessingStore_ProcessingStore log) P (st_store st) with
    | Ok _ => process_all P log (H2 := InMemoryProcessingStore_ProcessingStore log) cur
        (drop (length cs) (l_events log)) st
    | Throw x => (st, Throw x)
    end.
Proof.
  intros Hst Hinit Hat. unfold process_remaining, sm_bind at 1, initialize, sm_bind at 1, sm_get.
  rewrite Hinit. unfold sm_ret, sm_bind, sm_lift.
  destruct (current_cursor P (st_store st)) as [c|x] eqn:Hc; [|reflexivity].
  destruct (current_cursor_run P log _ _ _ _ (pi_store _ _ _ Hst) Hat Hc) as [-> _].
  destruct (history_cursor _ _ _ (rs_history _ _ _ _ _ (proj1 (proj2 Hat)))) as (Hpos & _).
  rewrite Hpos, BigInt_dec by lia. by rewrite Nat2Z.id.
Qed.

Lemma available_bind P log fuel pageSize n st :
  assertPageLimit pageSize = Ok n →
  let _ := InMemoryProcessingStore_ProcessingStore log in
  processAvailable_in P log fuel pageSize st =
    (sm! _ := initialize P in
     sm! st := sm_get in
     sm! cursor := sm_lift (current_cursor P (st_store st)) in
     available_loop P log fuel pageSize cursor) st.
Proof.
  intros Hn. unfold processAvailable_in, processAvailable. unfold sm_bind at 1. unfold sm_lift at 1.
  by rewrite Hn.
Qed.

Lemma available_registered P log pageSize n fuel st cs cur :
  processor_ok P → log_inv log → assertPageLimit pageSize = Ok n →
  (length (l_events log) < fuel)%nat → processor_inv P log st → st_initialized st = true →
  run_at P log (st_store st) cs cur →
  processAvailable_in P log fuel pageSize st = process_remaining P log st.
Proof.
  intros HP Hlog Hlimit Hfuel Hst Hinit Hat.
  rewrite (remaining_registered P log st cs cur Hst Hinit Hat).
  rewrite (available_bind P log fuel pageSize n _ Hlimit). unfold sm_bind at 1, initialize, sm_bind at 1, sm_get. rewrite Hinit. unfold sm_ret, sm_bind, sm_lift.
  destruct (current_cursor P (st_store st)) as [c|x] eqn:Hc; [|reflexivity].
  destruct (current_cursor_run P log _ _ _ _ (pi_store _ _ _ Hst) Hat Hc) as [-> _].
  apply (available_loop_fold P HP log Hlog pageSize n fuel st cs cur Hlimit Hst Hinit Hat). lia.
Qed.

Lemma run_of_registered P log st :
  processor_inv P log st → m_runs (st_store st) !! rm_runId (rr_manifest (dp_registration P)) =
    Some (dp_registration P) → ∃ cs cur, run_at P log (st_store st) cs cur.
Proof. intros Hst. apply follows_run. apply Hst. Qed.

(** Before the first call and after it the methods do the same. *)
Lemma after_initialize P log st st1 :
  @initialize P _ (InMemoryProcessingStore_ProcessingStore log) st = (st1, Ok tt) →
  st_initialized st1 = true →
  process_remaining P log st = process_remaining P log st1 ∧
  ∀ fuel pageSize n, assertPageLimit pageSize = Ok n →
    processAvailable_in P log fuel pageSize st = processAvailable_in P log fuel pageSize st1.
Proof.
  intros H1 H2. pose proof (initialize_idle P log _ _ H1 H2) as H3.
  unfold memory_store in H3. split.
  - unfold process_remaining. unfold sm_bind at 1. rewrite H1. symmetry. unfold sm_bind at 1.
    by rewrite H3.
  - intros fuel pageSize n Hn. rewrite !(available_bind P log fuel pageSize n _ Hn).
    unfold sm_bind at 1. rewrite H1. symmetry. unfold sm_bind at 1. by rewrite H3.
Qed.

Lemma initialize_throws P log st st1 x :
  @initialize P _ (InMemoryProcessingStore_ProcessingStore log) st = (st1, Throw x) →
  process_remaining P log st = (st1, Throw x) ∧
  ∀ fuel pageSize n, assertPageLimit pageSize = Ok n →
    processAvailable_in P log fuel pageSize st = (st1, Throw x).
Proof.
  intros H1. split.
  - unfold process_remaining. unfold sm_bind at 1. by rewrite H1.
  - intros fuel pageSize n Hn. rewrite (available_bind P log fuel pageSize n _ Hn).
    unfold sm_bind at 1. by rewrite H1.
Qed.

Lemma available_eq P log pageSize n fuel st :
  processor_ok P → log_inv log → assertPageLimit pageSize = Ok n →
  (length (l_events log) < fuel)%nat → processor_inv P log st →
  processAvailable_in P log fuel pageSize st = process_remaining P log st.
Proof.
  intros HP Hlog Hlimit Hfuel Hst.
  destruct (@initialize P _ (InMemoryProcessingStore_ProcessingStore log) st) as [st1 [[]|x]] eqn:Hi.
  - destruct (initialize_cases P HP log st st1 _ Hst Hi) as (H1 & _ & H3 & H4).
    destruct (after_initialize P log st st1 Hi H3) as [-> Ha]. rewrite (Ha fuel pageSize n Hlimit).
    destruct (run_of_registered P log st1 H1 H4) as (cs & cur & Hat). by eapply available_registered.
  - destruct (initialize_throws P log st st1 x Hi) as [-> Ha]. by rewrite (Ha fuel pageSize n Hlimit).
Qed.

Lemma remaining_cases P log st st' r :
  processor_ok P → log_inv log → processor_inv P log st → process_remaining P log st = (st', r) →
  processor_inv P log st' ∧
  match r with
  | Throw _ => True
  | Ok cur => ∃ cs, run_at P log (st_store st') cs cur ∧ map pc_event cs = l_events log
  end.
Proof.
  intros HP Hlog Hst Hp.
  destruct (@initialize P _ (InMemoryProcessingStore_ProcessingStore log) st) as [st1 [[]|x]] eqn:Hi.
  2: { rewrite (proj1 (initialize_throws P log st st1 x Hi)) in Hp. injection Hp as <- <-.
       split; [|exact I]. apply (initialize_cases P HP log st st1 _ Hst Hi). }
  destruct (initialize_cases P HP log st st1 _ Hst Hi) as (H1 & _ & H3 & H4).
  rewrite (proj1 (after_initialize P log st st1 Hi H3)) in Hp.
  destruct (run_of_registered P log st1 H1 H4) as (cs & c & Hat).
  rewrite (remaining_registered P log st1 cs c H1 H3 Hat) in Hp.
  destruct (current_cursor P (st_store st1)) as [y|x]; [|injection Hp as <- <-; done].
  rewrite <-(firstn_all (drop (length cs) (l_events log))) in Hp.
  destruct (process_many P HP log Hlog _ st1 cs c st' _ H1 H3 Hat Hp) as (I1 & _ & I3).
  split; [exact I1|]. destruct r as [cur|x]; [|exact I]. destruct I3 as (cs' & Hat' & Hlen).
  exists cs'. split; [exact Hat'|]. destruct Hat' as (_ & _ & He). rewrite He.
  apply take_ge. pose proof (run_at_bound P log _ _ _ Hat) as Hb.
  rewrite Hlen, firstn_all, length_drop. lia.
Qed.
End processor.

(** C3: [process] is exact.  It throws and at most registers its run, or it confirms an
    event the run has already processed and changes nothing, or it commits exactly
    the next event of the log; in the last two cases the event it was given is, field
    by field, the log's event at that position. *)
Theorem process_exact `{Sha256} `{Zod} (P : DeterministicProcessor) (log : InMemoryEventLog)
    (st st' : ProcessorState InMemoryProcessingStore) (event : StoredEvent) (r : res RunCursor)
    (HP : processor_ok P) (Hlog : log_inv log) (Hst : processor_inv P log st)
    (He : stored_wf event) (Hr : process_in P log event st = (st', r)) :
  processor_inv P log st' ∧ ∃ s1, quiet P (st_store st) s1 ∧
  match r with
  | Throw _ => st_store st' = s1
  | Ok cur => processed P log s1 (st_store st') (norm_stored event) cur
  end.
Proof. exact (process_in_cases P log st event st' r HP Hlog Hst He Hr). Qed.

(** C2: [processAvailable] ends, and does what processing the events after the
    cursor one by one does, whatever the page size and even when a call throws; when
    it returns, the run has committed every event of the log. *)
Theorem process_available_complete `{Sha256} `{Zod} (P : DeterministicProcessor)
    (log : InMemoryEventLog) (st : ProcessorState InMemoryProcessingStore) (pageSize : jsnum)
    (n : Z) (fuel : nat)
    (HP : processor_ok P) (Hlog : log_inv log) (Hst : processor_inv P log st)
    (Hn : assertPageLimit pageSize = Ok n) (Hfuel : (length (l_events log) < fuel)%nat) :
  processAvailable_in P log fuel pageSize st = process_remaining P log st ∧
  ∀ st' cur, process_remaining P log st = (st', Ok cur) →
    rc_processedPosition cur = dec (Z.of_nat (length (l_events log))) ∧
    ∃ cs, run_at P log (st_store st') cs cur ∧ map pc_event cs = l_events log.
Proof.
  split; [by eapply available_eq|]. intros st' cur Hp.
  destruct (remaining_cases P log st st' _ HP Hlog Hst Hp) as (_ & cs & Hat & He).
  split; [|by exists cs].
  destruct (history_cursor _ _ _ (rs_history _ _ _ _ _ (proj1 (proj2 Hat)))) as (Hpos & _).
  by rewrite Hpos, <-He, length_map.
Qed.

(** ** The system: appends, registrations, commits and processors *)

Inductive system_op : Type :=
  | Sys_append (draft : json) (now : jsnum)
  | Sys_ensureRun (reg : RunRegistration)
  | Sys_commit (c : ProcessingCommit)
  | Sys_process (P : DeterministicProcessor) (event : StoredEvent)
  | Sys_available (P : DeterministicProcessor) (pageSize : jsnum).

Definition system_op_wf `{Sha256} (op : system_op) : Prop :=
  match op with
  | Sys_append draft _ => json_wf draft
  | Sys_ensureRun reg => record_wf reg
  | Sys_commit c => record_wf c
  | Sys_process P event => processor_ok P ∧ stored_wf event
  | Sys_available P _ => processor_ok P
  end.

(** A processor that has not been used yet. *)
Definition fresh (s : InMemoryProcessingStore) : ProcessorState InMemoryProcessingStore :=
  {| st_initialized := false; st_store := s |}.

Section system.
Context `{Sha256} `{Zod}.

Definition run_system_op (system : InMemoryEventLog * InMemoryProcessingStore) (op : system_op) :
    InMemoryEventLog * InMemoryProcessingStore :=
  let (log, s) := system in
  match op with
  | Sys_append draft now => ((append draft now log).1, s)
  | Sys_ensureRun reg => (log, (ensureRun reg s).1)
  | Sys_commit c => (log, (commit log c s).1)
  | Sys_process P event => (log, st_store (process_in P log event (fresh s)).1)
  | Sys_available P pageSize =>
      (log, st_store (processAvailable_in P log (S (length (l_events log))) pageSize (fresh s)).1)
  end.

Definition system_inv (system : InMemoryEventLog * InMemoryProcessingStore) : Prop :=
  log_inv system.1 ∧ store_inv system.2 ∧ follows (l_events system.1) system.2.

Lemma fresh_inv P log s : store_inv s → follows (l_events log) s → processor_inv P log (fresh s).
Proof. by split. Qed.

Lemma run_system_op_inv system op :
  system_inv system → system_op_wf op → system_inv (run_system_op system op).
Proof.
  destruct system as [log s]. intros (Hlog & Hs & Hf) Hop. cbn [fst snd] in *.
  destruct op as [draft now|reg|c|P event|P pageSize]; cbn [run_system_op system_op_wf] in *.
  - destruct (append draft now log) as [log' r] eqn:E.
    destruct (append_step _ _ _ _ _ Hop Hlog E) as [Hlog' Hout].
    split; [exact Hlog'|]. split; [exact Hs|]. cbn [fst snd].
    unfold append_outcome in Hout. destruct r as [[e []]|x].
    + rewrite Hout. by apply follows_app.
    + by destruct Hout as [-> _].
    + by subst.
  - destruct (ensureRun reg s) as [s' r] eqn:E. split; [exact Hlog|].
    pose proof (ensureRun_inv _ _ _ _ Hs Hop E) as Hs'. split; [exact Hs'|].
    destruct (ensureRun_cases s reg s' r Hs Hop E) as [[_ ->]|(_ & Hreg & [[-> _]|[-> Hn]])]; try exact Hf.
    by apply follows_with_run.
  - destruct (commit log c s) as [s' r] eqn:E. split; [exact Hlog|].
    pose proof (commit_inv _ _ _ _ _ Hs Hop E) as Hs'. split; [exact Hs'|].
    destruct (commit_cases log s c s' r Hs Hop E) as [[_ ->]|(_ & reg & Hp & Ha & ->)]; [exact Hf|].
    by apply follows_committed.
  - destruct Hop as [HP Hw]. destruct (process_in P log event (fresh s)) as [st' r] eqn:E.
    destruct (process_in_cases P log _ event st' r HP Hlog (fresh_inv P log s Hs Hf) Hw E) as ([I1 I2 _] & _).
    split; [exact Hlog|]. by split.
  - destruct (processAvailable_in P log (S (length (l_events log))) pageSize (fresh s)) as [st' r] eqn:E.
    assert (Hst' : processor_inv P log st').
    { destruct (assertPageLimit pageSize) as [n|x] eqn:Hn.
      - rewrite (available_eq P log pageSize n (S (length (l_events log))) _ Hop Hlog Hn ltac:(lia)
          (fresh_inv P log s Hs Hf)) in E.
        by destruct (remaining_cases P log _ st' r Hop Hlog (fresh_inv P log s Hs Hf) E).
      - unfold processAvailable_in, processAvailable in E. unfold sm_bind at 1, sm_lift at 1 in E.
        rewrite Hn in E. injection E as <- _. by apply fresh_inv. }
    destruct Hst' as [I1 I2 _]. split; [exact Hlog|]. by split.
Qed.

Definition run_system (ops : list system_op) : InMemoryEventLog * InMemoryProcessingStore :=
  foldl run_system_op (empty_log, empty_store) ops.

Lemma run_system_inv ops : Forall system_op_wf ops → system_inv (run_system ops).
Proof.
  unfold run_system. assert (Hempty : system_inv (empty_log, empty_store)).
  { split; [apply empty_log_inv|]. split; [apply empty_store_inv|apply empty_follows]. }
  revert Hempty. generalize (empty_log, empty_store) as system.
  intros system Hsys Hops. revert system Hsys.
  induction Hops as [|op ops Hop _ IH]; intros system Hsys; [exact Hsys|].
  apply IH. by apply run_system_op_inv.
Qed.
End system.

(** C1: every run follows the log.  Whatever events are appended, runs registered and
    commits attempted, by processors or directly, in whatever order and whichever of
    them throw, the commits a run has accepted carry exactly the first events of the
    log, in the log's order, without gaps or repetitions; the log and the store keep
    their invariants. *)
Theorem runs_follow_log `{Sha256} `{Zod} (ops : list system_op)
    (log : InMemoryEventLog) (s : InMemoryProcessingStore)
    (Hops : Forall system_op_wf ops) (Hrun : run_system ops = (log, s)) :
  log_inv log ∧ store_inv s ∧
  ∀ runId reg, m_runs s !! runId = Some reg →
    ∃ cs cur, run_stored s runId reg cs cur ∧ map pc_event cs = take (length cs) (l_events log) ∧
      rc_processedPosition cur = dec (Z.of_nat (length cs)) ∧ (length cs <= length (l_events log))%nat.
Proof.
  pose proof (run_system_inv ops Hops) as Hinv. rewrite Hrun in Hinv.
  destruct Hinv as (Hlog & Hs & Hf). cbn [fst snd] in *. split; [exact Hlog|]. split; [exact Hs|].
  intros runId reg Hr. destruct (Hf runId reg Hr) as (cs & cur & Hst & He). exists cs, cur.
  split; [exact Hst|]. split; [exact He|].
  split; [apply (history_cursor _ _ _ (rs_history _ _ _ _ _ Hst))|].
  apply (f_equal length) in He. rewrite length_map, length_take in He. lia.
Qed.

(** ** Witnesses: the counter on the log of two events *)

Definition demo_system_ops : list system_op :=
  [Sys_append (draft_json (demo_draft (js "a"))) (NInt 5);
   Sys_available demo_processor (NInt 1);
   Sys_append (draft_json (demo_draft (js "b"))) (NInt 7);
   Sys_process demo_processor (demo_event 1); Sys_commit demo_commit1].

Lemma demo_draft_wf r : r = js "a" ∨ r = js "b" → json_wf (draft_json (demo_draft r)).
Proof. intros [->| ->]; apply json_wfb_wf; vm_compute; reflexivity. Qed.

Lemma demo_log_inv : log_inv demo_log.
Proof.
  unfold demo_log.
  destruct (append (draft_json (demo_draft (js "a"))) (NInt 5) empty_log) as [l1 r1] eqn:E1.
  destruct (append_step _ _ _ _ _ (demo_draft_wf _ (or_introl eq_refl)) empty_log_inv E1) as [H1 _].
  cbn [fst]. destruct (append (draft_json (demo_draft (js "b"))) (NInt 7) l1) as [l2 r2] eqn:E2.
  by destruct (append_step _ _ _ _ _ (demo_draft_wf _ (or_intror eq_refl)) H1 E2) as [H2 _].
Qed.

Lemma counter_wf : reducer_wf counter.
Proof.
  split.
  - intros e a _ [= <-]. apply js_units.
  - intros v w Hv [= <-]. exact Hv.
  - intros a cfg v _ _ [= <-]. apply json_wfb_wf. vm_compute. reflexivity.
  - intros st e cx t _ _ _ Ht. cbn [r_apply counter] in Ht. unfold counter_transition in Ht.
    generalize dependent (default 0 (get_int (js "n") st) + 1). intros n Ht.
    apply res_bind_Ok in Ht as (id & Hid & Ht). apply Ok_inj in Ht. subst t.
    unfold deriveJobId in Hid. apply res_bind_Ok in Hid as (ph & _ & Hid). apply canonicalHash_hash in Hid.
    assert (Hp : json_wf (JObj [(js "n", jint n)])) by solve_fields.
    unfold drafts_of. cbn [t_state t_decisions t_jobs t_outbox map app]. split; [exact Hp|].
    repeat apply Forall_cons_2; [| |apply Forall_nil_2]; cbn [output_draft_wf].
    + split; [apply js_units|exact Hp].
    + split_and!; [by apply is_hash_units_ok|apply js_units|apply dec_units|exact Hp].
Qed.

Lemma demo_processor_ok : processor_ok demo_processor.
Proof.
  split; [exact counter_wf|]. apply (sv_runs _ demo_store0_inv (js "run")).
  vm_compute. reflexivity.
Qed.

Lemma demo_event_wf i : (i < 2)%nat → stored_wf (demo_event i).
Proof.
  intros Hi. assert (Hl : ∃ e, l_events demo_log !! i = Some e ∧ demo_event i = e).
  { destruct i as [|[|i]]; [| |lia]; eexists; split; vm_compute; reflexivity. }
  destruct Hl as (e & Hl & ->). by destruct (log_elem_canonical _ _ _ (li_events _ demo_log_inv) Hl).
Qed.

Lemma demo_fresh_inv : processor_inv demo_processor demo_log (fresh empty_store).
Proof. apply fresh_inv; [apply empty_store_inv|apply empty_follows]. Qed.

Lemma process_exact_witness :
  ∃ st' cur, process_in demo_processor demo_log (demo_event 0) (fresh empty_store) = (st', Ok cur) ∧
    processor_inv demo_processor demo_log st' ∧
    ∃ s1, quiet demo_processor empty_store s1 ∧
      processed demo_processor demo_log s1 (st_store st') (norm_stored (demo_event 0)) cur.
Proof.
  destruct (process_in demo_processor demo_log (demo_event 0) (fresh empty_store)) as [st' r] eqn:E.
  destruct (process_exact demo_processor demo_log (fresh empty_store) st' (demo_event 0) r
    demo_processor_ok demo_log_inv demo_fresh_inv (demo_event_wf 0 ltac:(lia)) E) as [H1 H2].
  assert (Hr : is_ok r = true).
  { change r with (st', r).2. rewrite <-E. vm_compute. reflexivity. }
  destruct r as [cur|x]; [|discriminate Hr]. exists st', cur. split; [reflexivity|].
  split; [exact H1|exact H2].
Defined.

Lemma process_available_complete_witness :
  processAvailable_in demo_processor demo_log 3 (NInt 1) (fresh empty_store) =
    process_remaining demo_processor demo_log (fresh empty_store).
Proof.
  apply (process_available_complete demo_processor demo_log (fresh empty_store) (NInt 1) 1 3
    demo_processor_ok demo_log_inv demo_fresh_inv eq_refl).
  assert (E : length (l_events demo_log) = 2%nat) by (vm_compute; reflexivity). rewrite E. lia.
Defined.

Lemma demo_system_ops_wf : Forall system_op_wf demo_system_ops.
Proof.
  repeat apply Forall_cons_2; [| | | | |apply Forall_nil_2]; cbn [system_op_wf].
  - apply demo_draft_wf. by left.
  - exact demo_processor_ok.
  - apply demo_draft_wf. by right.
  - split; [exact demo_processor_ok|apply demo_event_wf; lia].
  - exact demo_commit1_wf.
Qed.

Lemma runs_follow_log_witness :
  ∃ log s, run_system demo_system_ops = (log, s) ∧ log_inv log ∧ store_inv s.
Proof.
  destruct (run_system demo_system_ops) as [log s] eqn:E. exists log, s. split; [reflexivity|].
  destruct (runs_follow_log demo_system_ops log s demo_system_ops_wf E) as (H1 & H2 & _).
  split; [exact H1|exact H2].
Defined.
