(* ===== verification/Evidence.v ===== *)
(** * Provider evidence bundles ([src/providers/evidence-bundle.ts])

    A bundle names the artifacts a source observation rests on, each under a role,
    and is identified by the hash of its canonical content.  Callers hand over raw
    values; every function validates them from scratch.  The checks for proxies and
    foreign prototypes are about object graphs, not trees, and are in [JsonGraph]. *)
From S2P Require Import Prelude JsString JsNumber Json JsonLimits JsonParse JsonClaims Hash Zod.
From S2P Require Import JsonObject Event EventFacts Codec.

(** ** Errors *)

Definition BUNDLE_ERROR : string := "ProviderEvidenceBundleError".

Definition ProviderEvidenceBundleError (code message : string) : exn :=
  CodedError BUNDLE_ERROR code message.

(** [error instanceof ProviderEvidenceBundleError], and [error.code]. *)
Definition bundle_error_code (e : exn) : option string :=
  match e with
  | CodedError class code _ => if String.eqb class BUNDLE_ERROR then Some code else None
  | _ => None
  end.

Definition fail {A} (message code : string) : res A := Throw (ProviderEvidenceBundleError code message).

Definition providerBoundary {A} (operation : res A) : res A :=
  match operation with
  | Ok a => Ok a
  | Throw error =>
      match bundle_error_code error with
      | Some _ => Throw error
      | None => fail "Provider evidence bundle input is not inert bounded JSON" "invalid-input"
      end
  end.

(** ** Types *)

Record EvidenceReference : Type := { er_role : jsstring; er_artifactHash : jsstring }.

Record ProviderEvidenceBundleInput : Type := {
  bi_provider : jsstring;
  bi_source : jsstring;
  bi_recordId : jsstring;
  bi_revisionId : jsstring;
  bi_subject : jsstring;
  bi_issuerCik : jsstring;
  bi_fiscalPeriod : jsstring;
  bi_sourceKind : jsstring;
  bi_primaryArtifactHash : jsstring;
  bi_evidence : list EvidenceReference
}.

Record ProviderEvidenceBundle : Type := {
  eb_input :> ProviderEvidenceBundleInput;
  eb_evidenceBundleHash : jsstring
}.

#[export] Instance EvidenceReference_eq_dec : EqDecision EvidenceReference.
Proof. solve_decision. Defined.
#[export] Instance ProviderEvidenceBundleInput_eq_dec : EqDecision ProviderEvidenceBundleInput.
Proof. solve_decision. Defined.
#[export] Instance ProviderEvidenceBundle_eq_dec : EqDecision ProviderEvidenceBundle.
Proof. solve_decision. Defined.

(** ** Grammars *)

Definition is_lower_alnum (u : Z) : bool := ((97 <=? u) && (u <=? 122)) || is_digit u.
Definition is_role_separator (u : Z) : bool := (u =? 46) || (u =? 95) || (u =? 45).

(** The rest of a role; [word] says whether the last unit was a letter or a digit. *)
Fixpoint role_rest (word : bool) (s : jsstring) : bool :=
  match s with
  | [] => word
  | u :: s => if is_lower_alnum u then role_rest true s
              else word && is_role_separator u && role_rest false s
  end.

(** [/^[a-z0-9]+(?:[._-][a-z0-9]+)*$/u] *)
Definition ROLE (s : jsstring) : bool := role_rest false s.

(** [/^[A-Za-z0-9._:-]+$/u] *)
Definition is_identifier_unit (u : Z) : bool :=
  ((65 <=? u) && (u <=? 90)) || is_lower_alnum u || is_role_separator u || (u =? 58).
Definition DOMAIN_IDENTIFIER (s : jsstring) : bool :=
  negb (bool_decide (s = [])) && forallb is_identifier_unit s.

(** [/^\d{n}$/u] *)
Definition digits_exactly (n : Z) (s : jsstring) : bool := (js_length s =? n) && all_digits s.

(** [/^\d{4}-(?:Q[1-4]|FY)$/u] *)
Definition FISCAL_PERIOD (s : jsstring) : bool :=
  digits_exactly 4 (take 4 s) &&
  bool_decide (drop 4 s ∈ [js "-Q1"; js "-Q2"; js "-Q3"; js "-Q4"; js "-FY"]).

(** ** Fields and limits *)

Definition EVIDENCE_REFERENCE_ROLE_MAX_LENGTH : Z := 64.
Definition EVIDENCE_BUNDLE_MIN_MEMBERS : Z := 1.
Definition EVIDENCE_BUNDLE_MAX_MEMBERS : Z := 16.
Definition PROVIDER_EVIDENCE_BUNDLE_HASH_DOMAIN : jsstring := js "peas/provider-evidence-bundle/v1".

Definition INPUT_FIELDS : list jsstring :=
  [js "provider"; js "source"; js "recordId"; js "revisionId"; js "subject"; js "issuerCik";
   js "fiscalPeriod"; js "sourceKind"; js "primaryArtifactHash"; js "evidence"].
Definition BUNDLE_FIELDS : list jsstring := INPUT_FIELDS ++ [js "evidenceBundleHash"].
Definition REFERENCE_FIELDS : list jsstring := [js "role"; js "artifactHash"].

Definition REFERENCE_LIMITS : JsonLimits := {|
  maxDepth := 2; maxNodes := 3; maxArrayLength := 1; maxObjectKeys := 2; maxStringBytes := 64;
  maxCanonicalBytes := 192 |}.
Definition MEMBERS_LIMITS : JsonLimits := {|
  maxDepth := 3; maxNodes := 1 + EVIDENCE_BUNDLE_MAX_MEMBERS * 3;
  maxArrayLength := EVIDENCE_BUNDLE_MAX_MEMBERS; maxObjectKeys := 2; maxStringBytes := 64;
  maxCanonicalBytes := 4096 |}.
Definition INPUT_LIMITS : JsonLimits := {|
  maxDepth := 4; maxNodes := 64; maxArrayLength := EVIDENCE_BUNDLE_MAX_MEMBERS;
  maxObjectKeys := Z.of_nat (length INPUT_FIELDS); maxStringBytes := 512;
  maxCanonicalBytes := 16384 |}.
Definition BUNDLE_LIMITS : JsonLimits := {|
  maxDepth := 4; maxNodes := 65; maxArrayLength := EVIDENCE_BUNDLE_MAX_MEMBERS;
  maxObjectKeys := Z.of_nat (length BUNDLE_FIELDS); maxStringBytes := 512;
  maxCanonicalBytes := 16512 |}.

(** ** Checks *)

(** [assertEvidenceMemberLimit]: [nested] looks for the field [evidence]. *)
Definition assertEvidenceMemberLimit (value : json) (nested : bool) : res unit :=
  let evidence := if nested then as_obj value ≫= lookup_key (js "evidence") else Some value in
  match evidence with
  | Some (JArr l) =>
      if EVIDENCE_BUNDLE_MAX_MEMBERS <? Z.of_nat (length l)
      then fail "$.evidence exceeds the member limit" "member-limit-exceeded" else Ok tt
  | _ => Ok tt
  end.

Definition assertEvidenceRoleLimit (value : json) : res unit :=
  match as_obj value ≫= lookup_key (js "role") with
  | Some (JStr role) =>
      if EVIDENCE_REFERENCE_ROLE_MAX_LENGTH <? js_length role
      then fail "$.evidenceReference.role exceeds the length limit" "membership-invalid" else Ok tt
  | _ => Ok tt
  end.

Definition assertExactFields (value : jobject) (fields : list jsstring) : res unit :=
  if bool_decide (sort_by js_leb (fst <$> value) = sort_by js_leb fields) then Ok tt
  else fail "has unexpected or missing persisted fields" "invalid-input".

Definition asObject (value : json) : res jobject :=
  match value with JObj kvs => Ok kvs | _ => fail "must be an object" "invalid-input" end.

Definition asString (value : option json) : res jsstring :=
  match value with Some (JStr s) => Ok s | _ => fail "must be a string" "invalid-input" end.

Definition assertArtifactHash (value : jsstring) : res unit :=
  if is_hash value then Ok tt else fail "must be a lowercase SHA-256 digest" "membership-invalid".

Definition assertDomainIdentifier (value : jsstring) : res unit :=
  if (js_length value <? 1) || (512 <? js_length value) || negb (DOMAIN_IDENTIFIER value)
  then fail "must be a 1-512 character domain identifier" "identity-invalid" else Ok tt.

(** [compareReferences left right <= 0] *)
Definition reference_leb (left right : EvidenceReference) : bool :=
  if js_ltb (er_role left) (er_role right) then true
  else if js_ltb (er_role right) (er_role left) then false
  else js_leb (er_artifactHash left) (er_artifactHash right).

(** ** JSON forms *)

Definition reference_fields (r : EvidenceReference) : jobject :=
  [(js "role", JStr (er_role r)); (js "artifactHash", JStr (er_artifactHash r))].

Definition reference_of (kvs : jobject) : option EvidenceReference :=
  r ← get_str (js "role") kvs;
  a ← get_str (js "artifactHash") kvs;
  Some {| er_role := r; er_artifactHash := a |}.

Lemma reference_of_norm kvs :
  json_wf (JObj kvs) → reference_of (norm_entries kvs) = id <$> reference_of kvs.
Proof. unfold reference_of. revert kvs. codec_of_norm. Qed.

#[export] Instance EvidenceReference_codec : Codec EvidenceReference := {|
  to_fields := reference_fields; of_fields := reference_of; nrm := id;
  of_to := λ '(Build_EvidenceReference _ _), eq_refl; of_norm := reference_of_norm;
  norm_to := λ _, eq_refl |}.

Definition input_fields (i : ProviderEvidenceBundleInput) : jobject :=
  [(js "provider", JStr (bi_provider i)); (js "source", JStr (bi_source i));
   (js "recordId", JStr (bi_recordId i)); (js "revisionId", JStr (bi_revisionId i));
   (js "subject", JStr (bi_subject i)); (js "issuerCik", JStr (bi_issuerCik i));
   (js "fiscalPeriod", JStr (bi_fiscalPeriod i)); (js "sourceKind", JStr (bi_sourceKind i));
   (js "primaryArtifactHash", JStr (bi_primaryArtifactHash i));
   (js "evidence", JArr (map to_json (bi_evidence i)))].

Definition input_json (i : ProviderEvidenceBundleInput) : json := JObj (input_fields i).

(** [{ ...input, evidenceBundleHash }] *)
Definition bundle_fields (b : ProviderEvidenceBundle) : jobject :=
  input_fields b ++ [(js "evidenceBundleHash", JStr (eb_evidenceBundleHash b))].

Definition bundle_json (b : ProviderEvidenceBundle) : json := JObj (bundle_fields b).

(** [frozen(value)] on a record: the snapshot is taken, the value returned is its
    equal. *)
Definition frozen {A} (form : A → json) (value : A) : res A :=
  do! inertJsonSnapshot (form value) ;; Ok value.

(** ** Operations *)

Definition validateEvidenceReferenceInternal (value : json) : res EvidenceReference :=
  do! assertEvidenceRoleLimit value ;;
  do! assertJsonWithinLimits value REFERENCE_LIMITS ;;
  let* snapshot := inertJsonSnapshot value in
  let* reference := asObject snapshot in
  do! assertExactFields reference REFERENCE_FIELDS ;;
  let* role := asString (lookup_key (js "role") reference) in
  let* artifactHash := asString (lookup_key (js "artifactHash") reference) in
  if (js_length role <? 1) || (EVIDENCE_REFERENCE_ROLE_MAX_LENGTH <? js_length role) ||
     negb (ROLE role)
  then fail "$.evidenceReference.role must use the provider-neutral ASCII role grammar"
    "membership-invalid"
  else
    do! assertArtifactHash artifactHash ;;
    frozen to_json {| er_role := role; er_artifactHash := artifactHash |}.

Definition validateEvidenceReference (value : json) : res EvidenceReference :=
  providerBoundary (validateEvidenceReferenceInternal value).

(** The loop over the sorted members. *)
Definition check_digest (digests : gset jsstring) (reference : EvidenceReference) :
    res (gset jsstring) :=
  if bool_decide (er_artifactHash reference ∈ digests)
  then fail "$.evidence cannot assign one artifact digest to multiple roles or members"
    "membership-invalid"
  else Ok ({[er_artifactHash reference]} ∪ digests).

Definition canonicalizeEvidenceReferences (value : json) : res (list EvidenceReference) :=
  providerBoundary (
    do! assertEvidenceMemberLimit value false ;;
    do! assertJsonWithinLimits value MEMBERS_LIMITS ;;
    let* members := inertJsonSnapshot value in
    match members with
    | JArr members =>
        if Z.of_nat (length members) <? EVIDENCE_BUNDLE_MIN_MEMBERS
        then fail "$.evidence cannot be empty" "membership-invalid"
        else
          let* references := res_map validateEvidenceReferenceInternal members in
          let canonical := sort_by reference_leb references in
          do! res_fold check_digest ∅ canonical ;;
          frozen (λ l, JArr (map to_json l)) canonical
    | _ => fail "$.evidence must be an array" "membership-invalid"
    end).

Definition validateInput (value : json) : res ProviderEvidenceBundleInput :=
  do! assertEvidenceMemberLimit value true ;;
  do! assertJsonWithinLimits value INPUT_LIMITS ;;
  let* snapshot := inertJsonSnapshot value in
  let* input := asObject snapshot in
  do! assertExactFields input INPUT_FIELDS ;;
  let* provider := asString (lookup_key (js "provider") input) in
  let* source := asString (lookup_key (js "source") input) in
  let* recordId := asString (lookup_key (js "recordId") input) in
  let* revisionId := asString (lookup_key (js "revisionId") input) in
  let* subject := asString (lookup_key (js "subject") input) in
  let* issuerCik := asString (lookup_key (js "issuerCik") input) in
  let* fiscalPeriod := asString (lookup_key (js "fiscalPeriod") input) in
  let* sourceKind := asString (lookup_key (js "sourceKind") input) in
  let* primaryArtifactHash := asString (lookup_key (js "primaryArtifactHash") input) in
  do! res_map assertDomainIdentifier [provider; source; recordId; revisionId; subject; sourceKind] ;;
  if negb (digits_exactly 10 issuerCik)
  then fail "$.providerEvidenceBundle.issuerCik must be ten digits" "identity-invalid"
  else if negb (FISCAL_PERIOD fiscalPeriod)
  then fail "$.providerEvidenceBundle.fiscalPeriod must be a canonical fiscal period"
    "identity-invalid"
  else
    do! assertArtifactHash primaryArtifactHash ;;
    let* evidence := canonicalizeEvidenceReferences (default JNull (lookup_key (js "evidence") input)) in
    if negb (bool_decide (length (filter (λ r, er_artifactHash r = primaryArtifactHash) evidence) = 1%nat))
    then fail "$.providerEvidenceBundle.primaryArtifactHash must appear exactly once in evidence"
      "membership-invalid"
    else frozen input_json {|
      bi_provider := provider; bi_source := source; bi_recordId := recordId;
      bi_revisionId := revisionId; bi_subject := subject; bi_issuerCik := issuerCik;
      bi_fiscalPeriod := fiscalPeriod; bi_sourceKind := sourceKind;
      bi_primaryArtifactHash := primaryArtifactHash; bi_evidence := evidence |}.

Definition validateProviderEvidenceBundleInput (value : json) : res ProviderEvidenceBundleInput :=
  providerBoundary (validateInput value).

Definition providerEvidenceBundleHashPreimage (value : json) : res json :=
  providerBoundary (
    let* input := validateInput value in
    inertJsonSnapshot (input_json input)).

Section bundle.
Context `{Sha256}.

Definition computeProviderEvidenceBundleHash (value : json) : res jsstring :=
  providerBoundary (
    let* preimage := providerEvidenceBundleHashPreimage value in
    canonicalHash PROVIDER_EVIDENCE_BUNDLE_HASH_DOMAIN preimage).

Definition createProviderEvidenceBundle (value : json) : res ProviderEvidenceBundle :=
  providerBoundary (
    let* input := validateInput value in
    let* evidenceBundleHash := computeProviderEvidenceBundleHash (input_json input) in
    frozen bundle_json {| eb_input := input; eb_evidenceBundleHash := evidenceBundleHash |}).

Definition validateProviderEvidenceBundle (value : json) : res ProviderEvidenceBundle :=
  providerBoundary (
    do! assertEvidenceMemberLimit value true ;;
    do! assertJsonWithinLimits value BUNDLE_LIMITS ;;
    let* snapshot := inertJsonSnapshot value in
    let* bundle := asObject snapshot in
    do! assertExactFields bundle BUNDLE_FIELDS ;;
    let* evidenceBundleHash := asString (lookup_key (js "evidenceBundleHash") bundle) in
    do! assertArtifactHash evidenceBundleHash ;;
    let input := filter (λ kv, kv.1 ≠ js "evidenceBundleHash") bundle in
    let* canonical := createProviderEvidenceBundle (JObj input) in
    if bool_decide (eb_evidenceBundleHash canonical = evidenceBundleHash) then Ok canonical
    else fail "$.providerEvidenceBundle.evidenceBundleHash does not match the canonical preimage"
      "bundle-hash-mismatch").
End bundle.
