(* ===== verification/SecContracts.v ===== *)
(** * SEC evidence contracts ([src/providers/sec/contracts.ts])

    The closed policy for bundles of SEC filings: identity, roles and how often each
    may occur, the choice of the primary exhibit, and the envelope a filing gets.
    Parsing of filings and the list of reason codes are not part of it. *)
From S2P Require Import Prelude JsString JsNumber Json JsonLimits JsonParse JsonClaims Hash Zod.
From S2P Require Import JsonObject Event EventFacts Codec Evidence.

(** ** Errors *)

Definition SEC_ERROR : string := "SecContractError".

Definition SecContractError (reasonCode message : string) : exn :=
  CodedError SEC_ERROR reasonCode message.

(** [error instanceof SecContractError], and [error.reasonCode]. *)
Definition sec_error_code (e : exn) : option string :=
  match e with
  | CodedError class code _ => if String.eqb class SEC_ERROR then Some code else None
  | _ => None
  end.

Definition contractFailure {A} (reasonCode message : string) : res A :=
  Throw (SecContractError reasonCode message).

Definition secBoundary {A} (reasonCode : string) (operation : res A) : res A :=
  match operation with
  | Ok a => Ok a
  | Throw error =>
      match sec_error_code error with
      | Some _ => Throw error
      | None => contractFailure reasonCode "SEC contract input is not inert bounded data"
      end
  end.

Definition translateProviderBundleError {A} (code : string) : res A :=
  if String.eqb code "member-limit-exceeded"
  then contractFailure "sec.member-limit-exceeded" "SEC evidence exceeds the member ceiling"
  else if String.eqb code "bundle-hash-mismatch"
  then contractFailure "sec.bundle-hash-mismatch" "SEC evidence bundle hash does not match"
  else if String.eqb code "identity-invalid"
  then contractFailure "sec.identity-mismatch" "SEC evidence bundle identity is malformed"
  else contractFailure "sec.bundle-invalid" "SEC evidence bundle is malformed".

(** ** Constants *)

Definition SEC_PROVIDER : jsstring := js "sec-edgar".
Definition SEC_NORMALIZER_SOURCE : jsstring := js "sec:normalizer-v1".
Definition SEC_REVISION_ID : jsstring := js "1".
Definition SEC_CIK_DIGITS : Z := 10.

Definition SEC_EVIDENCE_ROLES : list jsstring :=
  [js "sec.submissions"; js "sec.filing-index"; js "sec.primary-document"; js "sec.exhibit-99.1";
   js "sec.periodic-report"; js "sec.xbrl-instance"].

Inductive SecSourceKind : Type := Sec_8k | Sec_filing.

Definition sec_kind_name (k : SecSourceKind) : jsstring :=
  match k with Sec_8k => js "sec_8k" | Sec_filing => js "filing" end.

(** [isSecSourceKind], and the kind. *)
Definition sec_kind_of (s : jsstring) : option SecSourceKind :=
  find (λ k, bool_decide (sec_kind_name k = s)) [Sec_8k; Sec_filing].

Definition SEC_RECORD_ID_SUFFIXES (k : SecSourceKind) : jsstring :=
  match k with Sec_8k => js "earnings-source-v2" | Sec_filing => js "periodic-source-v2" end.

Definition SEC_REQUIRED_EVIDENCE_ROLES (k : SecSourceKind) : list jsstring :=
  match k with
  | Sec_8k => [js "sec.submissions"; js "sec.filing-index"; js "sec.primary-document";
               js "sec.exhibit-99.1"]
  | Sec_filing => [js "sec.submissions"; js "sec.filing-index"; js "sec.primary-document"]
  end.

Definition SEC_SINGLETON_EVIDENCE_ROLES : list jsstring :=
  [js "sec.submissions"; js "sec.filing-index"; js "sec.primary-document"; js "sec.xbrl-instance";
   js "sec.periodic-report"].

Definition primary_role (k : SecSourceKind) : jsstring :=
  match k with Sec_8k => js "sec.exhibit-99.1" | Sec_filing => js "sec.primary-document" end.

(** ** Grammars *)

(** [/^\d{10}-\d{2}-\d{6}$/u] *)
Definition SEC_ACCESSION_PATTERN (s : jsstring) : bool :=
  digits_exactly 10 (take 10 s) && bool_decide (take 1 (drop 10 s) = js "-") &&
  digits_exactly 2 (take 2 (drop 11 s)) && bool_decide (take 1 (drop 13 s) = js "-") &&
  digits_exactly 6 (drop 14 s).

(** [/^sec:(\d{10}-\d{2}-\d{6}):(earnings-source-v2|periodic-source-v2)$/u.exec(s)] *)
Definition record_match (s : jsstring) : option (jsstring * jsstring) :=
  let accession := take 20 (drop 4 s) in
  let suffix := drop 25 s in
  if bool_decide (take 4 s = js "sec:") && SEC_ACCESSION_PATTERN accession &&
     bool_decide (take 1 (drop 24 s) = js ":") &&
     bool_decide (suffix ∈ [js "earnings-source-v2"; js "periodic-source-v2"])
  then Some (accession, suffix) else None.

(** [value.padStart(n, "0")] *)
Definition padStart0 (n : Z) (value : jsstring) : jsstring :=
  replicate (Z.to_nat (n - js_length value)) 48 ++ value.

(** [/^\d{1,10}$/u] *)
Definition is_cik (s : jsstring) : bool :=
  (1 <=? js_length s) && (js_length s <=? 10) && all_digits s.

(** [`earnings:${issuerCik}:${fiscalPeriod}`] *)
Definition earnings_subject (issuerCik fiscalPeriod : jsstring) : jsstring :=
  js "earnings:" ++ issuerCik ++ js ":" ++ fiscalPeriod.

(** ** Identities *)

Definition canonicalizeSecSubjectCik (value : option json) : res jsstring :=
  match value with
  | Some (JStr s) =>
      if is_cik s then Ok (padStart0 SEC_CIK_DIGITS s)
      else contractFailure "sec.identity-mismatch" "SEC subject CIK must contain one through ten digits"
  | _ => contractFailure "sec.identity-mismatch" "SEC subject CIK must contain one through ten digits"
  end.

Definition validateSecAccession (value : option json) : res jsstring :=
  match value with
  | Some (JStr s) =>
      if SEC_ACCESSION_PATTERN s then Ok s
      else contractFailure "sec.identity-mismatch" "SEC accession must use the canonical 10-2-6 form"
  | _ => contractFailure "sec.identity-mismatch" "SEC accession must use the canonical 10-2-6 form"
  end.

(** [isSecSourceKind(value)], and the kind. *)
Definition isSecSourceKind (value : option json) : option SecSourceKind :=
  match value with Some (JStr s) => sec_kind_of s | _ => None end.

Definition deriveSecRecordId (accession sourceKind : option json) : res jsstring :=
  let* canonicalAccession := validateSecAccession accession in
  match isSecSourceKind sourceKind with
  | None => contractFailure "sec.identity-mismatch" "SEC source kind is not supported by PR 2B"
  | Some kind => Ok (js "sec:" ++ canonicalAccession ++ js ":" ++ SEC_RECORD_ID_SUFFIXES kind)
  end.

Definition OPTIONS_LIMITS : JsonLimits := {|
  maxDepth := 2; maxNodes := 2; maxArrayLength := 1; maxObjectKeys := 1; maxStringBytes := 64;
  maxCanonicalBytes := 128 |}.

Definition validateSecEvidenceOptions (value : option json) : res bool :=
  match value with
  | None => Ok false
  | Some value =>
      do! assertJsonWithinLimits value OPTIONS_LIMITS ;;
      let* snapshot := inertJsonSnapshot value in
      match snapshot with
      | JObj optionObject =>
          let keys := fst <$> optionObject in
          if (1 <? Z.of_nat (length keys)) ||
             ((Z.of_nat (length keys) =? 1) &&
              negb (bool_decide (keys = [js "filingRequiresXbrlInstance"])))
          then contractFailure "sec.bundle-invalid" "SEC evidence options have unexpected fields"
          else match lookup_key (js "filingRequiresXbrlInstance") optionObject with
            | None => Ok false
            | Some (JBool option) => Ok option
            | Some _ => contractFailure "sec.bundle-invalid"
                "SEC filingRequiresXbrlInstance option must be boolean"
            end
      | _ => contractFailure "sec.bundle-invalid" "SEC evidence options must be an object"
      end
  end.

(** [exactObject(value, fields, path)] *)
Definition exactObject (value : json) (fields : list jsstring) : res jobject :=
  do! assertJsonWithinLimits value {|
    maxDepth := 2; maxNodes := Z.of_nat (length fields) + 1; maxArrayLength := 1;
    maxObjectKeys := Z.of_nat (length fields); maxStringBytes := 512; maxCanonicalBytes := 2048 |} ;;
  let* snapshot := inertJsonSnapshot value in
  match snapshot with
  | JObj kvs =>
      if bool_decide (sort_by js_leb (fst <$> kvs) = sort_by js_leb fields) then Ok kvs
      else contractFailure "sec.identity-mismatch" "has unexpected or missing fields"
  | _ => contractFailure "sec.identity-mismatch" "must be an object"
  end.

(** ** Bundles *)

Definition isRole (value : jsstring) : bool := bool_decide (value ∈ SEC_EVIDENCE_ROLES).

Definition roleCount (evidence : list EvidenceReference) (role : jsstring) : Z :=
  Z.of_nat (length (filter (λ m, er_role m = role) evidence)).

Definition validateSecBundleIdentity (bundle : ProviderEvidenceBundle) : res SecSourceKind :=
  if negb (bool_decide (bi_provider bundle = SEC_PROVIDER)) ||
     negb (bool_decide (bi_source bundle = SEC_NORMALIZER_SOURCE))
  then contractFailure "sec.identity-mismatch" "SEC bundle provider or source is invalid"
  else match sec_kind_of (bi_sourceKind bundle) with
  | None => contractFailure "sec.identity-mismatch" "SEC bundle source kind is invalid"
  | Some kind =>
      if negb (bool_decide (bi_revisionId bundle = SEC_REVISION_ID))
      then contractFailure "sec.identity-mismatch" "SEC bundle revision is invalid"
      else if negb (bool_decide (bi_subject bundle =
          earnings_subject (bi_issuerCik bundle) (bi_fiscalPeriod bundle)))
      then contractFailure "sec.identity-mismatch" "SEC bundle earnings subject is invalid"
      else match record_match (bi_recordId bundle) with
      | Some (accession, suffix) =>
          if bool_decide (suffix = SEC_RECORD_ID_SUFFIXES kind)
          then do! validateSecAccession (Some (JStr accession)) ;; Ok kind
          else contractFailure "sec.identity-mismatch" "SEC bundle record identity is invalid"
      | None => contractFailure "sec.identity-mismatch" "SEC bundle record identity is invalid"
      end
  end.

(** The closed policy on roles, after the identity. *)
Definition check_sec_roles (bundle : ProviderEvidenceBundle) (kind : SecSourceKind)
    (filingRequiresXbrlInstance : bool) : res ProviderEvidenceBundle :=
  let count := roleCount (bi_evidence bundle) in
  do! res_map (λ m, if isRole (er_role m) then Ok tt
    else contractFailure "sec.bundle-invalid" "Unknown SEC evidence role") (bi_evidence bundle) ;;
  do! res_map (λ role, if 1 <? count role
    then contractFailure "sec.bundle-invalid" "SEC singleton role appears more than once"
    else Ok tt) SEC_SINGLETON_EVIDENCE_ROLES ;;
  do! res_map (λ role, if count role =? 0
    then contractFailure "sec.required-member-missing" "Required SEC role is missing"
    else Ok tt) (SEC_REQUIRED_EVIDENCE_ROLES kind) ;;
  if match kind with Sec_8k => true | Sec_filing => false end &&
     (count (js "sec.xbrl-instance") =? 0) && (count (js "sec.periodic-report") =? 0)
  then contractFailure "sec.required-member-missing" "sec_8k requires structured fiscal-focus evidence"
  else if match kind with Sec_8k => false | Sec_filing => true end && filingRequiresXbrlInstance &&
     negb (count (js "sec.xbrl-instance") =? 1)
  then contractFailure "sec.required-member-missing" "filing requires one sec.xbrl-instance"
  else match find (λ m, bool_decide (er_artifactHash m = bi_primaryArtifactHash bundle))
         (bi_evidence bundle) with
  | Some primary =>
      if bool_decide (er_role primary = primary_role kind) then Ok bundle
      else contractFailure "sec.bundle-invalid" "Primary artifact is assigned to the wrong SEC role"
  | None => contractFailure "sec.bundle-invalid" "Primary artifact is assigned to the wrong SEC role"
  end.

Section sec.
Context `{Sha256}.

(** The bundle of a value that carries its hash, or of one that does not. *)
Definition read_sec_bundle (value : json) : res ProviderEvidenceBundle :=
  match validateProviderEvidenceBundle value with
  | Ok bundle => Ok bundle
  | Throw error =>
      match bundle_error_code error with
      | None => Throw error
      | Some code =>
          if negb (String.eqb code "invalid-input") then translateProviderBundleError code
          else match createProviderEvidenceBundle value with
          | Ok bundle => Ok bundle
          | Throw inputError =>
              match bundle_error_code inputError with
              | Some code => translateProviderBundleError code
              | None => Throw inputError
              end
          end
      end
  end.

Definition validateSecEvidenceBundle (value : json) (options : option json) :
    res ProviderEvidenceBundle :=
  secBoundary "sec.bundle-invalid" (
    let* filingRequiresXbrlInstance := validateSecEvidenceOptions options in
    let* bundle := read_sec_bundle value in
    let* kind := validateSecBundleIdentity bundle in
    check_sec_roles bundle kind filingRequiresXbrlInstance).
End sec.

(** ** The primary exhibit *)

Record SecExhibitSequence : Type := { ex_artifactHash : jsstring; ex_sequence : Z }.

Definition SEQUENCES_LIMITS : JsonLimits := {|
  maxDepth := 3; maxNodes := 49; maxArrayLength := 16; maxObjectKeys := 3; maxStringBytes := 64;
  maxCanonicalBytes := 4096 |}.

(** The checks on one candidate; the keys of an inert snapshot are sorted and joined. *)
Definition read_sequence (candidate : json) : res SecExhibitSequence :=
  match candidate with
  | JObj kvs =>
      if negb (bool_decide (join (js ",") (sort_by js_leb (fst <$> kvs)) =
          js "artifactHash,role,sequence"))
      then contractFailure "sec.bundle-invalid" "EX-99.1 sequence input must have an exact inert shape"
      else match lookup_key (js "role") kvs, lookup_key (js "artifactHash") kvs,
                 lookup_key (js "sequence") kvs with
      | Some (JStr role), Some (JStr artifactHash), Some (JNum (NInt sequence)) =>
          if bool_decide (role = js "sec.exhibit-99.1") && is_hash artifactHash &&
             is_safe_integer sequence && (0 <? sequence)
          then Ok {| ex_artifactHash := artifactHash; ex_sequence := sequence |}
          else contractFailure "sec.bundle-invalid" "EX-99.1 sequence input is invalid"
      | _, _, _ => contractFailure "sec.bundle-invalid" "EX-99.1 sequence input is invalid"
      end
  | _ => contractFailure "sec.bundle-invalid" "EX-99.1 sequence input must have an exact inert shape"
  end.

Record ExhibitScan : Type := {
  xs_sequences : list Z;
  xs_artifacts : list jsstring;
  xs_selected : option SecExhibitSequence
}.

(** One turn of the loop over the candidates. *)
Definition scan_exhibit (s : ExhibitScan) (candidate : json) : res ExhibitScan :=
  let* e := read_sequence candidate in
  if bool_decide (ex_sequence e ∈ xs_sequences s) || bool_decide (ex_artifactHash e ∈ xs_artifacts s)
  then contractFailure "sec.bundle-invalid" "EX-99.1 sequences cannot tie or conflict"
  else Ok {| xs_sequences := ex_sequence e :: xs_sequences s;
             xs_artifacts := ex_artifactHash e :: xs_artifacts s;
             xs_selected := match xs_selected s with
               | None => Some e
               | Some selected =>
                   if ex_sequence e <? ex_sequence selected then Some e else Some selected
               end |}.

Definition selectSec8kPrimaryArtifact (value : json) : res jsstring :=
  secBoundary "sec.bundle-invalid" (
    do! assertJsonWithinLimits value SEQUENCES_LIMITS ;;
    let* candidates := inertJsonSnapshot value in
    match candidates with
    | JArr [] => contractFailure "sec.bundle-invalid" "At least one EX-99.1 sequence is required"
    | JArr candidates =>
        let* s := res_fold scan_exhibit
          {| xs_sequences := []; xs_artifacts := []; xs_selected := None |} candidates in
        match xs_selected s with
        | None => contractFailure "sec.bundle-invalid" "No EX-99.1 sequence was selected"
        | Some selected => Ok (ex_artifactHash selected)
        end
    | _ => contractFailure "sec.bundle-invalid" "At least one EX-99.1 sequence is required"
    end).

(** ** The envelope of a filing *)

Record SecProviderEnvelope : Type := {
  se_source : jsstring;
  se_subject : jsstring;
  se_correlationId : jsstring;
  se_causationId : jsstring;
  se_provider : ProviderIdentity
}.

Definition ENVELOPE_FIELDS : list jsstring :=
  [js "accession"; js "sourceKind"; js "subjectCik"; js "fiscalPeriod"; js "primaryArtifactHash";
   js "evidenceBundleHash"].

Definition sec_hash (value : option json) (message : string) : res jsstring :=
  match value with
  | Some (JStr s) => if is_hash s then Ok s else contractFailure "sec.identity-mismatch" message
  | _ => contractFailure "sec.identity-mismatch" message
  end.

Definition deriveSecProviderEnvelope (value : json) : res SecProviderEnvelope :=
  secBoundary "sec.identity-mismatch" (
    let* input := exactObject value ENVELOPE_FIELDS in
    let* accession := validateSecAccession (lookup_key (js "accession") input) in
    let sourceKind := lookup_key (js "sourceKind") input in
    match isSecSourceKind sourceKind with
    | None => contractFailure "sec.identity-mismatch" "SEC source kind is not supported by PR 2B"
    | Some _ =>
      let* subjectCik := canonicalizeSecSubjectCik (lookup_key (js "subjectCik") input) in
      match lookup_key (js "fiscalPeriod") input with
      | Some (JStr fiscalPeriod) =>
        if negb (FISCAL_PERIOD fiscalPeriod)
        then contractFailure "sec.identity-mismatch" "SEC fiscal period must be canonical"
        else
          let* primaryArtifactHash := sec_hash (lookup_key (js "primaryArtifactHash") input)
            "SEC primary artifact hash is invalid" in
          let* evidenceBundleHash := sec_hash (lookup_key (js "evidenceBundleHash") input)
            "SEC evidence bundle hash is invalid" in
          let subject := earnings_subject subjectCik fiscalPeriod in
          let* recordId := deriveSecRecordId (Some (JStr accession)) sourceKind in
          Ok {| se_source := SEC_NORMALIZER_SOURCE; se_subject := subject;
                se_correlationId := subject; se_causationId := evidenceBundleHash;
                se_provider := {| p_provider := SEC_PROVIDER; p_recordId := recordId;
                  p_revisionId := SEC_REVISION_ID; p_artifactHash := primaryArtifactHash |} |}
      | _ => contractFailure "sec.identity-mismatch" "SEC fiscal period must be canonical"
      end
    end).
