(* ===== verification/EvidenceFacts.v ===== *)
(** * When evidence is accepted

    Every validator of [Evidence] re-reads a raw value; here each is reduced to
    one condition on the typed value the raw one stands for. *)
From S2P Require Import Prelude JsString JsNumber Json JsonLimits JsonParse JsonClaims.
From S2P Require Import Hash Zod JsonObject Event EventFacts EventLogFacts EventLimits.
From S2P Require Import Codec Evidence SecContracts.

(** ** The order of references *)

Lemma reference_leb_lex a b : reference_leb a b = lex_le js_leb js_leb er_role er_artifactHash a b.
Proof.
  unfold reference_leb, lex_le, js_ltb, js_leb.
  rewrite (js_compare_antisym (er_role a) (er_role b)).
  by destruct (js_compare (er_role a) (er_role b)).
Qed.

Lemma reference_leb_total a b : reference_leb a b = true ∨ reference_leb b a = true.
Proof. rewrite !reference_leb_lex. apply lex_le_total; apply js_leb_total. Qed.

Lemma reference_leb_trans a b c :
  reference_leb a b = true → reference_leb b c = true → reference_leb a c = true.
Proof. rewrite !reference_leb_lex. apply lex_le_trans; apply js_leb_trans. Qed.

Lemma reference_leb_antisym a b : reference_leb a b = true → reference_leb b a = true → a = b.
Proof.
  rewrite !reference_leb_lex. intros H1 H2.
  destruct (lex_le_antisym _ _ _ _ _ _ H1 H2) as (A & B & C & D).
  destruct a as [ra ha], b as [rb hb]; cbn in *.
  by rewrite (js_leb_antisym _ _ A B), (js_leb_antisym _ _ C D).
Qed.

Lemma sort_references_perm l l' :
  l ≡ₚ l' → sort_by reference_leb l = sort_by reference_leb l'.
Proof.
  intros Hp. apply sort_by_perm_eq; [apply reference_leb_total|apply reference_leb_trans| |done].
  intros; by apply reference_leb_antisym.
Qed.

Lemma sort_references_idemp l :
  sort_by reference_leb (sort_by reference_leb l) = sort_by reference_leb l.
Proof. apply sort_references_perm, sort_by_perm. Qed.

(** ** Boundaries *)

Lemma providerBoundary_Ok {A} (r : res A) a : providerBoundary r = Ok a ↔ r = Ok a.
Proof. destruct r as [b|e]; cbn; [done|]. by destruct (bundle_error_code e). Qed.

Lemma frozen_Ok {A} (form : A → json) a b :
  json_wf (form a) → frozen form a = Ok b ↔ encodable (form a) = true ∧ b = a.
Proof.
  intros Hw. unfold frozen. rewrite res_bind_Ok. setoid_rewrite (inertJsonSnapshot_spec _ _ Hw).
  split; [by intros (w & [? _] & [= <-])|]. intros [? ->]. by eexists.
Qed.

(** ** Objects with exact fields *)

(** The entries of an object, in the order of the expected fields. *)
Definition entries_of (fields : list jsstring) (kvs : jobject) : jobject :=
  map (λ k, (k, default JNull (lookup_key k kvs))) fields.

Lemma exact_fields_perm kvs fields :
  NoDup (fst <$> kvs) → assertExactFields kvs fields = Ok tt ↔ fst <$> kvs ≡ₚ fields.
Proof.
  intros Hnd. unfold assertExactFields. case_bool_decide as E; split; intros H; try done.
  - rewrite <-(sort_by_perm js_leb (fst <$> kvs)), E. apply sort_by_perm.
  - destruct E. apply sort_by_perm_eq; [apply js_leb_total|apply js_leb_trans| |done].
    intros; by apply js_leb_antisym.
Qed.

Lemma exact_fields_entries kvs fields :
  NoDup (fst <$> kvs) → assertExactFields kvs fields = Ok tt → kvs ≡ₚ entries_of fields kvs.
Proof.
  intros Hnd Hf. apply exact_fields_perm in Hf; [|done].
  transitivity (entries_of (fst <$> kvs) kvs).
  - assert (E : ∀ l, (∀ kv, kv ∈ l → kv ∈ kvs) → entries_of (fst <$> l) kvs = l).
    { unfold entries_of. induction l as [|[k v] l IH]; intros Hl; [done|]. cbn.
      rewrite (proj2 (lookup_key_Some k v kvs Hnd)) by (apply Hl; by left). cbn.
      rewrite IH; [done|]. intros; apply Hl; by right. }
    by rewrite E.
  - unfold entries_of. change (map ?f ?l) with (f <$> l). by rewrite Hf.
Qed.

Lemma asString_Ok o s : asString o = Ok s ↔ o = Some (JStr s).
Proof. destruct o as [[]|]; cbn; naive_solver. Qed.

Lemma asObject_Ok v kvs : asObject v = Ok kvs ↔ v = JObj kvs.
Proof. destruct v; cbn; naive_solver. Qed.

Lemma assertArtifactHash_Ok h u : assertArtifactHash h = Ok u ↔ is_hash h = true.
Proof. unfold assertArtifactHash. destruct u, (is_hash h); cbn; naive_solver. Qed.

Lemma assertDomainIdentifier_Ok s u : assertDomainIdentifier s = Ok u ↔
  (js_length s <? 1) || (512 <? js_length s) || negb (DOMAIN_IDENTIFIER s) = false.
Proof. unfold assertDomainIdentifier, fail. destruct u. case_match; naive_solver. Qed.

(** What a normal form says of the value itself. *)
Lemma norm_obj_inv v kvs : norm v = JObj kvs → ∃ kvs0, v = JObj kvs0 ∧ kvs = norm_entries kvs0.
Proof. destruct v; try done. rewrite norm_obj. intros [= <-]. eauto. Qed.

Lemma norm_str_inv v s : norm v = JStr s → v = JStr s.
Proof. by destruct v. Qed.

Lemma norm_arr_inv v l : norm v = JArr l → ∃ l0, v = JArr l0 ∧ l = map norm l0.
Proof. destruct v; try done. intros [= <-]. eauto. Qed.

Lemma norm_eq_obj v kvs : norm v = norm (JObj kvs) → ∃ kvs0, v = JObj kvs0.
Proof. destruct v; try done. eauto. Qed.

Lemma same_norm_lookup k0 k1 k :
  json_wf (JObj k0) → json_wf (JObj k1) → norm (JObj k0) = norm (JObj k1) →
  norm <$> lookup_key k k0 = norm <$> lookup_key k k1.
Proof.
  intros H0 H1 E. rewrite !norm_obj in E. injection E as E.
  rewrite <-!lookup_key_norm by (by apply json_wf_nodup). by rewrite E.
Qed.

(** ** One reference *)

Definition reference_check (r : EvidenceReference) : bool :=
  json_within REFERENCE_LIMITS (to_json r) && (1 <=? js_length (er_role r)) &&
  (js_length (er_role r) <=? EVIDENCE_REFERENCE_ROLE_MAX_LENGTH) && ROLE (er_role r) &&
  is_hash (er_artifactHash r).

Definition reference_wf (r : EvidenceReference) : Prop :=
  units_ok (er_role r) ∧ units_ok (er_artifactHash r).

Lemma reference_json_wf r : json_wf (to_json r) ↔ reference_wf r.
Proof.
  unfold to_json. cbn [to_fields EvidenceReference_codec reference_fields]. rewrite json_wf_obj. split.
  - intros [_ H]. split; [apply (H (js "role", JStr (er_role r)))|
      apply (H (js "artifactHash", JStr (er_artifactHash r)))]; set_solver.
  - intros [H1 H2]. apply json_wf_obj. solve_fields; assumption.
Qed.

(** Splitting the guards of a validator. *)
Ltac guards :=
  repeat match goal with
  | H : (if ?c then fail _ _ else _) = Ok _ |- _ => destruct c eqn:?; [discriminate H|]
  | H : (if ?c then _ else fail _ _) = Ok _ |- _ => destruct c eqn:?; [|discriminate H]
  | H : asString _ = Ok _ |- _ => apply asString_Ok in H
  | H : asObject _ = Ok _ |- _ => apply asObject_Ok in H
  | H : assertArtifactHash _ = Ok _ |- _ => apply assertArtifactHash_Ok in H
  | _ => inv_res_step
  end.

Lemma members_no_limit L v b :
  json_within L v = true → maxArrayLength L = EVIDENCE_BUNDLE_MAX_MEMBERS → json_wf v →
  assertEvidenceMemberLimit v b = Ok tt.
Proof.
  intros Hl HL Hw. unfold assertEvidenceMemberLimit.
  assert (H : ∀ d l, within L d (JArr l) = true →
    (EVIDENCE_BUNDLE_MAX_MEMBERS <? Z.of_nat (length l)) = false).
  { intros d l Hd. cbn [within] in Hd. rewrite HL in Hd. bool_prop. by apply Z.ltb_ge. }
  unfold json_within in Hl. apply andb_true_iff in Hl as [[Hl _]%andb_true_iff _].
  destruct b; [|destruct v; try done; by rewrite (H _ _ Hl)].
  destruct v as [| | | | |kvs]; try done. cbn [as_obj mbind option_bind].
  destruct (lookup_key (js "evidence") kvs) as [w|] eqn:E; [|done]. destruct w; try done.
  cbn [within] in Hl. apply andb_true_iff in Hl as [_ [_ Hl]%andb_true_iff].
  apply lookup_key_elem in E. eapply forallb_elem in Hl; [|exact E]. cbn [snd] in Hl.
  by rewrite (H _ _ Hl).
Qed.

Lemma validateEvidenceReferenceInternal_spec v r :
  json_wf v → validateEvidenceReferenceInternal v = Ok r ↔
    reference_check r = true ∧ norm v = norm (to_json r).
Proof.
  intros Hw. unfold validateEvidenceReferenceInternal. split.
  - intros Hv. apply res_bind_Ok in Hv as ([] & _ & Hv). apply res_bind_Ok in Hv as (m & Hl & Hv).
    apply limits_Ok in Hl as [Hl _].
    apply res_bind_Ok in Hv as (w & Hsnap & Hv). apply inertJsonSnapshot_spec in Hsnap as [_ ->]; [|done].
    apply res_bind_Ok in Hv as (kvs' & Ho & Hv). apply asObject_Ok in Ho.
    apply norm_obj_inv in Ho as (kvs & -> & ->).
    apply res_bind_Ok in Hv as ([] & Hex & Hv).
    apply res_bind_Ok in Hv as (ro & Hro & Hv). apply asString_Ok in Hro.
    apply res_bind_Ok in Hv as (ah & Hah & Hv). apply asString_Ok in Hah. guards.
    pose proof (norm_wf _ Hw) as Hwn. rewrite norm_obj in Hwn.
    pose proof (exact_fields_entries _ _ (json_wf_nodup _ Hwn) Hex) as Hp.
    unfold entries_of in Hp. cbn [map REFERENCE_FIELDS] in Hp. rewrite Hro, Hah in Hp. cbn [default] in Hp.
    set (r' := {| er_role := ro; er_artifactHash := ah |}) in *.
    assert (Hn : norm (JObj kvs) = norm (to_json r')).
    { rewrite <-(norm_idemp (JObj kvs)), norm_obj. by apply norm_permuted. }
    assert (Hrw : json_wf (to_json r')) by (apply norm_wf_inv; rewrite <-Hn; by apply norm_wf).
    apply (frozen_Ok to_json _ _ Hrw) in Hv as [_ ->]. split; [|exact Hn].
    unfold reference_check. bool_prop.
    rewrite <-json_within_norm, <-Hn, json_within_norm, Hl.
    rewrite !(proj2 (Z.leb_le _ _)) by done. cbn [andb er_role er_artifactHash r'].
    by rewrite H0, Hv0.
  - intros [Hc Hn]. unfold reference_check in Hc. bool_prop.
    assert (Hrw : json_wf (to_json r)) by (apply norm_wf_inv; rewrite <-Hn; by apply norm_wf).
    assert (Hl : json_within REFERENCE_LIMITS v = true) by (rewrite <-json_within_norm, Hn; by rewrite json_within_norm).
    assert (Hsnap : inertJsonSnapshot v = Ok (JObj (norm_entries (to_fields r)))).
    { apply inertJsonSnapshot_spec; [done|]. split; [by eapply json_within_encodable|]. by rewrite Hn. }
    assert (Hnd : NoDup (fst <$> to_fields r)) by (by apply json_wf_nodup).
    assert (Hrole : assertEvidenceRoleLimit v = Ok tt).
    { unfold assertEvidenceRoleLimit. destruct (norm_eq_obj _ _ Hn) as [kvs ->].
      cbn [as_obj mbind option_bind].
      pose proof (same_norm_lookup _ _ (js "role") Hw Hrw Hn) as E.
      change (norm <$> lookup_key (js "role") (to_fields r)) with (Some (JStr (er_role r))) in E.
      destruct (lookup_key (js "role") kvs) as [w|]; [|done]. cbn in E. injection E as E.
      apply norm_str_inv in E as ->. by rewrite (proj2 (Z.ltb_ge _ _)). }
    rewrite Hrole. cbn [mbind res_bind]. rewrite (limits_within _ REFERENCE_LIMITS eq_refl Hl). cbn [mbind res_bind].
    rewrite Hsnap. cbn [mbind res_bind asObject].
    rewrite (proj2 (exact_fields_perm _ REFERENCE_FIELDS (json_wf_nodup _ (norm_entries_wf _ Hrw)))).
    2: { unfold norm_entries. rewrite (sort_by_perm key_le). by rewrite map_fst_norm. }
    cbn [mbind res_bind]. rewrite !lookup_key_norm by done.
    cbn [mbind res_bind asString].
    change (asString (norm <$> lookup_key (js "role") (to_fields r))) with (Ok (er_role r)).
    change (asString (norm <$> lookup_key (js "artifactHash") (to_fields r))) with (Ok (er_artifactHash r)).
    cbn [mbind res_bind]. 
    assert (Eb : (js_length (er_role r) <? 1) || (EVIDENCE_REFERENCE_ROLE_MAX_LENGTH <? js_length (er_role r)) ||
      negb (ROLE (er_role r)) = false).
    { rewrite !orb_false_iff, negb_false_iff, !Z.ltb_ge. auto. }
    rewrite Eb, (proj2 (assertArtifactHash_Ok _ tt)) by done. cbn [mbind res_bind].
    destruct r as [ro ah]. apply frozen_Ok; [exact Hrw|]. split; [by eapply json_within_encodable|done].
Qed.

(** ** The members *)

Definition members_json (l : list EvidenceReference) : json := JArr (map to_json l).

Definition members_check (l : list EvidenceReference) : bool :=
  json_within MEMBERS_LIMITS (members_json l) && (1 <=? Z.of_nat (length l)) &&
  forallb reference_check l && bool_decide (NoDup (er_artifactHash <$> l)).

Lemma check_digest_fold s l :
  (∃ s', res_fold check_digest s l = Ok s') ↔
    NoDup (er_artifactHash <$> l) ∧ ∀ r, r ∈ l → er_artifactHash r ∉ s.
Proof.
  revert s. induction l as [|r l IH]; intros s; cbn [res_fold fmap list_fmap].
  - split; [|by eexists]. intros _. split; [constructor|]. by intros r ?%elem_of_nil.
  - destruct (check_digest s r) as [s1|x] eqn:Hc; unfold check_digest in Hc; case_bool_decide as E; try discriminate Hc; cycle 1.
    + split; [intros (s' & Hs); discriminate Hs|]. intros [_ H]. by destruct (H r (list_elem_of_here _ _)).
    + apply Ok_inj in Hc as <-. cbn [mbind res_bind]. rewrite IH. rewrite NoDup_cons. split.
      * intros [Hnd Hd]. split; [split; [|done]|].
        -- intros (r' & Hr & Hin)%list_elem_of_fmap. apply (Hd r' Hin). rewrite <-Hr. set_solver.
        -- intros r' [->|Hin]%elem_of_cons; [done|]. specialize (Hd r' Hin). set_solver.
      * intros [[Hr Hnd] Hd]. split; [done|]. intros r' Hin [E'%elem_of_singleton|E']%elem_of_union.
        -- apply Hr. rewrite <-E'. by apply list_elem_of_fmap_2.
        -- apply (Hd r'); [by right|done].
Qed.

Lemma members_json_wf l : json_wf (members_json l) ↔ Forall reference_wf l.
Proof.
  unfold members_json. rewrite json_wf_arr, Forall_forall. split.
  - intros H r Hr. apply reference_json_wf, H. by apply list_elem_of_fmap_2.
  - intros H x (r & -> & Hr)%list_elem_of_fmap. by apply reference_json_wf, H.
Qed.

(** The limits see a list of members and not its order. *)
Lemma members_within_perm L d l l' :
  l ≡ₚ l' → within L d (members_json l) = within L d (members_json l').
Proof.
  intros Hp. unfold members_json. cbn [within]. f_equal.
  rewrite (forallb_perm _ _ (map to_json l')) by by rewrite Hp.
  by rewrite (Permutation_length (Permutation_map to_json Hp)).
Qed.

Lemma members_nodes_perm l l' : l ≡ₚ l' → json_nodes (members_json l) = json_nodes (members_json l').
Proof. intros Hp. unfold members_json. cbn [json_nodes]. f_equal. apply zsum_perm. by rewrite Hp. Qed.

Lemma members_bytes_perm l l' : l ≡ₚ l' → json_bytes (members_json l) = json_bytes (members_json l').
Proof.
  intros Hp. unfold members_json. cbn [json_bytes].
  by rewrite (zsum_perm _ _ _ (Permutation_map to_json Hp)), (Permutation_length (Permutation_map to_json Hp)).
Qed.

Lemma members_check_perm l l' : l ≡ₚ l' → members_check l = members_check l'.
Proof.
  intros Hp. unfold members_check, json_within.
  rewrite (members_within_perm _ _ _ _ Hp), (members_nodes_perm _ _ Hp), (members_bytes_perm _ _ Hp).
  rewrite (forallb_perm _ _ _ Hp), (Permutation_length Hp). f_equal.
  apply bool_decide_ext. by rewrite Hp.
Qed.

Lemma norm_members l k :
  norm (JArr l) = norm (members_json k) ↔ Forall2 (λ x r, norm x = norm (to_json r)) l k.
Proof.
  transitivity (map norm l = map (λ r, norm (to_json r)) k).
  - unfold members_json. cbn [norm]. change (norm <$> ?x) with (map norm x). rewrite map_map.
    split; [by intros [= ->]|by intros ->].
  - revert k. induction l as [|x l IH]; intros [|r k]; cbn [map]; split; intros H;
      first [done|by inversion H|idtac].
    + injection H as H1 H2. constructor; [done|by apply IH].
    + inversion H; subst. f_equal; [done|by apply IH].
Qed.

Lemma canonicalizeEvidenceReferences_spec v rs :
  json_wf v → canonicalizeEvidenceReferences v = Ok rs ↔
    ∃ l, norm v = norm (members_json l) ∧ members_check l = true ∧ rs = sort_by reference_leb l.
Proof.
  intros Hw. unfold canonicalizeEvidenceReferences. rewrite providerBoundary_Ok. split.
  - intros Hv. apply res_bind_Ok in Hv as ([] & _ & Hv). apply res_bind_Ok in Hv as (m & Hl & Hv).
    apply limits_Ok in Hl as [Hl _].
    apply res_bind_Ok in Hv as (w & Hsnap & Hv). apply inertJsonSnapshot_spec in Hsnap as [_ ->]; [|done].
    destruct (norm v) as [| | | |ms|] eqn:Ev; try discriminate Hv. guards.
    pose proof (norm_wf _ Hw) as Hwn. rewrite Ev, json_wf_arr in Hwn.
    rename x into l. rename Hv0 into Hm. rename Hv1 into Hdig.
    apply res_map_Ok in Hm. apply norm_arr_inv in Ev as (l0 & -> & ->).
    assert (Hf : Forall2 (λ x r, reference_check r = true ∧ norm x = norm (to_json r)) (map norm l0) l).
    { clear -Hm Hwn. induction Hm as [|x r xs rs Hx _ IH]; constructor.
      - apply validateEvidenceReferenceInternal_spec; [apply Hwn; by left|done].
      - apply IH. intros; apply Hwn; by right. }
    assert (Hn : norm (JArr l0) = norm (members_json l)).
    { rewrite <-(norm_idemp (JArr l0)). cbn [norm]. apply norm_members.
      eapply Forall2_impl; [exact Hf|]. by intros x r [_ ?]. }
    assert (Hlw : json_wf (members_json l)) by (apply norm_wf_inv; rewrite <-Hn; by apply norm_wf).
    apply (frozen_Ok (λ l, JArr (map to_json l)) (sort_by reference_leb l)) in Hv as [_ ->].
    2: { apply members_json_wf. rewrite (sort_by_perm reference_leb). by apply members_json_wf. }
    exists l. split; [exact Hn|]. split; [|done]. unfold members_check. bool_prop.
    rewrite <-json_within_norm, <-Hn, json_within_norm, Hl.
    assert (Hlen : length l = length (map norm l0)) by (symmetry; by eapply Forall2_length).
    rewrite Hlen, (proj2 (Z.leb_le _ _)) by done. cbn [andb]. apply andb_true_iff. split.
    + apply forallb_forall. intros r Hr%list_elem_of_In.
      apply list_elem_of_lookup in Hr as [i Hi]. eapply Forall2_lookup_r in Hf as (x & _ & ? & _); [done|exact Hi].
    + apply bool_decide_eq_true. assert (He' : ∃ s', res_fold check_digest ∅ (sort_by reference_leb l) = Ok s') by eauto.
      apply check_digest_fold in He' as [Hnd _]. by rewrite (sort_by_perm reference_leb) in Hnd.
  - intros (l & Hn & Hc & ->). unfold members_check in Hc. bool_prop.
    assert (Hlw : json_wf (members_json l)) by (apply norm_wf_inv; rewrite <-Hn; by apply norm_wf).
    assert (Hl : json_within MEMBERS_LIMITS v = true) by (by rewrite <-json_within_norm, Hn, json_within_norm).
    rewrite (members_no_limit _ _ _ Hl) by done. cbn [mbind res_bind].
    rewrite (limits_within _ MEMBERS_LIMITS eq_refl Hl). cbn [mbind res_bind].
    rewrite (proj2 (inertJsonSnapshot_spec _ _ Hw) (conj (json_within_encodable _ _ Hl) eq_refl)), Hn.
    cbn [mbind res_bind norm members_json]. change (norm <$> ?x) with (map norm x). rewrite !length_map.
    unfold EVIDENCE_BUNDLE_MIN_MEMBERS. rewrite (proj2 (Z.ltb_ge _ _)) by done.
    rewrite (proj2 (res_map_Ok _ _ l)).
    2: { assert (Hall : Forall (λ r, reference_check r = true ∧ reference_wf r) l).
         { apply Forall_and. split; [|by apply members_json_wf].
           apply Forall_forall. intros r Hr. by eapply forallb_elem in H1. }
         clear -Hall. induction Hall as [|r l [Hr Hrw] _ IH]; cbn [map]; constructor; [|done].
         apply validateEvidenceReferenceInternal_spec; [apply norm_wf; by apply reference_json_wf|].
         split; [done|]. apply norm_idemp. }
    cbn [mbind res_bind].
    destruct (proj2 (check_digest_fold ∅ (sort_by reference_leb l))) as [s' ->].
    { split; [by rewrite (sort_by_perm reference_leb)|]. set_solver. }
    cbn [mbind res_bind].
    apply (frozen_Ok (λ l, JArr (map to_json l)) (sort_by reference_leb l)).
    { apply members_json_wf. rewrite (sort_by_perm reference_leb). by apply members_json_wf. }
    split; [|done]. change (encodable (members_json (sort_by reference_leb l)) = true).
    apply (json_within_encodable MEMBERS_LIMITS). unfold json_within.
    rewrite (members_within_perm _ _ _ _ (sort_by_perm reference_leb l)),
      (members_nodes_perm _ _ (sort_by_perm reference_leb l)),
      (members_bytes_perm _ _ (sort_by_perm reference_leb l)). exact H.
Qed.

(** ** The input of a bundle *)

Definition identifier_check (s : jsstring) : bool :=
  negb ((js_length s <? 1) || (512 <? js_length s) || negb (DOMAIN_IDENTIFIER s)).

Definition primary_count (i : ProviderEvidenceBundleInput) (l : list EvidenceReference) : nat :=
  length (filter (λ r, er_artifactHash r = bi_primaryArtifactHash i) l).

Definition input_check (i : ProviderEvidenceBundleInput) : bool :=
  json_within INPUT_LIMITS (input_json i) &&
  forallb identifier_check [bi_provider i; bi_source i; bi_recordId i; bi_revisionId i;
    bi_subject i; bi_sourceKind i] &&
  digits_exactly 10 (bi_issuerCik i) && FISCAL_PERIOD (bi_fiscalPeriod i) &&
  is_hash (bi_primaryArtifactHash i) && members_check (bi_evidence i) &&
  bool_decide (primary_count i (bi_evidence i) = 1%nat).

Definition with_evidence (i : ProviderEvidenceBundleInput) (l : list EvidenceReference) :
    ProviderEvidenceBundleInput := {|
  bi_provider := bi_provider i; bi_source := bi_source i; bi_recordId := bi_recordId i;
  bi_revisionId := bi_revisionId i; bi_subject := bi_subject i; bi_issuerCik := bi_issuerCik i;
  bi_fiscalPeriod := bi_fiscalPeriod i; bi_sourceKind := bi_sourceKind i;
  bi_primaryArtifactHash := bi_primaryArtifactHash i; bi_evidence := l |}.

(** The input with its evidence in canonical order. *)
Definition canonical_input (i : ProviderEvidenceBundleInput) : ProviderEvidenceBundleInput :=
  with_evidence i (sort_by reference_leb (bi_evidence i)).

Lemma canonical_input_idemp i : canonical_input (canonical_input i) = canonical_input i.
Proof. unfold canonical_input, with_evidence. cbn [bi_evidence]. by rewrite sort_references_idemp. Qed.

Definition input_strings (i : ProviderEvidenceBundleInput) : list jsstring :=
  [bi_provider i; bi_source i; bi_recordId i; bi_revisionId i; bi_subject i; bi_issuerCik i;
   bi_fiscalPeriod i; bi_sourceKind i; bi_primaryArtifactHash i].

Lemma field_wf kvs k w : json_wf (JObj kvs) → lookup_key k kvs = Some w → json_wf w.
Proof. rewrite json_wf_obj. intros [_ H] Hk%lookup_key_elem. by apply H in Hk as [_ ?]. Qed.

Lemma input_json_wf i :
  json_wf (input_json i) ↔ Forall units_ok (input_strings i) ∧ Forall reference_wf (bi_evidence i).
Proof.
  rewrite <-members_json_wf. unfold input_json, input_strings. split.
  - intros H. split.
    + assert (Hs : ∀ k s, lookup_key (js k) (input_fields i) = Some (JStr s) → units_ok s)
        by (intros k s; exact (field_wf _ _ (JStr s) H)).
      repeat apply Forall_cons_2; try apply Forall_nil_2.
      * by apply (Hs "provider"%string).
      * by apply (Hs "source"%string).
      * by apply (Hs "recordId"%string).
      * by apply (Hs "revisionId"%string).
      * by apply (Hs "subject"%string).
      * by apply (Hs "issuerCik"%string).
      * by apply (Hs "fiscalPeriod"%string).
      * by apply (Hs "sourceKind"%string).
      * by apply (Hs "primaryArtifactHash"%string).
    + by apply (field_wf _ (js "evidence") _ H).
  - intros [Hs Hm]. unfold input_fields. repeat (apply Forall_cons in Hs as [? Hs]).
    solve_fields; assumption.
Qed.

(** Only the evidence is free to change its order. *)
Lemma with_evidence_wf i l :
  bi_evidence i ≡ₚ l → json_wf (input_json i) → json_wf (input_json (with_evidence i l)).
Proof.
  intros Hp. rewrite !input_json_wf. intros [H1 H2]. split; [exact H1|].
  cbn [with_evidence bi_evidence]. by rewrite <-Hp.
Qed.

Lemma within_last_field L kvs k v w :
  (∀ d, within L d v = within L d w) → json_nodes v = json_nodes w → json_bytes v = json_bytes w →
  json_within L (JObj (kvs ++ [(k, v)])) = json_within L (JObj (kvs ++ [(k, w)])).
Proof.
  intros H1 H2 H3. unfold json_within. cbn [within json_nodes json_bytes].
  rewrite !zsum_app, !forallb_app, !length_app. unfold entries_supported. rewrite !forallb_app, !length_app.
  cbn [forallb fst snd length zsum foldr]. by rewrite H1, H2, H3.
Qed.

Lemma input_within_perm L i l :
  bi_evidence i ≡ₚ l → json_within L (input_json (with_evidence i l)) = json_within L (input_json i).
Proof.
  intros Hp. unfold input_json.
  apply (within_last_field L (take 9 (input_fields i)) (js "evidence") (members_json l)
    (members_json (bi_evidence i))).
  - intros d. symmetry. by apply members_within_perm.
  - symmetry. by apply members_nodes_perm.
  - symmetry. by apply members_bytes_perm.
Qed.

Lemma input_check_perm i l :
  bi_evidence i ≡ₚ l → input_check (with_evidence i l) = input_check i.
Proof.
  intros Hp. unfold input_check, primary_count. rewrite (input_within_perm _ _ _ Hp).
  cbn [with_evidence bi_provider bi_source bi_recordId bi_revisionId bi_subject bi_issuerCik
    bi_fiscalPeriod bi_sourceKind bi_primaryArtifactHash bi_evidence].
  rewrite (members_check_perm _ _ Hp). f_equal. apply bool_decide_ext. by rewrite Hp.
Qed.

Lemma canonical_input_check i : input_check (canonical_input i) = input_check i.
Proof. apply input_check_perm. symmetry. apply sort_by_perm. Qed.

Lemma canonical_input_wf i : json_wf (input_json i) → json_wf (input_json (canonical_input i)).
Proof. apply with_evidence_wf. symmetry. apply sort_by_perm. Qed.

Lemma identifiers_Ok l us :
  res_map assertDomainIdentifier l = Ok us → forallb identifier_check l = true.
Proof.
  intros H. apply res_map_Ok in H. induction H as [|s u l us Hs _ IH]; [done|]. cbn.
  rewrite IH, andb_true_r. unfold identifier_check. by apply assertDomainIdentifier_Ok in Hs as ->.
Qed.

Lemma identifiers_checked l :
  forallb identifier_check l = true → ∃ us, res_map assertDomainIdentifier l = Ok us.
Proof.
  induction l as [|s l IH]; cbn; [eauto|]. intros [Hs Hl]%andb_true_iff.
  destruct (IH Hl) as [us ->]. unfold identifier_check in Hs.
  apply negb_true_iff in Hs. rewrite (proj2 (assertDomainIdentifier_Ok s tt) Hs). cbn. eauto.
Qed.

Lemma validateInput_inv v i :
  json_wf v → validateInput v = Ok i →
  ∃ j, norm v = norm (input_json j) ∧ input_check j = true ∧ i = canonical_input j.
Proof.
  intros Hw Hv. unfold validateInput in Hv.
  apply res_bind_Ok in Hv as ([] & _ & Hv). apply res_bind_Ok in Hv as (m & Hl & Hv).
  apply limits_Ok in Hl as [Hl _].
  apply res_bind_Ok in Hv as (w & Hsnap & Hv). apply inertJsonSnapshot_spec in Hsnap as [_ ->]; [|done].
  apply res_bind_Ok in Hv as (kvs' & Ho & Hv). apply asObject_Ok in Ho.
  apply norm_obj_inv in Ho as (kvs & -> & ->).
  apply res_bind_Ok in Hv as ([] & Hex & Hv).
  apply res_bind_Ok in Hv as (s1 & E1 & Hv). apply res_bind_Ok in Hv as (s2 & E2 & Hv).
  apply res_bind_Ok in Hv as (s3 & E3 & Hv). apply res_bind_Ok in Hv as (s4 & E4 & Hv).
  apply res_bind_Ok in Hv as (s5 & E5 & Hv). apply res_bind_Ok in Hv as (s6 & E6 & Hv).
  apply res_bind_Ok in Hv as (s7 & E7 & Hv). apply res_bind_Ok in Hv as (s8 & E8 & Hv).
  apply res_bind_Ok in Hv as (s9 & E9 & Hv). apply res_bind_Ok in Hv as (us & Hids & Hv).
  apply identifiers_Ok in Hids. apply asString_Ok in E1, E2, E3, E4, E5, E6, E7, E8, E9.
  destruct (digits_exactly 10 s6) eqn:Hcik; [|discriminate Hv].
  destruct (FISCAL_PERIOD s7) eqn:Hper; [|discriminate Hv]. cbn [negb] in Hv.
  apply res_bind_Ok in Hv as (u & Hprim & Hv). apply assertArtifactHash_Ok in Hprim.
  apply res_bind_Ok in Hv as (rs & Hev & Hv).
  pose proof (norm_wf _ Hw) as Hwn. rewrite norm_obj in Hwn.
  pose proof (exact_fields_entries _ _ (json_wf_nodup _ Hwn) Hex) as Hp.
  unfold entries_of in Hp. cbn [map INPUT_FIELDS] in Hp.
  rewrite E1, E2, E3, E4, E5, E6, E7, E8, E9 in Hp. cbn [default] in Hp.
  set (e := default JNull (lookup_key (js "evidence") (norm_entries kvs))) in *.
  assert (He : json_wf e).
  { subst e. destruct (lookup_key (js "evidence") (norm_entries kvs)) as [e|] eqn:E; [|done].
    by apply (field_wf _ _ _ Hwn E). }
  apply canonicalizeEvidenceReferences_spec in Hev as (l & Hn & Hc & ->); [|exact He].
  destruct (bool_decide _) eqn:Hcount in Hv; [|discriminate Hv]. cbn [negb] in Hv.
  set (j := {| bi_provider := s1; bi_source := s2; bi_recordId := s3; bi_revisionId := s4;
    bi_subject := s5; bi_issuerCik := s6; bi_fiscalPeriod := s7; bi_sourceKind := s8;
    bi_primaryArtifactHash := s9; bi_evidence := l |}).
  assert (Hnj : norm (JObj kvs) = norm (input_json j)).
  { rewrite <-(norm_idemp (JObj kvs)), norm_obj. eapply norm_entries_agree; [exact Hwn|exact Hp|].
    repeat apply Forall2_cons_2; try apply Forall2_nil_2; (split; [reflexivity|]); try reflexivity.
    exact Hn. }
  assert (Hjw : json_wf (input_json j)) by (apply norm_wf_inv; rewrite <-Hnj; by apply norm_wf).
  exists j. split; [exact Hnj|].
  change (frozen input_json (canonical_input j) = Ok i) in Hv.
  apply frozen_Ok in Hv as [_ ->]; [|by apply canonical_input_wf]. split; [|reflexivity].
  unfold input_check, primary_count. rewrite <-json_within_norm, <-Hnj, json_within_norm, Hl.
  cbn [bi_provider bi_source bi_recordId bi_revisionId bi_subject bi_issuerCik bi_fiscalPeriod
    bi_sourceKind bi_primaryArtifactHash bi_evidence j].
  rewrite Hids, Hcik, Hper, Hprim, Hc. cbn [andb]. bool_prop. apply bool_decide_eq_true.
  rewrite <-Hcount. by rewrite (sort_by_perm reference_leb l).
Qed.

Lemma validateInput_checked v j :
  json_wf v → norm v = norm (input_json j) → input_check j = true →
  validateInput v = Ok (canonical_input j).
Proof.
  intros Hw Hn Hj. pose proof Hj as Hj'. unfold input_check in Hj'.
  do 6 (apply andb_true_iff in Hj' as [Hj' ?]).
  assert (Hjw : json_wf (input_json j)) by (apply norm_wf_inv; rewrite <-Hn; by apply norm_wf).
  assert (Hl : json_within INPUT_LIMITS v = true)
    by (rewrite <-json_within_norm, Hn, json_within_norm; exact Hj').
  assert (Hnd : NoDup (fst <$> input_fields j)) by (by apply json_wf_nodup).
  unfold validateInput. rewrite (members_no_limit _ _ _ Hl) by done. cbn [mbind res_bind].
  rewrite (limits_within _ INPUT_LIMITS eq_refl Hl). cbn [mbind res_bind].
  rewrite (proj2 (inertJsonSnapshot_spec _ _ Hw) (conj (json_within_encodable _ _ Hl) eq_refl)), Hn.
  unfold input_json. rewrite norm_obj. cbn [mbind res_bind asObject].
  rewrite (proj2 (exact_fields_perm _ INPUT_FIELDS (json_wf_nodup _ (norm_entries_wf _ Hjw)))).
  2: { unfold norm_entries. rewrite (sort_by_perm key_le). by rewrite map_fst_norm. }
  cbn [mbind res_bind]. rewrite !lookup_key_norm by done.
  assert (Hget : ∀ k s, lookup_key (js k) (input_fields j) = Some (JStr s) →
    asString (norm <$> lookup_key (js k) (input_fields j)) = Ok s) by (by intros k s ->).
  rewrite (Hget "provider"%string _ eq_refl), (Hget "source"%string _ eq_refl),
    (Hget "recordId"%string _ eq_refl), (Hget "revisionId"%string _ eq_refl),
    (Hget "subject"%string _ eq_refl), (Hget "issuerCik"%string _ eq_refl),
    (Hget "fiscalPeriod"%string _ eq_refl), (Hget "sourceKind"%string _ eq_refl),
    (Hget "primaryArtifactHash"%string _ eq_refl). cbn [mbind res_bind]. clear Hget.
  destruct (identifiers_checked _ H4) as [us Hids]. rewrite Hids. cbn [mbind res_bind].
  rewrite H3, H2. cbn [negb]. rewrite (proj2 (assertArtifactHash_Ok _ tt) H1). cbn [mbind res_bind].
  assert (Hev : canonicalizeEvidenceReferences
      (default JNull (norm <$> lookup_key (js "evidence") (input_fields j))) =
    Ok (sort_by reference_leb (bi_evidence j))).
  { change (default JNull (norm <$> lookup_key (js "evidence") (input_fields j)))
      with (norm (members_json (bi_evidence j))).
    assert (Hmw : json_wf (members_json (bi_evidence j))) by (by apply input_json_wf in Hjw as [_ ?%members_json_wf]).
    apply canonicalizeEvidenceReferences_spec; [by apply norm_wf|]. exists (bi_evidence j).
    by rewrite norm_idemp. }
  rewrite Hev. cbn [mbind res_bind].
  rewrite bool_decide_eq_true_2.
  2: { bool_prop. rewrite <-H. unfold primary_count. by rewrite (sort_by_perm reference_leb). }
  cbn [negb]. change (frozen input_json (canonical_input j) = Ok (canonical_input j)).
  apply frozen_Ok; [by apply canonical_input_wf|]. split; [|done].
  apply (json_within_encodable INPUT_LIMITS). unfold canonical_input.
  rewrite input_within_perm; [exact Hj'|]. symmetry. apply sort_by_perm.
Qed.

Lemma validateInput_spec v i :
  json_wf v → validateInput v = Ok i ↔
    ∃ j, norm v = norm (input_json j) ∧ input_check j = true ∧ i = canonical_input j.
Proof.
  intros Hw. split; [by apply validateInput_inv|]. intros (j & Hn & Hc & ->).
  by apply validateInput_checked.
Qed.

Lemma input_check_encodable i : input_check i = true → encodable (input_json i) = true.
Proof.
  unfold input_check. intros H. do 6 (apply andb_true_iff in H as [H _]).
  by eapply json_within_encodable.
Qed.

(** Replacing part of an object by its equal. *)
Lemma norm_app k1 k2 e :
  NoDup (fst <$> k1 ++ e) → norm (JObj k1) = norm (JObj k2) → norm (JObj (k1 ++ e)) = norm (JObj (k2 ++ e)).
Proof.
  intros Hnd E. rewrite !norm_obj in *. injection E as E. f_equal. unfold norm_entries in *.
  set (n := λ kv : jsstring * json, (kv.1, norm kv.2)) in *.
  assert (Hp : map n (k1 ++ e) ≡ₚ map n (k2 ++ e)).
  { rewrite !map_app. apply Permutation_app_tail.
    rewrite <-(sort_by_perm key_le (map n k1)), E. apply sort_by_perm. }
  apply sort_by_perm_eq; [apply key_le_total|apply key_le_trans| |exact Hp].
  intros x y Hx Hy. apply (key_le_antisym (map n (k1 ++ e))); [|done..].
  change (map n (k1 ++ e)) with (map (λ kv : jsstring * json, (kv.1, norm kv.2)) (k1 ++ e)).
  by rewrite map_fst_norm.
Qed.

(** ** Looser limits *)

(** [L'] allows what [L] allows. *)
Definition limits_le (L L' : JsonLimits) : Prop :=
  maxDepth L <= maxDepth L' ∧ maxNodes L <= maxNodes L' ∧ maxArrayLength L <= maxArrayLength L' ∧
  maxObjectKeys L <= maxObjectKeys L' ∧ maxStringBytes L <= maxStringBytes L' ∧
  maxCanonicalBytes L <= maxCanonicalBytes L'.

#[export] Instance limits_le_dec L L' : Decision (limits_le L L').
Proof. unfold limits_le. apply _. Defined.

Lemma leb_trans_le a b c : a <=? b = true → b <= c → a <=? c = true.
Proof. rewrite !Z.leb_le. lia. Qed.

Lemma within_mono L L' d v : limits_le L L' → within L d v = true → within L' d v = true.
Proof.
  intros HL. destruct HL as (H1 & _ & H3 & H4 & H5 & _).
  revert d. induction v as [|b|n|s|l IH|kvs IH] using json_ind'; intros d; cbn [within];
    rewrite !andb_true_iff; intros [Hd Hv]; (split; [by eapply leb_trans_le|]); try done.
  - destruct Hv as [Hu Hb]. split; [exact Hu|by eapply leb_trans_le].
  - destruct Hv as [Hl Hf]. rewrite Forall_forall in IH.
    split; [by eapply leb_trans_le|]. apply forallb_forall. intros x Hx%list_elem_of_In.
    apply IH; [done|]. by eapply forallb_elem in Hf.
  - destruct Hv as [He Hf]. rewrite Forall_forall in IH. split.
    + unfold entries_supported in *. apply andb_true_iff in He as [Hk He]. apply andb_true_iff.
      split; [by eapply leb_trans_le|]. apply forallb_forall. intros x Hx%list_elem_of_In.
      eapply forallb_elem in He; [|exact Hx]. unfold key_supported in *. apply andb_true_iff in He as [Hs Hb].
      rewrite Hs. by eapply leb_trans_le.
    + apply forallb_forall. intros x Hx%list_elem_of_In. apply IH; [done|].
      by eapply forallb_elem in Hf.
Qed.

Lemma within_fields_mono L L' d (kvs : jobject) :
  limits_le L L' → forallb (λ kv, within L d kv.2) kvs = true →
  forallb (λ kv, within L' d kv.2) kvs = true.
Proof.
  intros HL Hf. apply forallb_forall. intros x Hx%list_elem_of_In.
  eapply within_mono; [exact HL|]. by eapply forallb_elem in Hf.
Qed.

(** ** Bundles *)

Section bundles.
Context `{Sha256}.

(** The identity of an input whose evidence is in any order. *)
Definition bundle_hash (i : ProviderEvidenceBundleInput) : jsstring :=
  sha256 (canonical_preimage PROVIDER_EVIDENCE_BUNDLE_HASH_DOMAIN (input_json (canonical_input i))).

Definition bundle_of (i : ProviderEvidenceBundleInput) : ProviderEvidenceBundle :=
  {| eb_input := canonical_input i; eb_evidenceBundleHash := bundle_hash i |}.

Lemma computeProviderEvidenceBundleHash_spec v h :
  json_wf v → computeProviderEvidenceBundleHash v = Ok h ↔
    ∃ j, norm v = norm (input_json j) ∧ input_check j = true ∧ h = bundle_hash j.
Proof.
  intros Hw. unfold computeProviderEvidenceBundleHash, providerEvidenceBundleHashPreimage.
  rewrite providerBoundary_Ok, res_bind_Ok. split.
  - intros (p & Hp & Hh). rewrite providerBoundary_Ok in Hp. apply res_bind_Ok in Hp as (i & Hi & Hp).
    apply (validateInput_spec _ _ Hw) in Hi as (j & Hn & Hc & ->). exists j. split_and!; [done..|].
    assert (Hjw : json_wf (input_json j)) by (apply norm_wf_inv; rewrite <-Hn; by apply norm_wf).
    apply inertJsonSnapshot_spec in Hp as [_ ->]; [|by apply canonical_input_wf].
    apply canonicalHash_Ok in Hh as [_ ->]. unfold bundle_hash.
    apply f_equal, (canonicalHash_equiv _ _ _ (norm_idemp _)).
  - intros (j & Hn & Hc & ->).
    assert (Hjw : json_wf (input_json j)) by (apply norm_wf_inv; rewrite <-Hn; by apply norm_wf).
    assert (He : encodable (input_json (canonical_input j)) = true)
      by (apply input_check_encodable; by rewrite canonical_input_check).
    exists (norm (input_json (canonical_input j))). split.
    + rewrite providerBoundary_Ok. apply res_bind_Ok. exists (canonical_input j).
      split; [by apply validateInput_checked|].
      by apply inertJsonSnapshot_spec; [apply canonical_input_wf|].
    + apply canonicalHash_Ok. rewrite norm_encodable. split; [done|].
      unfold bundle_hash. apply f_equal. symmetry. apply (canonicalHash_equiv _ _ _ (norm_idemp _)).
Qed.

Lemma bundle_hash_canonical i : bundle_hash (canonical_input i) = bundle_hash i.
Proof. unfold bundle_hash. by rewrite canonical_input_idemp. Qed.

Lemma bundle_of_canonical i : bundle_of (canonical_input i) = bundle_of i.
Proof. unfold bundle_of. by rewrite bundle_hash_canonical, canonical_input_idemp. Qed.

Lemma bundle_hash_hash i : is_hash (bundle_hash i) = true.
Proof. apply sha256_hex. Qed.

Lemma bundle_json_wf i : json_wf (input_json i) → json_wf (bundle_json (bundle_of i)).
Proof.
  intros Hw. apply canonical_input_wf in Hw. unfold input_json in Hw. rewrite json_wf_obj in Hw.
  destruct Hw as [_ Hw]. unfold bundle_json, bundle_fields. cbn [bundle_of eb_input eb_evidenceBundleHash].
  apply json_wf_obj. split; [by apply (bool_decide_eq_true_1 (NoDup _)); vm_compute|].
  intros kv [Hin|Hin]%elem_of_app; [by apply Hw|]. apply list_elem_of_singleton in Hin as ->.
  split; [apply js_units|]. apply is_hash_units_ok, bundle_hash_hash.
Qed.

Lemma bundle_encodable i : input_check i = true → encodable (bundle_json (bundle_of i)) = true.
Proof.
  intros Hc. rewrite <-canonical_input_check in Hc. apply input_check_encodable in Hc.
  unfold bundle_json, bundle_fields, input_json in *. cbn [encodable] in *.
  rewrite forallb_app. rewrite andb_true_iff. split; [exact Hc|].
  cbn [forallb snd fst andb bundle_of eb_evidenceBundleHash encodable].
  rewrite is_ok_low by (apply is_hash_units, bundle_hash_hash). by vm_compute.
Qed.

Lemma createProviderEvidenceBundle_spec v b :
  json_wf v → createProviderEvidenceBundle v = Ok b ↔
    ∃ j, norm v = norm (input_json j) ∧ input_check j = true ∧ b = bundle_of j.
Proof.
  intros Hw. unfold createProviderEvidenceBundle. rewrite providerBoundary_Ok, res_bind_Ok.
  assert (Hcore : ∀ j b, json_wf (input_json j) → input_check j = true →
    (let* h := computeProviderEvidenceBundleHash (input_json (canonical_input j)) in
     frozen bundle_json {| eb_input := canonical_input j; eb_evidenceBundleHash := h |}) = Ok b ↔
    b = bundle_of j).
  { intros j b' Hjw Hc. pose proof (canonical_input_wf _ Hjw) as Hcw.
    assert (E : computeProviderEvidenceBundleHash (input_json (canonical_input j)) = Ok (bundle_hash j)).
    { apply computeProviderEvidenceBundleHash_spec; [done|]. exists (canonical_input j).
      by rewrite canonical_input_check, bundle_hash_canonical. }
    rewrite E. cbn [mbind res_bind]. fold (bundle_of j). rewrite frozen_Ok by by apply bundle_json_wf.
    split; [by intros [_ ->]|]. intros ->. split; [|done]. by apply bundle_encodable. }
  split.
  - intros (i & (j & Hn & Hc & ->)%(validateInput_spec _ _ Hw) & Hb). exists j. split_and!; [done..|].
    apply Hcore in Hb; [done| |done]. apply norm_wf_inv. rewrite <-Hn. by apply norm_wf.
  - intros (j & Hn & Hc & ->). exists (canonical_input j).
    split; [by apply validateInput_checked|]. apply Hcore; [|done..].
    apply norm_wf_inv. rewrite <-Hn. by apply norm_wf.
Qed.

(** *** Persisted bundles *)

(** A bundle as it may be stored: members in any order, with the right hash. *)
Definition stored_bundle (i : ProviderEvidenceBundleInput) : ProviderEvidenceBundle :=
  {| eb_input := i; eb_evidenceBundleHash := bundle_hash i |}.

Lemma stored_bundle_canonical i : stored_bundle (canonical_input i) = bundle_of i.
Proof. unfold stored_bundle, bundle_of. by rewrite bundle_hash_canonical. Qed.

Lemma stored_bundle_within i : input_check i = true →
  json_within BUNDLE_LIMITS (bundle_json (stored_bundle i)) = true.
Proof.
  intros Hc. unfold input_check in Hc. do 6 (apply andb_true_iff in Hc as [Hc _]).
  unfold json_within in *. apply andb_true_iff in Hc as [[Hw Hn]%andb_true_iff Hb]. bool_prop.
  destruct (short_ascii_bytes _ _ (hash_short _ (bundle_hash_hash i))) as [B1 B2].
  unfold bundle_json, bundle_fields, input_json in *. cbn [stored_bundle eb_input eb_evidenceBundleHash].
  rewrite !andb_true_iff. split_and!.
  - cbn [within] in *. apply andb_true_iff in Hw as [_ [He Hf]%andb_true_iff].
    rewrite !andb_true_iff. split_and!; [done| |].
    + unfold entries_supported in *. apply andb_true_iff in He as [_ He]. apply andb_true_iff.
      split; [done|]. rewrite forallb_app, andb_true_iff. split; [exact He|by vm_compute].
    + rewrite forallb_app, andb_true_iff. split; [eapply within_fields_mono, Hf; done|].
      cbn [forallb snd within]. rewrite is_ok_low by apply is_hash_units, bundle_hash_hash.
      rewrite (proj2 (Z.leb_le (byte_length (bundle_hash i)) _)) by (cbn; lia). done.
  - apply Z.leb_le. cbn [json_nodes] in *. rewrite zsum_app. cbn. cbn in Hn. lia.
  - apply Z.leb_le. cbn [json_bytes] in *. rewrite zsum_app, length_app. cbn [zsum foldr fst snd json_bytes].
    assert (E : byte_length (json_quote (js "evidenceBundleHash")) = 20) by by vm_compute.
    rewrite E. cbn in Hb |- *. lia.
Qed.

Definition not_the_hash (kv : jsstring * json) : Prop := kv.1 ≠ js "evidenceBundleHash".

Lemma stored_bundle_wf i : json_wf (input_json i) → json_wf (bundle_json (stored_bundle i)).
Proof.
  intros Hw. unfold input_json in Hw. rewrite json_wf_obj in Hw. destruct Hw as [_ Hw].
  apply json_wf_obj. split; [by apply (bool_decide_eq_true_1 (NoDup _)); vm_compute|].
  intros kv [Hin|Hin]%elem_of_app; [by apply Hw|]. apply list_elem_of_singleton in Hin as ->.
  split; [apply js_units|]. apply is_hash_units_ok, bundle_hash_hash.
Qed.

Lemma stored_bundle_wf_inv i : json_wf (bundle_json (stored_bundle i)) → json_wf (input_json i).
Proof.
  unfold bundle_json, bundle_fields, input_json. rewrite !json_wf_obj. intros [Hnd Hwf].
  split; [rewrite fmap_app in Hnd; by apply NoDup_app in Hnd as (? & _)|].
  intros kv Hin. apply Hwf, elem_of_app. by left.
Qed.

Lemma validateProviderEvidenceBundle_inv v b :
  json_wf v → validateProviderEvidenceBundle v = Ok b →
  ∃ j, norm v = norm (bundle_json (stored_bundle j)) ∧ input_check j = true ∧ b = bundle_of j.
Proof.
  intros Hw Hv. unfold validateProviderEvidenceBundle in Hv. rewrite providerBoundary_Ok in Hv.
  apply res_bind_Ok in Hv as ([] & _ & Hv). apply res_bind_Ok in Hv as (m & Hl & Hv).
  apply limits_Ok in Hl as [Hl _].
  apply res_bind_Ok in Hv as (w & Hsnap & Hv). apply inertJsonSnapshot_spec in Hsnap as [_ ->]; [|done].
  apply res_bind_Ok in Hv as (kvs' & Ho & Hv). apply asObject_Ok in Ho.
  apply norm_obj_inv in Ho as (kvs & -> & ->).
  apply res_bind_Ok in Hv as ([] & Hex & Hv). apply res_bind_Ok in Hv as (h & Hh & Hv).
  apply asString_Ok in Hh. apply res_bind_Ok in Hv as (u & Hhash & Hv).
  apply res_bind_Ok in Hv as (c & Hc & Hv).
  destruct (bool_decide (eb_evidenceBundleHash c = h)) eqn:E; [|discriminate Hv].
  apply bool_decide_eq_true in E. apply Ok_inj in Hv as <-.
  pose proof (norm_wf _ Hw) as Hwn. rewrite norm_obj in Hwn.
  pose proof (exact_fields_entries _ _ (json_wf_nodup _ Hwn) Hex) as Hp.
  set (kvs' := norm_entries kvs) in *.
  assert (Hsplit : entries_of BUNDLE_FIELDS kvs' =
    entries_of INPUT_FIELDS kvs' ++ [(js "evidenceBundleHash", JStr h)]).
  { unfold entries_of, BUNDLE_FIELDS. rewrite map_app. cbn [map]. by rewrite Hh. }
  rewrite Hsplit in Hp.
  assert (Hf : filter not_the_hash kvs' ≡ₚ entries_of INPUT_FIELDS kvs').
  { etransitivity; [exact (filter_Permutation not_the_hash _ _ Hp)|].
    rewrite filter_app. reflexivity. }
  assert (Hfw : json_wf (JObj (filter not_the_hash kvs'))).
  { rewrite json_wf_obj in Hwn |- *. destruct Hwn as [Hnd Hwf]. split.
    - eapply sublist_NoDup; [exact Hnd|]. apply fmap_sublist, sublist_filter.
    - intros kv [_ Hin]%list_elem_of_filter. by apply Hwf. }
  apply createProviderEvidenceBundle_spec in Hc as (j & Hn & Hj & ->); [|exact Hfw].
  exists j. split; [|done]. cbn [bundle_of eb_evidenceBundleHash] in E. subst h.
  rewrite <-(norm_idemp (JObj kvs)), norm_obj. fold kvs'.
  transitivity (norm (JObj (filter not_the_hash kvs' ++ [(js "evidenceBundleHash", JStr (bundle_hash j))]))).
  - apply norm_permuted; [done|]. etransitivity; [exact Hp|]. by apply Permutation_app_tail.
  - unfold bundle_json, bundle_fields. cbn [stored_bundle eb_input eb_evidenceBundleHash].
    apply norm_app; [|exact Hn].
    assert (Hq : filter not_the_hash kvs' ++ [(js "evidenceBundleHash", JStr (bundle_hash j))] ≡ₚ kvs')
      by (symmetry; etransitivity; [exact Hp|]; by apply Permutation_app_tail).
    rewrite Hq. by apply json_wf_nodup.
Qed.

Lemma validateProviderEvidenceBundle_checked v j :
  json_wf v → norm v = norm (bundle_json (stored_bundle j)) → input_check j = true →
  validateProviderEvidenceBundle v = Ok (bundle_of j).
Proof.
  intros Hw Hn Hj.
  assert (Hbw : json_wf (bundle_json (stored_bundle j))) by (apply norm_wf_inv; rewrite <-Hn; by apply norm_wf).
  assert (Hjw : json_wf (input_json j)) by by apply stored_bundle_wf_inv.
  assert (Hl : json_within BUNDLE_LIMITS v = true)
    by (rewrite <-json_within_norm, Hn, json_within_norm; by apply stored_bundle_within).
  unfold validateProviderEvidenceBundle. rewrite providerBoundary_Ok.
  rewrite (members_no_limit _ _ _ Hl) by done. cbn [mbind res_bind].
  rewrite (limits_within _ BUNDLE_LIMITS eq_refl Hl). cbn [mbind res_bind].
  rewrite (proj2 (inertJsonSnapshot_spec _ _ Hw) (conj (json_within_encodable _ _ Hl) eq_refl)), Hn.
  unfold bundle_json in *. rewrite norm_obj. cbn [mbind res_bind asObject].
  set (kvs' := norm_entries (bundle_fields (stored_bundle j))).
  assert (Hp : kvs' ≡ₚ map (λ kv, (kv.1, norm kv.2)) (bundle_fields (stored_bundle j)))
    by apply (sort_by_perm key_le).
  assert (Hex : assertExactFields kvs' BUNDLE_FIELDS = Ok tt).
  { apply exact_fields_perm; [exact (json_wf_nodup _ (norm_entries_wf _ Hbw))|].
    rewrite Hp. by rewrite map_fst_norm. }
  rewrite Hex. cbn [mbind res_bind].
  assert (Hh : lookup_key (js "evidenceBundleHash") kvs' = Some (JStr (bundle_hash j))).
  { unfold kvs'. rewrite lookup_key_norm by by apply json_wf_nodup. reflexivity. }
  rewrite Hh. cbn [mbind res_bind asString].
  rewrite (proj2 (assertArtifactHash_Ok _ tt)) by apply bundle_hash_hash. cbn [mbind res_bind].
  assert (Hf : filter not_the_hash kvs' ≡ₚ map (λ kv, (kv.1, norm kv.2)) (input_fields j)).
  { etransitivity; [exact (filter_Permutation not_the_hash _ _ Hp)|]. reflexivity. }
  assert (Hc : createProviderEvidenceBundle (JObj (filter not_the_hash kvs')) = Ok (bundle_of j)).
  { pose proof (norm_wf _ Hjw) as Hnw. unfold input_json in Hnw. rewrite norm_obj in Hnw.
    assert (Hq : filter not_the_hash kvs' ≡ₚ norm_entries (input_fields j))
      by (etransitivity; [exact Hf|]; symmetry; apply (sort_by_perm key_le)).
    assert (Hfw : json_wf (JObj (filter not_the_hash kvs'))).
    { rewrite json_wf_obj in Hnw |- *. destruct Hnw as [Hnd Hwf]. split; [by rewrite Hq|].
      intros kv Hin. apply Hwf. by rewrite <-Hq. }
    apply createProviderEvidenceBundle_spec; [done|]. exists j. split; [|done].
    rewrite (norm_permuted _ _ Hfw Hq), <-norm_obj. apply norm_idemp. }
  unfold not_the_hash in Hc. rewrite Hc. cbn [mbind res_bind bundle_of eb_evidenceBundleHash].
  by rewrite bool_decide_eq_true_2.
Qed.

Lemma validateProviderEvidenceBundle_spec v b :
  json_wf v → validateProviderEvidenceBundle v = Ok b ↔
    ∃ j, norm v = norm (bundle_json (stored_bundle j)) ∧ input_check j = true ∧ b = bundle_of j.
Proof.
  intros Hw. split; [by apply validateProviderEvidenceBundle_inv|]. intros (j & Hn & Hc & ->).
  by apply validateProviderEvidenceBundle_checked.
Qed.
End bundles.

(** ** What the SEC policy accepts

    [validateSecEvidenceBundle] against the role matrix of a filing. *)

Lemma wf_of_norm v i : json_wf v → norm v = norm (input_json i) → json_wf (input_json i).
Proof. intros Hw Hn. apply norm_wf_inv. rewrite <-Hn. by apply norm_wf. Qed.

(** ** The SEC policy *)

(** The role matrix of a filing of kind [kind]: what its bundle must and may hold. *)
Record sec_policy (xbrl_required : bool) (i : ProviderEvidenceBundleInput) (kind : SecSourceKind) :
    Prop := {
  sp_provider : bi_provider i = js "sec-edgar";
  sp_source : bi_source i = js "sec:normalizer-v1";
  sp_revision : bi_revisionId i = js "1";
  sp_kind : bi_sourceKind i = sec_kind_name kind;
  sp_subject : bi_subject i = earnings_subject (bi_issuerCik i) (bi_fiscalPeriod i);
  sp_record : ∃ accession, record_match (bi_recordId i) = Some (accession, SEC_RECORD_ID_SUFFIXES kind);
  sp_roles : ∀ m, m ∈ bi_evidence i → er_role m ∈ SEC_EVIDENCE_ROLES;
  sp_one : ∀ role, role ∈ [js "sec.submissions"; js "sec.filing-index"; js "sec.primary-document"] →
    roleCount (bi_evidence i) role = 1;
  sp_focus : roleCount (bi_evidence i) (js "sec.xbrl-instance") <= 1 ∧
    roleCount (bi_evidence i) (js "sec.periodic-report") <= 1;
  sp_8k : kind = Sec_8k → 1 <= roleCount (bi_evidence i) (js "sec.exhibit-99.1") ∧
    1 <= roleCount (bi_evidence i) (js "sec.xbrl-instance") +
         roleCount (bi_evidence i) (js "sec.periodic-report");
  sp_filing : kind = Sec_filing → xbrl_required = true →
    roleCount (bi_evidence i) (js "sec.xbrl-instance") = 1;
  sp_primary : ∃ m, m ∈ bi_evidence i ∧ er_artifactHash m = bi_primaryArtifactHash i ∧
    er_role m = primary_role kind
}.

(** A list of checks that return nothing. *)
Lemma res_map_checks {A} (ok : A → bool) (e : exn) (l : list A) us :
  res_map (λ x, if ok x then Ok tt else Throw e) l = Ok us → ∀ x, x ∈ l → ok x = true.
Proof.
  intros H x Hx. apply res_map_Ok in H. apply list_elem_of_lookup in Hx as [i Hi].
  eapply Forall2_lookup_l in H as (u & _ & Hu); [|exact Hi]. by destruct (ok x).
Qed.

Lemma res_map_checked {A} (ok : A → bool) (e : exn) (l : list A) :
  (∀ x, x ∈ l → ok x = true) →
  res_map (λ x, if ok x then Ok tt else Throw e) l = Ok (map (λ _, tt) l).
Proof.
  intros H. apply (res_map_total _ (λ _, tt)). apply Forall_forall. intros x Hx. by rewrite H.
Qed.

Lemma res_map_guards {A} (bad : A → bool) (e : exn) (l : list A) us :
  res_map (λ x, if bad x then Throw e else Ok tt) l = Ok us → ∀ x, x ∈ l → bad x = false.
Proof.
  intros H x Hx. apply res_map_Ok in H. apply list_elem_of_lookup in Hx as [i Hi].
  eapply Forall2_lookup_l in H as (u & _ & Hu); [|exact Hi]. by destruct (bad x).
Qed.

Lemma res_map_guarded {A} (bad : A → bool) (e : exn) (l : list A) :
  (∀ x, x ∈ l → bad x = false) →
  res_map (λ x, if bad x then Throw e else Ok tt) l = Ok (map (λ _, tt) l).
Proof.
  intros H. apply (res_map_total _ (λ _, tt)). apply Forall_forall. intros x Hx. by rewrite H.
Qed.

(** The members of a list of constants, one by one. *)
Ltac in_cases H :=
  repeat (apply elem_of_cons in H as [->|H]); try (by apply elem_of_nil in H).

(** Inclusion of one list of constants in another. *)
Lemma all_listed (l k : list jsstring) :
  bool_decide (Forall (λ r, r ∈ k) l) = true → ∀ r, r ∈ l → r ∈ k.
Proof. rewrite bool_decide_eq_true, Forall_forall. auto. Qed.

Lemma roleCount_nonneg l role : 0 <= roleCount l role.
Proof. unfold roleCount. lia. Qed.

Lemma secBoundary_Ok {A} c (r : res A) a : secBoundary c r = Ok a ↔ r = Ok a.
Proof. destruct r as [b|e]; cbn; [done|]. by destruct (sec_error_code e). Qed.

Lemma sec_kind_of_Some s k : sec_kind_of s = Some k ↔ s = sec_kind_name k.
Proof.
  unfold sec_kind_of. cbn [find]. repeat case_bool_decide; subst; destruct k; split; intros; try done;
    congruence.
Qed.

(** Digests are distinct, so the first member with the primary digest is the one. *)
Lemma find_primary (l : list EvidenceReference) h m :
  NoDup (er_artifactHash <$> l) → m ∈ l → er_artifactHash m = h →
  find (λ m, bool_decide (er_artifactHash m = h)) l = Some m.
Proof.
  intros Hnd Hm Hh. induction l as [|x l IH]; [by apply not_elem_of_nil in Hm|].
  cbn [fmap list_fmap] in Hnd. apply NoDup_cons in Hnd as [Hx Hnd]. cbn [find].
  apply elem_of_cons in Hm as [->|Hm]; [by rewrite bool_decide_eq_true_2|].
  rewrite bool_decide_eq_false_2; [by apply IH|]. intros E. apply Hx. rewrite E, <-Hh.
  by apply list_elem_of_fmap_2.
Qed.

(** ** Reading a bundle *)

Section read.
Context `{Sha256}.

(** A value that stands for the bundle of [j], with its hash or without. *)
Definition stands_for (v : json) (j : ProviderEvidenceBundleInput) : Prop :=
  input_check j = true ∧
  (norm v = norm (bundle_json (stored_bundle j)) ∨ norm v = norm (input_json j)).

Lemma input_has_no_hash v j :
  json_wf v → norm v = norm (input_json j) → input_check j = true →
  ∃ m, validateProviderEvidenceBundle v = fail m "invalid-input".
Proof.
  intros Hw Hn Hc. pose proof (wf_of_norm _ _ Hw Hn) as Hjw.
  assert (Hl : json_within INPUT_LIMITS v = true).
  { rewrite <-json_within_norm, Hn, json_within_norm. unfold input_check in Hc.
    by do 6 (apply andb_true_iff in Hc as [Hc _]). }
  assert (Hl' : json_within BUNDLE_LIMITS v = true).
  { unfold json_within in *. bool_prop. rewrite !andb_true_iff, !Z.leb_le.
    change (maxNodes INPUT_LIMITS) with 64 in *. change (maxNodes BUNDLE_LIMITS) with 65.
    change (maxCanonicalBytes INPUT_LIMITS) with 16384 in *.
    change (maxCanonicalBytes BUNDLE_LIMITS) with 16512. split_and!; [|lia..].
    eapply within_mono; [|done]. by apply (bool_decide_eq_true_1 (limits_le _ _)); vm_compute. }
  unfold validateProviderEvidenceBundle.
  rewrite (members_no_limit _ _ _ Hl') by done. cbn [mbind res_bind].
  rewrite (limits_within _ BUNDLE_LIMITS eq_refl Hl'). cbn [mbind res_bind].
  rewrite (proj2 (inertJsonSnapshot_spec _ _ Hw) (conj (json_within_encodable _ _ Hl) eq_refl)), Hn.
  unfold input_json in *. rewrite norm_obj. cbn [mbind res_bind asObject].
  destruct (assertExactFields (norm_entries (input_fields j)) BUNDLE_FIELDS) as [[]|e] eqn:E.
  - apply exact_fields_perm in E; [|exact (json_wf_nodup _ (norm_entries_wf _ Hjw))].
    apply Permutation_length in E. unfold norm_entries in E. rewrite length_fmap, sort_by_length in E.
    discriminate E.
  - unfold assertExactFields in E. case_bool_decide; [discriminate E|]. injection E as <-.
    cbn [mbind res_bind providerBoundary bundle_error_code]. by eexists.
Qed.

Lemma read_sec_bundle_spec v b :
  json_wf v → read_sec_bundle v = Ok b ↔ ∃ j, stands_for v j ∧ b = bundle_of j.
Proof.
  intros Hw. unfold read_sec_bundle, stands_for. split.
  - destruct (validateProviderEvidenceBundle v) as [b'|e] eqn:E.
    + intros [= ->]. apply validateProviderEvidenceBundle_spec in E as (j & Hn & Hc & ->); [|done].
      exists j. auto.
    + destruct (bundle_error_code e) as [c|]; [|done]. case_match.
      * unfold translateProviderBundleError, contractFailure. by repeat case_match.
      * destruct (createProviderEvidenceBundle v) as [b'|e'] eqn:E'.
        -- intros [= ->]. apply createProviderEvidenceBundle_spec in E' as (j & Hn & Hc & ->); [|done].
           exists j. auto.
        -- destruct (bundle_error_code e') as [c'|]; [|done].
           unfold translateProviderBundleError, contractFailure. by repeat case_match.
  - intros (j & [Hc [Hn|Hn]] & ->).
    + by rewrite (validateProviderEvidenceBundle_checked v j).
    + destruct (input_has_no_hash _ _ Hw Hn Hc) as [m ->]. cbn [fail bundle_error_code].
      assert (E : createProviderEvidenceBundle v = Ok (bundle_of j))
        by (apply createProviderEvidenceBundle_spec; [done|by exists j]).
      cbn. by rewrite E.
Qed.

Lemma validateSecBundleIdentity_spec (b : ProviderEvidenceBundle) k :
  validateSecBundleIdentity b = Ok k ↔
    bi_provider b = SEC_PROVIDER ∧ bi_source b = SEC_NORMALIZER_SOURCE ∧
    bi_revisionId b = SEC_REVISION_ID ∧ bi_sourceKind b = sec_kind_name k ∧
    bi_subject b = earnings_subject (bi_issuerCik b) (bi_fiscalPeriod b) ∧
    ∃ accession, record_match (bi_recordId b) = Some (accession, SEC_RECORD_ID_SUFFIXES k).
Proof.
  unfold validateSecBundleIdentity. split.
  - intros Hv. case_match eqn:E1; [discriminate Hv|].
    destruct (sec_kind_of (bi_sourceKind b)) as [k'|] eqn:Ek; [|discriminate Hv].
    case_match eqn:E2; [discriminate Hv|]. case_match eqn:E3; [discriminate Hv|].
    destruct (record_match (bi_recordId b)) as [[acc suf]|]; [|discriminate Hv].
    case_match eqn:E4; [|discriminate Hv]. apply res_bind_Ok in Hv as (x & _ & Hv).
    apply Ok_inj in Hv as <-. bool_prop. subst suf. apply sec_kind_of_Some in Ek.
    split_and!; try done. by exists acc.
  - intros (H1 & H2 & H3 & H4 & H5 & acc & H6).
    rewrite H1, H2, H3, H6, <-H5, (proj2 (sec_kind_of_Some _ _) H4).
    rewrite !bool_decide_eq_true_2 by done. cbn [negb orb].
    assert (Ha : SEC_ACCESSION_PATTERN acc = true).
    { unfold record_match in H6. case_match eqn:E; [|done]. injection H6 as <- _. by bool_prop. }
    cbn [validateSecAccession]. by rewrite Ha.
Qed.

Lemma check_sec_roles_spec (b : ProviderEvidenceBundle) k req b' :
  NoDup (er_artifactHash <$> bi_evidence b) →
  check_sec_roles b k req = Ok b' ↔
    b' = b ∧ (∀ m, m ∈ bi_evidence b → isRole (er_role m) = true) ∧
    (∀ role, role ∈ SEC_SINGLETON_EVIDENCE_ROLES → (1 <? roleCount (bi_evidence b) role) = false) ∧
    (∀ role, role ∈ SEC_REQUIRED_EVIDENCE_ROLES k → (roleCount (bi_evidence b) role =? 0) = false) ∧
    (k = Sec_8k → (roleCount (bi_evidence b) (js "sec.xbrl-instance") =? 0) &&
      (roleCount (bi_evidence b) (js "sec.periodic-report") =? 0) = false) ∧
    (k = Sec_filing → req = true → roleCount (bi_evidence b) (js "sec.xbrl-instance") = 1) ∧
    ∃ m, m ∈ bi_evidence b ∧ er_artifactHash m = bi_primaryArtifactHash b ∧ er_role m = primary_role k.
Proof.
  intros Hnd. unfold check_sec_roles, contractFailure. split.
  - intros Hv. apply res_bind_Ok in Hv as (u1 & H1 & Hv). apply res_bind_Ok in Hv as (u2 & H2 & Hv).
    apply res_bind_Ok in Hv as (u3 & H3 & Hv).
    pose proof (res_map_checks _ _ _ _ H1) as R1. pose proof (res_map_guards _ _ _ _ H2) as R2.
    pose proof (res_map_guards _ _ _ _ H3) as R3. cbn beta in R1, R2, R3.
    case_match eqn:E1; [discriminate Hv|]. case_match eqn:E2; [discriminate Hv|].
    destruct (find _ _) as [m|] eqn:Em; [|discriminate Hv]. case_match eqn:E3; [|discriminate Hv].
    apply Ok_inj in Hv as <-. apply find_elem in Em as [Hin Hm]. bool_prop.
    split_and!; try done.
    + intros ->. exact E1.
    + intros -> ->. cbn [andb] in E2. by bool_prop.
    + by exists m.
  - intros (-> & R1 & R2 & R3 & R4 & R5 & m & Hin & Hm & Hr).
    rewrite (res_map_checked _ _ _ R1). cbn [mbind res_bind].
    rewrite (res_map_guarded _ _ _ R2). cbn [mbind res_bind].
    rewrite (res_map_guarded _ _ _ R3). cbn [mbind res_bind].
    rewrite (find_primary _ _ _ Hnd Hin Hm), (bool_decide_eq_true_2 _ Hr).
    destruct k; cbn [andb].
    + by rewrite R4.
    + destruct req; [|done]. rewrite R5 by done. done.
Qed.

Lemma roleCount_perm l l' role : l ≡ₚ l' → roleCount l role = roleCount l' role.
Proof. intros Hp. unfold roleCount. by rewrite (Permutation_length (filter_Permutation _ _ _ Hp)). Qed.
End read.

(** ** The checks and the policy *)

Section policy.
Context `{Sha256} (j : ProviderEvidenceBundleInput) (Hj : input_check j = true).
Context (xbrl_required : bool).

Let sorted : list EvidenceReference := sort_by reference_leb (bi_evidence j).

Lemma sorted_evidence : bi_evidence (bundle_of j) = sorted.
Proof. reflexivity. Qed.

Lemma sorted_nodup : NoDup (er_artifactHash <$> sorted).
Proof using Hj.
  unfold sorted. rewrite (sort_by_perm reference_leb). unfold input_check in Hj.
  apply andb_true_iff in Hj as [[_ Hm]%andb_true_iff _]. unfold members_check in Hm. by bool_prop.
Qed.

Lemma sorted_count role : roleCount sorted role = roleCount (bi_evidence j) role.
Proof. apply roleCount_perm, sort_by_perm. Qed.

Lemma sorted_elem m : m ∈ sorted ↔ m ∈ bi_evidence j.
Proof. unfold sorted. by rewrite (sort_by_perm reference_leb). Qed.

Lemma checks_policy k b :
  validateSecBundleIdentity (bundle_of j) = Ok k → check_sec_roles (bundle_of j) k xbrl_required = Ok b →
  b = bundle_of j ∧ sec_policy xbrl_required j k.
Proof using Hj.
  rewrite validateSecBundleIdentity_spec. intros (I1 & I2 & I3 & I4 & I5 & I6) Hr.
  apply check_sec_roles_spec in Hr; [|exact sorted_nodup]. rewrite sorted_evidence in Hr.
  destruct Hr as (-> & R1 & R2 & R3 & R4 & R5 & m & Hm & Hmh & Hmr). split; [done|].
  assert (Hle : ∀ role, role ∈ SEC_SINGLETON_EVIDENCE_ROLES → roleCount (bi_evidence j) role <= 1)
    by (intros role Hs; specialize (R2 _ Hs); rewrite <-sorted_count; bool_prop; lia).
  assert (Hge : ∀ role, role ∈ SEC_REQUIRED_EVIDENCE_ROLES k → 1 <= roleCount (bi_evidence j) role).
  { intros role Hq. specialize (R3 _ Hq). rewrite sorted_count in R3. bool_prop.
    pose proof (roleCount_nonneg (bi_evidence j) role). lia. }
  rewrite sorted_count in R4, R5. split; try done.
  - intros m' Hm'. apply sorted_elem, R1 in Hm'. unfold isRole in Hm'. by bool_prop.
  - intros role Hrole. apply Z.le_antisymm.
    + apply Hle. revert Hrole. apply all_listed. by vm_compute.
    + apply Hge. revert Hrole. apply all_listed. destruct k; by vm_compute.
  - split; apply Hle; by apply (bool_decide_eq_true_1 (_ ∈ _)); vm_compute.
  - intros ->. specialize (R4 eq_refl). rewrite sorted_count in R4. split.
    + apply Hge. by apply (bool_decide_eq_true_1 (_ ∈ _)); vm_compute.
    + pose proof (roleCount_nonneg (bi_evidence j) (js "sec.xbrl-instance")).
      pose proof (roleCount_nonneg (bi_evidence j) (js "sec.periodic-report")).
      apply andb_false_iff in R4 as [R4|R4]; bool_prop; lia.
  - exists m. by rewrite <-sorted_elem.
Qed.

Lemma policy_checks k :
  sec_policy xbrl_required j k →
  validateSecBundleIdentity (bundle_of j) = Ok k ∧
  check_sec_roles (bundle_of j) k xbrl_required = Ok (bundle_of j).
Proof using Hj.
  intros [P1 P2 P3 P4 P5 P6 P7 P8 [P9 P9'] P10 P11 P12].
  split; [by apply validateSecBundleIdentity_spec|].
  apply check_sec_roles_spec; [exact sorted_nodup|]. rewrite sorted_evidence.
  assert (Hreq : ∀ role, role ∈ SEC_REQUIRED_EVIDENCE_ROLES k → 1 <= roleCount (bi_evidence j) role).
  { intros role Hr. destruct (decide (role = js "sec.exhibit-99.1")) as [->|Hne].
    - destruct k; [by apply P10|]. exfalso. revert Hr. by apply (bool_decide_eq_false_1 (_ ∈ _)); vm_compute.
    - rewrite P8; [lia|]. destruct k; [|exact Hr].
      in_cases Hr; first [done|by apply (bool_decide_eq_true_1 (_ ∈ _)); vm_compute]. }
  split_and!; try done.
  - intros m Hm. apply bool_decide_eq_true, P7. by apply sorted_elem.
  - intros role Hr. rewrite sorted_count. apply Z.ltb_ge.
    in_cases Hr; first [done|rewrite P8; [lia|by apply (bool_decide_eq_true_1 (_ ∈ _)); vm_compute]].
  - intros role Hr. rewrite sorted_count. apply Z.eqb_neq. specialize (Hreq _ Hr). lia.
  - intros ->. rewrite !sorted_count. destruct (P10 eq_refl) as [_ Hx]. apply andb_false_iff.
    rewrite !Z.eqb_neq. lia.
  - intros -> ->. rewrite sorted_count. by apply P11.
  - destruct P12 as (m & Hm & ?). exists m. by rewrite sorted_elem.
Qed.
End policy.

Lemma validateSecEvidenceBundle_spec `{Sha256} v options xbrl_required b :
  json_wf v → validateSecEvidenceOptions options = Ok xbrl_required →
  validateSecEvidenceBundle v options = Ok b ↔
    ∃ j kind, stands_for v j ∧ b = bundle_of j ∧ sec_policy xbrl_required j kind.
Proof.
  intros Hw Ho. unfold validateSecEvidenceBundle. rewrite secBoundary_Ok, Ho. cbn [mbind res_bind].
  rewrite res_bind_Ok. setoid_rewrite (read_sec_bundle_spec _ _ Hw). split.
  - intros (b0 & (j & Hs & ->) & Hk). apply res_bind_Ok in Hk as (k & Hi & Hk).
    destruct (checks_policy j (proj1 Hs) _ _ _ Hi Hk) as [-> Hp]. by exists j, k.
  - intros (j & k & Hs & -> & Hp). exists (bundle_of j). split; [by exists j|].
    destruct (policy_checks j (proj1 Hs) _ _ Hp) as [Hi Hk]. apply res_bind_Ok. by exists k.
Qed.
