(* ===== verification/EvidenceClaims.v ===== *)
(** * What a bundle's identity and policy promise *)
From S2P Require Import Prelude JsString JsNumber Json JsonLimits JsonParse JsonClaims Hash Zod.
From S2P Require Import JsonObject Event EventFacts EventLogFacts EventLimits Codec Fixture.
From S2P Require Import Evidence EvidenceFacts SecContracts.

Section identity.
Context `{Sha256}.

(** The message the hash of a bundle is taken of. *)
Definition bundle_message (i : ProviderEvidenceBundleInput) : list Z :=
  canonical_preimage PROVIDER_EVIDENCE_BUNDLE_HASH_DOMAIN (input_json (canonical_input i)).

(** The JSON form determines the input. *)
Lemma reference_norm_inj r r' :
  reference_wf r → reference_wf r' → norm (to_json r) = norm (to_json r') → r = r'.
Proof.
  rewrite <-!reference_json_wf. intros Hr Hr' E.
  apply (f_equal (of_json (A := EvidenceReference))) in E.
  rewrite !of_json_norm, !of_json_to_json in E by done. by injection E.
Qed.

Lemma members_norm_inj l l' :
  Forall reference_wf l → Forall reference_wf l' →
  norm (members_json l) = norm (members_json l') → l = l'.
Proof.
  intros Hl Hl' E. unfold members_json at 1 in E. apply norm_members in E. revert l' Hl' E.
  induction Hl as [|r l Hr _ IH]; intros l' Hl' E; inversion E; subst; [done|].
  apply Forall_cons in Hl' as [Hr' Hl']. f_equal; [by apply reference_norm_inj|by apply IH].
Qed.

Lemma input_norm_inj i j :
  json_wf (input_json i) → json_wf (input_json j) →
  norm (input_json i) = norm (input_json j) → i = j.
Proof.
  intros Hi Hj E. pose proof (λ k, same_norm_lookup _ _ k Hi Hj E) as Hk.
  assert (Hs : ∀ k s t, lookup_key (js k) (input_fields i) = Some (JStr s) →
    lookup_key (js k) (input_fields j) = Some (JStr t) → s = t).
  { intros k s t H1 H2. specialize (Hk (js k)). rewrite H1, H2 in Hk. cbn in Hk. by injection Hk. }
  apply input_json_wf in Hi as [_ Hi]. apply input_json_wf in Hj as [_ Hj].
  specialize (Hk (js "evidence")).
  change (Some (norm (members_json (bi_evidence i))) = Some (norm (members_json (bi_evidence j)))) in Hk.
  apply Some_inj in Hk. apply (members_norm_inj _ _ Hi Hj) in Hk.
  assert (E1 := Hs "provider"%string _ _ eq_refl eq_refl).
  assert (E2 := Hs "source"%string _ _ eq_refl eq_refl).
  assert (E3 := Hs "recordId"%string _ _ eq_refl eq_refl).
  assert (E4 := Hs "revisionId"%string _ _ eq_refl eq_refl).
  assert (E5 := Hs "subject"%string _ _ eq_refl eq_refl).
  assert (E6 := Hs "issuerCik"%string _ _ eq_refl eq_refl).
  assert (E7 := Hs "fiscalPeriod"%string _ _ eq_refl eq_refl).
  assert (E8 := Hs "sourceKind"%string _ _ eq_refl eq_refl).
  assert (E9 := Hs "primaryArtifactHash"%string _ _ eq_refl eq_refl).
  destruct i, j; cbn in *. by subst.
Qed.

Lemma compute_input i h :
  json_wf (input_json i) →
  computeProviderEvidenceBundleHash (input_json i) = Ok h ↔ input_check i = true ∧ h = bundle_hash i.
Proof.
  intros Hw. rewrite computeProviderEvidenceBundleHash_spec by done. split.
  - intros (j & Hn & Hc & ->). by rewrite (input_norm_inj _ _ Hw (wf_of_norm _ _ Hw Hn) Hn).
  - intros [Hc ->]. by exists i.
Qed.

Lemma input_hashable i :
  json_wf (input_json i) → input_check i = true →
  hashable PROVIDER_EVIDENCE_BUNDLE_HASH_DOMAIN (input_json i).
Proof.
  intros Hw Hc. pose proof (input_check_encodable _ Hc) as He. unfold hashable.
  split_and!; [apply js_units|by vm_compute|by vm_compute|exact Hw|].
  unfold short. change (byte_length (print (norm (input_json i))) < 2 ^ 64).
  rewrite byte_length_print; [|by apply norm_wf|by rewrite norm_encodable]. rewrite json_bytes_norm.
  unfold input_check, json_within in Hc. do 6 (apply andb_true_iff in Hc as [Hc _]). bool_prop.
  change (maxCanonicalBytes INPUT_LIMITS) with 16384 in H1. lia.
Qed.
End identity.

(** C32: the hash of a bundle identifies it.  Two inputs, their evidence in any order,
    have the same hash exactly when they agree in every field and list the same
    references up to order. *)
Theorem bundle_hash_identifies `{Sha256} (i j : ProviderEvidenceBundleInput) (h k : jsstring)
    (Hwi : json_wf (input_json i)) (Hwj : json_wf (input_json j))
    (Hd : distinguishes [bundle_message i; bundle_message j])
    (Hi : computeProviderEvidenceBundleHash (input_json i) = Ok h)
    (Hj : computeProviderEvidenceBundleHash (input_json j) = Ok k) :
  h = k ↔ j = with_evidence i (bi_evidence j) ∧ bi_evidence i ≡ₚ bi_evidence j.
Proof.
  apply compute_input in Hi as [Hci ->]; [|done]. apply compute_input in Hj as [Hcj ->]; [|done].
  assert (Hiff : bundle_hash i = bundle_hash j ↔ canonical_input i = canonical_input j).
  { split; [|intros E; unfold bundle_hash; by rewrite E]. intros E.
    assert (Em : bundle_message i = bundle_message j)
      by (apply Hd; [apply list_elem_of_here|apply list_elem_of_further, list_elem_of_here|exact E]).
    clear E. unfold bundle_message in Em. apply canonical_preimage_inj in Em as [_ E].
    - apply input_norm_inj; [by apply canonical_input_wf..|exact E].
    - apply input_hashable; [by apply canonical_input_wf|by rewrite canonical_input_check].
    - apply input_hashable; [by apply canonical_input_wf|by rewrite canonical_input_check].
    - apply input_check_encodable. by rewrite canonical_input_check.
    - apply input_check_encodable. by rewrite canonical_input_check. }
  rewrite Hiff. split.
  - intros E. pose proof (f_equal bi_evidence E) as Ee. cbn [canonical_input with_evidence bi_evidence] in Ee.
    split.
    + destruct i, j. unfold canonical_input, with_evidence in *. cbn in *. congruence.
    + by rewrite <-(sort_by_perm reference_leb (bi_evidence i)), Ee, (sort_by_perm reference_leb).
  - intros [-> Hp]. unfold canonical_input, with_evidence. cbn [bi_evidence bi_provider bi_source
      bi_recordId bi_revisionId bi_subject bi_issuerCik bi_fiscalPeriod bi_sourceKind
      bi_primaryArtifactHash] in *. by rewrite (sort_references_perm _ _ Hp).
Qed.

(** C33: bundles survive persistence.  A bundle the program creates is accepted when it is
    read back, unchanged; and whatever is accepted is a bundle the program would create:
    its references sorted, their digests distinct, the primary digest among them once,
    its hash the hash of its content. *)
Theorem bundle_roundtrip `{Sha256} (v : json) (b : ProviderEvidenceBundle) (Hw : json_wf v)
    (Hb : createProviderEvidenceBundle v = Ok b ∨ validateProviderEvidenceBundle v = Ok b) :
  validateProviderEvidenceBundle (bundle_json b) = Ok b ∧
  sort_by reference_leb (bi_evidence b) = bi_evidence b ∧
  NoDup (er_artifactHash <$> bi_evidence b) ∧ primary_count b (bi_evidence b) = 1%nat ∧
  computeProviderEvidenceBundleHash (input_json b) = Ok (eb_evidenceBundleHash b).
Proof.
  assert (Hj : ∃ j, json_wf (input_json j) ∧ input_check j = true ∧ b = bundle_of j).
  { destruct Hb as [Hb|Hb].
    - apply createProviderEvidenceBundle_spec in Hb as (j & Hn & Hc & ->); [|done].
      exists j. split_and!; [by eapply wf_of_norm|done..].
    - apply validateProviderEvidenceBundle_spec in Hb as (j & Hn & Hc & ->); [|done].
      exists j. split_and!; [|done..]. apply stored_bundle_wf_inv. apply norm_wf_inv. rewrite <-Hn. by apply norm_wf. }
  clear Hb. destruct Hj as (j & Hjw & Hc & ->). pose proof (canonical_input_wf _ Hjw) as Hcw.
  split_and!.
  - apply validateProviderEvidenceBundle_spec.
    + rewrite <-stored_bundle_canonical. by apply stored_bundle_wf.
    + exists (canonical_input j). by rewrite stored_bundle_canonical, canonical_input_check, bundle_of_canonical.
  - apply sort_references_idemp.
  - cbn [bundle_of eb_input canonical_input with_evidence bi_evidence]. rewrite (sort_by_perm reference_leb).
    unfold input_check in Hc. apply andb_true_iff in Hc as [[_ Hm]%andb_true_iff _].
    unfold members_check in Hm. by bool_prop.
  - rewrite <-canonical_input_check in Hc. unfold input_check in Hc. by bool_prop.
  - apply compute_input; [done|]. cbn [bundle_of eb_input eb_evidenceBundleHash].
    by rewrite canonical_input_check, bundle_hash_canonical.
Qed.

(** ** The SEC policy *)

(** C31: the SEC policy.  A value is accepted exactly when it stands for a bundle, with its
    hash or without one, that satisfies the role matrix of its kind of filing; what is
    returned is that bundle in canonical form. *)
Theorem sec_bundle_exact `{Sha256} (v : json) (options : option json) (xbrl_required : bool)
    (b : ProviderEvidenceBundle) (Hw : json_wf v)
    (Ho : validateSecEvidenceOptions options = Ok xbrl_required) :
  validateSecEvidenceBundle v options = Ok b ↔
    ∃ j kind, stands_for v j ∧ b = bundle_of j ∧ sec_policy xbrl_required j kind.
Proof. exact (validateSecEvidenceBundle_spec v options xbrl_required b Hw Ho). Qed.

(** ** Witnesses: an 8-K with its exhibit *)

Definition digest (d : Z) : jsstring := replicate 64 d.

Definition demo_reference (role : string) (d : Z) : EvidenceReference :=
  {| er_role := js role; er_artifactHash := digest d |}.

Definition demo_bundle_input : ProviderEvidenceBundleInput := {|
  bi_provider := js "sec-edgar"; bi_source := js "sec:normalizer-v1";
  bi_recordId := js "sec:0000320193-24-000001:earnings-source-v2"; bi_revisionId := js "1";
  bi_subject := js "earnings:0000320193:2024-Q1"; bi_issuerCik := js "0000320193";
  bi_fiscalPeriod := js "2024-Q1"; bi_sourceKind := js "sec_8k"; bi_primaryArtifactHash := digest 52;
  bi_evidence := [demo_reference "sec.submissions" 49; demo_reference "sec.filing-index" 50;
    demo_reference "sec.primary-document" 51; demo_reference "sec.exhibit-99.1" 52;
    demo_reference "sec.xbrl-instance" 53] |}.

(** The same references, listed backwards. *)
Definition demo_bundle_reversed : ProviderEvidenceBundleInput :=
  with_evidence demo_bundle_input (reverse (bi_evidence demo_bundle_input)).

Lemma demo_bundle_wf : json_wf (input_json demo_bundle_input).
Proof. apply json_wfb_wf. vm_compute. reflexivity. Qed.

Lemma demo_reversed_wf : json_wf (input_json demo_bundle_reversed).
Proof. apply json_wfb_wf. vm_compute. reflexivity. Qed.

Lemma bundle_hash_identifies_witness :
  computeProviderEvidenceBundleHash (input_json demo_bundle_input) =
  computeProviderEvidenceBundleHash (input_json demo_bundle_reversed).
Proof.
  assert (E1 : computeProviderEvidenceBundleHash (input_json demo_bundle_input) =
    Ok (bundle_hash demo_bundle_input)) by (vm_compute; reflexivity).
  assert (E2 : computeProviderEvidenceBundleHash (input_json demo_bundle_reversed) =
    Ok (bundle_hash demo_bundle_reversed)) by (vm_compute; reflexivity).
  rewrite E1, E2. apply (f_equal (@Ok jsstring)).
  apply (bundle_hash_identifies demo_bundle_input demo_bundle_reversed _ _ demo_bundle_wf
    demo_reversed_wf).
  - refine (bool_decide_eq_true_1 (distinguishes _) _). vm_compute. reflexivity.
  - exact E1.
  - exact E2.
  - split; [reflexivity|]. symmetry. apply reverse_Permutation.
Defined.

Lemma bundle_roundtrip_witness :
  ∃ b, createProviderEvidenceBundle (input_json demo_bundle_reversed) = Ok b ∧
    validateProviderEvidenceBundle (bundle_json b) = Ok b.
Proof.
  exists (bundle_of demo_bundle_reversed).
  assert (E : createProviderEvidenceBundle (input_json demo_bundle_reversed) =
    Ok (bundle_of demo_bundle_reversed)) by (vm_compute; reflexivity).
  split; [exact E|].
  apply (bundle_roundtrip (input_json demo_bundle_reversed) _ demo_reversed_wf (or_introl E)).
Defined.

Lemma sec_bundle_exact_witness :
  ∃ j kind, stands_for (input_json demo_bundle_reversed) j ∧ sec_policy false j kind.
Proof.
  assert (E : validateSecEvidenceBundle (input_json demo_bundle_reversed) None =
    Ok (bundle_of demo_bundle_reversed)) by (vm_compute; reflexivity).
  apply (sec_bundle_exact (input_json demo_bundle_reversed) None false _ demo_reversed_wf eq_refl) in E.
  destruct E as (j & kind & Hs & _ & Hp). exists j, kind. exact (conj Hs Hp).
Defined.
