(* ===== verification/EventPlan.v ===== *)
(** * Event plans ([src/domain/event-cluster-beta.ts], first half)

    An event plan freezes, for one issuer and fiscal period, when an expected event is
    observed, from which providers, and what counts as evidence.  It is compiled from a
    calendar candidate, a specification and a registry of provider capabilities; an
    amendment makes a new revision that names the one before.  The copies the source
    makes to freeze its objects are equal to them and are not shown. *)
From S2P Require Import Prelude JsString JsNumber Json JsonLimits JsonParse JsonClaims Hash Zod.
From S2P Require Import JsonObject Event EventFacts Codec Records Evidence.

(** ** Literals *)

Inductive EventClusterLane : Type := Lane_sec | Lane_issuer_ir | Lane_transcript | Lane_market.

Inductive ProviderCapability : Type :=
  | Calendar_discovery | Cap_issuer_release | Cap_sec_filing | Filing_exhibit | Issuer_slides
  | Webcast_metadata | Cap_prepared_remarks | Cap_transcript | Expectations_snapshot
  | Market_bars | Market_quotes_trades | Benchmark_market_data.

Inductive CredentialRequirement : Type := No_credential | Separately_authorized.

Inductive ExpectedSession : Type := Before_market | After_market | Unknown_session.

Inductive Readiness : Type := Ready | Capability_unavailable | Authorization_required.

Inductive ExhibitAlias : Type := EX_99 | EX_99_1.

#[export] Instance EventClusterLane_eq_dec : EqDecision EventClusterLane.
Proof. solve_decision. Defined.
#[export] Instance ProviderCapability_eq_dec : EqDecision ProviderCapability.
Proof. solve_decision. Defined.
#[export] Instance CredentialRequirement_eq_dec : EqDecision CredentialRequirement.
Proof. solve_decision. Defined.
#[export] Instance ExpectedSession_eq_dec : EqDecision ExpectedSession.
Proof. solve_decision. Defined.
#[export] Instance Readiness_eq_dec : EqDecision Readiness.
Proof. solve_decision. Defined.
#[export] Instance ExhibitAlias_eq_dec : EqDecision ExhibitAlias.
Proof. solve_decision. Defined.

#[export] Instance EventClusterLane_enum : Enumerated EventClusterLane.
Proof.
  refine {| enum_name := λ l, match l with
    | Lane_sec => js "sec" | Lane_issuer_ir => js "issuer-ir"
    | Lane_transcript => js "transcript" | Lane_market => js "market" end;
    enum_all := [Lane_sec; Lane_issuer_ir; Lane_transcript; Lane_market] |}.
  - by intros [].
  - intros []; apply js_units.
Defined.

#[export] Instance ProviderCapability_enum : Enumerated ProviderCapability.
Proof.
  refine {| enum_name := λ c, match c with
    | Calendar_discovery => js "calendar-discovery" | Cap_issuer_release => js "issuer-release"
    | Cap_sec_filing => js "sec-filing" | Filing_exhibit => js "filing-exhibit"
    | Issuer_slides => js "issuer-slides" | Webcast_metadata => js "webcast-metadata"
    | Cap_prepared_remarks => js "prepared-remarks" | Cap_transcript => js "transcript"
    | Expectations_snapshot => js "expectations-snapshot" | Market_bars => js "market-bars"
    | Market_quotes_trades => js "market-quotes-trades"
    | Benchmark_market_data => js "benchmark-market-data" end;
    enum_all := [Calendar_discovery; Cap_issuer_release; Cap_sec_filing; Filing_exhibit; Issuer_slides;
      Webcast_metadata; Cap_prepared_remarks; Cap_transcript; Expectations_snapshot; Market_bars;
      Market_quotes_trades; Benchmark_market_data] |}.
  - by intros [].
  - intros []; apply js_units.
Defined.

#[export] Instance CredentialRequirement_enum : Enumerated CredentialRequirement.
Proof.
  refine {| enum_name := λ c, match c with
    | No_credential => js "none" | Separately_authorized => js "separately-authorized" end;
    enum_all := [No_credential; Separately_authorized] |}.
  - by intros [].
  - intros []; apply js_units.
Defined.

#[export] Instance ExpectedSession_enum : Enumerated ExpectedSession.
Proof.
  refine {| enum_name := λ s, match s with
    | Before_market => js "before-market" | After_market => js "after-market"
    | Unknown_session => js "unknown" end;
    enum_all := [Before_market; After_market; Unknown_session] |}.
  - by intros [].
  - intros []; apply js_units.
Defined.

#[export] Instance Readiness_enum : Enumerated Readiness.
Proof.
  refine {| enum_name := λ r, match r with
    | Ready => js "ready" | Capability_unavailable => js "capability-unavailable"
    | Authorization_required => js "authorization-required" end;
    enum_all := [Ready; Capability_unavailable; Authorization_required] |}.
  - by intros [].
  - intros []; apply js_units.
Defined.

#[export] Instance ExhibitAlias_enum : Enumerated ExhibitAlias.
Proof.
  refine {| enum_name := λ x, match x with EX_99 => js "EX-99" | EX_99_1 => js "EX-99.1" end;
    enum_all := [EX_99; EX_99_1] |}.
  - by intros [].
  - intros []; apply js_units.
Defined.

Definition EVENT_CLUSTER_LANES : list EventClusterLane := enum_all.

(** ** Types *)

Record ProviderCapabilityEntry : Type := {
  pc_providerId : jsstring;
  pc_capability : ProviderCapability;
  pc_available : bool;
  pc_credentialRequirement : CredentialRequirement
}.

Record CalendarCandidate : Type := {
  cc_calendarSourceId : jsstring;
  cc_calendarRevisionId : jsstring;
  cc_issuerId : jsstring;
  cc_cik : jsstring;
  cc_ticker : jsstring;
  cc_exchange : jsstring;
  cc_instrumentId : jsstring;
  cc_sectorBenchmark : jsstring;
  cc_fiscalPeriod : jsstring;
  cc_expectedEventDate : jsstring;
  cc_expectedSession : ExpectedSession;
  cc_discoveredAtMs : Z
}.

Record PlanWindows : Type := {
  pw_activationStartMs : Z;
  pw_primaryStartMs : Z;
  pw_primaryEndMs : Z;
  pw_settlementEndMs : Z
}.

Record SourceAssignment : Type := {
  sa_lane : EventClusterLane;
  sa_providerId : jsstring;
  sa_capabilities : list ProviderCapability
}.

(** The other fields of a specification are constants. *)
Record EventPlanSpec : Type := {
  sp_windows : PlanWindows;
  sp_sourceAssignments : list SourceAssignment;
  sp_expectedForms : list jsstring;
  sp_expectedItems : list jsstring;
  sp_exhibitAliases : list ExhibitAlias
}.

Record AcquisitionPlan : Type := {
  ap_lane : EventClusterLane;
  ap_providerId : jsstring;
  ap_capabilities : list ProviderCapability;
  ap_readiness : Readiness;
  ap_blocker : option jsstring
}.

(** [changes] is kept as it was given: dates, sessions and windows if present. *)
Record EventPlanAmendment : Type := {
  am_amendmentId : jsstring;
  am_recordedAtMs : Z;
  am_reason : jsstring;
  am_priorRevisionDigest : jsstring;
  am_changeDigest : jsstring;
  am_changes : jobject
}.

Record EventPlan : Type := {
  ep_planId : jsstring;
  ep_revision : Z;
  ep_revisionDigest : jsstring;
  ep_candidate : CalendarCandidate;
  ep_windows : PlanWindows;
  ep_acquisitionPlans : list AcquisitionPlan;
  ep_expectedForms : list jsstring;
  ep_expectedItems : list jsstring;
  ep_exhibitAliases : list ExhibitAlias;
  ep_marketSubjects : list jsstring;
  ep_amendments : list EventPlanAmendment
}.

(** ** JSON forms *)

Definition entry_fields (e : ProviderCapabilityEntry) : jobject :=
  [(js "providerId", JStr (pc_providerId e)); (js "capability", jenum (pc_capability e));
   (js "available", JBool (pc_available e));
   (js "credentialRequirement", jenum (pc_credentialRequirement e))].

Definition entry_of (kvs : jobject) : option ProviderCapabilityEntry :=
  p ← get_str (js "providerId") kvs;
  c ← get_enum ProviderCapability (js "capability") kvs;
  a ← get_bool (js "available") kvs;
  r ← get_enum CredentialRequirement (js "credentialRequirement") kvs;
  Some {| pc_providerId := p; pc_capability := c; pc_available := a; pc_credentialRequirement := r |}.

Definition candidate_fields (c : CalendarCandidate) : jobject :=
  [(js "calendarSourceId", JStr (cc_calendarSourceId c));
   (js "calendarRevisionId", JStr (cc_calendarRevisionId c));
   (js "issuerId", JStr (cc_issuerId c)); (js "cik", JStr (cc_cik c));
   (js "ticker", JStr (cc_ticker c)); (js "exchange", JStr (cc_exchange c));
   (js "instrumentId", JStr (cc_instrumentId c));
   (js "sectorBenchmark", JStr (cc_sectorBenchmark c));
   (js "fiscalPeriod", JStr (cc_fiscalPeriod c));
   (js "expectedEventDate", JStr (cc_expectedEventDate c));
   (js "expectedSession", jenum (cc_expectedSession c));
   (js "discoveredAtMs", jint (cc_discoveredAtMs c))].

Definition candidate_of (kvs : jobject) : option CalendarCandidate :=
  cs ← get_str (js "calendarSourceId") kvs;
  cr ← get_str (js "calendarRevisionId") kvs;
  i ← get_str (js "issuerId") kvs;
  ck ← get_str (js "cik") kvs;
  t ← get_str (js "ticker") kvs;
  x ← get_str (js "exchange") kvs;
  n ← get_str (js "instrumentId") kvs;
  b ← get_str (js "sectorBenchmark") kvs;
  f ← get_str (js "fiscalPeriod") kvs;
  d ← get_str (js "expectedEventDate") kvs;
  s ← get_enum ExpectedSession (js "expectedSession") kvs;
  m ← get_int (js "discoveredAtMs") kvs;
  Some {| cc_calendarSourceId := cs; cc_calendarRevisionId := cr; cc_issuerId := i; cc_cik := ck;
          cc_ticker := t; cc_exchange := x; cc_instrumentId := n; cc_sectorBenchmark := b;
          cc_fiscalPeriod := f; cc_expectedEventDate := d; cc_expectedSession := s;
          cc_discoveredAtMs := m |}.

Definition windows_fields (w : PlanWindows) : jobject :=
  [(js "activationStartMs", jint (pw_activationStartMs w));
   (js "primaryStartMs", jint (pw_primaryStartMs w)); (js "primaryEndMs", jint (pw_primaryEndMs w));
   (js "settlementEndMs", jint (pw_settlementEndMs w))].

Definition windows_of (kvs : jobject) : option PlanWindows :=
  a ← get_int (js "activationStartMs") kvs;
  s ← get_int (js "primaryStartMs") kvs;
  e ← get_int (js "primaryEndMs") kvs;
  t ← get_int (js "settlementEndMs") kvs;
  Some {| pw_activationStartMs := a; pw_primaryStartMs := s; pw_primaryEndMs := e;
          pw_settlementEndMs := t |}.

Definition assignment_fields (a : SourceAssignment) : jobject :=
  [(js "lane", jenum (sa_lane a)); (js "providerId", JStr (sa_providerId a));
   (js "capabilities", jenums (sa_capabilities a))].

Definition assignment_of (kvs : jobject) : option SourceAssignment :=
  l ← get_enum EventClusterLane (js "lane") kvs;
  p ← get_str (js "providerId") kvs;
  c ← get_enums ProviderCapability (js "capabilities") kvs;
  Some {| sa_lane := l; sa_providerId := p; sa_capabilities := c |}.

Definition EVENT_CLUSTER_EFFECTS_ZERO : json := JObj
  [(js "network", jint 0); (js "provider", jint 0); (js "credential", jint 0);
   (js "account", jint 0); (js "subscription", jint 0); (js "spending", jint 0);
   (js "broker", jint 0); (js "order", jint 0); (js "portfolio", jint 0);
   (js "position", jint 0); (js "fill", jint 0); (js "financialEffect", jint 0)].

(** The fields that are the same in every specification and plan. *)
Definition policy_fields : jobject :=
  [(js "rawRetention", JStr (js "immutable"));
   (js "duplicatePolicy", JStr (js "provider-record-revision"));
   (js "correctionPolicy", JStr (js "explicit-replacement"));
   (js "stableMissingPolicy", JStr (js "lane-settlement"));
   (js "prohibitedEffects", EVENT_CLUSTER_EFFECTS_ZERO)].

(** ** Codecs *)

Lemma entry_of_norm kvs : json_wf (JObj kvs) → entry_of (norm_entries kvs) = entry_of kvs.
Proof. unfold entry_of. revert kvs. record_of_norm. Qed.
Lemma candidate_of_norm kvs : json_wf (JObj kvs) → candidate_of (norm_entries kvs) = candidate_of kvs.
Proof. unfold candidate_of. revert kvs. record_of_norm. Qed.
Lemma windows_of_norm kvs : json_wf (JObj kvs) → windows_of (norm_entries kvs) = windows_of kvs.
Proof. unfold windows_of. revert kvs. record_of_norm. Qed.
Lemma assignment_of_norm kvs : json_wf (JObj kvs) → assignment_of (norm_entries kvs) = assignment_of kvs.
Proof. unfold assignment_of. revert kvs. record_of_norm. Qed.

#[export] Program Instance ProviderCapabilityEntry_codec : Codec ProviderCapabilityEntry := {|
  to_fields := entry_fields; of_fields := entry_of; nrm := id; norm_to := λ _, eq_refl |}.
Next Obligation. intros [p [] a []]; reflexivity. Qed.
Next Obligation. intros kvs Hw. by apply of_norm_closed, entry_of_norm. Qed.

#[export] Program Instance CalendarCandidate_codec : Codec CalendarCandidate := {|
  to_fields := candidate_fields; of_fields := candidate_of; nrm := id; norm_to := λ _, eq_refl |}.
Next Obligation. intros [cs cr i ck t x n b f d [] m]; reflexivity. Qed.
Next Obligation. intros kvs Hw. by apply of_norm_closed, candidate_of_norm. Qed.

#[export] Program Instance PlanWindows_codec : Codec PlanWindows := {|
  to_fields := windows_fields; of_fields := windows_of; nrm := id; norm_to := λ _, eq_refl |}.
Next Obligation. intros [a s e t]; reflexivity. Qed.
Next Obligation. intros kvs Hw. by apply of_norm_closed, windows_of_norm. Qed.

#[export] Program Instance SourceAssignment_codec : Codec SourceAssignment := {|
  to_fields := assignment_fields; of_fields := assignment_of; nrm := id; norm_to := λ _, eq_refl |}.
Next Obligation.
  intros [l p c]. transitivity (c' ← (mapM as_str (map JStr (map enum_name c)) ≫= mapM enum_of);
    Some {| sa_lane := l; sa_providerId := p; sa_capabilities := c' |}).
  - destruct l; reflexivity.
  - by rewrite mapM_as_str; cbn [mbind option_bind]; rewrite mapM_enum_of.
Qed.
Next Obligation. intros kvs Hw. by apply of_norm_closed, assignment_of_norm. Qed.

(** ** Schemas *)

Definition is_word_unit (u : Z) : bool := ((65 <=? u) && (u <=? 90)) || is_lower_alnum u.

(** [/^[A-Za-z0-9][A-Za-z0-9._:/-]*$/u] *)
Definition is_plan_identifier (s : jsstring) : bool :=
  match s with
  | u :: s => is_word_unit u &&
      forallb (λ u, is_word_unit u || is_role_separator u || (u =? 58) || (u =? 47)) s
  | [] => false
  end.

(** [/^[A-Z][A-Z0-9.-]{0,15}$/u] *)
Definition is_ticker (s : jsstring) : bool :=
  match s with
  | u :: s => ((65 <=? u) && (u <=? 90)) && (js_length s <=? 15) &&
      forallb (λ u, ((65 <=? u) && (u <=? 90)) || is_digit u || (u =? 46) || (u =? 45)) s
  | [] => false
  end.

(** [/^\d{4}-\d{2}-\d{2}$/u] *)
Definition is_date (s : jsstring) : bool :=
  digits_exactly 4 (take 4 s) && bool_decide (take 1 (drop 4 s) = js "-") &&
  digits_exactly 2 (take 2 (drop 5 s)) && bool_decide (take 1 (drop 7 s) = js "-") &&
  digits_exactly 2 (drop 8 s).

Fixpoint skip_digits (s : jsstring) : jsstring :=
  match s with u :: s' => if is_digit u then skip_digits s' else s | [] => [] end.

(** [/^\d+\.\d+$/u] *)
Definition is_item (s : jsstring) : bool :=
  match s, skip_digits s with
  | u :: _, dot :: rest => is_digit u && (dot =? 46) && negb (bool_decide (rest = [])) && all_digits rest
  | _, _ => false
  end.

Definition plan_identifier : schema := SString [CMin 1; CMax 256; CRegex is_plan_identifier].

Definition candidateSchema : schema := SObject
  [(js "calendarSourceId", plan_identifier); (js "calendarRevisionId", plan_identifier);
   (js "issuerId", plan_identifier); (js "cik", SString [CRegex (digits_exactly 10)]);
   (js "ticker", SString [CRegex is_ticker]); (js "exchange", plan_identifier);
   (js "instrumentId", plan_identifier); (js "sectorBenchmark", SString [CRegex is_ticker]);
   (js "fiscalPeriod", SString [CRegex FISCAL_PERIOD]);
   (js "expectedEventDate", SString [CRegex is_date]);
   (js "expectedSession", enumSchema ExpectedSession); (js "discoveredAtMs", epochMs)].

Definition windows_ordered (w : PlanWindows) : bool :=
  (pw_activationStartMs w <=? pw_primaryStartMs w) && (pw_primaryStartMs w <? pw_primaryEndMs w) &&
  (pw_primaryEndMs w <=? pw_settlementEndMs w).

Definition windowsSchema : schema :=
  SRefine (SObject
    [(js "activationStartMs", epochMs); (js "primaryStartMs", epochMs); (js "primaryEndMs", epochMs);
     (js "settlementEndMs", epochMs)])
    (check_as PlanWindows windows_ordered).

Definition capabilityEntrySchema : schema := SObject
  [(js "providerId", plan_identifier); (js "capability", enumSchema ProviderCapability);
   (js "available", SBoolean); (js "credentialRequirement", enumSchema CredentialRequirement)].

Definition assignmentSchema : schema := SObject
  [(js "lane", enumSchema EventClusterLane); (js "providerId", plan_identifier);
   (js "capabilities", nonempty_array (enumSchema ProviderCapability) 8)].

Definition effectsSchema : schema := SObject
  (map (λ k, (js k, SLiteral (jint 0)))
    ["network"; "provider"; "credential"; "account"; "subscription"; "spending"; "broker";
     "order"; "portfolio"; "position"; "fill"; "financialEffect"]%string).

(** [z.array(s).length(n)] *)
Definition array_of_length (s : schema) (n : nat) : schema :=
  SRefine (SArray s (Some (Z.of_nat n)))
    (λ v, match v with JArr l => bool_decide (length l = n) | _ => true end).

Definition specSchema : schema := SObject
  [(js "windows", windowsSchema);
   (js "sourceAssignments", array_of_length assignmentSchema (length EVENT_CLUSTER_LANES));
   (js "expectedForms", nonempty_array (nonempty_upto 16) 8);
   (js "expectedItems", nonempty_array (SString [CRegex is_item]) 16);
   (js "exhibitAliases", nonempty_array (enumSchema ExhibitAlias) 2);
   (js "rawRetention", SLiteral (JStr (js "immutable")));
   (js "duplicatePolicy", SLiteral (JStr (js "provider-record-revision")));
   (js "correctionPolicy", SLiteral (JStr (js "explicit-replacement")));
   (js "stableMissingPolicy", SLiteral (JStr (js "lane-settlement")));
   (js "prohibitedEffects", effectsSchema)].

Definition spec_of (kvs : jobject) : option EventPlanSpec :=
  w ← get_record PlanWindows (js "windows") kvs;
  a ← get_list SourceAssignment (js "sourceAssignments") kvs;
  f ← get_strs (js "expectedForms") kvs;
  i ← get_strs (js "expectedItems") kvs;
  x ← get_enums ExhibitAlias (js "exhibitAliases") kvs;
  Some {| sp_windows := w; sp_sourceAssignments := a; sp_expectedForms := f;
          sp_expectedItems := i; sp_exhibitAliases := x |}.

(** ** The market windows *)

Definition market_window (id anchor : string) (offsets : option (Z * Z)) : json := JObj
  [(js "id", JStr (js id)); (js "granularity", JStr (js "one-minute-bars"));
   (js "evidenceClass", JStr (js "coarse-movement-not-tradability"));
   (js "anchor", JStr (js anchor)); (js "startMinuteOffset", jnull jint (fst <$> offsets));
   (js "endMinuteOffset", jnull jint (snd <$> offsets))].

Definition MARKET_WINDOWS : json := JArr
  [market_window "pre-event" "event-relative" (Some (-30, -1));
   market_window "release-gap" "event-relative" (Some (0, 0));
   market_window "plus-1" "event-relative" (Some (1, 1));
   market_window "plus-5" "event-relative" (Some (5, 5));
   market_window "plus-30" "event-relative" (Some (30, 30));
   market_window "close" "session-close" None;
   market_window "next-session" "next-session" None].

(** ** Plans as JSON *)

Definition acquisition_fields (p : AcquisitionPlan) : jobject :=
  [(js "lane", jenum (ap_lane p)); (js "providerId", JStr (ap_providerId p));
   (js "capabilities", jenums (ap_capabilities p)); (js "readiness", jenum (ap_readiness p));
   (js "blocker", jnull JStr (ap_blocker p))].

Definition amendment_fields (a : EventPlanAmendment) : jobject :=
  [(js "amendmentId", JStr (am_amendmentId a)); (js "recordedAtMs", jint (am_recordedAtMs a));
   (js "reason", JStr (am_reason a)); (js "priorRevisionDigest", JStr (am_priorRevisionDigest a));
   (js "changeDigest", JStr (am_changeDigest a)); (js "changes", JObj (am_changes a))].

(** What the plan id covers. *)
Definition plan_terms (p : EventPlan) : jobject :=
  [(js "candidate", to_json (ep_candidate p)); (js "windows", to_json (ep_windows p));
   (js "acquisitionPlans", JArr (map (JObj ∘ acquisition_fields) (ep_acquisitionPlans p)));
   (js "expectedForms", jstrs (ep_expectedForms p)); (js "expectedItems", jstrs (ep_expectedItems p));
   (js "exhibitAliases", jenums (ep_exhibitAliases p));
   (js "marketSubjects", jstrs (ep_marketSubjects p)); (js "marketWindows", MARKET_WINDOWS)] ++
  policy_fields.

(** A plan without its [revisionDigest]. *)
Definition plan_content (p : EventPlan) : jobject :=
  [(js "schemaVersion", jint 1); (js "planId", JStr (ep_planId p));
   (js "revision", jint (ep_revision p)); (js "frozen", JBool true)] ++ plan_terms p ++
  [(js "amendments", JArr (map (JObj ∘ amendment_fields) (ep_amendments p)))].

(** ** Errors and arguments *)

Definition BetaError (code : string) : exn := CodedError "EventClusterBetaError" code code.

Section arguments.
Context `{Zod}.

(** [epoch.parse(value)].  Negative zero passes, and is refused by the encoder when the
    object it goes into is hashed; here it is refused at once. *)
Definition epoch_arg (value : jsnum) : res Z :=
  do! parse epochMs (JNum value) ;;
  match value with NInt z => Ok z | _ => Throw (TypeError "negative zero") end.

(** [schema.parse(inertJsonSnapshot(value))], as the type it describes. *)
Definition parse_as {A} (s : schema) (read : jobject → option A) (value : json) : res A :=
  let* snapshot := inertJsonSnapshot value in
  let* parsed := parse s snapshot in
  or_throw (as_obj parsed ≫= read) ZodError.

Definition parse_list A `{Codec A} (s : schema) (value : json) : res (list A) :=
  let* snapshot := inertJsonSnapshot value in
  let* parsed := parse s snapshot in
  or_throw (match parsed with JArr l => mapM of_json l | _ => None end) ZodError.
End arguments.

(** ** Compilation *)

(** [[...new Set(values)].sort()] *)
Definition sortedUnique (values : list jsstring) : list jsstring :=
  sort_by js_leb (remove_dups values).

(** The same on a list of literals, which sort by their texts. *)
Definition sorted_literals {A} `{Enumerated A} `{EqDecision A} (values : list A) : list A :=
  sort_by (λ a b, js_leb (enum_name a) (enum_name b)) (remove_dups values).

Definition registered_entry (registry : list ProviderCapabilityEntry) (providerId : jsstring)
    (capability : ProviderCapability) : option ProviderCapabilityEntry :=
  find (λ e, same_string (pc_providerId e) providerId && bool_decide (pc_capability e = capability))
    registry.

(** The loop over the capabilities, with its early exits. *)
Fixpoint readiness_of (registry : list ProviderCapabilityEntry) (providerId : jsstring)
    (capabilities : list ProviderCapability) : Readiness * option jsstring :=
  match capabilities with
  | [] => (Ready, None)
  | c :: rest =>
      match registered_entry registry providerId c with
      | Some entry =>
          if negb (pc_available entry)
          then (Capability_unavailable, Some (js "capability-unavailable:" ++ enum_name c))
          else if bool_decide (pc_credentialRequirement entry = Separately_authorized)
          then (Authorization_required, Some (js "authorization-required:" ++ enum_name c))
          else readiness_of registry providerId rest
      | None => (Capability_unavailable, Some (js "capability-unavailable:" ++ enum_name c))
      end
  end.

Definition acquisition_plan (registry : list ProviderCapabilityEntry) (a : SourceAssignment) :
    AcquisitionPlan :=
  let capabilities := sorted_literals (sa_capabilities a) in
  let (readiness, blocker) := readiness_of registry (sa_providerId a) capabilities in
  {| ap_lane := sa_lane a; ap_providerId := sa_providerId a; ap_capabilities := capabilities;
     ap_readiness := readiness; ap_blocker := blocker |}.

(** The callback of [map], with the set of lanes it has seen. *)
Fixpoint acquisition_loop (registry : list ProviderCapabilityEntry) (lanes : list EventClusterLane)
    (assignments : list SourceAssignment) : res (list AcquisitionPlan) :=
  match assignments with
  | [] => Ok []
  | a :: rest =>
      guard! bool_decide (sa_lane a ∈ lanes) throws BetaError "event-plan.duplicate-lane" ;;
      let* plans := acquisition_loop registry (sa_lane a :: lanes) rest in
      Ok (acquisition_plan registry a :: plans)
  end.

Section plans.
Context `{Sha256} `{Zod} `{Locale}.

Definition acquisitionPlans (assignments : list SourceAssignment)
    (registry : list ProviderCapabilityEntry) : res (list AcquisitionPlan) :=
  let* plans := acquisition_loop registry [] assignments in
  guard! negb (bool_decide (length plans = length EVENT_CLUSTER_LANES))
    throws BetaError "event-plan.lane-set-incomplete" ;;
  Ok (sort_by (λ a b, locale_leb (enum_name (ap_lane a)) (enum_name (ap_lane b))) plans).

Definition revision_digest (p : EventPlan) : res jsstring :=
  let* snapshot := inertJsonSnapshot (JObj (plan_content p)) in
  canonicalHash (js "peas/event-plan-revision/v1") snapshot.

Definition set_digest (p : EventPlan) (digest : jsstring) : EventPlan := {|
  ep_planId := ep_planId p; ep_revision := ep_revision p; ep_revisionDigest := digest;
  ep_candidate := ep_candidate p; ep_windows := ep_windows p;
  ep_acquisitionPlans := ep_acquisitionPlans p; ep_expectedForms := ep_expectedForms p;
  ep_expectedItems := ep_expectedItems p; ep_exhibitAliases := ep_exhibitAliases p;
  ep_marketSubjects := ep_marketSubjects p; ep_amendments := ep_amendments p |}.

(** The plan of a candidate, before its identity is computed. *)
Definition drafted_plan (candidate : CalendarCandidate) (spec : EventPlanSpec)
    (plans : list AcquisitionPlan) (planId : jsstring) : EventPlan := {|
  ep_planId := planId; ep_revision := 1; ep_revisionDigest := []; ep_candidate := candidate;
  ep_windows := sp_windows spec; ep_acquisitionPlans := plans;
  ep_expectedForms := sortedUnique (sp_expectedForms spec);
  ep_expectedItems := sortedUnique (sp_expectedItems spec);
  ep_exhibitAliases := sorted_literals (sp_exhibitAliases spec);
  ep_marketSubjects := [cc_ticker candidate; js "SPY"; cc_sectorBenchmark candidate];
  ep_amendments := [] |}.

Definition compileEventPlan (candidateInput specInput registryInput : json) : res EventPlan :=
  let* candidate := parse_as candidateSchema candidate_of candidateInput in
  let* spec := parse_as specSchema spec_of specInput in
  let* registry := parse_list ProviderCapabilityEntry
    (SArray capabilityEntrySchema (Some 64)) registryInput in
  let* plans := acquisitionPlans (sp_sourceAssignments spec) registry in
  let* identityPreimage := inertJsonSnapshot (JObj (plan_terms (drafted_plan candidate spec plans []))) in
  let* planId := canonicalHash (js "peas/event-plan/v1") identityPreimage in
  let withoutDigest := drafted_plan candidate spec plans planId in
  let* digest := revision_digest withoutDigest in
  Ok (set_digest withoutDigest digest).

(** ** Several calendars *)

Definition event_key (c : CalendarCandidate) : jsstring :=
  cc_issuerId c ++ js ":" ++ cc_fiscalPeriod c.

(** [byEvent], in insertion order. *)
Fixpoint group_insert (key : jsstring) (c : CalendarCandidate)
    (groups : list (jsstring * list CalendarCandidate)) : list (jsstring * list CalendarCandidate) :=
  match groups with
  | [] => [(key, [c])]
  | g :: rest => if same_string g.1 key then (g.1, g.2 ++ [c]) :: rest
                 else g :: group_insert key c rest
  end.

Definition group_candidates (candidates : list CalendarCandidate) :
    list (jsstring * list CalendarCandidate) :=
  foldl (λ groups c, group_insert (event_key c) c groups) [] candidates.

Definition calendar_key (c : CalendarCandidate) : jsstring :=
  cc_calendarSourceId c ++ js ":" ++ cc_calendarRevisionId c.

Definition compile_group (specInput registryInput : json) (values : list CalendarCandidate) :
    res EventPlan :=
  guard! negb (bool_decide (length (remove_dups (map cc_expectedEventDate values)) = 1%nat)) ||
         negb (bool_decide (length (remove_dups (map cc_expectedSession values)) = 1%nat))
    throws BetaError "event-plan.calendar-conflict" ;;
  let* selected := or_throw
    (head (sort_by (λ a b, locale_leb (calendar_key a) (calendar_key b)) values))
    (BetaError "event-plan.calendar-empty") in
  compileEventPlan (to_json selected) specInput registryInput.

Definition compileCalendarCandidates (candidatesInput specInput registryInput : json) :
    res (list EventPlan) :=
  let* candidates := parse_list CalendarCandidate (nonempty_array candidateSchema 32) candidatesInput in
  let* plans := res_map (λ g, compile_group specInput registryInput g.2) (group_candidates candidates) in
  Ok (sort_by (λ a b, locale_leb (ep_planId a) (ep_planId b)) plans).

(** ** Amendments *)

(** [{ ...object, [key]: value }] for a key the object has. *)
Definition override (key : jsstring) (value : option json) (kvs : jobject) : jobject :=
  match value with
  | Some v => map (λ kv, if same_string kv.1 key then (kv.1, v) else kv) kvs
  | None => kvs
  end.

Definition amended_candidate (c : CalendarCandidate) (changes : jobject) : json :=
  JObj (override (js "expectedSession") (lookup_key (js "expectedSession") changes)
    (override (js "expectedEventDate") (lookup_key (js "expectedEventDate") changes)
      (candidate_fields c))).

Definition amended_plan (p : EventPlan) (candidate : CalendarCandidate) (windows : PlanWindows)
    (amendment : EventPlanAmendment) : EventPlan := {|
  ep_planId := ep_planId p; ep_revision := ep_revision p + 1; ep_revisionDigest := [];
  ep_candidate := candidate; ep_windows := windows;
  ep_acquisitionPlans := ep_acquisitionPlans p; ep_expectedForms := ep_expectedForms p;
  ep_expectedItems := ep_expectedItems p; ep_exhibitAliases := ep_exhibitAliases p;
  ep_marketSubjects := ep_marketSubjects p; ep_amendments := ep_amendments p ++ [amendment] |}.

Definition amendEventPlan (plan : EventPlan) (amendmentId : jsstring) (recordedAtMs : jsnum)
    (reason : jsstring) (changesInput : jobject) : res EventPlan :=
  do! parse plan_identifier (JStr amendmentId) ;;
  let* recordedAtMs := epoch_arg recordedAtMs in
  do! parse (nonempty_upto 512) (JStr reason) ;;
  guard! existsb (λ a, same_string (am_amendmentId a) amendmentId) (ep_amendments plan)
    throws BetaError "event-plan.amendment-duplicate" ;;
  let* snapshot := inertJsonSnapshot (JObj changesInput) in
  let* changes := or_throw (as_obj snapshot) ZodError in
  guard! bool_decide (changes = []) throws BetaError "event-plan.amendment-empty" ;;
  let* windows := match lookup_key (js "windows") changes with
    | None => Ok (ep_windows plan)
    | Some w => let* parsed := parse windowsSchema w in or_throw (of_json parsed) ZodError
    end in
  let* parsed := parse candidateSchema (amended_candidate (ep_candidate plan) changes) in
  let* candidate := or_throw (of_json parsed) ZodError in
  let* changeDigest := canonicalHash (js "peas/event-plan-amendment/v1") (JObj changes) in
  let withoutDigest := amended_plan plan candidate windows {|
    am_amendmentId := amendmentId; am_recordedAtMs := recordedAtMs; am_reason := reason;
    am_priorRevisionDigest := ep_revisionDigest plan; am_changeDigest := changeDigest;
    am_changes := changes |} in
  let* digest := revision_digest withoutDigest in
  Ok (set_digest withoutDigest digest).
End plans.
