(* ===== verification/EventPlanFacts.v ===== *)
(** * What compiled and amended plans look like

    The canonical form of the lists of a plan, the lanes of a compiled plan, and what an
    amendment may change. *)
From S2P Require Import Prelude JsString JsNumber Json JsonLimits JsonParse JsonClaims Hash Zod.
From S2P Require Import JsonObject Event EventFacts Codec Records Evidence EventPlan.

(** ** Sorted lists without repetitions *)

Lemma sorted_distinct_ext {A} `{EqDecision A} (name : A → jsstring) (l k : list A) :
  (∀ a b, name a = name b → a = b) → (∀ x, x ∈ l ↔ x ∈ k) →
  sort_by (λ a b, js_leb (name a) (name b)) (remove_dups l) =
  sort_by (λ a b, js_leb (name a) (name b)) (remove_dups k).
Proof.
  intros Hinj Hlk. apply sort_by_perm_eq.
  - intros a b. apply js_leb_total.
  - intros a b c. apply js_leb_trans.
  - intros a b _ _ Hab Hba. by apply Hinj, js_leb_antisym.
  - apply NoDup_Permutation; [apply NoDup_remove_dups..|]. intros x. by rewrite !elem_of_remove_dups.
Qed.

Lemma sortedUnique_ext l k : (∀ x, x ∈ l ↔ x ∈ k) → sortedUnique l = sortedUnique k.
Proof. by apply (sorted_distinct_ext id). Qed.

Lemma sorted_literals_ext {A} `{Enumerated A} `{EqDecision A} (l k : list A) :
  (∀ x, x ∈ l ↔ x ∈ k) → sorted_literals l = sorted_literals k.
Proof. apply sorted_distinct_ext, enum_name_inj. Qed.

Lemma sortedUnique_spec l :
  NoDup (sortedUnique l) ∧ StronglySorted (λ a b, js_leb a b = true) (sortedUnique l) ∧
  ∀ x, x ∈ sortedUnique l ↔ x ∈ l.
Proof.
  unfold sortedUnique. split_and!.
  - rewrite sort_by_perm. apply NoDup_remove_dups.
  - apply sort_by_sorted; [apply js_leb_total|apply js_leb_trans].
  - intros x. by rewrite elem_of_sort_by, elem_of_remove_dups.
Qed.

(** ** Lanes *)

Lemma acquisition_loop_Ok registry seen assignments plans :
  acquisition_loop registry seen assignments = Ok plans ↔
    plans = map (acquisition_plan registry) assignments ∧
    NoDup (map sa_lane assignments) ∧ ∀ a, a ∈ assignments → sa_lane a ∉ seen.
Proof.
  revert seen plans. induction assignments as [|a l IH]; intros seen plans; cbn [acquisition_loop map].
  { split; [intros [= <-]; split_and!; [done|constructor|by intros ? ?%elem_of_nil]|by intros (-> & _)]. }
  rewrite res_bind_Ok. setoid_rewrite throw_if_Ok. setoid_rewrite res_bind_Ok. setoid_rewrite IH.
  rewrite NoDup_cons, list_elem_of_fmap. split.
  - intros (_ & Ha & ps & (-> & Hnd & Hl) & [= <-]). bool_prop. split; [done|]. split; [split; [|done]|].
    + intros (b & Hab & Hb). apply (Hl b Hb). rewrite <-Hab. by left.
    + intros b [->|Hb]%elem_of_cons; [done|]. intros Hs. apply (Hl b Hb). by right.
  - intros (-> & [Hn Hnd] & Hl). exists tt. split; [apply bool_decide_eq_false_2, Hl; by left|].
    eexists. split; [split_and!; [reflexivity|done|]|done].
    intros b Hb [E|Hs]%elem_of_cons; [apply Hn; by exists b|]. apply (Hl b); [by right|done].
Qed.

Lemma acquisition_plan_lane registry a : ap_lane (acquisition_plan registry a) = sa_lane a.
Proof. unfold acquisition_plan. by destruct (readiness_of _ _ _). Qed.

(** All four lanes are there once. *)
Lemma all_lanes (l : list EventClusterLane) :
  NoDup l → length l = length EVENT_CLUSTER_LANES → l ≡ₚ EVENT_CLUSTER_LANES.
Proof.
  intros Hnd Hl. apply submseteq_length_Permutation; [|by rewrite Hl].
  apply NoDup_submseteq; [done|]. intros x _. by destruct x; solve_elem.
Qed.

Lemma readiness_blocker registry p cs :
  (readiness_of registry p cs).2 = None ↔ (readiness_of registry p cs).1 = Ready.
Proof.
  induction cs as [|c cs IH]; [done|]. cbn [readiness_of].
  destruct (registered_entry registry p c) as [e|]; [|done].
  destruct (negb (pc_available e)); [done|]. by case_bool_decide.
Qed.

Lemma acquisition_blocker registry a :
  ap_blocker (acquisition_plan registry a) = None ↔ ap_readiness (acquisition_plan registry a) = Ready.
Proof.
  unfold acquisition_plan. pose proof (readiness_blocker registry (sa_providerId a)
    (sorted_literals (sa_capabilities a))) as Hr.
  by destruct (readiness_of _ _ _).
Qed.

Lemma blocker_units registry p cs :
  default True (units_ok <$> (readiness_of registry p cs).2).
Proof.
  assert (Ht : ∀ (t : string) (c : ProviderCapability), units_ok (js t ++ enum_name c)).
  { intros t c. apply Forall_app. split; [apply js_units|apply enum_units]. }
  induction cs as [|c cs IH]; [done|]. cbn [readiness_of].
  destruct (registered_entry registry p c) as [e|]; [|apply Ht].
  destruct (negb (pc_available e)); [apply Ht|]. case_bool_decide; [apply Ht|done].
Qed.

Lemma acquisition_blocker_units registry a :
  default True (units_ok <$> ap_blocker (acquisition_plan registry a)).
Proof.
  unfold acquisition_plan. pose proof (blocker_units registry (sa_providerId a)
    (sorted_literals (sa_capabilities a))) as Hr.
  by destruct (readiness_of _ _ _).
Qed.

Section plans.
Context `{Sha256} `{Zod} `{Locale}.

Local Abbreviation lane_leb := (λ a b : AcquisitionPlan,
  locale_leb (enum_name (ap_lane a)) (enum_name (ap_lane b))).

Lemma acquisitionPlans_Ok assignments registry plans :
  acquisitionPlans assignments registry = Ok plans ↔
    plans = sort_by lane_leb (map (acquisition_plan registry) assignments) ∧
    map sa_lane assignments ≡ₚ EVENT_CLUSTER_LANES.
Proof.
  unfold acquisitionPlans. rewrite res_bind_Ok. setoid_rewrite acquisition_loop_Ok.
  setoid_rewrite res_bind_Ok. setoid_rewrite throw_if_Ok. split.
  - intros (ps & (-> & Hnd & _) & _ & Hlen & [= <-]). bool_prop. split; [done|].
    rewrite length_map in Hlen. apply all_lanes; [done|by rewrite length_map].
  - intros (-> & Hp). eexists. split; [split_and!; [reflexivity| |by intros ? _ ?%elem_of_nil]|].
    + rewrite Hp. apply (bool_decide_unpack _). by vm_compute.
    + exists tt. split; [|done]. rewrite length_map, <-(length_map sa_lane), (Permutation_length Hp). done.
Qed.

(** A plan as compilation leaves it and amendments keep it. *)
Record plan_ok (p : EventPlan) : Prop := {
  po_lanes : map ap_lane (ep_acquisitionPlans p) ≡ₚ EVENT_CLUSTER_LANES;
  po_sorted : StronglySorted (λ a b, lane_leb a b = true) (ep_acquisitionPlans p);
  po_blockers : Forall (λ a, ap_blocker a = None ↔ ap_readiness a = Ready) (ep_acquisitionPlans p);
  po_windows : windows_ordered (ep_windows p) = true;
  po_revision : ep_revision p = 1 + Z.of_nat (length (ep_amendments p));
  po_amendments : NoDup (map am_amendmentId (ep_amendments p));
  po_digest : revision_digest p = Ok (ep_revisionDigest p);
  po_hashes : is_hash (ep_planId p) = true ∧ is_hash (ep_revisionDigest p) = true;
  po_texts : Forall (λ a, default True (units_ok <$> ap_blocker a)) (ep_acquisitionPlans p)
}.

Lemma revision_digest_hash p d : revision_digest p = Ok d → is_hash d = true.
Proof.
  intros Hd. unfold revision_digest in Hd. apply res_bind_Ok in Hd as (w & _ & Hd).
  by eapply canonicalHash_hash.
Qed.

Lemma set_digest_seals p d : revision_digest p = Ok d → revision_digest (set_digest p d) = Ok d.
Proof. done. Qed.

Lemma plans_lanes assignments registry :
  map sa_lane assignments ≡ₚ EVENT_CLUSTER_LANES →
  map ap_lane (sort_by lane_leb (map (acquisition_plan registry) assignments)) ≡ₚ EVENT_CLUSTER_LANES.
Proof.
  intros Hp. rewrite sort_by_perm, map_map. erewrite map_ext; [exact Hp|].
  intros a. apply acquisition_plan_lane.
Qed.

Lemma parse_as_Ok {A} s (read : jobject → option A) v a :
  parse_as s read v = Ok a → ∃ w, inertJsonSnapshot v = Ok w ∧ accepts_ref s w = true ∧
    as_obj w ≫= read = Some a.
Proof.
  unfold parse_as. intros Hp. apply res_bind_Ok in Hp as (w & Hw & Hp). exists w. split; [done|].
  apply res_bind_Ok in Hp as (w' & Hw' & Hp). apply parse_Ok in Hw' as [Ha ->].
  by apply or_throw_Ok in Hp.
Qed.

Lemma spec_windows_ordered v spec : parse_as specSchema spec_of v = Ok spec →
  windows_ordered (sp_windows spec) = true.
Proof.
  intros (w & _ & Ha & Hr)%parse_as_Ok. destruct w as [| | | | |kvs]; try done.
  cbn [as_obj mbind option_bind] in Hr. unfold spec_of in Hr. read_fields Hr. injection Hr as <-.
  unfold get_record in E. apply bind_Some in E as (v0 & Hk & Hv).
  eapply (object_field _ _ (js "windows") windowsSchema) in Ha; [|unfold specSchema; solve_elem|exact Hk].
  unfold windowsSchema in Ha. cbn [accepts_ref] in Ha. apply andb_true_iff in Ha as [_ Ha].
  unfold check_as, check_with in Ha. unfold of_json in Hv. cbn [sp_windows].
  destruct (as_obj v0) as [o|]; [|done]. cbn [mbind option_bind] in Ha, Hv. by rewrite Hv in Ha.
Qed.

Lemma compileEventPlan_ok c s r p : compileEventPlan c s r = Ok p → plan_ok p.
Proof.
  unfold compileEventPlan. intros Hp. apply res_bind_Ok in Hp as (cand & Hc & Hp).
  apply res_bind_Ok in Hp as (spec & Hs & Hp). apply res_bind_Ok in Hp as (reg & Hr & Hp).
  apply res_bind_Ok in Hp as (plans & Hpl & Hp). apply acquisitionPlans_Ok in Hpl as [-> Hlanes].
  apply res_bind_Ok in Hp as (pre & _ & Hp). apply res_bind_Ok in Hp as (id & Hid & Hp).
  apply res_bind_Ok in Hp as (d & Hd & Hp). apply Ok_inj in Hp as <-.
  split; cbn [set_digest drafted_plan ep_acquisitionPlans ep_windows ep_revision ep_amendments ep_revisionDigest].
  - by apply plans_lanes.
  - apply sort_by_sorted; intros; [apply locale_leb_total|by eapply locale_leb_trans].
  - apply Forall_forall. intros a (b & -> & _)%elem_of_sort_by%list_elem_of_fmap.
    apply acquisition_blocker.
  - by eapply spec_windows_ordered.
  - done.
  - constructor.
  - exact Hd.
  - split; [by eapply canonicalHash_hash|by eapply revision_digest_hash].
  - apply Forall_forall. intros a (b & -> & _)%elem_of_sort_by%list_elem_of_fmap.
    apply acquisition_blocker_units.
Qed.
End plans.

(** ** Amendments *)

(** The calendar moved; the subject is the same. *)
Record same_subject (c c' : CalendarCandidate) : Prop := {
  ss_calendar : cc_calendarSourceId c' = cc_calendarSourceId c ∧
    cc_calendarRevisionId c' = cc_calendarRevisionId c ∧ cc_discoveredAtMs c' = cc_discoveredAtMs c;
  ss_issuer : cc_issuerId c' = cc_issuerId c ∧ cc_cik c' = cc_cik c ∧
    cc_fiscalPeriod c' = cc_fiscalPeriod c;
  ss_instrument : cc_ticker c' = cc_ticker c ∧ cc_exchange c' = cc_exchange c ∧
    cc_instrumentId c' = cc_instrumentId c ∧ cc_sectorBenchmark c' = cc_sectorBenchmark c
}.

#[export] Instance same_subject_preorder : PreOrder same_subject.
Proof.
  split; [by split|].
  intros a b c [(A1 & A2 & A3) (A4 & A5 & A6) (A7 & A8 & A9 & A10)]
    [(B1 & B2 & B3) (B4 & B5 & B6) (B7 & B8 & B9 & B10)].
  split; split_and!; congruence.
Qed.

Lemma amended_candidate_subject c changes c' :
  of_json (amended_candidate c changes) = Some c' → same_subject c c'.
Proof.
  unfold of_json, amended_candidate. cbn [as_obj mbind option_bind]. intros Hc.
  change (candidate_of (override (js "expectedSession") (lookup_key (js "expectedSession") changes)
    (override (js "expectedEventDate") (lookup_key (js "expectedEventDate") changes)
      (candidate_fields c))) = Some c') in Hc.
  unfold candidate_of in Hc. read_fields Hc. injection Hc as <-.
  destruct (lookup_key (js "expectedSession") changes) as [v|],
    (lookup_key (js "expectedEventDate") changes) as [w|];
    (split; cbn [cc_calendarSourceId cc_calendarRevisionId cc_discoveredAtMs cc_issuerId cc_cik
      cc_fiscalPeriod cc_ticker cc_exchange cc_instrumentId cc_sectorBenchmark]; split_and!);
    match goal with
    | H : get_str (js ?k) _ = Some ?x |- ?x = _ => injection H as <-; reflexivity
    | H : get_int (js ?k) _ = Some ?x |- ?x = _ => injection H as <-; reflexivity
    end.
Qed.

Section amendments.
Context `{Sha256} `{Zod} `{Locale}.

(** What an amendment does to a plan. *)
Record amends (p p' : EventPlan) (a : EventPlanAmendment) : Prop := {
  as_plan : ep_planId p' = ep_planId p;
  as_revision : ep_revision p' = ep_revision p + 1;
  as_subject : same_subject (ep_candidate p) (ep_candidate p');
  as_sources : ep_acquisitionPlans p' = ep_acquisitionPlans p;
  as_material : ep_expectedForms p' = ep_expectedForms p ∧ ep_expectedItems p' = ep_expectedItems p ∧
    ep_exhibitAliases p' = ep_exhibitAliases p ∧ ep_marketSubjects p' = ep_marketSubjects p;
  as_amendments : ep_amendments p' = ep_amendments p ++ [a];
  as_fresh : am_amendmentId a ∉ map am_amendmentId (ep_amendments p);
  as_changes : am_changes a ≠ [];
  as_prior : am_priorRevisionDigest a = ep_revisionDigest p;
  as_change : canonicalHash (js "peas/event-plan-amendment/v1") (JObj (am_changes a)) =
    Ok (am_changeDigest a)
}.

Lemma amended_windows_ordered p w ws :
  windows_ordered (ep_windows p) = true →
  match w with
  | None => Ok (ep_windows p)
  | Some w => let* parsed := parse windowsSchema w in or_throw (of_json parsed) ZodError
  end = Ok ws → windows_ordered ws = true.
Proof.
  intros Hp Hw. destruct w as [w|]; [|by injection Hw as <-].
  apply res_bind_Ok in Hw as (v & Hv & Hw). apply parse_Ok in Hv as [Ha ->]. apply or_throw_Ok in Hw.
  unfold windowsSchema in Ha. cbn [accepts_ref] in Ha. apply andb_true_iff in Ha as [_ Ha].
  unfold check_as, check_with in Ha. unfold of_json in Hw. destruct (as_obj w) as [o|]; [|done].
  cbn [mbind option_bind] in Ha, Hw. by rewrite Hw in Ha.
Qed.

Lemma amendEventPlan_Ok p id at_ reason changes p' :
  plan_ok p → amendEventPlan p id at_ reason changes = Ok p' → plan_ok p' ∧ ∃ a, amends p p' a.
Proof.
  intros [P1 P2 P3 P4 P5 P6 P7 [P8 P9] P10] Hp. unfold amendEventPlan in Hp.
  apply res_bind_Ok in Hp as (u1 & _ & Hp). apply res_bind_Ok in Hp as (t & _ & Hp).
  apply res_bind_Ok in Hp as (u2 & _ & Hp). apply res_bind_Ok in Hp as (u3 & Hid & Hp).
  apply throw_if_Ok in Hid. apply res_bind_Ok in Hp as (sn & _ & Hp).
  apply res_bind_Ok in Hp as (ch & _ & Hp). apply res_bind_Ok in Hp as (u4 & Hch & Hp).
  apply throw_if_Ok, bool_decide_eq_false in Hch. apply res_bind_Ok in Hp as (ws & Hws & Hp).
  apply (amended_windows_ordered _ _ _ P4) in Hws.
  apply res_bind_Ok in Hp as (pc & Hpc & Hp). apply parse_Ok in Hpc as [_ ->].
  apply res_bind_Ok in Hp as (c & Hc & Hp). apply or_throw_Ok, amended_candidate_subject in Hc.
  apply res_bind_Ok in Hp as (cd & Hcd & Hp). apply res_bind_Ok in Hp as (d & Hd & Hp).
  apply Ok_inj in Hp as <-.
  assert (Hfresh : id ∉ map am_amendmentId (ep_amendments p)).
  { intros (a & -> & Ha)%list_elem_of_fmap. apply not_true_iff_false in Hid. apply Hid.
    apply existsb_exists. exists a. split; [by apply list_elem_of_In|]. by apply bool_decide_eq_true. }
  split.
  - split; cbn [set_digest amended_plan ep_acquisitionPlans ep_windows ep_revision ep_amendments
      ep_revisionDigest]; try done.
    + rewrite length_app. cbn [length]. lia.
    + rewrite map_app. apply NoDup_app. split_and!; [done| |apply NoDup_singleton].
      intros x Hx ->%list_elem_of_singleton. done.
    + split; [done|by eapply revision_digest_hash].
  - eexists. split; try reflexivity; try done.
Qed.

(** Plans that amendments make of one. *)
Inductive amended_from (p : EventPlan) : EventPlan → Prop :=
  | amended_here : amended_from p p
  | amended_next q id at_ reason changes r :
      amended_from p q → amendEventPlan q id at_ reason changes = Ok r → amended_from p r.

(** What stays the same, and what only grows. *)
Record plan_later (p p' : EventPlan) : Prop := {
  pl_plan : ep_planId p' = ep_planId p;
  pl_subject : same_subject (ep_candidate p) (ep_candidate p');
  pl_sources : ep_acquisitionPlans p' = ep_acquisitionPlans p;
  pl_material : ep_expectedForms p' = ep_expectedForms p ∧ ep_expectedItems p' = ep_expectedItems p ∧
    ep_exhibitAliases p' = ep_exhibitAliases p ∧ ep_marketSubjects p' = ep_marketSubjects p;
  pl_amendments : ep_amendments p `prefix_of` ep_amendments p'
}.

#[export] Instance plan_later_preorder : PreOrder plan_later.
Proof.
  split; [by split|]. intros a b c [A1 A2 A3 (A4 & A5 & A6 & A7) A8] [B1 B2 B3 (B4 & B5 & B6 & B7) B8].
  split; [congruence|by etrans|congruence|split_and!; congruence|by etrans].
Qed.

Lemma amends_later p p' a : amends p p' a → plan_later p p'.
Proof. intros [A1 _ A2 A3 A4 A5 _ _ _ _]. split; try done. rewrite A5. by apply prefix_app_r. Qed.

Lemma amended_from_ok p q : plan_ok p → amended_from p q → plan_ok q ∧ plan_later p q.
Proof.
  intros Hp. induction 1 as [|q id at_ reason changes r Hq [IH1 IH2] Hr]; [done|].
  destruct (amendEventPlan_Ok _ _ _ _ _ _ IH1 Hr) as (Hok & a & Ha). split; [done|].
  etrans; [exact IH2|]. by eapply amends_later.
Qed.

(** Every amendment of a plan names the digest of the plan it amended. *)
Lemma amended_from_chain p q i a :
  plan_ok p → amended_from p q → ep_amendments q !! i = Some a → (length (ep_amendments p) ≤ i)%nat →
  ∃ r, amended_from p r ∧ ep_amendments r = take i (ep_amendments q) ∧
    ep_revisionDigest r = am_priorRevisionDigest a.
Proof.
  intros Hp Hq. revert i a. induction Hq as [|q id at_ reason changes r Hq IH Hr]; intros i a Ha Hi.
  { apply lookup_lt_Some in Ha. lia. }
  destruct (amended_from_ok _ _ Hp Hq) as [Hok _].
  destruct (amendEventPlan_Ok _ _ _ _ _ _ Hok Hr) as (_ & b & Hb).
  rewrite (as_amendments _ _ _ Hb) in Ha |- *.
  destruct (decide (i < length (ep_amendments q))%nat) as [Hlt|Hge].
  - rewrite lookup_app_l in Ha by done. destruct (IH i a Ha Hi) as (s & Hs & E & Hd).
    exists s. split; [done|]. by rewrite take_app_le by lia.
  - rewrite lookup_app_r in Ha by lia. apply list_lookup_singleton_Some in Ha as [Hz <-].
    exists q. split; [done|]. rewrite take_app_length' by lia. split; [done|]. symmetry. apply Hb.
Qed.
End amendments.
