(* ===== verification/EventCalendar.v ===== *)
(** * Calendars and the order of inputs

    The candidates of several calendars are grouped by event, and a plan does not depend
    on the order in which a specification lists its sources and materials. *)
From S2P Require Import Prelude JsString JsNumber Json JsonLimits JsonParse JsonClaims Hash Zod.
From S2P Require Import JsonObject Event EventFacts Codec Records Evidence EventPlan EventPlanFacts.

(** ** Groups *)

(** The candidates of an event. *)
Definition candidates_for (cs : list CalendarCandidate) (key : jsstring) : list CalendarCandidate :=
  List.filter (λ c, same_string (event_key c) key) cs.

Definition grouped (cs : list CalendarCandidate) (keys : list jsstring) :
    list (jsstring * list CalendarCandidate) :=
  map (λ k, (k, candidates_for cs k)) keys.

Lemma candidates_for_elem cs k c : c ∈ candidates_for cs k ↔ c ∈ cs ∧ event_key c = k.
Proof.
  unfold candidates_for. rewrite list_elem_of_In, filter_In, <-list_elem_of_In. unfold same_string.
  by rewrite bool_decide_eq_true.
Qed.

Lemma candidates_for_snoc cs c k :
  candidates_for (cs ++ [c]) k = candidates_for cs k ++ if bool_decide (event_key c = k) then [c] else [].
Proof. unfold candidates_for. by rewrite List.filter_app. Qed.

Lemma group_insert_absent k c gs :
  k ∉ map fst gs → group_insert k c gs = gs ++ [(k, [c])].
Proof.
  induction gs as [|g gs IH]; intros Hk; [done|]. cbn [map] in Hk. apply not_elem_of_cons in Hk as [Hg Hk].
  cbn [group_insert]. unfold same_string. rewrite bool_decide_eq_false_2 by done. cbn [app]. by rewrite IH.
Qed.

Lemma group_insert_present cs c keys :
  NoDup keys → event_key c ∈ keys →
  group_insert (event_key c) c (grouped cs keys) = grouped (cs ++ [c]) keys.
Proof.
  unfold grouped. induction keys as [|k keys IH]; intros Hnd Hc; [by apply elem_of_nil in Hc|].
  apply NoDup_cons in Hnd as [Hk Hnd]. cbn [map group_insert fst snd]. rewrite candidates_for_snoc.
  unfold same_string. destruct (decide (k = event_key c)) as [->|E].
  - rewrite !bool_decide_eq_true_2 by done. f_equal. apply map_ext_in. intros k' Hk'%list_elem_of_In.
    rewrite candidates_for_snoc, bool_decide_eq_false_2, app_nil_r; [done|]. by intros <-.
  - rewrite !bool_decide_eq_false_2, app_nil_r by congruence. f_equal. apply IH; [done|].
    apply elem_of_cons in Hc as [Hc|Hc]; [congruence|done].
Qed.

(** Each event has one group, of its candidates in their order. *)
Lemma group_candidates_spec cs :
  ∃ keys, NoDup keys ∧ (∀ k, k ∈ keys ↔ k ∈ map event_key cs) ∧ group_candidates cs = grouped cs keys.
Proof.
  induction cs as [|c cs (keys & Hnd & Hk & Hg)] using rev_ind.
  { exists []. split_and!; [constructor|done|done]. }
  unfold group_candidates in *. rewrite foldl_app. cbn [foldl]. rewrite Hg.
  destruct (decide (event_key c ∈ keys)) as [Hin|Hout].
  - exists keys. split_and!; [done| |by apply group_insert_present]. intros k. rewrite map_app.
    rewrite elem_of_app, <-Hk. cbn [map]. rewrite list_elem_of_singleton. split; [by left|].
    by intros [Hk'| ->].
  - exists (keys ++ [event_key c]). split_and!.
    + apply NoDup_app. split_and!; [done| |apply NoDup_singleton]. by intros x Hx ->%list_elem_of_singleton.
    + intros k. by rewrite map_app, !elem_of_app, Hk.
    + rewrite group_insert_absent.
      * unfold grouped. rewrite map_app. cbn [map]. f_equal.
        -- apply map_ext_in. intros k Hk'%list_elem_of_In. rewrite candidates_for_snoc.
           rewrite bool_decide_eq_false_2, app_nil_r; [done|]. by intros <-.
        -- rewrite candidates_for_snoc, bool_decide_eq_true_2 by done.
           assert (E : candidates_for cs (event_key c) = []); [|by rewrite E].
           destruct (candidates_for cs (event_key c)) as [|x l] eqn:E; [done|]. exfalso. apply Hout, Hk.
           assert (Hx : x ∈ candidates_for cs (event_key c)) by (rewrite E; by left).
           apply candidates_for_elem in Hx as [Hx <-]. by apply list_elem_of_fmap_2.
      * unfold grouped. rewrite map_map. cbn [fst]. by rewrite map_id.
Qed.

Lemma one_value {A} `{EqDecision A} (l : list A) x y :
  length (remove_dups l) = 1%nat → x ∈ l → y ∈ l → x = y.
Proof.
  intros Hl Hx%elem_of_remove_dups Hy%elem_of_remove_dups. destruct (remove_dups l) as [|a [|b r]]; try done.
  apply list_elem_of_singleton in Hx, Hy. congruence.
Qed.

Section calendars.
Context `{Sha256} `{Zod} `{Locale}.

#[export] Instance CalendarCandidate_wf : ReadWf CalendarCandidate.
Proof.
  intros kvs a Hw Ha. change (candidate_of kvs = Some a) in Ha. unfold candidate_of in Ha.
  read_wf_record Hw Ha.
Qed.

Lemma parse_as_record {A} `{Codec A} s (a a' : A) :
  record_wf a → nrm a = a → parse_as s of_fields (to_json a) = Ok a' → a' = a.
Proof.
  intros Hw Hn (w & Hs & _ & Hr)%parse_as_Ok. apply inertJsonSnapshot_spec in Hs as [_ ->]; [|done].
  pose proof (of_json_norm (to_json a) Hw) as E. unfold of_json in E at 1. rewrite Hr in E.
  rewrite of_json_to_json in E. cbn in E. rewrite Hn in E. by injection E.
Qed.

(** The terms of a compiled plan are those of its inputs. *)
Lemma compileEventPlan_Ok c s r p :
  compileEventPlan c s r = Ok p →
  ∃ candidate spec registry plans, parse_as candidateSchema candidate_of c = Ok candidate ∧
    parse_as specSchema spec_of s = Ok spec ∧
    parse_list ProviderCapabilityEntry (SArray capabilityEntrySchema (Some 64)) r = Ok registry ∧
    acquisitionPlans (sp_sourceAssignments spec) registry = Ok plans ∧
    p = set_digest (drafted_plan candidate spec plans (ep_planId p)) (ep_revisionDigest p).
Proof.
  unfold compileEventPlan. intros Hp. apply res_bind_Ok in Hp as (cand & Hc & Hp).
  apply res_bind_Ok in Hp as (spec & Hs & Hp). apply res_bind_Ok in Hp as (reg & Hr & Hp).
  apply res_bind_Ok in Hp as (plans & Hpl & Hp). apply res_bind_Ok in Hp as (pre & _ & Hp).
  apply res_bind_Ok in Hp as (id & Hid & Hp). apply res_bind_Ok in Hp as (d & Hd & Hp).
  apply Ok_inj in Hp as <-. by exists cand, spec, reg, plans.
Qed.

Lemma compiled_candidate c s r p :
  record_wf c → compileEventPlan (to_json c) s r = Ok p → ep_candidate p = c.
Proof.
  intros Hw (c' & spec & reg & plans & Hc & _ & _ & _ & ->)%compileEventPlan_Ok.
  by apply (parse_as_record candidateSchema c c').
Qed.

Lemma parse_list_wf A `{Codec A, !ReadWf A} s v (l : list A) :
  json_wf v → parse_list A s v = Ok l → Forall record_wf l.
Proof.
  intros Hv Hl. unfold parse_list in Hl. apply res_bind_Ok in Hl as (w & Hw & Hl).
  apply inertJsonSnapshot_spec in Hw as [_ ->]; [|done]. apply res_bind_Ok in Hl as (w & Hw & Hl).
  apply parse_Ok in Hw as [_ ->]. apply or_throw_Ok in Hl. pose proof (norm_wf _ Hv) as Hnw.
  destruct (norm v) as [| | | |vs|]; try done. apply mapM_Some in Hl. rewrite json_wf_arr in Hnw.
  induction Hl as [|x a vs l Hx _ IH]; [constructor|]. constructor; [eapply of_json_wf; [|exact Hx]; apply Hnw; by left|].
  apply IH. intros y Hy. apply Hnw. by right.
Qed.

(** What compiling the calendars of several events gives. *)
Record calendar_plans (cs : list CalendarCandidate) (s r : json) (plans : list EventPlan) : Prop := {
  cp_agree : ∀ c c', c ∈ cs → c' ∈ cs → event_key c = event_key c' →
    cc_expectedEventDate c = cc_expectedEventDate c' ∧ cc_expectedSession c = cc_expectedSession c';
  cp_one : NoDup (map (λ p, event_key (ep_candidate p)) plans);
  cp_all : ∀ c, c ∈ cs → ∃ p, p ∈ plans ∧ event_key (ep_candidate p) = event_key c;
  cp_first : ∀ p, p ∈ plans → ep_candidate p ∈ cs ∧ compileEventPlan (to_json (ep_candidate p)) s r = Ok p ∧
    ∀ c, c ∈ cs → event_key c = event_key (ep_candidate p) →
      locale_leb (calendar_key (ep_candidate p)) (calendar_key c) = true
}.

Lemma compile_group_Ok cs k s r p :
  Forall record_wf cs → compile_group s r (candidates_for cs k) = Ok p →
  (∀ c c', c ∈ cs → c' ∈ cs → event_key c = k → event_key c' = k →
    cc_expectedEventDate c = cc_expectedEventDate c' ∧ cc_expectedSession c = cc_expectedSession c') ∧
  event_key (ep_candidate p) = k ∧ ep_candidate p ∈ cs ∧
  compileEventPlan (to_json (ep_candidate p)) s r = Ok p ∧
  ∀ c, c ∈ cs → event_key c = k → locale_leb (calendar_key (ep_candidate p)) (calendar_key c) = true.
Proof.
  intros Hcs Hp. unfold compile_group in Hp. apply res_bind_Ok in Hp as (u & Hone & Hp).
  apply throw_if_Ok, orb_false_iff in Hone as [H1' H2']. bool_prop.
  apply res_bind_Ok in Hp as (c0 & Hc0 & Hp). apply or_throw_Ok in Hc0.
  set (l := sort_by (λ a b, locale_leb (calendar_key a) (calendar_key b)) (candidates_for cs k)) in *.
  assert (Hin : c0 ∈ candidates_for cs k).
  { apply (elem_of_sort_by (λ a b, locale_leb (calendar_key a) (calendar_key b))). fold l.
    destruct l; [done|]. injection Hc0 as ->. by left. }
  assert (Hmin : ∀ c, c ∈ candidates_for cs k → locale_leb (calendar_key c0) (calendar_key c) = true).
  { assert (Hs : StronglySorted (λ a b, locale_leb (calendar_key a) (calendar_key b) = true) l)
      by (apply sort_by_sorted; intros; [apply locale_leb_total|by eapply locale_leb_trans]).
    intros c Hc. apply (elem_of_sort_by (λ a b, locale_leb (calendar_key a) (calendar_key b))) in Hc. fold l in Hc.
    destruct l as [|x l']; [done|]. injection Hc0 as ->. apply StronglySorted_inv in Hs as [_ Hs].
    apply elem_of_cons in Hc as [->|Hc]; [by destruct (locale_leb_total (calendar_key c0) (calendar_key c0))|].
    by apply (proj1 (Forall_forall _ _) Hs). }
  apply candidates_for_elem in Hin as [Hin Hk].
  assert (E : ep_candidate p = c0) by (eapply compiled_candidate, Hp; by apply (proj1 (Forall_forall _ _) Hcs)).
  rewrite E. split_and!; try done.
  - intros c c' Hc Hc' Hck Hck'. split.
    + eapply one_value; [exact H1'|apply list_elem_of_fmap_2..]; by apply candidates_for_elem.
    + eapply one_value; [exact H2'|apply list_elem_of_fmap_2..]; by apply candidates_for_elem.
  - intros c Hc Hck. by apply Hmin, candidates_for_elem.
Qed.

Lemma compileCalendarCandidates_Ok ci s r plans :
  json_wf ci → compileCalendarCandidates ci s r = Ok plans →
  ∃ cs, parse_list CalendarCandidate (nonempty_array candidateSchema 32) ci = Ok cs ∧
    calendar_plans cs s r plans.
Proof.
  intros Hw Hp. unfold compileCalendarCandidates in Hp. apply res_bind_Ok in Hp as (cs & Hcs & Hp).
  pose proof (parse_list_wf _ _ _ _ Hw Hcs) as Hwf. exists cs. split; [done|].
  apply res_bind_Ok in Hp as (ps & Hps & Hp). apply Ok_inj in Hp as <-.
  destruct (group_candidates_spec cs) as (keys & Hnd & Hk & Hg). rewrite Hg in Hps.
  unfold grouped in Hps. apply res_map_Ok in Hps. apply Forall2_fmap_l in Hps.
  assert (Hall : Forall2 (λ k p, compile_group s r (candidates_for cs k) = Ok p) keys ps) by exact Hps.
  assert (Hkeys : map (λ p, event_key (ep_candidate p)) ps = keys).
  { clear -Hall Hwf. induction Hall as [|k p keys ps Hp _ IH]; [done|]. cbn [map]. rewrite IH. f_equal.
    by destruct (compile_group_Ok cs k s r p Hwf Hp) as (_ & ? & _). }
  assert (Hof : ∀ p, p ∈ ps → compile_group s r (candidates_for cs (event_key (ep_candidate p))) = Ok p).
  { intros p [i Hi]%list_elem_of_lookup. destruct (Forall2_lookup_r _ _ _ _ _ Hall Hi) as (k & _ & Hp).
    by destruct (compile_group_Ok cs k s r p Hwf Hp) as (_ & -> & _). }
  assert (Hcover : ∀ c, c ∈ cs → ∃ p, p ∈ ps ∧ event_key (ep_candidate p) = event_key c).
  { intros c Hc. assert (Hin : event_key c ∈ map (λ p, event_key (ep_candidate p)) ps)
      by (rewrite Hkeys; apply Hk; by apply list_elem_of_fmap_2).
    apply list_elem_of_fmap in Hin as (p & E & Hp). by exists p. }
  split.
  - intros c c' Hc Hc' E. destruct (Hcover c Hc) as (p & Hp & Ep).
    destruct (compile_group_Ok _ _ _ _ _ Hwf (Hof p Hp)) as (Ha & _). apply Ha; congruence.
  - rewrite sort_by_perm, Hkeys. done.
  - intros c Hc. destruct (Hcover c Hc) as (p & Hp & Ep). exists p. by rewrite elem_of_sort_by.
  - intros p Hp%elem_of_sort_by. destruct (compile_group_Ok _ _ _ _ _ Hwf (Hof p Hp)) as (_ & _ & ? & ? & ?).
    by split_and!.
Qed.

(** ** The order of a specification *)

Definition same_assignment (a b : SourceAssignment) : Prop :=
  sa_lane a = sa_lane b ∧ sa_providerId a = sa_providerId b ∧
  ∀ c, c ∈ sa_capabilities a ↔ c ∈ sa_capabilities b.

(** The same terms, listed in another order or more than once. *)
Record same_terms (s s' : EventPlanSpec) : Prop := {
  tm_windows : sp_windows s = sp_windows s';
  tm_assignments : ∃ l, sp_sourceAssignments s ≡ₚ l ∧ Forall2 same_assignment l (sp_sourceAssignments s');
  tm_forms : ∀ x, x ∈ sp_expectedForms s ↔ x ∈ sp_expectedForms s';
  tm_items : ∀ x, x ∈ sp_expectedItems s ↔ x ∈ sp_expectedItems s';
  tm_exhibits : ∀ x, x ∈ sp_exhibitAliases s ↔ x ∈ sp_exhibitAliases s'
}.

Lemma acquisitionPlans_same s s' registry plans :
  (∀ l l' : EventClusterLane, locale_separates (enum_name l) (enum_name l')) → same_terms s s' →
  acquisitionPlans (sp_sourceAssignments s) registry = Ok plans →
  acquisitionPlans (sp_sourceAssignments s') registry = Ok plans.
Proof.
  intros Hsep [_ (l & Hp & Hl) _ _ _] [-> Hlanes]%acquisitionPlans_Ok. apply acquisitionPlans_Ok.
  assert (Hlane : map sa_lane l = map sa_lane (sp_sourceAssignments s')).
  { clear -Hl. induction Hl as [|a b l k (E & _) _ IH]; [done|]. cbn [map]. by rewrite E, IH. }
  assert (Hplan : map (acquisition_plan registry) l = map (acquisition_plan registry) (sp_sourceAssignments s')).
  { clear -Hl. induction Hl as [|a b l k (E1 & E2 & E3) _ IH]; [done|]. cbn [map]. rewrite IH. f_equal.
    unfold acquisition_plan. by rewrite E1, E2, (sorted_literals_ext _ _ E3). }
  assert (Hnd : map sa_lane (sp_sourceAssignments s') ≡ₚ EVENT_CLUSTER_LANES) by (by rewrite <-Hlane, <-Hp).
  split; [|done]. rewrite <-Hplan. apply sort_by_perm_eq.
  - intros a b. apply locale_leb_total.
  - intros a b c. apply locale_leb_trans.
  - intros a b Ha Hb Hab Hba. assert (E : ap_lane a = ap_lane b) by by apply enum_name_inj, locale_leb_antisym.
    rewrite Hp in Ha, Hb. rewrite Hplan in Ha, Hb.
    apply list_elem_of_lookup in Ha as [i Hi]. apply list_elem_of_lookup in Hb as [j Hj].
    assert (Eij : i = j); [|congruence].
    assert (Hn : NoDup (ap_lane <$> map (acquisition_plan registry) (sp_sourceAssignments s'))).
    { change (NoDup (map ap_lane (map (acquisition_plan registry) (sp_sourceAssignments s')))).
      rewrite map_map. erewrite map_ext by (intros; apply acquisition_plan_lane). rewrite Hnd.
      apply (bool_decide_unpack _). by vm_compute. }
    eapply (NoDup_lookup _ i j); [exact Hn|by rewrite list_lookup_fmap, Hi|by rewrite list_lookup_fmap, Hj, E].
  - by rewrite Hp.
Qed.

Lemma drafted_same c s s' plans :
  same_terms s s' → drafted_plan c s plans = drafted_plan c s' plans.
Proof.
  intros [E1 _ E2 E3 E4]. unfold drafted_plan.
  by rewrite E1, (sortedUnique_ext _ _ E2), (sortedUnique_ext _ _ E3), (sorted_literals_ext _ _ E4).
Qed.

Lemma compile_same c si si' s s' r p :
  (∀ l l' : EventClusterLane, locale_separates (enum_name l) (enum_name l')) →
  parse_as specSchema spec_of si = Ok s → parse_as specSchema spec_of si' = Ok s' → same_terms s s' →
  compileEventPlan c si r = Ok p → compileEventPlan c si' r = Ok p.
Proof.
  intros Hsep Hs Hs' Hsame. unfold compileEventPlan. rewrite Hs, Hs'. cbn [mbind res_bind].
  destruct (parse_as candidateSchema candidate_of c) as [cand|]; [|done]. cbn [mbind res_bind].
  destruct (parse_list _ _ r) as [reg|]; [|done]. cbn [mbind res_bind].
  destruct (acquisitionPlans (sp_sourceAssignments s) reg) as [plans|] eqn:Hpl; [|done].
  rewrite (acquisitionPlans_same s s' reg plans Hsep Hsame Hpl). cbn [mbind res_bind].
  by rewrite (drafted_same cand s s' plans Hsame).
Qed.
End calendars.
