(* ===== verification/CivilTime.v ===== *)
(** * Civil time ([src/providers/sec/normalizer.ts], the acceptance times)

    The SEC publishes acceptance times as civil times, with an offset or in the clock of
    New York.  The source counts the days of the proleptic Gregorian calendar with integer
    arithmetic and applies the daylight-saving rules in force since 2007.  Here they are
    compared with a calendar that counts day by day, and with the clock that shows Eastern
    time as a function of the instant. *)
From S2P Require Import Prelude JsString JsNumber Evidence.

(** ** The Gregorian calendar *)

Definition daysInMonth (year month : Z) : Z :=
  if month =? 2 then
    (if (Z.rem year 4 =? 0) && (negb (Z.rem year 100 =? 0) || (Z.rem year 400 =? 0)) then 29 else 28)
  else if bool_decide (month ∈ [4; 6; 9; 11]) then 30 else 31.

Definition validCivil (year month day hour minute second : Z) : bool :=
  (1970 <=? year) && (1 <=? month) && (month <=? 12) && (1 <=? day) &&
  (day <=? daysInMonth year month) && (0 <=? hour) && (hour <=? 23) && (0 <=? minute) &&
  (minute <=? 59) && (0 <=? second) && (second <=? 59).

Definition daysFromCivil (year month day : Z) : Z :=
  let adjustedYear := year - (if month <=? 2 then 1 else 0) in
  let era := adjustedYear / 400 in
  let yearOfEra := adjustedYear - era * 400 in
  let adjustedMonth := month + (if 2 <? month then -3 else 9) in
  let dayOfYear := (153 * adjustedMonth + 2) / 5 + day - 1 in
  let dayOfEra := yearOfEra * 365 + yearOfEra / 4 - yearOfEra / 100 + dayOfYear in
  era * 146097 + dayOfEra - 719468.

Definition civilEpochMs (year month day hour minute second : Z) : Z :=
  (daysFromCivil year month day * 86400 + hour * 3600 + minute * 60 + second) * 1000.

Definition sundayOnOrAfter (year month day : Z) : Z :=
  let dayOfWeek := Z.rem (Z.rem (daysFromCivil year month day + 4) 7 + 7) 7 in
  day + Z.rem (7 - dayOfWeek) 7.

(** ** Texts *)

(** The groups of a regular expression whose digits are at fixed places. *)
Definition digits_at (s : jsstring) (from len : nat) : bool :=
  digits_exactly (Z.of_nat len) (take len (drop from s)).
Definition number_at (s : jsstring) (from len : nat) : Z := digits_value 0 (take len (drop from s)).
Definition unit_at (s : jsstring) (i : nat) (u : Z) : bool := bool_decide (s !! i = Some u).

(** [\d{4}-\d{2}-\d{2}T\d{2}:\d{2}:\d{2}] at the start of a text *)
Definition civil_prefix (s : jsstring) : bool :=
  digits_at s 0 4 && unit_at s 4 45 && digits_at s 5 2 && unit_at s 7 45 && digits_at s 8 2 &&
  unit_at s 10 84 && digits_at s 11 2 && unit_at s 13 58 && digits_at s 14 2 && unit_at s 16 58 &&
  digits_at s 17 2.

(** [(?:\.(\d{1,3}))?] : the group and what follows it.  The group is followed by a sign or
    a letter, so taking the longest run of digits finds the match when there is one. *)
Definition fraction_group (s : jsstring) : option (jsstring * jsstring) :=
  match s with
  | u :: s' =>
      if u =? 46 then
        let '(digits, rest) := span_digits s' in
        if (1 <=? js_length digits) && (js_length digits <=? 3) then Some (digits, rest) else None
      else Some ([], s)
  | [] => Some ([], [])
  end.

(** [(Z|[+-]\d{2}:\d{2})$] *)
Definition is_offset (s : jsstring) : bool :=
  bool_decide (s = js "Z") ||
  ((js_length s =? 6) && (unit_at s 0 43 || unit_at s 0 45) && digits_at s 1 2 && unit_at s 3 58 &&
   digits_at s 4 2).

(** [s.padEnd(3, "0")] *)
Definition pad_end3 (s : jsstring) : jsstring := s ++ replicate (3 - length s) 48.

(** [Number.isSafeInteger(epoch) && epoch >= 0 ? epoch : null] *)
Definition safe_epoch (epoch : Z) : option Z :=
  if is_safe_integer epoch && (0 <=? epoch) then Some epoch else None.

Definition parseSecRfc3339AcceptanceDateTime (value : jsstring) : option Z :=
  if negb (civil_prefix value) then None else
  match fraction_group (drop 19 value) with
  | None => None
  | Some (digits, offset) =>
      if negb (is_offset offset) then None else
      let year := number_at value 0 4 in let month := number_at value 5 2 in
      let day := number_at value 8 2 in let hour := number_at value 11 2 in
      let minute := number_at value 14 2 in let second := number_at value 17 2 in
      if negb (validCivil year month day hour minute second) then None else
      let fraction := digits_value 0 (pad_end3 digits) in
      if bool_decide (offset = js "Z")
      then safe_epoch (civilEpochMs year month day hour minute second + fraction)
      else
        let offsetHours := number_at offset 1 2 in
        let offsetRemainder := number_at offset 4 2 in
        if (23 <? offsetHours) || (59 <? offsetRemainder) then None else
        let offsetMinutes := (offsetHours * 60 + offsetRemainder) * (if unit_at offset 0 43 then 1 else -1) in
        safe_epoch (civilEpochMs year month day hour minute second + fraction - offsetMinutes * 60000)
  end.

(** ** The clock of New York *)

Inductive SecEasternConversion : Type :=
  | Eastern_valid (epochMs : Z)
  | Eastern_invalid
  | Eastern_unsupported.

(** [convertSecEasternAcceptanceDateTime] after the fields were read. *)
Definition convert_eastern (year month day hour minute second : Z) : SecEasternConversion :=
  if negb (validCivil year month day hour minute second) then Eastern_invalid else
  if (year <? 2007) || ((year =? 2007) && ((month <? 3) || ((month =? 3) && (day <? 11))))
  then Eastern_unsupported else
  let startDay := sundayOnOrAfter year 3 8 in
  let endDay := sundayOnOrAfter year 11 1 in
  if (month =? 3) && (day =? startDay) && (hour =? 2) then Eastern_invalid else
  if (month =? 11) && (day =? endDay) && (hour =? 1) then Eastern_invalid else
  let afterStart := (3 <? month) ||
    ((month =? 3) && ((startDay <? day) || ((day =? startDay) && (3 <=? hour)))) in
  let beforeEnd := (month <? 11) ||
    ((month =? 11) && ((day <? endDay) || ((day =? endDay) && (hour <? 1)))) in
  let offsetHours := if afterStart && beforeEnd then 4 else 5 in
  Eastern_valid (civilEpochMs year month day hour minute second + offsetHours * 3600000).

Definition convertSecEasternAcceptanceDateTime (value : jsstring) : SecEasternConversion :=
  if negb (digits_exactly 14 value) then Eastern_invalid else
  convert_eastern (number_at value 0 4) (number_at value 4 2) (number_at value 6 2)
    (number_at value 8 2) (number_at value 10 2) (number_at value 12 2).

(** [(?:\.(\d{3}))?Z?$] *)
Definition civil_suffix (s : jsstring) : option jsstring :=
  let zone (rest : jsstring) (fraction : jsstring) :=
    if bool_decide (rest = []) || bool_decide (rest = js "Z") then Some fraction else None in
  if unit_at s 0 46 && digits_at s 1 3 then zone (drop 4 s) (take 3 (drop 1 s))
  else zone s (js "0").

Definition parseSecEasternCivilAcceptanceDateTime (value : jsstring) : option Z :=
  if negb (civil_prefix value) then None else
  match civil_suffix (drop 19 value) with
  | None => None
  | Some fraction =>
      match convertSecEasternAcceptanceDateTime
        (take 4 value ++ take 2 (drop 5 value) ++ take 2 (drop 8 value) ++ take 2 (drop 11 value) ++
         take 2 (drop 14 value) ++ take 2 (drop 17 value)) with
      | Eastern_valid epochMs => safe_epoch (epochMs + digits_value 0 fraction)
      | _ => None
      end
  end.

(** ** Counting days one by one *)

Definition leap_year (year : Z) : bool :=
  (year mod 4 =? 0) && (negb (year mod 100 =? 0) || (year mod 400 =? 0)).

Definition month_length (year month : Z) : Z :=
  match month with
  | 1 | 3 | 5 | 7 | 8 | 10 | 12 => 31
  | 4 | 6 | 9 | 11 => 30
  | 2 => if leap_year year then 29 else 28
  | _ => 0
  end.

Definition civil_date (date : Z * Z * Z) : Prop :=
  let '(year, month, day) := date in 1970 <= year ∧ 1 <= month <= 12 ∧ 1 <= day <= month_length year month.

Definition next_day (date : Z * Z * Z) : Z * Z * Z :=
  let '(year, month, day) := date in
  if day <? month_length year month then (year, month, day + 1)
  else if month <? 12 then (year, month + 1, 1) else (year + 1, 1, 1).

(** The date [n] days after the first of January 1970. *)
Definition date_after (n : nat) : Z * Z * Z := Nat.iter n next_day (1970, 1, 1).

Definition days_of (date : Z * Z * Z) : Z := let '(year, month, day) := date in daysFromCivil year month day.

(** Split a month into its twelve cases. *)
Ltac each_month m :=
  let E := fresh in
  assert (m = 1 ∨ m = 2 ∨ m = 3 ∨ m = 4 ∨ m = 5 ∨ m = 6 ∨ m = 7 ∨ m = 8 ∨ m = 9 ∨ m = 10 ∨ m = 11 ∨ m = 12)
    as E by lia;
  destruct_or! E; subst m.

Ltac div_lia := Z.to_euclidean_division_equations; lia.

Lemma daysInMonth_length year month :
  0 <= year → 1 <= month <= 12 → daysInMonth year month = month_length year month.
Proof.
  intros Hy Hm. unfold daysInMonth, month_length, leap_year. rewrite !Z.rem_mod_nonneg by lia.
  by each_month month.
Qed.

Lemma valid_civil_iff year month day hour minute second :
  validCivil year month day hour minute second = true ↔
  civil_date (year, month, day) ∧ 0 <= hour <= 23 ∧ 0 <= minute <= 59 ∧ 0 <= second <= 59.
Proof.
  unfold validCivil, civil_date. rewrite !andb_true_iff, !Z.leb_le. split.
  - intros Hv. rewrite <-daysInMonth_length by lia. lia.
  - intros (? & Hv). rewrite daysInMonth_length by lia. lia.
Qed.

Lemma month_length_range year month : 1 <= month <= 12 → 28 <= month_length year month <= 31.
Proof. intros Hm. unfold month_length. destruct (leap_year year); each_month month; vm_compute; split; discriminate. Qed.

(** The days before the first of March of a year, from the first of March of the year 0. *)
Definition march_days (year : Z) : Z := 365 * year + year / 4 - year / 100 + year / 400.

Lemma march_days_succ year :
  march_days (year + 1) = march_days year + (if leap_year (year + 1) then 366 else 365).
Proof.
  unfold march_days, leap_year. destruct (Z.eqb_spec ((year + 1) mod 4) 0),
    (Z.eqb_spec ((year + 1) mod 100) 0), (Z.eqb_spec ((year + 1) mod 400) 0); cbn; div_lia.
Qed.

(** The cycle of 400 years. *)
Lemma era_days year :
  let yearOfEra := year - year / 400 * 400 in
  year / 400 * 146097 + (yearOfEra * 365 + yearOfEra / 4 - yearOfEra / 100) = march_days year.
Proof.
  intros r. unfold march_days. pose proof (Z.div_mod year 400 ltac:(lia)) as E.
  set (e := year / 400) in *. assert (Er : year = r + e * 400) by (subst r; lia).
  assert (E4 : year / 4 = r / 4 + e * 100) by (rewrite Er, <-Z.div_add by lia; f_equal; lia).
  assert (E100 : year / 100 = r / 100 + e * 4) by (rewrite Er, <-Z.div_add by lia; f_equal; lia).
  rewrite E4, E100. lia.
Qed.

Lemma days_late year month day :
  3 <= month → daysFromCivil year month day = march_days year + (153 * (month - 3) + 2) / 5 + day - 719469.
Proof.
  intros Hm. unfold daysFromCivil, march_days. rewrite (proj2 (Z.leb_gt month 2)), (proj2 (Z.ltb_lt 2 month)) by lia.
  rewrite Z.sub_0_r. pose proof (era_days year) as E. unfold march_days in E. cbn zeta in E. cbn zeta.
  replace (month + -3) with (month - 3) by lia. lia.
Qed.

Lemma days_early year month day :
  month <= 2 → daysFromCivil year month day = march_days (year - 1) + (153 * (month + 9) + 2) / 5 + day - 719469.
Proof.
  intros Hm. unfold daysFromCivil, march_days. rewrite (proj2 (Z.leb_le month 2)), (proj2 (Z.ltb_ge 2 month)) by lia.
  pose proof (era_days (year - 1)) as E. unfold march_days in E. cbn zeta in E. cbn zeta. lia.
Qed.

(** Days before a month that starts in the year counted from March. *)
Ltac month_days :=
  repeat match goal with
  | |- context [daysFromCivil ?y ?m ?d] =>
      first [rewrite (days_late y m d) by lia | rewrite (days_early y m d) by lia]
  | H : context [daysFromCivil ?y ?m ?d] |- _ =>
      first [rewrite (days_late y m d) in H by lia | rewrite (days_early y m d) in H by lia]
  end;
  repeat match goal with
  | |- context [(153 * ?a + 2) / 5] => let v := eval vm_compute in ((153 * a + 2) / 5) in
      change ((153 * a + 2) / 5) with v
  | H : context [(153 * ?a + 2) / 5] |- _ => let v := eval vm_compute in ((153 * a + 2) / 5) in
      change ((153 * a + 2) / 5) with v in H
  end.

Lemma days_next_month year month :
  1 <= month < 12 → daysFromCivil year (month + 1) 1 = daysFromCivil year month 1 + month_length year month.
Proof.
  intros Hm. unfold month_length. pose proof (march_days_succ (year - 1)) as Hs.
  replace (year - 1 + 1) with year in Hs by lia. revert Hs.
  destruct (leap_year year); intros Hs; each_month month; try lia; month_days; cbn; lia.
Qed.

Lemma days_next_year year : daysFromCivil (year + 1) 1 1 = daysFromCivil year 12 1 + 31.
Proof. month_days. replace (year + 1 - 1) with year by lia. lia. Qed.

Lemma days_in_month year month day : daysFromCivil year month day = daysFromCivil year month 1 + day - 1.
Proof. unfold daysFromCivil. lia. Qed.

Lemma days_next date : civil_date date → days_of (next_day date) = days_of date + 1.
Proof.
  destruct date as [[y m] d]. cbn [civil_date]. intros (Hy & Hm & Hd). cbn [next_day].
  destruct (Z.ltb_spec d (month_length y m)); cbn [days_of].
  { rewrite (days_in_month y m d), (days_in_month y m (d + 1)). lia. }
  rewrite (days_in_month y m d). destruct (Z.ltb_spec m 12); cbn [days_of].
  - rewrite days_next_month by lia. lia.
  - assert (m = 12) as -> by lia. rewrite days_next_year. cbn in *. lia.
Qed.

Lemma next_day_date date : civil_date date → civil_date (next_day date).
Proof.
  destruct date as [[y m] d]. cbn. intros (Hy & Hm & Hd).
  destruct (Z.ltb_spec d (month_length y m)); [cbn; lia|].
  destruct (Z.ltb_spec m 12); cbn [civil_date].
  - pose proof (month_length_range y (m + 1)). lia.
  - pose proof (month_length_range (y + 1) 1). lia.
Qed.

(** Every later date has a day before it. *)
Lemma previous_day date :
  civil_date date → date = (1970, 1, 1) ∨ ∃ before, civil_date before ∧ next_day before = date.
Proof.
  destruct date as [[y m] d]. cbn [civil_date]. intros (Hy & Hm & Hd).
  destruct (Z.eq_dec d 1) as [->|Hd1].
  2:{ right. exists (y, m, d - 1). cbn. split; [lia|]. rewrite (proj2 (Z.ltb_lt _ _)) by lia. do 2 f_equal. lia. }
  destruct (Z.eq_dec m 1) as [->|Hm1].
  - destruct (Z.eq_dec y 1970) as [->|Hy1]; [by left|]. right. exists (y - 1, 12, 31). cbn. split; [lia|].
    do 2 f_equal. lia.
  - right. exists (y, m - 1, month_length y (m - 1)). pose proof (month_length_range y (m - 1)).
    cbn [civil_date next_day]. split; [lia|]. rewrite Z.ltb_irrefl, (proj2 (Z.ltb_lt _ _)) by lia.
    do 2 f_equal. lia.
Qed.

Lemma date_after_spec n : civil_date (date_after n) ∧ days_of (date_after n) = Z.of_nat n.
Proof.
  induction n as [|n [Hd IH]]; [split; [cbn; lia|done]|].
  change (date_after (S n)) with (next_day (date_after n)). split; [by apply next_day_date|].
  rewrite days_next by done. lia.
Qed.

Lemma days_of_nonneg date : civil_date date → 0 <= days_of date.
Proof.
  destruct date as [[y m] d]. intros (Hy & Hm & Hd). cbn [days_of].
  assert (Hmono : march_days 1969 <= march_days (y - 1)) by (unfold march_days; div_lia).
  assert (Hmono' : march_days 1970 <= march_days y) by (unfold march_days; div_lia).
  unfold march_days in Hmono at 1, Hmono' at 1. cbn in Hmono, Hmono'.
  destruct (Z.le_gt_cases m 2) as [H|H]; [rewrite days_early by lia|rewrite days_late by lia]; div_lia.
Qed.

Lemma date_after_days n : ∀ date, civil_date date → days_of date = Z.of_nat n → date_after n = date.
Proof.
  induction n as [|n IH]; intros date Hd Hn; destruct (previous_day date Hd) as [->|(b & Hb & <-)].
  - done.
  - rewrite days_next in Hn by done. pose proof (days_of_nonneg b Hb). lia.
  - vm_compute in Hn. lia.
  - rewrite days_next in Hn by done. change (date_after (S n)) with (next_day (date_after n)).
    f_equal. apply IH; [done|lia].
Qed.

Lemma date_after_iff n year month day :
  date_after n = (year, month, day) ↔ civil_date (year, month, day) ∧ daysFromCivil year month day = Z.of_nat n.
Proof.
  split.
  - intros E. destruct (date_after_spec n) as [Hd Hn]. by rewrite E in Hd, Hn.
  - intros [Hd Hn]. by apply date_after_days.
Qed.

(** ** The clock of New York, as a function of the instant *)

Definition DAY_MS : Z := 86400000.
Definition HOUR_MS : Z := 3600000.

(** The first of January 1970 was a Thursday. *)
Definition is_sunday (n : nat) : Prop := (Z.of_nat n + 4) mod 7 = 0.

(** Daylight saving lasts from the second Sunday in March, 2:00 standard time, to the first
    Sunday in November, 2:00 daylight time. *)
Definition daylight (t : Z) : Prop := ∃ year n d n' d',
  2007 <= year ∧ date_after n = (year, 3, d) ∧ 8 <= d <= 14 ∧ is_sunday n ∧
  date_after n' = (year, 11, d') ∧ 1 <= d' <= 7 ∧ is_sunday n' ∧
  Z.of_nat n * DAY_MS + 7 * HOUR_MS <= t < Z.of_nat n' * DAY_MS + 6 * HOUR_MS.

(** At instant [t] clocks in New York show [date] and, in milliseconds, [time]. *)
Definition eastern_shows (t : Z) (date : Z * Z * Z) (time : Z) : Prop := ∃ n : nat,
  date_after n = date ∧ 0 <= time < DAY_MS ∧
  (daylight t ∧ t - 4 * HOUR_MS = Z.of_nat n * DAY_MS + time ∨
   ¬ daylight t ∧ t - 5 * HOUR_MS = Z.of_nat n * DAY_MS + time).

Lemma sundayOnOrAfter_spec year month day :
  let s := sundayOnOrAfter year month day in
  0 <= daysFromCivil year month day →
  day <= s <= day + 6 ∧ (daysFromCivil year month s + 4) mod 7 = 0 ∧
  ∀ d, day <= d <= day + 6 → (daysFromCivil year month d + 4) mod 7 = 0 → d = s.
Proof.
  intros s Hn. assert (Hs : ∀ d, daysFromCivil year month d = daysFromCivil year month day + (d - day)).
  { intros d. rewrite (days_in_month year month d), (days_in_month year month day). lia. }
  subst s. unfold sundayOnOrAfter. cbn zeta. set (n := daysFromCivil year month day) in *.
  rewrite (Z.rem_mod_nonneg (n + 4) 7) by lia.
  rewrite (Z.rem_mod_nonneg ((n + 4) mod 7 + 7) 7) by div_lia.
  rewrite (Z.rem_mod_nonneg (7 - _) 7) by div_lia.
  split_and!; [div_lia|div_lia| |].
  - rewrite Hs. div_lia.
  - intros d Hd. rewrite Hs. div_lia.
Qed.

Lemma march_days_mono year year' : year < year' → march_days year + 365 <= march_days year'.
Proof. unfold march_days. intros H. div_lia. Qed.

Lemma march_days_late year : 2007 <= year → 732000 < march_days year.
Proof. unfold march_days. intros H. div_lia. Qed.

(** Comparisons as propositions, under any connectives. *)
Ltac reflect_bools :=
  repeat match goal with H : ?b = false |- _ => apply not_true_iff_false in H end;
  rewrite ?andb_true_iff, ?orb_true_iff, ?negb_true_iff, ?Z.ltb_lt, ?Z.leb_le, ?Z.eqb_eq in *.

Section year.
Context (year : Z) (Hyear : 2007 <= year).
Let startDay := sundayOnOrAfter year 3 8.
Let endDay := sundayOnOrAfter year 11 1.

Lemma start_day : 8 <= startDay <= 14 ∧ (daysFromCivil year 3 startDay + 4) mod 7 = 0 ∧
  ∀ d, 8 <= d <= 14 → (daysFromCivil year 3 d + 4) mod 7 = 0 → d = startDay.
Proof. apply sundayOnOrAfter_spec. pose proof (march_days_late year Hyear). month_days. lia. Qed.

Lemma end_day : 1 <= endDay <= 7 ∧ (daysFromCivil year 11 endDay + 4) mod 7 = 0 ∧
  ∀ d, 1 <= d <= 7 → (daysFromCivil year 11 d + 4) mod 7 = 0 → d = endDay.
Proof. apply sundayOnOrAfter_spec. pose proof (march_days_late year Hyear). month_days. lia. Qed.

Lemma daylight_bounds t :
  (∃ n d n' d', date_after n = (year, 3, d) ∧ 8 <= d <= 14 ∧ is_sunday n ∧
    date_after n' = (year, 11, d') ∧ 1 <= d' <= 7 ∧ is_sunday n' ∧
    Z.of_nat n * DAY_MS + 7 * HOUR_MS <= t < Z.of_nat n' * DAY_MS + 6 * HOUR_MS) ↔
  civilEpochMs year 3 startDay 7 0 0 <= t < civilEpochMs year 11 endDay 6 0 0.
Proof.
  pose proof start_day as (Hs & Hsun & Hone). pose proof end_day as (He & Hsun' & Hone').
  unfold is_sunday, civilEpochMs, DAY_MS, HOUR_MS. split.
  - intros (n & d & n' & d' & [_ En]%date_after_iff & Hd & Hn & [_ En']%date_after_iff & Hd' & Hn' & Ht).
    rewrite <-En in Hn, Ht. rewrite <-En' in Hn', Ht. apply Hone in Hn as ->; [|done].
    apply Hone' in Hn' as ->; [|done]. lia.
  - intros Ht. pose proof (march_days_late year Hyear) as Hl.
    exists (Z.to_nat (daysFromCivil year 3 startDay)), startDay, (Z.to_nat (daysFromCivil year 11 endDay)), endDay.
    assert (0 <= daysFromCivil year 3 startDay) by (month_days; lia).
    assert (0 <= daysFromCivil year 11 endDay) by (month_days; lia).
    rewrite !Z2Nat.id, !date_after_iff, !Z2Nat.id by done. unfold civil_date. cbn [month_length].
    split_and!; try done; lia.
Qed.

Context (month day hour minute second : Z).
Context (Hvalid : validCivil year month day hour minute second = true).
Let local := civilEpochMs year month day hour minute second.

Lemma valid_fields : 1 <= month <= 12 ∧ 1 <= day <= month_length year month ∧ day <= 31 ∧
  0 <= hour <= 23 ∧ 0 <= minute <= 59 ∧ 0 <= second <= 59.
Proof.
  pose proof Hvalid as H. unfold validCivil in H. bool_prop.
  pose proof (month_length_range year month). rewrite <-(daysInMonth_length year month) in * by lia. lia.
Qed.

(** The days of the year, counted from its first of March. *)
Lemma day_of_year : march_days (year - 1) + 306 <= daysFromCivil year month day + 719468 < march_days year + 306.
Proof.
  pose proof valid_fields as (Hm & Hd & Hd' & _). pose proof (march_days_mono (year - 1) year ltac:(lia)).
  each_month month; month_days; cbn [month_length] in Hd; lia.
Qed.

(** Only this year's daylight saving matters. *)
Lemma daylight_this_year offset :
  0 <= offset <= 5 * HOUR_MS →
  daylight (local + offset) ↔
    civilEpochMs year 3 startDay 7 0 0 <= local + offset < civilEpochMs year 11 endDay 6 0 0.
Proof.
  intros Ho. rewrite <-daylight_bounds. unfold daylight. split.
  - intros (y & n & d & n' & d' & Hy & Hn & Hd & Hs & Hn' & Hd' & Hs' & Ht).
    destruct (Z.eq_dec y year) as [->|Hne]; [by exists n, d, n', d'|exfalso].
    apply date_after_iff in Hn as [_ En]. apply date_after_iff in Hn' as [_ En'].
    pose proof day_of_year. pose proof valid_fields as (_ & _ & _ & Hh & Hmi & Hse).
    unfold local, civilEpochMs, DAY_MS, HOUR_MS in *. rewrite <-En, <-En' in Ht. clear En En'. month_days.
    destruct (Z.lt_total y year) as [Hlt|[?|Hlt]]; [|lia|].
    + assert (march_days y <= march_days (year - 1)); [|lia].
      destruct (Z.eq_dec y (year - 1)) as [->|]; [lia|]. pose proof (march_days_mono y (year - 1)). lia.
    + pose proof (march_days_mono year y Hlt). lia.
  - intros (n & d & n' & d' & H). by exists year, n, d, n', d'.
Qed.

(** Times of this year against an hour of the Sunday the clocks change. *)
Lemma after_start h : 0 <= h <= 23 →
  civilEpochMs year 3 startDay h 0 0 <= local ↔
    3 < month ∨ month = 3 ∧ (startDay < day ∨ day = startDay ∧ h <= hour).
Proof.
  intros Hh. pose proof valid_fields as (Hm & Hd & Hd' & Hho & Hmi & Hse). pose proof start_day as (Hs & _).
  pose proof (march_days_mono (year - 1) year ltac:(lia)). unfold local, civilEpochMs.
  each_month month; month_days; lia.
Qed.

Lemma after_end h : 0 <= h <= 23 →
  civilEpochMs year 11 endDay h 0 0 <= local ↔
    11 < month ∨ month = 11 ∧ (endDay < day ∨ day = endDay ∧ h <= hour).
Proof.
  intros Hh. pose proof valid_fields as (Hm & Hd & Hd' & Hho & Hmi & Hse). pose proof end_day as (Hs & _).
  pose proof (march_days_mono (year - 1) year ltac:(lia)). unfold local, civilEpochMs.
  each_month month; month_days; lia.
Qed.

Lemma hours_add m d h k : civilEpochMs year m d (h + k) 0 0 = civilEpochMs year m d h 0 0 + k * HOUR_MS.
Proof. unfold civilEpochMs, HOUR_MS. lia. Qed.

Lemma daylight_4 : daylight (local + 4 * HOUR_MS) ↔
  civilEpochMs year 3 startDay 3 0 0 <= local ∧ ¬ civilEpochMs year 11 endDay 2 0 0 <= local.
Proof.
  rewrite daylight_this_year by (unfold HOUR_MS; lia).
  rewrite (hours_add 3 startDay 3 4 : civilEpochMs year 3 startDay 7 0 0 = _).
  rewrite (hours_add 11 endDay 2 4 : civilEpochMs year 11 endDay 6 0 0 = _). lia.
Qed.

Lemma daylight_5 : daylight (local + 5 * HOUR_MS) ↔
  civilEpochMs year 3 startDay 2 0 0 <= local ∧ ¬ civilEpochMs year 11 endDay 1 0 0 <= local.
Proof.
  rewrite daylight_this_year by (unfold HOUR_MS; lia).
  rewrite (hours_add 3 startDay 2 5 : civilEpochMs year 3 startDay 7 0 0 = _).
  rewrite (hours_add 11 endDay 1 5 : civilEpochMs year 11 endDay 6 0 0 = _). lia.
Qed.

(** When the clocks show the fields. *)
Lemma shows_iff t :
  eastern_shows t (year, month, day) ((hour * 3600 + minute * 60 + second) * 1000) ↔
    t = local + 4 * HOUR_MS ∧ daylight (local + 4 * HOUR_MS) ∨
    t = local + 5 * HOUR_MS ∧ ¬ daylight (local + 5 * HOUR_MS).
Proof.
  pose proof valid_fields as (Hm & Hd & Hd' & Hho & Hmi & Hse). pose proof (march_days_late year Hyear).
  assert (Hnn : 0 <= daysFromCivil year month day).
  { pose proof day_of_year. pose proof (march_days_late (year - 1)).
    assert (732000 - 366 < march_days (year - 1)); [|lia]. unfold march_days in *. div_lia. }
  assert (Hlocal : ∀ t n k, date_after n = (year, month, day) →
    t - k * HOUR_MS = Z.of_nat n * DAY_MS + (hour * 3600 + minute * 60 + second) * 1000 ↔ t = local + k * HOUR_MS).
  { intros t' n k [_ En]%date_after_iff. rewrite <-En. unfold local, civilEpochMs, DAY_MS, HOUR_MS. lia. }
  unfold eastern_shows. split.
  - intros (n & Hn & Ht & H'). rewrite !Hlocal in H' by done. destruct H' as [[H' ->]|[H' ->]]; auto.
  - intros Ht. exists (Z.to_nat (daysFromCivil year month day)).
    assert (Hn : date_after (Z.to_nat (daysFromCivil year month day)) = (year, month, day)).
    { rewrite date_after_iff, Z2Nat.id by done. unfold civil_date. split_and!; try done; lia. }
    rewrite !Hlocal by done. split_and!; try done; [lia|unfold DAY_MS; lia|].
    destruct Ht as [[-> Ht]|[-> Ht]]; auto.
Qed.

(** The conversion against the clock: the instant is the only one at which the clocks show
    the fields, and a refused time is shown never or twice. *)
Lemma convert_eastern_shows :
  (year = 2007 → 3 < month ∨ month = 3 ∧ 11 <= day) →
  match convert_eastern year month day hour minute second with
  | Eastern_valid e => ∀ t,
      eastern_shows t (year, month, day) ((hour * 3600 + minute * 60 + second) * 1000) ↔ t = e
  | Eastern_invalid => ¬ ∃ e, ∀ t,
      eastern_shows t (year, month, day) ((hour * 3600 + minute * 60 + second) * 1000) ↔ t = e
  | Eastern_unsupported => False
  end.
Proof.
  intros Hsup. pose proof daylight_4 as H4. pose proof daylight_5 as H5.
  rewrite !after_start, !after_end in H4, H5 by lia.
  pose proof valid_fields as (Hm & _ & _ & Hh & _). pose proof start_day as (Hs & _). pose proof end_day as (He & _).
  unfold convert_eastern. rewrite Hvalid. cbn [negb]. fold startDay endDay local.
  destruct (_ || _) eqn:E1; [exfalso; lia|].
  destruct ((month =? 3) && (day =? startDay) && (hour =? 2)) eqn:E2.
  { intros (e & Hon). specialize (Hon e). rewrite shows_iff, H4, H5 in Hon. clear H4 H5. bool_prop. lia. }
  destruct ((month =? 11) && (day =? endDay) && (hour =? 1)) eqn:E3.
  { intros (e & Hon). pose proof (Hon (local + 4 * HOUR_MS)) as Ha. pose proof (Hon (local + 5 * HOUR_MS)) as Hb.
    rewrite shows_iff, H4, H5 in Ha, Hb. clear H4 H5 Hon. unfold HOUR_MS in *. bool_prop. lia. }
  intros t. rewrite shows_iff, H4, H5. clear H4 H5 Hvalid. clearbody startDay endDay local. unfold HOUR_MS.
  match goal with |- context [if ?b then 4 else 5] => destruct b eqn:E4 end; reflect_bools;
    clear E1 Hsup Hyear; destruct_and?; lia.
Qed.

(** A time of day that no change of the clocks touches is always converted. *)
Lemma convert_eastern_total :
  (year = 2007 → 3 < month ∨ month = 3 ∧ 11 <= day) → 3 <= hour →
  ∃ e, convert_eastern year month day hour minute second = Eastern_valid e ∧
    local + 4 * HOUR_MS <= e <= local + 5 * HOUR_MS.
Proof.
  intros Hsup Hh. pose proof valid_fields as (Hm & _).
  unfold convert_eastern. rewrite Hvalid. cbn [negb]. fold startDay endDay local.
  destruct (_ || _) eqn:E1; [exfalso; lia|].
  rewrite (proj2 (Z.eqb_neq hour 2)), (proj2 (Z.eqb_neq hour 1)), !andb_false_r by lia.
  eexists; split; [done|]. unfold HOUR_MS.
  match goal with |- context [if ?b then 4 else 5] => destruct b end; lia.
Qed.
End year.

(** Before the present rules. *)
Lemma convert_eastern_before year month day hour minute second :
  validCivil year month day hour minute second = true →
  ¬ (2007 < year ∨ year = 2007 ∧ (3 < month ∨ month = 3 ∧ 11 <= day)) →
  convert_eastern year month day hour minute second = Eastern_unsupported.
Proof.
  intros Hv Hg. unfold convert_eastern. rewrite Hv. cbn [negb].
  destruct (_ || _) eqn:E; [done|]. reflect_bools. exfalso. lia.
Qed.
