(* ===== verification/CalendarPreparation.v ===== *)
(** * Preparation of calendar events ([src/domain/calendar-event-preparation.ts])

    An event known from calendars is prepared before it happens: its plan is compiled from
    the sources an operator has bound, amended, and written together with a checklist of
    what is ready and what is missing.  Freezing is not shown. *)
From S2P Require Import Prelude JsString JsNumber Json JsonLimits JsonParse JsonClaims Hash Zod.
From S2P Require Import JsonObject Event EventFacts Codec Records Evidence EventPlan CivilTime.

(** ** Literals *)

Inductive CalendarPreparationSourceId : Type :=
  | Src_calendar_identity | Src_sec_submissions | Src_sec_filing_exhibit | Src_issuer_release
  | Src_issuer_presentation | Src_issuer_webcast | Src_prepared_remarks | Src_transcript
  | Src_estimates_snapshot | Src_issuer_market_bars | Src_spy_market_bars | Src_sector_market_bars.

Inductive ReadinessStatus : Type :=
  | Status_ready | Status_missing | Status_blocked | Status_separately_authorized.

Inductive AmendmentPhase : Type := Before_freeze | After_freeze.

Inductive Requirement : Type := Mandatory | Optional.

#[export] Instance CalendarPreparationSourceId_eq_dec : EqDecision CalendarPreparationSourceId.
Proof. solve_decision. Defined.
#[export] Instance ReadinessStatus_eq_dec : EqDecision ReadinessStatus.
Proof. solve_decision. Defined.
#[export] Instance AmendmentPhase_eq_dec : EqDecision AmendmentPhase.
Proof. solve_decision. Defined.
#[export] Instance Requirement_eq_dec : EqDecision Requirement.
Proof. solve_decision. Defined.

#[export] Instance CalendarPreparationSourceId_enum : Enumerated CalendarPreparationSourceId.
Proof.
  refine {| enum_name := λ s, match s with
    | Src_calendar_identity => js "calendar-identity" | Src_sec_submissions => js "sec-submissions"
    | Src_sec_filing_exhibit => js "sec-filing-exhibit" | Src_issuer_release => js "issuer-release"
    | Src_issuer_presentation => js "issuer-presentation" | Src_issuer_webcast => js "issuer-webcast"
    | Src_prepared_remarks => js "prepared-remarks" | Src_transcript => js "transcript"
    | Src_estimates_snapshot => js "estimates-snapshot" | Src_issuer_market_bars => js "issuer-market-bars"
    | Src_spy_market_bars => js "spy-market-bars" | Src_sector_market_bars => js "sector-market-bars" end;
    enum_all := [Src_calendar_identity; Src_sec_submissions; Src_sec_filing_exhibit; Src_issuer_release;
      Src_issuer_presentation; Src_issuer_webcast; Src_prepared_remarks; Src_transcript;
      Src_estimates_snapshot; Src_issuer_market_bars; Src_spy_market_bars; Src_sector_market_bars] |}.
  - by intros [].
  - intros []; apply js_units.
Defined.

#[export] Instance ReadinessStatus_enum : Enumerated ReadinessStatus.
Proof.
  refine {| enum_name := λ s, match s with
    | Status_ready => js "ready" | Status_missing => js "missing" | Status_blocked => js "blocked"
    | Status_separately_authorized => js "separately-authorized" end;
    enum_all := [Status_ready; Status_missing; Status_blocked; Status_separately_authorized] |}.
  - by intros [].
  - intros []; apply js_units.
Defined.

#[export] Instance AmendmentPhase_enum : Enumerated AmendmentPhase.
Proof.
  refine {| enum_name := λ p, match p with
    | Before_freeze => js "before-freeze" | After_freeze => js "after-freeze" end;
    enum_all := [Before_freeze; After_freeze] |}.
  - by intros [].
  - intros []; apply js_units.
Defined.

#[export] Instance Requirement_enum : Enumerated Requirement.
Proof.
  refine {| enum_name := λ r, match r with Mandatory => js "mandatory" | Optional => js "optional" end;
    enum_all := [Mandatory; Optional] |}.
  - by intros [].
  - intros []; apply js_units.
Defined.

Definition CALENDAR_PREPARATION_SOURCE_IDS : list CalendarPreparationSourceId := enum_all.

(** ** Types *)

Record CalendarSourceBinding : Type := {
  sb_sourceId : CalendarPreparationSourceId;
  sb_providerId : jsstring;
  sb_capability : ProviderCapability;
  sb_configuredIdentityOrPath : option jsstring;
  sb_officialHostPlaceholder : option jsstring;
  sb_pathPlaceholder : option jsstring;
  sb_available : bool;
  sb_credentialRequirement : CredentialRequirement;
  sb_entitlementRequirement : CredentialRequirement;
  sb_liveAccessRequired : bool
}.

(** The optional fields of an amendment's changes. *)
Record PreparationChanges : Type := {
  pc_expectedEventDate : option jsstring;
  pc_expectedSession : option ExpectedSession
}.

Record CalendarPreparationAmendment : Type := {
  pa_amendmentId : jsstring;
  pa_phase : AmendmentPhase;
  pa_recordedAtMs : Z;
  pa_reason : jsstring;
  pa_changes : PreparationChanges
}.

Record CalendarReference : Type := {
  cr_calendarSourceId : jsstring;
  cr_calendarRevisionId : jsstring;
  cr_expectedEventDate : jsstring;
  cr_expectedSession : ExpectedSession;
  cr_discoveredAtMs : Z
}.

Record PollingPolicy : Type := {
  pp_intervalSeconds : Z;
  pp_requestCeiling : Z;
  pp_timeoutMs : Z;
  pp_responseSizeLimitBytes : Z
}.

Record CalendarEventPreparationInput : Type := {
  ci_issuerName : jsstring;
  ci_issuerId : jsstring;
  ci_ticker : jsstring;
  ci_cik : jsstring;
  ci_exchange : jsstring;
  ci_instrumentId : jsstring;
  ci_sectorBenchmark : jsstring;
  ci_fiscalPeriod : jsstring;
  ci_expectedEventDate : jsstring;
  ci_expectedSession : ExpectedSession;
  ci_calendarSourceId : jsstring;
  ci_calendarRevisionId : jsstring;
  ci_discoveredAtMs : Z;
  ci_corroboratingCalendarCandidates : list CalendarReference;
  ci_sourceBindings : list CalendarSourceBinding;
  ci_pollingPolicy : PollingPolicy;
  ci_amendments : list CalendarPreparationAmendment
}.

Record ReadinessChecklistRow : Type := {
  rr_sourceId : CalendarPreparationSourceId;
  rr_requiredMaterial : jsstring;
  rr_plannedProviderCapability : ProviderCapability;
  rr_providerId : jsstring;
  rr_configuredIdentityOrPath : option jsstring;
  rr_requirement : Requirement;
  rr_status : ReadinessStatus;
  rr_blockerReason : option jsstring;
  rr_credentialsRequired : bool;
  rr_entitlementRequired : bool;
  rr_liveAccessRequired : bool
}.

(** [preparation] is the inert snapshot the source returns. *)
Record CalendarEventPreparationResult : Type := {
  pr_preparation : json;
  pr_checklist : list ReadinessChecklistRow;
  pr_preparationJson : jsstring;
  pr_checklistMarkdown : jsstring
}.

Definition PreparationError (code : string) : exn := CodedError "CalendarEventPreparationError" code code.

(** ** JSON forms *)

Definition binding_fields (b : CalendarSourceBinding) : jobject :=
  [(js "sourceId", jenum (sb_sourceId b)); (js "providerId", JStr (sb_providerId b));
   (js "capability", jenum (sb_capability b));
   (js "configuredIdentityOrPath", jnull JStr (sb_configuredIdentityOrPath b));
   (js "officialHostPlaceholder", jnull JStr (sb_officialHostPlaceholder b));
   (js "pathPlaceholder", jnull JStr (sb_pathPlaceholder b)); (js "available", JBool (sb_available b));
   (js "credentialRequirement", jenum (sb_credentialRequirement b));
   (js "entitlementRequirement", jenum (sb_entitlementRequirement b));
   (js "liveAccessRequired", JBool (sb_liveAccessRequired b))].

Definition binding_of (kvs : jobject) : option CalendarSourceBinding :=
  s ← get_enum CalendarPreparationSourceId (js "sourceId") kvs;
  p ← get_str (js "providerId") kvs;
  c ← get_enum ProviderCapability (js "capability") kvs;
  i ← get_null get_str (js "configuredIdentityOrPath") kvs;
  h ← get_null get_str (js "officialHostPlaceholder") kvs;
  a ← get_null get_str (js "pathPlaceholder") kvs;
  v ← get_bool (js "available") kvs;
  r ← get_enum CredentialRequirement (js "credentialRequirement") kvs;
  e ← get_enum CredentialRequirement (js "entitlementRequirement") kvs;
  l ← get_bool (js "liveAccessRequired") kvs;
  Some {| sb_sourceId := s; sb_providerId := p; sb_capability := c; sb_configuredIdentityOrPath := i;
          sb_officialHostPlaceholder := h; sb_pathPlaceholder := a; sb_available := v;
          sb_credentialRequirement := r; sb_entitlementRequirement := e; sb_liveAccessRequired := l |}.

Definition changes_fields (c : PreparationChanges) : jobject :=
  opt_field (js "expectedEventDate") (pc_expectedEventDate c) ++
  opt_field (js "expectedSession") (enum_name <$> pc_expectedSession c).

Definition changes_of (kvs : jobject) : option PreparationChanges :=
  d ← get_opt get_str (js "expectedEventDate") kvs;
  s ← get_opt (get_enum ExpectedSession) (js "expectedSession") kvs;
  Some {| pc_expectedEventDate := d; pc_expectedSession := s |}.

Lemma get_opt_enum_norm `{Enumerated A} kvs k :
  NoDup (fst <$> kvs) → get_opt (get_enum A) k (norm_entries kvs) = get_opt (get_enum A) k kvs.
Proof.
  intros Hnd. unfold get_opt. rewrite get_enum_norm, lookup_key_norm by done.
  by destruct (lookup_key k kvs).
Qed.

Lemma read_bool k kvs b : lookup_key k kvs = Some (JBool b) → get_bool k kvs = Some b.
Proof. unfold get_bool. by intros ->. Qed.

#[export] Program Instance CalendarSourceBinding_codec : Codec CalendarSourceBinding := {|
  to_fields := binding_fields; of_fields := binding_of; nrm := id; norm_to := λ _, eq_refl |}.
Next Obligation.
  intros [s p c i h a v r e l]. unfold binding_of.
  repeat first [erewrite read_bool by reflexivity; cbn [mbind option_bind] | progress read_back].
  reflexivity.
Qed.
Next Obligation. intros kvs Hw. apply of_norm_closed. revert kvs Hw. unfold binding_of. record_of_norm. Qed.

#[export] Program Instance PreparationChanges_codec : Codec PreparationChanges := {|
  to_fields := changes_fields; of_fields := changes_of; nrm := id; norm_to := λ _, eq_refl |}.
Next Obligation. intros [[d|] [[]|]]; reflexivity. Qed.
Next Obligation.
  intros kvs Hw%json_wf_nodup. apply of_norm_closed. unfold changes_of.
  by rewrite get_opt_str_norm, get_opt_enum_norm by done.
Qed.

Definition preparation_amendment_of (kvs : jobject) : option CalendarPreparationAmendment :=
  i ← get_str (js "amendmentId") kvs;
  p ← get_enum AmendmentPhase (js "phase") kvs;
  t ← get_int (js "recordedAtMs") kvs;
  r ← get_str (js "reason") kvs;
  c ← get_record PreparationChanges (js "changes") kvs;
  Some {| pa_amendmentId := i; pa_phase := p; pa_recordedAtMs := t; pa_reason := r; pa_changes := c |}.

Definition preparation_amendment_fields (a : CalendarPreparationAmendment) : jobject :=
  [(js "amendmentId", JStr (pa_amendmentId a)); (js "phase", jenum (pa_phase a));
   (js "recordedAtMs", jint (pa_recordedAtMs a)); (js "reason", JStr (pa_reason a));
   (js "changes", to_json (pa_changes a))].

Definition reference_fields (c : CalendarReference) : jobject :=
  [(js "calendarSourceId", JStr (cr_calendarSourceId c));
   (js "calendarRevisionId", JStr (cr_calendarRevisionId c));
   (js "expectedEventDate", JStr (cr_expectedEventDate c));
   (js "expectedSession", jenum (cr_expectedSession c)); (js "discoveredAtMs", jint (cr_discoveredAtMs c))].

Definition reference_of (kvs : jobject) : option CalendarReference :=
  s ← get_str (js "calendarSourceId") kvs;
  r ← get_str (js "calendarRevisionId") kvs;
  d ← get_str (js "expectedEventDate") kvs;
  e ← get_enum ExpectedSession (js "expectedSession") kvs;
  t ← get_int (js "discoveredAtMs") kvs;
  Some {| cr_calendarSourceId := s; cr_calendarRevisionId := r; cr_expectedEventDate := d;
          cr_expectedSession := e; cr_discoveredAtMs := t |}.

Definition polling_fields (p : PollingPolicy) : jobject :=
  [(js "intervalSeconds", jint (pp_intervalSeconds p)); (js "requestCeiling", jint (pp_requestCeiling p));
   (js "timeoutMs", jint (pp_timeoutMs p));
   (js "responseSizeLimitBytes", jint (pp_responseSizeLimitBytes p))].

Definition polling_of (kvs : jobject) : option PollingPolicy :=
  i ← get_int (js "intervalSeconds") kvs;
  r ← get_int (js "requestCeiling") kvs;
  t ← get_int (js "timeoutMs") kvs;
  z ← get_int (js "responseSizeLimitBytes") kvs;
  Some {| pp_intervalSeconds := i; pp_requestCeiling := r; pp_timeoutMs := t; pp_responseSizeLimitBytes := z |}.

#[export] Program Instance CalendarPreparationAmendment_codec : Codec CalendarPreparationAmendment := {|
  to_fields := preparation_amendment_fields; of_fields := preparation_amendment_of; nrm := id;
  norm_to := λ _, eq_refl |}.
Next Obligation. intros [i [] t r [[d|] [[]|]]]; reflexivity. Qed.
Next Obligation.
  intros kvs Hw. apply of_norm_closed. revert kvs Hw. unfold preparation_amendment_of. record_of_norm.
Qed.

#[export] Program Instance CalendarReference_codec : Codec CalendarReference := {|
  to_fields := reference_fields; of_fields := reference_of; nrm := id; norm_to := λ _, eq_refl |}.
Next Obligation. intros [s r d [] t]; reflexivity. Qed.
Next Obligation. intros kvs Hw. apply of_norm_closed. revert kvs Hw. unfold reference_of. record_of_norm. Qed.

#[export] Program Instance PollingPolicy_codec : Codec PollingPolicy := {|
  to_fields := polling_fields; of_fields := polling_of; nrm := id; norm_to := λ _, eq_refl |}.
Next Obligation. intros [i r t z]; reflexivity. Qed.
Next Obligation. intros kvs Hw. apply of_norm_closed. revert kvs Hw. unfold polling_of. record_of_norm. Qed.

Definition input_of (kvs : jobject) : option CalendarEventPreparationInput :=
  name ← get_str (js "issuerName") kvs;
  issuer ← get_str (js "issuerId") kvs;
  ticker ← get_str (js "ticker") kvs;
  cik ← get_str (js "cik") kvs;
  exchange ← get_str (js "exchange") kvs;
  instrument ← get_str (js "instrumentId") kvs;
  sector ← get_str (js "sectorBenchmark") kvs;
  period ← get_str (js "fiscalPeriod") kvs;
  date ← get_str (js "expectedEventDate") kvs;
  session ← get_enum ExpectedSession (js "expectedSession") kvs;
  source ← get_str (js "calendarSourceId") kvs;
  revision ← get_str (js "calendarRevisionId") kvs;
  discovered ← get_int (js "discoveredAtMs") kvs;
  candidates ← get_list CalendarReference (js "corroboratingCalendarCandidates") kvs;
  bindings ← get_list CalendarSourceBinding (js "sourceBindings") kvs;
  polling ← get_record PollingPolicy (js "pollingPolicy") kvs;
  amendments ← get_list CalendarPreparationAmendment (js "amendments") kvs;
  Some {| ci_issuerName := name; ci_issuerId := issuer; ci_ticker := ticker; ci_cik := cik;
          ci_exchange := exchange; ci_instrumentId := instrument; ci_sectorBenchmark := sector;
          ci_fiscalPeriod := period; ci_expectedEventDate := date; ci_expectedSession := session;
          ci_calendarSourceId := source; ci_calendarRevisionId := revision; ci_discoveredAtMs := discovered;
          ci_corroboratingCalendarCandidates := candidates; ci_sourceBindings := bindings;
          ci_pollingPolicy := polling; ci_amendments := amendments |}.

Definition input_fields (i : CalendarEventPreparationInput) : jobject :=
  [(js "schemaVersion", jint 1); (js "issuerName", JStr (ci_issuerName i));
   (js "issuerId", JStr (ci_issuerId i)); (js "ticker", JStr (ci_ticker i)); (js "cik", JStr (ci_cik i));
   (js "exchange", JStr (ci_exchange i)); (js "instrumentId", JStr (ci_instrumentId i));
   (js "sectorBenchmark", JStr (ci_sectorBenchmark i)); (js "fiscalPeriod", JStr (ci_fiscalPeriod i));
   (js "expectedEventDate", JStr (ci_expectedEventDate i));
   (js "expectedSession", jenum (ci_expectedSession i));
   (js "calendarSourceId", JStr (ci_calendarSourceId i));
   (js "calendarRevisionId", JStr (ci_calendarRevisionId i));
   (js "discoveredAtMs", jint (ci_discoveredAtMs i));
   (js "corroboratingCalendarCandidates", jlist (ci_corroboratingCalendarCandidates i));
   (js "sourceBindings", jlist (ci_sourceBindings i)); (js "pollingPolicy", to_json (ci_pollingPolicy i));
   (js "amendments", jlist (ci_amendments i))].

#[export] Program Instance CalendarEventPreparationInput_codec : Codec CalendarEventPreparationInput := {|
  to_fields := input_fields; of_fields := input_of; nrm := id; norm_to := λ _, eq_refl |}.
Next Obligation. intros []. unfold input_of. by read_back. Qed.
Next Obligation. intros kvs Hw. apply of_norm_closed. revert kvs Hw. unfold input_of. record_of_norm. Qed.

Definition row_fields (r : ReadinessChecklistRow) : jobject :=
  [(js "sourceId", jenum (rr_sourceId r)); (js "requiredMaterial", JStr (rr_requiredMaterial r));
   (js "plannedProviderCapability", jenum (rr_plannedProviderCapability r));
   (js "providerId", JStr (rr_providerId r));
   (js "configuredIdentityOrPath", jnull JStr (rr_configuredIdentityOrPath r));
   (js "requirement", jenum (rr_requirement r)); (js "status", jenum (rr_status r));
   (js "blockerReason", jnull JStr (rr_blockerReason r));
   (js "credentialsRequired", JBool (rr_credentialsRequired r));
   (js "entitlementRequired", JBool (rr_entitlementRequired r));
   (js "liveAccessRequired", JBool (rr_liveAccessRequired r))].

(** The fields of a specification and of a plan. *)
Definition spec_fields (s : EventPlanSpec) : jobject :=
  [(js "windows", to_json (sp_windows s)); (js "sourceAssignments", jlist (sp_sourceAssignments s));
   (js "expectedForms", jstrs (sp_expectedForms s)); (js "expectedItems", jstrs (sp_expectedItems s));
   (js "exhibitAliases", jenums (sp_exhibitAliases s))] ++ policy_fields.

Definition plan_fields (p : EventPlan) : jobject :=
  plan_content p ++ [(js "revisionDigest", JStr (ep_revisionDigest p))].

(** ** Schemas *)

(** [/^[a-z0-9.-]+$/u] *)
Definition is_host (s : jsstring) : bool :=
  negb (bool_decide (s = [])) && forallb (λ u, is_lower_alnum u || (u =? 46) || (u =? 45)) s.

(** [z.number().int().min(lo).max(hi)] *)
Definition integer_between (lo hi : Z) : schema :=
  SRefine (SNumber [CInt; CNumberMax hi]) (λ v, match v with JNum (NInt z) => lo <=? z | _ => false end).

Definition calendar_date : schema := SString [CRegex is_date].
Definition placeholder : schema := SNullable (nonempty_upto 1024).

Definition sourceBindingSchema : schema := SObject
  [(js "sourceId", enumSchema CalendarPreparationSourceId); (js "providerId", plan_identifier);
   (js "capability", enumSchema ProviderCapability);
   (js "configuredIdentityOrPath", placeholder);
   (js "officialHostPlaceholder", SNullable (SString [CRegex is_host]));
   (js "pathPlaceholder", placeholder); (js "available", SBoolean);
   (js "credentialRequirement", enumSchema CredentialRequirement);
   (js "entitlementRequirement", enumSchema CredentialRequirement); (js "liveAccessRequired", SBoolean)].

Definition amendmentSchema : schema := SObject
  [(js "amendmentId", plan_identifier); (js "phase", enumSchema AmendmentPhase);
   (js "recordedAtMs", epochMs); (js "reason", nonempty_upto 512);
   (js "changes", SRefine (SObject
     [(js "expectedEventDate", SOptional calendar_date);
      (js "expectedSession", SOptional (enumSchema ExpectedSession))])
     (λ v, match v with JObj kvs => negb (bool_decide (kvs = [])) | _ => false end))].

Definition referenceSchema : schema := SObject
  [(js "calendarSourceId", plan_identifier); (js "calendarRevisionId", plan_identifier);
   (js "expectedEventDate", calendar_date); (js "expectedSession", enumSchema ExpectedSession);
   (js "discoveredAtMs", epochMs)].

Definition inputSchema : schema := SObject
  [(js "schemaVersion", SLiteral (jint 1)); (js "issuerName", nonempty_upto 256);
   (js "issuerId", plan_identifier); (js "ticker", SString [CRegex is_ticker]);
   (js "cik", SString [CRegex (digits_exactly 10)]); (js "exchange", plan_identifier);
   (js "instrumentId", plan_identifier); (js "sectorBenchmark", SString [CRegex is_ticker]);
   (js "fiscalPeriod", SString [CRegex FISCAL_PERIOD]); (js "expectedEventDate", calendar_date);
   (js "expectedSession", enumSchema ExpectedSession); (js "calendarSourceId", plan_identifier);
   (js "calendarRevisionId", plan_identifier); (js "discoveredAtMs", epochMs);
   (js "corroboratingCalendarCandidates", SArray referenceSchema (Some 31));
   (js "sourceBindings",
     array_of_length sourceBindingSchema (length CALENDAR_PREPARATION_SOURCE_IDS));
   (js "pollingPolicy", SObject
     [(js "intervalSeconds", integer_between 60 3600); (js "requestCeiling", integer_between 1 1000);
      (js "timeoutMs", integer_between 100 120000);
      (js "responseSizeLimitBytes", integer_between 1024 (64 * 1024 * 1024))]);
   (js "amendments", SArray amendmentSchema (Some 32))].

(** ** What each source is for *)

Record SourceDefinition : Type := {
  sd_material : jsstring;
  sd_capability : ProviderCapability;
  sd_lane : option EventClusterLane;
  sd_requirement : Requirement
}.

Definition source_definition (material : string) (c : ProviderCapability) (lane : option EventClusterLane)
    (r : Requirement) : SourceDefinition :=
  {| sd_material := js material; sd_capability := c; sd_lane := lane; sd_requirement := r |}.

Definition SOURCE_DEFINITIONS (source : CalendarPreparationSourceId) : SourceDefinition :=
  match source with
  | Src_calendar_identity =>
      source_definition "Deterministic calendar identity" Calendar_discovery None Mandatory
  | Src_sec_submissions => source_definition "SEC submissions feed" Cap_sec_filing (Some Lane_sec) Mandatory
  | Src_sec_filing_exhibit =>
      source_definition "SEC filing and earnings exhibit" Filing_exhibit (Some Lane_sec) Mandatory
  | Src_issuer_release =>
      source_definition "Issuer press release" Cap_issuer_release (Some Lane_issuer_ir) Mandatory
  | Src_issuer_presentation =>
      source_definition "Issuer presentation or slides" Issuer_slides (Some Lane_issuer_ir) Optional
  | Src_issuer_webcast =>
      source_definition "Issuer webcast metadata" Webcast_metadata (Some Lane_issuer_ir) Optional
  | Src_prepared_remarks =>
      source_definition "Prepared remarks" Cap_prepared_remarks (Some Lane_transcript) Optional
  | Src_transcript => source_definition "Transcript" Cap_transcript (Some Lane_transcript) Optional
  | Src_estimates_snapshot =>
      source_definition "Prospective estimates snapshot" Expectations_snapshot (Some Lane_market) Optional
  | Src_issuer_market_bars =>
      source_definition "Issuer one-minute market bars" Market_bars (Some Lane_market) Mandatory
  | Src_spy_market_bars =>
      source_definition "SPY one-minute benchmark bars" Benchmark_market_data (Some Lane_market) Mandatory
  | Src_sector_market_bars =>
      source_definition "Sector-benchmark one-minute bars" Benchmark_market_data (Some Lane_market) Mandatory
  end.

(** ** Readiness *)

Definition readiness (b : CalendarSourceBinding) : ReadinessStatus * option jsstring :=
  let credential := bool_decide (sb_credentialRequirement b = Separately_authorized) in
  let entitlement := bool_decide (sb_entitlementRequirement b = Separately_authorized) in
  match sb_configuredIdentityOrPath b with
  | None => (Status_missing, Some (js "configured-identity-or-path-missing"))
  | Some _ =>
      if negb (sb_available b) then (Status_blocked, Some (js "provider-capability-unavailable"))
      else if credential && entitlement
      then (Status_separately_authorized, Some (js "credential-and-entitlement-authorization-required"))
      else if credential
      then (Status_separately_authorized, Some (js "credential-authorization-required"))
      else if entitlement
      then (Status_separately_authorized, Some (js "entitlement-authorization-required"))
      else if sb_liveAccessRequired b
      then (Status_separately_authorized, Some (js "live-access-authorization-required"))
      else (Status_ready, None)
  end.

(** The loop, with the sources it has seen. *)
Fixpoint check_bindings (seen : list CalendarPreparationSourceId) (bindings : list CalendarSourceBinding) :
    res (list CalendarPreparationSourceId) :=
  match bindings with
  | [] => Ok seen
  | b :: rest =>
      guard! bool_decide (sb_sourceId b ∈ seen) throws PreparationError "calendar-preparation.source-duplicate" ;;
      guard! negb (bool_decide (sb_capability b = sd_capability (SOURCE_DEFINITIONS (sb_sourceId b))))
        throws PreparationError "calendar-preparation.capability-mismatch" ;;
      check_bindings (sb_sourceId b :: seen) rest
  end.

Definition validateBindings (bindings : list CalendarSourceBinding) : res unit :=
  let* seen := check_bindings [] bindings in
  throw_if (negb (bool_decide (length seen = length CALENDAR_PREPARATION_SOURCE_IDS)))
    (PreparationError "calendar-preparation.source-set-incomplete").

Definition checklist_row (b : CalendarSourceBinding) : ReadinessChecklistRow :=
  let definition := SOURCE_DEFINITIONS (sb_sourceId b) in
  {| rr_sourceId := sb_sourceId b; rr_requiredMaterial := sd_material definition;
     rr_plannedProviderCapability := sb_capability b; rr_providerId := sb_providerId b;
     rr_configuredIdentityOrPath := sb_configuredIdentityOrPath b;
     rr_requirement := sd_requirement definition; rr_status := (readiness b).1;
     rr_blockerReason := (readiness b).2;
     rr_credentialsRequired := negb (bool_decide (sb_credentialRequirement b = No_credential));
     rr_entitlementRequired := negb (bool_decide (sb_entitlementRequirement b = No_credential));
     rr_liveAccessRequired := sb_liveAccessRequired b |}.

(** [[...bindings].sort((left, right) => ordinalCompare(left.sourceId, right.sourceId))] *)
Definition sorted_bindings (bindings : list CalendarSourceBinding) : list CalendarSourceBinding :=
  sort_by (λ a b, js_leb (enum_name (sb_sourceId a)) (enum_name (sb_sourceId b))) bindings.

Definition checklistFor (bindings : list CalendarSourceBinding) : list ReadinessChecklistRow :=
  map checklist_row (sorted_bindings bindings).

(** ** Windows *)

Definition MINUTE_MS : Z := 60 * 1000.

Definition expectedReleaseAnchor (dateValue : jsstring) (expectedSession : ExpectedSession) : res Z :=
  let time := match expectedSession with
    | Before_market => js "07:00:00" | After_market => js "16:00:00" | Unknown_session => js "12:00:00" end in
  or_throw (parseSecEasternCivilAcceptanceDateTime (dateValue ++ js "T" ++ time))
    (PreparationError "calendar-preparation.release-anchor-invalid").

Definition session_windows (anchorMs : Z) (expectedSession : ExpectedSession) : PlanWindows :=
  match expectedSession with
  | Before_market =>
      {| pw_activationStartMs := anchorMs - 12 * HOUR_MS; pw_primaryStartMs := anchorMs - HOUR_MS;
         pw_primaryEndMs := anchorMs + 10 * HOUR_MS; pw_settlementEndMs := anchorMs + 36 * HOUR_MS |}
  | After_market =>
      {| pw_activationStartMs := anchorMs - 8 * HOUR_MS; pw_primaryStartMs := anchorMs - HOUR_MS;
         pw_primaryEndMs := anchorMs + 8 * HOUR_MS; pw_settlementEndMs := anchorMs + 36 * HOUR_MS |}
  | Unknown_session =>
      {| pw_activationStartMs := anchorMs - 12 * HOUR_MS; pw_primaryStartMs := anchorMs - 12 * HOUR_MS + 1;
         pw_primaryEndMs := anchorMs + 12 * HOUR_MS; pw_settlementEndMs := anchorMs + 48 * HOUR_MS |}
  end.

Definition windowsFor (dateValue : jsstring) (expectedSession : ExpectedSession) : res (Z * PlanWindows) :=
  let* anchorMs := expectedReleaseAnchor dateValue expectedSession in
  Ok (anchorMs, session_windows anchorMs expectedSession).

(** ** Assignments and registry *)

(** A [Map] in insertion order: a key that is set again keeps its place. *)
Fixpoint map_set {A} (key : jsstring) (value : A) (entries : list (jsstring * A)) : list (jsstring * A) :=
  match entries with
  | [] => [(key, value)]
  | e :: rest => if same_string e.1 key then (key, value) :: rest else e :: map_set key value rest
  end.

(** [`${providerId}:${capability}`] *)
Definition capability_key (providerId : jsstring) (capability : ProviderCapability) : jsstring :=
  providerId ++ js ":" ++ enum_name capability.

Definition binding_key (b : CalendarSourceBinding) : jsstring :=
  capability_key (sb_providerId b) (sb_capability b).

Definition declared_entry (b : CalendarSourceBinding) : ProviderCapabilityEntry := {|
  pc_providerId := sb_providerId b; pc_capability := sb_capability b; pc_available := sb_available b;
  pc_credentialRequirement := sb_credentialRequirement b |}.

Definition same_declaration (a b : ProviderCapabilityEntry) : bool :=
  bool_decide (pc_available a = pc_available b) &&
  bool_decide (pc_credentialRequirement a = pc_credentialRequirement b).

Definition registry_map : Type := list (jsstring * ProviderCapabilityEntry).

(** The first loop's body. *)
Definition declare (registryByKey : registry_map) (b : CalendarSourceBinding) : res registry_map :=
  let conflict := match lookup_key (binding_key b) registryByKey with
    | Some prior => negb (same_declaration prior (declared_entry b))
    | None => false
    end in
  guard! conflict throws PreparationError "calendar-preparation.provider-declaration-conflict" ;;
  Ok (map_set (binding_key b) (declared_entry b) registryByKey).

Definition lane_bindings (lane : EventClusterLane) (bindings : list CalendarSourceBinding) :
    list CalendarSourceBinding :=
  List.filter (λ b, bool_decide (sd_lane (SOURCE_DEFINITIONS (sb_sourceId b)) = Some lane)) bindings.

Definition is_planned (b : CalendarSourceBinding) : bool :=
  bool_decide (sd_requirement (SOURCE_DEFINITIONS (sb_sourceId b)) = Mandatory) ||
  bool_decide ((readiness b).1 = Status_ready) ||
  bool_decide ((readiness b).1 = Status_separately_authorized).

(** The sources a lane is planned with. *)
Definition lane_selection (lane : EventClusterLane) (bindings : list CalendarSourceBinding) :
    list CalendarSourceBinding :=
  let laneBindings := lane_bindings lane bindings in
  let planned := List.filter is_planned laneBindings in
  if 0 <? Z.of_nat (length planned) then planned else take 1 laneBindings.

(** The callback of [EVENT_CLUSTER_LANES.map], with the sources it adds to [selectedSourceIds]. *)
Definition lane_assignment (bindings : list CalendarSourceBinding) (lane : EventClusterLane) :
    res (SourceAssignment * list CalendarPreparationSourceId) :=
  let selected := lane_selection lane bindings in
  let providerIds := remove_dups (map sb_providerId selected) in
  guard! negb (bool_decide (length providerIds = 1%nat))
    throws PreparationError "calendar-preparation.lane-provider-ambiguous" ;;
  let* providerId := or_throw (head providerIds)
    (PreparationError "calendar-preparation.lane-provider-missing") in
  Ok ({| sa_lane := lane; sa_providerId := providerId;
         sa_capabilities := sorted_literals (map sb_capability selected) |}, map sb_sourceId selected).

Definition unavailable_entry (e : ProviderCapabilityEntry) : ProviderCapabilityEntry := {|
  pc_providerId := pc_providerId e; pc_capability := pc_capability e; pc_available := false;
  pc_credentialRequirement := pc_credentialRequirement e |}.

Definition gated_entry (e : ProviderCapabilityEntry) : ProviderCapabilityEntry := {|
  pc_providerId := pc_providerId e; pc_capability := pc_capability e; pc_available := pc_available e;
  pc_credentialRequirement := Separately_authorized |}.

(** The last loop's body. *)
Definition gate (selectedSourceIds : list CalendarPreparationSourceId) (registryByKey : registry_map)
    (b : CalendarSourceBinding) : res registry_map :=
  let status := (readiness b).1 in
  let* declared := or_throw (lookup_key (binding_key b) registryByKey)
    (PreparationError "calendar-preparation.provider-declaration-missing") in
  Ok (if bool_decide (sd_requirement (SOURCE_DEFINITIONS (sb_sourceId b)) = Mandatory) &&
         (bool_decide (status = Status_missing) || bool_decide (status = Status_blocked))
      then map_set (binding_key b) (unavailable_entry declared) registryByKey
      else if bool_decide (sb_sourceId b ∈ selectedSourceIds) &&
              bool_decide (status = Status_separately_authorized)
      then map_set (binding_key b) (gated_entry declared) registryByKey
      else registryByKey).

Definition entry_key (e : ProviderCapabilityEntry) : jsstring :=
  capability_key (pc_providerId e) (pc_capability e).

Definition providerInputs (bindings : list CalendarSourceBinding) :
    res (list SourceAssignment * list ProviderCapabilityEntry) :=
  let* declared := res_fold declare [] bindings in
  let* lanes := res_map (lane_assignment bindings) EVENT_CLUSTER_LANES in
  let* registryByKey := res_fold (gate (concat (map snd lanes))) declared bindings in
  Ok (map fst lanes, sort_by (λ a b, js_leb (entry_key a) (entry_key b)) (map snd registryByKey)).

(** ** Texts *)

Definition newline (depth : nat) : jsstring := 10 :: replicate (2 * depth) 32.

(** [JSON.stringify(value, null, 2)] at a depth, on numbers that canonical text has. *)
Fixpoint pretty (depth : nat) (v : json) : jsstring :=
  match v with
  | JArr l =>
      match l with
      | [] => js "[]"
      | _ => [91] ++ newline (S depth) ++ join (44 :: newline (S depth)) (pretty (S depth) <$> l) ++
             newline depth ++ [93]
      end
  | JObj kvs =>
      match kvs with
      | [] => js "{}"
      | _ => [123] ++ newline (S depth) ++
             join (44 :: newline (S depth)) (map (λ kv, json_quote kv.1 ++ js ": " ++ pretty (S depth) kv.2) kvs) ++
             newline depth ++ [125]
      end
  | _ => print v
  end.

Definition stablePrettyJson (value : json) : res jsstring :=
  let* canonical := canonicalJson value in
  let* parsed := JSON_parse canonical in
  Ok (pretty 0 parsed ++ [10]).

(** [s.replaceAll("|", "\\|")] *)
Definition escape_pipes (s : jsstring) : jsstring :=
  concat (map (λ u, if u =? 124 then [BACKSLASH; 124] else [u]) s).

Definition EM_DASH : jsstring := [8212].
Definition yes_no (b : bool) : jsstring := if b then js "yes" else js "no".

Definition markdown_row (row : ReadinessChecklistRow) : jsstring :=
  let identity := match rr_configuredIdentityOrPath row with
    | None => EM_DASH | Some s => escape_pipes s end in
  js "| " ++ enum_name (rr_sourceId row) ++ js " | " ++ rr_requiredMaterial row ++ js " | " ++
  enum_name (rr_plannedProviderCapability row) ++ js " | " ++ rr_providerId row ++ js " / " ++ identity ++
  js " | " ++ enum_name (rr_requirement row) ++ js " | " ++ enum_name (rr_status row) ++ js " | " ++
  default EM_DASH (rr_blockerReason row) ++ js " | " ++ yes_no (rr_credentialsRequired row) ++ js " | " ++
  yes_no (rr_entitlementRequired row) ++ js " | " ++ yes_no (rr_liveAccessRequired row) ++ js " |".

Definition markdownChecklist (rows : list ReadinessChecklistRow) (digest : jsstring) : jsstring :=
  join [10]
    ([js "# Calendar Event Provider Readiness"; []; js "Configuration digest: `" ++ digest ++ js "`"; [];
      js "| Source | Material | Capability | Provider / identity | Requirement | Status | Blocker | Credentials | Entitlement | Live access |";
      js "| --- | --- | --- | --- | --- | --- | --- | --- | --- | --- |"] ++ map markdown_row rows) ++ [10].

(** ** Preparation *)

Definition candidateFrom (input : CalendarEventPreparationInput) (calendar : CalendarReference) :
    CalendarCandidate := {|
  cc_calendarSourceId := cr_calendarSourceId calendar;
  cc_calendarRevisionId := cr_calendarRevisionId calendar; cc_issuerId := ci_issuerId input;
  cc_cik := ci_cik input; cc_ticker := ci_ticker input; cc_exchange := ci_exchange input;
  cc_instrumentId := ci_instrumentId input; cc_sectorBenchmark := ci_sectorBenchmark input;
  cc_fiscalPeriod := ci_fiscalPeriod input; cc_expectedEventDate := cr_expectedEventDate calendar;
  cc_expectedSession := cr_expectedSession calendar; cc_discoveredAtMs := cr_discoveredAtMs calendar |}.

Definition amendments_of (phase : AmendmentPhase) (input : CalendarEventPreparationInput) :
    list CalendarPreparationAmendment :=
  List.filter (λ a, bool_decide (pa_phase a = phase)) (ci_amendments input).

(** The calendar after an amendment made before the plan is frozen. *)
Definition amended_calendar (calendar : CalendarReference) (a : CalendarPreparationAmendment) :
    CalendarReference := {|
  cr_calendarSourceId := cr_calendarSourceId calendar;
  cr_calendarRevisionId := cr_calendarRevisionId calendar;
  cr_expectedEventDate := default (cr_expectedEventDate calendar) (pc_expectedEventDate (pa_changes a));
  cr_expectedSession := default (cr_expectedSession calendar) (pc_expectedSession (pa_changes a));
  cr_discoveredAtMs := cr_discoveredAtMs calendar |}.

Definition input_calendar (input : CalendarEventPreparationInput) : CalendarReference := {|
  cr_calendarSourceId := ci_calendarSourceId input; cr_calendarRevisionId := ci_calendarRevisionId input;
  cr_expectedEventDate := ci_expectedEventDate input; cr_expectedSession := ci_expectedSession input;
  cr_discoveredAtMs := ci_discoveredAtMs input |}.

(** The calendar the plan is compiled for. *)
Definition frozen_calendar (input : CalendarEventPreparationInput) : CalendarReference :=
  foldl amended_calendar (input_calendar input) (amendments_of Before_freeze input).

Definition preparation_spec (windows : PlanWindows) (assignments : list SourceAssignment) : EventPlanSpec := {|
  sp_windows := windows; sp_sourceAssignments := assignments;
  sp_expectedForms := [js "8-K"; js "10-Q"; js "10-K"];
  sp_expectedItems := [js "2.02"; js "7.01"; js "9.01"]; sp_exhibitAliases := [EX_99; EX_99_1] |}.

(** The candidate all calendars agree on. *)
Definition selected_candidate (input : CalendarEventPreparationInput) : res CalendarCandidate :=
  let candidates := candidateFrom input (frozen_calendar input) ::
    map (candidateFrom input) (ci_corroboratingCalendarCandidates input) in
  guard! negb (bool_decide (length (remove_dups (map cc_expectedEventDate candidates)) = 1%nat)) ||
         negb (bool_decide (length (remove_dups (map cc_expectedSession candidates)) = 1%nat))
    throws PreparationError "calendar-preparation.calendar-conflict" ;;
  or_throw (head (sort_by (λ a b, js_leb (calendar_key a) (calendar_key b)) candidates))
    (PreparationError "calendar-preparation.plan-count-invalid").

Section preparation.
Context `{Sha256} `{Zod} `{Locale}.

Definition before_freeze_entry (a : CalendarPreparationAmendment) : res json :=
  let* changeDigest := canonicalHash (js "peas/calendar-preparation-before-freeze-amendment/v1")
    (to_json (pa_changes a)) in
  Ok (JObj [(js "amendmentId", JStr (pa_amendmentId a)); (js "recordedAtMs", jint (pa_recordedAtMs a));
            (js "reason", JStr (pa_reason a)); (js "changeDigest", JStr changeDigest)]).

(** The body of the loop over the amendments made after the plan was frozen. *)
Definition amend_prepared (plan : EventPlan) (a : CalendarPreparationAmendment) : res EventPlan :=
  let date := default (cc_expectedEventDate (ep_candidate plan)) (pc_expectedEventDate (pa_changes a)) in
  let session := default (cc_expectedSession (ep_candidate plan)) (pc_expectedSession (pa_changes a)) in
  let* (_, windows) := windowsFor date session in
  amendEventPlan plan (pa_amendmentId a) (NInt (pa_recordedAtMs a)) (pa_reason a)
    (changes_fields (pa_changes a) ++ [(js "windows", to_json windows)]).

(** The plan, from the input's bindings to its last amendment, and the history before it. *)
Definition prepared_plan (input : CalendarEventPreparationInput) : res (EventPlan * list json) :=
  do! validateBindings (ci_sourceBindings input) ;;
  let* (assignments, registry) := providerInputs (ci_sourceBindings input) in
  let* beforeFreeze := res_map before_freeze_entry (amendments_of Before_freeze input) in
  let* (_, windows) := windowsFor (cr_expectedEventDate (frozen_calendar input))
    (cr_expectedSession (frozen_calendar input)) in
  let* selected := selected_candidate input in
  let* plan := compileEventPlan (to_json selected)
    (JObj (spec_fields (preparation_spec windows assignments))) (jlist registry) in
  let* plan := res_fold amend_prepared plan (amendments_of After_freeze input) in
  Ok (plan, beforeFreeze).

Definition unresolved_requirement (row : ReadinessChecklistRow) : list json :=
  match rr_blockerReason row with
  | Some reason =>
      if bool_decide (rr_status row = Status_ready) then []
      else [JObj [(js "sourceId", jenum (rr_sourceId row)); (js "status", jenum (rr_status row));
                  (js "reason", JStr reason)]]
  | None => []
  end.

Definition permitted_capability (b : CalendarSourceBinding) : json := JObj
  [(js "sourceId", jenum (sb_sourceId b)); (js "providerId", JStr (sb_providerId b));
   (js "capability", jenum (sb_capability b));
   (js "officialHostPlaceholder", jnull JStr (sb_officialHostPlaceholder b));
   (js "pathPlaceholder", jnull JStr (sb_pathPlaceholder b))].

Definition FOLLOW_UP_FORMS : json := jstrs (map js ["10-Q"; "10-Q/A"; "10-K"; "10-K/A"]%string).

(** What the configuration digest covers. *)
Definition preparation_terms (input : CalendarEventPreparationInput) (plan : EventPlan)
    (beforeFreeze : list json) (anchorMs : Z) (checklist : list ReadinessChecklistRow) : jobject :=
  [(js "schemaVersion", jint 1); (js "issuerName", JStr (ci_issuerName input));
   (js "eventPlan", JObj (plan_fields plan));
   (js "activationAndObservation", JObj
     [(js "expectedReleaseAnchorMs", jint anchorMs);
      (js "estimateSnapshotAtMs", jint (anchorMs - 30 * MINUTE_MS));
      (js "followUpStartMs", jint (pw_primaryEndMs (ep_windows plan)));
      (js "followUpEndMs", jint (pw_settlementEndMs (ep_windows plan)));
      (js "followUpForms", FOLLOW_UP_FORMS)]);
   (js "expectedMaterials", JObj
     [(js "secForms", jstrs (map js ["8-K"; "8-K/A"; "10-Q"; "10-Q/A"; "10-K"; "10-K/A"]%string));
      (js "secItems", jstrs (ep_expectedItems plan)); (js "exhibitAliases", jenums (ep_exhibitAliases plan));
      (js "issuerMaterials", jstrs (map js ["press-release"; "presentation"; "webcast"]%string));
      (js "transcriptMaterials", jstrs (map js ["prepared-remarks"; "transcript"]%string))]);
   (js "permittedProviderCapabilities",
     JArr (map permitted_capability (sorted_bindings (ci_sourceBindings input))));
   (js "sourceReadiness", JArr (map (JObj ∘ row_fields) checklist));
   (js "networkPolicy", to_json (ci_pollingPolicy input));
   (js "marketEvidence", JObj
     [(js "subjects", jstrs (ep_marketSubjects plan)); (js "windows", MARKET_WINDOWS);
      (js "interpretation", JStr (js "coarse-bar-movement-not-tradability"))]);
   (js "preparationHistory", JObj
     [(js "beforeFreezeAmendments", JArr beforeFreeze);
      (js "afterFreezeAmendments", JArr (map (JObj ∘ amendment_fields) (ep_amendments plan)))]);
   (js "unresolvedRequirements", JArr (concat (map unresolved_requirement checklist)));
   (js "prohibitedEffects", EVENT_CLUSTER_EFFECTS_ZERO)].

Definition parse_input (inputValue : json) : res CalendarEventPreparationInput :=
  match parse_as inputSchema input_of inputValue with
  | Ok input => Ok input
  | Throw _ => Throw (PreparationError "calendar-preparation.input-invalid")
  end.

Definition prepareCalendarEvent (inputValue : json) : res CalendarEventPreparationResult :=
  let* input := parse_input inputValue in
  let* (plan, beforeFreeze) := prepared_plan input in
  let* (anchorMs, _) := windowsFor (cc_expectedEventDate (ep_candidate plan))
    (cc_expectedSession (ep_candidate plan)) in
  let checklist := checklistFor (ci_sourceBindings input) in
  let preimage := preparation_terms input plan beforeFreeze anchorMs checklist in
  let* configurationDigest := canonicalHash (js "peas/calendar-event-preparation/v1") (JObj preimage) in
  let* preparation := inertJsonSnapshot
    (JObj (preimage ++ [(js "configurationDigest", JStr configurationDigest)])) in
  let* preparationJson := stablePrettyJson preparation in
  Ok {| pr_preparation := preparation; pr_checklist := checklist; pr_preparationJson := preparationJson;
        pr_checklistMarkdown := markdownChecklist checklist configurationDigest |}.
End preparation.
