(* ===== verification/CalendarFacts.v ===== *)
(** * Prepared events

    What the registry of a preparation holds, which of the bindings' gates it keeps, which
    lanes are ready, and the inputs that are well formed. *)
From S2P Require Import Prelude JsString JsNumber Json JsonLimits JsonParse JsonClaims Hash Zod.
From S2P Require Import JsonObject Event EventFacts Codec Records Evidence EventPlan EventPlanFacts.
From S2P Require Import EventCalendar CivilTime CalendarPreparation.

(** ** Keys *)

Lemma last_colon_inj (p p' c c' : jsstring) :
  58 ∉ c → 58 ∉ c' → p ++ 58 :: c = p' ++ 58 :: c' → p = p' ∧ c = c'.
Proof.
  revert p'. induction p as [|u p IH]; intros [|u' p'] Hc Hc' E; cbn in E; simplify_eq.
  - done.
  - destruct Hc. apply elem_of_app. right. by left.
  - destruct Hc'. apply elem_of_app. right. by left.
  - by destruct (IH p' Hc Hc') as [-> ->].
Qed.

Lemma capability_key_inj p p' c c' : capability_key p c = capability_key p' c' → p = p' ∧ c = c'.
Proof.
  assert (Hn : ∀ c : ProviderCapability, 58 ∉ enum_name c) by (intros []; apply (bool_decide_unpack _); by vm_compute).
  intros E. apply last_colon_inj in E as [-> E]; auto. split; [done|]. by apply enum_name_inj.
Qed.

Section map_set.
Context {A : Type}.
Implicit Types entries : list (jsstring * A).

Lemma lookup_map_set k k' (v : A) entries :
  lookup_key k (map_set k' v entries) = if decide (k' = k) then Some v else lookup_key k entries.
Proof.
  induction entries as [|e entries IH]; cbn [map_set].
  - rewrite lookup_key_cons, lookup_key_nil. done.
  - unfold same_string. case_bool_decide as E; rewrite !lookup_key_cons; cbn [fst snd].
    + subst. by case_decide.
    + rewrite IH. destruct (decide (e.1 = k)), (decide (k' = k)); congruence.
Qed.

Lemma map_set_keys k (v : A) entries x : x ∈ map fst (map_set k v entries) ↔ x = k ∨ x ∈ map fst entries.
Proof.
  induction entries as [|e entries IH]; cbn [map_set map].
  - cbn. rewrite list_elem_of_singleton, elem_of_nil. tauto.
  - unfold same_string. case_bool_decide as E; cbn [map fst]; rewrite !elem_of_cons; [subst; tauto|].
    rewrite IH. tauto.
Qed.

Lemma map_set_nodup k (v : A) entries : NoDup (map fst entries) → NoDup (map fst (map_set k v entries)).
Proof.
  induction entries as [|e entries IH]; cbn [map_set map]; intros Hnd.
  - apply NoDup_singleton.
  - apply NoDup_cons in Hnd as [He Hnd]. unfold same_string. case_bool_decide as E; cbn [map fst].
    + subst. by apply NoDup_cons.
    + apply NoDup_cons. split; [|by apply IH]. rewrite map_set_keys. by intros [?|?].
Qed.
End map_set.

(** ** The registry *)

(** Every entry is under its own key. *)
Record keyed (m : registry_map) : Prop := {
  kd_nodup : NoDup (map fst m);
  kd_own : ∀ k e, (k, e) ∈ m → k = entry_key e
}.

Lemma keyed_set m e : keyed m → keyed (map_set (entry_key e) e m).
Proof.
  intros [Hnd Hown]. assert (Hnd' := map_set_nodup (entry_key e) e m Hnd). split; [done|].
  intros k x Hin. apply lookup_key_Some in Hin; [|done]. rewrite lookup_map_set in Hin.
  case_decide as E; [by injection Hin as <-|]. apply Hown. by apply lookup_key_Some.
Qed.

(** The entry found for a provider's capability. *)
Lemma registered_entry_lookup m p c :
  keyed m →
  registered_entry (sort_by (λ a b, js_leb (entry_key a) (entry_key b)) (map snd m)) p c =
    lookup_key (capability_key p c) m.
Proof.
  intros [Hnd Hown]. set (r := sort_by _ _).
  assert (Hr : ∀ e, e ∈ r ↔ ∃ k, (k, e) ∈ m).
  { intros e. unfold r. rewrite elem_of_sort_by, list_elem_of_fmap. split; [intros ([k e'] & -> & Hk); by exists k|].
    intros (k & Hk). by exists (k, e). }
  destruct (registered_entry r p c) as [e|] eqn:E.
  - apply find_elem in E as [He Hpc]. bool_prop. apply Hr in He as [k Hk]. pose proof (Hown _ _ Hk) as ->.
    symmetry. apply lookup_key_Some; [done|]. unfold entry_key in Hk. unfold same_string in *. by bool_prop; subst.
  - destruct (lookup_key (capability_key p c) m) as [e|] eqn:E'; [|done]. exfalso.
    apply lookup_key_elem in E'. pose proof (Hown _ _ E') as Hk. apply capability_key_inj in Hk as [Hp Hc].
    assert (He : e ∈ r) by (apply Hr; by eexists). unfold registered_entry in E.
    eapply find_none in E; [|by apply list_elem_of_In]. unfold same_string in E.
    by rewrite Hp, Hc, !bool_decide_eq_true_2 in E.
Qed.

(** What the entry of a source's key says after some declarations. *)
Definition declares (e : ProviderCapabilityEntry) (b : CalendarSourceBinding) : Prop :=
  pc_available e = sb_available b ∧ pc_credentialRequirement e = sb_credentialRequirement b.

Lemma declare_Ok m b m' :
  keyed m → declare m b = Ok m' →
  keyed m' ∧ (∃ e, lookup_key (binding_key b) m' = Some e ∧ declares e b) ∧
  ∀ b' e, lookup_key (binding_key b') m = Some e → declares e b' →
    ∃ e', lookup_key (binding_key b') m' = Some e' ∧ declares e' b'.
Proof.
  unfold declare. intros Hm Hd. apply res_bind_Ok in Hd as (u & Hc & Hd). apply throw_if_Ok in Hc.
  apply Ok_inj in Hd as <-. split_and!.
  - by apply (keyed_set m (declared_entry b)).
  - exists (declared_entry b). by rewrite lookup_map_set, decide_True by done.
  - intros b' e He [Ha Hr]. rewrite lookup_map_set. case_decide as E; [|by exists e].
    rewrite E, He in Hc. exists (declared_entry b). split; [done|]. unfold same_declaration in Hc. bool_prop.
    unfold declares. cbn in *. split; congruence.
Qed.

Lemma declare_all_Ok bindings m m' :
  keyed m → res_fold declare m bindings = Ok m' →
  keyed m' ∧ (∀ b, b ∈ bindings → ∃ e, lookup_key (binding_key b) m' = Some e ∧ declares e b) ∧
  ∀ b' e, lookup_key (binding_key b') m = Some e → declares e b' →
    ∃ e', lookup_key (binding_key b') m' = Some e' ∧ declares e' b'.
Proof.
  revert m. induction bindings as [|b bindings IH]; intros m Hm Hf; cbn [res_fold] in Hf.
  - apply Ok_inj in Hf as <-. split_and!; [done|by intros b Hb%elem_of_nil|]. intros b' e He Hd. by exists e.
  - apply res_bind_Ok in Hf as (m1 & Hd & Hf). destruct (declare_Ok _ _ _ Hm Hd) as (Hm1 & (e & He & Heb) & Hk).
    destruct (IH m1 Hm1 Hf) as (Hm' & Hall & Hkeep). split_and!; [done| |].
    + intros b' [->|Hb']%elem_of_cons; [by eapply Hkeep|by apply Hall].
    + intros b' e' He' Hd'. destruct (Hk b' e' He' Hd') as (e2 & He2 & Hd2). by eapply Hkeep.
Qed.

(** ** The gates *)

Definition mandatory (b : CalendarSourceBinding) : Prop :=
  sd_requirement (SOURCE_DEFINITIONS (sb_sourceId b)) = Mandatory.
Definition stops (b : CalendarSourceBinding) : Prop :=
  mandatory b ∧ ((readiness b).1 = Status_missing ∨ (readiness b).1 = Status_blocked).
Definition gates (selected : list CalendarPreparationSourceId) (b : CalendarSourceBinding) : Prop :=
  sb_sourceId b ∈ selected ∧ (readiness b).1 = Status_separately_authorized.

Definition entry_open (e : ProviderCapabilityEntry) : Prop :=
  pc_available e = true ∧ pc_credentialRequirement e = No_credential.

Lemma gate_Ok selected m b m' :
  keyed m → gate selected m b = Ok m' →
  keyed m' ∧ ∀ k e, lookup_key k m = Some e → ∃ e', lookup_key k m' = Some e' ∧
    (entry_open e' ↔ entry_open e ∧ (binding_key b = k → ¬ stops b ∧ ¬ gates selected b)).
Proof.
  intros Hm Hg. unfold gate in Hg. apply res_bind_Ok in Hg as (d & Hd & Hg). apply or_throw_Ok in Hd.
  assert (Hkey : binding_key b = entry_key d) by (by apply (kd_own _ Hm), lookup_key_elem).
  apply Ok_inj in Hg. destruct (_ && (_ || _)) eqn:E1.
  - subst m'. split; [rewrite Hkey; by apply (keyed_set m (unavailable_entry d))|].
    intros k e He. rewrite lookup_map_set. destruct (decide (binding_key b = k)) as [Ek|Ek]; [|exists e; split; [done|]; naive_solver].
    eexists; split; [done|]. assert (Hs : stops b).
    { apply andb_true_iff in E1 as [E1 E2%orb_true_iff]. bool_prop. split; [done|].
      destruct E2 as [E2|E2]; bool_prop; auto. }
    unfold entry_open. cbn. naive_solver.
  - assert (Hns : ¬ stops b).
    { intros [Hm' Hs]. apply andb_false_iff in E1 as [E1|E1]; bool_prop; naive_solver. }
    destruct (_ && _) eqn:E2 in Hg; subst m'.
    + bool_prop. split; [rewrite Hkey; by apply (keyed_set m (gated_entry d))|].
      intros k e He. rewrite lookup_map_set. destruct (decide (binding_key b = k)) as [Ek|Ek]; [|exists e; split; [done|]; naive_solver].
      eexists; split; [done|]. unfold entry_open, gates. cbn. naive_solver.
    + split; [done|]. intros k e He. exists e. split; [done|].
      assert (Hng : ¬ gates selected b).
      { intros [Hin Hs]. apply andb_false_iff in E2 as [E2|E2]; bool_prop; done. }
      naive_solver.
Qed.

Lemma gate_all_Ok selected bindings m m' :
  keyed m → res_fold (gate selected) m bindings = Ok m' →
  keyed m' ∧ ∀ k e, lookup_key k m = Some e → ∃ e', lookup_key k m' = Some e' ∧
    (entry_open e' ↔ entry_open e ∧ ∀ b, b ∈ bindings → binding_key b = k → ¬ stops b ∧ ¬ gates selected b).
Proof.
  revert m. induction bindings as [|b bindings IH]; intros m Hm Hf; cbn [res_fold] in Hf.
  - apply Ok_inj in Hf as <-. split; [done|]. intros k e He. exists e. split; [done|].
    split; [|naive_solver]. intros Ho. split; [done|]. by intros b Hb%elem_of_nil.
  - apply res_bind_Ok in Hf as (m1 & Hg & Hf). destruct (gate_Ok _ _ _ _ Hm Hg) as [Hm1 Hk].
    destruct (IH m1 Hm1 Hf) as [Hm' Hk']. split; [done|]. intros k e He.
    destruct (Hk k e He) as (e1 & He1 & Ho1). destruct (Hk' k e1 He1) as (e2 & He2 & Ho2).
    exists e2. split; [done|]. rewrite Ho2, Ho1. setoid_rewrite elem_of_cons. naive_solver.
Qed.

(** ** The bindings *)

Lemma check_bindings_Ok seen bindings seen' :
  check_bindings seen bindings = Ok seen' →
  length seen' = (length bindings + length seen)%nat ∧ NoDup (map sb_sourceId bindings) ∧
  (∀ b, b ∈ bindings → sb_sourceId b ∉ seen ∧ sb_capability b = sd_capability (SOURCE_DEFINITIONS (sb_sourceId b))).
Proof.
  revert seen. induction bindings as [|b bindings IH]; intros seen Hc; cbn [check_bindings] in Hc.
  - apply Ok_inj in Hc as <-. split_and!; [done|constructor|by intros b Hb%elem_of_nil].
  - apply res_bind_Ok in Hc as (u & Hs & Hc). apply throw_if_Ok in Hs. apply res_bind_Ok in Hc as (u' & Hcap & Hc).
    apply throw_if_Ok in Hcap. bool_prop. destruct (IH _ Hc) as (Hlen & Hnd & Hall). split_and!.
    + cbn [length] in *. lia.
    + cbn [map]. apply NoDup_cons. split; [|done]. intros (b' & E & Hb')%list_elem_of_fmap.
      destruct (Hall b' Hb') as [Hn _]. apply Hn. rewrite E. by left.
    + intros b' [->|Hb']%elem_of_cons; [done|]. destruct (Hall b' Hb') as [Hn Hc']. split; [|done].
      intros Hin. apply Hn. by right.
Qed.

(** One binding for each source, with the capability the source needs. *)
Record complete_bindings (bindings : list CalendarSourceBinding) : Prop := {
  cb_sources : map sb_sourceId bindings ≡ₚ CALENDAR_PREPARATION_SOURCE_IDS;
  cb_capabilities b : b ∈ bindings → sb_capability b = sd_capability (SOURCE_DEFINITIONS (sb_sourceId b))
}.

Lemma validateBindings_Ok bindings : validateBindings bindings = Ok tt → complete_bindings bindings.
Proof.
  unfold validateBindings. intros Hv. apply res_bind_Ok in Hv as (seen & Hc & Hv). apply throw_if_Ok in Hv. bool_prop.
  destruct (check_bindings_Ok _ _ _ Hc) as (Hlen & Hnd & Hall). split; [|intros b Hb; by apply Hall].
  apply submseteq_length_Permutation.
  - apply NoDup_submseteq; [done|]. intros [] _; apply (bool_decide_unpack _); by vm_compute.
  - rewrite length_map. cbn [length] in Hlen. lia.
Qed.

Section bindings.
Context (bindings : list CalendarSourceBinding) (Hall : complete_bindings bindings).

Lemma source_unique b b' : b ∈ bindings → b' ∈ bindings → sb_sourceId b = sb_sourceId b' → b = b'.
Proof.
  intros [i Hi]%list_elem_of_lookup [j Hj]%list_elem_of_lookup E.
  assert (Hnd : NoDup (sb_sourceId <$> bindings)).
  { change (NoDup (map sb_sourceId bindings)). rewrite (cb_sources _ Hall). apply (bool_decide_unpack _). by vm_compute. }
  assert (i = j) as ->; [|congruence].
  eapply (NoDup_lookup _ i j); [exact Hnd|by rewrite list_lookup_fmap, Hi|by rewrite list_lookup_fmap, Hj, E].
Qed.

Lemma source_bound s : ∃ b, b ∈ bindings ∧ sb_sourceId b = s.
Proof.
  assert (Hs : s ∈ map sb_sourceId bindings).
  { rewrite (cb_sources _ Hall). destruct s; apply (bool_decide_unpack _); by vm_compute. }
  apply list_elem_of_fmap in Hs as (b & -> & Hb). by exists b.
Qed.

(** Two sources share a provider's capability only as mandatory sources of one lane. *)
Lemma shared_key b b' :
  b ∈ bindings → b' ∈ bindings → binding_key b = binding_key b' →
  b' = b ∨ mandatory b ∧ mandatory b' ∧ sd_lane (SOURCE_DEFINITIONS (sb_sourceId b')) =
    sd_lane (SOURCE_DEFINITIONS (sb_sourceId b)).
Proof.
  intros Hb Hb' [_ Hc]%capability_key_inj. rewrite !(cb_capabilities _ Hall) in Hc by done.
  destruct (decide (sb_sourceId b' = sb_sourceId b)) as [E|E]; [left; by apply source_unique|]. right.
  unfold mandatory. destruct (sb_sourceId b), (sb_sourceId b'); done.
Qed.

(** ** A lane's sources *)

Lemma lane_bindings_elem lane b :
  b ∈ lane_bindings lane bindings ↔ b ∈ bindings ∧ sd_lane (SOURCE_DEFINITIONS (sb_sourceId b)) = Some lane.
Proof. unfold lane_bindings. rewrite !list_elem_of_In, filter_In, <-!list_elem_of_In. by rewrite bool_decide_eq_true. Qed.

Lemma is_planned_iff b : is_planned b = true ↔ mandatory b ∨ (readiness b).1 = Status_ready ∨
  (readiness b).1 = Status_separately_authorized.
Proof. unfold is_planned, mandatory. rewrite !orb_true_iff, !bool_decide_eq_true. tauto. Qed.

Lemma selection_in lane b : b ∈ lane_selection lane bindings → b ∈ lane_bindings lane bindings.
Proof.
  unfold lane_selection. destruct (_ <? _).
  - rewrite !list_elem_of_In, filter_In. by intros [? _].
  - intros Hb. apply (list_elem_of_In _ _) in Hb. apply list_elem_of_In. rewrite <-(take_drop 1 (lane_bindings lane bindings)).
    apply in_or_app. by left.
Qed.

(** When some source is planned, the selection is exactly what is planned. *)
Lemma selection_planned lane b b' :
  b ∈ lane_bindings lane bindings → is_planned b = true →
  b' ∈ lane_selection lane bindings ↔ b' ∈ lane_bindings lane bindings ∧ is_planned b' = true.
Proof.
  intros Hb Hp. unfold lane_selection.
  assert (Hin : b ∈ List.filter is_planned (lane_bindings lane bindings)).
  { rewrite list_elem_of_In, filter_In, <-list_elem_of_In. done. }
  destruct (Z.ltb_spec 0 (Z.of_nat (length (List.filter is_planned (lane_bindings lane bindings))))) as [H|H].
  - by rewrite !list_elem_of_In, filter_In.
  - destruct (List.filter _ _); [by apply elem_of_nil in Hin|cbn in H; lia].
Qed.

Lemma lane_assignment_Ok lane a selected :
  lane_assignment bindings lane = Ok (a, selected) →
  sa_lane a = lane ∧ sa_capabilities a = sorted_literals (map sb_capability (lane_selection lane bindings)) ∧
  (∀ b, b ∈ lane_selection lane bindings → sb_providerId b = sa_providerId a) ∧
  selected = map sb_sourceId (lane_selection lane bindings) ∧ lane_selection lane bindings ≠ [].
Proof.
  unfold lane_assignment. intros Ha. apply res_bind_Ok in Ha as (u & Hl & Ha). apply throw_if_Ok in Hl.
  apply res_bind_Ok in Ha as (p & Hp & Ha). apply or_throw_Ok in Hp. injection Ha as <- <-. bool_prop.
  cbn [sa_lane sa_capabilities sa_providerId]. split_and!; try done.
  - intros b Hb. eapply one_value; [exact Hl|by apply list_elem_of_fmap_2|].
    apply (elem_of_remove_dups (map sb_providerId _)). destruct (remove_dups _); [done|]. injection Hp as ->. by left.
  - intros E. by rewrite E in Hl.
Qed.
End bindings.

Lemma readiness_of_Ready registry p cs :
  (readiness_of registry p cs).1 = Ready ↔
    ∀ c, c ∈ cs → ∃ e, registered_entry registry p c = Some e ∧ entry_open e.
Proof.
  induction cs as [|c cs IH]; cbn [readiness_of].
  - split; [by intros _ c Hc%elem_of_nil|done].
  - unfold entry_open in *. destruct (registered_entry registry p c) as [e|] eqn:E.
    + destruct (pc_available e) eqn:Ea; cbn [negb].
      * case_bool_decide as Er; cbn [fst].
        -- split; [done|]. intros H. destruct (H c ltac:(left)) as (e' & He' & _ & Hn). congruence.
        -- rewrite IH. setoid_rewrite elem_of_cons. split; [|naive_solver]. intros H c' [->|Hc']; [|by apply H].
           exists e. split_and!; try done. by destruct (pc_credentialRequirement e).
      * split; [done|]. intros H. destruct (H c ltac:(left)) as (e' & He' & Ha & _). congruence.
    + split; [done|]. intros H. destruct (H c ltac:(left)) as (e' & He' & _). congruence.
Qed.

(** ** When a lane is ready *)

(** What a source of a lane's plan needs for the lane to be ready.  The second case is a
    source that stands in for a lane without planned sources. *)
Definition usable (b : CalendarSourceBinding) : Prop :=
  (readiness b).1 = Status_ready ∨
  is_planned b = false ∧ sb_available b = true ∧ sb_credentialRequirement b = No_credential.

Lemma readiness_fields b :
  match (readiness b).1 with
  | Status_ready => sb_configuredIdentityOrPath b ≠ None ∧ sb_available b = true ∧
      sb_credentialRequirement b = No_credential ∧ sb_entitlementRequirement b = No_credential ∧
      sb_liveAccessRequired b = false
  | Status_missing => sb_configuredIdentityOrPath b = None
  | Status_blocked => sb_available b = false
  | Status_separately_authorized => sb_configuredIdentityOrPath b ≠ None ∧ sb_available b = true
  end.
Proof.
  unfold readiness. destruct (sb_configuredIdentityOrPath b); [|done].
  destruct (sb_available b), (sb_credentialRequirement b), (sb_entitlementRequirement b),
    (sb_liveAccessRequired b); done.
Qed.

Lemma usable_open b selected :
  sb_sourceId b ∈ selected →
  usable b ↔ sb_available b = true ∧ sb_credentialRequirement b = No_credential ∧ ¬ stops b ∧ ¬ gates selected b.
Proof.
  intros Hs. pose proof (readiness_fields b) as Hr. pose proof (is_planned_iff b) as Hp.
  unfold usable, stops, gates. destruct (is_planned b), (readiness b).1; naive_solver.
Qed.

Section lanes.
Context (bindings : list CalendarSourceBinding) (Hall : complete_bindings bindings).
Context (lanes : list (SourceAssignment * list CalendarPreparationSourceId)).
Context (Hlanes : res_map (lane_assignment bindings) EVENT_CLUSTER_LANES = Ok lanes).

Lemma lane_of a selected :
  (a, selected) ∈ lanes → lane_assignment bindings (sa_lane a) = Ok (a, selected).
Proof.
  intros [i Hi]%list_elem_of_lookup. apply res_map_Ok in Hlanes.
  destruct (Forall2_lookup_r _ _ _ _ _ Hlanes Hi) as (lane & _ & Ha).
  destruct (lane_assignment_Ok _ _ _ _ Ha) as (El & _). by rewrite El.
Qed.

Lemma assigned_lanes : map (sa_lane ∘ fst) lanes = EVENT_CLUSTER_LANES.
Proof.
  apply res_map_Ok in Hlanes. clear -Hlanes. induction Hlanes as [|lane [a sel] ls l Ha _ IH]; [done|].
  cbn [map]. rewrite IH. f_equal. by destruct (lane_assignment_Ok _ _ _ _ Ha) as (E & _).
Qed.

Lemma lane_assigned lane : ∃ a, (a, map sb_sourceId (lane_selection lane bindings)) ∈ lanes ∧ sa_lane a = lane.
Proof.
  assert (Hin : lane ∈ map (sa_lane ∘ fst) lanes).
  { rewrite assigned_lanes. destruct lane; solve_elem. }
  apply list_elem_of_fmap in Hin as ([a sel] & -> & Hin). exists a. split; [|done]. cbn [compose fst].
  destruct (lane_assignment_Ok _ _ _ _ (lane_of _ _ Hin)) as (_ & _ & _ & <- & _). done.
Qed.

Lemma selected_iff s :
  s ∈ concat (map snd lanes) ↔ ∃ lane b, b ∈ lane_selection lane bindings ∧ sb_sourceId b = s.
Proof.
  rewrite list_elem_of_In, in_concat. setoid_rewrite <-list_elem_of_In. split.
  - intros (sel & ([a sel'] & -> & Hin)%list_elem_of_fmap & Hs). cbn [snd] in Hs.
    destruct (lane_assignment_Ok _ _ _ _ (lane_of _ _ Hin)) as (_ & _ & _ & -> & _).
    apply list_elem_of_fmap in Hs as (b & -> & Hb). by exists (sa_lane a), b.
  - intros (lane & b & Hb & <-). destruct (lane_assigned lane) as (a & Ha & _). eexists. split.
    + apply list_elem_of_fmap. by exists (a, map sb_sourceId (lane_selection lane bindings)).
    + by apply list_elem_of_fmap_2.
Qed.

(** A selected source is selected by its own lane. *)
Lemma selected_own b :
  b ∈ bindings → sb_sourceId b ∈ concat (map snd lanes) →
  ∃ lane, sd_lane (SOURCE_DEFINITIONS (sb_sourceId b)) = Some lane ∧ b ∈ lane_selection lane bindings.
Proof.
  intros Hb (lane & b' & Hb' & E)%selected_iff. pose proof (selection_in _ _ _ Hb') as Hin.
  apply lane_bindings_elem in Hin as [Hin Hl].
  assert (b' = b) as -> by by apply (source_unique bindings Hall). by exists lane.
Qed.

Context (declared gated : registry_map).
Context (Hdeclared : res_fold declare [] bindings = Ok declared).
Context (Hgated : res_fold (gate (concat (map snd lanes))) declared bindings = Ok gated).

Lemma declared_keyed : keyed declared ∧
  ∀ b, b ∈ bindings → ∃ e, lookup_key (binding_key b) declared = Some e ∧ declares e b.
Proof.
  destruct (declare_all_Ok bindings [] declared) as (Hk & Hd & _); try done.
  split; [constructor|by intros k e Hin%elem_of_nil].
Qed.

Lemma gated_keyed : keyed gated.
Proof. eapply (gate_all_Ok _ _ declared gated); [apply declared_keyed|exact Hgated]. Qed.

Lemma gated_entry_open lane b :
  b ∈ lane_selection lane bindings →
  (∃ e, lookup_key (binding_key b) gated = Some e ∧ entry_open e) ↔
  ∀ b', b' ∈ bindings → binding_key b' = binding_key b →
    sb_available b' = true ∧ sb_credentialRequirement b' = No_credential ∧ ¬ stops b' ∧
    ¬ gates (concat (map snd lanes)) b'.
Proof.
  intros Hb. destruct declared_keyed as [Hk Hd].
  assert (Hin : b ∈ bindings) by (by apply selection_in, lane_bindings_elem in Hb as [? _]).
  destruct (Hd b Hin) as (e & He & Hdecl).
  destruct (proj2 (gate_all_Ok _ _ _ _ Hk Hgated) _ _ He) as (e' & He' & Ho). split.
  - intros (e2 & He2 & Hopen) b' Hb' Ek. assert (e2 = e') as -> by congruence.
    apply Ho in Hopen as [[Ha Hr] Hopen]. destruct (Hopen b' Hb' Ek) as [Hns Hng].
    destruct (Hd b' Hb') as (e1 & He1 & Ha1 & Hr1). rewrite Ek in He1. assert (e1 = e) as -> by congruence.
    split_and!; try done; congruence.
  - intros H. exists e'. split; [done|]. apply Ho. destruct (H b Hin eq_refl) as (Ha & Hr & _).
    destruct Hdecl as [Ha' Hr']. split; [split; congruence|]. intros b' Hb' Ek.
    by destruct (H b' Hb' Ek) as (_ & _ & ? & ?).
Qed.

(** The lane's capabilities are open exactly when its sources are usable. *)
Lemma lane_open lane :
  (∀ b, b ∈ lane_selection lane bindings → ∃ e, lookup_key (binding_key b) gated = Some e ∧ entry_open e) ↔
  ∀ b, b ∈ lane_selection lane bindings → usable b.
Proof.
  assert (Hsel : ∀ b, b ∈ lane_selection lane bindings → sb_sourceId b ∈ concat (map snd lanes)).
  { intros b Hb. apply selected_iff. by exists lane, b. }
  split; intros H b Hb.
  - apply (usable_open b (concat (map snd lanes)) (Hsel b Hb)).
    apply (gated_entry_open lane b Hb); [by apply H| |done]. by apply selection_in, lane_bindings_elem in Hb as [? _].
  - apply (gated_entry_open lane b Hb). intros b' Hb' Ek. pose proof (selection_in _ _ _ Hb) as Hin.
    apply lane_bindings_elem in Hin as [Hin Hl].
    assert (Hb'' : b' ∈ lane_selection lane bindings).
    { destruct (shared_key bindings Hall b b' Hin Hb' (eq_sym Ek)) as [->|(Hm & Hm' & El)]; [done|].
      assert (Hp : is_planned b = true) by (apply is_planned_iff; by left).
      apply (selection_planned bindings lane b); [by apply lane_bindings_elem|done|].
      split; [apply lane_bindings_elem; by rewrite El|apply is_planned_iff; by left]. }
    by apply (usable_open b' _ (Hsel b' Hb'')), H.
Qed.
End lanes.

(** What the plan of a lane says of its sources. *)
Record lane_exact (bindings : list CalendarSourceBinding) (p : AcquisitionPlan) : Prop := {
  le_sources : lane_selection (ap_lane p) bindings ≠ [];
  le_provider b : b ∈ lane_selection (ap_lane p) bindings → sb_providerId b = ap_providerId p;
  le_capabilities c : c ∈ ap_capabilities p ↔
    ∃ b, b ∈ lane_selection (ap_lane p) bindings ∧ sb_capability b = c;
  le_ready : ap_readiness p = Ready ↔ ∀ b, b ∈ lane_selection (ap_lane p) bindings → usable b
}.

Lemma sorted_literals_elem {A} `{Enumerated A} `{EqDecision A} (l : list A) x : x ∈ sorted_literals l ↔ x ∈ l.
Proof. unfold sorted_literals. by rewrite elem_of_sort_by, elem_of_remove_dups. Qed.

Lemma acquisition_plan_fields registry a :
  let p := acquisition_plan registry a in
  ap_lane p = sa_lane a ∧ ap_providerId p = sa_providerId a ∧
  ap_capabilities p = sorted_literals (sa_capabilities a) ∧
  ap_readiness p = (readiness_of registry (sa_providerId a) (sorted_literals (sa_capabilities a))).1.
Proof. unfold acquisition_plan. by destruct (readiness_of _ _ _). Qed.

Lemma providerInputs_Ok bindings assignments registry :
  complete_bindings bindings → providerInputs bindings = Ok (assignments, registry) →
  map sa_lane assignments = EVENT_CLUSTER_LANES ∧
  ∀ a, a ∈ assignments → lane_exact bindings (acquisition_plan registry a).
Proof.
  intros Hall Hp. unfold providerInputs in Hp. apply res_bind_Ok in Hp as (declared & Hd & Hp).
  apply res_bind_Ok in Hp as (lanes & Hl & Hp). apply res_bind_Ok in Hp as (gated & Hg & Hp).
  injection Hp as <- <-. split; [rewrite map_map; apply (assigned_lanes bindings lanes Hl)|].
  intros a ([a' sel] & -> & Hin)%list_elem_of_fmap. cbn [fst].
  destruct (lane_assignment_Ok _ _ _ _ (lane_of bindings lanes Hl _ _ Hin)) as (_ & Hc & Hprov & _ & Hne).
  destruct (acquisition_plan_fields (sort_by (λ a b, js_leb (entry_key a) (entry_key b)) (map snd gated)) a')
    as (E1 & E2 & E3 & E4).
  assert (Hcaps : ∀ c, c ∈ sorted_literals (sa_capabilities a') ↔
    ∃ b, b ∈ lane_selection (sa_lane a') bindings ∧ sb_capability b = c).
  { intros c. rewrite Hc, !sorted_literals_elem, list_elem_of_fmap. naive_solver. }
  split; rewrite ?E1, ?E2, ?E3, ?E4; [done|done|done|].
  rewrite <-(lane_open bindings Hall lanes Hl declared gated Hd Hg), readiness_of_Ready.
  pose proof (gated_keyed bindings lanes declared gated Hd Hg) as Hk. split.
  - intros H b Hb. destruct (H (sb_capability b)) as (e & He & Ho); [apply Hcaps; by exists b|].
    rewrite registered_entry_lookup in He by done. rewrite <-(Hprov b Hb) in He. by exists e.
  - intros H c (b & Hb & <-)%Hcaps. destruct (H b Hb) as (e & He & Ho). exists e. split; [|done].
    rewrite registered_entry_lookup by done. by rewrite <-(Hprov b Hb).
Qed.

(** ** Inputs that were written as JSON *)

Lemma parse_as_fields `{Zod} {A} s (read : jobject → option A) kvs a a' :
  (∀ kvs, json_wf (JObj kvs) → read (norm_entries kvs) = read kvs) →
  json_wf (JObj kvs) → read kvs = Some a → parse_as s read (JObj kvs) = Ok a' →
  a' = a ∧ accepts_ref s (norm (JObj kvs)) = true.
Proof.
  intros Hn Hw Hr (w & Hs & Ha & Hr')%parse_as_Ok. apply inertJsonSnapshot_spec in Hs as [_ ->]; [|done].
  split; [|done]. rewrite norm_obj in Hr'. cbn [as_obj mbind option_bind] in Hr'. rewrite Hn in Hr' by done. congruence.
Qed.

Lemma spec_of_norm kvs : json_wf (JObj kvs) → spec_of (norm_entries kvs) = spec_of kvs.
Proof. unfold spec_of. revert kvs. record_of_norm. Qed.

Lemma spec_of_fields s : spec_of (spec_fields s) = Some s.
Proof. destruct s. unfold spec_of. by read_back. Qed.

Lemma mapM_of_norm `{Codec A} (l : list A) :
  Forall record_wf l → (∀ a, nrm a = a) → mapM of_json (map norm (map to_json l)) = Some l.
Proof.
  intros Hl Hn. induction Hl as [|a l Ha _ IH]; [done|]. cbn [map mapM].
  rewrite of_json_norm, of_json_to_json by done. cbn [fmap option_fmap option_map mbind option_bind].
  by rewrite IH, Hn.
Qed.

Lemma parse_list_records `{Zod} A `{Codec A} s (l l' : list A) :
  Forall record_wf l → (∀ a : A, nrm a = a) → parse_list A s (jlist l) = Ok l' → l' = l.
Proof.
  intros Hw Hn Hp. unfold parse_list in Hp. apply res_bind_Ok in Hp as (w & Hs & Hp).
  apply inertJsonSnapshot_spec in Hs as [_ ->]; [|by apply jlist_wf].
  apply res_bind_Ok in Hp as (w & Hw' & Hp). apply parse_Ok in Hw' as [_ ->]. apply or_throw_Ok in Hp.
  unfold jlist in Hp. cbn [norm] in Hp. change (norm <$> ?l) with (map norm l) in Hp.
  rewrite mapM_of_norm in Hp by done. congruence.
Qed.

(** ** Well-formed inputs *)

#[export] Instance CalendarSourceBinding_wf : ReadWf CalendarSourceBinding.
Proof.
  intros kvs a Hw Ha. change (binding_of kvs = Some a) in Ha. unfold binding_of in Ha. read_wf_record Hw Ha.
Qed.

#[export] Instance CalendarReference_wf : ReadWf CalendarReference.
Proof.
  intros kvs a Hw Ha. change (reference_of kvs = Some a) in Ha. unfold reference_of in Ha. read_wf_record Hw Ha.
Qed.

#[export] Instance PollingPolicy_wf : ReadWf PollingPolicy.
Proof.
  intros kvs a Hw Ha. change (polling_of kvs = Some a) in Ha. unfold polling_of in Ha. read_wf_record Hw Ha.
Qed.

Lemma get_opt_str_wf k kvs o :
  json_wf (JObj kvs) → get_opt get_str k kvs = Some o → default True (units_ok <$> o).
Proof.
  intros Hw Ho. unfold get_opt in Ho.
  assert (Hs : ∀ s, get_str k kvs = Some s → units_ok s) by (intros s; by apply get_str_wf).
  destruct (lookup_key k kvs); [|by injection Ho as <-].
  destruct (get_str k kvs); try done; injection Ho as <-; by apply Hs.
Qed.

Lemma changes_wf c : default True (units_ok <$> pc_expectedEventDate c) → record_wf c.
Proof.
  intros Hd. destruct c as [[d|] [x|]]; cbn [pc_expectedEventDate default fmap option_fmap option_map] in Hd;
    unfold record_wf, to_json; apply json_wf_obj; (split; [apply (bool_decide_unpack _); by vm_compute|]);
    cbn -[js enum_name]; intros kv Hkv; rewrite ?elem_of_cons, ?elem_of_nil in Hkv; destruct_or?; subst;
    cbn [fst snd]; try done; split; first [apply js_units | exact Hd | apply (enum_units x)].
Qed.

#[export] Instance PreparationChanges_wf : ReadWf PreparationChanges.
Proof.
  intros kvs a Hw Ha. change (changes_of kvs = Some a) in Ha. unfold changes_of in Ha. read_fields Ha.
  injection Ha as <-. apply changes_wf. cbn. by eapply get_opt_str_wf.
Qed.

#[export] Instance CalendarPreparationAmendment_wf : ReadWf CalendarPreparationAmendment.
Proof.
  intros kvs a Hw Ha. change (preparation_amendment_of kvs = Some a) in Ha.
  unfold preparation_amendment_of in Ha. read_wf_record Hw Ha.
Qed.

#[export] Instance CalendarEventPreparationInput_wf : ReadWf CalendarEventPreparationInput.
Proof.
  intros kvs a Hw Ha. change (input_of kvs = Some a) in Ha. unfold input_of in Ha. read_wf_record Hw Ha.
Qed.

(** ** The parts of an input *)

Section input.
Context (i : CalendarEventPreparationInput) (Hi : record_wf i).

Lemma input_part k w : lookup_key (js k) (input_fields i) = Some w → json_wf w.
Proof. by apply part_wf. Qed.

Lemma bindings_wf : Forall record_wf (ci_sourceBindings i).
Proof. apply jlist_wf_iff. by apply (input_part "sourceBindings"). Qed.

Lemma references_wf : Forall record_wf (ci_corroboratingCalendarCandidates i).
Proof. apply jlist_wf_iff. by apply (input_part "corroboratingCalendarCandidates"). Qed.

Lemma amendments_wf phase : Forall record_wf (amendments_of phase i).
Proof.
  assert (Hl : Forall record_wf (ci_amendments i)) by (apply jlist_wf_iff; by apply (input_part "amendments")).
  rewrite Forall_forall in Hl |- *. intros a Ha. apply Hl. revert Ha. unfold amendments_of.
  rewrite !list_elem_of_In, filter_In. by intros [? _].
Qed.

Lemma reference_wf s r d e t : units_ok s → units_ok r → units_ok d →
  record_wf {| cr_calendarSourceId := s; cr_calendarRevisionId := r; cr_expectedEventDate := d;
               cr_expectedSession := e; cr_discoveredAtMs := t |}.
Proof.
  intros. unfold record_wf, to_json. cbn -[json_wf js jint jenum]. solve_fields.
Qed.

Lemma reference_parts c : record_wf c →
  units_ok (cr_calendarSourceId c) ∧ units_ok (cr_calendarRevisionId c) ∧ units_ok (cr_expectedEventDate c).
Proof.
  intros Hc. split_and!.
  - by apply (part_wf (reference_fields c) "calendarSourceId" (JStr _)).
  - by apply (part_wf (reference_fields c) "calendarRevisionId" (JStr _)).
  - by apply (part_wf (reference_fields c) "expectedEventDate" (JStr _)).
Qed.

Lemma changes_date_wf a : record_wf a → default True (units_ok <$> pc_expectedEventDate (pa_changes a)).
Proof.
  intros Ha. pose proof (part_wf (preparation_amendment_fields a) "changes" _ Ha eq_refl) as Hc.
  destruct (pc_expectedEventDate (pa_changes a)) as [d|] eqn:E; [|done].
  apply (part_wf (changes_fields (pa_changes a)) "expectedEventDate" (JStr d) Hc).
  unfold changes_fields. by rewrite E.
Qed.

Lemma frozen_calendar_wf : record_wf (frozen_calendar i).
Proof.
  unfold frozen_calendar. pose proof (amendments_wf Before_freeze) as Ha. revert Ha.
  assert (Hc : record_wf (input_calendar i)).
  { apply reference_wf; [by apply (input_part "calendarSourceId" (JStr _))|
      by apply (input_part "calendarRevisionId" (JStr _))|by apply (input_part "expectedEventDate" (JStr _))]. }
  revert Hc. generalize (input_calendar i) as c, (amendments_of Before_freeze i) as l.
  intros c l; revert c. induction l as [|a l IH]; intros c Hc Hl; [done|]. apply Forall_cons in Hl as [Ha Hl].
  cbn [foldl]. apply IH; [|done]. destruct (reference_parts c Hc) as (H1 & H2 & H3).
  apply reference_wf; try done. pose proof (changes_date_wf a Ha) as Hd.
  by destruct (pc_expectedEventDate (pa_changes a)).
Qed.

Lemma candidateFrom_wf c : record_wf c → record_wf (candidateFrom i c).
Proof.
  intros Hc. destruct (reference_parts c Hc) as (H1 & H2 & H3). unfold record_wf, to_json.
  cbn -[json_wf js jint jenum]. solve_fields.
  - by apply (input_part "issuerId" (JStr _)).
  - by apply (input_part "cik" (JStr _)).
  - by apply (input_part "ticker" (JStr _)).
  - by apply (input_part "exchange" (JStr _)).
  - by apply (input_part "instrumentId" (JStr _)).
  - by apply (input_part "sectorBenchmark" (JStr _)).
  - by apply (input_part "fiscalPeriod" (JStr _)).
Qed.

(** The selected candidate is one of the calendars', and all of them agree. *)
Lemma selected_candidate_Ok c :
  selected_candidate i = Ok c →
  let calendars := frozen_calendar i :: ci_corroboratingCalendarCandidates i in
  record_wf c ∧ (∃ r, r ∈ calendars ∧ c = candidateFrom i r) ∧
  ∀ r, r ∈ calendars → cr_expectedEventDate r = cc_expectedEventDate c ∧
    cr_expectedSession r = cc_expectedSession c ∧ js_leb (calendar_key c) (calendar_key (candidateFrom i r)) = true.
Proof.
  intros Hs calendars. unfold selected_candidate in Hs.
  change (candidateFrom i (frozen_calendar i) :: map (candidateFrom i) (ci_corroboratingCalendarCandidates i))
    with (map (candidateFrom i) calendars) in Hs. set (cs := map (candidateFrom i) calendars) in *.
  apply res_bind_Ok in Hs as (u & Hone & Hs). apply throw_if_Ok, orb_false_iff in Hone as [H1 H2].
  apply or_throw_Ok in Hs. bool_prop. set (l := sort_by _ cs) in Hs.
  assert (Hsorted : StronglySorted (λ a b, js_leb (calendar_key a) (calendar_key b) = true) l)
    by (apply sort_by_sorted; intros; [apply js_leb_total|by eapply js_leb_trans]).
  assert (Hmem : ∀ x, x ∈ l ↔ x ∈ cs) by (intros x; apply elem_of_sort_by).
  destruct l as [|x l']; [done|]. injection Hs as Hx. subst x.
  assert (Hc : c ∈ cs) by (apply Hmem; by left). split_and!.
  - apply list_elem_of_fmap in Hc as (r & -> & Hr). apply candidateFrom_wf.
    apply elem_of_cons in Hr as [->|Hr]; [apply frozen_calendar_wf|]. by apply (proj1 (Forall_forall _ _) references_wf).
  - apply list_elem_of_fmap in Hc as (r & -> & Hr). by exists r.
  - intros r Hr. assert (Hin : candidateFrom i r ∈ cs) by by apply list_elem_of_fmap_2. split_and!.
    + eapply one_value; [exact H1|by apply (list_elem_of_fmap_2 cc_expectedEventDate) in Hin|by apply list_elem_of_fmap_2].
    + eapply one_value; [exact H2|by apply (list_elem_of_fmap_2 cc_expectedSession) in Hin|by apply list_elem_of_fmap_2].
    + apply StronglySorted_inv in Hsorted as [_ Hmin]. apply Hmem, elem_of_cons in Hin as [<-|Hin].
      * match goal with |- js_leb ?k ?k = true => by destruct (js_leb_total k k) end.
      * by apply (proj1 (Forall_forall _ _) Hmin).
Qed.
End input.
