(* ===== verification/CalendarPlans.v ===== *)
(** * The plan of a prepared event

    What the compiled and amended plan of a preparation holds: its windows belong to its
    date, its date is the one the calendars agree on as amended, its lanes are exact; and
    the texts a preparation publishes, read back and counted. *)
From S2P Require Import Prelude JsString JsNumber Json JsonLimits JsonParse JsonClaims.
From S2P Require Import Hash Zod JsonObject Event EventFacts Codec Records.
From S2P Require Import Evidence EventPlan EventPlanFacts EventCalendar CivilTime.
From S2P Require Import CalendarPreparation CalendarFacts.

(** ** The registry of an input *)

Definition units_entry (e : ProviderCapabilityEntry) : Prop := units_ok (pc_providerId e).
Definition units_map (m : registry_map) : Prop := ∀ k e, (k, e) ∈ m → units_entry e.

Lemma units_map_set m k e : units_map m → units_entry e → units_map (map_set k e m).
Proof.
  intros Hm He. induction m as [|x m IH]; cbn [map_set].
  - intros k' e' Hin%list_elem_of_singleton. by injection Hin as -> ->.
  - unfold same_string. case_bool_decide; intros k' e' Hin; apply elem_of_cons in Hin as [Hin|Hin].
    + by injection Hin as -> ->.
    + by apply (Hm k'); right.
    + apply (Hm k'). rewrite Hin. by left.
    + revert Hin. apply IH. intros k2 e2 H2. by apply (Hm k2); right.
Qed.

Lemma entry_wf e : units_entry e → record_wf e.
Proof. intros He. unfold record_wf, to_json. cbn -[json_wf js jenum]. solve_fields. Qed.

Lemma binding_units b : record_wf b → units_ok (sb_providerId b).
Proof. intros Hb. by apply (part_wf (binding_fields b) "providerId" (JStr _)). Qed.

Lemma assignment_wf a : units_ok (sa_providerId a) → record_wf a.
Proof. intros Ha. unfold record_wf, to_json. cbn -[json_wf js jenum jenums]. solve_fields. Qed.

Lemma providerInputs_wf bindings assignments registry :
  Forall record_wf bindings → providerInputs bindings = Ok (assignments, registry) →
  Forall record_wf assignments ∧ Forall record_wf registry.
Proof.
  intros Hb Hp. rewrite Forall_forall in Hb. unfold providerInputs in Hp.
  apply res_bind_Ok in Hp as (declared & Hd & Hp). apply res_bind_Ok in Hp as (lanes & Hl & Hp).
  apply res_bind_Ok in Hp as (gated & Hg & Hp). injection Hp as <- <-.
  assert (Hud : units_map declared).
  { revert Hd. apply (res_fold_invariant units_map); [|by intros k e H%elem_of_nil].
    intros m b m' Hm Hin Hd. unfold declare in Hd. apply res_bind_Ok in Hd as (u & _ & Hd). apply Ok_inj in Hd as <-.
    apply units_map_set; [done|]. by apply binding_units, Hb. }
  assert (Hug : units_map gated).
  { revert Hg. apply (res_fold_invariant units_map); [|done].
    intros m b m' Hm Hin Hg. unfold gate in Hg. apply res_bind_Ok in Hg as (d & Hd' & Hg).
    apply or_throw_Ok, lookup_key_elem in Hd'. apply Ok_inj in Hg as <-. pose proof (Hm _ _ Hd') as Hu.
    repeat case_match; try done; by apply units_map_set. }
  split; apply Forall_forall.
  - intros a ([a' sel] & -> & Hin)%list_elem_of_fmap. cbn [fst]. apply assignment_wf.
    destruct (lane_assignment_Ok _ _ _ _ (lane_of bindings lanes Hl _ _ Hin)) as (_ & _ & Hprov & _ & Hne).
    destruct (lane_selection (sa_lane a') bindings) as [|b l] eqn:E; [done|].
    rewrite <-(Hprov b) by by left. apply binding_units, Hb.
    assert (Hin' : b ∈ lane_selection (sa_lane a') bindings) by (rewrite E; by left).
    by apply selection_in, lane_bindings_elem in Hin' as [? _].
  - intros e ([k e'] & -> & Hin)%elem_of_sort_by%list_elem_of_fmap. by eapply entry_wf, Hug.
Qed.

(** ** Compilation from records *)

Lemma spec_wf s : Forall record_wf (sp_sourceAssignments s) → Forall units_ok (sp_expectedForms s) →
  Forall units_ok (sp_expectedItems s) → json_wf (JObj (spec_fields s)).
Proof.
  intros. assert (Hw : json_wf (to_json (sp_windows s))) by (apply json_wfb_wf; by vm_compute).
  assert (Hz : json_wf EVENT_CLUSTER_EFFECTS_ZERO) by (apply json_wfb_wf; by vm_compute).
  unfold spec_fields, policy_fields. cbn [app]. solve_fields.
Qed.

Lemma candidate_dated kvs d :
  accepts_ref candidateSchema (JObj kvs) = true → lookup_key (js "expectedEventDate") kvs = Some (JStr d) →
  is_date d = true.
Proof.
  intros Ha Hk. eapply (object_field _ _ (js "expectedEventDate") (SString [CRegex is_date])) in Ha;
    [|unfold candidateSchema; solve_elem|exact Hk].
  cbn in Ha. by rewrite andb_true_r in Ha.
Qed.

Lemma candidate_nodup c : NoDup (fst <$> candidate_fields c).
Proof. apply (bool_decide_unpack _). by vm_compute. Qed.

(** ** Texts *)

(** The texts of a plan are JavaScript strings. *)
Record plan_texts (p : EventPlan) : Prop := {
  pt_candidate : record_wf (ep_candidate p);
  pt_providers : Forall (λ a, units_ok (ap_providerId a)) (ep_acquisitionPlans p);
  pt_forms : Forall units_ok (ep_expectedForms p);
  pt_items : Forall units_ok (ep_expectedItems p);
  pt_subjects : Forall units_ok (ep_marketSubjects p);
  pt_amendments : Forall (λ a, json_wf (JObj (amendment_fields a))) (ep_amendments p)
}.

Lemma objects_wf {A} (f : A → jobject) (l : list A) :
  Forall (λ a, json_wf (JObj (f a))) l → json_wf (JArr (map (JObj ∘ f) l)).
Proof.
  intros Hl. apply json_wf_arr. intros x (a & -> & Ha)%list_elem_of_fmap.
  by apply (proj1 (Forall_forall _ _) Hl).
Qed.

Lemma acquisition_wf a : units_ok (ap_providerId a) → default True (units_ok <$> ap_blocker a) →
  json_wf (JObj (acquisition_fields a)).
Proof. intros Hp Hb%jnull_str_wf. unfold acquisition_fields. solve_fields. Qed.

Lemma windows_wf (w : PlanWindows) : json_wf (to_json w).
Proof. apply json_wfb_wf. by vm_compute. Qed.

Lemma plan_fields_wf `{Sha256} `{Locale} p : plan_ok p → plan_texts p → json_wf (JObj (plan_fields p)).
Proof.
  intros [_ _ _ _ _ _ _ [Hid%is_hash_units_ok Hrd%is_hash_units_ok] Hb] [Hc Hp Hf Hi Hs Ha].
  assert (Hz : json_wf EVENT_CLUSTER_EFFECTS_ZERO) by (apply json_wfb_wf; by vm_compute).
  assert (Hm : json_wf MARKET_WINDOWS) by (apply json_wfb_wf; by vm_compute).
  assert (Hw := windows_wf (ep_windows p)).
  assert (Hpl : json_wf (JArr (map (JObj ∘ acquisition_fields) (ep_acquisitionPlans p)))).
  { apply objects_wf. rewrite Forall_forall in Hp. rewrite Forall_forall in Hb. apply Forall_forall.
    intros a Hin. apply acquisition_wf; auto. }
  assert (Ham := objects_wf amendment_fields _ Ha).
  unfold plan_fields, plan_content, plan_terms, policy_fields. cbn [app]. solve_fields.
Qed.

Section plans.
Context `{Sha256} `{Zod} `{Locale}.

Lemma compiled_from_records c s r p :
  record_wf c → json_wf (JObj (spec_fields s)) → Forall record_wf r →
  compileEventPlan (to_json c) (JObj (spec_fields s)) (jlist r) = Ok p →
  plan_ok p ∧ ep_candidate p = c ∧ ep_windows p = sp_windows s ∧ ep_amendments p = [] ∧
  is_date (cc_expectedEventDate c) = true ∧
  ep_acquisitionPlans p ≡ₚ map (acquisition_plan r) (sp_sourceAssignments s).
Proof.
  intros Hc Hs Hr Hp. pose proof (compileEventPlan_ok _ _ _ _ Hp) as Hok.
  apply compileEventPlan_Ok in Hp as (c' & s' & r' & plans & Hc' & Hs' & Hr' & Hpl & E).
  apply (parse_as_fields _ _ _ c) in Hc' as [-> Hacc];
    [|intros; by apply candidate_of_norm|exact Hc|exact (of_to (A := CalendarCandidate) c)].
  apply (parse_as_fields _ _ _ s) in Hs' as [-> _]; [|apply spec_of_norm|done|apply spec_of_fields].
  apply parse_list_records in Hr' as ->; [|done|done]. apply acquisitionPlans_Ok in Hpl as [-> _].
  split; [done|]. rewrite E. cbn [set_digest drafted_plan ep_candidate ep_windows ep_amendments ep_acquisitionPlans].
  split_and!; try done; [|apply sort_by_perm].
  rewrite norm_obj in Hacc. eapply candidate_dated; [exact Hacc|]. rewrite lookup_key_norm by apply candidate_nodup. done.
Qed.

Lemma compiled_texts (c : CalendarCandidate) s (r : list ProviderCapabilityEntry) p :
  record_wf c → Forall record_wf (sp_sourceAssignments s) → Forall units_ok (sp_expectedForms s) →
  Forall units_ok (sp_expectedItems s) → Forall record_wf r →
  compileEventPlan (to_json c) (JObj (spec_fields s)) (jlist r) = Ok p → plan_texts p.
Proof.
  intros Hc Ha Hf Hi Hr Hp. pose proof (spec_wf s Ha Hf Hi) as Hs.
  apply compileEventPlan_Ok in Hp as (c' & s' & r' & plans & Hc' & Hs' & Hr' & Hpl & ->).
  apply (parse_as_fields _ _ _ c) in Hc' as [-> _];
    [|intros; by apply candidate_of_norm|exact Hc|exact (of_to (A := CalendarCandidate) c)].
  apply (parse_as_fields _ _ _ s) in Hs' as [-> _]; [|apply spec_of_norm|done|apply spec_of_fields].
  apply acquisitionPlans_Ok in Hpl as [-> _].
  rewrite Forall_forall in Ha. rewrite Forall_forall in Hf. rewrite Forall_forall in Hi.
  split; cbn [set_digest drafted_plan ep_candidate ep_acquisitionPlans ep_expectedForms ep_expectedItems
    ep_marketSubjects ep_amendments].
  - done.
  - apply Forall_forall. intros a (b & -> & Hb)%elem_of_sort_by%list_elem_of_fmap.
    destruct (acquisition_plan_fields r' b) as (_ & -> & _).
    by apply (part_wf (assignment_fields b) "providerId" (JStr _) (Ha b Hb)).
  - apply Forall_forall. intros x Hx. apply Hf. by apply sortedUnique_spec.
  - apply Forall_forall. intros x Hx. apply Hi. by apply sortedUnique_spec.
  - apply Forall_cons_2; [|apply Forall_cons_2; [apply js_units|apply Forall_cons_2; [|apply Forall_nil_2]]].
    + by apply (part_wf (candidate_fields c) "ticker" (JStr _)).
    + by apply (part_wf (candidate_fields c) "sectorBenchmark" (JStr _)).
  - apply Forall_nil_2.
Qed.

(** ** Amendments of a prepared plan *)

Definition with_calendar (c : CalendarCandidate) (d : jsstring) (e : ExpectedSession) : CalendarCandidate := {|
  cc_calendarSourceId := cc_calendarSourceId c; cc_calendarRevisionId := cc_calendarRevisionId c;
  cc_issuerId := cc_issuerId c; cc_cik := cc_cik c; cc_ticker := cc_ticker c; cc_exchange := cc_exchange c;
  cc_instrumentId := cc_instrumentId c; cc_sectorBenchmark := cc_sectorBenchmark c;
  cc_fiscalPeriod := cc_fiscalPeriod c; cc_expectedEventDate := d; cc_expectedSession := e;
  cc_discoveredAtMs := cc_discoveredAtMs c |}.

Lemma amended_candidate_json c changes d e :
  lookup_key (js "expectedEventDate") changes = JStr <$> d →
  lookup_key (js "expectedSession") changes = jenum <$> e →
  amended_candidate c changes =
    to_json (with_calendar c (default (cc_expectedEventDate c) d) (default (cc_expectedSession c) e)).
Proof. unfold amended_candidate. intros -> ->. destruct d, e; reflexivity. Qed.

Lemma amend_fields_wf ch w :
  record_wf ch → json_wf (JObj (changes_fields ch ++ [(js "windows", to_json (A := PlanWindows) w)])).
Proof.
  intros Hc. apply fields_wf_app; [|exact Hc|].
  - destruct ch as [[d|] [x|]]; by vm_compute.
  - apply json_wfb_wf. by vm_compute.
Qed.

(** The plan's windows are those of its date and session. *)
Record plan_dated (p : EventPlan) (anchorMs : Z) : Prop := {
  pd_windows : windowsFor (cc_expectedEventDate (ep_candidate p)) (cc_expectedSession (ep_candidate p)) =
    Ok (anchorMs, ep_windows p);
  pd_date : is_date (cc_expectedEventDate (ep_candidate p)) = true
}.

(** The amended plan in full. *)
Lemma amend_prepared_eq p a p' :
  record_wf a → amend_prepared p a = Ok p' →
  let date := default (cc_expectedEventDate (ep_candidate p)) (pc_expectedEventDate (pa_changes a)) in
  let session := default (cc_expectedSession (ep_candidate p)) (pc_expectedSession (pa_changes a)) in
  let changes w := changes_fields (pa_changes a) ++ [(js "windows", to_json (A := PlanWindows) w)] in
  is_date date = true ∧ ∃ anchorMs w changeDigest digest,
    windowsFor date session = Ok (anchorMs, w) ∧ json_wf (JObj (changes w)) ∧ is_hash changeDigest = true ∧
    amendEventPlan p (pa_amendmentId a) (NInt (pa_recordedAtMs a)) (pa_reason a) (changes w) = Ok p' ∧
    p' = set_digest (amended_plan p (with_calendar (ep_candidate p) date session) w {|
      am_amendmentId := pa_amendmentId a; am_recordedAtMs := pa_recordedAtMs a; am_reason := pa_reason a;
      am_priorRevisionDigest := ep_revisionDigest p; am_changeDigest := changeDigest;
      am_changes := norm_entries (changes w) |}) digest.
Proof.
  intros Ha Hp date session changes. unfold amend_prepared in Hp. apply res_bind_Ok in Hp as ([anchorMs w] & Hw & Hp).
  assert (Hch : record_wf (pa_changes a)) by by apply changes_wf, changes_date_wf.
  pose proof (amend_fields_wf (pa_changes a) w Hch) as Hwf. pose proof (json_wf_nodup _ Hwf) as Hnd.
  pose proof Hp as Hamend. unfold amendEventPlan in Hp. set (kvs := changes_fields (pa_changes a) ++ _) in *.
  apply res_bind_Ok in Hp as (u1 & _ & Hp). apply res_bind_Ok in Hp as (t & Ht & Hp).
  assert (t = pa_recordedAtMs a) as ->.
  { unfold epoch_arg in Ht. apply res_bind_Ok in Ht as (x & _ & Ht). by injection Ht. }
  apply res_bind_Ok in Hp as (u2 & _ & Hp). apply res_bind_Ok in Hp as (u3 & _ & Hp).
  apply res_bind_Ok in Hp as (sn & Hsn & Hp). apply inertJsonSnapshot_spec in Hsn as [_ ->]; [|done].
  rewrite norm_obj in Hp. cbn [as_obj or_throw mbind res_bind] in Hp.
  apply res_bind_Ok in Hp as (u4 & _ & Hp).
  assert (Hlw : lookup_key (js "windows") kvs = Some (to_json w)).
  { unfold kvs. destruct (pa_changes a) as [[d|] [x|]]; reflexivity. }
  assert (Hld : lookup_key (js "expectedEventDate") (norm_entries kvs) = JStr <$> pc_expectedEventDate (pa_changes a)).
  { rewrite lookup_key_norm by done. unfold kvs. by destruct (pa_changes a) as [[d|] [x|]]. }
  assert (Hls : lookup_key (js "expectedSession") (norm_entries kvs) = jenum <$> pc_expectedSession (pa_changes a)).
  { rewrite lookup_key_norm by done. unfold kvs. by destruct (pa_changes a) as [[d|] [[]|]]. }
  rewrite lookup_key_norm, Hlw in Hp by done. cbn [fmap option_fmap option_map] in Hp.
  apply res_bind_Ok in Hp as (ws & Hws & Hp). apply res_bind_Ok in Hws as (v & Hv & Hws).
  apply parse_Ok in Hv as [_ ->]. apply or_throw_Ok in Hws.
  rewrite of_json_norm, of_json_to_json in Hws by apply windows_wf.
  injection Hws as <-. rewrite (amended_candidate_json _ _ _ _ Hld Hls) in Hp.
  apply res_bind_Ok in Hp as (pc & Hpc & Hp). apply parse_Ok in Hpc as [Hacc ->].
  rewrite of_json_to_json in Hp. cbn [or_throw mbind res_bind] in Hp.
  apply res_bind_Ok in Hp as (cd & Hcd & Hp). apply res_bind_Ok in Hp as (dg & _ & Hp). apply Ok_inj in Hp as <-.
  split; [by eapply candidate_dated|]. exists anchorMs, w, cd, dg. split_and!; try done.
  by eapply canonicalHash_hash.
Qed.

Lemma with_calendar_wf c d e : record_wf c → units_ok d → record_wf (with_calendar c d e).
Proof.
  intros Hc Hd. unfold record_wf, to_json. cbn -[json_wf js jint jenum].
  assert (Hpart : ∀ k s, lookup_key (js k) (candidate_fields c) = Some (JStr s) → units_ok s)
    by (intros k s; apply (part_wf (candidate_fields c) k (JStr s) Hc)).
  solve_fields.
  - by apply (Hpart "calendarSourceId"%string).
  - by apply (Hpart "calendarRevisionId"%string).
  - by apply (Hpart "issuerId"%string).
  - by apply (Hpart "cik"%string).
  - by apply (Hpart "ticker"%string).
  - by apply (Hpart "exchange"%string).
  - by apply (Hpart "instrumentId"%string).
  - by apply (Hpart "sectorBenchmark"%string).
  - by apply (Hpart "fiscalPeriod"%string).
Qed.

Lemma amend_prepared_Ok p a p' :
  plan_ok p → plan_texts p → record_wf a → amend_prepared p a = Ok p' →
  plan_ok p' ∧ plan_texts p' ∧ (∃ am, amends p p' am) ∧ (∃ anchorMs, plan_dated p' anchorMs) ∧
  cc_expectedEventDate (ep_candidate p') =
    default (cc_expectedEventDate (ep_candidate p)) (pc_expectedEventDate (pa_changes a)) ∧
  cc_expectedSession (ep_candidate p') =
    default (cc_expectedSession (ep_candidate p)) (pc_expectedSession (pa_changes a)).
Proof.
  intros Hok [Tc Tp Tf Ti Ts Ta] Ha Hp.
  destruct (amend_prepared_eq p a p' Ha Hp) as (Hdate & anchorMs & w & cd & dg & Hw & Hwf & Hcd & Hamend & ->).
  destruct (amendEventPlan_Ok _ _ _ _ _ _ Hok Hamend) as (Hok' & Ham). split; [done|].
  split; [|split; [done|]].
  - split; cbn [set_digest amended_plan ep_candidate ep_acquisitionPlans ep_expectedForms ep_expectedItems
      ep_marketSubjects ep_amendments]; try done.
    + apply with_calendar_wf; [done|]. pose proof (changes_date_wf a Ha) as Hd.
      destruct (pc_expectedEventDate (pa_changes a)); [done|].
      by apply (part_wf (candidate_fields (ep_candidate p)) "expectedEventDate" (JStr _)).
    + apply Forall_app. split; [done|]. apply Forall_cons_2; [|apply Forall_nil_2].
      apply is_hash_units_ok in Hcd. destruct (po_hashes _ Hok) as [_ Hrd%is_hash_units_ok].
      assert (Hid : units_ok (pa_amendmentId a)) by (by apply (part_wf (preparation_amendment_fields a) "amendmentId" (JStr _))).
      assert (Hre : units_ok (pa_reason a)) by (by apply (part_wf (preparation_amendment_fields a) "reason" (JStr _))).
      assert (Hch := norm_entries_wf _ Hwf). unfold amendment_fields.
      cbn [am_amendmentId am_recordedAtMs am_reason am_priorRevisionDigest am_changeDigest am_changes]. solve_fields.
  - split; [by exists anchorMs|done].
Qed.

Lemma amend_all_Ok l : ∀ p p' anchorMs,
  plan_ok p → plan_texts p → plan_dated p anchorMs → Forall record_wf l → res_fold amend_prepared p l = Ok p' →
  plan_ok p' ∧ plan_texts p' ∧ (∃ anchorMs', plan_dated p' anchorMs') ∧ plan_later p p' ∧
  length (ep_amendments p') = (length (ep_amendments p) + length l)%nat ∧
  ∀ c, cc_expectedEventDate (ep_candidate p) = cr_expectedEventDate c →
    cc_expectedSession (ep_candidate p) = cr_expectedSession c →
    cc_expectedEventDate (ep_candidate p') = cr_expectedEventDate (foldl amended_calendar c l) ∧
    cc_expectedSession (ep_candidate p') = cr_expectedSession (foldl amended_calendar c l).
Proof.
  induction l as [|a l IH]; intros p p' anchorMs Hok Ht Hd Hl Hp; cbn [res_fold] in Hp.
  - apply Ok_inj in Hp as <-. split_and!; [done|done|by exists anchorMs|done|cbn; lia|done].
  - apply Forall_cons in Hl as [Ha Hl]. apply res_bind_Ok in Hp as (q & Hq & Hp).
    destruct (amend_prepared_Ok p a q Hok Ht Ha Hq) as (Hok' & Ht' & (am & Ham) & (an & Hd') & E1 & E2).
    destruct (IH q p' an Hok' Ht' Hd' Hl Hp) as (H1' & H2' & H3' & H4' & H5' & H6').
    split_and!; [done|done|done| | |].
    + etrans; [by eapply amends_later|done].
    + rewrite H5', (as_amendments _ _ _ Ham), length_app. cbn [length]. lia.
    + intros c Ec1 Ec2. apply (H6' (amended_calendar c a)); cbn [amended_calendar cr_expectedEventDate cr_expectedSession];
        congruence.
Qed.

(** The calendar after every amendment. *)
Definition final_calendar (i : CalendarEventPreparationInput) : CalendarReference :=
  foldl amended_calendar (frozen_calendar i) (amendments_of After_freeze i).

(** What a plan holds of the input it was prepared from. *)
Record plan_prepared (i : CalendarEventPreparationInput) (plan : EventPlan) : Prop := {
  pp_ok : plan_ok plan;
  pp_texts : plan_texts plan;
  pp_calendar : cc_expectedEventDate (ep_candidate plan) = cr_expectedEventDate (final_calendar i) ∧
    cc_expectedSession (ep_candidate plan) = cr_expectedSession (final_calendar i);
  pp_windows : ∃ anchorMs, plan_dated plan anchorMs;
  pp_agree r : r ∈ ci_corroboratingCalendarCandidates i →
    cr_expectedEventDate r = cr_expectedEventDate (frozen_calendar i) ∧
    cr_expectedSession r = cr_expectedSession (frozen_calendar i);
  pp_subject : ∃ r, r ∈ frozen_calendar i :: ci_corroboratingCalendarCandidates i ∧
    same_subject (candidateFrom i r) (ep_candidate plan);
  pp_revision : ep_revision plan = 1 + Z.of_nat (length (amendments_of After_freeze i));
  pp_bindings : complete_bindings (ci_sourceBindings i);
  pp_lanes p : p ∈ ep_acquisitionPlans plan → lane_exact (ci_sourceBindings i) p
}.

Lemma history_wf l history :
  Forall record_wf l → res_map before_freeze_entry l = Ok history → Forall json_wf history.
Proof.
  intros Hl Hm. apply res_map_Ok in Hm. induction Hm as [|a v l h Hv _ IH]; [apply Forall_nil_2|].
  apply Forall_cons in Hl as [Ha Hl]. apply Forall_cons_2; [|by apply IH].
  unfold before_freeze_entry in Hv. apply res_bind_Ok in Hv as (d & Hd & Hv). apply Ok_inj in Hv as <-.
  apply canonicalHash_hash, is_hash_units_ok in Hd.
  assert (Hid : units_ok (pa_amendmentId a)) by (by apply (part_wf (preparation_amendment_fields a) "amendmentId" (JStr _))).
  assert (Hre : units_ok (pa_reason a)) by (by apply (part_wf (preparation_amendment_fields a) "reason" (JStr _))).
  solve_fields.
Qed.

Lemma preparation_spec_wf w assignments :
  Forall record_wf assignments → json_wf (JObj (spec_fields (preparation_spec w assignments))).
Proof.
  intros Ha. apply spec_wf; [exact Ha| |]; cbn [preparation_spec sp_expectedForms sp_expectedItems];
    repeat (apply Forall_cons_2; [apply js_units|]); apply Forall_nil_2.
Qed.

Lemma prepared_plan_Ok i plan history :
  record_wf i → prepared_plan i = Ok (plan, history) → plan_prepared i plan ∧ Forall json_wf history.
Proof.
  intros Hi Hp. unfold prepared_plan in Hp. apply res_bind_Ok in Hp as ([] & Hv & Hp).
  apply validateBindings_Ok in Hv. apply res_bind_Ok in Hp as ([assignments registry] & Hprov & Hp).
  apply res_bind_Ok in Hp as (before & Hbefore & Hp). apply res_bind_Ok in Hp as ([anchorMs w] & Hw & Hp).
  apply res_bind_Ok in Hp as (c & Hc & Hp). apply res_bind_Ok in Hp as (plan0 & Hp0 & Hp).
  apply res_bind_Ok in Hp as (plan' & Hplan & Hp). injection Hp as -> <-.
  destruct (providerInputs_wf _ _ _ (bindings_wf i Hi) Hprov) as [Haw Hrw].
  destruct (providerInputs_Ok _ _ _ Hv Hprov) as [_ Hexact].
  destruct (selected_candidate_Ok i Hi c Hc) as (Hcw & (r & Hr & Ec) & Hagree).
  destruct (compiled_from_records _ _ _ _ Hcw (preparation_spec_wf w assignments Haw) Hrw Hp0)
    as (Hok & Ecand & Ew & Eam & Hdate & Hlanes).
  assert (Htexts : plan_texts plan0).
  { eapply compiled_texts, Hp0; [exact Hcw|exact Haw| | |exact Hrw]; cbn [preparation_spec sp_expectedForms sp_expectedItems];
      repeat (apply Forall_cons_2; [apply js_units|]); apply Forall_nil_2. }
  destruct (Hagree (frozen_calendar i) ltac:(left)) as (Ed & Es & _).
  assert (Hdated : plan_dated plan0 anchorMs).
  { split; rewrite Ecand; [|done]. rewrite <-Ed, <-Es, Hw, Ew. done. }
  destruct (amend_all_Ok _ _ _ _ Hok Htexts Hdated (amendments_wf i Hi After_freeze) Hplan)
    as (Hok' & Htexts' & Hdated' & Hlater & Hlen & Hcal).
  destruct (Hcal (frozen_calendar i)) as [Ed' Es']; [by rewrite Ecand|by rewrite Ecand|].
  split; [|by eapply history_wf, Hbefore; apply amendments_wf].
  split; try done.
  - intros r' Hr'. destruct (Hagree r' ltac:(by right)) as (Ed2 & Es2 & _). split; congruence.
  - exists r. split; [done|]. rewrite <-Ec, <-Ecand. apply Hlater.
  - rewrite (po_revision _ Hok'), Hlen, Eam. cbn [length]. lia.
  - intros p Hp'. rewrite (pl_sources _ _ Hlater), Hlanes in Hp'. apply list_elem_of_fmap in Hp' as (a & -> & Ha).
    by apply Hexact.
Qed.
(** ** The published record is a JavaScript value *)

Lemma row_wf b : record_wf b → json_wf (JObj (row_fields (checklist_row b))).
Proof.
  intros Hb. pose proof (binding_units b Hb) as Hp.
  assert (Hi := part_wf (binding_fields b) "configuredIdentityOrPath" _ Hb eq_refl).
  assert (Hr : json_wf (jnull JStr (readiness b).2)) by (unfold readiness; repeat case_match; try done; apply js_units).
  assert (Hm : units_ok (sd_material (SOURCE_DEFINITIONS (sb_sourceId b)))) by (destruct (sb_sourceId b); apply js_units).
  unfold row_fields, checklist_row.
  cbn [rr_providerId rr_sourceId rr_requiredMaterial rr_plannedProviderCapability rr_configuredIdentityOrPath
    rr_requirement rr_status rr_blockerReason rr_credentialsRequired rr_entitlementRequired rr_liveAccessRequired].
  solve_fields.
Qed.

Lemma unresolved_wf b v : v ∈ unresolved_requirement (checklist_row b) → json_wf v.
Proof.
  unfold unresolved_requirement. cbn [checklist_row rr_blockerReason rr_status rr_sourceId].
  assert (Hr : ∀ reason, (readiness b).2 = Some reason → units_ok reason).
  { unfold readiness. intros reason. repeat case_match; intros E; try done; injection E as <-; apply js_units. }
  destruct (readiness b).2 as [reason|]; [|by intros H'%elem_of_nil]. specialize (Hr reason eq_refl).
  case_bool_decide; [by intros H'%elem_of_nil|]. intros ->%list_elem_of_singleton. solve_fields.
Qed.

Lemma permitted_wf b : record_wf b → json_wf (permitted_capability b).
Proof.
  intros Hb. pose proof (binding_units b Hb) as Hp.
  assert (Hh := part_wf (binding_fields b) "officialHostPlaceholder" _ Hb eq_refl).
  assert (Hi := part_wf (binding_fields b) "pathPlaceholder" _ Hb eq_refl). unfold permitted_capability. solve_fields.
Qed.

Lemma preparation_terms_wf i plan history anchorMs :
  record_wf i → plan_ok plan → plan_texts plan → Forall json_wf history →
  json_wf (JObj (preparation_terms i plan history anchorMs (checklistFor (ci_sourceBindings i)))).
Proof.
  intros Hi Hok Ht Hh. pose proof (bindings_wf i Hi) as Hb. rewrite Forall_forall in Hb.
  assert (Hsorted : ∀ b, b ∈ sorted_bindings (ci_sourceBindings i) → record_wf b)
    by (intros b Hin%elem_of_sort_by; by apply Hb).
  assert (Hplan := plan_fields_wf plan Hok Ht). destruct Ht as [_ _ _ Htems Hsub Ham].
  assert (Hname : units_ok (ci_issuerName i)) by (by apply (part_wf (input_fields i) "issuerName" (JStr _))).
  assert (Hperm : json_wf (JArr (map permitted_capability (sorted_bindings (ci_sourceBindings i))))).
  { apply json_wf_arr. intros v (b & -> & Hin)%list_elem_of_fmap. by apply permitted_wf, Hsorted. }
  assert (Hrows : json_wf (JArr (map (JObj ∘ row_fields) (checklistFor (ci_sourceBindings i))))).
  { apply objects_wf, Forall_map, Forall_forall. intros b Hin. by apply row_wf, Hsorted. }
  assert (Hun : json_wf (JArr (concat (map unresolved_requirement (checklistFor (ci_sourceBindings i)))))).
  { apply json_wf_arr. intros v Hv. apply list_elem_of_In, in_concat in Hv as (l & Hl & Hv).
    apply list_elem_of_In, list_elem_of_fmap in Hl as (row & -> & (b & -> & Hin)%list_elem_of_fmap).
    by apply (unresolved_wf b), list_elem_of_In. }
  assert (Hpol := part_wf (input_fields i) "pollingPolicy" _ Hi eq_refl).
  assert (Hz : json_wf EVENT_CLUSTER_EFFECTS_ZERO) by (apply json_wfb_wf; by vm_compute).
  assert (Hm : json_wf MARKET_WINDOWS) by (apply json_wfb_wf; by vm_compute).
  assert (Hhist : json_wf (JArr history)).
  { apply json_wf_arr. intros v Hv. by apply (proj1 (Forall_forall _ _) Hh). }
  assert (Hafter := objects_wf amendment_fields _ Ham).
  assert (Hstrs : ∀ l, json_wf (jstrs (map js l))) by (intros l; apply jstrs_wf, Forall_map, Forall_true; intros; apply js_units).
  unfold preparation_terms, FOLLOW_UP_FORMS. solve_fields; solve_fields.
Qed.
End plans.

(** ** Anchors *)

Definition session_hour (s : ExpectedSession) : Z :=
  match s with Before_market => 7 | After_market => 16 | Unknown_session => 12 end.

(** The year, the month and the day of a date. *)
Definition date_fields (d : jsstring) : Z * Z * Z := (number_at d 0 4, number_at d 5 2, number_at d 8 2).

Lemma date_digits d : is_date d = true → ∃ a b c e f g h i,
  d = [a; b; c; e; 45; f; g; 45; h; i] ∧
  forallb is_digit [a; b; c; e; f; g; h; i] = true.
Proof.
  unfold is_date, digits_exactly, js_length. intros Hd. bool_prop.
  destruct d as [|a [|b [|c [|e [|u [|f [|g [|v [|h [|i [|? ?]]]]]]]]]]]; cbn in *; try lia; try done.
  simplify_eq. exists a, b, c, e, f, g, h, i. split; [done|]. unfold all_digits in *. cbn in *. bool_prop.
  by repeat match goal with H : is_digit _ = true |- _ => rewrite H; clear H end.
Qed.

Lemma anchor_converted d s :
  is_date d = true →
  expectedReleaseAnchor d s = or_throw
    (match convert_eastern (number_at d 0 4) (number_at d 5 2) (number_at d 8 2) (session_hour s) 0 0 with
     | Eastern_valid e => safe_epoch (e + 0) | _ => None end)
    (PreparationError "calendar-preparation.release-anchor-invalid").
Proof.
  intros (a & b & c & e & f & g & h & i & -> & Hd)%date_digits. cbn [forallb] in Hd. bool_prop.
  unfold expectedReleaseAnchor. f_equal.
  assert (Hp : ∀ t, civil_prefix (t :: nil) = false) by done.
  destruct s; unfold parseSecEasternCivilAcceptanceDateTime, convertSecEasternAcceptanceDateTime, civil_prefix,
    digits_at, unit_at, digits_exactly, js_length, all_digits; cbn -[convert_eastern is_digit digits_value];
    repeat match goal with H : is_digit ?x = true |- _ => rewrite ?H; clear H end; reflexivity.
Qed.

(** The anchor is the only instant at which New York shows the session's hour. *)
Lemma anchor_shows d s anchorMs :
  is_date d = true → expectedReleaseAnchor d s = Ok anchorMs →
  ∀ t, eastern_shows t (date_fields d) (session_hour s * HOUR_MS) ↔ t = anchorMs.
Proof.
  intros Hd. rewrite anchor_converted by done. intros Ha. apply or_throw_Ok in Ha.
  destruct (convert_eastern _ _ _ _ _ _) as [e| |] eqn:E; try done.
  unfold safe_epoch in Ha. destruct (_ && _); [|done]. injection Ha as Ha. rewrite Z.add_0_r in Ha. subst anchorMs.
  pose proof E as E'. unfold convert_eastern in E.
  destruct (validCivil _ _ _ _ _ _) eqn:Hv; [|done]. cbn [negb] in E.
  destruct (_ || _) eqn:Hs in E; [done|]. clear E. reflect_bools.
  pose proof (convert_eastern_shows (number_at d 0 4) ltac:(lia) _ _ _ _ _ Hv ltac:(lia)) as Hshow.
  rewrite E' in Hshow. unfold date_fields. intros t. rewrite <-Hshow. unfold HOUR_MS.
  by replace ((session_hour s * 3600 + 0 * 60 + 0) * 1000) with (session_hour s * 3600000) by lia.
Qed.

(** Every date of the calendar since the rules took force has its anchors. *)
Lemma anchor_exists d s :
  is_date d = true → civil_date (date_fields d) →
  2007 < number_at d 0 4 ∨ number_at d 0 4 = 2007 ∧ (3 < number_at d 5 2 ∨ number_at d 5 2 = 3 ∧ 11 <= number_at d 8 2) →
  ∃ anchorMs, expectedReleaseAnchor d s = Ok anchorMs.
Proof.
  intros Hd (Hy & Hm & Hday) Hs. rewrite anchor_converted by done.
  assert (Hh : session_hour s = 7 ∨ session_hour s = 16 ∨ session_hour s = 12) by (destruct s; auto).
  assert (Hv : validCivil (number_at d 0 4) (number_at d 5 2) (number_at d 8 2) (session_hour s) 0 0 = true).
  { unfold validCivil. rewrite daysInMonth_length by lia. rewrite !andb_true_iff, !Z.leb_le. lia. }
  destruct (convert_eastern_total (number_at d 0 4) ltac:(lia) _ _ _ _ _ Hv ltac:(lia) ltac:(lia)) as (e & -> & He).
  exists e. apply or_throw_Ok. rewrite Z.add_0_r. unfold safe_epoch.
  assert (Hy' : number_at d 0 4 <= 9999).
  { apply date_digits in Hd as (a & b & c & y & f & g & h & i & -> & Hd). cbn [forallb] in Hd. bool_prop.
    unfold number_at, digits_value. cbn. unfold is_digit in *. bool_prop. lia. }
  pose proof (day_of_year (number_at d 0 4) ltac:(lia) _ _ _ _ _ Hv) as Hdays.
  assert (Hb : 0 < march_days (number_at d 0 4 - 1) - 719468 + 306 ∧ march_days (number_at d 0 4) < 4000000)
    by (unfold march_days; div_lia).
  rewrite (proj2 (is_safe_integer_spec e)), (proj2 (Z.leb_le 0 e)); [done| |];
    unfold civilEpochMs, HOUR_MS, MAX_SAFE_INTEGER in *; lia.
Qed.

(** ** The published text of a preparation

    [JSON.stringify] with an indentation writes a text that [JSON.parse] reads back. *)

Lemma skip_ws_newline d s : skip_ws (newline d ++ s) = skip_ws s.
Proof.
  unfold newline. cbn [app]. change (skip_ws (10 :: ?s)) with (skip_ws s).
  induction (2 * d)%nat as [|k IH]; [done|]. cbn [replicate app]. by change (skip_ws (32 :: ?s)) with (skip_ws s).
Qed.

Lemma parse_value_ws n s s' : skip_ws s = skip_ws s' → parse_value n s = parse_value n s'.
Proof. destruct n; [done|]. cbn [parse_value]. by intros ->. Qed.

Lemma parse_elements_ws n s s' : skip_ws s = skip_ws s' → parse_elements n s = parse_elements n s'.
Proof. destruct n; [done|]. cbn [parse_elements]. intros H. by rewrite (parse_value_ws _ _ _ H). Qed.

Lemma parse_members_ws n s s' : skip_ws s = skip_ws s' → parse_members n s = parse_members n s'.
Proof. destruct n; [done|]. cbn [parse_members]. by intros ->. Qed.

(** What the parser does on the indented text of one value. *)
Definition parses_pretty (v : json) : Prop := ∀ d n r,
  (2 * length (pretty d v ++ r) + 1 <= n)%nat → ends_number r →
  parse_value n (pretty d v ++ r) = Some (v, r).

(** Further members of a list of texts, each after a comma and a line break. *)
Definition broken_commas (d : nat) (l : list jsstring) : jsstring :=
  concat (map (λ y, (44 :: newline d) ++ y) l).

Lemma join_broken d x l : join (44 :: newline d) (x :: l) = x ++ broken_commas d l.
Proof. done. Qed.

Lemma broken_cons d y l : broken_commas d (y :: l) = 44 :: newline d ++ y ++ broken_commas d l.
Proof. unfold broken_commas. cbn [map concat]. by rewrite <-app_assoc, <-app_comm_cons. Qed.

Lemma ends_number_newline d s : ends_number (newline d ++ s).
Proof. done. Qed.

(** Where a text starts a value, nothing is skipped. *)
Lemma pretty_head d v : encodable v = true → ∃ c t, pretty d v = c :: t ∧ starts_value c.
Proof.
  intros He. destruct v as [|b|n|s|l|kvs]; try (by apply print_head).
  - destruct l; eexists _, _; (split; [done|]); left; set_solver.
  - destruct kvs; eexists _, _; (split; [done|]); left; set_solver.
Qed.

Lemma pretty_elements d e l : ∀ x n r,
  parses_pretty x → Forall parses_pretty l →
  (2 * length (pretty e x ++ broken_commas e (pretty e <$> l) ++ newline d ++ 93%Z :: r) + 2 <= n)%nat →
  parse_elements n (pretty e x ++ broken_commas e (pretty e <$> l) ++ newline d ++ 93 :: r) = Some (x :: l, r).
Proof.
  induction l as [|y l IH]; intros x n r Hx Hl Hn; (destruct n as [|n]; [lia|]); cbn [parse_elements].
  - cbn [fmap list_fmap] in *. change (broken_commas e []) with (@nil Z) in *. cbn [app] in *.
    rewrite Hx; [|lia|done]. cbn [mbind option_bind]. rewrite skip_ws_newline. by rewrite skip_ws_none.
  - apply Forall_cons in Hl as [Hy Hl]. rewrite fmap_cons, broken_cons in *.
    rewrite <-app_comm_cons, <-!app_assoc in *. rewrite Hx; [|lia|done]. cbn [mbind option_bind].
    rewrite skip_ws_none by done. change (44 =? 44) with true. cbv iota.
    rewrite (parse_elements_ws n _ (pretty e y ++ broken_commas e (pretty e <$> l) ++ newline d ++ 93 :: r))
      by apply skip_ws_newline.
    rewrite IH; [done|done|done|]. rewrite !length_app in *. cbn [length] in Hn. rewrite !length_app in *.
    cbn [length] in *. lia.
Qed.

Lemma pretty_array l : Forall parses_pretty l → forallb encodable l = true → parses_pretty (JArr l).
Proof.
  intros Hl Hel d n r Hn _. destruct n as [|n]; [lia|]. destruct l as [|x l].
  { cbn [pretty]. change (js "[]") with [91; 93]. cbn [app parse_value]. by rewrite skip_ws_none. }
  apply Forall_cons in Hl as [Hx Hl]. apply andb_true_iff in Hel as [Hex _]. cbn [pretty] in *.
  change (pretty (S d) <$> x :: l) with (pretty (S d) x :: (pretty (S d) <$> l)) in *. rewrite join_broken in *.
  rewrite <-!app_assoc in *. cbn [app] in *. cbn [parse_value]. rewrite skip_ws_none by done.
  change (91 =? 34) with false. change (91 =? 91) with true. cbv iota. rewrite skip_ws_newline.
  destruct (pretty_head (S d) x Hex) as (c & t & E & Hc). apply starts_value_facts in Hc.
  assert (Hp := pretty_elements d (S d) l x n r Hx Hl). rewrite (parse_elements_ws n _ _ (skip_ws_newline _ _)).
  rewrite Hp by (cbn [length] in Hn; rewrite !length_app in *; cbn [length] in *; rewrite ?length_app in *; lia).
  rewrite E. cbn [app]. rewrite skip_ws_none by lia. eqb_false 93 c. done.
Qed.

(** A member of an object. *)
Definition pretty_member (d : nat) (kv : jsstring * json) : jsstring :=
  json_quote kv.1 ++ js ": " ++ pretty d kv.2.

Lemma pretty_members d e l : ∀ x n r,
  Forall (λ kv, parses_pretty kv.2 ∧ units_ok kv.1) (x :: l) →
  (2 * length (pretty_member e x ++ broken_commas e (map (pretty_member e) l) ++ newline d ++ 125%Z :: r) + 2 <= n)%nat →
  parse_members n (pretty_member e x ++ broken_commas e (map (pretty_member e) l) ++ newline d ++ 125 :: r) =
    Some (x :: l, r).
Proof.
  assert (Hone : ∀ n (x : jsstring * json) tail, parses_pretty x.2 → units_ok x.1 → ends_number tail →
    (2 * length (pretty_member e x ++ tail) + 2 <= S n)%nat →
    parse_members (S n) (pretty_member e x ++ tail) =
    match skip_ws tail with
    | u :: r' =>
        if u =? 44 then '(l, r'') ← parse_members n r'; Some ((x.1, x.2) :: l, r'')
        else if u =? 125 then Some ([(x.1, x.2)], r')
        else None
    | [] => None
    end).
  { clear. intros n x tail Hx Hk Ht Hn. unfold pretty_member, json_quote in *. change (js ": ") with [58; 32] in *.
    rewrite <-!app_assoc, <-!app_comm_cons, <-!app_assoc in *. cbn [parse_members].
    rewrite skip_ws_none by done. rewrite Z.eqb_refl. cbn [app] in *.
    rewrite parse_quoted_units by done. cbn [mbind option_bind].
    rewrite skip_ws_none by done. change (58 =? 58) with true. cbv iota.
    cbn [length] in Hn. rewrite length_app in Hn. cbn [length] in Hn.
    rewrite (parse_value_ws n _ (pretty e x.2 ++ tail)) by done. rewrite Hx; [done|lia|done]. }
  induction l as [|y l IH]; intros x n r Hl Hn; (destruct n as [|n]; [lia|]);
    apply Forall_cons in Hl as [[Hx Hk] Hl].
  - cbn [map] in *. change (broken_commas e []) with (@nil Z) in *. cbn [app] in *.
    rewrite Hone by done. rewrite skip_ws_newline, skip_ws_none by done. by destruct x.
  - cbn [map] in *. rewrite broken_cons in *. rewrite <-app_comm_cons, <-!app_assoc in *.
    rewrite Hone by done. rewrite skip_ws_none by done. change (44 =? 44) with true. cbv iota.
    rewrite (parse_members_ws n _ (pretty_member e y ++ broken_commas e (map (pretty_member e) l) ++ newline d ++ 125 :: r))
      by apply skip_ws_newline.
    rewrite IH; [by destruct x|done|]. rewrite !length_app in *. cbn [length] in Hn. rewrite !length_app in *.
    cbn [length] in *. lia.
Qed.

Lemma pretty_object kvs :
  Forall (λ kv, parses_pretty kv.2 ∧ units_ok kv.1) kvs → NoDup (fst <$> kvs) → parses_pretty (JObj kvs).
Proof.
  intros Hl Hnd d n r Hn _. destruct n as [|n]; [lia|]. destruct kvs as [|x kvs].
  { cbn [pretty]. change (js "{}") with [123; 125]. cbn [app parse_value]. by rewrite skip_ws_none. }
  cbn [pretty] in *.
  change (join (44 :: newline (S d)) (map _ (x :: kvs))) with
    (pretty_member (S d) x ++ broken_commas (S d) (map (pretty_member (S d)) kvs)) in *.
  rewrite <-!app_assoc in *. cbn [app] in *. cbn [parse_value]. rewrite skip_ws_none by done.
  change (123 =? 34) with false. change (123 =? 91) with false. change (123 =? 123) with true. cbv iota.
  rewrite skip_ws_newline. assert (Hp := pretty_members d (S d) kvs x n r Hl).
  rewrite (parse_members_ws n _ _ (skip_ws_newline _ _)).
  rewrite Hp by (cbn [length] in Hn; rewrite !length_app in *; cbn [length] in *; rewrite ?length_app in *; lia).
  cbn [mbind option_bind]. by rewrite object_of_nodup.
Qed.

(** Parsing the indented text of a value gives the value. *)
Lemma parse_pretty v : json_wf v → encodable v = true → parses_pretty v.
Proof.
  induction v as [|b|n|s|l IH|kvs IH] using json_ind'; intros Hwf Henc;
    try (intros d k r; by apply parses_print).
  - rewrite json_wf_arr in Hwf. rewrite Forall_forall in IH. apply pretty_array; [|done].
    apply Forall_forall. intros x Hx. apply IH; auto. cbn in Henc. by eapply forallb_elem in Henc.
  - rewrite json_wf_obj in Hwf. destruct Hwf as [Hnd Hwf]. rewrite Forall_forall in IH.
    apply pretty_object; [|done]. apply Forall_forall. intros x Hx. destruct (Hwf x Hx).
    cbn in Henc. eapply forallb_elem in Henc; [|done]. apply andb_true_iff in Henc as [_ He]. split; auto.
Qed.

(** [stablePrettyJson] publishes the value in key order, in a text that reads back. *)
Lemma stablePrettyJson_parses v t :
  json_wf v → stablePrettyJson v = Ok t → JSON_parse t = Ok (norm v).
Proof.
  intros Hw Ht. unfold stablePrettyJson in Ht. apply res_bind_Ok in Ht as (c & Hc & Ht).
  apply res_bind_Ok in Ht as (p & Hp & Ht). apply Ok_inj in Ht as <-.
  assert (Hs : inertJsonSnapshot v = Ok p) by (unfold inertJsonSnapshot; by rewrite Hc).
  apply inertJsonSnapshot_spec in Hs as [He ->]; [|done].
  unfold JSON_parse. rewrite (parse_pretty (norm v)); [done|by apply norm_wf|by rewrite norm_encodable| |done].
  unfold parse_fuel. lia.
Qed.

(** ** The lines of the checklist *)

Definition breaks (s : jsstring) : nat := length (List.filter (Z.eqb 10) s).

Lemma breaks_app s t : breaks (s ++ t) = (breaks s + breaks t)%nat.
Proof. unfold breaks. by rewrite List.filter_app, length_app. Qed.

Lemma breaks_escape s : breaks (escape_pipes s) = breaks s.
Proof.
  unfold escape_pipes. induction s as [|u s IH]; [done|]. cbn [map concat]. rewrite breaks_app, IH.
  change (u :: s) with ([u] ++ s). rewrite breaks_app. f_equal.
  destruct (Z.eqb_spec u 124) as [->|]; [done|]. done.
Qed.

Definition identity_breaks (r : ReadinessChecklistRow) : nat := breaks (default [] (rr_configuredIdentityOrPath r)).

Lemma breaks_join l : breaks (join [10] l) = (pred (length l) + list_sum (map breaks l))%nat.
Proof.
  destruct l as [|x l]; [done|]. cbn [join map length pred]. rewrite breaks_app.
  assert (E : breaks (concat (map (λ y, [10] ++ y) l)) = (length l + list_sum (map breaks l))%nat).
  { induction l as [|y l IH]; [done|]. cbn [map concat length].
    change (list_sum (breaks y :: ?k)) with (breaks y + list_sum k)%nat. rewrite !breaks_app, IH.
    change (breaks [10]) with 1%nat. lia. }
  rewrite E. change (list_sum (breaks x :: ?k)) with (breaks x + list_sum k)%nat. lia.
Qed.

Lemma enum_breaks {A} `{Enumerated A} (a : A) :
  forallb (λ a : A, bool_decide (breaks (enum_name a) = 0%nat)) enum_all = true → breaks (enum_name a) = 0%nat.
Proof.
  intros Hf. pose proof (enum_found a) as Ha. apply find_elem in Ha as [Ha _].
  rewrite forallb_forall in Hf. specialize (Hf a ltac:(by apply list_elem_of_In)). by bool_prop.
Qed.

(** A row takes one line, and one more for every line break in its identity. *)
Lemma breaks_row b :
  breaks (sb_providerId b) = 0%nat →
  breaks (markdown_row (checklist_row b)) = identity_breaks (checklist_row b).
Proof.
  intros Hp. unfold markdown_row, identity_breaks. rewrite !breaks_app. cbn [checklist_row rr_providerId rr_sourceId
    rr_requiredMaterial rr_plannedProviderCapability rr_configuredIdentityOrPath rr_requirement rr_status
    rr_blockerReason rr_credentialsRequired rr_entitlementRequired rr_liveAccessRequired]. rewrite Hp.
  rewrite !enum_breaks by (vm_compute; reflexivity).
  assert (Hm : breaks (sd_material (SOURCE_DEFINITIONS (sb_sourceId b))) = 0%nat) by by destruct (sb_sourceId b).
  assert (Hr : breaks (default EM_DASH (readiness b).2) = 0%nat) by (unfold readiness; repeat case_match; done).
  assert (Hy : ∀ x, breaks (yes_no x) = 0%nat) by by intros [].
  rewrite Hm, Hr, !Hy.
  repeat match goal with |- context [breaks (js ?t)] => change (breaks (js t)) with 0%nat end.
  destruct (sb_configuredIdentityOrPath b) as [s|]; cbn [default].
  - rewrite breaks_escape. unfold id. lia.
  - done.
Qed.

(** The table has one line per source, as long as no identity contains a line break. *)
Lemma breaks_checklist bindings digest :
  (∀ b, b ∈ bindings → breaks (sb_providerId b) = 0%nat) → is_hash digest = true →
  breaks (markdownChecklist (map checklist_row bindings) digest) =
    (6 + length bindings + list_sum (map identity_breaks (map checklist_row bindings)))%nat.
Proof.
  intros Hb Hd. unfold markdownChecklist. rewrite breaks_app, breaks_join, length_app, !map_app, list_sum_app.
  rewrite !length_map. change (breaks [10]) with 1%nat.
  assert (Eh : breaks digest = 0%nat).
  { unfold breaks. destruct (List.filter (Z.eqb 10) digest) as [|u l] eqn:E; [done|]. exfalso.
    assert (Hu : In u (List.filter (Z.eqb 10) digest)) by (rewrite E; by left). apply filter_In in Hu as [Hu Eu].
    bool_prop. subst u. unfold is_hash in Hd. bool_prop. rewrite forallb_forall in H0. specialize (H0 10 Hu). done. }
  assert (Er : list_sum (map breaks (map markdown_row (map checklist_row bindings))) =
    list_sum (map identity_breaks (map checklist_row bindings))).
  { clear -Hb. induction bindings as [|b l IH]; [done|]. cbn [map list_sum foldr].
    rewrite breaks_row by (apply Hb; by left). f_equal. apply IH. intros b' H. apply Hb. by right. }
  rewrite Er. cbn [map length]. rewrite !breaks_app, Eh.
  repeat match goal with |- context [breaks (js ?t)] => change (breaks (js t)) with 0%nat end.
  cbn. lia.
Qed.
