(* ===== verification/CalendarClaims.v ===== *)
(** * A prepared event, and the properties of preparations

    An event two months ahead with the SEC lane ready, the issuer and market lanes waiting
    for authorization and nothing configured for transcripts, moved once after its plan was
    frozen; over the checksum of [Fixture]. *)
From S2P Require Import Prelude JsString JsNumber Json JsonLimits JsonParse JsonClaims Hash Zod.
From S2P Require Import JsonObject Event EventFacts Codec Records Fixture Evidence EventPlan.
From S2P Require Import EventPlanFacts EventCalendar CivilTime CalendarPreparation CalendarFacts.
From S2P Require Import CalendarPlans.

(** ** The result of a preparation *)

Definition source_order : list CalendarPreparationSourceId :=
  sort_by (λ a b, js_leb (enum_name a) (enum_name b)) enum_all.

Lemma checklist_order bindings :
  complete_bindings bindings → map rr_sourceId (checklistFor bindings) = source_order.
Proof.
  intros Hall. unfold checklistFor. rewrite map_map. change (λ x, rr_sourceId (checklist_row x)) with sb_sourceId.
  set (le := λ a b : CalendarPreparationSourceId, js_leb (enum_name a) (enum_name b)).
  assert (Htotal : ∀ a b, le a b = true ∨ le b a = true) by (intros; apply js_leb_total).
  assert (Htrans : ∀ a b c, le a b = true → le b c = true → le a c = true) by (intros a b c; apply js_leb_trans).
  assert (Hs : StronglySorted (λ a b, le a b = true) (map sb_sourceId (sorted_bindings bindings))).
  { assert (Hb : StronglySorted (λ a b, le (sb_sourceId a) (sb_sourceId b) = true) (sorted_bindings bindings))
      by (apply sort_by_sorted; intros; [apply Htotal|by eapply Htrans]).
    induction Hb as [|b l _ IH Hf]; cbn [map]; constructor; [done|].
    apply Forall_map. exact Hf. }
  rewrite <-(sort_by_id le _ Hs). apply sort_by_perm_eq; [done|done| |].
  - intros a b _ _ Hab Hba. by apply enum_name_inj, js_leb_antisym.
  - unfold sorted_bindings. rewrite (sort_by_perm _ bindings). apply Hall.
Qed.

Section published.
Context `{Sha256} `{Zod} `{Locale}.

Lemma parse_input_Ok v i :
  json_wf v → parse_input v = Ok i →
  record_wf i ∧ ∀ b, b ∈ ci_sourceBindings i → breaks (sb_providerId b) = 0%nat.
Proof.
  intros Hv Hi. unfold parse_input in Hi.
  destruct (parse_as inputSchema input_of v) as [i'|] eqn:E; [|done]. injection Hi as ->.
  apply parse_as_Ok in E as (w & Hw & Ha & Hr). apply inertJsonSnapshot_spec in Hw as [_ ->]; [|done].
  assert (Hn := norm_wf v Hv). destruct (norm v) as [| | | | |kvs]; try done. cbn [as_obj mbind option_bind] in Hr.
  split; [by eapply (read_wf (A := CalendarEventPreparationInput))|].
  unfold input_of in Hr. read_fields Hr. injection Hr as <-. cbn [ci_sourceBindings]. clear -E13 Ha.
  unfold get_list, get_arr in E13. destruct (lookup_key (js "sourceBindings") kvs) as [u|] eqn:E; [|done].
  eapply (object_field _ _ (js "sourceBindings")) in Ha; [|unfold inputSchema; solve_elem|exact E].
  destruct u as [| | | |l|]; try done. cbn [mbind option_bind] in E13. apply mapM_Some in E13.
  unfold array_of_length in Ha. cbn [accepts_ref] in Ha. apply andb_true_iff in Ha as [Ha _].
  apply andb_true_iff in Ha as [_ Ha]. intros b [j Hj]%list_elem_of_lookup.
  destruct (Forall2_lookup_r _ _ _ _ _ E13 Hj) as (u & Hu & Hb).
  eapply forallb_elem in Ha; [|by eapply list_elem_of_lookup_2]. destruct u as [| | | | |o]; try done.
  change (binding_of o = Some b) in Hb. unfold binding_of in Hb. read_fields Hb. injection Hb as <-.
  cbn [sb_providerId]. clear -E1 Ha. unfold get_str in E1.
  destruct (lookup_key (js "providerId") o) as [u|] eqn:E; [|done]. destruct u; try done. injection E1 as ->.
  eapply (object_field _ _ (js "providerId") plan_identifier) in Ha; [|unfold sourceBindingSchema; solve_elem|exact E].
  cbn in Ha. bool_prop. clear -H1. unfold is_plan_identifier in H1. destruct x0 as [|u s]; [done|].
  apply andb_true_iff in H1 as [Hu Hs]. unfold breaks.
  destruct (List.filter (Z.eqb 10) (u :: s)) as [|y l] eqn:E; [done|]. exfalso.
  assert (Hy : In y (List.filter (Z.eqb 10) (u :: s))) by (rewrite E; by left).
  apply filter_In in Hy as [[->|Hy] Ey]; bool_prop; subst; [done|].
  rewrite forallb_forall in Hs. by specialize (Hs 10 Hy).
Qed.
End published.

(** ** An input *)

Definition demo_binding (s : CalendarPreparationSourceId) (provider : string) (configured available : bool)
    (credential entitlement : CredentialRequirement) (live : bool) : CalendarSourceBinding := {|
  sb_sourceId := s; sb_providerId := js provider; sb_capability := sd_capability (SOURCE_DEFINITIONS s);
  sb_configuredIdentityOrPath := if configured then Some (js "configured") else None;
  sb_officialHostPlaceholder := None; sb_pathPlaceholder := None; sb_available := available;
  sb_credentialRequirement := credential; sb_entitlementRequirement := entitlement;
  sb_liveAccessRequired := live |}.

(** The issuer's slides are not configured; the webcast and the market data need an
    authorization; transcripts are not configured, and would need two. *)
Definition demo_bindings : list CalendarSourceBinding :=
  [demo_binding Src_calendar_identity "calendar" true true No_credential No_credential false;
   demo_binding Src_sec_submissions "sec" true true No_credential No_credential false;
   demo_binding Src_sec_filing_exhibit "sec" true true No_credential No_credential false;
   demo_binding Src_issuer_release "ir" true true No_credential No_credential false;
   demo_binding Src_issuer_presentation "ir" false true No_credential No_credential false;
   demo_binding Src_issuer_webcast "ir" true true No_credential No_credential true;
   demo_binding Src_prepared_remarks "fmp" false true No_credential Separately_authorized true;
   demo_binding Src_transcript "fmp" false true No_credential Separately_authorized true;
   demo_binding Src_estimates_snapshot "fmp" false false No_credential No_credential true;
   demo_binding Src_issuer_market_bars "alpaca" true true Separately_authorized No_credential true;
   demo_binding Src_spy_market_bars "alpaca" true true Separately_authorized No_credential true;
   demo_binding Src_sector_market_bars "alpaca" true true Separately_authorized No_credential true].

(** The event is moved to the day after the clocks change. *)
Definition demo_amendments : list CalendarPreparationAmendment :=
  [{| pa_amendmentId := js "a1"; pa_phase := After_freeze; pa_recordedAtMs := 7; pa_reason := js "moved";
      pa_changes := {| pc_expectedEventDate := Some (js "2026-11-02"); pc_expectedSession := None |} |}].

Definition demo_input : CalendarEventPreparationInput := {|
  ci_issuerName := js "Acme"; ci_issuerId := js "acme"; ci_ticker := js "ACME"; ci_cik := js "0000320193";
  ci_exchange := js "XNAS"; ci_instrumentId := js "acme-1"; ci_sectorBenchmark := js "XLK";
  ci_fiscalPeriod := js "2026-Q3"; ci_expectedEventDate := js "2026-10-29";
  ci_expectedSession := After_market; ci_calendarSourceId := js "cal"; ci_calendarRevisionId := js "r1";
  ci_discoveredAtMs := 5; ci_corroboratingCalendarCandidates := []; ci_sourceBindings := demo_bindings;
  ci_pollingPolicy := {| pp_intervalSeconds := 60; pp_requestCeiling := 1; pp_timeoutMs := 100;
    pp_responseSizeLimitBytes := 1024 |};
  ci_amendments := demo_amendments |}.

Lemma demo_input_wf : record_wf demo_input.
Proof. apply json_wfb_wf. vm_compute. reflexivity. Qed.

Definition no_plan : EventPlan := {|
  ep_planId := []; ep_revision := 0; ep_revisionDigest := [];
  ep_candidate := candidateFrom demo_input (frozen_calendar demo_input);
  ep_windows := session_windows 0 Before_market; ep_acquisitionPlans := []; ep_expectedForms := [];
  ep_expectedItems := []; ep_exhibitAliases := []; ep_marketSubjects := []; ep_amendments := [] |}.

Definition prepared_or (r : res (EventPlan * list json)) : EventPlan * list json :=
  match r with Ok p => p | Throw _ => (no_plan, []) end.

Definition demo_plan : EventPlan * list json := Eval vm_compute in prepared_or (prepared_plan demo_input).

Lemma demo_prepared : prepared_plan demo_input = Ok demo_plan.
Proof. vm_compute. reflexivity. Qed.

Definition no_result : CalendarEventPreparationResult :=
  {| pr_preparation := JNull; pr_checklist := []; pr_preparationJson := []; pr_checklistMarkdown := [] |}.

Definition demo_result : CalendarEventPreparationResult :=
  match prepareCalendarEvent (to_json demo_input) with Ok r => r | Throw _ => no_result end.

Lemma demo_published : prepareCalendarEvent (to_json demo_input) = Ok demo_result.
Proof.
  assert (E : is_ok (prepareCalendarEvent (to_json demo_input)) = true) by (vm_compute; reflexivity).
  unfold demo_result. by destruct (prepareCalendarEvent (to_json demo_input)).
Qed.

(** The lanes of the plan, by name. *)
Definition demo_lane (lane : EventClusterLane) : AcquisitionPlan :=
  default {| ap_lane := lane; ap_providerId := []; ap_capabilities := []; ap_readiness := Ready; ap_blocker := None |}
    (find (λ p, bool_decide (ap_lane p = lane)) (ep_acquisitionPlans demo_plan.1)).

(** ** Properties *)

(** C28: Acceptance times in the clock of New York are converted exactly.  A text is invalid
    when it is not the 14 digits of a date from 1970 on and a time of day; a time before the
    present rules took force, on 11 March 2007, is unsupported; a later one is given an
    instant exactly when the clocks of New York show it at one instant only, and that
    instant is the result, while one that is skipped or repeated when the clocks change is
    invalid.  The clock of the statement counts days one by one and looks up the Sundays
    the rules name. *)
Theorem eastern_time_exact value :
  let year := number_at value 0 4 in let month := number_at value 4 2 in
  let day := number_at value 6 2 in let hour := number_at value 8 2 in
  let minute := number_at value 10 2 in let second := number_at value 12 2 in
  let shown t := eastern_shows t (year, month, day) ((hour * 3600 + minute * 60 + second) * 1000) in
  let well_formed := digits_exactly 14 value = true ∧ civil_date (year, month, day) ∧
    0 <= hour <= 23 ∧ 0 <= minute <= 59 ∧ 0 <= second <= 59 in
  let governed := 2007 < year ∨ year = 2007 ∧ (3 < month ∨ month = 3 ∧ 11 <= day) in
  match convertSecEasternAcceptanceDateTime value with
  | Eastern_valid e => well_formed ∧ governed ∧ ∀ t, shown t ↔ t = e
  | Eastern_invalid => well_formed → governed ∧ ¬ ∃ e, ∀ t, shown t ↔ t = e
  | Eastern_unsupported => well_formed ∧ ¬ governed
  end.
Proof.
  intros year month day hour minute second shown well_formed governed.
  unfold convertSecEasternAcceptanceDateTime. fold year month day hour minute second.
  destruct (digits_exactly 14 value) eqn:Hd; cbn [negb]; [|by intros [? _]].
  pose proof (valid_civil_iff year month day hour minute second) as Hv.
  destruct (validCivil year month day hour minute second) eqn:E.
  2: { unfold convert_eastern. rewrite E. cbn [negb]. intros (_ & Hw). by apply Hv in Hw. }
  assert (Hw : well_formed) by (split; [done|]; by apply Hv).
  destruct (decide governed) as [Hg|Hg].
  - assert (Hy : 2007 <= year) by (unfold governed in Hg; lia).
    pose proof (convert_eastern_shows year Hy month day hour minute second E ltac:(unfold governed in Hg; lia)) as Hc.
    destruct (convert_eastern _ _ _ _ _ _); [by split_and!|by intros _|done].
  - rewrite convert_eastern_before by (unfold governed in Hg; done || lia). by split.
Qed.

Lemma eastern_time_exact_witness :
  (¬ ∃ e, ∀ t, eastern_shows t (2026, 11, 1) 5400000 ↔ t = e) ∧
  (∀ t, eastern_shows t (2026, 11, 2) 57600000 ↔ t = 1793653200000) ∧
  civil_date (2006, 11, 1).
Proof.
  split_and!.
  - assert (E := eastern_time_exact (js "20261101013000")). cbv -[eastern_shows iff not Z.le Z.lt] in E.
    apply E. split_and!; try done; lia.
  - assert (E := eastern_time_exact (js "20261102160000")). cbv -[eastern_shows iff not Z.le Z.lt] in E.
    apply E.
  - assert (E := eastern_time_exact (js "20061101103000")). cbv -[eastern_shows iff not Z.le Z.lt] in E.
    apply E.
Defined.

Section properties.
Context `{Sha256} `{Zod} `{Locale}.

Lemma published_wf i plan history anchorMs rows digest :
  json_wf (JObj (preparation_terms i plan history anchorMs rows)) →
  canonicalHash (js "peas/calendar-event-preparation/v1")
    (JObj (preparation_terms i plan history anchorMs rows)) = Ok digest →
  json_wf (JObj (preparation_terms i plan history anchorMs rows ++ [(js "configurationDigest", JStr digest)])).
Proof.
  intros Ht Hd%canonicalHash_hash%is_hash_units_ok. apply fields_wf_app; [by vm_compute|exact Ht|solve_fields].
Qed.

(** C27: The plan of a lane with at least one planned source is ready exactly when every
    planned source of the lane is configured, available and needs no authorization of any
    kind; the plan asks for exactly the capabilities of those sources.  Planned are the
    mandatory sources and those optional ones that are configured and available.  That
    sources share a provider's declarations, across lanes and within one, changes nothing. *)
Theorem lane_readiness_exact i plan history p :
  record_wf i → prepared_plan i = Ok (plan, history) → p ∈ ep_acquisitionPlans plan →
  let sources := lane_bindings (ap_lane p) (ci_sourceBindings i) in
  (∃ b, b ∈ sources ∧ is_planned b = true) →
  (ap_readiness p = Ready ↔ ∀ b, b ∈ sources → is_planned b = true →
    sb_configuredIdentityOrPath b ≠ None ∧ sb_available b = true ∧
    sb_credentialRequirement b = No_credential ∧ sb_entitlementRequirement b = No_credential ∧
    sb_liveAccessRequired b = false) ∧
  ∀ c, c ∈ ap_capabilities p ↔ ∃ b, b ∈ sources ∧ is_planned b = true ∧ sb_capability b = c.
Proof.
  intros Hi Hp Hin sources (b0 & Hb0 & Hp0).
  destruct (pp_lanes _ _ (proj1 (prepared_plan_Ok i plan history Hi Hp)) p Hin) as [_ _ Hcaps Hready].
  assert (Hsel : ∀ b, b ∈ lane_selection (ap_lane p) (ci_sourceBindings i) ↔ b ∈ sources ∧ is_planned b = true)
    by (intros b; by apply (selection_planned _ _ b0)).
  split.
  - rewrite Hready. setoid_rewrite Hsel. unfold usable. split; intros H' b Hb.
    + intros Hpl. destruct (H' b (conj Hb Hpl)) as [E|(E & _)]; [|congruence].
      pose proof (readiness_fields b) as Hr. by rewrite E in Hr.
    + destruct Hb as [Hb Hpl]. left. destruct (H' b Hb Hpl) as (E1 & E2 & E3 & E4 & E5).
      unfold readiness. destruct (sb_configuredIdentityOrPath b); [|done]. by rewrite E2, E3, E4, E5.
  - intros c. rewrite Hcaps. setoid_rewrite Hsel. naive_solver.
Qed.

(** C30: A lane whose sources are all optional and none of which is configured and available
    is planned with the first of them all the same, and is ready when that source's provider
    is declared available without a credential: the missing identity, the entitlement and
    the live access the source needs are dropped. *)
Theorem unconfigured_lane_ready i plan history p b rest :
  record_wf i → prepared_plan i = Ok (plan, history) → p ∈ ep_acquisitionPlans plan →
  lane_bindings (ap_lane p) (ci_sourceBindings i) = b :: rest →
  (∀ b', b' ∈ b :: rest → is_planned b' = false) →
  (ap_readiness p = Ready ↔ sb_available b = true ∧ sb_credentialRequirement b = No_credential) ∧
  (ap_readiness p = Ready → sb_configuredIdentityOrPath b = None) ∧
  ∀ c, c ∈ ap_capabilities p ↔ c = sb_capability b.
Proof.
  intros Hi Hp Hin Hl Hn.
  pose proof (pp_lanes _ _ (proj1 (prepared_plan_Ok i plan history Hi Hp)) p Hin) as [_ _ Hcaps Hready].
  assert (Hsel : lane_selection (ap_lane p) (ci_sourceBindings i) = [b]).
  { unfold lane_selection. rewrite Hl. assert (E : List.filter is_planned (b :: rest) = []).
    { destruct (List.filter is_planned (b :: rest)) as [|x l] eqn:E; [done|]. exfalso.
      assert (Hx : In x (List.filter is_planned (b :: rest))) by (rewrite E; by left).
      apply filter_In in Hx as [Hx Ex]. rewrite Hn in Ex; [done|by apply list_elem_of_In]. }
    by rewrite E. }
  rewrite Hsel in Hready, Hcaps. pose proof (Hn b ltac:(left)) as Hb.
  assert (Hu : usable b ↔ sb_available b = true ∧ sb_credentialRequirement b = No_credential).
  { unfold usable. split; [|naive_solver]. intros [E|(_ & ? & ?)]; [|done]. exfalso.
    assert (is_planned b = true); [apply is_planned_iff; auto|congruence]. }
  assert (Hready' : ap_readiness p = Ready ↔ sb_available b = true ∧ sb_credentialRequirement b = No_credential).
  { rewrite Hready, <-Hu. split; [intros H'; apply H'; by left|]. by intros H' b' ->%list_elem_of_singleton. }
  split; [done|]. split.
  - intros [Ha Hc]%Hready'. pose proof (readiness_fields b) as Hr. pose proof (is_planned_iff b) as Hpl.
    rewrite Hb in Hpl. destruct (readiness b).1; [|done| |]; naive_solver.
  - intros c. rewrite Hcaps. setoid_rewrite list_elem_of_singleton. naive_solver.
Qed.

(** C26: What [prepareCalendarEvent] publishes.  Of the plan it prepared: date and session
    are those all calendars agree on, changed by the amendments in order; one revision per
    amendment made after the freeze; its windows lie around the anchor, which is the only
    instant at which the clocks of New York show the session's hour on that date.  Of the
    record: it is the content with the digest of that content, in key order. *)
Theorem prepared_event_exact v r :
  json_wf v → prepareCalendarEvent v = Ok r →
  ∃ i plan history anchorMs digest,
    parse_input v = Ok i ∧ prepared_plan i = Ok (plan, history) ∧
    (∀ c, c ∈ ci_corroboratingCalendarCandidates i →
      cr_expectedEventDate c = cr_expectedEventDate (frozen_calendar i) ∧
      cr_expectedSession c = cr_expectedSession (frozen_calendar i)) ∧
    cc_expectedEventDate (ep_candidate plan) = cr_expectedEventDate (final_calendar i) ∧
    cc_expectedSession (ep_candidate plan) = cr_expectedSession (final_calendar i) ∧
    ep_revision plan = 1 + Z.of_nat (length (amendments_of After_freeze i)) ∧
    (∀ t, eastern_shows t (date_fields (cc_expectedEventDate (ep_candidate plan)))
      (session_hour (cc_expectedSession (ep_candidate plan)) * HOUR_MS) ↔ t = anchorMs) ∧
    ep_windows plan = session_windows anchorMs (cc_expectedSession (ep_candidate plan)) ∧
    let terms := preparation_terms i plan history anchorMs (pr_checklist r) in
    canonicalHash (js "peas/calendar-event-preparation/v1") (JObj terms) = Ok digest ∧
    inertJsonSnapshot (JObj (terms ++ [(js "configurationDigest", JStr digest)])) = Ok (pr_preparation r).
Proof.
  intros Hv Hp. unfold prepareCalendarEvent in Hp. apply res_bind_Ok in Hp as (i & Hi & Hp).
  destruct (parse_input_Ok v i Hv Hi) as [Hw _]. apply res_bind_Ok in Hp as ([plan history] & Hplan & Hp).
  apply res_bind_Ok in Hp as ([anchorMs w] & Hwin & Hp). apply res_bind_Ok in Hp as (digest & Hd & Hp).
  apply res_bind_Ok in Hp as (pre & Hpre & Hp). apply res_bind_Ok in Hp as (text & _ & Hp). apply Ok_inj in Hp as <-.
  destruct (prepared_plan_Ok i plan history Hw Hplan) as [[_ _ [Ed Es] (an & [Hwd Hdate]) Hag _ Hrev _ _] _].
  rewrite Hwin in Hwd. injection Hwd as <- ->. exists i, plan, history, anchorMs, digest.
  unfold windowsFor in Hwin. apply res_bind_Ok in Hwin as (an' & Han & Hwin). injection Hwin as -> Hwin.
  split_and!; try done. by apply anchor_shows.
Qed.

(** C29: The published texts.  [preparationJson] is read back as the preparation itself; the
    checklist has the twelve sources, each once and in order, with the state of its
    binding; its Markdown table has one line per source, plus one for every line break a
    configured identity contains, which nothing excludes. *)
Theorem preparation_readable v r :
  json_wf v → prepareCalendarEvent v = Ok r →
  JSON_parse (pr_preparationJson r) = Ok (pr_preparation r) ∧
  (∃ i, parse_input v = Ok i ∧ map rr_sourceId (pr_checklist r) = source_order ∧
    ∀ row, row ∈ pr_checklist r → ∃ b, b ∈ ci_sourceBindings i ∧ row = checklist_row b) ∧
  breaks (pr_checklistMarkdown r) =
    (6 + length CALENDAR_PREPARATION_SOURCE_IDS + list_sum (map identity_breaks (pr_checklist r)))%nat.
Proof.
  intros Hv Hp. unfold prepareCalendarEvent in Hp. apply res_bind_Ok in Hp as (i & Hi & Hp).
  destruct (parse_input_Ok v i Hv Hi) as [Hw Hlines]. apply res_bind_Ok in Hp as ([plan history] & Hplan & Hp).
  apply res_bind_Ok in Hp as ([anchorMs w] & _ & Hp). apply res_bind_Ok in Hp as (digest & Hd & Hp).
  apply res_bind_Ok in Hp as (pre & Hpre & Hp). apply res_bind_Ok in Hp as (text & Ht & Hp). apply Ok_inj in Hp as <-.
  cbn [pr_preparationJson pr_preparation pr_checklist pr_checklistMarkdown].
  destruct (prepared_plan_Ok i plan history Hw Hplan) as [[Hok Htexts _ _ _ _ _ Hall _] Hhist]. split_and!.
  - assert (Hterms := preparation_terms_wf i plan history anchorMs Hw Hok Htexts Hhist).
    apply inertJsonSnapshot_spec in Hpre as [_ ->]; [|by eapply published_wf].
    rewrite (stablePrettyJson_parses _ _ (norm_wf _ (published_wf _ _ _ _ _ _ Hterms Hd)) Ht). by rewrite norm_idemp.
  - exists i. split; [done|]. split; [by apply checklist_order|].
    intros row (b & -> & Hb%elem_of_sort_by)%list_elem_of_fmap. by exists b.
  - unfold checklistFor. rewrite breaks_checklist.
    + unfold sorted_bindings at 1. rewrite sort_by_length.
      by rewrite <-(Permutation_length (cb_sources _ Hall)), length_map.
    + intros b Hb%elem_of_sort_by. by apply Hlines.
    + by eapply canonicalHash_hash.
Qed.
End properties.

(** ** At the concrete event *)

Lemma demo_lanes lane : demo_lane lane ∈ ep_acquisitionPlans demo_plan.1.
Proof. destruct lane; vm_compute; solve_elem. Qed.

Lemma lane_readiness_exact_witness :
  ap_readiness (demo_lane Lane_sec) = Ready ∧ ap_readiness (demo_lane Lane_market) = Authorization_required ∧
  ((∀ b, b ∈ lane_bindings Lane_sec demo_bindings → is_planned b = true → sb_configuredIdentityOrPath b ≠ None) ∧
   ¬ ∀ b, b ∈ lane_bindings Lane_market demo_bindings → is_planned b = true →
     sb_configuredIdentityOrPath b ≠ None ∧ sb_available b = true ∧ sb_credentialRequirement b = No_credential ∧
     sb_entitlementRequirement b = No_credential ∧ sb_liveAccessRequired b = false).
Proof.
  assert (Hsome : ∀ lane, lane ≠ Lane_transcript →
    ∃ b, b ∈ lane_bindings lane (ci_sourceBindings demo_input) ∧ is_planned b = true).
  { intros lane Hl. destruct (find is_planned (lane_bindings lane (ci_sourceBindings demo_input))) as [b|] eqn:E.
    - exists b. by apply find_elem in E.
    - destruct lane; [| |done|]; by vm_compute in E. }
  pose proof (lane_readiness_exact demo_input demo_plan.1 demo_plan.2 (demo_lane Lane_sec) demo_input_wf
    ltac:(rewrite demo_prepared; by destruct demo_plan) (demo_lanes Lane_sec) (Hsome Lane_sec ltac:(done))) as [Hs _].
  pose proof (lane_readiness_exact demo_input demo_plan.1 demo_plan.2 (demo_lane Lane_market) demo_input_wf
    ltac:(rewrite demo_prepared; by destruct demo_plan) (demo_lanes Lane_market) (Hsome Lane_market ltac:(done))) as [Hm _].
  split; [vm_compute; reflexivity|]. split; [vm_compute; reflexivity|]. split.
  - intros b Hb Hp. apply (proj1 Hs ltac:(vm_compute; reflexivity) b Hb Hp).
  - intros Hall. apply Hm in Hall. revert Hall. vm_compute. discriminate.
Defined.

Definition demo_remarks : CalendarSourceBinding :=
  demo_binding Src_prepared_remarks "fmp" false true No_credential Separately_authorized true.

Lemma unconfigured_lane_ready_witness :
  ap_readiness (demo_lane Lane_transcript) = Ready ∧ sb_configuredIdentityOrPath demo_remarks = None ∧
  sb_entitlementRequirement demo_remarks = Separately_authorized.
Proof.
  destruct (unconfigured_lane_ready demo_input demo_plan.1 demo_plan.2 (demo_lane Lane_transcript) demo_remarks
    [demo_binding Src_transcript "fmp" false true No_credential Separately_authorized true] demo_input_wf
    ltac:(rewrite demo_prepared; by destruct demo_plan) (demo_lanes Lane_transcript) ltac:(vm_compute; reflexivity))
    as (Hready & Hnone & _).
  { intros b Hb. repeat (apply elem_of_cons in Hb as [->|Hb]; [vm_compute; reflexivity|]). by apply elem_of_nil in Hb. }
  assert (Hr : ap_readiness (demo_lane Lane_transcript) = Ready) by (apply Hready; done).
  split; [exact Hr|]. split; [exact (Hnone Hr)|reflexivity].
Defined.

Lemma prepared_event_exact_witness : ∃ plan history,
  prepared_plan demo_input = Ok (plan, history) ∧ ep_revision plan = 2 ∧
  ep_windows plan = session_windows 1793653200000 After_market ∧
  ∀ t, eastern_shows t (2026, 11, 2) 57600000 ↔ t = 1793653200000.
Proof.
  destruct (prepared_event_exact (to_json demo_input) demo_result demo_input_wf demo_published)
    as (i & plan & history & anchorMs & digest & Hi & Hp & _ & Hd & Hs & Hr & Ht & Hw & _).
  assert (E : parse_input (to_json demo_input) = Ok demo_input) by (vm_compute; reflexivity).
  rewrite E in Hi. injection Hi as <-. exists plan, history. split; [exact Hp|].
  assert (Ed : cc_expectedEventDate (ep_candidate plan) = js "2026-11-02") by (rewrite Hd; vm_compute; reflexivity).
  assert (Es : cc_expectedSession (ep_candidate plan) = After_market) by (rewrite Hs; vm_compute; reflexivity).
  rewrite Ed, Es in Ht. rewrite Es in Hw.
  change (∀ t, eastern_shows t (2026, 11, 2) 57600000 ↔ t = anchorMs) in Ht.
  assert (Ha : 1793653200000 = anchorMs).
  { apply Ht. by apply (anchor_shows (js "2026-11-02") After_market 1793653200000). }
  subst anchorMs. split; [rewrite Hr; reflexivity|]. split; [exact Hw|exact Ht].
Defined.

Lemma preparation_readable_witness :
  JSON_parse (pr_preparationJson demo_result) = Ok (pr_preparation demo_result).
Proof. apply (preparation_readable (to_json demo_input) demo_result demo_input_wf demo_published). Defined.
