(* ===== verification/EventClusterBeta.v ===== *)
(** * Event clusters ([src/domain/event-cluster-beta.ts], second half)

    An event cluster gathers the evidence observed for one event plan: members by lane,
    each a revision of a provider's record, and a life cycle from [candidate] to
    [complete] or [stopped].  Every operation returns a new revision, sealed by the
    digest of its content. *)
From S2P Require Import Prelude JsString JsNumber Json JsonLimits JsonParse JsonClaims Hash Zod.
From S2P Require Import JsonObject Event EventFacts Codec Records Evidence SecContracts EventPlan.

(** ** Literals *)

Inductive EventClusterMemberKind : Type :=
  | Member_issuer_release | Sec_8_k | Sec_10_q | Sec_10_k | Member_transcript | Member_market_bars.

Inductive SecForm : Type := Form_8K | Form_8K_A | Form_10Q | Form_10Q_A | Form_10K | Form_10K_A.

Inductive Relationship : Type := Original | Correction | Amendment.

Inductive LaneStatus : Type := Lane_pending | Lane_observed | Lane_stable_missing | Lane_stopped.

Inductive EventClusterStatus : Type :=
  | Candidate | Prewarming | Frozen | Active | Primary_observed | Follow_up | Settling | Complete
  | Stopped.

#[export] Instance EventClusterMemberKind_eq_dec : EqDecision EventClusterMemberKind.
Proof. solve_decision. Defined.
#[export] Instance SecForm_eq_dec : EqDecision SecForm.
Proof. solve_decision. Defined.
#[export] Instance Relationship_eq_dec : EqDecision Relationship.
Proof. solve_decision. Defined.
#[export] Instance LaneStatus_eq_dec : EqDecision LaneStatus.
Proof. solve_decision. Defined.
#[export] Instance EventClusterStatus_eq_dec : EqDecision EventClusterStatus.
Proof. solve_decision. Defined.

#[export] Instance EventClusterMemberKind_enum : Enumerated EventClusterMemberKind.
Proof.
  refine {| enum_name := λ k, match k with
    | Member_issuer_release => js "issuer-release" | Sec_8_k => js "sec-8-k"
    | Sec_10_q => js "sec-10-q" | Sec_10_k => js "sec-10-k"
    | Member_transcript => js "transcript" | Member_market_bars => js "market-bars" end;
    enum_all := [Member_issuer_release; Sec_8_k; Sec_10_q; Sec_10_k; Member_transcript;
      Member_market_bars] |}.
  - by intros [].
  - intros []; apply js_units.
Defined.

#[export] Instance SecForm_enum : Enumerated SecForm.
Proof.
  refine {| enum_name := λ f, match f with
    | Form_8K => js "8-K" | Form_8K_A => js "8-K/A" | Form_10Q => js "10-Q"
    | Form_10Q_A => js "10-Q/A" | Form_10K => js "10-K" | Form_10K_A => js "10-K/A" end;
    enum_all := [Form_8K; Form_8K_A; Form_10Q; Form_10Q_A; Form_10K; Form_10K_A] |}.
  - by intros [].
  - intros []; apply js_units.
Defined.

#[export] Instance Relationship_enum : Enumerated Relationship.
Proof.
  refine {| enum_name := λ r, match r with
    | Original => js "original" | Correction => js "correction" | Amendment => js "amendment" end;
    enum_all := [Original; Correction; Amendment] |}.
  - by intros [].
  - intros []; apply js_units.
Defined.

#[export] Instance LaneStatus_enum : Enumerated LaneStatus.
Proof.
  refine {| enum_name := λ s, match s with
    | Lane_pending => js "pending" | Lane_observed => js "observed"
    | Lane_stable_missing => js "stable-missing" | Lane_stopped => js "stopped" end;
    enum_all := [Lane_pending; Lane_observed; Lane_stable_missing; Lane_stopped] |}.
  - by intros [].
  - intros []; apply js_units.
Defined.

#[export] Instance EventClusterStatus_enum : Enumerated EventClusterStatus.
Proof.
  refine {| enum_name := λ s, match s with
    | Candidate => js "candidate" | Prewarming => js "prewarming" | Frozen => js "frozen"
    | Active => js "active" | Primary_observed => js "primary-observed"
    | Follow_up => js "follow-up" | Settling => js "settling" | Complete => js "complete"
    | Stopped => js "stopped" end;
    enum_all := [Candidate; Prewarming; Frozen; Active; Primary_observed; Follow_up; Settling;
      Complete; Stopped] |}.
  - by intros [].
  - intros []; apply js_units.
Defined.

(** ** Types *)

Record RequestIdentity : Type := {
  ri_requestId : jsstring;
  ri_providerId : jsstring;
  ri_capability : ProviderCapability
}.

Record Normalization : Type := {
  nz_normalizerId : jsstring;
  nz_sourceArtifactDigest : jsstring;
  nz_normalizedEventId : jsstring;
  nz_normalizedEventHash : jsstring
}.

Record EventClusterMember : Type := {
  mb_lane : EventClusterLane;
  mb_kind : EventClusterMemberKind;
  mb_issuerId : jsstring;
  mb_cik : jsstring;
  mb_fiscalPeriod : jsstring;
  mb_providerId : jsstring;
  mb_recordId : jsstring;
  mb_revisionId : jsstring;
  mb_artifactDigest : jsstring;
  mb_requestIdentity : RequestIdentity;
  mb_normalization : Normalization;
  mb_form : option SecForm;
  mb_items : list jsstring;
  mb_exhibitAlias : option ExhibitAlias;
  mb_publicationOrAcceptanceAtMs : option Z;
  mb_firstObservedAtMs : Z;
  mb_retrievedAtMs : Z;
  mb_relationship : Relationship;
  mb_replacesArtifactDigest : option jsstring
}.

Record LaneState : Type := {
  ls_lane : EventClusterLane;
  ls_status : LaneStatus;
  ls_memberCount : Z;
  ls_stableMissingReason : option jsstring
}.

Record ClusterInventory : Type := {
  iv_memberDigests : list jsstring;
  iv_missingLanes : list EventClusterLane;
  iv_duplicateCount : Z;
  iv_inventoryDigest : jsstring
}.

Record EventCluster : Type := {
  ec_clusterId : jsstring;
  ec_planId : jsstring;
  ec_planRevisionDigest : jsstring;
  ec_revision : Z;
  ec_status : EventClusterStatus;
  ec_lanes : list LaneState;
  ec_members : list EventClusterMember;
  ec_duplicateCount : Z;
  ec_inventory : option ClusterInventory;
  ec_stoppedReason : option jsstring;
  ec_updatedAtMs : Z;
  ec_stateDigest : jsstring
}.

#[export] Instance RequestIdentity_eq_dec : EqDecision RequestIdentity.
Proof. solve_decision. Defined.
#[export] Instance Normalization_eq_dec : EqDecision Normalization.
Proof. solve_decision. Defined.
#[export] Instance EventClusterMember_eq_dec : EqDecision EventClusterMember.
Proof. solve_decision. Defined.
#[export] Instance LaneState_eq_dec : EqDecision LaneState.
Proof. solve_decision. Defined.
#[export] Instance ClusterInventory_eq_dec : EqDecision ClusterInventory.
Proof. solve_decision. Defined.
#[export] Instance EventCluster_eq_dec : EqDecision EventCluster.
Proof. solve_decision. Defined.

(** ** JSON forms *)

Definition request_identity_fields (r : RequestIdentity) : jobject :=
  [(js "requestId", JStr (ri_requestId r)); (js "providerId", JStr (ri_providerId r));
   (js "capability", jenum (ri_capability r))].

Definition request_identity_of (kvs : jobject) : option RequestIdentity :=
  r ← get_str (js "requestId") kvs;
  p ← get_str (js "providerId") kvs;
  c ← get_enum ProviderCapability (js "capability") kvs;
  Some {| ri_requestId := r; ri_providerId := p; ri_capability := c |}.

Definition normalization_fields (n : Normalization) : jobject :=
  [(js "normalizerId", JStr (nz_normalizerId n));
   (js "sourceArtifactDigest", JStr (nz_sourceArtifactDigest n));
   (js "normalizedEventId", JStr (nz_normalizedEventId n));
   (js "normalizedEventHash", JStr (nz_normalizedEventHash n))].

Definition normalization_of (kvs : jobject) : option Normalization :=
  n ← get_str (js "normalizerId") kvs;
  a ← get_str (js "sourceArtifactDigest") kvs;
  i ← get_str (js "normalizedEventId") kvs;
  h ← get_str (js "normalizedEventHash") kvs;
  Some {| nz_normalizerId := n; nz_sourceArtifactDigest := a; nz_normalizedEventId := i;
          nz_normalizedEventHash := h |}.

Lemma request_identity_of_norm kvs :
  json_wf (JObj kvs) → request_identity_of (norm_entries kvs) = request_identity_of kvs.
Proof. unfold request_identity_of. revert kvs. record_of_norm. Qed.
Lemma normalization_of_norm kvs :
  json_wf (JObj kvs) → normalization_of (norm_entries kvs) = normalization_of kvs.
Proof. unfold normalization_of. revert kvs. record_of_norm. Qed.

#[export] Program Instance RequestIdentity_codec : Codec RequestIdentity := {|
  to_fields := request_identity_fields; of_fields := request_identity_of; nrm := id;
  norm_to := λ _, eq_refl |}.
Next Obligation. intros [r p []]; reflexivity. Qed.
Next Obligation. intros kvs Hw. by apply of_norm_closed, request_identity_of_norm. Qed.

#[export] Program Instance Normalization_codec : Codec Normalization := {|
  to_fields := normalization_fields; of_fields := normalization_of; nrm := id;
  norm_to := λ _, eq_refl |}.
Next Obligation. intros [n a i h]; reflexivity. Qed.
Next Obligation. intros kvs Hw. by apply of_norm_closed, normalization_of_norm. Qed.

Definition member_fields (m : EventClusterMember) : jobject :=
  [(js "lane", jenum (mb_lane m)); (js "kind", jenum (mb_kind m));
   (js "issuerId", JStr (mb_issuerId m)); (js "cik", JStr (mb_cik m));
   (js "fiscalPeriod", JStr (mb_fiscalPeriod m)); (js "providerId", JStr (mb_providerId m));
   (js "recordId", JStr (mb_recordId m)); (js "revisionId", JStr (mb_revisionId m));
   (js "artifactDigest", JStr (mb_artifactDigest m));
   (js "requestIdentity", to_json (mb_requestIdentity m));
   (js "normalization", to_json (mb_normalization m));
   (js "form", jnull jenum (mb_form m)); (js "items", jstrs (mb_items m));
   (js "exhibitAlias", jnull jenum (mb_exhibitAlias m));
   (js "publicationOrAcceptanceAtMs", jnull jint (mb_publicationOrAcceptanceAtMs m));
   (js "firstObservedAtMs", jint (mb_firstObservedAtMs m));
   (js "retrievedAtMs", jint (mb_retrievedAtMs m));
   (js "relationship", jenum (mb_relationship m));
   (js "replacesArtifactDigest", jnull JStr (mb_replacesArtifactDigest m))].

Definition member_of (kvs : jobject) : option EventClusterMember :=
  l ← get_enum EventClusterLane (js "lane") kvs;
  k ← get_enum EventClusterMemberKind (js "kind") kvs;
  i ← get_str (js "issuerId") kvs;
  c ← get_str (js "cik") kvs;
  f ← get_str (js "fiscalPeriod") kvs;
  p ← get_str (js "providerId") kvs;
  r ← get_str (js "recordId") kvs;
  v ← get_str (js "revisionId") kvs;
  a ← get_str (js "artifactDigest") kvs;
  q ← get_record RequestIdentity (js "requestIdentity") kvs;
  n ← get_record Normalization (js "normalization") kvs;
  o ← get_null (get_enum SecForm) (js "form") kvs;
  t ← get_strs (js "items") kvs;
  x ← get_null (get_enum ExhibitAlias) (js "exhibitAlias") kvs;
  u ← get_null get_int (js "publicationOrAcceptanceAtMs") kvs;
  b ← get_int (js "firstObservedAtMs") kvs;
  e ← get_int (js "retrievedAtMs") kvs;
  s ← get_enum Relationship (js "relationship") kvs;
  d ← get_null get_str (js "replacesArtifactDigest") kvs;
  Some {| mb_lane := l; mb_kind := k; mb_issuerId := i; mb_cik := c; mb_fiscalPeriod := f;
          mb_providerId := p; mb_recordId := r; mb_revisionId := v; mb_artifactDigest := a;
          mb_requestIdentity := q; mb_normalization := n; mb_form := o; mb_items := t;
          mb_exhibitAlias := x; mb_publicationOrAcceptanceAtMs := u; mb_firstObservedAtMs := b;
          mb_retrievedAtMs := e; mb_relationship := s; mb_replacesArtifactDigest := d |}.

Lemma member_of_norm kvs : json_wf (JObj kvs) → member_of (norm_entries kvs) = member_of kvs.
Proof. unfold member_of. revert kvs. record_of_norm. Qed.

#[export] Program Instance EventClusterMember_codec : Codec EventClusterMember := {|
  to_fields := member_fields; of_fields := member_of; nrm := id; norm_to := λ _, eq_refl |}.
Next Obligation.
  intros m. unfold member_of. read_back. by destruct m.
Qed.
Next Obligation. intros kvs Hw. by apply of_norm_closed, member_of_norm. Qed.

Definition lane_fields (l : LaneState) : jobject :=
  [(js "lane", jenum (ls_lane l)); (js "status", jenum (ls_status l));
   (js "memberCount", jint (ls_memberCount l));
   (js "stableMissingReason", jnull JStr (ls_stableMissingReason l))].

Definition lane_of (kvs : jobject) : option LaneState :=
  l ← get_enum EventClusterLane (js "lane") kvs;
  s ← get_enum LaneStatus (js "status") kvs;
  n ← get_int (js "memberCount") kvs;
  r ← get_null get_str (js "stableMissingReason") kvs;
  Some {| ls_lane := l; ls_status := s; ls_memberCount := n; ls_stableMissingReason := r |}.

(** An inventory before its digest is known. *)
Definition inventory_content (i : ClusterInventory) : jobject :=
  [(js "memberDigests", jstrs (iv_memberDigests i));
   (js "missingLanes", jenums (iv_missingLanes i));
   (js "duplicateCount", jint (iv_duplicateCount i))].

Definition inventory_fields (i : ClusterInventory) : jobject :=
  inventory_content i ++ [(js "inventoryDigest", JStr (iv_inventoryDigest i))].

Definition inventory_of (kvs : jobject) : option ClusterInventory :=
  m ← get_strs (js "memberDigests") kvs;
  l ← get_enums EventClusterLane (js "missingLanes") kvs;
  n ← get_int (js "duplicateCount") kvs;
  d ← get_str (js "inventoryDigest") kvs;
  Some {| iv_memberDigests := m; iv_missingLanes := l; iv_duplicateCount := n;
          iv_inventoryDigest := d |}.

Lemma lane_of_norm kvs : json_wf (JObj kvs) → lane_of (norm_entries kvs) = lane_of kvs.
Proof. unfold lane_of. revert kvs. record_of_norm. Qed.
Lemma inventory_of_norm kvs : json_wf (JObj kvs) → inventory_of (norm_entries kvs) = inventory_of kvs.
Proof. unfold inventory_of. revert kvs. record_of_norm. Qed.

#[export] Program Instance LaneState_codec : Codec LaneState := {|
  to_fields := lane_fields; of_fields := lane_of; nrm := id; norm_to := λ _, eq_refl |}.
Next Obligation. intros l. unfold lane_of. read_back. by destruct l. Qed.
Next Obligation. intros kvs Hw. by apply of_norm_closed, lane_of_norm. Qed.

#[export] Program Instance ClusterInventory_codec : Codec ClusterInventory := {|
  to_fields := inventory_fields; of_fields := inventory_of; nrm := id; norm_to := λ _, eq_refl |}.
Next Obligation. intros i. unfold inventory_of. read_back. by destruct i. Qed.
Next Obligation. intros kvs Hw. by apply of_norm_closed, inventory_of_norm. Qed.

(** A cluster without its [stateDigest]. *)
Definition cluster_content (c : EventCluster) : jobject :=
  [(js "schemaVersion", jint 1); (js "clusterId", JStr (ec_clusterId c));
   (js "planId", JStr (ec_planId c)); (js "planRevisionDigest", JStr (ec_planRevisionDigest c));
   (js "revision", jint (ec_revision c)); (js "status", jenum (ec_status c));
   (js "lanes", jlist (ec_lanes c)); (js "members", jlist (ec_members c));
   (js "duplicateCount", jint (ec_duplicateCount c));
   (js "inventory", jnull to_json (ec_inventory c));
   (js "stoppedReason", jnull JStr (ec_stoppedReason c));
   (js "updatedAtMs", jint (ec_updatedAtMs c))].

Definition event_cluster_fields (c : EventCluster) : jobject :=
  cluster_content c ++ [(js "stateDigest", JStr (ec_stateDigest c))].

Definition event_cluster_of (kvs : jobject) : option EventCluster :=
  i ← get_str (js "clusterId") kvs;
  p ← get_str (js "planId") kvs;
  g ← get_str (js "planRevisionDigest") kvs;
  r ← get_int (js "revision") kvs;
  s ← get_enum EventClusterStatus (js "status") kvs;
  l ← get_list LaneState (js "lanes") kvs;
  m ← get_list EventClusterMember (js "members") kvs;
  n ← get_int (js "duplicateCount") kvs;
  v ← get_nullable ClusterInventory (js "inventory") kvs;
  w ← get_null get_str (js "stoppedReason") kvs;
  u ← get_int (js "updatedAtMs") kvs;
  d ← get_str (js "stateDigest") kvs;
  Some {| ec_clusterId := i; ec_planId := p; ec_planRevisionDigest := g; ec_revision := r;
          ec_status := s; ec_lanes := l; ec_members := m; ec_duplicateCount := n;
          ec_inventory := v; ec_stoppedReason := w; ec_updatedAtMs := u; ec_stateDigest := d |}.

Lemma event_cluster_of_norm kvs :
  json_wf (JObj kvs) → event_cluster_of (norm_entries kvs) = event_cluster_of kvs.
Proof.
  unfold event_cluster_of. intros Hw. pose proof (json_wf_nodup _ Hw) as Hnd.
  rewrite !get_str_norm, !get_int_norm, get_enum_norm, get_null_str_norm by exact Hnd.
  rewrite !get_list_norm, get_nullable_norm by exact Hw. codec_binds. rewrite !map_id_eq by done.
  match goal with o : option ClusterInventory |- _ => by destruct o end.
Qed.

#[export] Program Instance EventCluster_codec : Codec EventCluster := {|
  to_fields := event_cluster_fields; of_fields := event_cluster_of; nrm := id;
  norm_to := λ _, eq_refl |}.
Next Obligation. intros c. unfold event_cluster_of. read_back. by destruct c. Qed.
Next Obligation. intros kvs Hw. by apply of_norm_closed, event_cluster_of_norm. Qed.

(** ** The schema of a member *)

Definition memberSchema : schema := SObject
  [(js "lane", enumSchema EventClusterLane); (js "kind", enumSchema EventClusterMemberKind);
   (js "issuerId", plan_identifier); (js "cik", SString [CRegex (digits_exactly 10)]);
   (js "fiscalPeriod", SString [CRegex FISCAL_PERIOD]); (js "providerId", plan_identifier);
   (js "recordId", plan_identifier); (js "revisionId", plan_identifier);
   (js "artifactDigest", hash);
   (js "requestIdentity", SObject
     [(js "requestId", hash); (js "providerId", plan_identifier);
      (js "capability", enumSchema ProviderCapability)]);
   (js "normalization", SObject
     [(js "normalizerId", plan_identifier); (js "sourceArtifactDigest", hash);
      (js "normalizedEventId", hash); (js "normalizedEventHash", hash)]);
   (js "form", SNullable (enumSchema SecForm)); (js "items", SArray (SString [CRegex is_item]) (Some 16));
   (js "exhibitAlias", SNullable (enumSchema ExhibitAlias));
   (js "publicationOrAcceptanceAtMs", SNullable epochMs); (js "firstObservedAtMs", epochMs);
   (js "retrievedAtMs", epochMs); (js "relationship", enumSchema Relationship);
   (js "replacesArtifactDigest", SNullable hash)].

(** ** Small functions *)

Definition normalizeExhibitAlias (value : jsstring) : option ExhibitAlias :=
  if same_string value (js "EX-99") || same_string value (js "EX-99.1") then Some EX_99_1 else None.

Definition expectedLane (kind : EventClusterMemberKind) : EventClusterLane :=
  match kind with
  | Member_issuer_release => Lane_issuer_ir
  | Member_transcript => Lane_transcript
  | Member_market_bars => Lane_market
  | _ => Lane_sec
  end.

(** [form.replace(/\/A$/u, "")] *)
Definition baseForm (form : SecForm) : SecForm :=
  match form with Form_8K_A => Form_8K | Form_10Q_A => Form_10Q | Form_10K_A => Form_10K | f => f end.

Definition requiredCapability (kind : EventClusterMemberKind) : ProviderCapability :=
  match kind with
  | Member_issuer_release => Cap_issuer_release
  | Member_transcript => Cap_transcript
  | Member_market_bars => Market_bars
  | _ => Cap_sec_filing
  end.

Definition transitions (s : EventClusterStatus) : list EventClusterStatus :=
  match s with
  | Candidate => [Prewarming; Stopped]
  | Prewarming => [Frozen; Stopped]
  | Frozen => [Active; Stopped]
  | Active => [Primary_observed; Follow_up; Settling; Stopped]
  | Primary_observed => [Follow_up; Settling; Stopped]
  | Follow_up => [Settling; Stopped]
  | Settling => [Complete; Stopped]
  | Complete | Stopped => []
  end.

Definition startsWith (s prefix : jsstring) : bool := bool_decide (take (length prefix) s = prefix).

Definition lane_acquisition (plan : EventPlan) (lane : EventClusterLane) : option AcquisitionPlan :=
  find (λ a, bool_decide (ap_lane a = lane)) (ep_acquisitionPlans plan).

Definition memberKey (m : EventClusterMember) : jsstring :=
  enum_name (mb_lane m) ++ js ":" ++ mb_providerId m ++ js ":" ++ mb_recordId m ++ js ":" ++
  mb_revisionId m.

Definition same_record (m candidate : EventClusterMember) : bool :=
  same_string (mb_providerId candidate) (mb_providerId m) &&
  same_string (mb_recordId candidate) (mb_recordId m).

Definition same_revision (m candidate : EventClusterMember) : bool :=
  same_record m candidate && same_string (mb_revisionId candidate) (mb_revisionId m).

(** ** Changes of a cluster *)

(** The fields every operation replaces, the revision being the next one. *)
Definition revised (c : EventCluster) (status : EventClusterStatus) (lanes : list LaneState)
    (members : list EventClusterMember) (duplicateCount : Z) (inventory : option ClusterInventory)
    (stoppedReason : option jsstring) (updatedAtMs : Z) : EventCluster := {|
  ec_clusterId := ec_clusterId c; ec_planId := ec_planId c;
  ec_planRevisionDigest := ec_planRevisionDigest c; ec_revision := ec_revision c + 1;
  ec_status := status; ec_lanes := lanes; ec_members := members;
  ec_duplicateCount := duplicateCount; ec_inventory := inventory; ec_stoppedReason := stoppedReason;
  ec_updatedAtMs := updatedAtMs; ec_stateDigest := [] |}.

Definition sealed (c : EventCluster) (digest : jsstring) : EventCluster := {|
  ec_clusterId := ec_clusterId c; ec_planId := ec_planId c;
  ec_planRevisionDigest := ec_planRevisionDigest c; ec_revision := ec_revision c;
  ec_status := ec_status c; ec_lanes := ec_lanes c; ec_members := ec_members c;
  ec_duplicateCount := ec_duplicateCount c; ec_inventory := ec_inventory c;
  ec_stoppedReason := ec_stoppedReason c; ec_updatedAtMs := ec_updatedAtMs c;
  ec_stateDigest := digest |}.

Definition lane_recorded (members : list EventClusterMember) (lane : EventClusterLane) (l : LaneState) :
    LaneState :=
  if bool_decide (ls_lane l = lane)
  then {| ls_lane := ls_lane l; ls_status := Lane_observed;
          ls_memberCount := Z.of_nat (length (List.filter (λ m, bool_decide (mb_lane m = lane)) members));
          ls_stableMissingReason := None |}
  else l.

Definition lane_missing (reason : jsstring) (l : LaneState) : LaneState :=
  {| ls_lane := ls_lane l; ls_status := Lane_stable_missing; ls_memberCount := ls_memberCount l;
     ls_stableMissingReason := Some reason |}.

Definition is_primary (kind : EventClusterMemberKind) : bool :=
  match kind with Member_issuer_release | Sec_8_k => true | _ => false end.
Definition is_followUp (kind : EventClusterMemberKind) : bool :=
  match kind with Sec_10_q | Sec_10_k | Member_transcript => true | _ => false end.

(** The status after a member of this kind was recorded. *)
Definition status_after (kind : EventClusterMemberKind) (status : EventClusterStatus) :
    EventClusterStatus :=
  if is_followUp kind then Follow_up
  else if is_primary kind && bool_decide (status = Active) then Primary_observed
  else status.

Definition is_observing (status : EventClusterStatus) : bool :=
  bool_decide (status ∈ [Active; Primary_observed; Follow_up]).

Definition plan_drift (c : EventCluster) (plan : EventPlan) : bool :=
  negb (same_string (ec_planId c) (ep_planId plan)) ||
  negb (same_string (ec_planRevisionDigest c) (ep_revisionDigest plan)).

(** ** Operations *)

(** The sort of a record's revisions: by retrieval time, then by revision. *)
Definition revision_leb `{Locale} (left right : EventClusterMember) : bool :=
  if mb_retrievedAtMs left =? mb_retrievedAtMs right
  then locale_leb (mb_revisionId left) (mb_revisionId right)
  else mb_retrievedAtMs left <=? mb_retrievedAtMs right.

Section operations.
Context `{Sha256} `{Zod} `{Locale}.

Definition deriveEventClusterRequestId (providerId : jsstring) (capability : ProviderCapability)
    (recordId revisionId : jsstring) : res jsstring :=
  let* snapshot := inertJsonSnapshot (JObj
    [(js "providerId", JStr providerId); (js "capability", jenum capability);
     (js "recordId", JStr recordId); (js "revisionId", JStr revisionId)]) in
  canonicalHash (js "peas/event-cluster-request/v1") snapshot.

(** [withDigest(input)] *)
Definition withDigest (input : EventCluster) : res EventCluster :=
  let* snapshot := inertJsonSnapshot (JObj (cluster_content input)) in
  let* stateDigest := canonicalHash (js "peas/event-cluster-state/v1") snapshot in
  Ok (sealed input stateDigest).

Definition lanesForPlan (plan : EventPlan) : res (list LaneState) :=
  res_map (λ lane,
    let* acquisition := or_throw (lane_acquisition plan lane)
      (BetaError "event-cluster.plan-lane-missing") in
    Ok {| ls_lane := lane;
          ls_status := if bool_decide (ap_readiness acquisition = Ready) then Lane_pending
                       else Lane_stable_missing;
          ls_memberCount := 0; ls_stableMissingReason := ap_blocker acquisition |})
    EVENT_CLUSTER_LANES.

Definition cluster_id (plan : EventPlan) : res jsstring :=
  let* snapshot := inertJsonSnapshot (JObj
    [(js "planId", JStr (ep_planId plan)); (js "issuerId", JStr (cc_issuerId (ep_candidate plan)));
     (js "fiscalPeriod", JStr (cc_fiscalPeriod (ep_candidate plan)))]) in
  canonicalHash (js "peas/event-cluster/v1") snapshot.

Definition createEventCluster (plan : EventPlan) (atMs : jsnum) : res EventCluster :=
  let* at_ := epoch_arg atMs in
  let* clusterId := cluster_id plan in
  let* lanes := lanesForPlan plan in
  withDigest {|
    ec_clusterId := clusterId; ec_planId := ep_planId plan;
    ec_planRevisionDigest := ep_revisionDigest plan; ec_revision := 1; ec_status := Candidate;
    ec_lanes := lanes; ec_members := []; ec_duplicateCount := 0; ec_inventory := None;
    ec_stoppedReason := None; ec_updatedAtMs := at_; ec_stateDigest := [] |}.

Definition transitionEventCluster (c : EventCluster) (status : EventClusterStatus) (atMs : jsnum) :
    res EventCluster :=
  let* at_ := epoch_arg atMs in
  guard! negb (bool_decide (status ∈ transitions (ec_status c)))
    throws BetaError "event-cluster.transition-invalid" ;;
  withDigest (revised c status (ec_lanes c) (ec_members c) (ec_duplicateCount c) (ec_inventory c)
    (ec_stoppedReason c) at_).

(** The part of [validateMemberAgainstPlan] on members of the SEC lane. *)
Definition validate_sec_member (plan : EventPlan) (m : EventClusterMember) : res unit :=
  guard! negb (SEC_ACCESSION_PATTERN (mb_recordId m)) ||
         negb (startsWith (mb_recordId m) (mb_cik m ++ js "-"))
    throws BetaError "event-cluster.member-accession-invalid" ;;
  match mb_form m with
  | None => Throw (BetaError "event-cluster.member-form-invalid")
  | Some form =>
      guard! negb (bool_decide (enum_name (baseForm form) ∈ ep_expectedForms plan))
        throws BetaError "event-cluster.member-form-invalid" ;;
      let expectedBase := match mb_kind m with
        | Sec_8_k => Form_8K | Sec_10_q => Form_10Q | _ => Form_10K end in
      guard! negb (bool_decide (baseForm form = expectedBase))
        throws BetaError "event-cluster.member-form-invalid" ;;
      if bool_decide (mb_kind m = Sec_8_k) then
        guard! bool_decide (mb_items m = []) ||
               existsb (λ item, negb (bool_decide (item ∈ ep_expectedItems plan))) (mb_items m)
          throws BetaError "event-cluster.member-item-invalid" ;;
        throw_if (match mb_exhibitAlias m with
          | Some a => negb (bool_decide (a ∈ ep_exhibitAliases plan)) ||
                      bool_decide (normalizeExhibitAlias (enum_name a) = None)
          | None => false end) (BetaError "event-cluster.member-exhibit-invalid")
      else throw_if (negb (bool_decide (mb_items m = [])) ||
                     negb (bool_decide (mb_exhibitAlias m = None)))
        (BetaError "event-cluster.member-periodic-shape-invalid")
  end.

Definition validateMemberAgainstPlan (c : EventCluster) (plan : EventPlan) (m : EventClusterMember) :
    res unit :=
  guard! plan_drift c plan throws BetaError "event-cluster.plan-identity-drift" ;;
  let candidate := ep_candidate plan in
  guard! negb (same_string (mb_issuerId m) (cc_issuerId candidate)) ||
         negb (same_string (mb_cik m) (cc_cik candidate)) ||
         negb (same_string (mb_fiscalPeriod m) (cc_fiscalPeriod candidate))
    throws BetaError "event-cluster.member-subject-invalid" ;;
  match lane_acquisition plan (mb_lane m) with
  | None => Throw (BetaError "event-cluster.member-provider-invalid")
  | Some acquisition =>
      guard! negb (bool_decide (ap_readiness acquisition = Ready)) ||
             negb (same_string (ap_providerId acquisition) (mb_providerId m))
        throws BetaError "event-cluster.member-provider-invalid" ;;
      let capability := requiredCapability (mb_kind m) in
      guard! negb (same_string (ri_providerId (mb_requestIdentity m)) (mb_providerId m)) ||
             negb (bool_decide (ri_capability (mb_requestIdentity m) = capability)) ||
             negb (bool_decide (capability ∈ ap_capabilities acquisition))
        throws BetaError "event-cluster.member-capability-invalid" ;;
      let* requestId := deriveEventClusterRequestId (mb_providerId m) capability (mb_recordId m)
        (mb_revisionId m) in
      guard! negb (same_string (ri_requestId (mb_requestIdentity m)) requestId)
        throws BetaError "event-cluster.member-request-invalid" ;;
      do! (if bool_decide (mb_lane m = Lane_sec) then validate_sec_member plan m
           else throw_if (negb (bool_decide (mb_form m = None)) || negb (bool_decide (mb_items m = [])) ||
                          negb (bool_decide (mb_exhibitAlias m = None)))
             (BetaError "event-cluster.member-non-sec-shape-invalid")) ;;
      throw_if (negb (same_string (nz_sourceArtifactDigest (mb_normalization m)) (mb_artifactDigest m)))
        (BetaError "event-cluster.member-normalization-provenance-invalid")
  end.

(** The record's latest revision, if the cluster has one. *)
Definition priorRecord (c : EventCluster) (m : EventClusterMember) : option EventClusterMember :=
  last (sort_by revision_leb (List.filter (same_record m) (ec_members c))).

(** The checks of a member that is not a redelivery against its record's history. *)
Definition validate_revision (c : EventCluster) (m : EventClusterMember) : res unit :=
  match priorRecord c m with
  | Some prior => throw_if (bool_decide (mb_relationship m = Original) ||
        negb (bool_decide (mb_replacesArtifactDigest m = Some (mb_artifactDigest prior))))
      (BetaError "event-cluster.revision-unlinked")
  | None => throw_if (negb (bool_decide (mb_relationship m = Original)) ||
        negb (bool_decide (mb_replacesArtifactDigest m = None)))
      (BetaError "event-cluster.revision-target-missing")
  end.

Definition insert_member (members : list EventClusterMember) (m : EventClusterMember) :
    list EventClusterMember :=
  sort_by (λ a b, locale_leb (memberKey a) (memberKey b)) (members ++ [m]).

(** The cluster with a new member. *)
Definition with_member (c : EventCluster) (m : EventClusterMember) : EventCluster :=
  let members := insert_member (ec_members c) m in
  revised c (status_after (mb_kind m) (ec_status c))
    (map (lane_recorded members (mb_lane m)) (ec_lanes c)) members (ec_duplicateCount c)
    (ec_inventory c) (ec_stoppedReason c) (mb_retrievedAtMs m).

Definition recordEventClusterMember (c : EventCluster) (plan : EventPlan) (memberInput : json) :
    res EventCluster :=
  guard! negb (is_observing (ec_status c)) throws BetaError "event-cluster.not-observing" ;;
  let* member := parse_as memberSchema member_of memberInput in
  guard! negb (bool_decide (mb_lane member = expectedLane (mb_kind member)))
    throws BetaError "event-cluster.member-lane-invalid" ;;
  do! validateMemberAgainstPlan c plan member ;;
  guard! mb_retrievedAtMs member <? mb_firstObservedAtMs member
    throws BetaError "event-cluster.member-time-invalid" ;;
  guard! match mb_publicationOrAcceptanceAtMs member with
         | Some published => mb_firstObservedAtMs member <? published | None => false end
    throws BetaError "event-cluster.member-time-invalid" ;;
  match find (same_revision member) (ec_members c) with
  | Some exact =>
      let* same := same_text (to_json exact) (to_json member) in
      guard! negb same throws BetaError "event-cluster.redelivery-conflict" ;;
      withDigest (revised c (ec_status c) (ec_lanes c) (ec_members c) (ec_duplicateCount c + 1)
        (ec_inventory c) (ec_stoppedReason c) (mb_retrievedAtMs member))
  | None =>
      do! validate_revision c member ;;
      withDigest (with_member c member)
  end.

Definition recordStableMissing (c : EventCluster) (lane : EventClusterLane) (reason : jsstring)
    (atMs : jsnum) : res EventCluster :=
  let* at_ := epoch_arg atMs in
  do! parse (nonempty_upto 256) (JStr reason) ;;
  guard! negb (is_observing (ec_status c) || bool_decide (ec_status c = Settling))
    throws BetaError "event-cluster.not-settleable" ;;
  withDigest (revised c (ec_status c)
    (map (λ l, if bool_decide (ls_lane l = lane) && bool_decide (ls_status l = Lane_pending)
               then lane_missing reason l else l) (ec_lanes c))
    (ec_members c) (ec_duplicateCount c) (ec_inventory c) (ec_stoppedReason c) at_).

Definition settled_lane (l : LaneState) : LaneState :=
  if bool_decide (ls_status l = Lane_pending)
  then lane_missing (js "not-observed-before-settlement") l else l.

Definition drafted_inventory (c : EventCluster) (lanes : list LaneState) : ClusterInventory := {|
  iv_memberDigests := sortedUnique (map mb_artifactDigest (ec_members c));
  iv_missingLanes := sort_by (λ a b, js_leb (enum_name a) (enum_name b))
    (map ls_lane (List.filter (λ l, bool_decide (ls_status l = Lane_stable_missing)) lanes));
  iv_duplicateCount := ec_duplicateCount c; iv_inventoryDigest := [] |}.

Definition sealed_inventory (i : ClusterInventory) : res ClusterInventory :=
  let* snapshot := inertJsonSnapshot (JObj (inventory_content i)) in
  let* digest := canonicalHash (js "peas/event-cluster-inventory/v1") snapshot in
  Ok {| iv_memberDigests := iv_memberDigests i; iv_missingLanes := iv_missingLanes i;
        iv_duplicateCount := iv_duplicateCount i; iv_inventoryDigest := digest |}.

Definition settleEventCluster (c : EventCluster) (plan : EventPlan) (atMs : jsnum) : res EventCluster :=
  let* at_ := epoch_arg atMs in
  guard! plan_drift c plan throws BetaError "event-cluster.plan-identity-drift" ;;
  guard! at_ <? pw_settlementEndMs (ep_windows plan)
    throws BetaError "event-cluster.settlement-too-early" ;;
  guard! negb (bool_decide (ec_status c = Settling)) throws BetaError "event-cluster.not-settleable" ;;
  let lanes := map settled_lane (ec_lanes c) in
  let* inventory := sealed_inventory (drafted_inventory c lanes) in
  withDigest (revised c Complete lanes (ec_members c) (ec_duplicateCount c) (Some inventory)
    (ec_stoppedReason c) at_).

Definition stopEventCluster (c : EventCluster) (reason : jsstring) (atMs : jsnum) : res EventCluster :=
  do! parse (nonempty_upto 256) (JStr reason) ;;
  let* at_ := epoch_arg atMs in
  guard! bool_decide (ec_status c = Complete) || bool_decide (ec_status c = Stopped)
    throws BetaError "event-cluster.already-terminal" ;;
  withDigest (revised c Stopped (ec_lanes c) (ec_members c) (ec_duplicateCount c) (ec_inventory c)
    (Some reason) at_).

(** ** Snapshots *)

Definition eventClusterSnapshotDraft (c : EventCluster) : res EventDraft :=
  let* snapshot := inertJsonSnapshot (JObj [(js "cluster", to_json c)]) in
  let* payload := or_throw (as_obj snapshot) (TypeError "payload") in
  Ok {| d_type := js "event-cluster.snapshot"; d_schemaVersion := 1;
        d_source := js "event-cluster-beta:provider-free";
        d_subject := js "event-cluster:" ++ ec_clusterId c;
        d_occurredAtMs := Some (ec_updatedAtMs c); d_correlationId := ec_clusterId c;
        d_causationId := None;
        d_provider := {| p_provider := js "peas.event-cluster-beta"; p_recordId := ec_clusterId c;
          p_revisionId := dec (ec_revision c); p_artifactHash := ec_stateDigest c |};
        d_payload := payload |}.

Definition is_snapshot (e : StoredEvent) : bool :=
  same_string (d_type e) (js "event-cluster.snapshot").

(** The sort by stream version: with two snapshots or more every version is read. *)
Definition by_streamVersion (snapshots : list StoredEvent) : res (list StoredEvent) :=
  match snapshots with
  | [] | [_] => Ok snapshots
  | _ =>
      let* keyed := res_map (λ e : StoredEvent, let* v := BigInt (c_streamVersion e) in Ok (v, e)) snapshots in
      Ok (map snd (sort_by (λ a b, a.1 <=? b.1) keyed))
  end.

(** The cluster of a snapshot, as the object it is: its type is not checked. *)
Definition latestEventClusterSnapshot (events : list StoredEvent) : res jobject :=
  let* sorted : list StoredEvent := by_streamVersion (List.filter is_snapshot events) in
  match last (sorted : list StoredEvent) with
  | None => Throw (BetaError "event-cluster.snapshot-missing")
  | Some latest =>
      let* cluster := or_throw (get_obj (js "cluster") (d_payload latest))
        (BetaError "event-cluster.snapshot-invalid") in
      match lookup_key (js "stateDigest") cluster with
      | Some (JStr stateDigest) =>
          let* snapshot := inertJsonSnapshot
            (JObj (List.filter (λ kv, negb (same_string kv.1 (js "stateDigest"))) cluster)) in
          let* digest := canonicalHash (js "peas/event-cluster-state/v1") snapshot in
          guard! negb (same_string digest stateDigest)
            throws BetaError "event-cluster.snapshot-digest-invalid" ;;
          let* copy := inertJsonSnapshot (JObj cluster) in
          or_throw (as_obj copy) (TypeError "cluster")
      | _ => Throw (BetaError "event-cluster.snapshot-digest-invalid")
      end
  end.
End operations.
