(* ===== verification/EventClusterFacts.v ===== *)
(** * Sequences of operations on an event cluster

    What holds of a cluster after any sequence of operations on it, accepted or refused:
    its seal, its lanes and their counts, the identity and ancestry of its members. *)
From S2P Require Import Prelude JsString JsNumber Json JsonLimits JsonParse JsonClaims Hash Zod.
From S2P Require Import JsonObject Event EventFacts Codec Records Evidence SecContracts EventPlan.
From S2P Require Import EventChain EventLog EventLogFacts EventPlanFacts EventClusterBeta.

#[local] Arguments js : simpl never.
#[local] Arguments jint : simpl never.
#[local] Arguments jnull : simpl never.
#[local] Arguments jenum : simpl never.
#[local] Arguments to_json : simpl never.

(** ** Operations as data *)

Inductive operation : Type :=
  | Op_transition (status : EventClusterStatus) (atMs : jsnum)
  | Op_record (memberInput : json)
  | Op_missing (lane : EventClusterLane) (reason : jsstring) (atMs : jsnum)
  | Op_settle (atMs : jsnum)
  | Op_stop (reason : jsstring) (atMs : jsnum).

Section operations.
Context `{Sha256} `{Zod} `{Locale} (plan : EventPlan).

Definition operate (c : EventCluster) (op : operation) : res EventCluster :=
  match op with
  | Op_transition status atMs => transitionEventCluster c status atMs
  | Op_record memberInput => recordEventClusterMember c plan memberInput
  | Op_missing lane reason atMs => recordStableMissing c lane reason atMs
  | Op_settle atMs => settleEventCluster c plan atMs
  | Op_stop reason atMs => stopEventCluster c reason atMs
  end.

(** An operation that throws leaves its caller with the cluster it had. *)
Definition attempt (c : EventCluster) (op : operation) : EventCluster :=
  match operate c op with Ok c' => c' | Throw _ => c end.

Definition operation_wf (op : operation) : Prop :=
  match op with
  | Op_record memberInput => json_wf memberInput
  | Op_missing _ reason _ => units_ok reason
  | Op_stop reason _ => units_ok reason
  | _ => True
  end.

(** ** What an operation does *)

(** The member that a call of [recordEventClusterMember] reads. *)
Definition read_member (memberInput : json) (m : EventClusterMember) : Prop :=
  parse_as memberSchema member_of memberInput = Ok m.

(** A member the plan admits. *)
Definition admitted (c : EventCluster) (m : EventClusterMember) : Prop :=
  mb_lane m = expectedLane (mb_kind m) ∧ validateMemberAgainstPlan c plan m = Ok tt ∧
  mb_firstObservedAtMs m <= mb_retrievedAtMs m ∧
  match mb_publicationOrAcceptanceAtMs m with
  | Some published => published <= mb_firstObservedAtMs m | None => True end.

(** The change an accepted operation makes, before it is sealed. *)
Inductive change (c : EventCluster) : operation → EventCluster → Prop :=
  | Changed_transition status atMs t :
      status ∈ transitions (ec_status c) →
      change c (Op_transition status atMs) (revised c status (ec_lanes c) (ec_members c)
        (ec_duplicateCount c) (ec_inventory c) (ec_stoppedReason c) t)
  | Changed_redelivery memberInput m exact :
      is_observing (ec_status c) = true → read_member memberInput m → admitted c m →
      find (same_revision m) (ec_members c) = Some exact → same_text (to_json exact) (to_json m) = Ok true →
      change c (Op_record memberInput) (revised c (ec_status c) (ec_lanes c) (ec_members c)
        (ec_duplicateCount c + 1) (ec_inventory c) (ec_stoppedReason c) (mb_retrievedAtMs m))
  | Changed_recorded memberInput m :
      is_observing (ec_status c) = true → read_member memberInput m → admitted c m →
      find (same_revision m) (ec_members c) = None → validate_revision c m = Ok tt →
      change c (Op_record memberInput) (with_member c m)
  | Changed_missing lane reason atMs t :
      is_observing (ec_status c) || bool_decide (ec_status c = Settling) = true →
      change c (Op_missing lane reason atMs) (revised c (ec_status c)
        (map (λ l, if bool_decide (ls_lane l = lane) && bool_decide (ls_status l = Lane_pending)
                   then lane_missing reason l else l) (ec_lanes c))
        (ec_members c) (ec_duplicateCount c) (ec_inventory c) (ec_stoppedReason c) t)
  | Changed_settled atMs t inventory :
      ec_status c = Settling → plan_drift c plan = false →
      pw_settlementEndMs (ep_windows plan) <= t →
      sealed_inventory (drafted_inventory c (map settled_lane (ec_lanes c))) = Ok inventory →
      change c (Op_settle atMs) (revised c Complete (map settled_lane (ec_lanes c)) (ec_members c)
        (ec_duplicateCount c) (Some inventory) (ec_stoppedReason c) t)
  | Changed_stopped reason atMs t :
      ec_status c ≠ Complete → ec_status c ≠ Stopped →
      change c (Op_stop reason atMs) (revised c Stopped (ec_lanes c) (ec_members c)
        (ec_duplicateCount c) (ec_inventory c) (Some reason) t).

Lemma record_change c memberInput c' :
  recordEventClusterMember c plan memberInput = Ok c' →
  ∃ d, change c (Op_record memberInput) d ∧ withDigest d = Ok c'.
Proof.
  unfold recordEventClusterMember. intros Hr. apply res_bind_Ok in Hr as (u & Ho & Hr).
  apply throw_if_Ok, negb_false_iff in Ho. apply res_bind_Ok in Hr as (m & Hm & Hr).
  apply res_bind_Ok in Hr as (u1 & Hl & Hr). apply throw_if_Ok in Hl.
  apply res_bind_Ok in Hr as ([] & Hv & Hr). apply res_bind_Ok in Hr as (u2 & Ht & Hr).
  apply throw_if_Ok in Ht. apply res_bind_Ok in Hr as (u3 & Hp & Hr). apply throw_if_Ok in Hp.
  bool_prop.
  assert (Had : admitted c m).
  { split_and!; [done..|]. destruct (mb_publicationOrAcceptanceAtMs m); [by bool_prop|done]. }
  destruct (find (same_revision m) (ec_members c)) as [exact|] eqn:Hf.
  - apply res_bind_Ok in Hr as (same & Hs & Hr). apply res_bind_Ok in Hr as (u4 & Hsame & Hr).
    apply throw_if_Ok, negb_false_iff in Hsame. subst same. eexists. split; [|exact Hr].
    by eapply Changed_redelivery.
  - apply res_bind_Ok in Hr as ([] & Hrev & Hr). eexists. split; [|exact Hr]. by apply Changed_recorded.
Qed.

Lemma operate_change c op c' :
  operate c op = Ok c' → ∃ d, change c op d ∧ withDigest d = Ok c'.
Proof.
  destruct op as [status atMs|memberInput|lane reason atMs|atMs|reason atMs]; cbn [operate]; intros Ho.
  - unfold transitionEventCluster in Ho. apply res_bind_Ok in Ho as (t & _ & Ho).
    apply res_bind_Ok in Ho as (u & Hs & Ho). apply throw_if_Ok in Hs. bool_prop.
    eexists. split; [|exact Ho]. by apply Changed_transition.
  - by apply record_change.
  - unfold recordStableMissing in Ho. apply res_bind_Ok in Ho as (t & _ & Ho).
    apply res_bind_Ok in Ho as (u & _ & Ho). apply res_bind_Ok in Ho as (u1 & Hs & Ho).
    apply throw_if_Ok, negb_false_iff in Hs. eexists. split; [|exact Ho]. by apply Changed_missing.
  - unfold settleEventCluster in Ho. apply res_bind_Ok in Ho as (t & _ & Ho).
    apply res_bind_Ok in Ho as (u & Hd & Ho). apply throw_if_Ok in Hd.
    apply res_bind_Ok in Ho as (u1 & Ht & Ho). apply throw_if_Ok, Z.ltb_ge in Ht.
    apply res_bind_Ok in Ho as (u2 & Hs & Ho). apply throw_if_Ok in Hs. bool_prop.
    apply res_bind_Ok in Ho as (i & Hi & Ho). eexists. split; [|exact Ho]. by apply Changed_settled.
  - unfold stopEventCluster in Ho. apply res_bind_Ok in Ho as (u & _ & Ho).
    apply res_bind_Ok in Ho as (t & _ & Ho). apply res_bind_Ok in Ho as (u1 & Hs & Ho).
    apply throw_if_Ok in Hs. bool_prop. eexists. split; [|exact Ho]. by apply Changed_stopped.
Qed.

Lemma withDigest_Ok c c' :
  withDigest c = Ok c' → ∃ d, c' = sealed c d ∧ is_hash d = true ∧ withDigest c' = Ok c'.
Proof.
  intros Hc. pose proof Hc as Hc'. unfold withDigest in Hc. apply res_bind_Ok in Hc as (s & Hs & Hc).
  apply res_bind_Ok in Hc as (d & Hd & Hc). apply Ok_inj in Hc as <-. exists d. split; [done|].
  split; [by eapply canonicalHash_hash|]. exact Hc'.
Qed.
End operations.

(** ** Values *)

Record cluster_values (c : EventCluster) : Prop := {
  cv_ids : units_ok (ec_clusterId c) ∧ units_ok (ec_planId c) ∧ units_ok (ec_planRevisionDigest c);
  cv_lanes : Forall record_wf (ec_lanes c);
  cv_members : Forall record_wf (ec_members c);
  cv_inventory : default True (record_wf <$> ec_inventory c);
  cv_reason : default True (units_ok <$> ec_stoppedReason c)
}.

Lemma jnull_record_wf_iff `{Codec A} (o : option A) :
  json_wf (jnull to_json o) ↔ default True (record_wf <$> o).
Proof. by destruct o. Qed.

Lemma cluster_values_iff c :
  record_wf c ↔ cluster_values c ∧ units_ok (ec_stateDigest c).
Proof.
  split.
  - intros Hw. split; [|exact (part_wf _ "stateDigest" _ Hw eq_refl)]. split.
    + split_and!; [exact (part_wf _ "clusterId" _ Hw eq_refl)|exact (part_wf _ "planId" _ Hw eq_refl)
        |exact (part_wf _ "planRevisionDigest" _ Hw eq_refl)].
    + apply jlist_wf_iff. exact (part_wf _ "lanes" _ Hw eq_refl).
    + apply jlist_wf_iff. exact (part_wf _ "members" _ Hw eq_refl).
    + apply jnull_record_wf_iff. exact (part_wf _ "inventory" _ Hw eq_refl).
    + apply jnull_str_wf_iff. exact (part_wf _ "stoppedReason" _ Hw eq_refl).
  - intros [[(V1 & V2 & V3) V4 V5 V6 V7] V8]. unfold record_wf, to_json.
    cbn [to_fields EventCluster_codec]. unfold event_cluster_fields, cluster_content. cbn [app].
    solve_fields; first [assumption|by apply jlist_wf|by apply jnull_record_wf_iff|by apply jnull_str_wf_iff].
Qed.

#[export] Instance RequestIdentity_wf : ReadWf RequestIdentity.
Proof.
  intros kvs a Hw Ha. change (request_identity_of kvs = Some a) in Ha. unfold request_identity_of in Ha.
  read_wf_record Hw Ha.
Qed.
#[export] Instance Normalization_wf : ReadWf Normalization.
Proof.
  intros kvs a Hw Ha. change (normalization_of kvs = Some a) in Ha. unfold normalization_of in Ha.
  read_wf_record Hw Ha.
Qed.
#[export] Instance EventClusterMember_wf : ReadWf EventClusterMember.
Proof.
  intros kvs a Hw Ha. change (member_of kvs = Some a) in Ha. unfold member_of in Ha.
  read_wf_record Hw Ha.
Qed.

Lemma lane_record_wf l : record_wf l ↔ default True (units_ok <$> ls_stableMissingReason l).
Proof.
  split.
  - intros Hw. apply jnull_str_wf_iff. exact (part_wf _ "stableMissingReason" _ Hw eq_refl).
  - intros Hr. unfold record_wf, to_json. cbn [to_fields LaneState_codec]. unfold lane_fields.
    solve_fields.
Qed.

Lemma member_digest_units m : record_wf m → units_ok (mb_artifactDigest m).
Proof. intros Hw. exact (part_wf _ "artifactDigest" _ Hw eq_refl). Qed.

(** ** What can be hashed

    Numbers must be safe integers and texts free of unpaired surrogates: an operation on
    a cluster throws when its revision would leave the safe integers. *)

Lemma encodable_fields (fs : list (string * json)) :
  forallb (λ f, is_ok (assertSupportedJsonKey (js f.1))) fs = true →
  encodable (JObj (map (λ f, (js f.1, f.2)) fs)) = forallb (λ f, encodable f.2) fs.
Proof.
  induction fs as [|[k v] fs IH]; [done|]. cbn [forallb map encodable fst snd].
  intros [Hk Hfs]%andb_true_iff. rewrite Hk. cbn [andb]. f_equal. by apply IH.
Qed.

Record content_encodable (c : EventCluster) : Prop := {
  ce_ids : encodable (JStr (ec_clusterId c)) = true ∧ encodable (JStr (ec_planId c)) = true ∧
    encodable (JStr (ec_planRevisionDigest c)) = true;
  ce_numbers : is_safe_integer (ec_revision c) = true ∧ is_safe_integer (ec_duplicateCount c) = true ∧
    is_safe_integer (ec_updatedAtMs c) = true;
  ce_lanes : encodable (jlist (ec_lanes c)) = true;
  ce_members : encodable (jlist (ec_members c)) = true;
  ce_inventory : encodable (jnull to_json (ec_inventory c)) = true;
  ce_reason : encodable (jnull JStr (ec_stoppedReason c)) = true
}.

Lemma encodable_enum `{Enumerated A} (a : A) : is_ok (assertUnicodeScalarString (enum_name a)) = true →
  encodable (jenum a) = true.
Proof. done. Qed.

Lemma content_encodable_iff c : encodable (JObj (cluster_content c)) = true ↔ content_encodable c.
Proof.
  change (cluster_content c) with (map (λ f : string * json, (js f.1, f.2))
    [("schemaVersion", jint 1); ("clusterId", JStr (ec_clusterId c)); ("planId", JStr (ec_planId c));
     ("planRevisionDigest", JStr (ec_planRevisionDigest c)); ("revision", jint (ec_revision c));
     ("status", jenum (ec_status c)); ("lanes", jlist (ec_lanes c)); ("members", jlist (ec_members c));
     ("duplicateCount", jint (ec_duplicateCount c)); ("inventory", jnull to_json (ec_inventory c));
     ("stoppedReason", jnull JStr (ec_stoppedReason c)); ("updatedAtMs", jint (ec_updatedAtMs c))]%string).
  rewrite encodable_fields by (by vm_compute). cbn [forallb snd].
  assert (Hst : encodable (jenum (ec_status c)) = true) by (destruct (ec_status c); by vm_compute).
  rewrite Hst, !andb_true_iff. split.
  - intros (_ & E1 & E2 & E3 & E4 & _ & E5 & E6 & E7 & E8 & E9 & E10 & _). split; try done; by split_and!.
  - intros [(E1 & E2 & E3) (E4 & E5 & E6) E7 E8 E9 E10]. by split_and!.
Qed.

(** ** The invariant *)

Section invariant.
Context `{Sha256} `{Zod} `{Locale} (plan : EventPlan).

(** A lane counts its members; it is observed when it has some, and says why it is
    missing when it is. *)
Record lane_ok (members : list EventClusterMember) (l : LaneState) : Prop := {
  lo_count : ls_memberCount l =
    Z.of_nat (length (List.filter (λ m, bool_decide (mb_lane m = ls_lane l)) members));
  lo_observed : ls_status l = Lane_observed ↔ 0 < ls_memberCount l;
  lo_reason : ls_status l = Lane_stable_missing ↔ ls_stableMissingReason l ≠ None;
  lo_running : ls_status l ≠ Lane_stopped
}.

(** The member is one the plan asked for, from the provider it asked. *)
Record member_fits (m : EventClusterMember) : Prop := {
  mf_lane : mb_lane m = expectedLane (mb_kind m);
  mf_subject : mb_issuerId m = cc_issuerId (ep_candidate plan) ∧ mb_cik m = cc_cik (ep_candidate plan) ∧
    mb_fiscalPeriod m = cc_fiscalPeriod (ep_candidate plan);
  mf_source : ∃ a, lane_acquisition plan (mb_lane m) = Some a ∧ ap_readiness a = Ready ∧
    ap_providerId a = mb_providerId m ∧ requiredCapability (mb_kind m) ∈ ap_capabilities a;
  mf_request : ri_providerId (mb_requestIdentity m) = mb_providerId m ∧
    ri_capability (mb_requestIdentity m) = requiredCapability (mb_kind m) ∧
    deriveEventClusterRequestId (mb_providerId m) (requiredCapability (mb_kind m)) (mb_recordId m)
      (mb_revisionId m) = Ok (ri_requestId (mb_requestIdentity m));
  mf_normalized : nz_sourceArtifactDigest (mb_normalization m) = mb_artifactDigest m;
  mf_valid : ∀ c, plan_drift c plan = false → validateMemberAgainstPlan c plan m = Ok tt;
  mf_times : mb_firstObservedAtMs m <= mb_retrievedAtMs m ∧
    match mb_publicationOrAcceptanceAtMs m with
    | Some published => published <= mb_firstObservedAtMs m | None => True end
}.

Definition revision_of (m : EventClusterMember) : jsstring * jsstring * jsstring :=
  (mb_providerId m, mb_recordId m, mb_revisionId m).

(** Each record has one original; every other revision replaces one that is there. *)
Record ancestry (members : list EventClusterMember) : Prop := {
  an_original : ∀ m m', m ∈ members → m' ∈ members → same_record m m' = true →
    mb_relationship m = Original → mb_relationship m' = Original → m = m';
  an_linked : ∀ m, m ∈ members →
    match mb_relationship m with
    | Original => mb_replacesArtifactDigest m = None
    | _ => ∃ m', m' ∈ members ∧ m' ≠ m ∧ same_record m m' = true ∧
        mb_replacesArtifactDigest m = Some (mb_artifactDigest m')
    end
}.

Record content_inv (c : EventCluster) : Prop := {
  ci_plan : ec_planId c = ep_planId plan ∧ ec_planRevisionDigest c = ep_revisionDigest plan ∧
    cluster_id plan = Ok (ec_clusterId c);
  ci_lanes : map ls_lane (ec_lanes c) = EVENT_CLUSTER_LANES;
  ci_counts : Forall (lane_ok (ec_members c)) (ec_lanes c);
  ci_distinct : NoDup (map revision_of (ec_members c));
  ci_ancestry : ancestry (ec_members c);
  ci_members : Forall member_fits (ec_members c);
  ci_sorted : StronglySorted (λ a b, locale_leb (memberKey a) (memberKey b) = true) (ec_members c);
  ci_inventory : ∀ i, ec_inventory c = Some i → ec_status c = Complete ∧
    Forall (λ l, ls_status l ≠ Lane_pending) (ec_lanes c) ∧
    sealed_inventory (drafted_inventory c (ec_lanes c)) = Ok i;
  ci_reason : ec_stoppedReason c ≠ None → ec_status c = Stopped;
  ci_counters : 0 <= ec_duplicateCount c ∧
    1 + ec_duplicateCount c + Z.of_nat (length (ec_members c)) <= ec_revision c;
  ci_values : cluster_values c
}.

(** The cluster carries the digest of its content. *)
Record event_cluster_inv (c : EventCluster) : Prop := {
  ev_content : content_inv c;
  ev_seal : withDigest c = Ok c;
  ev_digest : is_hash (ec_stateDigest c) = true
}.

Lemma content_inv_sealed c d : content_inv c → content_inv (sealed c d).
Proof. intros [C1 C2 C3 C4 C5 C6 C7 C8 C9 C10 [V1 V2 V3 V4 V5]]. by split. Qed.

Lemma seal_inv c c' : content_inv c → withDigest c = Ok c' → event_cluster_inv c'.
Proof.
  intros Hc (d & -> & Hd & Hs)%withDigest_Ok. split; [by apply content_inv_sealed|done|done].
Qed.

Lemma cluster_inv_wf c : event_cluster_inv c → record_wf c.
Proof. intros [[] _ Hd]. apply cluster_values_iff. split; [done|]. by apply is_hash_units_ok. Qed.

(** ** Creation *)

Lemma lane_acquisition_elem lane a : lane_acquisition plan lane = Some a →
  a ∈ ep_acquisitionPlans plan ∧ ap_lane a = lane.
Proof. intros [Ha Hl]%find_elem. by bool_prop. Qed.

Lemma lanesForPlan_Ok lanes :
  plan_ok plan → lanesForPlan plan = Ok lanes →
  map ls_lane lanes = EVENT_CLUSTER_LANES ∧ Forall (lane_ok []) lanes ∧ Forall record_wf lanes.
Proof.
  intros Hp Hl. unfold lanesForPlan in Hl. apply res_map_Ok in Hl.
  assert (Hone : ∀ lane l, (let* acquisition := or_throw (lane_acquisition plan lane)
      (BetaError "event-cluster.plan-lane-missing") in
    Ok {| ls_lane := lane;
          ls_status := if bool_decide (ap_readiness acquisition = Ready) then Lane_pending
                       else Lane_stable_missing;
          ls_memberCount := 0; ls_stableMissingReason := ap_blocker acquisition |}) = Ok l →
    ls_lane l = lane ∧ lane_ok [] l ∧ record_wf l).
  { intros lane l Hone. apply res_bind_Ok in Hone as (a & Ha & Hone). apply or_throw_Ok in Ha.
    apply lane_acquisition_elem in Ha as [Ha _]. apply Ok_inj in Hone as <-.
    pose proof (proj1 (Forall_forall _ _) (po_blockers _ Hp) _ Ha) as Hb.
    pose proof (proj1 (Forall_forall _ _) (po_texts _ Hp) _ Ha) as Ht. cbn beta in Hb, Ht.
    split; [done|]. split; [|by apply lane_record_wf].
    split; cbn [ls_memberCount ls_status ls_stableMissingReason]; [done| | |by case_bool_decide].
    - by case_bool_decide.
    - case_bool_decide as Hr; [|by rewrite Hb]. split; [done|]. intros Hn. by apply Hb in Hr. }
  revert Hone Hl. generalize EVENT_CLUSTER_LANES. intros ls Hone Hl.
  induction Hl as [|lane l ls' lanes' Hl _ IH]; [by split_and!|].
  apply Hone in Hl as (<- & H2 & H3). destruct IH as (I1 & I2 & I3). cbn [map]. rewrite I1.
  split_and!; [done|by constructor|by constructor].
Qed.

Lemma createEventCluster_inv atMs c :
  plan_ok plan → createEventCluster plan atMs = Ok c → event_cluster_inv c ∧ ec_status c = Candidate.
Proof.
  intros Hp Hc. unfold createEventCluster in Hc. apply res_bind_Ok in Hc as (t & _ & Hc).
  apply res_bind_Ok in Hc as (id & Hid & Hc). apply res_bind_Ok in Hc as (lanes & Hl & Hc).
  destruct (lanesForPlan_Ok _ Hp Hl) as (L1 & L2 & L3). destruct (po_hashes _ Hp) as [H1' H2'].
  split; [|by apply withDigest_Ok in Hc as (d & -> & _)].
  eapply seal_inv, Hc. split; try done.
  - constructor.
  - split; [by intros m m' ?%elem_of_nil|by intros m ?%elem_of_nil].
  - constructor.
  - split; [|done..]. split_and!; [|by apply is_hash_units_ok..]. apply is_hash_units_ok.
    unfold cluster_id in Hid. apply res_bind_Ok in Hid as (w & _ & Hid). by eapply canonicalHash_hash.
Qed.

(** ** Preservation *)

Lemma read_member_wf v m : json_wf v → read_member v m → record_wf m.
Proof.
  intros Hv (w & Hw & _ & Hr)%parse_as_Ok. apply inertJsonSnapshot_spec in Hw as [_ ->]; [|done].
  eapply of_json_wf; [apply norm_wf, Hv|exact Hr].
Qed.

(** The checks depend on the cluster only through the identity of its plan. *)
Lemma validate_other c c' m :
  plan_drift c plan = false → validateMemberAgainstPlan c' plan m = Ok tt →
  validateMemberAgainstPlan c plan m = Ok tt.
Proof.
  unfold validateMemberAgainstPlan. intros -> Hv. apply res_bind_Ok in Hv as (u & _ & Hv). exact Hv.
Qed.

Lemma admitted_fits c m : admitted plan c m → member_fits m.
Proof.
  intros (Hl & Hv & Ht & Hp).
  assert (Hvalid : ∀ c, plan_drift c plan = false → validateMemberAgainstPlan c plan m = Ok tt)
    by (intros; by eapply validate_other).
  unfold validateMemberAgainstPlan in Hv.
  apply res_bind_Ok in Hv as (u & _ & Hv). apply res_bind_Ok in Hv as (u1 & Hs & Hv).
  apply throw_if_Ok in Hs. unfold same_string in Hs. bool_prop.
  destruct (lane_acquisition plan (mb_lane m)) as [a|] eqn:Ha; [|done].
  apply res_bind_Ok in Hv as (u2 & Hr & Hv). apply throw_if_Ok in Hr.
  apply res_bind_Ok in Hv as (u3 & Hc & Hv). apply throw_if_Ok in Hc.
  apply res_bind_Ok in Hv as (id & Hid & Hv). apply res_bind_Ok in Hv as (u4 & Hq & Hv).
  apply throw_if_Ok in Hq. apply res_bind_Ok in Hv as (u5 & _ & Hv). apply throw_if_Ok in Hv.
  unfold same_string in *. bool_prop. split; try done.
  - by exists a.
  - split_and!; try done. congruence.
Qed.

Lemma no_revision_fresh members m :
  find (same_revision m) members = None → revision_of m ∉ map revision_of members.
Proof.
  intros Hf (m' & E & Hm')%list_elem_of_fmap. injection E as E1 E2 E3.
  pose proof (find_none _ _ Hf m' (proj1 (list_elem_of_In _ _) Hm')) as Hn.
  unfold same_revision, same_record, same_string in Hn.
  by rewrite !bool_decide_eq_true_2 in Hn by done.
Qed.

Lemma same_record_sym m m' : same_record m m' = same_record m' m.
Proof.
  unfold same_record, same_string. f_equal; apply bool_decide_ext; split; intros E; by rewrite E.
Qed.

(** The latest revision of a record is one of its members. *)
Lemma priorRecord_Some c m p : priorRecord c m = Some p → p ∈ ec_members c ∧ same_record m p = true.
Proof.
  unfold priorRecord. intros Hl%last_Some_elem_of%elem_of_sort_by. apply list_elem_of_In, filter_In in Hl.
  by rewrite <-list_elem_of_In in Hl.
Qed.

Lemma priorRecord_None c m m' : priorRecord c m = None → m' ∈ ec_members c → same_record m m' = false.
Proof.
  unfold priorRecord. intros Hl%last_None Hm'. destruct (same_record m m') eqn:E; [|done].
  assert (Hin : m' ∈ sort_by revision_leb (List.filter (same_record m) (ec_members c))).
  { apply elem_of_sort_by, list_elem_of_In, filter_In. by rewrite <-list_elem_of_In. }
  rewrite Hl in Hin. by apply elem_of_nil in Hin.
Qed.

Lemma ancestry_insert c m :
  ancestry (ec_members c) → revision_of m ∉ map revision_of (ec_members c) →
  validate_revision c m = Ok tt → ancestry (insert_member (ec_members c) m).
Proof.
  intros [A1 A2] Hfresh Hv. unfold validate_revision in Hv.
  assert (Hin : ∀ x, x ∈ insert_member (ec_members c) m ↔ x ∈ ec_members c ∨ x = m).
  { intros x. unfold insert_member. rewrite elem_of_sort_by, elem_of_app, list_elem_of_singleton. done. }
  assert (Hne : ∀ x, x ∈ ec_members c → x ≠ m).
  { intros x Hx ->. apply Hfresh. by apply list_elem_of_fmap_2. }
  assert (Horig : mb_relationship m = Original → ∀ x, x ∈ ec_members c → same_record m x = false).
  { intros Hm x Hx. destruct (priorRecord c m) as [p|] eqn:Hp; [|by eapply priorRecord_None].
    apply throw_if_Ok in Hv. bool_prop. done. }
  split.
  - intros x y [Hx| ->]%Hin [Hy| ->]%Hin Hxy Ox Oy; [by apply A1| | |done].
    + rewrite same_record_sym, (Horig Oy x Hx) in Hxy. done.
    + rewrite (Horig Ox y Hy) in Hxy. done.
  - intros x [Hx| ->]%Hin.
    + specialize (A2 x Hx). destruct (mb_relationship x); [done| |];
        destruct A2 as (y & Hy & H'); exists y; (split; [apply Hin; by left|done]).
    + destruct (priorRecord c m) as [p|] eqn:Hp; apply throw_if_Ok in Hv; bool_prop.
      * apply priorRecord_Some in Hp as [Hp Hs].
        destruct (mb_relationship m); [done| |];
          (exists p; split_and!; [apply Hin; by left|by apply Hne|done|done]).
      * destruct (mb_relationship m); done.
Qed.

Lemma filter_perm {A} (f : A → bool) l k : l ≡ₚ k → List.filter f l ≡ₚ List.filter f k.
Proof.
  induction 1 as [|x l k _ IH|x y l|l k j _ IH1 _ IH2]; cbn; [done| | |by etrans].
  - destruct (f x); [by constructor|done].
  - destruct (f x), (f y); try done. by constructor.
Qed.

Lemma insert_member_perm members m : insert_member members m ≡ₚ members ++ [m].
Proof. apply sort_by_perm. Qed.

Lemma lane_recorded_ok members m l :
  lane_ok members l → lane_ok (insert_member members m) (lane_recorded (insert_member members m) (mb_lane m) l).
Proof.
  intros [L1 L2 L3 L4].
  assert (Hp : length (List.filter (λ x, bool_decide (mb_lane x = ls_lane l)) (insert_member members m)) =
    (length (List.filter (λ x, bool_decide (mb_lane x = ls_lane l)) members) +
     if bool_decide (mb_lane m = ls_lane l) then 1 else 0)%nat).
  { rewrite (Permutation_length (filter_perm _ _ _ (insert_member_perm members m))).
    rewrite List.filter_app, length_app. cbn [List.filter]. by case_bool_decide. }
  unfold lane_recorded. destruct (decide (ls_lane l = mb_lane m)) as [E|E].
  - rewrite bool_decide_eq_true_2 in Hp by done. rewrite bool_decide_eq_true_2, <-E by done.
    split; cbn [ls_memberCount ls_lane ls_status ls_stableMissingReason]; try done.
    split; [intros _; lia|done].
  - rewrite bool_decide_eq_false_2 in Hp by congruence. rewrite bool_decide_eq_false_2 by done.
    split; [|done..]. rewrite L1. f_equal. lia.
Qed.

Lemma lane_missing_ok members reason l :
  ls_status l = Lane_pending → lane_ok members l → lane_ok members (lane_missing reason l).
Proof.
  intros Hs [L1 L2 L3 L4]. split; cbn [lane_missing ls_memberCount ls_lane ls_status ls_stableMissingReason]; try done.
  split; [done|]. intros Hc. apply L2 in Hc. congruence.
Qed.

(** Operations that only touch the lanes. *)
Lemma lanes_map_inv (P : LaneState → Prop) (f : LaneState → LaneState) lanes :
  (∀ l, ls_lane (f l) = ls_lane l) → (∀ l, P l → P (f l)) → Forall P lanes →
  map ls_lane (map f lanes) = map ls_lane lanes ∧ Forall P (map f lanes).
Proof.
  intros Hl HP H'. split; [rewrite map_map; by apply map_ext|]. apply Forall_map.
  eapply Forall_impl; [exact H'|]. apply HP.
Qed.

(** Until a cluster is complete or stopped it has no inventory and no reason. *)
Lemma running_inv c :
  content_inv c → ec_status c ≠ Complete → ec_status c ≠ Stopped →
  ec_inventory c = None ∧ ec_stoppedReason c = None.
Proof.
  intros Hc H1' H2'. split.
  - destruct (ec_inventory c) as [i|] eqn:E; [|done]. by destruct (ci_inventory _ Hc i E).
  - destruct (ec_stoppedReason c) as [r|] eqn:E; [|done]. destruct H2'. apply (ci_reason _ Hc). by rewrite E.
Qed.

Lemma observing_running status :
  is_observing status || bool_decide (status = Settling) = true → status ≠ Complete ∧ status ≠ Stopped.
Proof. by destruct status. Qed.

(** A revision that keeps the members. *)
Lemma revised_inv c status lanes n inventory reason t :
  content_inv c → map ls_lane lanes = map ls_lane (ec_lanes c) →
  Forall (lane_ok (ec_members c)) lanes → Forall record_wf lanes →
  ec_duplicateCount c <= n <= ec_duplicateCount c + 1 →
  (∀ i, inventory = Some i → status = Complete ∧ Forall (λ l, ls_status l ≠ Lane_pending) lanes ∧
    record_wf i ∧
    sealed_inventory (drafted_inventory (revised c status lanes (ec_members c) n inventory reason t) lanes) = Ok i) →
  (∀ r, reason = Some r → status = Stopped ∧ units_ok r) →
  content_inv (revised c status lanes (ec_members c) n inventory reason t).
Proof.
  intros [C1 C2 C3 C4 C5 C6 C7 C8 C9 C10 [V1 V2 V3 V4 V5]] Hl Hok Hwf Hn Hi Hr.
  split; cbn [revised ec_clusterId ec_planId ec_planRevisionDigest ec_revision ec_status ec_lanes
    ec_members ec_duplicateCount ec_inventory ec_stoppedReason]; try done.
  - by rewrite Hl.
  - intros i E. by destruct (Hi i E) as (? & ? & _ & ?).
  - intros Hne. destruct reason as [r|]; [|done]. by destruct (Hr r eq_refl).
  - lia.
  - split; try done; cbn [revised ec_inventory ec_stoppedReason].
    + destruct inventory as [i|]; [|done]. by destruct (Hi i eq_refl) as (_ & _ & ? & _).
    + destruct reason as [r|]; [|done]. by destruct (Hr r eq_refl).
Qed.

Lemma inventory_wf c lanes i :
  Forall record_wf (ec_members c) → sealed_inventory (drafted_inventory c lanes) = Ok i → record_wf i.
Proof.
  intros Hm Hi. unfold sealed_inventory in Hi. apply res_bind_Ok in Hi as (w & _ & Hi).
  apply res_bind_Ok in Hi as (d & Hd & Hi). apply Ok_inj in Hi as <-.
  apply canonicalHash_hash, is_hash_units_ok in Hd.
  unfold record_wf, to_json. cbn [to_fields ClusterInventory_codec]. unfold inventory_fields, inventory_content.
  cbn [app drafted_inventory iv_memberDigests iv_missingLanes iv_duplicateCount iv_inventoryDigest].
  solve_fields. apply jstrs_wf, Forall_forall. intros x Hx. apply (proj1 (proj2 (proj2 (sortedUnique_spec _)) x)) in Hx.
  apply list_elem_of_fmap in Hx as (m & -> & Hx). apply member_digest_units.
  by apply (proj1 (Forall_forall _ _) Hm).
Qed.

Lemma with_member_inv c m :
  content_inv c → record_wf m → is_observing (ec_status c) = true → admitted plan c m →
  find (same_revision m) (ec_members c) = None → validate_revision c m = Ok tt →
  content_inv (with_member c m).
Proof.
  intros Hc Hm Ho Had Hf Hv.
  destruct (observing_running (ec_status c)) as [Hn1 Hn2]; [by rewrite Ho|].
  destruct (running_inv _ Hc Hn1 Hn2) as [Ei Er]. apply no_revision_fresh in Hf.
  destruct Hc as [C1 C2 C3 C4 C5 C6 C7 C8 C9 C10 [V1 V2 V3 V4 V5]].
  pose proof (insert_member_perm (ec_members c) m) as Hp.
  unfold with_member. split; cbn [revised ec_clusterId ec_planId ec_planRevisionDigest ec_revision ec_status ec_lanes
    ec_members ec_duplicateCount ec_inventory ec_stoppedReason]; try done.
  - rewrite map_map, <-C2. apply map_ext. intros l. unfold lane_recorded. by case_bool_decide.
  - apply Forall_map. eapply Forall_impl; [exact C3|]. intros l. apply lane_recorded_ok.
  - rewrite Hp, map_app. apply NoDup_app. split_and!; [done| |apply NoDup_singleton].
    by intros x Hx ->%list_elem_of_singleton.
  - by apply ancestry_insert.
  - rewrite Hp. apply Forall_app_2; [done|]. constructor; [by eapply admitted_fits|constructor].
  - apply sort_by_sorted; intros; [apply locale_leb_total|by eapply locale_leb_trans].
  - intros i E. congruence.
  - rewrite (Permutation_length Hp), length_app. cbn [length]. lia.
  - split; cbn [revised ec_lanes ec_members]; try done.
    + apply Forall_map. eapply Forall_impl; [exact V2|]. intros l Hl. unfold lane_recorded.
      case_bool_decide; [by apply lane_record_wf|done].
    + rewrite Hp. apply Forall_app_2; [done|]. by constructor.
Qed.

Lemma lane_missing_step reason (test : LaneState → bool) c :
  (∀ l, test l = true → ls_status l = Lane_pending) → units_ok reason → content_inv c →
  let lanes := map (λ l, if test l then lane_missing reason l else l) (ec_lanes c) in
  map ls_lane lanes = map ls_lane (ec_lanes c) ∧ Forall (lane_ok (ec_members c)) lanes ∧
  Forall record_wf lanes.
Proof.
  intros Ht Hr Hc lanes.
  destruct (lanes_map_inv (λ l, lane_ok (ec_members c) l ∧ record_wf l)
    (λ l, if test l then lane_missing reason l else l) (ec_lanes c)) as [E1 E2].
  - intros l. by destruct (test l).
  - intros l [Hl Hw]. destruct (test l) eqn:E; [|done]. split; [apply lane_missing_ok; auto|].
    by apply lane_record_wf.
  - apply Forall_and. split; [apply Hc|apply (ci_values _ Hc)].
  - apply Forall_and in E2 as [E2 E3]. by split_and!.
Qed.

Lemma change_inv c op d :
  content_inv c → operation_wf op → change plan c op d → content_inv d.
Proof.
  intros Hc Hop Hd.
  assert (Hsame : map ls_lane (ec_lanes c) = map ls_lane (ec_lanes c) ∧
    Forall (lane_ok (ec_members c)) (ec_lanes c) ∧ Forall record_wf (ec_lanes c))
    by (split_and!; [done|apply Hc|apply (ci_values _ Hc)]).
  destruct Hsame as (_ & S2 & S3).
  destruct Hd as [status atMs t Hs|v m exact Ho Hm Had Hf Hsm|v m Ho Hm Had Hf Hv|lane reason atMs t Ho
    |atMs t i Hs Hdrift Ht Hi|reason atMs t Hs1 Hs2].
  - destruct (running_inv _ Hc) as [Ei Er]; [by intros E; rewrite E in Hs; apply elem_of_nil in Hs..|].
    apply revised_inv; try done; [lia|by rewrite Ei|by rewrite Er].
  - destruct (observing_running (ec_status c)) as [Hn1 Hn2]; [by rewrite Ho|].
    destruct (running_inv _ Hc Hn1 Hn2) as [Ei Er].
    apply revised_inv; try done; [lia|by rewrite Ei|by rewrite Er].
  - apply with_member_inv; try done. by eapply read_member_wf.
  - destruct (observing_running _ Ho) as [Hn1 Hn2]. destruct (running_inv _ Hc Hn1 Hn2) as [Ei Er].
    destruct (lane_missing_step reason
      (λ l, bool_decide (ls_lane l = lane) && bool_decide (ls_status l = Lane_pending)) c) as (E1 & E2 & E3);
      [by intros l; rewrite andb_true_iff, !bool_decide_eq_true; intros []|done|done|].
    apply revised_inv; try done; [lia|by rewrite Ei|by rewrite Er].
  - destruct (running_inv _ Hc) as [Ei Er]; [congruence..|].
    destruct (lane_missing_step (js "not-observed-before-settlement")
      (λ l, bool_decide (ls_status l = Lane_pending)) c) as (E1 & E2 & E3);
      [by intros l; rewrite bool_decide_eq_true|apply js_units|done|].
    apply revised_inv; try done; [lia| |by rewrite Er].
    intros j [= <-]. split_and!; [done| | |exact Hi].
    + apply Forall_map, Forall_forall. intros l _. unfold settled_lane. by case_bool_decide.
    + eapply inventory_wf, Hi. apply (ci_values _ Hc).
  - destruct (running_inv _ Hc Hs1 Hs2) as [Ei Er].
    apply revised_inv; try done; [lia|by rewrite Ei|by intros r [= <-]].
Qed.

Lemma operate_inv c op c' :
  event_cluster_inv c → operation_wf op → operate plan c op = Ok c' → event_cluster_inv c'.
Proof.
  intros Hc Hop (d & Hd & Hs)%operate_change. eapply seal_inv, Hs. eapply change_inv; [apply Hc|done|done].
Qed.

Lemma attempt_inv c op : event_cluster_inv c → operation_wf op → event_cluster_inv (attempt plan c op).
Proof.
  intros Hc Hop. unfold attempt. destruct (operate plan c op) as [c'|e] eqn:E; [|done]. by eapply operate_inv.
Qed.

Lemma attempts_inv c ops :
  event_cluster_inv c → Forall operation_wf ops → event_cluster_inv (foldl (attempt plan) c ops).
Proof.
  intros Hc Hops. revert c Hc. induction Hops as [|op ops Hop _ IH]; intros c Hc; [done|].
  cbn [foldl]. by apply IH, attempt_inv.
Qed.

(** ** Progress *)

Definition rank (s : EventClusterStatus) : Z :=
  match s with
  | Candidate => 0 | Prewarming => 1 | Frozen => 2 | Active => 3 | Primary_observed => 4
  | Follow_up => 5 | Settling => 6 | Complete | Stopped => 7
  end.

(** A lane that has been observed stays so, and counts at least as many members. *)
Definition lane_later (l l' : LaneState) : Prop :=
  ls_lane l' = ls_lane l ∧ ls_memberCount l <= ls_memberCount l' ∧
  (ls_status l = Lane_observed → ls_status l' = Lane_observed) ∧
  (ls_status l' = Lane_pending → ls_status l = Lane_pending).

Record event_cluster_later (c c' : EventCluster) : Prop := {
  el_identity : ec_clusterId c' = ec_clusterId c ∧ ec_planId c' = ec_planId c ∧
    ec_planRevisionDigest c' = ec_planRevisionDigest c;
  el_status : ec_status c' = ec_status c ∨ rank (ec_status c) < rank (ec_status c');
  el_final : ec_status c = Complete ∨ ec_status c = Stopped → c' = c;
  el_members : ec_members c ⊆+ ec_members c';
  el_lanes : Forall2 lane_later (ec_lanes c) (ec_lanes c');
  el_duplicates : ec_duplicateCount c <= ec_duplicateCount c';
  el_revision : ec_revision c <= ec_revision c' ∧ (ec_revision c' = ec_revision c → c' = c)
}.

#[export] Instance lane_later_preorder : PreOrder lane_later.
Proof.
  split.
  - intros l. split_and!; done || lia.
  - intros a b c (A1 & A2 & A3 & A4) (B1 & B2 & B3 & B4). split_and!; [congruence|lia|auto|auto].
Qed.

#[export] Instance event_cluster_later_preorder : PreOrder event_cluster_later.
Proof.
  split.
  - intros c. split; try done; try lia; by left.
  - intros a b c [(A1 & A2 & A3) A4 A5 A6 A7 A8 [A9 A10]] [(B1 & B2 & B3) B4 B5 B6 B7 B8 [B9 B10]]. split.
    + split_and!; congruence.
    + destruct A4 as [A4|A4], B4 as [B4|B4]; [left; congruence|right; by rewrite <-A4|right; by rewrite B4|right; lia].
    + intros Hf. rewrite (B5 ltac:(by rewrite (A5 Hf))). by apply A5.
    + by etrans.
    + eapply Forall2_trans; [|exact A7|exact B7]. intros x y z. apply transitivity.
    + lia.
    + split; [lia|]. intros E. rewrite (B10 ltac:(lia)). apply A10. lia.
Qed.

Lemma lanes_map_later (f : LaneState → LaneState) lanes :
  (∀ l, l ∈ lanes → lane_later l (f l)) → Forall2 lane_later lanes (map f lanes).
Proof.
  induction lanes as [|l lanes IH]; intros Hf; cbn [map]; constructor; [apply Hf; by left|].
  apply IH. intros x Hx. apply Hf. by right.
Qed.

Lemma status_after_rank kind status :
  is_observing status = true → status_after kind status = status ∨ rank status < rank (status_after kind status).
Proof. intros Ho. destruct status; vm_compute in Ho; try done; destruct kind; vm_compute; auto. Qed.

Lemma change_later c op d digest :
  content_inv c → change plan c op d → event_cluster_later c (sealed d digest).
Proof.
  intros Hc Hd.
  assert (Hlanes : Forall2 lane_later (ec_lanes c) (ec_lanes c)) by (induction (ec_lanes c); constructor; done).
  destruct Hd as [status atMs t Hs|v m exact Ho Hm Had Hf Hsm|v m Ho Hm Had Hf Hv|lane reason atMs t Ho
    |atMs t i Hs Hdrift Ht Hi|reason atMs t Hs1 Hs2];
    split; cbn [sealed with_member revised ec_clusterId ec_planId ec_planRevisionDigest ec_status ec_members
      ec_lanes ec_duplicateCount ec_revision]; try done; try lia; try (by left);
    try (intros [E|E]; rewrite E in *; done).
  all: try (split; [lia|intros; exfalso; lia]).
  - right. destruct (ec_status c); cbn in Hs;
      repeat (apply elem_of_cons in Hs as [->|Hs]; [cbn; lia|]); by apply elem_of_nil in Hs.
  - intros [E|E]; rewrite E in Hs; by apply elem_of_nil in Hs.
  - by apply status_after_rank.
  - rewrite insert_member_perm. by apply submseteq_inserts_r.
  - apply lanes_map_later. intros l Hl. unfold lane_recorded. case_bool_decide as E; [|done].
    pose proof (proj1 (Forall_forall _ _) (ci_counts _ Hc) l Hl) as Hok.
    pose proof (lane_recorded_ok _ m _ Hok) as Hok'. unfold lane_recorded in Hok'.
    rewrite bool_decide_eq_true_2 in Hok' by done. apply lo_count in Hok', Hok.
    cbn [ls_memberCount ls_lane] in Hok'. split_and!; cbn [ls_lane ls_memberCount ls_status]; try done.
    rewrite Hok, E. apply inj_le. rewrite (Permutation_length (filter_perm _ _ _ (insert_member_perm _ m))).
    rewrite List.filter_app, length_app. lia.
  - apply lanes_map_later. intros l _. clear Ho. destruct (bool_decide (ls_lane l = lane)); [|done].
    cbn [andb]; case_bool_decide as E; [|done]. split_and!; cbn [lane_missing ls_lane ls_memberCount ls_status]; try done.
    congruence.
  - rewrite Hs. right. cbn. lia.
  - apply lanes_map_later. intros l _. unfold settled_lane. case_bool_decide as E; [|done].
    split_and!; cbn [lane_missing ls_lane ls_memberCount ls_status]; try done. congruence.
  - right. destruct (ec_status c); cbn; try lia; done.
Qed.

Lemma attempt_later c op : event_cluster_inv c → event_cluster_later c (attempt plan c op).
Proof.
  intros [Hc _ _]. unfold attempt. destruct (operate plan c op) as [c'|e] eqn:E; [|done].
  apply operate_change in E as (d & Hd & (dg & -> & _)%withDigest_Ok). by eapply change_later.
Qed.

Lemma attempts_later c ops :
  event_cluster_inv c → Forall operation_wf ops → event_cluster_later c (foldl (attempt plan) c ops).
Proof.
  intros Hc Hops. revert c Hc. induction Hops as [|op ops Hop _ IH]; intros c Hc; [done|].
  cbn [foldl]. etrans; [by apply attempt_later|]. by apply IH, attempt_inv.
Qed.

(** ** Operations that succeed *)

Lemma content_wf c : cluster_values c → json_wf (JObj (cluster_content c)).
Proof.
  intros [(V1 & V2 & V3) V4 V5 V6 V7]. unfold cluster_content. solve_fields;
    first [assumption|by apply jlist_wf|by apply jnull_record_wf_iff|by apply jnull_str_wf_iff].
Qed.

Lemma withDigest_iff c :
  cluster_values c → (∃ c', withDigest c = Ok c') ↔ content_encodable c.
Proof.
  intros Hv%content_wf. rewrite <-content_encodable_iff. unfold withDigest. split.
  - intros (c' & Hc). apply res_bind_Ok in Hc as (s & Hs & _). by apply inertJsonSnapshot_spec in Hs as [? _].
  - intros He. rewrite (proj2 (inertJsonSnapshot_spec _ _ Hv) (conj He eq_refl)). cbn [mbind res_bind].
    eexists. rewrite (proj2 (canonicalHash_Ok (js "peas/event-cluster-state/v1") _ _)
      (conj (eq_trans (norm_encodable _) He) eq_refl)). reflexivity.
Qed.

Lemma inv_encodable c : event_cluster_inv c → content_encodable c.
Proof. intros [Hc Hs _]. apply withDigest_iff; [apply Hc|by exists c]. Qed.

(** A change whose content can be hashed is sealed. *)
Lemma sealed_change d : content_inv d → content_encodable d → ∃ g, withDigest d = Ok (sealed d g).
Proof.
  intros Hd He. destruct (proj2 (withDigest_iff d (ci_values _ Hd)) He) as (c' & Hc').
  destruct (withDigest_Ok _ _ Hc') as (g & -> & _). by exists g.
Qed.

Lemma drift_free c : content_inv c → plan_drift c plan = false.
Proof.
  intros [(E1 & E2 & _) _ _ _ _ _ _ _ _ _ _]. unfold plan_drift, same_string.
  by rewrite !bool_decide_eq_true_2.
Qed.

Lemma find_recorded members m :
  NoDup (map revision_of members) → m ∈ members → find (same_revision m) members = Some m.
Proof.
  intros Hnd Hm. destruct (find (same_revision m) members) as [m'|] eqn:Hf.
  - apply find_elem in Hf as [Hm' Hs]. f_equal. unfold same_revision, same_record, same_string in Hs.
    bool_prop. apply list_elem_of_lookup in Hm as [i Hi]. apply list_elem_of_lookup in Hm' as [j Hj].
    assert (E : i = j); [|congruence].
    eapply (NoDup_lookup (map revision_of members)); [exact Hnd| |].
    + change (map revision_of members) with (revision_of <$> members). rewrite list_lookup_fmap, Hi. reflexivity.
    + change (map revision_of members) with (revision_of <$> members). rewrite list_lookup_fmap, Hj.
      cbn [fmap option_fmap option_map]. unfold revision_of. congruence.
  - apply no_revision_fresh in Hf. destruct Hf. by apply list_elem_of_fmap_2.
Qed.

Lemma same_text_refl v : encodable v = true → same_text v v = Ok true.
Proof.
  intros He. unfold same_text, canonicalJson. rewrite (proj2 (encode_spec _ _) (conj He eq_refl)).
  cbn [mbind res_bind]. by rewrite bool_decide_eq_true_2.
Qed.

Lemma next_safe z : 0 <= z < MAX_SAFE_INTEGER → is_safe_integer (z + 1) = true.
Proof. intros Hz. apply is_safe_integer_spec. unfold MAX_SAFE_INTEGER in *. lia. Qed.

Lemma member_encodable c m :
  event_cluster_inv c → m ∈ ec_members c →
  encodable (to_json m) = true ∧ is_safe_integer (mb_retrievedAtMs m) = true.
Proof.
  intros Hc Hm. pose proof (ce_members _ (inv_encodable _ Hc)) as He. unfold jlist in He. cbn [encodable] in He.
  assert (Hj : encodable (to_json m) = true).
  { eapply forallb_elem in He; [exact He|]. by apply list_elem_of_fmap_2. }
  split; [done|]. assert (Hf : encodable (jint (mb_retrievedAtMs m)) = true); [|exact Hf].
  eapply (encodable_field (member_fields m) (js "retrievedAtMs")); [exact Hj|].
  unfold member_fields. solve_elem.
Qed.

(** The encodings of a change that replaces the status, the lanes and the counters. *)
Lemma revised_encodable c status lanes n inventory reason t :
  event_cluster_inv c → ec_revision c < MAX_SAFE_INTEGER → encodable (jlist lanes) = true →
  ec_duplicateCount c <= n <= ec_duplicateCount c + 1 → is_safe_integer t = true →
  encodable (jnull to_json inventory) = true → encodable (jnull JStr reason) = true →
  content_encodable (revised c status lanes (ec_members c) n inventory reason t).
Proof.
  intros Hc Hrev Hl Hn Ht Hi Hr. pose proof (inv_encodable _ Hc) as [E1 (E2 & E3 & E4) E5 E6 E7 E8].
  pose proof (ci_counters _ (ev_content _ Hc)) as Hcnt.
  split; cbn [revised ec_clusterId ec_planId ec_planRevisionDigest ec_revision ec_lanes ec_members
    ec_duplicateCount ec_inventory ec_stoppedReason ec_updatedAtMs]; try done.
  split_and!; [apply next_safe; lia| |done]. apply is_safe_integer_spec in E2. apply is_safe_integer_spec. lia.
Qed.

Lemma redelivery_succeeds c v m :
  event_cluster_inv c → read_member v m → m ∈ ec_members c → is_observing (ec_status c) = true →
  ec_revision c < MAX_SAFE_INTEGER →
  ∃ g, recordEventClusterMember c plan v = Ok (sealed (revised c (ec_status c) (ec_lanes c) (ec_members c)
    (ec_duplicateCount c + 1) (ec_inventory c) (ec_stoppedReason c) (mb_retrievedAtMs m)) g).
Proof.
  intros Hc Hv Hm Ho Hrev. destruct (member_encodable _ _ Hc Hm) as [He Ht].
  pose proof (proj1 (Forall_forall _ _) (ci_members _ (ev_content _ Hc)) m Hm) as [F1 _ _ _ _ F6 [F7 F8]].
  pose proof (inv_encodable _ Hc) as [_ _ E3 _ E5 E6].
  destruct (sealed_change (revised c (ec_status c) (ec_lanes c) (ec_members c)
    (ec_duplicateCount c + 1) (ec_inventory c) (ec_stoppedReason c) (mb_retrievedAtMs m))) as (g & Hg).
  { destruct (observing_running (ec_status c)) as [N1 N2]; [by rewrite Ho|].
    destruct (running_inv _ (ev_content _ Hc) N1 N2) as [Ei Er].
    apply revised_inv; [apply Hc|done|apply Hc|apply (ci_values _ (ev_content _ Hc))|lia|by rewrite Ei|by rewrite Er]. }
  { apply revised_encodable; try done. lia. }
  exists g. unfold recordEventClusterMember. rewrite Ho. cbn [negb mbind res_bind throw_if].
  unfold read_member in Hv. rewrite Hv. cbn [mbind res_bind].
  rewrite (bool_decide_eq_true_2 _ F1). cbn [negb throw_if mbind res_bind].
  rewrite F6 by by apply drift_free, Hc. cbn [mbind res_bind].
  rewrite (proj2 (Z.ltb_ge _ _) F7). cbn [throw_if mbind res_bind].
  replace (match mb_publicationOrAcceptanceAtMs m with
    | Some published => mb_firstObservedAtMs m <? published | None => false end) with false
    by (destruct (mb_publicationOrAcceptanceAtMs m); [symmetry; by apply Z.ltb_ge|done]).
  cbn [throw_if mbind res_bind].
  rewrite (find_recorded _ _ (ci_distinct _ (ev_content _ Hc)) Hm), same_text_refl by done.
  cbn [negb throw_if mbind res_bind]. exact Hg.
Qed.

(** ** Settlement *)

(** What the inventory of a cluster lists. *)
Record inventory_of_members (c : EventCluster) (i : ClusterInventory) : Prop := {
  im_digests : ∀ d, d ∈ iv_memberDigests i ↔ ∃ m, m ∈ ec_members c ∧ mb_artifactDigest m = d;
  im_once : NoDup (iv_memberDigests i) ∧ StronglySorted (λ a b, js_leb a b = true) (iv_memberDigests i);
  im_missing : ∀ lane, lane ∈ iv_missingLanes i ↔ ∀ m, m ∈ ec_members c → mb_lane m ≠ lane;
  im_duplicates : iv_duplicateCount i = ec_duplicateCount c
}.

Lemma lane_status_count c l :
  content_inv c → l ∈ ec_lanes c → ls_status l ≠ Lane_pending →
  ls_status l = Lane_stable_missing ↔ ∀ m, m ∈ ec_members c → mb_lane m ≠ ls_lane l.
Proof.
  intros Hc Hl Hs. pose proof (proj1 (Forall_forall _ _) (ci_counts _ Hc) l Hl) as [L1 L2 _ L4].
  assert (Hcase : ls_status l = Lane_stable_missing ↔ ls_memberCount l <= 0).
  { split; [|intros; destruct (ls_status l); try done; pose proof (proj1 L2 eq_refl); lia].
    intros E. destruct (decide (0 < ls_memberCount l)) as [H'%L2|]; [congruence|lia]. }
  rewrite Hcase, L1. split.
  - intros Hz m Hm E. assert (Hin : m ∈ List.filter (λ m, bool_decide (mb_lane m = ls_lane l)) (ec_members c)).
    { apply list_elem_of_In, filter_In. rewrite <-list_elem_of_In. split; [done|by apply bool_decide_eq_true]. }
    destruct (List.filter _ _); [by apply elem_of_nil in Hin|]. cbn [length] in Hz. lia.
  - intros Hno. destruct (List.filter _ _) as [|m r] eqn:E; [done|]. exfalso.
    assert (Hin : m ∈ List.filter (λ m, bool_decide (mb_lane m = ls_lane l)) (ec_members c)) by (rewrite E; by left).
    apply list_elem_of_In, filter_In in Hin. rewrite <-list_elem_of_In, bool_decide_eq_true in Hin.
    by destruct Hin as [Hin E']; destruct (Hno m Hin).
Qed.

Lemma inventory_exact c i : content_inv c → ec_inventory c = Some i → inventory_of_members c i.
Proof.
  intros Hc Hi. destruct (ci_inventory _ Hc i Hi) as (_ & Hp & Hs). unfold sealed_inventory in Hs.
  apply res_bind_Ok in Hs as (w & _ & Hs). apply res_bind_Ok in Hs as (d & _ & Hs). apply Ok_inj in Hs as <-.
  destruct (sortedUnique_spec (map mb_artifactDigest (ec_members c))) as (U1 & U2 & U3).
  split; cbn [drafted_inventory iv_memberDigests iv_missingLanes iv_duplicateCount]; try done.
  - intros x. rewrite U3, list_elem_of_fmap. naive_solver.
  - intros lane. rewrite elem_of_sort_by, list_elem_of_fmap. split.
    + intros (l & -> & Hl). apply list_elem_of_In, filter_In in Hl. rewrite <-list_elem_of_In in Hl.
      destruct Hl as [Hl Hst%bool_decide_eq_true]. apply (lane_status_count c l Hc Hl); [|done].
      by apply (proj1 (Forall_forall _ _) Hp).
    + intros Hno. assert (Hlane : lane ∈ map ls_lane (ec_lanes c)) by (rewrite (ci_lanes _ Hc); destruct lane; solve_elem).
      apply list_elem_of_fmap in Hlane as (l & -> & Hl). exists l. split; [done|].
      apply list_elem_of_In, filter_In. rewrite <-list_elem_of_In. split; [done|].
      apply bool_decide_eq_true, (lane_status_count c l Hc Hl); [|done].
      by apply (proj1 (Forall_forall _ _) Hp).
Qed.

Lemma lanes_encodable lanes :
  encodable (jlist lanes) = true ↔ ∀ l, l ∈ lanes →
    is_safe_integer (ls_memberCount l) = true ∧ encodable (jnull JStr (ls_stableMissingReason l)) = true.
Proof.
  unfold jlist. cbn [encodable]. rewrite forallb_forall. setoid_rewrite <-list_elem_of_In.
  assert (Hl : ∀ l, encodable (to_json l) = true ↔ is_safe_integer (ls_memberCount l) = true ∧
    encodable (jnull JStr (ls_stableMissingReason l)) = true).
  { intros l. change (to_json l) with (JObj (map (λ f : string * json, (js f.1, f.2))
      [("lane", jenum (ls_lane l)); ("status", jenum (ls_status l)); ("memberCount", jint (ls_memberCount l));
       ("stableMissingReason", jnull JStr (ls_stableMissingReason l))]%string)).
    rewrite encodable_fields by (by vm_compute). cbn [forallb snd].
    assert (E1 : encodable (jenum (ls_lane l)) = true) by (destruct (ls_lane l); by vm_compute).
    assert (E2 : encodable (jenum (ls_status l)) = true) by (destruct (ls_status l); by vm_compute).
    rewrite E1, E2, !andb_true_iff. cbn [encodable jint is_safe_number]. tauto. }
  split.
  - intros Hv l Hin. apply Hl, Hv. by apply list_elem_of_fmap_2.
  - intros Hv v (l & -> & Hin)%list_elem_of_fmap. by apply Hl, Hv.
Qed.

Lemma missing_lanes_encodable reason (test : LaneState → bool) lanes :
  encodable (JStr reason) = true → encodable (jlist lanes) = true →
  encodable (jlist (map (λ l, if test l then lane_missing reason l else l) lanes)) = true.
Proof.
  intros Hr Hl. apply lanes_encodable. intros l' (l & -> & Hin)%list_elem_of_fmap.
  destruct (proj1 (lanes_encodable lanes) Hl l Hin) as [E1 E2]. by destruct (test l).
Qed.

Lemma member_digests_encodable c :
  event_cluster_inv c → encodable (jstrs (sortedUnique (map mb_artifactDigest (ec_members c)))) = true ∧
    json_wf (jstrs (sortedUnique (map mb_artifactDigest (ec_members c)))).
Proof.
  intros Hc.
  assert (Hall : ∀ x, x ∈ sortedUnique (map mb_artifactDigest (ec_members c)) →
    encodable (JStr x) = true ∧ units_ok x).
  { intros x Hx. apply (proj1 (proj2 (proj2 (sortedUnique_spec _)) x)) in Hx.
    apply list_elem_of_fmap in Hx as (m & -> & Hm). destruct (member_encodable _ _ Hc Hm) as [He _]. split.
    - eapply (encodable_field (member_fields m) (js "artifactDigest")); [exact He|].
      unfold member_fields. solve_elem.
    - apply member_digest_units. by apply (proj1 (Forall_forall _ _) (cv_members _ (ci_values _ (ev_content _ Hc)))). }
  split.
  - unfold jstrs. cbn [encodable]. apply forallb_forall. intros v Hv. apply list_elem_of_In in Hv.
    apply list_elem_of_fmap in Hv as (x & -> & Hx). by apply Hall.
  - apply jstrs_wf, Forall_forall. intros x Hx. by apply Hall.
Qed.

Lemma lane_names_encodable (ls : list EventClusterLane) : encodable (jenums ls) = true.
Proof.
  unfold jenums, jstrs. cbn [encodable]. apply forallb_forall. intros v Hv. apply list_elem_of_In in Hv.
  apply list_elem_of_fmap in Hv as (x & -> & Hx). apply list_elem_of_fmap in Hx as (l & -> & _).
  destruct l; by vm_compute.
Qed.

Lemma settlement_sealed c :
  event_cluster_inv c → ∃ i, sealed_inventory (drafted_inventory c (map settled_lane (ec_lanes c))) = Ok i ∧
    encodable (to_json i) = true.
Proof.
  intros Hc. pose proof (inv_encodable _ Hc) as [_ (_ & E2 & _) _ _ _ _].
  destruct (member_digests_encodable _ Hc) as [Hd Hdw].
  set (dr := drafted_inventory c (map settled_lane (ec_lanes c))).
  pose proof (lane_names_encodable (iv_missingLanes dr)) as Hl.
  assert (He : encodable (JObj (inventory_content dr)) = true).
  { change (inventory_content dr) with (map (λ f : string * json, (js f.1, f.2))
      [("memberDigests", jstrs (iv_memberDigests dr)); ("missingLanes", jenums (iv_missingLanes dr));
       ("duplicateCount", jint (iv_duplicateCount dr))]%string).
    rewrite encodable_fields by (by vm_compute). cbn [forallb snd]. rewrite Hl.
    rewrite andb_true_r. by apply andb_true_iff. }
  assert (Hw : json_wf (JObj (inventory_content dr))) by (unfold inventory_content; solve_fields).
  unfold sealed_inventory. rewrite (proj2 (inertJsonSnapshot_spec _ _ Hw) (conj He eq_refl)).
  cbn [mbind res_bind].
  rewrite (proj2 (canonicalHash_Ok (js "peas/event-cluster-inventory/v1") _ _)
    (conj (eq_trans (norm_encodable _) He) eq_refl)).
  cbn [mbind res_bind]. eexists. split; [reflexivity|].
  match goal with |- encodable (to_json {| iv_inventoryDigest := ?d |}) = true =>
    change (encodable (JObj (inventory_content dr ++ [(js "inventoryDigest", JStr d)])) = true) end.
  cbn [encodable] in He |- *. rewrite forallb_app, He. cbn [forallb snd fst andb].
  rewrite andb_true_r. apply andb_true_iff. split; [by vm_compute|].
  apply is_ok_low, is_hash_units, sha256_hex.
Qed.

Lemma epoch_arg_safe atMs t : epoch_arg atMs = Ok t → is_safe_integer t = true.
Proof.
  unfold epoch_arg. intros Ht. apply res_bind_Ok in Ht as (u & Hp & Ht). apply parse_Ok in Hp as [Hp _].
  destruct atMs as [z| |]; try done. apply Ok_inj in Ht as <-. cbn in Hp. by bool_prop.
Qed.

(** [settleEventCluster] on a reachable cluster, at a valid time. *)
Lemma settlement_spec c atMs t :
  event_cluster_inv c → ec_revision c < MAX_SAFE_INTEGER → epoch_arg atMs = Ok t →
  (∃ c', settleEventCluster c plan atMs = Ok c') ↔
    ec_status c = Settling ∧ pw_settlementEndMs (ep_windows plan) <= t.
Proof.
  intros Hc Hrev Ht. split.
  - intros (c' & Hs). assert (Ho : operate plan c (Op_settle atMs) = Ok c') by exact Hs.
    apply operate_change in Ho as (d & Hd & _). inversion Hd; subst.
    unfold settleEventCluster in Hs. rewrite Ht in Hs. cbn [mbind res_bind] in Hs.
    apply res_bind_Ok in Hs as (u & _ & Hs). apply res_bind_Ok in Hs as (u1 & Hs1 & _).
    apply throw_if_Ok, Z.ltb_ge in Hs1. done.
  - intros [Hst Hend]. destruct (settlement_sealed _ Hc) as (i & Hi & Hie).
    pose proof (inv_encodable _ Hc) as [_ _ E3 _ _ E6].
    destruct (sealed_change (revised c Complete (map settled_lane (ec_lanes c)) (ec_members c)
      (ec_duplicateCount c) (Some i) (ec_stoppedReason c) t)) as (g & Hg).
    + eapply (change_inv c (Op_settle atMs)); [apply Hc|done|]. apply Changed_settled; try done.
      by apply drift_free, Hc.
    + apply revised_encodable; try done; [|lia|].
      * by apply missing_lanes_encodable.
      * by eapply epoch_arg_safe.
    + exists (sealed (revised c Complete (map settled_lane (ec_lanes c)) (ec_members c)
        (ec_duplicateCount c) (Some i) (ec_stoppedReason c) t) g).
      unfold settleEventCluster. rewrite Ht. cbn [mbind res_bind].
      rewrite drift_free by apply Hc. rewrite (proj2 (Z.ltb_ge _ _) Hend).
      rewrite (bool_decide_eq_true_2 _ Hst). cbn [negb throw_if mbind res_bind].
      change (mbind (M := res) ?f (Ok ?u)) with (f u). cbn beta. rewrite Hi. cbn [mbind res_bind]. exact Hg.
Qed.

(** ** Transitions that succeed *)

Lemma transition_succeeds c status atMs t :
  event_cluster_inv c → ec_revision c < MAX_SAFE_INTEGER → epoch_arg atMs = Ok t →
  status ∈ transitions (ec_status c) →
  ∃ g, transitionEventCluster c status atMs = Ok (sealed (revised c status (ec_lanes c) (ec_members c)
    (ec_duplicateCount c) (ec_inventory c) (ec_stoppedReason c) t) g).
Proof.
  intros Hc Hrev Ht Hs.
  assert (Hch : change plan c (Op_transition status atMs) (revised c status (ec_lanes c) (ec_members c)
    (ec_duplicateCount c) (ec_inventory c) (ec_stoppedReason c) t)) by by apply Changed_transition.
  destruct (sealed_change _ (change_inv c (Op_transition status atMs) _ (ev_content _ Hc) I Hch)) as (g & Hg).
  { pose proof (inv_encodable _ Hc) as [_ _ E3 _ E5 E6]. apply revised_encodable; try done; [lia|].
    by eapply epoch_arg_safe. }
  exists g. unfold transitionEventCluster. rewrite Ht. cbn [mbind res_bind].
  rewrite bool_decide_eq_true_2 by done. exact Hg.
Qed.

(** Some [n] operations at most settle the cluster. *)
Definition settles (n : nat) (c : EventCluster) : Prop :=
  ∃ ops, Forall operation_wf ops ∧ (length ops <= n)%nat ∧
    ec_status (foldl (attempt plan) c ops) = Complete ∧ ec_inventory (foldl (attempt plan) c ops) ≠ None.

Lemma settling_settles c atMs t :
  event_cluster_inv c → ec_revision c < MAX_SAFE_INTEGER → epoch_arg atMs = Ok t →
  pw_settlementEndMs (ep_windows plan) <= t → ec_status c = Settling → settles 1 c.
Proof.
  intros Hc Hrev Ht Hend Hs. exists [Op_settle atMs].
  destruct (proj2 (settlement_spec c atMs t Hc Hrev Ht) (conj Hs Hend)) as (c' & Hc').
  assert (Ho : operate plan c (Op_settle atMs) = Ok c') by exact Hc'.
  cbn [foldl]. unfold attempt. rewrite Ho. apply operate_change in Ho as (d & Hd & Hsd).
  apply withDigest_Ok in Hsd as (g & -> & _). inversion Hd; subst.
  split_and!; [by apply Forall_singleton|done|done|done].
Qed.

Lemma transition_settles n c status atMs t :
  event_cluster_inv c → ec_revision c < MAX_SAFE_INTEGER → epoch_arg atMs = Ok t →
  status ∈ transitions (ec_status c) →
  (∀ c', event_cluster_inv c' → ec_status c' = status → ec_revision c' = ec_revision c + 1 → settles n c') →
  settles (S n) c.
Proof.
  intros Hc Hrev Ht Hs Hn. destruct (transition_succeeds c status atMs t Hc Hrev Ht Hs) as (g & Hg).
  destruct (Hn _ (operate_inv c (Op_transition status atMs) _ Hc I Hg) eq_refl eq_refl) as (ops & O1 & O2 & O3 & O4).
  exists (Op_transition status atMs :: ops). cbn [foldl length].
  assert (E : attempt plan c (Op_transition status atMs) = sealed (revised c status (ec_lanes c) (ec_members c)
    (ec_duplicateCount c) (ec_inventory c) (ec_stoppedReason c) t) g) by (unfold attempt; cbn [operate]; by rewrite Hg).
  rewrite E. split_and!; [by constructor|lia|done|done].
Qed.

Lemma running_settles c atMs t :
  event_cluster_inv c → ec_revision c + 5 <= MAX_SAFE_INTEGER → epoch_arg atMs = Ok t →
  pw_settlementEndMs (ep_windows plan) <= t → ec_status c ≠ Complete → ec_status c ≠ Stopped → settles 5 c.
Proof.
  intros Hc Hrev Ht Hend H1' H2'.
  assert (W : ∀ n m c, settles n c → (n <= m)%nat → settles m c).
  { intros n m d (ops & O1 & O2 & O3) Hnm. exists ops. split_and!; [done|lia|apply O3..]. }
  assert (S1 : ∀ c, event_cluster_inv c → ec_revision c + 1 <= MAX_SAFE_INTEGER → ec_status c = Settling → settles 1 c).
  { intros d Hd Hr Hs. eapply settling_settles; try done. lia. }
  assert (S2 : ∀ c, event_cluster_inv c → ec_revision c + 2 <= MAX_SAFE_INTEGER →
    is_observing (ec_status c) = true → settles 2 c).
  { intros d Hd Hr Hs. eapply (transition_settles _ _ Settling); try done; [lia| |intros; apply S1; try done; lia].
    destruct (ec_status d); try done; solve_elem. }
  assert (S3 : ∀ c, event_cluster_inv c → ec_revision c + 3 <= MAX_SAFE_INTEGER → ec_status c = Frozen → settles 3 c).
  { intros d Hd Hr Hs. eapply (transition_settles _ _ Active); try done; [lia|rewrite Hs; solve_elem|].
    intros d' Hd' Es Er. apply S2; [done|lia|by rewrite Es]. }
  assert (S4 : ∀ c, event_cluster_inv c → ec_revision c + 4 <= MAX_SAFE_INTEGER → ec_status c = Prewarming → settles 4 c).
  { intros d Hd Hr Hs. eapply (transition_settles _ _ Frozen); try done; [lia|rewrite Hs; solve_elem|].
    intros d' Hd' Es Er. apply S3; [done|lia|done]. }
  destruct (ec_status c) eqn:Es; try done.
  - eapply (transition_settles _ _ Prewarming); try done; [lia|rewrite Es; solve_elem|].
    intros d' Hd' Es' Er. apply S4; [done|lia|done].
  - eapply W; [apply S4; [done|lia|done]|lia].
  - eapply W; [apply S3; [done|lia|done]|lia].
  - eapply W; [apply S2; [done|lia|by rewrite Es]|lia].
  - eapply W; [apply S2; [done|lia|by rewrite Es]|lia].
  - eapply W; [apply S2; [done|lia|by rewrite Es]|lia].
  - eapply W; [apply S1; [done|lia|done]|lia].
Qed.
End invariant.
