(* ===== verification/EventClusterRecovery.v ===== *)
(** * Recovery of event clusters ([src/application/event-cluster-runtime-recovery.ts])

    A run checkpoints its cluster by appending a snapshot to the event log; after a
    restart it reads the log, takes the latest snapshot of its plan and goes on with the
    lanes that are still pending. *)
From S2P Require Import Prelude JsString JsNumber Json JsonLimits JsonParse JsonClaims Hash Zod.
From S2P Require Import JsonObject Event EventFacts EventLog Codec Records Evidence SecContracts.
From S2P Require Import EventPlan EventClusterBeta.

Inductive RunClassification : Type := Run_complete | Run_stopped | Run_incomplete.

#[export] Instance RunClassification_eq_dec : EqDecision RunClassification.
Proof. solve_decision. Defined.

(** The cluster is the object found in the log. *)
Record RecoveredEventClusterRun : Type := {
  rr_cluster : jobject;
  rr_classification : RunClassification;
  rr_completedLanes : list EventClusterLane;
  rr_pendingLanes : list EventClusterLane
}.

(** [object.key === text] *)
Definition field_is (kvs : jobject) (key : jsstring) (text : jsstring) : bool :=
  match lookup_key key kvs with Some (JStr s) => same_string s text | _ => false end.

Definition classify (cluster : jobject) : RunClassification :=
  if field_is cluster (js "status") (js "complete") then Run_complete
  else if field_is cluster (js "status") (js "stopped") then Run_stopped
  else Run_incomplete.

(** [lanes.find((candidate) => candidate.lane === lane)?.status], compared with a text. *)
Fixpoint lane_in (lane : EventClusterLane) (candidates : list json) : res (option jobject) :=
  match candidates with
  | [] => Ok None
  | JNull :: _ => Throw (TypeError "Cannot read properties of null")
  | JObj kvs :: rest =>
      if field_is kvs (js "lane") (enum_name lane) then Ok (Some kvs) else lane_in lane rest
  | _ :: rest => lane_in lane rest
  end.

Definition lane_has_status (cluster : jobject) (statuses : list LaneStatus) (lane : EventClusterLane) :
    res bool :=
  match lookup_key (js "lanes") cluster with
  | Some (JArr candidates) =>
      let* found := lane_in lane candidates in
      Ok (match found with
          | Some kvs => existsb (λ s, field_is kvs (js "status") (enum_name s)) statuses
          | None => false
          end)
  | _ => Throw (TypeError "lanes.find is not a function")
  end.

(** [EVENT_CLUSTER_LANES.filter(test)] with a test that may throw. *)
Fixpoint res_filter {A} (test : A → res bool) (l : list A) : res (list A) :=
  match l with
  | [] => Ok []
  | x :: l =>
      let* keep := test x in
      let* rest := res_filter test l in
      Ok (if keep : bool then x :: rest else rest)
  end.

(** A snapshot whose cluster names the plan. *)
Definition in_scope (plan : EventPlan) (e : EventDraft) : bool :=
  same_string (d_type e) (js "event-cluster.snapshot") &&
  match lookup_key (js "cluster") (d_payload e) with
  | Some (JObj kvs) => field_is kvs (js "planId") (ep_planId plan)
  | _ => false
  end.

Section recovery.
Context `{Sha256} `{Zod}.

Definition recoverEventClusterRun (events : list StoredEvent) (plan : EventPlan) :
    res RecoveredEventClusterRun :=
  let scopedEvents := List.filter (λ e : StoredEvent, in_scope plan e) events in
  let* cluster := latestEventClusterSnapshot scopedEvents in
  guard! negb (field_is cluster (js "planId") (ep_planId plan)) ||
         negb (field_is cluster (js "planRevisionDigest") (ep_revisionDigest plan))
    throws BetaError "event-cluster.plan-identity-drift" ;;
  let classification := classify cluster in
  let* completedLanes :=
    res_filter (lane_has_status cluster [Lane_observed; Lane_stable_missing]) EVENT_CLUSTER_LANES in
  let* pendingLanes :=
    (if bool_decide (classification = Run_incomplete)
     then res_filter (lane_has_status cluster [Lane_pending]) EVENT_CLUSTER_LANES
     else Ok []) in
  Ok {| rr_cluster := cluster; rr_classification := classification;
        rr_completedLanes := completedLanes; rr_pendingLanes := pendingLanes |}.

(** The loop that reads the log, [None] when the fuel runs out. *)
Fixpoint read_log {S} `{!EventLog S} (eventLog : S) (fuel : nat) (events : list StoredEvent)
    (cursor : jsstring) : option (res (list StoredEvent)) :=
  match fuel with
  | O => None
  | S fuel =>
      match log_readAfter eventLog cursor (NInt 1000) with
      | Throw e => Some (Throw e)
      | Ok page =>
          let events := events ++ pg_events page in
          if negb (pg_hasMore page) then Some (Ok events)
          else if same_string (pg_nextPosition page) cursor
          then Some (Throw (BetaError "event-cluster.snapshot-invalid"))
          else read_log eventLog fuel events (pg_nextPosition page)
      end
  end.

Definition recoverEventClusterRunFromLog {S} `{!EventLog S} (eventLog : S) (fuel : nat)
    (plan : EventPlan) : option (res RecoveredEventClusterRun) :=
  match read_log eventLog fuel [] (js "0") with
  | Some events => Some (let* events := events in recoverEventClusterRun events plan)
  | None => None
  end.

Definition shouldAcquireRecoveredLane (run : RecoveredEventClusterRun) (lane : EventClusterLane) : bool :=
  bool_decide (rr_classification run = Run_incomplete) && bool_decide (lane ∈ rr_pendingLanes run).

Definition checkpointEventClusterRun {S} `{!EventLog S} (cluster : EventCluster) (nowMs : jsnum) :
    sm S AppendResult :=
  sm! draft := sm_lift (eventClusterSnapshotDraft cluster) in
  log_append (draft_json draft) nowMs.

Definition settleRecoveredEventClusterRun (cluster : EventCluster) (plan : EventPlan) (atMs : jsnum) :
    res EventCluster :=
  guard! plan_drift cluster plan throws BetaError "event-cluster.plan-identity-drift" ;;
  if bool_decide (ec_status cluster = Complete) then Ok cluster
  else if bool_decide (ec_status cluster = Stopped)
  then Throw (BetaError "event-cluster.already-terminal")
  else
    let* settling := (if bool_decide (ec_status cluster = Settling) then Ok cluster
                      else transitionEventCluster cluster Settling atMs) in
    settleEventCluster settling plan atMs.
End recovery.
