(* ===== verification/EventClusterLog.v ===== *)
(** * Checkpoints of event clusters in the log

    The log keeps the snapshots of a cluster in the order they were written, and the
    latest one is read back as the cluster it was taken of. *)
From S2P Require Import Prelude JsString JsNumber Json JsonLimits JsonParse JsonClaims.
From S2P Require Import Hash Zod JsonObject Event EventFacts EventChain EventLog.
From S2P Require Import EventLogFacts Codec Records Evidence SecContracts.
From S2P Require Import EventPlan EventPlanFacts EventClusterBeta EventClusterFacts.
From S2P Require Import EventClusterRecovery.

#[local] Arguments js : simpl never.
#[local] Arguments jint : simpl never.
#[local] Arguments jnull : simpl never.
#[local] Arguments jenum : simpl never.
#[local] Arguments to_json : simpl never.

(** ** Sorting *)

Lemma insert_by_last {A} (leb : A → A → bool) y x l :
  last l = Some x → leb y x = true → last (insert_by leb y l) = Some x.
Proof.
  induction l as [|z l IH]; [done|]. intros Hl Hy. cbn [insert_by].
  destruct (leb y z) eqn:E; [by rewrite last_cons, Hl|].
  destruct l as [|w l]; [cbn in Hl; injection Hl as ->; congruence|].
  rewrite last_cons. rewrite last_cons in Hl.
  rewrite IH; [done| |done]. destruct (last (w :: l)) eqn:El; [done|].
  by apply last_None in El.
Qed.

Lemma sort_by_last {A} (leb : A → A → bool) l x :
  (∀ y, y ∈ l → leb y x = true) → last (sort_by leb (l ++ [x])) = Some x.
Proof.
  intros Hl. induction l as [|y l IH]; [done|]. change (last (insert_by leb y (sort_by leb (l ++ [x]))) = Some x).
  apply insert_by_last; [apply IH; intros; apply Hl; by right|apply Hl; by left].
Qed.

(** ** The object of a snapshot *)

Lemma norm_filter_entries (p : jsstring → bool) kvs :
  NoDup (fst <$> kvs) →
  norm (JObj (List.filter (λ kv, p kv.1) (norm_entries kvs))) = norm (JObj (List.filter (λ kv, p kv.1) kvs)).
Proof.
  intros Hnd. rewrite !norm_obj. f_equal.
  assert (Hf : ∀ l : jobject, map (λ kv, (kv.1, norm kv.2)) (List.filter (λ kv, p kv.1) l) =
    List.filter (λ kv, p kv.1) (map (λ kv, (kv.1, norm kv.2)) l)).
  { induction l as [|kv l IH]; [done|]. cbn [List.filter map fst]. destruct (p kv.1); cbn [map]; by rewrite IH. }
  assert (Hn : ∀ l : jobject, map (λ kv, (kv.1, norm kv.2)) (map (λ kv, (kv.1, norm kv.2)) l) =
    map (λ kv, (kv.1, norm kv.2)) l).
  { intros l. rewrite map_map. apply map_ext. intros kv. cbn [fst snd]. by rewrite norm_idemp. }
  assert (Hp : map (λ kv, (kv.1, norm kv.2)) (List.filter (λ kv, p kv.1) (norm_entries kvs)) ≡ₚ
    map (λ kv, (kv.1, norm kv.2)) (List.filter (λ kv, p kv.1) kvs)).
  { unfold norm_entries. rewrite (filter_perm _ _ _ (sort_by_perm key_le _)), <-Hf, Hn. done. }
  assert (Hkeys : NoDup (fst <$> map (λ kv : jsstring * json, (kv.1, norm kv.2)) (List.filter (λ kv, p kv.1) kvs))).
  { rewrite map_fst_norm. clear -Hnd. induction kvs as [|kv kvs IH]; [constructor|].
    apply NoDup_cons in Hnd as [Hn Hnd]. cbn [List.filter]. destruct (p kv.1); [|by apply IH].
    apply NoDup_cons. split; [|by apply IH]. intros (x & E & Hx)%list_elem_of_fmap. apply Hn.
    apply list_elem_of_fmap. exists x. split; [done|]. apply list_elem_of_In, filter_In in Hx as [Hx _].
    by apply list_elem_of_In. }
  unfold norm_entries at 1 3. apply sort_by_perm_eq; [apply key_le_total|apply key_le_trans| |exact Hp].
  intros a b Ha Hb Hab Hba. rewrite Hp in Ha, Hb. eapply key_le_antisym; eauto.
Qed.

Section snapshots.
Context `{Sha256} `{Zod} `{Locale} (plan : EventPlan).

(** The object of a cluster, as a snapshot holds it. *)
Definition snapshot_object (c : EventCluster) : jobject := norm_entries (event_cluster_fields c).

Lemma cluster_fields_nodup c : NoDup (fst <$> event_cluster_fields c).
Proof. apply (bool_decide_unpack _). by vm_compute. Qed.

Lemma snapshot_field c k v :
  lookup_key k (event_cluster_fields c) = Some v → lookup_key k (snapshot_object c) = Some (norm v).
Proof. intros Hk. unfold snapshot_object. by rewrite lookup_key_norm, Hk by apply cluster_fields_nodup. Qed.

Lemma snapshot_record c : event_cluster_inv plan c → of_json (JObj (snapshot_object c)) = Some c.
Proof.
  intros Hc%cluster_inv_wf. unfold snapshot_object. rewrite <-norm_obj.
  change (JObj (event_cluster_fields c)) with (to_json c). rewrite of_json_norm by done.
  by rewrite of_json_to_json.
Qed.

Lemma snapshot_encodable c : event_cluster_inv plan c → encodable (to_json c) = true.
Proof.
  intros Hc. pose proof (proj2 (content_encodable_iff c) (inv_encodable _ _ Hc)) as He.
  change (to_json c) with (JObj (cluster_content c ++ [(js "stateDigest", JStr (ec_stateDigest c))])).
  cbn [encodable] in He |- *. rewrite forallb_app, He. cbn [forallb snd fst andb].
  rewrite andb_true_r. apply andb_true_iff. split; [by vm_compute|].
  apply is_ok_low, is_hash_units. apply Hc.
Qed.

(** The digest of a snapshot is the cluster's. *)
Lemma snapshot_digest c :
  event_cluster_inv plan c →
  (let* snapshot := inertJsonSnapshot
     (JObj (List.filter (λ kv, negb (same_string kv.1 (js "stateDigest"))) (snapshot_object c))) in
   canonicalHash (js "peas/event-cluster-state/v1") snapshot) = Ok (ec_stateDigest c).
Proof.
  intros Hc. pose proof (content_wf _ (ci_values _ _ (ev_content _ _ Hc))) as Hw.
  pose proof (proj2 (content_encodable_iff c) (inv_encodable _ _ Hc)) as He.
  assert (Hn : norm (JObj (List.filter (λ kv, negb (same_string kv.1 (js "stateDigest"))) (snapshot_object c))) =
    norm (JObj (cluster_content c))).
  { unfold snapshot_object.
    etrans; [exact (norm_filter_entries (λ k, negb (same_string k (js "stateDigest"))) _ (cluster_fields_nodup c))|].
    reflexivity. }
  set (o := JObj (List.filter _ (snapshot_object c))) in Hn |- *.
  assert (How : json_wf o) by (apply norm_wf_inv; rewrite Hn; by apply norm_wf).
  assert (Hoe : encodable o = true) by (by rewrite <-norm_encodable, Hn, norm_encodable).
  rewrite (proj2 (inertJsonSnapshot_spec _ _ How) (conj Hoe eq_refl)). cbn [mbind res_bind]. rewrite Hn.
  pose proof (ev_seal _ _ Hc) as Hs. unfold withDigest in Hs.
  rewrite (proj2 (inertJsonSnapshot_spec _ _ Hw) (conj He eq_refl)) in Hs. cbn [mbind res_bind] in Hs.
  apply res_bind_Ok in Hs as (d & Hd & Hs). rewrite Hd. apply Ok_inj in Hs. by rewrite <-Hs.
Qed.

(** ** Draft and event *)

Definition cluster_subject (clusterId : jsstring) : jsstring := js "event-cluster:" ++ clusterId.

Lemma snapshot_draft c d :
  event_cluster_inv plan c → eventClusterSnapshotDraft c = Ok d →
  in_scope plan d = true ∧ d_subject d = cluster_subject (ec_clusterId c) ∧
  d_payload d = [(js "cluster", JObj (snapshot_object c))] ∧ norm_draft d = d ∧ draft_wf d.
Proof.
  intros Hc Hd. unfold eventClusterSnapshotDraft in Hd. apply res_bind_Ok in Hd as (w & Hw & Hd).
  assert (Hwf : json_wf (JObj [(js "cluster", to_json c)])).
  { pose proof (cluster_inv_wf _ _ Hc). by solve_fields. }
  apply inertJsonSnapshot_spec in Hw as [_ ->]; [|done]. apply res_bind_Ok in Hd as (p & Hp & Hd).
  apply or_throw_Ok in Hp. rewrite norm_obj in Hp. cbn [as_obj] in Hp. injection Hp as <-.
  assert (Ep : norm_entries [(js "cluster", to_json c)] = [(js "cluster", JObj (snapshot_object c))]) by reflexivity.
  assert (En : norm_entries (norm_entries [(js "cluster", to_json c)]) = norm_entries [(js "cluster", to_json c)])
    by apply norm_entries_idemp.
  apply Ok_inj in Hd as <-. split_and!.
  - unfold in_scope. cbn [d_type d_payload]. rewrite Ep. unfold same_string at 1.
    rewrite bool_decide_eq_true_2 by done. cbn [andb].
    change (lookup_key (js "cluster") [(js "cluster", JObj (snapshot_object c))]) with (Some (JObj (snapshot_object c))).
    cbn iota. unfold field_is. rewrite (snapshot_field c (js "planId") _ eq_refl). cbn [norm].
    apply bool_decide_eq_true. apply (ci_plan _ _ (ev_content _ _ Hc)).
  - done.
  - exact Ep.
  - unfold norm_draft. cbn [d_payload d_type d_schemaVersion d_source d_subject d_occurredAtMs d_correlationId
      d_causationId d_provider]. by rewrite En.
  - pose proof (cluster_inv_wf _ _ Hc) as Hcw. apply cluster_values_iff in Hcw as [[(V1 & _ & _) _ _ _ _] V2].
    assert (Hpw : json_wf (JObj (norm_entries [(js "cluster", to_json c)]))) by by apply norm_entries_wf.
    assert (Hs : units_ok (cluster_subject (ec_clusterId c))) by (apply Forall_app; split; [apply js_units|done]).
    unfold draft_wf, draft_json, draft_fields.
    cbn [d_payload d_type d_schemaVersion d_source d_subject d_occurredAtMs d_correlationId
      d_causationId d_provider]. cbn [app opt_field]. solve_fields. unfold provider_json. cbn [p_provider p_recordId p_revisionId p_artifactHash]. solve_fields.
Qed.

(** ** Lanes of a snapshot *)

Definition with_status (statuses : list LaneStatus) (lanes : list LaneState) : list EventClusterLane :=
  map ls_lane (List.filter (λ l, bool_decide (ls_status l ∈ statuses)) lanes).

Definition classification (status : EventClusterStatus) : RunClassification :=
  match status with Complete => Run_complete | Stopped => Run_stopped | _ => Run_incomplete end.

(** What recovery answers for a cluster. *)
Definition recovered (c : EventCluster) : RecoveredEventClusterRun := {|
  rr_cluster := snapshot_object c;
  rr_classification := classification (ec_status c);
  rr_completedLanes := with_status [Lane_observed; Lane_stable_missing] (ec_lanes c);
  rr_pendingLanes := if bool_decide (classification (ec_status c) = Run_incomplete)
    then with_status [Lane_pending] (ec_lanes c) else [] |}.

Lemma recovered_lane c lane :
  shouldAcquireRecoveredLane (recovered c) lane = true ↔
    ec_status c ≠ Complete ∧ ec_status c ≠ Stopped ∧
    ∃ l, l ∈ ec_lanes c ∧ ls_lane l = lane ∧ ls_status l = Lane_pending.
Proof.
  unfold shouldAcquireRecoveredLane, recovered. cbn [rr_classification rr_pendingLanes].
  assert (Hw : lane ∈ with_status [Lane_pending] (ec_lanes c) ↔
    ∃ l, l ∈ ec_lanes c ∧ ls_lane l = lane ∧ ls_status l = Lane_pending).
  { unfold with_status. rewrite list_elem_of_fmap. split.
    - intros (l & -> & Hl). apply list_elem_of_In, filter_In in Hl. rewrite <-list_elem_of_In in Hl.
      destruct Hl as [Hl Hs%bool_decide_eq_true%list_elem_of_singleton]. by exists l.
    - intros (l & Hl & <- & Hs). exists l. split; [done|]. apply list_elem_of_In, filter_In.
      rewrite <-list_elem_of_In. split; [done|]. apply bool_decide_eq_true. rewrite Hs. solve_elem. }
  rewrite andb_true_iff, !bool_decide_eq_true, <-Hw.
  assert (Hr : classification (ec_status c) = Run_incomplete ↔ ec_status c ≠ Complete ∧ ec_status c ≠ Stopped)
    by (by destruct (ec_status c); cbn; intuition).
  case_bool_decide as E; [tauto|]. split; [by intros []|]. intros (H1' & H2' & _). by destruct E; apply Hr.
Qed.

Lemma lane_field l k v :
  lookup_key k (lane_fields l) = Some v → lookup_key k (norm_entries (lane_fields l)) = Some (norm v).
Proof. intros Hk. rewrite lookup_key_norm by (apply (bool_decide_unpack _); by vm_compute). by rewrite Hk. Qed.

Lemma field_is_enum `{Enumerated A, EqDecision A} kvs k (a b : A) :
  lookup_key k kvs = Some (jenum a) → field_is kvs k (enum_name b) = bool_decide (a = b).
Proof.
  intros Hk. unfold field_is. rewrite Hk. unfold jenum, same_string. apply bool_decide_ext.
  split; [apply enum_name_inj|congruence].
Qed.

Lemma lane_is l lane : field_is (norm_entries (lane_fields l)) (js "lane") (enum_name lane) = bool_decide (ls_lane l = lane).
Proof. apply field_is_enum. exact (lane_field l (js "lane") _ eq_refl). Qed.

Lemma lane_status_is l status :
  field_is (norm_entries (lane_fields l)) (js "status") (enum_name status) = bool_decide (ls_status l = status).
Proof. apply field_is_enum. exact (lane_field l (js "status") _ eq_refl). Qed.

Lemma lane_in_find lane lanes :
  lane_in lane (map norm (map to_json lanes)) =
    Ok ((λ l, norm_entries (lane_fields l)) <$> find (λ l, bool_decide (ls_lane l = lane)) lanes).
Proof.
  induction lanes as [|l lanes IH]; [done|]. cbn [map]. change (to_json l) with (JObj (lane_fields l)).
  rewrite norm_obj. cbn [lane_in find]. rewrite lane_is. by destruct (bool_decide _).
Qed.

Lemma find_in_nodup {A B} `{EqDecision B} (g : A → B) l x :
  NoDup (map g l) → x ∈ l → find (λ y, bool_decide (g y = g x)) l = Some x.
Proof.
  induction l as [|y l IH]; intros Hnd Hx; [by apply elem_of_nil in Hx|]. cbn [map] in Hnd.
  apply NoDup_cons in Hnd as [Hy Hnd]. cbn [find]. apply elem_of_cons in Hx as [->|Hx].
  - by rewrite bool_decide_eq_true_2.
  - rewrite bool_decide_eq_false_2; [by apply IH|]. intros E. apply Hy. rewrite E. by apply list_elem_of_fmap_2.
Qed.

Lemma res_filter_map {A B} (g : A → B) (test : B → res bool) (p : A → bool) l :
  (∀ x, x ∈ l → test (g x) = Ok (p x)) → res_filter test (map g l) = Ok (map g (List.filter p l)).
Proof.
  induction l as [|x l IH]; intros Hp; [done|]. cbn [map res_filter List.filter].
  rewrite (Hp x) by left. cbn [mbind res_bind]. rewrite IH by (intros; apply Hp; by right).
  cbn [mbind res_bind]. by destruct (p x).
Qed.

Lemma status_among l statuses :
  existsb (λ s, field_is (norm_entries (lane_fields l)) (js "status") (enum_name s)) statuses =
    bool_decide (ls_status l ∈ statuses).
Proof.
  induction statuses as [|s ss IH]; [done|]. cbn [existsb]. rewrite IH, lane_status_is, <-bool_decide_or.
  apply bool_decide_ext. by rewrite elem_of_cons.
Qed.

Lemma lanes_with_status c statuses :
  event_cluster_inv plan c →
  res_filter (lane_has_status (snapshot_object c) statuses) EVENT_CLUSTER_LANES =
    Ok (with_status statuses (ec_lanes c)).
Proof.
  intros Hc. pose proof (ci_lanes _ _ (ev_content _ _ Hc)) as Hl. rewrite <-Hl. apply res_filter_map.
  intros l Hin. unfold lane_has_status. rewrite (snapshot_field c (js "lanes") _ eq_refl). unfold jlist.
  cbn [snd norm]. rewrite lane_in_find, find_in_nodup; [|rewrite Hl; by apply (bool_decide_unpack _)|done].
  cbn [fmap option_fmap option_map mbind res_bind]. by rewrite status_among.
Qed.

Lemma classify_snapshot c : classify (snapshot_object c) = classification (ec_status c).
Proof.
  unfold classify.
  change (js "complete") with (enum_name Complete). change (js "stopped") with (enum_name Stopped).
  rewrite !(field_is_enum (snapshot_object c) (js "status") (ec_status c))
    by exact (snapshot_field c (js "status") _ eq_refl).
  by destruct (ec_status c).
Qed.
End snapshots.

(** ** Stream versions *)

Section versions.
Context `{Sha256} `{Zod}.

Lemma stream_version es (e : StoredEvent) :
  log_events es → e ∈ es → ∃ n, c_streamVersion e = dec n ∧ 0 <= n <= subject_count (d_subject e) es.
Proof.
  intros Hes. induction Hes as [|pre x Hpre IH Hx]; [by intros ?%elem_of_nil|].
  intros He. assert (Hc : ∀ s, subject_count s (pre ++ [x]) =
    subject_count s pre + if bool_decide (d_subject x = s) then 1 else 0).
  { intros s. unfold subject_count. rewrite zsum_app. cbn. case_bool_decide; lia. }
  apply elem_of_app in He as [He|He%list_elem_of_singleton]; [|subst e].
  - destruct (IH He) as (n & -> & Hn). exists n. split; [done|]. rewrite Hc. case_bool_decide; lia.
  - exists (subject_count (d_subject x) pre + 1). split; [apply (ne_stream _ _ Hx)|].
    pose proof (subject_count_nonneg (d_subject x) pre). rewrite Hc, bool_decide_eq_true_2 by done. lia.
Qed.

Definition version (e : StoredEvent) : Z :=
  match BigInt (c_streamVersion e) with Ok n => n | Throw _ => 0 end.

Lemma version_Ok es (e : StoredEvent) : log_events es → e ∈ es → BigInt (c_streamVersion e) = Ok (version e).
Proof.
  intros Hes He. destruct (stream_version _ _ Hes He) as (n & E & Hn). unfold version.
  by rewrite E, BigInt_dec by lia.
Qed.

Lemma version_bound es (e : StoredEvent) : log_events es → e ∈ es → version e <= subject_count (d_subject e) es.
Proof.
  intros Hes He. destruct (stream_version _ _ Hes He) as (n & E & Hn). unfold version.
  rewrite E, BigInt_dec by lia. lia.
Qed.

Lemma version_new es d t : version (new_event es d t) = subject_count (d_subject d) es + 1.
Proof.
  unfold version. cbn [new_event new_captured s_captured c_streamVersion].
  pose proof (subject_count_nonneg (d_subject d) es). by rewrite BigInt_dec by lia.
Qed.

(** The last snapshot is the latest one when no version exceeds its own. *)
Lemma by_streamVersion_last (l : list StoredEvent) e :
  (∀ x : StoredEvent, x ∈ l ++ [e] → BigInt (c_streamVersion x) = Ok (version x) ∧ version x <= version e) →
  ∃ sorted, by_streamVersion (l ++ [e]) = Ok sorted ∧ last sorted = Some e.
Proof.
  intros Hl. assert (Hk : res_map (λ x : StoredEvent, let* v := BigInt (c_streamVersion x) in Ok (v, x))
    (l ++ [e]) = Ok (map (λ x, (version x, x)) (l ++ [e]))).
  { apply res_map_Ok. rewrite <-(list_fmap_id (l ++ [e])) at 1. apply Forall2_fmap, Forall_Forall2_diag.
    apply Forall_forall. intros x Hx. cbn. by rewrite (proj1 (Hl x Hx)). }
  destruct l as [|a l]; [by exists [e]|].
  assert (Hb : by_streamVersion ((a :: l) ++ [e]) = (let* keyed :=
    res_map (λ x : StoredEvent, let* v := BigInt (c_streamVersion x) in Ok (v, x)) ((a :: l) ++ [e]) in
    Ok (map snd (sort_by (λ a b, a.1 <=? b.1) keyed)))) by (by destruct l).
  rewrite Hb, Hk. eexists. split; [reflexivity|]. rewrite map_app. cbn [map].
  change (map snd ?s) with (snd <$> s). rewrite fmap_last.
  rewrite (sort_by_last _ _ (version e, e)); [done|].
  intros y Hy. change (y ∈ (λ x, (version x, x)) <$> (a :: l)) in Hy.
  apply list_elem_of_fmap in Hy as (x & -> & Hx). apply Z.leb_le. apply Hl, elem_of_app. by left.
Qed.
End versions.

(** ** Runs of checkpoints

    Checkpoints of a plan's clusters interleaved with any other appends, and what recovery
    reads back from the log they leave. *)

#[local] Arguments js : simpl never.
#[local] Arguments to_json : simpl never.

(** ** Reading the whole log *)

Section reading.
Context `{Sha256} `{Zod}.

Lemma read_log_all (log : InMemoryEventLog) fuel k :
  log_inv log → (length (l_events log) < fuel + k)%nat → (k <= length (l_events log))%nat →
  (0 < fuel)%nat →
  read_log log fuel (take k (l_events log)) (dec (Z.of_nat k)) = Some (Ok (l_events log)).
Proof.
  intros Hlog. revert k. induction fuel as [|fuel IH]; intros k Hf Hk Hpos; [lia|]. cbn [read_log].
  assert (Hread : log_readAfter log (dec (Z.of_nat k)) (NInt 1000) =
    Ok (page_after (l_events log) k 1000)) by exact (read_after_eq _ k (NInt 1000) 1000 (li_events _ Hlog) eq_refl).
  rewrite Hread. unfold page_after. cbn [pg_events pg_hasMore pg_nextPosition].
  set (n := length (take 1000 (drop k (l_events log)))).
  assert (Hn : n = Nat.min 1000 (length (l_events log) - k)) by (unfold n; by rewrite length_take, length_drop).
  assert (Hsum : take k (l_events log) ++ take 1000 (drop k (l_events log)) = take (k + n) (l_events log)).
  { rewrite <-take_take_drop. f_equal. rewrite Hn. destruct (decide (1000 <= length (l_events log) - k)%nat).
    - f_equal. lia.
    - rewrite !take_ge by (rewrite length_drop; lia). done. }
  rewrite Hsum. destruct (decide (k + n < length (l_events log))%nat) as [Hlt|Hge].
  - rewrite bool_decide_eq_true_2 by done. cbn [negb]. unfold same_string.
    rewrite bool_decide_eq_false_2; [apply IH; lia|]. intros E. apply (f_equal BigInt) in E.
    rewrite !BigInt_dec in E by lia. apply Ok_inj in E. lia.
  - rewrite bool_decide_eq_false_2 by done. cbn [negb]. rewrite take_ge by lia. done.
Qed.

Lemma read_log_Ok (log : InMemoryEventLog) fuel :
  log_inv log → (length (l_events log) < fuel)%nat → read_log log fuel [] (js "0") = Some (Ok (l_events log)).
Proof. intros Hlog Hf. apply (read_log_all log fuel 0); [done|lia..]. Qed.
End reading.

(** ** Calls on the log *)

Inductive log_call : Type :=
  | Call_checkpoint (cluster : EventCluster) (nowMs : jsnum)
  | Call_append (value : json) (nowMs : jsnum).

Section runs.
Context `{Sha256} `{Zod} `{Locale} (plan : EventPlan).

(** The log after a call, and the last cluster that was written to it. *)
Definition make_call (st : InMemoryEventLog * option EventCluster) (call : log_call) :
    InMemoryEventLog * option EventCluster :=
  match call with
  | Call_checkpoint cluster nowMs =>
      let (log, r) := checkpointEventClusterRun cluster nowMs st.1 in
      (log, match r with Ok {| ar_disposition := Appended |} => Some cluster | _ => st.2 end)
  | Call_append value nowMs => ((append value nowMs st.1).1, st.2)
  end.

(** Clusters are checkpointed as the operations make them; the other writers do not
    write snapshots of the plan. *)
Definition call_ok (call : log_call) : Prop :=
  match call with
  | Call_checkpoint cluster _ => event_cluster_inv plan cluster
  | Call_append value _ => json_wf value ∧ ∀ d, validateEventDraft value = Ok d → in_scope plan d = false
  end.

Definition scoped (es : list StoredEvent) : list StoredEvent :=
  List.filter (λ e : StoredEvent, in_scope plan e) es.

Record checkpointed (st : InMemoryEventLog * option EventCluster) : Prop := {
  ck_log : log_inv st.1;
  ck_subject : ∀ (e : StoredEvent) id, e ∈ scoped (l_events st.1) → cluster_id plan = Ok id →
    d_subject e = cluster_subject id;
  ck_last : match st.2 with
    | None => scoped (l_events st.1) = []
    | Some c => event_cluster_inv plan c ∧ ∃ l e, scoped (l_events st.1) = l ++ [e] ∧
        d_payload e = [(js "cluster", JObj (snapshot_object c))] ∧
        ∀ x : StoredEvent, x ∈ l → version x <= version e
    end
}.

Lemma scoped_new es d t :
  scoped (es ++ [new_event es d t]) = scoped es ++ if in_scope plan d then [new_event es d t] else [].
Proof. unfold scoped. by rewrite List.filter_app. Qed.

Lemma scoped_elem es (e : StoredEvent) : e ∈ scoped es ↔ e ∈ es ∧ in_scope plan e = true.
Proof. unfold scoped. by rewrite list_elem_of_In, filter_In, <-list_elem_of_In. Qed.

(** An append that throws, or answers with an event it had, keeps the log. *)
Lemma append_cases log v now :
  json_wf v → log_inv log →
  ((append v now log).1 = log ∧ ∀ r, (append v now log).2 = Ok r → ar_disposition r = Redelivery) ∨
  ∃ d t, validateEventDraft v = Ok d ∧ valid_draft d ∧ 0 <= t <= MAX_SAFE_INTEGER ∧
    l_providerEvents log !! provider_key (d_provider d) = None ∧
    append v now log = (pushed log d (new_event (l_events log) d t),
      Ok {| ar_event := new_event (l_events log) d t; ar_disposition := Appended |}).
Proof.
  intros Hv Hlog. destruct (validated_or_unchanged v now log) as [[d Hd]|[e He]]; [|left; by rewrite He].
  destruct (validateEventDraft_untrusted v d Hv Hd) as (Hdw & Hok & Hn & _).
  rewrite (append_eq log v now d Hv Hlog Hd).
  destruct (l_providerEvents log !! provider_key (d_provider d)) as [e|] eqn:Ek.
  - left. split; [done|]. intros r Hr. apply (li_provider _ Hlog) in Ek as [Hin _].
    pose proof (proj1 (Forall_forall _ _) (log_canonical _ (li_events _ Hlog)) e Hin) as Hcan.
    apply redeliver_spec in Hr as (_ & _ & ->); done.
  - destruct (assertTrustedTime now) as [t|x] eqn:Et; [|left; done]. right. exists d, t.
    split_and!; try done; by destruct (trusted_bounds _ _ Et).
Qed.

Lemma pushed_other st d t :
  checkpointed st → valid_draft d → 0 <= t <= MAX_SAFE_INTEGER →
  l_providerEvents st.1 !! provider_key (d_provider d) = None → in_scope plan d = false →
  checkpointed (pushed st.1 d (new_event (l_events st.1) d t), st.2).
Proof.
  intros [K1 K2 K3] Hd Ht Hnone Hs. split; cbn [fst snd pushed l_events]; rewrite ?scoped_new, ?Hs, ?app_nil_r; try done.
  by apply pushed_inv.
Qed.

Lemma pushed_checkpoint st c d t :
  checkpointed st → event_cluster_inv plan c → eventClusterSnapshotDraft c = Ok d →
  0 <= t <= MAX_SAFE_INTEGER → valid_draft d → l_providerEvents st.1 !! provider_key (d_provider d) = None →
  checkpointed (pushed st.1 d (new_event (l_events st.1) d t), Some c).
Proof.
  intros [K1 K2 K3] Hc Hdraft Ht Hd Hnone.
  destruct (snapshot_draft plan c d Hc Hdraft) as (D1 & D2 & D3 & _ & _).
  destruct (ci_plan _ _ (ev_content _ _ Hc)) as (_ & _ & Hid).
  split; cbn [fst snd pushed l_events]; rewrite ?scoped_new, ?D1; [by apply pushed_inv| |].
  - intros e id [He|He%list_elem_of_singleton]%elem_of_app Hid'; [by apply K2|]. subst e.
    cbn [new_event new_captured s_captured c_draft]. congruence.
  - split; [done|]. exists (scoped (l_events st.1)), (new_event (l_events st.1) d t). split_and!; [done|exact D3|].
    intros x Hx. rewrite version_new. pose proof (K2 x _ Hx Hid) as E. apply scoped_elem in Hx as [Hx _].
    pose proof (version_bound _ x (li_events _ K1) Hx). rewrite D2, <-E. lia.
Qed.

Lemma make_call_checkpointed st call : checkpointed st → call_ok call → checkpointed (make_call st call).
Proof.
  intros Hst Hcall. destruct call as [c now|v now]; cbn [make_call call_ok] in *.
  - unfold checkpointEventClusterRun, sm_bind, sm_lift.
    destruct (eventClusterSnapshotDraft c) as [d|x] eqn:Hd; [|by destruct st].
    destruct (snapshot_draft plan c d Hcall Hd) as (D1 & D2 & D3 & D4 & D5).
    change (log_append ?v ?n st.1) with (append v n st.1).
    destruct (append_cases st.1 (draft_json d) now D5 (ck_log _ Hst)) as [[E1 E2]|(d' & t & Hv & Hd' & Ht & Hn & E)].
    + destruct (append (draft_json d) now st.1) as [log r]. cbn [fst snd] in E1, E2. subst log.
      destruct r as [[e q]|x]; [|by destruct st]. pose proof (E2 _ eq_refl) as Eq. cbn in Eq. subst q. by destruct st.
    + rewrite E. apply validateEventDraft_spec in Hv as [_ ->]; [|done]. rewrite D4 in Hd', Hn |- *.
      by apply pushed_checkpoint.
  - destruct Hcall as [Hv Hs].
    destruct (append_cases st.1 v now Hv (ck_log _ Hst)) as [[E1 _]|(d & t & Hd & Hd' & Ht & Hn & E)].
    + rewrite E1. by destruct st.
    + rewrite E. cbn [fst]. apply pushed_other; auto.
Qed.

Lemma runs_checkpointed calls :
  Forall call_ok calls → checkpointed (foldl make_call (empty_log, None) calls).
Proof.
  intros Hcalls. assert (Hst : checkpointed (empty_log, None)).
  { split; cbn; [apply empty_log_inv|by intros e id ?%elem_of_nil|done]. }
  revert Hst. generalize (empty_log, @None EventCluster). induction Hcalls as [|call calls Hcall _ IH]; intros st Hst; [done|].
  cbn [foldl]. by apply IH, make_call_checkpointed.
Qed.

(** ** Recovery *)

Lemma scoped_snapshots es : List.filter is_snapshot (scoped es) = scoped es.
Proof.
  unfold scoped. induction es as [|e es IH]; [done|]. cbn [List.filter].
  destruct (in_scope plan e) eqn:E; [|done]. cbn [List.filter]. unfold in_scope in E. apply andb_true_iff in E as [E _].
  unfold is_snapshot at 1. by rewrite E, IH.
Qed.

Lemma latest_checkpoint st c :
  checkpointed st → st.2 = Some c →
  latestEventClusterSnapshot (scoped (l_events st.1)) = Ok (snapshot_object c).
Proof.
  intros [K1 K2 K3] E. rewrite E in K3. destruct K3 as (Hc & l & e & El & Hp & Hv).
  unfold latestEventClusterSnapshot. rewrite scoped_snapshots, El.
  destruct (by_streamVersion_last l e) as (sorted & Hs & Hl).
  { intros x Hx. split.
    - eapply version_Ok; [apply K1|]. apply (scoped_elem (l_events st.1)). by rewrite El.
    - apply elem_of_app in Hx as [Hx|Hx%list_elem_of_singleton]; [by apply Hv|by subst]. }
  rewrite Hs. cbn [mbind res_bind]. rewrite Hl, Hp.
  change (get_obj (js "cluster") [(js "cluster", JObj (snapshot_object c))]) with (Some (snapshot_object c)).
  cbn [or_throw mbind res_bind]. rewrite (snapshot_field c (js "stateDigest") _ eq_refl). cbn [snd norm].
  pose proof (snapshot_digest plan c Hc) as Hd.
  destruct (inertJsonSnapshot (JObj (List.filter _ (snapshot_object c)))) as [w|x]; [|done].
  cbn [mbind res_bind] in Hd |- *. rewrite Hd. cbn [mbind res_bind]. unfold same_string.
  rewrite bool_decide_eq_true_2 by done. cbn [negb throw_if mbind res_bind].
  assert (Ho : inertJsonSnapshot (JObj (snapshot_object c)) = Ok (JObj (snapshot_object c))).
  { assert (En : norm (to_json c) = JObj (snapshot_object c)) by (apply norm_obj).
    apply inertJsonSnapshot_spec; rewrite <-En.
    - apply norm_wf. by apply cluster_inv_wf in Hc.
    - split; [|by rewrite norm_idemp]. rewrite norm_encodable. by eapply snapshot_encodable. }
  by rewrite Ho.
Qed.

Lemma recover_Ok st c :
  checkpointed st → st.2 = Some c → recoverEventClusterRun (l_events st.1) plan = Ok (recovered c).
Proof.
  intros Hst E. pose proof (latest_checkpoint _ _ Hst E) as Hl. pose proof (ck_last _ Hst) as Hc.
  rewrite E in Hc. destruct Hc as [Hc _]. unfold recoverEventClusterRun.
  change (List.filter _ (l_events st.1)) with (scoped (l_events st.1)). rewrite Hl. cbn [mbind res_bind].
  destruct (ci_plan _ _ (ev_content _ _ Hc)) as (P1 & P2 & _). unfold field_is at 1 2.
  rewrite (snapshot_field c (js "planId") _ eq_refl), (snapshot_field c (js "planRevisionDigest") _ eq_refl).
  cbn [snd norm]. unfold same_string. rewrite (bool_decide_eq_true_2 _ P1), (bool_decide_eq_true_2 _ P2).
  cbn [negb orb throw_if mbind res_bind].
  rewrite !(lanes_with_status plan c) by done. rewrite classify_snapshot. cbn [mbind res_bind]. unfold recovered.
  by destruct (bool_decide (classification (ec_status c) = Run_incomplete)).
Qed.

Lemma recover_none st :
  checkpointed st → st.2 = None →
  recoverEventClusterRun (l_events st.1) plan = Throw (BetaError "event-cluster.snapshot-missing").
Proof.
  intros Hst E. pose proof (ck_last _ Hst) as Hc. rewrite E in Hc. unfold recoverEventClusterRun.
  change (List.filter _ (l_events st.1)) with (scoped (l_events st.1)). by rewrite Hc.
Qed.
End runs.
