(* ===== verification/EventClusterClaims.v ===== *)
(** * A concrete event cluster

    A plan for one quarter with the SEC and issuer lanes ready, an amendment of it, a
    cluster that sees a filing twice and settles, and the log of its checkpoints; over the
    checksum of [Fixture] and the comparison of code units. *)
From S2P Require Import Prelude JsString JsNumber Json JsonLimits JsonParse JsonClaims.
From S2P Require Import Hash Zod JsonObject Event EventFacts EventLog EventLogFacts.
From S2P Require Import Codec Records Fixture Evidence SecContracts EventPlan.
From S2P Require Import EventPlanFacts EventCalendar EventClusterBeta EventClusterFacts.
From S2P Require Import EventClusterRecovery EventClusterLog.

Definition some_digest (d : Z) : jsstring := replicate 64 d.

(** ** Inputs of a plan *)

Definition demo_candidate : CalendarCandidate := {|
  cc_calendarSourceId := js "calendar"; cc_calendarRevisionId := js "r1"; cc_issuerId := js "acme";
  cc_cik := js "0000320193"; cc_ticker := js "ACME"; cc_exchange := js "XNAS";
  cc_instrumentId := js "acme-1"; cc_sectorBenchmark := js "XLK"; cc_fiscalPeriod := js "2024-Q1";
  cc_expectedEventDate := js "2024-05-01"; cc_expectedSession := After_market; cc_discoveredAtMs := 5 |}.

Definition demo_windows : PlanWindows := {|
  pw_activationStartMs := 10; pw_primaryStartMs := 20; pw_primaryEndMs := 30; pw_settlementEndMs := 40 |}.

Definition assignment (lane : EventClusterLane) (provider : string) (cs : list ProviderCapability) : json :=
  to_json {| sa_lane := lane; sa_providerId := js provider; sa_capabilities := cs |}.

(** A specification with these assignments and forms. *)
Definition demo_spec (assignments : list json) (forms : list string) : json := JObj
  ([(js "windows", to_json demo_windows); (js "sourceAssignments", JArr assignments);
    (js "expectedForms", jstrs (map js forms)); (js "expectedItems", jstrs [js "2.02"]);
    (js "exhibitAliases", jenums [EX_99_1])] ++ policy_fields).

Definition demo_assignments : list json :=
  [assignment Lane_sec "sec" [Cap_sec_filing]; assignment Lane_issuer_ir "ir" [Cap_issuer_release];
   assignment Lane_transcript "fmp" [Cap_transcript]; assignment Lane_market "alpaca" [Market_bars]].

Definition entry (provider : string) (c : ProviderCapability) (available : bool) (r : CredentialRequirement) : json :=
  to_json {| pc_providerId := js provider; pc_capability := c; pc_available := available;
             pc_credentialRequirement := r |}.

(** The transcript provider has no such capability, the market one needs a credential. *)
Definition demo_registry : json := JArr
  [entry "sec" Cap_sec_filing true No_credential; entry "ir" Cap_issuer_release true No_credential;
   entry "fmp" Cap_transcript false No_credential;
   entry "alpaca" Market_bars true Separately_authorized].

Definition plan_or (r : res EventPlan) : EventPlan :=
  match r with
  | Ok p => p
  | Throw _ => {| ep_planId := []; ep_revision := 0; ep_revisionDigest := []; ep_candidate := demo_candidate;
      ep_windows := demo_windows; ep_acquisitionPlans := []; ep_expectedForms := [];
      ep_expectedItems := []; ep_exhibitAliases := []; ep_marketSubjects := []; ep_amendments := [] |}
  end.

Definition plan1 : EventPlan := Eval vm_compute in plan_or
  (compileEventPlan (to_json demo_candidate) (demo_spec demo_assignments ["8-K"; "10-Q"]%string) demo_registry).

Lemma plan1_compiled :
  compileEventPlan (to_json demo_candidate) (demo_spec demo_assignments ["8-K"; "10-Q"]%string) demo_registry =
    Ok plan1.
Proof. vm_compute. reflexivity. Qed.

Definition demo_changes : jobject := [(js "expectedEventDate", JStr (js "2024-05-02"))].

Definition plan2 : EventPlan := Eval vm_compute in plan_or
  (amendEventPlan plan1 (js "a1") (NInt 6) (js "moved") demo_changes).

Lemma plan2_amended : amendEventPlan plan1 (js "a1") (NInt 6) (js "moved") demo_changes = Ok plan2.
Proof. vm_compute. reflexivity. Qed.

Definition first_amendment : EventPlanAmendment :=
  ltac:(let a := eval vm_compute in (head (ep_amendments plan2)) in match a with Some ?x => exact x end).

(** ** A cluster *)

Definition cluster_or (c : EventCluster) (r : res EventCluster) : EventCluster :=
  match r with Ok c => c | Throw _ => c end.

Definition no_cluster : EventCluster := {|
  ec_clusterId := []; ec_planId := []; ec_planRevisionDigest := []; ec_revision := 0;
  ec_status := Candidate; ec_lanes := []; ec_members := []; ec_duplicateCount := 0;
  ec_inventory := None; ec_stoppedReason := None; ec_updatedAtMs := 0; ec_stateDigest := [] |}.

Definition cluster0 : EventCluster := Eval vm_compute in cluster_or no_cluster (createEventCluster plan2 (NInt 7)).

Lemma cluster0_created : createEventCluster plan2 (NInt 7) = Ok cluster0.
Proof. vm_compute. reflexivity. Qed.

Definition demo_member : EventClusterMember := {|
  mb_lane := Lane_sec; mb_kind := Sec_8_k; mb_issuerId := js "acme"; mb_cik := js "0000320193";
  mb_fiscalPeriod := js "2024-Q1"; mb_providerId := js "sec"; mb_recordId := js "0000320193-24-000001";
  mb_revisionId := js "1"; mb_artifactDigest := some_digest 97;
  mb_requestIdentity := {|
    ri_requestId := match deriveEventClusterRequestId (js "sec") Cap_sec_filing
      (js "0000320193-24-000001") (js "1") with Ok id => id | Throw _ => [] end;
    ri_providerId := js "sec"; ri_capability := Cap_sec_filing |};
  mb_normalization := {| nz_normalizerId := js "n"; nz_sourceArtifactDigest := some_digest 97;
    nz_normalizedEventId := some_digest 98; nz_normalizedEventHash := some_digest 99 |};
  mb_form := Some Form_8K; mb_items := [js "2.02"]; mb_exhibitAlias := Some EX_99_1;
  mb_publicationOrAcceptanceAtMs := Some 21; mb_firstObservedAtMs := 22; mb_retrievedAtMs := 23;
  mb_relationship := Original; mb_replacesArtifactDigest := None |}.

(** Up to the observation; then the filing, the same filing again, and a settlement
    that comes too early before the one that is accepted. *)
Definition opening_operations : list operation :=
  [Op_transition Prewarming (NInt 8); Op_transition Frozen (NInt 9); Op_transition Active (NInt 10);
   Op_record (to_json demo_member)].
Definition closing_operations : list operation :=
  [Op_record (to_json demo_member); Op_transition Settling (NInt 39); Op_settle (NInt 39); Op_settle (NInt 40)].

Definition cluster1 : EventCluster := Eval vm_compute in foldl (attempt plan2) cluster0 opening_operations.
Definition cluster2 : EventCluster := Eval vm_compute in foldl (attempt plan2) cluster1 closing_operations.

Lemma cluster1_reached : foldl (attempt plan2) cluster0 opening_operations = cluster1.
Proof. vm_compute. reflexivity. Qed.
Lemma cluster2_reached : foldl (attempt plan2) cluster1 closing_operations = cluster2.
Proof. vm_compute. reflexivity. Qed.

Lemma demo_member_wf : json_wf (to_json demo_member).
Proof. apply json_wfb_wf. vm_compute. reflexivity. Qed.

Lemma opening_wf : Forall operation_wf opening_operations.
Proof. repeat apply Forall_cons_2; try exact I; try apply Forall_nil_2. exact demo_member_wf. Qed.
Lemma closing_wf : Forall operation_wf closing_operations.
Proof. repeat apply Forall_cons_2; try exact I; try apply Forall_nil_2. exact demo_member_wf. Qed.

Lemma plan1_ok : plan_ok plan1.
Proof. eapply compileEventPlan_ok, plan1_compiled. Qed.
Lemma plan2_from : amended_from plan1 plan2.
Proof. eapply amended_next; [apply amended_here|apply plan2_amended]. Qed.
Lemma plan2_ok : plan_ok plan2.
Proof. apply (amended_from_ok plan1); [apply plan1_ok|apply plan2_from]. Qed.

Lemma cluster0_inv : event_cluster_inv plan2 cluster0.
Proof. by apply (createEventCluster_inv plan2 (NInt 7)), cluster0_created; apply plan2_ok. Qed.
Lemma cluster1_inv : event_cluster_inv plan2 cluster1.
Proof. rewrite <-cluster1_reached. apply attempts_inv; [apply cluster0_inv|apply opening_wf]. Qed.
Lemma cluster2_inv : event_cluster_inv plan2 cluster2.
Proof. rewrite <-cluster2_reached. apply attempts_inv; [apply cluster1_inv|apply closing_wf]. Qed.

(** A cluster that transitions to [complete] without being settled. *)
Definition rushed : EventCluster := Eval vm_compute in foldl (attempt plan2) cluster0
  [Op_transition Prewarming (NInt 8); Op_transition Frozen (NInt 9); Op_transition Active (NInt 10);
   Op_transition Settling (NInt 11)].

(** ** Checkpoints between other events *)

Definition demo_calls : list log_call :=
  [Call_append (draft_json (demo_draft (js "a"))) (NInt 50); Call_checkpoint cluster0 (NInt 51);
   Call_checkpoint cluster1 (NInt 52); Call_append (draft_json (demo_draft (js "b"))) (NInt 53)].

Definition demo_run : InMemoryEventLog * option EventCluster := foldl make_call (empty_log, None) demo_calls.

Lemma demo_run_latest : demo_run.2 = Some cluster1.
Proof. vm_compute. reflexivity. Qed.

Lemma demo_append_ok record now :
  json_wfb (draft_json (demo_draft record)) = true →
  call_ok plan2 (Call_append (draft_json (demo_draft record)) now).
Proof.
  intros Hw%json_wfb_wf. split; [done|]. intros d Hd. apply validateEventDraft_spec in Hd as [_ ->]; [|done].
  vm_compute. reflexivity.
Qed.

Lemma demo_calls_ok : Forall (call_ok plan2) demo_calls.
Proof.
  apply Forall_cons_2; [apply demo_append_ok; vm_compute; reflexivity|].
  apply Forall_cons_2; [apply cluster0_inv|]. apply Forall_cons_2; [apply cluster1_inv|].
  apply Forall_cons_2; [apply demo_append_ok; vm_compute; reflexivity|]. apply Forall_nil_2.
Qed.

(** ** Event plans and clusters: the properties

    A plan keeps its history; a cluster keeps its invariant and only moves forward; a
    settlement lists exactly what was observed; and a run is recovered from its log. *)

Section plans.
Context `{Sha256} `{Zod} `{Locale}.

(** C24: A compiled plan has one acquisition plan per lane, blocked exactly when it is not
    ready, ordered windows and the digest of its content; however it is then amended it
    keeps that, and its plan id, subject, sources and materials; and each amendment in
    its history names the digest of the revision it was made to, whose own history is
    the amendments before it. *)
Theorem plan_amendment_history (c s r : json) (p q : EventPlan) :
  compileEventPlan c s r = Ok p → amended_from p q →
  plan_ok q ∧ plan_later p q ∧
  ∀ i a, ep_amendments q !! i = Some a →
    ∃ before, amended_from p before ∧ ep_amendments before = take i (ep_amendments q) ∧
      ep_revisionDigest before = am_priorRevisionDigest a.
Proof.
  intros Hp Hq. pose proof (compileEventPlan_ok _ _ _ _ Hp) as Hok.
  destruct (amended_from_ok _ _ Hok Hq) as [Hq1 Hq2]. split_and!; [done|done|]. intros i a Ha.
  apply (amended_from_chain p q i a Hok Hq Ha).
  destruct (compileEventPlan_Ok _ _ _ _ Hp) as (cand & spec & reg & plans & _ & _ & _ & _ & ->). cbn. lia.
Qed.

(** A plan does not depend on the order in which the specification lists its source
    assignments, capabilities, forms, items and exhibits, nor on repetitions, as long as
    the comparison of texts tells the names of the lanes apart. *)
Theorem plan_order_free (c si si' r : json) (s s' : EventPlanSpec) (p : EventPlan) :
  (∀ l l' : EventClusterLane, locale_separates (enum_name l) (enum_name l')) →
  parse_as specSchema spec_of si = Ok s → parse_as specSchema spec_of si' = Ok s' → same_terms s s' →
  compileEventPlan c si r = Ok p → compileEventPlan c si' r = Ok p.
Proof. apply compile_same. Qed.

(** Compiling the candidates of several calendars gives one plan per issuer and fiscal
    period: it succeeds only when the candidates of an event agree on its date and
    session, no event is left out, and each plan is compiled from the candidate of its
    event that comes first by calendar source and revision. *)
Theorem calendar_consensus (ci s r : json) (plans : list EventPlan) :
  json_wf ci → compileCalendarCandidates ci s r = Ok plans →
  ∃ cs, parse_list CalendarCandidate (nonempty_array candidateSchema 32) ci = Ok cs ∧
    calendar_plans cs s r plans.
Proof. apply compileCalendarCandidates_Ok. Qed.
End plans.

Section clusters.
Context `{Sha256} `{Zod} `{Locale} (plan : EventPlan).

(** C19: From the creation of a cluster on, whatever operations are attempted on it with
    whatever untrusted members, the cluster is sealed by the digest of its content; its
    lanes are the four of the plan and count their members; no provider revision is a
    member twice, each record has one original and every other revision replaces an
    earlier one of the record; every member fits the plan; and there is an inventory only
    when the cluster is complete, none of its lanes pending. *)
Theorem event_cluster_invariant (atMs : jsnum) (c : EventCluster) (ops : list operation) :
  plan_ok plan → createEventCluster plan atMs = Ok c → Forall operation_wf ops →
  event_cluster_inv plan (foldl (attempt plan) c ops).
Proof. intros Hp [Hc _]%createEventCluster_inv Hops; [|done]. by apply attempts_inv. Qed.

(** C21: However operations are attempted on a cluster, its status never goes back, a
    complete or stopped cluster never changes again, no member is lost or altered, an
    observed lane stays observed and no lane becomes pending again, and every change
    makes a new revision. *)
Theorem event_cluster_progress (c : EventCluster) (ops : list operation) :
  event_cluster_inv plan c → Forall operation_wf ops → event_cluster_later c (foldl (attempt plan) c ops).
Proof. apply attempts_later. Qed.

(** A member that is delivered again while its cluster observes is accepted, and only
    counted: members, lanes, status and inventory are as before. *)
Theorem redelivery_only_counts (c : EventCluster) (memberInput : json) (m : EventClusterMember) :
  event_cluster_inv plan c → read_member memberInput m → m ∈ ec_members c →
  is_observing (ec_status c) = true → ec_revision c < MAX_SAFE_INTEGER →
  ∃ c', recordEventClusterMember c plan memberInput = Ok c' ∧
    ec_duplicateCount c' = ec_duplicateCount c + 1 ∧ ec_revision c' = ec_revision c + 1 ∧
    ec_members c' = ec_members c ∧ ec_lanes c' = ec_lanes c ∧ ec_status c' = ec_status c ∧
    ec_inventory c' = ec_inventory c ∧ ec_updatedAtMs c' = mb_retrievedAtMs m.
Proof.
  intros Hc Hv Hm Ho Hrev. destruct (redelivery_succeeds plan c memberInput m Hc Hv Hm Ho Hrev) as (g & Hg).
  eexists. split; [exact Hg|]. done.
Qed.

(** C22: A cluster is settled exactly when it is settling and the plan's settlement window
    has ended; it is then complete, no lane is pending, and its inventory lists each
    artifact digest of its members once in order, the lanes without any member, and the
    number of redeliveries. *)
Theorem settlement_exact (c : EventCluster) (atMs : jsnum) (t : Z) :
  event_cluster_inv plan c → ec_revision c < MAX_SAFE_INTEGER → epoch_arg atMs = Ok t →
  ((∃ c', settleEventCluster c plan atMs = Ok c') ↔
    ec_status c = Settling ∧ pw_settlementEndMs (ep_windows plan) <= t) ∧
  ∀ c', settleEventCluster c plan atMs = Ok c' →
    ec_status c' = Complete ∧ ec_members c' = ec_members c ∧
    Forall (λ l, ls_status l ≠ Lane_pending) (ec_lanes c') ∧
    ∃ i, ec_inventory c' = Some i ∧ inventory_of_members c' i.
Proof.
  intros Hc Hrev Ht. split; [by apply settlement_spec|]. intros c' Hs.
  assert (Hc' : event_cluster_inv plan c') by (by apply (operate_inv plan c (Op_settle atMs))).
  assert (Ho : operate plan c (Op_settle atMs) = Ok c') by exact Hs.
  apply operate_change in Ho as (d & Hd & Hsd). apply withDigest_Ok in Hsd as (g & -> & _).
  inversion Hd as [| | | |at' t' i Hst Hdr Hend Hi|]; subst.
  destruct (ci_inventory _ _ (ev_content _ _ Hc') i eq_refl) as (E & Hp & _).
  split_and!; [done|done|done|]. exists i. split; [done|]. by apply (inventory_exact plan); [apply Hc'|].
Qed.

(** C25: A settling cluster can also be completed by a plain transition, at any time: it
    then has no inventory and keeps its pending lanes, nothing that is attempted on it
    ever changes that, and recovery takes it for settled. *)
Theorem completed_without_inventory (c : EventCluster) (atMs : jsnum) (t : Z) :
  event_cluster_inv plan c → ec_revision c < MAX_SAFE_INTEGER → epoch_arg atMs = Ok t →
  ec_status c = Settling →
  ∃ c', transitionEventCluster c Complete atMs = Ok c' ∧ ec_inventory c' = None ∧
    ec_lanes c' = ec_lanes c ∧
    (∀ ops, Forall operation_wf ops → foldl (attempt plan) c' ops = c') ∧
    ∀ later, settleRecoveredEventClusterRun c' plan later = Ok c'.
Proof.
  intros Hc Hrev Ht Hs.
  destruct (transition_succeeds plan c Complete atMs t Hc Hrev Ht) as (g & Htr); [rewrite Hs; solve_elem|].
  destruct (running_inv plan c (ev_content _ _ Hc)) as [Ei _]; [congruence..|].
  assert (Hc' : event_cluster_inv plan _) by (by apply (operate_inv plan c (Op_transition Complete atMs))).
  eexists. split; [exact Htr|]. split_and!; [exact Ei|done| |].
  - intros ops Hops. by apply (el_final _ _ (attempts_later plan _ ops Hc' Hops)); left.
  - intros later. unfold settleRecoveredEventClusterRun. by rewrite (drift_free plan) by apply Hc'.
Qed.

(** C23: Whatever was attempted on a cluster, as long as it is neither complete nor stopped,
    at most five more operations settle it, once the plan's settlement window has ended. *)
Theorem settlement_reachable (c : EventCluster) (atMs : jsnum) (t : Z) :
  event_cluster_inv plan c → ec_revision c + 5 <= MAX_SAFE_INTEGER → epoch_arg atMs = Ok t →
  pw_settlementEndMs (ep_windows plan) <= t → ec_status c ≠ Complete → ec_status c ≠ Stopped →
  ∃ ops, Forall operation_wf ops ∧ (length ops <= 5)%nat ∧
    ec_status (foldl (attempt plan) c ops) = Complete ∧ ec_inventory (foldl (attempt plan) c ops) ≠ None.
Proof. apply running_settles. Qed.

(** C20: However the checkpoints of a plan's clusters are interleaved with appends of other
    events, refused appends and redeliveries included, recovery from the log reads the
    cluster that was written last, classifies it by its status and finds its completed
    and its pending lanes; without any checkpoint it reports that there is none.  Fuel of
    one page per event and one more is enough to read the log. *)
Theorem checkpoint_recovers (calls : list log_call) (fuel : nat) :
  Forall (call_ok plan) calls →
  let '(log, latest) := foldl make_call (empty_log, None) calls in
  (length (l_events log) < fuel)%nat →
  match latest with
  | None => recoverEventClusterRunFromLog log fuel plan =
      Some (Throw (BetaError "event-cluster.snapshot-missing"))
  | Some c => event_cluster_inv plan c ∧ of_json (JObj (rr_cluster (recovered c))) = Some c ∧
      recoverEventClusterRunFromLog log fuel plan = Some (Ok (recovered c)) ∧
      ∀ lane, shouldAcquireRecoveredLane (recovered c) lane = true ↔
        ec_status c ≠ Complete ∧ ec_status c ≠ Stopped ∧
        ∃ l, l ∈ ec_lanes c ∧ ls_lane l = lane ∧ ls_status l = Lane_pending
  end.
Proof.
  intros Hcalls. pose proof (runs_checkpointed plan calls Hcalls) as Hck.
  destruct (foldl make_call (empty_log, None) calls) as [log latest]. intros Hfuel.
  unfold recoverEventClusterRunFromLog. rewrite (read_log_Ok log fuel (ck_log _ _ Hck) Hfuel). cbn [mbind res_bind].
  pose proof (ck_last _ _ Hck) as Hlast. destruct latest as [c|]; cbn [snd] in Hlast.
  - destruct Hlast as [Hc _]. pose proof (recover_Ok plan _ c Hck eq_refl) as Hr. cbn [fst] in Hr. rewrite Hr.
    split_and!; [done|by apply (snapshot_record plan)|done|]. intros lane. apply recovered_lane.
  - pose proof (recover_none plan _ Hck eq_refl) as Hr. cbn [fst] in Hr. by rewrite Hr.
Qed.
End clusters.

(** ** Witnesses *)

Lemma plan_amendment_history_witness :
  plan_ok plan2 ∧ ep_revision plan2 = 2 ∧
  ∃ before, amended_from plan1 before ∧ ep_amendments before = [] ∧
    ep_revisionDigest before = am_priorRevisionDigest first_amendment.
Proof.
  destruct (plan_amendment_history _ _ _ _ _ plan1_compiled plan2_from) as (H1 & _ & H3).
  split; [exact H1|]. split; [reflexivity|]. exact (H3 0%nat first_amendment eq_refl).
Defined.

Definition reversed_spec : json :=
  demo_spec (rev demo_assignments) ["10-Q"; "8-K"; "8-K"]%string.
Definition terms_of (v : json) : EventPlanSpec :=
  match parse_as specSchema spec_of v with
  | Ok s => s
  | Throw _ => {| sp_windows := demo_windows; sp_sourceAssignments := []; sp_expectedForms := [];
      sp_expectedItems := []; sp_exhibitAliases := [] |}
  end.
Definition demo_terms : EventPlanSpec := Eval vm_compute in
  terms_of (demo_spec demo_assignments ["8-K"; "10-Q"]%string).
Definition reversed_terms : EventPlanSpec := Eval vm_compute in terms_of reversed_spec.

Lemma reversed_same_terms : same_terms demo_terms reversed_terms.
Proof.
  split; [reflexivity| | | |].
  - exists (sp_sourceAssignments reversed_terms). split; [apply (Permutation_rev (sp_sourceAssignments demo_terms))|].
    apply Forall_Forall2_diag, Forall_forall. intros a _. by split_and!.
  - intros x. cbn [demo_terms reversed_terms sp_expectedForms]. rewrite !elem_of_cons. tauto.
  - done.
  - done.
Qed.

Lemma plan_order_free_witness :
  compileEventPlan (to_json demo_candidate) reversed_spec demo_registry = Ok plan1.
Proof.
  apply (plan_order_free _ (demo_spec demo_assignments ["8-K"; "10-Q"]%string) reversed_spec demo_registry
    demo_terms reversed_terms).
  - intros l l' E. exact (js_compare_eq _ _ E).
  - vm_compute. reflexivity.
  - vm_compute. reflexivity.
  - exact reversed_same_terms.
  - exact plan1_compiled.
Defined.

(** A second calendar that agrees on the event, and comes first. *)
Definition other_candidate : CalendarCandidate := {|
  cc_calendarSourceId := js "almanac"; cc_calendarRevisionId := js "r7"; cc_issuerId := js "acme";
  cc_cik := js "0000320193"; cc_ticker := js "ACME"; cc_exchange := js "XNAS";
  cc_instrumentId := js "acme-1"; cc_sectorBenchmark := js "XLK"; cc_fiscalPeriod := js "2024-Q1";
  cc_expectedEventDate := js "2024-05-01"; cc_expectedSession := After_market; cc_discoveredAtMs := 4 |}.
Definition two_calendars : json := JArr [to_json demo_candidate; to_json other_candidate].
Definition calendar_result : list EventPlan := Eval vm_compute in
  match compileCalendarCandidates two_calendars (demo_spec demo_assignments ["8-K"]%string) demo_registry with
  | Ok plans => plans | Throw _ => [] end.

Lemma calendar_consensus_witness :
  map (λ p, cc_calendarSourceId (ep_candidate p)) calendar_result = [js "almanac"] ∧
  ∃ cs, parse_list CalendarCandidate (nonempty_array candidateSchema 32) two_calendars = Ok cs ∧
    calendar_plans cs (demo_spec demo_assignments ["8-K"]%string) demo_registry calendar_result.
Proof.
  split; [reflexivity|]. apply calendar_consensus.
  - apply json_wfb_wf. vm_compute. reflexivity.
  - vm_compute. reflexivity.
Defined.

Lemma event_cluster_invariant_witness : event_cluster_inv plan2 (foldl (attempt plan2) cluster0 opening_operations).
Proof. exact (event_cluster_invariant plan2 (NInt 7) cluster0 _ plan2_ok cluster0_created opening_wf). Defined.

Lemma event_cluster_progress_witness :
  ec_status cluster1 = Primary_observed ∧ ec_status (foldl (attempt plan2) cluster1 closing_operations) = Complete ∧
  event_cluster_later cluster1 (foldl (attempt plan2) cluster1 closing_operations).
Proof.
  split; [reflexivity|]. split; [vm_compute; reflexivity|].
  exact (event_cluster_progress plan2 cluster1 closing_operations cluster1_inv closing_wf).
Defined.

Lemma redelivery_only_counts_witness :
  ∃ c', recordEventClusterMember cluster1 plan2 (to_json demo_member) = Ok c' ∧ ec_duplicateCount c' = 1 ∧
    ec_members c' = ec_members cluster1.
Proof.
  destruct (redelivery_only_counts plan2 cluster1 (to_json demo_member) demo_member cluster1_inv)
    as (c' & H1 & H2 & _ & H4 & _); [vm_compute; reflexivity|vm_compute; by left|reflexivity|reflexivity|].
  exists c'. split; [exact H1|]. split; [exact H2|exact H4].
Defined.

Definition settling_cluster : EventCluster := Eval vm_compute in
  foldl (attempt plan2) cluster1 (take 2 closing_operations).
Lemma settling_inv : event_cluster_inv plan2 settling_cluster.
Proof.
  assert (E : foldl (attempt plan2) cluster1 (take 2 closing_operations) = settling_cluster)
    by (vm_compute; reflexivity).
  rewrite <-E. apply attempts_inv; [apply cluster1_inv|apply Forall_take, closing_wf].
Qed.

Lemma settlement_exact_witness :
  ∃ c', settleEventCluster settling_cluster plan2 (NInt 40) = Ok c' ∧ ec_status c' = Complete ∧
    ∃ i, ec_inventory c' = Some i ∧ inventory_of_members c' i.
Proof.
  destruct (settlement_exact plan2 settling_cluster (NInt 40) 40 settling_inv) as [[_ Hto] Hof];
    [reflexivity|vm_compute; reflexivity|].
  destruct Hto as (c' & Hc'); [by split|]. exists c'. destruct (Hof c' Hc') as (H1 & _ & _ & H4).
  split; [exact Hc'|]. split; [exact H1|exact H4].
Defined.

Lemma settlement_reachable_witness :
  ∃ ops, Forall operation_wf ops ∧ (length ops <= 5)%nat ∧
    ec_status (foldl (attempt plan2) cluster0 ops) = Complete ∧
    ec_inventory (foldl (attempt plan2) cluster0 ops) ≠ None.
Proof.
  apply (settlement_reachable plan2 cluster0 (NInt 40) 40 cluster0_inv);
    [vm_compute; discriminate|reflexivity|vm_compute; discriminate|discriminate|discriminate].
Defined.

Lemma rushed_inv : event_cluster_inv plan2 rushed.
Proof.
  assert (E : foldl (attempt plan2) cluster0 [Op_transition Prewarming (NInt 8); Op_transition Frozen (NInt 9);
    Op_transition Active (NInt 10); Op_transition Settling (NInt 11)] = rushed) by (vm_compute; reflexivity).
  rewrite <-E. apply attempts_inv; [apply cluster0_inv|repeat apply Forall_cons_2; try exact I; apply Forall_nil_2].
Qed.

(** At 12, long before the settlement window ends at 40, and with two lanes pending. *)
Lemma completed_without_inventory_witness :
  map ls_status (ec_lanes rushed) = [Lane_pending; Lane_pending; Lane_stable_missing; Lane_stable_missing] ∧
  ∃ c', transitionEventCluster rushed Complete (NInt 12) = Ok c' ∧ ec_inventory c' = None ∧
    ec_lanes c' = ec_lanes rushed ∧ settleRecoveredEventClusterRun c' plan2 (NInt 50) = Ok c'.
Proof.
  split; [reflexivity|].
  destruct (completed_without_inventory plan2 rushed (NInt 12) 12 rushed_inv) as (c' & H1 & H2 & H3 & _ & H5);
    [reflexivity|vm_compute; reflexivity|reflexivity|]. exists c'.
  split; [exact H1|]. split; [exact H2|]. split; [exact H3|apply H5].
Defined.

Lemma checkpoint_recovers_witness :
  recoverEventClusterRunFromLog demo_run.1 10 plan2 = Some (Ok (recovered cluster1)) ∧
  rr_pendingLanes (recovered cluster1) = [Lane_issuer_ir].
Proof.
  split; [|vm_compute; reflexivity].
  pose proof (checkpoint_recovers plan2 demo_calls 10 demo_calls_ok) as Hr.
  change (foldl make_call (empty_log, None) demo_calls) with demo_run in Hr.
  pose proof demo_run_latest as El. destruct demo_run as [log latest] eqn:Er. cbn [fst snd] in *. subst latest.
  apply Hr. assert (Hlen : length (l_events demo_run.1) = 4%nat) by (vm_compute; reflexivity).
  rewrite Er in Hlen. cbn [fst] in Hlen. lia.
Defined.
