(* ===== verification/Steps.v ===== *)
(** * Reasoning about methods

    [try], [finally] and loops in the monad of stateful methods, and the one judgement the
    proofs about long methods need: whatever a method does, the states before and after
    are related by a preorder.  An invariant is the preorder of implication. *)
From S2P Require Import Prelude.

(** [try { m } catch { handler }] *)
Definition sm_catch {S A} (m : sm S A) (handler : exn → sm S A) : sm S A := λ s,
  match m s with (s', Throw e) => handler e s' | other => other end.

(** [try { m } finally { last }] *)
Definition sm_finally {S A} (m : sm S A) (last : sm S unit) : sm S A := λ s,
  let (s1, r) := m s in
  match last s1 with (s2, Throw e) => (s2, Throw e) | (s2, Ok _) => (s2, r) end.

(** [for (const x of l) body(x)] *)
Fixpoint sm_each {S A} (body : A → sm S unit) (l : list A) : sm S unit :=
  match l with
  | [] => sm_ret tt
  | x :: l => sm! _ := body x in sm_each body l
  end.

Notation "'doing!' c1 ';;' c2" := (sm_bind c1 (λ _, c2))
  (at level 10, c1 at level 99, c2 at level 200) : peas_scope.

(** ** Related states *)

Definition steps {S A} (R : S → S → Prop) (m : sm S A) : Prop := ∀ s, R s (m s).1.

(** One run of a method. *)
Lemma steps_run {S A} (R : S → S → Prop) (m : sm S A) s s' r : steps R m → m s = (s', r) → R s s'.
Proof. intros Hm He. specialize (Hm s). by rewrite He in Hm. Qed.

Create HintDb steps.

Section steps.
Context {S : Type} (R : S → S → Prop) `{!PreOrder R}.

Lemma steps_ret {A} (a : A) : steps R (sm_ret a).
Proof. intros s. reflexivity. Qed.

Lemma steps_lift {A} (r : res A) : steps R (sm_lift r).
Proof. intros s. reflexivity. Qed.

Lemma steps_get : steps R sm_get.
Proof. intros s. reflexivity. Qed.

Lemma steps_bind {A B} (m : sm S A) (f : A → sm S B) :
  steps R m → (∀ a, steps R (f a)) → steps R (sm_bind m f).
Proof.
  intros Hm Hf s. unfold sm_bind. specialize (Hm s). destruct (m s) as [s' [a|e]]; cbn in *; [|done].
  etrans; [exact Hm|apply Hf].
Qed.

(** The continuation may use what the first method answered. *)
Lemma steps_bind_of {A B} (m : sm S A) (f : A → sm S B) s :
  R s (m s).1 → (∀ s' a, m s = (s', Ok a) → R s' (f a s').1) → R s (sm_bind m f s).1.
Proof.
  intros Hm Hf. unfold sm_bind. destruct (m s) as [s' [a|e]]; cbn in *; [|done].
  etrans; [exact Hm|by apply Hf].
Qed.

Lemma steps_catch {A} (m : sm S A) handler :
  steps R m → (∀ e, steps R (handler e)) → steps R (sm_catch m handler).
Proof.
  intros Hm Hh s. unfold sm_catch. specialize (Hm s). destruct (m s) as [s' [a|e]]; cbn in *; [done|].
  etrans; [exact Hm|apply Hh].
Qed.

Lemma steps_finally {A} (m : sm S A) last : steps R m → steps R last → steps R (sm_finally m last).
Proof.
  intros Hm Hl s. unfold sm_finally. specialize (Hm s). destruct (m s) as [s' r]; cbn in *.
  specialize (Hl s'). destruct (last s') as [s'' [u|e]]; cbn in *; by etrans.
Qed.

Lemma steps_each {A} (body : A → sm S unit) l :
  (∀ x, x ∈ l → steps R (body x)) → steps R (sm_each body l).
Proof.
  induction l as [|x l IH]; intros Hb; cbn [sm_each]; [apply steps_ret|].
  apply steps_bind; [apply Hb; by left|]. intros _. apply IH. intros y Hy. apply Hb. by right.
Qed.

Lemma steps_if {A} (b : bool) (m n : sm S A) : steps R m → steps R n → steps R (if b then m else n).
Proof. by destruct b. Qed.
End steps.

#[export] Hint Resolve steps_ret steps_lift steps_get steps_bind steps_catch steps_finally steps_if : steps.

(** Walk through a method: what is left are the steps of its parts. *)
Ltac steps :=
  repeat match goal with
    | |- PreOrder _ => typeclasses eauto
    | |- steps _ (sm_bind _ _) => apply steps_bind; [..|intros ?]
    | |- steps _ (sm_catch _ _) => apply steps_catch; [..|intros ?]
    | |- steps _ (sm_finally _ _) => apply steps_finally
    | |- steps _ (if _ then _ else _) => apply steps_if
    | |- steps _ (sm_each _ _) => apply steps_each; [..|intros ? ?]
    | |- steps _ (sm_ret _) => apply steps_ret
    | |- steps _ (sm_lift _) => apply steps_lift
    | |- steps _ sm_get => apply steps_get
    | |- steps _ (match ?x with _ => _ end) => destruct x
    end.

(** Methods that go on alike where they get. *)
Lemma sm_bind_ext {S A B} (m : sm S A) (f g : A → sm S B) s :
  (∀ s' a, m s = (s', Ok a) → f a s' = g a s') → sm_bind m f s = sm_bind m g s.
Proof. intros Hfg. unfold sm_bind. destruct (m s) as [s' [a|e]]; [by apply Hfg|done]. Qed.

Lemma sm_bind_assoc {S A B C} (m : sm S A) (f : A → sm S B) (g : B → sm S C) s :
  sm_bind (sm_bind m f) g s = sm_bind m (λ a, sm_bind (f a) g) s.
Proof. unfold sm_bind. by destruct (m s) as [s' [a|e]]. Qed.

(** The two sides of a method that ended well. *)
Lemma sm_each_ok {S A} (body : A → sm S unit) l (s s' : S) (P : A → S → Prop) (R : S → S → Prop) `{!PreOrder R} :
  (∀ x s1 s2, R s1 s2 → P x s1 → P x s2) →
  (∀ x s1 s2, x ∈ l → R s s1 → body x s1 = (s2, Ok tt) → R s1 s2 ∧ P x s2) →
  sm_each body l s = (s', Ok tt) → R s s' ∧ ∀ x, x ∈ l → P x s'.
Proof.
  intros Hstable. revert s. induction l as [|x l IH]; intros s Hb He; cbn [sm_each] in He.
  { injection He as <-. split; [done|]. by intros x ?%elem_of_nil. }
  apply sm_bind_ok in He as (s1 & [] & H1 & H2).
  destruct (Hb x s s1) as [R1 P1]; [by left|done|done|].
  destruct (IH s1) as [R2 P2]; [|done|].
  { intros y s2 s3 Hy Hr. apply Hb; [by right|by etrans]. }
  split; [by etrans|]. intros y [->|Hy]%elem_of_cons; [by eapply Hstable|by apply P2].
Qed.

Lemma sm_catch_ok {S A} (m : sm S A) handler (s s' : S) (a : A) :
  sm_catch m handler s = (s', Ok a) →
  m s = (s', Ok a) ∨ ∃ s1 e, m s = (s1, Throw e) ∧ handler e s1 = (s', Ok a).
Proof. unfold sm_catch. destruct (m s) as [s1 [b|e]]; [by left|]. right. by exists s1, e. Qed.

Lemma sm_finally_ok {S A} (m : sm S A) last (s s' : S) (a : A) :
  sm_finally m last s = (s', Ok a) → ∃ s1, m s = (s1, Ok a) ∧ last s1 = (s', Ok tt).
Proof.
  unfold sm_finally. destruct (m s) as [s1 r]. destruct (last s1) as [s2 [[]|e]] eqn:E; [|done].
  intros [= -> ->]. by exists s1.
Qed.
