(* ===== verification/Retention.v ===== *)
(** * Retention evidence ([retention/contracts.ts], [retention/identity.ts])

    The records a retention controller keeps: who owns which artifact and until when, the
    stops that end its use, the plans, attempts, tombstones, receipts and checkpoints of an
    erasure.  A record is a body and the identity derived from it.  The numbers of these
    records are integers; any other number fails the checks that every integer out of
    range fails. *)
From S2P Require Import Prelude JsString JsNumber Json JsonLimits JsonParse Hash Zod.
From S2P Require Import JsonObject Event Codec Records.

(** ** Literals *)

Inductive RetentionProviderLane : Type := Alpaca | Fmp.

Inductive RetentionStopReason : Type :=
  | Maximum_retention | Account_closure | Owner_revocation | Provider_guidance
  | Classification_loss | Subscription_termination | Attestation_expired.

Inductive AttemptOutcome : Type := Attempt_started | Attempt_erased | Already_absent | Attempt_failed.

#[export] Instance RetentionProviderLane_eq_dec : EqDecision RetentionProviderLane.
Proof. solve_decision. Defined.
#[export] Instance RetentionStopReason_eq_dec : EqDecision RetentionStopReason.
Proof. solve_decision. Defined.
#[export] Instance AttemptOutcome_eq_dec : EqDecision AttemptOutcome.
Proof. solve_decision. Defined.

#[export] Instance RetentionProviderLane_enum : Enumerated RetentionProviderLane.
Proof.
  refine {| enum_name := λ l, match l with Alpaca => js "alpaca" | Fmp => js "fmp" end;
    enum_all := [Alpaca; Fmp] |}.
  - by intros [].
  - intros []; apply js_units.
Defined.

#[export] Instance RetentionStopReason_enum : Enumerated RetentionStopReason.
Proof.
  refine {| enum_name := λ r, match r with
    | Maximum_retention => js "maximum-retention" | Account_closure => js "account-closure"
    | Owner_revocation => js "owner-revocation" | Provider_guidance => js "provider-guidance"
    | Classification_loss => js "classification-loss"
    | Subscription_termination => js "subscription-termination"
    | Attestation_expired => js "attestation-expired" end;
    enum_all := [Maximum_retention; Account_closure; Owner_revocation; Provider_guidance;
      Classification_loss; Subscription_termination; Attestation_expired] |}.
  - by intros [].
  - intros []; apply js_units.
Defined.

#[export] Instance AttemptOutcome_enum : Enumerated AttemptOutcome.
Proof.
  refine {| enum_name := λ o, match o with
    | Attempt_started => js "started" | Attempt_erased => js "erased"
    | Already_absent => js "already-absent" | Attempt_failed => js "failed" end;
    enum_all := [Attempt_started; Attempt_erased; Already_absent; Attempt_failed] |}.
  - by intros [].
  - intros []; apply js_units.
Defined.

(** ** Records *)

(** [Omit<RetentionOwnership, "ownershipId">] *)
Record OwnershipInput : Type := {
  ow_policyId : jsstring;
  ow_providerLane : RetentionProviderLane;
  ow_providerId : jsstring;
  ow_datasetId : jsstring;
  ow_feedId : jsstring;
  ow_endpointChannelId : jsstring;
  ow_artifactObservationId : jsstring;
  ow_artifactDigest : jsstring;
  ow_artifactSizeBytes : Z;
  ow_derivedIds : list jsstring;
  ow_trustedCaptureMs : Z;
  ow_expiresAtMs : Z
}.

Record RetentionOwnership : Type := {
  ow_ownershipId : jsstring;
  ow_input :> OwnershipInput
}.

(** [Omit<RetentionStopEvent, "stopEventId">] *)
Record StopInput : Type := {
  st_policyId : jsstring;
  st_providerLane : RetentionProviderLane;
  st_providerId : jsstring;
  st_effectiveAtMs : Z;
  st_deadlineMs : Z;
  st_reason : RetentionStopReason
}.

Record RetentionStopEvent : Type := {
  st_stopEventId : jsstring;
  st_input :> StopInput
}.

(** A plan's [predecessorReceiptId] is null in every plan. *)
Record PlanBody : Type := {
  pl_policyId : jsstring;
  pl_providerLane : RetentionProviderLane;
  pl_providerId : jsstring;
  pl_datasetIds : list jsstring;
  pl_feedIds : list jsstring;
  pl_endpointChannelIds : list jsstring;
  pl_artifactObservationIds : list jsstring;
  pl_artifactDigests : list jsstring;
  pl_derivedIds : list jsstring;
  pl_stopEventId : jsstring;
  pl_effectiveAtMs : Z;
  pl_deadlineMs : Z
}.

Record RetentionErasurePlan : Type := {
  pl_planId : jsstring;
  pl_planHash : jsstring;
  pl_body :> PlanBody
}.

Record AttemptBody : Type := {
  at_planId : jsstring;
  at_artifactDigest : jsstring;
  at_attemptOrdinal : Z;
  at_startedAtMs : Z;
  at_outcome : AttemptOutcome
}.

Record RetentionErasureAttempt : Type := {
  at_attemptId : jsstring;
  at_body :> AttemptBody
}.

Record TombstoneBody : Type := {
  tb_planId : jsstring;
  tb_artifactDigest : jsstring;
  tb_recordedAtMs : Z
}.

Record RetentionTombstone : Type := {
  tb_tombstoneId : jsstring;
  tb_body :> TombstoneBody
}.

(** The outcome of a receipt is always [verified-erased]. *)
Record ReceiptBody : Type := {
  rc_planId : jsstring;
  rc_planHash : jsstring;
  rc_artifactDigests : list jsstring;
  rc_artifactObservationIds : list jsstring;
  rc_priorSizeBytes : Z;
  rc_attemptCount : Z;
  rc_completedAtMs : Z
}.

Record RetentionReceipt : Type := {
  rc_receiptId : jsstring;
  rc_body :> ReceiptBody
}.

Record CheckpointBody : Type := {
  ck_planId : jsstring;
  ck_receiptId : jsstring;
  ck_sequence : Z;
  ck_completedAtMs : Z
}.

Record RetentionCheckpoint : Type := {
  ck_checkpointId : jsstring;
  ck_body :> CheckpointBody
}.

Record RevalidationBody : Type := {
  rv_planId : jsstring;
  rv_sequence : Z;
  rv_predecessorReceiptId : jsstring;
  rv_receipt : RetentionReceipt;
  rv_recordedAtMs : Z
}.

Record RetentionReceiptRevalidation : Type := {
  rv_revalidationId : jsstring;
  rv_body :> RevalidationBody
}.

(** What an erasure reports: the copies it erased, and whether there was none. *)
Record ErasureResult : Type := {
  er_artifactDigest : jsstring;
  er_content : Z;
  er_staging : Z;
  er_snapshot : Z;
  er_quarantine : Z;
  er_alreadyAbsent : bool
}.

(** ** JSON forms *)

Definition ownership_input_fields (o : OwnershipInput) : jobject :=
  [(js "policyId", JStr (ow_policyId o)); (js "providerLane", jenum (ow_providerLane o));
   (js "providerId", JStr (ow_providerId o)); (js "datasetId", JStr (ow_datasetId o));
   (js "feedId", JStr (ow_feedId o)); (js "endpointChannelId", JStr (ow_endpointChannelId o));
   (js "artifactObservationId", JStr (ow_artifactObservationId o));
   (js "artifactDigest", JStr (ow_artifactDigest o));
   (js "artifactSizeBytes", jint (ow_artifactSizeBytes o));
   (js "derivedIds", jstrs (ow_derivedIds o));
   (js "trustedCaptureMs", jint (ow_trustedCaptureMs o)); (js "expiresAtMs", jint (ow_expiresAtMs o))].

Definition ownership_json (o : RetentionOwnership) : json :=
  JObj ((js "ownershipId", JStr (ow_ownershipId o)) :: ownership_input_fields o).

Definition stop_input_fields (s : StopInput) : jobject :=
  [(js "policyId", JStr (st_policyId s)); (js "providerLane", jenum (st_providerLane s));
   (js "providerId", JStr (st_providerId s)); (js "effectiveAtMs", jint (st_effectiveAtMs s));
   (js "deadlineMs", jint (st_deadlineMs s)); (js "reason", jenum (st_reason s))].

Definition stop_json (s : RetentionStopEvent) : json :=
  JObj ((js "stopEventId", JStr (st_stopEventId s)) :: stop_input_fields s).

Definition plan_body_fields (p : PlanBody) : jobject :=
  [(js "policyId", JStr (pl_policyId p)); (js "providerLane", jenum (pl_providerLane p));
   (js "providerId", JStr (pl_providerId p)); (js "datasetIds", jstrs (pl_datasetIds p));
   (js "feedIds", jstrs (pl_feedIds p)); (js "endpointChannelIds", jstrs (pl_endpointChannelIds p));
   (js "artifactObservationIds", jstrs (pl_artifactObservationIds p));
   (js "artifactDigests", jstrs (pl_artifactDigests p)); (js "derivedIds", jstrs (pl_derivedIds p));
   (js "stopEventId", JStr (pl_stopEventId p)); (js "effectiveAtMs", jint (pl_effectiveAtMs p));
   (js "deadlineMs", jint (pl_deadlineMs p)); (js "predecessorReceiptId", JNull)].

(** A plan without its hash. *)
Definition plan_record_fields (planId : jsstring) (p : PlanBody) : jobject :=
  plan_body_fields p ++ [(js "planId", JStr planId)].

Definition plan_json (p : RetentionErasurePlan) : json :=
  JObj (plan_record_fields (pl_planId p) p ++ [(js "planHash", JStr (pl_planHash p))]).

Definition attempt_body_fields (a : AttemptBody) : jobject :=
  [(js "planId", JStr (at_planId a)); (js "artifactDigest", JStr (at_artifactDigest a));
   (js "attemptOrdinal", jint (at_attemptOrdinal a)); (js "startedAtMs", jint (at_startedAtMs a));
   (js "outcome", jenum (at_outcome a))].

Definition attempt_json (a : RetentionErasureAttempt) : json :=
  JObj (attempt_body_fields a ++ [(js "attemptId", JStr (at_attemptId a))]).

Definition tombstone_body_fields (t : TombstoneBody) : jobject :=
  [(js "planId", JStr (tb_planId t)); (js "artifactDigest", JStr (tb_artifactDigest t));
   (js "recordedAtMs", jint (tb_recordedAtMs t))].

Definition tombstone_json (t : RetentionTombstone) : json :=
  JObj (tombstone_body_fields t ++ [(js "tombstoneId", JStr (tb_tombstoneId t))]).

Definition receipt_body_fields (r : ReceiptBody) : jobject :=
  [(js "planId", JStr (rc_planId r)); (js "planHash", JStr (rc_planHash r));
   (js "artifactDigests", jstrs (rc_artifactDigests r));
   (js "artifactObservationIds", jstrs (rc_artifactObservationIds r));
   (js "priorSizeBytes", jint (rc_priorSizeBytes r)); (js "attemptCount", jint (rc_attemptCount r));
   (js "outcome", JStr (js "verified-erased")); (js "completedAtMs", jint (rc_completedAtMs r))].

Definition receipt_json (r : RetentionReceipt) : json :=
  JObj (receipt_body_fields r ++ [(js "receiptId", JStr (rc_receiptId r))]).

Definition checkpoint_body_fields (c : CheckpointBody) : jobject :=
  [(js "planId", JStr (ck_planId c)); (js "receiptId", JStr (ck_receiptId c));
   (js "sequence", jint (ck_sequence c)); (js "completedAtMs", jint (ck_completedAtMs c))].

Definition checkpoint_json (c : RetentionCheckpoint) : json :=
  JObj (checkpoint_body_fields c ++ [(js "checkpointId", JStr (ck_checkpointId c))]).

Definition revalidation_body_fields (r : RevalidationBody) : jobject :=
  [(js "planId", JStr (rv_planId r)); (js "sequence", jint (rv_sequence r));
   (js "predecessorReceiptId", JStr (rv_predecessorReceiptId r));
   (js "receipt", receipt_json (rv_receipt r)); (js "recordedAtMs", jint (rv_recordedAtMs r))].

Definition revalidation_json (r : RetentionReceiptRevalidation) : json :=
  JObj (revalidation_body_fields r ++ [(js "revalidationId", JStr (rv_revalidationId r))]).

(** ** Identities *)

Section identities.
Context `{Sha256}.

Definition prefixed (prefix domain : string) (fields : jobject) : res jsstring :=
  let* h := canonicalHash (js domain) (JObj fields) in
  Ok (js prefix ++ h).

Definition deriveRetentionOwnershipId (value : OwnershipInput) : res jsstring :=
  prefixed "row1_" "peas/market-acquisition-retention-ownership/v1" (ownership_input_fields value).

Definition deriveRetentionStopEventId (value : StopInput) : res jsstring :=
  prefixed "rst1_" "peas/market-acquisition-retention-stop/v1" (stop_input_fields value).

Definition deriveRetentionPlanId (value : PlanBody) : res jsstring :=
  prefixed "rpl1_" "peas/market-acquisition-retention-plan/v1" (plan_body_fields value).

Definition deriveRetentionPlanHash (planId : jsstring) (value : PlanBody) : res jsstring :=
  canonicalHash (js "peas/market-acquisition-retention-plan-record/v1")
    (JObj (plan_record_fields planId value)).

Definition deriveRetentionAttemptId (value : AttemptBody) : res jsstring :=
  prefixed "rea1_" "peas/market-acquisition-retention-attempt/v1" (attempt_body_fields value).

Definition deriveRetentionTombstoneId (value : TombstoneBody) : res jsstring :=
  prefixed "rtm1_" "peas/market-acquisition-retention-tombstone/v1" (tombstone_body_fields value).

Definition deriveRetentionReceiptId (value : ReceiptBody) : res jsstring :=
  prefixed "rrc1_" "peas/market-acquisition-retention-receipt/v1" (receipt_body_fields value).

Definition deriveRetentionReceiptRevalidationId (value : RevalidationBody) : res jsstring :=
  prefixed "rrv1_" "peas/market-acquisition-retention-revalidation/v1" (revalidation_body_fields value).

Definition deriveRetentionCheckpointId (value : CheckpointBody) : res jsstring :=
  prefixed "rck1_" "peas/market-acquisition-retention-checkpoint/v1" (checkpoint_body_fields value).

Definition recomputeRetentionPlanHash (plan : RetentionErasurePlan) : res jsstring :=
  deriveRetentionPlanHash (pl_planId plan) plan.
End identities.

(** ** Retention policies ([market-acquisition/private-artifact-policy.ts])

    How long an artifact may be kept, and how soon after a stop it must be gone.  The paths
    of the vault are not modelled. *)

Definition ALPACA_RETENTION_POLICY_ID : jsstring := js "p1-10-alpaca-private-retention-v1".
Definition FMP_RETENTION_POLICY_ID : jsstring := js "p1-10-fmp-private-retention-disabled-v1".
Definition ALPACA_MAX_RETENTION_DAYS : Z := 3650.
Definition ALPACA_STOP_GRACE_DAYS : Z := 30.
Definition UTC_DAY_MS : Z := 86400000.

Record PrivateArtifactPolicy : Type := {
  pp_policyId : jsstring;
  pp_providerLane : RetentionProviderLane;
  pp_maximumRetentionMs : Z;
  pp_stopGraceMs : Z;
  pp_enabled : bool
}.

Definition ALPACA_PRIVATE_ARTIFACT_POLICY : PrivateArtifactPolicy := {|
  pp_policyId := ALPACA_RETENTION_POLICY_ID; pp_providerLane := Alpaca;
  pp_maximumRetentionMs := ALPACA_MAX_RETENTION_DAYS * UTC_DAY_MS;
  pp_stopGraceMs := ALPACA_STOP_GRACE_DAYS * UTC_DAY_MS; pp_enabled := true |}.

Definition FMP_PRIVATE_ARTIFACT_POLICY : PrivateArtifactPolicy := {|
  pp_policyId := FMP_RETENTION_POLICY_ID; pp_providerLane := Fmp;
  pp_maximumRetentionMs := ALPACA_MAX_RETENTION_DAYS * UTC_DAY_MS;
  pp_stopGraceMs := 0; pp_enabled := false |}.

(** [Number.isSafeInteger(value) && value >= 0] *)
Definition safe_time (value : Z) : bool := is_safe_integer value && (0 <=? value).

(** The earlier of a provider's deadline, if any, and the policy's. *)
Definition earlier (own : Z) (provider : option Z) : Z :=
  match provider with Some t => Z.min own t | None => own end.

Definition retentionExpiryMs (policy : PrivateArtifactPolicy) (trustedCaptureMs : Z)
    (earlierProviderDeadlineMs : option Z) : res Z :=
  guard! negb (safe_time trustedCaptureMs) throws RangeError "Trusted capture time is invalid" ;;
  guard! match earlierProviderDeadlineMs with Some t => negb (safe_time t) | None => false end
    throws RangeError "Provider deadline is invalid" ;;
  let maximum := trustedCaptureMs + pp_maximumRetentionMs policy in
  guard! negb (is_safe_integer maximum) throws RangeError "Retention expiry exceeds safe time" ;;
  Ok (earlier maximum earlierProviderDeadlineMs).

Definition retentionStopDeadlineMs (policy : PrivateArtifactPolicy) (effectiveStopMs : Z)
    (earlierProviderDeadlineMs : option Z) : res Z :=
  guard! negb (safe_time effectiveStopMs) throws RangeError "Effective stop time is invalid" ;;
  let graceDeadline := effectiveStopMs + pp_stopGraceMs policy in
  guard! negb (is_safe_integer graceDeadline) throws RangeError "Stop deadline exceeds safe time" ;;
  Ok (earlier graceDeadline earlierProviderDeadlineMs).
