(* ===== verification/RetentionJournal.v ===== *)
(** * The memory retention journal ([retention/memory-journal.ts])

    The journal keeps evidence in maps whose entries never change once they are there, and
    the denials of use that follow from stops.  A map is the list of its values in
    insertion order, a lookup goes by the key of a value.  Every method that throws does
    so before it writes. *)
From S2P Require Import Prelude JsString JsNumber Json JsonLimits JsonParse Hash Zod JsonObject Event Codec.
From S2P Require Import Records Retention.

(** ** Maps *)

(** [map.get(k)] *)
Definition map_get {A} (key : A → jsstring) (k : jsstring) (values : list A) : option A :=
  find (λ x, same_string (key x) k) values.

(** [replayEqual(label, existing, next)] *)
Definition replayEqual (label : string) (existing next : json) : res unit :=
  let* same := same_text existing next in
  throw_if (negb same) (Error (label +:+ " conflicts with immutable retention evidence")).

(** Set a value under its own key, or check it against the one that is there. *)
Definition map_record {A} (label : string) (key : A → jsstring) (form : A → json) (values : list A)
    (value : A) : res (list A) :=
  match map_get key (key value) values with
  | Some existing => do! replayEqual label (form existing) (form value) ;; Ok values
  | None => Ok (values ++ [value])
  end.

(** [for (const x of xs) set.add(x)], a set being the list of its members in the order
    they came. *)
Definition set_add (members : list jsstring) (x : jsstring) : list jsstring :=
  if bool_decide (x ∈ members) then members else members ++ [x].
Definition set_add_all (members xs : list jsstring) : list jsstring := foldl set_add members xs.

(** ** The journal *)

Record MemoryArtifactRetentionJournal : Type := {
  mj_ownership : list RetentionOwnership;
  mj_derivedOwnership : gmap jsstring (list jsstring);
  mj_stops : list RetentionStopEvent;
  mj_providerDenials : list jsstring;
  mj_digestDenials : list jsstring;
  mj_derivedDenials : list jsstring;
  mj_plans : list RetentionErasurePlan;
  mj_attempts : list RetentionErasureAttempt;
  mj_tombstones : list RetentionTombstone;
  mj_receipts : list RetentionReceipt;
  mj_receiptRevalidations : list RetentionReceiptRevalidation;
  mj_revalidationCheckpoints : list RetentionCheckpoint;
  mj_checkpoints : list RetentionCheckpoint
}.

(** The keys of the maps that are not keyed by an identity. *)
Definition tombstone_key (t : RetentionTombstone) : jsstring := tb_artifactDigest t.
Definition receipt_key (r : RetentionReceipt) : jsstring := rc_planId r.
Definition checkpoint_key (c : RetentionCheckpoint) : jsstring := ck_planId c.

Abbreviation journal := MemoryArtifactRetentionJournal.

Definition empty_journal : journal := {|
  mj_ownership := []; mj_derivedOwnership := ∅; mj_stops := []; mj_providerDenials := [];
  mj_digestDenials := []; mj_derivedDenials := []; mj_plans := []; mj_attempts := [];
  mj_tombstones := []; mj_receipts := []; mj_receiptRevalidations := [];
  mj_revalidationCheckpoints := []; mj_checkpoints := [] |}.

(** Assignments to the private fields. *)
Definition with_ownership (j : journal) (ownership : list RetentionOwnership)
    (derived : gmap jsstring (list jsstring)) : journal := {|
  mj_ownership := ownership; mj_derivedOwnership := derived; mj_stops := mj_stops j;
  mj_providerDenials := mj_providerDenials j; mj_digestDenials := mj_digestDenials j;
  mj_derivedDenials := mj_derivedDenials j; mj_plans := mj_plans j; mj_attempts := mj_attempts j;
  mj_tombstones := mj_tombstones j; mj_receipts := mj_receipts j;
  mj_receiptRevalidations := mj_receiptRevalidations j;
  mj_revalidationCheckpoints := mj_revalidationCheckpoints j; mj_checkpoints := mj_checkpoints j |}.

Definition with_denials (j : journal) (stops : list RetentionStopEvent)
    (providers digests derived : list jsstring) : journal := {|
  mj_ownership := mj_ownership j; mj_derivedOwnership := mj_derivedOwnership j; mj_stops := stops;
  mj_providerDenials := providers; mj_digestDenials := digests; mj_derivedDenials := derived;
  mj_plans := mj_plans j; mj_attempts := mj_attempts j; mj_tombstones := mj_tombstones j;
  mj_receipts := mj_receipts j; mj_receiptRevalidations := mj_receiptRevalidations j;
  mj_revalidationCheckpoints := mj_revalidationCheckpoints j; mj_checkpoints := mj_checkpoints j |}.

Definition with_evidence (j : journal) (plans : list RetentionErasurePlan)
    (attempts : list RetentionErasureAttempt) (tombstones : list RetentionTombstone)
    (receipts : list RetentionReceipt) (checkpoints : list RetentionCheckpoint) : journal := {|
  mj_ownership := mj_ownership j; mj_derivedOwnership := mj_derivedOwnership j; mj_stops := mj_stops j;
  mj_providerDenials := mj_providerDenials j; mj_digestDenials := mj_digestDenials j;
  mj_derivedDenials := mj_derivedDenials j; mj_plans := plans; mj_attempts := attempts;
  mj_tombstones := tombstones; mj_receipts := receipts;
  mj_receiptRevalidations := mj_receiptRevalidations j;
  mj_revalidationCheckpoints := mj_revalidationCheckpoints j; mj_checkpoints := checkpoints |}.

Definition with_revalidations (j : journal) (revalidations : list RetentionReceiptRevalidation)
    (checkpoints : list RetentionCheckpoint) : journal := {|
  mj_ownership := mj_ownership j; mj_derivedOwnership := mj_derivedOwnership j; mj_stops := mj_stops j;
  mj_providerDenials := mj_providerDenials j; mj_digestDenials := mj_digestDenials j;
  mj_derivedDenials := mj_derivedDenials j; mj_plans := mj_plans j; mj_attempts := mj_attempts j;
  mj_tombstones := mj_tombstones j; mj_receipts := mj_receipts j;
  mj_receiptRevalidations := revalidations; mj_revalidationCheckpoints := checkpoints;
  mj_checkpoints := mj_checkpoints j |}.

(** ** Denials *)

(** [`${lane}:${providerId}`] *)
Definition provider_text (lane : RetentionProviderLane) (providerId : jsstring) : jsstring :=
  enum_name lane ++ js ":" ++ providerId.

Definition providerUseDenied (j : journal) (lane : RetentionProviderLane) (providerId : jsstring) : bool :=
  bool_decide (provider_text lane providerId ∈ mj_providerDenials j).

Definition reconciliationUseDenied (j : journal) (trustedNowMs : Z) : bool :=
  negb (bool_decide (mj_providerDenials j = [])) ||
  existsb (λ o : RetentionOwnership, ow_expiresAtMs o <=? trustedNowMs) (mj_ownership j).

Definition hasTombstone (j : journal) (digest : jsstring) : bool :=
  bool_decide (is_Some (map_get tombstone_key digest (mj_tombstones j))).

Definition digestUseDenied (j : journal) (digest : jsstring) : bool :=
  bool_decide (digest ∈ mj_digestDenials j) || hasTombstone j digest.

Definition derivedUseDenied (j : journal) (derivedId : jsstring) : bool :=
  bool_decide (derivedId ∈ mj_derivedDenials j).

(** ** Ownership *)

Definition lineage (j : journal) (ownershipId : jsstring) : list jsstring :=
  default [] (mj_derivedOwnership j !! ownershipId).

(** [set.add] for every id of a list, under an ownership. *)
Definition add_lineage (j : journal) (ownershipId : jsstring) (derivedIds : list jsstring) :
    gmap jsstring (list jsstring) :=
  <[ownershipId := set_add_all (lineage j ownershipId) derivedIds]> (mj_derivedOwnership j).

(** What happens to digests and derived ids that come in under a denied provider. *)
Definition deny (j : journal) (digests derivedIds : list jsstring) : journal :=
  with_denials j (mj_stops j) (mj_providerDenials j) (set_add_all (mj_digestDenials j) digests)
    (set_add_all (mj_derivedDenials j) derivedIds).

Definition registerOwnershipAndApplyActiveStop (j : journal) (value : RetentionOwnership) :
    res (journal * bool) :=
  let* ownership := map_record "Ownership" ow_ownershipId ownership_json (mj_ownership j) value in
  let registered := with_ownership j ownership (add_lineage j (ow_ownershipId value) (ow_derivedIds value)) in
  let denied := providerUseDenied registered (ow_providerLane value) (ow_providerId value) in
  Ok (if denied then deny registered [ow_artifactDigest value] (ow_derivedIds value) else registered,
      negb denied).

Definition registerDerivedLineageAndApplyActiveStop (j : journal) (ownershipId : jsstring)
    (derivedIds : list jsstring) : res (journal * bool) :=
  match map_get ow_ownershipId ownershipId (mj_ownership j) with
  | None => Throw (Error "Retention ownership is missing")
  | Some ownership =>
      let registered := with_ownership j (mj_ownership j) (add_lineage j ownershipId derivedIds) in
      let denied := providerUseDenied registered (ow_providerLane ownership) (ow_providerId ownership) in
      Ok (if denied then deny registered [] derivedIds else registered, negb denied)
  end.

Definition set_derived (o : RetentionOwnership) (derivedIds : list jsstring) : RetentionOwnership := {|
  ow_ownershipId := ow_ownershipId o;
  ow_input := {|
    ow_policyId := ow_policyId o; ow_providerLane := ow_providerLane o;
    ow_providerId := ow_providerId o; ow_datasetId := ow_datasetId o; ow_feedId := ow_feedId o;
    ow_endpointChannelId := ow_endpointChannelId o;
    ow_artifactObservationId := ow_artifactObservationId o;
    ow_artifactDigest := ow_artifactDigest o; ow_artifactSizeBytes := ow_artifactSizeBytes o;
    ow_derivedIds := derivedIds; ow_trustedCaptureMs := ow_trustedCaptureMs o;
    ow_expiresAtMs := ow_expiresAtMs o |} |}.

Definition withDerived (j : journal) (o : RetentionOwnership) : RetentionOwnership :=
  set_derived o (sort_by js_leb (lineage j (ow_ownershipId o))).

Section locale.
Context `{Locale}.

(** The three listings: filtered, by ownership id, with their lineage. *)
Definition list_where (j : journal) (test : RetentionOwnership → bool) : list RetentionOwnership :=
  map (withDerived j)
    (sort_by (λ a b, locale_leb (ow_ownershipId a) (ow_ownershipId b))
      (List.filter test (mj_ownership j))).

Definition owned_by (lane : RetentionProviderLane) (providerId : jsstring) (o : RetentionOwnership) : bool :=
  bool_decide (ow_providerLane o = lane) && same_string (ow_providerId o) providerId.

Definition listOwnership (j : journal) (lane : RetentionProviderLane) (providerId : jsstring) :
    list RetentionOwnership := list_where j (owned_by lane providerId).

Definition ownershipForDigest (j : journal) (digest : jsstring) : list RetentionOwnership :=
  list_where j (λ o, same_string (ow_artifactDigest o) digest).

Definition ownershipForDerivedId (j : journal) (derivedId : jsstring) : list RetentionOwnership :=
  list_where j (λ o, bool_decide (derivedId ∈ lineage j (ow_ownershipId o))).

(** ** Stops *)

Definition recordStopAndDenials (j : journal) (stop : RetentionStopEvent) (derivedIds : list jsstring) :
    res journal :=
  let* stops := map_record "Stop" st_stopEventId stop_json (mj_stops j) stop in
  Ok (with_denials j stops
    (set_add (mj_providerDenials j) (provider_text (st_providerLane stop) (st_providerId stop)))
    (set_add_all (mj_digestDenials j)
      (map (λ o : RetentionOwnership, ow_artifactDigest o)
        (listOwnership j (st_providerLane stop) (st_providerId stop))))
    (set_add_all (mj_derivedDenials j) derivedIds)).
End locale.

(** ** Evidence *)

Definition recordPlan (j : journal) (value : RetentionErasurePlan) : res journal :=
  let* plans := map_record "Plan" pl_planId plan_json (mj_plans j) value in
  Ok (with_evidence j plans (mj_attempts j) (mj_tombstones j) (mj_receipts j) (mj_checkpoints j)).

Definition getPlan (j : journal) (planId : jsstring) : option RetentionErasurePlan :=
  map_get pl_planId planId (mj_plans j).

Definition getPlanForStop (j : journal) (stopEventId : jsstring) : option RetentionErasurePlan :=
  find (λ p : RetentionErasurePlan, same_string (pl_stopEventId p) stopEventId) (mj_plans j).

Definition recordAttempt (j : journal) (value : RetentionErasureAttempt) : res journal :=
  let* attempts := map_record "Attempt" at_attemptId attempt_json (mj_attempts j) value in
  Ok (with_evidence j (mj_plans j) attempts (mj_tombstones j) (mj_receipts j) (mj_checkpoints j)).

Definition attemptsFor (j : journal) (planId digest : jsstring) : list RetentionErasureAttempt :=
  sort_by (λ a b : RetentionErasureAttempt, at_attemptOrdinal a <=? at_attemptOrdinal b)
    (List.filter (λ a : RetentionErasureAttempt,
      same_string (at_planId a) planId && same_string (at_artifactDigest a) digest) (mj_attempts j)).

Definition recordTombstone (j : journal) (value : RetentionTombstone) : res journal :=
  let* tombstones := map_record "Tombstone" tombstone_key tombstone_json (mj_tombstones j) value in
  Ok (with_evidence j (mj_plans j) (mj_attempts j) tombstones (mj_receipts j) (mj_checkpoints j)).

Definition recordReceipt (j : journal) (value : RetentionReceipt) : res journal :=
  let* receipts := map_record "Receipt" receipt_key receipt_json (mj_receipts j) value in
  Ok (with_evidence j (mj_plans j) (mj_attempts j) (mj_tombstones j) receipts (mj_checkpoints j)).

Definition getReceiptForPlan (j : journal) (planId : jsstring) : option RetentionReceipt :=
  map_get receipt_key planId (mj_receipts j).

Definition recordCheckpoint (j : journal) (value : RetentionCheckpoint) : res journal :=
  let* checkpoints := map_record "Checkpoint" checkpoint_key checkpoint_json (mj_checkpoints j) value in
  Ok (with_evidence j (mj_plans j) (mj_attempts j) (mj_tombstones j) (mj_receipts j) checkpoints).

Definition getCheckpoint (j : journal) (planId : jsstring) : option RetentionCheckpoint :=
  map_get checkpoint_key planId (mj_checkpoints j).

(** ** Revalidations *)

(** Another revalidation has the plan and sequence, or the receipt. *)
Definition revalidation_taken (j : journal) (value : RetentionReceiptRevalidation) : bool :=
  existsb (λ m : RetentionReceiptRevalidation,
    (same_string (rv_planId m) (rv_planId value) && (rv_sequence m =? rv_sequence value)) ||
    same_string (rc_receiptId (rv_receipt m)) (rc_receiptId (rv_receipt value)))
    (mj_receiptRevalidations j).

Definition checkpoint_taken (j : journal) (value : RetentionCheckpoint) : bool :=
  existsb (λ m : RetentionCheckpoint,
    (same_string (ck_planId m) (ck_planId value) && (ck_sequence m =? ck_sequence value)) ||
    same_string (ck_receiptId m) (ck_receiptId value))
    (mj_revalidationCheckpoints j).

(** A new value or the one that is there, unless its place is taken. *)
Definition map_record_once {A} (label : string) (key : A → jsstring) (form : A → json) (taken : A → bool)
    (values : list A) (value : A) : res (list A) :=
  match map_get key (key value) values with
  | Some existing => do! replayEqual label (form existing) (form value) ;; Ok values
  | None =>
      guard! taken value throws Error (label +:+ " conflicts with immutable retention evidence") ;;
      Ok (values ++ [value])
  end.

Definition recordReceiptRevalidation (j : journal) (value : RetentionReceiptRevalidation) : res journal :=
  let* revalidations := map_record_once "Receipt revalidation" rv_revalidationId revalidation_json
    (revalidation_taken j) (mj_receiptRevalidations j) value in
  Ok (with_revalidations j revalidations (mj_revalidationCheckpoints j)).

Definition recordReceiptRevalidationAndCheckpoint (j : journal) (value : RetentionReceiptRevalidation)
    (checkpoint : RetentionCheckpoint) : res journal :=
  guard! negb (same_string (ck_planId checkpoint) (rv_planId value)) ||
         negb (same_string (ck_receiptId checkpoint) (rc_receiptId (rv_receipt value))) ||
         negb (ck_sequence checkpoint =? rv_sequence value) ||
         negb (ck_completedAtMs checkpoint =? rc_completedAtMs (rv_receipt value))
    throws Error "Receipt revalidation checkpoint conflicts with immutable retention evidence" ;;
  let* revalidations := map_record_once "Receipt revalidation" rv_revalidationId revalidation_json
    (revalidation_taken j) (mj_receiptRevalidations j) value in
  let* checkpoints := map_record_once "Revalidation checkpoint" ck_checkpointId checkpoint_json
    (checkpoint_taken j) (mj_revalidationCheckpoints j) checkpoint in
  Ok (with_revalidations j revalidations checkpoints).

Definition receiptRevalidationsForPlan (j : journal) (planId : jsstring) :
    list RetentionReceiptRevalidation :=
  sort_by (λ a b : RetentionReceiptRevalidation, rv_sequence a <=? rv_sequence b)
    (List.filter (λ r : RetentionReceiptRevalidation, same_string (rv_planId r) planId)
      (mj_receiptRevalidations j)).

Definition revalidationCheckpointsForPlan (j : journal) (planId : jsstring) : list RetentionCheckpoint :=
  sort_by (λ a b : RetentionCheckpoint, ck_sequence a <=? ck_sequence b)
    (List.filter (λ c : RetentionCheckpoint, same_string (ck_planId c) planId)
      (mj_revalidationCheckpoints j)).
