(* ===== verification/RetentionController.v ===== *)
(** * The retention controller ([retention/controller.ts])

    The controller registers who owns an artifact, lets operations use artifacts while
    nothing forbids it, and enforces stops: it denies every use of what a provider
    delivered, erases all copies and leaves a verified receipt.  The vault, the clock and the
    fault boundary of the tests are a foreign world.  What other callers of the controller
    do while a call waits is a parameter: an [await] gives them a turn before and after the
    awaited call of the world. *)
From S2P Require Import Prelude Steps JsString JsNumber Json JsonLimits JsonParse Hash Zod JsonObject.
From S2P Require Import Event Codec Records Retention RetentionJournal.

(** ** The foreign world *)

Class RetentionWorld (W : Type) : Type := {
  w_nowMs : W → W * Z;
  w_faultBoundary : string → jsstring → sm W unit;
  w_settleActiveReadersAndWriters : sm W bool;
  w_eraseDigestCopies : jsstring → sm W ErasureResult;
  w_verifyDigestCopiesAbsent : jsstring → sm W bool
}.

(** ** State *)

Record RetentionCoordinator : Type := {
  co_admissionClosed : bool;
  co_pendingStops : Z;
  co_activeOperations : Z;
  co_operationStopHandlers : list nat
}.

Definition open_coordinator : RetentionCoordinator := {|
  co_admissionClosed := false; co_pendingStops := 0; co_activeOperations := 0;
  co_operationStopHandlers := [] |}.

(** What the closures of a lease share. *)
Record RetentionOperationLease : Type := {
  le_digests : list jsstring;
  le_derived : list jsstring;
  le_released : bool;
  le_stopHandler : option nat
}.

(** [rt_idleWaiting] is the coordinator's [operationIdleWaiting]: how many resolvers of
    waiting stops are in it.  They are pushed one by one, and only ever taken out, and
    called, all at once. *)
Record ArtifactRetentionController (W : Type) : Type := {
  rt_journal : journal;
  rt_coordinator : RetentionCoordinator;
  rt_idleWaiting : Z;
  rt_leases : list RetentionOperationLease;
  rt_world : W
}.
Arguments rt_journal {W}.
Arguments rt_coordinator {W}.
Arguments rt_idleWaiting {W}.
Arguments rt_leases {W}.
Arguments rt_world {W}.
Abbreviation controller := ArtifactRetentionController.

(** The other callers: what they do in the turn an [await] gives them, in the time given to
    active operations to end (and whether they ended), and in the handler of an operation. *)
Class RetentionCallers (W : Type) : Type := {
  c_turn : controller W → controller W;
  c_idle : Z → controller W → controller W * bool;
  c_stopHandler : nat → sm (controller W) unit
}.

(** ** Errors and identifiers

    The details of a safe error are left out. *)

Definition safeAcquisitionError (reasonCode operationStage : string) : exn :=
  CodedError "SafeAcquisitionError" reasonCode operationStage.

Definition is_lower (u : Z) : bool := (97 <=? u) && (u <=? 122).
Definition is_lower_or_digit (u : Z) : bool := is_lower u || is_digit u.

(** [/^[a-z][a-z0-9]*_[0-9a-f]{64}$/u]: 64 digits after the only underscore. *)
Definition ID (s : jsstring) : bool :=
  let n := (length s - 65)%nat in
  match take n s with
  | u :: prefix => is_lower u && forallb is_lower_or_digit prefix
  | [] => false
  end && bool_decide (take 1 (drop n s) = js "_") && is_hash (drop (S n) s).

(** [/^[a-z0-9][a-z0-9-]{0,127}$/u] *)
Definition POLICY_ID (s : jsstring) : bool :=
  match s with
  | u :: rest => is_lower_or_digit u && (js_length rest <=? 127) &&
      forallb (λ u, is_lower_or_digit u || (u =? 45)) rest
  | [] => false
  end.

Definition assertSafeTime (value : Z) (label : string) : res unit :=
  throw_if (negb (safe_time value)) (RangeError (label +:+ " is invalid")).

Definition assertId (value : jsstring) (label : string) : res unit :=
  throw_if (negb (ID value)) (TypeError (label +:+ " is invalid")).

Fixpoint adjacent_equal (l : list jsstring) : bool :=
  match l with
  | a :: ((b :: _) as rest) => same_string a b || adjacent_equal rest
  | _ => false
  end.

(** Sorted by UTF-8 bytes. *)
Definition sortedUnique (values : list jsstring) : res (list jsstring) :=
  let result := sort_by (λ a b, js_leb (utf8 a) (utf8 b)) values in
  guard! adjacent_equal result throws TypeError "Retention identifier sets must be unique" ;;
  Ok result.

Definition sortedSet `{Locale} (values : list jsstring) : list jsstring :=
  sort_by locale_leb (set_add_all [] values).

Section methods.
Context `{Sha256} `{Zod} `{Locale} {W : Type} `{!RetentionWorld W} `{!RetentionCallers W}.
Abbreviation St := (controller W).

Definition put_journal (j : journal) (s : St) : St := {|
  rt_journal := j; rt_coordinator := rt_coordinator s; rt_idleWaiting := rt_idleWaiting s;
  rt_leases := rt_leases s; rt_world := rt_world s |}.
Definition put_coordinator (c : RetentionCoordinator) (s : St) : St := {|
  rt_journal := rt_journal s; rt_coordinator := c; rt_idleWaiting := rt_idleWaiting s;
  rt_leases := rt_leases s; rt_world := rt_world s |}.
Definition put_idle (n : Z) (s : St) : St := {|
  rt_journal := rt_journal s; rt_coordinator := rt_coordinator s; rt_idleWaiting := n;
  rt_leases := rt_leases s; rt_world := rt_world s |}.
Definition put_leases (l : list RetentionOperationLease) (s : St) : St := {|
  rt_journal := rt_journal s; rt_coordinator := rt_coordinator s; rt_idleWaiting := rt_idleWaiting s;
  rt_leases := l; rt_world := rt_world s |}.
Definition put_world (w : W) (s : St) : St := {|
  rt_journal := rt_journal s; rt_coordinator := rt_coordinator s; rt_idleWaiting := rt_idleWaiting s;
  rt_leases := rt_leases s; rt_world := w |}.

(** Reads and calls of the journal. *)
Definition asks {A} (f : journal → A) : sm St A := λ s, (s, Ok (f (rt_journal s))).
Definition answers {A} (f : journal → res A) : sm St A := λ s, (s, f (rt_journal s)).
Definition records (f : journal → res journal) : sm St unit := λ s,
  match f (rt_journal s) with Ok j => (put_journal j s, Ok tt) | Throw e => (s, Throw e) end.
Definition registers (f : journal → res (journal * bool)) : sm St bool := λ s,
  match f (rt_journal s) with Ok (j, b) => (put_journal j s, Ok b) | Throw e => (s, Throw e) end.

Definition coordinator : sm St RetentionCoordinator := λ s, (s, Ok (rt_coordinator s)).
Definition coordinates (f : RetentionCoordinator → RetentionCoordinator) : sm St unit := λ s,
  (put_coordinator (f (rt_coordinator s)) s, Ok tt).

(** Calls of the world. *)
Definition world {A} (m : sm W A) : sm St A := λ s,
  let (w, r) := m (rt_world s) in (put_world w s, r).

(** [await m], [m] a call of the world. *)
Definition awaits {A} (m : sm W A) : sm St A :=
  sm_finally (doing! sm_modify c_turn ;; world m) (sm_modify c_turn).

Definition fault (checkpoint : string) : sm St unit := awaits (w_faultBoundary checkpoint []).
Definition fault_at (checkpoint : string) (digest : jsstring) : sm St unit :=
  awaits (w_faultBoundary checkpoint digest).
Definition settleReaders : sm St bool := awaits w_settleActiveReadersAndWriters.
Definition eraseCopies (digest : jsstring) : sm St ErasureResult := awaits (w_eraseDigestCopies digest).
Definition verifyAbsent (digest : jsstring) : sm St bool := awaits (w_verifyDigestCopiesAbsent digest).

(** [throw] under a condition. *)
Definition refuse (b : bool) (reasonCode operationStage : string) : sm St unit :=
  sm_lift (throw_if b (safeAcquisitionError reasonCode operationStage)).

(** [#trustedNow()] *)
Definition trustedNow : sm St Z :=
  sm! value := world (λ w, let (w, t) := w_nowMs w in (w, Ok t)) in
  doing! sm_lift (assertSafeTime value "Trusted retention time") ;;
  sm_ret value.

(** [#assertDeadline(deadlineMs)] *)
Definition assertDeadline (deadlineMs : Z) : sm St unit :=
  sm! now := trustedNow in refuse (deadlineMs <? now) "retention-deadline-breached" "retention-erase".

(** ** Validation *)

Definition policy_of (lane : RetentionProviderLane) : PrivateArtifactPolicy :=
  match lane with Alpaca => ALPACA_PRIVATE_ARTIFACT_POLICY | Fmp => FMP_PRIVATE_ARTIFACT_POLICY end.

Fixpoint assert_ids (ids : list jsstring) : res unit :=
  match ids with
  | [] => Ok tt
  | id :: ids => do! assertId id "Derived identifier" ;; assert_ids ids
  end.

(** The observation may be an identifier under the test authority. *)
Definition validateOwnership (testAuthority : bool) (value : OwnershipInput) : res unit :=
  let invalid := safeAcquisitionError "retention-policy-invalid" "retention-plan" in
  guard! negb (same_string (ow_policyId value) ALPACA_RETENTION_POLICY_ID) &&
         negb (same_string (ow_policyId value) FMP_RETENTION_POLICY_ID) throws invalid ;;
  guard! bool_decide (ow_providerLane value = Fmp) &&
         negb (same_string (ow_policyId value) FMP_RETENTION_POLICY_ID) throws invalid ;;
  guard! bool_decide (ow_providerLane value = Alpaca) &&
         negb (same_string (ow_policyId value) ALPACA_RETENTION_POLICY_ID) throws invalid ;;
  do! assertId (ow_providerId value) "Provider" ;;
  do! assertId (ow_datasetId value) "Dataset" ;;
  do! assertId (ow_feedId value) "Feed" ;;
  do! assertId (ow_endpointChannelId value) "Channel" ;;
  guard! negb (is_hash (ow_artifactObservationId value)) &&
         negb (testAuthority && ID (ow_artifactObservationId value))
    throws TypeError "Observation is invalid" ;;
  do! parse hash (JStr (ow_artifactDigest value)) ;;
  do! assert_ids (ow_derivedIds value) ;;
  do! sortedUnique (ow_derivedIds value) ;;
  do! assertSafeTime (ow_trustedCaptureMs value) "Trusted capture time" ;;
  do! assertSafeTime (ow_expiresAtMs value) "Expiry time" ;;
  guard! negb (safe_time (ow_artifactSizeBytes value)) ||
         (ow_expiresAtMs value <? ow_trustedCaptureMs value)
    throws RangeError "Retention ownership bounds are invalid" ;;
  let maximumExpiry := ow_trustedCaptureMs value + pp_maximumRetentionMs (policy_of (ow_providerLane value)) in
  throw_if (negb (is_safe_integer maximumExpiry) || (maximumExpiry <? ow_expiresAtMs value)) invalid.

Definition validateStop (value : StopInput) : res unit :=
  let invalid := safeAcquisitionError "retention-policy-invalid" "retention-stop" in
  guard! negb (POLICY_ID (st_policyId value)) throws TypeError "Retention policy is invalid" ;;
  do! assertId (st_providerId value) "Provider" ;;
  do! assertSafeTime (st_effectiveAtMs value) "Stop effective time" ;;
  do! assertSafeTime (st_deadlineMs value) "Stop deadline" ;;
  guard! st_deadlineMs value <? st_effectiveAtMs value throws invalid ;;
  let policy := policy_of (st_providerLane value) in
  throw_if (negb (same_string (st_policyId value) (pp_policyId policy)) ||
    (st_effectiveAtMs value + pp_stopGraceMs policy <? st_deadlineMs value)) invalid.

(** ** Use *)

Definition expired (now : Z) (ownership : list RetentionOwnership) : bool :=
  existsb (λ o : RetentionOwnership, ow_expiresAtMs o <=? now) ownership.

(** [#assertArtifactUseAllowed(digest)] *)
Definition artifactUseAllowed (digest : jsstring) : sm St unit :=
  doing! sm_lift (do! parse hash (JStr digest) ;; Ok tt) ;;
  sm! now := trustedNow in
  sm! ownership := asks (λ j, ownershipForDigest j digest) in
  sm! denied := asks (λ j, digestUseDenied j digest) in
  refuse (bool_decide (ownership = []) || denied || expired now ownership)
    "retention-stop-required" "artifact-verify".

(** [#assertDerivedUseAllowed(derivedId)] *)
Definition derivedUseAllowed (derivedId : jsstring) : sm St unit :=
  doing! sm_lift (assertId derivedId "Derived identifier") ;;
  sm! now := trustedNow in
  sm! ownership := asks (λ j, ownershipForDerivedId j derivedId) in
  sm! denied := asks (λ j, derivedUseDenied j derivedId) in
  refuse (bool_decide (ownership = []) || denied || expired now ownership)
    "retention-stop-required" "normalization".

Definition assertArtifactUseAllowed (digest : jsstring) : sm St unit :=
  sm! c := coordinator in
  doing! refuse (co_admissionClosed c) "retention-stop-required" "artifact-verify" ;;
  artifactUseAllowed digest.

Definition assertDerivedUseAllowed (derivedId : jsstring) : sm St unit :=
  sm! c := coordinator in
  doing! refuse (co_admissionClosed c) "retention-stop-required" "normalization" ;;
  derivedUseAllowed derivedId.

(** The [assertAllowed] of a lease. *)
Definition assertAllowed (digests derived : list jsstring) : sm St unit :=
  sm! c := coordinator in
  doing! refuse (co_admissionClosed c) "retention-stop-required" "artifact-verify" ;;
  doing! (if bool_decide (digests = []) && bool_decide (derived = []) then
            sm! now := trustedNow in
            sm! denied := asks (λ j, reconciliationUseDenied j now) in
            refuse denied "retention-stop-required" "artifact-verify"
          else sm_ret tt) ;;
  doing! sm_each artifactUseAllowed digests ;;
  sm_each derivedUseAllowed derived.

(** ** Ownership and leases *)

Definition identified (input : OwnershipInput) (derivedIds : list jsstring) (id : jsstring) :
    RetentionOwnership :=
  set_derived {| ow_ownershipId := id; ow_input := input |} derivedIds.

(** [#registerOwnership(input)] *)
Definition registerOwnership_ (testAuthority : bool) (input : OwnershipInput) : sm St RetentionOwnership :=
  doing! sm_lift (validateOwnership testAuthority input) ;;
  sm! derivedIds := sm_lift (sortedUnique (ow_derivedIds input)) in
  sm! id := sm_lift (deriveRetentionOwnershipId (identified input derivedIds [])) in
  let value := identified input derivedIds id in
  sm! allowed := registers (λ j, registerOwnershipAndApplyActiveStop j value) in
  doing! refuse (negb allowed) "retention-stop-required" "retention-stop" ;;
  sm_ret value.

Definition registerOwnership (testAuthority : bool) (input : OwnershipInput) : sm St RetentionOwnership :=
  doing! sm_lift (throw_if (negb testAuthority) (TypeError "retention-owned-mutation-required")) ;;
  registerOwnership_ testAuthority input.

Definition count_operations (n : Z) (c : RetentionCoordinator) : RetentionCoordinator := {|
  co_admissionClosed := co_admissionClosed c; co_pendingStops := co_pendingStops c;
  co_activeOperations := co_activeOperations c + n;
  co_operationStopHandlers := co_operationStopHandlers c |}.

Definition with_handlers (f : list nat → list nat) (c : RetentionCoordinator) : RetentionCoordinator := {|
  co_admissionClosed := co_admissionClosed c; co_pendingStops := co_pendingStops c;
  co_activeOperations := co_activeOperations c;
  co_operationStopHandlers := f (co_operationStopHandlers c) |}.

Definition without_handler (handler : option nat) : list nat → list nat :=
  List.filter (λ h, negb (bool_decide (handler = Some h))).

(** [beginUse(artifactDigests, derivedIds)]: a lease is its place in the list of leases. *)
Definition beginUse (artifactDigests derivedIds : list jsstring) : sm St nat :=
  let digests := sortedSet artifactDigests in
  let derived := sortedSet derivedIds in
  doing! assertAllowed digests derived ;;
  doing! coordinates (count_operations 1) ;;
  sm! s := sm_get in
  doing! sm_modify (put_leases (rt_leases s ++ [{| le_digests := digests; le_derived := derived;
    le_released := false; le_stopHandler := None |}])) ;;
  sm_ret (length (rt_leases s)).

Definition lease_of (lease : nat) : sm St RetentionOperationLease := λ s,
  (s, or_throw (rt_leases s !! lease) (TypeError "lease")).

Definition put_lease (lease : nat) (l : RetentionOperationLease) : sm St unit :=
  sm_modify (λ s, put_leases (<[lease := l]> (rt_leases s)) s).

Definition lease_assertAllowed (lease : nat) : sm St unit :=
  sm! l := lease_of lease in assertAllowed (le_digests l) (le_derived l).

Definition lease_onStop (lease : nat) (handler : nat) : sm St unit :=
  sm! l := lease_of lease in
  doing! sm_lift (throw_if (le_released l) (TypeError "retention-operation-stop-handler-invalid")) ;;
  doing! coordinates (with_handlers (without_handler (le_stopHandler l))) ;;
  doing! put_lease lease {| le_digests := le_digests l; le_derived := le_derived l;
    le_released := le_released l; le_stopHandler := Some handler |} ;;
  doing! coordinates (with_handlers (λ hs, if bool_decide (handler ∈ hs) then hs else hs ++ [handler])) ;;
  sm! c := coordinator in
  if co_admissionClosed c then c_stopHandler handler else sm_ret tt.

Definition lease_release (lease : nat) : sm St unit :=
  sm! l := lease_of lease in
  if le_released l then sm_ret tt
  else
    doing! put_lease lease {| le_digests := le_digests l; le_derived := le_derived l;
      le_released := true; le_stopHandler := le_stopHandler l |} ;;
    doing! coordinates (with_handlers (without_handler (le_stopHandler l))) ;;
    doing! coordinates (count_operations (-1)) ;;
    sm! c := coordinator in
    if co_activeOperations c =? 0 then sm_modify (put_idle 0) else sm_ret tt.

(** ** Commits *)

(** The copies of an artifact whose use a stop forbade while it was committed. *)
Definition rollback (digest : jsstring) : sm St unit :=
  sm_catch
    (doing! eraseCopies digest ;;
     sm! absent := verifyAbsent digest in
     sm_lift (throw_if (negb absent) (Error "retention-commit-rollback-unprovable")))
    (λ _, sm_lift (Throw (safeAcquisitionError "retention-erasure-unprovable" "retention-erase"))).

(** [commitArtifact(input, commit)]; during [commit] any other calls may run. *)
Definition commitArtifact {A} (testAuthority : bool) (input : OwnershipInput) (commit : sm St A) : sm St A :=
  doing! sm_lift (validateOwnership testAuthority input) ;;
  sm! operation := beginUse [] [] in
  sm_finally
    (doing! registerOwnership_ testAuthority input ;;
     sm! artifact := commit in
     sm_catch
       (doing! lease_assertAllowed operation ;;
        doing! artifactUseAllowed (ow_artifactDigest input) ;;
        sm_ret artifact)
       (λ e, doing! rollback (ow_artifactDigest input) ;; sm_lift (Throw e)))
    (lease_release operation).

(** ** Derived lineage *)

Definition stop_required (stage : string) : exn := safeAcquisitionError "retention-stop-required" stage.

(** The lineage of one ownership, then of all that own a digest. *)
Definition register_lineage (derived : list jsstring) (o : RetentionOwnership) : sm St unit :=
  sm! allowed := registers (λ j, registerDerivedLineageAndApplyActiveStop j (ow_ownershipId o) derived) in
  refuse (negb allowed) "retention-stop-required" "normalization".

Definition register_digest_lineage (derived : list jsstring) (digest : jsstring) : sm St unit :=
  sm! ownership := asks (λ j, ownershipForDigest j digest) in
  doing! refuse (bool_decide (ownership = [])) "retention-stop-required" "normalization" ;;
  sm_each (register_lineage derived) ownership.

(** [#registerDerivedLineage(artifactDigests, derivedIds)] *)
Definition registerDerivedLineage_ (artifactDigests derivedIds : list jsstring) : sm St unit :=
  let digests := sortedSet artifactDigests in
  sm! derived := sm_lift (sortedUnique derivedIds) in
  doing! refuse (bool_decide (digests = []) || bool_decide (derived = []))
    "retention-policy-invalid" "normalization" ;;
  sm! operation := beginUse digests [] in
  sm_finally
    (doing! sm_each (register_digest_lineage derived) digests ;;
     doing! lease_assertAllowed operation ;;
     sm_each derivedUseAllowed derived)
    (lease_release operation).

Definition registerDerivedLineage (testAuthority : bool) (artifactDigests derivedIds : list jsstring) :
    sm St unit :=
  doing! sm_lift (throw_if (negb testAuthority) (TypeError "retention-owned-mutation-required")) ;;
  registerDerivedLineage_ artifactDigests derivedIds.
End methods.
