(* ===== verification/RetentionErasure.v ===== *)
(** * Enforcing a stop ([retention/controller.ts], [enforceStop])

    A stop closes admission, waits for active operations, records the stop with its
    denials, and works through an immutable plan: every digest of the provider is erased
    under recorded attempts, gets a tombstone and is verified absent before the receipt is
    recorded.  A finished stop is verified again, a copy that came back is erased again
    under the same plan and the receipt is followed by a revalidation. *)
From S2P Require Import Prelude Steps JsString JsNumber Json JsonLimits JsonParse Hash Zod JsonObject.
From S2P Require Import Event Codec Records Retention RetentionJournal.
From S2P Require Import RetentionController.

Section erasure.
Context `{Sha256} `{Zod} `{Locale} {W : Type} `{!RetentionWorld W} `{!RetentionCallers W}.
Abbreviation St := (controller W).

Definition unprovable (stage : string) : exn := safeAcquisitionError "retention-erasure-unprovable" stage.
Definition unless_provable (b : bool) (stage : string) : sm St unit := sm_lift (throw_if b (unprovable stage)).

(** [canonicalJson(a) === canonicalJson(b)] on lists of strings. *)
Definition same_list (a b : list jsstring) : res bool := same_text (jstrs a) (jstrs b).

Definition derived_of (ownership : list RetentionOwnership) : list jsstring :=
  sortedSet (concat (map (λ o : RetentionOwnership, ow_derivedIds o) ownership)).

(** ** Attempts *)

Definition attempt_text (a : RetentionErasureAttempt) : jsstring :=
  at_artifactDigest a ++ js ":" ++ dec (at_attemptOrdinal a).

Definition is_started (a : RetentionErasureAttempt) : bool := bool_decide (at_outcome a = Attempt_started).

(** The size of the set of attempt texts, of the attempts a test admits. *)
Definition count_attempts (test : RetentionErasureAttempt → bool) (j : journal) (plan : RetentionErasurePlan) : Z :=
  Z.of_nat (length (set_add_all [] (concat (map (λ digest,
    map attempt_text (List.filter test (attemptsFor j (pl_planId plan) digest))) (pl_artifactDigests plan))))).

(** [#physicalAttemptCount(plan)] *)
Definition physicalAttemptCount : journal → RetentionErasurePlan → Z := count_attempts (λ a, negb (is_started a)).

(** [#hasIncompletePhysicalAttempt(plan)] *)
Definition hasIncompletePhysicalAttempt (j : journal) (plan : RetentionErasurePlan) : bool :=
  existsb (λ digest,
    let attempts := attemptsFor j (pl_planId plan) digest in
    existsb (λ started : RetentionErasureAttempt, is_started started &&
      negb (existsb (λ outcome : RetentionErasureAttempt,
        (at_attemptOrdinal outcome =? at_attemptOrdinal started) && negb (is_started outcome)) attempts))
      attempts) (pl_artifactDigests plan).

(** ** Receipts *)

Definition confirm (b : bool) (stage : string) : res unit := throw_if (negb b) (unprovable stage).

(** What a receipt of a plan must carry, its own identity included. *)
Definition check_receipt (plan : RetentionErasurePlan) (bounds : bool) (r : RetentionReceipt) : res unit :=
  let stage := "retention-verify" in
  do! confirm (same_string (rc_planId r) (pl_planId plan) && same_string (rc_planHash r) (pl_planHash plan)) stage ;;
  let* digests := same_list (rc_artifactDigests r) (pl_artifactDigests plan) in
  do! confirm digests stage ;;
  let* observations := same_list (rc_artifactObservationIds r) (pl_artifactObservationIds plan) in
  do! confirm (observations && bounds) stage ;;
  let* id := deriveRetentionReceiptId r in
  confirm (same_string (rc_receiptId r) id) stage.

Definition check_base (plan : RetentionErasurePlan) (r : RetentionReceipt) : res unit :=
  check_receipt plan
    (safe_time (rc_priorSizeBytes r) && safe_time (rc_attemptCount r) && safe_time (rc_completedAtMs r)) r.

Definition check_revalidation (plan : RetentionErasurePlan) (base latest : RetentionReceipt) (index : Z)
    (value : RetentionReceiptRevalidation) : res unit :=
  let r := rv_receipt value in
  do! confirm (same_string (rv_planId value) (pl_planId plan) && (rv_sequence value =? index + 1) &&
    same_string (rv_predecessorReceiptId value) (rc_receiptId latest) &&
    (rv_recordedAtMs value =? rc_completedAtMs r)) "retention-verify" ;;
  do! check_receipt plan ((rc_priorSizeBytes r =? rc_priorSizeBytes base) &&
    (rc_attemptCount latest <? rc_attemptCount r) && (rc_completedAtMs latest <=? rc_completedAtMs r)) r ;;
  let* id := deriveRetentionReceiptRevalidationId value in
  confirm (same_string (rv_revalidationId value) id) "retention-verify".

Definition check_revalidation_checkpoint (plan : RetentionErasurePlan) (value : RetentionReceiptRevalidation)
    (checkpoint : RetentionCheckpoint) : res unit :=
  do! confirm (same_string (ck_planId checkpoint) (pl_planId plan) &&
    same_string (ck_receiptId checkpoint) (rc_receiptId (rv_receipt value)) &&
    (ck_sequence checkpoint =? rv_sequence value) &&
    (ck_completedAtMs checkpoint =? rc_completedAtMs (rv_receipt value))) "checkpoint" ;;
  let* id := deriveRetentionCheckpointId checkpoint in
  confirm (same_string (ck_checkpointId checkpoint) id) "checkpoint".

(** The chain of revalidations, with their checkpoints, from the base receipt on. *)
Fixpoint latest_of (plan : RetentionErasurePlan) (base latest : RetentionReceipt) (index : Z)
    (revalidations : list RetentionReceiptRevalidation) (checkpoints : list RetentionCheckpoint) :
    res RetentionReceipt :=
  match revalidations with
  | [] => Ok latest
  | value :: revalidations =>
      do! check_revalidation plan base latest index value ;;
      match checkpoints with
      | [] => Throw (unprovable "checkpoint")
      | checkpoint :: checkpoints =>
          do! check_revalidation_checkpoint plan value checkpoint ;;
          latest_of plan base (rv_receipt value) (index + 1) revalidations checkpoints
      end
  end.

(** [#latestReceipt(plan, baseReceipt)] *)
Definition latestReceipt (j : journal) (plan : RetentionErasurePlan) (baseReceipt : option RetentionReceipt) :
    res (option RetentionReceipt) :=
  let revalidations := receiptRevalidationsForPlan j (pl_planId plan) in
  match baseReceipt with
  | None =>
      guard! negb (bool_decide (revalidations = [])) throws unprovable "retention-verify" ;;
      Ok None
  | Some base =>
      do! check_base plan base ;;
      let checkpoints := revalidationCheckpointsForPlan j (pl_planId plan) in
      guard! negb (length checkpoints =? length revalidations)%nat throws unprovable "checkpoint" ;;
      let* latest := latest_of plan base base 0 revalidations checkpoints in
      Ok (Some latest)
  end.

(** ** Verification and checkpoints *)

Definition verify_digest (digest : jsstring) : sm St unit :=
  sm! denied := asks (λ j, digestUseDenied j digest && hasTombstone j digest) in
  doing! unless_provable (negb denied) "retention-verify" ;;
  sm! absent := verifyAbsent digest in
  unless_provable (negb absent) "retention-verify".

Definition verify_derived (derivedId : jsstring) : sm St unit :=
  sm! denied := asks (λ j, derivedUseDenied j derivedId) in
  unless_provable (negb denied) "retention-verify".

(** [#verifyPlanErased(plan)] *)
Definition verifyPlanErased (plan : RetentionErasurePlan) : sm St unit :=
  sm! denied := asks (λ j, providerUseDenied j (pl_providerLane plan) (pl_providerId plan)) in
  doing! unless_provable (negb denied) "retention-verify" ;;
  doing! sm_each verify_digest (pl_artifactDigests plan) ;;
  sm_each verify_derived (pl_derivedIds plan).

Definition checkpoint_body (plan : RetentionErasurePlan) (receipt : RetentionReceipt) (sequence : Z) : CheckpointBody := {|
  ck_planId := pl_planId plan; ck_receiptId := rc_receiptId receipt; ck_sequence := sequence;
  ck_completedAtMs := rc_completedAtMs receipt |}.

Definition same_checkpoint (c : RetentionCheckpoint) (found : option RetentionCheckpoint) : bool :=
  match found with Some f => same_string (ck_checkpointId f) (ck_checkpointId c) | None => false end.

(** [#ensureCheckpoint(plan, receipt)] *)
Definition ensureCheckpoint (plan : RetentionErasurePlan) (receipt : RetentionReceipt) : sm St unit :=
  sm! existing := asks (λ j, getCheckpoint j (pl_planId plan)) in
  match existing with
  | Some existing => unless_provable (negb (same_string (ck_receiptId existing) (rc_receiptId receipt))) "checkpoint"
  | None =>
      let body := checkpoint_body plan receipt 0 in
      sm! id := sm_lift (deriveRetentionCheckpointId body) in
      let checkpoint := {| ck_checkpointId := id; ck_body := body |} in
      doing! records (λ j, recordCheckpoint j checkpoint) ;;
      sm! reread := asks (λ j, getCheckpoint j (pl_planId plan)) in
      doing! unless_provable (negb (same_checkpoint checkpoint reread)) "checkpoint" ;;
      fault "retention-checkpoint-committed-reread"
  end.

(** ** The plan *)

Definition plan_of (input : StopInput) (stopEventId : jsstring) (ownership : list RetentionOwnership) : PlanBody := {|
  pl_policyId := st_policyId input;
  pl_providerLane := st_providerLane input;
  pl_providerId := st_providerId input;
  pl_datasetIds := sortedSet (map (λ o : RetentionOwnership, ow_datasetId o) ownership);
  pl_feedIds := sortedSet (map (λ o : RetentionOwnership, ow_feedId o) ownership);
  pl_endpointChannelIds := sortedSet (map (λ o : RetentionOwnership, ow_endpointChannelId o) ownership);
  pl_artifactObservationIds :=
    sortedSet (map (λ o : RetentionOwnership, ow_artifactObservationId o) ownership);
  pl_artifactDigests := sortedSet (map (λ o : RetentionOwnership, ow_artifactDigest o) ownership);
  pl_derivedIds := derived_of ownership;
  pl_stopEventId := stopEventId;
  pl_effectiveAtMs := st_effectiveAtMs input;
  pl_deadlineMs := st_deadlineMs input |}.

(** The plan is built, recorded, read back and its hash recomputed. *)
Definition record_plan (input : StopInput) (stop : RetentionStopEvent) (ownership : list RetentionOwnership) :
    sm St RetentionErasurePlan :=
  let body := plan_of input (st_stopEventId stop) ownership in
  sm! planId := sm_lift (deriveRetentionPlanId body) in
  sm! planHash := sm_lift (deriveRetentionPlanHash planId body) in
  let plan := {| pl_planId := planId; pl_planHash := planHash; pl_body := body |} in
  doing! records (λ j, recordPlan j plan) ;;
  sm! reloaded := asks (λ j, getPlan j planId) in
  match reloaded with
  | None => sm_lift (Throw (unprovable "retention-plan"))
  | Some reloaded =>
      sm! hash := sm_lift (recomputeRetentionPlanHash reloaded) in
      doing! unless_provable (negb (same_string hash planHash)) "retention-plan" ;;
      sm_ret plan
  end.

(** ** Erasing one digest *)

Definition latest_ordinal (attempts : list RetentionErasureAttempt) : Z :=
  foldl (λ (maximum : Z) (a : RetentionErasureAttempt), Z.max maximum (at_attemptOrdinal a)) (-1) attempts.

Definition record_attempt (body : AttemptBody) : sm St unit :=
  sm! id := sm_lift (deriveRetentionAttemptId body) in
  records (λ j, recordAttempt j {| at_attemptId := id; at_body := body |}).

(** One attempt, new or started before. *)
Definition erase_attempt (plan : RetentionErasurePlan) (digest : jsstring) (attemptOrdinal : Z)
    (pendingStarted : option RetentionErasureAttempt) : sm St unit :=
  sm! startedAtMs := match pendingStarted with Some a => sm_ret (at_startedAtMs a) | None => trustedNow end in
  let body outcome := {| at_planId := pl_planId plan; at_artifactDigest := digest;
    at_attemptOrdinal := attemptOrdinal; at_startedAtMs := startedAtMs; at_outcome := outcome |} in
  doing! (match pendingStarted with
          | Some _ => sm_ret tt
          | None => doing! record_attempt (body Attempt_started) ;;
                    fault_at "retention-erasure-attempt-started" digest
          end) ;;
  sm! erasure := sm_catch (eraseCopies digest) (λ _,
    doing! record_attempt (body Attempt_failed) ;;
    sm_lift (Throw (safeAcquisitionError "retention-erasure-failed" "retention-erase"))) in
  doing! record_attempt (body (if er_alreadyAbsent erasure then Already_absent else Attempt_erased)) ;;
  fault_at "retention-physical-erasure-complete" digest.

Definition record_tombstone (plan : RetentionErasurePlan) (digest : jsstring) : sm St unit :=
  sm! recordedAtMs := trustedNow in
  let body := {| tb_planId := pl_planId plan; tb_artifactDigest := digest; tb_recordedAtMs := recordedAtMs |} in
  sm! id := sm_lift (deriveRetentionTombstoneId body) in
  records (λ j, recordTombstone j {| tb_tombstoneId := id; tb_body := body |}).

(** The started attempt no outcome was recorded for. *)
Definition pending_attempt (latestRows : list RetentionErasureAttempt) : option RetentionErasureAttempt :=
  if existsb (λ a, negb (is_started a)) latestRows then None else find is_started latestRows.

Definition completed_attempt (latestRows : list RetentionErasureAttempt) : bool :=
  existsb (λ a : RetentionErasureAttempt,
    bool_decide (at_outcome a = Attempt_erased) || bool_decide (at_outcome a = Already_absent)) latestRows.

(** The body of the loop over the digests of a plan. *)
Definition erase_digest (deadlineMs : Z) (plan : RetentionErasurePlan) (digest : jsstring) : sm St unit :=
  doing! assertDeadline deadlineMs ;;
  sm! priorAttempts := asks (λ j, attemptsFor j (pl_planId plan) digest) in
  let latestOrdinal := latest_ordinal priorAttempts in
  let latestRows :=
    List.filter (λ a : RetentionErasureAttempt, at_attemptOrdinal a =? latestOrdinal) priorAttempts in
  let pendingStarted := pending_attempt latestRows in
  sm! tombstone := asks (λ j, hasTombstone j digest) in
  sm! finished := (if bool_decide (pendingStarted = None) && tombstone then verifyAbsent digest else sm_ret false) in
  if finished then sm_ret tt
  else
    sm! completedAndAbsent :=
      (if completed_attempt latestRows then verifyAbsent digest else sm_ret false) in
    doing! (if completedAndAbsent then sm_ret tt
            else erase_attempt plan digest
              (match pendingStarted with None => latestOrdinal + 1 | Some _ => latestOrdinal end) pendingStarted) ;;
    sm! tombstone := asks (λ j, hasTombstone j digest) in
    if tombstone then sm_ret tt
    else doing! record_tombstone plan digest ;; fault_at "retention-tombstone-committed" digest.

(** ** Receipts of a finished plan *)

(** A receipt that is there is returned again when its plan is still erased and nothing
    was attempted since; whatever throws here is repaired under the same plan. *)
Definition recheck (plan : RetentionErasurePlan) (base prior : option RetentionReceipt) :
    sm St (option RetentionReceipt) :=
  match prior with
  | None => sm_ret None
  | Some prior =>
      sm! settled := settleReaders in
      doing! unless_provable (negb settled) "retention-verify" ;;
      sm_catch
        (doing! verifyPlanErased plan ;;
         sm! base := sm_lift (or_throw base (unprovable "retention-verify")) in
         doing! ensureCheckpoint plan base ;;
         sm! complete := asks (λ j, (rc_attemptCount prior =? physicalAttemptCount j plan) &&
           negb (hasIncompletePhysicalAttempt j plan)) in
         sm_ret (if complete then Some prior else None))
        (λ _, sm_ret None)
  end.

(** [new Map(ownership.map((value) => [value.artifactDigest, value])).values()] *)
Fixpoint put_by_digest (values : list RetentionOwnership) (o : RetentionOwnership) : list RetentionOwnership :=
  match values with
  | [] => [o]
  | v :: values => if same_string (ow_artifactDigest v) (ow_artifactDigest o) then o :: values
                   else v :: put_by_digest values o
  end.

Fixpoint byte_total (sum : Z) (values : list RetentionOwnership) : res Z :=
  match values with
  | [] => Ok sum
  | v :: values =>
      let next := sum + ow_artifactSizeBytes v in
      guard! negb (is_safe_integer next) throws RangeError "Retention byte total is unsafe" ;;
      byte_total next values
  end.

Definition identify_receipt (body : ReceiptBody) : res RetentionReceipt :=
  let* id := deriveRetentionReceiptId body in Ok {| rc_receiptId := id; rc_body := body |}.

(** The first receipt of a plan, with its checkpoint. *)
Definition issue_receipt (plan : RetentionErasurePlan) (ownership : list RetentionOwnership) : sm St RetentionReceipt :=
  sm! priorSizeBytes := sm_lift (byte_total 0 (foldl put_by_digest [] ownership)) in
  sm! attemptCount := asks (λ j, count_attempts (λ _, true) j plan) in
  sm! completedAtMs := trustedNow in
  sm! receipt := sm_lift (identify_receipt {|
    rc_planId := pl_planId plan; rc_planHash := pl_planHash plan;
    rc_artifactDigests := pl_artifactDigests plan;
    rc_artifactObservationIds := pl_artifactObservationIds plan;
    rc_priorSizeBytes := priorSizeBytes; rc_attemptCount := attemptCount;
    rc_completedAtMs := completedAtMs |}) in
  doing! records (λ j, recordReceipt j receipt) ;;
  sm! reread := asks (λ j, getReceiptForPlan j (pl_planId plan)) in
  doing! unless_provable (negb (match reread with
    | Some r => same_string (rc_receiptId r) (rc_receiptId receipt) | None => false end)) "retention-verify" ;;
  doing! fault "retention-receipt-committed-reread" ;;
  doing! ensureCheckpoint plan receipt ;;
  sm_ret receipt.

(** The prior receipt, or its successor when attempts were made since. *)
Definition revalidate (plan : RetentionErasurePlan) (base prior : RetentionReceipt) : sm St RetentionReceipt :=
  doing! ensureCheckpoint plan base ;;
  sm! attemptCount := asks (λ j, physicalAttemptCount j plan) in
  doing! unless_provable (attemptCount <? rc_attemptCount prior) "retention-verify" ;;
  if attemptCount =? rc_attemptCount prior then sm_ret prior
  else
    sm! completedAtMs := trustedNow in
    sm! receipt := sm_lift (identify_receipt {|
      rc_planId := rc_planId prior; rc_planHash := rc_planHash prior;
      rc_artifactDigests := rc_artifactDigests prior;
      rc_artifactObservationIds := rc_artifactObservationIds prior;
      rc_priorSizeBytes := rc_priorSizeBytes prior; rc_attemptCount := attemptCount;
      rc_completedAtMs := completedAtMs |}) in
    sm! sequence := asks (λ j, Z.of_nat (length (receiptRevalidationsForPlan j (pl_planId plan))) + 1) in
    let body := {| rv_planId := pl_planId plan; rv_sequence := sequence;
      rv_predecessorReceiptId := rc_receiptId prior; rv_receipt := receipt;
      rv_recordedAtMs := completedAtMs |} in
    sm! id := sm_lift (deriveRetentionReceiptRevalidationId body) in
    sm! checkpointId := sm_lift (deriveRetentionCheckpointId (checkpoint_body plan receipt sequence)) in
    let checkpoint :=
      {| ck_checkpointId := checkpointId; ck_body := checkpoint_body plan receipt sequence |} in
    doing! records (λ j, recordReceiptRevalidationAndCheckpoint j
      {| rv_revalidationId := id; rv_body := body |} checkpoint) ;;
    sm! reread := answers (λ j, latestReceipt j plan (Some base)) in
    sm! checkpointReread := asks (λ j, last (revalidationCheckpointsForPlan j (pl_planId plan))) in
    match reread with
    | None => sm_lift (Throw (unprovable "retention-verify"))
    | Some reread =>
        doing! unless_provable (negb (same_string (rc_receiptId reread) (rc_receiptId receipt))) "retention-verify" ;;
        doing! unless_provable (negb (match checkpointReread with
          | Some c => same_string (ck_checkpointId c) checkpointId &&
                      same_string (ck_receiptId c) (rc_receiptId reread)
          | None => false end)) "checkpoint" ;;
        doing! fault "retention-revalidation-committed-reread" ;;
        sm_ret reread
    end.

(** ** The enforcement *)

Definition ownership_ids (ownership : list RetentionOwnership) : list jsstring :=
  map (λ o : RetentionOwnership, ow_ownershipId o) ownership.

(** Everything the plan names is erased and verified. *)
Definition erase_plan (deadlineMs : Z) (plan : RetentionErasurePlan) : sm St unit :=
  doing! assertDeadline deadlineMs ;;
  sm! settled := settleReaders in
  doing! unless_provable (negb settled) "retention-erase" ;;
  doing! fault "retention-resources-settled" ;;
  doing! sm_each (erase_digest deadlineMs plan) (pl_artifactDigests plan) ;;
  verifyPlanErased plan.

(** [#enforceStop(input, stop)]: it starts over when the ownership changed meanwhile. *)
Fixpoint enforceStop_ (fuel : nat) (input : StopInput) (stop : RetentionStopEvent) : sm St RetentionReceipt :=
  match fuel with
  | O => sm_lift (Throw (RangeError "fuel"))
  | S fuel =>
      doing! fault "retention-stop-denials-committed" ;;
      sm! ownership := asks (λ j, listOwnership j (st_providerLane input) (st_providerId input)) in
      sm! plan := record_plan input stop ownership in
      doing! fault "retention-plan-committed" ;;
      sm! baseReceipt := asks (λ j, getReceiptForPlan j (pl_planId plan)) in
      sm! priorReceipt := answers (λ j, latestReceipt j plan baseReceipt) in
      sm! valid := recheck plan baseReceipt priorReceipt in
      match valid with
      | Some receipt => sm_ret receipt
      | None =>
          doing! erase_plan (st_deadlineMs input) plan ;;
          sm! latest := asks (λ j, listOwnership j (st_providerLane input) (st_providerId input)) in
          sm! same := sm_lift (same_list (ownership_ids latest) (ownership_ids ownership)) in
          if negb same then enforceStop_ fuel input stop
          else
            doing! fault "retention-erasure-verified" ;;
            match priorReceipt, baseReceipt with
            | None, _ => issue_receipt plan ownership
            | Some _, None => sm_lift (Throw (unprovable "retention-verify"))
            | Some prior, Some base => revalidate plan base prior
            end
      end
  end.

(** ** Stops *)

(** The identity of a stop that was planned for other observations depends on what the
    provider owns now. *)
Definition stop_event (j : journal) (input : StopInput) : res RetentionStopEvent :=
  let ownership := listOwnership j (st_providerLane input) (st_providerId input) in
  let* baseStopEventId := deriveRetentionStopEventId input in
  let basePlan := getPlanForStop j baseStopEventId in
  let baseScope := match basePlan with Some plan => pl_artifactObservationIds plan | None => [] end in
  let currentScope := sortedSet (map (λ o : RetentionOwnership, ow_artifactObservationId o) ownership) in
  let* sameScope := same_list baseScope currentScope in
  let* id :=
    (if bool_decide (basePlan = None) || sameScope then Ok baseStopEventId
     else prefixed "rst1_" "peas/market-acquisition-retention-stop-settlement/v1"
       [(js "baseStopEventId", JStr baseStopEventId);
        (js "ownershipIds", jstrs (sort_by js_leb (ownership_ids ownership)))]) in
  Ok {| st_stopEventId := id; st_input := input |}.

Definition open_stop (c : RetentionCoordinator) : RetentionCoordinator := {|
  co_admissionClosed := true; co_pendingStops := co_pendingStops c + 1;
  co_activeOperations := co_activeOperations c;
  co_operationStopHandlers := co_operationStopHandlers c |}.

Definition close_stop (c : RetentionCoordinator) : RetentionCoordinator := {|
  co_admissionClosed := (if co_pendingStops c - 1 =? 0 then false else co_admissionClosed c);
  co_pendingStops := co_pendingStops c - 1;
  co_activeOperations := co_activeOperations c;
  co_operationStopHandlers := co_operationStopHandlers c |}.

(** The handlers of the active operations; what they throw is dropped. *)
Definition call_handlers : sm St unit :=
  sm! c := coordinator in
  sm_each (λ handler, sm_catch (c_stopHandler handler) (λ _, sm_ret tt)) (co_operationStopHandlers c).

(** Where operations are active, the time to wait for them, at most 30 seconds and at most
    until the deadline, and the place of the resolver that is called when they have ended. *)
Definition begin_wait (deadlineMs : Z) : sm St (option (Z * Z)) :=
  sm! c := coordinator in
  if 0 <? co_activeOperations c then
    sm! now := trustedNow in
    let remaining := deadlineMs - now in
    doing! (if remaining <? 1 then assertDeadline deadlineMs else sm_ret tt) ;;
    sm! s := sm_get in
    doing! sm_modify (put_idle (rt_idleWaiting s + 1)) ;;
    sm_ret (Some (Z.min remaining 30000, rt_idleWaiting s))
  else sm_ret None.

(** What follows the race between the resolver and the timer. *)
Definition end_wait (settled : bool) : sm St unit := unless_provable (negb settled) "retention-erase".

(** While it waits the other callers go on; they say whether the resolver was called. *)
Definition await_operations (deadlineMs : Z) : sm St unit :=
  sm! wait := begin_wait deadlineMs in
  match wait with
  | Some (ms, _) => sm! settled := (λ s, let (s, b) := c_idle ms s in (s, Ok b)) in end_wait settled
  | None => sm_ret tt
  end.

(** The part of a stop that runs while no other stop does. *)
Definition settle_stop (fuel : nat) (stop : RetentionStopEvent) (initialDerived : list jsstring) :
    sm St RetentionReceipt :=
  doing! await_operations (st_deadlineMs stop) ;;
  doing! records (λ j, recordStopAndDenials j stop initialDerived) ;;
  enforceStop_ fuel stop stop.

(** Up to the wait for the stops before this one: admission closes, and the active
    operations are told. *)
Definition announce_stop (input : StopInput) : sm St (RetentionStopEvent * list jsstring) :=
  doing! sm_lift (validateStop input) ;;
  sm! initialOwnership := asks (λ j, listOwnership j (st_providerLane input) (st_providerId input)) in
  sm! stop := answers (λ j, stop_event j input) in
  doing! coordinates open_stop ;;
  doing! call_handlers ;;
  sm_ret (stop, derived_of initialOwnership).

(** [enforceStop(input)]; in the first turn of the other callers the stops before this one
    end. *)
Definition enforceStop (fuel : nat) (input : StopInput) : sm St RetentionReceipt :=
  sm! announced := announce_stop input in
  doing! sm_modify c_turn ;;
  sm_finally (settle_stop fuel announced.1 announced.2) (coordinates close_stop).
End erasure.
