(* ===== verification/RetentionFacts.v ===== *)
(** * Facts about the retention journal and the controller's methods

    How the journal evolves under its operations, and the proof rule for the controller: a
    preorder of states that the journal operations, the world and the other callers respect
    is respected by every method. *)
From S2P Require Import Prelude JsString JsNumber Json JsonLimits JsonParse Hash Zod.
From S2P Require Import JsonObject Event Codec Records Steps Retention.
From S2P Require Import RetentionJournal RetentionController RetentionErasure.

(** ** Maps and sets *)

Lemma map_get_app {A} (key : A → jsstring) k l l' x :
  map_get key k l = Some x → map_get key k (l ++ l') = Some x.
Proof.
  unfold map_get. induction l as [|y l IH]; cbn; [done|]. by destruct (same_string (key y) k).
Qed.

Lemma map_get_prefix {A} (key : A → jsstring) k l l' x :
  l `prefix_of` l' → map_get key k l = Some x → map_get key k l' = Some x.
Proof. intros [l'' ->]. apply map_get_app. Qed.

Lemma map_get_elem {A} (key : A → jsstring) k l x : map_get key k l = Some x → x ∈ l ∧ key x = k.
Proof.
  intros [Hx Hk]%find_some. split; [by apply list_elem_of_In|]. by apply bool_decide_eq_true in Hk.
Qed.

(** The value recorded is there afterwards, under an equal text. *)
Lemma map_record_spec {A} label (key : A → jsstring) form l (x : A) l' :
  map_record label key form l x = Ok l' →
  l `prefix_of` l' ∧ ∃ y, map_get key (key x) l' = Some y ∧ (y = x ∨ same_text (form y) (form x) = Ok true).
Proof.
  unfold map_record. destruct (map_get key (key x) l) as [y|] eqn:E.
  - intros Hr. apply res_bind_Ok in Hr as ([] & H1 & [= <-]). split; [done|]. exists y. split; [done|right].
    unfold replayEqual in H1. apply res_bind_Ok in H1 as (b & H1 & H2). by destruct b.
  - intros [= <-]. split; [by apply prefix_app_r|]. exists x. split; [|by left].
    clear -E. unfold map_get in *. induction l as [|y l IH]; cbn in *.
    + unfold same_string. by rewrite bool_decide_true.
    + destruct (same_string (key y) (key x)); [done|auto].
Qed.

Lemma map_record_prefix {A} label (key : A → jsstring) form l (x : A) l' :
  map_record label key form l x = Ok l' → l `prefix_of` l'.
Proof. intros H. by apply map_record_spec in H as [? _]. Qed.

Lemma map_record_once_prefix {A} label (key : A → jsstring) form taken l (x : A) l' :
  map_record_once label key form taken l x = Ok l' → l `prefix_of` l'.
Proof.
  unfold map_record_once. destruct (map_get key (key x) l); intros Hr; inv_res; [done|].
  by apply prefix_app_r.
Qed.

Lemma set_add_prefix l x : l `prefix_of` set_add l x.
Proof. unfold set_add. destruct (bool_decide _); [done|by apply prefix_app_r]. Qed.

Lemma set_add_elem l x : x ∈ set_add l x.
Proof. unfold set_add. case_bool_decide; [done|]. rewrite elem_of_app. right. by left. Qed.

Lemma set_add_all_prefix l xs : l `prefix_of` set_add_all l xs.
Proof.
  unfold set_add_all. revert l. induction xs as [|x xs IH]; intros l; cbn [foldl]; [done|].
  etrans; [apply set_add_prefix|apply IH].
Qed.

Lemma prefix_elem {A} (l l' : list A) x : l `prefix_of` l' → x ∈ l → x ∈ l'.
Proof. intros [l'' ->] Hx. rewrite elem_of_app. by left. Qed.

Lemma set_add_all_elem l xs x : x ∈ set_add_all l xs ↔ x ∈ l ∨ x ∈ xs.
Proof.
  unfold set_add_all. revert l. induction xs as [|y xs IH]; intros l; cbn [foldl].
  { rewrite elem_of_nil. naive_solver. }
  rewrite IH. unfold set_add. case_bool_decide; rewrite ?elem_of_app, ?list_elem_of_singleton, ?elem_of_cons;
    naive_solver.
Qed.

(** ** Growth of the journal *)

(** Evidence and denials are only ever added, at the end. *)
Record journal_grows (j j' : journal) : Prop := {
  gr_ownership : mj_ownership j `prefix_of` mj_ownership j';
  gr_lineage : ∀ id, lineage j id `prefix_of` lineage j' id;
  gr_stops : mj_stops j `prefix_of` mj_stops j';
  gr_providers : mj_providerDenials j `prefix_of` mj_providerDenials j';
  gr_digests : mj_digestDenials j `prefix_of` mj_digestDenials j';
  gr_derived : mj_derivedDenials j `prefix_of` mj_derivedDenials j';
  gr_plans : mj_plans j `prefix_of` mj_plans j';
  gr_attempts : mj_attempts j `prefix_of` mj_attempts j';
  gr_tombstones : mj_tombstones j `prefix_of` mj_tombstones j';
  gr_receipts : mj_receipts j `prefix_of` mj_receipts j';
  gr_revalidations : mj_receiptRevalidations j `prefix_of` mj_receiptRevalidations j';
  gr_revalidationCheckpoints : mj_revalidationCheckpoints j `prefix_of` mj_revalidationCheckpoints j';
  gr_checkpoints : mj_checkpoints j `prefix_of` mj_checkpoints j'
}.

#[export] Instance journal_grows_preorder : PreOrder journal_grows.
Proof. split; [intros j; by constructor|]. intros j1 j2 j3 [] []. constructor; intros; etrans; eauto. Qed.

(** The operations on evidence and the registrations, as relations. *)
Inductive evidence_step `{Locale} (j : journal) : journal → Prop :=
  | Step_stop stop derived j' : recordStopAndDenials j stop derived = Ok j' → evidence_step j j'
  | Step_plan p j' : recordPlan j p = Ok j' → evidence_step j j'
  | Step_attempt a j' : recordAttempt j a = Ok j' → evidence_step j j'
  | Step_tombstone t j' : recordTombstone j t = Ok j' → evidence_step j j'
  | Step_receipt r j' : recordReceipt j r = Ok j' → evidence_step j j'
  | Step_checkpoint c j' : recordCheckpoint j c = Ok j' → evidence_step j j'
  | Step_revalidation r j' : recordReceiptRevalidation j r = Ok j' → evidence_step j j'
  | Step_revalidation_checkpoint r c j' :
      recordReceiptRevalidationAndCheckpoint j r c = Ok j' → evidence_step j j'.

Inductive register_step (j : journal) : journal → Prop :=
  | Step_ownership o j' b : registerOwnershipAndApplyActiveStop j o = Ok (j', b) → register_step j j'
  | Step_lineage id derived j' b :
      registerDerivedLineageAndApplyActiveStop j id derived = Ok (j', b) → register_step j j'.

#[local] Ltac grow :=
  constructor; cbn; try reflexivity; try (intros; reflexivity);
  eauto using map_record_prefix, map_record_once_prefix, set_add_prefix, set_add_all_prefix.

Lemma evidence_step_grows `{Locale} j j' : evidence_step j j' → journal_grows j j'.
Proof.
  intros []; match goal with H : _ = Ok _ |- _ => revert H end;
    unfold recordStopAndDenials, recordPlan, recordAttempt, recordTombstone, recordReceipt, recordCheckpoint,
      recordReceiptRevalidation, recordReceiptRevalidationAndCheckpoint; intros Hr; inv_res; grow.
Qed.

(** Lineages and registered ids under an added lineage. *)
Lemma add_lineage_prefix j j' id derived k :
  mj_derivedOwnership j' = add_lineage j id derived → lineage j k `prefix_of` lineage j' k.
Proof.
  intros Hj. unfold lineage at 2. rewrite Hj. unfold add_lineage. destruct (decide (id = k)) as [->|Hne].
  - rewrite lookup_insert_eq. cbn. apply set_add_all_prefix.
  - rewrite lookup_insert_ne by done. reflexivity.
Qed.

Lemma register_step_grows j j' : register_step j j' → journal_grows j j'.
Proof.
  intros [o j1 b Hr|id derived j1 b Hr]; revert Hr;
    unfold registerOwnershipAndApplyActiveStop, registerDerivedLineageAndApplyActiveStop.
  - intros Hr. inv_res. apply map_record_prefix in Hr0.
    destruct (providerUseDenied _ _ _); constructor; cbn -[set_add_all lineage]; try done; try apply set_add_all_prefix;
      intros k; by eapply add_lineage_prefix.
  - destruct (map_get _ _ _); [|done]. intros [= <- <-].
    destruct (providerUseDenied _ _ _); constructor; cbn -[set_add_all lineage]; try done; try apply set_add_all_prefix;
      intros k; by eapply add_lineage_prefix.
Qed.

(** What a grown journal still answers. *)
Section grown.
Context (j j' : journal) (Hg : journal_grows j j').

Lemma providerUseDenied_grows lane id : providerUseDenied j lane id = true → providerUseDenied j' lane id = true.
Proof. unfold providerUseDenied. rewrite !bool_decide_eq_true. eapply prefix_elem, Hg. Qed.

Lemma hasTombstone_grows d : hasTombstone j d = true → hasTombstone j' d = true.
Proof.
  unfold hasTombstone. rewrite !bool_decide_eq_true. intros [t Ht]. exists t.
  eapply map_get_prefix; [apply Hg|done].
Qed.

Lemma digestUseDenied_grows d : digestUseDenied j d = true → digestUseDenied j' d = true.
Proof.
  unfold digestUseDenied. rewrite !orb_true_iff, !bool_decide_eq_true.
  intros [Hd|Ht]; [left|right; by apply hasTombstone_grows]. eapply prefix_elem; [apply Hg|done].
Qed.

Lemma derivedUseDenied_grows d : derivedUseDenied j d = true → derivedUseDenied j' d = true.
Proof. unfold derivedUseDenied. rewrite !bool_decide_eq_true. eapply prefix_elem, Hg. Qed.

Lemma getPlan_grows id p : getPlan j id = Some p → getPlan j' id = Some p.
Proof. apply map_get_prefix, Hg. Qed.

Lemma getReceipt_grows id r : getReceiptForPlan j id = Some r → getReceiptForPlan j' id = Some r.
Proof. apply map_get_prefix, Hg. Qed.
End grown.

(** ** Denied providers *)

(** Whatever a denied provider owns is denied. *)
Definition denials_cover (j : journal) : Prop := ∀ o : RetentionOwnership, o ∈ mj_ownership j →
  providerUseDenied j (ow_providerLane o) (ow_providerId o) = true → digestUseDenied j (ow_artifactDigest o) = true.

Lemma provider_text_inj lane lane' id id' :
  provider_text lane id = provider_text lane' id' → lane = lane' ∧ id = id'.
Proof.
  unfold provider_text. destruct lane, lane'; cbn [enum_name RetentionProviderLane_enum]; intros Ht;
    try (vm_compute in Ht; discriminate Ht); (split; [done|]); by repeat apply app_inv_head in Ht.
Qed.

Lemma map_record_grown {A} label (key : A → jsstring) form l (x : A) l' y :
  map_record label key form l x = Ok l' → y ∈ l' → y ∈ l ∨ y = x.
Proof.
  unfold map_record. destruct (map_get _ _ _); intros Hr; inv_res; [by left|].
  rewrite elem_of_app, list_elem_of_singleton. done.
Qed.

Lemma sort_by_elem {A} (le : A → A → bool) l x : x ∈ sort_by le l ↔ x ∈ l.
Proof. by rewrite (sort_by_perm le l). Qed.

Lemma list_where_elem `{Locale} j test (o : RetentionOwnership) :
  o ∈ mj_ownership j → test o = true → withDerived j o ∈ list_where j test.
Proof.
  intros Ho Ht. unfold list_where. apply list_elem_of_fmap_2. rewrite sort_by_elem.
  apply list_elem_of_In, filter_In. by rewrite <-list_elem_of_In.
Qed.

Lemma list_where_inv `{Locale} j test o :
  o ∈ list_where j test → ∃ o', o = withDerived j o' ∧ o' ∈ mj_ownership j ∧ test o' = true.
Proof.
  unfold list_where. intros (o' & -> & Ho)%list_elem_of_fmap_1. rewrite sort_by_elem in Ho.
  exists o'. by apply list_elem_of_In, filter_In in Ho as [?%list_elem_of_In ?].
Qed.

Lemma denials_cover_evidence `{Locale} j j' : evidence_step j j' → denials_cover j → denials_cover j'.
Proof.
  intros Hs Hc o. pose proof (evidence_step_grows j j' Hs) as Hg.
  assert (Hsame : mj_ownership j' = mj_ownership j ∧
    (mj_providerDenials j' = mj_providerDenials j ∨ ∃ stop derived, recordStopAndDenials j stop derived = Ok j')).
  { destruct Hs; try (split; [|right; by eauto]);
    match goal with H : _ = Ok _ |- _ => revert H end;
    unfold recordStopAndDenials, recordPlan, recordAttempt, recordTombstone, recordReceipt, recordCheckpoint,
      recordReceiptRevalidation, recordReceiptRevalidationAndCheckpoint; intros Hr; inv_res; auto. }
  destruct Hsame as [-> [Hp|(stop & derived & Hr)]]; intros Ho Hd.
  { apply (digestUseDenied_grows j j' Hg), Hc; [done|]. revert Hd. unfold providerUseDenied. by rewrite Hp. }
  destruct (providerUseDenied j (ow_providerLane o) (ow_providerId o)) eqn:E.
  { by apply (digestUseDenied_grows j j' Hg), Hc. }
  revert Hr Hd. unfold recordStopAndDenials. intros Hr. inv_res.
  unfold providerUseDenied, digestUseDenied in *. cbn -[set_add set_add_all].
  rewrite bool_decide_eq_true. apply bool_decide_eq_false in E.
  assert (Hin : provider_text (ow_providerLane o) (ow_providerId o)
      ∈ set_add (mj_providerDenials j) (provider_text (st_providerLane stop) (st_providerId stop)) →
    ow_providerLane o = st_providerLane stop ∧ ow_providerId o = st_providerId stop).
  { unfold set_add. case_bool_decide; [done|]. rewrite elem_of_app, list_elem_of_singleton.
    intros [?|?%provider_text_inj]; done. }
  intros [Hl Hi]%Hin. apply orb_true_iff. left. apply bool_decide_eq_true, set_add_all_elem. right.
  apply (list_elem_of_fmap_2 (λ o : RetentionOwnership, ow_artifactDigest o) _ (withDerived j o)).
  apply list_where_elem; [done|]. unfold owned_by, same_string. by rewrite Hl, Hi, !bool_decide_true.
Qed.

Lemma denials_cover_register j j' : register_step j j' → denials_cover j → denials_cover j'.
Proof.
  intros Hs Hc. pose proof (register_step_grows j j' Hs) as Hg.
  assert (Hsame : mj_providerDenials j' = mj_providerDenials j ∧
    ∀ o : RetentionOwnership, o ∈ mj_ownership j' → o ∈ mj_ownership j ∨
      (providerUseDenied j (ow_providerLane o) (ow_providerId o) = true → digestUseDenied j' (ow_artifactDigest o) = true)).
  { destruct Hs as [x j1 b Hr|id derived j1 b Hr]; revert Hr;
      unfold registerOwnershipAndApplyActiveStop, registerDerivedLineageAndApplyActiveStop.
    - intros Hr. inv_res. split; [by destruct (providerUseDenied _ _ _)|]. intros o Ho.
      assert (o ∈ x0) as Ho' by (revert Ho; by destruct (providerUseDenied _ _ _)). clear Ho.
      apply (map_record_grown _ _ _ _ _ _ _ Hr0) in Ho' as [Ho| ->]; [by left|right].
      intros Hd. replace (providerUseDenied _ _ _) with true by done.
      unfold digestUseDenied. apply orb_true_iff. left. cbn -[set_add_all].
      apply bool_decide_eq_true, set_add_all_elem. right. by left.
    - destruct (map_get _ _ _); [|done]. intros [= <- <-].
      destruct (providerUseDenied _ _ _); (split; [done|]); intros o Ho; by left. }
  destruct Hsame as [Hp Ho']. intros o Ho Hd.
  assert (Hd' : providerUseDenied j (ow_providerLane o) (ow_providerId o) = true).
  { revert Hd. unfold providerUseDenied. by rewrite Hp. }
  destruct (Ho' o Ho) as [?|?]; [|auto]. by apply (digestUseDenied_grows j j' Hg), Hc.
Qed.

(** ** The proof rule for the retention controller

    A preorder of states which the journal's operations, the world and the other callers
    respect is respected by every method of the controller, however it ends. *)

(** ** What a relation must cover *)

Section covers.
Context `{Sha256} `{Zod} `{Locale} {W : Type} `{!RetentionWorld W} `{!RetentionCallers W}.
Abbreviation St := (controller W).
Context (R : relation St).

(** Everything but the registrations, the opening and closing of stops and the erasures. *)
Class Covers : Prop := {
  cv_preorder : PreOrder R;
  cv_evidence s j : evidence_step (rt_journal s) j → R s (put_journal j s);
  cv_now s : R s (put_world (w_nowMs (rt_world s)).1 s);
  cv_fault checkpoint digest : steps R (world (w_faultBoundary checkpoint digest));
  cv_settle : steps R (world w_settleActiveReadersAndWriters);
  cv_verify digest : steps R (world (w_verifyDigestCopiesAbsent digest));
  cv_turn s : R s (c_turn s);
  cv_idle ms s : R s (c_idle ms s).1;
  cv_handler h : steps R (c_stopHandler h)
}.

Class CoversErase : Prop := cv_erase digest : steps R (world (w_eraseDigestCopies digest)).

Class CoversStops : Prop := {
  cv_open s : R s (put_coordinator (open_stop (rt_coordinator s)) s);
  cv_close s : R s (put_coordinator (close_stop (rt_coordinator s)) s);
  cv_wait s : R s (put_idle (rt_idleWaiting s + 1) s)
}.

(** Registrations, and the bookkeeping of leases. *)
Class CoversUse : Prop := {
  cv_register s j : register_step (rt_journal s) j → R s (put_journal j s);
  cv_count s n : R s (put_coordinator (count_operations n (rt_coordinator s)) s);
  cv_handlers s f : R s (put_coordinator (with_handlers f (rt_coordinator s)) s);
  cv_leases s l : (length (rt_leases s) ≤ length l)%nat → R s (put_leases l s);
  cv_resolve s : R s (put_idle 0 s)
}.
End covers.
#[export] Existing Instance cv_preorder.

(** ** Methods *)

Section methods.
Context `{Sha256} `{Zod} `{Locale} {W : Type} `{!RetentionWorld W} `{!RetentionCallers W}.
Abbreviation St := (controller W).
Context {R : relation St} `{!Covers R}.

Lemma steps_asks {A} (f : journal → A) : steps R (asks f).
Proof. intros s. reflexivity. Qed.

Lemma steps_answers {A} (f : journal → res A) : steps R (answers f).
Proof. intros s. reflexivity. Qed.

Lemma steps_coordinator : steps R coordinator.
Proof. intros s. reflexivity. Qed.

Lemma steps_records (f : journal → res journal) :
  (∀ j j', f j = Ok j' → evidence_step j j') → steps R (records f).
Proof.
  intros Hf s. unfold records. destruct (f (rt_journal s)) as [j|e] eqn:E; cbn; [|reflexivity].
  apply cv_evidence; [done|by apply Hf].
Qed.

Lemma steps_turn : steps R (sm_modify c_turn).
Proof. intros s. cbn. by apply cv_turn. Qed.

Lemma steps_awaits {A} (m : sm W A) : steps R (world m) → steps R (awaits m).
Proof. intros Hm. unfold awaits. steps; [apply steps_turn|done|apply steps_turn]. Qed.

Lemma steps_fault checkpoint : steps R (fault checkpoint).
Proof. apply steps_awaits, cv_fault, _. Qed.

Lemma steps_fault_at checkpoint digest : steps R (fault_at checkpoint digest).
Proof. apply steps_awaits, cv_fault, _. Qed.

Lemma steps_settleReaders : steps R settleReaders.
Proof. apply steps_awaits, cv_settle, _. Qed.

Lemma steps_verifyAbsent digest : steps R (verifyAbsent digest).
Proof. apply steps_awaits, cv_verify, _. Qed.

Lemma steps_eraseCopies `{!CoversErase R} digest : steps R (eraseCopies digest).
Proof. apply steps_awaits, cv_erase, _. Qed.

Lemma steps_refuse b reason stage : steps R (refuse b reason stage).
Proof. intros s. reflexivity. Qed.

Lemma steps_unless b stage : steps R (unless_provable b stage).
Proof. intros s. reflexivity. Qed.

Lemma steps_trustedNow : steps R trustedNow.
Proof.
  intros s. unfold trustedNow, sm_bind, world. pose proof (cv_now R s) as Hn.
  destruct (w_nowMs (rt_world s)) as [w t]. cbn in *. by destruct (assertSafeTime t _).
Qed.

Lemma steps_assertDeadline deadline : steps R (assertDeadline deadline).
Proof. unfold assertDeadline. steps; [apply steps_trustedNow|apply steps_refuse]. Qed.
End methods.

#[export] Hint Resolve steps_asks steps_answers steps_coordinator steps_turn steps_fault steps_fault_at
  steps_settleReaders steps_verifyAbsent steps_eraseCopies steps_refuse steps_unless steps_trustedNow
  steps_assertDeadline : steps.

(** Recording evidence; the other parts are looked up. *)
Ltac steps_auto :=
  steps; try (apply steps_records; intros ? ? ?; by econstructor); eauto with steps typeclass_instances.

Section enforcement.
Context `{Sha256} `{Zod} `{Locale} {W : Type} `{!RetentionWorld W} `{!RetentionCallers W}.
Abbreviation St := (controller W).
Context {R : relation St} `{!Covers R}.

Lemma steps_verify_digest digest : steps R (verify_digest digest).
Proof. unfold verify_digest. steps_auto. Qed.

Lemma steps_verifyPlanErased plan : steps R (verifyPlanErased plan).
Proof. unfold verifyPlanErased, verify_derived. steps_auto. apply steps_verify_digest. Qed.

Lemma steps_ensureCheckpoint plan receipt : steps R (ensureCheckpoint plan receipt).
Proof. unfold ensureCheckpoint. steps_auto. Qed.

Lemma steps_record_plan input stop ownership : steps R (record_plan input stop ownership).
Proof. unfold record_plan. steps_auto. Qed.

Lemma steps_record_attempt body : steps R (record_attempt body).
Proof. unfold record_attempt. steps_auto. Qed.

Lemma steps_record_tombstone plan digest : steps R (record_tombstone plan digest).
Proof. unfold record_tombstone. steps_auto. Qed.

#[local] Hint Resolve steps_verifyPlanErased steps_ensureCheckpoint steps_record_plan steps_record_attempt
  steps_record_tombstone : steps.

Lemma steps_recheck plan base prior : steps R (recheck plan base prior).
Proof. unfold recheck. steps_auto. Qed.

Lemma steps_issue_receipt plan ownership : steps R (issue_receipt plan ownership).
Proof. unfold issue_receipt. steps_auto. Qed.

Lemma steps_revalidate plan base prior : steps R (revalidate plan base prior).
Proof. unfold revalidate. steps_auto. Qed.

Lemma steps_call_handlers : steps R call_handlers.
Proof. unfold call_handlers. steps_auto. apply cv_handler, _. Qed.

#[local] Hint Resolve steps_recheck steps_issue_receipt steps_revalidate steps_call_handlers : steps.

(** The parts that erase are taken apart where the relation cannot cover every erasure. *)
Lemma steps_enforceStop_of input stop fuel :
  (∀ plan, steps R (erase_plan (st_deadlineMs input) plan)) → steps R (enforceStop_ fuel input stop).
Proof.
  intros Hp. revert stop. induction fuel as [|fuel IH]; intros stop; cbn [enforceStop_]; [apply steps_lift, _|].
  steps_auto.
Qed.

Section stops.
Context `{!CoversStops R}.

Lemma steps_begin_wait deadline : steps R (begin_wait deadline).
Proof.
  unfold begin_wait. apply (steps_bind R); [apply steps_coordinator|]. intros c. apply steps_if; [|apply steps_ret, _].
  apply (steps_bind R); [apply steps_trustedNow|]. intros now. apply (steps_bind R); [steps_auto|]. intros [] s.
  cbn. apply cv_wait, _.
Qed.

#[local] Hint Resolve steps_begin_wait : steps.

Lemma steps_await_operations deadline : steps R (await_operations deadline).
Proof.
  unfold await_operations. apply (steps_bind R); [apply steps_begin_wait|]. intros [[ms n]|]; [|apply steps_ret, _].
  apply (steps_bind R); [|intros ?; apply steps_unless]. intros s. pose proof (cv_idle R ms s).
  by destruct (c_idle ms s).
Qed.

#[local] Hint Resolve steps_await_operations : steps.

Lemma steps_settle_stop fuel (stop : RetentionStopEvent) derived :
  steps R (enforceStop_ fuel stop stop) → steps R (settle_stop fuel stop derived).
Proof. intros He. unfold settle_stop. steps_auto. Qed.

Lemma steps_announce_stop input : steps R (announce_stop input).
Proof. unfold announce_stop. steps_auto; intros s; cbn; by apply cv_open. Qed.
End stops.

Context `{!CoversErase R}.

Lemma steps_erase_attempt plan digest ordinal pending : steps R (erase_attempt plan digest ordinal pending).
Proof. unfold erase_attempt. steps_auto. Qed.

#[local] Hint Resolve steps_erase_attempt : steps.

Lemma steps_erase_digest deadline plan digest : steps R (erase_digest deadline plan digest).
Proof. unfold erase_digest. steps_auto. Qed.

#[local] Hint Resolve steps_erase_digest : steps.

Lemma steps_erase_plan deadline plan : steps R (erase_plan deadline plan).
Proof. unfold erase_plan. steps_auto. Qed.

Lemma steps_enforceStop_ fuel input stop : steps R (enforceStop_ fuel input stop).
Proof. apply steps_enforceStop_of. intros. apply steps_erase_plan. Qed.

#[local] Hint Resolve steps_settle_stop steps_enforceStop_ : steps.

Lemma steps_enforceStop `{!CoversStops R} fuel input : steps R (enforceStop fuel input).
Proof.
  pose proof (steps_announce_stop input). unfold enforceStop. steps_auto; intros s; cbn; by apply cv_close.
Qed.
End enforcement.

#[export] Hint Resolve steps_verifyPlanErased steps_ensureCheckpoint steps_record_plan steps_record_attempt
  steps_record_tombstone steps_recheck steps_issue_receipt steps_revalidate steps_call_handlers
  steps_begin_wait steps_await_operations steps_announce_stop steps_erase_attempt steps_erase_digest steps_erase_plan steps_enforceStop_
  steps_settle_stop steps_enforceStop : steps.

(** ** Uses, registrations and commits *)

Section use.
Context `{Sha256} `{Zod} `{Locale} {W : Type} `{!RetentionWorld W} `{!RetentionCallers W}.
Abbreviation St := (controller W).
Context {R : relation St} `{!Covers R}.

Lemma steps_artifactUseAllowed digest : steps R (artifactUseAllowed digest).
Proof. unfold artifactUseAllowed. steps_auto. Qed.

Lemma steps_derivedUseAllowed derivedId : steps R (derivedUseAllowed derivedId).
Proof. unfold derivedUseAllowed. steps_auto. Qed.

#[local] Hint Resolve steps_artifactUseAllowed steps_derivedUseAllowed : steps.

Lemma steps_assertArtifactUseAllowed digest : steps R (assertArtifactUseAllowed digest).
Proof. unfold assertArtifactUseAllowed. steps_auto. Qed.

Lemma steps_assertDerivedUseAllowed derivedId : steps R (assertDerivedUseAllowed derivedId).
Proof. unfold assertDerivedUseAllowed. steps_auto. Qed.

Lemma steps_assertAllowed digests derived : steps R (assertAllowed digests derived).
Proof. unfold assertAllowed. steps_auto. Qed.

Lemma steps_lease_of lease : steps R (lease_of lease).
Proof. intros s. reflexivity. Qed.

#[local] Hint Resolve steps_assertAllowed steps_lease_of : steps.

Lemma steps_lease_assertAllowed lease : steps R (lease_assertAllowed lease).
Proof. unfold lease_assertAllowed. steps_auto. Qed.

Context `{!CoversUse R}.

Lemma steps_count n : steps R (coordinates (count_operations n)).
Proof. intros s. cbn. by apply cv_count. Qed.

Lemma steps_with_handlers f : steps R (coordinates (with_handlers f)).
Proof. intros s. cbn. by apply cv_handlers. Qed.

Lemma steps_put_lease lease l : steps R (put_lease lease l).
Proof. intros s. unfold put_lease. cbn. apply cv_leases; [done|]. by rewrite length_insert. Qed.

Lemma steps_handler h : steps R (c_stopHandler h).
Proof. by apply cv_handler. Qed.

Lemma steps_registers (f : journal → res (journal * bool)) :
  (∀ j j' b, f j = Ok (j', b) → register_step j j') → steps R (registers f).
Proof.
  intros Hf s. unfold registers. destruct (f (rt_journal s)) as [[j b]|e] eqn:E; cbn; [|reflexivity].
  apply cv_register; [done|by eapply Hf].
Qed.

#[local] Hint Resolve steps_count steps_with_handlers steps_put_lease steps_handler
  steps_lease_assertAllowed : steps.

Lemma steps_beginUse digests derived : steps R (beginUse digests derived).
Proof.
  unfold beginUse. apply (steps_bind R); [eauto with steps|]. intros [].
  apply (steps_bind R); [eauto with steps|]. intros [] s. apply steps_bind_of; [apply _|reflexivity|]. intros ? ? [= <- <-].
  apply steps_bind_of; [apply _| |reflexivity]. cbn. apply cv_leases; [done|]. rewrite length_app. lia.
Qed.

Lemma steps_lease_onStop lease handler : steps R (lease_onStop lease handler).
Proof. unfold lease_onStop. steps_auto. Qed.

Lemma steps_lease_release lease : steps R (lease_release lease).
Proof. unfold lease_release. steps_auto. intros s. cbn. by apply cv_resolve. Qed.

#[local] Hint Resolve steps_beginUse steps_lease_release : steps.

Lemma steps_registerOwnership_ test input : steps R (registerOwnership_ test input).
Proof. unfold registerOwnership_. steps_auto. apply steps_registers. intros. by econstructor. Qed.

Lemma steps_registerOwnership test input : steps R (registerOwnership test input).
Proof. unfold registerOwnership. steps_auto. apply steps_registerOwnership_. Qed.

Lemma steps_registerDerivedLineage test digests derived : steps R (registerDerivedLineage test digests derived).
Proof.
  unfold registerDerivedLineage, registerDerivedLineage_, register_digest_lineage, register_lineage. steps_auto.
  apply steps_registers. intros j j' b Hj. by apply (Step_lineage _ _ _ _ _ Hj).
Qed.

Context `{!CoversErase R}.

Lemma steps_rollback digest : steps R (rollback digest).
Proof. unfold rollback. steps_auto. Qed.

#[local] Hint Resolve steps_rollback steps_registerOwnership_ : steps.

Lemma steps_commitArtifact {A} test input (commit : sm St A) :
  steps R commit → steps R (commitArtifact test input commit).
Proof. intros Hc. unfold commitArtifact. steps_auto. Qed.
End use.

#[export] Hint Resolve steps_artifactUseAllowed steps_derivedUseAllowed steps_assertArtifactUseAllowed
  steps_assertDerivedUseAllowed steps_assertAllowed steps_lease_of steps_lease_assertAllowed steps_count
  steps_with_handlers steps_put_lease steps_handler steps_beginUse steps_lease_onStop
  steps_lease_release steps_registerOwnership_ steps_registerOwnership steps_registerDerivedLineage
  steps_rollback steps_commitArtifact : steps.

(** ** Any calls *)

Section calls.
Context `{Sha256} `{Zod} `{Locale} {W : Type} `{!RetentionWorld W} `{!RetentionCallers W}.
Abbreviation St := (controller W).

(** The calls of the controller and of its leases. *)
Inductive retention_call : Type :=
  | Call_register (test : bool) (input : OwnershipInput)
  | Call_beginUse (digests derived : list jsstring)
  | Call_lease_assert (lease : nat)
  | Call_lease_onStop (lease handler : nat)
  | Call_lease_release (lease : nat)
  | Call_commit (test : bool) (input : OwnershipInput) (commit : sm St unit)
  | Call_lineage (test : bool) (digests derived : list jsstring)
  | Call_assert_artifact (digest : jsstring)
  | Call_assert_derived (derivedId : jsstring)
  | Call_enforce (fuel : nat) (input : StopInput).

Definition do_call (c : retention_call) (s : St) : St :=
  match c with
  | Call_register test input => (registerOwnership test input s).1
  | Call_beginUse digests derived => (beginUse digests derived s).1
  | Call_lease_assert lease => (lease_assertAllowed lease s).1
  | Call_lease_onStop lease handler => (lease_onStop lease handler s).1
  | Call_lease_release lease => (lease_release lease s).1
  | Call_commit test input commit => (commitArtifact test input commit s).1
  | Call_lineage test digests derived => (registerDerivedLineage test digests derived s).1
  | Call_assert_artifact digest => (assertArtifactUseAllowed digest s).1
  | Call_assert_derived derivedId => (assertDerivedUseAllowed derivedId s).1
  | Call_enforce fuel input => (enforceStop fuel input s).1
  end.

Definition do_calls : list retention_call → St → St := flip (foldl (flip do_call)).

(** The commits among the calls do what the other callers may do. *)
Definition commits_covered (R : relation St) (c : retention_call) : Prop :=
  match c with Call_commit _ _ commit => steps R commit | _ => True end.

Context (R : relation St) `{!Covers R, !CoversErase R, !CoversStops R, !CoversUse R}.

Lemma do_call_steps c s : commits_covered R c → R s (do_call c s).
Proof.
  destruct c; cbn [commits_covered do_call]; intros Hc; match goal with |- R _ (?m s).1 => revert s; change (steps R m) end;
    eauto with steps.
Qed.

Lemma do_calls_steps cs s : Forall (commits_covered R) cs → R s (do_calls cs s).
Proof.
  intros Hc. revert s. induction Hc as [|c cs Hc _ IH]; intros s; cbn; [reflexivity|].
  etrans; [by apply do_call_steps|apply IH].
Qed.
End calls.
