(* ===== verification/RetentionErased.v ===== *)
(** * What a receipt stands for

    The states of a controller evolve along a preorder: the journal only grows, denied
    providers stay covered, the world moves on.  Relative to it a verification says what is
    erased, denied and recorded, and a receipt that enforcing a stop returned says it of
    everything its provider owned. *)
From S2P Require Import Prelude Steps JsString JsNumber Json JsonLimits JsonParse Hash Zod JsonObject.
From S2P Require Import Event Codec Records Retention RetentionJournal.
From S2P Require Import RetentionController RetentionErasure RetentionFacts.

(** ** Evolution *)

Section evolution.
Context `{Sha256} `{Zod} `{Locale} {W : Type} `{!RetentionWorld W} `{!RetentionCallers W}.
Abbreviation St := (controller W).

(** [Rw] says how the world may move. *)
Record evolves (Rw : relation W) (s s' : St) : Prop := {
  ev_journal : journal_grows (rt_journal s) (rt_journal s');
  ev_denials : denials_cover (rt_journal s) → denials_cover (rt_journal s');
  ev_world : Rw (rt_world s) (rt_world s');
  ev_leases : (length (rt_leases s) ≤ length (rt_leases s'))%nat
}.

(** The world moves along [Rw], and the other callers let the state evolve. *)
Class WellBehaved (Rw : relation W) : Prop := {
  wb_preorder : PreOrder Rw;
  wb_now w : Rw w (w_nowMs w).1;
  wb_fault checkpoint digest : steps Rw (w_faultBoundary checkpoint digest);
  wb_settle : steps Rw w_settleActiveReadersAndWriters;
  wb_erase digest : steps Rw (w_eraseDigestCopies digest);
  wb_verify digest : steps Rw (w_verifyDigestCopiesAbsent digest);
  wb_turn s : evolves Rw s (c_turn s);
  wb_idle ms s : evolves Rw s (c_idle ms s).1;
  wb_handler h : steps (evolves Rw) (c_stopHandler h)
}.
End evolution.

Section covers.
Context `{Sha256} `{Zod} `{Locale} {W : Type} `{!RetentionWorld W} `{!RetentionCallers W}.
Abbreviation St := (controller W).
Context (Rw : relation W) `{!WellBehaved Rw}.

#[export] Instance evolves_preorder : PreOrder (evolves Rw).
Proof.
  pose proof (wb_preorder (Rw := Rw)). split; [intros s; by split|].
  intros s1 s2 s3 [] []. split; [by etrans|by auto|by etrans|lia].
Qed.

Lemma steps_world {A} (m : sm W A) : steps Rw m → steps (evolves Rw) (world m).
Proof.
  intros Hm s. unfold world. specialize (Hm (rt_world s)). destruct (m (rt_world s)) as [w r]. by split.
Qed.

#[export] Instance evolves_covers : Covers (evolves Rw).
Proof.
  pose proof (wb_preorder (Rw := Rw)). split; intros.
  - apply _.
  - split; [by apply evidence_step_grows|by apply denials_cover_evidence|reflexivity|done].
  - split; [reflexivity|done|apply wb_now|done].
  - apply steps_world, wb_fault.
  - apply steps_world, wb_settle.
  - apply steps_world, wb_verify.
  - apply wb_turn.
  - apply wb_idle.
  - apply wb_handler.
Qed.

#[export] Instance evolves_covers_erase : CoversErase (evolves Rw).
Proof. intros d. apply steps_world, wb_erase. Qed.

#[export] Instance evolves_covers_stops : CoversStops (evolves Rw).
Proof. pose proof (wb_preorder (Rw := Rw)). split; intros; by split. Qed.

#[export] Instance evolves_covers_use : CoversUse (evolves Rw).
Proof.
  pose proof (wb_preorder (Rw := Rw)). split; intros; [|by split..].
  split; [by apply register_step_grows|by apply denials_cover_register|reflexivity|done].
Qed.
End covers.

(** ** Equal lists *)

Lemma same_list_eq a b : same_list a b = Ok true → Forall units_ok a → Forall units_ok b → a = b.
Proof.
  unfold same_list, same_text. intros Hs Ha Hb. inv_res. bool_prop. subst.
  pose proof (canonicalJson_inj _ _ _ (jstrs_wf a Ha) (jstrs_wf b Hb) Hs0 Hs1) as He.
  unfold json_equiv, jstrs in He. cbn [norm] in He. injection He as He. clear -He.
  revert b He. induction a as [|x a IH]; intros [|y b] [=]; [done|]. subst. f_equal. by apply IH.
Qed.

(** ** Verified erasure *)

Section erased.
Context `{Sha256} `{Zod} `{Locale} {W : Type} `{!RetentionWorld W} `{!RetentionCallers W}.
Abbreviation St := (controller W).
Context (Rw : relation W) `{!WellBehaved Rw}.
Abbreviation R := (evolves Rw).

(** Between two states the vault answered that no copy of the digest is left. *)
Definition seen_absent (digest : jsstring) (s s' : St) : Prop :=
  ∃ s1 s2, R s s1 ∧ verifyAbsent digest s1 = (s2, Ok true) ∧ R s2 s'.

Definition digest_erased (s : St) (digest : jsstring) (s' : St) : Prop :=
  digestUseDenied (rt_journal s') digest = true ∧ hasTombstone (rt_journal s') digest = true ∧
  seen_absent digest s s'.

(** What [#verifyPlanErased] checks. *)
Record plan_erased (plan : PlanBody) (s s' : St) : Prop := {
  pe_provider : providerUseDenied (rt_journal s') (pl_providerLane plan) (pl_providerId plan) = true;
  pe_digests : ∀ d, d ∈ pl_artifactDigests plan → digest_erased s d s';
  pe_derived : ∀ d, d ∈ pl_derivedIds plan → derivedUseDenied (rt_journal s') d = true
}.

Lemma seen_absent_mono d s0 s s' s'' : R s0 s → seen_absent d s s' → R s' s'' → seen_absent d s0 s''.
Proof. intros ? (s1 & s2 & ? & ? & ?) ?. exists s1, s2. split; [by etrans|split; [done|by etrans]]. Qed.

Lemma digest_erased_mono d s0 s s' s'' : R s0 s → digest_erased s d s' → R s' s'' → digest_erased s0 d s''.
Proof.
  intros Hpre (Hd & Ht & Ha) Hpost. pose proof (ev_journal _ _ _ Hpost).
  split; [by eapply digestUseDenied_grows|]. split; [by eapply hasTombstone_grows|by eapply seen_absent_mono].
Qed.

Lemma plan_erased_mono plan s0 s s' s'' : R s0 s → plan_erased plan s s' → R s' s'' → plan_erased plan s0 s''.
Proof.
  intros Hpre [Hp Hd Hv] Hpost. pose proof (ev_journal _ _ _ Hpost). split.
  - by eapply providerUseDenied_grows.
  - intros d Hin. eapply digest_erased_mono; [done|by apply Hd|done].
  - intros d Hin. eapply derivedUseDenied_grows; [done|by apply Hv].
Qed.

Lemma asks_ok {A} (f : journal → A) s s' a : asks (W := W) f s = (s', Ok a) → s' = s ∧ a = f (rt_journal s).
Proof. by intros [= <- <-]. Qed.

Lemma answers_ok {A} (f : journal → res A) s s' a :
  answers (W := W) f s = (s', Ok a) → s' = s ∧ f (rt_journal s) = Ok a.
Proof. unfold answers. by intros [= <- ->]. Qed.

Lemma unless_ok b stage s s' u : unless_provable (W := W) b stage s = (s', Ok u) → s' = s ∧ b = false.
Proof. unfold unless_provable, sm_lift. destruct b; [done|]. by intros [= <-]. Qed.

Lemma records_ok f s s' u :
  records (W := W) f s = (s', Ok u) → ∃ j, f (rt_journal s) = Ok j ∧ s' = put_journal j s.
Proof. unfold records. destruct (f (rt_journal s)) as [j|e]; [|done]. intros [= <- <-]. by exists j. Qed.

Lemma sm_lift_ok {A} (r : res A) (s s' : St) a : sm_lift r s = (s', Ok a) → s' = s ∧ r = Ok a.
Proof. unfold sm_lift. by intros [= <- ->]. Qed.
End erased.

(** Take apart a method that ended well. *)
Ltac inv_sm :=
  repeat match goal with
  | u : unit |- _ => destruct u
  | H : sm_bind _ _ _ = (_, Ok _) |- _ =>
      let s := fresh "s" in let a := fresh "a" in let H1 := fresh H in
      apply sm_bind_ok in H as (s & a & H1 & H)
  | H : asks _ _ = (_, Ok _) |- _ => apply asks_ok in H as [-> ->]
  | H : answers _ _ = (_, Ok _) |- _ => let H1 := fresh H in apply answers_ok in H as [-> H1]
  | H : unless_provable _ _ _ = (_, Ok _) |- _ => let H1 := fresh H in apply unless_ok in H as [-> H1]
  | H : sm_lift _ _ = (_, Ok _) |- _ => let H1 := fresh H in apply sm_lift_ok in H as [-> H1]
  | H : sm_ret _ _ = (_, Ok _) |- _ => injection H as <- <-
  end.

Section receipts.
Context `{Sha256} `{Zod} `{Locale} {W : Type} `{!RetentionWorld W} `{!RetentionCallers W}.
Abbreviation St := (controller W).
Context (Rw : relation W) `{!WellBehaved Rw}.
Abbreviation R := (evolves Rw).

Lemma verify_digest_ok d s s' : verify_digest d s = (s', Ok tt) → R s s' ∧ digest_erased Rw s d s'.
Proof.
  unfold verify_digest. intros Hv.
  assert (Hs : R s s').
  { apply (steps_run R _ _ _ _ (steps_verify_digest d) Hv). }
  split; [done|]. inv_sm. destruct a0; [|done]. bool_prop.
  pose proof (ev_journal _ _ _ Hs).
  split; [by eapply digestUseDenied_grows|]. split; [by eapply hasTombstone_grows|].
  exists s, s2. split; [reflexivity|split; [done|reflexivity]].
Qed.

Lemma verifyPlanErased_ok (plan : RetentionErasurePlan) s s' :
  verifyPlanErased plan s = (s', Ok tt) → R s s' ∧ plan_erased Rw plan s s'.
Proof.
  intros Hv. pose proof (steps_run R _ _ _ _ (steps_verifyPlanErased plan) Hv) as Hs.
  split; [done|]. unfold verifyPlanErased in Hv. inv_sm. bool_prop.
  destruct (sm_each_ok verify_digest (pl_artifactDigests plan) s s2 (λ d s3, digest_erased Rw s d s3) R)
    as [Hs1 Hd]; [| |done|].
  { intros d s3 s4 Hs34 He. by apply (digest_erased_mono Rw d s s s3 s4). }
  { intros d s3 s4 _ Hr [Hr' He]%verify_digest_ok. split; [done|]. by apply (digest_erased_mono Rw d s s3 s4 s4). }
  destruct (sm_each_ok verify_derived (pl_derivedIds plan) s2 s'
    (λ d s1, derivedUseDenied (rt_journal s1) d = true) R) as [Hs2 Hder]; [| |done|].
  { intros d s3 s4 Hs34 He. by eapply derivedUseDenied_grows; [apply (ev_journal _ _ _ Hs34)|]. }
  { intros d s3 s4 _ Hr He. unfold verify_derived in He. inv_sm. bool_prop. by split. }
  split; [eapply providerUseDenied_grows; [apply (ev_journal _ _ _ Hs)|done]| |done].
  intros d Hin. apply (digest_erased_mono Rw d s s s2 s'); [reflexivity|by apply Hd|done].
Qed.

(** ** Receipts *)

(** Equal lists of strings, whatever they are made of besides code units. *)
Definition same_strings (a b : list jsstring) : Prop := Forall units_ok a → Forall units_ok b → a = b.

Record receipt_of (plan : RetentionErasurePlan) (r : RetentionReceipt) : Prop := {
  ro_plan : rc_planId r = pl_planId plan;
  ro_hash : rc_planHash r = pl_planHash plan;
  ro_digests : same_strings (rc_artifactDigests r) (pl_artifactDigests plan);
  ro_observations : same_strings (rc_artifactObservationIds r) (pl_artifactObservationIds plan);
  ro_id : deriveRetentionReceiptId r = Ok (rc_receiptId r)
}.

(** A receipt in the journal: the first one of its plan or that of a revalidation. *)
Definition receipt_recorded (j : journal) (plan : RetentionErasurePlan) (r : RetentionReceipt) : Prop :=
  (∃ r', getReceiptForPlan j (pl_planId plan) = Some r' ∧ rc_receiptId r' = rc_receiptId r) ∨
  ∃ v : RetentionReceiptRevalidation, v ∈ mj_receiptRevalidations j ∧ rv_planId v = pl_planId plan ∧ rv_receipt v = r.

Lemma receipt_recorded_grows j j' plan r : journal_grows j j' → receipt_recorded j plan r → receipt_recorded j' plan r.
Proof.
  intros Hg [(r' & Hr & Hid)|(v & Hv & Hp)]; [left; exists r'|right; exists v].
  - split; [by eapply getReceipt_grows|done].
  - split; [eapply prefix_elem, Hv; apply Hg|done].
Qed.

Lemma confirm_ok b stage u : confirm b stage = Ok u ↔ b = true.
Proof. unfold confirm. destruct b, u; naive_solver. Qed.

Lemma same_string_eq a b : same_string a b = true ↔ a = b.
Proof. apply bool_decide_eq_true. Qed.

Lemma check_receipt_ok plan b r u : check_receipt plan b r = Ok u → receipt_of plan r ∧ b = true.
Proof.
  unfold check_receipt. intros Hc. inv_res. rewrite confirm_ok in *.
  repeat match goal with Hb : _ && _ = true |- _ => apply andb_true_iff in Hb as [? ?] end.
  rewrite !same_string_eq in *. subst. split; [|done]. split; [done|done|..].
  - intros ??. by apply same_list_eq.
  - intros ??. by apply same_list_eq.
  - congruence.
Qed.

Lemma latest_of_ok plan base latest index revalidations checkpoints r :
  latest_of plan base latest index revalidations checkpoints = Ok r →
  r = latest ∨ ∃ v : RetentionReceiptRevalidation, v ∈ revalidations ∧ rv_planId v = pl_planId plan ∧ rv_receipt v = r ∧ receipt_of plan r.
Proof.
  revert latest index checkpoints. induction revalidations as [|v vs IH]; intros latest index cs; cbn [latest_of].
  { intros [= ->]. by left. }
  intros Hl. right. inv_res. destruct cs as [|c cs]; [done|]. inv_res.
  unfold check_revalidation in Hl0. inv_res. rewrite !confirm_ok in *.
  bool_prop.
  destruct (IH _ _ _ Hl) as [->|(w & Hw & Hrest)]; [exists v|exists w].
  - split; [by left|]. split; [by apply same_string_eq|]. split; [done|]. by eapply check_receipt_ok.
  - split; [by right|done].
Qed.

Lemma latestReceipt_ok j plan r :
  latestReceipt j plan (getReceiptForPlan j (pl_planId plan)) = Ok (Some r) →
  is_Some (getReceiptForPlan j (pl_planId plan)) ∧ receipt_of plan r ∧ receipt_recorded j plan r.
Proof.
  unfold latestReceipt. destruct (getReceiptForPlan j (pl_planId plan)) as [base|] eqn:E; intros Hl; inv_res; [|done].
  match goal with Hl : latest_of _ _ _ _ _ _ = Ok _ |- _ => apply latest_of_ok in Hl as [->|(v & Hv & Hp & Hr & Ho)] end;
    (split; [done|]).
  - split; [by eapply check_receipt_ok|left]. by exists base.
  - split; [done|]. right. exists v. split; [|done].
    unfold receiptRevalidationsForPlan in Hv. rewrite sort_by_elem in Hv.
    by apply list_elem_of_In, filter_In in Hv as [?%list_elem_of_In _].
Qed.

Lemma identify_receipt_ok body r : identify_receipt body = Ok r → rc_body r = body ∧ deriveRetentionReceiptId r = Ok (rc_receiptId r).
Proof. unfold identify_receipt. intros Hi. by inv_res. Qed.

Lemma issue_receipt_ok plan ownership s s' r :
  issue_receipt plan ownership s = (s', Ok r) → receipt_of plan r ∧ receipt_recorded (rt_journal s') plan r.
Proof.
  intros Hi. unfold issue_receipt in Hi. inv_sm.
  match goal with Hr : identify_receipt _ = Ok _ |- _ => apply identify_receipt_ok in Hr as [Hb Hid] end.
  split; [split; try done; by rewrite Hb|].
  match goal with Hf : fault _ ?s1 = (?s2, _), He : ensureCheckpoint _ _ ?s2 = _ |- _ =>
    pose proof (steps_run R _ _ _ _ (steps_fault _) Hf) as Hs1;
    pose proof (steps_run R _ _ _ _ (steps_ensureCheckpoint _ _) He) as Hs2 end.
  eapply receipt_recorded_grows; [etrans; [apply (ev_journal _ _ _ Hs1)|apply (ev_journal _ _ _ Hs2)]|]. left.
  match goal with Hn : negb (match ?g with _ => _ end) = false |- _ => destruct g as [r'|]; [|done] end.
  exists r'. split; [done|]. bool_prop. by apply same_string_eq.
Qed.

Lemma revalidate_ok plan base prior s s' r :
  revalidate plan base prior s = (s', Ok r) → getReceiptForPlan (rt_journal s) (pl_planId plan) = Some base →
  receipt_of plan prior → receipt_recorded (rt_journal s) plan prior →
  receipt_of plan r ∧ receipt_recorded (rt_journal s') plan r.
Proof.
  intros Hv Hb Ho Hr. pose proof (steps_run R _ _ _ _ (steps_revalidate _ _ _) Hv) as Hs.
  unfold revalidate in Hv. apply sm_bind_ok in Hv as (s1 & [] & Hc & Hv).
  pose proof (steps_run R _ _ _ _ (steps_ensureCheckpoint _ _) Hc) as Hs1.
  inv_sm. destruct (_ =? _).
  { inv_sm. split; [done|]. by eapply receipt_recorded_grows; [apply (ev_journal _ _ _ Hs)|]. }
  inv_sm.
  match goal with Hn : trustedNow _ = _, Hj : records _ ?s0 = (?s6, _) |- _ =>
    pose proof (steps_run R _ _ _ _ steps_trustedNow Hn) as Hs2;
    assert (Hs3 : R s0 s6) by (refine (steps_run R _ _ _ _ _ Hj); steps_auto);
    assert (Hs6 : R s s6) by (etrans; [exact Hs1|etrans; [exact Hs2|exact Hs3]]) end.
  match goal with Hl : latestReceipt _ _ _ = Ok ?o |- _ => destruct o as [reread|]; [|done] end.
  inv_sm. match goal with Hf : fault _ _ = _ |- _ => pose proof (steps_run R _ _ _ _ (steps_fault _) Hf) as Hs4 end.
  match goal with Hl : latestReceipt _ _ (Some base) = Ok _ |- _ =>
    rewrite <-(getReceipt_grows _ _ (ev_journal _ _ _ Hs6) _ _ Hb) in Hl;
    apply latestReceipt_ok in Hl as (_ & ? & ?) end.
  split; [done|]. by eapply receipt_recorded_grows; [apply (ev_journal _ _ _ Hs4)|].
Qed.

Lemma recheck_ok plan base prior s s' o r :
  recheck plan base prior s = (s', Ok o) → o = Some r → prior = Some r ∧ plan_erased Rw plan s s'.
Proof.
  destruct prior as [prior|]; cbn [recheck]; [|by intros [= <- <-]]. intros Hk Ho. inv_sm.
  match goal with Hf : settleReaders _ = _ |- _ => pose proof (steps_run R _ _ _ _ steps_settleReaders Hf) as Hs1 end.
  apply sm_catch_ok in Hk as [Hk|(s3 & e & _ & Hk)]; inv_sm; [|done].
  match type of Ho with (if ?b then _ else _) = _ => destruct b; [injection Ho as ->|done] end.
  match goal with He : verifyPlanErased _ _ = _, Hc : ensureCheckpoint _ _ _ = _ |- _ =>
    apply verifyPlanErased_ok in He as [Hs2 He];
    pose proof (steps_run R _ _ _ _ (steps_ensureCheckpoint _ _) Hc) as Hs3 end.
  split; [done|]. by eapply plan_erased_mono.
Qed.

Lemma erase_plan_ok deadline (plan : RetentionErasurePlan) s s' :
  erase_plan deadline plan s = (s', Ok tt) → R s s' ∧ plan_erased Rw plan s s'.
Proof.
  intros He. pose proof (steps_run R _ _ _ _ (steps_erase_plan _ _) He) as Hs. split; [done|].
  unfold erase_plan in He. apply sm_bind_ok in He as (s1 & [] & Hd1 & He).
  apply sm_bind_ok in He as (s2 & b & Hd2 & He). apply sm_bind_ok in He as (? & [] & [-> _]%unless_ok & He).
  apply sm_bind_ok in He as (s3 & [] & Hd3 & He). apply sm_bind_ok in He as (s4 & [] & Hd4 & He).
  apply verifyPlanErased_ok in He as [Hs5 He].
  assert (Hl : steps R (sm_each (erase_digest deadline plan) (pl_artifactDigests plan))) by steps_auto.
  pose proof (steps_run R _ _ _ _ (steps_assertDeadline _) Hd1) as Hr1.
  pose proof (steps_run R _ _ _ _ steps_settleReaders Hd2) as Hr2.
  pose proof (steps_run R _ _ _ _ (steps_fault _) Hd3) as Hr3.
  pose proof (steps_run R _ _ _ _ Hl Hd4) as Hr4.
  eapply (plan_erased_mono Rw); [|done|reflexivity].
  etrans; [exact Hr1|]. etrans; [exact Hr2|]. etrans; [exact Hr3|exact Hr4].
Qed.

Lemma record_plan_ok input stop ownership (s s' : St) plan :
  record_plan input stop ownership s = (s', Ok plan) →
  pl_body plan = plan_of input (st_stopEventId stop) ownership ∧
  deriveRetentionPlanId plan = Ok (pl_planId plan) ∧
  deriveRetentionPlanHash (pl_planId plan) plan = Ok (pl_planHash plan) ∧
  ∃ p, getPlan (rt_journal s') (pl_planId plan) = Some p ∧ recomputeRetentionPlanHash p = Ok (pl_planHash plan).
Proof.
  unfold record_plan. intros Hr. inv_sm. destruct (getPlan _ _) as [p|] eqn:Ep; [|done]. inv_sm. bool_prop.
  repeat match goal with Hs : same_string _ _ = true |- _ => apply same_string_eq in Hs end. subst.
  split; [done|]. split; [done|]. split; [done|]. by exists p.
Qed.

(** What a receipt of a stop stands for: the plan it is for names what the provider owned
    when it was made. *)
Record stop_settled (input : StopInput) (stopEventId : jsstring) (s s' : St) (r : RetentionReceipt)
    (plan : RetentionErasurePlan) (owned : journal) : Prop := {
  ss_owned : journal_grows (rt_journal s) owned ∧ journal_grows owned (rt_journal s');
  ss_body : pl_body plan =
    plan_of input stopEventId (listOwnership owned (st_providerLane input) (st_providerId input));
  ss_id : deriveRetentionPlanId plan = Ok (pl_planId plan);
  ss_hash : deriveRetentionPlanHash (pl_planId plan) plan = Ok (pl_planHash plan);
  ss_plan : is_Some (getPlan (rt_journal s') (pl_planId plan));
  ss_erased : plan_erased Rw plan s s';
  ss_receipt : receipt_of plan r;
  ss_recorded : receipt_recorded (rt_journal s') plan r
}.

Lemma stop_settled_mono input id s0 s s' s'' r plan owned :
  R s0 s → stop_settled input id s s' r plan owned → R s' s'' → stop_settled input id s0 s'' r plan owned.
Proof.
  intros Hpre [[Ho1 Ho2] ? ? ? [p ?] ? ? ?] Hpost. pose proof (ev_journal _ _ _ Hpre). pose proof (ev_journal _ _ _ Hpost).
  split; try done.
  - split; [by etrans|by etrans].
  - exists p. by eapply getPlan_grows.
  - by eapply plan_erased_mono.
  - by eapply receipt_recorded_grows.
Qed.

(** A plan that was recorded, with a receipt of it, once what it names is erased. *)
Lemma settled_of input stop s s1 s2 s3 s' r plan :
  R s s1 → record_plan input stop (listOwnership (rt_journal s1) (st_providerLane input) (st_providerId input)) s1 =
    (s2, Ok plan) →
  R s2 s3 → R s3 s' → receipt_of plan r → receipt_recorded (rt_journal s') plan r → plan_erased Rw plan s3 s' →
  ∃ plan owned, stop_settled input (st_stopEventId stop) s s' r plan owned.
Proof.
  intros Hs1 Hp Hs3 Hs' Hr Hrec Her. pose proof (steps_run R _ _ _ _ (steps_record_plan _ _ _) Hp) as Hs2.
  apply record_plan_ok in Hp as (Hbody & Hid & Hhash & p & Hget & _).
  assert (Hs2' : R s2 s') by by etrans.
  assert (Hs13 : R s s3) by (etrans; [done|by etrans]).
  exists plan, (rt_journal s1). split; try done.
  - split; [apply (ev_journal _ _ _ Hs1)|]. etrans; [apply (ev_journal _ _ _ Hs2)|apply (ev_journal _ _ _ Hs2')].
  - exists p. eapply getPlan_grows; [apply (ev_journal _ _ _ Hs2')|done].
  - by eapply (plan_erased_mono Rw); [|done|reflexivity].
Qed.

(** The last part of a round: the receipt of a plan that is erased. *)
Lemma finish_ok plan base prior ownership s s1 s' r :
  (∀ r, prior = Some r → receipt_of plan r ∧ receipt_recorded (rt_journal s) plan r) →
  base = getReceiptForPlan (rt_journal s) (pl_planId plan) → R s s1 →
  match prior, base with
  | None, _ => issue_receipt plan ownership
  | Some _, None => sm_lift (Throw (unprovable "retention-verify"))
  | Some prior, Some base => revalidate plan base prior
  end s1 = (s', Ok r) →
  R s1 s' ∧ receipt_of plan r ∧ receipt_recorded (rt_journal s') plan r.
Proof.
  intros Hprior Hb Hs Hf. destruct prior as [prior|].
  - destruct base as [base|]; [|done]. destruct (Hprior prior eq_refl) as [Ho Hr]. pose proof (ev_journal _ _ _ Hs) as Hg.
    split; [apply (steps_run R _ _ _ _ (steps_revalidate _ _ _) Hf)|].
    apply (revalidate_ok plan base prior s1 s'); [done|by eapply getReceipt_grows|done|by eapply receipt_recorded_grows].
  - split; [apply (steps_run R _ _ _ _ (steps_issue_receipt _ _) Hf)|]. by eapply issue_receipt_ok.
Qed.

Lemma enforceStop__ok fuel input stop s s' r :
  enforceStop_ fuel input stop s = (s', Ok r) →
  ∃ plan owned, stop_settled input (st_stopEventId stop) s s' r plan owned.
Proof.
  revert s. induction fuel as [|fuel IH]; intros s; cbn [enforceStop_]; [done|]. intros He.
  apply sm_bind_ok in He as (s1 & [] & Hf1 & He). apply sm_bind_ok in He as (? & ? & [-> ->]%asks_ok & He).
  apply sm_bind_ok in He as (s2 & plan & Hp & He). apply sm_bind_ok in He as (s3 & [] & Hf3 & He).
  apply sm_bind_ok in He as (? & ? & [-> ->]%asks_ok & He).
  apply sm_bind_ok in He as (? & prior & [-> Hl]%answers_ok & He).
  apply sm_bind_ok in He as (s4 & valid & Hk & He).
  pose proof (steps_run R _ _ _ _ (steps_fault _) Hf1) as Hs1.
  pose proof (steps_run R _ _ _ _ (steps_record_plan _ _ _) Hp) as Hs2.
  pose proof (steps_run R _ _ _ _ (steps_fault _) Hf3) as Hs3.
  pose proof (steps_run R _ _ _ _ (steps_recheck _ _ _) Hk) as Hs4.
  assert (Hprior : ∀ r, prior = Some r → receipt_of plan r ∧ receipt_recorded (rt_journal s3) plan r).
  { intros r0 ->. by apply latestReceipt_ok. }
  destruct valid as [r'|].
  { inv_sm. apply (recheck_ok _ _ _ _ _ _ r') in Hk as [-> Her]; [|done].
    destruct (Hprior r' eq_refl) as [Hr Hrec]. eapply settled_of; try done.
    by eapply receipt_recorded_grows; [apply (ev_journal _ _ _ Hs4)|]. }
  apply sm_bind_ok in He as (s5 & [] & [Hs5 Her]%erase_plan_ok & He).
  apply sm_bind_ok in He as (? & ? & [-> ->]%asks_ok & He).
  apply sm_bind_ok in He as (? & same & [-> _]%sm_lift_ok & He).
  assert (Hs35 : R s3 s5) by by etrans. destruct same; cbn [negb] in He.
  - apply sm_bind_ok in He as (s6 & [] & Hf6 & He).
    pose proof (steps_run R _ _ _ _ (steps_fault _) Hf6) as Hs6.
    assert (Hs36 : R s3 s6) by by etrans.
    destruct (finish_ok _ _ _ _ _ _ _ _ Hprior eq_refl Hs36 He) as (Hs7 & Hr & Hrec).
    eapply settled_of; try done; [by etrans|]. eapply (plan_erased_mono Rw); [exact Hs4|exact Her|by etrans].
  - destruct (IH _ He) as (plan' & owned & Hst). exists plan', owned.
    eapply stop_settled_mono; [|exact Hst|reflexivity]. etrans; [done|]. etrans; [done|]. by etrans.
Qed.

Lemma sortedSet_elem (l : list jsstring) x : x ∈ sortedSet l ↔ x ∈ l.
Proof. unfold sortedSet. rewrite sort_by_elem, set_add_all_elem, elem_of_nil. naive_solver. Qed.

(** A recorded stop is there, and its provider denied. *)
Lemma recordStop_ok j (stop : RetentionStopEvent) derived j' :
  recordStopAndDenials j stop derived = Ok j' →
  providerUseDenied j' (st_providerLane stop) (st_providerId stop) = true ∧
  is_Some (map_get st_stopEventId (st_stopEventId stop) (mj_stops j')).
Proof.
  unfold recordStopAndDenials. intros Hr. inv_res. split.
  - unfold providerUseDenied. cbn -[set_add]. apply bool_decide_eq_true, set_add_elem.
  - apply map_record_spec in Hr0 as [_ (y & Hy & _)]. by exists y.
Qed.

Lemma settle_stop_ok fuel (stop : RetentionStopEvent) derived s s' r :
  settle_stop fuel stop derived s = (s', Ok r) →
  is_Some (map_get st_stopEventId (st_stopEventId stop) (mj_stops (rt_journal s'))) ∧
  ∃ plan owned, stop_settled stop (st_stopEventId stop) s s' r plan owned.
Proof.
  unfold settle_stop. intros He. apply sm_bind_ok in He as (s1 & [] & Ha & He).
  apply sm_bind_ok in He as (s2 & [] & Hr & He).
  pose proof (steps_run R _ _ _ _ (steps_await_operations _) Ha) as Hs1.
  assert (Hs2 : R s1 s2) by (refine (steps_run R _ _ _ _ _ Hr); steps_auto).
  pose proof (steps_run R _ _ _ _ (steps_enforceStop_ _ _ _) He) as Hs3.
  apply records_ok in Hr as (j & [_ [e Hj]]%recordStop_ok & ->).
  apply enforceStop__ok in He as (plan & owned & Hst). split.
  - exists e. eapply map_get_prefix, Hj. apply (ev_journal _ _ _ Hs3).
  - exists plan, owned. eapply stop_settled_mono; [|exact Hst|reflexivity]. by etrans.
Qed.

Lemma announce_stop_ok input s s' (announced : RetentionStopEvent * list jsstring) :
  announce_stop input s = (s', Ok announced) →
  R s s' ∧ stop_event (rt_journal s) input = Ok announced.1 ∧ st_input announced.1 = input.
Proof.
  intros He. split; [exact (steps_run R _ _ _ _ (steps_announce_stop _) He)|]. unfold announce_stop in He.
  apply sm_bind_ok in He as (? & [] & [-> _]%sm_lift_ok & He).
  apply sm_bind_ok in He as (? & ? & [-> ->]%asks_ok & He).
  apply sm_bind_ok in He as (? & stop & [-> Hstop]%answers_ok & He).
  apply sm_bind_ok in He as (s1 & [] & _ & He). apply sm_bind_ok in He as (s2 & [] & _ & [= _ <-]).
  split; [done|]. unfold stop_event in Hstop. by inv_res.
Qed.

Lemma enforceStop_ok fuel input s s' r :
  enforceStop fuel input s = (s', Ok r) →
  ∃ stop plan owned, stop_event (rt_journal s) input = Ok stop ∧
    is_Some (map_get st_stopEventId (st_stopEventId stop) (mj_stops (rt_journal s'))) ∧
    stop_settled input (st_stopEventId stop) s s' r plan owned.
Proof.
  unfold enforceStop. intros He. apply sm_bind_ok in He as (s1 & [stop derived] & Ha & He).
  apply announce_stop_ok in Ha as (Hs1 & Hstop & Hin).
  apply sm_bind_ok in He as (s3 & [] & Ht & He). apply sm_finally_ok in He as (s4 & He & Hc).
  pose proof (steps_run R _ _ _ _ steps_turn Ht) as Hs3.
  assert (Hs4 : R s4 s') by (injection Hc as <-; by apply (cv_close R)).
  apply settle_stop_ok in He as ([e Hin'] & plan & owned & Hst). cbn [fst] in *. rewrite Hin in Hst.
  exists stop, plan, owned. split; [done|]. split.
  - exists e. eapply map_get_prefix, Hin'. apply (ev_journal _ _ _ Hs4).
  - eapply stop_settled_mono; [|exact Hst|done]. by etrans.
Qed.
End receipts.
