(* ===== verification/RetentionUse.v ===== *)
(** * Evidence before erasure, commits, and operations beside stops

    While a stop is enforced the vault is asked to erase a digest only in states whose
    journal already denies the provider and the digest, holds the plan, and holds a started
    attempt for the digest.  The rule is stated for any property of states that erasures in
    such states keep.  Then how commits end, and what the interleavings of operations and
    stops keep. *)
From S2P Require Import Prelude JsString JsNumber Json JsonLimits JsonParse Hash Zod.
From S2P Require Import JsonObject Event Codec Records Steps Retention.
From S2P Require Import RetentionJournal RetentionController RetentionErasure.
From S2P Require Import RetentionFacts RetentionErased.

(** ** What is recorded before an erasure *)

Section recorded.
Context `{Sha256} `{Zod} `{Locale}.

(** An attempt of the plan on the digest was started: it is there, or an attempt is there
    under the identity of one. *)
Definition attempt_recorded (j : journal) (planId digest : jsstring) : Prop :=
  ∃ (a : RetentionErasureAttempt) (body : AttemptBody), a ∈ mj_attempts j ∧
    at_planId body = planId ∧ at_artifactDigest body = digest ∧ at_outcome body = Attempt_started ∧
    (at_body a = body ∨ deriveRetentionAttemptId body = Ok (at_attemptId a)).

(** The plan is there, its provider and the digests it names denied. *)
Record plan_in_force (plan : RetentionErasurePlan) (j : journal) : Prop := {
  pf_provider : providerUseDenied j (pl_providerLane plan) (pl_providerId plan) = true;
  pf_plan : is_Some (getPlan j (pl_planId plan));
  pf_digests : ∀ d, d ∈ pl_artifactDigests plan → digestUseDenied j d = true
}.

Definition erasure_recorded (plan : RetentionErasurePlan) (digest : jsstring) (j : journal) : Prop :=
  plan_in_force plan j ∧ digest ∈ pl_artifactDigests plan ∧ attempt_recorded j (pl_planId plan) digest.

Lemma plan_in_force_grows plan j j' : journal_grows j j' → plan_in_force plan j → plan_in_force plan j'.
Proof.
  intros Hg [Hp [p Hpl] Hd]. split; [by eapply providerUseDenied_grows|exists p; by eapply getPlan_grows|].
  intros d Hin. by eapply digestUseDenied_grows, Hd.
Qed.

Lemma attempt_recorded_grows planId d j j' :
  journal_grows j j' → attempt_recorded j planId d → attempt_recorded j' planId d.
Proof.
  intros Hg (a & body & Ha & Hrest). exists a, body. split; [|done]. eapply prefix_elem, Ha. apply Hg.
Qed.

Lemma erasure_recorded_grows plan d j j' :
  journal_grows j j' → erasure_recorded plan d j → erasure_recorded plan d j'.
Proof.
  intros Hg (Hp & Hin & Ha). split; [by eapply plan_in_force_grows|]. split; [done|by eapply attempt_recorded_grows].
Qed.
End recorded.

(** ** Properties kept under a condition *)

Section guarded.
Context `{Sha256} `{Zod} `{Locale} {W : Type} `{!RetentionWorld W} `{!RetentionCallers W}.
Abbreviation St := (controller W).
Context (Rw : relation W) `{!WellBehaved Rw} (I : St → Prop).

Definition keeps (s s' : St) : Prop := I s → I s'.

(** Where [F] holds of the journal, [I] is kept. *)
Definition guarded (F : journal → Prop) (s s' : St) : Prop :=
  F (rt_journal s) → evolves Rw s s' ∧ keeps s s'.

Definition stable (F : journal → Prop) : Prop := ∀ s s' : St, evolves Rw s s' → F (rt_journal s) → F (rt_journal s').

Lemma guarded_covers (F : journal → Prop) : stable F → Covers keeps → Covers (guarded F).
Proof.
  intros Hm Hk.
  assert (Hboth : ∀ s s' : St, evolves Rw s s' → keeps s s' → guarded F s s').
  { by intros s s' He Hkeep _. }
  pose proof (evolves_covers Rw). split.
  - split; [by intros s _|]. intros s1 s2 s3 H12 H23 Hf. destruct (H12 Hf) as [E12 K12].
    destruct (H23 (Hm _ _ E12 Hf)) as [E23 K23]. split; [by etrans|]. intros Hi. auto.
  - intros. apply Hboth; by apply cv_evidence.
  - intros. apply Hboth; apply cv_now, _.
  - intros c d s. apply Hboth; apply cv_fault, _.
  - intros s. apply Hboth; apply cv_settle, _.
  - intros d s. apply Hboth; apply cv_verify, _.
  - intros s. apply Hboth; apply cv_turn, _.
  - intros ms s. apply Hboth; apply cv_idle, _.
  - intros h s. apply Hboth; apply cv_handler, _.
Qed.

(** A stronger condition is met. *)
Lemma guarded_weaken {A} (F G : journal → Prop) (m : sm St A) s :
  (F (rt_journal s) → G (rt_journal s)) → steps (guarded G) m → guarded F s (m s).1.
Proof. intros Hfg Hm Hf. apply (Hm s). auto. Qed.

Lemma guarded_intro (F : journal → Prop) (s s' : St) : (F (rt_journal s) → guarded F s s') → guarded F s s'.
Proof. intros Hi Hf. by apply Hi. Qed.

Lemma steps_weaken {A} (F G : journal → Prop) (m : sm St A) :
  (∀ j, F j → G j) → steps (guarded G) m → steps (guarded F) m.
Proof. intros Hfg Hm s. eapply guarded_weaken, Hm. auto. Qed.
End guarded.

(** A method at one state. *)
Ltac steps_at :=
  match goal with |- guarded ?Rw ?I ?F ?s (?m ?s).1 => refine ((_ : steps (guarded Rw I F) m) s); steps_auto end.

(** ** Enforcement *)

Section enforcement.
Context `{Sha256} `{Zod} `{Locale} {W : Type} `{!RetentionWorld W} `{!RetentionCallers W}.
Abbreviation St := (controller W).
Context (Rw : relation W) `{!WellBehaved Rw} (I : St → Prop) `{!Covers (keeps I)}.
Context (keeps_erase : ∀ plan digest s, erasure_recorded plan digest (rt_journal s) →
  I s → I (world (w_eraseDigestCopies digest) s).1).
Abbreviation guard := (guarded Rw I).
#[local] Hint Resolve guarded_covers : core.

Lemma guarded_erase plan d : steps (guard (erasure_recorded plan d)) (eraseCopies d).
Proof.
  assert (Covers (guard (erasure_recorded plan d))).
  { apply guarded_covers; [done| |done]. intros s s' Hs. apply erasure_recorded_grows, Hs. }
  apply steps_awaits. intros s Hr. split; [apply (cv_erase (evolves Rw))|]. intros Hi. by eapply keeps_erase.
Qed.

Lemma record_attempt_ok body (s s' : St) u :
  record_attempt body s = (s', Ok u) →
  ∃ a : RetentionErasureAttempt, a ∈ mj_attempts (rt_journal s') ∧ deriveRetentionAttemptId body = Ok (at_attemptId a).
Proof.
  unfold record_attempt. intros Hr. apply sm_bind_ok in Hr as (? & id & [-> Hid]%sm_lift_ok & Hr).
  apply records_ok in Hr as (j & Hj & ->). unfold recordAttempt in Hj. inv_res.
  apply map_record_spec in Hj0 as [_ (a & [Ha Hk]%map_get_elem & _)]. exists a. split; [done|].
  cbn in Hk. by rewrite Hk.
Qed.

(** A plan in force, with the attempt that is taken up again. *)
Definition attempt_ready (plan : RetentionErasurePlan) (digest : jsstring)
    (pending : option RetentionErasureAttempt) (j : journal) : Prop :=
  plan_in_force plan j ∧ (is_Some pending → attempt_recorded j (pl_planId plan) digest).

Lemma attempt_ready_stable plan d pending : stable Rw (attempt_ready plan d pending).
Proof.
  intros s s' [Hg _ _ _] [Hp Ha]. split; [by eapply plan_in_force_grows|]. intros Hs.
  by eapply attempt_recorded_grows, Ha.
Qed.

Lemma plan_in_force_stable plan : stable Rw (plan_in_force plan).
Proof. intros s s' [Hg _ _ _]. by apply plan_in_force_grows. Qed.

Lemma guarded_erase_attempt (plan : RetentionErasurePlan) d ordinal pending :
  d ∈ pl_artifactDigests plan → steps (guard (attempt_ready plan d pending)) (erase_attempt plan d ordinal pending).
Proof.
  intros Hd. pose proof (guarded_covers Rw I _ (attempt_ready_stable plan d pending) _) as Hc.
  assert (Hc' : Covers (guard (erasure_recorded plan d))).
  { apply guarded_covers; [done| |done]. intros s s' Hs. apply erasure_recorded_grows, Hs. }
  pose proof (guarded_erase plan d) as Herase.
  intros s. unfold erase_attempt. apply steps_bind_of; [apply _|steps_at|].
  intros s1 t _. apply steps_bind_of; [apply _|steps_at|].
  intros s2 [] Hs2. apply (guarded_weaken Rw I _ (erasure_recorded plan d)); [|steps_auto].
  intros [Hp Ha]. split; [done|]. split; [done|]. destruct pending as [a|]; [by apply Ha|].
  apply sm_bind_ok in Hs2 as (s3 & [] & (a & Hin & Hid)%record_attempt_ok & Hf).
  pose proof (steps_run (evolves Rw) _ _ _ _ (steps_fault_at _ _) Hf) as [Hg _ _ _].
  eapply attempt_recorded_grows; [exact Hg|]. eexists a, _.
  split; [done|]. split_and!; [..|right; exact Hid]; done.
Qed.

(** The attempt taken up is one of the journal's. *)
Lemma pending_attempt_recorded j planId d latest :
  is_Some (pending_attempt (List.filter (λ a : RetentionErasureAttempt, at_attemptOrdinal a =? latest)
    (attemptsFor j planId d))) → attempt_recorded j planId d.
Proof.
  unfold pending_attempt. destruct (existsb _ _); [by intros []|]. intros [a [Ha Hs]%find_some].
  apply filter_In in Ha as [Ha _]. unfold attemptsFor in Ha.
  rewrite <-list_elem_of_In, sort_by_elem, list_elem_of_In, filter_In in Ha. destruct Ha as [Ha Hb]. bool_prop.
  exists a, a. rewrite list_elem_of_In. repeat match goal with Hb : same_string _ _ = true |- _ => apply same_string_eq in Hb end.
  unfold is_started in Hs. bool_prop. split; [done|]. split; [done|]. by split; [|split; [|left]].
Qed.

Lemma guarded_erase_digest deadline (plan : RetentionErasurePlan) d :
  d ∈ pl_artifactDigests plan → steps (guard (plan_in_force plan)) (erase_digest deadline plan d).
Proof.
  intros Hd. pose proof (guarded_covers Rw I _ (plan_in_force_stable plan) _) as Hc.
  intros s. unfold erase_digest. apply steps_bind_of; [apply _|steps_at|]. intros s1 [] _.
  apply steps_bind_of; [apply _|reflexivity|]. intros s2 attempts [-> ->]%asks_ok. cbv zeta.
  match goal with |- context [erase_attempt plan d _ ?p] => set (pending := p) end.
  apply (guarded_weaken Rw I _ (attempt_ready plan d pending)).
  { intros Hp. split; [done|]. apply pending_attempt_recorded. }
  pose proof (guarded_covers Rw I _ (attempt_ready_stable plan d pending) _) as Hc'.
  pose proof (guarded_erase_attempt plan d) as Ha. steps_auto.
Qed.

Lemma guarded_erase_plan deadline plan : steps (guard (plan_in_force plan)) (erase_plan deadline plan).
Proof.
  pose proof (guarded_covers Rw I _ (plan_in_force_stable plan) _) as Hc.
  pose proof (guarded_erase_digest deadline plan) as Hd. unfold erase_plan. steps_auto.
Qed.

(** The provider is denied, with what it owns. *)
Definition provider_stopped (input : StopInput) (j : journal) : Prop :=
  providerUseDenied j (st_providerLane input) (st_providerId input) = true ∧ denials_cover j.

Lemma provider_stopped_stable input : stable Rw (provider_stopped input).
Proof. intros s s' [Hg Hd _ _] [Hp Hc]. split; [by eapply providerUseDenied_grows|auto]. Qed.

Lemma denials_cover_stable : stable Rw denials_cover.
Proof. intros s s' [_ Hd _ _]. done. Qed.

(** The plan made of what a stopped provider owns. *)
Lemma record_plan_in_force input stop (s s' : St) plan :
  record_plan input stop (listOwnership (rt_journal s) (st_providerLane input) (st_providerId input)) s = (s', Ok plan) →
  provider_stopped input (rt_journal s) → plan_in_force plan (rt_journal s').
Proof.
  intros Hr [Hp Hc]. pose proof (steps_run (evolves Rw) _ _ _ _ (steps_record_plan _ _ _) Hr) as [Hg _ _ _].
  apply record_plan_ok in Hr as (Hb & _ & _ & p & Hpl & _). split.
  - rewrite Hb. by eapply providerUseDenied_grows.
  - by exists p.
  - intros d. rewrite Hb. cbn -[sortedSet listOwnership]. rewrite sortedSet_elem.
    intros (o & -> & (o' & -> & Ho & Hown)%list_where_inv)%list_elem_of_fmap_1.
    eapply digestUseDenied_grows; [exact Hg|]. apply (Hc o'); [done|].
    unfold owned_by, same_string in Hown. bool_prop. congruence.
Qed.

Lemma guarded_enforceStop_ fuel input stop : steps (guard (provider_stopped input)) (enforceStop_ fuel input stop).
Proof.
  pose proof (guarded_covers Rw I _ (provider_stopped_stable input) _) as Hc.
  induction fuel as [|fuel IH]; cbn [enforceStop_]; [steps_auto|]. intros s.
  apply steps_bind_of; [apply _|steps_at|]. intros s1 [] _.
  apply steps_bind_of; [apply _|reflexivity|]. intros ? ? [-> ->]%asks_ok.
  apply guarded_intro. intros Hs1. apply steps_bind_of; [apply _|steps_at|]. intros s2 plan Hp.
  set (G j := provider_stopped input j ∧ plan_in_force plan j).
  assert (HG : stable Rw G).
  { intros s3 s4 Hs [H3 H4]. split; [by eapply provider_stopped_stable|by eapply plan_in_force_stable]. }
  pose proof (guarded_covers Rw I _ HG _) as Hc'.
  assert (Hplan : steps (guard G) (erase_plan (st_deadlineMs input) plan)).
  { eapply steps_weaken, guarded_erase_plan. by intros j [_ ?]. }
  assert (Hloop : steps (guard G) (enforceStop_ fuel input stop)).
  { eapply steps_weaken, IH. by intros j [? _]. }
  apply (guarded_weaken Rw I _ G); [|steps_auto].
  intros Hs2. split; [done|]. by eapply record_plan_in_force.
Qed.

Context `{!CoversStops (keeps I)}.

Lemma guarded_covers_stops (F : journal → Prop) : CoversStops (guard F).
Proof.
  pose proof (evolves_covers_stops Rw).
  split; intros s _; (split; [|by first [apply (cv_open (keeps I))|apply (cv_close (keeps I))|apply (cv_wait (keeps I))]]).
  - by apply (cv_open (evolves Rw)).
  - by apply (cv_close (evolves Rw)).
  - by apply (cv_wait (evolves Rw)).
Qed.

Lemma guarded_settle_stop fuel (stop : RetentionStopEvent) derived :
  steps (guard denials_cover) (settle_stop fuel stop derived).
Proof.
  pose proof (guarded_covers Rw I _ denials_cover_stable _) as Hc. pose proof (guarded_covers_stops denials_cover).
  intros s. unfold settle_stop.
  apply steps_bind_of; [apply _|steps_at|]. intros s1 [] _.
  apply steps_bind_of; [apply _|steps_at|]. intros s2 [] Hr.
  apply (guarded_weaken Rw I _ (provider_stopped stop)); [|apply guarded_enforceStop_].
  intros Hd. split; [|done]. apply records_ok in Hr as (j & [Hj _]%recordStop_ok & ->). exact Hj.
Qed.

Lemma guarded_enforceStop fuel input : steps (guard denials_cover) (enforceStop fuel input).
Proof.
  pose proof (guarded_covers Rw I _ denials_cover_stable _) as Hc. pose proof (guarded_covers_stops denials_cover).
  pose proof (guarded_settle_stop fuel) as Hs. pose proof (steps_announce_stop (R := guard denials_cover) input).
  unfold enforceStop. steps_auto. intros s. by apply (cv_close (guard denials_cover)).
Qed.
End enforcement.

(** ** Uses, commits and rounds

    What a commit leaves behind, the one round an enforcement needs, and the interleavings
    of operations and stops on an event loop. *)

(** ** Commits *)

Section commits.
Context `{Sha256} `{Zod} `{Locale} {W : Type} `{!RetentionWorld W} `{!RetentionCallers W}.
Abbreviation St := (controller W).
Context (Rw : relation W) `{!WellBehaved Rw}.
Abbreviation R := (evolves Rw).

(** Releasing a lease that was given out never throws. *)
Lemma lease_release_total lease (s : St) :
  (lease < length (rt_leases s))%nat → ∃ s', lease_release lease s = (s', Ok tt).
Proof.
  intros Hl. destruct (lookup_lt_is_Some_2 _ _ Hl) as [l E].
  unfold lease_release, sm_bind, lease_of. rewrite E. cbn [or_throw].
  destruct (le_released l); cbn; [by eexists|]. destruct (_ =? 0); by eexists.
Qed.

Lemma beginUse_ok digests derived (s s' : St) lease :
  beginUse digests derived s = (s', Ok lease) → (lease < length (rt_leases s'))%nat.
Proof.
  unfold beginUse. intros Hb. apply sm_bind_ok in Hb as (s1 & [] & _ & Hb).
  apply sm_bind_ok in Hb as (s2 & [] & _ & Hb). apply sm_bind_ok in Hb as (s3 & s4 & [= <- <-] & Hb).
  apply sm_bind_ok in Hb as (s5 & [] & [= <-] & Hb). injection Hb as <- <-. cbn. rewrite length_app. cbn. lia.
Qed.

(** The copies are gone or the error says that this cannot be proved. *)
Lemma rollback_end digest s s' r :
  rollback digest s = (s', r) →
  R s s' ∧ match r with Ok _ => seen_absent Rw digest s s' | Throw e => e = unprovable "retention-erase" end.
Proof.
  intros Hr. pose proof (steps_rollback digest s) as Hs. rewrite Hr in Hs. split; [exact Hs|].
  unfold rollback, sm_catch in Hr. revert Hr.
  match goal with |- match ?m s with _ => _ end = _ → _ => destruct (m s) as [s1 [u|e]] eqn:E end; intros [= <- <-]; [|done].
  apply sm_bind_ok in E as (s2 & er & He & E). apply sm_bind_ok in E as (s3 & absent & Hv & E).
  apply sm_lift_ok in E as [-> E]. destruct absent; [|done].
  exists s2, s3. split; [|split; [done|reflexivity]].
  apply (steps_run (evolves Rw) _ _ _ _ (steps_eraseCopies digest) He).
Qed.

(** What a commit ends with once its bytes are there. *)
Lemma commit_tail {A} operation digest (artifact : A) s s' r :
  sm_catch (doing! lease_assertAllowed operation ;; doing! artifactUseAllowed digest ;; sm_ret artifact)
    (λ e, doing! rollback digest ;; sm_lift (Throw e)) s = (s', r) →
  R s s' ∧ match r with
    | Ok a => a = artifact ∧ ∃ s1, R s s1 ∧ artifactUseAllowed digest s1 = (s', Ok tt)
    | Throw e => e = unprovable "retention-erase" ∨ seen_absent Rw digest s s'
    end.
Proof.
  intros Hr.
  assert (Hs : steps R (sm_catch (doing! lease_assertAllowed operation ;; doing! artifactUseAllowed digest ;;
    sm_ret artifact) (λ e, doing! rollback digest ;; sm_lift (Throw e)))) by steps_auto.
  specialize (Hs s). rewrite Hr in Hs. split; [exact Hs|]. unfold sm_catch in Hr. revert Hr.
  match goal with |- match ?m s with _ => _ end = _ → _ => destruct (m s) as [s1 [a|e]] eqn:E end; intros Hr.
  - injection Hr as <- <-. apply sm_bind_ok in E as (s2 & [] & H2 & E). apply sm_bind_ok in E as (s3 & [] & H3 & E).
    injection E as <- <-. split; [done|]. exists s2. split; [|done].
    apply (steps_run (evolves Rw) _ _ _ _ (steps_lease_assertAllowed operation) H2).
  - unfold sm_bind in Hr. destruct (rollback digest s1) as [s2 [u|e']] eqn:Eb; apply rollback_end in Eb as [Hs1 Hb].
    + injection Hr as <- <-. right. apply (seen_absent_mono Rw digest s s1 s2 s2); [|exact Hb|reflexivity].
      assert (Hm : steps R (doing! lease_assertAllowed operation ;; doing! artifactUseAllowed digest ;; sm_ret artifact))
        by steps_auto.
      specialize (Hm s). by rewrite E in Hm.
    + injection Hr as <- <-. by left.
Qed.

(** What a commit does under its lease. *)
Definition commit_inner {A} (test : bool) (input : OwnershipInput) (commit : sm St A) (lease : nat) : sm St A :=
  doing! registerOwnership_ test input ;;
  sm! artifact := commit in
  sm_catch
    (doing! lease_assertAllowed lease ;;
     doing! artifactUseAllowed (ow_artifactDigest input) ;;
     sm_ret artifact)
    (λ e, doing! rollback (ow_artifactDigest input) ;; sm_lift (Throw e)).

(** The ends of a commit: nothing was written, or the use was still allowed, or the copies
    are gone or not provably so. *)
Definition commit_end {A} (test : bool) (input : OwnershipInput) (commit : sm St A) (s s' : St) (r : res A) : Prop :=
  match r with
  | Ok artifact => ∃ s1 s2 s3 s4,
      R s s1 ∧ commit s1 = (s2, Ok artifact) ∧ R s2 s3 ∧
      artifactUseAllowed (ow_artifactDigest input) s3 = (s4, Ok tt) ∧ R s4 s'
  | Throw e =>
      (∃ s1 s2, R s s1 ∧ registerOwnership_ test input s1 = (s2, Throw e)) ∨
      (∃ s1 s2, R s s1 ∧ commit s1 = (s2, Throw e)) ∨
      (∃ s1 s2 artifact, R s s1 ∧ commit s1 = (s2, Ok artifact) ∧
        (e = unprovable "retention-erase" ∨ seen_absent Rw (ow_artifactDigest input) s2 s'))
  end.

Lemma commit_inner_end {A} test input (commit : sm St A) lease s s' r :
  steps R commit → commit_inner test input commit lease s = (s', r) →
  R s s' ∧ commit_end test input commit s s' r.
Proof.
  intros Hcommit Hr.
  assert (Hs : steps R (commit_inner test input commit lease)) by (unfold commit_inner; steps_auto).
  specialize (Hs s). rewrite Hr in Hs. split; [exact Hs|]. clear Hs. unfold commit_inner, sm_bind at 1 in Hr.
  destruct (registerOwnership_ test input s) as [s1 [o|e]] eqn:Eo.
  2: { injection Hr as <- <-. left. by exists s, s1. }
  assert (Hs1 : R s s1) by exact (steps_run R _ _ _ _ (steps_registerOwnership_ _ _) Eo).
  unfold sm_bind at 1 in Hr. destruct (commit s1) as [s2 [artifact|e]] eqn:Ec.
  2: { injection Hr as <- <-. right. left. by exists s1, s2. }
  destruct (commit_tail _ _ _ _ _ _ Hr) as [Hs2 Hend]. destruct r as [a|e].
  - destruct Hend as [-> (s3 & Hs3 & Hu)]. by exists s1, s2, s3, s'.
  - right. right. by exists s1, s2, artifact.
Qed.

(** Before and after the part under the lease. *)
Lemma commit_end_mono {A} test input (commit : sm St A) s0 s s' s'' r :
  R s0 s → commit_end test input commit s s' r → R s' s'' → commit_end test input commit s0 s'' r.
Proof.
  intros Hpre Hend Hpost. destruct r as [a|e].
  - destruct Hend as (s1 & s2 & s3 & s4 & ? & ? & ? & ? & ?). exists s1, s2, s3, s4.
    split_and!; try done; by etrans.
  - destruct Hend as [(s1 & s2 & ? & ?)|[(s1 & s2 & ? & ?)|(s1 & s2 & a & ? & ? & Ha)]].
    + left. exists s1, s2. split; [by etrans|done].
    + right. left. exists s1, s2. split; [by etrans|done].
    + right. right. exists s1, s2, a. split; [by etrans|]. split; [done|].
      destruct Ha as [?|Ha]; [by left|right]. apply (seen_absent_mono Rw _ s2 s2 s' s''); [reflexivity|done|done].
Qed.
End commits.

(** ** Denial *)

Section denial.
Context `{Sha256} `{Zod} `{Locale} {W : Type} `{!RetentionWorld W} `{!RetentionCallers W}.
Abbreviation St := (controller W).

Lemma artifactUseAllowed_denied digest (s s' : St) u :
  artifactUseAllowed digest s = (s', Ok u) → digestUseDenied (rt_journal s) digest = false.
Proof.
  unfold artifactUseAllowed. intros Ha. apply sm_bind_ok in Ha as (? & [] & [-> _]%sm_lift_ok & Ha).
  apply sm_bind_ok in Ha as (s1 & now & Hn & Ha). apply sm_bind_ok in Ha as (? & ? & [-> ->]%asks_ok & Ha).
  apply sm_bind_ok in Ha as (? & ? & [-> ->]%asks_ok & Ha).
  assert (Hj : rt_journal s1 = rt_journal s).
  { unfold trustedNow, world, sm_bind in Hn. destruct (w_nowMs (rt_world s)) as [w t].
    destruct (assertSafeTime t _); cbn in Hn; [|done]. by injection Hn as <- <-. }
  unfold refuse, sm_lift, throw_if in Ha. rewrite Hj in Ha.
  by destruct (bool_decide _), (digestUseDenied (rt_journal s) digest), (expired _ _).
Qed.

Context (Rw : relation W) `{!WellBehaved Rw}.

(** No lease is given on a denied digest, nor, once a provider is denied, without digests. *)
Lemma beginUse_denied digest digests derived (s s' : St) lease :
  digestUseDenied (rt_journal s) digest = true → digest ∈ digests →
  beginUse digests derived s ≠ (s', Ok lease).
Proof.
  intros Hd Hin Hb. unfold beginUse in Hb. apply sm_bind_ok in Hb as (s1 & [] & Ha & _). unfold assertAllowed in Ha.
  apply sm_bind_ok in Ha as (s2 & c & Hc & Ha). apply sm_bind_ok in Ha as (s3 & [] & Hr & Ha).
  apply sm_bind_ok in Ha as (s4 & [] & Hn & Ha). apply sm_bind_ok in Ha as (s5 & [] & Hu & _).
  injection Hc as <- <-. injection Hr as <- _.
  assert (Hs4 : evolves Rw s s4) by (refine (steps_run (evolves Rw) _ _ _ _ _ Hn); steps_auto).
  destruct (sm_each_ok artifactUseAllowed (sortedSet digests) s4 s5 (λ d _, d ≠ digest) (evolves Rw)) as [_ Hno].
  - done.
  - intros d s6 s7 _ Hs6 Hok. split; [exact (steps_run (evolves Rw) _ _ _ _ (steps_artifactUseAllowed d) Hok)|].
    intros ->. apply artifactUseAllowed_denied in Hok.
    assert (Hs : evolves Rw s s6) by by etrans.
    pose proof (digestUseDenied_grows _ _ (ev_journal _ _ _ Hs) _ Hd). congruence.
  - exact Hu.
  - apply (Hno digest); [by apply sortedSet_elem|done].
Qed.

Lemma beginUse_stopped (s s' : St) lane id lease :
  providerUseDenied (rt_journal s) lane id = true → beginUse [] [] s ≠ (s', Ok lease).
Proof.
  intros Hd Hb. unfold beginUse in Hb. apply sm_bind_ok in Hb as (s1 & [] & Ha & _). unfold assertAllowed in Ha.
  change (sortedSet []) with (@nil jsstring) in Ha.
  rewrite !bool_decide_true in Ha by done. cbn [andb] in Ha.
  apply sm_bind_ok in Ha as (s2 & c & Hc & Ha). apply sm_bind_ok in Ha as (s3 & [] & Hr & Ha).
  apply sm_bind_ok in Ha as (s4 & [] & Hn & _). injection Hc as <- <-. injection Hr as <- _.
  apply sm_bind_ok in Hn as (s5 & now & Ht & Hn). apply sm_bind_ok in Hn as (? & ? & [-> ->]%asks_ok & Hn).
  pose proof (steps_run (evolves Rw) _ _ _ _ steps_trustedNow Ht) as Hs.
  pose proof (providerUseDenied_grows _ _ (ev_journal _ _ _ Hs) _ _ Hd) as Hd5.
  unfold reconciliationUseDenied in Hn. rewrite bool_decide_false in Hn; [by destruct (existsb _ _)|].
  unfold providerUseDenied in Hd5. intros E. rewrite E in Hd5. by apply bool_decide_eq_true, not_elem_of_nil in Hd5.
Qed.
End denial.

(** ** One round *)

Section rounds.
Context `{Sha256} `{Zod} `{Locale} {W : Type} `{!RetentionWorld W} `{!RetentionCallers W}.
Abbreviation St := (controller W).

(** Nothing new is owned. *)
Definition same_ownership (s s' : St) : Prop := mj_ownership (rt_journal s') = mj_ownership (rt_journal s).

(** The other callers register no ownership. *)
Class QuietCallers : Prop := {
  qc_turn s : same_ownership s (c_turn s);
  qc_idle ms s : same_ownership s (c_idle ms s).1;
  qc_handler h : steps same_ownership (c_stopHandler h)
}.

#[export] Instance same_ownership_preorder : PreOrder same_ownership.
Proof. split; [done|]. intros s1 s2 s3. unfold same_ownership. congruence. Qed.

Lemma evidence_step_ownership j j' : evidence_step j j' → mj_ownership j' = mj_ownership j.
Proof.
  intros []; match goal with H : _ = Ok _ |- _ => revert H end;
    unfold recordStopAndDenials, recordPlan, recordAttempt, recordTombstone, recordReceipt, recordCheckpoint,
      recordReceiptRevalidation, recordReceiptRevalidationAndCheckpoint; intros Hr; inv_res; done.
Qed.

Lemma world_same_ownership {A} (m : sm W A) : steps same_ownership (world m).
Proof. intros s. unfold world. by destruct (m (rt_world s)). Qed.

Context `{!QuietCallers}.

#[export] Instance same_ownership_covers : Covers same_ownership.
Proof.
  split; intros; try apply world_same_ownership; try done.
  - apply _.
  - by apply evidence_step_ownership.
  - apply qc_turn.
  - apply qc_idle.
  - apply qc_handler.
Qed.

#[export] Instance same_ownership_covers_erase : CoversErase same_ownership.
Proof. intros d. apply world_same_ownership. Qed.

Lemma listOwnership_ids j j' lane id :
  mj_ownership j' = mj_ownership j →
  ownership_ids (listOwnership j' lane id) = ownership_ids (listOwnership j lane id).
Proof.
  intros E. unfold ownership_ids, listOwnership, list_where. rewrite E, !map_map. apply map_ext. done.
Qed.

Lemma same_list_refl l : same_list l l = Ok true ∨ ∃ e, same_list l l = Throw e.
Proof.
  unfold same_list, same_text. destruct (canonicalJson (jstrs l)) as [t|e]; cbn; [left|right; by exists e].
  by rewrite bool_decide_true.
Qed.

(** A round that starts over finds other owners. *)
Lemma enforceStop__rounds fuel input stop (s : St) :
  enforceStop_ (S fuel) input stop s = enforceStop_ 1 input stop s.
Proof.
  destruct fuel as [|fuel]; [done|]. cbn [enforceStop_].
  apply sm_bind_ext. intros s1 [] _. apply sm_bind_ext. intros ? ? [-> ->]%asks_ok.
  apply sm_bind_ext. intros s2 plan Hs2. apply sm_bind_ext. intros s3 [] Hs3.
  apply sm_bind_ext. intros ? base [-> _]%asks_ok. apply sm_bind_ext. intros ? prior [-> _]%answers_ok.
  apply sm_bind_ext. intros s4 [r|] Hs4; [done|]. apply sm_bind_ext. intros s5 [] Hs5.
  apply sm_bind_ext. intros ? latest [-> ->]%asks_ok. apply sm_bind_ext. intros ? same [-> Hsame]%sm_lift_ok.
  assert (Hown : same_ownership s1 s5).
  { etrans; [|etrans; [|etrans]].
    - exact (steps_run same_ownership _ _ _ _ (steps_record_plan _ _ _) Hs2).
    - exact (steps_run same_ownership _ _ _ _ (steps_fault "retention-plan-committed") Hs3).
    - exact (steps_run same_ownership _ _ _ _ (steps_recheck _ _ _) Hs4).
    - exact (steps_run same_ownership _ _ _ _ (steps_erase_plan _ _) Hs5). }
  rewrite (listOwnership_ids _ _ _ _ Hown) in Hsame.
  destruct (same_list_refl (ownership_ids (listOwnership (rt_journal s1) (st_providerLane input) (st_providerId input))))
    as [E|[e E]]; rewrite E in Hsame; [by injection Hsame as <-|done].
Qed.
End rounds.

(** ** Stops that cannot wait *)

Section timeouts.
Context `{Sha256} `{Zod} `{Locale} {W : Type} `{!RetentionWorld W} `{!RetentionCallers W}.
Abbreviation St := (controller W).

Lemma trustedNow_world (s : St) : ∃ w r, trustedNow s = (put_world w s, r).
Proof.
  unfold trustedNow, sm_bind, world. destruct (w_nowMs (rt_world s)) as [w t].
  destruct (assertSafeTime t "Trusted retention time") as [[]|e]; cbn; by eexists _, _.
Qed.

Lemma put_world_twice w w' (s : St) : put_world w' (put_world w s) = put_world w' s.
Proof. done. Qed.

(** Beginning to wait throws, or leaves a resolver. *)
Lemma begin_wait_active deadline (s : St) :
  0 < co_activeOperations (rt_coordinator s) → ∃ w n r,
    begin_wait deadline s = (put_idle n (put_world w s), r) ∧
    match r with
    | Ok None => False
    | Ok (Some (_, resolver)) => resolver = rt_idleWaiting s ∧ n = rt_idleWaiting s + 1
    | Throw _ => n = rt_idleWaiting s
    end.
Proof.
  intros Hactive. unfold begin_wait, sm_bind at 1, coordinator. cbv beta iota.
  apply Z.ltb_lt in Hactive. rewrite Hactive.
  destruct (trustedNow_world s) as (w & [now|e] & Ht); unfold sm_bind at 1; rewrite Ht; [|by eexists w, _, _].
  unfold sm_bind at 1. destruct (deadline - now <? 1); [|by eexists w, _, _].
  unfold assertDeadline, sm_bind at 1. destruct (trustedNow_world (put_world w s)) as (w' & [now'|e] & Ht').
  - rewrite Ht', put_world_twice. unfold refuse, sm_lift, throw_if. destruct (deadline <? now'); by eexists w', _, _.
  - rewrite Ht'. by eexists w', _, _.
Qed.

(** Waiting in vain throws and changes nothing but the world and the resolvers. *)
Lemma await_operations_fails deadline (s : St) :
  (∀ ms (s : St), c_idle ms s = (s, false)) → 0 < co_activeOperations (rt_coordinator s) →
  ∃ w n e, await_operations deadline s = (put_idle n (put_world w s), Throw e).
Proof.
  intros Hidle Hactive. unfold await_operations, sm_bind at 1.
  destruct (begin_wait_active deadline s Hactive) as (w & n & [[[ms k]|]|e] & -> & Hr); [|done|by eexists w, _, _].
  unfold sm_bind. rewrite Hidle. by eexists w, _, _.
Qed.
End timeouts.

(** ** Operations and stops

    The controller on an event loop: the steps are the stretches of code between two
    awaits, in any order the loop and the queue of stops allow. *)

Section protocol.
Context `{Sha256} `{Zod} `{Locale} {W : Type} `{!RetentionWorld W} `{!RetentionCallers W}.
Abbreviation St := (controller W).

(** A stop with the ids derived when it was announced; it waits for the resolver it pushed
    in this place, or it is past the wait. *)
Definition announced : Type := RetentionStopEvent * list jsstring.
Inductive progress : Type := Waiting (resolver : Z) | Enforcing.

(** The stops chained to [stopTail], and the one whose predecessors are settled. *)
Record system : Type := System {
  sy_state : St;
  sy_queue : list announced;
  sy_current : option (announced * progress)
}.

(** The calls that run without an await, and those a handler of an operation makes. *)
Definition synchronous (c : retention_call (W := W)) : bool :=
  match c with Call_commit _ _ _ | Call_enforce _ _ => false | _ => true end.
Definition plain (c : retention_call (W := W)) : bool :=
  match c with Call_lease_onStop _ _ => false | _ => synchronous c end.

(** The journal and the world may change, the coordinator and the leases not. *)
Record same_admission (s s' : St) : Prop := {
  sa_coordinator : rt_coordinator s' = rt_coordinator s;
  sa_waiting : rt_idleWaiting s' = rt_idleWaiting s;
  sa_leases : rt_leases s' = rt_leases s
}.

(** The end of a stop: the [finally] of [enforceStop]. *)
Definition closed_by (s : St) : St := (coordinates close_stop s).1.

Inductive system_step : system → system → Prop :=
  (* a whole synchronous call *)
  | Step_call c s queue current : synchronous c = true →
      system_step (System s queue current) (System (do_call c s) queue current)
  (* work on the journal and in the world: of commits, of the enforcement, of others *)
  | Step_work s s' queue current : same_admission s s' →
      system_step (System s queue current) (System s' queue current)
  (* [enforceStop] up to its first await, and the first part of it after that *)
  | Step_announce input s s' stop queue current : announce_stop input s = (s', Ok stop) →
      system_step (System s queue current) (System s' (queue ++ [stop]) current)
  | Step_refuse input s s' e queue current : announce_stop input s = (s', Throw e) →
      system_step (System s queue current) (System s' queue current)
  | Step_idle (stop : announced) s s' queue : begin_wait (st_deadlineMs stop.1) s = (s', Ok None) →
      system_step (System s (stop :: queue) None) (System s' queue (Some (stop, Enforcing)))
  | Step_wait (stop : announced) s s' ms resolver queue :
      begin_wait (st_deadlineMs stop.1) s = (s', Ok (Some (ms, resolver))) →
      system_step (System s (stop :: queue) None) (System s' queue (Some (stop, Waiting resolver)))
  | Step_late (stop : announced) s s' e queue : begin_wait (st_deadlineMs stop.1) s = (s', Throw e) →
      system_step (System s (stop :: queue) None) (System (closed_by s') queue None)
  (* the resolver was called, which takes it out, or the timer fires *)
  | Step_settled stop s s' resolver settled queue : (settled = true → rt_idleWaiting s <= resolver) →
      end_wait settled s = (s', Ok tt) →
      system_step (System s queue (Some (stop, Waiting resolver))) (System s' queue (Some (stop, Enforcing)))
  | Step_unsettled stop s s' resolver settled e queue : end_wait settled s = (s', Throw e) →
      system_step (System s queue (Some (stop, Waiting resolver))) (System (closed_by s') queue None)
  (* the end of the enforcement *)
  | Step_close stop s queue :
      system_step (System s queue (Some (stop, Enforcing))) (System (closed_by s) queue None).

(** Handlers make calls, releasing the lease for instance. *)
Class PlainHandlers : Prop :=
  plain_handler h s : ∃ calls, Forall (λ c, plain c = true) calls ∧ (c_stopHandler h s).1 = do_calls calls s.

(** *** What synchronous calls do to the admission *)

Definition active (s : St) : Z := co_activeOperations (rt_coordinator s).
Definition closed (s : St) : bool := co_admissionClosed (rt_coordinator s).

(** The operations are counted exactly. *)
Definition out (l : list RetentionOperationLease) : Z :=
  Z.of_nat (length (List.filter (λ l, negb (le_released l)) l)).
Definition counted (s : St) : Prop := active s = out (rt_leases s).

(** No stop is opened or ended, and with the admission closed operations only end; the
    resolvers are called when the last one does. *)
Record calm (s s' : St) : Prop := {
  ca_pending : co_pendingStops (rt_coordinator s') = co_pendingStops (rt_coordinator s);
  ca_closed : closed s' = closed s;
  ca_counted : counted s → counted s';
  ca_fewer : counted s → closed s = true →
    active s' <= active s ∧ (rt_idleWaiting s' = rt_idleWaiting s ∨ active s' = 0)
}.

Lemma counted_nonneg s : counted s → 0 <= active s.
Proof. unfold counted, out. lia. Qed.

#[export] Instance same_admission_preorder : PreOrder same_admission.
Proof. split; [by split|]. intros s1 s2 s3 [] []. split; congruence. Qed.

#[export] Instance calm_preorder : PreOrder calm.
Proof.
  split.
  - intros s. split; [done|done|done|]. intros _ _. split; [lia|by left].
  - intros s1 s2 s3 [P1 C1 N1 F1] [P2 C2 N2 F2]. split; [congruence|congruence|auto|].
    intros Hn Hc. destruct (F1 Hn Hc) as [A1 W1]. destruct (F2 (N1 Hn)) as [A2 W2]; [congruence|].
    pose proof (counted_nonneg _ (N2 (N1 Hn))). split; [lia|].
    destruct W1 as [W1|W1], W2 as [W2|W2]; (left; congruence) || (right; lia).
Qed.

Lemma same_admission_calm s s' : same_admission s s' → calm s s'.
Proof.
  intros [Hc Hw Hl]. split; unfold counted, active, closed; rewrite ?Hc, ?Hl; try done.
  intros _ _. split; [lia|by left].
Qed.

Lemma steps_calm {A} (m : sm St A) : steps same_admission m → steps calm m.
Proof. intros Hm s. apply same_admission_calm, Hm. Qed.

Lemma world_same {A} (m : sm W A) : steps same_admission (world m).
Proof. intros s. unfold world. by destruct (m (rt_world s)). Qed.

Lemma trustedNow_same : steps same_admission trustedNow.
Proof. unfold trustedNow. steps. apply world_same. Qed.

Lemma asks_same {A} (f : journal → A) : steps same_admission (asks f).
Proof. intros s. reflexivity. Qed.

Lemma coordinator_same : steps same_admission coordinator.
Proof. intros s. reflexivity. Qed.

Lemma refuse_same b reason stage : steps same_admission (refuse b reason stage).
Proof. intros s. reflexivity. Qed.

Lemma lease_of_same lease : steps same_admission (lease_of lease).
Proof. intros s. reflexivity. Qed.

Lemma registers_same f : steps same_admission (registers f).
Proof. intros s. unfold registers. by destruct (f (rt_journal s)) as [[j b]|e]. Qed.

#[local] Hint Resolve trustedNow_same asks_same coordinator_same refuse_same lease_of_same registers_same : steps.
#[local] Ltac same := steps; eauto with steps.

Lemma artifactUseAllowed_same digest : steps same_admission (artifactUseAllowed digest).
Proof. unfold artifactUseAllowed. same. Qed.

Lemma derivedUseAllowed_same derivedId : steps same_admission (derivedUseAllowed derivedId).
Proof. unfold derivedUseAllowed. same. Qed.

#[local] Hint Resolve artifactUseAllowed_same derivedUseAllowed_same : steps.

Lemma assertAllowed_same digests derived : steps same_admission (assertAllowed digests derived).
Proof. unfold assertAllowed. same. Qed.

#[local] Hint Resolve assertAllowed_same : steps.

Lemma lease_assertAllowed_same lease : steps same_admission (lease_assertAllowed lease).
Proof. unfold lease_assertAllowed. same. Qed.

Lemma registerOwnership_same test input : steps same_admission (registerOwnership test input).
Proof. unfold registerOwnership, registerOwnership_. same. Qed.

Lemma register_digest_lineage_same derived digest : steps same_admission (register_digest_lineage derived digest).
Proof. unfold register_digest_lineage, register_lineage. same. Qed.

#[local] Hint Resolve lease_assertAllowed_same register_digest_lineage_same : steps.

(** A use is only allowed while the admission is open. *)
Lemma assertAllowed_open digests derived s s' :
  assertAllowed digests derived s = (s', Ok tt) → closed s = false.
Proof.
  unfold assertAllowed. intros Ha. apply sm_bind_ok in Ha as (? & c & [= <- <-] & Ha).
  apply sm_bind_ok in Ha as (? & [] & [_ Hr]%sm_lift_ok & _). by apply throw_if_Ok in Hr.
Qed.

Lemma out_snoc l x : out (l ++ [x]) = out l + (if le_released x then 0 else 1).
Proof. unfold out. rewrite List.filter_app, length_app. cbn [List.filter]. destruct (le_released x); cbn [negb length]; lia. Qed.

Lemma out_insert l i x y : l !! i = Some x →
  out (<[i := y]> l) = out l - (if le_released x then 0 else 1) + (if le_released y then 0 else 1).
Proof.
  unfold out. revert i. induction l as [|z l IH]; intros [|i] E; try done.
  - injection E as ->. change (<[0%nat := y]> (x :: l)) with (y :: l). cbn [List.filter].
    destruct (le_released x), (le_released y); cbn [negb length]; lia.
  - change (<[S i := y]> (z :: l)) with (z :: <[i := y]> l). cbn [List.filter].
    specialize (IH i E). destruct (le_released z); cbn [negb length]; lia.
Qed.

Lemma all_released s : counted s → active s = 0 → Forall (λ l, le_released l = true) (rt_leases s).
Proof.
  unfold counted, out. intros -> Ha. apply Forall_forall. intros l Hl. destruct (le_released l) eqn:E; [done|].
  destruct (List.filter _ (rt_leases s)) as [|x m] eqn:Ef; [|cbn in Ha; lia]. exfalso.
  assert (Hin : In l (List.filter (λ l, negb (le_released l)) (rt_leases s))).
  { apply filter_In. split; [by apply list_elem_of_In|by rewrite E]. }
  by rewrite Ef in Hin.
Qed.

Lemma beginUse_calm digests derived : steps calm (beginUse digests derived).
Proof.
  intros s. unfold beginUse, sm_bind at 1.
  pose proof (assertAllowed_same (sortedSet digests) (sortedSet derived) s) as Hs.
  destruct (assertAllowed _ _ s) as [s1 [[]|e]] eqn:E; cbn [fst] in Hs |- *; [|by apply same_admission_calm].
  apply assertAllowed_open in E. apply same_admission_calm in Hs as [P C N _]. cbn. split; cbn.
  - done.
  - done.
  - intros Hn%N. unfold counted, active in *. cbn. rewrite out_snoc. cbn. lia.
  - congruence.
Qed.

Lemma lease_release_calm lease : steps calm (lease_release lease).
Proof.
  intros s. unfold lease_release, sm_bind at 1, lease_of. destruct (rt_leases s !! lease) as [l|] eqn:El; cbn [or_throw].
  2: { cbn. reflexivity. }
  destruct (le_released l) eqn:Er; [cbn; reflexivity|].
  assert (Hn : ∀ l', le_released l' = true → counted s →
    active s - 1 = out (<[lease := l']> (rt_leases s))).
  { intros l' Hl'. unfold counted. rewrite (out_insert _ _ _ l' El), Er, Hl'. lia. }
  cbn. destruct (co_activeOperations (rt_coordinator s) + -1 =? 0) eqn:E0; cbn; (split; [done|done|..]); cbn.
  - intros Hc. apply Hn; [done|exact Hc].
  - intros _ _. unfold active. cbn. apply Z.eqb_eq in E0. split; [lia|right; lia].
  - intros Hc. apply Hn; [done|exact Hc].
  - intros _ _. unfold active. cbn. split; [lia|by left].
Qed.

#[local] Hint Resolve beginUse_calm lease_release_calm : steps.

Lemma registerDerivedLineage_calm test digests derived : steps calm (registerDerivedLineage test digests derived).
Proof.
  unfold registerDerivedLineage, registerDerivedLineage_.
  steps; eauto using steps_calm with steps.
Qed.

Lemma plain_calm c s : plain c = true → calm s (do_call c s).
Proof.
  destruct c; intros Hc; try done; cbn [do_call];
    match goal with |- calm s (?m s).1 => revert s; change (steps calm m) end.
  - apply steps_calm, registerOwnership_same.
  - apply beginUse_calm.
  - apply steps_calm, lease_assertAllowed_same.
  - apply lease_release_calm.
  - apply registerDerivedLineage_calm.
  - apply steps_calm. unfold assertArtifactUseAllowed. same.
  - apply steps_calm. unfold assertDerivedUseAllowed. same.
Qed.

Lemma plain_calls_calm calls s : Forall (λ c, plain c = true) calls → calm s (do_calls calls s).
Proof.
  intros Hc. revert s. induction Hc as [|c calls Hc _ IH]; intros s; cbn; [reflexivity|].
  etrans; [by apply plain_calm|apply IH].
Qed.

Context `{!PlainHandlers}.

Lemma handler_calm h : steps calm (c_stopHandler h).
Proof. intros s. destruct (plain_handler h s) as (calls & Hc & ->). by apply plain_calls_calm. Qed.

Lemma with_handlers_calm f : steps calm (coordinates (with_handlers f)).
Proof. intros s. cbn. split; try done. intros _ _. split; [unfold active; cbn; lia|by left]. Qed.

Lemma lease_onStop_calm lease handler : steps calm (lease_onStop lease handler).
Proof.
  intros s. unfold lease_onStop, sm_bind at 1, lease_of.
  destruct (rt_leases s !! lease) as [l|] eqn:El; cbn [or_throw]; [|cbn; reflexivity].
  unfold sm_bind at 1, sm_lift, throw_if. destruct (le_released l) eqn:Er; [cbn; reflexivity|].
  apply steps_bind_of; [apply _|apply with_handlers_calm|]. intros s1 [] [= <-].
  apply steps_bind_of; [apply _| |].
  { cbn. split; try done; cbn.
    - unfold counted, active. cbn. rewrite (out_insert _ _ _ _ El), Er. cbn. lia.
    - intros _ _. unfold active. cbn. split; [lia|by left]. }
  intros s2 [] _. revert s2.
  match goal with |- ∀ s2, calm s2 (?m s2).1 => change (steps calm m) end.
  steps; [apply with_handlers_calm|apply steps_calm; apply coordinator_same|apply handler_calm].
Qed.

Lemma synchronous_calm c s : synchronous c = true → calm s (do_call c s).
Proof.
  intros Hc. destruct (plain c) eqn:Hp; [by apply plain_calm|]. destruct c; try done. apply lease_onStop_calm.
Qed.

(** *** The steps of a stop *)

Lemma call_handlers_calm : steps calm call_handlers.
Proof.
  unfold call_handlers. steps; [apply steps_calm, coordinator_same|apply handler_calm].
Qed.

Lemma announce_stop_calm input s s' r :
  announce_stop input s = (s', r) →
  match r with Ok _ => calm (put_coordinator (open_stop (rt_coordinator s)) s) s' | Throw _ => s' = s end.
Proof.
  unfold announce_stop, sm_bind at 1, sm_lift. destruct (validateStop input) as [[]|e]; [|by intros [= <- <-]].
  unfold sm_bind at 1, asks, sm_bind at 1, answers.
  destruct (stop_event (rt_journal s) input) as [stop|e]; [|by intros [= <- <-]].
  unfold sm_bind at 1, coordinates. cbv iota beta. set (s1 := put_coordinator (open_stop (rt_coordinator s)) s).
  pose proof (call_handlers_calm s1) as Hs. unfold sm_bind.
  assert (Hok : ∃ s2, call_handlers s1 = (s2, Ok tt)).
  { unfold call_handlers, sm_bind, coordinator. clear Hs. generalize (co_operationStopHandlers (rt_coordinator s1)).
    generalize s1. intros s0 hs. revert s0. induction hs as [|h hs IH]; intros s0; cbn [sm_each]; [by eexists|].
    unfold sm_bind at 1, sm_catch. destruct (c_stopHandler h s0) as [s2 [[]|e]]; apply IH. }
  destruct Hok as [s2 E]. rewrite E in Hs |- *. intros [= <- <-]. exact Hs.
Qed.

Lemma begin_wait_result deadline s s' r :
  begin_wait deadline s = (s', r) →
  rt_coordinator s' = rt_coordinator s ∧ rt_leases s' = rt_leases s ∧
  match r with
  | Ok None => s' = s ∧ active s <= 0
  | Ok (Some (_, resolver)) => rt_idleWaiting s' = resolver + 1
  | Throw _ => rt_idleWaiting s' = rt_idleWaiting s
  end.
Proof.
  destruct (Z.ltb_spec 0 (active s)) as [Ha|Ha].
  - destruct (begin_wait_active deadline s Ha) as (w & n & r' & -> & Hr). intros [= <- <-].
    split; [done|]. split; [done|]. destruct r' as [[[ms k]|]|e]; cbn; [lia|done|done].
  - unfold begin_wait, sm_bind, coordinator. apply Z.ltb_ge in Ha as Hb. unfold active in Hb. rewrite Hb.
    by intros [= <- <-].
Qed.

Lemma end_wait_result settled (s s' : St) r :
  end_wait settled s = (s', r) → s' = s ∧ match r with Ok _ => settled = true | Throw _ => settled = false end.
Proof. unfold end_wait, unless_provable, sm_lift, throw_if. destruct settled; by intros [= <- <-]. Qed.

(** Admission is closed exactly while a stop waits or runs; the resolver of the one that
    waits is called once the operations have ended, and the enforcement runs alone. *)
Record system_ok (p : system) : Prop := {
  so_pending : co_pendingStops (rt_coordinator (sy_state p)) =
    Z.of_nat (length (sy_queue p)) + match sy_current p with Some _ => 1 | None => 0 end;
  so_closed : closed (sy_state p) = (0 <? co_pendingStops (rt_coordinator (sy_state p)));
  so_counted : counted (sy_state p);
  so_waiting : ∀ stop resolver, sy_current p = Some (stop, Waiting resolver) →
    rt_idleWaiting (sy_state p) = resolver + 1 ∨ active (sy_state p) = 0;
  so_enforcing : ∀ stop, sy_current p = Some (stop, Enforcing) → active (sy_state p) = 0
}.

(** While a stop waits or runs calm changes keep all this. *)
Lemma calm_ok s s' queue current : calm s s' → system_ok (System s queue current) → system_ok (System s' queue current).
Proof.
  intros [P C N F] [Hp Hc Hn Hw He]. cbn [sy_state sy_queue sy_current] in *.
  assert (Hcl : ∀ stop, current = Some stop → closed s = true).
  { intros stop ->. rewrite Hc, Hp. apply Z.ltb_lt. lia. }
  pose proof (counted_nonneg _ (N Hn)) as Hpos. split; cbn [sy_state sy_queue sy_current].
  - by rewrite P.
  - by rewrite C, P.
  - by apply N.
  - intros stop k E. destruct (F Hn (Hcl _ E)) as [Ha [Hi|Hi]]; [|by right].
    destruct (Hw stop k E); [left; congruence|right; lia].
  - intros stop E. destruct (F Hn (Hcl _ E)) as [Ha _]. pose proof (He stop E). lia.
Qed.

(** Another stop is pending; one that was pending ends. *)
Lemma opened_ok stop s queue current : system_ok (System s queue current) →
  system_ok (System (put_coordinator (open_stop (rt_coordinator s)) s) (queue ++ [stop]) current).
Proof.
  intros [Hp Hc Hn Hw He]. split; unfold closed in *; cbn in *; try done.
  - rewrite length_app. cbn [length]. destruct current; lia.
  - symmetry. apply Z.ltb_lt. destruct current; lia.
Qed.

Lemma closed_ok s queue : counted s →
  co_pendingStops (rt_coordinator s) = Z.of_nat (length queue) + 1 → closed s = true →
  system_ok (System (closed_by s) queue None).
Proof.
  intros Hn Hp Hc. unfold closed in *. split; unfold closed; cbn; try done; [lia|].
  rewrite Hc, Hp. destruct queue as [|x queue]; [done|]. cbn [length].
  rewrite (proj2 (Z.eqb_neq _ _)) by lia. symmetry. apply Z.ltb_lt. lia.
Qed.

Lemma system_step_ok p q : system_step p q → system_ok p → system_ok q.
Proof.
  intros [c s queue current Hc|s s' queue current Hs|input s s' stop queue current Ha|input s s' e queue current Ha
    |stop s s' queue Hb|stop s s' ms k queue Hb|stop s s' e queue Hb|stop s s' k settled queue Hk Hb
    |stop s s' k settled e queue Hb|stop s queue] Hok.
  - eapply calm_ok, Hok. by apply synchronous_calm.
  - eapply calm_ok, Hok. by apply same_admission_calm.
  - apply announce_stop_calm in Ha. eapply calm_ok; [exact Ha|]. by apply opened_ok.
  - by apply announce_stop_calm in Ha as ->.
  - apply begin_wait_result in Hb as (_ & _ & -> & Ha). destruct Hok as [Hp Hc Hn _ _]. cbn in *.
    pose proof (counted_nonneg _ Hn). split; cbn; try done; lia.
  - apply begin_wait_result in Hb as (Ec & El & Hk). destruct Hok as [Hp Hc Hn _ _]. cbn in *.
    unfold closed, counted, active in *. split; unfold closed, counted, active; cbn; rewrite ?Ec, ?El; try done; [lia|].
    intros ? ? [= _ <-]. by left.
  - apply begin_wait_result in Hb as (Ec & El & _). destruct Hok as [Hp Hc Hn _ _]. cbn in *.
    unfold closed, counted, active in *. apply closed_ok; unfold closed, counted, active; rewrite ?Ec, ?El; try done; [lia|].
    rewrite Hc, Hp. apply Z.ltb_lt. lia.
  - apply end_wait_result in Hb as [-> Hset]. destruct Hok as [Hp Hc Hn Hw _]. cbn in *. split; cbn; try done.
    intros _ _. destruct (Hw stop k eq_refl) as [Hi|]; [|done]. specialize (Hk Hset). lia.
  - apply end_wait_result in Hb as [-> _]. destruct Hok as [Hp Hc Hn _ _]. cbn in *.
    apply closed_ok; [done..|]. rewrite Hc, Hp. apply Z.ltb_lt. lia.
  - destruct Hok as [Hp Hc Hn _ _]. cbn in *. apply closed_ok; [done..|]. rewrite Hc, Hp. apply Z.ltb_lt. lia.
Qed.

(** No stop is pending and no operation is forgotten. *)
Record at_rest (s : St) : Prop := {
  ar_closed : closed s = false;
  ar_pending : co_pendingStops (rt_coordinator s) = 0;
  ar_counted : counted s
}.

Lemma system_reachable_ok s p : at_rest s → rtc system_step (System s [] None) p → system_ok p.
Proof.
  intros [Hc Hp Hn] Hr. assert (Hs : system_ok (System s [] None)).
  { split; cbn; try done. by rewrite Hc, Hp. }
  revert Hs. induction Hr as [|p q r Hpq _ IH]; [done|]. intros Hs. by eapply IH, system_step_ok.
Qed.

(** Nobody begins to use anything while the admission is closed. *)
Lemma beginUse_closed digests derived s : closed s = true → ∃ s' e, beginUse digests derived s = (s', Throw e).
Proof.
  intros Hc. unfold beginUse, sm_bind at 1.
  destruct (assertAllowed _ _ s) as [s1 [[]|e]] eqn:E; [|by eexists _, _].
  apply assertAllowed_open in E. congruence.
Qed.

(** *** [enforceStop] is one of these runs *)

(** What others do while a stop has its turn: stops may queue up behind it. *)
Definition others (stop : announced) (g : progress) (s s' : St) : Prop := ∀ queue, ∃ more,
  rtc system_step (System s queue (Some (stop, g))) (System s' (queue ++ more) (Some (stop, g))).

(** The callers of the model are such others, and say that a wait was settled only when the
    resolver pushed last is gone. *)
Class Interleaved : Prop := {
  il_turn stop g s : others stop g s (c_turn s);
  il_queued stop s : ∃ more, rtc system_step (System s [stop] None) (System (c_turn s) (stop :: more) None);
  il_idle stop g ms s : others stop g s (c_idle ms s).1;
  il_settled ms s : (c_idle ms s).2 = true → rt_idleWaiting (c_idle ms s).1 < rt_idleWaiting s
}.

#[export] Instance others_preorder stop g : PreOrder (others stop g).
Proof.
  split.
  - intros s queue. exists []. by rewrite app_nil_r.
  - intros s1 s2 s3 H12 H23 queue. destruct (H12 queue) as [m1 R1]. destruct (H23 (queue ++ m1)) as [m2 R2].
    exists (m1 ++ m2). rewrite app_assoc. by etrans.
Qed.

Lemma work_others stop s s' : same_admission s s' → others stop Enforcing s s'.
Proof. intros Hs queue. exists []. rewrite app_nil_r. by apply rtc_once, Step_work. Qed.

Lemma plain_others stop g calls s : Forall (λ c, plain c = true) calls → others stop g s (do_calls calls s).
Proof.
  intros Hc. revert s. induction Hc as [|c calls Hc _ IH]; intros s; cbn; [reflexivity|].
  etrans; [|apply IH]. intros queue. exists []. rewrite app_nil_r. apply rtc_once, Step_call. by destruct c.
Qed.

Context `{!Interleaved}.

Lemma others_covers stop : Covers (others stop Enforcing).
Proof.
  split; intros.
  - apply _.
  - by apply work_others.
  - by apply work_others.
  - intros s. apply work_others, world_same.
  - intros s. apply work_others, world_same.
  - intros s. apply work_others, world_same.
  - apply il_turn.
  - apply il_idle.
  - intros s. destruct (plain_handler h s) as (calls & Hc & ->). by apply plain_others.
Qed.

Lemma others_covers_erase stop : CoversErase (others stop Enforcing).
Proof. intros digest s. apply work_others, world_same. Qed.

(** From the turn of the stop to its end. *)
Lemma settle_stop_runs fuel (stop : announced) s s' r more :
  sm_finally (settle_stop fuel stop.1 stop.2) (coordinates close_stop) s = (s', r) →
  ∃ queue, rtc system_step (System s (stop :: more) None) (System s' queue None).
Proof.
  pose proof (others_covers stop) as Hcov. pose proof (others_covers_erase stop) as Hcove.
  assert (Hrest : ∀ s1 queue s' r, rtc system_step (System s (stop :: more) None) (System s1 queue (Some (stop, Enforcing))) →
    sm_finally (doing! records (λ j, recordStopAndDenials j stop.1 stop.2) ;; enforceStop_ fuel stop.1 stop.1)
      (coordinates close_stop) s1 = (s', r) →
    ∃ queue, rtc system_step (System s (stop :: more) None) (System s' queue None)).
  { intros s1 queue s2 r2 Hrun Hf. unfold sm_finally in Hf.
    assert (Hm : steps (others stop Enforcing) (doing! records (λ j, recordStopAndDenials j stop.1 stop.2) ;;
      enforceStop_ fuel stop.1 stop.1)) by steps_auto.
    specialize (Hm s1 queue).
    destruct (sm_bind _ _ s1) as [s3 r3]. destruct Hm as [m Hm]. injection Hf as <- _.
    exists (queue ++ m). etrans; [exact Hrun|]. etrans; [exact Hm|]. apply rtc_once, Step_close. }
  unfold sm_finally, settle_stop, await_operations. rewrite sm_bind_assoc. unfold sm_bind at 1.
  destruct (begin_wait (st_deadlineMs stop.1) s) as [s1 [[[ms k]|]|e]] eqn:Eb.
  - pose proof (begin_wait_result _ _ _ _ Eb) as (_ & _ & Hk).
    rewrite sm_bind_assoc. unfold sm_bind at 1. pose proof (il_idle stop (Waiting k) ms s1 more) as [m Hm].
    pose proof (il_settled ms s1) as Hset. destruct (c_idle ms s1) as [s2 settled]. cbn [fst snd] in Hm, Hset.
    unfold sm_bind at 1. destruct (end_wait settled s2) as [s3 [[]|e]] eqn:Ee; intros Hf.
    + eapply Hrest, Hf. eapply rtc_l; [by eapply Step_wait|]. etrans; [exact Hm|].
      eapply rtc_once, Step_settled, Ee. intros ->. specialize (Hset eq_refl). lia.
    + cbn in Hf. injection Hf as <- _. exists (more ++ m). eapply rtc_l; [by eapply Step_wait|].
      etrans; [exact Hm|]. eapply rtc_once, Step_unsettled, Ee.
  - intros Hf. eapply Hrest, Hf. by apply rtc_once, Step_idle.
  - intros Hf. cbn in Hf. injection Hf as <- _. exists more. by eapply rtc_once, Step_late.
Qed.

Lemma enforceStop_runs fuel input s s' r :
  enforceStop fuel input s = (s', r) →
  ∃ queue, rtc system_step (System s [] None) (System s' queue None).
Proof.
  unfold enforceStop, sm_bind at 1. destruct (announce_stop input s) as [s1 [stop|e]] eqn:Ea.
  - unfold sm_bind at 1, sm_modify. intros Hf. destruct (il_queued stop s1) as [more Ht].
    destruct (settle_stop_runs _ _ _ _ _ more Hf) as [queue Hrun]. exists queue.
    eapply rtc_l; [by eapply Step_announce|]. etrans; [exact Ht|exact Hrun].
  - intros [= <- <-]. exists []. by eapply rtc_once, Step_refuse.
Qed.
End protocol.
