(* ===== verification/RetentionClaims.v ===== *)
(** * A concrete retention controller

    A vault that is the list of digests it holds copies of, with a clock that ticks; two
    artifacts of one provider and the stop that erases them; over the checksum of
    [Fixture] and the comparison of code units. *)
From S2P Require Import Prelude JsString JsNumber Json JsonLimits JsonParse Hash Zod.
From S2P Require Import JsonObject Event Codec Records Fixture Steps Retention.
From S2P Require Import RetentionJournal RetentionController RetentionErasure.
From S2P Require Import RetentionFacts RetentionErased RetentionUse.

(** ** The world *)

Record demo_vault : Type := {
  dv_now : Z;
  dv_copies : list jsstring;
  dv_erased : list jsstring
}.

Definition without (d : jsstring) : list jsstring → list jsstring := List.filter (λ x, negb (same_string x d)).

Definition demo_now (w : demo_vault) : demo_vault * Z :=
  ({| dv_now := dv_now w + 1; dv_copies := dv_copies w; dv_erased := dv_erased w |}, dv_now w).

Definition demo_erase (d : jsstring) : sm demo_vault ErasureResult := λ w,
  let present := bool_decide (d ∈ dv_copies w) in
  ({| dv_now := dv_now w; dv_copies := without d (dv_copies w); dv_erased := dv_erased w ++ [d] |},
   Ok {| er_artifactDigest := d; er_content := if present then 1 else 0; er_staging := 0; er_snapshot := 0;
         er_quarantine := 0; er_alreadyAbsent := negb present |}).

#[export] Instance Demo_world : RetentionWorld demo_vault := {|
  w_nowMs := demo_now;
  w_faultBoundary := λ _ _, sm_ret tt;
  w_settleActiveReadersAndWriters := sm_ret true;
  w_eraseDigestCopies := demo_erase;
  w_verifyDigestCopiesAbsent := λ d w, (w, Ok (negb (bool_decide (d ∈ dv_copies w))))
|}.

(** Other callers do nothing, and active operations do not end. *)
#[export] Instance Demo_callers : RetentionCallers demo_vault := {|
  c_turn := λ s, s;
  c_idle := λ _ s, (s, false);
  c_stopHandler := λ _, sm_ret tt
|}.

(** Time passes, erasures are logged. *)
Definition demo_moves (w w' : demo_vault) : Prop :=
  dv_now w <= dv_now w' ∧ dv_erased w `prefix_of` dv_erased w'.

#[export] Instance demo_moves_preorder : PreOrder demo_moves.
Proof.
  split; [intros w; by split; [lia|]|]. intros w1 w2 w3 [Hn1 He1] [Hn2 He2]. split; [lia|by etrans].
Qed.

#[export] Instance Demo_behaved : WellBehaved demo_moves.
Proof.
  split.
  - apply _.
  - intros w. split; cbn; [lia|done].
  - intros c d w. reflexivity.
  - intros w. reflexivity.
  - intros d w. split; cbn; [lia|by apply prefix_app_r].
  - intros d w. reflexivity.
  - intros s. by split.
  - intros ms s. by split.
  - intros h s. by split.
Qed.

(** ** Two artifacts and a stop *)

Definition demo_id (prefix : string) (d : Z) : jsstring := js prefix ++ js "_" ++ replicate 64 d.
Definition demo_digest (d : Z) : jsstring := replicate 64 d.

Definition demo_ownership (d size : Z) : OwnershipInput := {|
  ow_policyId := ALPACA_RETENTION_POLICY_ID; ow_providerLane := Alpaca; ow_providerId := demo_id "prv" 97;
  ow_datasetId := demo_id "dts" 97; ow_feedId := demo_id "fed" 97; ow_endpointChannelId := demo_id "chn" 97;
  ow_artifactObservationId := demo_digest d; ow_artifactDigest := demo_digest d; ow_artifactSizeBytes := size;
  ow_derivedIds := [demo_id "drv" d]; ow_trustedCaptureMs := 10; ow_expiresAtMs := 1000 |}.

Definition demo_stop : StopInput := {|
  st_policyId := ALPACA_RETENTION_POLICY_ID; st_providerLane := Alpaca; st_providerId := demo_id "prv" 97;
  st_effectiveAtMs := 50; st_deadlineMs := 500; st_reason := Account_closure |}.

Definition demo_start : controller demo_vault := {|
  rt_journal := empty_journal; rt_coordinator := open_coordinator; rt_idleWaiting := 0; rt_leases := [];
  rt_world := {| dv_now := 20; dv_copies := [demo_digest 97; demo_digest 98]; dv_erased := [] |} |}.

(** Both are registered. *)
Definition demo_owned : controller demo_vault := Eval vm_compute in
  (registerOwnership true (demo_ownership 98 7) (registerOwnership true (demo_ownership 97 5) demo_start).1).1.

Definition receipt_or (r : res RetentionReceipt) : RetentionReceipt :=
  match r with
  | Ok r => r
  | Throw _ => {| rc_receiptId := []; rc_body := {| rc_planId := []; rc_planHash := []; rc_artifactDigests := [];
      rc_artifactObservationIds := []; rc_priorSizeBytes := 0; rc_attemptCount := 0; rc_completedAtMs := 0 |} |}
  end.

(** The provider is stopped. *)
Definition demo_result : controller demo_vault * res RetentionReceipt :=
  Eval vm_compute in enforceStop 1 demo_stop demo_owned.
Definition demo_stopped : controller demo_vault := demo_result.1.
Definition demo_receipt : RetentionReceipt := receipt_or demo_result.2.

Lemma demo_enforced : enforceStop 1 demo_stop demo_owned = (demo_stopped, Ok demo_receipt).
Proof. vm_compute. reflexivity. Qed.

(** Stopping again finds the same receipt. *)
Lemma demo_enforced_again :
  (λ p, (rt_journal p.1, p.2)) (enforceStop 1 demo_stop demo_stopped) = (rt_journal demo_stopped, Ok demo_receipt).
Proof. vm_compute. reflexivity. Qed.

(** An operation is active. *)
Definition demo_busy : controller demo_vault := Eval vm_compute in (beginUse [demo_digest 97] [] demo_owned).1.

(** ** Retention: the properties

    What a receipt stands for, what precedes an erasure, what a denial ends, what a commit
    leaves behind, how operations and stops exclude each other, and where a stop that
    cannot wait leaves no trace. *)

(** ** Receipts *)

Section receipts.
Context `{Sha256} `{Zod} `{Locale} {W : Type} `{!RetentionWorld W} `{!RetentionCallers W}.

(** C6: When enforcing a stop returns a receipt, the provider is denied, and everything the
    provider owned when the receipt's plan was made is denied, has a tombstone and was seen
    absent from the vault while the call lasted, whatever other callers did meanwhile; every
    id derived from it is denied; the stop, the plan and the receipt are in the journal, and
    the receipt carries the plan's identity, hash, digests and observations. *)
Theorem receipt_means_erased (Rw : relation W) `{!WellBehaved Rw} (fuel : nat) (input : StopInput)
    (s s' : controller W) (r : RetentionReceipt) :
  enforceStop fuel input s = (s', Ok r) →
  ∃ stop plan owned,
    journal_grows (rt_journal s) owned ∧ journal_grows owned (rt_journal s') ∧
    stop_event (rt_journal s) input = Ok stop ∧
    is_Some (map_get st_stopEventId (st_stopEventId stop) (mj_stops (rt_journal s'))) ∧
    is_Some (getPlan (rt_journal s') (pl_planId plan)) ∧ pl_stopEventId plan = st_stopEventId stop ∧
    providerUseDenied (rt_journal s') (st_providerLane input) (st_providerId input) = true ∧
    (∀ o : RetentionOwnership, o ∈ mj_ownership owned →
      owned_by (st_providerLane input) (st_providerId input) o = true →
      ow_artifactDigest o ∈ pl_artifactDigests plan ∧ digest_erased Rw s (ow_artifactDigest o) s' ∧
      ∀ id, id ∈ lineage owned (ow_ownershipId o) → derivedUseDenied (rt_journal s') id = true) ∧
    receipt_of plan r ∧ receipt_recorded (rt_journal s') plan r.
Proof.
  intros (stop & plan & owned & Hstop & Hin & [[Ho1 Ho2] Hb _ _ Hpl [Hp Hd Hv] Hr Hrec])%(enforceStop_ok Rw).
  exists stop, plan, owned. rewrite Hb in *. split_and!; try done. intros o Ho Hown.
  pose proof (list_where_elem owned _ o Ho Hown) as Hl.
  assert (Hdig : ow_artifactDigest o ∈ pl_artifactDigests (plan_of input (st_stopEventId stop)
    (listOwnership owned (st_providerLane input) (st_providerId input)))).
  { cbn -[sortedSet listOwnership]. rewrite sortedSet_elem.
    exact (list_elem_of_fmap_2 (λ o : RetentionOwnership, ow_artifactDigest o) _ _ Hl). }
  split; [done|]. split; [by apply Hd|]. intros id Hid. apply Hv. cbn -[derived_of listOwnership].
  unfold derived_of. rewrite sortedSet_elem, list_elem_of_In, in_concat.
  exists (ow_derivedIds (withDerived owned o)). rewrite <-!list_elem_of_In. split; [|by cbn; rewrite sort_by_elem].
  exact (list_elem_of_fmap_2 (λ o : RetentionOwnership, ow_derivedIds o) _ _ Hl).
Qed.
End receipts.

Lemma receipt_means_erased_witness : ∃ stop plan owned,
  journal_grows (rt_journal demo_owned) owned ∧ journal_grows owned (rt_journal demo_stopped) ∧
  stop_event (rt_journal demo_owned) demo_stop = Ok stop ∧
  is_Some (map_get st_stopEventId (st_stopEventId stop) (mj_stops (rt_journal demo_stopped))) ∧
  is_Some (getPlan (rt_journal demo_stopped) (pl_planId plan)) ∧ pl_stopEventId plan = st_stopEventId stop ∧
  providerUseDenied (rt_journal demo_stopped) (st_providerLane demo_stop) (st_providerId demo_stop) = true ∧
  (∀ o : RetentionOwnership, o ∈ mj_ownership owned →
    owned_by (st_providerLane demo_stop) (st_providerId demo_stop) o = true →
    ow_artifactDigest o ∈ pl_artifactDigests plan ∧ digest_erased demo_moves demo_owned (ow_artifactDigest o) demo_stopped ∧
    ∀ id, id ∈ lineage owned (ow_ownershipId o) → derivedUseDenied (rt_journal demo_stopped) id = true) ∧
  receipt_of plan demo_receipt ∧ receipt_recorded (rt_journal demo_stopped) plan demo_receipt.
Proof. exact (receipt_means_erased demo_moves 1 demo_stop demo_owned demo_stopped demo_receipt demo_enforced). Defined.

(** ** Erasures *)

(** C7: While a stop is enforced the vault is asked to erase a digest only in states whose
    journal denies the provider and the digest, holds the plan that names it and a started
    attempt for it: whatever such erasures, the recording of evidence, the other calls of
    the world and the other callers keep, enforcing a stop keeps. *)
Theorem erasure_after_record `{Sha256} `{Zod} `{Locale} {W : Type} `{!RetentionWorld W} `{!RetentionCallers W}
    (Rw : relation W) `{!WellBehaved Rw} (I : controller W → Prop)
    (Hevidence : Covers (keeps I)) (Hstops : CoversStops (keeps I))
    (Herase : ∀ plan digest s, erasure_recorded plan digest (rt_journal s) →
      I s → I (world (w_eraseDigestCopies digest) s).1)
    (fuel : nat) (input : StopInput) (s : controller W) :
  denials_cover (rt_journal s) → I s → I (enforceStop fuel input s).1.
Proof. intros Hc. exact (proj2 (guarded_enforceStop Rw I Herase fuel input s Hc)). Qed.

(** Whatever the vault of the fixture erased was denied and attempted first. *)
Definition demo_audited (s : controller demo_vault) : Prop := ∀ d, d ∈ dv_erased (rt_world s) →
  digestUseDenied (rt_journal s) d = true ∧ ∃ planId, attempt_recorded (rt_journal s) planId d.

Lemma demo_audited_grows (s s' : controller demo_vault) :
  journal_grows (rt_journal s) (rt_journal s') → dv_erased (rt_world s') = dv_erased (rt_world s) →
  keeps demo_audited s s'.
Proof.
  intros Hg Hw Ha d. rewrite Hw. intros [Hd [id Hr]]%Ha. split; [by eapply digestUseDenied_grows|].
  exists id. by eapply attempt_recorded_grows.
Qed.

Lemma demo_audited_covers : Covers (keeps demo_audited).
Proof.
  split.
  - split; [by intros s ?|]. intros s1 s2 s3 H12 H23 Hi. by apply H23, H12.
  - intros s j Hj. apply demo_audited_grows; [by apply evidence_step_grows|done].
  - intros s. by apply demo_audited_grows.
  - intros c d s. by apply demo_audited_grows.
  - intros s. by apply demo_audited_grows.
  - intros d s. by apply demo_audited_grows.
  - by intros s ?.
  - by intros ms s ?.
  - by intros h s ?.
Qed.

Lemma demo_audited_stops : CoversStops (keeps demo_audited).
Proof. split; intros s; by apply demo_audited_grows. Qed.

Lemma demo_audited_erase plan digest (s : controller demo_vault) : erasure_recorded plan digest (rt_journal s) →
  demo_audited s → demo_audited (world (w_eraseDigestCopies digest) s).1.
Proof.
  intros ([_ _ Hd] & Hin & Hr) Ha d. cbn. rewrite elem_of_app, list_elem_of_singleton.
  intros [?| ->]; [by apply Ha|]. split; [by apply Hd|]. by eexists.
Qed.

Lemma demo_owned_cover : denials_cover (rt_journal demo_owned).
Proof. intros o _ Hd. vm_compute in Hd. discriminate Hd. Qed.

Lemma erasure_after_record_witness : demo_audited demo_stopped.
Proof.
  change demo_stopped with (demo_stopped, Ok demo_receipt).1. rewrite <-demo_enforced.
  apply (erasure_after_record demo_moves demo_audited demo_audited_covers demo_audited_stops demo_audited_erase).
  - exact demo_owned_cover.
  - intros d Hd. apply not_elem_of_nil in Hd. destruct Hd.
Defined.

(** ** Denial *)

(** C8: Whatever calls are made, the evidence of the journal only grows and is never
    changed, and once a provider is denied there is no way back: everything it owns, also
    what is registered later, is denied, asserting its use throws, and no lease is given on
    it, nor one without artifacts, which every commit needs. *)
Theorem denial_is_final `{Sha256} `{Zod} `{Locale} {W : Type} `{!RetentionWorld W} `{!RetentionCallers W}
    (Rw : relation W) `{!WellBehaved Rw} (cs : list retention_call) (s s' : controller W) :
  Forall (commits_covered (evolves Rw)) cs → s' = do_calls cs s → denials_cover (rt_journal s) →
  journal_grows (rt_journal s) (rt_journal s') ∧
  ∀ o : RetentionOwnership, o ∈ mj_ownership (rt_journal s') →
    providerUseDenied (rt_journal s') (ow_providerLane o) (ow_providerId o) = true →
    digestUseDenied (rt_journal s') (ow_artifactDigest o) = true ∧
    is_ok (assertArtifactUseAllowed (ow_artifactDigest o) s').2 = false ∧
    (∀ digests derived, ow_artifactDigest o ∈ digests → is_ok (beginUse digests derived s').2 = false) ∧
    is_ok (beginUse [] [] s').2 = false.
Proof.
  intros Hcs -> Hc. pose proof (do_calls_steps (evolves Rw) cs s Hcs) as [Hg Hd _ _]. split; [done|].
  intros o Ho Hp. pose proof (Hd Hc o Ho Hp) as Hdig. split; [done|]. split_and!.
  - destruct (assertArtifactUseAllowed _ _) as [s1 [u|e]] eqn:E; [|done]. exfalso.
    unfold assertArtifactUseAllowed in E. apply sm_bind_ok in E as (s2 & c & [= <- <-] & E).
    apply sm_bind_ok in E as (s3 & [] & [= <- _] & E). apply artifactUseAllowed_denied in E. congruence.
  - intros digests derived Hin. destruct (beginUse _ _ _) as [s1 [l|e]] eqn:E; [|done].
    by apply (beginUse_denied Rw _ _ _ _ _ _ Hdig Hin) in E.
  - destruct (beginUse _ _ _) as [s1 [l|e]] eqn:E; [|done]. by apply (beginUse_stopped Rw _ _ _ _ _ Hp) in E.
Qed.

Definition demo_calls : list (retention_call (W := demo_vault)) :=
  [Call_enforce 1 demo_stop; Call_register true (demo_ownership 99 3)].

Lemma demo_calls_covered : Forall (commits_covered (evolves demo_moves)) demo_calls.
Proof. by repeat constructor. Qed.

Lemma denial_is_final_witness :
  let s' := do_calls demo_calls demo_owned in
  journal_grows (rt_journal demo_owned) (rt_journal s') ∧
  ∀ o : RetentionOwnership, o ∈ mj_ownership (rt_journal s') →
    providerUseDenied (rt_journal s') (ow_providerLane o) (ow_providerId o) = true →
    digestUseDenied (rt_journal s') (ow_artifactDigest o) = true ∧
    is_ok (assertArtifactUseAllowed (ow_artifactDigest o) s').2 = false ∧
    (∀ digests derived, ow_artifactDigest o ∈ digests → is_ok (beginUse digests derived s').2 = false) ∧
    is_ok (beginUse [] [] s').2 = false.
Proof.
  exact (denial_is_final demo_moves demo_calls demo_owned _ demo_calls_covered eq_refl demo_owned_cover).
Defined.

(** ** Commits *)

(** C9: A commit returns its artifact only when its use was still allowed after the bytes
    were there.  When it throws, it had not begun, its ownership was refused, the commit
    itself threw, or its copies were seen absent before the call ended or the error says
    that the erasure could not be proved. *)
Theorem commit_all_or_nothing `{Sha256} `{Zod} `{Locale} {W : Type} `{!RetentionWorld W} `{!RetentionCallers W}
    (Rw : relation W) `{!WellBehaved Rw} {A : Type} (test : bool) (input : OwnershipInput)
    (commit : sm (controller W) A) (s s' : controller W) (r : res A) :
  steps (evolves Rw) commit → commitArtifact test input commit s = (s', r) →
  match r with
  | Ok artifact => ∃ s1 s2 s3 s4,
      evolves Rw s s1 ∧ commit s1 = (s2, Ok artifact) ∧ evolves Rw s2 s3 ∧
      artifactUseAllowed (ow_artifactDigest input) s3 = (s4, Ok tt) ∧ evolves Rw s4 s'
  | Throw e =>
      validateOwnership test input = Throw e ∨ beginUse [] [] s = (s', Throw e) ∨
      (∃ s1 s2, evolves Rw s s1 ∧ registerOwnership_ test input s1 = (s2, Throw e)) ∨
      (∃ s1 s2, evolves Rw s s1 ∧ commit s1 = (s2, Throw e)) ∨
      (∃ s1 s2 artifact, evolves Rw s s1 ∧ commit s1 = (s2, Ok artifact) ∧
        (e = safeAcquisitionError "retention-erasure-unprovable" "retention-erase" ∨
         seen_absent Rw (ow_artifactDigest input) s2 s'))
  end.
Proof.
  intros Hcommit Hr. unfold commitArtifact, sm_bind at 1, sm_lift at 1 in Hr.
  destruct (validateOwnership test input) as [[]|e] eqn:Ev; [|injection Hr as <- <-; by left].
  unfold sm_bind at 1 in Hr. destruct (beginUse [] [] s) as [s1 [lease|e]] eqn:Eb; [|injection Hr as <- <-; right; by left].
  pose proof (steps_run (evolves Rw) _ _ _ _ (steps_beginUse [] []) Eb) as Hs1. apply beginUse_ok in Eb as Hl.
  fold (commit_inner test input commit lease) in Hr. unfold sm_finally in Hr.
  destruct (commit_inner test input commit lease s1) as [s2 r2] eqn:Ei.
  apply (commit_inner_end Rw) in Ei as [Hs2 Hend]; [|done].
  destruct (lease_release_total lease s2) as [s3 El]; [pose proof (ev_leases _ _ _ Hs2); lia|].
  rewrite El in Hr. injection Hr as <- <-.
  assert (Hs3 : evolves Rw s2 s3) by exact (steps_run (evolves Rw) _ _ _ _ (steps_lease_release _) El).
  pose proof (commit_end_mono Rw _ _ _ _ _ _ _ _ Hs1 Hend Hs3) as Hend'.
  destruct r2; [exact Hend'|right; right; exact Hend'].
Qed.

(** The vault takes a copy; the clock passes the expiry of what is committed. *)
Definition demo_commit : sm (controller demo_vault) unit := λ s,
  (put_world {| dv_now := dv_now (rt_world s) + 2000; dv_copies := dv_copies (rt_world s) ++ [demo_digest 99];
    dv_erased := dv_erased (rt_world s) |} s, Ok tt).

Definition demo_committed : controller demo_vault * res unit :=
  Eval vm_compute in commitArtifact true (demo_ownership 99 3) demo_commit demo_start.

Lemma demo_committed_by :
  commitArtifact true (demo_ownership 99 3) demo_commit demo_start = (demo_committed.1, demo_committed.2).
Proof. vm_compute. reflexivity. Qed.


Lemma demo_commit_evolves : steps (evolves demo_moves) demo_commit.
Proof. intros s. split; cbn; [done|done| |done]. split; cbn; [lia|done]. Qed.

Lemma commit_all_or_nothing_witness :
  match demo_committed.2 with
  | Ok artifact => ∃ s1 s2 s3 s4,
      evolves demo_moves demo_start s1 ∧ demo_commit s1 = (s2, Ok artifact) ∧ evolves demo_moves s2 s3 ∧
      artifactUseAllowed (demo_digest 99) s3 = (s4, Ok tt) ∧ evolves demo_moves s4 demo_committed.1
  | Throw e =>
      validateOwnership true (demo_ownership 99 3) = Throw e ∨ beginUse [] [] demo_start = (demo_committed.1, Throw e) ∨
      (∃ s1 s2, evolves demo_moves demo_start s1 ∧
        registerOwnership_ true (demo_ownership 99 3) s1 = (s2, Throw e)) ∨
      (∃ s1 s2, evolves demo_moves demo_start s1 ∧ demo_commit s1 = (s2, Throw e)) ∨
      (∃ s1 s2 artifact, evolves demo_moves demo_start s1 ∧ demo_commit s1 = (s2, Ok artifact) ∧
        (e = safeAcquisitionError "retention-erasure-unprovable" "retention-erase" ∨
         seen_absent demo_moves (demo_digest 99) s2 demo_committed.1))
  end.
Proof.
  exact (commit_all_or_nothing demo_moves true (demo_ownership 99 3) demo_commit demo_start demo_committed.1
    demo_committed.2 demo_commit_evolves demo_committed_by).
Defined.

(** ** Operations and stops *)

(** C10: However the calls of operations and the parts of stops between their awaits follow
    each other, starting from no stop at all: the admission is closed exactly while some stop
    waits or runs; while it is closed [beginUse] throws; and from the moment the wait for
    active operations is over to the end of the stop no operation is active, every lease
    having been released.  [enforceStop], with such other callers, is one of these runs. *)
Theorem no_use_while_erasing `{Sha256} `{Zod} `{Locale} {W : Type} `{!RetentionWorld W} `{!RetentionCallers W}
    (Hhandlers : PlainHandlers (W := W)) (s : controller W) (p : system) :
  at_rest s → rtc system_step (System s [] None) p →
  (closed (sy_state p) = true ↔ sy_queue p ≠ [] ∨ sy_current p ≠ None) ∧
  (closed (sy_state p) = true → ∀ digests derived, ∃ s' e, beginUse digests derived (sy_state p) = (s', Throw e)) ∧
  (∀ stop, sy_current p = Some (stop, Enforcing) →
    closed (sy_state p) = true ∧ active (sy_state p) = 0 ∧
    Forall (λ l, le_released l = true) (rt_leases (sy_state p))) ∧
  (Interleaved (W := W) → ∀ fuel input s' r, enforceStop fuel input (sy_state p) = (s', r) →
    sy_queue p = [] → sy_current p = None →
    ∃ queue, rtc system_step (System s [] None) (System s' queue None)).
Proof.
  intros Hs Hr. pose proof (system_reachable_ok s p Hs Hr) as [Hp Hc Hn _ He].
  assert (Hiff : closed (sy_state p) = true ↔ sy_queue p ≠ [] ∨ sy_current p ≠ None).
  { rewrite Hc, Hp, Z.ltb_lt. destruct (sy_queue p), (sy_current p); cbn [length]; naive_solver lia. }
  split; [exact Hiff|]. split; [|split].
  - intros Hcl digests derived. by apply beginUse_closed.
  - intros stop E. split; [apply Hiff; right; congruence|]. specialize (He stop E). split; [done|].
    by apply all_released.
  - intros Hil fuel input s' r Hf Eq Ec. apply enforceStop_runs in Hf as [queue Hf]; [|done..]. exists queue.
    destruct p as [s1 q cur]. cbn in *. subst. by etrans.
Qed.

(** An operation is active when the stop is announced; it ends while the stop waits. *)
Definition demo_announced : controller demo_vault * res announced := Eval vm_compute in announce_stop demo_stop demo_busy.
Definition demo_pending : announced := Eval vm_compute in
  match demo_announced.2 with
  | Ok stop => stop | Throw _ => ({| st_stopEventId := []; st_input := demo_stop |}, []) end.
Definition demo_waiting : controller demo_vault := Eval vm_compute in (begin_wait 500 demo_announced.1).1.
Definition demo_released : controller demo_vault := Eval vm_compute in do_call (Call_lease_release 0) demo_waiting.

Lemma demo_handlers : PlainHandlers (W := demo_vault).
Proof. intros h s. by exists []. Qed.

Lemma demo_interleaved : Interleaved (W := demo_vault).
Proof.
  split.
  - intros stop g s. change (others stop g s s). reflexivity.
  - intros stop s. by exists [].
  - intros stop g ms s. change (others stop g s s). reflexivity.
  - done.
Qed.

Lemma demo_begins : begin_wait (st_deadlineMs demo_pending.1) demo_announced.1 = (demo_waiting, Ok (Some (479, 0))).
Proof. vm_compute. reflexivity. Qed.

Lemma demo_run : rtc system_step (System demo_owned [] None) (System demo_released [] (Some (demo_pending, Enforcing))).
Proof.
  apply rtc_l with (System demo_busy [] None).
  { exact (Step_call (Call_beginUse [demo_digest 97] []) demo_owned [] None eq_refl). }
  apply rtc_l with (System demo_announced.1 [demo_pending] None).
  { exact (Step_announce demo_stop demo_busy demo_announced.1 demo_pending [] None eq_refl). }
  apply rtc_l with (System demo_waiting [] (Some (demo_pending, Waiting 0))).
  { exact (Step_wait demo_pending demo_announced.1 demo_waiting 479 0 [] demo_begins). }
  apply rtc_l with (System demo_released [] (Some (demo_pending, Waiting 0))).
  { exact (Step_call (Call_lease_release 0) demo_waiting [] _ eq_refl). }
  apply rtc_once. apply (Step_settled demo_pending demo_released demo_released 0 true []); [|reflexivity].
  intros _. vm_compute. discriminate.
Qed.

Lemma no_use_while_erasing_witness :
  rtc system_step (System demo_owned [] None) (System demo_released [] (Some (demo_pending, Enforcing))) ∧
  active demo_busy = 1 ∧ active demo_released = 0 ∧
  (∃ s' e, beginUse [demo_digest 98] [] demo_released = (s', Throw e)) ∧
  ∃ queue, rtc system_step (System demo_owned [] None) (System demo_stopped queue None).
Proof.
  destruct (no_use_while_erasing demo_handlers demo_owned _ ltac:(by split) demo_run) as (_ & Hb & He & _).
  destruct (He demo_pending eq_refl) as (Hc & Ha & _).
  destruct (no_use_while_erasing demo_handlers demo_owned _ ltac:(by split) (rtc_refl _ _)) as (_ & _ & _ & Hrun).
  split_and!; [exact demo_run|reflexivity|exact Ha|exact (Hb Hc _ _)|].
  exact (Hrun demo_interleaved 1%nat demo_stop demo_stopped (Ok demo_receipt) demo_enforced eq_refl eq_refl).
Defined.

(** When the other callers register nothing while a stop is enforced, the enforcement
    ends in its first round: with more fuel than one it does the same. *)
Theorem enforcement_one_round `{Sha256} `{Zod} `{Locale} {W : Type} `{!RetentionWorld W} `{!RetentionCallers W}
    (Hquiet : QuietCallers (W := W)) (fuel : nat) (input : StopInput) (s : controller W) :
  enforceStop (S fuel) input s = enforceStop 1 input s.
Proof.
  unfold enforceStop. apply sm_bind_ext. intros s1 [stop derived] _. apply sm_bind_ext. intros s2 [] _.
  unfold sm_finally. cbn [fst snd].
  assert (E : settle_stop (S fuel) stop derived s2 = settle_stop 1 stop derived s2).
  { unfold settle_stop. apply sm_bind_ext. intros s7 [] _. apply sm_bind_ext. intros s8 [] _.
    apply enforceStop__rounds. }
  by rewrite E.
Qed.

Lemma demo_quiet : QuietCallers (W := demo_vault).
Proof. split; [intros s|intros ms s|intros h s]; reflexivity. Qed.

Lemma enforcement_one_round_witness :
  enforceStop 5 demo_stop demo_owned = (demo_stopped, Ok demo_receipt).
Proof. rewrite (enforcement_one_round demo_quiet 4). exact demo_enforced. Defined.

(** C40: A stop that cannot wait for the active operations leaves no trace: the stop and its
    denials are recorded only after the wait, and when the wait is not enough the call
    throws, the journal is as before and admission opens again. *)
Theorem timed_out_stop_forgets `{Sha256} `{Zod} `{Locale} {W : Type} `{!RetentionWorld W} `{!RetentionCallers W}
    (fuel : nat) (input : StopInput) (s : controller W) :
  (∀ s : controller W, c_turn s = s) → (∀ ms (s : controller W), c_idle ms s = (s, false)) →
  co_operationStopHandlers (rt_coordinator s) = [] → 0 < co_activeOperations (rt_coordinator s) →
  co_pendingStops (rt_coordinator s) = 0 → co_admissionClosed (rt_coordinator s) = false →
  ∃ s' e, enforceStop fuel input s = (s', Throw e) ∧
    rt_journal s' = rt_journal s ∧ rt_coordinator s' = rt_coordinator s.
Proof.
  intros Hturn Hidle Hhandlers Hactive Hpending Hclosed. unfold enforceStop, sm_bind at 1, announce_stop, sm_bind at 1, sm_lift at 1.
  destruct (validateStop input) as [[]|e]; [|by exists s, e]. unfold sm_bind at 1, asks at 1, sm_bind at 1, answers.
  destruct (stop_event (rt_journal s) input) as [stop|e]; [|by exists s, e].
  set (s1 := put_coordinator (open_stop (rt_coordinator s)) s).
  destruct (await_operations_fails (st_deadlineMs stop) s1 Hidle Hactive) as (w & n & e & Hw).
  exists (put_coordinator (close_stop (open_stop (rt_coordinator s))) (put_idle n (put_world w s))), e.
  split_and!; [|done|].
  - unfold sm_bind at 1. change (coordinates open_stop s) with (s1, Ok tt). cbv iota beta.
    unfold sm_bind at 1, call_handlers, sm_bind at 1, coordinator. cbv iota beta.
    change (co_operationStopHandlers (rt_coordinator s1)) with (co_operationStopHandlers (rt_coordinator s)).
    rewrite Hhandlers. cbn [sm_each sm_ret]. unfold sm_bind at 1, sm_modify at 1. rewrite Hturn.
    unfold sm_finally, settle_stop, sm_bind at 1. cbn [fst snd]. by rewrite Hw.
  - cbn. destruct (rt_coordinator s); cbn in *. subst. done.
Qed.

Lemma timed_out_stop_forgets_witness : ∃ s' e, enforceStop 1 demo_stop demo_busy = (s', Throw e) ∧
  rt_journal s' = rt_journal demo_busy ∧ rt_coordinator s' = rt_coordinator demo_busy.
Proof.
  apply (timed_out_stop_forgets 1 demo_stop demo_busy); try reflexivity; intros; reflexivity.
Defined.

(** ** A clock that went back *)

(** The vault of the fixture with another clock and other copies, as after a restart. *)
Definition restarted (now : Z) (copies : list jsstring) (s : controller demo_vault) : controller demo_vault :=
  put_world {| dv_now := now; dv_copies := copies; dv_erased := dv_erased (rt_world s) |} s.

Definition demo_set_back : controller demo_vault * res RetentionReceipt :=
  Eval vm_compute in enforceStop 1 demo_stop (restarted 20 [demo_digest 97] demo_stopped).

Definition demo_repaired : controller demo_vault * res RetentionReceipt :=
  Eval vm_compute in enforceStop 1 demo_stop (restarted 100 [demo_digest 97] demo_stopped).

(** A revalidation is recorded before it is checked against the receipt it follows.  With a
    clock behind that receipt the check fails, and fails ever after: the stop is never
    settled again, although every copy is gone.  With a later clock the copy that came back
    is erased and a new receipt follows. *)
Theorem clock_set_back_blocks :
  demo_set_back.2 = Throw (safeAcquisitionError "retention-erasure-unprovable" "retention-verify") ∧
  dv_copies (rt_world demo_set_back.1) = [] ∧
  (enforceStop 1 demo_stop (restarted 400 [] demo_set_back.1)).2 =
    Throw (safeAcquisitionError "retention-erasure-unprovable" "retention-verify") ∧
  is_ok demo_repaired.2 = true ∧ dv_copies (rt_world demo_repaired.1) = [].
Proof. split_and!; vm_compute; reflexivity. Qed.
