(* ===== verification/EarningsCluster.v ===== *)
(** * Earnings clusters: data ([src/domain/earnings-cluster/reducer.ts])

    An earnings cluster gathers the sources observed for one issuer and fiscal
    period, the timers that pace it and the analyses requested on frozen sets of
    its sources.  Types, JSON forms and the schemas a persisted state must satisfy. *)
From S2P Require Import Prelude JsString JsNumber Json JsonLimits JsonParse JsonClaims Hash Zod.
From S2P Require Import JsonObject Event EventFacts Codec Records Run Processing Processor.
From S2P Require Import Evidence SecContracts.

(** ** Unions of literals *)

Inductive SourceKind : Type :=
  | Issuer_release | Fmp_release | Kind_sec_8k | Call | Transcript | Filing.

Inductive TimestampConfidence : Type := Exact | Provider | Inferred | Unknown.

Inductive TimerType : Type := Mirror_debounce | Lifecycle_finalize.

Inductive TimerStatus : Type := Timer_pending | Timer_fired.

Inductive BranchPhase : Type :=
  | First_source | Source_confirmation | Call_second_wave | Incremental_filing.

Inductive BranchStatus : Type := Branch_pending | Branch_succeeded | Branch_failed.

Inductive ClusterStatus : Type := Cluster_open | Cluster_finalized.

#[export] Instance SourceKind_eq_dec : EqDecision SourceKind.
Proof. solve_decision. Defined.
#[export] Instance TimestampConfidence_eq_dec : EqDecision TimestampConfidence.
Proof. solve_decision. Defined.
#[export] Instance TimerType_eq_dec : EqDecision TimerType.
Proof. solve_decision. Defined.
#[export] Instance TimerStatus_eq_dec : EqDecision TimerStatus.
Proof. solve_decision. Defined.
#[export] Instance BranchPhase_eq_dec : EqDecision BranchPhase.
Proof. solve_decision. Defined.
#[export] Instance BranchStatus_eq_dec : EqDecision BranchStatus.
Proof. solve_decision. Defined.
#[export] Instance ClusterStatus_eq_dec : EqDecision ClusterStatus.
Proof. solve_decision. Defined.

#[export] Instance SourceKind_enum : Enumerated SourceKind.
Proof.
  refine {| enum_name := λ k, match k with
    | Issuer_release => js "issuer_release" | Fmp_release => js "fmp_release"
    | Kind_sec_8k => js "sec_8k" | Call => js "call" | Transcript => js "transcript"
    | Filing => js "filing" end;
    enum_all := [Issuer_release; Fmp_release; Kind_sec_8k; Call; Transcript; Filing] |}.
  - by intros [].
  - intros []; apply js_units.
Defined.

#[export] Instance TimestampConfidence_enum : Enumerated TimestampConfidence.
Proof.
  refine {| enum_name := λ k, match k with
    | Exact => js "exact" | Provider => js "provider" | Inferred => js "inferred"
    | Unknown => js "unknown" end;
    enum_all := [Exact; Provider; Inferred; Unknown] |}.
  - by intros [].
  - intros []; apply js_units.
Defined.

#[export] Instance TimerType_enum : Enumerated TimerType.
Proof.
  refine {| enum_name := λ k, match k with
    | Mirror_debounce => js "earnings.mirror-debounce"
    | Lifecycle_finalize => js "earnings.lifecycle-finalize" end;
    enum_all := [Mirror_debounce; Lifecycle_finalize] |}.
  - by intros [].
  - intros []; apply js_units.
Defined.

#[export] Instance TimerStatus_enum : Enumerated TimerStatus.
Proof.
  refine {| enum_name := λ k, match k with
    | Timer_pending => js "pending" | Timer_fired => js "fired" end;
    enum_all := [Timer_pending; Timer_fired] |}.
  - by intros [].
  - intros []; apply js_units.
Defined.

#[export] Instance BranchPhase_enum : Enumerated BranchPhase.
Proof.
  refine {| enum_name := λ k, match k with
    | First_source => js "first_source" | Source_confirmation => js "source_confirmation"
    | Call_second_wave => js "call_second_wave" | Incremental_filing => js "incremental_filing" end;
    enum_all := [First_source; Source_confirmation; Call_second_wave; Incremental_filing] |}.
  - by intros [].
  - intros []; apply js_units.
Defined.

#[export] Instance BranchStatus_enum : Enumerated BranchStatus.
Proof.
  refine {| enum_name := λ k, match k with
    | Branch_pending => js "pending" | Branch_succeeded => js "succeeded"
    | Branch_failed => js "failed" end;
    enum_all := [Branch_pending; Branch_succeeded; Branch_failed] |}.
  - by intros [].
  - intros []; apply js_units.
Defined.

#[export] Instance ClusterStatus_enum : Enumerated ClusterStatus.
Proof.
  refine {| enum_name := λ k, match k with
    | Cluster_open => js "open" | Cluster_finalized => js "finalized" end;
    enum_all := [Cluster_open; Cluster_finalized] |}.
  - by intros [].
  - intros []; apply js_units.
Defined.

(** ** Types *)

(** [AnalysisInput]; a [SourceObservation] has the same fields and four more. *)
Record AnalysisInput : Type := {
  ai_eventSchemaVersion : Z;
  ai_eventId : jsstring;
  ai_eventHash : jsstring;
  ai_position : jsstring;
  ai_sourceKind : SourceKind;
  ai_primaryArtifactHash : jsstring;
  ai_evidenceBundleHash : option jsstring;
  ai_evidence : list EvidenceReference;
  ai_provider : jsstring;
  ai_providerRecordId : jsstring;
  ai_providerRevisionId : jsstring
}.

Record SourceObservation : Type := {
  so_input :> AnalysisInput;
  so_publishedAtMs : option Z;
  so_receivedAtMs : Z;
  so_timestampConfidence : TimestampConfidence;
  so_originalTimestamp : option jsstring
}.

Record TimerExpectation : Type := {
  tm_timerType : TimerType;
  tm_jobId : jsstring;
  tm_scheduledForLogicalMs : Z;
  tm_status : TimerStatus
}.

Record AnalysisContract : Type := {
  ct_extractorVersion : jsstring;
  ct_featureSetId : option jsstring;
  ct_promptId : option jsstring;
  ct_modelId : option jsstring;
  ct_datasetId : option jsstring
}.

(** What a branch and the job that runs it agree on. *)
Record AnalysisRequest : Type := {
  rq_branchId : jsstring;
  rq_phase : BranchPhase;
  rq_inputBundleHash : jsstring;
  rq_inputSources : list AnalysisInput;
  rq_artifactCatalog : list jsstring;
  rq_analysisContract : AnalysisContract;
  rq_analysisContractHash : jsstring
}.

Record AnalysisBranch : Type := {
  br_request :> AnalysisRequest;
  br_jobId : jsstring;
  br_status : BranchStatus;
  br_requestedAtMs : Z;
  br_expectedAttempt : Z;
  br_expectedFencingToken : Z;
  br_resultEventId : option jsstring;
  br_resultHash : option jsstring;
  br_errorCode : option jsstring
}.

Record EarningsCluster : Type := {
  cl_clusterId : jsstring;
  cl_issuerCik : jsstring;
  cl_fiscalPeriod : jsstring;
  cl_status : ClusterStatus;
  cl_firstObservedAtMs : Z;
  cl_lifecycleEndsAtMs : Z;
  cl_finalizedAtMs : option Z;
  cl_sources : list SourceObservation;
  cl_timers : list TimerExpectation;
  cl_analysisBranches : list AnalysisBranch
}.

(** [schemaVersion] is always the literal 4. *)
Record EarningsClusterState : Type := {
  es_aggregateId : jsstring;
  es_cluster : option EarningsCluster;
  es_rejectionCount : Z
}.

Record EarningsClusterConfig : Type := {
  cf_mirrorDebounceMs : Z;
  cf_lifecycleMs : Z;
  cf_maxSourcesPerCluster : Z;
  cf_maxAnalysisBranches : Z;
  cf_maxAnalysisResultBytes : Z
}.

#[export] Instance AnalysisInput_eq_dec : EqDecision AnalysisInput.
Proof. solve_decision. Defined.
#[export] Instance SourceObservation_eq_dec : EqDecision SourceObservation.
Proof. solve_decision. Defined.
#[export] Instance TimerExpectation_eq_dec : EqDecision TimerExpectation.
Proof. solve_decision. Defined.
#[export] Instance AnalysisContract_eq_dec : EqDecision AnalysisContract.
Proof. solve_decision. Defined.
#[export] Instance AnalysisRequest_eq_dec : EqDecision AnalysisRequest.
Proof. solve_decision. Defined.
#[export] Instance AnalysisBranch_eq_dec : EqDecision AnalysisBranch.
Proof. solve_decision. Defined.
#[export] Instance EarningsCluster_eq_dec : EqDecision EarningsCluster.
Proof. solve_decision. Defined.
#[export] Instance EarningsClusterState_eq_dec : EqDecision EarningsClusterState.
Proof. solve_decision. Defined.

(** ** JSON forms *)

Definition analysis_input_fields (i : AnalysisInput) : jobject :=
  [(js "eventSchemaVersion", jint (ai_eventSchemaVersion i)); (js "eventId", JStr (ai_eventId i));
   (js "eventHash", JStr (ai_eventHash i)); (js "position", JStr (ai_position i));
   (js "sourceKind", jenum (ai_sourceKind i));
   (js "primaryArtifactHash", JStr (ai_primaryArtifactHash i));
   (js "evidenceBundleHash", jnull JStr (ai_evidenceBundleHash i));
   (js "evidence", jlist (ai_evidence i)); (js "provider", JStr (ai_provider i));
   (js "providerRecordId", JStr (ai_providerRecordId i));
   (js "providerRevisionId", JStr (ai_providerRevisionId i))].

Definition source_fields (s : SourceObservation) : jobject :=
  analysis_input_fields s ++
  [(js "publishedAtMs", jnull jint (so_publishedAtMs s));
   (js "receivedAtMs", jint (so_receivedAtMs s));
   (js "timestampConfidence", jenum (so_timestampConfidence s));
   (js "originalTimestamp", jnull JStr (so_originalTimestamp s))].

Definition timer_fields (t : TimerExpectation) : jobject :=
  [(js "timerType", jenum (tm_timerType t)); (js "jobId", JStr (tm_jobId t));
   (js "scheduledForLogicalMs", jint (tm_scheduledForLogicalMs t)); (js "status", jenum (tm_status t))].

Definition contract_fields (c : AnalysisContract) : jobject :=
  [(js "extractorVersion", JStr (ct_extractorVersion c));
   (js "featureSetId", jnull JStr (ct_featureSetId c)); (js "promptId", jnull JStr (ct_promptId c));
   (js "modelId", jnull JStr (ct_modelId c)); (js "datasetId", jnull JStr (ct_datasetId c))].

Definition analysis_input_of (kvs : jobject) : option AnalysisInput :=
  v ← get_int (js "eventSchemaVersion") kvs;
  i ← get_str (js "eventId") kvs;
  h ← get_str (js "eventHash") kvs;
  p ← get_str (js "position") kvs;
  k ← get_enum SourceKind (js "sourceKind") kvs;
  a ← get_str (js "primaryArtifactHash") kvs;
  b ← get_null get_str (js "evidenceBundleHash") kvs;
  e ← get_list EvidenceReference (js "evidence") kvs;
  pr ← get_str (js "provider") kvs;
  r ← get_str (js "providerRecordId") kvs;
  w ← get_str (js "providerRevisionId") kvs;
  Some {| ai_eventSchemaVersion := v; ai_eventId := i; ai_eventHash := h; ai_position := p;
          ai_sourceKind := k; ai_primaryArtifactHash := a; ai_evidenceBundleHash := b;
          ai_evidence := e; ai_provider := pr; ai_providerRecordId := r;
          ai_providerRevisionId := w |}.

Definition source_of (kvs : jobject) : option SourceObservation :=
  i ← analysis_input_of kvs;
  p ← get_null get_int (js "publishedAtMs") kvs;
  r ← get_int (js "receivedAtMs") kvs;
  c ← get_enum TimestampConfidence (js "timestampConfidence") kvs;
  o ← get_null get_str (js "originalTimestamp") kvs;
  Some {| so_input := i; so_publishedAtMs := p; so_receivedAtMs := r; so_timestampConfidence := c;
          so_originalTimestamp := o |}.

Definition timer_of (kvs : jobject) : option TimerExpectation :=
  t ← get_enum TimerType (js "timerType") kvs;
  j ← get_str (js "jobId") kvs;
  d ← get_int (js "scheduledForLogicalMs") kvs;
  s ← get_enum TimerStatus (js "status") kvs;
  Some {| tm_timerType := t; tm_jobId := j; tm_scheduledForLogicalMs := d; tm_status := s |}.

Definition contract_of (kvs : jobject) : option AnalysisContract :=
  e ← get_str (js "extractorVersion") kvs;
  f ← get_null get_str (js "featureSetId") kvs;
  p ← get_null get_str (js "promptId") kvs;
  m ← get_null get_str (js "modelId") kvs;
  d ← get_null get_str (js "datasetId") kvs;
  Some {| ct_extractorVersion := e; ct_featureSetId := f; ct_promptId := p; ct_modelId := m;
          ct_datasetId := d |}.

Lemma analysis_input_of_norm kvs :
  json_wf (JObj kvs) → analysis_input_of (norm_entries kvs) = analysis_input_of kvs.
Proof. unfold analysis_input_of. revert kvs. record_of_norm. Qed.

Lemma source_of_norm kvs : json_wf (JObj kvs) → source_of (norm_entries kvs) = source_of kvs.
Proof.
  intros Hw. unfold source_of. rewrite analysis_input_of_norm by done.
  revert kvs Hw. record_of_norm.
Qed.

Lemma timer_of_norm kvs : json_wf (JObj kvs) → timer_of (norm_entries kvs) = timer_of kvs.
Proof. unfold timer_of. revert kvs. record_of_norm. Qed.

Lemma contract_of_norm kvs : json_wf (JObj kvs) → contract_of (norm_entries kvs) = contract_of kvs.
Proof. unfold contract_of. revert kvs. record_of_norm. Qed.

(** ** Codecs

    A record without free-form objects is its own normal form.  The laws of such a
    codec follow from reading back each list and each nested record. *)

Lemma analysis_input_read i rest : analysis_input_of (analysis_input_fields i ++ rest) = Some i.
Proof.
  destruct i as [v i h p k a b e pr r w]. unfold analysis_input_fields.
  cbn [ai_evidence ai_eventSchemaVersion ai_eventId ai_eventHash ai_position ai_sourceKind
    ai_primaryArtifactHash ai_evidenceBundleHash ai_provider ai_providerRecordId ai_providerRevisionId].
  transitivity (e' ← mapM of_json (map to_json e);
    Some {| ai_eventSchemaVersion := v; ai_eventId := i; ai_eventHash := h; ai_position := p;
            ai_sourceKind := k; ai_primaryArtifactHash := a; ai_evidenceBundleHash := b;
            ai_evidence := e'; ai_provider := pr; ai_providerRecordId := r;
            ai_providerRevisionId := w |}).
  - destruct k, b; reflexivity.
  - by rewrite mapM_of_to.
Qed.

#[export] Program Instance AnalysisInput_codec : Codec AnalysisInput := {|
  to_fields := analysis_input_fields; of_fields := analysis_input_of; nrm := id;
  norm_to := λ _, eq_refl |}.
Next Obligation. intros i. rewrite <-(app_nil_r (analysis_input_fields i)). apply analysis_input_read. Qed.
Next Obligation. intros kvs Hw. by apply of_norm_closed, analysis_input_of_norm. Qed.

#[export] Program Instance SourceObservation_codec : Codec SourceObservation := {|
  to_fields := source_fields; of_fields := source_of; nrm := id; norm_to := λ _, eq_refl |}.
Next Obligation.
  intros [i p r c o]. unfold source_of, source_fields. rewrite analysis_input_read.
  cbn [mbind option_bind so_publishedAtMs so_receivedAtMs so_timestampConfidence so_originalTimestamp so_input].
  destruct p, c, o; reflexivity.
Qed.
Next Obligation. intros kvs Hw. by apply of_norm_closed, source_of_norm. Qed.

#[export] Program Instance TimerExpectation_codec : Codec TimerExpectation := {|
  to_fields := timer_fields; of_fields := timer_of; nrm := id; norm_to := λ _, eq_refl |}.
Next Obligation. intros [[] j d []]; reflexivity. Qed.
Next Obligation. intros kvs Hw. by apply of_norm_closed, timer_of_norm. Qed.

#[export] Program Instance AnalysisContract_codec : Codec AnalysisContract := {|
  to_fields := contract_fields; of_fields := contract_of; nrm := id; norm_to := λ _, eq_refl |}.
Next Obligation. intros [e [] [] [] []]; reflexivity. Qed.
Next Obligation. intros kvs Hw. by apply of_norm_closed, contract_of_norm. Qed.

Definition request_fields (r : AnalysisRequest) : jobject :=
  [(js "branchId", JStr (rq_branchId r)); (js "phase", jenum (rq_phase r));
   (js "inputBundleHash", JStr (rq_inputBundleHash r));
   (js "inputSources", jlist (rq_inputSources r));
   (js "artifactCatalog", jstrs (rq_artifactCatalog r));
   (js "analysisContract", to_json (rq_analysisContract r));
   (js "analysisContractHash", JStr (rq_analysisContractHash r))].

Definition branch_fields (b : AnalysisBranch) : jobject :=
  request_fields b ++
  [(js "jobId", JStr (br_jobId b)); (js "status", jenum (br_status b));
   (js "requestedAtMs", jint (br_requestedAtMs b));
   (js "expectedAttempt", jint (br_expectedAttempt b));
   (js "expectedFencingToken", jint (br_expectedFencingToken b));
   (js "resultEventId", jnull JStr (br_resultEventId b));
   (js "resultHash", jnull JStr (br_resultHash b)); (js "errorCode", jnull JStr (br_errorCode b))].

Definition request_of (kvs : jobject) : option AnalysisRequest :=
  b ← get_str (js "branchId") kvs;
  p ← get_enum BranchPhase (js "phase") kvs;
  h ← get_str (js "inputBundleHash") kvs;
  i ← get_list AnalysisInput (js "inputSources") kvs;
  a ← get_strs (js "artifactCatalog") kvs;
  c ← get_record AnalysisContract (js "analysisContract") kvs;
  ch ← get_str (js "analysisContractHash") kvs;
  Some {| rq_branchId := b; rq_phase := p; rq_inputBundleHash := h; rq_inputSources := i;
          rq_artifactCatalog := a; rq_analysisContract := c; rq_analysisContractHash := ch |}.

Definition branch_of (kvs : jobject) : option AnalysisBranch :=
  r ← request_of kvs;
  j ← get_str (js "jobId") kvs;
  s ← get_enum BranchStatus (js "status") kvs;
  m ← get_int (js "requestedAtMs") kvs;
  a ← get_int (js "expectedAttempt") kvs;
  f ← get_int (js "expectedFencingToken") kvs;
  e ← get_null get_str (js "resultEventId") kvs;
  h ← get_null get_str (js "resultHash") kvs;
  c ← get_null get_str (js "errorCode") kvs;
  Some {| br_request := r; br_jobId := j; br_status := s; br_requestedAtMs := m;
          br_expectedAttempt := a; br_expectedFencingToken := f; br_resultEventId := e;
          br_resultHash := h; br_errorCode := c |}.

Lemma request_of_norm kvs : json_wf (JObj kvs) → request_of (norm_entries kvs) = request_of kvs.
Proof. unfold request_of. revert kvs. record_of_norm. Qed.

Lemma request_read r rest : request_of (request_fields r ++ rest) = Some r.
Proof.
  destruct r as [b p h i a c ch]. transitivity (i' ← mapM of_json (map to_json i);
    a' ← mapM as_str (map JStr a); c' ← of_json (to_json c);
    Some {| rq_branchId := b; rq_phase := p; rq_inputBundleHash := h; rq_inputSources := i';
            rq_artifactCatalog := a'; rq_analysisContract := c'; rq_analysisContractHash := ch |}).
  - destruct p; reflexivity.
  - by rewrite mapM_of_to, mapM_as_str, of_json_to_json.
Qed.

Lemma branch_of_norm kvs : json_wf (JObj kvs) → branch_of (norm_entries kvs) = branch_of kvs.
Proof.
  intros Hw. unfold branch_of. rewrite request_of_norm by done.
  revert kvs Hw. record_of_norm.
Qed.

#[export] Program Instance AnalysisBranch_codec : Codec AnalysisBranch := {|
  to_fields := branch_fields; of_fields := branch_of; nrm := id; norm_to := λ _, eq_refl |}.
Next Obligation.
  intros [r j s m a f e h c]. unfold branch_of, branch_fields. rewrite request_read.
  cbn [mbind option_bind br_request br_jobId br_status br_requestedAtMs br_expectedAttempt
    br_expectedFencingToken br_resultEventId br_resultHash br_errorCode].
  destruct s, e, h, c; reflexivity.
Qed.
Next Obligation. intros kvs Hw. by apply of_norm_closed, branch_of_norm. Qed.

Definition cluster_fields (c : EarningsCluster) : jobject :=
  [(js "clusterId", JStr (cl_clusterId c)); (js "issuerCik", JStr (cl_issuerCik c));
   (js "fiscalPeriod", JStr (cl_fiscalPeriod c)); (js "status", jenum (cl_status c));
   (js "firstObservedAtMs", jint (cl_firstObservedAtMs c));
   (js "lifecycleEndsAtMs", jint (cl_lifecycleEndsAtMs c));
   (js "finalizedAtMs", jnull jint (cl_finalizedAtMs c));
   (js "sources", jlist (cl_sources c));
   (js "timers", jlist (cl_timers c));
   (js "analysisBranches", jlist (cl_analysisBranches c))].

Definition cluster_of (kvs : jobject) : option EarningsCluster :=
  i ← get_str (js "clusterId") kvs;
  k ← get_str (js "issuerCik") kvs;
  p ← get_str (js "fiscalPeriod") kvs;
  s ← get_enum ClusterStatus (js "status") kvs;
  o ← get_int (js "firstObservedAtMs") kvs;
  e ← get_int (js "lifecycleEndsAtMs") kvs;
  f ← get_null get_int (js "finalizedAtMs") kvs;
  ss ← get_list SourceObservation (js "sources") kvs;
  ts ← get_list TimerExpectation (js "timers") kvs;
  bs ← get_list AnalysisBranch (js "analysisBranches") kvs;
  Some {| cl_clusterId := i; cl_issuerCik := k; cl_fiscalPeriod := p; cl_status := s;
          cl_firstObservedAtMs := o; cl_lifecycleEndsAtMs := e; cl_finalizedAtMs := f;
          cl_sources := ss; cl_timers := ts; cl_analysisBranches := bs |}.

Lemma cluster_of_norm kvs : json_wf (JObj kvs) → cluster_of (norm_entries kvs) = cluster_of kvs.
Proof. unfold cluster_of. revert kvs. record_of_norm. Qed.

#[export] Program Instance EarningsCluster_codec : Codec EarningsCluster := {|
  to_fields := cluster_fields; of_fields := cluster_of; nrm := id; norm_to := λ _, eq_refl |}.
Next Obligation.
  intros [i k p s o e f ss ts bs]. transitivity (ss' ← mapM of_json (map to_json ss);
    ts' ← mapM of_json (map to_json ts); bs' ← mapM of_json (map to_json bs);
    Some {| cl_clusterId := i; cl_issuerCik := k; cl_fiscalPeriod := p; cl_status := s;
            cl_firstObservedAtMs := o; cl_lifecycleEndsAtMs := e; cl_finalizedAtMs := f;
            cl_sources := ss'; cl_timers := ts'; cl_analysisBranches := bs' |}).
  - destruct s, f; reflexivity.
  - by rewrite !mapM_of_to.
Qed.
Next Obligation. intros kvs Hw. by apply of_norm_closed, cluster_of_norm. Qed.

Definition SCHEMA_VERSION : Z := 4.

Definition state_fields (s : EarningsClusterState) : jobject :=
  [(js "schemaVersion", jint SCHEMA_VERSION); (js "aggregateId", JStr (es_aggregateId s));
   (js "cluster", jnull to_json (es_cluster s)); (js "rejectionCount", jint (es_rejectionCount s))].

Definition state_of (kvs : jobject) : option EarningsClusterState :=
  a ← get_str (js "aggregateId") kvs;
  c ← get_nullable EarningsCluster (js "cluster") kvs;
  r ← get_int (js "rejectionCount") kvs;
  Some {| es_aggregateId := a; es_cluster := c; es_rejectionCount := r |}.

Lemma state_of_norm kvs : json_wf (JObj kvs) → state_of (norm_entries kvs) = state_of kvs.
Proof.
  intros Hw. unfold state_of. pose proof (json_wf_nodup _ Hw) as Hnd.
  rewrite get_nullable_norm, get_str_norm, get_int_norm by done. codec_binds. by destruct o.
Qed.

#[export] Program Instance EarningsClusterState_codec : Codec EarningsClusterState := {|
  to_fields := state_fields; of_fields := state_of; nrm := id; norm_to := λ _, eq_refl |}.
Next Obligation.
  intros [a [c|] r]; [|reflexivity]. transitivity (c' ← Some <$> of_json (to_json c);
    Some {| es_aggregateId := a; es_cluster := c'; es_rejectionCount := r |}).
  - reflexivity.
  - by rewrite of_json_to_json.
Qed.
Next Obligation. intros kvs Hw. by apply of_norm_closed, state_of_norm. Qed.
