(* ===== verification/EarningsSchemas.v ===== *)
(** * Earnings clusters: schemas ([src/domain/earnings-cluster/reducer.ts])

    The schemas of the reducer's configuration, of the payloads it reads and of the
    state it persists, with the refinements they carry: canonical evidence, the exact
    catalogue of artifacts, branch inputs frozen from the cluster's sources, and for
    each version 2 source the SEC policy on its evidence bundle. *)
From S2P Require Import Prelude JsString JsNumber Json JsonLimits JsonParse JsonClaims Hash Zod.
From S2P Require Import JsonObject Event EventFacts Codec Records Run Processing Processor.
From S2P Require Import Evidence SecContracts EarningsCluster.

Definition MAX_EARNINGS_CLUSTER_SOURCES : Z := 32.
Definition MAX_EARNINGS_ANALYSIS_BRANCHES : Z := 32.
Definition MAX_EARNINGS_SOURCE_EVIDENCE_REFERENCES : Z := 16.
Definition MAX_EARNINGS_ANALYSIS_MEMBERSHIPS : Z := 512.
Definition MAX_EARNINGS_ANALYSIS_ARTIFACTS : Z := 512.
Definition MAX_EARNINGS_RETAINED_BRANCH_MEMBERSHIPS : Z := 16384.
Definition MAX_EARNINGS_AGGREGATE_STATE_BYTES : Z := 8 * 1024 * 1024.

(** ** Canonical forms *)

Definition SEC_EVIDENCE_ROLES : list jsstring :=
  [js "sec.submissions"; js "sec.filing-index"; js "sec.primary-document"; js "sec.exhibit-99.1";
   js "sec.periodic-report"; js "sec.xbrl-instance"].

(** [compareEvidence(left, right) <= 0] *)
Definition evidence_leb (left right : EvidenceReference) : bool :=
  if bool_decide (er_role left = er_role right)
  then js_leb (er_artifactHash left) (er_artifactHash right)
  else js_leb (er_role left) (er_role right).

Definition canonicalEvidence (evidence : list EvidenceReference) : list EvidenceReference :=
  sort_by evidence_leb evidence.

(** [compareDecimal(left, right)], by its sign. *)
Definition compareDecimal (left right : jsstring) : comparison :=
  if js_length left =? js_length right
  then if js_ltb left right then Lt else if js_ltb right left then Gt else Eq
  else js_length left ?= js_length right.

(** [compareAnalysisInputs(left, right) <= 0] *)
Definition analysis_input_leb (left right : AnalysisInput) : bool :=
  match compareDecimal (ai_position left) (ai_position right) with
  | Lt => true
  | Gt => false
  | Eq => js_leb (ai_eventId left) (ai_eventId right)
  end.

(** [{ ...input, evidence }] *)
Definition with_input_evidence (i : AnalysisInput) (evidence : list EvidenceReference) : AnalysisInput := {|
  ai_eventSchemaVersion := ai_eventSchemaVersion i; ai_eventId := ai_eventId i;
  ai_eventHash := ai_eventHash i; ai_position := ai_position i; ai_sourceKind := ai_sourceKind i;
  ai_primaryArtifactHash := ai_primaryArtifactHash i;
  ai_evidenceBundleHash := ai_evidenceBundleHash i; ai_evidence := evidence;
  ai_provider := ai_provider i; ai_providerRecordId := ai_providerRecordId i;
  ai_providerRevisionId := ai_providerRevisionId i |}.

Definition canonicalAnalysisInputs (inputs : list AnalysisInput) : list AnalysisInput :=
  sort_by analysis_input_leb
    (map (λ i, with_input_evidence i (canonicalEvidence (ai_evidence i))) inputs).

Definition membershipCount (inputs : list AnalysisInput) : Z :=
  foldl (λ total i, total + Z.of_nat (length (ai_evidence i))) 0 inputs.

(** [[...new Set(...)].sort()]: which of two equal strings a set keeps does not
    show after sorting. *)
Definition artifactCatalog (inputs : list AnalysisInput) : list jsstring :=
  sort_by js_leb (remove_dups (mjoin (map (λ i, map er_artifactHash (ai_evidence i)) inputs))).

Definition analysisInput (source : SourceObservation) : AnalysisInput :=
  with_input_evidence source (canonicalEvidence (ai_evidence source)).

Definition analysisInputs (sources : list SourceObservation) : list AnalysisInput :=
  canonicalAnalysisInputs (map analysisInput sources).

(** [canonicalJson(a) === canonicalJson(b)], on values that have passed a schema. *)
Definition same_json (a b : json) : bool := bool_decide (canonicalJson a = canonicalJson b).

(** ** Refinements *)

Definition validateEvidenceUniqueness (evidence : list EvidenceReference) : bool :=
  bool_decide (NoDup (map er_artifactHash evidence)).

Definition validateLegacyEvidence (value : AnalysisInput) : bool :=
  validateEvidenceUniqueness (ai_evidence value) &&
  match ai_evidence value with
  | [m] => bool_decide (er_role m = js "legacy.primary") &&
           bool_decide (er_artifactHash m = ai_primaryArtifactHash value)
  | _ => false
  end.

Definition validateV2Evidence (value : AnalysisInput) : bool :=
  validateEvidenceUniqueness (ai_evidence value) &&
  match ai_sourceKind value with
  | Kind_sec_8k | Filing =>
      forallb (λ m, bool_decide (er_role m ∈ SEC_EVIDENCE_ROLES)) (ai_evidence value) &&
      let expectedPrimaryRole := match ai_sourceKind value with
        | Kind_sec_8k => js "sec.exhibit-99.1" | _ => js "sec.primary-document" end in
      match filter (λ m, er_artifactHash m = ai_primaryArtifactHash value) (ai_evidence value) with
      | [m] => bool_decide (er_role m = expectedPrimaryRole)
      | _ => false
      end
  | _ => false
  end.

Definition validateInputCollection (inputSources : list AnalysisInput) (catalog : list jsstring)
    (canonicalRequired : bool) : bool :=
  let expectedCatalog := artifactCatalog inputSources in
  (membershipCount inputSources <=? MAX_EARNINGS_ANALYSIS_MEMBERSHIPS) &&
  bool_decide (NoDup (map ai_eventId inputSources)) &&
  bool_decide (NoDup catalog) &&
  same_json (jstrs (sort_by js_leb catalog)) (jstrs expectedCatalog) &&
  (negb canonicalRequired ||
   (same_json (jlist inputSources) (jlist (canonicalAnalysisInputs inputSources)) &&
    same_json (jstrs catalog) (jstrs expectedCatalog))).

(** The value [validateSecEvidenceBundle] is given for a persisted source. *)
Definition persisted_bundle (issuerCik fiscalPeriod : jsstring) (source : SourceObservation) : json :=
  JObj [(js "provider", JStr (ai_provider source)); (js "source", JStr (js "sec:normalizer-v1"));
        (js "recordId", JStr (ai_providerRecordId source));
        (js "revisionId", JStr (ai_providerRevisionId source));
        (js "subject", JStr (earnings_subject issuerCik fiscalPeriod));
        (js "issuerCik", JStr issuerCik); (js "fiscalPeriod", JStr fiscalPeriod);
        (js "sourceKind", jenum (ai_sourceKind source));
        (js "primaryArtifactHash", JStr (ai_primaryArtifactHash source));
        (js "evidence", jlist (ai_evidence source));
        (js "evidenceBundleHash", jnull JStr (ai_evidenceBundleHash source))].

(** [value.sources.find((candidate) => candidate.eventId === input.eventId)], and the
    test that the input is that source's. *)
Definition frozen_input (sources : list SourceObservation) (input : AnalysisInput) : bool :=
  match find (λ s, bool_decide (ai_eventId (so_input s) = ai_eventId input)) sources with
  | Some source => same_json (to_json (analysisInput source)) (to_json input)
  | None => false
  end.

Section refinements.
Context `{Sha256}.

Definition check_cluster_source (issuerCik fiscalPeriod : jsstring) (source : SourceObservation) : bool :=
  same_json (jlist (ai_evidence source)) (jlist (canonicalEvidence (ai_evidence source))) &&
  (negb (ai_eventSchemaVersion source =? 2) ||
   is_ok (validateSecEvidenceBundle (persisted_bundle issuerCik fiscalPeriod source) None)).

(** The [superRefine] of [clusterSchema]. *)
Definition check_cluster (value : EarningsCluster) : bool :=
  bool_decide (NoDup (map (λ s, ai_eventId (so_input s)) (cl_sources value))) &&
  forallb (check_cluster_source (cl_issuerCik value) (cl_fiscalPeriod value)) (cl_sources value) &&
  bool_decide (NoDup (map (λ b, rq_branchId (br_request b)) (cl_analysisBranches value))) &&
  bool_decide (NoDup (map br_jobId (cl_analysisBranches value))) &&
  forallb (λ b, forallb (frozen_input (cl_sources value)) (rq_inputSources (br_request b)))
    (cl_analysisBranches value) &&
  (foldl (λ total b, total + membershipCount (rq_inputSources (br_request b))) 0
     (cl_analysisBranches value) <=? MAX_EARNINGS_RETAINED_BRANCH_MEMBERSHIPS).

(** The [superRefine] of [stateSchema]. *)
Definition check_state (value : EarningsClusterState) : bool :=
  match es_cluster value with
  | Some cluster => bool_decide (es_aggregateId value = cl_clusterId cluster)
  | None => true
  end.
End refinements.

(** ** Schemas *)

Definition positiveSafeInteger : schema := SNumber [CInt; CPositive; CSafe].
Definition nonnegativeSafeInteger : schema := SNumber [CInt; CNonnegative; CSafe].

(** [/^\d+$/u] *)
Definition is_digits (s : jsstring) : bool := negb (bool_decide (s = [])) && all_digits s.

Definition configSchema : schema := SObject
  [(js "mirrorDebounceMs", positiveSafeInteger); (js "lifecycleMs", positiveSafeInteger);
   (js "maxSourcesPerCluster",
    SNumber [CInt; CPositive; CSafe; CNumberMax MAX_EARNINGS_CLUSTER_SOURCES]);
   (js "maxAnalysisBranches",
    SNumber [CInt; CPositive; CSafe; CNumberMax MAX_EARNINGS_ANALYSIS_BRANCHES]);
   (js "maxAnalysisResultBytes", SNumber [CInt; CPositive; CSafe; CNumberMax 10000000])].

Definition sourceKindSchema : schema := enumSchema SourceKind.

Definition timestampFields : list (jsstring * schema) :=
  [(js "publishedAtMs", SNullable nonnegativeSafeInteger);
   (js "timestampConfidence", enumSchema TimestampConfidence);
   (js "originalTimestamp", SNullable (SString [CMax 512]))].

Definition sourceObservedV1Schema : schema := SObject (
  [(js "issuerCik", SString [CRegex is_cik]); (js "fiscalPeriod", SString [CRegex FISCAL_PERIOD]);
   (js "sourceKind", sourceKindSchema); (js "artifactHash", hash)] ++ timestampFields).

Definition evidenceReferenceSchema : schema := SObject
  [(js "role", SString [CMin 1; CMax 64; CRegex ROLE]); (js "artifactHash", hash)].

Definition evidence_array : schema :=
  nonempty_array evidenceReferenceSchema MAX_EARNINGS_SOURCE_EVIDENCE_REFERENCES.

Definition sourceObservedV2Schema : schema := SObject (
  [(js "issuerCik", SString [CRegex (digits_exactly 10)]);
   (js "fiscalPeriod", SString [CRegex FISCAL_PERIOD]);
   (js "sourceKind", SEnum [js "sec_8k"; js "filing"]); (js "primaryArtifactHash", hash);
   (js "evidenceBundleHash", hash); (js "evidence", evidence_array)] ++ timestampFields).

Definition sourceRouteSchema : schema := SLoose
  [(js "issuerCik", SString [CRegex is_cik]); (js "fiscalPeriod", SString [CRegex FISCAL_PERIOD])].

Definition timerFiredSchema : schema := SObject
  [(js "timerType", enumSchema TimerType); (js "clusterId", hash); (js "jobId", hash);
   (js "scheduledForLogicalMs", nonnegativeSafeInteger); (js "fencingToken", positiveSafeInteger)].

Definition analysis_contract_fields : list (jsstring * schema) :=
  [(js "extractorVersion", nonempty_upto 256); (js "featureSetId", SNullable (nonempty_upto 256));
   (js "promptId", SNullable (nonempty_upto 256)); (js "modelId", SNullable (nonempty_upto 256));
   (js "datasetId", SNullable (nonempty_upto 256))].

Definition analysisContractSchema : schema := SObject analysis_contract_fields.

Definition job_event_fields : list (jsstring * schema) :=
  [(js "jobType", SLiteral (JStr (js "earnings.cluster.analyze"))); (js "clusterId", hash);
   (js "branchId", hash); (js "jobId", hash); (js "inputBundleHash", hash);
   (js "attempt", positiveSafeInteger); (js "fencingToken", positiveSafeInteger)].

Definition jobLeasedSchema : schema := SObject job_event_fields.
Definition jobFailedSchema : schema :=
  SObject (job_event_fields ++ [(js "errorCode", nonempty_upto 256)]).

Definition sourceProvenanceFields : list (jsstring * schema) :=
  [(js "eventId", hash); (js "eventHash", hash); (js "position", SString [CRegex is_digits]);
   (js "sourceKind", sourceKindSchema); (js "primaryArtifactHash", hash);
   (js "evidence", evidence_array); (js "provider", nonempty_upto 512);
   (js "providerRecordId", nonempty_upto 512); (js "providerRevisionId", nonempty_upto 512)].

Definition observation_fields : list (jsstring * schema) :=
  [(js "publishedAtMs", SNullable nonnegativeSafeInteger); (js "receivedAtMs", nonnegativeSafeInteger);
   (js "timestampConfidence", enumSchema TimestampConfidence);
   (js "originalTimestamp", SNullable (SString [CMax 512]))].

Definition v1_fields : list (jsstring * schema) :=
  [(js "eventSchemaVersion", SLiteral (jint 1))] ++ sourceProvenanceFields ++
  [(js "evidenceBundleHash", SNull)].
Definition v2_fields : list (jsstring * schema) :=
  [(js "eventSchemaVersion", SLiteral (jint 2))] ++ sourceProvenanceFields ++
  [(js "evidenceBundleHash", hash)].

Definition sourceObservationV1Schema : schema :=
  SRefine (SObject (v1_fields ++ observation_fields))
    (check_as SourceObservation (λ s, validateLegacyEvidence s)).
Definition sourceObservationV2Schema : schema :=
  SRefine (SObject (v2_fields ++ observation_fields))
    (check_as SourceObservation (λ s, validateV2Evidence s)).
Definition sourceObservationSchema : schema :=
  SUnion [sourceObservationV1Schema; sourceObservationV2Schema].

Definition timerExpectationSchema : schema := SObject
  [(js "timerType", enumSchema TimerType); (js "jobId", hash);
   (js "scheduledForLogicalMs", nonnegativeSafeInteger); (js "status", enumSchema TimerStatus)].

Definition analysisInputV1Schema : schema :=
  SRefine (SObject v1_fields) (check_as AnalysisInput validateLegacyEvidence).
Definition analysisInputV2Schema : schema :=
  SRefine (SObject v2_fields) (check_as AnalysisInput validateV2Evidence).
Definition analysisInputSchema : schema := SUnion [analysisInputV1Schema; analysisInputV2Schema].

Definition artifactCatalogSchema : schema := SArray hash (Some MAX_EARNINGS_ANALYSIS_ARTIFACTS).

Definition inputSources_array : schema :=
  nonempty_array analysisInputSchema MAX_EARNINGS_CLUSTER_SOURCES.

Definition request_schema_fields : list (jsstring * schema) :=
  [(js "branchId", hash); (js "phase", enumSchema BranchPhase); (js "inputBundleHash", hash);
   (js "inputSources", inputSources_array); (js "artifactCatalog", artifactCatalogSchema);
   (js "analysisContract", analysisContractSchema); (js "analysisContractHash", hash)].

Definition check_request (r : AnalysisRequest) : bool :=
  validateInputCollection (rq_inputSources r) (rq_artifactCatalog r) true.

Definition analysisJobPayloadSchema : schema :=
  SRefine (SObject ([(js "clusterId", hash)] ++ request_schema_fields))
    (check_with request_of check_request).

Definition analysisBranchSchema : schema :=
  SRefine (SObject (request_schema_fields ++
    [(js "jobId", hash); (js "status", enumSchema BranchStatus);
     (js "requestedAtMs", nonnegativeSafeInteger); (js "expectedAttempt", nonnegativeSafeInteger);
     (js "expectedFencingToken", nonnegativeSafeInteger); (js "resultEventId", SNullable hash);
     (js "resultHash", SNullable hash); (js "errorCode", SNullable (nonempty_upto 256))]))
    (check_with request_of check_request).

(** [EarningsAnalysisResultProvenance] *)
Record EarningsAnalysisResultProvenance : Type := {
  pv_contract : AnalysisContract;
  pv_analysisContractHash : jsstring;
  pv_inputSources : list AnalysisInput;
  pv_artifactCatalog : list jsstring
}.

Definition provenance_fields (p : EarningsAnalysisResultProvenance) : jobject :=
  contract_fields (pv_contract p) ++
  [(js "analysisContractHash", JStr (pv_analysisContractHash p));
   (js "inputSources", jlist (pv_inputSources p));
   (js "artifactCatalog", jstrs (pv_artifactCatalog p))].

Definition provenance_of (kvs : jobject) : option EarningsAnalysisResultProvenance :=
  c ← contract_of kvs;
  h ← get_str (js "analysisContractHash") kvs;
  i ← get_list AnalysisInput (js "inputSources") kvs;
  a ← get_strs (js "artifactCatalog") kvs;
  Some {| pv_contract := c; pv_analysisContractHash := h; pv_inputSources := i;
          pv_artifactCatalog := a |}.

Definition analysisProvenanceSchema : schema :=
  SRefine (SObject (analysis_contract_fields ++
    [(js "analysisContractHash", hash); (js "inputSources", inputSources_array);
     (js "artifactCatalog", artifactCatalogSchema)]))
    (check_with provenance_of
      (λ p, validateInputCollection (pv_inputSources p) (pv_artifactCatalog p) false)).

(** [z.record(z.string(), z.unknown())] accepts every object. *)
Definition jobSucceededSchema : schema := SObject (job_event_fields ++
  [(js "provenance", analysisProvenanceSchema); (js "result", jsonObjectSchema)]).

Section schemas.
Context `{Sha256}.

Definition clusterSchema : schema :=
  SRefine (SObject
    [(js "clusterId", hash); (js "issuerCik", SString [CRegex (digits_exactly 10)]);
     (js "fiscalPeriod", SString [CRegex FISCAL_PERIOD]); (js "status", enumSchema ClusterStatus);
     (js "firstObservedAtMs", nonnegativeSafeInteger); (js "lifecycleEndsAtMs", nonnegativeSafeInteger);
     (js "finalizedAtMs", SNullable nonnegativeSafeInteger);
     (js "sources", SArray sourceObservationSchema (Some MAX_EARNINGS_CLUSTER_SOURCES));
     (js "timers", SArray timerExpectationSchema (Some 16));
     (js "analysisBranches", SArray analysisBranchSchema (Some MAX_EARNINGS_ANALYSIS_BRANCHES))])
    (check_as EarningsCluster check_cluster).

Definition stateSchema : schema :=
  SRefine (SObject
    [(js "schemaVersion", SLiteral (jint SCHEMA_VERSION)); (js "aggregateId", nonempty_upto 512);
     (js "cluster", SNullable clusterSchema); (js "rejectionCount", nonnegativeSafeInteger)])
    (check_as EarningsClusterState check_state).
End schemas.
