(* ===== verification/EarningsReducer.v ===== *)
(** * Earnings clusters: the reducer ([src/domain/earnings-cluster/reducer.ts])

    The reducer of the engine's own domain: it opens a cluster at the first source,
    requests analyses of frozen sets of sources, paces them with two timers, and
    records for each analysis the result of the attempt that holds its lease.  A
    handler gets a private copy of the state and mutates it; here it returns the
    copy's final value. *)
From S2P Require Import Prelude JsString JsNumber Json JsonLimits JsonParse JsonClaims Hash Zod.
From S2P Require Import JsonObject Event EventFacts Codec Records Run Processing Commit Processor.
From S2P Require Import Evidence SecContracts EarningsCluster EarningsSchemas.

(** ** Transitions *)

(** [Transition<EarningsClusterState>] *)
Record ClusterTransition : Type := {
  ct_state : EarningsClusterState;
  ct_decisions : list DecisionDraft;
  ct_jobs : list JobDraft;
  ct_outbox : list OutboxDraft
}.

Definition decision (type : string) (payload : jobject) : DecisionDraft :=
  {| dd_type := js type; dd_payload := payload |}.

Definition with_cluster (state : EarningsClusterState) (cluster : EarningsCluster) :
    EarningsClusterState := {|
  es_aggregateId := es_aggregateId state; es_cluster := Some cluster;
  es_rejectionCount := es_rejectionCount state |}.

Definition with_rejection (state : EarningsClusterState) : EarningsClusterState := {|
  es_aggregateId := es_aggregateId state; es_cluster := es_cluster state;
  es_rejectionCount := es_rejectionCount state + 1 |}.

Definition rejectedWithoutStateChange (state : EarningsClusterState) (event : StoredEvent)
    (reason : string) : ClusterTransition := {|
  ct_state := state;
  ct_decisions := [decision "kernel.event.rejected"
    [(js "eventId", JStr (c_eventId event)); (js "eventType", JStr (d_type event));
     (js "reason", JStr (js reason))]];
  ct_jobs := []; ct_outbox := [] |}.

Definition rejected (state : EarningsClusterState) (event : StoredEvent) (reason : string) :
    ClusterTransition :=
  rejectedWithoutStateChange (with_rejection state) event reason.

Definition noEffects (state : EarningsClusterState) (entry : DecisionDraft) : ClusterTransition :=
  {| ct_state := state; ct_decisions := [entry]; ct_jobs := []; ct_outbox := [] |}.

(** ** Identities *)

Definition canonicalizeCik (issuerCik : jsstring) : jsstring := padStart0 10 issuerCik.

(** [/^earnings:(\d{1,10}):(\d{4}-(?:Q[1-4]|FY))$/u.exec(subject)]: the first group is
    the longest run of digits, a colon having to follow. *)
Fixpoint leading_digits (s : jsstring) : jsstring :=
  match s with u :: s => if is_digit u then u :: leading_digits s else [] | [] => [] end.

Definition subject_match (subject : jsstring) : option (jsstring * jsstring) :=
  let rest := drop 9 subject in
  let cik := leading_digits rest in
  let rest := drop (length cik) rest in
  if bool_decide (take 9 subject = js "earnings:") && is_cik cik &&
     bool_decide (take 1 rest = js ":") && FISCAL_PERIOD (drop 1 rest)
  then Some (cik, drop 1 rest) else None.

Definition subjectMatches (subject issuerCik fiscalPeriod : jsstring) : bool :=
  match subject_match subject with
  | Some (cik, period) =>
      bool_decide (canonicalizeCik cik = canonicalizeCik issuerCik) &&
      bool_decide (period = fiscalPeriod)
  | None => false
  end.

Definition phaseFor (kind : SourceKind) (isFirst : bool) : BranchPhase :=
  if isFirst then First_source
  else match kind with
  | Call | Transcript => Call_second_wave
  | Filing => Incremental_filing
  | _ => Source_confirmation
  end.

Definition isReleaseMirrorKind (kind : SourceKind) : bool :=
  match kind with Issuer_release | Fmp_release | Kind_sec_8k => true | _ => false end.

Definition expectedAnalysisContract (context : ReducerContext) : AnalysisContract := {|
  ct_extractorVersion := ri_extractorVersion (rx_identities context);
  ct_featureSetId := ri_featureSetId (rx_identities context);
  ct_promptId := ri_promptId (rx_identities context);
  ct_modelId := ri_modelId (rx_identities context);
  ct_datasetId := ri_datasetId (rx_identities context) |}.

Definition CAPACITY_ERROR : string := "AnalysisCapacityError".

Definition AnalysisCapacityError (reason : string) : exn :=
  CodedError CAPACITY_ERROR reason "analysis capacity".

(** [error instanceof AnalysisCapacityError], and [error.reason]. *)
Definition capacity_reason (e : exn) : option string :=
  match e with
  | CodedError class code _ => if String.eqb class CAPACITY_ERROR then Some code else None
  | _ => None
  end.

(** ** Boundaries *)

Definition STATE_PREFLIGHT_LIMITS : JsonLimits := {|
  maxDepth := 12; maxNodes := 100000; maxArrayLength := MAX_EARNINGS_RETAINED_BRANCH_MEMBERSHIPS;
  maxObjectKeys := 32; maxStringBytes := MAX_EARNINGS_AGGREGATE_STATE_BYTES;
  maxCanonicalBytes := MAX_EARNINGS_AGGREGATE_STATE_BYTES |}.

Definition PAYLOAD_PREFLIGHT_LIMITS : JsonLimits := {|
  maxDepth := 12; maxNodes := 20000; maxArrayLength := 10000; maxObjectKeys := 64;
  maxStringBytes := 256 * 1024; maxCanonicalBytes := 1024 * 1024 |}.

Definition inertPayload (value : jobject) : option jobject :=
  let snapshot :=
    do! assertJsonWithinLimits (JObj value) PAYLOAD_PREFLIGHT_LIMITS ;;
    inertJsonSnapshot (JObj value) in
  match snapshot with Ok (JObj kvs) => Some kvs | _ => None end.

Definition earningsClusterStateCanonicalBytes (state : EarningsClusterState) : res Z :=
  let* text := canonicalJson (to_json state) in
  Ok (byte_length text).

Definition projectedTransition (previous : EarningsClusterState) (event : StoredEvent)
    (transition : ClusterTransition) : res ClusterTransition :=
  let* bytes := earningsClusterStateCanonicalBytes (ct_state transition) in
  if bytes <=? MAX_EARNINGS_AGGREGATE_STATE_BYTES then Ok transition
  else Ok (rejectedWithoutStateChange previous event "aggregate-state-capacity-exceeded").

(** ** Payloads *)

(** What both versions of a source event carry. *)
Record SourcePayload : Type := {
  sp_issuerCik : jsstring;
  sp_fiscalPeriod : jsstring;
  sp_sourceKind : SourceKind;
  sp_artifactHash : jsstring;
  sp_evidenceBundleHash : jsstring;   (* empty in version 1 *)
  sp_evidence : list EvidenceReference;
  sp_publishedAtMs : option Z;
  sp_timestampConfidence : TimestampConfidence;
  sp_originalTimestamp : option jsstring
}.

Definition source_payload_of (version : Z) (kvs : jobject) : option SourcePayload :=
  c ← get_str (js "issuerCik") kvs;
  f ← get_str (js "fiscalPeriod") kvs;
  k ← get_enum SourceKind (js "sourceKind") kvs;
  a ← get_str (if version =? 1 then js "artifactHash" else js "primaryArtifactHash") kvs;
  h ← (if version =? 1 then Some [] else get_str (js "evidenceBundleHash") kvs);
  e ← (if version =? 1 then Some [] else get_list EvidenceReference (js "evidence") kvs);
  p ← get_null get_int (js "publishedAtMs") kvs;
  t ← get_enum TimestampConfidence (js "timestampConfidence") kvs;
  o ← get_null get_str (js "originalTimestamp") kvs;
  Some {| sp_issuerCik := c; sp_fiscalPeriod := f; sp_sourceKind := k; sp_artifactHash := a;
          sp_evidenceBundleHash := h; sp_evidence := e; sp_publishedAtMs := p;
          sp_timestampConfidence := t; sp_originalTimestamp := o |}.

Record TimerPayload : Type := {
  tp_timerType : TimerType;
  tp_clusterId : jsstring;
  tp_jobId : jsstring;
  tp_scheduledForLogicalMs : Z
}.

Definition timer_payload_of (kvs : jobject) : option TimerPayload :=
  t ← get_enum TimerType (js "timerType") kvs;
  c ← get_str (js "clusterId") kvs;
  j ← get_str (js "jobId") kvs;
  s ← get_int (js "scheduledForLogicalMs") kvs;
  Some {| tp_timerType := t; tp_clusterId := c; tp_jobId := j; tp_scheduledForLogicalMs := s |}.

(** What the lease, the success and the failure of a job have in common. *)
Record JobPayload : Type := {
  jp_clusterId : jsstring;
  jp_branchId : jsstring;
  jp_jobId : jsstring;
  jp_inputBundleHash : jsstring;
  jp_attempt : Z;
  jp_fencingToken : Z
}.

Definition job_payload_of (kvs : jobject) : option JobPayload :=
  c ← get_str (js "clusterId") kvs;
  b ← get_str (js "branchId") kvs;
  j ← get_str (js "jobId") kvs;
  h ← get_str (js "inputBundleHash") kvs;
  a ← get_int (js "attempt") kvs;
  f ← get_int (js "fencingToken") kvs;
  Some {| jp_clusterId := c; jp_branchId := b; jp_jobId := j; jp_inputBundleHash := h;
          jp_attempt := a; jp_fencingToken := f |}.

Definition failure_payload_of (kvs : jobject) : option (JobPayload * jsstring) :=
  p ← job_payload_of kvs;
  e ← get_str (js "errorCode") kvs;
  Some (p, e).

Definition success_payload_of (kvs : jobject) :
    option (JobPayload * EarningsAnalysisResultProvenance * jobject) :=
  p ← job_payload_of kvs;
  v ← get_obj (js "provenance") kvs ≫= provenance_of;
  r ← get_obj (js "result") kvs;
  Some (p, v, r).

Definition config_of (kvs : jobject) : option EarningsClusterConfig :=
  m ← get_int (js "mirrorDebounceMs") kvs;
  l ← get_int (js "lifecycleMs") kvs;
  s ← get_int (js "maxSourcesPerCluster") kvs;
  b ← get_int (js "maxAnalysisBranches") kvs;
  r ← get_int (js "maxAnalysisResultBytes") kvs;
  Some {| cf_mirrorDebounceMs := m; cf_lifecycleMs := l; cf_maxSourcesPerCluster := s;
          cf_maxAnalysisBranches := b; cf_maxAnalysisResultBytes := r |}.

Section payloads.
Context `{Zod}.

(** [schema.safeParse(snapshot)], [null] never being accepted. *)
Definition safe_parse {A} (s : schema) (read : jobject → option A) (snapshot : option jobject) :
    option A :=
  kvs ← snapshot;
  if accepts s (JObj kvs) then read kvs else None.

(** [configSchema.parse(config)]; the fields are read from [config] itself. *)
Definition read_config (config : jobject) : res EarningsClusterConfig :=
  do! parse configSchema (JObj config) ;;
  or_throw (config_of config) ZodError.
End payloads.

(** ** Updates in place *)

Definition with_sources (c : EarningsCluster) (sources : list SourceObservation) : EarningsCluster := {|
  cl_clusterId := cl_clusterId c; cl_issuerCik := cl_issuerCik c;
  cl_fiscalPeriod := cl_fiscalPeriod c; cl_status := cl_status c;
  cl_firstObservedAtMs := cl_firstObservedAtMs c; cl_lifecycleEndsAtMs := cl_lifecycleEndsAtMs c;
  cl_finalizedAtMs := cl_finalizedAtMs c; cl_sources := sources; cl_timers := cl_timers c;
  cl_analysisBranches := cl_analysisBranches c |}.

Definition with_timers (c : EarningsCluster) (timers : list TimerExpectation) : EarningsCluster := {|
  cl_clusterId := cl_clusterId c; cl_issuerCik := cl_issuerCik c;
  cl_fiscalPeriod := cl_fiscalPeriod c; cl_status := cl_status c;
  cl_firstObservedAtMs := cl_firstObservedAtMs c; cl_lifecycleEndsAtMs := cl_lifecycleEndsAtMs c;
  cl_finalizedAtMs := cl_finalizedAtMs c; cl_sources := cl_sources c; cl_timers := timers;
  cl_analysisBranches := cl_analysisBranches c |}.

Definition with_branches (c : EarningsCluster) (branches : list AnalysisBranch) : EarningsCluster := {|
  cl_clusterId := cl_clusterId c; cl_issuerCik := cl_issuerCik c;
  cl_fiscalPeriod := cl_fiscalPeriod c; cl_status := cl_status c;
  cl_firstObservedAtMs := cl_firstObservedAtMs c; cl_lifecycleEndsAtMs := cl_lifecycleEndsAtMs c;
  cl_finalizedAtMs := cl_finalizedAtMs c; cl_sources := cl_sources c; cl_timers := cl_timers c;
  cl_analysisBranches := branches |}.

Definition finalized (c : EarningsCluster) (nowMs : Z) : EarningsCluster := {|
  cl_clusterId := cl_clusterId c; cl_issuerCik := cl_issuerCik c;
  cl_fiscalPeriod := cl_fiscalPeriod c; cl_status := Cluster_finalized;
  cl_firstObservedAtMs := cl_firstObservedAtMs c; cl_lifecycleEndsAtMs := cl_lifecycleEndsAtMs c;
  cl_finalizedAtMs := Some nowMs; cl_sources := cl_sources c; cl_timers := cl_timers c;
  cl_analysisBranches := cl_analysisBranches c |}.

(** [timer.jobId = jobId], [timer.status = "fired"] *)
Definition timer_rescheduled (jobId : jsstring) (t : TimerExpectation) : TimerExpectation := {|
  tm_timerType := tm_timerType t; tm_jobId := jobId;
  tm_scheduledForLogicalMs := tm_scheduledForLogicalMs t; tm_status := tm_status t |}.
Definition timer_fired (t : TimerExpectation) : TimerExpectation := {|
  tm_timerType := tm_timerType t; tm_jobId := tm_jobId t;
  tm_scheduledForLogicalMs := tm_scheduledForLogicalMs t; tm_status := Timer_fired |}.

Definition branch_succeeded (eventId resultHash : jsstring) (b : AnalysisBranch) : AnalysisBranch := {|
  br_request := br_request b; br_jobId := br_jobId b; br_status := Branch_succeeded;
  br_requestedAtMs := br_requestedAtMs b; br_expectedAttempt := br_expectedAttempt b;
  br_expectedFencingToken := br_expectedFencingToken b; br_resultEventId := Some eventId;
  br_resultHash := Some resultHash; br_errorCode := br_errorCode b |}.

Definition branch_failed (eventId errorCode : jsstring) (b : AnalysisBranch) : AnalysisBranch := {|
  br_request := br_request b; br_jobId := br_jobId b; br_status := Branch_failed;
  br_requestedAtMs := br_requestedAtMs b; br_expectedAttempt := br_expectedAttempt b;
  br_expectedFencingToken := br_expectedFencingToken b; br_resultEventId := Some eventId;
  br_resultHash := br_resultHash b; br_errorCode := Some errorCode |}.

Definition branch_leased (attempt fencingToken : Z) (b : AnalysisBranch) : AnalysisBranch := {|
  br_request := br_request b; br_jobId := br_jobId b; br_status := br_status b;
  br_requestedAtMs := br_requestedAtMs b; br_expectedAttempt := attempt;
  br_expectedFencingToken := fencingToken; br_resultEventId := br_resultEventId b;
  br_resultHash := br_resultHash b; br_errorCode := br_errorCode b |}.

Definition is_timer (t : TimerType) (timer : TimerExpectation) : bool :=
  bool_decide (tm_timerType timer = t).
Definition is_branch (id : jsstring) (b : AnalysisBranch) : bool :=
  bool_decide (rq_branchId b = id).

(** ** Drafts *)

Section drafts.
Context `{Sha256} `{Zod}.

Definition deriveClusterId (issuerCik fiscalPeriod : jsstring) : res jsstring :=
  canonicalHash (js "peas/earnings-cluster-id/v2") (JObj
    [(js "issuerCik", JStr (canonicalizeCik issuerCik)); (js "fiscalPeriod", JStr fiscalPeriod)]).

Definition analysisContractHash (contract : AnalysisContract) : res jsstring :=
  canonicalHash (js "peas/earnings-analysis-contract/v1") (to_json contract).

Definition inputBundleHash (cluster : EarningsCluster) (phase : BranchPhase)
    (inputs : list AnalysisInput) (artifacts : list jsstring) (contractHash : jsstring) : res jsstring :=
  canonicalHash (js "peas/earnings-analysis-input-bundle/v3") (JObj
    [(js "clusterId", JStr (cl_clusterId cluster)); (js "issuerCik", JStr (cl_issuerCik cluster));
     (js "fiscalPeriod", JStr (cl_fiscalPeriod cluster)); (js "phase", jenum phase);
     (js "analysisContractHash", JStr contractHash); (js "sources", jlist inputs);
     (js "artifactCatalog", jstrs artifacts)]).

Definition timer_dedupeKey (clusterId : jsstring) (timerType : TimerType)
    (recoveryEventId : option jsstring) : jsstring :=
  let base := js "timer:" ++ enum_name timerType ++ js ":" ++ clusterId in
  match recoveryEventId with
  | None => base
  | Some eventId => base ++ js ":recovery:" ++ eventId
  end.

Definition timerDraft (runId clusterId : jsstring) (timerType : TimerType) (dueAtMs : Z)
    (recoveryEventId : option jsstring) : res (TimerExpectation * JobDraft) :=
  let payload := [(js "clusterId", JStr clusterId); (js "timerType", jenum timerType);
    (js "scheduledForLogicalMs", jint dueAtMs)] in
  let dedupeKey := timer_dedupeKey clusterId timerType recoveryEventId in
  let* inputHash := canonicalHash (js "peas/timer-input-bundle/v2") (JObj payload) in
  let* jobId := deriveJobId runId dedupeKey payload in
  Ok ({| tm_timerType := timerType; tm_jobId := jobId; tm_scheduledForLogicalMs := dueAtMs;
         tm_status := Timer_pending |},
      {| jd_jobId := jobId; jd_type := js "kernel.timer"; jd_dedupeKey := dedupeKey;
         jd_notBeforeLogicalMs := NInt dueAtMs; jd_inputBundleHash := inputHash;
         jd_payload := payload |}).

(** [EarningsAnalysisJobPayload] *)
Definition analysis_payload (clusterId : jsstring) (request : AnalysisRequest) : jobject :=
  (js "clusterId", JStr clusterId) :: request_fields request.

Definition analysisDraft (runId : jsstring) (cluster : EarningsCluster) (phase : BranchPhase)
    (nowMs : Z) (contract : AnalysisContract) : res (AnalysisBranch * JobDraft) :=
  let inputs := analysisInputs (cl_sources cluster) in
  let artifacts := artifactCatalog inputs in
  guard! MAX_EARNINGS_ANALYSIS_MEMBERSHIPS <? membershipCount inputs
    throws AnalysisCapacityError "analysis-membership-limit-exceeded" ;;
  guard! MAX_EARNINGS_ANALYSIS_ARTIFACTS <? Z.of_nat (length artifacts)
    throws AnalysisCapacityError "analysis-artifact-limit-exceeded" ;;
  let* contractHash := analysisContractHash contract in
  let* bundleHash := inputBundleHash cluster phase inputs artifacts contractHash in
  let* branchId := canonicalHash (js "peas/analysis-branch-id/v3") (JObj
    [(js "clusterId", JStr (cl_clusterId cluster)); (js "phase", jenum phase);
     (js "inputBundleHash", JStr bundleHash)]) in
  let request := {| rq_branchId := branchId; rq_phase := phase; rq_inputBundleHash := bundleHash;
    rq_inputSources := inputs; rq_artifactCatalog := artifacts; rq_analysisContract := contract;
    rq_analysisContractHash := contractHash |} in
  let payload := analysis_payload (cl_clusterId cluster) request in
  do! parse analysisJobPayloadSchema (JObj payload) ;;
  let dedupeKey := js "analysis:" ++ branchId in
  let* jobId := deriveJobId runId dedupeKey payload in
  Ok ({| br_request := request; br_jobId := jobId; br_status := Branch_pending;
         br_requestedAtMs := nowMs; br_expectedAttempt := 0; br_expectedFencingToken := 0;
         br_resultEventId := None; br_resultHash := None; br_errorCode := None |},
      {| jd_jobId := jobId; jd_type := js "earnings.cluster.analyze"; jd_dedupeKey := dedupeKey;
         jd_notBeforeLogicalMs := NInt nowMs; jd_inputBundleHash := bundleHash;
         jd_payload := payload |}).

(** ** The evidence of a source *)

(** What the checks on an event's provenance decide: the bundle hash and evidence to
    store, or a reason to reject, with whether the rejection is counted. *)
Inductive EvidenceVerdict : Type :=
  | Evidence_stored (evidenceBundleHash : option jsstring) (evidence : list EvidenceReference)
  | Evidence_rejected (counted : bool) (reason : string).

Definition expectedRecordSuffix (kind : SourceKind) : jsstring :=
  if bool_decide (kind = Kind_sec_8k) then js "earnings-source-v2" else js "periodic-source-v2".

Definition source_identity_mismatch (event : StoredEvent) (v2 : SourcePayload) : bool :=
  negb (bool_decide (p_provider (d_provider event) = js "sec-edgar")) ||
  negb (bool_decide (d_source event = js "sec:normalizer-v1")) ||
  negb (bool_decide (p_revisionId (d_provider event) = js "1")) ||
  negb (bool_decide (snd <$> record_match (p_recordId (d_provider event)) =
    Some (expectedRecordSuffix (sp_sourceKind v2)))) ||
  negb (bool_decide (d_subject event = earnings_subject (sp_issuerCik v2) (sp_fiscalPeriod v2))) ||
  negb (bool_decide (d_correlationId event = d_subject event)) ||
  negb (bool_decide (d_causationId event = Some (sp_evidenceBundleHash v2))).

Definition bundleInput (event : StoredEvent) (v2 : SourcePayload) : jobject :=
  [(js "provider", JStr (p_provider (d_provider event))); (js "source", JStr (d_source event));
   (js "recordId", JStr (p_recordId (d_provider event)));
   (js "revisionId", JStr (p_revisionId (d_provider event)));
   (js "subject", JStr (d_subject event)); (js "issuerCik", JStr (sp_issuerCik v2));
   (js "fiscalPeriod", JStr (sp_fiscalPeriod v2)); (js "sourceKind", jenum (sp_sourceKind v2));
   (js "primaryArtifactHash", JStr (sp_artifactHash v2));
   (js "evidence", jlist (sp_evidence v2))].

Definition v1_evidence (event : StoredEvent) (payload : SourcePayload) : EvidenceVerdict :=
  if subjectMatches (d_subject event) (canonicalizeCik (sp_issuerCik payload)) (sp_fiscalPeriod payload)
  then Evidence_stored None [{| er_role := js "legacy.primary"; er_artifactHash := sp_artifactHash payload |}]
  else Evidence_rejected true "subject-identity-mismatch".

Definition sec_reason (e : exn) : string :=
  match sec_error_code e with
  | Some code =>
      if String.eqb code "sec.bundle-hash-mismatch" then "evidence-bundle-hash-mismatch"
      else if String.eqb code "sec.identity-mismatch" then "source-identity-mismatch"
      else if String.eqb code "sec.member-limit-exceeded" then "source-evidence-limit-exceeded"
      else "source-evidence-invalid"
  | None => "source-evidence-invalid"
  end.

Definition v2_evidence (event : StoredEvent) (v2 : SourcePayload) : EvidenceVerdict :=
  if source_identity_mismatch event v2 then Evidence_rejected true "source-identity-mismatch"
  else
    let input := bundleInput event v2 in
    match computeProviderEvidenceBundleHash (JObj input) with
    | Throw error => Evidence_rejected false
        (if bool_decide (bundle_error_code error = Some "member-limit-exceeded"%string)
         then "source-evidence-limit-exceeded" else "source-evidence-invalid")
    | Ok recomputed =>
        if negb (bool_decide (recomputed = sp_evidenceBundleHash v2))
        then Evidence_rejected false "evidence-bundle-hash-mismatch"
        else match validateSecEvidenceBundle (JObj (input ++
            [(js "evidenceBundleHash", JStr (sp_evidenceBundleHash v2))])) None with
        | Ok bundle => Evidence_stored (Some (sp_evidenceBundleHash v2)) (bi_evidence bundle)
        | Throw error => Evidence_rejected false (sec_reason error)
        end
    end.

(** ** Sources *)

Definition new_source (event : StoredEvent) (payload : SourcePayload)
    (evidenceBundleHash : option jsstring) (evidence : list EvidenceReference) : SourceObservation := {|
  so_input := {| ai_eventSchemaVersion := d_schemaVersion event; ai_eventId := c_eventId event;
    ai_eventHash := s_eventHash event; ai_position := s_position event;
    ai_sourceKind := sp_sourceKind payload; ai_primaryArtifactHash := sp_artifactHash payload;
    ai_evidenceBundleHash := evidenceBundleHash; ai_evidence := canonicalEvidence evidence;
    ai_provider := p_provider (d_provider event); ai_providerRecordId := p_recordId (d_provider event);
    ai_providerRevisionId := p_revisionId (d_provider event) |};
  so_publishedAtMs := sp_publishedAtMs payload; so_receivedAtMs := c_receivedAtMs event;
  so_timestampConfidence := sp_timestampConfidence payload;
  so_originalTimestamp := sp_originalTimestamp payload |}.

(** The sum of two safe integers is safe exactly when its double is. *)
Definition first_source (state : EarningsClusterState) (event : StoredEvent) (context : ReducerContext)
    (config : EarningsClusterConfig) (clusterId issuerCik fiscalPeriod : jsstring)
    (source : SourceObservation) : res ClusterTransition :=
  let nowMs := rx_nowMs context in
  let lifecycleEndsAtMs := nowMs + cf_lifecycleMs config in
  let mirrorEndsAtMs := nowMs + cf_mirrorDebounceMs config in
  if negb (is_safe_integer lifecycleEndsAtMs) || negb (is_safe_integer mirrorEndsAtMs)
  then Ok (rejected state event "deadline-overflow")
  else
    let cluster := {| cl_clusterId := clusterId; cl_issuerCik := issuerCik;
      cl_fiscalPeriod := fiscalPeriod; cl_status := Cluster_open; cl_firstObservedAtMs := nowMs;
      cl_lifecycleEndsAtMs := lifecycleEndsAtMs; cl_finalizedAtMs := None; cl_sources := [source];
      cl_timers := []; cl_analysisBranches := [] |} in
    let* (mirror, mirrorJob) :=
      timerDraft (rx_runId context) clusterId Mirror_debounce mirrorEndsAtMs None in
    let* (lifecycle, lifecycleJob) :=
      timerDraft (rx_runId context) clusterId Lifecycle_finalize lifecycleEndsAtMs None in
    let* (branch, analysisJob) := analysisDraft (rx_runId context) cluster First_source nowMs
      (expectedAnalysisContract context) in
    let cluster := with_branches (with_timers cluster [mirror; lifecycle]) [branch] in
    let firstSourcePayload := [(js "clusterId", JStr clusterId); (js "issuerCik", JStr issuerCik);
      (js "fiscalPeriod", JStr fiscalPeriod); (js "sourceEventId", JStr (c_eventId event));
      (js "inputBundleHash", JStr (rq_inputBundleHash branch))] in
    let dedupeKey := js "first-source:" ++ clusterId in
    let* messageId := deriveMessageId (rx_runId context) dedupeKey firstSourcePayload in
    Ok {| ct_state := with_cluster state cluster;
          ct_decisions := [decision "earnings.cluster.first-source-ready" firstSourcePayload];
          ct_jobs := [mirrorJob; lifecycleJob; analysisJob];
          ct_outbox := [{| od_messageId := messageId;
            od_topic := js "earnings.cluster.first-source-ready"; od_dedupeKey := dedupeKey;
            od_payload := firstSourcePayload |}] |}.

(** [mirrorTimer] while it still holds back mirrors of a release. *)
Definition debouncing_timer (cluster : EarningsCluster) (source : SourceObservation) (nowMs : Z) :
    option TimerExpectation :=
  timer ← find (is_timer Mirror_debounce) (cl_timers cluster);
  if isReleaseMirrorKind (ai_sourceKind source) &&
     existsb (λ s, isReleaseMirrorKind (ai_sourceKind (so_input s))) (cl_sources cluster) &&
     bool_decide (tm_status timer = Timer_pending) && (nowMs <? tm_scheduledForLogicalMs timer)
  then Some timer else None.

Definition same_artifact (source candidate : SourceObservation) : bool :=
  bool_decide (ai_primaryArtifactHash candidate = ai_primaryArtifactHash source) &&
  bool_decide (ai_evidenceBundleHash candidate = ai_evidenceBundleHash source).

(** A source that joins a cluster and asks for an analysis of its own. *)
Definition source_analysed (state : EarningsClusterState) (event : StoredEvent)
    (context : ReducerContext) (config : EarningsClusterConfig) (cluster : EarningsCluster)
    (source : SourceObservation) : res ClusterTransition :=
  let clusterId := cl_clusterId cluster in
  let phase := phaseFor (ai_sourceKind source) false in
  if cf_maxAnalysisBranches config <=? Z.of_nat (length (cl_analysisBranches cluster))
  then Ok (rejectedWithoutStateChange state event "analysis-branch-limit-exceeded")
  else
    let joined := with_sources cluster (cl_sources cluster ++ [source]) in
    match analysisDraft (rx_runId context) joined phase (rx_nowMs context)
            (expectedAnalysisContract context) with
    | Throw error =>
        match capacity_reason error with
        | Some reason => Ok (rejectedWithoutStateChange state event reason)
        | None => Throw error
        end
    | Ok (branch, job) =>
        if existsb (is_branch (rq_branchId branch)) (cl_analysisBranches joined)
        then Ok (noEffects (with_cluster state joined) (decision "earnings.analysis-branch-duplicate"
          [(js "clusterId", JStr clusterId); (js "branchId", JStr (rq_branchId branch))]))
        else Ok {|
          ct_state := with_cluster state
            (with_branches joined (cl_analysisBranches joined ++ [branch]));
          ct_decisions := [decision "earnings.source.joined"
            [(js "clusterId", JStr clusterId); (js "sourceEventId", JStr (c_eventId event));
             (js "sourceKind", jenum (ai_sourceKind source));
             (js "branchId", JStr (rq_branchId branch))]];
          ct_jobs := [job]; ct_outbox := [] |}
    end.

(** A source after the first one. *)
Definition later_source (state : EarningsClusterState) (event : StoredEvent) (context : ReducerContext)
    (config : EarningsClusterConfig) (clusterId : jsstring) (cluster : EarningsCluster)
    (source : SourceObservation) : res ClusterTransition :=
  let sourceEventId := (js "sourceEventId", JStr (c_eventId event)) in
  let joined := with_sources cluster (cl_sources cluster ++ [source]) in
  if negb (bool_decide (cl_clusterId cluster = clusterId))
  then Ok (rejected state event "cluster-identity-mismatch")
  else if bool_decide (cl_status cluster = Cluster_finalized) ||
     (cl_lifecycleEndsAtMs cluster <=? rx_nowMs context)
  then Ok (noEffects state (decision "earnings.source.after-lifecycle"
    [(js "clusterId", JStr clusterId); sourceEventId;
     (js "lifecycleEndsAtMs", jint (cl_lifecycleEndsAtMs cluster))]))
  else if cf_maxSourcesPerCluster config <=? Z.of_nat (length (cl_sources cluster))
  then Ok (rejectedWithoutStateChange state event "cluster-source-limit-exceeded")
  else match find (same_artifact source) (cl_sources cluster) with
  | Some matchingArtifact =>
      Ok (noEffects (with_cluster state joined) (decision "earnings.source.mirror-duplicate"
        [(js "clusterId", JStr clusterId); sourceEventId;
         (js "canonicalSourceEventId", JStr (ai_eventId matchingArtifact));
         (js "primaryArtifactHash", JStr (ai_primaryArtifactHash source));
         (js "evidenceBundleHash", jnull JStr (ai_evidenceBundleHash source));
         (js "provider", JStr (ai_provider source));
         (js "providerRecordId", JStr (ai_providerRecordId source));
         (js "providerRevisionId", JStr (ai_providerRevisionId source))]))
  | None =>
      match debouncing_timer cluster source (rx_nowMs context) with
      | Some mirrorTimer =>
          Ok (noEffects (with_cluster state joined) (decision "earnings.source.mirror-debounced"
            [(js "clusterId", JStr clusterId); sourceEventId;
             (js "sourceKind", jenum (ai_sourceKind source));
             (js "mirrorWindowEndsAtMs", jint (tm_scheduledForLogicalMs mirrorTimer))]))
      | None => source_analysed state event context config cluster source
      end
  end.

Definition too_much_evidence (event : StoredEvent) (snapshot : jobject) : bool :=
  (d_schemaVersion event =? 2) &&
  match lookup_key (js "evidence") snapshot with
  | Some (JArr l) => MAX_EARNINGS_SOURCE_EVIDENCE_REFERENCES <? Z.of_nat (length l)
  | _ => false
  end.

Definition sourceObserved (state : EarningsClusterState) (event : StoredEvent)
    (context : ReducerContext) (config : EarningsClusterConfig) : res ClusterTransition :=
  match inertPayload (d_payload event) with
  | None => Ok (rejected state event "invalid-source-payload")
  | Some snapshot =>
    if too_much_evidence event snapshot
    then Ok (rejectedWithoutStateChange state event "source-evidence-limit-exceeded")
    else
    let version := d_schemaVersion event in
    match safe_parse (if version =? 1 then sourceObservedV1Schema else sourceObservedV2Schema)
            (source_payload_of version) (Some snapshot) with
    | None => Ok (rejected state event "invalid-source-payload")
    | Some payload =>
      let issuerCik := canonicalizeCik (sp_issuerCik payload) in
      let* clusterId := deriveClusterId issuerCik (sp_fiscalPeriod payload) in
      if negb (bool_decide (es_aggregateId state = clusterId))
      then Ok (rejected state event "aggregate-route-mismatch")
      else if negb (bool_decide (sp_artifactHash payload = p_artifactHash (d_provider event)))
      then Ok (rejected state event "artifact-provenance-mismatch")
      else match (if version =? 1 then v1_evidence event payload else v2_evidence event payload) with
      | Evidence_rejected true reason => Ok (rejected state event reason)
      | Evidence_rejected false reason => Ok (rejectedWithoutStateChange state event reason)
      | Evidence_stored evidenceBundleHash evidence =>
          let source := new_source event payload evidenceBundleHash evidence in
          match es_cluster state with
          | None => first_source state event context config clusterId issuerCik
              (sp_fiscalPeriod payload) source
          | Some cluster => later_source state event context config clusterId cluster source
          end
      end
    end
  end.

(** ** Timers *)

(** The end of the mirror window, [cluster] having its timer marked as fired. *)
Definition mirror_window_complete (state : EarningsClusterState) (context : ReducerContext)
    (config : EarningsClusterConfig) (cluster : EarningsCluster) : res ClusterTransition :=
  let state' := with_cluster state cluster in
  let clusterId := (js "clusterId", JStr (cl_clusterId cluster)) in
  let currentInputs := analysisInputs (cl_sources cluster) in
  let currentArtifacts := artifactCatalog currentInputs in
  let* inputsAlreadyRepresented := res_some (λ b,
    let* inputs := same_text (jlist (rq_inputSources (br_request b))) (jlist currentInputs) in
    if inputs : bool
    then same_text (jstrs (rq_artifactCatalog (br_request b))) (jstrs currentArtifacts)
    else Ok false) (cl_analysisBranches cluster) in
  let windowComplete := decision "earnings.cluster.mirror-window-complete"
    [clusterId; (js "sourceCount", jint (Z.of_nat (length (cl_sources cluster))));
     (js "uniqueArtifactCount", jint (Z.of_nat (length currentArtifacts)))] in
  if inputsAlreadyRepresented : bool then Ok (noEffects state' windowComplete)
  else
    let capacityFallback := {| ct_state := state';
      ct_decisions := [windowComplete; decision "earnings.analysis.capacity-exhausted"
        [clusterId; (js "phase", jenum Source_confirmation)]];
      ct_jobs := []; ct_outbox := [] |} in
    if cf_maxAnalysisBranches config <=? Z.of_nat (length (cl_analysisBranches cluster))
    then Ok capacityFallback
    else match analysisDraft (rx_runId context) cluster Source_confirmation (rx_nowMs context)
                 (expectedAnalysisContract context) with
    | Throw error =>
        match capacity_reason error with Some _ => Ok capacityFallback | None => Throw error end
    | Ok (branch, job) =>
        let state'' := with_cluster state
          (with_branches cluster (cl_analysisBranches cluster ++ [branch])) in
        let* bytes := earningsClusterStateCanonicalBytes state'' in
        if MAX_EARNINGS_AGGREGATE_STATE_BYTES <? bytes then Ok capacityFallback
        else Ok {| ct_state := state'';
          ct_decisions := [windowComplete; decision "earnings.analysis.debounce-batch-ready"
            [clusterId; (js "branchId", JStr (rq_branchId branch));
             (js "inputBundleHash", JStr (rq_inputBundleHash branch))]];
          ct_jobs := [job]; ct_outbox := [] |}
    end.

(** A timer that fired before its time asks for another one. *)
Definition timer_early (state : EarningsClusterState) (event : StoredEvent) (context : ReducerContext)
    (cluster : EarningsCluster) (timer : TimerExpectation) (payload : TimerPayload) :
    res ClusterTransition :=
  let* (expectation, job) := timerDraft (rx_runId context) (cl_clusterId cluster)
    (tm_timerType timer) (tm_scheduledForLogicalMs timer) (Some (c_eventId event)) in
  Ok {| ct_state := with_cluster state (with_timers cluster
          (update_first (is_timer (tp_timerType payload))
             (timer_rescheduled (tm_jobId expectation)) (cl_timers cluster)));
        ct_decisions := [decision "kernel.timer.early-rescheduled"
          [(js "clusterId", JStr (cl_clusterId cluster)); (js "timerType", jenum (tm_timerType timer));
           (js "consumedJobId", JStr (tp_jobId payload));
           (js "replacementJobId", JStr (jd_jobId job));
           (js "scheduledForLogicalMs", jint (tm_scheduledForLogicalMs timer))]];
        ct_jobs := [job]; ct_outbox := [] |}.

Definition timerFired (state : EarningsClusterState) (event : StoredEvent) (context : ReducerContext)
    (config : EarningsClusterConfig) : res ClusterTransition :=
  match safe_parse timerFiredSchema timer_payload_of (inertPayload (d_payload event)) with
  | None => Ok (rejected state event "invalid-timer-payload")
  | Some payload =>
    match es_cluster state with
    | None => Ok (rejected state event "timer-cluster-mismatch")
    | Some cluster =>
      let clusterId := (js "clusterId", JStr (cl_clusterId cluster)) in
      if negb (bool_decide (cl_clusterId cluster = tp_clusterId payload))
      then Ok (rejected state event "timer-cluster-mismatch")
      else match find (is_timer (tp_timerType payload)) (cl_timers cluster) with
      | None => Ok (rejected state event "timer-not-requested")
      | Some timer =>
        if negb (bool_decide (tm_jobId timer = tp_jobId payload)) ||
           negb (tm_scheduledForLogicalMs timer =? tp_scheduledForLogicalMs payload) ||
           negb (bool_decide (d_causationId event = Some (tp_jobId payload)))
        then Ok (noEffects state (decision "kernel.timer.stale"
          [clusterId; (js "timerType", jenum (tm_timerType timer));
           (js "receivedJobId", JStr (tp_jobId payload));
           (js "expectedJobId", JStr (tm_jobId timer));
           (js "expectedScheduledForLogicalMs", jint (tm_scheduledForLogicalMs timer))]))
        else if bool_decide (tm_status timer = Timer_fired)
        then Ok (noEffects state (decision "kernel.timer.duplicate"
          [clusterId; (js "jobId", JStr (tm_jobId timer))]))
        else if rx_nowMs context <? tm_scheduledForLogicalMs timer
        then timer_early state event context cluster timer payload
        else
          let fired := with_timers cluster
            (update_first (is_timer (tp_timerType payload)) timer_fired (cl_timers cluster)) in
          match tm_timerType timer with
          | Mirror_debounce => mirror_window_complete state context config fired
          | Lifecycle_finalize =>
              Ok (noEffects (with_cluster state (finalized fired (rx_nowMs context)))
                (decision "earnings.cluster.finalized"
                  [clusterId; (js "sourceCount", jint (Z.of_nat (length (cl_sources cluster))));
                   (js "analysisBranchCount",
                    jint (Z.of_nat (length (cl_analysisBranches cluster))))]))
          end
      end
    end
  end.

(** ** Jobs *)

(** The branch a job event is about, or the reason there is none. *)
Definition find_branch (state : EarningsClusterState) (payload : JobPayload) :
    (EarningsCluster * AnalysisBranch) + string :=
  match es_cluster state with
  | None => inr "analysis-cluster-mismatch"%string
  | Some cluster =>
      if negb (bool_decide (cl_clusterId cluster = jp_clusterId payload))
      then inr "analysis-cluster-mismatch"%string
      else match find (is_branch (jp_branchId payload)) (cl_analysisBranches cluster) with
      | None => inr "analysis-branch-not-requested"%string
      | Some branch => inl (cluster, branch)
      end
  end.

(** The job is the branch's, and the event was caused by it. *)
Definition job_matches (event : StoredEvent) (branch : AnalysisBranch) (payload : JobPayload) : bool :=
  bool_decide (br_jobId branch = jp_jobId payload) &&
  bool_decide (rq_inputBundleHash branch = jp_inputBundleHash payload) &&
  bool_decide (d_causationId event = Some (jp_jobId payload)).

(** So are the attempt and the fencing token. *)
Definition lease_matches (branch : AnalysisBranch) (payload : JobPayload) : bool :=
  (br_expectedAttempt branch =? jp_attempt payload) &&
  (br_expectedFencingToken branch =? jp_fencingToken payload).

(** [branch], mutated inside the cluster. *)
Definition update_branch (state : EarningsClusterState) (cluster : EarningsCluster) (branchId : jsstring)
    (f : AnalysisBranch → AnalysisBranch) : EarningsClusterState :=
  with_cluster state (with_branches cluster
    (update_first (is_branch branchId) f (cl_analysisBranches cluster))).

Definition branch_decision (type : string) (cluster : EarningsCluster) (branch : AnalysisBranch)
    (more : jobject) : DecisionDraft :=
  decision type ((js "clusterId", JStr (cl_clusterId cluster)) ::
    (js "branchId", JStr (rq_branchId branch)) :: more).

(** The provenance a worker submits, against what its branch froze. *)
Inductive ProvenanceVerdict : Type :=
  | Provenance_ok (canonical : EarningsAnalysisResultProvenance)
  | Provenance_rejected (reason : string).

Definition check_provenance (context : ReducerContext) (branch : AnalysisBranch)
    (provenance : EarningsAnalysisResultProvenance) : res ProvenanceVerdict :=
  let runContract := expectedAnalysisContract context in
  let* same_contract := same_text (to_json (rq_analysisContract branch)) (to_json runContract) in
  let* run_hash := (if same_contract : bool then Some <$> analysisContractHash runContract
                    else Ok None) in
  if negb (bool_decide (run_hash = Some (rq_analysisContractHash branch)))
  then Ok (Provenance_rejected "analysis-branch-contract-mismatch")
  else
    let submittedContract := pv_contract provenance in
    let* same_submitted := same_text (to_json submittedContract) (to_json (rq_analysisContract branch)) in
    let* hashes :=
      (if same_submitted && bool_decide (pv_analysisContractHash provenance = rq_analysisContractHash branch)
       then
         let* submitted := analysisContractHash submittedContract in
         let* stored := analysisContractHash (rq_analysisContract branch) in
         Ok (bool_decide (submitted = rq_analysisContractHash branch) &&
             bool_decide (stored = rq_analysisContractHash branch))
       else Ok false) in
    if negb (hashes : bool) then Ok (Provenance_rejected "analysis-contract-mismatch")
    else
      let submittedInputs := canonicalAnalysisInputs (pv_inputSources provenance) in
      let submittedArtifacts := sort_by js_leb (pv_artifactCatalog provenance) in
      let* same_inputs := same_text (jlist submittedInputs) (jlist (rq_inputSources branch)) in
      let* same_artifacts :=
        (if same_inputs : bool
         then same_text (jstrs submittedArtifacts) (jstrs (rq_artifactCatalog branch))
         else Ok false) in
      if negb (same_artifacts : bool) then Ok (Provenance_rejected "analysis-input-set-mismatch")
      else Ok (Provenance_ok {| pv_contract := submittedContract;
        pv_analysisContractHash := pv_analysisContractHash provenance;
        pv_inputSources := submittedInputs; pv_artifactCatalog := submittedArtifacts |}).

Definition result_hash (result : jobject) (provenance : EarningsAnalysisResultProvenance)
    (payload : JobPayload) : res jsstring :=
  canonicalHash (js "peas/analysis-result/v3") (JObj
    [(js "result", JObj result); (js "provenance", JObj (provenance_fields provenance));
     (js "attempt", jint (jp_attempt payload)); (js "fencingToken", jint (jp_fencingToken payload))]).

Definition duplicate_result (state : EarningsClusterState) (cluster : EarningsCluster)
    (branch : AnalysisBranch) : ClusterTransition :=
  noEffects state (branch_decision "earnings.analysis-result-duplicate" cluster branch []).

(** The result is recorded and announced. *)
Definition record_success (state : EarningsClusterState) (event : StoredEvent) (context : ReducerContext)
    (cluster : EarningsCluster) (branch : AnalysisBranch) (payload : JobPayload)
    (provenance : EarningsAnalysisResultProvenance) (result : jobject) : res ClusterTransition :=
  let* resultHash := result_hash result provenance payload in
  let completedPayload := [(js "clusterId", JStr (cl_clusterId cluster));
    (js "branchId", JStr (rq_branchId branch)); (js "jobId", JStr (br_jobId branch));
    (js "inputBundleHash", JStr (rq_inputBundleHash branch)); (js "resultHash", JStr resultHash)] in
  let dedupeKey := js "analysis-completed:" ++ rq_branchId branch in
  let* messageId := deriveMessageId (rx_runId context) dedupeKey completedPayload in
  Ok {| ct_state := update_branch state cluster (jp_branchId payload)
          (branch_succeeded (c_eventId event) resultHash);
        ct_decisions := [decision "earnings.analysis.succeeded" completedPayload]; ct_jobs := [];
        ct_outbox := [{| od_messageId := messageId; od_topic := js "earnings.analysis.completed";
          od_dedupeKey := dedupeKey; od_payload := completedPayload |}] |}.

Definition jobSucceeded (state : EarningsClusterState) (event : StoredEvent) (context : ReducerContext)
    (config : EarningsClusterConfig) : res ClusterTransition :=
  match safe_parse jobSucceededSchema success_payload_of (inertPayload (d_payload event)) with
  | None => Ok (rejected state event "invalid-job-success-payload")
  | Some (payload, provenance, result) =>
    do! assertJson (JObj result) ;;
    let* text := canonicalJson (JObj result) in
    if cf_maxAnalysisResultBytes config <? byte_length text
    then Ok (rejected state event "analysis-result-too-large")
    else match find_branch state payload with
    | inr reason => Ok (rejected state event reason)
    | inl (cluster, branch) =>
      if negb (job_matches event branch payload && lease_matches branch payload)
      then Ok (rejected state event "analysis-provenance-mismatch")
      else if negb (bool_decide (br_status branch = Branch_pending))
      then Ok (duplicate_result state cluster branch)
      else
        let* verdict := check_provenance context branch provenance in
        match verdict with
        | Provenance_rejected reason => Ok (rejected state event reason)
        | Provenance_ok canonical =>
            record_success state event context cluster branch payload canonical result
        end
    end
  end.

Definition jobFailed (state : EarningsClusterState) (event : StoredEvent) : res ClusterTransition :=
  match safe_parse jobFailedSchema failure_payload_of (inertPayload (d_payload event)) with
  | None => Ok (rejected state event "invalid-job-failure-payload")
  | Some (payload, errorCode) =>
    match find_branch state payload with
    | inr reason => Ok (rejected state event reason)
    | inl (cluster, branch) =>
      if negb (job_matches event branch payload && lease_matches branch payload)
      then Ok (rejected state event "analysis-provenance-mismatch")
      else if negb (bool_decide (br_status branch = Branch_pending))
      then Ok (duplicate_result state cluster branch)
      else Ok (noEffects
        (update_branch state cluster (jp_branchId payload) (branch_failed (c_eventId event) errorCode))
        (branch_decision "earnings.analysis.failed" cluster branch
          [(js "jobId", JStr (br_jobId branch)); (js "errorCode", JStr errorCode)]))
    end
  end.

Definition jobLeased (state : EarningsClusterState) (event : StoredEvent) : res ClusterTransition :=
  match safe_parse jobLeasedSchema job_payload_of (inertPayload (d_payload event)) with
  | None => Ok (rejected state event "invalid-job-lease-payload")
  | Some payload =>
    match find_branch state payload with
    | inr reason => Ok (rejected state event reason)
    | inl (cluster, branch) =>
      if negb (job_matches event branch payload)
      then Ok (rejected state event "analysis-lease-provenance-mismatch")
      else if negb (bool_decide (br_status branch = Branch_pending))
      then Ok (noEffects state (branch_decision "earnings.analysis-lease-after-completion" cluster branch
        [(js "fencingToken", jint (jp_fencingToken payload))]))
      else if (jp_fencingToken payload <=? br_expectedFencingToken branch) ||
              (jp_attempt payload <=? br_expectedAttempt branch)
      then Ok (rejected state event "analysis-stale-lease")
      else Ok (noEffects
        (update_branch state cluster (jp_branchId payload)
          (branch_leased (jp_attempt payload) (jp_fencingToken payload)))
        (branch_decision "earnings.analysis.leased" cluster branch
          [(js "jobId", JStr (br_jobId branch)); (js "attempt", jint (jp_attempt payload));
           (js "fencingToken", jint (jp_fencingToken payload))]))
    end
  end.

(** ** The reducer *)

(** The event types the reducer has a handler for. *)
Inductive ClusterEvent : Type :=
  | Source_observed | Timer_event | Job_succeeded | Job_leased | Job_failed.

#[export] Instance ClusterEvent_eq_dec : EqDecision ClusterEvent.
Proof. solve_decision. Defined.

Definition cluster_event (type : jsstring) : option ClusterEvent :=
  if bool_decide (type = js "earnings.source.observed") then Some Source_observed
  else if bool_decide (type = js "kernel.timer.fired") then Some Timer_event
  else if bool_decide (type = js "kernel.job.succeeded") then Some Job_succeeded
  else if bool_decide (type = js "kernel.job.leased") then Some Job_leased
  else if bool_decide (type = js "kernel.job.failed") then Some Job_failed
  else None.

(** The identifiers a payload routes by. *)
Definition route_fields (kvs : jobject) : option (jsstring * jsstring) :=
  c ← get_str (js "issuerCik") kvs;
  f ← get_str (js "fiscalPeriod") kvs;
  Some (c, f).

Definition quarantine (event : StoredEvent) : jsstring := js "quarantine:" ++ c_eventId event.

Definition route (event : StoredEvent) : res jsstring :=
  let type := cluster_event (d_type event) in
  let version := d_schemaVersion event in
  let sourced :=
    if bool_decide (type = Some Source_observed) && ((version =? 1) || (version =? 2))
    then safe_parse sourceRouteSchema route_fields (inertPayload (d_payload event)) else None in
  match sourced with
  | Some (issuerCik, fiscalPeriod) => deriveClusterId issuerCik fiscalPeriod
  | None =>
      let snapshot := if version =? 1 then inertPayload (d_payload event) else None in
      let parsed := match type with
        | Some Timer_event => tp_clusterId <$> safe_parse timerFiredSchema timer_payload_of snapshot
        | Some Job_succeeded =>
            (λ p, jp_clusterId p.1.1) <$> safe_parse jobSucceededSchema success_payload_of snapshot
        | Some Job_leased => jp_clusterId <$> safe_parse jobLeasedSchema job_payload_of snapshot
        | Some Job_failed =>
            (λ p, jp_clusterId p.1) <$> safe_parse jobFailedSchema failure_payload_of snapshot
        | _ => None
        end in
      Ok (default (quarantine event) parsed)
  end.

Definition parseState (value : json) : res EarningsClusterState :=
  do! assertJsonWithinLimits value STATE_PREFLIGHT_LIMITS ;;
  let* snapshot := inertJsonSnapshot value in
  let* parsed := parse stateSchema snapshot in
  do! assertJson parsed ;;
  let* state := cloneJson parsed in
  let* state := or_throw (of_json state) ZodError in
  let* bytes := earningsClusterStateCanonicalBytes state in
  guard! MAX_EARNINGS_AGGREGATE_STATE_BYTES <? bytes
    throws TypeError "Earnings aggregate state exceeds the canonical UTF-8 ceiling" ;;
  Ok state.

Definition initialState (aggregateId : jsstring) (config : jobject) : res EarningsClusterState :=
  do! read_config config ;;
  Ok {| es_aggregateId := aggregateId; es_cluster := None; es_rejectionCount := 0 |}.

(** The switch on the event's type. *)
Definition dispatch (state : EarningsClusterState) (event : StoredEvent) (context : ReducerContext)
    (config : EarningsClusterConfig) : res ClusterTransition :=
  let version := d_schemaVersion event in
  let unsupported := Ok (rejected state event "unsupported-schema-version") in
  match cluster_event (d_type event) with
  | Some Source_observed =>
      if (version =? 1) || (version =? 2) then sourceObserved state event context config
      else unsupported
  | Some Timer_event =>
      if version =? 1 then timerFired state event context config else unsupported
  | Some Job_succeeded =>
      if version =? 1 then jobSucceeded state event context config else unsupported
  | Some Job_leased => if version =? 1 then jobLeased state event else unsupported
  | Some Job_failed => if version =? 1 then jobFailed state event else unsupported
  | None => Ok (noEffects state (decision "kernel.event.ignored"
      [(js "eventId", JStr (c_eventId event)); (js "eventType", JStr (d_type event))]))
  end.

Definition apply (previous : json) (event : StoredEvent) (context : ReducerContext) :
    res ClusterTransition :=
  let* previousState := parseState previous in
  let* state := copy previousState in
  let* config := read_config (rx_config context) in
  let* transition := dispatch state event context config in
  projectedTransition previousState event transition.

(** The transition as the processor sees it. *)
Definition transition_of (t : ClusterTransition) : Transition := {|
  t_state := to_json (ct_state t); t_decisions := ct_decisions t; t_jobs := ct_jobs t;
  t_outbox := ct_outbox t |}.

(** [new EarningsClusterReducer()] *)
Definition EarningsClusterReducer : Reducer := {|
  r_name := js "earnings-cluster"; r_version := js "3.0.0";
  r_route := route;
  r_parseState := λ value, to_json <$> parseState value;
  r_initialState := λ aggregateId config, to_json <$> initialState aggregateId config;
  r_apply := λ previous event context, transition_of <$> apply (JObj previous) event context |}.
End drafts.
