(* ===== verification/EarningsFacts.v ===== *)
(** * Earnings clusters: values and boundaries

    The records of a cluster are read from JavaScript values as JavaScript values; the
    schemas do not depend on the order of entries; what [parseState] returns. *)
From S2P Require Import Prelude JsString JsNumber Json JsonLimits JsonParse JsonClaims Hash Zod.
From S2P Require Import JsonObject Event EventFacts Codec Records Run Processing Commit Processor.
From S2P Require Import ProcessorFacts Evidence EvidenceFacts SecContracts EarningsCluster.
From S2P Require Import EarningsSchemas EarningsReducer.

#[local] Arguments js : simpl never.
#[local] Arguments jint : simpl never.
#[local] Arguments jnull : simpl never.
#[local] Arguments jenum : simpl never.
#[local] Arguments to_json : simpl never.

(** ** Well-formed records *)

#[export] Instance EvidenceReference_wf : ReadWf EvidenceReference.
Proof. intros kvs a Hw Ha. change (reference_of kvs = Some a) in Ha. unfold reference_of in Ha. read_wf_record Hw Ha. Qed.

#[export] Instance AnalysisInput_wf : ReadWf AnalysisInput.
Proof.
  intros kvs a Hw Ha. change (analysis_input_of kvs = Some a) in Ha. unfold analysis_input_of in Ha.
  read_wf_record Hw Ha.
Qed.

#[export] Instance SourceObservation_wf : ReadWf SourceObservation.
Proof.
  intros kvs a Hw Ha. change (source_of kvs = Some a) in Ha. unfold source_of in Ha. read_fields Ha.
  injection Ha as <-. unfold record_wf, to_json. cbn [to_fields SourceObservation_codec].
  unfold source_fields. cbn [so_input so_publishedAtMs so_receivedAtMs so_timestampConfidence so_originalTimestamp].
  apply fields_wf_app; [vm_compute; reflexivity|exact (read_wf _ _ Hw E)|].
  solve_fields; read_wf_fields.
Qed.

#[export] Instance TimerExpectation_wf : ReadWf TimerExpectation.
Proof.
  intros kvs a Hw Ha. change (timer_of kvs = Some a) in Ha. unfold timer_of in Ha. read_wf_record Hw Ha.
Qed.

#[export] Instance AnalysisContract_wf : ReadWf AnalysisContract.
Proof.
  intros kvs a Hw Ha. change (contract_of kvs = Some a) in Ha. unfold contract_of in Ha. read_wf_record Hw Ha.
Qed.

Lemma request_of_wf kvs r : json_wf (JObj kvs) → request_of kvs = Some r → json_wf (JObj (request_fields r)).
Proof. intros Hw Ha. unfold request_of in Ha. read_wf_record Hw Ha. Qed.

#[export] Instance AnalysisBranch_wf : ReadWf AnalysisBranch.
Proof.
  intros kvs a Hw Ha. change (branch_of kvs = Some a) in Ha. unfold branch_of in Ha. read_fields Ha.
  injection Ha as <-. unfold record_wf, to_json. cbn [to_fields AnalysisBranch_codec].
  unfold branch_fields. cbn [br_request br_jobId br_status br_requestedAtMs br_expectedAttempt
    br_expectedFencingToken br_resultEventId br_resultHash br_errorCode].
  apply fields_wf_app; [vm_compute; reflexivity|by eapply request_of_wf|].
  solve_fields; read_wf_fields.
Qed.

#[export] Instance EarningsCluster_wf : ReadWf EarningsCluster.
Proof.
  intros kvs a Hw Ha. change (cluster_of kvs = Some a) in Ha. unfold cluster_of in Ha. read_wf_record Hw Ha.
Qed.

#[export] Instance EarningsClusterState_wf : ReadWf EarningsClusterState.
Proof.
  intros kvs a Hw Ha. change (state_of kvs = Some a) in Ha. unfold state_of in Ha. read_fields Ha.
  injection Ha as <-. unfold record_wf, to_json.
  cbn -[json_wf js jint jnull jenum to_json jlist jstrs]. solve_fields; read_wf_fields.
  destruct x0 as [c|]; [|exact I]. unfold get_nullable in E0.
  destruct (get_record EarningsCluster (js "cluster") kvs) as [c'|] eqn:Ec.
  - apply get_record_wf in Ec; [|done].
    destruct (lookup_key (js "cluster") kvs) as [[]|]; try done; injection E0 as <-; exact Ec.
  - destruct (lookup_key (js "cluster") kvs) as [[]|]; done.
Qed.

(** ** The schemas ignore the order of entries *)

(** The conditions of [schema_proper], one by one. *)
Ltac proper_schema :=
  cbn -[check_as check_with norm]; repeat match goal with
  | |- _ ∧ _ => split
  | |- True => exact I
  | |- match jint _ with _ => _ end => exact I
  | |- ∀ v, json_wf v → check_as _ _ (norm v) = _ => apply check_as_norm
  | |- ∀ v, json_wf v → check_with _ _ (norm v) = _ => intros v Hv; apply check_with_norm; [|exact Hv]
  | |- ∀ kvs, json_wf (JObj kvs) → _ =>
      exact analysis_input_of_norm || exact source_of_norm || exact request_of_norm
      || exact cluster_of_norm || exact state_of_norm
  | |- ∀ v, _ => by intros [| | | |[]|]
  end.

Lemma sourceObservationSchema_proper : schema_proper sourceObservationSchema.
Proof. proper_schema. Qed.

Lemma analysisInputSchema_proper : schema_proper analysisInputSchema.
Proof. proper_schema. Qed.

Lemma analysisBranchSchema_proper : schema_proper analysisBranchSchema.
Proof. proper_schema. Qed.

Lemma stateSchema_proper `{Sha256} : schema_proper stateSchema.
Proof. proper_schema. Qed.

(** ** [parseState] *)

Section boundaries.
Context `{Sha256} `{Zod}.

Lemma state_limits_valid : limits_valid STATE_PREFLIGHT_LIMITS = true.
Proof. by vm_compute. Qed.
Lemma payload_preflight_valid : limits_valid PAYLOAD_PREFLIGHT_LIMITS = true.
Proof. by vm_compute. Qed.

Lemma canonicalBytes_spec s n :
  record_wf s → earningsClusterStateCanonicalBytes s = Ok n ↔
    encodable (to_json s) = true ∧ n = json_bytes (to_json s).
Proof.
  intros Hw. unfold earningsClusterStateCanonicalBytes. rewrite res_bind_Ok.
  setoid_rewrite canonical_text. split.
  - intros (t & [He ->] & Hn). apply Ok_inj in Hn as <-. split; [done|].
    rewrite byte_length_print, json_bytes_norm; [done|by apply norm_wf|by rewrite norm_encodable].
  - intros [He ->]. eexists. split; [by split|].
    by rewrite byte_length_print, json_bytes_norm by (by apply norm_wf || by rewrite norm_encodable).
Qed.

(** The state [parseState] reads out of a value. *)
Lemma parseState_Ok v s :
  json_wf v → parseState v = Ok s → record_wf s ∧ encodable (to_json s) = true ∧
    json_within STATE_PREFLIGHT_LIMITS v = true ∧ accepts_ref stateSchema v = true ∧ of_json v = Some s ∧
    json_bytes (to_json s) <= MAX_EARNINGS_AGGREGATE_STATE_BYTES.
Proof.
  intros Hw Hp. unfold parseState in Hp. apply res_bind_Ok in Hp as (m & Hm & Hp).
  destruct (limits_Ok _ _ _ Hm) as [Hlim _].
  apply res_bind_Ok in Hp as (v1 & Hv1 & Hp). apply inertJsonSnapshot_spec in Hv1 as [He ->]; [|done].
  apply res_bind_Ok in Hp as (v2 & Hv2 & Hp). apply parse_Ok in Hv2 as [Ha ->].
  rewrite accepts_norm in Ha by (exact stateSchema_proper || done).
  apply res_bind_Ok in Hp as (u & _ & Hp). apply res_bind_Ok in Hp as (v3 & Hv3 & Hp).
  apply cloneJson_spec in Hv3 as [_ ->]; [|by apply norm_wf]. rewrite norm_idemp in Hp.
  apply res_bind_Ok in Hp as (s' & Hs & Hp). apply or_throw_Ok in Hs. rewrite of_json_norm in Hs by done.
  assert (Hs' : of_json v = Some s').
  { destruct (of_json v); [|done]. by injection Hs as <-. }
  pose proof (of_json_wf _ _ Hw Hs') as Hsw.
  apply res_bind_Ok in Hp as (n & Hn & Hp). apply canonicalBytes_spec in Hn as [Hse ->]; [|done].
  apply res_bind_Ok in Hp as (u' & Hu & Hp). apply throw_if_Ok in Hu. apply Ok_inj in Hp as <-.
  bool_prop. split_and!; done.
Qed.
End boundaries.
