(* ===== verification/EarningsValues.v ===== *)
(** * Earnings clusters: values throughout

    What the reducer returns on JavaScript values are JavaScript values: the part of
    [reducer_wf] that concerns states, drafts and routes. *)
From S2P Require Import Prelude JsString JsNumber Json JsonLimits JsonParse JsonClaims Hash Zod.
From S2P Require Import JsonObject Event EventFacts Codec Records Run Processing Commit Processor.
From S2P Require Import StoreFacts ProcessorFacts.
From S2P Require Import Evidence EvidenceFacts SecContracts EarningsCluster.
From S2P Require Import EarningsSchemas EarningsReducer EarningsFacts.

#[local] Arguments js : simpl never.
#[local] Arguments jint : simpl never.
#[local] Arguments jnull : simpl never.
#[local] Arguments jenum : simpl never.
#[local] Arguments to_json : simpl never.

(** ** Records and their parts *)

Lemma timer_wf_iff t : record_wf t ↔ units_ok (tm_jobId t).
Proof.
  split; intros Hw; [exact (part_wf _ "jobId" _ Hw eq_refl)|].
  destruct t. unfold record_wf, to_json. cbn -[json_wf js jint jenum]. solve_fields; assumption.
Qed.

Record branch_wf (b : AnalysisBranch) : Prop := {
  bw_request : json_wf (JObj (request_fields b));
  bw_jobId : units_ok (br_jobId b);
  bw_resultEventId : default True (units_ok <$> br_resultEventId b);
  bw_resultHash : default True (units_ok <$> br_resultHash b);
  bw_errorCode : default True (units_ok <$> br_errorCode b)
}.

Lemma branch_wf_iff b : record_wf b ↔ branch_wf b.
Proof.
  split.
  - intros Hw. split; [exact (wf_app_l _ _ Hw)|exact (part_wf _ "jobId" _ Hw eq_refl)| | |];
      apply jnull_str_wf_iff; [exact (part_wf _ "resultEventId" _ Hw eq_refl)
        |exact (part_wf _ "resultHash" _ Hw eq_refl)|exact (part_wf _ "errorCode" _ Hw eq_refl)].
  - intros [H1 H2 H3 H4 H5]. unfold record_wf, to_json. cbn [to_fields AnalysisBranch_codec].
    unfold branch_fields. apply fields_wf_app; [vm_compute; reflexivity|exact H1|].
    solve_fields; first [assumption|by apply jnull_str_wf_iff].
Qed.

Record cluster_wf (c : EarningsCluster) : Prop := {
  cw_clusterId : units_ok (cl_clusterId c);
  cw_issuerCik : units_ok (cl_issuerCik c);
  cw_fiscalPeriod : units_ok (cl_fiscalPeriod c);
  cw_sources : Forall record_wf (cl_sources c);
  cw_timers : Forall record_wf (cl_timers c);
  cw_branches : Forall record_wf (cl_analysisBranches c)
}.

Lemma cluster_wf_iff c : record_wf c ↔ cluster_wf c.
Proof.
  split.
  - intros Hw. split; [exact (part_wf _ "clusterId" _ Hw eq_refl)
      |exact (part_wf _ "issuerCik" _ Hw eq_refl)|exact (part_wf _ "fiscalPeriod" _ Hw eq_refl)
      |apply jlist_wf_iff; exact (part_wf _ "sources" _ Hw eq_refl)
      |apply jlist_wf_iff; exact (part_wf _ "timers" _ Hw eq_refl)
      |apply jlist_wf_iff; exact (part_wf _ "analysisBranches" _ Hw eq_refl)].
  - intros [H1 H2 H3 H4 H5 H6]. unfold record_wf, to_json. cbn [to_fields EarningsCluster_codec].
    unfold cluster_fields. solve_fields; first [assumption|by apply jlist_wf].
Qed.

Lemma state_wf_iff s :
  record_wf s ↔ units_ok (es_aggregateId s) ∧ default True (cluster_wf <$> es_cluster s).
Proof.
  split.
  - intros Hw. split; [exact (part_wf _ "aggregateId" _ Hw eq_refl)|].
    pose proof (part_wf _ "cluster" _ Hw eq_refl) as Hc. destruct (es_cluster s) as [c|]; [|done].
    by apply cluster_wf_iff.
  - intros [H1 H2]. unfold record_wf, to_json. cbn [to_fields EarningsClusterState_codec].
    unfold state_fields. solve_fields. destruct (es_cluster s) as [c|]; [|done].
    by apply cluster_wf_iff.
Qed.

(** ** Sources and inputs *)

Record input_wf (i : AnalysisInput) : Prop := {
  iw_eventId : units_ok (ai_eventId i);
  iw_eventHash : units_ok (ai_eventHash i);
  iw_position : units_ok (ai_position i);
  iw_artifact : units_ok (ai_primaryArtifactHash i);
  iw_bundle : default True (units_ok <$> ai_evidenceBundleHash i);
  iw_evidence : Forall record_wf (ai_evidence i);
  iw_provider : units_ok (ai_provider i);
  iw_record : units_ok (ai_providerRecordId i);
  iw_revision : units_ok (ai_providerRevisionId i)
}.

Lemma input_wf_iff i : record_wf i ↔ input_wf i.
Proof.
  split.
  - intros Hw. split; [exact (part_wf _ "eventId" _ Hw eq_refl)|exact (part_wf _ "eventHash" _ Hw eq_refl)
      |exact (part_wf _ "position" _ Hw eq_refl)|exact (part_wf _ "primaryArtifactHash" _ Hw eq_refl)
      |apply jnull_str_wf_iff; exact (part_wf _ "evidenceBundleHash" _ Hw eq_refl)
      |apply jlist_wf_iff; exact (part_wf _ "evidence" _ Hw eq_refl)
      |exact (part_wf _ "provider" _ Hw eq_refl)|exact (part_wf _ "providerRecordId" _ Hw eq_refl)
      |exact (part_wf _ "providerRevisionId" _ Hw eq_refl)].
  - intros [H1 H2 H3 H4 H5 H6 H7 H8 H9]. unfold record_wf, to_json.
    cbn [to_fields AnalysisInput_codec]. unfold analysis_input_fields.
    solve_fields; first [assumption|by apply jlist_wf|by apply jnull_str_wf_iff].
Qed.

Lemma source_wf_input s : record_wf s → record_wf (so_input s).
Proof. exact (wf_app_l _ _). Qed.

Lemma canonicalEvidence_wf l : Forall record_wf l → Forall record_wf (canonicalEvidence l).
Proof. intros Hl. unfold canonicalEvidence. by rewrite sort_by_perm. Qed.

Lemma with_input_evidence_wf i l : record_wf i → Forall record_wf l → record_wf (with_input_evidence i l).
Proof. rewrite !input_wf_iff. intros [] Hl. split; done. Qed.

Lemma canonicalInputs_wf l : Forall record_wf l → Forall record_wf (canonicalAnalysisInputs l).
Proof.
  intros Hl. unfold canonicalAnalysisInputs. rewrite sort_by_perm. apply Forall_map.
  eapply Forall_impl; [exact Hl|]. intros i Hi. apply with_input_evidence_wf; [done|].
  apply canonicalEvidence_wf. by apply input_wf_iff in Hi as [].
Qed.

Lemma analysisInputs_wf l : Forall record_wf l → Forall record_wf (analysisInputs l).
Proof.
  intros Hl. apply canonicalInputs_wf, Forall_map. eapply Forall_impl; [exact Hl|]. intros s Hs.
  apply source_wf_input in Hs. apply with_input_evidence_wf; [done|]. apply canonicalEvidence_wf.
  by apply input_wf_iff in Hs as [].
Qed.

Lemma artifactCatalog_wf l : Forall record_wf l → Forall units_ok (artifactCatalog l).
Proof.
  intros Hl. unfold artifactCatalog. rewrite sort_by_perm. apply Forall_forall. intros h.
  rewrite elem_of_remove_dups, list_elem_of_join. intros (hs & Hh & Hhs).
  apply list_elem_of_fmap in Hhs as (i & -> & Hi). apply list_elem_of_fmap in Hh as (r & -> & Hr).
  apply (proj1 (Forall_forall _ _) Hl), input_wf_iff in Hi as [].
  pose proof (proj1 (Forall_forall _ _) iw_evidence0 _ Hr) as Hw.
  exact (part_wf _ "artifactHash" _ Hw eq_refl).
Qed.

(** ** Transitions *)

Record transition_wf (t : ClusterTransition) : Prop := {
  tw_state : record_wf (ct_state t);
  tw_decisions : Forall (λ d, output_draft_wf (Draft_decision d)) (ct_decisions t);
  tw_jobs : Forall (λ j, output_draft_wf (Draft_job j)) (ct_jobs t);
  tw_outbox : Forall (λ o, output_draft_wf (Draft_outbox o)) (ct_outbox t)
}.

Lemma transition_of_wf t :
  transition_wf t → json_wf (t_state (transition_of t)) ∧ Forall output_draft_wf (drafts_of (transition_of t)).
Proof.
  intros [H1 H2 H3 H4]. split; [exact H1|]. unfold drafts_of. cbn [transition_of t_decisions t_jobs t_outbox].
  by rewrite !Forall_app, !Forall_map.
Qed.

Lemma decision_wf type payload :
  json_wf (JObj payload) → output_draft_wf (Draft_decision (decision type payload)).
Proof. split; [apply js_units|done]. Qed.

Lemma noEffects_wf s type payload :
  record_wf s → json_wf (JObj payload) → transition_wf (noEffects s (decision type payload)).
Proof. intros Hs Hp. split; [done| |constructor..]. constructor; [by apply decision_wf|constructor]. Qed.

Lemma with_cluster_wf s c : record_wf s → record_wf c → record_wf (with_cluster s c).
Proof.
  rewrite state_wf_iff. intros [Ha _] Hc. apply state_wf_iff. split; [done|]. by apply cluster_wf_iff.
Qed.

Lemma with_rejection_wf s : record_wf s → record_wf (with_rejection s).
Proof. rewrite !state_wf_iff. done. Qed.

Lemma with_sources_wf c ss : record_wf c → Forall record_wf ss → record_wf (with_sources c ss).
Proof. rewrite !cluster_wf_iff. intros [] Hs. by split. Qed.
Lemma with_timers_wf c ts : record_wf c → Forall record_wf ts → record_wf (with_timers c ts).
Proof. rewrite !cluster_wf_iff. intros [] Hs. by split. Qed.
Lemma with_branches_wf c bs : record_wf c → Forall record_wf bs → record_wf (with_branches c bs).
Proof. rewrite !cluster_wf_iff. intros [] Hs. by split. Qed.
Lemma finalized_wf c n : record_wf c → record_wf (finalized c n).
Proof. rewrite !cluster_wf_iff. intros []. by split. Qed.

Lemma update_first_Forall {A} (P : A → Prop) p f (l : list A) :
  Forall P l → (∀ x, P x → P (f x)) → Forall P (update_first p f l).
Proof.
  intros Hl Hf. induction Hl as [|x l Hx Hl IH]; cbn; [constructor|].
  destruct (p x); constructor; auto.
Qed.

Lemma units_app a b : units_ok a → units_ok b → units_ok (a ++ b).
Proof. apply Forall_app_2. Qed.

(** Concatenations of literals and known strings. *)
Ltac solve_units := repeat first [assumption | apply js_units | apply enum_units | apply units_app].

Section values.
Context `{Sha256} `{Zod}.
Context (event : StoredEvent) (Hevent : stored_wf event).
Context (context : ReducerContext) (Hcontext : context_wf context).

Lemma event_strings :
  units_ok (d_type event) ∧ units_ok (c_eventId event) ∧ units_ok (s_position event) ∧
  units_ok (s_eventHash event) ∧ json_wf (provider_json (d_provider event)) ∧
  json_wf (JObj (d_payload event)) ∧ units_ok (d_source event) ∧ units_ok (d_subject event).
Proof using Hevent.
  assert (Hf : ∀ k w, lookup_key (js k) (stored_fields event) = Some w → json_wf w)
    by (intros k w Hk; exact (part_wf _ k w Hevent Hk)).
  assert (Hs : ∀ k s, lookup_key (js k) (stored_fields event) = Some (JStr s) → units_ok s)
    by (intros k s Hk; exact (Hf k (JStr s) Hk)).
  unfold stored_fields, captured_fields, draft_fields, opt_field in Hf, Hs.
  split_and!; [apply (Hs "type"%string)|apply (Hs "eventId"%string)|apply (Hs "position"%string)
    |apply (Hs "eventHash"%string)|apply (Hf "provider"%string)|apply (Hf "payload"%string)
    |apply (Hs "source"%string)|apply (Hs "subject"%string)]; destruct (d_causationId event); reflexivity.
Qed.

Lemma eventId_units : units_ok (c_eventId event).
Proof using Hevent. apply event_strings. Qed.

Lemma rejected_wf0 s reason : record_wf s → transition_wf (rejectedWithoutStateChange s event reason).
Proof using Hevent.
  intros Hs. destruct event_strings as (E1 & E2 & _).
  apply noEffects_wf; [done|]. solve_fields; assumption.
Qed.

Lemma rejected_wf s reason : record_wf s → transition_wf (rejected s event reason).
Proof using Hevent. intros Hs. by apply rejected_wf0, with_rejection_wf. Qed.

Lemma contract_wf : record_wf (expectedAnalysisContract context).
Proof using Hcontext.
  destruct Hcontext as [_ Hi _]. unfold record_wf, to_json. cbn [to_fields AnalysisContract_codec].
  unfold contract_fields. solve_fields; [exact (part_wf _ "extractorVersion" _ Hi eq_refl)
    |exact (part_wf _ "featureSetId" _ Hi eq_refl)|exact (part_wf _ "promptId" _ Hi eq_refl)
    |exact (part_wf _ "modelId" _ Hi eq_refl)|exact (part_wf _ "datasetId" _ Hi eq_refl)].
Qed.

Lemma timer_key_units clusterId ty rec :
  units_ok clusterId → default True (units_ok <$> rec) → units_ok (timer_dedupeKey clusterId ty rec).
Proof.
  intros Hc Hr. unfold timer_dedupeKey. destruct rec as [r|]; [|solve_units].
  cbn [fmap option_fmap option_map default from_option] in Hr. solve_units.
Qed.

Lemma timerDraft_wf runId clusterId ty due rec t j :
  units_ok clusterId → default True (units_ok <$> rec) → timerDraft runId clusterId ty due rec = Ok (t, j) →
  record_wf t ∧ output_draft_wf (Draft_job j) ∧ units_ok (jd_jobId j).
Proof.
  intros Hc Hr Ht. unfold timerDraft in Ht. apply res_bind_Ok in Ht as (ih & Hih & Ht).
  apply res_bind_Ok in Ht as (id & Hid & Ht). apply Ok_inj in Ht. injection Ht as <- <-.
  unfold deriveJobId in Hid. apply res_bind_Ok in Hid as (ph & _ & Hid).
  apply canonicalHash_hash, is_hash_units_ok in Hid. split; [by apply timer_wf_iff|].
  split; [|exact Hid]. cbn [output_draft_wf jd_jobId jd_type jd_dedupeKey jd_payload].
  split; [exact Hid|]. split; [apply js_units|]. split; [by apply timer_key_units|].
  solve_fields; assumption.
Qed.

Lemma analysisDraft_wf runId c phase now b j :
  record_wf c → analysisDraft runId c phase now (expectedAnalysisContract context) = Ok (b, j) →
  record_wf b ∧ output_draft_wf (Draft_job j).
Proof using Hcontext.
  rewrite cluster_wf_iff. intros [C1 C2 C3 C4 _ _] Hd. unfold analysisDraft in Hd.
  apply res_bind_Ok in Hd as (u1 & _ & Hd). apply res_bind_Ok in Hd as (u2 & _ & Hd).
  apply res_bind_Ok in Hd as (ch & Hch & Hd). apply res_bind_Ok in Hd as (bh & Hbh & Hd).
  apply res_bind_Ok in Hd as (id & Hid & Hd). apply res_bind_Ok in Hd as (v & _ & Hd).
  apply res_bind_Ok in Hd as (jid & Hjid & Hd). apply Ok_inj in Hd. injection Hd as <- <-.
  unfold deriveJobId in Hjid. apply res_bind_Ok in Hjid as (ph & _ & Hjid).
  apply canonicalHash_hash, is_hash_units_ok in Hch, Hbh, Hid, Hjid.
  pose proof (analysisInputs_wf _ C4) as Hi. pose proof (artifactCatalog_wf _ Hi) as Ha.
  pose proof contract_wf as Hk.
  assert (Hr : json_wf (JObj (request_fields {| rq_branchId := id; rq_phase := phase;
    rq_inputBundleHash := bh; rq_inputSources := analysisInputs (cl_sources c);
    rq_artifactCatalog := artifactCatalog (analysisInputs (cl_sources c));
    rq_analysisContract := expectedAnalysisContract context; rq_analysisContractHash := ch |}))).
  { unfold request_fields. cbn [rq_branchId rq_phase rq_inputBundleHash rq_inputSources
      rq_artifactCatalog rq_analysisContract rq_analysisContractHash].
    solve_fields; first [assumption|by apply jlist_wf|by apply jstrs_wf]. }
  split; [by apply branch_wf_iff; split|]. cbn [output_draft_wf jd_jobId jd_type jd_dedupeKey jd_payload].
  split; [exact Hjid|]. split; [apply js_units|]. split; [exact (units_app (js "analysis:") id (js_units _) Hid)|].
  refine (fields_wf_app [(js "clusterId", JStr (cl_clusterId c))] _ _ _ Hr);
    [vm_compute; reflexivity|solve_fields; assumption].
Qed.

(** ** Sources *)

Lemma inertPayload_wf kvs snapshot :
  json_wf (JObj kvs) → inertPayload kvs = Some snapshot → json_wf (JObj snapshot).
Proof.
  intros Hw Hs. unfold inertPayload in Hs.
  destruct (assertJsonWithinLimits (JObj kvs) PAYLOAD_PREFLIGHT_LIMITS); [|done]. cbn [mbind res_bind] in Hs.
  destruct (inertJsonSnapshot (JObj kvs)) as [w|] eqn:E; [|done].
  apply inertJsonSnapshot_spec in E as [_ ->]; [|done]. rewrite norm_obj in Hs. injection Hs as <-.
  by apply norm_entries_wf.
Qed.

Record payload_wf (p : SourcePayload) : Prop := {
  pw_issuerCik : units_ok (sp_issuerCik p);
  pw_fiscalPeriod : units_ok (sp_fiscalPeriod p);
  pw_artifact : units_ok (sp_artifactHash p);
  pw_bundle : units_ok (sp_evidenceBundleHash p);
  pw_evidence : Forall record_wf (sp_evidence p);
  pw_original : default True (units_ok <$> sp_originalTimestamp p)
}.

Lemma source_payload_wf v kvs p :
  json_wf (JObj kvs) → source_payload_of v kvs = Some p → payload_wf p.
Proof.
  intros Hw Hp. unfold source_payload_of in Hp. read_fields Hp. injection Hp as <-.
  split; cbn [sp_issuerCik sp_fiscalPeriod sp_artifactHash sp_evidenceBundleHash sp_evidence
    sp_originalTimestamp]; try by eapply get_str_wf.
  - destruct (v =? 1); [injection E3 as <-; constructor|by eapply get_str_wf].
  - destruct (v =? 1); [injection E4 as <-; constructor|by eapply get_list_wf].
  - by eapply get_null_str_wf.
Qed.

Lemma safe_parse_Some {A} sc (read : jobject → option A) o a :
  safe_parse sc read o = Some a →
    ∃ kvs, o = Some kvs ∧ accepts_ref sc (JObj kvs) = true ∧ read kvs = Some a.
Proof.
  intros Hs. unfold safe_parse in Hs. destruct o as [kvs|]; [|done]. cbn [mbind option_bind] in Hs.
  rewrite accepts_unique in Hs. destruct (accepts_ref sc (JObj kvs)) eqn:E; [|done]. by exists kvs.
Qed.

Lemma bundleInput_wf p : payload_wf p → json_wf (JObj (bundleInput event p)).
Proof using Hevent.
  intros [P1 P2 P3 P4 P5 P6]. destruct event_strings as (E1 & E2 & E3 & E4 & E5 & E6 & E7 & E8).
  unfold bundleInput. solve_fields; first [assumption|by apply jlist_wf
    |exact (part_wf _ "provider" _ E5 eq_refl)|exact (part_wf _ "recordId" _ E5 eq_refl)
    |exact (part_wf _ "revisionId" _ E5 eq_refl)].
Qed.

Lemma sec_evidence_wf v b :
  json_wf v → validateSecEvidenceBundle v None = Ok b → Forall record_wf (bi_evidence b).
Proof.
  intros Hw Hb. apply (validateSecEvidenceBundle_spec v None false) in Hb as (j & k & [Hc Hn] & -> & _); [|done..].
  assert (Hj : json_wf (input_json j)).
  { destruct Hn as [Hn|Hn]; [|by eapply wf_of_norm].
    apply stored_bundle_wf_inv, norm_wf_inv. rewrite <-Hn. by apply norm_wf. }
  apply input_json_wf in Hj as [_ Hj]. change (bi_evidence (bundle_of j)) with (sort_by reference_leb (bi_evidence j)).
  rewrite (sort_by_perm reference_leb). eapply Forall_impl; [exact Hj|]. intros r. by apply reference_json_wf.
Qed.

Lemma new_source_wf p h evidence :
  payload_wf p → default True (units_ok <$> h) → Forall record_wf evidence →
  record_wf (new_source event p h evidence).
Proof using Hevent.
  intros [P1 P2 P3 P4 P5 P6] Hh He. destruct event_strings as (E1 & E2 & E3 & E4 & E5 & _).
  unfold record_wf, to_json. cbn [to_fields SourceObservation_codec]. unfold source_fields, new_source.
  cbn [so_input so_publishedAtMs so_receivedAtMs so_timestampConfidence so_originalTimestamp].
  apply fields_wf_app; [vm_compute; reflexivity| |].
  - apply input_wf_iff. split; cbn [ai_eventId ai_eventHash ai_position ai_primaryArtifactHash
      ai_evidenceBundleHash ai_evidence ai_provider ai_providerRecordId ai_providerRevisionId]; try assumption.
    + by apply canonicalEvidence_wf.
    + exact (part_wf _ "provider" _ E5 eq_refl).
    + exact (part_wf _ "recordId" _ E5 eq_refl).
    + exact (part_wf _ "revisionId" _ E5 eq_refl).
  - solve_fields.
Qed.

Lemma v2_stored_wf p h evidence :
  payload_wf p → v2_evidence event p = Evidence_stored h evidence →
  default True (units_ok <$> h) ∧ Forall record_wf evidence.
Proof using Hevent.
  intros Hp Hv. unfold v2_evidence in Hv. destruct (source_identity_mismatch event p); [done|].
  destruct (computeProviderEvidenceBundleHash _) as [r|]; [|done].
  destruct (negb _); [done|].
  destruct (validateSecEvidenceBundle _ None) as [b|] eqn:Hb; [|done]. injection Hv as <- <-.
  destruct Hp as [P1 P2 P3 P4 P5 P6] eqn:Hpe. split; [exact P4|].
  eapply sec_evidence_wf, Hb. apply fields_wf_app; [vm_compute; reflexivity|by apply bundleInput_wf|].
  solve_fields; assumption.
Qed.

Lemma messageId_units runId key payload id : deriveMessageId runId key payload = Ok id → units_ok id.
Proof.
  unfold deriveMessageId. intros Hid. apply res_bind_Ok in Hid as (ph & _ & Hid).
  by eapply is_hash_units_ok, canonicalHash_hash.
Qed.

Lemma first_source_wf state config clusterId cik period source t :
  record_wf state → units_ok clusterId → units_ok cik → units_ok period → record_wf source →
  first_source state event context config clusterId cik period source = Ok t → transition_wf t.
Proof using Hevent Hcontext.
  intros Hs Hc Hk Hp Hsrc Ht. unfold first_source in Ht.
  case_match eqn:E; [apply Ok_inj in Ht as <-; by apply rejected_wf|]. clear E.
  assert (Hcl : record_wf {| cl_clusterId := clusterId; cl_issuerCik := cik; cl_fiscalPeriod := period;
    cl_status := Cluster_open; cl_firstObservedAtMs := rx_nowMs context;
    cl_lifecycleEndsAtMs := rx_nowMs context + cf_lifecycleMs config; cl_finalizedAtMs := None;
    cl_sources := [source]; cl_timers := []; cl_analysisBranches := [] |})
    by (apply cluster_wf_iff; split;
      first [assumption|exact (Forall_nil_2 _)|exact (Forall_cons_2 _ _ _ Hsrc (Forall_nil_2 _))]).
  apply res_pair_Ok in Ht as ([m mj] & Hm & Ht). apply res_pair_Ok in Ht as ([l lj] & Hl & Ht).
  apply res_pair_Ok in Ht as ([b bj] & Hb & Ht). cbn [fst snd] in Ht.
  apply timerDraft_wf in Hm as (Hm & Hmj & _); [|done..]. apply timerDraft_wf in Hl as (Hl & Hlj & _); [|done..].
  apply analysisDraft_wf in Hb as [Hb Hbj]; [|exact Hcl].
  apply res_bind_Ok in Ht as (id & Hid & Ht). apply messageId_units in Hid. apply Ok_inj in Ht as <-.
  pose proof eventId_units as He.
  assert (Hh : units_ok (rq_inputBundleHash b))
    by (apply branch_wf_iff in Hb as [Hb _ _ _ _]; exact (part_wf _ "inputBundleHash" _ Hb eq_refl)).
  assert (Hpay : json_wf (JObj [(js "clusterId", JStr clusterId); (js "issuerCik", JStr cik);
      (js "fiscalPeriod", JStr period); (js "sourceEventId", JStr (c_eventId event));
      (js "inputBundleHash", JStr (rq_inputBundleHash b))])) by (solve_fields; assumption).
  split; cbn [ct_state ct_decisions ct_jobs ct_outbox].
  - apply with_cluster_wf; [done|].
    apply with_branches_wf; [apply with_timers_wf; [exact Hcl|]|]; by repeat apply Forall_cons_2.
  - constructor; [by apply decision_wf|constructor].
  - by repeat apply Forall_cons_2.
  - constructor; [|constructor]. cbn [output_draft_wf od_messageId od_topic od_dedupeKey od_payload].
    split; [exact Hid|]. split; [apply js_units|]. split; [|exact Hpay].
    exact (units_app (js "first-source:") clusterId (js_units _) Hc).
Qed.

Lemma joined_wf c source :
  record_wf c → record_wf source → record_wf (with_sources c (cl_sources c ++ [source])).
Proof.
  intros Hc Hs. apply with_sources_wf; [done|]. apply cluster_wf_iff in Hc as [].
  apply Forall_app_2; [done|]. by constructor.
Qed.

Lemma branches_snoc_wf c b : record_wf c → record_wf b →
  record_wf (with_branches c (cl_analysisBranches c ++ [b])).
Proof.
  intros Hc Hs. apply with_branches_wf; [done|]. apply cluster_wf_iff in Hc as [].
  apply Forall_app_2; [done|]. by constructor.
Qed.

Lemma source_analysed_wf state config c source t :
  record_wf state → record_wf c → record_wf source →
  source_analysed state event context config c source = Ok t → transition_wf t.
Proof using Hevent Hcontext.
  intros Hs Hc Hsrc Ht. unfold source_analysed in Ht. pose proof (joined_wf _ _ Hc Hsrc) as Hj.
  pose proof eventId_units as He. destruct (proj1 (cluster_wf_iff c) Hc) as [C1 _ _ _ _ _].
  case_match; [apply Ok_inj in Ht as <-; by apply rejected_wf0|].
  destruct (analysisDraft _ _ _ _ _) as [[b j]|e] eqn:Hb;
    [|case_match; [apply Ok_inj in Ht as <-; by apply rejected_wf0|done]].
  apply analysisDraft_wf in Hb as [Hb Hbj]; [|exact Hj].
  assert (Hid : units_ok (rq_branchId b))
    by (apply branch_wf_iff in Hb as [Hr _ _ _ _]; exact (part_wf _ "branchId" _ Hr eq_refl)).
  case_match; apply Ok_inj in Ht as <-.
  - apply noEffects_wf; [by apply with_cluster_wf|]. solve_fields; assumption.
  - split; cbn [ct_state ct_decisions ct_jobs ct_outbox].
    + apply with_cluster_wf; [done|]. by apply branches_snoc_wf.
    + constructor; [|constructor]. apply decision_wf. solve_fields; assumption.
    + by constructor.
    + constructor.
Qed.

Lemma later_source_wf state config clusterId c source t :
  record_wf state → units_ok clusterId → record_wf c → record_wf source →
  later_source state event context config clusterId c source = Ok t → transition_wf t.
Proof using Hevent Hcontext.
  intros Hs Hid Hc Hsrc Ht. unfold later_source in Ht. pose proof (joined_wf _ _ Hc Hsrc) as Hj.
  pose proof eventId_units as He. destruct (proj1 (cluster_wf_iff c) Hc) as [C1 _ _ C4 _ _].
  destruct (proj1 (input_wf_iff _) (source_wf_input _ Hsrc)) as [I1 I2 I3 I4 I5 I6 I7 I8 I9].
  case_match; [apply Ok_inj in Ht as <-; by apply rejected_wf|].
  case_match; [apply Ok_inj in Ht as <-; apply noEffects_wf; [done|solve_fields; assumption]|].
  case_match; [apply Ok_inj in Ht as <-; by apply rejected_wf0|].
  destruct (find (same_artifact source) (cl_sources c)) as [m|] eqn:Hm.
  { apply Ok_inj in Ht as <-. apply find_elem in Hm as [Hm _].
    pose proof (source_wf_input _ (proj1 (Forall_forall _ _) C4 _ Hm)) as Hmw.
    apply input_wf_iff in Hmw as [M1 _ _ _ _ _ _ _ _].
    apply noEffects_wf; [by apply with_cluster_wf|].
    solve_fields; first [assumption|by apply jnull_str_wf_iff]. }
  destruct (debouncing_timer c source _) as [mt|].
  { apply Ok_inj in Ht as <-. apply noEffects_wf; [by apply with_cluster_wf|]. solve_fields; assumption. }
  exact (source_analysed_wf _ _ _ _ _ Hs Hc Hsrc Ht).
Qed.

Lemma padStart0_units n cik : units_ok cik → units_ok (padStart0 n cik).
Proof.
  intros Hc. unfold padStart0. apply units_app; [|done]. apply Forall_replicate. lia.
Qed.

Lemma sourceObserved_wf state config t :
  record_wf state → sourceObserved state event context config = Ok t → transition_wf t.
Proof using Hevent Hcontext.
  intros Hs Ht. unfold sourceObserved in Ht. destruct event_strings as (E1 & E2 & E3 & E4 & E5 & E6 & _).
  destruct (inertPayload (d_payload event)) as [snapshot|] eqn:Hsn;
    [|apply Ok_inj in Ht as <-; by apply rejected_wf].
  apply inertPayload_wf in Hsn; [|done].
  case_match; [apply Ok_inj in Ht as <-; by apply rejected_wf0|].
  destruct (safe_parse _ _ _) as [p|] eqn:Hp; [|apply Ok_inj in Ht as <-; by apply rejected_wf].
  apply safe_parse_Some in Hp as (kvs & Hk & _ & Hp). injection Hk as <-.
  apply source_payload_wf in Hp; [|done]. pose proof Hp as [P1 P2 P3 P4 P5 P6].
  apply res_bind_Ok in Ht as (id & Hid & Ht). apply canonicalHash_hash, is_hash_units_ok in Hid.
  case_match; [apply Ok_inj in Ht as <-; by apply rejected_wf|].
  case_match; [apply Ok_inj in Ht as <-; by apply rejected_wf|].
  assert (Hv : ∀ h ev, (if d_schemaVersion event =? 1 then v1_evidence event p else v2_evidence event p) =
    Evidence_stored h ev → default True (units_ok <$> h) ∧ Forall record_wf ev).
  { intros h ev. destruct (d_schemaVersion event =? 1); [|by apply v2_stored_wf]. clear Ht. unfold v1_evidence.
    destruct (subjectMatches _ _ _); [|done].
    intros [= <- <-]. split; [done|]. constructor; [|constructor].
    unfold record_wf, to_json. cbn [to_fields EvidenceReference_codec]. unfold reference_fields.
    cbn [er_role er_artifactHash]. solve_fields; assumption. }
  destruct (if _ =? 1 then _ else _) as [h ev|[] reason];
    [|apply Ok_inj in Ht as <-; by apply rejected_wf|apply Ok_inj in Ht as <-; by apply rejected_wf0].
  destruct (Hv h ev eq_refl) as [Hh Hev]. pose proof (new_source_wf _ _ _ Hp Hh Hev) as Hsrc.
  destruct (es_cluster state) as [c|] eqn:Hc.
  - eapply later_source_wf, Ht; try done. apply state_wf_iff in Hs as [_ Hs]. rewrite Hc in Hs.
    by apply cluster_wf_iff.
  - eapply first_source_wf, Ht; try done. by apply padStart0_units.
Qed.

(** ** Timers and jobs *)

Lemma mirror_window_wf state config c t :
  record_wf state → record_wf c → mirror_window_complete state context config c = Ok t → transition_wf t.
Proof using Hevent Hcontext.
  intros Hs Hc Ht. unfold mirror_window_complete in Ht. destruct (proj1 (cluster_wf_iff c) Hc) as [C1 _ _ _ _ _].
  assert (Hd : output_draft_wf (Draft_decision (decision "earnings.cluster.mirror-window-complete"
    [(js "clusterId", JStr (cl_clusterId c));
     (js "sourceCount", jint (Z.of_nat (length (cl_sources c))));
     (js "uniqueArtifactCount",
      jint (Z.of_nat (length (artifactCatalog (analysisInputs (cl_sources c))))))])))
    by (apply decision_wf; solve_fields; assumption).
  assert (Hf : transition_wf {| ct_state := with_cluster state c;
    ct_decisions := [decision "earnings.cluster.mirror-window-complete"
      [(js "clusterId", JStr (cl_clusterId c));
       (js "sourceCount", jint (Z.of_nat (length (cl_sources c))));
       (js "uniqueArtifactCount",
        jint (Z.of_nat (length (artifactCatalog (analysisInputs (cl_sources c))))))];
      decision "earnings.analysis.capacity-exhausted"
        [(js "clusterId", JStr (cl_clusterId c)); (js "phase", jenum Source_confirmation)]];
    ct_jobs := []; ct_outbox := [] |}).
  { split; cbn [ct_state ct_decisions ct_jobs ct_outbox]; [by apply with_cluster_wf| |constructor..].
    repeat apply Forall_cons_2; [exact Hd|apply decision_wf; solve_fields; assumption|constructor]. }
  apply res_bind_Ok in Ht as (rep & _ & Ht). destruct rep.
  { apply Ok_inj in Ht as <-. split; [by apply with_cluster_wf| |constructor..].
    by apply Forall_cons_2. }
  case_match; [by apply Ok_inj in Ht as <-|].
  destruct (analysisDraft _ _ _ _ _) as [[b j]|e] eqn:Hb; [|case_match; [by apply Ok_inj in Ht as <-|done]].
  apply analysisDraft_wf in Hb as [Hb Hbj]; [|exact Hc].
  apply res_bind_Ok in Ht as (n & _ & Ht). case_match; [by apply Ok_inj in Ht as <-|].
  apply Ok_inj in Ht as <-. apply branch_wf_iff in Hb as Hb'. destruct Hb' as [Hr _ _ _ _].
  pose proof (part_wf _ "branchId" _ Hr eq_refl : units_ok (rq_branchId b)) as R1.
  pose proof (part_wf _ "inputBundleHash" _ Hr eq_refl : units_ok (rq_inputBundleHash b)) as R2.
  split; cbn [ct_state ct_decisions ct_jobs ct_outbox].
  - apply with_cluster_wf; [done|]. by apply branches_snoc_wf.
  - repeat apply Forall_cons_2; [exact Hd|apply decision_wf; solve_fields; assumption|constructor].
  - by apply Forall_cons_2.
  - constructor.
Qed.

Lemma timer_early_wf state c timer p t :
  record_wf state → record_wf c → units_ok (tp_jobId p) →
  timer_early state event context c timer p = Ok t → transition_wf t.
Proof using Hevent.
  intros Hs Hc Hp Ht. unfold timer_early in Ht. destruct (proj1 (cluster_wf_iff c) Hc) as [C1 _ _ _ C5 _].
  apply res_pair_Ok in Ht as ([x j] & Hx & Ht). cbn [fst snd] in Ht.
  apply timerDraft_wf in Hx as (Hx & Hj & Hid); [|done|exact eventId_units]. apply timer_wf_iff in Hx.
  apply Ok_inj in Ht as <-. split; cbn [ct_state ct_decisions ct_jobs ct_outbox].
  - apply with_cluster_wf; [done|]. apply with_timers_wf; [done|]. apply update_first_Forall; [done|].
    intros y _. by apply timer_wf_iff.
  - apply Forall_cons_2; [|constructor]. apply decision_wf. solve_fields; assumption.
  - by apply Forall_cons_2.
  - constructor.
Qed.

Lemma timerFired_wf state config t :
  record_wf state → timerFired state event context config = Ok t → transition_wf t.
Proof using Hevent Hcontext.
  intros Hs Ht. unfold timerFired in Ht. destruct event_strings as (E1 & E2 & E3 & E4 & E5 & E6 & _).
  destruct (safe_parse _ _ _) as [p|] eqn:Hp; [|apply Ok_inj in Ht as <-; by apply rejected_wf].
  apply safe_parse_Some in Hp as (kvs & Hk & _ & Hp). apply inertPayload_wf in Hk; [|done].
  unfold timer_payload_of in Hp. read_fields Hp. injection Hp as <-.
  pose proof (get_str_wf _ _ _ Hk E0) as P1. pose proof (get_str_wf _ _ _ Hk E7) as P2.
  destruct (es_cluster state) as [c|] eqn:Hc; [|apply Ok_inj in Ht as <-; by apply rejected_wf].
  assert (Hcw : record_wf c)
    by (apply state_wf_iff in Hs as [_ Hs]; rewrite Hc in Hs; by apply cluster_wf_iff).
  destruct (proj1 (cluster_wf_iff c) Hcw) as [C1 _ _ _ C5 _].
  case_match; [apply Ok_inj in Ht as <-; by apply rejected_wf|].
  destruct (find _ (cl_timers c)) as [timer|] eqn:Hf; [|apply Ok_inj in Ht as <-; by apply rejected_wf].
  apply find_elem in Hf as [Hf _]. apply (proj1 (Forall_forall _ _) C5), timer_wf_iff in Hf.
  cbn [tp_jobId tp_timerType tp_scheduledForLogicalMs tp_clusterId] in Ht.
  case_match; [apply Ok_inj in Ht as <-; apply noEffects_wf; [done|solve_fields; assumption]|].
  case_match; [apply Ok_inj in Ht as <-; apply noEffects_wf; [done|solve_fields; assumption]|].
  case_match; [by eapply timer_early_wf; [..|exact Ht]|].
  assert (Hfw : record_wf (with_timers c (update_first (is_timer x) timer_fired (cl_timers c))))
    by (apply with_timers_wf; [done|]; apply update_first_Forall; [done|]; intros y Hy;
        apply timer_wf_iff in Hy; by apply timer_wf_iff).
  destruct (tm_timerType timer).
  - by eapply mirror_window_wf, Ht.
  - apply Ok_inj in Ht as <-. apply noEffects_wf; [|solve_fields; assumption].
    apply with_cluster_wf; [done|]. by apply finalized_wf.
Qed.

Lemma job_payload_wf kvs p : json_wf (JObj kvs) → job_payload_of kvs = Some p → units_ok (jp_branchId p).
Proof. intros Hw Hp. unfold job_payload_of in Hp. read_fields Hp. injection Hp as <-. by eapply get_str_wf. Qed.

Lemma find_branch_wf state p c b :
  record_wf state → find_branch state p = inl (c, b) → record_wf c ∧ record_wf b.
Proof.
  intros Hs Hf. unfold find_branch in Hf. apply state_wf_iff in Hs as [_ Hs].
  destruct (es_cluster state) as [c'|]; [|done]. case_match; [done|].
  destruct (find _ _) as [b'|] eqn:Hb; [|done]. injection Hf as <- <-.
  apply find_elem in Hb as [Hb _]. split; [by apply cluster_wf_iff|]. destruct Hs as [_ _ _ _ _ C6].
  by apply (proj1 (Forall_forall _ _) C6).
Qed.

Lemma update_branch_wf state c id f :
  record_wf state → record_wf c → (∀ b, record_wf b → record_wf (f b)) →
  record_wf (update_branch state c id f).
Proof.
  intros Hs Hc Hf. apply with_cluster_wf; [done|]. apply with_branches_wf; [done|].
  apply update_first_Forall; [|done]. by apply cluster_wf_iff in Hc as [].
Qed.

Lemma branch_strings (b : AnalysisBranch) : record_wf b →
  units_ok (rq_branchId b) ∧ units_ok (br_jobId b) ∧ units_ok (rq_inputBundleHash b).
Proof.
  intros [Hr Hj _ _ _]%branch_wf_iff. split; [exact (part_wf _ "branchId" _ Hr eq_refl)|].
  split; [exact Hj|exact (part_wf _ "inputBundleHash" _ Hr eq_refl)].
Qed.

Lemma branch_decision_wf state type c (b : AnalysisBranch) more :
  record_wf state →
  json_wf (JObj ([(js "clusterId", JStr (cl_clusterId c)); (js "branchId", JStr (rq_branchId b))] ++ more)) →
  transition_wf (noEffects state (branch_decision type c b more)).
Proof. intros Hs Hm. by apply noEffects_wf. Qed.

Lemma duplicate_result_wf state c b :
  record_wf state → record_wf c → record_wf b → transition_wf (duplicate_result state c b).
Proof.
  intros Hs [C1 _ _ _ _ _]%cluster_wf_iff (B1 & B2 & B3)%branch_strings.
  apply branch_decision_wf; [done|]. cbn [app]. solve_fields; assumption.
Qed.

Lemma record_success_wf state c (b : AnalysisBranch) p pv result t :
  record_wf state → record_wf c → record_wf b →
  record_success state event context c b p pv result = Ok t → transition_wf t.
Proof using Hevent.
  intros Hs Hc Hb Ht. unfold record_success in Ht. destruct (proj1 (cluster_wf_iff c) Hc) as [C1 _ _ _ _ _].
  destruct (branch_strings b Hb) as (B1 & B2 & B3).
  apply res_bind_Ok in Ht as (rh & Hrh & Ht). apply canonicalHash_hash, is_hash_units_ok in Hrh.
  apply res_bind_Ok in Ht as (id & Hid & Ht). apply messageId_units in Hid. apply Ok_inj in Ht as <-.
  assert (Hpay : json_wf (JObj [(js "clusterId", JStr (cl_clusterId c)); (js "branchId", JStr (rq_branchId b));
    (js "jobId", JStr (br_jobId b)); (js "inputBundleHash", JStr (rq_inputBundleHash b));
    (js "resultHash", JStr rh)])) by (solve_fields; assumption).
  split; cbn [ct_state ct_decisions ct_jobs ct_outbox].
  - apply update_branch_wf; [done..|]. intros b' [H1 H2 H3 H4 H5]%branch_wf_iff. apply branch_wf_iff.
    split; try done. exact eventId_units.
  - apply Forall_cons_2; [by apply decision_wf|constructor].
  - constructor.
  - apply Forall_cons_2; [|constructor]. cbn [output_draft_wf od_messageId od_topic od_dedupeKey od_payload].
    split; [exact Hid|]. split; [apply js_units|]. split; [|exact Hpay].
    exact (units_app (js "analysis-completed:") _ (js_units _) B1).
Qed.

Lemma jobSucceeded_wf state config t :
  record_wf state → jobSucceeded state event context config = Ok t → transition_wf t.
Proof using Hevent.
  intros Hs Ht. unfold jobSucceeded in Ht.
  destruct (safe_parse _ _ _) as [[[p pv] result]|]; [|apply Ok_inj in Ht as <-; by apply rejected_wf].
  apply res_bind_Ok in Ht as (u & _ & Ht). apply res_bind_Ok in Ht as (text & _ & Ht).
  case_match; [apply Ok_inj in Ht as <-; by apply rejected_wf|].
  destruct (find_branch state p) as [[c b]|reason] eqn:Hf; [|apply Ok_inj in Ht as <-; by apply rejected_wf].
  destruct (find_branch_wf _ _ _ _ Hs Hf) as [Hc Hb].
  case_match; [apply Ok_inj in Ht as <-; by apply rejected_wf|].
  case_match; [apply Ok_inj in Ht as <-; by apply duplicate_result_wf|].
  apply res_bind_Ok in Ht as ([pv'|reason] & _ & Ht); [|apply Ok_inj in Ht as <-; by apply rejected_wf].
  by eapply record_success_wf, Ht.
Qed.

Lemma jobFailed_wf state t :
  record_wf state → jobFailed state event = Ok t → transition_wf t.
Proof using Hevent.
  intros Hs Ht. unfold jobFailed in Ht. destruct event_strings as (E1 & E2 & E3 & E4 & E5 & E6 & _).
  destruct (safe_parse _ _ _) as [[p code]|] eqn:Hp; [|apply Ok_inj in Ht as <-; by apply rejected_wf].
  apply safe_parse_Some in Hp as (kvs & Hk & _ & Hp). apply inertPayload_wf in Hk; [|done].
  unfold failure_payload_of in Hp. read_fields Hp. injection Hp as <- <-.
  pose proof (get_str_wf _ _ _ Hk E0) as Hcode.
  destruct (find_branch state x) as [[c b]|reason] eqn:Hf; [|apply Ok_inj in Ht as <-; by apply rejected_wf].
  destruct (find_branch_wf _ _ _ _ Hs Hf) as [Hc Hb].
  case_match; [apply Ok_inj in Ht as <-; by apply rejected_wf|].
  case_match; [apply Ok_inj in Ht as <-; by apply duplicate_result_wf|].
  apply Ok_inj in Ht as <-. destruct (branch_strings b Hb) as (B1 & B2 & B3).
  apply branch_decision_wf.
  - apply update_branch_wf; [done..|]. intros b' [W1 W2 W3 W4 W5]%branch_wf_iff. by apply branch_wf_iff.
  - apply cluster_wf_iff in Hc as [C1 _ _ _ _ _]. cbn [app]. solve_fields; assumption.
Qed.

Lemma jobLeased_wf state t :
  record_wf state → jobLeased state event = Ok t → transition_wf t.
Proof using Hevent.
  intros Hs Ht. unfold jobLeased in Ht.
  destruct (safe_parse _ _ _) as [p|]; [|apply Ok_inj in Ht as <-; by apply rejected_wf].
  destruct (find_branch state p) as [[c b]|reason] eqn:Hf; [|apply Ok_inj in Ht as <-; by apply rejected_wf].
  destruct (find_branch_wf _ _ _ _ Hs Hf) as [Hc Hb].
  destruct (branch_strings b Hb) as (B1 & B2 & B3). destruct (proj1 (cluster_wf_iff c) Hc) as [C1 _ _ _ _ _].
  case_match; [apply Ok_inj in Ht as <-; by apply rejected_wf|].
  case_match.
  { apply Ok_inj in Ht as <-. apply branch_decision_wf; [done|]. cbn [app]. solve_fields; assumption. }
  case_match; [apply Ok_inj in Ht as <-; by apply rejected_wf|].
  apply Ok_inj in Ht as <-. apply branch_decision_wf; [|cbn [app]; solve_fields; assumption].
  apply update_branch_wf; [done..|]. intros b' [W1 W2 W3 W4 W5]%branch_wf_iff. by apply branch_wf_iff.
Qed.

Lemma dispatch_wf state config t :
  record_wf state → dispatch state event context config = Ok t → transition_wf t.
Proof using Hevent Hcontext.
  intros Hs Ht. unfold dispatch in Ht. destruct event_strings as (E1 & E2 & _).
  destruct (cluster_event (d_type event)) as [[]|];
    [| | | | |apply Ok_inj in Ht as <-; apply noEffects_wf; [done|solve_fields; assumption]];
    (case_match; [|apply Ok_inj in Ht as <-; by apply rejected_wf]).
  - by eapply sourceObserved_wf.
  - by eapply timerFired_wf.
  - by eapply jobSucceeded_wf.
  - by eapply jobLeased_wf.
  - by eapply jobFailed_wf.
Qed.

(** [apply], with the state it starts from and the handler's transition. *)
Lemma apply_Ok previous t :
  json_wf previous → apply previous event context = Ok t →
  ∃ state config t0, parseState previous = Ok state ∧ record_wf state ∧
    read_config (rx_config context) = Ok config ∧ dispatch state event context config = Ok t0 ∧
    (t = t0 ∨ t = rejectedWithoutStateChange state event "aggregate-state-capacity-exceeded").
Proof.
  intros Hw Ht. unfold apply in Ht. apply res_bind_Ok in Ht as (s & Hs & Ht).
  destruct (parseState_Ok _ _ Hw Hs) as (Hsw & He & _).
  apply res_bind_Ok in Ht as (s' & Hs' & Ht). apply copy_spec in Hs' as [_ ->]; [|done].
  change (nrm s) with s in Ht. apply res_bind_Ok in Ht as (cfg & Hcfg & Ht).
  apply res_bind_Ok in Ht as (t0 & Ht0 & Ht). exists s, cfg, t0. split_and!; try done.
  unfold projectedTransition in Ht. apply res_bind_Ok in Ht as (n & _ & Ht).
  case_match; apply Ok_inj in Ht as <-; auto.
Qed.

Lemma apply_wf previous t : json_wf previous → apply previous event context = Ok t → transition_wf t.
Proof using Hevent Hcontext.
  intros Hw Ht. destruct (apply_Ok _ _ Hw Ht) as (s & cfg & t0 & _ & Hs & _ & Ht0 & [->| ->]).
  - by eapply dispatch_wf.
  - by apply rejected_wf0.
Qed.

Lemma route_wf a : route event = Ok a → units_ok a.
Proof using Hevent.
  intros Ha. unfold route in Ha. destruct event_strings as (E1 & E2 & E3 & E4 & E5 & E6 & _).
  destruct (if _ && _ then _ else _) as [[c f]|].
  { by eapply is_hash_units_ok, canonicalHash_hash. }
  apply Ok_inj in Ha as <-.
  assert (Hq : units_ok (quarantine event)) by exact (units_app (js "quarantine:") _ (js_units _) E2).
  assert (Hjob : ∀ kvs p, json_wf (JObj kvs) → job_payload_of kvs = Some p → units_ok (jp_clusterId p)).
  { intros kvs p Hw Hp. unfold job_payload_of in Hp. read_fields Hp. injection Hp as <-. by eapply get_str_wf. }
  assert (Hsn : ∀ kvs, (if d_schemaVersion event =? 1 then inertPayload (d_payload event) else None) = Some kvs →
    json_wf (JObj kvs)) by (intros kvs; case_match; [by apply inertPayload_wf|done]).
  destruct (cluster_event (d_type event)) as [[]|]; try exact Hq.
  - destruct (safe_parse _ _ _) as [p|] eqn:Hp; [|exact Hq].
    apply safe_parse_Some in Hp as (kvs & Hk & _ & Hp). apply Hsn in Hk. unfold timer_payload_of in Hp.
    read_fields Hp. injection Hp as <-. by eapply get_str_wf.
  - destruct (safe_parse _ _ _) as [[[p pv] r]|] eqn:Hp; [|exact Hq].
    apply safe_parse_Some in Hp as (kvs & Hk & _ & Hp). apply Hsn in Hk. unfold success_payload_of in Hp.
    read_fields Hp. injection Hp as <- <- <-. by eapply Hjob.
  - destruct (safe_parse _ _ _) as [p|] eqn:Hp; [|exact Hq].
    apply safe_parse_Some in Hp as (kvs & Hk & _ & Hp). apply Hsn in Hk. by eapply Hjob.
  - destruct (safe_parse _ _ _) as [[p code]|] eqn:Hp; [|exact Hq].
    apply safe_parse_Some in Hp as (kvs & Hk & _ & Hp). apply Hsn in Hk. unfold failure_payload_of in Hp.
    read_fields Hp. injection Hp as <- <-. by eapply Hjob.
Qed.
End values.
