(* ===== verification/EarningsSpec.v ===== *)
(** * The life of an earnings cluster

    An abstract account of the reducer: the steps an aggregate may take on one event,
    without payloads, texts or drafts.  Every transition of the reducer is such a step;
    what holds along all sequences of steps is in [EarningsLife]. *)
From S2P Require Import Prelude JsString JsNumber Json JsonLimits JsonParse JsonClaims Hash Zod.
From S2P Require Import JsonObject Event EventFacts Codec Records Run Processing Commit Processor.
From S2P Require Import StoreFacts ProcessorFacts.
From S2P Require Import Evidence EvidenceFacts SecContracts EarningsCluster.
From S2P Require Import EarningsSchemas EarningsReducer EarningsFacts EarningsValues.

Section spec.
Context (config : EarningsClusterConfig) (event : StoredEvent) (context : ReducerContext).
Local Abbreviation now := (rx_nowMs context).

(** The event is about the job of branch [b], at this attempt and with this token. *)
Definition job_event (b : AnalysisBranch) (attempt fencingToken : Z) : Prop :=
  d_causationId event = Some (br_jobId b) ∧
  ∃ kvs p, inertPayload (d_payload event) = Some kvs ∧ job_payload_of kvs = Some p ∧
    jp_branchId p = rq_branchId b ∧ jp_jobId p = br_jobId b ∧
    jp_inputBundleHash p = rq_inputBundleHash b ∧ jp_attempt p = attempt ∧
    jp_fencingToken p = fencingToken ∧ 0 < attempt ∧ 0 < fencingToken.

(** A pending branch is leased to later attempts, and ends once. *)
Inductive branch_step (b : AnalysisBranch) : AnalysisBranch → Prop :=
  | Step_leased attempt fencingToken :
      d_type event = js "kernel.job.leased" → br_status b = Branch_pending →
      job_event b attempt fencingToken →
      br_expectedAttempt b < attempt → br_expectedFencingToken b < fencingToken →
      branch_step b (branch_leased attempt fencingToken b)
  | Step_succeeded resultHash :
      d_type event = js "kernel.job.succeeded" → br_status b = Branch_pending →
      job_event b (br_expectedAttempt b) (br_expectedFencingToken b) →
      branch_step b (branch_succeeded (c_eventId event) resultHash b)
  | Step_failed errorCode :
      d_type event = js "kernel.job.failed" → br_status b = Branch_pending →
      job_event b (br_expectedAttempt b) (br_expectedFencingToken b) →
      branch_step b (branch_failed (c_eventId event) errorCode b).

(** What the analysis of a cluster is requested with: its sources, frozen. *)
Record branch_requested (c : EarningsCluster) (b : AnalysisBranch) : Prop := {
  bq_status : br_status b = Branch_pending;
  bq_requestedAtMs : br_requestedAtMs b = now;
  bq_attempt : br_expectedAttempt b = 0;
  bq_token : br_expectedFencingToken b = 0;
  bq_result : br_resultEventId b = None ∧ br_resultHash b = None ∧ br_errorCode b = None;
  bq_inputs : rq_inputSources b = analysisInputs (cl_sources c);
  bq_catalog : rq_artifactCatalog b = artifactCatalog (rq_inputSources b);
  bq_contract : rq_analysisContract b = expectedAnalysisContract context;
  bq_memberships : membershipCount (rq_inputSources b) <= MAX_EARNINGS_ANALYSIS_MEMBERSHIPS;
  bq_payload : accepts_ref analysisJobPayloadSchema
    (JObj (analysis_payload (cl_clusterId c) (br_request b))) = true;
  bq_jobId : is_hash (br_jobId b) = true
}.

(** The event, as a source. *)
Definition source_of_event (s : SourceObservation) : Prop :=
  d_type event = js "earnings.source.observed" ∧
  ai_eventId (so_input s) = c_eventId event ∧ ai_eventHash (so_input s) = s_eventHash event ∧
  ai_position (so_input s) = s_position event ∧
  ai_primaryArtifactHash (so_input s) = p_artifactHash (d_provider event) ∧
  so_receivedAtMs s = c_receivedAtMs event.

Definition joined (c : EarningsCluster) (s : SourceObservation) : EarningsCluster :=
  with_sources c (cl_sources c ++ [s]).

Definition with_branch (c : EarningsCluster) (b : AnalysisBranch) : EarningsCluster :=
  with_branches c (cl_analysisBranches c ++ [b]).

(** Sources are admitted while the cluster is open and has room. *)
Definition joinable (c : EarningsCluster) (s : SourceObservation) : Prop :=
  source_of_event s ∧ cl_status c = Cluster_open ∧ now < cl_lifecycleEndsAtMs c ∧
  Z.of_nat (length (cl_sources c)) < cf_maxSourcesPerCluster config.

Definition has_branch_room (c : EarningsCluster) : Prop :=
  Z.of_nat (length (cl_analysisBranches c)) < cf_maxAnalysisBranches config.

(** The cluster's timer of a type, not fired yet. *)
Definition pending_timer (c : EarningsCluster) (ty : TimerType) (t : TimerExpectation) : Prop :=
  d_type event = js "kernel.timer.fired" ∧ d_causationId event = Some (tm_jobId t) ∧
  find (is_timer ty) (cl_timers c) = Some t ∧ tm_status t = Timer_pending.

Definition fire (c : EarningsCluster) (ty : TimerType) : EarningsCluster :=
  with_timers c (update_first (is_timer ty) timer_fired (cl_timers c)).

Inductive cluster_step (c : EarningsCluster) : EarningsCluster → Prop :=
  | Step_joined s : joinable c s → cluster_step c (joined c s)
  | Step_analysed s b :
      joinable c s → has_branch_room c → branch_requested (joined c s) b →
      rq_branchId b ∉ map (λ b', rq_branchId (br_request b')) (cl_analysisBranches c) →
      cluster_step c (with_branch (joined c s) b)
  | Step_early ty t jobId :
      pending_timer c ty t → now < tm_scheduledForLogicalMs t →
      cluster_step c (with_timers c (update_first (is_timer ty) (timer_rescheduled jobId) (cl_timers c)))
  | Step_window t :
      pending_timer c Mirror_debounce t → tm_scheduledForLogicalMs t <= now →
      cluster_step c (fire c Mirror_debounce)
  | Step_batch t b :
      pending_timer c Mirror_debounce t → tm_scheduledForLogicalMs t <= now →
      has_branch_room c → branch_requested (fire c Mirror_debounce) b →
      cluster_step c (with_branch (fire c Mirror_debounce) b)
  | Step_finalized t :
      pending_timer c Lifecycle_finalize t → tm_scheduledForLogicalMs t <= now →
      cluster_step c (finalized (fire c Lifecycle_finalize) now)
  | Step_branch id b b' :
      find (is_branch id) (cl_analysisBranches c) = Some b → branch_step b b' →
      cluster_step c (with_branches c (update_first (is_branch id) (λ _, b') (cl_analysisBranches c))).

(** The cluster of a first source. *)
Record cluster_opened (c : EarningsCluster) : Prop := {
  co_status : cl_status c = Cluster_open ∧ cl_finalizedAtMs c = None;
  co_first : cl_firstObservedAtMs c = now;
  co_ends : cl_lifecycleEndsAtMs c = now + cf_lifecycleMs config;
  co_safe : is_safe_integer (cl_lifecycleEndsAtMs c) = true;
  co_source : ∃ s, source_of_event s ∧ cl_sources c = [s];
  co_timers : ∃ m l, cl_timers c = [m; l] ∧
    tm_timerType m = Mirror_debounce ∧ tm_status m = Timer_pending ∧
    tm_scheduledForLogicalMs m = now + cf_mirrorDebounceMs config ∧
    tm_timerType l = Lifecycle_finalize ∧ tm_status l = Timer_pending ∧
    tm_scheduledForLogicalMs l = cl_lifecycleEndsAtMs c;
  co_branch : ∃ b, branch_requested c b ∧ rq_phase b = First_source ∧ cl_analysisBranches c = [b]
}.

Inductive state_step (s : EarningsClusterState) : EarningsClusterState → Prop :=
  | State_kept : state_step s s
  | State_rejected : state_step s (with_rejection s)
  | State_opened c :
      es_cluster s = None → cluster_opened c → es_aggregateId s = cl_clusterId c →
      state_step s (with_cluster s c)
  | State_changed c c' :
      es_cluster s = Some c → cluster_step c c' → state_step s (with_cluster s c').
End spec.

(** ** Every transition is a step *)

Lemma update_first_const {A} (p : A → bool) f (l : list A) b :
  find p l = Some b → update_first p f l = update_first p (λ _, f b) l.
Proof.
  induction l as [|x l IH]; [done|]. cbn [find update_first]. destruct (p x); [by intros [= ->]|].
  intros H. by rewrite IH.
Qed.

Section refines.
Context `{Sha256} `{Zod}.
Context (event : StoredEvent) (context : ReducerContext) (config : EarningsClusterConfig).

Local Abbreviation step := (state_step config event context).

(** The outcome of a transition, as a step. *)
Definition steps (s : EarningsClusterState) (t : ClusterTransition) : Prop := step s (ct_state t).

Lemma rejected_steps s reason : steps s (rejected s event reason).
Proof. apply State_rejected. Qed.
Lemma rejected_steps0 s reason : steps s (rejectedWithoutStateChange s event reason).
Proof. apply State_kept. Qed.

Lemma analysisDraft_requested c phase b j :
  analysisDraft (rx_runId context) c phase (rx_nowMs context) (expectedAnalysisContract context) = Ok (b, j) →
  branch_requested context c b ∧ rq_phase b = phase.
Proof.
  intros Hd. unfold analysisDraft in Hd. apply res_bind_Ok in Hd as (u1 & Hm & Hd).
  apply throw_if_Ok in Hm. bool_prop. apply res_bind_Ok in Hd as (u2 & _ & Hd).
  apply res_bind_Ok in Hd as (ch & Hch & Hd). apply res_bind_Ok in Hd as (bh & Hbh & Hd).
  apply res_bind_Ok in Hd as (id & Hid & Hd). apply res_bind_Ok in Hd as (v & Hv & Hd).
  apply parse_Ok in Hv as [Hv _].
  apply res_bind_Ok in Hd as (jid & Hjid & Hd). apply Ok_inj in Hd. injection Hd as <- <-.
  unfold deriveJobId in Hjid. apply res_bind_Ok in Hjid as (ph & _ & Hjid). apply canonicalHash_hash in Hjid.
  split; [|done]. by split.
Qed.

Lemma timerDraft_timer runId clusterId ty due rec t j :
  timerDraft runId clusterId ty due rec = Ok (t, j) →
  tm_timerType t = ty ∧ tm_scheduledForLogicalMs t = due ∧ tm_status t = Timer_pending.
Proof.
  intros Hd. unfold timerDraft in Hd. apply res_bind_Ok in Hd as (ih & _ & Hd).
  apply res_bind_Ok in Hd as (id & _ & Hd). apply Ok_inj in Hd. by injection Hd as <- <-.
Qed.

Lemma first_source_steps s clusterId cik period source t :
  es_cluster s = None → es_aggregateId s = clusterId → source_of_event event source →
  first_source s event context config clusterId cik period source = Ok t → steps s t.
Proof.
  intros Hc Ha Hsrc Ht. unfold first_source in Ht.
  case_match eqn:E; [apply Ok_inj in Ht as <-; apply rejected_steps|]. bool_prop.
  apply res_pair_Ok in Ht as ([m mj] & Hm & Ht). apply res_pair_Ok in Ht as ([l lj] & Hl & Ht).
  apply res_pair_Ok in Ht as ([b bj] & Hb & Ht). cbn [fst snd] in Ht.
  apply timerDraft_timer in Hm as (M1 & M2 & M3). apply timerDraft_timer in Hl as (L1 & L2 & L3).
  apply analysisDraft_requested in Hb as [Hreq Hph].
  apply res_bind_Ok in Ht as (id & _ & Ht). apply Ok_inj in Ht as <-.
  apply State_opened; [done| |done]. split; try done.
  - by exists source.
  - by exists m, l.
  - exists b. split; [by destruct Hreq; split|done].
Qed.

Lemma later_source_steps s clusterId c source t :
  es_cluster s = Some c → source_of_event event source →
  later_source s event context config clusterId c source = Ok t → steps s t.
Proof.
  intros Hc Hsrc Ht. unfold later_source in Ht.
  case_match; [apply Ok_inj in Ht as <-; apply rejected_steps|].
  case_match eqn:Hopen; [apply Ok_inj in Ht as <-; apply State_kept|].
  case_match eqn:Hroom; [apply Ok_inj in Ht as <-; apply State_kept|]. bool_prop.
  assert (Hj : joinable config event context c source).
  { split; [done|]. destruct (cl_status c); [|done]. done. }
  destruct (find _ _) as [m|]; [apply Ok_inj in Ht as <-; by apply (State_changed _ _ _ _ c), Step_joined|].
  destruct (debouncing_timer c source _) as [mt|];
    [apply Ok_inj in Ht as <-; by apply (State_changed _ _ _ _ c), Step_joined|].
  unfold source_analysed in Ht.
  case_match eqn:Hbr; [apply Ok_inj in Ht as <-; apply State_kept|]. bool_prop.
  destruct (analysisDraft _ _ _ _ _) as [[b j]|e] eqn:Hb;
    [|case_match; [apply Ok_inj in Ht as <-; apply State_kept|done]].
  apply analysisDraft_requested in Hb as [Hb _].
  case_match eqn:Hdup; apply Ok_inj in Ht as <-.
  - by apply (State_changed _ _ _ _ c), Step_joined.
  - apply (State_changed _ _ _ _ c); [done|]. apply Step_analysed; try done.
    intros (b' & Hid & Hin)%list_elem_of_fmap.
    assert (Ht : existsb (is_branch (rq_branchId b)) (cl_analysisBranches c) = true); [|].
    { apply existsb_exists. exists b'. split; [by apply list_elem_of_In|].
      apply bool_decide_eq_true. by rewrite Hid. }
    cbn [with_sources cl_analysisBranches] in Hdup. congruence.
Qed.

Lemma cluster_event_type ty k :
  cluster_event ty = Some k → ty = match k with
    | Source_observed => js "earnings.source.observed" | Timer_event => js "kernel.timer.fired"
    | Job_succeeded => js "kernel.job.succeeded" | Job_leased => js "kernel.job.leased"
    | Job_failed => js "kernel.job.failed" end.
Proof. unfold cluster_event. repeat case_bool_decide; intros E; by simplify_eq. Qed.

Lemma sourceObserved_steps s t :
  cluster_event (d_type event) = Some Source_observed →
  sourceObserved s event context config = Ok t → steps s t.
Proof.
  intros Hty Ht. unfold sourceObserved in Ht.
  destruct (inertPayload (d_payload event)) as [snapshot|]; [|apply Ok_inj in Ht as <-; apply rejected_steps].
  case_match; [apply Ok_inj in Ht as <-; apply State_kept|].
  destruct (safe_parse _ _ _) as [p|]; [|apply Ok_inj in Ht as <-; apply rejected_steps].
  apply res_bind_Ok in Ht as (id & Hid & Ht).
  case_match eqn:Hagg; [apply Ok_inj in Ht as <-; apply rejected_steps|].
  case_match eqn:Hart; [apply Ok_inj in Ht as <-; apply rejected_steps|]. bool_prop.
  destruct (if _ =? 1 then _ else _) as [h ev|[] reason];
    [|apply Ok_inj in Ht as <-; apply rejected_steps|apply Ok_inj in Ht as <-; apply State_kept].
  assert (Hsrc : source_of_event event (new_source event p h ev)).
  { split; [by apply cluster_event_type in Hty|]. done. }
  destruct (es_cluster s) as [c|] eqn:Hc.
  - by eapply later_source_steps.
  - by eapply first_source_steps.
Qed.

Lemma mirror_window_steps s c tm t :
  es_cluster s = Some c → pending_timer event c Mirror_debounce tm →
  tm_scheduledForLogicalMs tm <= rx_nowMs context →
  mirror_window_complete s context config (fire c Mirror_debounce) = Ok t → steps s t.
Proof.
  intros Hc Hp Hdue Ht. unfold mirror_window_complete in Ht.
  assert (Hw : step s (with_cluster s (fire c Mirror_debounce)))
    by (apply (State_changed _ _ _ _ c); [done|]; by eapply Step_window).
  apply res_bind_Ok in Ht as (rep & _ & Ht). destruct rep; [by apply Ok_inj in Ht as <-|].
  case_match eqn:Hroom; [by apply Ok_inj in Ht as <-|]. bool_prop.
  destruct (analysisDraft _ _ _ _ _) as [[b j]|e] eqn:Hb; [|case_match; [by apply Ok_inj in Ht as <-|done]].
  apply analysisDraft_requested in Hb as [Hb _].
  apply res_bind_Ok in Ht as (n & _ & Ht). case_match; [by apply Ok_inj in Ht as <-|].
  apply Ok_inj in Ht as <-. apply (State_changed _ _ _ _ c); [done|]. by eapply Step_batch.
Qed.

Lemma timerFired_steps s t :
  cluster_event (d_type event) = Some Timer_event →
  timerFired s event context config = Ok t → steps s t.
Proof.
  intros Hty Ht. apply cluster_event_type in Hty. unfold timerFired in Ht.
  destruct (safe_parse _ _ _) as [p|]; [|apply Ok_inj in Ht as <-; apply rejected_steps].
  destruct (es_cluster s) as [c|] eqn:Hc; [|apply Ok_inj in Ht as <-; apply rejected_steps].
  case_match; [apply Ok_inj in Ht as <-; apply rejected_steps|].
  destruct (find _ (cl_timers c)) as [tm|] eqn:Hf; [|apply Ok_inj in Ht as <-; apply rejected_steps].
  case_match eqn:Hstale; [apply Ok_inj in Ht as <-; apply State_kept|].
  case_match eqn:Hfired; [apply Ok_inj in Ht as <-; apply State_kept|]. bool_prop.
  assert (Hp : pending_timer event c (tp_timerType p) tm).
  { split; [done|]. split; [congruence|]. split; [done|]. by destruct (tm_status tm). }
  pose proof (find_elem _ _ _ Hf) as [_ Hty']. apply bool_decide_eq_true in Hty'.
  case_match eqn:Hdue; bool_prop.
  - unfold timer_early in Ht. apply res_pair_Ok in Ht as ([x j] & _ & Ht). apply Ok_inj in Ht as <-.
    apply (State_changed _ _ _ _ c); [done|]. by eapply Step_early.
  - rewrite <-Hty' in *. destruct (tm_timerType tm).
    + by eapply mirror_window_steps.
    + apply Ok_inj in Ht as <-. apply (State_changed _ _ _ _ c); [done|]. by eapply Step_finalized.
Qed.

(** The branch a job event found is the one that changes. *)
Lemma update_branch_steps s p c b f :
  find_branch s p = inl (c, b) → branch_step event b (f b) → step s (update_branch s c (jp_branchId p) f).
Proof.
  intros Hf Hb. unfold find_branch in Hf. destruct (es_cluster s) as [c'|] eqn:Hc; [|done].
  case_match; [done|]. destruct (find _ _) as [b'|] eqn:Hfind; [|done]. injection Hf as -> ->.
  apply (State_changed _ _ _ _ c); [done|]. rewrite (update_first_const _ _ _ _ Hfind).
  by eapply Step_branch.
Qed.

(** What the schema says of a job event's counters. *)
Lemma positive_field fs kvs k z :
  accepts_ref (SObject fs) (JObj kvs) = true → (k, positiveSafeInteger) ∈ fs →
  get_int k kvs = Some z → 0 < z.
Proof.
  intros Ha Hk Hz. unfold get_int in Hz. destruct (lookup_key k kvs) as [w|] eqn:E; [|done].
  pose proof (object_field _ _ _ _ _ Ha Hk E) as Hw.
  destruct w as [| |[z'| |]| | |]; try done. injection Hz as ->.
  cbn in Hw. bool_prop. lia.
Qed.

Lemma job_counters more kvs p :
  accepts_ref (SObject (job_event_fields ++ more)) (JObj kvs) = true → job_payload_of kvs = Some p →
  0 < jp_attempt p ∧ 0 < jp_fencingToken p.
Proof.
  intros Ha Hp. unfold job_payload_of in Hp. read_fields Hp. injection Hp as <-.
  assert (Hin : ∀ f, f ∈ job_event_fields → f ∈ job_event_fields ++ more)
    by (intros f Hf; apply elem_of_app; by left).
  split; eapply positive_field; try done; apply Hin; unfold job_event_fields;
    solve_elem.
Qed.

Lemma job_matches_event s p c b kvs more :
  find_branch s p = inl (c, b) → job_matches event b p = true →
  inertPayload (d_payload event) = Some kvs → job_payload_of kvs = Some p →
  accepts_ref (SObject (job_event_fields ++ more)) (JObj kvs) = true →
  job_event event b (jp_attempt p) (jp_fencingToken p).
Proof.
  intros Hf Hm Hk Hp Ha. destruct (job_counters _ _ _ Ha Hp) as [Hpa Hpf]. unfold job_matches in Hm. bool_prop. split; [congruence|].
  exists kvs, p. split_and!; try done. unfold find_branch in Hf. destruct (es_cluster s); [|done].
  case_match; [done|]. destruct (find _ _) as [b'|] eqn:Hb; [|done]. injection Hf as -> ->.
  apply find_elem in Hb as [_ Hb]. unfold is_branch in Hb. by bool_prop.
Qed.

Lemma jobSucceeded_steps s t :
  cluster_event (d_type event) = Some Job_succeeded →
  jobSucceeded s event context config = Ok t → steps s t.
Proof.
  intros Hty Ht. apply cluster_event_type in Hty. unfold jobSucceeded in Ht.
  destruct (safe_parse _ _ _) as [[[p pv] result]|] eqn:Hp; [|apply Ok_inj in Ht as <-; apply rejected_steps].
  apply safe_parse_Some in Hp as (kvs & Hk & Ha & Hp). unfold success_payload_of in Hp. read_fields Hp.
  injection Hp as -> -> ->.
  apply res_bind_Ok in Ht as (u & _ & Ht). apply res_bind_Ok in Ht as (text & _ & Ht).
  case_match; [apply Ok_inj in Ht as <-; apply rejected_steps|].
  destruct (find_branch s p) as [[c b]|reason] eqn:Hf; [|apply Ok_inj in Ht as <-; apply rejected_steps].
  case_match eqn:Hm; [apply Ok_inj in Ht as <-; apply rejected_steps|].
  case_match eqn:Hst; [apply Ok_inj in Ht as <-; apply State_kept|]. bool_prop.
  apply res_bind_Ok in Ht as ([pv'|reason] & _ & Ht); [|apply Ok_inj in Ht as <-; apply rejected_steps].
  unfold record_success in Ht. apply res_bind_Ok in Ht as (rh & _ & Ht).
  apply res_bind_Ok in Ht as (id & _ & Ht). apply Ok_inj in Ht as <-.
  eapply update_branch_steps; [exact Hf|]. apply Step_succeeded; [done..|].
  unfold lease_matches in *. bool_prop. pose proof (job_matches_event _ _ _ _ _ _ Hf ltac:(eassumption) Hk E Ha) as Hj.
  congruence.
Qed.

Lemma jobFailed_steps s t :
  cluster_event (d_type event) = Some Job_failed → jobFailed s event = Ok t → steps s t.
Proof.
  intros Hty Ht. apply cluster_event_type in Hty. unfold jobFailed in Ht.
  destruct (safe_parse _ _ _) as [[p code]|] eqn:Hp; [|apply Ok_inj in Ht as <-; apply rejected_steps].
  apply safe_parse_Some in Hp as (kvs & Hk & Ha & Hp). unfold failure_payload_of in Hp. read_fields Hp.
  injection Hp as -> ->.
  destruct (find_branch s p) as [[c b]|reason] eqn:Hf; [|apply Ok_inj in Ht as <-; apply rejected_steps].
  case_match eqn:Hm; [apply Ok_inj in Ht as <-; apply rejected_steps|].
  case_match eqn:Hst; [apply Ok_inj in Ht as <-; apply State_kept|]. bool_prop.
  apply Ok_inj in Ht as <-. eapply update_branch_steps; [exact Hf|]. apply Step_failed; [done..|].
  unfold lease_matches in *. bool_prop. pose proof (job_matches_event _ _ _ _ _ _ Hf ltac:(eassumption) Hk E Ha) as Hj.
  congruence.
Qed.

Lemma jobLeased_steps s t :
  cluster_event (d_type event) = Some Job_leased → jobLeased s event = Ok t → steps s t.
Proof.
  intros Hty Ht. apply cluster_event_type in Hty. unfold jobLeased in Ht.
  destruct (safe_parse _ _ _) as [p|] eqn:Hp; [|apply Ok_inj in Ht as <-; apply rejected_steps].
  apply safe_parse_Some in Hp as (kvs & Hk & Ha & Hp).
  destruct (find_branch s p) as [[c b]|reason] eqn:Hf; [|apply Ok_inj in Ht as <-; apply rejected_steps].
  case_match eqn:Hm; [apply Ok_inj in Ht as <-; apply rejected_steps|].
  case_match eqn:Hst; [apply Ok_inj in Ht as <-; apply State_kept|].
  case_match eqn:Hold; [apply Ok_inj in Ht as <-; apply rejected_steps|]. bool_prop.
  apply Ok_inj in Ht as <-. eapply update_branch_steps; [exact Hf|]. apply Step_leased; try done.
  exact (job_matches_event _ _ _ _ _ [] Hf ltac:(eassumption) Hk Hp Ha).
Qed.

Lemma dispatch_steps s t : dispatch s event context config = Ok t → steps s t.
Proof.
  intros Ht. unfold dispatch in Ht.
  destruct (cluster_event (d_type event)) as [[]|] eqn:Hty;
    [| | | | |apply Ok_inj in Ht as <-; apply State_kept];
    (case_match; [|apply Ok_inj in Ht as <-; apply rejected_steps]).
  - by apply sourceObserved_steps.
  - by apply timerFired_steps.
  - by apply jobSucceeded_steps.
  - by apply jobLeased_steps.
  - by apply jobFailed_steps.
Qed.
End refines.
