(* ===== verification/EarningsLife.v ===== *)
(** * What holds along the life of a cluster

    Sequences of calls of [apply], each on the state the previous one returned: they
    refine the steps of [EarningsSpec], only add to what was recorded, and keep the
    cluster within its bounds. *)
From S2P Require Import Prelude JsString JsNumber Json JsonLimits JsonParse JsonClaims Hash Zod.
From S2P Require Import JsonObject Event EventFacts Codec Records Run Processing Commit Processor.
From S2P Require Import StoreFacts ProcessorFacts.
From S2P Require Import Evidence EvidenceFacts SecContracts EarningsCluster.
From S2P Require Import EarningsSchemas EarningsReducer EarningsFacts EarningsValues EarningsSpec.

Section life.
Context `{Sha256} `{Zod}.

(** States the reducer reaches from [s], the configuration being fixed. *)
Inductive path (config : jobject) (s : EarningsClusterState) : EarningsClusterState → Prop :=
  | path_here : path config s s
  | path_next s1 event context t :
      path config s s1 → stored_wf event → context_wf context → rx_config context = config →
      apply (to_json s1) event context = Ok t → path config s (ct_state t).

Lemma apply_step s event context t :
  record_wf s → apply (to_json s) event context = Ok t →
  ∃ config, read_config (rx_config context) = Ok config ∧
    state_step config event context s (ct_state t).
Proof.
  intros Hw Ht. destruct (apply_Ok _ _ _ _ Hw Ht) as (s' & cfg & t0 & Hs & _ & Hcfg & Ht0 & Hcase).
  destruct (parseState_Ok _ _ Hw Hs) as (_ & _ & _ & _ & Hof & _).
  rewrite of_json_to_json in Hof. injection Hof as <-. exists cfg. split; [done|].
  destruct Hcase as [->| ->]; [|apply State_kept]. by apply dispatch_steps in Ht0.
Qed.

Lemma path_wf config s s' : record_wf s → path config s s' → record_wf s'.
Proof.
  intros Hw. induction 1 as [|s1 e cx t Hp IH He Hcx _ Ht]; [done|].
  by apply (apply_wf e He cx Hcx) in Ht as [? _ _ _].
Qed.

(** ** Nothing recorded is lost or changed *)

(** A branch keeps its request; its attempts and tokens grow; a completed one is final. *)
Record branch_later (b b' : AnalysisBranch) : Prop := {
  bl_request : br_request b' = br_request b;
  bl_job : br_jobId b' = br_jobId b ∧ br_requestedAtMs b' = br_requestedAtMs b;
  bl_attempt : br_expectedAttempt b <= br_expectedAttempt b';
  bl_token : br_expectedFencingToken b <= br_expectedFencingToken b';
  bl_final : br_status b ≠ Branch_pending → b' = b
}.

Record timer_later (t t' : TimerExpectation) : Prop := {
  tl_same : tm_timerType t' = tm_timerType t ∧
    tm_scheduledForLogicalMs t' = tm_scheduledForLogicalMs t;
  tl_final : tm_status t = Timer_fired → t' = t
}.

(** [l'] continues [l]: its first elements are later versions of [l]'s. *)
Definition extends {A} (R : A → A → Prop) (l l' : list A) : Prop :=
  Forall2 R l (take (length l) l').

Record cluster_later (c c' : EarningsCluster) : Prop := {
  cl_identity : cl_clusterId c' = cl_clusterId c ∧ cl_issuerCik c' = cl_issuerCik c ∧
    cl_fiscalPeriod c' = cl_fiscalPeriod c;
  cl_times : cl_firstObservedAtMs c' = cl_firstObservedAtMs c ∧
    cl_lifecycleEndsAtMs c' = cl_lifecycleEndsAtMs c;
  cl_final : cl_status c = Cluster_finalized →
    cl_status c' = Cluster_finalized ∧ cl_sources c' = cl_sources c ∧
    cl_finalizedAtMs c' = cl_finalizedAtMs c;
  cl_appended : cl_sources c `prefix_of` cl_sources c';
  cl_timers_later : extends timer_later (cl_timers c) (cl_timers c');
  cl_branches_later : extends branch_later (cl_analysisBranches c) (cl_analysisBranches c')
}.

Record state_later (s s' : EarningsClusterState) : Prop := {
  sl_aggregate : es_aggregateId s' = es_aggregateId s;
  sl_rejections : es_rejectionCount s <= es_rejectionCount s';
  sl_cluster : ∀ c, es_cluster s = Some c → ∃ c', es_cluster s' = Some c' ∧ cluster_later c c'
}.

#[export] Instance branch_later_preorder : PreOrder branch_later.
Proof.
  split; [by split|]. intros a b c [A1 [A2 A3] A4 A5 A6] [B1 [B2 B3] B4 B5 B6].
  split; [congruence|split; congruence|lia|lia|].
  intros Ha. pose proof (A6 Ha) as ->. by apply B6.
Qed.

#[export] Instance timer_later_preorder : PreOrder timer_later.
Proof.
  split; [by split|]. intros a b c [[A1 A2] A3] [[B1 B2] B3]. split; [split; congruence|].
  intros Ha. pose proof (A3 Ha) as ->. by apply B3.
Qed.

Lemma Forall2_refl' {A} (R : A → A → Prop) `{!Reflexive R} l : Forall2 R l l.
Proof. induction l; by constructor. Qed.

#[export] Instance extends_preorder {A} (R : A → A → Prop) `{!PreOrder R} : PreOrder (extends R).
Proof.
  split.
  - intros l. unfold extends. rewrite take_ge by done. apply Forall2_refl', _.
  - intros l1 l2 l3 H1 H2. unfold extends in *. pose proof (Forall2_length _ _ _ H1) as Hl.
    rewrite length_take in Hl. apply (Forall2_take _ _ _ (length l1)) in H2.
    rewrite take_take in H2. replace (length l1 `min` length l2)%nat with (length l1) in H2 by lia.
    eapply Forall2_trans; [|exact H1|exact H2]. intros; by etrans.
Qed.

#[export] Instance cluster_later_preorder : PreOrder cluster_later.
Proof.
  split.
  - split; done || (by unfold extends; rewrite take_ge; [apply Forall2_refl', _|done]).
  - intros a b c [(A1 & A2 & A3) [A4 A5] A6 A7 A8 A9] [(B1 & B2 & B3) [B4 B5] B6 B7 B8 B9].
    split; [split_and!; congruence|split; congruence| |by etrans..].
    intros Ha. destruct (A6 Ha) as (Hb & Es & Ef). destruct (B6 Hb) as (Hc & Es' & Ef').
    split_and!; congruence.
Qed.

#[export] Instance state_later_preorder : PreOrder state_later.
Proof.
  split.
  - split; [done..|]. intros c Hc. by exists c.
  - intros a b c [A1 A2 A3] [B1 B2 B3]. split; [congruence|lia|]. intros k Hk.
    destruct (A3 k Hk) as (k1 & Hk1 & L1). destruct (B3 k1 Hk1) as (k2 & Hk2 & L2).
    exists k2. split; [done|by etrans].
Qed.

Lemma extends_snoc {A} (R : A → A → Prop) `{!Reflexive R} l x : extends R l (l ++ [x]).
Proof. unfold extends. rewrite take_app_length. by apply Forall2_refl'. Qed.

Lemma extends_update {A} (R : A → A → Prop) `{!Reflexive R} p f (l : list A) :
  (∀ x, find p l = Some x → R x (f x)) → extends R l (update_first p f l).
Proof.
  intros Hf. unfold extends. rewrite take_ge by (by rewrite update_first_length).
  apply update_first_Forall2; [intros; reflexivity|done].
Qed.

Lemma branch_step_later event b b' : branch_step event b b' → branch_later b b'.
Proof.
  intros []; (split; [done|done| | |congruence]);
    cbn [branch_leased branch_succeeded branch_failed br_expectedAttempt br_expectedFencingToken]; lia.
Qed.

Lemma fired_later t : tm_status t = Timer_pending → timer_later t (timer_fired t).
Proof. intros Ht. split; [done|congruence]. Qed.

Lemma fire_later event c ty t :
  pending_timer event c ty t → extends timer_later (cl_timers c) (cl_timers (fire c ty)).
Proof.
  intros (_ & _ & Hf & Hs). apply extends_update; [apply _|]. intros x Hx. rewrite Hf in Hx.
  injection Hx as <-. by apply fired_later.
Qed.

(** A finalised cluster's lifecycle timer has fired. *)
Definition lifecycle_fired (c : EarningsCluster) : Prop :=
  ∀ t, find (is_timer Lifecycle_finalize) (cl_timers c) = Some t → tm_status t = Timer_fired.

Lemma cluster_step_later config event context c c' :
  (cl_status c = Cluster_finalized → lifecycle_fired c) →
  cluster_step config event context c c' → cluster_later c c'.
Proof.
  intros Hfin Hs.
  destruct Hs as [s Hj|s b Hj Hr Hb Hid|ty t jobId Hp Hd|t Hp Hd|t b Hp Hd Hr Hb|t Hp Hd|id b b' Hf Hb];
    split; try done; try reflexivity.
  all: try (intros Hc; destruct Hj as (_ & Ho & _); congruence).
  - by apply prefix_app_r.
  - by apply prefix_app_r.
  - apply extends_snoc, _.
  - apply extends_update; [apply _|]. destruct Hp as (_ & _ & Hf & Hst). intros x Hx.
    rewrite Hf in Hx. injection Hx as <-. split; [done|congruence].
  - by eapply fire_later.
  - by eapply fire_later.
  - apply extends_snoc, _.
  - intros Hc. destruct Hp as (_ & _ & Hf & Hst). specialize (Hfin Hc _ Hf). congruence.
  - by eapply fire_later.
  - apply extends_update; [apply _|]. intros x Hx. rewrite Hf in Hx. injection Hx as <-.
    by eapply branch_step_later.
Qed.

(** ** The invariant *)

(** The outcome of a branch, by its status. *)
Definition branch_outcome (b : AnalysisBranch) : Prop :=
  match br_status b with
  | Branch_pending => br_resultEventId b = None ∧ br_resultHash b = None ∧ br_errorCode b = None
  | Branch_succeeded => br_resultEventId b ≠ None ∧ br_resultHash b ≠ None ∧ br_errorCode b = None
  | Branch_failed => br_resultEventId b ≠ None ∧ br_resultHash b = None ∧ br_errorCode b ≠ None
  end.

Record branch_inv (sources : list SourceObservation) (b : AnalysisBranch) : Prop := {
  bi_frozen : ∃ n, (0 < n <= length sources)%nat ∧ rq_inputSources b = analysisInputs (take n sources);
  bi_catalog : rq_artifactCatalog b = artifactCatalog (rq_inputSources b);
  bi_memberships : membershipCount (rq_inputSources b) <= MAX_EARNINGS_ANALYSIS_MEMBERSHIPS;
  bi_outcome : branch_outcome b;
  bi_leases : 0 <= br_expectedAttempt b ∧ 0 <= br_expectedFencingToken b;
  bi_leased : br_status b ≠ Branch_pending → 0 < br_expectedAttempt b ∧ 0 < br_expectedFencingToken b
}.

(** The two timers, and the cluster's status by the second. *)
Record timers_inv (config : EarningsClusterConfig) (c : EarningsCluster) (m l : TimerExpectation) : Prop := {
  ti_mirror : tm_timerType m = Mirror_debounce ∧
    tm_scheduledForLogicalMs m = cl_firstObservedAtMs c + cf_mirrorDebounceMs config;
  ti_lifecycle : tm_timerType l = Lifecycle_finalize ∧
    tm_scheduledForLogicalMs l = cl_lifecycleEndsAtMs c;
  ti_status : match cl_status c with
    | Cluster_open => tm_status l = Timer_pending ∧ cl_finalizedAtMs c = None
    | Cluster_finalized => tm_status l = Timer_fired ∧
        ∃ t, cl_finalizedAtMs c = Some t ∧ cl_lifecycleEndsAtMs c <= t
    end
}.

Record cluster_inv (config : EarningsClusterConfig) (c : EarningsCluster) : Prop := {
  ci_ends : cl_lifecycleEndsAtMs c = cl_firstObservedAtMs c + cf_lifecycleMs config ∧
    is_safe_integer (cl_lifecycleEndsAtMs c) = true;
  ci_sources : 1 <= Z.of_nat (length (cl_sources c)) <= cf_maxSourcesPerCluster config;
  ci_branches : 1 <= Z.of_nat (length (cl_analysisBranches c)) <= cf_maxAnalysisBranches config;
  ci_timers : ∃ m l, cl_timers c = [m; l] ∧ timers_inv config c m l;
  ci_requests : Forall (branch_inv (cl_sources c)) (cl_analysisBranches c)
}.

Definition state_inv (config : EarningsClusterConfig) (s : EarningsClusterState) : Prop :=
  0 <= es_rejectionCount s ∧
  ∀ c, es_cluster s = Some c → es_aggregateId s = cl_clusterId c ∧ cluster_inv config c.

Lemma read_config_bounds kvs config :
  read_config kvs = Ok config →
  1 <= cf_mirrorDebounceMs config ∧ 1 <= cf_lifecycleMs config ∧
  1 <= cf_maxSourcesPerCluster config <= MAX_EARNINGS_CLUSTER_SOURCES ∧
  1 <= cf_maxAnalysisBranches config <= MAX_EARNINGS_ANALYSIS_BRANCHES.
Proof.
  intros Hr. unfold read_config in Hr. apply res_bind_Ok in Hr as (v & Hv & Hr).
  apply parse_Ok in Hv as [Ha _]. apply or_throw_Ok in Hr. unfold config_of in Hr. read_fields Hr.
  injection Hr as <-. cbn [cf_mirrorDebounceMs cf_lifecycleMs cf_maxSourcesPerCluster cf_maxAnalysisBranches].
  assert (Hf : ∀ k z cs, get_int (js k) kvs = Some z →
    lookup_key (js k) (match configSchema with SObject fs => fs | _ => [] end) = Some (SNumber cs) →
    forallb (run_number_check (NInt z)) cs = true).
  { intros k z cs Hz Hk. unfold get_int in Hz. destruct (lookup_key (js k) kvs) as [w|] eqn:Hw; [|done].
    apply lookup_key_elem in Hk. pose proof (object_field _ _ _ _ _ Ha Hk Hw) as Hacc.
    destruct w as [| |[n| |]| | |]; try done. by injection Hz as ->. }
  pose proof (Hf "mirrorDebounceMs"%string _ _ E eq_refl) as F1.
  pose proof (Hf "lifecycleMs"%string _ _ E0 eq_refl) as F2.
  pose proof (Hf "maxSourcesPerCluster"%string _ _ E1 eq_refl) as F3.
  pose proof (Hf "maxAnalysisBranches"%string _ _ E2 eq_refl) as F4.
  cbn [forallb run_number_check] in F1, F2, F3, F4. bool_prop. lia.
Qed.

Lemma update_first_Forall_found {A} (P : A → Prop) p f (l : list A) :
  Forall P l → (∀ x, find p l = Some x → P x → P (f x)) → Forall P (update_first p f l).
Proof.
  induction 1 as [|x l Hx Hl IH]; intros Hf; cbn [update_first]; [constructor|]. cbn [find] in Hf.
  destruct (p x); constructor; auto.
Qed.

Lemma branch_inv_prefix ss ss' b : ss `prefix_of` ss' → branch_inv ss b → branch_inv ss' b.
Proof.
  intros [k ->] [(n & Hn & Hi) B2 B3 B4 B5 B6]. split; try done. exists n. rewrite length_app.
  split; [lia|]. by rewrite take_app_le by lia.
Qed.

Lemma requested_inv context c b :
  branch_requested context c b → (0 < length (cl_sources c))%nat → branch_inv (cl_sources c) b.
Proof.
  intros [Q1 Q2 Q3 Q4 Q5 Q6 Q7 Q8 Q9 _ _] Hl. split; try done.
  - exists (length (cl_sources c)). rewrite firstn_all. split; [lia|done].
  - unfold branch_outcome. by rewrite Q1.
  - rewrite Q3, Q4. lia.
Qed.

Lemma branch_step_inv event ss b b' : branch_step event b b' → branch_inv ss b → branch_inv ss b'.
Proof.
  intros Hs [B1 B2 B3 B4 B5 B6]. unfold branch_outcome in B4.
  destruct Hs as [a f Hty Hst (_ & kvs & p & Hp) Ha Hf|h Hty Hst (_ & kvs & p & Hp)|code Hty Hst (_ & kvs & p & Hp)];
    rewrite Hst in B4; destruct B4 as (R1 & R2 & R3); (split; try done).
  - unfold branch_outcome. cbn [branch_leased br_status br_resultEventId br_resultHash br_errorCode].
    rewrite Hst. by split_and!.
  - cbn [branch_leased br_expectedAttempt br_expectedFencingToken]. lia.
  - intros _. cbn [branch_succeeded br_expectedAttempt br_expectedFencingToken]. tauto.
  - intros _. cbn [branch_failed br_expectedAttempt br_expectedFencingToken]. tauto.
Qed.

Lemma cluster_inv_fired config c : cluster_inv config c → cl_status c = Cluster_finalized → lifecycle_fired c.
Proof.
  intros [_ _ _ (m & l & Ht & [[T1 _] [T2 _] T3]) _] Hs t. rewrite Ht. cbn [find]. unfold is_timer.
  rewrite T1, T2, Hs in *. cbn [bool_decide decide_rel]. rewrite bool_decide_eq_false_2 by done.
  rewrite bool_decide_eq_true_2 by done. intros [= <-]. apply T3.
Qed.

Lemma opened_inv kvs config event context c :
  read_config kvs = Ok config → cluster_opened config event context c → cluster_inv config c.
Proof.
  intros (_ & _ & Hs & Hb)%read_config_bounds
    [[O1 O2] O3 O4 O5 (s & _ & Es) (m & l & Et & T1 & T2 & T3 & T4 & T5 & T6) (b & Hr & _ & Eb)].
  split.
  - by rewrite O3.
  - rewrite Es. cbn [length]. lia.
  - rewrite Eb. cbn [length]. lia.
  - exists m, l. split; [done|]. split; [by rewrite O3|done|by rewrite O1].
  - rewrite Eb. constructor; [|constructor]. apply (requested_inv context); [done|]. rewrite Es. cbn. lia.
Qed.

(** Firing or rescheduling the first timer of a type. *)
Lemma timers_update config c m l ty f :
  cl_timers c = [m; l] → timers_inv config c m l →
  update_first (is_timer ty) f (cl_timers c) =
    match ty with Mirror_debounce => [f m; l] | Lifecycle_finalize => [m; f l] end.
Proof.
  intros -> [[T1 _] [T2 _] _]. cbn [update_first]. unfold is_timer. rewrite T1, T2.
  by destruct ty; cbn; repeat (case_bool_decide; try done).
Qed.

Lemma pending_of config event c ty t m l :
  cl_timers c = [m; l] → timers_inv config c m l → pending_timer event c ty t →
  match ty with Mirror_debounce => t = m | Lifecycle_finalize => t = l ∧ cl_status c = Cluster_open end.
Proof.
  intros Ht [[T1 _] [T2 _] T3] (_ & _ & Hf & Hs). rewrite Ht in Hf. cbn [find] in Hf.
  unfold is_timer in Hf. rewrite T1, T2 in Hf.
  destruct ty; repeat (case_bool_decide; try done); injection Hf as <-; [done|]. split; [done|].
  destruct (cl_status c); [done|]. destruct T3 as [T3 _]. congruence.
Qed.

Lemma cluster_step_inv kvs config event context c c' :
  read_config kvs = Ok config → cluster_inv config c → cluster_step config event context c c' →
  cluster_inv config c'.
Proof.
  intros Hcfg [I1 I2 I3 (m & l & Ht & Htm) I5] Hs.
  assert (Hgrow : ∀ s, Forall (branch_inv (cl_sources c ++ [s])) (cl_analysisBranches c)).
  { intros s. eapply Forall_impl; [exact I5|]. intros b. apply branch_inv_prefix. by apply prefix_app_r. }
  assert (Hkeep : ∀ c', cl_timers c' = cl_timers c → cl_status c' = cl_status c →
    cl_finalizedAtMs c' = cl_finalizedAtMs c → cl_firstObservedAtMs c' = cl_firstObservedAtMs c →
    cl_lifecycleEndsAtMs c' = cl_lifecycleEndsAtMs c →
    ∃ m l, cl_timers c' = [m; l] ∧ timers_inv config c' m l).
  { intros k E1 E2 E3 E4 E5. exists m, l. rewrite E1. split; [done|]. destruct Htm.
    split; by rewrite ?E2, ?E3, ?E4, ?E5. }
  destruct Hs as [s (_ & _ & _ & Hr)|s b (_ & _ & _ & Hr) Hbr Hb Hid|ty t jobId Hp Hd|t Hp Hd|t b Hp Hd Hbr Hb
    |t Hp Hd|id b b' Hf Hb].
  - split; try done; [|by apply Hkeep|apply Hgrow]. cbn [joined with_sources cl_sources].
    rewrite length_app. cbn [length]. lia.
  - unfold has_branch_room in Hbr. split; try done; [| |by apply Hkeep|];
      cbn [with_branch with_branches joined with_sources cl_sources cl_analysisBranches].
    + rewrite length_app. cbn [length]. lia.
    + rewrite length_app. cbn [length]. lia.
    + apply Forall_app_2; [apply Hgrow|]. constructor; [|constructor].
      apply (requested_inv context _ _ Hb). cbn [joined with_sources cl_sources]. rewrite length_app. cbn. lia.
  - pose proof (pending_of _ _ _ _ _ _ _ Ht Htm Hp) as Hty. destruct Hp as (_ & _ & _ & Hst).
    split; try done. cbn [with_timers cl_timers]. rewrite (timers_update config _ m l) by done.
    destruct Htm as [T1 T2 T3]. destruct ty; do 2 eexists; (split; [reflexivity|]); split; done.
  - split; try done. cbn [fire with_timers cl_timers]. rewrite (timers_update config _ m l) by done.
    destruct Htm as [T1 T2 T3]. do 2 eexists. split; [reflexivity|]. by split.
  - unfold has_branch_room in Hbr. split; try done.
    + cbn [with_branch with_branches fire with_timers cl_analysisBranches]. rewrite length_app. cbn [length]. lia.
    + cbn [with_branch with_branches fire with_timers cl_timers]. rewrite (timers_update config _ m l) by done.
      destruct Htm as [T1 T2 T3]. do 2 eexists. split; [reflexivity|]. by split.
    + apply Forall_app_2; [done|]. constructor; [|constructor].
      apply (requested_inv context _ _ Hb). cbn [fire with_timers cl_sources]. lia.
  - destruct (pending_of _ _ _ _ _ _ _ Ht Htm Hp) as [-> Hopen]. split; try done.
    cbn [finalized fire with_timers cl_timers]. rewrite (timers_update config _ m l) by done.
    destruct Htm as [T1 [T2 T2'] T3]. do 2 eexists. split; [reflexivity|]. split; [done|done|].
    cbn [finalized cl_status cl_finalizedAtMs cl_lifecycleEndsAtMs]. split; [done|].
    eexists. split; [reflexivity|]. change (cl_lifecycleEndsAtMs c <= rx_nowMs context).
    rewrite <-T2'. exact Hd.
  - split; try done; [|by apply Hkeep|];
      cbn [with_branches cl_analysisBranches].
    + by rewrite update_first_length.
    + apply update_first_Forall_found; [done|]. intros x Hx Hin. rewrite Hf in Hx. injection Hx as <-.
      by eapply branch_step_inv.
Qed.

Lemma state_step_inv kvs config event context s s' :
  read_config kvs = Ok config → state_inv config s → state_step config event context s s' →
  state_inv config s' ∧ state_later s s'.
Proof.
  intros Hcfg [I1 I2] Hs. destruct Hs as [| |c Hc Ho Ha|c c' Hc Hst].
  - split; [by split|reflexivity].
  - split; [split; [cbn; lia|exact I2]|]. split; [done|cbn; lia|]. intros c Hc. by exists c.
  - split; [|split; [done|done|congruence]]. split; [done|]. intros k [= <-]. split; [done|].
    by eapply opened_inv.
  - destruct (I2 _ Hc) as [Ha Hi]. pose proof (cluster_inv_fired _ _ Hi) as Hfin.
    pose proof (cluster_step_later _ _ _ _ _ Hfin Hst) as Hl.
    split; [split; [done|]|].
    + intros k [= <-]. split; [|by eapply cluster_step_inv].
      cbn [with_cluster es_aggregateId]. rewrite Ha. symmetry. apply (cl_identity _ _ Hl).
    + split; [done|done|]. intros k Hk. rewrite Hc in Hk. injection Hk as <-. by exists c'.
Qed.

(** A branch that was there either is unchanged or took a step. *)
Lemma cluster_step_branch config event context c c' i b b' :
  cluster_step config event context c c' →
  cl_analysisBranches c !! i = Some b → cl_analysisBranches c' !! i = Some b' →
  b' = b ∨ branch_step event b b'.
Proof.
  intros Hs Hb Hb'.
  destruct Hs as [s _|s b1 _ _ _ _|ty t jobId _ _|t _ _|t b1 _ _ _ _|t _ _|id b1 b2 Hf Hbs];
    try (left; cbn in Hb'; congruence).
  - left. cbn in Hb'. rewrite lookup_app_l in Hb' by (by eapply lookup_lt_Some). congruence.
  - left. cbn in Hb'. rewrite lookup_app_l in Hb' by (by eapply lookup_lt_Some). congruence.
  - cbn [with_branches cl_analysisBranches] in Hb'.
    assert (HF : Forall2 (λ x y, y = x ∨ branch_step event x y) (cl_analysisBranches c)
      (update_first (is_branch id) (λ _, b2) (cl_analysisBranches c))).
    { apply update_first_Forall2; [by left|]. intros x Hx. right. congruence. }
    exact (Forall2_lookup_lr _ _ _ _ _ _ HF Hb Hb').
Qed.

Lemma state_step_branch config event context s s' c c' i b b' :
  state_step config event context s s' → es_cluster s = Some c → es_cluster s' = Some c' →
  cl_analysisBranches c !! i = Some b → cl_analysisBranches c' !! i = Some b' →
  b' = b ∨ branch_step event b b'.
Proof.
  intros Hs Hc Hc' Hb Hb'. destruct Hs as [| |k Hk _ _|k k' Hk Hst].
  - left. congruence.
  - cbn in Hc'. left. congruence.
  - congruence.
  - rewrite Hc in Hk. injection Hk as <-. injection Hc' as ->. by eapply cluster_step_branch.
Qed.

(** The state [initialState] gives an aggregate. *)
Definition initial_state (aggregateId : jsstring) : EarningsClusterState :=
  {| es_aggregateId := aggregateId; es_cluster := None; es_rejectionCount := 0 |}.

Lemma initial_state_inv config a : state_inv config (initial_state a).
Proof. by split. Qed.

Lemma path_inv kvs config s s' :
  read_config kvs = Ok config → record_wf s → state_inv config s → path kvs s s' →
  state_inv config s' ∧ state_later s s'.
Proof.
  intros Hcfg Hw Hi. induction 1 as [|s1 e cx t Hp IH He Hcx Ec Ht]; [split; [done|reflexivity]|].
  destruct IH as [IH1 IH2]. pose proof (path_wf _ _ _ Hw Hp) as Hw1.
  destruct (apply_step _ _ _ _ Hw1 Ht) as (cfg & Hcfg' & Hst). rewrite Ec, Hcfg in Hcfg'.
  apply Ok_inj in Hcfg' as <-. destruct (state_step_inv _ _ _ _ _ _ Hcfg IH1 Hst) as [J1 J2].
  split; [done|by etrans].
Qed.
End life.
