(* ===== verification/EarningsClaims.v ===== *)
(** * A concrete cluster

    A filing is observed, its analysis is leased and succeeds: three events, the states
    they lead to, over the checksum of [Fixture]. *)
From S2P Require Import Prelude JsString JsNumber Json JsonLimits JsonParse JsonClaims.
From S2P Require Import Hash Zod JsonObject Event EventFacts EventLog EventLogFacts.
From S2P Require Import Codec Records Run Processing Commit Processor StoreFacts Fixture.
From S2P Require Import ProcessorFacts Evidence EvidenceFacts SecContracts.
From S2P Require Import EarningsCluster EarningsSchemas EarningsReducer EarningsFacts.
From S2P Require Import EarningsValues EarningsSpec EarningsLife.

Definition digest_of (d : Z) : jsstring := replicate 64 d.

Definition cluster_config : jobject :=
  [(js "mirrorDebounceMs", jint 10); (js "lifecycleMs", jint 1000);
   (js "maxSourcesPerCluster", jint 4); (js "maxAnalysisBranches", jint 3);
   (js "maxAnalysisResultBytes", jint 1000)].

Definition cluster_identities : RunIdentities := {|
  ri_extractorVersion := js "x1"; ri_featureSetId := None; ri_modelId := Some (js "m1");
  ri_promptId := None; ri_datasetId := None |}.

Definition cluster_context (nowMs : Z) : ReducerContext := {|
  rx_nowMs := nowMs; rx_runId := js "run"; rx_behaviorHash := ZERO_HASH;
  rx_identities := cluster_identities; rx_config := cluster_config; rx_configHash := ZERO_HASH |}.

(** The event [n] of a log, with this type, cause and payload. *)
Definition cluster_stored (n : Z) (type : string) (causationId : option jsstring) (artifact : jsstring)
    (payload : jobject) : StoredEvent := {|
  s_captured := {|
    c_draft := {| d_type := js type; d_schemaVersion := 1; d_source := js "fmp";
      d_subject := js "earnings:320193:2024-Q1"; d_occurredAtMs := None; d_correlationId := js "c";
      d_causationId := causationId;
      d_provider := {| p_provider := js "fmp"; p_recordId := js "r1"; p_revisionId := js "1";
        p_artifactHash := artifact |};
      d_payload := payload |};
    c_eventId := digest_of (96 + n); c_streamVersion := dec n; c_receivedAtMs := n;
    c_logicalAtMs := n |};
  s_position := dec n; s_contentHash := ZERO_HASH; s_previousEventHash := ZERO_HASH;
  s_eventHash := digest_of (48 + n) |}.

Definition source_event : StoredEvent :=
  cluster_stored 1 "earnings.source.observed" None (digest_of 57)
    [(js "issuerCik", JStr (js "320193")); (js "fiscalPeriod", JStr (js "2024-Q1"));
     (js "sourceKind", JStr (js "filing")); (js "artifactHash", JStr (digest_of 57));
     (js "publishedAtMs", JNull); (js "timestampConfidence", JStr (js "exact"));
     (js "originalTimestamp", JNull)].

Definition cluster_id : jsstring :=
  match deriveClusterId (js "320193") (js "2024-Q1") with Ok id => id | Throw _ => [] end.

Definition state0 : EarningsClusterState :=
  {| es_aggregateId := cluster_id; es_cluster := None; es_rejectionCount := 0 |}.

Definition transition_or (s : EarningsClusterState) (r : res ClusterTransition) : ClusterTransition :=
  match r with
  | Ok t => t
  | Throw _ => {| ct_state := s; ct_decisions := []; ct_jobs := []; ct_outbox := [] |}
  end.

Definition transition1 : ClusterTransition := Eval vm_compute in
  transition_or state0 (apply (to_json state0) source_event (cluster_context 5)).
Definition state1 : EarningsClusterState := ct_state transition1.

(** The first branch of the cluster in a state. *)
Definition first_branch (s : EarningsClusterState) : option AnalysisBranch :=
  c ← es_cluster s; head (cl_analysisBranches c).

Definition job_event_payload (b : AnalysisBranch) : jobject :=
  [(js "jobType", JStr (js "earnings.cluster.analyze")); (js "clusterId", JStr cluster_id);
   (js "branchId", JStr (rq_branchId b)); (js "jobId", JStr (br_jobId b));
   (js "inputBundleHash", JStr (rq_inputBundleHash b)); (js "attempt", jint 1);
   (js "fencingToken", jint 1)].

Definition lease_event : StoredEvent := Eval vm_compute in
  match first_branch state1 with
  | Some b => cluster_stored 2 "kernel.job.leased" (Some (br_jobId b)) ZERO_HASH (job_event_payload b)
  | None => source_event
  end.

Definition transition2 : ClusterTransition := Eval vm_compute in
  transition_or state1 (apply (to_json state1) lease_event (cluster_context 6)).
Definition state2 : EarningsClusterState := ct_state transition2.

(** The result, with the provenance the branch froze. *)
Definition success_event : StoredEvent := Eval vm_compute in
  match first_branch state2 with
  | Some b => cluster_stored 3 "kernel.job.succeeded" (Some (br_jobId b)) ZERO_HASH
      (job_event_payload b ++
       [(js "provenance", JObj (provenance_fields {|
           pv_contract := rq_analysisContract b; pv_analysisContractHash := rq_analysisContractHash b;
           pv_inputSources := rq_inputSources b; pv_artifactCatalog := rq_artifactCatalog b |}));
        (js "result", JObj [(js "score", jint 7)])])
  | None => source_event
  end.

Definition transition3 : ClusterTransition := Eval vm_compute in
  transition_or state2 (apply (to_json state2) success_event (cluster_context 7)).
Definition state3 : EarningsClusterState := ct_state transition3.

(** The lifecycle timer, long after. *)
Definition lifecycle_event : StoredEvent := Eval vm_compute in
  match es_cluster state3 ≫= λ c, last (cl_timers c) with
  | Some t => cluster_stored 4 "kernel.timer.fired" (Some (tm_jobId t)) ZERO_HASH
      [(js "timerType", jenum (tm_timerType t)); (js "clusterId", JStr cluster_id);
       (js "jobId", JStr (tm_jobId t));
       (js "scheduledForLogicalMs", jint (tm_scheduledForLogicalMs t));
       (js "fencingToken", jint 1)]
  | None => source_event
  end.

Definition transition4 : ClusterTransition := Eval vm_compute in
  transition_or state3 (apply (to_json state3) lifecycle_event (cluster_context 2000)).
Definition state4 : EarningsClusterState := ct_state transition4.

Lemma apply1 : apply (to_json state0) source_event (cluster_context 5) = Ok transition1.
Proof. vm_compute. reflexivity. Qed.
Lemma apply2 : apply (to_json state1) lease_event (cluster_context 6) = Ok transition2.
Proof. vm_compute. reflexivity. Qed.
Lemma apply3 : apply (to_json state2) success_event (cluster_context 7) = Ok transition3.
Proof. vm_compute. reflexivity. Qed.
Lemma apply4 : apply (to_json state3) lifecycle_event (cluster_context 2000) = Ok transition4.
Proof. vm_compute. reflexivity. Qed.

(** The cluster and its branch before and after the result. *)
Definition cluster2 : EarningsCluster :=
  ltac:(let c := eval vm_compute in (es_cluster state2) in match c with Some ?x => exact x end).
Definition cluster3 : EarningsCluster :=
  ltac:(let c := eval vm_compute in (es_cluster state3) in match c with Some ?x => exact x end).
Definition branch2 : AnalysisBranch :=
  ltac:(let b := eval vm_compute in (first_branch state2) in match b with Some ?x => exact x end).
Definition branch3 : AnalysisBranch :=
  ltac:(let b := eval vm_compute in (first_branch state3) in match b with Some ?x => exact x end).

Definition parsed_config : EarningsClusterConfig :=
  ltac:(let c := eval vm_compute in (config_of cluster_config) in match c with Some ?x => exact x end).

Lemma config_parsed : read_config cluster_config = Ok parsed_config.
Proof. vm_compute. reflexivity. Qed.

Lemma cluster_context_wf now : context_wf (cluster_context now).
Proof. split; apply json_wfb_wf || apply js_units; vm_compute; reflexivity. Qed.

Lemma source_event_wf : stored_wf source_event.
Proof. apply json_wfb_wf. vm_compute. reflexivity. Qed.
Lemma lease_event_wf : stored_wf lease_event.
Proof. apply json_wfb_wf. vm_compute. reflexivity. Qed.
Lemma success_event_wf : stored_wf success_event.
Proof. apply json_wfb_wf. vm_compute. reflexivity. Qed.
Lemma lifecycle_event_wf : stored_wf lifecycle_event.
Proof. apply json_wfb_wf. vm_compute. reflexivity. Qed.

(** ** A run whose extractor version is too long for any cluster *)

Definition long_identities : RunIdentities := {|
  ri_extractorVersion := replicate 300 120; ri_featureSetId := None; ri_modelId := None;
  ri_promptId := None; ri_datasetId := None |}.

Definition long_manifest : RunManifest := {|
  rm_runId := js "run"; rm_kind := Live; rm_effectsAllowed := true;
  rm_behavior := {| rb_reducerName := js "earnings-cluster"; rb_reducerVersion := js "3.0.0";
    rb_buildDigest := ZERO_HASH; rb_schemaRegistryDigest := ZERO_HASH;
    rb_configuration := cluster_config; rb_identities := long_identities |} |}.

Definition long_context (nowMs : Z) : ReducerContext := {|
  rx_nowMs := nowMs; rx_runId := js "run"; rx_behaviorHash := ZERO_HASH;
  rx_identities := long_identities; rx_config := cluster_config; rx_configHash := ZERO_HASH |}.

Lemma long_identity_accepted : is_ok (validateRunManifest (to_json long_manifest)) = true.
Proof. vm_compute. reflexivity. Qed.

Lemma long_identity_throws : apply (to_json state0) source_event (long_context 5) = Throw ZodError.
Proof. vm_compute. reflexivity. Qed.

(** What such a run does with an event that opens no cluster. *)
Definition long_transition : ClusterTransition := Eval vm_compute in
  transition_or state0 (apply (to_json state0) lease_event (long_context 5)).

Lemma long_applied : apply (to_json state0) lease_event (long_context 5) = Ok long_transition.
Proof. vm_compute. reflexivity. Qed.

(** ** What the earnings reducer guarantees *)

(** ** Routing *)

Section routing.
Context `{Sha256} `{Zod}.

Lemma padStart0_length n s : n <= js_length (padStart0 n s).
Proof. unfold padStart0, js_length. rewrite length_app, length_replicate. lia. Qed.

Lemma padStart0_idemp n s : padStart0 n (padStart0 n s) = padStart0 n s.
Proof.
  pose proof (padStart0_length n s). unfold padStart0 at 1.
  replace (Z.to_nat (n - js_length (padStart0 n s))) with 0%nat by lia. done.
Qed.

Lemma deriveClusterId_padded cik period :
  deriveClusterId (canonicalizeCik cik) period = deriveClusterId cik period.
Proof. unfold deriveClusterId, canonicalizeCik. by rewrite padStart0_idemp. Qed.

Lemma string_field fs kvs k cs s :
  accepts_ref (SObject fs) (JObj kvs) = true → (k, SString cs) ∈ fs → get_str k kvs = Some s →
  forallb (run_string_check s) cs = true.
Proof.
  intros Ha Hk Hs. unfold get_str in Hs. destruct (lookup_key k kvs) as [w|] eqn:E; [|done].
  pose proof (object_field _ _ _ _ _ Ha Hk E) as Hw. destruct w; try done. by injection Hs as ->.
Qed.

Lemma get_str_lookup k kvs s : get_str k kvs = Some s → lookup_key k kvs = Some (JStr s).
Proof. unfold get_str. destruct (lookup_key k kvs) as [[]|]; try done. by intros [= ->]. Qed.

(** The looser schema of [route] accepts what the handler's schemas accept. *)
Lemma source_routes v kvs p :
  accepts_ref (if v =? 1 then sourceObservedV1Schema else sourceObservedV2Schema) (JObj kvs) = true →
  source_payload_of v kvs = Some p →
  safe_parse sourceRouteSchema route_fields (Some kvs) = Some (sp_issuerCik p, sp_fiscalPeriod p).
Proof.
  intros Ha Hp. unfold source_payload_of in Hp. read_fields Hp. injection Hp as <-.
  cbn [sp_issuerCik sp_fiscalPeriod].
  assert (Hc : is_cik x = true ∧ FISCAL_PERIOD x0 = true).
  { destruct (v =? 1); unfold sourceObservedV1Schema, sourceObservedV2Schema in Ha.
    - pose proof (string_field _ _ _ _ _ Ha ltac:(apply list_elem_of_here) E) as F1.
      pose proof (string_field _ _ _ _ _ Ha ltac:(apply list_elem_of_further, list_elem_of_here) E0) as F2.
      cbn [forallb run_string_check] in F1, F2. by bool_prop.
    - pose proof (string_field _ _ _ _ _ Ha ltac:(apply list_elem_of_here) E) as F1.
      pose proof (string_field _ _ _ _ _ Ha ltac:(apply list_elem_of_further, list_elem_of_here) E0) as F2.
      cbn [forallb run_string_check] in F1, F2. bool_prop. split; [|done].
      unfold digits_exactly in *. bool_prop. unfold is_cik. rewrite !andb_true_iff, !Z.leb_le. split_and!; [lia|lia|done]. }
  unfold safe_parse. cbn [mbind option_bind]. rewrite accepts_unique.
  assert (Hr : accepts_ref sourceRouteSchema (JObj kvs) = true).
  { unfold sourceRouteSchema. cbn [accepts_ref forallb fst snd].
    rewrite (get_str_lookup _ _ _ E), (get_str_lookup _ _ _ E0). cbn [accepts_ref forallb run_string_check].
    destruct Hc as [-> ->]. done. }
  rewrite Hr. unfold route_fields. by rewrite E, E0.
Qed.

Lemma parsed_aggregate s s' c :
  record_wf s → parseState (to_json s) = Ok s' → es_cluster s = Some c → es_aggregateId s = cl_clusterId c.
Proof.
  intros Hw Hs Hc. destruct (parseState_Ok _ _ Hw Hs) as (_ & _ & _ & Ha & _).
  unfold stateSchema in Ha. cbn [accepts_ref] in Ha. apply andb_true_iff in Ha as [_ Ha].
  unfold check_as, check_with, to_json in Ha. cbn [as_obj mbind option_bind] in Ha.
  rewrite of_to in Ha. unfold check_state in Ha. rewrite Hc in Ha. by bool_prop.
Qed.

Context (event : StoredEvent) (context : ReducerContext) (config : EarningsClusterConfig).

(** A handler leaves the cluster alone, or the event routes to the aggregate. *)
Definition routed (s : EarningsClusterState) (t : ClusterTransition) : Prop :=
  es_cluster (ct_state t) = es_cluster s ∨ route event = Ok (es_aggregateId s).

Lemma sourceObserved_routed s t :
  cluster_event (d_type event) = Some Source_observed →
  (d_schemaVersion event =? 1) || (d_schemaVersion event =? 2) = true →
  sourceObserved s event context config = Ok t → routed s t.
Proof.
  intros Hty Hv Ht. unfold sourceObserved in Ht.
  destruct (inertPayload (d_payload event)) as [snapshot|] eqn:Hsn; [|apply Ok_inj in Ht as <-; by left].
  case_match; [apply Ok_inj in Ht as <-; by left|].
  destruct (safe_parse _ _ _) as [p|] eqn:Hp; [|apply Ok_inj in Ht as <-; by left].
  apply safe_parse_Some in Hp as (kvs & Hk & Ha & Hp). injection Hk as <-.
  apply res_bind_Ok in Ht as (id & Hid & Ht).
  case_match eqn:Hagg; [apply Ok_inj in Ht as <-; by left|]. bool_prop. right.
  unfold route. rewrite Hty, Hv, (bool_decide_eq_true_2 _ eq_refl), Hsn. cbn [andb].
  rewrite (source_routes _ _ _ Ha Hp). rewrite deriveClusterId_padded in Hid. by rewrite Hid, Hagg.
Qed.

Lemma timerFired_routed s t :
  cluster_event (d_type event) = Some Timer_event → d_schemaVersion event =? 1 = true →
  (∀ c, es_cluster s = Some c → es_aggregateId s = cl_clusterId c) →
  timerFired s event context config = Ok t → routed s t.
Proof.
  intros Hty Hv Hid Ht. unfold timerFired in Ht.
  destruct (safe_parse _ _ _) as [p|] eqn:Hp; [|apply Ok_inj in Ht as <-; by left].
  destruct (es_cluster s) as [c|] eqn:Hc; [|apply Ok_inj in Ht as <-; by left].
  case_match eqn:Hcl; [apply Ok_inj in Ht as <-; by left|]. bool_prop. right.
  unfold route. rewrite Hty, (proj2 (Z.eqb_eq _ _) Hv), bool_decide_eq_false_2 by done.
  cbn [andb]. rewrite Hp, (Hid c eq_refl), Hcl. done.
Qed.

Lemma find_branch_routed s p c b :
  (∀ c, es_cluster s = Some c → es_aggregateId s = cl_clusterId c) →
  find_branch s p = inl (c, b) → es_aggregateId s = jp_clusterId p.
Proof.
  intros Hid Hf. unfold find_branch in Hf. destruct (es_cluster s) as [c'|]; [|done].
  case_match; [done|]. bool_prop. by rewrite (Hid c').
Qed.

Lemma job_routed s t :
  (∀ c, es_cluster s = Some c → es_aggregateId s = cl_clusterId c) → d_schemaVersion event =? 1 = true →
  (cluster_event (d_type event) = Some Job_succeeded ∧ jobSucceeded s event context config = Ok t ∨
   cluster_event (d_type event) = Some Job_leased ∧ jobLeased s event = Ok t ∨
   cluster_event (d_type event) = Some Job_failed ∧ jobFailed s event = Ok t) → routed s t.
Proof.
  intros Hid Hv Hcase. unfold routed, route. rewrite Hv.
  destruct Hcase as [[Hty Ht]|[[Hty Ht]|[Hty Ht]]]; rewrite Hty;
    rewrite bool_decide_eq_false_2 by done; cbn [andb].
  - unfold jobSucceeded in Ht.
    destruct (safe_parse _ _ _) as [[[p pv] result]|]; [|apply Ok_inj in Ht as <-; by left].
    apply res_bind_Ok in Ht as (u & _ & Ht). apply res_bind_Ok in Ht as (text & _ & Ht).
    case_match; [apply Ok_inj in Ht as <-; by left|].
    destruct (find_branch s p) as [[c b]|reason] eqn:Hf; [|apply Ok_inj in Ht as <-; by left].
    right. by rewrite (find_branch_routed _ _ _ _ Hid Hf).
  - unfold jobLeased in Ht.
    destruct (safe_parse _ _ _) as [p|]; [|apply Ok_inj in Ht as <-; by left].
    destruct (find_branch s p) as [[c b]|reason] eqn:Hf; [|apply Ok_inj in Ht as <-; by left].
    right. by rewrite (find_branch_routed _ _ _ _ Hid Hf).
  - unfold jobFailed in Ht.
    destruct (safe_parse _ _ _) as [[p code]|]; [|apply Ok_inj in Ht as <-; by left].
    destruct (find_branch s p) as [[c b]|reason] eqn:Hf; [|apply Ok_inj in Ht as <-; by left].
    right. by rewrite (find_branch_routed _ _ _ _ Hid Hf).
Qed.

Lemma dispatch_routed s t :
  (∀ c, es_cluster s = Some c → es_aggregateId s = cl_clusterId c) →
  dispatch s event context config = Ok t → routed s t.
Proof.
  intros Hid Ht. unfold dispatch in Ht.
  destruct (cluster_event (d_type event)) as [[]|] eqn:Hty; [| | | | |apply Ok_inj in Ht as <-; by left];
    (case_match eqn:Hv; [|apply Ok_inj in Ht as <-; by left]).
  - by apply sourceObserved_routed.
  - by apply timerFired_routed.
  - apply job_routed; tauto.
  - apply job_routed; tauto.
  - apply job_routed; tauto.
Qed.
End routing.

(** ** Identities *)

(** An identity of the run is longer than an analysis contract allows. *)
Definition identity_too_long (ids : RunIdentities) : bool :=
  existsb (λ o, match o with Some s => 256 <? js_length s | None => false end)
    [Some (ri_extractorVersion ids); ri_featureSetId ids; ri_promptId ids; ri_modelId ids;
     ri_datasetId ids].

Lemma contract_identities context :
  accepts_ref analysisContractSchema (to_json (expectedAnalysisContract context)) = true →
  identity_too_long (rx_identities context) = false.
Proof.
  intros Ha. unfold identity_too_long. apply not_true_is_false. intros Hl.
  apply existsb_exists in Hl as (o & Hin & Hl). destruct o as [x|]; [|done]. apply Z.ltb_lt in Hl.
  unfold analysisContractSchema, to_json in Ha.
  assert (Hs : ∀ k, lookup_key (js k) (contract_fields (expectedAnalysisContract context)) = Some (JStr x) →
    ((js k, nonempty_upto 256) ∈ analysis_contract_fields ∨
     (js k, SNullable (nonempty_upto 256)) ∈ analysis_contract_fields) → False).
  { intros k Hk [Hf|Hf]; pose proof (object_field _ _ _ _ _ Ha Hf Hk) as Hw;
      cbn in Hw; bool_prop; lia. }
  unfold analysis_contract_fields in Hs. destruct Hin as [Hx|[Hx|[Hx|[Hx|[Hx|[]]]]]].
  - apply (Hs "extractorVersion"); [|left; solve_elem]. cbn. by injection Hx as ->.
  - apply (Hs "featureSetId"); [|right; solve_elem]. cbn. by rewrite Hx.
  - apply (Hs "promptId"); [|right; solve_elem]. cbn. by rewrite Hx.
  - apply (Hs "modelId"); [|right; solve_elem]. cbn. by rewrite Hx.
  - apply (Hs "datasetId"); [|right; solve_elem]. cbn. by rewrite Hx.
Qed.

Lemma requested_identities context c b :
  branch_requested context c b → identity_too_long (rx_identities context) = false.
Proof.
  intros Hb. apply contract_identities. pose proof (bq_payload _ _ _ Hb) as Hp.
  unfold analysisJobPayloadSchema in Hp. cbn [accepts_ref] in Hp. apply andb_true_iff in Hp as [Hp _].
  change (accepts_ref (SObject ([(js "clusterId", hash)] ++ request_schema_fields))
    (JObj (analysis_payload (cl_clusterId c) (br_request b))) = true) in Hp.
  eapply (object_field _ _ (js "analysisContract")) in Hp.
  - exact Hp.
  - unfold request_schema_fields. cbn [app]. solve_elem.
  - rewrite <-(bq_contract _ _ _ Hb). reflexivity.
Qed.

Section guarantees.
Context `{Sha256} `{Zod}.

Lemma parseState_wf v s : json_wf v → parseState v = Ok s → record_wf s.
Proof. intros Hv Hs. by destruct (parseState_Ok _ _ Hv Hs) as [? _]. Qed.

Lemma initialState_wf a config s : units_ok a → initialState a config = Ok s → record_wf s.
Proof.
  intros Ha Hs. unfold initialState in Hs. apply res_bind_Ok in Hs as (cfg & _ & Hs).
  apply Ok_inj in Hs as <-. by apply state_wf_iff.
Qed.

(** On JavaScript values the earnings reducer returns JavaScript values and nothing
    else: the aggregate id it routes to, the state it reads, the initial state, and the
    state and every draft of a transition, whatever the event carries.  It is a reducer
    the theorems about the processor apply to. *)
Theorem earnings_reducer_values : reducer_wf EarningsClusterReducer.
Proof.
  split.
  - intros e a He Ha. by eapply route_wf.
  - intros v w Hv Hw. cbn [r_parseState EarningsClusterReducer] in Hw.
    apply res_fmap_Ok in Hw as (s & Hs & ->). by eapply parseState_wf.
  - intros a cfg v Ha _ Hv. cbn [r_initialState EarningsClusterReducer] in Hv.
    apply res_fmap_Ok in Hv as (s & Hs & ->). by eapply initialState_wf.
  - intros st e cx t Hst He Hcx Ht. cbn [r_apply EarningsClusterReducer] in Ht.
    apply res_fmap_Ok in Ht as (t0 & Ht & ->).
    by apply transition_of_wf, (apply_wf e He cx Hcx (JObj st)).
Qed.

(** C17: [apply] implements the step relation of [EarningsSpec]: on a state of the
    reducer every event that does not throw leaves the cluster as it is, counts a
    rejection, opens a cluster, or takes one of the seven steps of an open or finalised
    cluster: a source joins, with or without an analysis of the frozen sources; the
    mirror window closes, with or without one; a timer that fires early is rescheduled;
    the cluster is finalised; a pending branch is leased, succeeds or fails. *)
Theorem earnings_apply_refines s event context t :
  record_wf s → apply (to_json s) event context = Ok t →
  ∃ config, read_config (rx_config context) = Ok config ∧
    state_step config event context s (ct_state t).
Proof. apply apply_step. Qed.

(** C15: Whatever events arrive, in whatever order and however often, a cluster stays
    within its configuration: between 1 and maxSourcesPerCluster sources, between 1 and
    maxAnalysisBranches branches, exactly one mirror and one lifecycle timer with the
    due times of the opening; it is finalised exactly when the lifecycle timer has fired,
    not before the lifecycle ends; and every branch analyses the first sources of the
    cluster as they were, carries their artifacts, and has the outcome its status says,
    of an attempt with a positive number and token. *)
Theorem cluster_bounds kvs config a s :
  read_config kvs = Ok config → units_ok a → path kvs (initial_state a) s →
  state_inv config s.
Proof.
  intros Hcfg Ha Hp. eapply path_inv; [exact Hcfg| |apply initial_state_inv|exact Hp].
  by apply state_wf_iff.
Qed.

(** C14: Nothing a cluster recorded is lost or changed by later events: its identity and
    times are fixed, sources are only appended and no more once it is finalised, timers
    keep their due time and stay fired, branches keep their request, their attempts and
    tokens only grow, and the outcome of a completed branch is final. *)
Theorem records_are_permanent kvs config a s s' :
  read_config kvs = Ok config → units_ok a →
  path kvs (initial_state a) s → path kvs s s' → state_later s s'.
Proof.
  intros Hcfg Ha Hp Hp'. assert (Hw : record_wf (initial_state a)) by by apply state_wf_iff.
  eapply (path_inv kvs config s s'); [done|by eapply path_wf| |done].
  by eapply path_inv; [..|apply initial_state_inv|].
Qed.

(** C16: An analysis completes only on an event of the job that was requested for it, and
    with the attempt and the fencing token of the latest lease: when a pending branch of a
    state is completed by a transition, the event is a success or a failure,
    caused by the branch's job, about the branch and its input bundle, with exactly the
    expected attempt and token, both positive; and it is recorded as the branch's result
    event.  A worker whose lease was superseded changes nothing. *)
Theorem result_needs_lease s event context t c c' i b b' :
  record_wf s → apply (to_json s) event context = Ok t →
  es_cluster s = Some c → es_cluster (ct_state t) = Some c' →
  cl_analysisBranches c !! i = Some b → cl_analysisBranches c' !! i = Some b' →
  br_status b = Branch_pending → br_status b' ≠ Branch_pending →
  (d_type event = js "kernel.job.succeeded" ∨ d_type event = js "kernel.job.failed") ∧
  job_event event b (br_expectedAttempt b) (br_expectedFencingToken b) ∧
  br_request b' = br_request b ∧ br_resultEventId b' = Some (c_eventId event).
Proof.
  intros Hw Ht Hc Hc' Hb Hb' Hs Hs'. destruct (apply_step _ _ _ _ Hw Ht) as (config & _ & Hst).
  destruct (state_step_branch _ _ _ _ _ _ _ _ _ _ Hst Hc Hc' Hb Hb') as [->|Hbs]; [done|].
  destruct Hbs as [att tok _ _ _ _ _|rh Hty _ Hj|code Hty _ Hj]; [done| |].
  - split; [by left|]. by split.
  - split; [by right|]. by split.
Qed.

(** C18: The cluster of an aggregate changes only by events that route to the aggregate: a
    source of its issuer and period, a firing of its timers, or a lease or result of its own
    jobs.  A transition computed for another aggregate's state leaves its cluster alone. *)
Theorem cluster_changes_are_routed s event context t :
  record_wf s → apply (to_json s) event context = Ok t →
  es_cluster (ct_state t) ≠ es_cluster s → route event = Ok (es_aggregateId s).
Proof.
  intros Hw Ht Hne. destruct (apply_Ok event context _ _ Hw Ht) as (s' & cfg & t0 & Hs & _ & _ & Ht0 & Hcase).
  destruct (parseState_Ok _ _ Hw Hs) as (_ & _ & _ & _ & Hof & _).
  rewrite of_json_to_json in Hof. injection Hof as <-.
  destruct Hcase as [-> | ->]; [|done].
  by destruct (dispatch_routed event context cfg s t0 (λ c, parsed_aggregate s s c Hw Hs) Ht0).
Qed.

(** A run whose extractor version, feature set, model, prompt or dataset identifier is
    longer than 256 characters can never open a cluster: whatever event arrives, the
    aggregate stays without one.  Run manifests are accepted with identifiers of up to
    512 characters ([long_identity_accepted]); with such a run the first source of every
    cluster makes [apply] throw ([long_identity_throws]). *)
Theorem long_identity_blocks s event context t :
  record_wf s → es_cluster s = None → identity_too_long (rx_identities context) = true →
  apply (to_json s) event context = Ok t → es_cluster (ct_state t) = None.
Proof.
  intros Hw Hc Hl Ht. destruct (apply_step _ _ _ _ Hw Ht) as (config & _ & Hst).
  destruct Hst as [| |c _ [_ _ _ _ _ _ (b & Hb & _)] _|c c' Hk _]; [done..| |congruence].
  apply requested_identities in Hb. congruence.
Qed.
End guarantees.

(** ** The theorems on a concrete cluster *)

Lemma state0_wf : record_wf state0.
Proof. apply json_wfb_wf. vm_compute. reflexivity. Qed.
Lemma cluster_id_units : units_ok cluster_id.
Proof. exact (part_wf _ "aggregateId" _ state0_wf eq_refl). Qed.

(** The filing is observed, its analysis leased and completed, the cluster finalised. *)
Lemma path_to_state2 : path cluster_config (initial_state cluster_id) state2.
Proof.
  eapply (path_next _ _ state1 lease_event (cluster_context 6));
    [|exact lease_event_wf|apply cluster_context_wf|done|exact apply2].
  eapply (path_next _ _ state0 source_event (cluster_context 5));
    [apply path_here|exact source_event_wf|apply cluster_context_wf|done|exact apply1].
Qed.

Lemma path_from_state2 : path cluster_config state2 state4.
Proof.
  eapply (path_next _ _ state3 lifecycle_event (cluster_context 2000));
    [|exact lifecycle_event_wf|apply cluster_context_wf|done|exact apply4].
  eapply (path_next _ _ state2 success_event (cluster_context 7));
    [apply path_here|exact success_event_wf|apply cluster_context_wf|done|exact apply3].
Qed.

Lemma state2_wf : record_wf state2.
Proof. exact (path_wf _ _ _ state0_wf path_to_state2). Qed.

Lemma earnings_apply_refines_witness :
  ∃ config, read_config cluster_config = Ok config ∧
    state_step config success_event (cluster_context 7) state2 state3.
Proof. exact (earnings_apply_refines state2 success_event (cluster_context 7) transition3 state2_wf apply3). Defined.

Lemma cluster_bounds_witness : state_inv parsed_config state2.
Proof.
  exact (cluster_bounds cluster_config parsed_config cluster_id state2 config_parsed cluster_id_units
    path_to_state2).
Defined.

Lemma records_are_permanent_witness : state_later state2 state4.
Proof.
  exact (records_are_permanent cluster_config parsed_config cluster_id state2 state4 config_parsed
    cluster_id_units path_to_state2 path_from_state2).
Defined.

Lemma result_needs_lease_witness :
  (d_type success_event = js "kernel.job.succeeded" ∨ d_type success_event = js "kernel.job.failed") ∧
  job_event success_event branch2 (br_expectedAttempt branch2) (br_expectedFencingToken branch2) ∧
  br_request branch3 = br_request branch2 ∧ br_resultEventId branch3 = Some (c_eventId success_event).
Proof.
  apply (result_needs_lease state2 success_event (cluster_context 7) transition3 cluster2 cluster3 0
    branch2 branch3 state2_wf apply3); reflexivity || discriminate.
Defined.

Lemma cluster_changes_are_routed_witness : route success_event = Ok (es_aggregateId state2).
Proof.
  apply (cluster_changes_are_routed state2 success_event (cluster_context 7) transition3 state2_wf apply3).
  discriminate.
Defined.

Lemma long_identity_blocks_witness :
  es_cluster (ct_state long_transition) = None.
Proof.
  exact (long_identity_blocks state0 lease_event (long_context 5) long_transition state0_wf eq_refl
    eq_refl long_applied).
Defined.
