(* ===== verification/Acquisition.v ===== *)
(** * Market acquisition policies
    ([src/adapters/market-acquisition/contracts.ts], [quota.ts], [retry.ts])

    The frozen limits, the closed sets of terminal reasons and operation stages,
    the rolling quota, the deadline proof and the retry policy.  These functions
    receive caller numbers ([jsnum]); the checks [Number.isSafeInteger(n) && n >= 0]
    let negative zero through, which counts as zero from there on. *)
From S2P Require Import Prelude JsString JsNumber Json Hash Clock.

(** ** Limits *)

Record MarketAcquisitionLimits : Type := {
  concurrentProviderRequests : Z;
  rawArtifactBytes : Z;
  aggregateVerifiedBytes : Z;
  successfulPages : Z;
  recordsPerPage : Z;
  normalizedFacts : Z;
  opaquePageTokenBytes : Z;
  instruments : Z;
  historicalCalendarDates : Z;
  attemptsPerAcquisition : Z;
  attemptsPerLogicalPage : Z;
  retryAfterMs : Z;
  attemptDeadlineMs : Z;
  acquisitionDeadlineMs : Z;
  rateAttempts : Z;
  rateWindowMs : Z
}.

Definition MARKET_ACQUISITION_LIMITS : MarketAcquisitionLimits := {|
  concurrentProviderRequests := 1;
  rawArtifactBytes := 10 * 1024 * 1024;
  aggregateVerifiedBytes := 64 * 1024 * 1024;
  successfulPages := 16;
  recordsPerPage := 10000;
  normalizedFacts := 160000;
  opaquePageTokenBytes := 4096;
  instruments := 64;
  historicalCalendarDates := 8;
  attemptsPerAcquisition := 48;
  attemptsPerLogicalPage := 3;
  retryAfterMs := 30000;
  attemptDeadlineMs := 30000;
  acquisitionDeadlineMs := 300000;
  rateAttempts := 30;
  rateWindowMs := 60000 |}.

(** ** Terminal reasons and stages *)

Definition MARKET_ACQUISITION_TERMINAL_REASONS : list jsstring :=
  js <$> ["authority-invalid"; "lane-not-authorized"; "lane-not-implemented";
    "capability-not-authorized"; "configuration-invalid"; "identity-mismatch"; "query-invalid";
    "zero-spend-unprovable"; "credential-unavailable"; "clock-unavailable"; "clock-regression";
    "historical-boundary-unprovable"; "concurrency-exhausted"; "quota-exhausted";
    "attempt-budget-exhausted"; "page-budget-exhausted"; "acquisition-deadline";
    "attempt-timeout"; "retry-after-invalid"; "transport-failed"; "http-nonretryable";
    "lane-disabled"; "partial-cleanup-failed"; "artifact-store-failed";
    "artifact-verification-failed"; "response-length-mismatch"; "schema-invalid";
    "bound-exceeded"; "pagination-invalid"; "journal-conflict"; "delivery-conflict";
    "correction-unsupported"; "normalization-failed"; "selection-failed"; "operator-stop"]%string.

Definition MARKET_ACQUISITION_OPERATION_STAGES : list jsstring :=
  js <$> ["configuration"; "authority"; "identity"; "request-preflight"; "trusted-time";
    "request-started"; "credential-load"; "dispatch"; "response-headers"; "response-body";
    "cleanup"; "artifact-commit"; "artifact-verify"; "checkpoint"; "normalization"; "selection";
    "retention-stop"; "retention-plan"; "retention-erase"; "retention-verify"]%string.

Definition SAFE_DETAIL_KINDS : list jsstring :=
  js <$> ["none"; "input-shape-invalid"; "authority-invalid"; "identity-mismatch";
    "source-not-authorized"; "lane-not-implemented"; "live-disabled"; "zero-spend-unprovable";
    "query-invalid"; "bound-exceeded"; "clock-unavailable"; "clock-regression";
    "historical-boundary-unprovable"]%string.

Record MarketAcquisitionSafeError : Type := {
  se_reasonCode : jsstring; se_operationStage : jsstring; se_detailHash : jsstring
}.

(** [value] when the closed list has it, and the fallback otherwise. *)
Definition closed_value (values : list jsstring) (value fallback : jsstring) : jsstring :=
  if bool_decide (value ∈ values) then value else fallback.

Definition createMarketAcquisitionSafeError `{Sha256}
    (reasonCode operationStage detailKind : jsstring) : res MarketAcquisitionSafeError :=
  let safeReasonCode :=
    closed_value MARKET_ACQUISITION_TERMINAL_REASONS reasonCode (js "configuration-invalid") in
  let safeOperationStage :=
    closed_value MARKET_ACQUISITION_OPERATION_STAGES operationStage (js "configuration") in
  let safeDetailKind := closed_value SAFE_DETAIL_KINDS detailKind (js "none") in
  let* detailHash := canonicalHash (js "peas/market-acquisition-safe-detail/v1")
    (JObj [(js "detailKind", JStr safeDetailKind)]) in
  Ok {| se_reasonCode := safeReasonCode; se_operationStage := safeOperationStage;
        se_detailHash := detailHash |}.

(** ** Numeric checks *)

Definition requireNonNegativeSafeInteger (value : jsnum) (message : string) : res Z :=
  or_throw (epoch_value value) (RangeError message).

Definition requirePositiveSafeInteger (value : jsnum) (message : string) : res Z :=
  match value with
  | NInt z => if is_safe_integer z && (1 <=? z) then Ok z else Throw (RangeError message)
  | _ => Throw (RangeError message)
  end.

(** ** The rolling quota ([quota.ts]) *)

Definition PROJECT_RATE_ATTEMPTS : Z := rateAttempts MARKET_ACQUISITION_LIMITS.
Definition PROJECT_RATE_WINDOW_MS : Z := rateWindowMs MARKET_ACQUISITION_LIMITS.
Definition ATTEMPT_DEADLINE_MS : Z := attemptDeadlineMs MARKET_ACQUISITION_LIMITS.
Definition ACQUISITION_DEADLINE_MS : Z := acquisitionDeadlineMs MARKET_ACQUISITION_LIMITS.

Definition sortedAttemptStarts (values : list jsnum) : res (list Z) :=
  let* copy := res_map (λ v, requireNonNegativeSafeInteger v "quota-start-invalid") values in
  Ok (sort_by Z.leb copy).

Inductive QuotaAdmission : Type :=
  | Quota_admit (attemptStarts : list Z)
  | Quota_wait (waitUntilMs : Z)
  | Quota_stop (reason : jsstring).

Definition evaluateRollingQuota (attemptStarts : list jsnum) (proposedStartMs entitlementLimit
    acquisitionDeadlineAtMs : jsnum) : res QuotaAdmission :=
  let* proposed := requireNonNegativeSafeInteger proposedStartMs "quota-proposed-start-invalid" in
  let* entitlement := requirePositiveSafeInteger entitlementLimit "quota-entitlement-limit-invalid" in
  let* deadline := requireNonNegativeSafeInteger acquisitionDeadlineAtMs "acquisition-deadline-invalid" in
  let effectiveLimit := Z.min PROJECT_RATE_ATTEMPTS entitlement in
  let* sorted := sortedAttemptStarts attemptStarts in
  guard! existsb (λ start, proposed <? start) sorted
    throws RangeError "quota-window-future-start" ;;
  let lowerExclusive := proposed - PROJECT_RATE_WINDOW_MS in
  let active := List.filter (λ start, lowerExclusive <? start) sorted in
  let active_length := Z.of_nat (length active) in
  if active_length <? effectiveLimit then Ok (Quota_admit (sorted ++ [proposed]))
  else
    match active !! Z.to_nat (active_length - effectiveLimit) with
    | None => Ok (Quota_stop (js "quota-exhausted"))
    | Some blocking =>
        let waitUntilMs := blocking + PROJECT_RATE_WINDOW_MS in
        if deadline <? waitUntilMs then Ok (Quota_stop (js "acquisition-deadline"))
        else Ok (Quota_wait waitUntilMs)
    end.

Record DeadlineProof : Type := {
  dl_acquisitionDeclaredMonotonicMs : jsnum;
  dl_attemptStartedMonotonicMs : jsnum;
  dl_nowMonotonicMs : jsnum
}.

Definition validateDeadlineProof (proof : DeadlineProof) : res unit :=
  let* declared := requireNonNegativeSafeInteger (dl_acquisitionDeclaredMonotonicMs proof)
    "acquisition-start-invalid" in
  let* started := requireNonNegativeSafeInteger (dl_attemptStartedMonotonicMs proof)
    "attempt-start-invalid" in
  let* now := requireNonNegativeSafeInteger (dl_nowMonotonicMs proof) "deadline-now-invalid" in
  guard! (started <? declared) || (now <? started)
    throws RangeError "deadline-monotonic-regression" ;;
  guard! ATTEMPT_DEADLINE_MS <? now - started throws RangeError "attempt-timeout" ;;
  throw_if (ACQUISITION_DEADLINE_MS <? now - declared) (RangeError "acquisition-deadline").

(** The double nearest to an integer below [2^1023] (ties to even). *)
Definition to_double (z : Z) : Z :=
  if Z.abs z <=? 2 ^ 53 then z
  else
    let scale := 2 ^ (Z.log2 (Z.abs z) - 52) in
    Z.sgn z * (round_half_even (Z.abs z) scale * scale).

(** [now + delay] may leave the safe integers, so the sums round. *)
Definition retryFitsAcquisitionDeadline (nowMonotonicMs delayMs acquisitionDeclaredMonotonicMs : jsnum) :
    res bool :=
  let* now := requireNonNegativeSafeInteger nowMonotonicMs "deadline-now-invalid" in
  let* delay := requireNonNegativeSafeInteger delayMs "retry-delay-invalid" in
  let* declared := requireNonNegativeSafeInteger acquisitionDeclaredMonotonicMs
    "acquisition-start-invalid" in
  if now <? declared then Ok false
  else
    let total := to_double (to_double (to_double (now + delay) + ATTEMPT_DEADLINE_MS) - declared) in
    Ok (total <=? ACQUISITION_DEADLINE_MS).

(** ** The retry policy ([retry.ts]) *)

Definition RETRY_DELAYS_MS : Z * Z := (1000, 2000).
Definition MAX_RETRY_AFTER_MS : Z := retryAfterMs MARKET_ACQUISITION_LIMITS.
Definition MAX_ATTEMPTS_PER_PAGE : Z := attemptsPerLogicalPage MARKET_ACQUISITION_LIMITS.
Definition MAX_ATTEMPTS_PER_ACQUISITION : Z := attemptsPerAcquisition MARKET_ACQUISITION_LIMITS.
Definition RETRYABLE_HTTP_STATUSES : list Z := [408; 429; 500; 502; 503; 504].
Definition NON_RETRYABLE_HTTP_STATUSES : list Z := [400; 401; 403; 404; 409; 422].

Inductive QuotaClassification : Type :=
  | Temporary_throttling_proved | Quota_exhausted | Quota_missing | Quota_ambiguous.

(** The failures that are never retried. *)
Inductive FinalFailure : Type :=
  | Fail_identity | Fail_entitlement | Fail_authorization | Fail_feed | Fail_capability | Fail_cost
  | Fail_clock | Fail_bound | Fail_schema | Fail_pagination | Fail_redaction | Fail_artifact
  | Fail_correction | Fail_journal | Fail_malformed_body | Fail_cleanup_unprovable
  | Fail_zero_spend.

Inductive RetryFailure : Type :=
  | Pre_response_transport
  | Clean_partial_body_transport (resourcesSettled : bool)
  | Http (status : jsnum) (quotaClassification : QuotaClassification) (retryAfter : option jsstring)
  | Final (kind : FinalFailure).

Record RetryContext : Type := {
  rt_failure : RetryFailure;
  rt_pageAttemptsStarted : jsnum;
  rt_acquisitionAttemptsStarted : jsnum
}.

Inductive StopReason : Type :=
  | Stop_non_retryable | Stop_lane_disabled | Stop_quota_exhausted | Stop_retry_after_invalid
  | Stop_attempt_budget_exhausted | Stop_cleanup_unprovable.

Inductive RetryDecision : Type :=
  | Retry (delayMs retryOrdinal : Z)
  | Stop (reason : StopReason).

#[export] Instance FinalFailure_eq_dec : EqDecision FinalFailure.
Proof. solve_decision. Defined.
#[export] Instance QuotaClassification_eq_dec : EqDecision QuotaClassification.
Proof. solve_decision. Defined.

(** The pattern of [nonnegative_decimal]: zero, or digits without a leading zero. *)
Definition isCanonicalNonNegativeInteger (value : jsstring) : bool := nonnegative_decimal value.

(** [Number(value)] of a decimal; a product [seconds * 1000] that is not exact is
    beyond [Number.MAX_SAFE_INTEGER] and is rejected with the same error. *)
Definition parseRetryAfterMs (value : option jsstring) : res (option Z) :=
  match value with
  | None => Ok None
  | Some value =>
      guard! negb (isCanonicalNonNegativeInteger value) throws TypeError "retry-after-invalid" ;;
      match double_of_decimal false (digits_value 0 value) 0 with
      | NInt seconds =>
          let milliseconds := seconds * 1000 in
          guard! negb (is_safe_integer seconds) || negb (is_safe_integer milliseconds) ||
              (MAX_RETRY_AFTER_MS <? milliseconds)
            throws RangeError "retry-after-invalid" ;;
          Ok (Some milliseconds)
      | _ => Throw (RangeError "retry-after-invalid")
      end
  end.

Definition projectDelay (pageAttemptsStarted : Z) : res (Z * Z) :=
  if pageAttemptsStarted =? 1 then Ok (RETRY_DELAYS_MS.1, 1)
  else if pageAttemptsStarted =? 2 then Ok (RETRY_DELAYS_MS.2, 2)
  else Throw (RangeError "attempt-budget-exhausted").

Definition stopForHttp (status : jsnum) : RetryDecision :=
  if bool_decide (status = NInt 401) || bool_decide (status = NInt 403)
  then Stop Stop_lane_disabled else Stop Stop_non_retryable.

Definition retryable_status (status : jsnum) : bool :=
  match status with
  | NInt z => is_safe_integer z && bool_decide (z ∈ RETRYABLE_HTTP_STATUSES)
  | _ => false
  end.

(** The last part of [decideRetry]: a retryable status. *)
Definition decide_http (delayMs retryOrdinal : Z) (status : jsnum)
    (classification : QuotaClassification) (retryAfter : option jsstring) : RetryDecision :=
  if negb (retryable_status status) then stopForHttp status
  else if negb (bool_decide (status = NInt 429)) then Retry delayMs retryOrdinal
  else if bool_decide (classification = Quota_exhausted) then Stop Stop_quota_exhausted
  else if negb (bool_decide (classification = Temporary_throttling_proved))
  then Stop Stop_quota_exhausted
  else
    match parseRetryAfterMs retryAfter with
    | Ok ms => Retry (Z.max delayMs (default 0 ms)) retryOrdinal
    | Throw _ => Stop Stop_retry_after_invalid
    end.

Definition positive_count (n : jsnum) : option Z :=
  match n with NInt z => if is_safe_integer z && (1 <=? z) then Some z else None | _ => None end.

Definition decideRetry (context : RetryContext) : res RetryDecision :=
  match positive_count (rt_pageAttemptsStarted context),
        positive_count (rt_acquisitionAttemptsStarted context) with
  | Some pageAttempts, Some acquisitionAttempts =>
      if (MAX_ATTEMPTS_PER_PAGE <=? pageAttempts) ||
         (MAX_ATTEMPTS_PER_ACQUISITION <=? acquisitionAttempts)
      then Ok (Stop Stop_attempt_budget_exhausted)
      else
        match rt_failure context with
        | Clean_partial_body_transport false => Ok (Stop Stop_cleanup_unprovable)
        | Final kind =>
            Ok (Stop (if bool_decide (kind = Fail_cleanup_unprovable)
                      then Stop_cleanup_unprovable else Stop_non_retryable))
        | Pre_response_transport | Clean_partial_body_transport true =>
            let* (delayMs, ordinal) := projectDelay pageAttempts in Ok (Retry delayMs ordinal)
        | Http status classification retryAfter =>
            let* (delayMs, ordinal) := projectDelay pageAttempts in
            Ok (decide_http delayMs ordinal status classification retryAfter)
        end
  | _, _ => Ok (Stop Stop_attempt_budget_exhausted)
  end.

Record RetryDelayProof : Type := {
  dy_clockBasis : jsstring; dy_elapsedMs : jsnum; dy_monotonicOrderValid : bool
}.

Definition validateRetryDelayProof (delayMs : Z) (proof : RetryDelayProof) : res unit :=
  throw_if (negb (is_safe_integer delayMs) || (delayMs <? 0) ||
    negb (bool_decide (dy_clockBasis proof = js "same-session-monotonic")) ||
    negb (dy_monotonicOrderValid proof) || negb (bool_decide (epoch_value (dy_elapsedMs proof) = Some delayMs)))
    (TypeError "retry-delay-proof-invalid").
