(* ===== verification/AcquisitionClaims.v ===== *)
(** * The quota and the retry policy

    A sorted list of starts reduces the rolling window to one position of the
    list ([evaluate_sorted]); the bounds on every window, the exactness of the
    waiting time and the bounds of the retry policy follow. *)
From S2P Require Import Prelude JsString JsNumber Json Hash Clock Acquisition.

(** ** Sorted starts *)

Definition above (bound : Z) (l : list Z) : list Z := List.filter (λ start, bound <? start) l.

Definition ordered (l : list Z) : Prop := StronglySorted Z.le l.

Lemma ordered_sort l : ordered l → sort_by Z.leb l = l.
Proof.
  intros Hl. apply sort_by_id. induction Hl as [|x l Hl IH Hx]; constructor; [done|].
  eapply Forall_impl; [exact Hx|]. intros y Hy. by apply Z.leb_le.
Qed.

Lemma sort_ordered l : ordered (sort_by Z.leb l).
Proof.
  pose proof (sort_by_sorted Z.leb) as H.
  assert (Hs : StronglySorted (λ x y, Z.leb x y = true) (sort_by Z.leb l)).
  { apply H; intros; [|rewrite ?Z.leb_le in *; lia].
    destruct (Z.leb_spec x y); [by left|right; apply Z.leb_le; lia]. }
  induction Hs as [|x k Hk IH Hx]; constructor; [done|].
  eapply Forall_impl; [exact Hx|]. intros y Hy. by apply Z.leb_le.
Qed.

Lemma Forall_sorted (P : Z → Prop) l : Forall P l → Forall P (sort_by Z.leb l).
Proof. rewrite !Forall_forall. intros H x Hx. apply H. by apply elem_of_sort_by in Hx. Qed.

Lemma ordered_lookup l i j x y :
  ordered l → l !! i = Some x → l !! j = Some y → (i <= j)%nat → x <= y.
Proof.
  intros Hl. revert i j. induction Hl as [|a l Hl IH Ha]; intros i j Hi Hj Hij; [done|].
  destruct i as [|i], j as [|j]; cbn in *; simplify_eq; [lia| |lia|].
  - rewrite Forall_lookup in Ha. by eapply Ha.
  - eapply IH; [done..|lia].
Qed.

(** What lies above a bound is a suffix. *)
Lemma above_drop b l : ordered l → ∃ k, (k <= length l)%nat ∧ above b l = drop k l ∧
  ∀ i x, l !! i = Some x → (b < x ↔ (k <= i)%nat).
Proof.
  intros Hl. induction Hl as [|a l Hl IH Ha]; [by exists 0%nat|].
  destruct IH as (k & Hk & E & Hi). unfold above in *. cbn [List.filter].
  destruct (Z.ltb_spec b a) as [Hb|Hb].
  - exists 0%nat. split; [lia|]. split.
    + cbn. f_equal. rewrite E. destruct k as [|k]; [done|].
      destruct l as [|c l]; [done|]. exfalso.
      pose proof (proj1 (Hi 0%nat c eq_refl)) as H. apply Forall_cons_1 in Ha as [Ha _].
      specialize (H ltac:(lia)). lia.
    + intros [|i] x Hx; cbn in Hx; simplify_eq; [lia|].
      rewrite Forall_lookup in Ha. specialize (Ha _ _ Hx). lia.
  - exists (S k). cbn. split; [lia|]. split; [done|].
    intros [|i] x Hx; cbn in Hx; simplify_eq; [lia|]. rewrite (Hi _ _ Hx). lia.
Qed.

(** The [L]-th start from the end decides. *)
Lemma above_spec b L l :
  ordered l → 1 <= L →
  let n := Z.of_nat (length (above b l)) in
  match (if Z.of_nat (length l) <? L then None else l !! Z.to_nat (Z.of_nat (length l) - L)) with
  | Some x => if b <? x then L <= n ∧ above b l !! Z.to_nat (n - L) = Some x else n < L
  | None => n < L
  end.
Proof.
  intros Hl HL. destruct (above_drop b l Hl) as (k & Hk & -> & Hi). cbn zeta. rewrite length_drop.
  destruct (Z.ltb_spec (Z.of_nat (length l)) L) as [H|H]; [lia|].
  destruct (lookup_lt_is_Some_2 l (Z.to_nat (Z.of_nat (length l) - L)) ltac:(lia)) as [x Hx].
  rewrite Hx. specialize (Hi _ _ Hx). destruct (Z.ltb_spec b x) as [Hb|Hb].
  - split; [lia|]. rewrite lookup_drop. rewrite <-Hx. f_equal. lia.
  - destruct (decide (L <= Z.of_nat (length l - k))); lia.
Qed.

(** ** The quota on sorted starts *)

Definition nonneg_safe (z : Z) : bool := is_safe_integer z && (0 <=? z).

Definition starts_ok (l : list Z) : Prop := Forall (λ z, nonneg_safe z = true) l.

Lemma require_nonneg z m : nonneg_safe z = true → requireNonNegativeSafeInteger (NInt z) m = Ok z.
Proof. unfold nonneg_safe, requireNonNegativeSafeInteger, epoch_value. by intros ->. Qed.

Lemma require_nonneg_inv v m z :
  requireNonNegativeSafeInteger v m = Ok z → epoch_value v = Some z ∧ nonneg_safe z = true.
Proof.
  intros H%or_throw_Ok. split; [done|]. unfold epoch_value, nonneg_safe in *.
  repeat case_match; by simplify_eq.
Qed.

Lemma require_positive z m :
  is_safe_integer z = true → 1 <= z → requirePositiveSafeInteger (NInt z) m = Ok z.
Proof. intros Hs Hz. unfold requirePositiveSafeInteger. by rewrite Hs, (proj2 (Z.leb_le 1 z) Hz). Qed.

Lemma require_positive_inv v m z :
  requirePositiveSafeInteger v m = Ok z → v = NInt z ∧ is_safe_integer z = true ∧ 1 <= z.
Proof.
  unfold requirePositiveSafeInteger. destruct v as [w| |]; [|done..]. case_match; [|done].
  intros [= ->]. bool_prop. done.
Qed.

Lemma starts_checked l :
  starts_ok l → res_map (λ v, requireNonNegativeSafeInteger v "quota-start-invalid") (NInt <$> l) = Ok l.
Proof.
  induction 1 as [|z l Hz Hl IH]; [done|]. cbn [fmap list_fmap res_map].
  rewrite (require_nonneg z _ Hz). cbn [mbind res_bind].
  change (map NInt l) with (NInt <$> l). rewrite IH. done.
Qed.

Lemma starts_checked_inv vs l :
  res_map (λ v, requireNonNegativeSafeInteger v "quota-start-invalid") vs = Ok l → starts_ok l.
Proof.
  intros H%res_map_Ok. unfold starts_ok. revert H.
  induction 1 as [|v z vs l Hv Hl IH]; constructor; [|done].
  by apply require_nonneg_inv in Hv as [_ ?].
Qed.

(** The position in the list that blocks a new start at [p]. *)
Definition blocking_start (L p : Z) (l : list Z) : option Z :=
  if Z.of_nat (length l) <? L then None
  else x ← l !! Z.to_nat (Z.of_nat (length l) - L);
    if p - PROJECT_RATE_WINDOW_MS <? x then Some x else None.

(** The quota as a closed form. *)
Lemma evaluate_sorted l p L d :
  ordered l → starts_ok l → nonneg_safe p = true → is_safe_integer L = true → 1 <= L →
  nonneg_safe d = true → Forall (λ s, s <= p) l →
  evaluateRollingQuota (NInt <$> l) (NInt p) (NInt L) (NInt d) =
  Ok match blocking_start (Z.min PROJECT_RATE_ATTEMPTS L) p l with
     | None => Quota_admit (l ++ [p])
     | Some x => if d <? x + PROJECT_RATE_WINDOW_MS then Quota_stop (js "acquisition-deadline")
                 else Quota_wait (x + PROJECT_RATE_WINDOW_MS)
     end.
Proof.
  intros Hl Hs Hp HLs HL Hd Hle. unfold evaluateRollingQuota.
  rewrite (require_nonneg p _ Hp), (require_nonneg d _ Hd), (require_positive L _ HLs HL).
  cbn [mbind res_bind].
  unfold sortedAttemptStarts. rewrite (starts_checked l Hs). cbn [mbind res_bind].
  rewrite (ordered_sort l Hl).
  replace (existsb (λ start, p <? start) l) with false.
  2:{ symmetry. apply not_true_iff_false. intros (s & Hin & Hlt)%existsb_exists.
      apply Z.ltb_lt in Hlt. rewrite Forall_forall in Hle. apply list_elem_of_In in Hin.
      specialize (Hle _ Hin). lia. }
  cbn [throw_if]. cbn [mbind res_bind].
  set (M := Z.min PROJECT_RATE_ATTEMPTS L). assert (1 <= M) by (unfold M; cbn; lia).
  pose proof (above_spec (p - PROJECT_RATE_WINDOW_MS) M l Hl ltac:(lia)) as H1.
  unfold above in H1. cbn zeta in H1. unfold blocking_start.
  destruct (Z.of_nat (length l) <? M).
  { by rewrite (proj2 (Z.ltb_lt _ _) H1). }
  destruct (l !! Z.to_nat (Z.of_nat (length l) - M)) as [x|]; cbn [mbind option_bind].
  - destruct (p - PROJECT_RATE_WINDOW_MS <? x).
    + destruct H1 as [H1 H2]. rewrite (proj2 (Z.ltb_ge _ _) H1), H2. by destruct (d <? _).
    + by rewrite (proj2 (Z.ltb_lt _ _) H1).
  - by rewrite (proj2 (Z.ltb_lt _ _) H1).
Qed.

(** What an answer says about the arguments. *)
Lemma evaluate_inv vs pn en dn r :
  evaluateRollingQuota vs pn en dn = Ok r →
  ∃ l p L d, res_map (λ v, requireNonNegativeSafeInteger v "quota-start-invalid") vs = Ok l ∧
    epoch_value pn = Some p ∧ en = NInt L ∧ 1 <= L ∧ epoch_value dn = Some d ∧
    Forall (λ s, s <= p) l ∧ starts_ok l ∧ nonneg_safe p = true ∧
    r = match blocking_start (Z.min PROJECT_RATE_ATTEMPTS L) p (sort_by Z.leb l) with
        | None => Quota_admit (sort_by Z.leb l ++ [p])
        | Some x => if d <? x + PROJECT_RATE_WINDOW_MS then Quota_stop (js "acquisition-deadline")
                    else Quota_wait (x + PROJECT_RATE_WINDOW_MS)
        end.
Proof.
  intros H. pose proof H as H0. unfold evaluateRollingQuota, sortedAttemptStarts in H0.
  apply res_bind_Ok in H0 as (p & Hp & H0). apply res_bind_Ok in H0 as (L & HL & H0).
  apply res_bind_Ok in H0 as (d & Hd & H0). apply res_bind_Ok in H0 as (s & Hs & H0).
  apply res_bind_Ok in Hs as (l & Hl & Hs). apply Ok_inj in Hs as <-.
  apply res_bind_Ok in H0 as (u & Hu & _). apply throw_if_Ok in Hu.
  pose proof (starts_checked_inv _ _ Hl) as Hok.
  apply require_nonneg_inv in Hp as [Hp Hps]. apply require_nonneg_inv in Hd as [Hd Hds].
  apply require_positive_inv in HL as (-> & HLs & HL).
  assert (Hle : Forall (λ s, s <= p) l).
  { apply Forall_forall. intros x Hx. destruct (Z.ltb_spec p x) as [Hlt|]; [|done].
    apply not_true_iff_false in Hu. exfalso. apply Hu, existsb_exists. exists x. split.
    - apply list_elem_of_In. by apply elem_of_sort_by.
    - by apply Z.ltb_lt. }
  exists l, p, L, d. split_and!; try done.
  pose proof (evaluate_sorted (sort_by Z.leb l) p L d (sort_ordered l)) as Hc.
  specialize (Hc (Forall_sorted _ _ Hok) Hps HLs HL Hds (Forall_sorted _ _ Hle)).
  apply Ok_inj. rewrite <-Hc, <-H. unfold evaluateRollingQuota, sortedAttemptStarts.
  rewrite Hl. rewrite (starts_checked _ (Forall_sorted _ _ Hok)).
  rewrite (require_nonneg p _ Hps), (require_nonneg d _ Hds).
  unfold requireNonNegativeSafeInteger. rewrite Hp, Hd. cbn [or_throw mbind res_bind].
  by rewrite (ordered_sort _ (sort_ordered l)).
Qed.

(** ** Windows *)

(** How many starts fall in [(lo, hi]]. *)
Definition window_count (lo hi : Z) (l : list Z) : Z :=
  Z.of_nat (length (List.filter (λ s, (lo <? s) && (s <=? hi)) l)).

(** At most [M] starts in the window that ends at each start. *)
Record quota_inv (M : Z) (l : list Z) : Prop := {
  qi_ordered : ordered l;
  qi_ok : starts_ok l;
  qi_window : ∀ s, s ∈ l → window_count (s - PROJECT_RATE_WINDOW_MS) s l <= M
}.

Lemma filter_length_le {A} (f g : A → bool) l :
  (∀ x, x ∈ l → f x = true → g x = true) → (length (List.filter f l) <= length (List.filter g l))%nat.
Proof.
  induction l as [|x l IH]; intros H; [done|]. cbn.
  assert (IH' := IH (λ y Hy, H y (list_elem_of_further _ _ _ Hy))).
  specialize (H x (list_elem_of_here _ _)). destruct (f x); [|destruct (g x); cbn; lia].
  rewrite H by done. cbn. lia.
Qed.

Lemma ordered_filter f l : ordered l → ordered (List.filter f l).
Proof.
  induction 1 as [|x l Hl IH Hx]; cbn; [constructor|]. destruct (f x); [|done].
  constructor; [done|]. rewrite Forall_forall in *. intros y Hy. apply Hx.
  apply list_elem_of_In in Hy. apply filter_In in Hy as [Hy _]. by apply list_elem_of_In.
Qed.

Lemma ordered_snoc l p : ordered l → Forall (λ s, s <= p) l → ordered (l ++ [p]).
Proof.
  intros Hl. induction Hl as [|x l Hl IH Hx]; intros Hp; [repeat constructor|].
  apply Forall_cons in Hp as [Hxp Hp]. cbn. constructor; [by apply IH|].
  apply Forall_app_2; [done|]. by repeat constructor.
Qed.

(** The windows ending at starts bound every window. *)
Lemma quota_inv_window M l lo :
  0 <= M → quota_inv M l → window_count lo (lo + PROJECT_RATE_WINDOW_MS) l <= M.
Proof.
  intros HM [Hl _ Hw]. unfold window_count.
  destruct (List.filter (λ s, (lo <? s) && (s <=? lo + PROJECT_RATE_WINDOW_MS)) l) as [|x f] eqn:E;
    [done|]. rewrite <-E.
  assert (Hne : List.filter (λ s, (lo <? s) && (s <=? lo + PROJECT_RATE_WINDOW_MS)) l ≠ [])
    by (by rewrite E).
  apply exists_last in Hne as (f' & s & Ef).
  pose proof (ordered_filter (λ s, (lo <? s) && (s <=? lo + PROJECT_RATE_WINDOW_MS)) l Hl) as Ho.
  assert (Hs : s ∈ List.filter (λ s, (lo <? s) && (s <=? lo + PROJECT_RATE_WINDOW_MS)) l).
  { rewrite Ef. apply elem_of_app. right. by left. }
  apply list_elem_of_In, filter_In in Hs as [Hin Hs]. bool_prop. apply list_elem_of_In in Hin.
  etrans; [|apply (Hw s Hin)]. unfold window_count. apply Nat2Z.inj_le, filter_length_le.
  intros y Hy Hyw. bool_prop. apply andb_true_iff. rewrite Z.ltb_lt, Z.leb_le. split; [lia|].
  assert (Hyf : y ∈ f' ++ [s]).
  { rewrite <-Ef. apply list_elem_of_In, filter_In. split; [by apply list_elem_of_In|].
    apply andb_true_iff. rewrite Z.ltb_lt, Z.leb_le. lia. }
  rewrite Ef in Ho. apply list_elem_of_lookup in Hyf as [i Hi].
  eapply (ordered_lookup (f' ++ [s]) i (length f')); [done|exact Hi| |].
  - rewrite lookup_app_r, Nat.sub_diag by lia. done.
  - apply lookup_lt_Some in Hi. rewrite length_app in Hi. cbn in Hi. lia.
Qed.

(** Nothing blocks: fewer than [M] starts in the window that ends now. *)
Lemma blocking_None L p l :
  ordered l → 1 <= L → Forall (λ s, s <= p) l → blocking_start L p l = None →
  window_count (p - PROJECT_RATE_WINDOW_MS) p l < L.
Proof.
  intros Hl HL Hp Hb. pose proof (above_spec (p - PROJECT_RATE_WINDOW_MS) L l Hl HL) as H1.
  cbn zeta in H1. unfold blocking_start in Hb.
  assert (Hc : window_count (p - PROJECT_RATE_WINDOW_MS) p l =
    Z.of_nat (length (above (p - PROJECT_RATE_WINDOW_MS) l))).
  { unfold window_count, above. f_equal. apply Nat.le_antisymm; apply filter_length_le.
    - intros x _ Hx. by apply andb_true_iff in Hx as [? _].
    - intros x Hx ->. rewrite Forall_forall in Hp. apply Z.leb_le, Hp, Hx. }
  rewrite Hc. destruct (Z.of_nat (length l) <? L); [done|].
  destruct (l !! _) as [x|]; [|done]. cbn in Hb. by destruct (_ <? x).
Qed.

(** An admitted start keeps the windows within the limit. *)
Lemma quota_admitted M l pn en dn l' :
  quota_inv M l → (∀ L, en = NInt L → Z.min PROJECT_RATE_ATTEMPTS L <= M) →
  evaluateRollingQuota (NInt <$> l) pn en dn = Ok (Quota_admit l') →
  quota_inv M l' ∧ ∃ p, epoch_value pn = Some p ∧ l' = l ++ [p] ∧ Forall (λ s, s <= p) l.
Proof.
  intros [Hl Hok Hw] HM H.
  apply evaluate_inv in H as (l0 & p & L & d & Hl0 & Hp & -> & HL & Hd & Hle & Hok0 & Hps & Hr).
  rewrite starts_checked in Hl0 by done. apply Ok_inj in Hl0 as <-.
  rewrite (ordered_sort l Hl) in Hr. specialize (HM L eq_refl).
  destruct (blocking_start _ _ _) eqn:Hb; [by destruct (d <? _)|]. injection Hr as ->.
  apply blocking_None in Hb; [|done|cbn; lia|done].
  split; [|by exists p]. split.
  - by apply ordered_snoc.
  - apply Forall_app_2; [done|]. by repeat constructor.
  - intros s Hs. unfold window_count. rewrite List.filter_app, length_app. cbn [List.filter].
    destruct (Z.ltb_spec (s - PROJECT_RATE_WINDOW_MS) p) as [H1|H1], (Z.leb_spec p s) as [H2|H2];
      cbn [andb length].
    + assert (s = p) as ->.
      { apply elem_of_app in Hs as [Hs|Hs%list_elem_of_singleton]; [|done].
        rewrite Forall_forall in Hle. specialize (Hle _ Hs). lia. }
      unfold window_count in Hb. lia.
    + apply elem_of_app in Hs as [Hs|Hs%list_elem_of_singleton]; [|subst s; change PROJECT_RATE_WINDOW_MS with 60000 in *; lia].
      specialize (Hw s Hs). unfold window_count in Hw. lia.
    + apply elem_of_app in Hs as [Hs|Hs%list_elem_of_singleton];
        [|subst s; change PROJECT_RATE_WINDOW_MS with 60000 in H1; lia].
      specialize (Hw s Hs). unfold window_count in Hw. lia.
    + apply elem_of_app in Hs as [Hs|Hs%list_elem_of_singleton]; [|subst s; change PROJECT_RATE_WINDOW_MS with 60000 in *; lia].
      specialize (Hw s Hs). unfold window_count in Hw. lia.
Qed.

Lemma quota_inv_nil M : quota_inv M [].
Proof. split; [constructor|constructor|]. intros s Hs. by apply elem_of_nil in Hs. Qed.

(** ** What the acquisition policies guarantee

    The rolling quota bounds every window, its waiting time is exact, and the
    retry policy stays within its attempts and delays. *)

(** ** The quota *)

(** One caller asking for one start: the starts it remembers afterwards. *)
Definition quota_step (entitlement : jsnum) (starts : list Z) (call : jsnum * jsnum) : list Z :=
  match evaluateRollingQuota (NInt <$> starts) call.1 entitlement call.2 with
  | Ok (Quota_admit starts') => starts'
  | _ => starts
  end.

Definition quota_run (entitlement : jsnum) (calls : list (jsnum * jsnum)) : list Z :=
  foldl (quota_step entitlement) [] calls.

Lemma quota_run_inv L calls :
  quota_inv (Z.max 0 (Z.min PROJECT_RATE_ATTEMPTS L)) (quota_run (NInt L) calls).
Proof.
  unfold quota_run. generalize (quota_inv_nil (Z.max 0 (Z.min PROJECT_RATE_ATTEMPTS L))).
  generalize (@nil Z). induction calls as [|[p d] calls IH]; intros l Hl; [done|]. apply IH.
  unfold quota_step. destruct (evaluateRollingQuota _ _ _ _) as [[l'| |]|] eqn:E; try done.
  eapply quota_admitted; [exact Hl| |exact E]. intros L' [= <-]. lia.
Qed.

(** C35: whatever starts are proposed, in whatever order and with whatever
    deadlines, the starts the rolling quota admits never put more than the
    project's 30 attempts, nor more than the entitlement, into any window of 60
    seconds: not only into the windows the code looks at. *)
Theorem rolling_quota_bound (L lo : Z) (calls : list (jsnum * jsnum)) :
  window_count lo (lo + PROJECT_RATE_WINDOW_MS) (quota_run (NInt L) calls)
    <= Z.max 0 (Z.min PROJECT_RATE_ATTEMPTS L).
Proof. apply quota_inv_window; [lia|apply quota_run_inv]. Qed.

Lemma evaluate_any l p L d :
  starts_ok l → nonneg_safe p = true → is_safe_integer L = true → 1 <= L →
  nonneg_safe d = true → Forall (λ s, s <= p) l →
  evaluateRollingQuota (NInt <$> l) (NInt p) (NInt L) (NInt d) =
  Ok match blocking_start (Z.min PROJECT_RATE_ATTEMPTS L) p (sort_by Z.leb l) with
     | None => Quota_admit (sort_by Z.leb l ++ [p])
     | Some x => if d <? x + PROJECT_RATE_WINDOW_MS then Quota_stop (js "acquisition-deadline")
                 else Quota_wait (x + PROJECT_RATE_WINDOW_MS)
     end.
Proof.
  intros Hl Hp HLs HL Hd Hle.
  rewrite <-(evaluate_sorted (sort_by Z.leb l) p L d (sort_ordered l)); try done;
    [|by apply Forall_sorted..].
  unfold evaluateRollingQuota, sortedAttemptStarts.
  rewrite (starts_checked l Hl), (starts_checked _ (Forall_sorted _ _ Hl)).
  cbn [mbind res_bind]. by rewrite (ordered_sort _ (sort_ordered l)).
Qed.

Lemma blocking_mono L p q l x :
  blocking_start L p l = Some x → p <= q →
  blocking_start L q l = if q <? x + PROJECT_RATE_WINDOW_MS then Some x else None.
Proof.
  unfold blocking_start. destruct (_ <? L); [done|]. destruct (l !! _) as [y|]; [|done].
  cbn [mbind option_bind]. destruct (Z.ltb_spec (p - PROJECT_RATE_WINDOW_MS) y); [|done].
  intros [= <-] Hpq. destruct (Z.ltb_spec (q - PROJECT_RATE_WINDOW_MS) y),
    (Z.ltb_spec q (y + PROJECT_RATE_WINDOW_MS)); (done || lia).
Qed.

(** a waiting time is exact.  When the quota answers that a start at [p] must
    wait until [w], then [w] is later than [p] and within the deadline, every
    earlier proposal gets the same answer, and the proposal at [w] is admitted. *)
Theorem quota_wait_exact (starts : list Z) (p L d w : Z)
    (Hw : evaluateRollingQuota (NInt <$> starts) (NInt p) (NInt L) (NInt d) = Ok (Quota_wait w)) :
  p < w <= d ∧
  (∀ q, p <= q < w →
    evaluateRollingQuota (NInt <$> starts) (NInt q) (NInt L) (NInt d) = Ok (Quota_wait w)) ∧
  evaluateRollingQuota (NInt <$> starts) (NInt w) (NInt L) (NInt d) =
    Ok (Quota_admit (sort_by Z.leb starts ++ [w])).
Proof.
  pose proof Hw as H.
  apply evaluate_inv in H as (l & p' & L' & d' & Hl & Hp & HL' & HL & Hd & Hle & Hok & Hps & Hr).
  injection HL' as <-. pose proof Hw as H. unfold evaluateRollingQuota in H.
  apply res_bind_Ok in H as (p1 & Hp1 & H). apply res_bind_Ok in H as (L1 & HL1 & H).
  apply res_bind_Ok in H as (d1 & Hd1 & _). apply require_nonneg_inv in Hp1 as [Hp1 Hps1].
  apply require_nonneg_inv in Hd1 as [Hd1 Hds]. apply require_positive_inv in HL1 as ([= <-] & HLs & _).
  cbn in Hp, Hd, Hp1, Hd1. unfold nonneg_safe in *.
  assert (p1 = p ∧ p' = p ∧ d1 = d ∧ d' = d) as (-> & -> & -> & ->) by (repeat case_match; by simplify_eq).
  clear Hp Hp1 Hd Hd1.
  assert (l = starts) as ->.
  { apply res_map_Ok in Hl. clear -Hl. revert l Hl. induction starts as [|z zs IH]; intros l Hl.
    - by apply Forall2_nil_inv_l in Hl.
    - apply Forall2_cons_inv_l in Hl as (y & l' & Hy & Hl & ->). f_equal; [|by apply IH].
      apply require_nonneg_inv in Hy as [Hy _]. cbn in Hy. case_match; by simplify_eq. }
  destruct (blocking_start _ _ _) as [x|] eqn:Hb; [|done].
  destruct (Z.ltb_spec d (x + PROJECT_RATE_WINDOW_MS)) as [|Hxd]; [done|]. injection Hr as ->.
  assert (Hpx : p < x + PROJECT_RATE_WINDOW_MS).
  { pose proof (blocking_mono _ _ p _ _ Hb ltac:(lia)) as Hm. rewrite Hb in Hm.
    by destruct (Z.ltb_spec p (x + PROJECT_RATE_WINDOW_MS)). }
  assert (Hq : ∀ q, p <= q <= x + PROJECT_RATE_WINDOW_MS → nonneg_safe q = true ∧ Forall (λ s, s <= q) starts).
  { intros q Hq. split.
    - unfold nonneg_safe in *. bool_prop. apply andb_true_iff. rewrite Z.leb_le.
      rewrite is_safe_integer_spec in *. lia.
    - eapply Forall_impl; [exact Hle|]. cbn. lia. }
  split; [lia|]. split.
  - intros q Hpq. destruct (Hq q ltac:(lia)) as [Hqs Hqle].
    rewrite evaluate_any by done. rewrite (blocking_mono _ _ q _ _ Hb) by lia.
    rewrite (proj2 (Z.ltb_lt _ _)) by lia. by rewrite (proj2 (Z.ltb_ge _ _)) by lia.
  - destruct (Hq (x + PROJECT_RATE_WINDOW_MS) ltac:(lia)) as [Hqs Hqle].
    rewrite evaluate_any by done. rewrite (blocking_mono _ _ (x + PROJECT_RATE_WINDOW_MS) _ _ Hb) by lia.
    by rewrite Z.ltb_irrefl.
Qed.

Lemma quota_wait_exact_witness :
  evaluateRollingQuota (NInt <$> [10; 5; 20]) (NInt 100) (NInt 2) (NInt 300000)
    = Ok (Quota_wait 60010) ∧
  evaluateRollingQuota (NInt <$> [10; 5; 20]) (NInt 60010) (NInt 2) (NInt 300000)
    = Ok (Quota_admit [5; 10; 20; 60010]).
Proof.
  split; [vm_compute; reflexivity|].
  apply (quota_wait_exact [10; 5; 20] 100 2 300000 60010). vm_compute. reflexivity.
Defined.

(** ** Retries *)

(** The failures section 8 of the contract allows to retry. *)
Definition retryable (failure : RetryFailure) : Prop :=
  match failure with
  | Pre_response_transport => True
  | Clean_partial_body_transport settled => settled = true
  | Http status classification retryAfter =>
      ∃ z, status = NInt z ∧ z ∈ RETRYABLE_HTTP_STATUSES ∧
        (z = 429 → classification = Temporary_throttling_proved ∧
                   ∃ ms, parseRetryAfterMs retryAfter = Ok ms)
  | Final _ => False
  end.

(** The delay: 1 s and 2 s, or what a throttling server asks for when that is longer. *)
Definition retry_delay (failure : RetryFailure) (attempts : Z) : Z :=
  match failure with
  | Http status _ retryAfter =>
      if bool_decide (status = NInt 429) then
        match parseRetryAfterMs retryAfter with
        | Ok (Some ms) => Z.max (1000 * attempts) ms
        | _ => 1000 * attempts
        end
      else 1000 * attempts
  | _ => 1000 * attempts
  end.

Lemma parseRetryAfterMs_bound s ms : parseRetryAfterMs s = Ok (Some ms) → ms <= MAX_RETRY_AFTER_MS.
Proof.
  unfold parseRetryAfterMs. destruct s as [s|]; [|done].
  intros (u & _ & H)%res_bind_Ok. destruct (double_of_decimal _ _ _); [|done..].
  apply res_bind_Ok in H as (v & Hv%throw_if_Ok & [= <-]). bool_prop. lia.
Qed.

Lemma decide_http_exact n status classification retryAfter d o :
  1 <= n →
  decide_http (1000 * n) n status classification retryAfter = Retry d o ↔ o = n ∧
  retryable (Http status classification retryAfter) ∧
  d = retry_delay (Http status classification retryAfter) n.
Proof.
  intros Hn. unfold decide_http. cbn [retryable retry_delay].
  destruct (retryable_status status) eqn:Hs; cbn [negb].
  2:{ unfold stopForHttp. split; [by destruct (_ || _)|].
      intros (_ & (z & -> & Hz & _) & _). unfold retryable_status in Hs.
      rewrite (bool_decide_eq_true_2 _ Hz), andb_true_r in Hs. exfalso.
      unfold RETRYABLE_HTTP_STATUSES in Hz. set_unfold in Hz. destruct_or! Hz; by subst. }
  unfold retryable_status in Hs. destruct status as [z| |]; [|done..]. bool_prop.
  destruct (bool_decide (NInt z = NInt 429)) eqn:E; cbn [negb]; bool_prop.
  2:{ split; [|intros (-> & _ & ->); done]. intros [= <- <-]. split_and!; [done| |done].
      exists z. split_and!; [done..|]. intros ->. done. }
  injection E as ->.
  destruct (bool_decide (classification = Quota_exhausted)) eqn:Hq; bool_prop.
  { split; [done|]. intros (_ & (z & [= <-] & _ & Hz) & _). destruct (Hz eq_refl) as [Hz' _]. congruence. }
  destruct (bool_decide (classification = Temporary_throttling_proved)) eqn:Hc; bool_prop; cbn [negb].
  2:{ split; [done|]. intros (_ & (z & [= <-] & _ & Hz) & _). destruct (Hz eq_refl) as [Hz' _]. congruence. }
  destruct (parseRetryAfterMs retryAfter) as [ms|e] eqn:Hp.
  - split.
    + intros [= <- <-]. split_and!; [done| |destruct ms; simpl; lia].
      exists 429. split_and!; [done..|]. intros _. split; [done|]. by exists ms.
    + intros (-> & _ & ->). f_equal. destruct ms; simpl; lia.
  - split; [done|]. intros (_ & (z & [= <-] & _ & Hz) & _).
    destruct (Hz eq_refl) as [_ [ms Hms]]. congruence.
Qed.

Lemma positive_count_Some v z : positive_count v = Some z ↔ v = NInt z ∧ is_safe_integer z = true ∧ 1 <= z.
Proof.
  unfold positive_count. destruct v as [w| |]; [|split; [done|by intros [? _]]..].
  destruct (is_safe_integer w && (1 <=? w)) eqn:E; split.
  - intros [= ->]. bool_prop. done.
  - by intros ([= ->] & _).
  - done.
  - intros ([= ->] & H1 & H2). apply Z.leb_le in H2. by rewrite H1, H2 in E.
Qed.

Lemma projectDelay_spec n : 1 <= n < 3 → projectDelay n = Ok (1000 * n, n).
Proof. intros Hn. assert (n = 1 ∨ n = 2) as [-> | ->] by lia; reflexivity. Qed.

(** A delay is at least the project's and at most the longest allowed. *)
Lemma retry_delay_bounds failure n : 1 <= n < 3 → 1000 <= retry_delay failure n <= 30000.
Proof.
  intros Hn. destruct failure as [| |status q ra|]; cbn [retry_delay]; try lia.
  destruct (bool_decide (status = NInt 429)); [|lia].
  destruct (parseRetryAfterMs ra) as [[ms|]|] eqn:Hp; [|lia..].
  apply parseRetryAfterMs_bound in Hp. change MAX_RETRY_AFTER_MS with 30000 in Hp. lia.
Qed.

(** What remains to decide once both budgets admit another attempt. *)
Definition decide_failure (n : Z) (failure : RetryFailure) : RetryDecision :=
  match failure with
  | Clean_partial_body_transport false => Stop Stop_cleanup_unprovable
  | Final kind => Stop (if bool_decide (kind = Fail_cleanup_unprovable)
                        then Stop_cleanup_unprovable else Stop_non_retryable)
  | Pre_response_transport | Clean_partial_body_transport true => Retry (1000 * n) n
  | Http status classification retryAfter => decide_http (1000 * n) n status classification retryAfter
  end.

Definition within_budgets (pn an : jsnum) (n a : Z) : Prop :=
  pn = NInt n ∧ 1 <= n < MAX_ATTEMPTS_PER_PAGE ∧ an = NInt a ∧ 1 <= a < MAX_ATTEMPTS_PER_ACQUISITION.

Lemma decideRetry_cases failure pn an :
  let context := {| rt_failure := failure; rt_pageAttemptsStarted := pn;
                    rt_acquisitionAttemptsStarted := an |} in
  (∃ n a, within_budgets pn an n a ∧ decideRetry context = Ok (decide_failure n failure)) ∨
  (decideRetry context = Ok (Stop Stop_attempt_budget_exhausted) ∧ ∀ n a, ¬ within_budgets pn an n a).
Proof.
  cbn zeta. unfold decideRetry, within_budgets.
  cbn [rt_failure rt_pageAttemptsStarted rt_acquisitionAttemptsStarted].
  change MAX_ATTEMPTS_PER_PAGE with 3. change MAX_ATTEMPTS_PER_ACQUISITION with 48.
  assert (Hsafe : ∀ z, 1 <= z < 48 → positive_count (NInt z) = Some z).
  { intros z Hz. apply positive_count_Some. rewrite is_safe_integer_spec. unfold MAX_SAFE_INTEGER.
    split; [done|lia]. }
  destruct (positive_count pn) as [n|] eqn:Hpn.
  2:{ right. split; [done|]. intros n a (-> & Hn & _). rewrite Hsafe in Hpn by lia. done. }
  destruct (positive_count an) as [a|] eqn:Han.
  2:{ right. split; [done|]. intros n' a (_ & _ & -> & Ha). rewrite Hsafe in Han by lia. done. }
  apply positive_count_Some in Hpn as (-> & _ & Hn). apply positive_count_Some in Han as (-> & _ & Ha).
  destruct ((3 <=? n) || (48 <=? a)) eqn:Hb.
  - right. split; [done|]. intros n' a' ([= <-] & Hn' & [= <-] & Ha').
    apply orb_true_iff in Hb. rewrite !Z.leb_le in Hb. lia.
  - left. bool_prop. exists n, a. split; [done|]. rewrite projectDelay_spec by lia.
    by destruct failure as [|[]| |].
Qed.

(** the retry policy is total and exact.  It never throws; it answers a retry
    exactly when a further attempt is within both budgets and the failure is one
    of the retryable ones (a throttled 429 with a readable Retry-After included),
    with the ordinal of the attempt and the larger of the project's delay and the
    server's; the delay is between one second and 30 seconds. *)
Theorem retry_policy_exact (context : RetryContext) :
  (∃ r, decideRetry context = Ok r) ∧
  ∀ d o, decideRetry context = Ok (Retry d o) ↔
    ∃ n a, within_budgets (rt_pageAttemptsStarted context) (rt_acquisitionAttemptsStarted context) n a ∧
      retryable (rt_failure context) ∧ o = n ∧ d = retry_delay (rt_failure context) n ∧
      1000 <= d <= 30000.
Proof.
  destruct context as [failure pn an]. cbn [rt_failure rt_pageAttemptsStarted rt_acquisitionAttemptsStarted].
  destruct (decideRetry_cases failure pn an) as [(n & a & Hw & ->)|[-> Hno]].
  2:{ split; [by eexists|]. intros d o. split; [done|]. intros (n & a & Hw & _). by apply Hno in Hw. }
  split; [by eexists|]. intros d o.
  assert (Hn : 1 <= n < 3) by apply Hw. pose proof (retry_delay_bounds failure n Hn) as Hd.
  assert (Hf : decide_failure n failure = Retry d o ↔
    o = n ∧ retryable failure ∧ d = retry_delay failure n).
  { destruct failure as [|[]|status q ra|kind]; cbn [decide_failure].
    4: apply decide_http_exact; lia.
    all: cbn [retryable retry_delay]; split; (by intros [= <- <-] || by intros (-> & ? & ->)). }
  split.
  - intros E%Ok_inj. apply Hf in E as (-> & Hr & ->). by exists n, a.
  - intros (n' & a' & Hw' & Hr & -> & -> & _).
    assert (n' = n) as -> by (destruct Hw as [-> _], Hw' as [[= <-] _]; done).
    f_equal. by apply Hf.
Qed.

(** A decimal beyond the safe integers does not round back to one. *)
Lemma double_of_unsafe m z :
  2 ^ 53 <= m → double_of_decimal false m 0 = NInt z → 2 ^ 53 <= z.
Proof.
  intros Hm. unfold double_of_decimal. destruct (Z.eqb_spec m 0) as [->|_]; [lia|].
  change (Z.max 0 0) with 0. change (Z.max 0 (- 0)) with 0. rewrite Z.pow_0_r, Z.mul_1_r.
  unfold double_of_ratio. rewrite log2_ratio_1 by lia.
  assert (Hl : 53 <= Z.log2 m) by (apply Z.log2_le_pow2; lia).
  set (s := Z.max (Z.log2 m - 52) (-1074)). assert (Hs : s = Z.log2 m - 52) by lia.
  rewrite (proj2 (Z.leb_le 0 s)) by lia. destruct (_ <=? _); [done|].
  rewrite (Z.max_l 0 (- s)), (Z.max_r 0 s), Z.pow_0_r, Z.mul_1_r, Z.mul_1_l by lia.
  set (q := round_half_even m (2 ^ s)).
  assert (Hq : m / 2 ^ s <= q).
  { unfold q, round_half_even. repeat case_match; lia. }
  assert (H52 : 2 ^ 52 <= m / 2 ^ s).
  { apply Z.div_le_lower_bound; [apply Z.pow_pos_nonneg; lia|]. rewrite <-Z.pow_add_r by lia.
    replace (s + 52) with (Z.log2 m) by lia. apply Z.log2_spec. lia. }
  assert (H2 : 2 <= 2 ^ s) by (change 2 with (2 ^ 1) at 1; apply Z.pow_le_mono_r; lia).
  assert (H53 : 2 ^ 53 <= q * 2 ^ s) by (change (2 ^ 53) with (2 ^ 52 * 2); nia).
  unfold signed_integer. destruct (Z.eqb_spec (q * 2 ^ s) 0) as [E|_]; [lia|]. by intros [= <-].
Qed.

(** the Retry-After parser accepts exactly the canonical decimals up to 30
    seconds, and gives their value in milliseconds; an absent header stays
    distinguishable from zero.  Long digit strings, which JavaScript reads as
    rounded doubles or infinity, are rejected like every other value. *)
Theorem retry_after_exact (value : option jsstring) (ms : option Z) :
  parseRetryAfterMs value = Ok ms ↔
  match value, ms with
  | None, None => True
  | Some s, Some ms => ∃ n, 0 <= n <= 30 ∧ s = dec n ∧ ms = 1000 * n
  | _, _ => False
  end.
Proof.
  unfold parseRetryAfterMs. destruct value as [s|]; [|by destruct ms].
  unfold isCanonicalNonNegativeInteger. split.
  - intros (u & Hs%throw_if_Ok & H)%res_bind_Ok. apply negb_false_iff in Hs.
    destruct (nonnegative_decimal_digits s Hs) as [Hd _].
    pose proof (digits_value_lower s 0 Hd ltac:(lia)) as Hlow.
    destruct (double_of_decimal _ _ _) as [n| |] eqn:E; [|done..].
    apply res_bind_Ok in H as (v & Hv%throw_if_Ok & [= <-]). bool_prop.
    change MAX_RETRY_AFTER_MS with 30000 in *. exists n.
    assert (Hle : digits_value 0 s <= MAX_SAFE_INTEGER).
    { destruct (decide (2 ^ 53 <= digits_value 0 s)) as [Hbig|];
        [|unfold MAX_SAFE_INTEGER; lia]. pose proof (double_of_unsafe _ _ Hbig E). lia. }
    rewrite double_of_safe in E by lia. unfold signed_integer in E.
    assert (n = digits_value 0 s) as ->.
    { destruct (Z.eqb_spec (digits_value 0 s) 0); by simplify_eq. }
    rewrite nonnegative_decimal_dec by done. split_and!; [lia|lia|done|lia].
  - destruct ms as [ms|]; [|done]. intros (n & Hn & -> & ->).
    pose proof (BigInt_dec n ltac:(lia)) as Hb. rewrite BigInt_decimal in Hb by (apply dec_nonnegative; lia).
    injection Hb as Hb. rewrite dec_nonnegative by lia. cbn [negb throw_if mbind res_bind]. rewrite Hb.
    assert (Hr : ∀ k, (k <= 30)%nat → (let z := Z.of_nat k in
      match double_of_decimal false z 0 with
      | NInt seconds => negb (is_safe_integer seconds) || negb (is_safe_integer (seconds * 1000)) ||
          (MAX_RETRY_AFTER_MS <? seconds * 1000) = false ∧ seconds * 1000 = 1000 * z
      | _ => False end)).
    { intros k Hk. do 31 (destruct k as [|k]; [vm_compute; done|]). lia. }
    specialize (Hr (Z.to_nat n) ltac:(lia)). cbn zeta in Hr. rewrite Z2Nat.id in Hr by lia.
    destruct (double_of_decimal false n 0) as [z| |]; [|done..]. destruct Hr as [Hr Hz].
    cbn zeta. rewrite Hr, Hz. done.
Qed.
