(* ===== verification/Journal.v ===== *)
(** * The acquisition journal ([src/adapters/market-acquisition/journal.ts])

    Checkpoint entries, the identities and hashes they carry, and the validation
    of a journal: identity, hash chain, counters, checkpoint order, continuation
    tokens.  Record fields of type [number] are integers here: [canonicalJson], which
    runs on every record before its hash, throws on any other number.  The shape
    checks ([assertExactKeys]) hold of every record and are not repeated. *)
From S2P Require Import Prelude JsString JsNumber Json Hash JsonObject Acquisition.

Definition JOURNAL_SCHEMA_VERSION : Z := 1.
Definition NO_TOKEN_HASH : jsstring := js "no-token".
Definition TERMINAL_TOKEN_HASH : jsstring := js "terminal".
Definition GENESIS_HASH : jsstring := js "genesis".
Definition AUTHORIZATION_MODE : jsstring := js "p1-09-approved".

(** ** Data *)

Inductive JournalCheckpointKind : Type :=
  | K_acquisition_declared | K_request_started | K_attempt_started | K_request_succeeded
  | K_artifact_committed | K_artifact_verified | K_page_checkpointed | K_chain_complete
  | K_normalization_started | K_normalization_complete | K_selection_started | K_completed
  | K_stopped | K_failed_clean | K_quarantined.

#[export] Instance JournalCheckpointKind_eq_dec : EqDecision JournalCheckpointKind.
Proof. solve_decision. Defined.

Definition JOURNAL_CHECKPOINT_KINDS : list JournalCheckpointKind :=
  [K_acquisition_declared; K_request_started; K_attempt_started; K_request_succeeded;
   K_artifact_committed; K_artifact_verified; K_page_checkpointed; K_chain_complete;
   K_normalization_started; K_normalization_complete; K_selection_started; K_completed;
   K_stopped; K_failed_clean; K_quarantined].

Definition checkpoint_name (k : JournalCheckpointKind) : jsstring :=
  js match k with
     | K_acquisition_declared => "acquisition-declared"
     | K_request_started => "request-started"
     | K_attempt_started => "attempt-started"
     | K_request_succeeded => "request-succeeded"
     | K_artifact_committed => "artifact-committed"
     | K_artifact_verified => "artifact-verified"
     | K_page_checkpointed => "page-checkpointed"
     | K_chain_complete => "chain-complete"
     | K_normalization_started => "normalization-started"
     | K_normalization_complete => "normalization-complete"
     | K_selection_started => "selection-started"
     | K_completed => "completed"
     | K_stopped => "stopped"
     | K_failed_clean => "failed-clean"
     | K_quarantined => "quarantined"
     end.

Inductive JournalTerminalState : Type := T_completed | T_stopped | T_failed_clean | T_quarantined.

#[export] Instance JournalTerminalState_eq_dec : EqDecision JournalTerminalState.
Proof. solve_decision. Defined.

Definition terminal_name (t : JournalTerminalState) : jsstring :=
  js match t with
     | T_completed => "completed"
     | T_stopped => "stopped"
     | T_failed_clean => "failed-clean"
     | T_quarantined => "quarantined"
     end.

Record JournalCheckpointBody : Type := {
  jb_schemaVersion : Z;
  jb_runSessionNonce : jsstring;
  jb_acquisitionObservationId : jsstring;
  jb_marketAcquisitionId : jsstring;
  jb_admittedMarketAcquisitionIds : list jsstring;
  jb_requestIdentityHash : jsstring;
  jb_acquisitionConfigurationHash : jsstring;
  jb_providerId : jsstring;
  jb_datasetId : jsstring;
  jb_feedId : jsstring;
  jb_endpointChannelId : jsstring;
  jb_authorizationMode : jsstring;
  jb_logicalPageIdentityHash : jsstring;
  jb_pageOrdinal : Z;
  jb_currentTokenHash : jsstring;
  jb_currentResumableTokenMaterial : option jsstring;
  jb_nextTokenHash : option jsstring;
  jb_nextResumableTokenMaterial : option jsstring;
  jb_currentContinuationBindingHash : option jsstring;
  jb_nextContinuationBindingHash : option jsstring;
  jb_attemptId : jsstring;
  jb_retrievalAttemptId : jsstring;
  jb_attemptOrdinal : Z;
  jb_artifactObservationId : option jsstring;
  jb_artifactDigest : option jsstring;
  jb_artifactSizeBytes : option Z;
  jb_artifactObservationHash : option jsstring;
  jb_artifactContentId : option jsstring;
  jb_rawArtifactId : option jsstring;
  jb_stageLedgerFactId : option jsstring;
  jb_causalParentFactIds : list jsstring;
  jb_pageRecordCount : option Z;
  jb_pageNormalizedFactCount : option Z;
  jb_pageChainHash : jsstring;
  jb_cumulativeSuccessfulPages : Z;
  jb_cumulativeVerifiedBytes : Z;
  jb_cumulativeRecords : Z;
  jb_cumulativeNormalizedFacts : Z;
  jb_cumulativeAttempts : Z;
  jb_acquisitionDeadlineBasis : jsstring;
  jb_quotaWindowEvidence : list Z;
  jb_terminalState : option JournalTerminalState;
  jb_terminalReasonCode : option jsstring;
  jb_incomplete : bool
}.

(** An entry without its hash, and an entry. *)
Record JournalDraft : Type := {
  je_body :> JournalCheckpointBody;
  je_marketAcquisitionJournalId : jsstring;
  je_journalSequence : Z;
  je_priorJournalEntryHash : jsstring;
  je_checkpointKind : JournalCheckpointKind
}.

Record JournalEntry : Type := {
  je_draft :> JournalDraft;
  je_journalEntryHash : jsstring
}.

Record JournalIdentityInput : Type := {
  ji_schemaVersion : Z;
  ji_requestIdentityHash : jsstring;
  ji_providerId : jsstring;
  ji_datasetId : jsstring;
  ji_feedId : jsstring;
  ji_endpointChannelId : jsstring
}.

(** ** JSON forms *)

Definition jstr_opt (o : option jsstring) : json := jnull JStr o.
Definition jint_opt (o : option Z) : json := jnull jint o.
Definition jstrs (l : list jsstring) : json := JArr (JStr <$> l).
Definition jints (l : list Z) : json := JArr (jint <$> l).

Definition body_fields (b : JournalCheckpointBody) : jobject := [
  (js "schemaVersion", jint (jb_schemaVersion b));
  (js "runSessionNonce", JStr (jb_runSessionNonce b));
  (js "acquisitionObservationId", JStr (jb_acquisitionObservationId b));
  (js "marketAcquisitionId", JStr (jb_marketAcquisitionId b));
  (js "admittedMarketAcquisitionIds", jstrs (jb_admittedMarketAcquisitionIds b));
  (js "requestIdentityHash", JStr (jb_requestIdentityHash b));
  (js "acquisitionConfigurationHash", JStr (jb_acquisitionConfigurationHash b));
  (js "providerId", JStr (jb_providerId b));
  (js "datasetId", JStr (jb_datasetId b));
  (js "feedId", JStr (jb_feedId b));
  (js "endpointChannelId", JStr (jb_endpointChannelId b));
  (js "authorizationMode", JStr (jb_authorizationMode b));
  (js "logicalPageIdentityHash", JStr (jb_logicalPageIdentityHash b));
  (js "pageOrdinal", jint (jb_pageOrdinal b));
  (js "currentTokenHash", JStr (jb_currentTokenHash b));
  (js "currentResumableTokenMaterial", jstr_opt (jb_currentResumableTokenMaterial b));
  (js "nextTokenHash", jstr_opt (jb_nextTokenHash b));
  (js "nextResumableTokenMaterial", jstr_opt (jb_nextResumableTokenMaterial b));
  (js "currentContinuationBindingHash", jstr_opt (jb_currentContinuationBindingHash b));
  (js "nextContinuationBindingHash", jstr_opt (jb_nextContinuationBindingHash b));
  (js "attemptId", JStr (jb_attemptId b));
  (js "retrievalAttemptId", JStr (jb_retrievalAttemptId b));
  (js "attemptOrdinal", jint (jb_attemptOrdinal b));
  (js "artifactObservationId", jstr_opt (jb_artifactObservationId b));
  (js "artifactDigest", jstr_opt (jb_artifactDigest b));
  (js "artifactSizeBytes", jint_opt (jb_artifactSizeBytes b));
  (js "artifactObservationHash", jstr_opt (jb_artifactObservationHash b));
  (js "artifactContentId", jstr_opt (jb_artifactContentId b));
  (js "rawArtifactId", jstr_opt (jb_rawArtifactId b));
  (js "stageLedgerFactId", jstr_opt (jb_stageLedgerFactId b));
  (js "causalParentFactIds", jstrs (jb_causalParentFactIds b));
  (js "pageRecordCount", jint_opt (jb_pageRecordCount b));
  (js "pageNormalizedFactCount", jint_opt (jb_pageNormalizedFactCount b));
  (js "pageChainHash", JStr (jb_pageChainHash b));
  (js "cumulativeSuccessfulPages", jint (jb_cumulativeSuccessfulPages b));
  (js "cumulativeVerifiedBytes", jint (jb_cumulativeVerifiedBytes b));
  (js "cumulativeRecords", jint (jb_cumulativeRecords b));
  (js "cumulativeNormalizedFacts", jint (jb_cumulativeNormalizedFacts b));
  (js "cumulativeAttempts", jint (jb_cumulativeAttempts b));
  (js "acquisitionDeadlineBasis", JStr (jb_acquisitionDeadlineBasis b));
  (js "quotaWindowEvidence", jints (jb_quotaWindowEvidence b));
  (js "terminalState", jstr_opt (terminal_name <$> jb_terminalState b));
  (js "terminalReasonCode", jstr_opt (jb_terminalReasonCode b));
  (js "incomplete", JBool (jb_incomplete b))].

Definition entry_fields (e : JournalEntry) : jobject := body_fields e ++ [
  (js "marketAcquisitionJournalId", JStr (je_marketAcquisitionJournalId e));
  (js "journalSequence", jint (je_journalSequence e));
  (js "priorJournalEntryHash", JStr (je_priorJournalEntryHash e));
  (js "checkpointKind", JStr (checkpoint_name (je_checkpointKind e)));
  (js "journalEntryHash", JStr (je_journalEntryHash e))].

Definition identity_fields (i : JournalIdentityInput) : jobject := [
  (js "schemaVersion", jint (ji_schemaVersion i));
  (js "requestIdentityHash", JStr (ji_requestIdentityHash i));
  (js "providerId", JStr (ji_providerId i));
  (js "datasetId", JStr (ji_datasetId i));
  (js "feedId", JStr (ji_feedId i));
  (js "endpointChannelId", JStr (ji_endpointChannelId i))].

(** ** Limits and checks *)

Definition TOKEN_BYTES_MAX : Z := opaquePageTokenBytes MARKET_ACQUISITION_LIMITS.
Definition PAGE_MAX : Z := successfulPages MARKET_ACQUISITION_LIMITS.
Definition AGGREGATE_BYTES_MAX : Z := aggregateVerifiedBytes MARKET_ACQUISITION_LIMITS.
Definition RECORDS_PER_PAGE_MAX : Z := recordsPerPage MARKET_ACQUISITION_LIMITS.
Definition FACTS_MAX : Z := normalizedFacts MARKET_ACQUISITION_LIMITS.
Definition ATTEMPTS_MAX : Z := attemptsPerAcquisition MARKET_ACQUISITION_LIMITS.

Definition safe_count (value maximum : Z) : bool :=
  is_safe_integer value && (0 <=? value) && (value <=? maximum).

Definition assertSafeCount (value maximum : Z) (message : string) : res unit :=
  throw_if (negb (safe_count value maximum)) (RangeError message).

Definition assertHash (value : jsstring) (message : string) : res unit :=
  throw_if (negb (is_hash value)) (TypeError message).

Definition is_lower_letter (c : Z) : bool := (97 <=? c) && (c <=? 122).

(** A lower-case name, [1_], and 64 hexadecimal digits. *)
Definition PREFIXED_ID (value : jsstring) : bool :=
  let n := (length value - 64)%nat in
  is_hash (drop n value) &&
  match reverse (take n value) with
  | u :: one :: name =>
      (u =? 95) && (one =? 49) &&
      match reverse name with
      | c :: cs => is_lower_letter c && forallb (λ c, is_lower_letter c || is_digit c) cs
      | [] => false
      end
  | _ => false
  end.

Definition startsWith (value prefix : jsstring) : bool :=
  bool_decide (take (length prefix) value = prefix).

Definition assertPrefixedId (value prefix : jsstring) (message : string) : res unit :=
  throw_if (negb (startsWith value prefix) || negb (PREFIXED_ID value)) (TypeError message).

(** [Buffer.compare(Buffer.from(a), Buffer.from(b)) < 0]. *)
Definition bytes_before (a b : jsstring) : bool :=
  match js_compare (utf8 a) (utf8 b) with Lt => true | _ => false end.

Fixpoint sorted_unique (values : list jsstring) : bool :=
  match values with
  | a :: ((b :: _) as rest) => bytes_before a b && sorted_unique rest
  | _ => true
  end.

Definition assertSortedUnique (values : list jsstring) (message : string) : res unit :=
  throw_if (negb (sorted_unique values)) (TypeError message).

(** ** Identities *)

Section journal.
Context `{Sha256}.

Definition framedHash (domain : jsstring) (preimage : json) : res jsstring :=
  let* text := canonicalJson preimage in
  Ok (sha256 (frame (utf8 domain) ++ frame (utf8 text))).

Definition deriveMarketAcquisitionJournalId (input : JournalIdentityInput) : res jsstring :=
  framedHash (js "peas/market-acquisition-journal/v1") (JObj (identity_fields input)).

Definition derivePrivateTokenHash (opaqueTokenMaterial : jsstring) : res jsstring :=
  guard! bool_decide (opaqueTokenMaterial = []) || (TOKEN_BYTES_MAX <? byte_length opaqueTokenMaterial)
    throws RangeError "private-token-invalid" ;;
  framedHash (js "peas/market-acquisition-private-token/v1")
    (JObj [(js "opaqueTokenMaterial", JStr opaqueTokenMaterial)]).

Definition deriveLogicalPageIdentityHash (requestIdentityHash : jsstring) (pageOrdinal : Z)
    (currentTokenHash : jsstring) : res jsstring :=
  do! assertHash requestIdentityHash "request-identity-invalid" ;;
  do! assertSafeCount pageOrdinal MAX_SAFE_INTEGER "page-ordinal-invalid" ;;
  guard! negb (bool_decide (currentTokenHash = NO_TOKEN_HASH)) && negb (is_hash currentTokenHash)
    throws TypeError "current-token-hash-invalid" ;;
  guard! negb (Bool.eqb (pageOrdinal =? 0) (bool_decide (currentTokenHash = NO_TOKEN_HASH)))
    throws TypeError "first-page-token-invalid" ;;
  framedHash (js "peas/market-acquisition-logical-page/v1")
    (JObj [(js "requestIdentityHash", JStr requestIdentityHash);
           (js "pageOrdinal", jint pageOrdinal);
           (js "currentTokenHash", JStr currentTokenHash)]).

Record AttemptIdentities : Type := { at_attemptId : jsstring; at_retrievalAttemptId : jsstring }.

Definition deriveAttemptControlIdentities (logicalPageIdentityHash : jsstring) (attemptOrdinal : Z)
    (runSessionNonce : jsstring) : res AttemptIdentities :=
  do! assertHash logicalPageIdentityHash "logical-page-identity-invalid" ;;
  do! assertSafeCount attemptOrdinal (attemptsPerLogicalPage MARKET_ACQUISITION_LIMITS - 1)
    "attempt-ordinal-invalid" ;;
  guard! bool_decide (runSessionNonce = []) || (256 <? byte_length runSessionNonce)
    throws TypeError "run-session-nonce-invalid" ;;
  let* digest := framedHash (js "peas/market-acquisition-attempt-control/v1")
    (JObj [(js "logicalPageIdentityHash", JStr logicalPageIdentityHash);
           (js "attemptOrdinal", jint attemptOrdinal);
           (js "runSessionNonce", JStr runSessionNonce)]) in
  Ok {| at_attemptId := js "mat1_" ++ digest; at_retrievalAttemptId := js "rat1_" ++ digest |}.

Record ContinuationBindingInput : Type := {
  cb_precedingMarketAcquisitionId : jsstring;
  cb_requestIdentityHash : jsstring;
  cb_precedingLogicalPageIdentityHash : jsstring;
  cb_precedingPageOrdinal : Z;
  cb_precedingArtifactObservationId : jsstring;
  cb_precedingArtifactDigest : jsstring;
  cb_precedingPageChainHash : jsstring;
  cb_nextPageOrdinal : Z;
  cb_nextTokenHash : jsstring
}.

Definition deriveContinuationBindingHash (input : ContinuationBindingInput) : res jsstring :=
  do! assertPrefixedId (cb_precedingMarketAcquisitionId input) (js "maq1_") "market-acquisition-id-invalid" ;;
  do! assertHash (cb_requestIdentityHash input) "request-identity-invalid" ;;
  do! assertHash (cb_precedingLogicalPageIdentityHash input) "logical-page-identity-invalid" ;;
  do! assertSafeCount (cb_precedingPageOrdinal input) MAX_SAFE_INTEGER "preceding-page-ordinal-invalid" ;;
  do! assertHash (cb_precedingArtifactObservationId input) "artifact-observation-id-invalid" ;;
  do! assertHash (cb_precedingArtifactDigest input) "artifact-digest-invalid" ;;
  do! assertHash (cb_precedingPageChainHash input) "page-chain-hash-invalid" ;;
  guard! negb (cb_nextPageOrdinal input =? cb_precedingPageOrdinal input + 1)
    throws TypeError "continuation-page-gap" ;;
  do! assertHash (cb_nextTokenHash input) "next-token-hash-invalid" ;;
  framedHash (js "peas/market-acquisition-continuation-binding/v1")
    (JObj [(js "precedingMarketAcquisitionId", JStr (cb_precedingMarketAcquisitionId input));
           (js "requestIdentityHash", JStr (cb_requestIdentityHash input));
           (js "precedingLogicalPageIdentityHash", JStr (cb_precedingLogicalPageIdentityHash input));
           (js "precedingPageOrdinal", jint (cb_precedingPageOrdinal input));
           (js "precedingArtifactObservationId", JStr (cb_precedingArtifactObservationId input));
           (js "precedingArtifactDigest", JStr (cb_precedingArtifactDigest input));
           (js "precedingPageChainHash", JStr (cb_precedingPageChainHash input));
           (js "nextPageOrdinal", jint (cb_nextPageOrdinal input));
           (js "nextTokenHash", JStr (cb_nextTokenHash input))]).

(** The page-chain input without [nextTokenHash], which [planPageAdmission] adds. *)
Record PageChainInput : Type := {
  pg_priorPageChainHash : jsstring;
  pg_marketAcquisitionId : jsstring;
  pg_requestIdentityHash : jsstring;
  pg_logicalPageIdentityHash : jsstring;
  pg_pageOrdinal : Z;
  pg_artifactObservationId : jsstring;
  pg_artifactDigest : jsstring;
  pg_artifactSizeBytes : Z;
  pg_artifactObservationHash : jsstring;
  pg_artifactContentId : jsstring;
  pg_rawArtifactId : jsstring;
  pg_currentTokenHash : jsstring;
  pg_pageRecordCount : Z;
  pg_cumulativeSuccessfulPages : Z;
  pg_cumulativeVerifiedBytes : Z;
  pg_cumulativeRecords : Z;
  pg_cumulativeNormalizedFacts : Z;
  pg_cumulativeAttempts : Z
}.

Definition page_chain_fields (i : PageChainInput) : jobject := [
  (js "priorPageChainHash", JStr (pg_priorPageChainHash i));
  (js "marketAcquisitionId", JStr (pg_marketAcquisitionId i));
  (js "requestIdentityHash", JStr (pg_requestIdentityHash i));
  (js "logicalPageIdentityHash", JStr (pg_logicalPageIdentityHash i));
  (js "pageOrdinal", jint (pg_pageOrdinal i));
  (js "artifactObservationId", JStr (pg_artifactObservationId i));
  (js "artifactDigest", JStr (pg_artifactDigest i));
  (js "artifactSizeBytes", jint (pg_artifactSizeBytes i));
  (js "artifactObservationHash", JStr (pg_artifactObservationHash i));
  (js "artifactContentId", JStr (pg_artifactContentId i));
  (js "rawArtifactId", JStr (pg_rawArtifactId i));
  (js "currentTokenHash", JStr (pg_currentTokenHash i));
  (js "pageRecordCount", jint (pg_pageRecordCount i));
  (js "cumulativeSuccessfulPages", jint (pg_cumulativeSuccessfulPages i));
  (js "cumulativeVerifiedBytes", jint (pg_cumulativeVerifiedBytes i));
  (js "cumulativeRecords", jint (pg_cumulativeRecords i));
  (js "cumulativeNormalizedFacts", jint (pg_cumulativeNormalizedFacts i));
  (js "cumulativeAttempts", jint (pg_cumulativeAttempts i))].

(** [assertHash] unless the value is the given marker. *)
Definition hash_or (marker value : jsstring) (message : string) : res unit :=
  if bool_decide (value = marker) then Ok tt else assertHash value message.

Definition derivePageChainHash (input : PageChainInput) (nextTokenHash : jsstring) : res jsstring :=
  do! hash_or GENESIS_HASH (pg_priorPageChainHash input) "prior-page-chain-hash-invalid" ;;
  do! assertPrefixedId (pg_marketAcquisitionId input) (js "maq1_") "market-acquisition-id-invalid" ;;
  do! assertHash (pg_requestIdentityHash input) "request-identity-invalid" ;;
  do! assertHash (pg_logicalPageIdentityHash input) "logical-page-identity-invalid" ;;
  do! assertSafeCount (pg_pageOrdinal input) (PAGE_MAX - 1) "page-ordinal-invalid" ;;
  do! assertHash (pg_artifactObservationId input) "artifact-observation-id-invalid" ;;
  do! assertHash (pg_artifactDigest input) "artifact-digest-invalid" ;;
  do! assertSafeCount (pg_artifactSizeBytes input) (rawArtifactBytes MARKET_ACQUISITION_LIMITS)
    "artifact-size-invalid" ;;
  do! assertHash (pg_artifactObservationHash input) "artifact-observation-hash-invalid" ;;
  do! assertPrefixedId (pg_artifactContentId input) (js "mac1_") "artifact-content-id-invalid" ;;
  do! assertPrefixedId (pg_rawArtifactId input) (js "mar1_") "raw-artifact-id-invalid" ;;
  do! hash_or NO_TOKEN_HASH (pg_currentTokenHash input) "current-token-invalid" ;;
  do! hash_or TERMINAL_TOKEN_HASH nextTokenHash "next-token-invalid" ;;
  do! assertSafeCount (pg_pageRecordCount input) RECORDS_PER_PAGE_MAX "page-record-count-invalid" ;;
  do! assertSafeCount (pg_cumulativeSuccessfulPages input) PAGE_MAX "cumulative-pages-invalid" ;;
  do! assertSafeCount (pg_cumulativeVerifiedBytes input) AGGREGATE_BYTES_MAX "cumulative-bytes-invalid" ;;
  do! assertSafeCount (pg_cumulativeRecords input) (PAGE_MAX * RECORDS_PER_PAGE_MAX)
    "cumulative-records-invalid" ;;
  guard! negb (pg_cumulativeNormalizedFacts input =? 0)
    throws RangeError "page-chain-normalized-facts-invalid" ;;
  do! assertSafeCount (pg_cumulativeAttempts input) ATTEMPTS_MAX "cumulative-attempts-invalid" ;;
  framedHash (js "peas/market-acquisition-page-chain/v1")
    (JObj (page_chain_fields input ++ [(js "nextTokenHash", JStr nextTokenHash)])).

Record PageAdmission : Type := {
  ad_pageChainHash : jsstring;
  ad_nextTokenHash : jsstring;
  ad_nextContinuationBindingHash : option jsstring
}.

Definition planPageAdmission (input : PageChainInput) (nextTokenMaterial : option jsstring) :
    res PageAdmission :=
  let* nextTokenHash := match nextTokenMaterial with
    | None => Ok TERMINAL_TOKEN_HASH
    | Some material => derivePrivateTokenHash material
    end in
  let* pageChainHash := derivePageChainHash input nextTokenHash in
  let* binding := match nextTokenMaterial with
    | None => Ok None
    | Some _ =>
        let* binding := deriveContinuationBindingHash {|
          cb_precedingMarketAcquisitionId := pg_marketAcquisitionId input;
          cb_requestIdentityHash := pg_requestIdentityHash input;
          cb_precedingLogicalPageIdentityHash := pg_logicalPageIdentityHash input;
          cb_precedingPageOrdinal := pg_pageOrdinal input;
          cb_precedingArtifactObservationId := pg_artifactObservationId input;
          cb_precedingArtifactDigest := pg_artifactDigest input;
          cb_precedingPageChainHash := pageChainHash;
          cb_nextPageOrdinal := pg_pageOrdinal input + 1;
          cb_nextTokenHash := nextTokenHash |} in
        Ok (Some binding)
    end in
  Ok {| ad_pageChainHash := pageChainHash; ad_nextTokenHash := nextTokenHash;
        ad_nextContinuationBindingHash := binding |}.

Record PrecedingPage : Type := {
  pp_marketAcquisitionId : jsstring;
  pp_requestIdentityHash : jsstring;
  pp_logicalPageIdentityHash : jsstring;
  pp_pageOrdinal : Z;
  pp_artifactObservationId : jsstring;
  pp_artifactDigest : jsstring;
  pp_pageChainHash : jsstring;
  pp_nextTokenHash : jsstring;
  pp_nextContinuationBindingHash : jsstring
}.

Record NextPage : Type := {
  np_requestIdentityHash : jsstring;
  np_pageOrdinal : Z;
  np_tokenMaterial : jsstring;
  np_currentTokenHash : jsstring;
  np_currentContinuationBindingHash : jsstring
}.

Definition validateContinuationAuthority (preceding : PrecedingPage) (next : NextPage)
    (previouslyConsumedTokenHashes : gset jsstring) : res unit :=
  guard! negb (bool_decide (np_requestIdentityHash next = pp_requestIdentityHash preceding))
    throws TypeError "continuation-query-substitution" ;;
  guard! negb (np_pageOrdinal next =? pp_pageOrdinal preceding + 1)
    throws TypeError "continuation-page-gap" ;;
  let* tokenHash := derivePrivateTokenHash (np_tokenMaterial next) in
  guard! negb (bool_decide (tokenHash = np_currentTokenHash next)) ||
         negb (bool_decide (tokenHash = pp_nextTokenHash preceding)) ||
         bool_decide (tokenHash ∈ previouslyConsumedTokenHashes)
    throws TypeError "continuation-token-invalid" ;;
  let* expectedBinding := deriveContinuationBindingHash {|
    cb_precedingMarketAcquisitionId := pp_marketAcquisitionId preceding;
    cb_requestIdentityHash := pp_requestIdentityHash preceding;
    cb_precedingLogicalPageIdentityHash := pp_logicalPageIdentityHash preceding;
    cb_precedingPageOrdinal := pp_pageOrdinal preceding;
    cb_precedingArtifactObservationId := pp_artifactObservationId preceding;
    cb_precedingArtifactDigest := pp_artifactDigest preceding;
    cb_precedingPageChainHash := pp_pageChainHash preceding;
    cb_nextPageOrdinal := np_pageOrdinal next;
    cb_nextTokenHash := tokenHash |} in
  throw_if (negb (bool_decide (expectedBinding = pp_nextContinuationBindingHash preceding)) ||
    negb (bool_decide (expectedBinding = np_currentContinuationBindingHash next)))
    (TypeError "continuation-binding-invalid").

(** ** Entries *)

Definition deriveJournalEntryHash (entry : JournalDraft) : res jsstring :=
  let* canonicalEntryBody := canonicalJson (JObj (body_fields entry)) in
  framedHash (js "peas/market-acquisition-journal-entry/v1")
    (JObj [(js "marketAcquisitionJournalId", JStr (je_marketAcquisitionJournalId entry));
           (js "journalSequence", jint (je_journalSequence entry));
           (js "priorJournalEntryHash", JStr (je_priorJournalEntryHash entry));
           (js "entryKind", JStr (checkpoint_name (je_checkpointKind entry)));
           (js "canonicalEntryBody", JStr canonicalEntryBody)]).

Definition next_sequence (previous : option JournalEntry) : Z :=
  match previous with None => 0 | Some p => je_journalSequence p + 1 end.

Definition prior_hash (previous : option JournalEntry) : jsstring :=
  match previous with None => GENESIS_HASH | Some p => je_journalEntryHash p end.

Definition createJournalEntry (previous : option JournalEntry) (marketAcquisitionJournalId : jsstring)
    (checkpointKind : JournalCheckpointKind) (body : JournalCheckpointBody) : res JournalEntry :=
  do! assertHash marketAcquisitionJournalId "journal-id-invalid" ;;
  let draft := {| je_body := body;
    je_marketAcquisitionJournalId := marketAcquisitionJournalId;
    je_journalSequence := next_sequence previous;
    je_priorJournalEntryHash := prior_hash previous;
    je_checkpointKind := checkpointKind |} in
  let* journalEntryHash := deriveJournalEntryHash draft in
  Ok {| je_draft := draft; je_journalEntryHash := journalEntryHash |}.

(** [if (value !== null) check(value)]. *)
Definition if_present {A} (o : option A) (check : A → res unit) : res unit :=
  match o with None => Ok tt | Some a => check a end.

Definition validate_first_page (entry : JournalEntry) : res unit :=
  if jb_pageOrdinal entry =? 0 then
    throw_if (negb (bool_decide (jb_currentTokenHash entry = NO_TOKEN_HASH)) ||
      bool_decide (is_Some (jb_currentResumableTokenMaterial entry)) ||
      bool_decide (is_Some (jb_currentContinuationBindingHash entry)))
      (TypeError "first-page-token-invalid")
  else
    throw_if (negb (is_hash (jb_currentTokenHash entry)) ||
      negb (bool_decide (is_Some (jb_currentResumableTokenMaterial entry))) ||
      negb (bool_decide (is_Some (jb_currentContinuationBindingHash entry))))
      (TypeError "continuation-state-invalid").

Definition validate_terminal (entry : JournalEntry) : res unit :=
  match jb_terminalState entry with
  | None => throw_if (bool_decide (is_Some (jb_terminalReasonCode entry)) || negb (jb_incomplete entry))
      (TypeError "journal-terminal-state-invalid")
  | Some _ => throw_if (negb (bool_decide (is_Some (jb_terminalReasonCode entry))) || jb_incomplete entry)
      (TypeError "journal-terminal-state-invalid")
  end.

Definition validateCheckpointSemantics (entry : JournalEntry) : res unit :=
  do! assertSafeCount (jb_pageOrdinal entry) (PAGE_MAX - 1) "page-ordinal-invalid" ;;
  do! assertSafeCount (jb_attemptOrdinal entry) 2 "attempt-ordinal-invalid" ;;
  do! assertSafeCount (jb_cumulativeSuccessfulPages entry) PAGE_MAX "cumulative-pages-invalid" ;;
  do! assertSafeCount (jb_cumulativeVerifiedBytes entry) AGGREGATE_BYTES_MAX "cumulative-bytes-invalid" ;;
  do! assertSafeCount (jb_cumulativeRecords entry) (PAGE_MAX * RECORDS_PER_PAGE_MAX)
    "cumulative-records-invalid" ;;
  do! assertSafeCount (jb_cumulativeNormalizedFacts entry) FACTS_MAX "cumulative-facts-invalid" ;;
  do! assertSafeCount (jb_cumulativeAttempts entry) ATTEMPTS_MAX "cumulative-attempts-invalid" ;;
  do! if_present (jb_pageRecordCount entry) (λ n,
    assertSafeCount n RECORDS_PER_PAGE_MAX "page-record-count-invalid") ;;
  do! if_present (jb_pageNormalizedFactCount entry) (λ n,
    assertSafeCount n FACTS_MAX "page-fact-count-invalid") ;;
  do! if_present (jb_artifactSizeBytes entry) (λ n,
    assertSafeCount n (rawArtifactBytes MARKET_ACQUISITION_LIMITS) "artifact-size-invalid") ;;
  guard! negb (bool_decide (jb_authorizationMode entry = AUTHORIZATION_MODE)) ||
         negb (jb_schemaVersion entry =? 1)
    throws TypeError "journal-authority-invalid" ;;
  do! validate_first_page entry ;;
  do! if_present (jb_currentResumableTokenMaterial entry) (λ material,
    let* h := derivePrivateTokenHash material in
    throw_if (negb (bool_decide (h = jb_currentTokenHash entry)))
      (TypeError "current-token-material-invalid")) ;;
  do! if_present (jb_nextResumableTokenMaterial entry) (λ material,
    let* nextHash := derivePrivateTokenHash material in
    throw_if (negb (bool_decide (jb_nextTokenHash entry = Some nextHash)))
      (TypeError "next-token-material-invalid")) ;;
  do! validate_terminal entry ;;
  assertSortedUnique (jb_causalParentFactIds entry) "causal-parent-facts-not-sorted-unique".

(** ** Checkpoint order *)

Definition artifact_values (entry : JournalEntry) : list (option json) := [
  JStr <$> jb_artifactObservationId entry;
  JStr <$> jb_artifactDigest entry;
  jint <$> jb_artifactSizeBytes entry;
  JStr <$> jb_artifactObservationHash entry;
  JStr <$> jb_artifactContentId entry;
  JStr <$> jb_rawArtifactId entry].

Definition ARTIFACT_REQUIRED : list JournalCheckpointKind :=
  [K_artifact_committed; K_artifact_verified; K_page_checkpointed; K_chain_complete;
   K_normalization_started; K_normalization_complete; K_selection_started; K_completed].

Definition NONTERMINAL_TRANSITIONS (k : JournalCheckpointKind) : list JournalCheckpointKind :=
  match k with
  | K_acquisition_declared => [K_request_started; K_stopped; K_failed_clean; K_quarantined]
  | K_request_started => [K_attempt_started; K_stopped; K_failed_clean; K_quarantined]
  | K_attempt_started =>
      [K_attempt_started; K_request_succeeded; K_stopped; K_failed_clean; K_quarantined]
  | K_request_succeeded =>
      [K_attempt_started; K_artifact_committed; K_stopped; K_failed_clean; K_quarantined]
  | K_artifact_committed => [K_artifact_verified; K_stopped; K_failed_clean; K_quarantined]
  | K_artifact_verified => [K_page_checkpointed; K_stopped; K_failed_clean; K_quarantined]
  | K_page_checkpointed => [K_attempt_started; K_chain_complete; K_stopped; K_failed_clean]
  | K_chain_complete => [K_normalization_started; K_stopped; K_failed_clean; K_quarantined]
  | K_normalization_started => [K_normalization_complete; K_stopped; K_failed_clean; K_quarantined]
  | K_normalization_complete => [K_selection_started; K_stopped; K_failed_clean; K_quarantined]
  | K_selection_started => [K_completed; K_stopped; K_failed_clean; K_quarantined]
  | K_completed | K_stopped | K_failed_clean | K_quarantined => []
  end.

Definition artifactTuple (entry : JournalEntry) : res (option (list json)) :=
  let values := artifact_values entry in
  let present := (λ v, bool_decide (is_Some v)) <$> values in
  guard! existsb (λ b, b) present && negb (forallb (λ b, b) present)
    throws TypeError "journal-artifact-tuple-partial" ;;
  Ok (if forallb (λ b, b) present then Some (omap (λ v, v) values) else None).

Definition pinnedArtifactTuple (entry : JournalEntry) : res (option (list json)) :=
  let* tuple := artifactTuple entry in
  Ok ((λ tuple, [JStr (jb_acquisitionObservationId entry); JStr (jb_marketAcquisitionId entry);
    JStr (jb_requestIdentityHash entry); JStr (jb_providerId entry); JStr (jb_attemptId entry);
    JStr (jb_retrievalAttemptId entry); jint (jb_attemptOrdinal entry)] ++ tuple) <$> tuple).

(** The artifact tuple does not change within a page. *)
Definition check_pinned (previous entry : JournalEntry) : res unit :=
  if jb_pageOrdinal previous =? jb_pageOrdinal entry then
    let* before := pinnedArtifactTuple previous in
    match before with
    | None => Ok tt
    | Some before =>
        let* after := pinnedArtifactTuple entry in
        match after with
        | None => Ok tt
        | Some after =>
            let* a := canonicalJson (JArr before) in
            let* b := canonicalJson (JArr after) in
            throw_if (negb (bool_decide (a = b))) (TypeError "journal-artifact-tuple-conflict")
        end
    end
  else Ok tt.

(** The continuation fields of an entry that starts the next page. *)
Definition check_continuation (previous entry : JournalEntry) : res unit :=
  throw_if (bool_decide (jb_nextTokenHash previous = None) ||
    bool_decide (jb_nextTokenHash previous = Some TERMINAL_TOKEN_HASH) ||
    bool_decide (jb_nextContinuationBindingHash previous = None) ||
    negb (bool_decide (Some (jb_currentTokenHash entry) = jb_nextTokenHash previous)) ||
    negb (bool_decide (jb_currentContinuationBindingHash entry = jb_nextContinuationBindingHash previous)))
    (TypeError "journal-continuation-transition-invalid").

(** The next-token fields appear with the page checkpoint. *)
Definition check_next_token (entry : JournalEntry) : res unit :=
  if bool_decide (je_checkpointKind entry ∈ [K_acquisition_declared; K_request_started;
       K_attempt_started; K_request_succeeded; K_artifact_committed; K_artifact_verified])
  then throw_if (bool_decide (is_Some (jb_nextTokenHash entry)) ||
         bool_decide (is_Some (jb_nextResumableTokenMaterial entry)) ||
         bool_decide (is_Some (jb_nextContinuationBindingHash entry)))
         (TypeError "journal-next-token-premature")
  else throw_if (bool_decide (je_checkpointKind entry = K_page_checkpointed) &&
         (bool_decide (jb_nextTokenHash entry = None) ||
          negb (Bool.eqb (bool_decide (jb_nextTokenHash entry = Some TERMINAL_TOKEN_HASH))
            (bool_decide (jb_nextResumableTokenMaterial entry = None) &&
             bool_decide (jb_nextContinuationBindingHash entry = None)))))
         (TypeError "journal-next-token-fields-invalid").

Definition validateCheckpointTransition (previous : option JournalEntry) (entry : JournalEntry) : res unit :=
  let* tuple := artifactTuple entry in
  guard! bool_decide (je_checkpointKind entry ∈ ARTIFACT_REQUIRED) && bool_decide (tuple = None)
    throws TypeError "journal-artifact-tuple-required" ;;
  guard! bool_decide (je_checkpointKind entry ∈ [K_acquisition_declared; K_request_started;
           K_attempt_started; K_request_succeeded]) && bool_decide (is_Some tuple)
    throws TypeError "journal-artifact-tuple-premature" ;;
  match previous with
  | None =>
      throw_if (negb (bool_decide (je_checkpointKind entry = K_acquisition_declared)) ||
        negb (jb_pageOrdinal entry =? 0)) (TypeError "journal-initial-checkpoint-invalid")
  | Some previous =>
      guard! negb (bool_decide (je_checkpointKind entry ∈ NONTERMINAL_TRANSITIONS (je_checkpointKind previous)))
        throws TypeError "journal-checkpoint-transition-invalid" ;;
      let afterPage := bool_decide (je_checkpointKind previous = K_page_checkpointed) in
      let advancesPage := afterPage && bool_decide (je_checkpointKind entry = K_attempt_started) in
      guard! negb (jb_pageOrdinal entry =? jb_pageOrdinal previous + (if advancesPage then 1 else 0))
        throws TypeError "journal-page-transition-invalid" ;;
      do! (if advancesPage then check_continuation previous entry else Ok tt) ;;
      guard! bool_decide (je_checkpointKind entry = K_chain_complete) &&
             (negb afterPage || negb (bool_decide (jb_nextTokenHash previous = Some TERMINAL_TOKEN_HASH)))
        throws TypeError "journal-chain-completion-invalid" ;;
      do! check_pinned previous entry ;;
      check_next_token entry
  end.

(** ** Validation of a journal *)

Record JournalScan : Type := {
  js_previous : option JournalEntry;
  js_terminalSeen : bool;
  js_pages : Z;
  js_bytes : Z;
  js_records : Z;
  js_facts : Z;
  js_attempts : Z;
  js_consumed : gset jsstring
}.

Definition initial_journal_scan : JournalScan := {|
  js_previous := None; js_terminalSeen := false; js_pages := 0; js_bytes := 0; js_records := 0;
  js_facts := 0; js_attempts := 0; js_consumed := ∅ |}.

Definition scan_identity (expectedJournalId : jsstring) (expected : JournalIdentityInput)
    (entry : JournalEntry) : res unit :=
  throw_if (negb (bool_decide (je_marketAcquisitionJournalId entry = expectedJournalId)) ||
    negb (bool_decide (jb_requestIdentityHash entry = ji_requestIdentityHash expected)) ||
    negb (bool_decide (jb_providerId entry = ji_providerId expected)) ||
    negb (bool_decide (jb_datasetId entry = ji_datasetId expected)) ||
    negb (bool_decide (jb_feedId entry = ji_feedId expected)) ||
    negb (bool_decide (jb_endpointChannelId entry = ji_endpointChannelId expected)))
    (TypeError "journal-identity-mismatch").

Definition scan_chain (previous : option JournalEntry) (entry : JournalEntry) : res unit :=
  guard! negb (je_journalSequence entry =? next_sequence previous) ||
         negb (bool_decide (je_priorJournalEntryHash entry = prior_hash previous))
    throws TypeError "journal-hash-chain-invalid" ;;
  let* h := deriveJournalEntryHash entry in
  throw_if (negb (bool_decide (je_journalEntryHash entry = h))) (TypeError "journal-hash-chain-invalid").

(** The entry starts an attempt on a continuation page. *)
Definition continues (entry : JournalEntry) : bool :=
  (0 <? jb_pageOrdinal entry) && bool_decide (je_checkpointKind entry = K_attempt_started).

Definition scan_tokens (consumed : gset jsstring) (entry : JournalEntry) : res (gset jsstring) :=
  if continues entry then
    guard! bool_decide (jb_currentTokenHash entry ∈ consumed)
      throws TypeError "journal-continuation-token-loop" ;;
    Ok (consumed ∪ {[jb_currentTokenHash entry]})
  else Ok consumed.

Definition scan_entry (expectedJournalId : jsstring) (expected : JournalIdentityInput)
    (st : JournalScan) (entry : JournalEntry) : res JournalScan :=
  do! canonicalJson (JObj (entry_fields entry)) ;;
  do! scan_identity expectedJournalId expected entry ;;
  do! scan_chain (js_previous st) entry ;;
  guard! (jb_cumulativeSuccessfulPages entry <? js_pages st) ||
         (jb_cumulativeVerifiedBytes entry <? js_bytes st) ||
         (jb_cumulativeRecords entry <? js_records st) ||
         (jb_cumulativeNormalizedFacts entry <? js_facts st) ||
         (jb_cumulativeAttempts entry <? js_attempts st)
    throws TypeError "journal-counter-regression" ;;
  guard! js_terminalSeen st throws TypeError "journal-after-terminal" ;;
  do! validateCheckpointSemantics entry ;;
  let* consumed := scan_tokens (js_consumed st) entry in
  do! validateCheckpointTransition (js_previous st) entry ;;
  Ok {| js_previous := Some entry;
        js_terminalSeen := bool_decide (is_Some (jb_terminalState entry));
        js_pages := jb_cumulativeSuccessfulPages entry;
        js_bytes := jb_cumulativeVerifiedBytes entry;
        js_records := jb_cumulativeRecords entry;
        js_facts := jb_cumulativeNormalizedFacts entry;
        js_attempts := jb_cumulativeAttempts entry;
        js_consumed := consumed |}.

Definition scan_entries (expectedJournalId : jsstring) (expected : JournalIdentityInput)
    (entries : list JournalEntry) : res JournalScan :=
  res_fold (scan_entry expectedJournalId expected) initial_journal_scan entries.

Definition validateJournalEntries (entries : list JournalEntry) (expectedIdentity : JournalIdentityInput) :
    res unit :=
  guard! bool_decide (entries = []) throws TypeError "journal-empty" ;;
  let* expectedJournalId := deriveMarketAcquisitionJournalId expectedIdentity in
  do! scan_entries expectedJournalId expectedIdentity entries ;;
  Ok tt.
End journal.
