(* ===== verification/JournalFacts.v ===== *)
(** * Facts about acquisition journals

    What one accepted entry satisfies, and what the entries of an accepted journal
    satisfy together. *)
From S2P Require Import Prelude JsString JsNumber Json JsonParse JsonClaims Hash JsonObject.
From S2P Require Import Acquisition Journal.

Section facts.
Context `{Sha256}.
Implicit Types (es : list JournalEntry) (e : JournalEntry) (st : JournalScan).

(** ** One entry *)

Definition counters_le e e' : Prop :=
  jb_cumulativeSuccessfulPages e <= jb_cumulativeSuccessfulPages e' ∧
  jb_cumulativeVerifiedBytes e <= jb_cumulativeVerifiedBytes e' ∧
  jb_cumulativeRecords e <= jb_cumulativeRecords e' ∧
  jb_cumulativeNormalizedFacts e <= jb_cumulativeNormalizedFacts e' ∧
  jb_cumulativeAttempts e <= jb_cumulativeAttempts e'.

Definition entry_bounds e : Prop :=
  0 <= jb_pageOrdinal e <= 15 ∧ 0 <= jb_attemptOrdinal e <= 2 ∧
  0 <= jb_cumulativeSuccessfulPages e <= 16 ∧ 0 <= jb_cumulativeAttempts e <= 48 ∧
  0 <= jb_cumulativeVerifiedBytes e <= 67108864 ∧ 0 <= jb_cumulativeRecords e <= 160000 ∧
  0 <= jb_cumulativeNormalizedFacts e <= 160000 ∧
  (∀ n, jb_pageRecordCount e = Some n → 0 <= n <= 10000) ∧
  (∀ n, jb_pageNormalizedFactCount e = Some n → 0 <= n <= 160000) ∧
  (∀ n, jb_artifactSizeBytes e = Some n → 0 <= n <= 10485760) ∧
  jb_authorizationMode e = AUTHORIZATION_MODE ∧ jb_schemaVersion e = 1 ∧
  (jb_pageOrdinal e = 0 → jb_currentTokenHash e = NO_TOKEN_HASH) ∧
  (∀ material, jb_currentResumableTokenMaterial e = Some material →
    derivePrivateTokenHash material = Ok (jb_currentTokenHash e)) ∧
  ∀ material, jb_nextResumableTokenMaterial e = Some material →
    ∃ h, derivePrivateTokenHash material = Ok h ∧ jb_nextTokenHash e = Some h.

Lemma assertSafeCount_Ok v hi m u : assertSafeCount v hi m = Ok u → 0 <= v <= hi.
Proof. intros Hv%throw_if_Ok. unfold safe_count in Hv. bool_prop. lia. Qed.

Lemma if_present_Ok {A} (o : option A) (f : A → res unit) u :
  if_present o f = Ok u → ∀ x, o = Some x → f x = Ok tt.
Proof. intros Hf x ->. cbn in Hf. by destruct (f x) as [[]|]. Qed.

Lemma validateCheckpointSemantics_inv e : validateCheckpointSemantics e = Ok tt → entry_bounds e.
Proof.
  unfold validateCheckpointSemantics. intros Hv.
  do 12 (apply res_bind_Ok in Hv as (? & ? & Hv)). apply res_bind_Ok in Hv as (? & Hmat & Hv).
  apply res_bind_Ok in Hv as (? & Hnext & _).
  pose proof (if_present_Ok _ _ _ Hmat) as Hcurrent. pose proof (if_present_Ok _ _ _ Hnext) as Hafter. clear Hmat Hnext.
  repeat match goal with
  | H1 : assertSafeCount _ _ _ = Ok _ |- _ => apply assertSafeCount_Ok in H1
  | H1 : throw_if _ _ = Ok _ |- _ => apply throw_if_Ok in H1
  | H1 : if_present _ _ = Ok _ |- _ => pose proof (if_present_Ok _ _ _ H1); clear H1
  end.
  change (PAGE_MAX - 1) with 15 in *. change (PAGE_MAX * RECORDS_PER_PAGE_MAX) with 160000 in *.
  change PAGE_MAX with 16 in *. change ATTEMPTS_MAX with 48 in *. change AGGREGATE_BYTES_MAX with 67108864 in *.
  change FACTS_MAX with 160000 in *. change RECORDS_PER_PAGE_MAX with 10000 in *.
  bool_prop. unfold entry_bounds. split_and!; try done; try lia.
  1-3: intros n E; match goal with H1 : ∀ x, _ = Some x → _ |- _ =>
    exact (assertSafeCount_Ok _ _ _ _ (H1 _ E)) end.
  - intros E. match goal with H1 : validate_first_page e = _ |- _ => rename H1 into Hfirst end.
    unfold validate_first_page in Hfirst. rewrite E in Hfirst.
    change (0 =? 0) with true in Hfirst. cbv iota in Hfirst. apply throw_if_Ok in Hfirst. by bool_prop.
  - intros material E.
    specialize (Hcurrent _ E) as Hm. cbv beta in Hm. apply res_bind_Ok in Hm as (h & Hh & Hm%throw_if_Ok). bool_prop. by subst.
  - intros material E.
    specialize (Hafter _ E) as Hm. cbv beta in Hm. apply res_bind_Ok in Hm as (h & Hh & Hm%throw_if_Ok). bool_prop. by exists h.
Qed.

Record entry_follows (id : jsstring) (previous : option JournalEntry) e : Prop := {
  ef_id : je_marketAcquisitionJournalId e = id;
  ef_sequence : je_journalSequence e = next_sequence previous;
  ef_prior : je_priorJournalEntryHash e = prior_hash previous;
  ef_hash : deriveJournalEntryHash e = Ok (je_journalEntryHash e);
  ef_bounds : entry_bounds e;
  ef_first : previous = None → je_checkpointKind e = K_acquisition_declared ∧ jb_pageOrdinal e = 0;
  ef_next : ∀ p, previous = Some p →
    je_checkpointKind e ∈ NONTERMINAL_TRANSITIONS (je_checkpointKind p) ∧
    jb_pageOrdinal e = jb_pageOrdinal p +
      (if bool_decide (je_checkpointKind p = K_page_checkpointed) &&
          bool_decide (je_checkpointKind e = K_attempt_started) then 1 else 0)
}.

Record scanned (id : jsstring) st e st' : Prop := {
  sc_follows : entry_follows id (js_previous st) e;
  sc_open : js_terminalSeen st = false;
  sc_counters : js_pages st <= jb_cumulativeSuccessfulPages e ∧ js_bytes st <= jb_cumulativeVerifiedBytes e ∧
    js_records st <= jb_cumulativeRecords e ∧ js_facts st <= jb_cumulativeNormalizedFacts e ∧
    js_attempts st <= jb_cumulativeAttempts e;
  sc_tokens : scan_tokens (js_consumed st) e = Ok (js_consumed st');
  sc_state : st' = {| js_previous := Some e;
    js_terminalSeen := bool_decide (is_Some (jb_terminalState e));
    js_pages := jb_cumulativeSuccessfulPages e; js_bytes := jb_cumulativeVerifiedBytes e;
    js_records := jb_cumulativeRecords e; js_facts := jb_cumulativeNormalizedFacts e;
    js_attempts := jb_cumulativeAttempts e; js_consumed := js_consumed st' |}
}.

Lemma transition_first e :
  validateCheckpointTransition None e = Ok tt → je_checkpointKind e = K_acquisition_declared ∧ jb_pageOrdinal e = 0.
Proof.
  unfold validateCheckpointTransition. intros Hv.
  repeat (apply res_bind_Ok in Hv as (? & ? & Hv)). apply throw_if_Ok in Hv. by bool_prop.
Qed.

Lemma transition_next p e :
  validateCheckpointTransition (Some p) e = Ok tt →
  je_checkpointKind e ∈ NONTERMINAL_TRANSITIONS (je_checkpointKind p) ∧
  jb_pageOrdinal e = jb_pageOrdinal p +
    (if bool_decide (je_checkpointKind p = K_page_checkpointed) &&
        bool_decide (je_checkpointKind e = K_attempt_started) then 1 else 0).
Proof.
  unfold validateCheckpointTransition. intros Hv.
  apply res_bind_Ok in Hv as (? & _ & Hv). apply res_bind_Ok in Hv as (? & _ & Hv).
  apply res_bind_Ok in Hv as (? & _ & Hv). apply res_bind_Ok in Hv as (? & H1%throw_if_Ok & Hv).
  apply res_bind_Ok in Hv as (? & H2%throw_if_Ok & _).
  apply negb_false_iff, bool_decide_eq_true in H1. apply negb_false_iff, Z.eqb_eq in H2. done.
Qed.

Lemma scan_entry_inv id expected st e st' :
  scan_entry id expected st e = Ok st' → scanned id st e st'.
Proof.
  unfold scan_entry. intros Hv.
  apply res_bind_Ok in Hv as (? & _ & Hv). apply res_bind_Ok in Hv as (? & Hid%throw_if_Ok & Hv).
  apply res_bind_Ok in Hv as (? & Hch & Hv). apply res_bind_Ok in Hv as (? & Hc%throw_if_Ok & Hv).
  apply res_bind_Ok in Hv as (? & Ht%throw_if_Ok & Hv). apply res_bind_Ok in Hv as ([] & Hsem & Hv).
  apply res_bind_Ok in Hv as (consumed & Htok & Hv). apply res_bind_Ok in Hv as ([] & Htr & Hv).
  apply Ok_inj in Hv as <-. apply res_bind_Ok in Hch as (? & Hseq%throw_if_Ok & Hch).
  apply res_bind_Ok in Hch as (h & Hh & Hch%throw_if_Ok).
  repeat (apply orb_false_iff in Hid as [Hid _]). bool_prop.
  split; cbn; try done. split; try done.
  - by rewrite Hch.
  - by apply validateCheckpointSemantics_inv.
  - intros E. rewrite E in Htr. by apply transition_first in Htr.
  - intros p E. rewrite E in Htr. by apply transition_next in Htr.
Qed.

(** ** A whole journal *)

(** The tokens of the entries that start an attempt on a continuation page. *)
Definition continued_tokens es : list jsstring :=
  (λ e : JournalEntry, jb_currentTokenHash e) <$> List.filter continues es.

Lemma continued_tokens_snoc es e :
  continued_tokens (es ++ [e]) =
  continued_tokens es ++ (if continues e then [jb_currentTokenHash e] else []).
Proof.
  unfold continued_tokens. rewrite List.filter_app, fmap_app. cbn [List.filter].
  by destruct (continues e).
Qed.

Definition is_last es (i : nat) : Prop := S i = length es.

Record journal_ok (id : jsstring) es : Prop := {
  jo_follows : ∀ i e, es !! i = Some e → entry_follows id (match i with O => None | S i => es !! i end) e;
  jo_sequence : ∀ i e, es !! i = Some e → je_journalSequence e = Z.of_nat i;
  jo_counters : ∀ i j e e', es !! i = Some e → es !! j = Some e' → (i <= j)%nat → counters_le e e';
  jo_terminal : ∀ i e, es !! i = Some e → is_Some (jb_terminalState e) → is_last es i;
  jo_tokens : NoDup (continued_tokens es)
}.

(** The scan's state after the entries. *)
Record scan_state es st : Prop := {
  ss_previous : js_previous st = last es;
  ss_terminal : js_terminalSeen st = match last es with
    | Some e => bool_decide (is_Some (jb_terminalState e)) | None => false end;
  ss_counters : ∀ e, e ∈ es →
    jb_cumulativeSuccessfulPages e <= js_pages st ∧ jb_cumulativeVerifiedBytes e <= js_bytes st ∧
    jb_cumulativeRecords e <= js_records st ∧ jb_cumulativeNormalizedFacts e <= js_facts st ∧
    jb_cumulativeAttempts e <= js_attempts st;
  ss_consumed : ∀ h, h ∈ js_consumed st ↔ h ∈ continued_tokens es
}.

Lemma lookup_snoc_inv {A} (l : list A) x i y :
  (l ++ [x]) !! i = Some y → (i < length l)%nat ∧ l !! i = Some y ∨ i = length l ∧ y = x.
Proof.
  intros Hi. apply lookup_app_Some in Hi as [Hi|[Hl Hi]].
  - left. split; [by eapply lookup_lt_Some|done].
  - right. apply list_lookup_singleton_Some in Hi as [Hi ->]. split; [lia|done].
Qed.

Lemma scan_snoc id es e st st' :
  journal_ok id es → scan_state es st → scanned id st e st' →
  journal_ok id (es ++ [e]) ∧ scan_state (es ++ [e]) st'.
Proof.
  intros [F1 F2 F3 F4 F5] [S1 S2 S3 S4] [Hf Ho Hc Ht Hst].
  assert (Hprev : js_previous st = match length es with O => None | S i => (es ++ [e]) !! i end).
  { rewrite S1. destruct es as [|x es _] using rev_ind; [done|].
    rewrite last_snoc, length_app. cbn. rewrite Nat.add_comm. cbn.
    rewrite lookup_app_l by (rewrite length_app; cbn; lia). by rewrite lookup_app_r, Nat.sub_diag by lia. }
  split.
  - split.
    + intros i x [[Hi Hx]|[-> ->]]%lookup_snoc_inv.
      * specialize (F1 i x Hx). destruct i as [|i]; [done|]. by rewrite lookup_app_l by lia.
      * by rewrite <-Hprev.
    + intros i x [[Hi Hx]|[-> ->]]%lookup_snoc_inv; [by apply F2|].
      rewrite (ef_sequence _ _ _ Hf), S1. destruct es as [|y es _] using rev_ind; [done|].
      rewrite last_snoc. cbn [next_sequence].
      rewrite (F2 (length es) y) by (by rewrite lookup_app_r, Nat.sub_diag by lia).
      rewrite length_app. cbn. lia.
    + intros i j x y [[Hi Hx]|[-> ->]]%lookup_snoc_inv [[Hj Hy]|[-> ->]]%lookup_snoc_inv Hij;
        [by eapply F3|..|unfold counters_le; lia].
      * apply list_elem_of_lookup_2 in Hx. specialize (S3 _ Hx). unfold counters_le. lia.
      * lia.
    + intros i x Hix Hx. apply lookup_snoc_inv in Hix as [[Hi Hix]|[-> ->]].
      * exfalso. pose proof (F4 i x Hix Hx) as Hl. unfold is_last in Hl.
        assert (Hlast : last es = Some x) by (rewrite last_lookup, <-Hl; exact Hix).
        rewrite S2, Hlast in Ho. by apply bool_decide_eq_false in Ho.
      * unfold is_last. rewrite length_app. cbn. lia.
    + rewrite continued_tokens_snoc. unfold scan_tokens in Ht. destruct (continues e); [|by rewrite app_nil_r].
      apply res_bind_Ok in Ht as (u & Hn%throw_if_Ok & _). apply bool_decide_eq_false in Hn.
      apply NoDup_app. split_and!; [done| |apply NoDup_singleton].
      intros h Hh Hh'. apply list_elem_of_singleton in Hh'. subst h. by apply Hn, S4.
  - rewrite Hst. split; cbn [js_previous js_terminalSeen js_pages js_bytes js_records js_facts js_attempts js_consumed].
    + by rewrite last_snoc.
    + by rewrite last_snoc.
    + intros x [Hx| ->%list_elem_of_singleton]%elem_of_app; [|lia]. specialize (S3 _ Hx). lia.
    + intros h. rewrite continued_tokens_snoc, elem_of_app, <-S4. unfold scan_tokens in Ht.
      destruct (continues e).
      * apply res_bind_Ok in Ht as (u & _ & Ht). apply Ok_inj in Ht as <-.
        rewrite elem_of_union, elem_of_singleton, list_elem_of_singleton. done.
      * apply Ok_inj in Ht as <-. cbn. rewrite elem_of_nil. tauto.
Qed.

Lemma scan_entries_ok id expected es st :
  scan_entries id expected es = Ok st → journal_ok id es ∧ scan_state es st.
Proof.
  revert st. induction es as [|e es IH] using rev_ind; intros st Hs.
  - apply Ok_inj in Hs as <-. split; split; cbn; try done; [constructor|by intros e He%elem_of_nil|].
    intros h. rewrite elem_of_nil. set_solver.
  - unfold scan_entries in Hs. rewrite res_fold_app in Hs.
    apply res_bind_Ok in Hs as (st1 & H1 & Hs). cbn [res_fold] in Hs.
    apply res_bind_Ok in Hs as (st2 & H2 & Hs). apply Ok_inj in Hs as <-.
    apply IH in H1 as [Hj Hst]. apply scan_entry_inv in H2. by eapply scan_snoc.
Qed.

Lemma validateJournalEntries_inv es expected :
  validateJournalEntries es expected = Ok tt → es ≠ [] ∧ ∃ id st,
    deriveMarketAcquisitionJournalId expected = Ok id ∧ scan_entries id expected es = Ok st.
Proof.
  intros (u & Hn%throw_if_Ok & (id & Hid & (st & Hst & _)%res_bind_Ok)%res_bind_Ok)%res_bind_Ok.
  apply bool_decide_eq_false in Hn. split; [done|]. by exists id, st.
Qed.

Lemma validateJournalEntries_intro es expected id st :
  es ≠ [] → deriveMarketAcquisitionJournalId expected = Ok id → scan_entries id expected es = Ok st →
  validateJournalEntries es expected = Ok tt.
Proof.
  intros Hn Hid Hst. unfold validateJournalEntries.
  rewrite (bool_decide_eq_false_2 _ Hn), Hid. cbn [throw_if mbind res_bind]. by rewrite Hst.
Qed.

Lemma validate_prefix es more expected :
  es ≠ [] → validateJournalEntries (es ++ more) expected = Ok tt → validateJournalEntries es expected = Ok tt.
Proof.
  intros Hn (_ & id & st & Hid & Hst)%validateJournalEntries_inv. unfold scan_entries in Hst.
  rewrite res_fold_app in Hst. apply res_bind_Ok in Hst as (st1 & H1 & _).
  by eapply validateJournalEntries_intro.
Qed.
End facts.
