(* ===== verification/MemoryJournal.v ===== *)
(** * The memory journal ([src/adapters/market-acquisition/memory-journal.ts])

    The append-only journal of tests and offline runs: [append], [load] and the
    one-shot claim of an attempt.  The observation-ledger methods of the class
    belong to [src/providers/observation-ledger.ts] and are not part of the model.
    [test_authority] says whether the test composition is active. *)
From S2P Require Import Prelude JsString JsNumber Json Hash JsonObject Acquisition Journal.
From S2P Require Import JournalFacts.

Record MemoryAcquisitionJournal : Type := {
  mj_expectedIdentity : JournalIdentityInput;
  mj_journalId : jsstring;
  mj_entries : list JournalEntry;
  mj_producedJournalEntries : gset jsstring
}.

Section memory_journal.
Context `{Sha256} (test_authority : bool).

(** [JSON.parse(canonicalJson(entry))] has the entry's fields. *)
Definition cloneEntry (entry : JournalEntry) : res JournalEntry :=
  let* _ := canonicalJson (JObj (entry_fields entry)) in Ok entry.

Definition new_MemoryAcquisitionJournal (expectedIdentity : JournalIdentityInput) :
    res MemoryAcquisitionJournal :=
  let* journalId := deriveMarketAcquisitionJournalId expectedIdentity in
  Ok {| mj_expectedIdentity := expectedIdentity; mj_journalId := journalId; mj_entries := [];
        mj_producedJournalEntries := ∅ |}.

Definition createMemoryAcquisitionJournal (expectedIdentity : JournalIdentityInput) :
    res MemoryAcquisitionJournal :=
  guard! negb test_authority throws TypeError "test-memory-acquisition-journal-unavailable" ;;
  new_MemoryAcquisitionJournal expectedIdentity.

Definition load (j : MemoryAcquisitionJournal) (marketAcquisitionJournalId : jsstring) :
    res (list JournalEntry) :=
  guard! negb (bool_decide (marketAcquisitionJournalId = mj_journalId j))
    throws TypeError "journal-identity-mismatch" ;;
  do! (if bool_decide (mj_entries j = []) then Ok tt
       else validateJournalEntries (mj_entries j) (mj_expectedIdentity j)) ;;
  res_map cloneEntry (mj_entries j).

(** The validated journal with one more entry. *)
Definition prospective (j : MemoryAcquisitionJournal) (entry : JournalEntry) : res (list JournalEntry) :=
  let* copy := cloneEntry entry in
  let prospective := mj_entries j ++ [copy] in
  do! validateJournalEntries prospective (mj_expectedIdentity j) ;;
  Ok prospective.

Definition with_entries (j : MemoryAcquisitionJournal) (entries : list JournalEntry)
    (produced : gset jsstring) : MemoryAcquisitionJournal := {|
  mj_expectedIdentity := mj_expectedIdentity j; mj_journalId := mj_journalId j;
  mj_entries := entries; mj_producedJournalEntries := produced |}.

(** [authority]: the call carries the workflow producer's authority. *)
Definition append (authority : bool) (entry : JournalEntry) : sm MemoryAcquisitionJournal unit :=
  sm! _ := sm_lift (throw_if (negb authority) (TypeError "owned-acquisition-workflow-producer-required")) in
  sm! j := sm_get in
  sm! _ := sm_lift (throw_if (negb (bool_decide (je_marketAcquisitionJournalId entry = mj_journalId j)))
    (TypeError "journal-identity-mismatch")) in
  sm! entries := sm_lift (prospective j entry) in
  sm_modify (λ j, with_entries j entries
    (mj_producedJournalEntries j ∪ {[je_journalEntryHash entry]})).

Definition claimAttemptStarted (expectedRequestStartedHash : jsstring) (entry : JournalEntry) :
    sm MemoryAcquisitionJournal bool :=
  sm! _ := sm_lift (throw_if (negb test_authority) (TypeError "owned-attempt-claim-required")) in
  sm! j := sm_get in
  match last (mj_entries j) with
  | Some latest =>
      if negb (bool_decide (je_checkpointKind latest = K_request_started)) ||
         negb (bool_decide (je_journalEntryHash latest = expectedRequestStartedHash)) ||
         negb (bool_decide (je_checkpointKind entry = K_attempt_started))
      then sm_ret false
      else
        sm! entries := sm_lift (prospective j entry) in
        sm! _ := sm_modify (λ j, with_entries j entries (mj_producedJournalEntries j)) in
        sm_ret true
  | None => sm_ret false
  end.

Definition isWorkflowProducedJournalEntry (j : MemoryAcquisitionJournal) (journalEntryHash : jsstring) : bool :=
  bool_decide (journalEntryHash ∈ mj_producedJournalEntries j).

(** ** Histories *)

Inductive journal_op : Type :=
  | Op_append (authority : bool) (entry : JournalEntry)
  | Op_claim (expectedRequestStartedHash : jsstring) (entry : JournalEntry).

(** A caller that ignores the failures. *)
Definition run_journal_op (j : MemoryAcquisitionJournal) (op : journal_op) : MemoryAcquisitionJournal :=
  match op with
  | Op_append authority entry => (append authority entry j).1
  | Op_claim h entry => (claimAttemptStarted h entry j).1
  end.

Definition run_journal (j : MemoryAcquisitionJournal) (ops : list journal_op) : MemoryAcquisitionJournal :=
  foldl run_journal_op j ops.

Record journal_inv (j : MemoryAcquisitionJournal) : Prop := {
  ji_id : deriveMarketAcquisitionJournalId (mj_expectedIdentity j) = Ok (mj_journalId j);
  ji_valid : mj_entries j = [] ∨ validateJournalEntries (mj_entries j) (mj_expectedIdentity j) = Ok tt;
  ji_copied : ∀ e, e ∈ mj_entries j → cloneEntry e = Ok e;
  ji_produced : ∀ h, h ∈ mj_producedJournalEntries j → h ∈ je_journalEntryHash <$> mj_entries j
}.

Lemma cloneEntry_inv e e' : cloneEntry e = Ok e' → e' = e.
Proof. by intros (t & _ & [= <-])%res_bind_Ok. Qed.

Lemma prospective_inv j entry entries :
  prospective j entry = Ok entries → cloneEntry entry = Ok entry ∧ entries = mj_entries j ++ [entry] ∧
    validateJournalEntries (mj_entries j ++ [entry]) (mj_expectedIdentity j) = Ok tt.
Proof.
  intros (c & Hc & ([] & Hv & [= <-])%res_bind_Ok)%res_bind_Ok.
  pose proof (cloneEntry_inv _ _ Hc) as ->. done.
Qed.

(** An operation adds one accepted entry, or leaves the journal as it is. *)
Lemma op_cases j op :
  run_journal_op j op = j ∨ ∃ entry produced, prospective j entry = Ok (mj_entries j ++ [entry]) ∧
    run_journal_op j op = with_entries j (mj_entries j ++ [entry]) produced ∧
    (produced = mj_producedJournalEntries j ∨
     produced = mj_producedJournalEntries j ∪ {[je_journalEntryHash entry]}).
Proof.
  destruct op as [authority entry|h entry]; cbn [run_journal_op].
  - unfold append, sm_bind, sm_lift, sm_get, sm_modify.
    destruct (throw_if (negb authority) _); [|by left]. destruct (throw_if _ _); [|by left].
    destruct (prospective j entry) as [entries|] eqn:E; [|by left]. right.
    pose proof (prospective_inv _ _ _ E) as (_ & -> & _). exists entry. eexists. split_and!; [done|done|by right].
  - unfold claimAttemptStarted, sm_bind, sm_lift, sm_get, sm_modify, sm_ret.
    destruct (throw_if (negb test_authority) _); [|by left].
    destruct (last (mj_entries j)) as [latest|]; [|by left]. destruct (_ || _); [by left|].
    destruct (prospective j entry) as [entries|] eqn:E; [|by left]. right.
    pose proof (prospective_inv _ _ _ E) as (_ & -> & _). exists entry. eexists. split_and!; [done|done|by left].
Qed.

Lemma op_inv j op : journal_inv j → journal_inv (run_journal_op j op) ∧
  mj_entries j `prefix_of` mj_entries (run_journal_op j op).
Proof.
  intros Hj. destruct (op_cases j op) as [->|(entry & produced & Hp & -> & Hpr)]; [by split|].
  apply prospective_inv in Hp as (Hc & _ & Hv). destruct Hj as [I1 I2 I3 I4].
  split; [|by apply prefix_app_r]. split; cbn [with_entries mj_expectedIdentity mj_journalId mj_entries
    mj_producedJournalEntries]; [done|by right|..].
  - intros e [He| ->%list_elem_of_singleton]%elem_of_app; [by apply I3|done].
  - intros h Hh. rewrite fmap_app. apply elem_of_app.
    destruct Hpr as [-> | ->]; [left; by apply I4|].
    apply elem_of_union in Hh as [Hh|Hh%elem_of_singleton]; [left; by apply I4|right]. subst h. by left.
Qed.

Lemma run_journal_inv j ops : journal_inv j → journal_inv (run_journal j ops) ∧
  mj_entries j `prefix_of` mj_entries (run_journal j ops).
Proof.
  revert j. induction ops as [|op ops IH]; intros j Hj; [by split|].
  destruct (op_inv j op Hj) as [H1 H2]. destruct (IH _ H1) as [H3 H4]. split; [done|]. by etrans.
Qed.

Lemma new_inv id j : new_MemoryAcquisitionJournal id = Ok j → journal_inv j ∧ mj_entries j = [].
Proof.
  intros (jid & Hid & [= <-])%res_bind_Ok. split; [|done].
  split; cbn [mj_expectedIdentity mj_journalId mj_entries mj_producedJournalEntries];
    [exact Hid|by left|by intros e He%elem_of_nil|by intros h Hh%elem_of_empty].
Qed.

Lemma load_entries j : journal_inv j → load j (mj_journalId j) = Ok (mj_entries j).
Proof.
  intros [I1 I2 I3 I4]. unfold load.
  rewrite (bool_decide_eq_true_2 (mj_journalId j = mj_journalId j) eq_refl).
  cbn [negb throw_if mbind res_bind].
  assert (Hv : (if bool_decide (mj_entries j = []) then Ok tt
    else validateJournalEntries (mj_entries j) (mj_expectedIdentity j)) = Ok tt).
  { case_bool_decide; [done|]. by destruct I2. }
  rewrite Hv. cbn [mbind res_bind]. clear -I3. induction (mj_entries j) as [|e es IH]; [done|].
  cbn [res_map]. rewrite I3 by by left. cbn [mbind res_bind].
  rewrite IH by (intros; apply I3; by right). done.
Qed.
End memory_journal.
