(* ===== verification/JournalClaims.v ===== *)
(** * What the acquisition journal guarantees

    The entries of an accepted journal, the commitment of its last hash, the memory
    journal's histories; and the retry the validation refuses. *)
From S2P Require Import Prelude JsString JsNumber Json JsonParse JsonClaims Hash Zod JsonObject.
From S2P Require Import EventChain Acquisition Journal JournalFacts MemoryJournal Fixture.

(** ** Injectivity of the hashed forms *)

Section injective.
Context `{Sha256}.

Lemma framedHash_canonical d v : framedHash d v = canonicalHash d v.
Proof.
  unfold framedHash, canonicalHash, hashParts, preimage. destruct (canonicalJson v) as [t|]; [|done].
  cbn [mbind res_bind map concat bytes]. by rewrite app_nil_r.
Qed.

(** Equal objects with the same keys in the same order have equal values. *)
Lemma equal_lookups_values (a b : jobject) :
  fst <$> a = fst <$> b → NoDup (fst <$> a) →
  (∀ k, norm <$> lookup_key k a = norm <$> lookup_key k b) →
  map (λ kv, norm kv.2) a = map (λ kv, norm kv.2) b.
Proof.
  revert b. induction a as [|[k v] a IH]; intros [|[k' w] b] Hk Hnd Hl; try done.
  injection Hk as <- Hk. change (fst <$> a = fst <$> b) in Hk. apply NoDup_cons in Hnd as [Hnotin Hnd]. cbn [map]. f_equal.
  - specialize (Hl k). rewrite !lookup_key_cons in Hl. cbn [fst snd] in Hl. rewrite !decide_True in Hl by done.
    by injection Hl.
  - apply IH; [done..|]. intros k0. specialize (Hl k0). rewrite !lookup_key_cons in Hl. cbn [fst snd] in Hl.
    destruct (decide (k = k0)) as [<-|Hne].
    + rewrite !lookup_key_None; [done| |done]. by rewrite <-Hk.
    + done.
Qed.

Lemma equiv_values (a b : jobject) :
  fst <$> a = fst <$> b → NoDup (fst <$> a) → json_equiv (JObj a) (JObj b) →
  map (λ kv, norm kv.2) a = map (λ kv, norm kv.2) b.
Proof.
  intros Hk Hnd E. apply equal_lookups_values; [done..|]. intros k.
  unfold json_equiv in E. rewrite !norm_obj in E. injection E as E.
  rewrite <-!lookup_key_norm by (done || by rewrite <-Hk). by rewrite E.
Qed.

Definition ENTRY_DOMAIN : jsstring := js "peas/market-acquisition-journal-entry/v1".

(** The value whose hash is the entry's. *)
Definition draft_json_of (e : JournalDraft) (canonicalEntryBody : jsstring) : json :=
  JObj [(js "marketAcquisitionJournalId", JStr (je_marketAcquisitionJournalId e));
        (js "journalSequence", jint (je_journalSequence e));
        (js "priorJournalEntryHash", JStr (je_priorJournalEntryHash e));
        (js "entryKind", JStr (checkpoint_name (je_checkpointKind e)));
        (js "canonicalEntryBody", JStr canonicalEntryBody)].

Definition draft_json (e : JournalDraft) : json :=
  draft_json_of e (print (norm (JObj (body_fields e)))).

Definition entry_message (e : JournalDraft) : list Z := canonical_preimage ENTRY_DOMAIN (draft_json e).

Lemma deriveJournalEntryHash_Ok e h :
  deriveJournalEntryHash e = Ok h ↔
  encodable (JObj (body_fields e)) = true ∧ encodable (draft_json e) = true ∧ h = sha256 (entry_message e).
Proof.
  unfold deriveJournalEntryHash. rewrite res_bind_Ok. split.
  - intros (t & [Hb ->]%encode_spec & Hh). rewrite framedHash_canonical in Hh.
    by apply canonicalHash_Ok in Hh as [He ->].
  - intros (Hb & He & ->). eexists. split; [by apply encode_spec|].
    rewrite framedHash_canonical. by apply canonicalHash_Ok.
Qed.

Lemma jstr_opt_inj a b : norm (jstr_opt a) = norm (jstr_opt b) → a = b.
Proof. destruct a, b; cbn; congruence. Qed.

Lemma jint_opt_inj a b : norm (jint_opt a) = norm (jint_opt b) → a = b.
Proof. destruct a, b; cbn; unfold jint; congruence. Qed.

Lemma jstrs_inj (a b : list jsstring) : norm <$> (JStr <$> a) = norm <$> (JStr <$> b) → a = b.
Proof. rewrite <-!list_fmap_compose. apply list_fmap_eq_inj. by intros x y [= ->]. Qed.

Lemma jints_inj (a b : list Z) : norm <$> (jint <$> a) = norm <$> (jint <$> b) → a = b.
Proof. rewrite <-!list_fmap_compose. apply list_fmap_eq_inj. by intros x y [= ->]. Qed.

Lemma terminal_name_inj (a b : option JournalTerminalState) : terminal_name <$> a = terminal_name <$> b → a = b.
Proof. destruct a as [[]|], b as [[]|]; cbn; (done || by intros [=]). Qed.

Lemma checkpoint_name_inj a b : checkpoint_name a = checkpoint_name b → a = b.
Proof. destruct a, b; (done || by intros [=]). Qed.

Lemma body_keys a b : fst <$> body_fields a = fst <$> body_fields b.
Proof. reflexivity. Qed.

Lemma body_keys_nodup a : NoDup (fst <$> body_fields a).
Proof. refine (bool_decide_eq_true_1 _ _). vm_compute. reflexivity. Qed.

(** The body's JSON determines the body. *)
Lemma body_inj a b : json_equiv (JObj (body_fields a)) (JObj (body_fields b)) → a = b.
Proof.
  intros E%equiv_values; [|apply body_keys|apply body_keys_nodup]. unfold body_fields in E.
  cbn [map snd] in E. injection E; intros; clear E.
  repeat match goal with
  | H1 : norm (jstr_opt _) = _ |- _ => apply jstr_opt_inj in H1
  | H1 : norm (jint_opt _) = _ |- _ => apply jint_opt_inj in H1
  | H1 : norm <$> (JStr <$> _) = _ |- _ => apply jstrs_inj in H1
  | H1 : norm <$> (jint <$> _) = _ |- _ => apply jints_inj in H1
  | H1 : terminal_name <$> _ = _ |- _ => apply terminal_name_inj in H1
  end.
  destruct a, b. simpl in *. by subst.
Qed.

(** ** The commitment *)

(** Values a JavaScript caller can pass, short enough for the 64-bit length of the frame. *)
Definition entry_wf (e : JournalEntry) : Prop :=
  json_wf (JObj (body_fields e)) ∧ hashable ENTRY_DOMAIN (draft_json e).

Lemma draft_of_inj a b t u :
  json_equiv (draft_json_of a t) (draft_json_of b u) →
  je_marketAcquisitionJournalId a = je_marketAcquisitionJournalId b ∧
  je_journalSequence a = je_journalSequence b ∧
  je_priorJournalEntryHash a = je_priorJournalEntryHash b ∧
  je_checkpointKind a = je_checkpointKind b ∧ t = u.
Proof.
  intros E%equiv_values; [|done|refine (bool_decide_eq_true_1 _ _); vm_compute; reflexivity].
  cbn [map snd] in E. injection E as E1 E2 E3 E4 E5. by apply checkpoint_name_inj in E4.
Qed.

Lemma draft_inj (a b : JournalDraft) :
  json_wf (JObj (body_fields a)) → json_wf (JObj (body_fields b)) →
  encodable (JObj (body_fields a)) = true → encodable (JObj (body_fields b)) = true →
  json_equiv (draft_json a) (draft_json b) → a = b.
Proof.
  intros Ha Hb Hea Heb (E1 & E2 & E3 & E4 & E5)%draft_of_inj.
  assert (Ht : canonicalJson (JObj (body_fields a)) = Ok (print (norm (JObj (body_fields a)))))
    by by apply encode_spec.
  assert (Ht' : canonicalJson (JObj (body_fields b)) = Ok (print (norm (JObj (body_fields a)))))
    by by apply encode_spec.
  pose proof (canonicalJson_inj _ _ _ Ha Hb Ht Ht') as Eb. apply body_inj in Eb. clear -E1 E2 E3 E4 Eb.
  destruct a, b. simpl in *. by subst.
Qed.

Lemma hash_determines_entry (a b : JournalEntry) :
  entry_wf a → entry_wf b → distinguishes [entry_message a; entry_message b] →
  deriveJournalEntryHash a = Ok (je_journalEntryHash a) →
  deriveJournalEntryHash b = Ok (je_journalEntryHash b) →
  je_journalEntryHash a = je_journalEntryHash b → a = b.
Proof.
  intros [Hwa Hha] [Hwb Hhb] Hd (Hba & Hea & Ha)%deriveJournalEntryHash_Ok (Hbb & Heb & Hb)%deriveJournalEntryHash_Ok E.
  assert (Hm : entry_message a = entry_message b).
  { apply Hd; [by left|by right; left|]. by rewrite <-Ha, <-Hb. }
  destruct (canonical_preimage_inj _ _ _ _ Hha Hhb Hea Heb Hm) as [_ Hj].
  pose proof (draft_inj a b Hwa Hwb Hba Hbb Hj) as Ed. clear -Ed E.
  destruct a, b. simpl in *. by subst.
Qed.

Lemma distinguishes_pair ms a b : distinguishes ms → a ∈ ms → b ∈ ms → distinguishes [a; b].
Proof.
  intros Hd Ha Hb. eapply distinguishes_sub; [|exact Hd].
  intros m [->|[->|[]%elem_of_nil]%elem_of_cons]%elem_of_cons; done.
Qed.
End injective.

Lemma journal_ok_init `{Sha256} j es e : journal_ok j (es ++ [e]) → journal_ok j es.
Proof.
  intros [F1 F2 F3 F4 F5].
  assert (Hl : ∀ i x, es !! i = Some x → (es ++ [e]) !! i = Some x) by (intros; by apply lookup_app_l_Some).
  split.
  - intros i x Hx. specialize (F1 i x (Hl _ _ Hx)). destruct i as [|i]; [done|].
    rewrite lookup_app_l in F1; [done|]. apply lookup_lt_Some in Hx. lia.
  - intros i x Hx. by apply F2, Hl.
  - intros i i' x x' Hx Hx'. by apply (F3 i i' x x'); apply Hl.
  - intros i x Hx Ht. exfalso. specialize (F4 i x (Hl _ _ Hx) Ht). unfold is_last in F4.
    apply lookup_lt_Some in Hx. rewrite length_app in F4. cbn in F4. lia.
  - rewrite continued_tokens_snoc in F5. by apply NoDup_app in F5 as [? _].
Qed.

Lemma journal_ok_last `{Sha256} j es e :
  journal_ok j (es ++ [e]) → deriveJournalEntryHash e = Ok (je_journalEntryHash e) ∧
  je_journalSequence e = Z.of_nat (length es) ∧ je_priorJournalEntryHash e = prior_hash (last es).
Proof.
  intros Hj.
  assert (Hx : (es ++ [e]) !! length es = Some e) by (by rewrite lookup_app_r, Nat.sub_diag by lia).
  pose proof (jo_follows _ _ Hj _ _ Hx) as Hf. split_and!.
  - apply (ef_hash _ _ _ Hf).
  - by apply (jo_sequence _ _ Hj).
  - rewrite (ef_prior _ _ _ Hf). destruct es as [|p es _] using rev_ind; [done|].
    rewrite last_snoc, length_app. cbn. rewrite Nat.add_comm. cbn.
    rewrite lookup_app_l by (rewrite length_app; cbn; lia). by rewrite lookup_app_r, Nat.sub_diag by lia.
Qed.

Lemma chains_equal `{Sha256} j j' all es es' e e' :
  journal_ok j (es ++ [e]) → journal_ok j' (es' ++ [e']) → Forall entry_wf all →
  distinguishes (map (λ x : JournalEntry, entry_message x) all) →
  je_journalEntryHash e = je_journalEntryHash e' →
  (∀ x, x ∈ es ++ [e] → x ∈ all) → (∀ x, x ∈ es' ++ [e'] → x ∈ all) →
  es ++ [e] = es' ++ [e'].
Proof.
  intros Hj Hj' Hwf Hd. revert e e' es' Hj Hj'.
  induction es as [|p es IH] using rev_ind; intros e e' es' Hj Hj' Hh Hin Hin';
    destruct (journal_ok_last _ _ _ Hj) as (H1 & S1 & P1);
    destruct (journal_ok_last _ _ _ Hj') as (H2 & S2 & P2);
    assert (He : e ∈ all) by (apply Hin, elem_of_app; right; by left);
    assert (He' : e' ∈ all) by (apply Hin', elem_of_app; right; by left);
    pose proof (proj1 (Forall_forall _ _) Hwf _ He) as W1;
    pose proof (proj1 (Forall_forall _ _) Hwf _ He') as W2;
    assert (Ee : e = e') by
      (refine (hash_determines_entry e e' W1 W2 _ H1 H2 Hh);
       eapply distinguishes_pair; [exact Hd|exact (list_elem_of_fmap_2 _ _ _ He)|exact (list_elem_of_fmap_2 _ _ _ He')]);
    subst e'; rewrite S1 in S2; apply Nat2Z.inj in S2.
  - by destruct es'.
  - destruct es' as [|p' es' _] using rev_ind; [rewrite length_app in S2; cbn in S2; lia|].
    f_equal. apply IH.
    + by apply journal_ok_init in Hj.
    + by apply journal_ok_init in Hj'.
    + rewrite P1 in P2. by rewrite !last_snoc in P2.
    + intros x Hx. apply Hin, elem_of_app. by left.
    + intros x Hx. apply Hin', elem_of_app. by left.
Qed.

(** the last hash of a journal commits its whole history.  Two accepted
    journals, for whatever identities, whose last entries carry the same hash are
    equal entry by entry, every field included, as far as SHA-256 separates the
    messages of their entries. *)
Theorem journal_hash_commits `{Sha256} (id id' : JournalIdentityInput) (es es' : list JournalEntry)
    (e e' : JournalEntry)
    (Hv : validateJournalEntries (es ++ [e]) id = Ok tt)
    (Hv' : validateJournalEntries (es' ++ [e']) id' = Ok tt)
    (Hwf : Forall entry_wf ((es ++ [e]) ++ es' ++ [e']))
    (Hd : distinguishes (map (λ x : JournalEntry, entry_message x) ((es ++ [e]) ++ es' ++ [e'])))
    (Hh : je_journalEntryHash e = je_journalEntryHash e') :
  es ++ [e] = es' ++ [e'].
Proof.
  apply validateJournalEntries_inv in Hv as (_ & j & st & _ & [Hj _]%scan_entries_ok).
  apply validateJournalEntries_inv in Hv' as (_ & j' & st' & _ & [Hj' _]%scan_entries_ok).
  set (all := (es ++ [e]) ++ es' ++ [e']) in *.
  assert (Hin : ∀ x, x ∈ es ++ [e] → x ∈ all) by (intros; apply elem_of_app; by left).
  assert (Hin' : ∀ x, x ∈ es' ++ [e'] → x ∈ all) by (intros; apply elem_of_app; by right).
  clearbody all. by eapply chains_equal.
Qed.

(** C12: an accepted journal is one well-formed history.  Its entries are numbered
    from zero, each carries its own hash and its predecessor's, its counters never
    decrease, its checkpoints follow the transition table from the declaration of
    page zero on, pages advance by one after a page checkpoint only, nothing follows
    a terminal entry, no continuation token starts two attempts, and every count is
    within its limit. *)
Theorem journal_accepted_sound `{Sha256} (id : JournalIdentityInput) (es : list JournalEntry)
    (Hv : validateJournalEntries es id = Ok tt) :
  es ≠ [] ∧ ∃ j, deriveMarketAcquisitionJournalId id = Ok j ∧ journal_ok j es.
Proof.
  apply validateJournalEntries_inv in Hv as (Hn & j & st & Hj & Hst).
  split; [done|]. exists j. split; [done|]. by apply scan_entries_ok in Hst as [? _].
Qed.

(** the journal refuses every retry on a continuation page.  The contract
    allows three attempts for each logical page, under the page's one token; the
    validation consumes the token with the first attempt-started entry and throws on
    the second. *)
Theorem journal_rejects_continuation_retry `{Sha256} (id : JournalIdentityInput) (es : list JournalEntry)
    (first retry : JournalEntry)
    (Hf : first ∈ es) (Hfc : continues first = true) (Hrc : continues retry = true)
    (Ht : jb_currentTokenHash retry = jb_currentTokenHash first) :
  ∃ x, validateJournalEntries (es ++ [retry]) id = Throw x.
Proof.
  destruct (validateJournalEntries (es ++ [retry]) id) as [[]|x] eqn:E; [|by exists x]. exfalso.
  apply validateJournalEntries_inv in E as (_ & j & st & _ & [Hj _]%scan_entries_ok).
  pose proof (jo_tokens _ _ Hj) as Hn. rewrite continued_tokens_snoc, Hrc, Ht in Hn.
  apply NoDup_app in Hn as (_ & Hn & _). apply (Hn (jb_currentTokenHash first)); [|by left].
  unfold continued_tokens. apply (list_elem_of_fmap_2 (λ e : JournalEntry, jb_currentTokenHash e)).
  apply list_elem_of_In, filter_In. split; [by apply list_elem_of_In|done].
Qed.

(** C39: the memory journal refines its accepted entries.  After any sequence of
    appends and claims, whatever they carry and whichever of them throw, the journal
    is empty or valid, loading it gives exactly its entries, the hashes it reports as
    produced are hashes of its entries; later operations only add entries at the end,
    and an operation that throws changes nothing. *)
Theorem memory_journal_refines `{Sha256} (test_authority : bool) (id : JournalIdentityInput)
    (j : MemoryAcquisitionJournal) (ops more : list journal_op)
    (Hj : new_MemoryAcquisitionJournal id = Ok j) :
  let j1 := run_journal test_authority j ops in
  let j2 := run_journal test_authority j (ops ++ more) in
  load j1 (mj_journalId j1) = Ok (mj_entries j1) ∧
  (mj_entries j1 = [] ∨ validateJournalEntries (mj_entries j1) (mj_expectedIdentity j1) = Ok tt) ∧
  (∀ h, isWorkflowProducedJournalEntry j1 h = true → h ∈ je_journalEntryHash <$> mj_entries j1) ∧
  mj_entries j1 `prefix_of` mj_entries j2 ∧
  ∀ authority e x, (append authority e j1).2 = Throw x → (append authority e j1).1 = j1.
Proof.
  cbn zeta. apply new_inv in Hj as [Hj _].
  destruct (run_journal_inv test_authority j ops Hj) as [H1 _].
  assert (E : run_journal test_authority j (ops ++ more) =
    run_journal test_authority (run_journal test_authority j ops) more)
    by (unfold run_journal; apply foldl_app). rewrite E.
  split_and!.
  - by apply load_entries.
  - apply (ji_valid _ H1).
  - intros h Hh. apply (ji_produced _ H1). unfold isWorkflowProducedJournalEntry in Hh.
    by apply bool_decide_eq_true in Hh.
  - by apply run_journal_inv.
  - intros authority e x. unfold append, sm_bind, sm_lift, sm_get, sm_modify.
    destruct (throw_if (negb authority) _); [|done]. destruct (throw_if _ _); [|done].
    by destruct (prospective _ _).
Qed.

(** The declaration is only the first entry, the request start only the second. *)
Lemma request_started_second `{Sha256} j es i (e : JournalEntry) :
  journal_ok j es → es !! i = Some e → je_checkpointKind e = K_request_started → i = 1%nat.
Proof.
  intros Hj Hi Hk. destruct i as [|i].
  { pose proof (ef_first _ _ _ (jo_follows _ _ Hj 0%nat e Hi) eq_refl) as [Hd _]. congruence. }
  destruct (es !! i) as [p|] eqn:Hp; [|apply lookup_lt_Some in Hi; apply lookup_ge_None in Hp; lia].
  pose proof (jo_follows _ _ Hj (S i) e Hi) as Hf. cbn beta iota in Hf.
  destruct (ef_next _ _ _ Hf p Hp) as [Hn _]. rewrite Hk in Hn.
  assert (Hd : je_checkpointKind p = K_acquisition_declared).
  { apply list_elem_of_In in Hn. destruct (je_checkpointKind p); cbn in Hn; destruct_or? Hn; done. }
  destruct i as [|i]; [done|].
  destruct (es !! i) as [q|] eqn:Hq; [|apply lookup_lt_Some in Hp; apply lookup_ge_None in Hq; lia].
  pose proof (jo_follows _ _ Hj (S i) p Hp) as Hf'. cbn beta iota in Hf'.
  destruct (ef_next _ _ _ Hf' q Hq) as [Hn' _]. rewrite Hd in Hn'. exfalso.
  apply list_elem_of_In in Hn'. destruct (je_checkpointKind q); cbn in Hn'; destruct_or? Hn'; done.
Qed.

(** an attempt is claimed at most once.  After a claim has succeeded, no later
    claim on the journal succeeds, whatever hash and entry it presents and whatever
    operations run in between. *)
Theorem claim_once `{Sha256} (test_authority : bool) (j j1 : MemoryAcquisitionJournal)
    (h h' : jsstring) (e e' : JournalEntry) (ops : list journal_op)
    (Hj : journal_inv j) (Hc : claimAttemptStarted test_authority h e j = (j1, Ok true)) :
  (claimAttemptStarted test_authority h' e' (run_journal test_authority j1 ops)).2 ≠ Ok true.
Proof.
  destruct test_authority; [|discriminate Hc].
  assert (H1 : journal_inv j1 ∧ (3 <= length (mj_entries j1))%nat).
  { pose proof (op_inv true j (Op_claim h e) Hj) as [Hi _]. cbn [run_journal_op] in Hi. rewrite Hc in Hi.
    split; [exact Hi|]. clear Hi. unfold claimAttemptStarted, sm_bind, sm_lift, sm_get, sm_modify, sm_ret in Hc.
    cbn [negb throw_if] in Hc. destruct (last (mj_entries j)) as [latest|] eqn:Hl; [|done].
    destruct (_ || _) eqn:Hk; [done|]. bool_prop.
    destruct (prospective j e) as [entries|] eqn:E; [|done].
    apply prospective_inv in E as (_ & -> & _). injection Hc as <-. cbn [with_entries mj_entries].
    rewrite length_app. cbn. destruct (ji_valid _ Hj) as [E|Hv]; [by rewrite E in Hl|].
    apply validateJournalEntries_inv in Hv as (_ & jid & st & _ & [Hok _]%scan_entries_ok).
    rewrite last_lookup in Hl. pose proof (request_started_second _ _ _ _ Hok Hl ltac:(done)). lia. }
  destruct H1 as [H1 Hlen]. destruct (run_journal_inv true j1 ops H1) as [H2 Hpre].
  apply prefix_length in Hpre. set (j2 := run_journal true j1 ops) in *.
  unfold claimAttemptStarted, sm_bind, sm_lift, sm_get, sm_modify, sm_ret. cbn [negb throw_if].
  destruct (last (mj_entries j2)) as [latest|] eqn:Hl; [|done].
  destruct (_ || _) eqn:Hk; [done|]. exfalso. bool_prop.
  destruct (ji_valid _ H2) as [E|Hv]; [rewrite E in Hpre; cbn in Hpre; lia|].
  apply validateJournalEntries_inv in Hv as (_ & jid & st & _ & [Hok _]%scan_entries_ok).
  rewrite last_lookup in Hl. pose proof (request_started_second _ _ _ _ Hok Hl ltac:(done)). lia.
Qed.

(** ** A concrete journal *)

Definition demo_identity : JournalIdentityInput := {|
  ji_schemaVersion := 1; ji_requestIdentityHash := ZERO_HASH; ji_providerId := js "p";
  ji_datasetId := js "d"; ji_feedId := js "f"; ji_endpointChannelId := js "e" |}.

Definition result {A} (default : A) (r : res A) : A := match r with Ok a => a | Throw _ => default end.

Definition demo_journal_id : jsstring := Eval vm_compute in result [] (deriveMarketAcquisitionJournalId demo_identity).
Definition demo_token : jsstring := Eval vm_compute in result [] (derivePrivateTokenHash (js "token")).

(** A body on the first page, or on the page the token opens; with an artifact, with a next token. *)
Definition demo_body (second artifact next : bool) (attempts : Z) : JournalCheckpointBody := {|
  jb_schemaVersion := 1; jb_runSessionNonce := js "n"; jb_acquisitionObservationId := js "o";
  jb_marketAcquisitionId := js "m"; jb_admittedMarketAcquisitionIds := [];
  jb_requestIdentityHash := ZERO_HASH; jb_acquisitionConfigurationHash := ZERO_HASH;
  jb_providerId := js "p"; jb_datasetId := js "d"; jb_feedId := js "f";
  jb_endpointChannelId := js "e"; jb_authorizationMode := AUTHORIZATION_MODE;
  jb_logicalPageIdentityHash := ZERO_HASH; jb_pageOrdinal := if second then 1 else 0;
  jb_currentTokenHash := if second then demo_token else NO_TOKEN_HASH;
  jb_currentResumableTokenMaterial := if second then Some (js "token") else None;
  jb_nextTokenHash := if next then Some demo_token else None;
  jb_nextResumableTokenMaterial := if next then Some (js "token") else None;
  jb_currentContinuationBindingHash := if second then Some ZERO_HASH else None;
  jb_nextContinuationBindingHash := if next then Some ZERO_HASH else None;
  jb_attemptId := js "a"; jb_retrievalAttemptId := js "r"; jb_attemptOrdinal := 0;
  jb_artifactObservationId := if artifact then Some ZERO_HASH else None;
  jb_artifactDigest := if artifact then Some ZERO_HASH else None;
  jb_artifactSizeBytes := if artifact then Some 10 else None;
  jb_artifactObservationHash := if artifact then Some ZERO_HASH else None;
  jb_artifactContentId := if artifact then Some (js "c") else None;
  jb_rawArtifactId := if artifact then Some (js "w") else None;
  jb_stageLedgerFactId := None; jb_causalParentFactIds := [];
  jb_pageRecordCount := None; jb_pageNormalizedFactCount := None;
  jb_pageChainHash := ZERO_HASH; jb_cumulativeSuccessfulPages := 0;
  jb_cumulativeVerifiedBytes := 0; jb_cumulativeRecords := 0; jb_cumulativeNormalizedFacts := 0;
  jb_cumulativeAttempts := attempts; jb_acquisitionDeadlineBasis := js "b";
  jb_quotaWindowEvidence := []; jb_terminalState := None; jb_terminalReasonCode := None;
  jb_incomplete := true |}.

(** Adds the entry [createJournalEntry] makes. *)
Definition extend (es : list JournalEntry) (kb : JournalCheckpointKind * JournalCheckpointBody) :
    list JournalEntry :=
  match createJournalEntry (last es) demo_journal_id kb.1 kb.2 with
  | Ok e => es ++ [e]
  | Throw _ => es
  end.

Definition demo_journal_steps : list (JournalCheckpointKind * JournalCheckpointBody) :=
  [(K_acquisition_declared, demo_body false false false 0); (K_request_started, demo_body false false false 0);
   (K_attempt_started, demo_body false false false 1); (K_request_succeeded, demo_body false false false 1);
   (K_artifact_committed, demo_body false true false 1); (K_artifact_verified, demo_body false true false 1);
   (K_page_checkpointed, demo_body false true true 1); (K_attempt_started, demo_body true false false 2)].

Definition demo_journal : list JournalEntry := Eval vm_compute in foldl extend [] demo_journal_steps.

Definition demo_entry (es : list JournalEntry) (i : nat) : JournalEntry :=
  default {| je_draft := {| je_body := demo_body false false false 0; je_marketAcquisitionJournalId := [];
    je_journalSequence := 0; je_priorJournalEntryHash := []; je_checkpointKind := K_stopped |};
    je_journalEntryHash := [] |} (es !! i).

(** The second page's attempt, and a retry of it linked to the journal's end. *)
Definition demo_attempt : JournalEntry := Eval vm_compute in demo_entry demo_journal 7.
Definition demo_retry : JournalEntry :=
  Eval vm_compute in demo_entry (extend demo_journal (K_attempt_started, demo_body true false false 3)) 8.

Lemma demo_journal_valid : validateJournalEntries demo_journal demo_identity = Ok tt.
Proof. vm_compute. reflexivity. Qed.

Lemma journal_accepted_sound_witness :
  length demo_journal = 8%nat ∧ demo_journal ≠ [] ∧
  ∃ j, deriveMarketAcquisitionJournalId demo_identity = Ok j ∧ journal_ok j demo_journal.
Proof. split; [reflexivity|]. apply journal_accepted_sound. exact demo_journal_valid. Defined.

Lemma journal_rejects_continuation_retry_witness :
  je_journalSequence demo_retry = 8 ∧
  ∃ x, validateJournalEntries (demo_journal ++ [demo_retry]) demo_identity = Throw x.
Proof.
  split; [reflexivity|]. apply (journal_rejects_continuation_retry _ demo_journal demo_attempt demo_retry).
  - apply (list_elem_of_lookup_2 _ 7). reflexivity.
  - vm_compute. reflexivity.
  - vm_compute. reflexivity.
  - reflexivity.
Defined.

(** The declaration and the request start, a journal of its own. *)
Definition demo_start : list JournalEntry := Eval vm_compute in take 2 demo_journal.

Lemma demo_start_valid : validateJournalEntries demo_start demo_identity = Ok tt.
Proof. vm_compute. reflexivity. Qed.

Lemma demo_wf : Forall entry_wf demo_start.
Proof.
  apply (Forall_impl (λ e : JournalEntry, json_wfb (JObj (body_fields e)) = true ∧
    json_wfb (draft_json e) = true ∧ (Z.of_nat (length (utf8 (print (norm (draft_json e))))) <? 2 ^ 64) = true)).
  - repeat (apply Forall_cons_2; [vm_compute; done|]). apply Forall_nil_2.
  - intros e (H1 & H2 & H3). split; [by apply json_wfb_wf|]. split_and!.
    + apply js_units.
    + vm_compute. reflexivity.
    + vm_compute. reflexivity.
    + by apply json_wfb_wf.
    + unfold short. by apply Z.ltb_lt.
Qed.

Lemma demo_distinguishes :
  distinguishes (map (λ x : JournalEntry, entry_message x) (demo_start ++ demo_start)).
Proof.
  apply (distinguishes_sub _ (map (λ x : JournalEntry, entry_message x) demo_start)).
  - intros m. rewrite map_app, elem_of_app. by intros [].
  - apply (bool_decide_eq_true_1 _). vm_compute. reflexivity.
Qed.

Lemma journal_hash_commits_witness :
  length demo_start = 2%nat ∧ take 1 demo_start ++ drop 1 demo_start = take 1 demo_start ++ drop 1 demo_start.
Proof.
  split; [reflexivity|].
  apply (journal_hash_commits demo_identity demo_identity (take 1 demo_start) (take 1 demo_start)
    (demo_entry demo_start 1) (demo_entry demo_start 1)).
  - exact demo_start_valid.
  - exact demo_start_valid.
  - apply Forall_app_2; exact demo_wf.
  - exact demo_distinguishes.
  - reflexivity.
Defined.

Definition demo_memory : MemoryAcquisitionJournal := Eval vm_compute in
  result {| mj_expectedIdentity := demo_identity; mj_journalId := []; mj_entries := [];
    mj_producedJournalEntries := ∅ |} (new_MemoryAcquisitionJournal demo_identity).

Lemma demo_memory_ok : new_MemoryAcquisitionJournal demo_identity = Ok demo_memory.
Proof. vm_compute. reflexivity. Qed.

Lemma memory_journal_refines_witness :
  let j1 := run_journal true demo_memory (Op_append true <$> demo_start) in
  load j1 (mj_journalId j1) = Ok (mj_entries j1).
Proof. apply (memory_journal_refines true demo_identity demo_memory _ []). exact demo_memory_ok. Defined.

Definition demo_claimable : MemoryAcquisitionJournal :=
  run_journal true demo_memory (Op_append true <$> demo_start).

Lemma demo_claimable_inv : journal_inv demo_claimable.
Proof. destruct (new_inv _ _ demo_memory_ok) as [Hi _]. exact (proj1 (run_journal_inv true _ _ Hi)). Qed.

Definition demo_claimed : MemoryAcquisitionJournal := Eval vm_compute in
  (claimAttemptStarted true (je_journalEntryHash (demo_entry demo_journal 1)) (demo_entry demo_journal 2)
    demo_claimable).1.

Lemma claim_once_witness :
  length (mj_entries demo_claimed) = 3%nat ∧
  (claimAttemptStarted true (je_journalEntryHash (demo_entry demo_journal 1)) (demo_entry demo_journal 2)
    (run_journal true demo_claimed [])).2 ≠ Ok true.
Proof.
  split; [reflexivity|].
  apply (claim_once true demo_claimable demo_claimed (je_journalEntryHash (demo_entry demo_journal 1)) _
    (demo_entry demo_journal 2)).
  - exact demo_claimable_inv.
  - vm_compute. reflexivity.
Defined.
