(* ===== verification/StateMachine.v ===== *)
(** * The acquisition state machine ([src/adapters/market-acquisition/state-machine.ts])

    Snapshots, events, the transition table, the reducer
    [deriveAcquisitionTransition] and the machine that persists a plan before it
    moves.  A snapshot's numbers are integers ([canonicalJson] throws on any other
    number before the snapshot is read); an event's scalars are [jsnum] and reach the
    reducer through [canonicalJson] as well. *)
From S2P Require Import Prelude JsString JsNumber Json Hash JsonObject Clock Acquisition Journal.

(** ** States *)

Inductive AcquisitionState : Type :=
  | S_declared | S_preflighting | S_dispatch_ready | S_credential_ready | S_attempt_active
  | S_response_accepted | S_artifact_committing | S_artifact_committed | S_artifact_verifying
  | S_page_verified | S_checkpointing | S_waiting_retry | S_chain_complete | S_normalizing
  | S_ready_for_selection | S_selecting | S_completed | S_stopped | S_failed_clean | S_quarantined.

#[export] Instance AcquisitionState_eq_dec : EqDecision AcquisitionState.
Proof. solve_decision. Defined.

Definition ACQUISITION_STATES : list AcquisitionState :=
  [S_declared; S_preflighting; S_dispatch_ready; S_credential_ready; S_attempt_active;
   S_response_accepted; S_artifact_committing; S_artifact_committed; S_artifact_verifying;
   S_page_verified; S_checkpointing; S_waiting_retry; S_chain_complete; S_normalizing;
   S_ready_for_selection; S_selecting; S_completed; S_stopped; S_failed_clean; S_quarantined].

Definition state_name (s : AcquisitionState) : jsstring :=
  js match s with
     | S_declared => "declared"
     | S_preflighting => "preflighting"
     | S_dispatch_ready => "dispatch-ready"
     | S_credential_ready => "credential-ready"
     | S_attempt_active => "attempt-active"
     | S_response_accepted => "response-accepted"
     | S_artifact_committing => "artifact-committing"
     | S_artifact_committed => "artifact-committed"
     | S_artifact_verifying => "artifact-verifying"
     | S_page_verified => "page-verified"
     | S_checkpointing => "checkpointing"
     | S_waiting_retry => "waiting-retry"
     | S_chain_complete => "chain-complete"
     | S_normalizing => "normalizing"
     | S_ready_for_selection => "ready-for-selection"
     | S_selecting => "selecting"
     | S_completed => "completed"
     | S_stopped => "stopped"
     | S_failed_clean => "failed-clean"
     | S_quarantined => "quarantined"
     end.

Definition ACQUISITION_TRANSITIONS (s : AcquisitionState) : list AcquisitionState :=
  match s with
  | S_declared => [S_preflighting]
  | S_preflighting => [S_dispatch_ready; S_stopped; S_failed_clean]
  | S_dispatch_ready => [S_credential_ready; S_stopped]
  | S_credential_ready => [S_attempt_active]
  | S_attempt_active => [S_waiting_retry; S_response_accepted; S_stopped; S_failed_clean]
  | S_response_accepted => [S_artifact_committing; S_failed_clean]
  | S_artifact_committing => [S_artifact_committed; S_failed_clean]
  | S_artifact_committed => [S_artifact_verifying]
  | S_artifact_verifying => [S_page_verified; S_failed_clean; S_quarantined]
  | S_page_verified => [S_checkpointing]
  | S_checkpointing => [S_chain_complete; S_preflighting; S_failed_clean]
  | S_waiting_retry => [S_preflighting; S_stopped]
  | S_chain_complete => [S_normalizing]
  | S_normalizing => [S_ready_for_selection; S_quarantined; S_failed_clean]
  | S_ready_for_selection => [S_selecting]
  | S_selecting => [S_completed; S_failed_clean; S_quarantined]
  | S_completed | S_stopped | S_failed_clean | S_quarantined => []
  end.

Definition TERMINAL_STATES : list AcquisitionState := [S_completed; S_stopped; S_failed_clean; S_quarantined].

Definition is_terminal (s : AcquisitionState) : bool := bool_decide (s ∈ TERMINAL_STATES).

(** ** Snapshots *)

Record AcquisitionBudgets : Type := {
  bu_successfulPages : Z;
  bu_verifiedBytes : Z;
  bu_records : Z;
  bu_normalizedFacts : Z;
  bu_attempts : Z
}.

Record ContinuationAuthority : Type := {
  ca_nextTokenMaterial : jsstring;
  ca_nextTokenHash : jsstring;
  ca_nextContinuationBindingHash : jsstring
}.

Record AcquisitionMachineSnapshot : Type := {
  sn_schemaVersion : Z;
  sn_requestIdentityHash : jsstring;
  sn_acquisitionConfigurationHash : jsstring;
  sn_marketAcquisitionJournalId : jsstring;
  sn_runSessionNonce : jsstring;
  sn_currentState : AcquisitionState;
  sn_laneDisabled : bool;
  sn_terminalReason : option jsstring;
  sn_pageOrdinal : Z;
  sn_pageAttemptsStarted : Z;
  sn_logicalPageIdentityHash : jsstring;
  sn_attemptOrdinal : option Z;
  sn_attemptId : option jsstring;
  sn_retrievalAttemptId : option jsstring;
  sn_currentTokenHash : jsstring;
  sn_currentContinuationBindingHash : option jsstring;
  sn_consumedTokenHashes : list jsstring;
  sn_pageChainHash : jsstring;
  sn_continuationAuthority : option ContinuationAuthority;
  sn_budgets : AcquisitionBudgets;
  sn_quotaWindowEvidence : list Z;
  sn_acquisitionDeclaredMonotonicMs : Z;
  sn_lastMonotonicMs : Z;
  sn_pendingRetryDelayMs : option Z
}.

(** ** Events *)

Record AcquisitionEventProof : Type := {
  pf_requestIdentityHash : jsstring;
  pf_acquisitionConfigurationHash : jsstring;
  pf_marketAcquisitionJournalId : jsstring;
  pf_runSessionNonce : jsstring;
  pf_nowMonotonicMs : jsnum;
  pf_resourcesSettled : bool
}.

Inductive AcquisitionEventBody : Type :=
  | Begin_preflight
  | Preflight_approved
  | Preflight_stopped (reason : jsstring)
  | Preflight_failed (reason : jsstring)
  | Credentials_loaded
  | Credential_unavailable
  | Dispatch_started (deadlineProof : DeadlineProof) (entitlementQuotaLimit : jsnum)
  | Retry_cleanup_complete (context : RetryContext)
  | Retry_delay_elapsed (delayProof : RetryDelayProof)
  | Response_accepted
  | Attempt_stopped (reason : jsstring)
  | Attempt_failed (reason : jsstring)
  | Artifact_store_started
  | Artifact_store_committed
  | Artifact_store_failed
  | Artifact_verification_started
  | Page_verified
  | Page_verification_failed
  | Page_quarantined
  | Page_checkpointed (pageChainInput : PageChainInput) (nextTokenMaterial : option jsstring)
  | Continue_next_page
  | Terminal_page_admitted
  | Normalization_started
  | Normalization_completed (normalizedFactCount : jsnum)
  | Normalization_failed
  | Normalization_quarantined
  | Selection_started
  | Selection_completed
  | Selection_failed
  | Selection_quarantined
  | Policy_stopped (reason : jsstring).

Record AcquisitionEvent : Type := { ev_proof : AcquisitionEventProof; ev_body : AcquisitionEventBody }.

Definition EVENT_TARGETS (e : AcquisitionEventBody) : AcquisitionState :=
  match e with
  | Begin_preflight => S_preflighting
  | Preflight_approved => S_dispatch_ready
  | Preflight_stopped _ => S_stopped
  | Preflight_failed _ => S_failed_clean
  | Credentials_loaded => S_credential_ready
  | Credential_unavailable => S_stopped
  | Dispatch_started _ _ => S_attempt_active
  | Retry_cleanup_complete _ => S_waiting_retry
  | Retry_delay_elapsed _ => S_preflighting
  | Response_accepted => S_response_accepted
  | Attempt_stopped _ => S_stopped
  | Attempt_failed _ => S_failed_clean
  | Artifact_store_started => S_artifact_committing
  | Artifact_store_committed => S_artifact_committed
  | Artifact_store_failed => S_failed_clean
  | Artifact_verification_started => S_artifact_verifying
  | Page_verified => S_page_verified
  | Page_verification_failed => S_failed_clean
  | Page_quarantined => S_quarantined
  | Page_checkpointed _ _ => S_checkpointing
  | Continue_next_page => S_preflighting
  | Terminal_page_admitted => S_chain_complete
  | Normalization_started => S_normalizing
  | Normalization_completed _ => S_ready_for_selection
  | Normalization_failed => S_failed_clean
  | Normalization_quarantined => S_quarantined
  | Selection_started => S_selecting
  | Selection_completed => S_completed
  | Selection_failed => S_failed_clean
  | Selection_quarantined => S_quarantined
  | Policy_stopped _ => S_stopped
  end.

Definition CHECKPOINT_FOR_EVENT (e : AcquisitionEventBody) : option JournalCheckpointKind :=
  match e with
  | Begin_preflight => Some K_acquisition_declared
  | Preflight_approved => Some K_request_started
  | Dispatch_started _ _ => Some K_attempt_started
  | Response_accepted => Some K_request_succeeded
  | Artifact_store_committed => Some K_artifact_committed
  | Page_verified => Some K_artifact_verified
  | Page_checkpointed _ _ => Some K_page_checkpointed
  | Terminal_page_admitted => Some K_chain_complete
  | Normalization_started => Some K_normalization_started
  | Normalization_completed _ => Some K_normalization_complete
  | Selection_started => Some K_selection_started
  | Selection_completed => Some K_completed
  | Preflight_stopped _ | Credential_unavailable | Attempt_stopped _ | Policy_stopped _ => Some K_stopped
  | Preflight_failed _ | Attempt_failed _ | Artifact_store_failed | Page_verification_failed
  | Normalization_failed | Selection_failed => Some K_failed_clean
  | Page_quarantined | Normalization_quarantined | Selection_quarantined => Some K_quarantined
  | Credentials_loaded | Retry_cleanup_complete _ | Retry_delay_elapsed _ | Artifact_store_started
  | Artifact_verification_started | Continue_next_page => None
  end.

Definition checkpointForEvent (snapshot : AcquisitionMachineSnapshot) (e : AcquisitionEventBody) :
    option JournalCheckpointKind :=
  match e with
  | Preflight_approved =>
      if (sn_pageOrdinal snapshot =? 0) && (bu_attempts (sn_budgets snapshot) =? 0)
      then Some K_request_started else None
  | _ => CHECKPOINT_FOR_EVENT e
  end.

(** ** JSON forms *)

Definition budgets_json (b : AcquisitionBudgets) : json := JObj [
  (js "successfulPages", jint (bu_successfulPages b));
  (js "verifiedBytes", jint (bu_verifiedBytes b));
  (js "records", jint (bu_records b));
  (js "normalizedFacts", jint (bu_normalizedFacts b));
  (js "attempts", jint (bu_attempts b))].

Definition authority_json (a : ContinuationAuthority) : json := JObj [
  (js "nextTokenMaterial", JStr (ca_nextTokenMaterial a));
  (js "nextTokenHash", JStr (ca_nextTokenHash a));
  (js "nextContinuationBindingHash", JStr (ca_nextContinuationBindingHash a))].

Definition snapshot_json (s : AcquisitionMachineSnapshot) : json := JObj [
  (js "schemaVersion", jint (sn_schemaVersion s));
  (js "requestIdentityHash", JStr (sn_requestIdentityHash s));
  (js "acquisitionConfigurationHash", JStr (sn_acquisitionConfigurationHash s));
  (js "marketAcquisitionJournalId", JStr (sn_marketAcquisitionJournalId s));
  (js "runSessionNonce", JStr (sn_runSessionNonce s));
  (js "currentState", JStr (state_name (sn_currentState s)));
  (js "laneDisabled", JBool (sn_laneDisabled s));
  (js "terminalReason", jstr_opt (sn_terminalReason s));
  (js "pageOrdinal", jint (sn_pageOrdinal s));
  (js "pageAttemptsStarted", jint (sn_pageAttemptsStarted s));
  (js "logicalPageIdentityHash", JStr (sn_logicalPageIdentityHash s));
  (js "attemptOrdinal", jint_opt (sn_attemptOrdinal s));
  (js "attemptId", jstr_opt (sn_attemptId s));
  (js "retrievalAttemptId", jstr_opt (sn_retrievalAttemptId s));
  (js "currentTokenHash", JStr (sn_currentTokenHash s));
  (js "currentContinuationBindingHash", jstr_opt (sn_currentContinuationBindingHash s));
  (js "consumedTokenHashes", jstrs (sn_consumedTokenHashes s));
  (js "pageChainHash", JStr (sn_pageChainHash s));
  (js "continuationAuthority", jnull authority_json (sn_continuationAuthority s));
  (js "budgets", budgets_json (sn_budgets s));
  (js "quotaWindowEvidence", jints (sn_quotaWindowEvidence s));
  (js "acquisitionDeclaredMonotonicMs", jint (sn_acquisitionDeclaredMonotonicMs s));
  (js "lastMonotonicMs", jint (sn_lastMonotonicMs s));
  (js "pendingRetryDelayMs", jint_opt (sn_pendingRetryDelayMs s))].

Definition proof_json (p : AcquisitionEventProof) : json := JObj [
  (js "requestIdentityHash", JStr (pf_requestIdentityHash p));
  (js "acquisitionConfigurationHash", JStr (pf_acquisitionConfigurationHash p));
  (js "marketAcquisitionJournalId", JStr (pf_marketAcquisitionJournalId p));
  (js "runSessionNonce", JStr (pf_runSessionNonce p));
  (js "nowMonotonicMs", JNum (pf_nowMonotonicMs p));
  (js "resourcesSettled", JBool (pf_resourcesSettled p))].

Definition deadline_json (p : DeadlineProof) : json := JObj [
  (js "acquisitionDeclaredMonotonicMs", JNum (dl_acquisitionDeclaredMonotonicMs p));
  (js "attemptStartedMonotonicMs", JNum (dl_attemptStartedMonotonicMs p));
  (js "nowMonotonicMs", JNum (dl_nowMonotonicMs p))].

Definition classification_name (q : QuotaClassification) : jsstring :=
  js match q with
     | Temporary_throttling_proved => "temporary-throttling-proved"
     | Quota_exhausted => "quota-exhausted"
     | Quota_missing => "missing"
     | Quota_ambiguous => "ambiguous"
     end.

Definition final_name (f : FinalFailure) : jsstring :=
  js match f with
     | Fail_identity => "identity" | Fail_entitlement => "entitlement"
     | Fail_authorization => "authorization" | Fail_feed => "feed"
     | Fail_capability => "capability" | Fail_cost => "cost" | Fail_clock => "clock"
     | Fail_bound => "bound" | Fail_schema => "schema" | Fail_pagination => "pagination"
     | Fail_redaction => "redaction" | Fail_artifact => "artifact"
     | Fail_correction => "correction" | Fail_journal => "journal"
     | Fail_malformed_body => "malformed-body"
     | Fail_cleanup_unprovable => "cleanup-unprovable" | Fail_zero_spend => "zero-spend"
     end.

Definition failure_json (f : RetryFailure) : json :=
  JObj match f with
  | Pre_response_transport => [(js "kind", JStr (js "pre-response-transport"))]
  | Clean_partial_body_transport settled =>
      [(js "kind", JStr (js "clean-partial-body-transport")); (js "resourcesSettled", JBool settled)]
  | Http status classification retryAfter =>
      [(js "kind", JStr (js "http")); (js "status", JNum status);
       (js "quotaClassification", JStr (classification_name classification));
       (js "retryAfter", jstr_opt retryAfter)]
  | Final kind => [(js "kind", JStr (final_name kind))]
  end.

Definition context_json (c : RetryContext) : json := JObj [
  (js "failure", failure_json (rt_failure c));
  (js "pageAttemptsStarted", JNum (rt_pageAttemptsStarted c));
  (js "acquisitionAttemptsStarted", JNum (rt_acquisitionAttemptsStarted c))].

Definition delay_json (p : RetryDelayProof) : json := JObj [
  (js "clockBasis", JStr (dy_clockBasis p)); (js "elapsedMs", JNum (dy_elapsedMs p));
  (js "monotonicOrderValid", JBool (dy_monotonicOrderValid p))].

Definition event_kind (e : AcquisitionEventBody) : jsstring :=
  js match e with
     | Begin_preflight => "begin-preflight"
     | Preflight_approved => "preflight-approved"
     | Preflight_stopped _ => "preflight-stopped"
     | Preflight_failed _ => "preflight-failed"
     | Credentials_loaded => "credentials-loaded"
     | Credential_unavailable => "credential-unavailable"
     | Dispatch_started _ _ => "dispatch-started"
     | Retry_cleanup_complete _ => "retry-cleanup-complete"
     | Retry_delay_elapsed _ => "retry-delay-elapsed"
     | Response_accepted => "response-accepted"
     | Attempt_stopped _ => "attempt-stopped"
     | Attempt_failed _ => "attempt-failed"
     | Artifact_store_started => "artifact-store-started"
     | Artifact_store_committed => "artifact-store-committed"
     | Artifact_store_failed => "artifact-store-failed"
     | Artifact_verification_started => "artifact-verification-started"
     | Page_verified => "page-verified"
     | Page_verification_failed => "page-verification-failed"
     | Page_quarantined => "page-quarantined"
     | Page_checkpointed _ _ => "page-checkpointed"
     | Continue_next_page => "continue-next-page"
     | Terminal_page_admitted => "terminal-page-admitted"
     | Normalization_started => "normalization-started"
     | Normalization_completed _ => "normalization-completed"
     | Normalization_failed => "normalization-failed"
     | Normalization_quarantined => "normalization-quarantined"
     | Selection_started => "selection-started"
     | Selection_completed => "selection-completed"
     | Selection_failed => "selection-failed"
     | Selection_quarantined => "selection-quarantined"
     | Policy_stopped _ => "policy-stopped"
     end.

(** The fields of an event besides its kind and its proof. *)
Definition payload_fields (e : AcquisitionEventBody) : jobject :=
  match e with
  | Preflight_stopped reason | Preflight_failed reason | Attempt_stopped reason
  | Attempt_failed reason | Policy_stopped reason => [(js "reason", JStr reason)]
  | Dispatch_started deadlineProof limit =>
      [(js "deadlineProof", deadline_json deadlineProof); (js "entitlementQuotaLimit", JNum limit)]
  | Retry_cleanup_complete context => [(js "context", context_json context)]
  | Retry_delay_elapsed delayProof => [(js "delayProof", delay_json delayProof)]
  | Page_checkpointed input material =>
      [(js "pageChainInput", JObj (page_chain_fields input));
       (js "nextTokenMaterial", jstr_opt material)]
  | Normalization_completed n => [(js "normalizedFactCount", JNum n)]
  | _ => []
  end.

Definition event_json (e : AcquisitionEvent) : json :=
  JObj ([(js "kind", JStr (event_kind (ev_body e))); (js "proof", proof_json (ev_proof e))] ++
    payload_fields (ev_body e)).

(** ** Validation *)

Definition requireSafeInteger (value : Z) (minimum maximum : Z) (message : string) : res unit :=
  throw_if (negb (is_safe_integer value) || (value <? minimum) || (maximum <? value))
    (RangeError message).

(** [HASH.test] on every value before the order with its predecessor. *)
Fixpoint assert_hashes_sorted (previous : option jsstring) (values : list jsstring) : res unit :=
  match values with
  | [] => Ok tt
  | value :: rest =>
      guard! negb (is_hash value) throws TypeError "consumed-token-hashes-invalid" ;;
      do! (match previous with
           | Some p => throw_if (negb (bytes_before p value))
               (TypeError "consumed-token-hashes-not-sorted-unique")
           | None => Ok tt
           end) ;;
      assert_hashes_sorted (Some value) rest
  end.

(** The quota evidence is sorted and lies between the declaration and now. *)
Fixpoint evidence_ok (declared last : Z) (previous : option Z) (values : list Z) : bool :=
  match values with
  | [] => true
  | value :: rest =>
      is_safe_integer value && (declared <=? value) && (value <=? last) &&
      match previous with Some p => p <=? value | None => true end &&
      evidence_ok declared last (Some value) rest
  end.

Definition validate_terminal_reason (s : AcquisitionMachineSnapshot) : bool :=
  let has_reason := bool_decide (is_Some (sn_terminalReason s)) in
  let completed := bool_decide (sn_currentState s = S_completed) in
  if negb (Bool.eqb (is_terminal (sn_currentState s)) has_reason) || (completed && has_reason)
  then completed && negb has_reason
  else true.

Section machine.
Context `{Sha256}.

(** The attempt identities are the ones the page, the ordinal and the nonce determine. *)
Definition validate_attempt (s : AcquisitionMachineSnapshot) : res unit :=
  match sn_attemptOrdinal s with
  | None => throw_if (bool_decide (is_Some (sn_attemptId s)) || bool_decide (is_Some (sn_retrievalAttemptId s)))
      (TypeError "snapshot-attempt-identity-invalid")
  | Some attemptOrdinal =>
      let* expected := deriveAttemptControlIdentities (sn_logicalPageIdentityHash s) attemptOrdinal
        (sn_runSessionNonce s) in
      throw_if (negb (bool_decide (Some (at_attemptId expected) = sn_attemptId s)) ||
        negb (bool_decide (Some (at_retrievalAttemptId expected) = sn_retrievalAttemptId s)))
        (TypeError "snapshot-attempt-identity-invalid")
  end.

Definition validate_budgets (s : AcquisitionMachineSnapshot) : res unit :=
  let budgets := sn_budgets s in
  do! requireSafeInteger (sn_pageAttemptsStarted s) 0 (attemptsPerLogicalPage MARKET_ACQUISITION_LIMITS)
    "page-attempts-invalid" ;;
  do! requireSafeInteger (bu_successfulPages budgets) 0 (successfulPages MARKET_ACQUISITION_LIMITS)
    "successful-pages-invalid" ;;
  do! requireSafeInteger (bu_verifiedBytes budgets) 0 (aggregateVerifiedBytes MARKET_ACQUISITION_LIMITS)
    "verified-bytes-invalid" ;;
  do! requireSafeInteger (bu_records budgets) 0
    (successfulPages MARKET_ACQUISITION_LIMITS * recordsPerPage MARKET_ACQUISITION_LIMITS)
    "records-invalid" ;;
  do! requireSafeInteger (bu_normalizedFacts budgets) 0 (normalizedFacts MARKET_ACQUISITION_LIMITS)
    "normalized-facts-invalid" ;;
  requireSafeInteger (bu_attempts budgets) 0 (attemptsPerAcquisition MARKET_ACQUISITION_LIMITS)
    "attempts-invalid".

Definition validateSnapshot (s : AcquisitionMachineSnapshot) : res unit :=
  do! canonicalJson (snapshot_json s) ;;
  guard! negb (sn_schemaVersion s =? 1) || negb (is_hash (sn_requestIdentityHash s)) ||
         negb (is_hash (sn_acquisitionConfigurationHash s)) ||
         negb (is_hash (sn_marketAcquisitionJournalId s)) ||
         bool_decide (sn_runSessionNonce s = []) ||
         negb (bool_decide (sn_currentState s ∈ ACQUISITION_STATES))
    throws TypeError "acquisition-snapshot-invalid" ;;
  do! requireSafeInteger (sn_pageOrdinal s) 0 (successfulPages MARKET_ACQUISITION_LIMITS - 1)
    "page-ordinal-invalid" ;;
  let* expectedPage := deriveLogicalPageIdentityHash (sn_requestIdentityHash s) (sn_pageOrdinal s)
    (sn_currentTokenHash s) in
  guard! negb (bool_decide (sn_logicalPageIdentityHash s = expectedPage))
    throws TypeError "snapshot-logical-page-identity-invalid" ;;
  do! validate_attempt s ;;
  do! validate_budgets s ;;
  do! requireSafeInteger (sn_acquisitionDeclaredMonotonicMs s) 0 MAX_SAFE_INTEGER "start-invalid" ;;
  do! requireSafeInteger (sn_lastMonotonicMs s) 0 MAX_SAFE_INTEGER "last-monotonic-invalid" ;;
  guard! sn_lastMonotonicMs s <? sn_acquisitionDeclaredMonotonicMs s
    throws RangeError "snapshot-clock-regression" ;;
  guard! negb (Z.of_nat (length (sn_quotaWindowEvidence s)) =? bu_attempts (sn_budgets s)) ||
         negb (evidence_ok (sn_acquisitionDeclaredMonotonicMs s) (sn_lastMonotonicMs s) None
                 (sn_quotaWindowEvidence s))
    throws TypeError "snapshot-quota-evidence-invalid" ;;
  do! assert_hashes_sorted None (sn_consumedTokenHashes s) ;;
  guard! negb (Bool.eqb (sn_pageOrdinal s =? 0)
           (bool_decide (sn_currentTokenHash s = NO_TOKEN_HASH) &&
            bool_decide (sn_currentContinuationBindingHash s = None)))
    throws TypeError "snapshot-token-state-invalid" ;;
  guard! (0 <? sn_pageOrdinal s) && negb (is_hash (sn_currentTokenHash s))
    throws TypeError "snapshot-token-state-invalid" ;;
  guard! negb (bool_decide (sn_pageChainHash s = GENESIS_HASH)) && negb (is_hash (sn_pageChainHash s))
    throws TypeError "snapshot-page-chain-invalid" ;;
  throw_if (negb (validate_terminal_reason s)) (TypeError "snapshot-terminal-invalid").

(** The time of the event, when the proof is about this acquisition. *)
Definition validateProof (s : AcquisitionMachineSnapshot) (proof : AcquisitionEventProof) : res Z :=
  let stale := TypeError "acquisition-event-proof-invalid" in
  guard! negb (bool_decide (pf_requestIdentityHash proof = sn_requestIdentityHash s)) ||
         negb (bool_decide (pf_acquisitionConfigurationHash proof = sn_acquisitionConfigurationHash s)) ||
         negb (bool_decide (pf_marketAcquisitionJournalId proof = sn_marketAcquisitionJournalId s)) ||
         negb (bool_decide (pf_runSessionNonce proof = sn_runSessionNonce s))
    throws stale ;;
  match pf_nowMonotonicMs proof with
  | NInt now =>
      guard! negb (is_safe_integer now) || (now <? sn_lastMonotonicMs s) throws stale ;;
      Ok now
  | NNegZero => guard! 0 <? sn_lastMonotonicMs s throws stale ;; Ok 0
  | NOther => Throw stale
  end.

Definition assertTransition (from target : AcquisitionState) : res unit :=
  throw_if (negb (bool_decide (target ∈ ACQUISITION_TRANSITIONS from)))
    (TypeError "acquisition-transition-invalid").

Definition terminalReasonForEvent (e : AcquisitionEventBody) : option jsstring :=
  match e with
  | Preflight_stopped reason | Preflight_failed reason | Attempt_stopped reason
  | Attempt_failed reason | Policy_stopped reason => Some reason
  | Credential_unavailable => Some (js "credential-unavailable")
  | Artifact_store_failed => Some (js "artifact-store-failed")
  | Page_verification_failed => Some (js "artifact-verification-failed")
  | Page_quarantined => Some (js "delivery-conflict")
  | Normalization_failed => Some (js "normalization-failed")
  | Normalization_quarantined => Some (js "correction-unsupported")
  | Selection_failed => Some (js "selection-failed")
  | Selection_quarantined => Some (js "delivery-conflict")
  | _ => None
  end.

Definition ensureResourcesSettled (proof : AcquisitionEventProof) (target : AcquisitionState) : res unit :=
  throw_if ((bool_decide (target = S_waiting_retry) || bool_decide (target = S_chain_complete) ||
    is_terminal target) && negb (pf_resourcesSettled proof))
    (TypeError "acquisition-resources-unsettled").

(** ** The reducer *)

(** What every transition changes. *)
Definition step_snapshot (s : AcquisitionMachineSnapshot) (target : AcquisitionState)
    (reason : option jsstring) (now : Z) : AcquisitionMachineSnapshot :=
  {|
    sn_schemaVersion := sn_schemaVersion s;
    sn_requestIdentityHash := sn_requestIdentityHash s;
    sn_acquisitionConfigurationHash := sn_acquisitionConfigurationHash s;
    sn_marketAcquisitionJournalId := sn_marketAcquisitionJournalId s;
    sn_runSessionNonce := sn_runSessionNonce s;
    sn_currentState := target;
    sn_laneDisabled := sn_laneDisabled s;
    sn_terminalReason := reason;
    sn_pageOrdinal := sn_pageOrdinal s;
    sn_pageAttemptsStarted := sn_pageAttemptsStarted s;
    sn_logicalPageIdentityHash := sn_logicalPageIdentityHash s;
    sn_attemptOrdinal := sn_attemptOrdinal s;
    sn_attemptId := sn_attemptId s;
    sn_retrievalAttemptId := sn_retrievalAttemptId s;
    sn_currentTokenHash := sn_currentTokenHash s;
    sn_currentContinuationBindingHash := sn_currentContinuationBindingHash s;
    sn_consumedTokenHashes := sn_consumedTokenHashes s;
    sn_pageChainHash := sn_pageChainHash s;
    sn_continuationAuthority := sn_continuationAuthority s;
    sn_budgets := sn_budgets s;
    sn_quotaWindowEvidence := sn_quotaWindowEvidence s;
    sn_acquisitionDeclaredMonotonicMs := sn_acquisitionDeclaredMonotonicMs s;
    sn_lastMonotonicMs := now;
    sn_pendingRetryDelayMs := sn_pendingRetryDelayMs s |}.

Definition with_attempt (s : AcquisitionMachineSnapshot) (ordinal : Z) (attempt : AttemptIdentities)
    (starts : list Z) : AcquisitionMachineSnapshot :=
  {|
    sn_schemaVersion := sn_schemaVersion s;
    sn_requestIdentityHash := sn_requestIdentityHash s;
    sn_acquisitionConfigurationHash := sn_acquisitionConfigurationHash s;
    sn_marketAcquisitionJournalId := sn_marketAcquisitionJournalId s;
    sn_runSessionNonce := sn_runSessionNonce s;
    sn_currentState := sn_currentState s;
    sn_laneDisabled := sn_laneDisabled s;
    sn_terminalReason := sn_terminalReason s;
    sn_pageOrdinal := sn_pageOrdinal s;
    sn_pageAttemptsStarted := sn_pageAttemptsStarted s + 1;
    sn_logicalPageIdentityHash := sn_logicalPageIdentityHash s;
    sn_attemptOrdinal := Some ordinal;
    sn_attemptId := Some (at_attemptId attempt);
    sn_retrievalAttemptId := Some (at_retrievalAttemptId attempt);
    sn_currentTokenHash := sn_currentTokenHash s;
    sn_currentContinuationBindingHash := sn_currentContinuationBindingHash s;
    sn_consumedTokenHashes := sn_consumedTokenHashes s;
    sn_pageChainHash := sn_pageChainHash s;
    sn_continuationAuthority := sn_continuationAuthority s;
    sn_budgets := {| bu_successfulPages := bu_successfulPages (sn_budgets s); bu_verifiedBytes := bu_verifiedBytes (sn_budgets s); bu_records := bu_records (sn_budgets s); bu_normalizedFacts := bu_normalizedFacts (sn_budgets s); bu_attempts := bu_attempts (sn_budgets s) + 1 |};
    sn_quotaWindowEvidence := starts;
    sn_acquisitionDeclaredMonotonicMs := sn_acquisitionDeclaredMonotonicMs s;
    sn_lastMonotonicMs := sn_lastMonotonicMs s;
    sn_pendingRetryDelayMs := sn_pendingRetryDelayMs s |}.

Definition with_pending (s : AcquisitionMachineSnapshot) (delay : option Z) : AcquisitionMachineSnapshot :=
  {|
    sn_schemaVersion := sn_schemaVersion s;
    sn_requestIdentityHash := sn_requestIdentityHash s;
    sn_acquisitionConfigurationHash := sn_acquisitionConfigurationHash s;
    sn_marketAcquisitionJournalId := sn_marketAcquisitionJournalId s;
    sn_runSessionNonce := sn_runSessionNonce s;
    sn_currentState := sn_currentState s;
    sn_laneDisabled := sn_laneDisabled s;
    sn_terminalReason := sn_terminalReason s;
    sn_pageOrdinal := sn_pageOrdinal s;
    sn_pageAttemptsStarted := sn_pageAttemptsStarted s;
    sn_logicalPageIdentityHash := sn_logicalPageIdentityHash s;
    sn_attemptOrdinal := sn_attemptOrdinal s;
    sn_attemptId := sn_attemptId s;
    sn_retrievalAttemptId := sn_retrievalAttemptId s;
    sn_currentTokenHash := sn_currentTokenHash s;
    sn_currentContinuationBindingHash := sn_currentContinuationBindingHash s;
    sn_consumedTokenHashes := sn_consumedTokenHashes s;
    sn_pageChainHash := sn_pageChainHash s;
    sn_continuationAuthority := sn_continuationAuthority s;
    sn_budgets := sn_budgets s;
    sn_quotaWindowEvidence := sn_quotaWindowEvidence s;
    sn_acquisitionDeclaredMonotonicMs := sn_acquisitionDeclaredMonotonicMs s;
    sn_lastMonotonicMs := sn_lastMonotonicMs s;
    sn_pendingRetryDelayMs := delay |}.

Definition with_page (s : AcquisitionMachineSnapshot) (budgets : AcquisitionBudgets)
    (pageChainHash : jsstring) (authority : option ContinuationAuthority) : AcquisitionMachineSnapshot :=
  {|
    sn_schemaVersion := sn_schemaVersion s;
    sn_requestIdentityHash := sn_requestIdentityHash s;
    sn_acquisitionConfigurationHash := sn_acquisitionConfigurationHash s;
    sn_marketAcquisitionJournalId := sn_marketAcquisitionJournalId s;
    sn_runSessionNonce := sn_runSessionNonce s;
    sn_currentState := sn_currentState s;
    sn_laneDisabled := sn_laneDisabled s;
    sn_terminalReason := sn_terminalReason s;
    sn_pageOrdinal := sn_pageOrdinal s;
    sn_pageAttemptsStarted := sn_pageAttemptsStarted s;
    sn_logicalPageIdentityHash := sn_logicalPageIdentityHash s;
    sn_attemptOrdinal := sn_attemptOrdinal s;
    sn_attemptId := sn_attemptId s;
    sn_retrievalAttemptId := sn_retrievalAttemptId s;
    sn_currentTokenHash := sn_currentTokenHash s;
    sn_currentContinuationBindingHash := sn_currentContinuationBindingHash s;
    sn_consumedTokenHashes := sn_consumedTokenHashes s;
    sn_pageChainHash := pageChainHash;
    sn_continuationAuthority := authority;
    sn_budgets := budgets;
    sn_quotaWindowEvidence := sn_quotaWindowEvidence s;
    sn_acquisitionDeclaredMonotonicMs := sn_acquisitionDeclaredMonotonicMs s;
    sn_lastMonotonicMs := sn_lastMonotonicMs s;
    sn_pendingRetryDelayMs := sn_pendingRetryDelayMs s |}.

Definition with_next_page (s : AcquisitionMachineSnapshot) (logicalPageIdentityHash tokenHash : jsstring)
    (binding : jsstring) : AcquisitionMachineSnapshot :=
  {|
    sn_schemaVersion := sn_schemaVersion s;
    sn_requestIdentityHash := sn_requestIdentityHash s;
    sn_acquisitionConfigurationHash := sn_acquisitionConfigurationHash s;
    sn_marketAcquisitionJournalId := sn_marketAcquisitionJournalId s;
    sn_runSessionNonce := sn_runSessionNonce s;
    sn_currentState := sn_currentState s;
    sn_laneDisabled := sn_laneDisabled s;
    sn_terminalReason := sn_terminalReason s;
    sn_pageOrdinal := sn_pageOrdinal s + 1;
    sn_pageAttemptsStarted := 0;
    sn_logicalPageIdentityHash := logicalPageIdentityHash;
    sn_attemptOrdinal := None;
    sn_attemptId := None;
    sn_retrievalAttemptId := None;
    sn_currentTokenHash := tokenHash;
    sn_currentContinuationBindingHash := Some binding;
    sn_consumedTokenHashes := sort_by js_leb (sn_consumedTokenHashes s ++ [tokenHash]);
    sn_pageChainHash := sn_pageChainHash s;
    sn_continuationAuthority := None;
    sn_budgets := sn_budgets s;
    sn_quotaWindowEvidence := sn_quotaWindowEvidence s;
    sn_acquisitionDeclaredMonotonicMs := sn_acquisitionDeclaredMonotonicMs s;
    sn_lastMonotonicMs := sn_lastMonotonicMs s;
    sn_pendingRetryDelayMs := sn_pendingRetryDelayMs s |}.

Definition with_facts (s : AcquisitionMachineSnapshot) (n : Z) : AcquisitionMachineSnapshot :=
  {|
    sn_schemaVersion := sn_schemaVersion s;
    sn_requestIdentityHash := sn_requestIdentityHash s;
    sn_acquisitionConfigurationHash := sn_acquisitionConfigurationHash s;
    sn_marketAcquisitionJournalId := sn_marketAcquisitionJournalId s;
    sn_runSessionNonce := sn_runSessionNonce s;
    sn_currentState := sn_currentState s;
    sn_laneDisabled := sn_laneDisabled s;
    sn_terminalReason := sn_terminalReason s;
    sn_pageOrdinal := sn_pageOrdinal s;
    sn_pageAttemptsStarted := sn_pageAttemptsStarted s;
    sn_logicalPageIdentityHash := sn_logicalPageIdentityHash s;
    sn_attemptOrdinal := sn_attemptOrdinal s;
    sn_attemptId := sn_attemptId s;
    sn_retrievalAttemptId := sn_retrievalAttemptId s;
    sn_currentTokenHash := sn_currentTokenHash s;
    sn_currentContinuationBindingHash := sn_currentContinuationBindingHash s;
    sn_consumedTokenHashes := sn_consumedTokenHashes s;
    sn_pageChainHash := sn_pageChainHash s;
    sn_continuationAuthority := sn_continuationAuthority s;
    sn_budgets := {| bu_successfulPages := bu_successfulPages (sn_budgets s); bu_verifiedBytes := bu_verifiedBytes (sn_budgets s); bu_records := bu_records (sn_budgets s); bu_normalizedFacts := n; bu_attempts := bu_attempts (sn_budgets s) |};
    sn_quotaWindowEvidence := sn_quotaWindowEvidence s;
    sn_acquisitionDeclaredMonotonicMs := sn_acquisitionDeclaredMonotonicMs s;
    sn_lastMonotonicMs := sn_lastMonotonicMs s;
    sn_pendingRetryDelayMs := sn_pendingRetryDelayMs s |}.

Definition with_lane (s : AcquisitionMachineSnapshot) (disabled : bool) : AcquisitionMachineSnapshot :=
  {|
    sn_schemaVersion := sn_schemaVersion s;
    sn_requestIdentityHash := sn_requestIdentityHash s;
    sn_acquisitionConfigurationHash := sn_acquisitionConfigurationHash s;
    sn_marketAcquisitionJournalId := sn_marketAcquisitionJournalId s;
    sn_runSessionNonce := sn_runSessionNonce s;
    sn_currentState := sn_currentState s;
    sn_laneDisabled := disabled;
    sn_terminalReason := sn_terminalReason s;
    sn_pageOrdinal := sn_pageOrdinal s;
    sn_pageAttemptsStarted := sn_pageAttemptsStarted s;
    sn_logicalPageIdentityHash := sn_logicalPageIdentityHash s;
    sn_attemptOrdinal := sn_attemptOrdinal s;
    sn_attemptId := sn_attemptId s;
    sn_retrievalAttemptId := sn_retrievalAttemptId s;
    sn_currentTokenHash := sn_currentTokenHash s;
    sn_currentContinuationBindingHash := sn_currentContinuationBindingHash s;
    sn_consumedTokenHashes := sn_consumedTokenHashes s;
    sn_pageChainHash := sn_pageChainHash s;
    sn_continuationAuthority := sn_continuationAuthority s;
    sn_budgets := sn_budgets s;
    sn_quotaWindowEvidence := sn_quotaWindowEvidence s;
    sn_acquisitionDeclaredMonotonicMs := sn_acquisitionDeclaredMonotonicMs s;
    sn_lastMonotonicMs := sn_lastMonotonicMs s;
    sn_pendingRetryDelayMs := sn_pendingRetryDelayMs s |}.

Definition without_reason (s : AcquisitionMachineSnapshot) : AcquisitionMachineSnapshot :=
  {|
    sn_schemaVersion := sn_schemaVersion s;
    sn_requestIdentityHash := sn_requestIdentityHash s;
    sn_acquisitionConfigurationHash := sn_acquisitionConfigurationHash s;
    sn_marketAcquisitionJournalId := sn_marketAcquisitionJournalId s;
    sn_runSessionNonce := sn_runSessionNonce s;
    sn_currentState := sn_currentState s;
    sn_laneDisabled := sn_laneDisabled s;
    sn_terminalReason := None;
    sn_pageOrdinal := sn_pageOrdinal s;
    sn_pageAttemptsStarted := sn_pageAttemptsStarted s;
    sn_logicalPageIdentityHash := sn_logicalPageIdentityHash s;
    sn_attemptOrdinal := sn_attemptOrdinal s;
    sn_attemptId := sn_attemptId s;
    sn_retrievalAttemptId := sn_retrievalAttemptId s;
    sn_currentTokenHash := sn_currentTokenHash s;
    sn_currentContinuationBindingHash := sn_currentContinuationBindingHash s;
    sn_consumedTokenHashes := sn_consumedTokenHashes s;
    sn_pageChainHash := sn_pageChainHash s;
    sn_continuationAuthority := sn_continuationAuthority s;
    sn_budgets := sn_budgets s;
    sn_quotaWindowEvidence := sn_quotaWindowEvidence s;
    sn_acquisitionDeclaredMonotonicMs := sn_acquisitionDeclaredMonotonicMs s;
    sn_lastMonotonicMs := sn_lastMonotonicMs s;
    sn_pendingRetryDelayMs := sn_pendingRetryDelayMs s |}.

(** Two numbers the code compares with [!==]. *)
Definition differs (n : jsnum) (z : Z) : bool := negb (bool_decide (n = NInt z)).

Definition derive_dispatch (s next : AcquisitionMachineSnapshot) (now : Z) (deadlineProof : DeadlineProof)
    (entitlementQuotaLimit : jsnum) : res AcquisitionMachineSnapshot :=
  guard! sn_laneDisabled s throws TypeError "lane-disabled" ;;
  do! validateDeadlineProof deadlineProof ;;
  guard! differs (dl_acquisitionDeclaredMonotonicMs deadlineProof) (sn_acquisitionDeclaredMonotonicMs s) ||
         differs (dl_nowMonotonicMs deadlineProof) now ||
         differs (dl_attemptStartedMonotonicMs deadlineProof) now ||
         (acquisitionDeadlineMs MARKET_ACQUISITION_LIMITS <=? now - sn_acquisitionDeclaredMonotonicMs s)
    throws TypeError "deadline-proof-mismatch" ;;
  guard! (attemptsPerLogicalPage MARKET_ACQUISITION_LIMITS <=? sn_pageAttemptsStarted s) ||
         (attemptsPerAcquisition MARKET_ACQUISITION_LIMITS <=? bu_attempts (sn_budgets s))
    throws RangeError "attempt-budget-exhausted" ;;
  let* quota := evaluateRollingQuota (NInt <$> sn_quotaWindowEvidence s) (NInt now) entitlementQuotaLimit
    (NInt (sn_acquisitionDeclaredMonotonicMs s + acquisitionDeadlineMs MARKET_ACQUISITION_LIMITS)) in
  match quota with
  | Quota_admit attemptStarts =>
      let attemptOrdinal := sn_pageAttemptsStarted s in
      let* attempt := deriveAttemptControlIdentities (sn_logicalPageIdentityHash s) attemptOrdinal
        (sn_runSessionNonce s) in
      Ok (with_attempt next attemptOrdinal attempt attemptStarts)
  | Quota_wait _ => Throw (RangeError "dispatch-wait")
  | Quota_stop _ => Throw (RangeError "dispatch-stop")
  end.

Definition derive_retry_cleanup (s next : AcquisitionMachineSnapshot) (now : Z) (context : RetryContext) :
    res AcquisitionMachineSnapshot :=
  guard! differs (rt_pageAttemptsStarted context) (sn_pageAttemptsStarted s) ||
         differs (rt_acquisitionAttemptsStarted context) (bu_attempts (sn_budgets s))
    throws TypeError "retry-context-mismatch" ;;
  let* decision := decideRetry context in
  match decision with
  | Retry delayMs _ =>
      let* fits := retryFitsAcquisitionDeadline (NInt now) (NInt delayMs)
        (NInt (sn_acquisitionDeclaredMonotonicMs s)) in
      guard! negb fits throws RangeError "retry-acquisition-deadline" ;;
      Ok (with_pending next (Some delayMs))
  | Stop _ => Throw (TypeError "retry-stop")
  end.

Definition derive_retry_elapsed (s next : AcquisitionMachineSnapshot) (now : Z)
    (delayProof : RetryDelayProof) : res AcquisitionMachineSnapshot :=
  match sn_pendingRetryDelayMs s with
  | None => Throw (TypeError "retry-delay-not-pending")
  | Some delay =>
      do! validateRetryDelayProof delay delayProof ;;
      guard! now - sn_lastMonotonicMs s <? delay throws TypeError "retry-delay-proof-backdated" ;;
      Ok (with_pending next None)
  end.

Definition page_budgets (s : AcquisitionMachineSnapshot) (input : PageChainInput) : AcquisitionBudgets := {|
  bu_successfulPages := pg_cumulativeSuccessfulPages input;
  bu_verifiedBytes := pg_cumulativeVerifiedBytes input;
  bu_records := pg_cumulativeRecords input;
  bu_normalizedFacts := bu_normalizedFacts (sn_budgets s);
  bu_attempts := bu_attempts (sn_budgets s) |}.

Definition derive_page_checkpoint (s next : AcquisitionMachineSnapshot) (input : PageChainInput)
    (nextTokenMaterial : option jsstring) : res AcquisitionMachineSnapshot :=
  guard! negb (bool_decide (pg_priorPageChainHash input = sn_pageChainHash s)) ||
         negb (bool_decide (pg_requestIdentityHash input = sn_requestIdentityHash s)) ||
         negb (bool_decide (pg_logicalPageIdentityHash input = sn_logicalPageIdentityHash s)) ||
         negb (pg_pageOrdinal input =? sn_pageOrdinal s) ||
         negb (bool_decide (pg_currentTokenHash input = sn_currentTokenHash s)) ||
         negb (pg_cumulativeSuccessfulPages input =? bu_successfulPages (sn_budgets s) + 1) ||
         negb (pg_cumulativeVerifiedBytes input =?
                 bu_verifiedBytes (sn_budgets s) + pg_artifactSizeBytes input) ||
         negb (pg_cumulativeRecords input =? bu_records (sn_budgets s) + pg_pageRecordCount input) ||
         negb (pg_cumulativeNormalizedFacts input =? 0) ||
         negb (pg_cumulativeAttempts input =? bu_attempts (sn_budgets s))
    throws TypeError "page-admission-proof-invalid" ;;
  let* admission := planPageAdmission input nextTokenMaterial in
  Ok (with_page next (page_budgets s input) (ad_pageChainHash admission)
    match nextTokenMaterial, ad_nextContinuationBindingHash admission with
    | Some material, Some binding => Some {|
        ca_nextTokenMaterial := material; ca_nextTokenHash := ad_nextTokenHash admission;
        ca_nextContinuationBindingHash := binding |}
    | _, _ => None
    end).

Definition derive_next_page (s next : AcquisitionMachineSnapshot) : res AcquisitionMachineSnapshot :=
  match sn_continuationAuthority s with
  | None => Throw (TypeError "continuation-authority-missing")
  | Some authority =>
      let* recomputedTokenHash := derivePrivateTokenHash (ca_nextTokenMaterial authority) in
      guard! negb (bool_decide (recomputedTokenHash = ca_nextTokenHash authority)) ||
             bool_decide (recomputedTokenHash ∈ sn_consumedTokenHashes s)
        throws TypeError "continuation-token-invalid" ;;
      let* page := deriveLogicalPageIdentityHash (sn_requestIdentityHash s) (sn_pageOrdinal s + 1)
        recomputedTokenHash in
      Ok (with_next_page next page recomputedTokenHash (ca_nextContinuationBindingHash authority))
  end.

Definition derive_normalized (next : AcquisitionMachineSnapshot) (count : jsnum) :
    res AcquisitionMachineSnapshot :=
  match epoch_value count with
  | Some n =>
      do! requireSafeInteger n 0 (normalizedFacts MARKET_ACQUISITION_LIMITS) "normalized-facts-invalid" ;;
      Ok (with_facts next n)
  | None => Throw (RangeError "normalized-facts-invalid")
  end.

Definition deriveNext (s : AcquisitionMachineSnapshot) (event : AcquisitionEvent) :
    res AcquisitionMachineSnapshot :=
  let* now := validateProof s (ev_proof event) in
  let target := EVENT_TARGETS (ev_body event) in
  do! assertTransition (sn_currentState s) target ;;
  do! ensureResourcesSettled (ev_proof event) target ;;
  let next := step_snapshot s target (terminalReasonForEvent (ev_body event)) now in
  match ev_body event with
  | Dispatch_started deadlineProof limit => derive_dispatch s next now deadlineProof limit
  | Retry_cleanup_complete context => derive_retry_cleanup s next now context
  | Retry_delay_elapsed delayProof => derive_retry_elapsed s next now delayProof
  | Page_checkpointed input material => derive_page_checkpoint s next input material
  | Continue_next_page => derive_next_page s next
  | Terminal_page_admitted =>
      guard! bool_decide (is_Some (sn_continuationAuthority s))
        throws TypeError "terminal-page-has-continuation" ;;
      Ok next
  | Normalization_completed count => derive_normalized next count
  | Attempt_stopped reason =>
      Ok (with_lane next (sn_laneDisabled s || bool_decide (reason = js "lane-disabled") ||
        bool_decide (reason = js "quota-exhausted")))
  | Selection_completed => Ok (without_reason next)
  | _ => Ok next
  end.

Record AcquisitionTransitionPlan : Type := {
  pl_eventKind : jsstring;
  pl_fromState : AcquisitionState;
  pl_toState : AcquisitionState;
  pl_checkpointKind : option JournalCheckpointKind;
  pl_next : AcquisitionMachineSnapshot
}.

(** The copy [JSON.parse] makes of the event's canonical text has the event's fields. *)
Definition deriveAcquisitionTransition (s : AcquisitionMachineSnapshot) (event : AcquisitionEvent) :
    res AcquisitionTransitionPlan :=
  do! validateSnapshot s ;;
  do! canonicalJson (event_json event) ;;
  let* next := deriveNext s event in
  do! validateSnapshot next ;;
  Ok {| pl_eventKind := event_kind (ev_body event); pl_fromState := sn_currentState s;
        pl_toState := sn_currentState next;
        pl_checkpointKind := checkpointForEvent s (ev_body event); pl_next := next |}.

Record InitialInput : Type := {
  in_requestIdentityHash : jsstring;
  in_acquisitionConfigurationHash : jsstring;
  in_marketAcquisitionJournalId : jsstring;
  in_runSessionNonce : jsstring;
  in_acquisitionDeclaredMonotonicMs : Z
}.

Definition zero_budgets : AcquisitionBudgets := {|
  bu_successfulPages := 0; bu_verifiedBytes := 0; bu_records := 0; bu_normalizedFacts := 0;
  bu_attempts := 0 |}.

Definition createInitialAcquisitionSnapshot (input : InitialInput) : res AcquisitionMachineSnapshot :=
  let* page := deriveLogicalPageIdentityHash (in_requestIdentityHash input) 0 NO_TOKEN_HASH in
  let snapshot := {|
    sn_schemaVersion := 1;
    sn_requestIdentityHash := in_requestIdentityHash input;
    sn_acquisitionConfigurationHash := in_acquisitionConfigurationHash input;
    sn_marketAcquisitionJournalId := in_marketAcquisitionJournalId input;
    sn_runSessionNonce := in_runSessionNonce input;
    sn_currentState := S_declared;
    sn_laneDisabled := false;
    sn_terminalReason := None;
    sn_pageOrdinal := 0;
    sn_pageAttemptsStarted := 0;
    sn_logicalPageIdentityHash := page;
    sn_attemptOrdinal := None;
    sn_attemptId := None;
    sn_retrievalAttemptId := None;
    sn_currentTokenHash := NO_TOKEN_HASH;
    sn_currentContinuationBindingHash := None;
    sn_consumedTokenHashes := [];
    sn_pageChainHash := GENESIS_HASH;
    sn_continuationAuthority := None;
    sn_budgets := zero_budgets;
    sn_quotaWindowEvidence := [];
    sn_acquisitionDeclaredMonotonicMs := in_acquisitionDeclaredMonotonicMs input;
    sn_lastMonotonicMs := in_acquisitionDeclaredMonotonicMs input;
    sn_pendingRetryDelayMs := None |} in
  do! validateSnapshot snapshot ;;
  Ok snapshot.

(** ** The machine

    [persist] is the caller's callback: it acts on the caller's world [W], and the
    machine waits for it before it replaces its snapshot. *)
Section persistence.
Context {W : Type} (persist : AcquisitionTransitionPlan → AcquisitionEvent → sm W unit).

Record AcquisitionStateMachine : Type := { am_snapshot : AcquisitionMachineSnapshot; am_world : W }.

(** The part of [#apply] before the [await]. *)
Definition plan_event (event : AcquisitionEvent) (m : AcquisitionStateMachine) : res AcquisitionTransitionPlan :=
  deriveAcquisitionTransition (am_snapshot m) event.

Definition apply (event : AcquisitionEvent) : sm AcquisitionStateMachine AcquisitionTransitionPlan := λ m,
  match plan_event event m with
  | Throw e => (m, Throw e)
  | Ok plan =>
      match persist plan event (am_world m) with
      | (w, Throw e) => ({| am_snapshot := am_snapshot m; am_world := w |}, Throw e)
      | (w, Ok _) => ({| am_snapshot := pl_next plan; am_world := w |}, Ok plan)
      end
  end.

(** The [production...] methods: the machine fills in the proof itself. *)
Definition ownedProof (s : AcquisitionMachineSnapshot) (nowMonotonicMs : jsnum) (resourcesSettled : bool) :
    AcquisitionEventProof := {|
  pf_requestIdentityHash := sn_requestIdentityHash s;
  pf_acquisitionConfigurationHash := sn_acquisitionConfigurationHash s;
  pf_marketAcquisitionJournalId := sn_marketAcquisitionJournalId s;
  pf_runSessionNonce := sn_runSessionNonce s;
  pf_nowMonotonicMs := nowMonotonicMs;
  pf_resourcesSettled := resourcesSettled |}.

Definition apply_owned (resourcesSettled : bool) (body : AcquisitionMachineSnapshot → res AcquisitionEventBody)
    (nowMonotonicMs : jsnum) : sm AcquisitionStateMachine AcquisitionTransitionPlan := λ m,
  match body (am_snapshot m) with
  | Throw e => (m, Throw e)
  | Ok b => apply {| ev_proof := ownedProof (am_snapshot m) nowMonotonicMs resourcesSettled; ev_body := b |} m
  end.

Definition productionBeginPreflight := apply_owned true (λ _, Ok Begin_preflight).
Definition productionApprovePreflight := apply_owned true (λ _, Ok Preflight_approved).
Definition productionCredentialsLoaded := apply_owned true (λ _, Ok Credentials_loaded).
Definition productionDispatchStarted (now entitlementQuotaLimit : jsnum) :=
  apply_owned true (λ s, Ok (Dispatch_started
    {| dl_acquisitionDeclaredMonotonicMs := NInt (sn_acquisitionDeclaredMonotonicMs s);
       dl_attemptStartedMonotonicMs := now; dl_nowMonotonicMs := now |} entitlementQuotaLimit)) now.
Definition productionResponseAccepted := apply_owned true (λ _, Ok Response_accepted).
Definition productionArtifactStoreStarted := apply_owned true (λ _, Ok Artifact_store_started).
Definition productionArtifactStoreCommitted := apply_owned true (λ _, Ok Artifact_store_committed).
Definition productionArtifactVerificationStarted := apply_owned true (λ _, Ok Artifact_verification_started).
Definition productionPageVerified := apply_owned true (λ _, Ok Page_verified).
Definition productionRetryCleanup (now : jsnum) (failure : RetryFailure) (resourcesSettled : bool) :=
  apply_owned resourcesSettled (λ s, Ok (Retry_cleanup_complete
    {| rt_failure := failure; rt_pageAttemptsStarted := NInt (sn_pageAttemptsStarted s);
       rt_acquisitionAttemptsStarted := NInt (bu_attempts (sn_budgets s)) |})) now.
Definition productionRetryDelayElapsed := apply_owned true (λ s,
  match sn_pendingRetryDelayMs s with
  | None => Throw (TypeError "retry-delay-not-pending")
  | Some delayMs => Ok (Retry_delay_elapsed
      {| dy_clockBasis := js "same-session-monotonic"; dy_elapsedMs := NInt delayMs;
         dy_monotonicOrderValid := true |})
  end).
Definition productionAttemptFailed (now : jsnum) (reason : jsstring) :=
  apply_owned true (λ _, Ok (Attempt_failed reason)) now.
Definition productionArtifactStoreFailed := apply_owned true (λ _, Ok Artifact_store_failed).
Definition productionPageVerificationFailed := apply_owned true (λ _, Ok Page_verification_failed).
End persistence.
End machine.
Arguments AcquisitionStateMachine : clear implicits.
