(* ===== verification/StateMachineFacts.v ===== *)
(** * Facts about the acquisition state machine

    The shape of an accepted transition, what a valid snapshot satisfies, and the
    reachable snapshots with their invariant. *)
From S2P Require Import Prelude JsString JsNumber Json Hash JsonObject Clock Acquisition.
From S2P Require Import AcquisitionClaims Journal StateMachine.

Section facts.
Context `{Sha256}.
Implicit Types s next : AcquisitionMachineSnapshot.

(** ** Valid snapshots *)

Lemma requireSafeInteger_Ok v lo hi m u : requireSafeInteger v lo hi m = Ok u → lo <= v <= hi.
Proof. intros Hv%throw_if_Ok. bool_prop. lia. Qed.

Record snapshot_valid (s : AcquisitionMachineSnapshot) : Prop := {
  va_page : 0 <= sn_pageOrdinal s <= 15;
  va_pageAttempts : 0 <= sn_pageAttemptsStarted s <= 3;
  va_pages : 0 <= bu_successfulPages (sn_budgets s) <= 16;
  va_bytes : 0 <= bu_verifiedBytes (sn_budgets s) <= 67108864;
  va_records : 0 <= bu_records (sn_budgets s) <= 160000;
  va_facts : 0 <= bu_normalizedFacts (sn_budgets s) <= 160000;
  va_attempts : 0 <= bu_attempts (sn_budgets s) <= 48;
  va_evidence : Z.of_nat (length (sn_quotaWindowEvidence s)) = bu_attempts (sn_budgets s);
  va_window : evidence_ok (sn_acquisitionDeclaredMonotonicMs s) (sn_lastMonotonicMs s) None
    (sn_quotaWindowEvidence s) = true;
  va_clock : 0 <= sn_acquisitionDeclaredMonotonicMs s <= sn_lastMonotonicMs s;
  va_token : sn_pageOrdinal s = 0 ↔
    sn_currentTokenHash s = NO_TOKEN_HASH ∧ sn_currentContinuationBindingHash s = None;
  va_reason : is_Some (sn_terminalReason s) ↔
    is_terminal (sn_currentState s) = true ∧ sn_currentState s ≠ S_completed
}.

Lemma validateSnapshot_inv s : validateSnapshot s = Ok tt → snapshot_valid s.
Proof.
  unfold validateSnapshot, validate_budgets. intros Hv.
  repeat (apply res_bind_Ok in Hv as (? & ? & Hv)).
  repeat match goal with
  | H1 : requireSafeInteger _ _ _ _ = Ok _ |- _ => apply requireSafeInteger_Ok in H1
  | H1 : throw_if _ _ = Ok _ |- _ => apply throw_if_Ok in H1
  | H1 : mbind _ _ = Ok _ |- _ => apply res_bind_Ok in H1 as (? & ? & H1)
  end.
  unfold MARKET_ACQUISITION_LIMITS in *.
  cbn [successfulPages attemptsPerLogicalPage aggregateVerifiedBytes recordsPerPage normalizedFacts
    attemptsPerAcquisition] in *.
  bool_prop. split; try (assumption || lia).
  - rewrite eqb_true_iff in H12. rewrite <-Z.eqb_eq, H12, andb_true_iff, !bool_decide_eq_true. done.
  - unfold validate_terminal_reason in Hv.
    destruct (is_terminal (sn_currentState s)) eqn:Et,
      (bool_decide_reflect (is_Some (sn_terminalReason s))),
      (bool_decide_reflect (sn_currentState s = S_completed)); cbn in Hv; try done; naive_solver.
Qed.

(** ** Accepted transitions *)

Record page_moved s next (h : jsstring) : Prop := {
  mv_authority : ∃ a, sn_continuationAuthority s = Some a ∧ ca_nextTokenHash a = h ∧
    derivePrivateTokenHash (ca_nextTokenMaterial a) = Ok h ∧
    sn_currentContinuationBindingHash next = Some (ca_nextContinuationBindingHash a);
  mv_fresh : h ∉ sn_consumedTokenHashes s;
  mv_consumed : sn_consumedTokenHashes next = sort_by js_leb (sn_consumedTokenHashes s ++ [h]);
  mv_ordinal : sn_pageOrdinal next = sn_pageOrdinal s + 1;
  mv_token : sn_currentTokenHash next = h;
  mv_attempts : sn_pageAttemptsStarted next = 0;
  mv_none : sn_continuationAuthority next = None
}.

Record page_kept s next : Prop := {
  ke_consumed : sn_consumedTokenHashes next = sn_consumedTokenHashes s;
  ke_ordinal : sn_pageOrdinal next = sn_pageOrdinal s;
  ke_token : sn_currentTokenHash next = sn_currentTokenHash s;
  ke_binding : sn_currentContinuationBindingHash next = sn_currentContinuationBindingHash s
}.

Record stepped s (body : AcquisitionEventBody) (now : Z) next : Prop := {
  sp_request : sn_requestIdentityHash next = sn_requestIdentityHash s;
  sp_configuration : sn_acquisitionConfigurationHash next = sn_acquisitionConfigurationHash s;
  sp_journal : sn_marketAcquisitionJournalId next = sn_marketAcquisitionJournalId s;
  sp_nonce : sn_runSessionNonce next = sn_runSessionNonce s;
  sp_declared : sn_acquisitionDeclaredMonotonicMs next = sn_acquisitionDeclaredMonotonicMs s;
  sp_target : sn_currentState next = EVENT_TARGETS body;
  sp_transition : sn_currentState next ∈ ACQUISITION_TRANSITIONS (sn_currentState s);
  sp_clock : sn_lastMonotonicMs next = now ∧ sn_lastMonotonicMs s <= now;
  sp_attempts : match body with
    | Dispatch_started _ limit =>
        (∃ deadline, evaluateRollingQuota (NInt <$> sn_quotaWindowEvidence s) (NInt now) limit deadline =
           Ok (Quota_admit (sn_quotaWindowEvidence next))) ∧
        bu_attempts (sn_budgets next) = bu_attempts (sn_budgets s) + 1 ∧
        now - sn_acquisitionDeclaredMonotonicMs s < 300000 ∧ sn_laneDisabled s = false ∧
        sn_pageAttemptsStarted next = sn_pageAttemptsStarted s + 1
    | _ => sn_quotaWindowEvidence next = sn_quotaWindowEvidence s ∧
        bu_attempts (sn_budgets next) = bu_attempts (sn_budgets s)
    end;
  sp_page : match body with
    | Continue_next_page => ∃ h, page_moved s next h
    | _ => page_kept s next
    end;
  sp_admitted : match body with
    | Page_checkpointed input _ =>
        bu_successfulPages (sn_budgets next) = bu_successfulPages (sn_budgets s) + 1 ∧
        bu_verifiedBytes (sn_budgets next) = bu_verifiedBytes (sn_budgets s) + pg_artifactSizeBytes input ∧
        bu_records (sn_budgets next) = bu_records (sn_budgets s) + pg_pageRecordCount input
    | Continue_next_page => bu_successfulPages (sn_budgets next) = bu_successfulPages (sn_budgets s)
    | _ => bu_successfulPages (sn_budgets next) = bu_successfulPages (sn_budgets s) ∧
        sn_continuationAuthority next = sn_continuationAuthority s
    end;
  sp_lane : sn_laneDisabled s = true → sn_laneDisabled next = true
}.

Lemma validateProof_inv s proof now :
  validateProof s proof = Ok now → sn_lastMonotonicMs s <= now.
Proof.
  intros (u & _ & Hp)%res_bind_Ok. destruct (pf_nowMonotonicMs proof) as [z| |]; [| |done].
  - apply res_bind_Ok in Hp as (v & Hv%throw_if_Ok & [= <-]). bool_prop. done.
  - apply res_bind_Ok in Hp as (v & Hv%throw_if_Ok & [= <-]). bool_prop. done.
Qed.

Lemma deriveNext_inv s event next :
  deriveNext s event = Ok next → ∃ now, validateProof s (ev_proof event) = Ok now ∧
    stepped s (ev_body event) now next.
Proof.
  destruct event as [proof body]. unfold deriveNext. cbn [ev_proof ev_body].
  intros (now & Hp & (u & Ht%throw_if_Ok & (v & Hr & Hn)%res_bind_Ok)%res_bind_Ok)%res_bind_Ok.
  exists now. split; [done|]. apply validateProof_inv in Hp as Hlast.
  apply negb_false_iff, bool_decide_eq_true in Ht.
  destruct body; cbn beta iota in Hn.
  all: try (apply Ok_inj in Hn as <-; split; cbn; done).
  - apply res_bind_Ok in Hn as (u1 & Hlane%throw_if_Ok & Hn).
    apply res_bind_Ok in Hn as (u2 & _ & Hn). apply res_bind_Ok in Hn as (u3 & Hd%throw_if_Ok & Hn).
    apply res_bind_Ok in Hn as (u4 & _ & Hn). apply res_bind_Ok in Hn as (quota & Hq & Hn).
    destruct quota as [starts| |]; [|done..]. apply res_bind_Ok in Hn as (attempt & _ & Hn).
    apply Ok_inj in Hn as <-. repeat (apply orb_false_iff in Hd as [Hd ?]). bool_prop.
    split; cbn; try done. split_and!; try done. by eexists.
  - apply res_bind_Ok in Hn as (u1 & _ & Hn). apply res_bind_Ok in Hn as ([delay ordinal|] & _ & Hn); [|done].
    apply res_bind_Ok in Hn as (fits & _ & Hn). apply res_bind_Ok in Hn as (u2 & _ & Hn).
    apply Ok_inj in Hn as <-. split; cbn; done.
  - unfold derive_retry_elapsed in Hn. destruct (sn_pendingRetryDelayMs s) as [delay|]; [|done].
    apply res_bind_Ok in Hn as (u1 & _ & Hn). apply res_bind_Ok in Hn as (u2 & _ & Hn).
    apply Ok_inj in Hn as <-. split; cbn; done.
  - apply Ok_inj in Hn as <-. split; cbn; try done. by intros ->.
  - apply res_bind_Ok in Hn as (u1 & Hg%throw_if_Ok & Hn).
    apply res_bind_Ok in Hn as (admission & _ & Hn). apply Ok_inj in Hn as <-.
    repeat (apply orb_false_iff in Hg as [Hg ?]). bool_prop. split; cbn; done.
  - unfold derive_next_page in Hn. destruct (sn_continuationAuthority s) as [a|] eqn:Ha; [|done].
    apply res_bind_Ok in Hn as (h & Hh & Hn). apply res_bind_Ok in Hn as (u1 & Hg%throw_if_Ok & Hn).
    apply res_bind_Ok in Hn as (page & _ & Hn). apply Ok_inj in Hn as <-. bool_prop.
    split; cbn; try done. exists h. split; cbn; try done. by exists a.
  - apply res_bind_Ok in Hn as (u1 & _ & Hn). apply Ok_inj in Hn as <-. split; cbn; done.
  - unfold derive_normalized in Hn. destruct (epoch_value _) as [n|]; [|done].
    apply res_bind_Ok in Hn as (u1 & _ & Hn). apply Ok_inj in Hn as <-. split; cbn; done.
Qed.

Lemma transition_inv s event plan :
  deriveAcquisitionTransition s event = Ok plan → snapshot_valid s ∧ snapshot_valid (pl_next plan) ∧
    pl_fromState plan = sn_currentState s ∧ pl_toState plan = sn_currentState (pl_next plan) ∧
    ∃ now, validateProof s (ev_proof event) = Ok now ∧ stepped s (ev_body event) now (pl_next plan).
Proof.
  intros ([] & Hs & (t & _ & (next & Hn & ([] & Hv & Hp)%res_bind_Ok)%res_bind_Ok)%res_bind_Ok)%res_bind_Ok.
  apply Ok_inj in Hp as <-. cbn [pl_fromState pl_toState pl_next].
  split_and!; [by apply validateSnapshot_inv..|done|done|by apply deriveNext_inv].
Qed.

(** ** Reachable snapshots *)

(** The snapshots of an acquisition: the initial one and what accepted events lead to. *)
Inductive reachable : AcquisitionMachineSnapshot → Prop :=
  | reach_initial input s : createInitialAcquisitionSnapshot input = Ok s → reachable s
  | reach_step s event plan : reachable s → deriveAcquisitionTransition s event = Ok plan →
      reachable (pl_next plan).

Lemma reachable_validated s : reachable s → validateSnapshot s = Ok tt.
Proof.
  intros [input s' Hc|s0 event plan _ Ht].
  - apply res_bind_Ok in Hc as (page & _ & Hc). apply res_bind_Ok in Hc as ([] & Hv & Hc).
    by apply Ok_inj in Hc as <-.
  - apply res_bind_Ok in Ht as (? & _ & Ht). apply res_bind_Ok in Ht as (? & _ & Ht).
    apply res_bind_Ok in Ht as (next & _ & Ht). apply res_bind_Ok in Ht as ([] & Hv & Ht).
    by apply Ok_inj in Ht as <-.
Qed.

Record machine_inv (s : AcquisitionMachineSnapshot) : Prop := {
  mi_valid : snapshot_valid s;
  mi_quota : quota_inv PROJECT_RATE_ATTEMPTS (sn_quotaWindowEvidence s);
  mi_consumed : Z.of_nat (length (sn_consumedTokenHashes s)) = sn_pageOrdinal s;
  mi_nodup : NoDup (sn_consumedTokenHashes s);
  mi_current : 0 < sn_pageOrdinal s → sn_currentTokenHash s ∈ sn_consumedTokenHashes s;
  mi_pages : sn_pageOrdinal s + match sn_continuationAuthority s with Some _ => 1 | None => 0 end
    <= bu_successfulPages (sn_budgets s)
}.

Lemma initial_inv input s : createInitialAcquisitionSnapshot input = Ok s → machine_inv s.
Proof.
  intros (page & _ & ([] & Hv & Hs)%res_bind_Ok)%res_bind_Ok. apply Ok_inj in Hs as <-.
  apply validateSnapshot_inv in Hv. split; cbn; try done.
  - apply quota_inv_nil.
  - constructor.
Qed.

Lemma consumed_moved s next h :
  page_moved s next h → NoDup (sn_consumedTokenHashes s) →
  NoDup (sn_consumedTokenHashes next) ∧ h ∈ sn_consumedTokenHashes next ∧
  length (sn_consumedTokenHashes next) = S (length (sn_consumedTokenHashes s)).
Proof.
  intros [_ Hf Hc _ _ _ _] Hn. rewrite Hc, sort_by_length, length_app, elem_of_sort_by. split_and!.
  - rewrite (sort_by_perm js_leb). apply NoDup_app. split_and!; [done| |apply NoDup_singleton].
    intros x Hx Hx'. apply list_elem_of_singleton in Hx'. by subst.
  - apply elem_of_app. right. by left.
  - cbn. lia.
Qed.

Lemma transition_machine_inv s event plan :
  machine_inv s → deriveAcquisitionTransition s event = Ok plan → machine_inv (pl_next plan).
Proof.
  intros [Hv Hq Hc Hn Hcur Hp] Ht. apply transition_inv in Ht as (_ & Hv' & _ & _ & now & _ & Hs).
  destruct Hs as [_ _ _ _ _ _ _ _ Ha Hpg Had _]. destruct (ev_body event).
  all: try (destruct Ha as [Hev _]; destruct Hpg as [K1 K2 K3 _]; destruct Had as [A1 A2];
    split; [done|by rewrite Hev|by rewrite K1, K2|by rewrite K1|by rewrite K1, K2, K3|by rewrite K2, A1, A2]).
  - destruct Ha as [[deadline Hev] _]. destruct Hpg as [K1 K2 K3 _]. destruct Had as [A1 A2].
    split; [done| |by rewrite K1, K2|by rewrite K1|by rewrite K1, K2, K3|by rewrite K2, A1, A2].
    eapply (quota_admitted _ _ _ _ _ _ Hq) in Hev as [Hev _]; [exact Hev|]. intros L _. lia.
  - destruct Ha as [Hev _]. destruct Hpg as [K1 K2 K3 _]. destruct Had as [A1 _].
    split; [done|by rewrite Hev|by rewrite K1, K2|by rewrite K1|by rewrite K1, K2, K3|].
    rewrite K2, A1. destruct (sn_continuationAuthority _), (sn_continuationAuthority _); lia.
  - destruct Ha as [Hev _]. destruct Hpg as [h Hm]. destruct (consumed_moved _ _ _ Hm Hn) as (N1 & N2 & N3).
    destruct Hm as [(a & Ha & _) _ _ M1 M2 _ M3].
    split; [done|by rewrite Hev| |done|by rewrite M2|].
    + rewrite N3, M1. lia.
    + rewrite M1, M3, Had. rewrite Ha in Hp. lia.
Qed.

Lemma reachable_inv s : reachable s → machine_inv s.
Proof. induction 1; [by eapply initial_inv|by eapply transition_machine_inv]. Qed.
End facts.
