(* ===== verification/StateMachineClaims.v ===== *)
(** * What the acquisition state machine guarantees

    Runs of accepted events from an initial snapshot: their invariant, what never
    changes, that they end, that a refused event leaves no trace; and the two
    places where the machine accepts what its contract rules out. *)
From S2P Require Import Prelude JsString JsNumber Json Hash JsonObject Clock Acquisition.
From S2P Require Import AcquisitionClaims Journal StateMachine StateMachineFacts Fixture.

Section runs.
Context `{Sha256}.

(** A run: every event is accepted. *)
Definition run_event (s : AcquisitionMachineSnapshot) (event : AcquisitionEvent) :
    res AcquisitionMachineSnapshot :=
  let* plan := deriveAcquisitionTransition s event in Ok (pl_next plan).

Definition run_events (s : AcquisitionMachineSnapshot) (events : list AcquisitionEvent) :
    res AcquisitionMachineSnapshot :=
  res_fold run_event s events.

Lemma run_event_inv s event s' :
  run_event s event = Ok s' → ∃ plan, deriveAcquisitionTransition s event = Ok plan ∧ s' = pl_next plan.
Proof. intros (plan & Hp & [= <-])%res_bind_Ok. by exists plan. Qed.

Lemma run_events_reachable s events s' : reachable s → run_events s events = Ok s' → reachable s'.
Proof.
  intros Hs Hr. eapply (res_fold_invariant reachable); [|exact Hs|exact Hr].
  intros s1 e s2 H1 _ (plan & Hp & ->)%run_event_inv. by eapply reach_step.
Qed.

(** ** What only grows *)

Record later (s s' : AcquisitionMachineSnapshot) : Prop := {
  lt_request : sn_requestIdentityHash s' = sn_requestIdentityHash s;
  lt_configuration : sn_acquisitionConfigurationHash s' = sn_acquisitionConfigurationHash s;
  lt_journal : sn_marketAcquisitionJournalId s' = sn_marketAcquisitionJournalId s;
  lt_nonce : sn_runSessionNonce s' = sn_runSessionNonce s;
  lt_declared : sn_acquisitionDeclaredMonotonicMs s' = sn_acquisitionDeclaredMonotonicMs s;
  lt_clock : sn_lastMonotonicMs s <= sn_lastMonotonicMs s';
  lt_evidence : sn_quotaWindowEvidence s `prefix_of` sn_quotaWindowEvidence s';
  lt_page : sn_pageOrdinal s <= sn_pageOrdinal s';
  lt_pages : bu_successfulPages (sn_budgets s) <= bu_successfulPages (sn_budgets s');
  lt_consumed : sn_consumedTokenHashes s ⊆ sn_consumedTokenHashes s';
  lt_lane : sn_laneDisabled s = true → sn_laneDisabled s' = true
}.

#[export] Instance later_preorder : PreOrder later.
Proof.
  split.
  - intros s. by split.
  - intros s1 s2 s3 [] []. split; try congruence; try lia; [by etrans|by etrans|auto].
Qed.

Lemma ordered_evidence s : machine_inv s → ordered (sn_quotaWindowEvidence s).
Proof. intros Hs. apply (mi_quota _ Hs). Qed.

Lemma transition_later s event plan :
  machine_inv s → deriveAcquisitionTransition s event = Ok plan → later s (pl_next plan).
Proof.
  intros Hs Ht. apply transition_inv in Ht as (_ & _ & _ & _ & now & _ & Hst).
  destruct Hst as [E1 E2 E3 E4 E5 _ _ [Hc Hle] Ha Hp Had Hl]. split; try done; [lia|..].
  - destruct (ev_body event); try (by destruct Ha as [-> _]).
    destruct Ha as [[deadline Ha] _].
    apply (quota_admitted _ _ _ _ _ _ (mi_quota _ Hs)) in Ha as [_ (p & _ & -> & _)]; [|lia].
    by apply prefix_app_r.
  - destruct (ev_body event); try (destruct Hp as [_ -> _ _]; lia). destruct Hp as [h [_ _ _ -> _ _ _]]. lia.
  - destruct (ev_body event); (lia || (destruct Had as [-> _]; lia)).
  - destruct (ev_body event); try (by destruct Hp as [-> _ _ _]).
    destruct Hp as [h [_ _ -> _ _ _ _]]. intros x Hx. apply elem_of_sort_by, elem_of_app. by left.
Qed.

Lemma run_later s events s' :
  machine_inv s → run_events s events = Ok s' → machine_inv s' ∧ later s s'.
Proof.
  intros Hs Hr.
  eapply (res_fold_invariant (λ s', machine_inv s' ∧ later s s')); [|by split|exact Hr].
  intros s1 e s2 [H1 H2] _ (plan & Hp & ->)%run_event_inv.
  split; [by eapply transition_machine_inv|]. etrans; [exact H2|by eapply transition_later].
Qed.

(** ** Termination *)

(** How far a state is from the end when no further attempt starts. *)
Definition rank (s : AcquisitionState) : Z :=
  match s with
  | S_attempt_active => 11 | S_response_accepted => 10 | S_artifact_committing => 9
  | S_artifact_committed => 8 | S_artifact_verifying => 7 | S_page_verified => 6
  | S_checkpointing => 5 | S_waiting_retry | S_declared | S_chain_complete => 4
  | S_preflighting | S_normalizing => 3 | S_dispatch_ready | S_ready_for_selection => 2
  | S_credential_ready | S_selecting => 1
  | S_completed | S_stopped | S_failed_clean | S_quarantined => 0
  end.

Definition measure (s : AcquisitionMachineSnapshot) : Z :=
  11 * (MAX_ATTEMPTS_PER_ACQUISITION - bu_attempts (sn_budgets s)) + rank (sn_currentState s).

Lemma rank_step body s :
  EVENT_TARGETS body ∈ ACQUISITION_TRANSITIONS s →
  match body with Dispatch_started _ _ => s = S_credential_ready | _ => rank (EVENT_TARGETS body) < rank s end.
Proof.
  intros Ht. apply list_elem_of_In in Ht.
  destruct s; cbn [ACQUISITION_TRANSITIONS In] in Ht; destruct_or? Ht; try done;
    destruct body; cbn in Ht |- *; (discriminate || lia || done).
Qed.

Lemma transition_measure s event plan :
  deriveAcquisitionTransition s event = Ok plan → 0 <= measure (pl_next plan) < measure s.
Proof.
  intros Ht. apply transition_inv in Ht as (_ & Hv & _ & _ & now & _ & Hst).
  destruct Hst as [_ _ _ _ _ Hto Htr _ Ha _ _ _]. rewrite Hto in Htr. apply rank_step in Htr.
  pose proof (va_attempts _ Hv) as Hb. unfold measure. change MAX_ATTEMPTS_PER_ACQUISITION with 48.
  rewrite Hto. split; [destruct (EVENT_TARGETS _); cbn [rank]; lia|].
  destruct (ev_body event); try (destruct Ha as [_ ->]; lia).
  destruct Ha as (_ & -> & _). rewrite Htr. cbn [EVENT_TARGETS rank]. lia.
Qed.

Lemma run_measure s events s' :
  run_events s events = Ok s' → 0 <= measure s → Z.of_nat (length events) <= measure s - measure s' ∧ 0 <= measure s'.
Proof.
  revert s. induction events as [|e events IH]; intros s Hr Hm.
  - apply Ok_inj in Hr as <-. cbn. lia.
  - apply res_bind_Ok in Hr as (s1 & (plan & Hp & ->)%run_event_inv & Hr).
    apply transition_measure in Hp. apply IH in Hr; [|lia]. cbn [length]. lia.
Qed.
End runs.

(** ** The claims *)

(** C11: every snapshot an acquisition reaches is accepted by [validateSnapshot] and is
    within its budgets: 64 MiB of verified bytes, 160000 records, 160000 facts, 16 pages,
    three attempts for the page, 48 in all.  The attempt
    starts never exceed 30 in any window of 60 seconds, whatever entitlement limits
    the events carried; every attempt counted has its start there; page tokens are consumed at
    most once, one per page after the first, the current one included; and no page
    is opened that was not admitted before. *)
Theorem acquisition_invariant `{Sha256} (input : InitialInput) (s s' : AcquisitionMachineSnapshot)
    (events : list AcquisitionEvent) (lo : Z)
    (Hi : createInitialAcquisitionSnapshot input = Ok s) (Hr : run_events s events = Ok s') :
  validateSnapshot s' = Ok tt ∧
  0 <= bu_verifiedBytes (sn_budgets s') <= 67108864 ∧ 0 <= bu_records (sn_budgets s') <= 160000 ∧
  0 <= bu_normalizedFacts (sn_budgets s') <= 160000 ∧ 0 <= sn_pageAttemptsStarted s' <= 3 ∧
  window_count lo (lo + PROJECT_RATE_WINDOW_MS) (sn_quotaWindowEvidence s') <= PROJECT_RATE_ATTEMPTS ∧
  Z.of_nat (length (sn_quotaWindowEvidence s')) = bu_attempts (sn_budgets s') ∧
  bu_attempts (sn_budgets s') <= 48 ∧
  NoDup (sn_consumedTokenHashes s') ∧
  Z.of_nat (length (sn_consumedTokenHashes s')) = sn_pageOrdinal s' ∧
  (0 < sn_pageOrdinal s' → sn_currentTokenHash s' ∈ sn_consumedTokenHashes s') ∧
  sn_pageOrdinal s' <= bu_successfulPages (sn_budgets s') <= 16.
Proof.
  pose proof (run_events_reachable s events s' (reach_initial _ _ Hi) Hr) as Hreach.
  pose proof (reachable_validated _ Hreach) as Hok. pose proof (validateSnapshot_inv _ Hok) as [].
  apply reachable_inv in Hreach as [Hv Hq Hc Hn Hcur Hp].
  split_and!; try done; try lia; [|destruct (sn_continuationAuthority s'); lia].
  apply quota_inv_window; [cbn; lia|done].
Qed.

(** along a run the identities, the declaration time and the nonce never
    change; the clock never goes back; attempts, pages and consumed tokens are only
    added; a disabled lane stays disabled. *)
Theorem acquisition_monotone `{Sha256} (input : InitialInput) (s s1 s2 : AcquisitionMachineSnapshot)
    (before after : list AcquisitionEvent)
    (Hi : createInitialAcquisitionSnapshot input = Ok s) (H1 : run_events s before = Ok s1)
    (H2 : run_events s1 after = Ok s2) :
  later s1 s2.
Proof.
  pose proof (initial_inv _ _ Hi) as Hs. apply run_later in H1 as [Hs1 _]; [|done].
  by apply run_later in H2 as [_ ?].
Qed.

(** C13: every acquisition ends: no run has more than 532 accepted events, whatever
    the events are. *)
Theorem acquisition_terminates `{Sha256} (input : InitialInput) (s s' : AcquisitionMachineSnapshot)
    (events : list AcquisitionEvent)
    (Hi : createInitialAcquisitionSnapshot input = Ok s) (Hr : run_events s events = Ok s') :
  Z.of_nat (length events) <= 532.
Proof.
  assert (Hm : measure s = 532).
  { destruct (createInitialAcquisitionSnapshot input) as [s0|] eqn:E; [|done].
    apply Ok_inj in Hi as <-. unfold createInitialAcquisitionSnapshot in E.
    apply res_bind_Ok in E as (page & _ & E). apply res_bind_Ok in E as (u & _ & E).
    apply Ok_inj in E as <-. done. }
  apply run_measure in Hr as [Hr Hm']; lia.
Qed.

(** a terminal state is final: in completed, stopped, failed-clean and
    quarantined every event throws. *)
Theorem terminal_absorbing `{Sha256} (s : AcquisitionMachineSnapshot) (event : AcquisitionEvent)
    (Ht : is_terminal (sn_currentState s) = true) :
  ∃ e, deriveAcquisitionTransition s event = Throw e.
Proof.
  destruct (deriveAcquisitionTransition s event) as [plan|e] eqn:E; [|by exists e].
  exfalso. apply transition_inv in E as (_ & _ & _ & _ & now & _ & Hst).
  pose proof (sp_transition _ _ _ _ Hst) as Htr. apply bool_decide_eq_true in Ht.
  apply list_elem_of_In in Htr, Ht. cbn in Ht. by destruct_or? Ht; rewrite <-Ht in Htr.
Qed.

(** ** The machine and its persistence *)

Section machine_runs.
Context `{Sha256} {W : Type} (persist : AcquisitionTransitionPlan → AcquisitionEvent → sm W unit).

(** A caller that applies events one after the other and ignores the failures:
    the machine afterwards and the events that were accepted. *)
Definition apply_next (st : AcquisitionStateMachine W * list AcquisitionEvent) (event : AcquisitionEvent) :
    AcquisitionStateMachine W * list AcquisitionEvent :=
  match apply persist event st.1 with
  | (m, Ok _) => (m, st.2 ++ [event])
  | (m, Throw _) => (m, st.2)
  end.

Definition apply_all (m : AcquisitionStateMachine W) (events : list AcquisitionEvent) :
    AcquisitionStateMachine W * list AcquisitionEvent :=
  foldl apply_next (m, []) events.

Lemma apply_next_run s m accepted event m' accepted' :
  run_events s accepted = Ok (am_snapshot m) → apply_next (m, accepted) event = (m', accepted') →
  run_events s accepted' = Ok (am_snapshot m').
Proof.
  intros Hr. unfold apply_next, apply, plan_event. cbn [fst snd].
  destruct (deriveAcquisitionTransition (am_snapshot m) event) as [plan|e] eqn:Hd; [|by intros [= <- <-]].
  destruct (persist plan event (am_world m)) as [w [u|e]]; intros [= <- <-]; [|done].
  unfold run_events in *. rewrite res_fold_app, Hr. cbn [mbind res_bind res_fold].
  unfold run_event. by rewrite Hd.
Qed.
End machine_runs.

(** the machine refines its accepted events.  For every persistence callback,
    whatever it does to its own state and whenever it throws, the machine's snapshot
    is the result of the accepted events alone, in their order: an event that is
    refused, or that could not be persisted, leaves no trace in it. *)
Theorem machine_refines_accepted `{Sha256} {W : Type}
    (persist : AcquisitionTransitionPlan → AcquisitionEvent → sm W unit)
    (m m' : AcquisitionStateMachine W) (events accepted : list AcquisitionEvent)
    (Hm : apply_all persist m events = (m', accepted)) :
  accepted `sublist_of` events ∧ run_events (am_snapshot m) accepted = Ok (am_snapshot m').
Proof.
  unfold apply_all in Hm.
  assert (Hg : ∀ m0 acc, run_events (am_snapshot m) acc = Ok (am_snapshot m0) →
    ∀ m' accepted, foldl (apply_next persist) (m0, acc) events = (m', accepted) →
    (∃ more, accepted = acc ++ more ∧ more `sublist_of` events) ∧
    run_events (am_snapshot m) accepted = Ok (am_snapshot m')).
  { clear m' accepted Hm. induction events as [|e events IH]; intros m0 acc Hr m' accepted Hf.
    - injection Hf as <- <-. split; [|done]. exists []. by rewrite app_nil_r.
    - cbn [foldl] in Hf. destruct (apply_next persist (m0, acc) e) as [m1 acc1] eqn:E.
      pose proof (apply_next_run persist _ _ _ _ _ _ Hr E) as Hr1.
      destruct (IH m1 acc1 Hr1 m' accepted Hf) as [(more & -> & Hs) Hrun]. split; [|done].
      unfold apply_next in E. cbn [fst snd] in E.
      destruct (apply persist e m0) as [m2 [plan|x]]; injection E as <- <-.
      + exists (e :: more). rewrite <-app_assoc. split; [done|]. by apply sublist_skip.
      + exists more. split; [done|]. by apply sublist_cons. }
  destruct (Hg m [] eq_refl m' accepted Hm) as [(more & -> & Hs) Hrun]. done.
Qed.

(** ** A concrete acquisition *)

Definition demo_input : InitialInput := {|
  in_requestIdentityHash := ZERO_HASH; in_acquisitionConfigurationHash := ZERO_HASH;
  in_marketAcquisitionJournalId := ZERO_HASH; in_runSessionNonce := js "nonce";
  in_acquisitionDeclaredMonotonicMs := 1000 |}.

Definition or_else {A} (default : A) (r : res A) : A :=
  match r with Ok a => a | Throw _ => default end.

(** The event a caller sends at the time [now]. *)
Definition at_time (now : Z) (body : AcquisitionEventBody) : AcquisitionEvent := {|
  ev_proof := {| pf_requestIdentityHash := ZERO_HASH; pf_acquisitionConfigurationHash := ZERO_HASH;
    pf_marketAcquisitionJournalId := ZERO_HASH; pf_runSessionNonce := js "nonce";
    pf_nowMonotonicMs := NInt now; pf_resourcesSettled := true |};
  ev_body := body |}.

Definition demo_dispatch (now : Z) : AcquisitionEventBody :=
  Dispatch_started {| dl_acquisitionDeclaredMonotonicMs := NInt 1000;
    dl_attemptStartedMonotonicMs := NInt now; dl_nowMonotonicMs := NInt now |} (NInt 30).

(** One attempt, up to the verified page. *)
Definition attempt_events (now : Z) : list AcquisitionEvent :=
  at_time now <$> [Begin_preflight; Preflight_approved; Credentials_loaded; demo_dispatch now].

Definition page_events (now : Z) : list AcquisitionEvent :=
  at_time now <$> [Response_accepted; Artifact_store_started; Artifact_store_committed;
    Artifact_verification_started; Page_verified].

Definition demo_page (s : AcquisitionMachineSnapshot) : PageChainInput := {|
  pg_priorPageChainHash := sn_pageChainHash s;
  pg_marketAcquisitionId := js "maq1_" ++ ZERO_HASH;
  pg_requestIdentityHash := ZERO_HASH;
  pg_logicalPageIdentityHash := sn_logicalPageIdentityHash s;
  pg_pageOrdinal := sn_pageOrdinal s;
  pg_artifactObservationId := ZERO_HASH; pg_artifactDigest := ZERO_HASH;
  pg_artifactSizeBytes := 10; pg_artifactObservationHash := ZERO_HASH;
  pg_artifactContentId := js "mac1_" ++ ZERO_HASH; pg_rawArtifactId := js "mar1_" ++ ZERO_HASH;
  pg_currentTokenHash := sn_currentTokenHash s; pg_pageRecordCount := 3;
  pg_cumulativeSuccessfulPages := bu_successfulPages (sn_budgets s) + 1;
  pg_cumulativeVerifiedBytes := bu_verifiedBytes (sn_budgets s) + 10;
  pg_cumulativeRecords := bu_records (sn_budgets s) + 3;
  pg_cumulativeNormalizedFacts := 0; pg_cumulativeAttempts := bu_attempts (sn_budgets s) |}.

(** The run up to the page checkpoint of a snapshot. *)
Definition demo_admit (s : AcquisitionMachineSnapshot) (now : Z) (token : option jsstring) :
    list AcquisitionEvent :=
  [at_time now (Page_checkpointed (demo_page s) token)].

Definition demo_initial : AcquisitionMachineSnapshot :=
  Eval vm_compute in
  match createInitialAcquisitionSnapshot demo_input with
  | Ok s => s
  | Throw _ => step_snapshot {| sn_schemaVersion := 0; sn_requestIdentityHash := [];
      sn_acquisitionConfigurationHash := []; sn_marketAcquisitionJournalId := [];
      sn_runSessionNonce := []; sn_currentState := S_declared; sn_laneDisabled := false;
      sn_terminalReason := None; sn_pageOrdinal := 0; sn_pageAttemptsStarted := 0;
      sn_logicalPageIdentityHash := []; sn_attemptOrdinal := None; sn_attemptId := None;
      sn_retrievalAttemptId := None; sn_currentTokenHash := [];
      sn_currentContinuationBindingHash := None; sn_consumedTokenHashes := [];
      sn_pageChainHash := []; sn_continuationAuthority := None; sn_budgets := zero_budgets;
      sn_quotaWindowEvidence := []; sn_acquisitionDeclaredMonotonicMs := 0;
      sn_lastMonotonicMs := 0; sn_pendingRetryDelayMs := None |} S_declared None 0
  end.

Definition demo_run (s : AcquisitionMachineSnapshot) (events : list AcquisitionEvent) :
    AcquisitionMachineSnapshot := or_else demo_initial (run_events s events).

(** The first page verified, and admitted with and without a next token. *)
Definition first_attempt : list AcquisitionEvent := attempt_events 2000 ++ page_events 2100.
Definition demo_verified : AcquisitionMachineSnapshot := Eval vm_compute in demo_run demo_initial first_attempt.
Definition admit_next : list AcquisitionEvent := demo_admit demo_verified 2200 (Some (js "token")).
Definition to_second_page : list AcquisitionEvent :=
  first_attempt ++ admit_next ++ [at_time 2300 Continue_next_page].
Definition demo_second_page : AcquisitionMachineSnapshot := Eval vm_compute in demo_run demo_initial to_second_page.

Lemma demo_initial_ok : createInitialAcquisitionSnapshot demo_input = Ok demo_initial.
Proof. vm_compute. reflexivity. Qed.

Lemma demo_second_page_ok : run_events demo_initial to_second_page = Ok demo_second_page.
Proof. vm_compute. reflexivity. Qed.

Lemma acquisition_invariant_witness :
  sn_pageOrdinal demo_second_page = 1 ∧ validateSnapshot demo_second_page = Ok tt ∧
  window_count 0 (0 + PROJECT_RATE_WINDOW_MS) (sn_quotaWindowEvidence demo_second_page)
    <= PROJECT_RATE_ATTEMPTS.
Proof.
  destruct (acquisition_invariant demo_input demo_initial demo_second_page to_second_page 0
    demo_initial_ok demo_second_page_ok) as (Hv & _ & _ & _ & _ & Hw & _).
  split; [reflexivity|]. split; [exact Hv|exact Hw].
Defined.

Lemma acquisition_monotone_witness : later demo_initial demo_second_page.
Proof.
  apply (acquisition_monotone demo_input demo_initial demo_initial demo_second_page [] to_second_page).
  - exact demo_initial_ok.
  - reflexivity.
  - exact demo_second_page_ok.
Defined.

Lemma acquisition_terminates_witness : Z.of_nat (length to_second_page) <= 532.
Proof.
  apply (acquisition_terminates demo_input demo_initial demo_second_page to_second_page).
  - exact demo_initial_ok.
  - exact demo_second_page_ok.
Defined.

Definition demo_stopped : AcquisitionMachineSnapshot := Eval vm_compute in
  demo_run demo_initial [at_time 2000 Begin_preflight; at_time 2000 (Preflight_stopped (js "operator-stop"))].

Lemma terminal_absorbing_witness :
  sn_currentState demo_stopped = S_stopped ∧
  ∃ e, deriveAcquisitionTransition demo_stopped (at_time 3000 Begin_preflight) = Throw e.
Proof. split; [reflexivity|]. apply terminal_absorbing. reflexivity. Defined.

(** Persistence that refuses the second plan. *)
Definition refuse_second (plan : AcquisitionTransitionPlan) (event : AcquisitionEvent) : sm nat unit :=
  λ n, (S n, if Nat.eqb n 1 then Throw (Error "persistence failed") else Ok tt).

Lemma machine_refines_accepted_witness :
  let m := {| am_snapshot := demo_initial; am_world := 0%nat |} in
  let '(m', accepted) := apply_all refuse_second m (attempt_events 2000) in
  length accepted = 1%nat ∧ accepted `sublist_of` attempt_events 2000 ∧
  run_events demo_initial accepted = Ok (am_snapshot m').
Proof.
  cbn zeta. destruct (apply_all _ _ _) as [m' accepted] eqn:E. split.
  - apply (f_equal (λ p, length p.2)) in E. cbn [snd] in E. rewrite <-E. vm_compute. reflexivity.
  - exact (machine_refines_accepted refuse_second _ _ _ _ E).
Defined.

(** ** What the machine accepts although its contract rules it out *)

Definition waiting_events : list AcquisitionEvent :=
  attempt_events 2000 ++ [at_time 2100 (Retry_cleanup_complete {| rt_failure := Pre_response_transport;
    rt_pageAttemptsStarted := NInt 1; rt_acquisitionAttemptsStarted := NInt 1 |})].
Definition demo_waiting : AcquisitionMachineSnapshot := Eval vm_compute in demo_run demo_initial waiting_events.
Definition early_events : list AcquisitionEvent := attempt_events 2100.
Definition demo_early : AcquisitionMachineSnapshot := Eval vm_compute in demo_run demo_waiting early_events.

(** the retry delay can be skipped.  The table checks pairs of states only, so
    [begin-preflight], the event of the declaration, is accepted from waiting-retry:
    without a delay proof, at the very time the delay of 1,000 ms started, the next
    attempt is dispatched, and the delay stays pending. *)
Theorem retry_delay_skipped :
  ∃ s s', createInitialAcquisitionSnapshot demo_input = Ok demo_initial ∧
    run_events demo_initial waiting_events = Ok s ∧
    sn_currentState s = S_waiting_retry ∧ sn_pendingRetryDelayMs s = Some 1000 ∧
    run_events s early_events = Ok s' ∧
    sn_currentState s' = S_attempt_active ∧ sn_lastMonotonicMs s' = sn_lastMonotonicMs s ∧
    bu_attempts (sn_budgets s') = 2 ∧ sn_pendingRetryDelayMs s' = Some 1000.
Proof.
  exists demo_waiting, demo_early. split; [exact demo_initial_ok|].
  split_and!; vm_compute; reflexivity.
Qed.

Definition checkpoint_events : list AcquisitionEvent := first_attempt ++ demo_admit demo_verified 2200 None.
Definition demo_checkpointed : AcquisitionMachineSnapshot :=
  Eval vm_compute in demo_run demo_initial checkpoint_events.
Definition demo_verified_again : AcquisitionMachineSnapshot :=
  Eval vm_compute in demo_run demo_checkpointed (attempt_events 2300 ++ page_events 2400).
Definition again_events : list AcquisitionEvent :=
  attempt_events 2300 ++ page_events 2400 ++ demo_admit demo_verified_again 2500 None.
Definition demo_twice : AcquisitionMachineSnapshot := Eval vm_compute in demo_run demo_checkpointed again_events.

(** a page can be admitted twice.  [begin-preflight] is also accepted from
    checkpointing, where it neither consumes the continuation authority nor advances
    the page: the first page, admitted as terminal, is fetched and admitted again,
    and the run counts two successful pages and twice the bytes for one page. *)
Theorem page_admitted_twice :
  ∃ s s', run_events demo_initial checkpoint_events = Ok s ∧
    sn_currentState s = S_checkpointing ∧ bu_successfulPages (sn_budgets s) = 1 ∧
    run_events s again_events = Ok s' ∧ sn_currentState s' = S_checkpointing ∧
    sn_pageOrdinal s' = 0 ∧ bu_successfulPages (sn_budgets s') = 2 ∧
    bu_verifiedBytes (sn_budgets s') = 2 * bu_verifiedBytes (sn_budgets s).
Proof. exists demo_checkpointed, demo_twice. split_and!; vm_compute; reflexivity. Qed.

(** Calls of [applyAcquisitionEvent] that overlap: a call plans against the snapshot
    of its start, and replaces the snapshot when its persistence is done. *)
Inductive async_op : Type :=
  | Call (event : AcquisitionEvent)
  | Persisted (index : nat).

Record AsyncMachine : Type := {
  as_snapshot : AcquisitionMachineSnapshot;
  as_pending : list AcquisitionTransitionPlan;
  as_persisted : list AcquisitionTransitionPlan
}.

Definition async_step `{Sha256} (m : AsyncMachine) (op : async_op) : AsyncMachine :=
  match op with
  | Call event =>
      match deriveAcquisitionTransition (as_snapshot m) event with
      | Ok plan => {| as_snapshot := as_snapshot m; as_pending := as_pending m ++ [plan];
                      as_persisted := as_persisted m |}
      | Throw _ => m
      end
  | Persisted i =>
      match as_pending m !! i with
      | Some plan => {| as_snapshot := pl_next plan; as_pending := delete i (as_pending m);
                        as_persisted := as_persisted m ++ [plan] |}
      | None => m
      end
  end.

Definition demo_ready : AcquisitionMachineSnapshot :=
  Eval vm_compute in demo_run demo_initial (take 3 (attempt_events 2000)).
Definition overlapping : list async_op :=
  [Call (at_time 2000 (demo_dispatch 2000)); Call (at_time 2050 (demo_dispatch 2050)); Persisted 0; Persisted 0].
Definition demo_async : AsyncMachine :=
  Eval vm_compute in foldl async_step {| as_snapshot := demo_ready; as_pending := []; as_persisted := [] |} overlapping.

(** overlapping calls lose an update.  The machine does not serialise its calls:
    two dispatches that start before either is persisted are both persisted as
    attempt-started plans, and the snapshot afterwards counts one attempt. *)
Theorem overlapping_calls_lose_update :
  ∃ m, foldl async_step {| as_snapshot := demo_ready; as_pending := []; as_persisted := [] |} overlapping = m ∧
    pl_checkpointKind <$> as_persisted m = [Some K_attempt_started; Some K_attempt_started] ∧
    as_pending m = [] ∧ bu_attempts (sn_budgets (as_snapshot m)) = 1 ∧
    sn_quotaWindowEvidence (as_snapshot m) = [2050].
Proof. exists demo_async. split_and!; vm_compute; reflexivity. Qed.
